(* ===== verification/_CoqProject ===== *)
-Q . S2P
Prelude.v
KString.v
Kalloc.v
BlockLayer.v
Bio.v
Log.v
LogBio.v
Fs.v
FsAlloc.v
FsInode.v
FsFile.v
FsDir.v
Pipe.v
Spin.v
Sem.v
Vm.v
VmSpec.v
VmKern.v
File.v
Sysfile.v
SysfileSpec.v
Proc.v
ProcSpec.v
ProcOps.v
Shell.v
ShellSpec.v
ShellPrint.v
Shell1.v
Syscall.v
Exec.v
Trap.v
Umalloc.v
Print.v
Console.v
Kbd.v
Mkfs.v
MkfsSpec.v
Ide.v
IdeSpec.v
UserProgs.v
Boot.v
Mp.v
Gates.v
ShMain.v
Apic.v
Threads.v
ProdCons.v
MsgQueue.v
UserMain.v
Start.v
VmCount.v
