(* ===== verification/Prelude.v ===== *)
(** Verification of BasicOS: the xv6 kernel of [xv6-public/], its boot loader,
    drivers, user library, user programs and image builder, and the programs of
    the first homework ([cs238p_hw1/]).

    * The program

    The repository is a teaching operating system with homework extensions
    (one-level linked indirect blocks, memory statistics, threads with
    user-level locks). Its parts, bottom up:

    - start: [bootmain.c] loads the kernel from disk; [mp.c] finds the
      processors and interrupt controllers, which [lapic.c] and [ioapic.c]
      drive; [vm.c] and [trap.c] fill the descriptor tables;
    - memory: [kalloc.c] keeps free physical pages in an intrusive list;
      [string.c] moves bytes; [vm.c] builds page tables out of pages;
    - disk: [memide.c] is the disk the kernel is built with, [ide.c] the driver
      of a real one; [bio.c] caches blocks in an LRU list of buffers guarded by
      sleep locks ([sleeplock.c]), [log.c] groups block updates into
      transactions and replays them after a crash;
    - files: [fs.c] has the block allocator, inodes, file contents, directories
      and paths; [file.c] the open files; [pipe.c] the pipes; [sysfile.c] the
      system calls on them; [mkfs.c] builds the first image on the host;
    - processes: [spinlock.c] excludes processors from each other, [proc.c] has
      the process table, [fork], [exit], [wait], [sleep], [wakeup], the
      scheduler and threads; [exec.c] loads a program;
    - the boundary: [trap.c] and [syscall.c] dispatch, and check what user code
      passes; [console.c] edits lines of keys that [kbd.c] decodes;
    - user side: [umalloc.c], [printf.c], [ulib.c]; [thread_lock_impl.h] builds
      locks, condition variables and semaphores for threads; [sh.c] parses
      command lines and turns them into processes and pipes; small programs.

    * The model

    Data is as in C: an integer of width w is a [Z] and every cast and
    wrap-around is written ([u8], [u32], [i32]); memory is a map from addresses
    to bytes (KString.v); arrays are lists with the code's bounds; pointers into
    arrays of structures are indices. Code is a function in the monad
    [M S A] below over the state [S] of its component; its [outcome] is a value
    and a state ([Ret]), a call of [panic] ([Panic]), a call of [sleep] that
    leaves the processor ([Sleep]), or the exhaustion of a loop's fuel
    ([OutOfFuel]). Error returns are the values the code returns.

    Code that runs under one lock is one atomic step. Where the interleaving of
    processes is the point, a component has a step relation whose steps are the
    critical sections of the code: Pipe.v (sections of [pipewrite] and
    [piperead] between sleeps), Spin.v and Sem.v (single accesses to shared
    memory), ProcSpec.v (sections under [ptable.lock]), Console.v (interrupts
    and the sections of a reader), IdeSpec.v (calls, interrupts and kills),
    Threads.v, ProdCons.v and MsgQueue.v (single accesses of the threads).

    What the sources only use is a parameter with laws: the disk controller
    (class [Ata] of Ide.v, with its laws [AtaOk], [AtaPrompt] and an instance),
    the processors that the boot processor starts through its APIC (class
    [Processors] of Start.v), the host's files that mkfs reads, the values a
    clock or device register delivers (a stream), the data that [read] returns
    to a user program (a list of pieces), the answers to its system calls (a
    world, UserMain.v). What other processes do while one has given the
    processor up in [trap] is an arbitrary function of the state (Trap.v).

    The file system runs on the view of the disk that cache and log give; its
    state includes the header of the log, so [log_write] panics there as it does
    in Log.v (the lemmas [flog_write_follows], [fbegin_op_follows] and
    [fend_op_follows] of FsAlloc.v relate the two), and theorems on calls that
    write say how many blocks of the log they take ([write_cost], [bmap_cost],
    [dirent_cost]).

    * The files

    - Prelude.v: machine integers, the monad, triples and their tactic [walk],
      lemmas on lists.
    - KString.v: string.c, and the byte memory.
    - Kalloc.v: kalloc.c, with [sys_memtop] of sysproc.c. [fl_rep] relates the
      intrusive list to a list of pages.
    - BlockLayer.v: the class [BlockCache], what a block cache promises.
    - Bio.v: bio.c, sleeplock.c, memide.c; the instance of [BlockCache].
    - Log.v: log.c over any [BlockCache]; LogBio.v: log.c over bio.c, concrete.
    - Fs.v: the definitions of fs.c; FsAlloc.v, FsInode.v, FsFile.v, FsDir.v:
      theorems on block allocation, inodes, contents and directories.
    - Pipe.v: pipe.c. Spin.v: spinlock.c. Sem.v: thread_lock_impl.h and its
      kernel side.
    - Vm.v, VmSpec.v, VmKern.v: vm.c. [pte_at] is what the paging hardware reads;
      VmKern.v has the theorems on whole address spaces.
    - File.v: file.c and [pipealloc]; Sysfile.v, SysfileSpec.v: sysfile.c.
    - Proc.v, ProcSpec.v, ProcOps.v: proc.c and the structures of proc.h.
    - Shell.v, ShellSpec.v, ShellPrint.v: the parser and [runcmd] of
      xv6-public/sh.c. Shell1.v: those of cs238p_hw1/sh.c. ShMain.v: the
      command loops of both.
    - Syscall.v: argument fetching; Trap.v: dispatch of system calls and traps,
      and the handlers of sysproc.c; Exec.v: exec.c, [loaduvm], [sys_exec].
    - Umalloc.v: umalloc.c. Print.v: printf.c, [cprintf] and ulib.c. Console.v:
      the rest of console.c. Kbd.v: kbd.c.
    - Mkfs.v, MkfsSpec.v: mkfs.c, and what its image means to fs.c.
    - Ide.v, IdeSpec.v: ide.c.
    - UserProgs.v: the work of grep, wc, cat, echo, ls.
    - Boot.v: bootmain.c. Mp.v: mp.c. Gates.v: segment and gate descriptors
      ([seginit], [tvinit]). Apic.v: lapic.c and ioapic.c.
    - Threads.v: sums over threads, what a semaphore promises its clients,
      thread.c. ProdCons.v: extracredit_semaphore.c over that promise.
      MsgQueue.v: extracredit_cond_var.c.
    - UserMain.v: user programs and the homework's programs as trees of system
      calls, played against worlds that answer them.
    - Start.v: [mycpu], [myproc], [forkret], [procdump], [panic]'s text,
      [startothers], uart.c, picirq.c. VmCount.v: the page counters of vm.c.

    * What the theorems show

    - Crash safety: whatever prefix of a commit's block writes reaches the disk,
      recovery gives the state before or after the transaction
      ([commit_crash_atomic]); without a crash a transaction installs exactly
      its updates ([transaction_refines]); the cache over the disk behaves as
      the disk ([cache_transparent]) and recycles the least recently used
      buffer ([bget_lru]). [begin_op] reserves space in the log: a reserved
      write panics only as the last one of its call, with every other call
      done and all but one block of the log taken ([reservation_sound]), and that
      case exists ([reservation_short]).
    - Disks: the driver with its queue and interrupts carries out block
      operations one at a time ([ide_refines]), in the order of the calls
      ([ide_fifo]), never panics on the requests bio.c makes ([ide_no_panic])
      and agrees with the memory disk ([ide_as_memide]). It sends the data of a
      write without waiting for DRQ, so this is for controllers that take it
      at once; on another one a write hangs ([write_before_drq_hangs]).
    - Files: what is written is read back and nothing else changes
      ([writei_readi]), over a block map that is stable and injective
      ([bmap_stable_injective]) and an allocator that never hands out a block
      twice ([balloc_least_free]); directories, inodes and their cache
      ([dirlink_then_lookup], [iupdate_roundtrip], [inode_pointers_valid]). The
      image mkfs builds is a well-formed file system whose root lists the given
      files with their contents ([mkfs_image], [mkfs_lookup]).
    - System calls: on every path transactions are closed and reference counts
      are exact ([sysfile_txn_balanced], [sysfile_refs_exact]); arguments are
      those of the caller's memory and stay inside it ([args_exact]); [exec]
      replaces the image entirely or not at all ([exec_all_or_nothing]) and
      passes its arguments ([exec_args]); a killed process does not return to
      user mode, whatever happens while it has yielded ([no_killed_return]).
    - Memory: the page allocator is a stack of pages ([kfree_kalloc]); page
      tables map, grow, shrink and copy as asked, also when memory runs out
      ([mappages_maps], [allocuvm_grows], [deallocuvm_frees],
      [copyout_writes]); [setupkvm] makes the kernel's map ([setupkvm_maps]),
      [copyuvm] an equal and separate space ([copyuvm_copies]), these and
      [allocuvm] failing only for want of a stated number of pages, and [freevm] gives every page
      back once ([freevm_frees]); [malloc] and [free] keep live blocks apart and follow
      a next-fit allocator over a sorted list ([malloc_safe],
      [malloc_refines]).
    - Concurrency: mutual exclusion and interrupt nesting of spin locks; a pipe
      is a queue of bytes and loses no wake-up; semaphores count right and lose
      no wake-up; [wait] never sleeps through the exit of its last child; the
      process table keeps its invariant under all interleavings; the scheduler
      is fair; typed lines reach the reader whole and in order
      ([console_delivers], [consoleintr_refines]).
    - Text: the parser of the shell terminates, inverts a printer, and its
      processes are wired as the command says; the two shells agree on their
      common language; a session is the sequence of its lines ([sh_session]);
      the matcher of grep decides the denotation of its patterns
      ([match_spec]) and grep selects the matching lines ([grep_file]); wc
      counts ([wc_counts]); the two formatted printers agree and print numbers
      that read back ([printf_cprintf], [printint_reads]).
    - Start: the loader puts every segment where its header says
      ([bootmain_loads]); the search for processor tables finds the first one
      and terminates ([mpsearch1_first], [mpsearch_total]); descriptors decode
      to what was asked ([segment_decodes], [tvinit_gates]); a date read from
      the clock is one the clock showed ([cmostime_snapshot],
      [cmostime_returns]); an interrupt goes to the processor it is enabled for
      ([ioapic_enables]); [lapicstartap] sends the commands that start another
      processor at the code it should run ([startap_entry]).
    - Threads: a semaphore is an atomic counter to its clients
      ([sem_refines]); over that, producers and consumers print the history of
      a stack ([prodcons_stack]) and every run of them ends with all values
      consumed ([prodcons_completes]); the two locks of thread.c lose no
      increment ([counter_exact]); messages arrive in order and none is missed
      ([msgq_fifo]).
    - Processors: the commands that [startothers] sends start each once, on a
      stack page of its own ([startothers_stacks]); [myproc] finds the process of its processor
      ([myproc_finds]); [countuvm_counts].
    - Programs: init keeps a shell running and reaps orphans ([init_sessions]), ls
      lists the used entries ([ls_lists]), forktest passes ([forktest_passes]);
      the copy program copies ([cp_copies]) and the pipeline of the homework is
      connected as meant ([pipe238p_wiring]).
    - What the code gets wrong is proved as well: blocks leaked by [itrunc]
      ([itrunc_leaks]), children of a process with a thread's slot that are
      never reaped ([forked_child_ignored]), a page directory freed under a live
      thread ([wait_frees_shared_pgdir]), [umemmove] on overlapping regions
      ([umemmove_agrees] has the condition), the endless loop of [mpinit] on an
      unknown entry ([mpinit_unknown]), the bytes grep drops when a line comes in two
      reads ([grep_drops_short_read]), a [cd] whose line is not finished
      ([sh_cd_unfinished]), a second message that hangs sender and receiver
      ([send_full_livelock]), bytes that the copy program loses
      ([cp_short_write]).

    * Bounds and fuel

    Loops over arrays, ranges of pages or bytes recurse on their length. Loops
    without a static bound take fuel, and the theorem on the operation shows
    that the given fuel is enough: the length of the free list for [memtop], the
    number of buffers for the LRU list and for the driver's queue, the number of
    indirect blocks for the block map, the number of bytes for [iappend] of
    mkfs, of sectors for [readseg], of status reads until the controller is
    ready for [idewait], of headers below the break for [malloc] and [free], the
    length of the input for the parser, the command loops and the user
    programs, the entries of a directory for ls, the rounds of init.
    [cmostime] returns as soon as the clock stands still for two reads, which
    its theorem assumes. The invariants of proc.c hold as long as
    [nextpid] has not passed 2^31 - 3, where the code's counter overflows. The
    theorems on spin locks, pipes and semaphores are for any number of
    processors, processes and threads and for runs of any length.

    * Not modelled

    Assembly (entry.S, swtch.S, trapasm.S, ...) acts below C; of entryother.S
    the model has what it loads from the words [startothers] leaves. [main] of
    main.c calls the initialisers one after the other. The messages that [trap]
    prints are left out. FLAG_SET, which vm.c uses, is defined by no file and is
    a parameter of the page counters. usertests.c, stressfs.c, big.c and
    extracredit_sbrk.c are tests. The creation and joining of the threads of
    thread.c and the extra-credit programs is modelled in proc.c's component
    only: their models start with the threads running. *)

From Stdlib Require Import ZArith Lia.
From stdpp Require Import base strings gmap numbers list.

Open Scope Z_scope.

(** ** Arithmetic automation *)

(** [dlia] is [lia] after division and remainder by constants are unfolded
    into linear constraints. *)
Ltac dlia := Z.to_euclidean_division_equations; lia.

(** Splits the comparisons of the goal into propositions that [lia] reads and
    drops the branches that arithmetic excludes. *)
Ltac range_cases :=
  repeat match goal with
  | |- context [?a <=? ?b] => destruct (Z.leb_spec a b); cbn [andb orb negb]
  | |- context [?a <? ?b] => destruct (Z.ltb_spec a b); cbn [andb orb negb]
  | |- context [?a =? ?b] => destruct (Z.eqb_spec a b); cbn [andb orb negb]
  end; try lia.

(** ** Machine integers

    A C integer of width [w] is a [Z]; the conversions below are the ones the
    code's casts and assignments perform. *)

Definition u8 (x : Z) : Z := x mod 256.
Definition u32 (x : Z) : Z := x mod 4294967296.

(** The [int] that has the bit pattern of [x]. *)
Definition i32 (x : Z) : Z :=
  let y := u32 x in if y <? 2147483648 then y else y - 4294967296.

Lemma u32_range x : 0 <= u32 x < 4294967296.
Proof. unfold u32. apply Z.mod_pos_bound. lia. Qed.

Lemma u32_small x : 0 <= x < 4294967296 -> u32 x = x.
Proof. intros. unfold u32. by apply Z.mod_small. Qed.

Lemma u8_range x : 0 <= u8 x < 256.
Proof. unfold u8. apply Z.mod_pos_bound. lia. Qed.

Lemma u8_small x : 0 <= x < 256 -> u8 x = x.
Proof. intros. unfold u8. by apply Z.mod_small. Qed.

Lemma u32_u32 x : u32 (u32 x) = u32 x.
Proof. apply u32_small, u32_range. Qed.

Lemma i32_small x : 0 <= x < 2147483648 -> i32 x = x.
Proof.
  intros. unfold i32. rewrite u32_small by lia.
  destruct (Z.ltb_spec x 2147483648); lia.
Qed.

Lemma u32_add_l x y : u32 (u32 x + y) = u32 (x + y).
Proof. unfold u32. by rewrite Zplus_mod_idemp_l. Qed.

Lemma u32_sub_l x y : u32 (u32 x - y) = u32 (x - y).
Proof. unfold u32. by rewrite Zminus_mod_idemp_l. Qed.

Lemma u32_i32 x : u32 (i32 x) = u32 x.
Proof.
  unfold i32. pose proof (u32_range x). destruct (Z.ltb_spec (u32 x) 2147483648); [apply u32_u32|].
  unfold u32. rewrite Zminus_mod_idemp_l. replace (x - 4294967296) with (x + (-1) * 4294967296) by lia. apply Z_mod_plus_full.
Qed.
Lemma i32_add_l x y : i32 (i32 x + y) = i32 (x + y).
Proof. unfold i32 at 1 3. by rewrite <- (u32_add_l (i32 x)), u32_i32, u32_add_l. Qed.

(** Or-ing a value into the zero bits below a shifted one is addition. *)
Lemma lor_shiftl x y n :
  0 <= n -> 0 <= y < 2 ^ n -> Z.lor (Z.shiftl x n) y = Z.shiftl x n + y.
Proof.
  intros Hn Hy. symmetry. apply Z.add_nocarry_lor. apply Z.bits_inj'.
  intros i Hi. rewrite Z.land_spec, Z.bits_0, Z.shiftl_spec by lia.
  destruct (Z.ltb_spec i n).
  - by rewrite Z.testbit_neg_r by lia.
  - replace y with (y mod 2 ^ n) by (by apply Z.mod_small).
    rewrite Z.mod_pow2_bits_high by lia. apply andb_false_r.
Qed.

(** ** Outcomes of kernel code

    A kernel routine returns normally, calls [panic] (which never returns),
    calls [sleep] on a channel and leaves the processor in the given state, or
    runs out of the fuel the model gives to a loop with no static bound. *)

Definition chan : Type := string * Z.

Inductive outcome (S A : Type) : Type :=
  | Ret (a : A) (s : S)
  | Panic (msg : string)
  | Sleep (c : chan) (s : S)
  | OutOfFuel.
Arguments Ret {S A} a s.
Arguments Panic {S A} msg.
Arguments Sleep {S A} c s.
Arguments OutOfFuel {S A}.

Definition M (S A : Type) : Type := S -> outcome S A.

Definition ret {S A} (a : A) : M S A := fun s => Ret a s.
Definition bind {S A B} (m : M S A) (k : A -> M S B) : M S B :=
  fun s => match m s with
           | Ret a s' => k a s'
           | Panic msg => Panic msg
           | Sleep c s' => Sleep c s'
           | OutOfFuel => OutOfFuel
           end.
Definition get {S} : M S S := fun s => Ret s s.
Definition put {S} (s : S) : M S unit := fun _ => Ret tt s.
Definition gets {S A} (f : S -> A) : M S A := fun s => Ret (f s) s.
Definition modify {S} (f : S -> S) : M S unit := fun s => Ret tt (f s).
Definition panic {S A} (msg : string) : M S A := fun _ => Panic msg.
Definition sleep_on {S A} (c : chan) : M S A := fun s => Sleep c s.
Definition out_of_fuel {S A} : M S A := fun _ => OutOfFuel.

Declare Scope kernel_scope.
Delimit Scope kernel_scope with kernel.
Notation "'let*' x ':=' m 'in' k" := (bind m (fun x => k))
  (at level 10, x pattern, m at level 200, k at level 200,
   format "'let*'  x  ':='  m  'in' '//' k") : kernel_scope.
Notation "m ;;; k" := (bind m (fun _ => k))
  (at level 199, right associativity, format "m  ;;; '//' k") : kernel_scope.
Open Scope kernel_scope.

Definition when {S} (b : bool) (m : M S unit) : M S unit :=
  if b then m else ret tt.

Lemma bind_ret {S A B} (m : M S A) (k : A -> M S B) s a s' :
  m s = Ret a s' -> bind m k s = k a s'.
Proof. intros H. unfold bind. by rewrite H. Qed.

Lemma bind_inv {S A B} (m : M S A) (k : A -> M S B) s b s' :
  bind m k s = Ret b s' -> exists a s1, m s = Ret a s1 /\ k a s1 = Ret b s'.
Proof. unfold bind. destruct (m s); intros; simplify_eq; eauto. Qed.

Lemma bind_assoc {St A B C} (m : M St A) (f : A -> M St B) (g : B -> M St C) st :
  bind (bind m f) g st = bind m (fun a => bind (f a) g) st.
Proof. unfold bind. by destruct (m st). Qed.

(** Runs one bind of a computation whose first part is known to return. *)
Ltac mstep H := rewrite (bind_ret _ _ _ _ _ H).

(** Takes a hypothesis [bind m k s = Ret b s'] apart. *)
Tactic Notation "minv" hyp(H) "as" simple_intropattern(p) :=
  apply bind_inv in H; destruct H as p.

(** ** Triples

    [triple P m Q]: from a state in [P], if [m] returns, it does so in [Q]. *)

Definition triple {S A} (P : S -> Prop) (m : M S A) (Q : A -> S -> Prop) : Prop :=
  forall s a s', P s -> m s = Ret a s' -> Q a s'.

Section Triples.
Context {S : Type}.
Implicit Types P : S -> Prop.

Lemma triple_ret {A} P (a : A) (Q : A -> S -> Prop) :
  (forall s, P s -> Q a s) -> triple P (ret a) Q.
Proof. intros H s x s' HP E. unfold ret in E. simplify_eq. by apply H. Qed.

Lemma triple_panic {A} P msg (Q : A -> S -> Prop) : triple P (panic msg) Q.
Proof. by intros s x s' _. Qed.

Lemma triple_sleep {A} P c (Q : A -> S -> Prop) : triple P (sleep_on c) Q.
Proof. by intros s x s' _. Qed.

Lemma triple_fuel {A} P (Q : A -> S -> Prop) : triple P out_of_fuel Q.
Proof. by intros s x s' _. Qed.

Lemma triple_bind {A B} P (R : A -> S -> Prop) (m : M S A) (k : A -> M S B) Q :
  triple P m R -> (forall a, triple (R a) (k a) Q) -> triple P (bind m k) Q.
Proof. intros Hm Hk s b s' HP E. minv E as (a & s1 & E1 & E2). by eapply Hk; [eapply Hm|]. Qed.

Lemma triple_get P Q : (forall s, P s -> Q s s) -> triple P get Q.
Proof. intros H s x s' HP E. unfold get in E. simplify_eq. by apply H. Qed.

Lemma triple_gets {A} P (f : S -> A) Q : (forall s, P s -> Q (f s) s) -> triple P (gets f) Q.
Proof. intros H s x s' HP E. unfold gets in E. simplify_eq. by apply H. Qed.

Lemma triple_modify P f (Q : unit -> S -> Prop) : (forall s, P s -> Q tt (f s)) -> triple P (modify f) Q.
Proof. intros H s x s' HP E. unfold modify in E. simplify_eq. by apply H. Qed.

Lemma triple_weaken {A} P P' (m : M S A) (Q Q' : A -> S -> Prop) :
  triple P' m Q' -> (forall s, P s -> P' s) -> (forall a s, Q' a s -> Q a s) -> triple P m Q.
Proof. intros H HP HQ s a s' Hs E. by eapply HQ, H; [apply HP|]. Qed.

(** A fact that the state does not carry can be kept aside. *)
Lemma triple_assume {A} P (X : Prop) (m : M S A) Q :
  (X -> triple P m Q) -> triple (fun s => X /\ P s) m Q.
Proof. intros H s a s' [HX HP]. by apply H. Qed.

Lemma triple_ex {A X} (P : X -> S -> Prop) (m : M S A) Q :
  (forall x, triple (P x) m Q) -> triple (fun s => exists x, P x s) m Q.
Proof. intros H s a s' [x HP]. by apply (H x). Qed.

End Triples.

(** Walks through a program: [leaf] proves the triples of its operations,
    every other sub-program keeps the precondition. *)
Ltac walk leaf fin :=
  intros; cbv zeta;
  lazymatch goal with
  | |- triple _ (ret _) _ => apply triple_ret; fin
  | |- triple _ (panic _) _ => apply triple_panic
  | |- triple _ (sleep_on _) _ => apply triple_sleep
  | |- triple _ out_of_fuel _ => apply triple_fuel
  | |- triple _ get _ => apply triple_get; fin
  | |- triple _ (gets _) _ => apply triple_gets; fin
  | |- triple _ (when ?b _) _ => unfold when; walk leaf fin
  | |- triple _ (modify _) _ => first [solve [leaf] | apply triple_modify; fin]
  | |- triple _ (bind ?m ?k) _ =>
      first [ eapply triple_bind; [solve [leaf]|walk leaf fin]
            | lazymatch goal with |- triple ?P _ _ =>
                eapply (triple_bind P (fun _ => P)); [solve [walk leaf fin]|walk leaf fin] end ]
  | |- triple _ (if ?b then _ else _) _ => destruct b; walk leaf fin
  | |- triple _ (match ?x with _ => _ end) _ => destruct x; walk leaf fin
  | |- triple _ _ _ => solve [leaf]
  end.

(** ** Little-endian words

    The i386 stores the 32-bit word [v] as the bytes [byte_of v 0] to
    [byte_of v 3], lowest address first. *)

Definition byte_of (v k : Z) : Z := (v / 256 ^ k) mod 256.

Definition le4 (b0 b1 b2 b3 : Z) : Z :=
  b0 + 256 * b1 + 65536 * b2 + 16777216 * b3.

Lemma byte_of_range v k : 0 <= byte_of v k < 256.
Proof. unfold byte_of. apply Z.mod_pos_bound. lia. Qed.

Lemma le4_byte_of v :
  le4 (byte_of v 0) (byte_of v 1) (byte_of v 2) (byte_of v 3) = u32 v.
Proof.
  unfold le4, byte_of, u32.
  change (256 ^ 0) with 1. change (256 ^ 1) with 256.
  change (256 ^ 2) with 65536. change (256 ^ 3) with 16777216. dlia.
Qed.

Lemma le4_range b0 b1 b2 b3 :
  0 <= b0 < 256 -> 0 <= b1 < 256 -> 0 <= b2 < 256 -> 0 <= b3 < 256 ->
  0 <= le4 b0 b1 b2 b3 < 4294967296.
Proof. unfold le4. lia. Qed.

(** ** Byte memory

    Kernel memory: a byte at each kernel virtual address; an address that was
    never written reads as 0. *)

Abbreviation mem := (gmap Z Z).

Definition rd8 (m : mem) (a : Z) : Z := u8 (default 0 (m !! a)).
Definition wr8 (m : mem) (a v : Z) : mem := <[a := u8 v]> m.
Definition rd32 (m : mem) (a : Z) : Z :=
  le4 (rd8 m a) (rd8 m (a + 1)) (rd8 m (a + 2)) (rd8 m (a + 3)).
Definition wr32 (m : mem) (a v : Z) : mem :=
  wr8 (wr8 (wr8 (wr8 m a (byte_of v 0)) (a + 1) (byte_of v 1))
           (a + 2) (byte_of v 2)) (a + 3) (byte_of v 3).

Lemma rd8_range m a : 0 <= rd8 m a < 256.
Proof. apply u8_range. Qed.

Lemma rd32_range m a : 0 <= rd32 m a < 4294967296.
Proof. apply le4_range; apply rd8_range. Qed.

Lemma rd8_wr8 m a v b : rd8 (wr8 m a v) b = if a =? b then u8 v else rd8 m b.
Proof.
  unfold rd8, wr8. destruct (Z.eqb_spec a b) as [->|].
  - rewrite lookup_insert_eq. apply u8_small, u8_range.
  - by rewrite lookup_insert_ne.
Qed.

Lemma rd8_wr32 m a v b :
  rd8 (wr32 m a v) b =
  if (a <=? b) && (b <? a + 4) then byte_of v (b - a) else rd8 m b.
Proof.
  unfold wr32. rewrite !rd8_wr8, !(u8_small (byte_of _ _)) by apply byte_of_range.
  range_cases; try done; f_equal; lia.
Qed.

Lemma rd32_wr32_eq m a v : rd32 (wr32 m a v) a = u32 v.
Proof.
  unfold rd32. rewrite !rd8_wr32, <- le4_byte_of.
  f_equal; range_cases; f_equal; lia.
Qed.

Lemma rd32_wr32_ne m a v b :
  b + 4 <= a \/ a + 4 <= b -> rd32 (wr32 m a v) b = rd32 m b.
Proof.
  intros Hd. unfold rd32. rewrite !rd8_wr32. f_equal; range_cases; done.
Qed.

(** Two memories that agree on the four bytes of a word agree on the word. *)
Lemma rd32_ext m m' a :
  (forall b, a <= b < a + 4 -> rd8 m b = rd8 m' b) -> rd32 m a = rd32 m' a.
Proof. intros H. unfold rd32. f_equal; apply H; lia. Qed.

(** ** Constants of param.h, memlayout.h and mmu.h *)

Abbreviation PGSIZE := 4096 (only parsing).
Abbreviation KERNBASE := 2147483648 (only parsing).
Abbreviation EXTMEM := 1048576 (only parsing).
Abbreviation PHYSTOP := 234881024 (only parsing).
Abbreviation DEVSPACE := 4261412864 (only parsing).

(** [V2P], [P2V], [PGROUNDUP] and [PGROUNDDOWN] on 32-bit addresses. *)
Definition V2P (a : Z) : Z := u32 (a - KERNBASE).
Definition P2V (a : Z) : Z := u32 (a + KERNBASE).
Definition PGROUNDUP (sz : Z) : Z := Z.land (u32 (sz + PGSIZE - 1)) (Z.lnot (PGSIZE - 1)).
Definition PGROUNDDOWN (a : Z) : Z := Z.land (u32 a) (Z.lnot (PGSIZE - 1)).

(** Clearing the low 12 bits rounds down to a multiple of the page size. *)
Lemma land_page_mask x : Z.land x (Z.lnot (PGSIZE - 1)) = x - x mod PGSIZE.
Proof.
  change (PGSIZE - 1) with (Z.ones 12). rewrite <- Z.ldiff_land, Z.ldiff_ones_r by lia.
  rewrite Z.shiftl_mul_pow2, Z.shiftr_div_pow2 by lia. change (2 ^ 12) with PGSIZE. dlia.
Qed.

Lemma PGROUNDUP_spec x :
  0 <= x <= 4294963200 ->
  PGROUNDUP x mod PGSIZE = 0 /\ x <= PGROUNDUP x < x + PGSIZE.
Proof.
  intros. unfold PGROUNDUP. rewrite u32_small, land_page_mask by lia. dlia.
Qed.

Lemma PGROUNDDOWN_spec x :
  0 <= x < 4294967296 ->
  PGROUNDDOWN x mod PGSIZE = 0 /\ PGROUNDDOWN x <= x < PGROUNDDOWN x + PGSIZE.
Proof.
  intros. unfold PGROUNDDOWN. rewrite u32_small, land_page_mask by lia. dlia.
Qed.

(** ** Byte arrays of fixed size

    Disk blocks and structures laid over them: lists of bytes. An index
    outside the array reads 0 and a store there is dropped; the theorems
    only speak of indices inside. *)

Abbreviation block := (list Z).
Abbreviation BSIZE := 512 (only parsing).

(** The string in a buffer: the bytes before its first NUL. *)
Fixpoint until_nul (l : list Z) : list Z :=
  match l with [] => [] | c :: l' => if c =? 0 then [] else c :: until_nul l' end.

Definition zero_block : block := replicate (Z.to_nat BSIZE) 0.

Definition get8 (l : list Z) (i : Z) : Z := default 0 (l !! Z.to_nat i).
Definition put8 (l : list Z) (i v : Z) : list Z := <[Z.to_nat i := u8 v]> l.
Definition get32 (l : list Z) (i : Z) : Z :=
  le4 (get8 l i) (get8 l (i + 1)) (get8 l (i + 2)) (get8 l (i + 3)).
Definition put32 (l : list Z) (i v : Z) : list Z :=
  put8 (put8 (put8 (put8 l i (byte_of v 0)) (i + 1) (byte_of v 1))
             (i + 2) (byte_of v 2)) (i + 3) (byte_of v 3).

(** A well-formed block: 512 bytes. *)
Definition block_ok (l : block) : Prop :=
  length l = Z.to_nat BSIZE /\ Forall (fun b => 0 <= b < 256) l.

Lemma length_put8 l i v : length (put8 l i v) = length l.
Proof. apply length_insert. Qed.

Lemma length_put32 l i v : length (put32 l i v) = length l.
Proof. unfold put32. by rewrite !length_put8. Qed.

Lemma get8_put8 l i v j :
  0 <= i < Z.of_nat (length l) -> 0 <= j ->
  get8 (put8 l i v) j = if i =? j then u8 v else get8 l j.
Proof.
  intros Hi Hj. unfold get8, put8. destruct (Z.eqb_spec i j) as [->|Hne].
  - rewrite list_lookup_insert_eq by lia. done.
  - rewrite list_lookup_insert_ne by lia. done.
Qed.

Lemma get8_put32 l i v j :
  0 <= i -> i + 4 <= Z.of_nat (length l) -> 0 <= j ->
  get8 (put32 l i v) j =
  if (i <=? j) && (j <? i + 4) then byte_of v (j - i) else get8 l j.
Proof.
  intros Hi Hl Hj. unfold put32.
  rewrite !get8_put8, !(u8_small (byte_of _ _)) by
    (rewrite ?length_put8; lia || apply byte_of_range).
  range_cases; try done; f_equal; lia.
Qed.

Lemma get32_put32_eq l i v :
  0 <= i -> i + 4 <= Z.of_nat (length l) -> get32 (put32 l i v) i = u32 v.
Proof.
  intros. unfold get32. rewrite !get8_put32, <- le4_byte_of by lia.
  f_equal; range_cases; f_equal; lia.
Qed.

Lemma get32_put32_ne l i v j :
  0 <= i -> i + 4 <= Z.of_nat (length l) -> 0 <= j -> j + 4 <= i \/ i + 4 <= j ->
  get32 (put32 l i v) j = get32 l j.
Proof.
  intros. unfold get32. rewrite !get8_put32 by lia. f_equal; range_cases; done.
Qed.

Lemma put8_ok l i v :
  Forall (fun b => 0 <= b < 256) l -> Forall (fun b => 0 <= b < 256) (put8 l i v).
Proof. intros. apply Forall_insert; [done|apply u8_range]. Qed.

Lemma block_ok_put8 l i v : block_ok l -> block_ok (put8 l i v).
Proof. intros [? ?]. split; [by rewrite length_put8|by apply put8_ok]. Qed.

Lemma block_ok_put32 l i v : block_ok l -> block_ok (put32 l i v).
Proof. intros H. unfold put32. by repeat apply block_ok_put8. Qed.

Lemma block_ok_zero : block_ok zero_block.
Proof.
  split; [apply length_replicate|]. apply Forall_replicate. lia.
Qed.

Lemma get8_range l i :
  Forall (fun b => 0 <= b < 256) l -> 0 <= get8 l i < 256.
Proof.
  intros H. unfold get8. destruct (l !! Z.to_nat i) eqn:E; simpl; [|lia].
  by apply (Forall_lookup_1 _ _ _ _ H E).
Qed.

Lemma get32_range l i : block_ok l -> 0 <= get32 l i < 4294967296.
Proof. intros [_ H]. apply le4_range; by apply get8_range. Qed.
