(* ===== verification/KString.v ===== *)
(** String and memory routines of the kernel (string.c, with [stosb] and
    [stosl] of x86.h), on byte memory.

    Pointers are addresses. The loops of [memset], [memmove] and [strncpy]
    are modelled store by store, so overlapping arguments behave as in the
    code; routines that only read take their strings as offset-indexed
    readers, which covers both memory and the name arrays of directories. *)

From Stdlib Require Import ZArith Lia.
From stdpp Require Import base strings gmap numbers list.
From S2P Require Import Prelude.

Open Scope Z_scope.

(** ** Operations *)

(** [rep stosb] and [rep stosl]. *)
Fixpoint stosb (m : mem) (addr data : Z) (cnt : nat) : mem :=
  match cnt with
  | O => m
  | S cnt' => stosb (wr8 m addr data) (addr + 1) data cnt'
  end.

Fixpoint stosl (m : mem) (addr data : Z) (cnt : nat) : mem :=
  match cnt with
  | O => m
  | S cnt' => stosl (wr32 m addr data) (addr + 4) data cnt'
  end.

Definition memset (m : mem) (dst c n : Z) : mem :=
  if (Z.rem (i32 dst) 4 =? 0) && (n mod 4 =? 0) then
    let c := Z.land c 255 in
    stosl m dst
      (Z.lor (Z.lor (Z.lor (Z.shiftl c 24) (Z.shiftl c 16)) (Z.shiftl c 8)) c)
      (Z.to_nat (n / 4))
  else
    stosb m dst c (Z.to_nat n).

(** The ascending and the descending copy loop of [memmove]. *)
Fixpoint copy_up (m : mem) (d s : Z) (n : nat) : mem :=
  match n with
  | O => m
  | S n' => copy_up (wr8 m d (rd8 m s)) (d + 1) (s + 1) n'
  end.

Fixpoint copy_down (m : mem) (d s : Z) (n : nat) : mem :=
  match n with
  | O => m
  | S n' => copy_down (wr8 m (d - 1) (rd8 m (s - 1))) (d - 1) (s - 1) n'
  end.

Definition memmove (m : mem) (dst src n : Z) : mem :=
  if (src <? dst) && (dst <? src + n)
  then copy_down m (dst + n) (src + n) (Z.to_nat n)
  else copy_up m dst src (Z.to_nat n).

Definition memcpy (m : mem) (dst src n : Z) : mem := memmove m dst src n.

(** A reader gives the byte at each offset from a pointer. *)
Definition at_mem (m : mem) (a : Z) : nat -> Z := fun i => rd8 m (a + Z.of_nat i).
Definition at_list (l : list Z) : nat -> Z := fun i => default 0 (l !! i).
Definition rshift (p : nat -> Z) : nat -> Z := fun i => p (S i).

Fixpoint memcmp (s1 s2 : nat -> Z) (n : nat) : Z :=
  match n with
  | O => 0
  | S n' => if s1 O =? s2 O then memcmp (rshift s1) (rshift s2) n'
            else s1 O - s2 O
  end.

Fixpoint strncmp (p q : nat -> Z) (n : nat) : Z :=
  match n with
  | O => 0
  | S n' => if negb (p O =? 0) && (p O =? q O)
            then strncmp (rshift p) (rshift q) n'
            else p O - q O
  end.

(** The padding loop of [strncpy] and its copying loop. *)
Fixpoint pad0 (m : mem) (s : Z) (n : nat) : mem :=
  match n with
  | O => m
  | S n' => pad0 (wr8 m s 0) (s + 1) n'
  end.

Fixpoint strncpy_loop (m : mem) (s t : Z) (n : nat) : mem :=
  match n with
  | O => m
  | S n' =>
      let c := rd8 m t in
      let m' := wr8 m s c in
      if c =? 0 then pad0 m' (s + 1) n' else strncpy_loop m' (s + 1) (t + 1) n'
  end.

Definition strncpy (m : mem) (s t n : Z) : mem := strncpy_loop m s t (Z.to_nat n).

(** [safestrcpy]: the loop copies at most [n - 1] bytes; the terminating NUL is
    stored where the loop stopped. The loop returns the memory and [s]. *)
Fixpoint safestrcpy_loop (m : mem) (s t : Z) (n : nat) : mem * Z :=
  match n with
  | O => (m, s)
  | S n' =>
      let c := rd8 m t in
      let m' := wr8 m s c in
      if c =? 0 then (m', s + 1) else safestrcpy_loop m' (s + 1) (t + 1) n'
  end.

Definition safestrcpy (m : mem) (s t n : Z) : mem :=
  if n <=? 0 then m
  else let '(m', s') := safestrcpy_loop m s t (Z.to_nat (n - 1)) in
       wr8 m' s' 0.

(** [strlen] walks until the first NUL; [fuel] bounds the walk. *)
Fixpoint strlen (s : nat -> Z) (fuel : nat) : option Z :=
  match fuel with
  | O => None
  | S f => if s O =? 0 then Some 0
           else option_map (fun n => n + 1) (strlen (rshift s) f)
  end.

(** ** What the loops store *)

Lemma stosb_spec cnt : forall m addr data a,
  rd8 (stosb m addr data cnt) a =
  if (addr <=? a) && (a <? addr + Z.of_nat cnt) then u8 data else rd8 m a.
Proof.
  induction cnt as [|cnt IH]; intros m addr data a; cbn [stosb].
  - range_cases; done.
  - rewrite IH, rd8_wr8. range_cases; done.
Qed.

Lemma stosl_spec cnt : forall m addr data a,
  rd8 (stosl m addr data cnt) a =
  if (addr <=? a) && (a <? addr + 4 * Z.of_nat cnt)
  then byte_of data ((a - addr) mod 4) else rd8 m a.
Proof.
  induction cnt as [|cnt IH]; intros m addr data a; cbn [stosl].
  - range_cases; done.
  - rewrite IH, rd8_wr32. range_cases; try done; f_equal; dlia.
Qed.

(** Each of the four bytes of the word [memset] builds is its byte argument. *)
Lemma memset_word_byte c k :
  0 <= k < 4 ->
  byte_of (Z.lor (Z.lor (Z.lor (Z.shiftl (Z.land c 255) 24)
     (Z.shiftl (Z.land c 255) 16)) (Z.shiftl (Z.land c 255) 8)) (Z.land c 255)) k
  = u8 c.
Proof.
  intros Hk. change 255 with (Z.ones 8). rewrite Z.land_ones by lia.
  change (2 ^ 8) with 256. fold (u8 c). pose proof (u8_range c) as Hb.
  generalize dependent (u8 c). clear c. intros c Hb.
  replace (Z.shiftl c 24) with (Z.shiftl (Z.shiftl (Z.shiftl c 8) 8) 8)
    by (by rewrite !Z.shiftl_shiftl by lia).
  replace (Z.shiftl c 16) with (Z.shiftl (Z.shiftl c 8) 8)
    by (by rewrite !Z.shiftl_shiftl by lia).
  rewrite <- !Z.shiftl_lor.
  rewrite !lor_shiftl by (simpl; lia).
  rewrite !Z.shiftl_mul_pow2 by lia. change (2 ^ 8) with 256.
  unfold byte_of.
  assert (k = 0 \/ k = 1 \/ k = 2 \/ k = 3) as [-> | [-> | [-> | ->]]] by lia;
    [change (256 ^ 0) with 1|change (256 ^ 1) with 256
    |change (256 ^ 2) with 65536|change (256 ^ 3) with 16777216]; dlia.
Qed.

Lemma memset_spec m dst c n a :
  0 <= n ->
  rd8 (memset m dst c n) a =
  if (dst <=? a) && (a <? dst + n) then u8 c else rd8 m a.
Proof.
  intros Hn. unfold memset. destruct ((Z.rem (i32 dst) 4 =? 0) && (n mod 4 =? 0)) eqn:E.
  - apply andb_prop in E as [_ E]. apply Z.eqb_eq in E.
    rewrite stosl_spec, Z2Nat.id by dlia.
    replace (4 * (n / 4)) with n by dlia. range_cases; [|done..].
    apply memset_word_byte. apply Z.mod_pos_bound. lia.
  - by rewrite stosb_spec, Z2Nat.id by lia.
Qed.

Lemma copy_up_spec n : forall m d s a,
  d <= s \/ s + Z.of_nat n <= d ->
  rd8 (copy_up m d s n) a =
  if (d <=? a) && (a <? d + Z.of_nat n) then rd8 m (s + (a - d)) else rd8 m a.
Proof.
  induction n as [|n IH]; intros m d s a Hov; cbn [copy_up].
  - range_cases; done.
  - rewrite IH, !rd8_wr8 by lia. range_cases; try done.
    + f_equal; lia.
    + rewrite u8_small by apply rd8_range. f_equal; lia.
Qed.

Lemma copy_down_spec n : forall m d s a,
  s <= d ->
  rd8 (copy_down m d s n) a =
  if (d - Z.of_nat n <=? a) && (a <? d) then rd8 m (s - d + a) else rd8 m a.
Proof.
  induction n as [|n IH]; intros m d s a Hov; cbn [copy_down].
  - range_cases; done.
  - rewrite IH, !rd8_wr8 by lia. range_cases; try done.
    + f_equal; lia.
    + rewrite u8_small by apply rd8_range. f_equal; lia.
Qed.

Lemma memmove_bytes m dst src n a :
  0 <= n ->
  rd8 (memmove m dst src n) a =
  if (dst <=? a) && (a <? dst + n) then rd8 m (src + (a - dst)) else rd8 m a.
Proof.
  intros Hn. unfold memmove.
  destruct ((src <? dst) && (dst <? src + n)) eqn:E.
  - apply andb_prop in E as [E1 E2]. apply Z.ltb_lt in E1, E2.
    rewrite copy_down_spec, Z2Nat.id by lia. range_cases; try done; f_equal; lia.
  - rewrite copy_up_spec; rewrite ?Z2Nat.id by lia; [done|].
    apply andb_false_iff in E as [E|E]; apply Z.ltb_ge in E; lia.
Qed.

(** ** C strings *)

(** The characters of the string at [p], cut at the first NUL or after [n]. *)
Fixpoint cstr (p : nat -> Z) (n : nat) : list Z :=
  match n with
  | O => []
  | S n' => if p O =? 0 then [] else p O :: cstr (rshift p) n'
  end.

Lemma cstr_ext n : forall p q, (forall i, (i < n)%nat -> p i = q i) -> cstr p n = cstr q n.
Proof.
  induction n as [|n IH]; intros p q H; cbn [cstr]; [done|].
  rewrite (H O) by lia. destruct (q O =? 0); [done|]. f_equal.
  apply IH. intros i Hi. apply H. lia.
Qed.

Lemma strncmp_0_iff n : forall p q, strncmp p q n = 0 <-> cstr p n = cstr q n.
Proof.
  induction n as [|n IH]; intros p q; cbn [strncmp cstr]; [done|].
  destruct (Z.eqb_spec (p O) 0) as [Hp|Hp]; cbn [negb andb].
  - destruct (Z.eqb_spec (q O) 0); split; intros; simplify_eq; first [done|lia].
  - destruct (Z.eqb_spec (p O) (q O)) as [Hpq|Hpq].
    + rewrite IH, <- Hpq. destruct (Z.eqb_spec (p O) 0); [done|].
      split; intros; [by f_equal|by simplify_eq].
    + split; [lia|]. destruct (Z.eqb_spec (q O) 0); intros; simplify_eq.
Qed.

Lemma rshift_at_mem m a i : rshift (at_mem m a) i = at_mem m (a + 1) i.
Proof. unfold rshift, at_mem. f_equal. lia. Qed.

Lemma pad0_spec n : forall m s a,
  rd8 (pad0 m s n) a = if (s <=? a) && (a <? s + Z.of_nat n) then 0 else rd8 m a.
Proof.
  induction n as [|n IH]; intros m s a; cbn [pad0].
  - range_cases; done.
  - rewrite IH, rd8_wr8. range_cases; done.
Qed.

(** A store at [s] does not change the string at [t] when the two buffers of
    [n + 1] bytes are apart. *)
Lemma cstr_wr8_ne m s v t n :
  s + Z.of_nat (S n) <= t \/ t + Z.of_nat (S n) <= s ->
  cstr (at_mem (wr8 m s v) (t + 1)) n = cstr (at_mem m (t + 1)) n.
Proof.
  intros Hd. apply cstr_ext. intros i Hi. unfold at_mem. rewrite rd8_wr8.
  range_cases; done.
Qed.

Lemma cstr_at_mem_S m t n :
  cstr (at_mem m t) (S n) =
  if rd8 m t =? 0 then [] else rd8 m t :: cstr (at_mem m (t + 1)) n.
Proof.
  cbn [cstr]. unfold at_mem at 1 2. rewrite Z.add_0_r.
  destruct (rd8 m t =? 0); [done|]. f_equal. apply cstr_ext.
  intros i _. apply rshift_at_mem.
Qed.

Lemma strncpy_loop_spec n : forall m s t a,
  s + Z.of_nat n <= t \/ t + Z.of_nat n <= s ->
  rd8 (strncpy_loop m s t n) a =
  if (s <=? a) && (a <? s + Z.of_nat n)
  then default 0 (cstr (at_mem m t) n !! Z.to_nat (a - s)) else rd8 m a.
Proof.
  induction n as [|n IH]; intros m s t a Hd; cbn [strncpy_loop].
  { range_cases; done. }
  rewrite cstr_at_mem_S. destruct (Z.eqb_spec (rd8 m t) 0) as [H0|H0].
  - rewrite pad0_spec, rd8_wr8, H0. range_cases; done.
  - rewrite IH, rd8_wr8, cstr_wr8_ne by lia. range_cases; try done.
    + by replace (Z.to_nat (a - s)) with (S (Z.to_nat (a - (s + 1)))) by lia.
    + replace (Z.to_nat (a - s)) with O by lia. simpl.
      rewrite u8_small; [done|apply rd8_range].
Qed.

Lemma safestrcpy_loop_spec n : forall m s t m' s',
  s + Z.of_nat n <= t \/ t + Z.of_nat n <= s ->
  safestrcpy_loop m s t n = (m', s') ->
  s <= s' <= s + Z.of_nat n /\
  cstr (at_mem (wr8 m' s' 0) s) (S n) = cstr (at_mem m t) n /\
  (forall a, a < s \/ s' <= a -> rd8 m' a = rd8 m a).
Proof.
  induction n as [|n IH]; intros m s t m' s' Hd E; cbn [safestrcpy_loop] in E.
  - simplify_eq. split; [lia|]. split; [|done].
    rewrite cstr_at_mem_S, rd8_wr8. range_cases; done.
  - rewrite (cstr_at_mem_S m t). rewrite cstr_at_mem_S.
    destruct (Z.eqb_spec (rd8 m t) 0) as [H0|H0].
    + simplify_eq. split; [lia|]. split.
      * rewrite rd8_wr8, rd8_wr8, H0. range_cases; done.
      * intros a Ha. rewrite rd8_wr8. range_cases; done.
    + apply IH in E as (Hs & Hc & Hf); [|lia].
      split; [lia|]. split.
      * replace (rd8 (wr8 m' s' 0) s) with (rd8 m t).
        { rewrite <- (cstr_wr8_ne m s (rd8 m t) t n), Hc by lia.
          destruct (Z.eqb_spec (rd8 m t) 0); done. }
        rewrite rd8_wr8, (Hf s), rd8_wr8, (u8_small (rd8 m t)) by (lia || apply rd8_range).
        range_cases; done.
      * intros a Ha. rewrite Hf, rd8_wr8 by lia. range_cases; done.
Qed.

(** ** Properties *)

(** [memset] writes exactly the bytes [dst .. dst+n-1], each with the low
    byte of [c], whether it takes the word-at-a-time path (aligned pointer and
    length) or the byte path. *)
Theorem memset_correct m dst c n a :
  0 <= n ->
  rd8 (memset m dst c n) a =
  if (dst <=? a) && (a <? dst + n) then Z.land c 255 else rd8 m a.
Proof.
  intros Hn. rewrite memset_spec by done. change 255 with (Z.ones 8).
  by rewrite Z.land_ones by lia.
Qed.

Lemma memset_correct_witness :
  rd8 (memset ∅ 8 300 8) 15 = 44 /\ rd8 (memset ∅ 9 300 8) 8 = 0.
Proof.
  split; (rewrite memset_correct; [reflexivity|lia]).
Defined.

(** [memmove] copies the source as it was before the call, also when the
    two areas overlap in either direction, and changes no other byte. *)
Theorem memmove_correct m dst src n a :
  0 <= n ->
  rd8 (memmove m dst src n) a =
  if (dst <=? a) && (a <? dst + n) then rd8 m (src + (a - dst)) else rd8 m a.
Proof. apply memmove_bytes. Qed.

Lemma memmove_correct_witness :
  let m := wr8 (wr8 (wr8 ∅ 100 7) 101 8) 102 9 in
  rd8 (memmove m 101 100 3) 103 = 9 /\ rd8 (memmove m 99 100 3) 99 = 7.
Proof.
  split; (rewrite memmove_correct; [reflexivity|lia]).
Defined.

(** [strncmp] returns 0 exactly for strings that agree up to their NUL or
    their first [n] characters. *)
Theorem strncmp_eq p q n : strncmp p q n = 0 <-> cstr p n = cstr q n.
Proof. apply strncmp_0_iff. Qed.

(** [strncpy] between areas that do not overlap stores the source string
    and pads the rest of the [n] bytes with NULs, so that [strncmp] finds the
    copy equal to the source. *)
Theorem strncpy_correct m s t n :
  0 <= n -> s + n <= t \/ t + n <= s ->
  (forall a, rd8 (strncpy m s t n) a =
     if (s <=? a) && (a <? s + n)
     then default 0 (cstr (at_mem m t) (Z.to_nat n) !! Z.to_nat (a - s))
     else rd8 m a).
Proof.
  intros Hn Hd a. unfold strncpy.
  rewrite strncpy_loop_spec; rewrite Z2Nat.id by lia; done.
Qed.

Lemma strncpy_correct_witness :
  let m := wr8 (wr8 ∅ 100 97) 101 98 in
  rd8 (strncpy m 50 100 4) 51 = 98 /\ rd8 (strncpy (wr8 m 53 5) 50 100 4) 53 = 0.
Proof.
  split; (rewrite strncpy_correct; [reflexivity|lia|lia]).
Defined.

(** [safestrcpy] with [n > 0] leaves a NUL-terminated string of at most
    [n - 1] characters, the longest prefix of the source that fits, and
    touches only the [n] bytes of the destination. *)
Theorem safestrcpy_correct m s t n :
  0 < n -> s + n <= t \/ t + n <= s ->
  cstr (at_mem (safestrcpy m s t n) s) (Z.to_nat n)
    = cstr (at_mem m t) (Z.to_nat (n - 1)) /\
  (forall a, a < s \/ s + n <= a -> rd8 (safestrcpy m s t n) a = rd8 m a).
Proof.
  intros Hn Hd. unfold safestrcpy. destruct (Z.leb_spec n 0); [lia|].
  destruct (safestrcpy_loop m s t (Z.to_nat (n - 1))) as [m' s'] eqn:E.
  apply safestrcpy_loop_spec in E as (Hs & Hc & Hf); [|lia].
  split.
  - replace (Z.to_nat n) with (S (Z.to_nat (n - 1))) by lia. done.
  - intros a Ha. rewrite rd8_wr8, Hf by lia. range_cases; done.
Qed.

Lemma safestrcpy_correct_witness :
  let m := wr8 (wr8 (wr8 ∅ 100 97) 101 98) 102 99 in
  cstr (at_mem (safestrcpy m 50 100 3) 50) 3 = [97; 98].
Proof.
  intros m. destruct (safestrcpy_correct m 50 100 3) as [H _]; [lia|lia|].
  exact H.
Defined.

(** [strlen] returns the offset of the first NUL, whenever there is one
    within the fuel. *)
Theorem strlen_correct s k fuel :
  (forall i, (i < k)%nat -> s i <> 0) -> s k = 0 -> (k < fuel)%nat ->
  strlen s fuel = Some (Z.of_nat k).
Proof.
  revert s fuel. induction k as [|k IH]; intros s fuel Hnz Hz Hf;
    (destruct fuel as [|fuel]; [lia|]); cbn [strlen].
  - by rewrite Hz.
  - destruct (Z.eqb_spec (s O) 0) as [H0|_].
    { by destruct (Hnz O); [lia|]. }
    rewrite (IH (rshift s) fuel); [simpl; f_equal; lia| |done|lia].
    intros i Hi. apply Hnz. lia.
Qed.

Lemma strlen_correct_witness :
  strlen (at_list [104; 105; 0; 7]) 10 = Some 2.
Proof.
  apply (strlen_correct (at_list [104; 105; 0; 7]) 2 10); [|reflexivity|lia].
  intros i Hi. destruct i as [|[|i]]; [discriminate|discriminate|lia].
Defined.
