(* ===== verification/Kalloc.v ===== *)
(** Physical page allocator (kalloc.c).

    The free list is the code's intrusive list: the first word of a free page
    holds the address of the next one, in kernel memory. [fl_rep] relates it to
    a list of page addresses, and every operation is shown to act on that list
    as a stack of pages. *)

From Stdlib Require Import ZArith Lia.
From stdpp Require Import base strings gmap numbers list.
From S2P Require Import Prelude KString.

Open Scope Z_scope.

(** ** State and operations *)

(** [kmem] together with the memory it manages. *)
Record kmem := {
  kbytes : mem;
  freelist : Z;
  use_lock : bool;
  kmem_locked : bool;
}.

Definition set_kbytes (m : mem) (s : kmem) : kmem :=
  {| kbytes := m; freelist := freelist s; use_lock := use_lock s;
     kmem_locked := kmem_locked s |}.
Definition set_freelist (r : Z) (s : kmem) : kmem :=
  {| kbytes := kbytes s; freelist := r; use_lock := use_lock s;
     kmem_locked := kmem_locked s |}.
Definition set_use_lock (b : bool) (s : kmem) : kmem :=
  {| kbytes := kbytes s; freelist := freelist s; use_lock := b;
     kmem_locked := kmem_locked s |}.
Definition set_kmem_locked (b : bool) (s : kmem) : kmem :=
  {| kbytes := kbytes s; freelist := freelist s; use_lock := use_lock s;
     kmem_locked := b |}.

(** [acquire(&kmem.lock)] and [release(&kmem.lock)] on the processor that runs
    the allocator: taking a lock it already holds, or giving back one it does
    not hold, panics. *)
Definition acquire_kmem : M kmem unit :=
  let* s := get in
  if kmem_locked s then panic "acquire" else put (set_kmem_locked true s).
Definition release_kmem : M kmem unit :=
  let* s := get in
  if kmem_locked s then put (set_kmem_locked false s) else panic "release".

Section Kalloc.

(** [end], the first address after the kernel image (set by the linker). *)
Variable kend : Z.

Definition kfree (v : Z) : M kmem unit :=
  if negb (v mod PGSIZE =? 0) || (v <? kend) || (PHYSTOP <=? V2P v)
  then panic "kfree"
  else
    modify (fun s => set_kbytes (memset (kbytes s) v 1 PGSIZE) s) ;;;
    let* s := get in
    when (use_lock s) acquire_kmem ;;;
    modify (fun s => set_kbytes (wr32 (kbytes s) v (freelist s)) s) ;;;
    modify (set_freelist v) ;;;
    when (use_lock s) release_kmem.

(** The loop of [freerange]; [fuel] bounds its iterations. *)
Fixpoint freerange_loop (fuel : nat) (p vend : Z) : M kmem unit :=
  if p + PGSIZE <=? vend then
    match fuel with
    | O => out_of_fuel
    | S fuel' => kfree p ;;; freerange_loop fuel' (p + PGSIZE) vend
    end
  else ret tt.

Definition freerange (vstart vend : Z) : M kmem unit :=
  freerange_loop (Z.to_nat (vend / PGSIZE)) (PGROUNDUP vstart) vend.

Definition kinit1 (vstart vend : Z) : M kmem unit :=
  modify (set_kmem_locked false) ;;;
  modify (set_use_lock false) ;;;
  freerange vstart vend.

Definition kinit2 (vstart vend : Z) : M kmem unit :=
  freerange vstart vend ;;;
  modify (set_use_lock true).

Definition kalloc : M kmem Z :=
  let* s := get in
  when (use_lock s) acquire_kmem ;;;
  let* r := gets freelist in
  when (negb (r =? 0)) (modify (fun s => set_freelist (rd32 (kbytes s) r) s)) ;;;
  when (use_lock s) release_kmem ;;;
  ret r.

(** [kcount] walks the free list; [fuel] bounds the walk. *)
Fixpoint kcount_loop (fuel : nat) (r count : Z) : M kmem Z :=
  if r =? 0 then ret count
  else match fuel with
       | O => out_of_fuel
       | S fuel' =>
           let* s := get in
           kcount_loop fuel' (rd32 (kbytes s) r) (i32 (count + 1))
       end.

Definition kcount (fuel : nat) : M kmem Z :=
  let* s := get in kcount_loop fuel (freelist s) 0.

(** [sys_memtop]: the free memory in bytes. *)
Definition sys_memtop (fuel : nat) : M kmem Z :=
  let* c := kcount fuel in
  let freemem := i32 (c * PGSIZE) in
  ret freemem.

(** ** The free list as a list of pages *)

(** A page address [kfree] accepts. *)
Definition page_ok (v : Z) : Prop :=
  v mod PGSIZE = 0 /\ kend <= v /\ V2P v < PHYSTOP /\ 0 < v < 4294967296.

Fixpoint chain (m : mem) (r : Z) (l : list Z) : Prop :=
  match l with
  | [] => r = 0
  | v :: l' => r = v /\ chain m (rd32 m v) l'
  end.

(** The free list of [s] is the pages [l], distinct and allocatable, and no
    one holds the lock. *)
Definition fl_rep (s : kmem) (l : list Z) : Prop :=
  chain (kbytes s) (freelist s) l /\ NoDup l /\ Forall page_ok l /\
  kmem_locked s = false.

Lemma chain_frame m m' l : forall r,
  Forall (fun v => rd32 m' v = rd32 m v) l -> chain m r l -> chain m' r l.
Proof.
  induction l as [|v l IH]; simpl; intros r Hf Hc; [done|].
  apply Forall_cons in Hf as [Hv Hf]. destruct Hc as [-> Hc].
  split; [done|]. rewrite Hv. by apply IH.
Qed.

(** Two different pages do not overlap. *)
Lemma page_apart v w :
  page_ok v -> page_ok w -> v <> w -> v + PGSIZE <= w \/ w + PGSIZE <= v.
Proof. intros (Hv & _) (Hw & _) Hne. dlia. Qed.

Lemma rd32_memset_apart m v c w :
  w + 4 <= v \/ v + PGSIZE <= w -> rd32 (memset m v c PGSIZE) w = rd32 m w.
Proof.
  intros Hd. apply rd32_ext. intros b Hb. rewrite memset_spec by lia.
  range_cases; done.
Qed.

Lemma kfree_guard v :
  negb (v mod PGSIZE =? 0) || (v <? kend) || (PHYSTOP <=? V2P v) = false <->
  v mod PGSIZE = 0 /\ kend <= v /\ V2P v < PHYSTOP.
Proof. range_cases; naive_solver lia. Qed.

(** The state [kfree] leaves. *)
Definition kfree_state (v : Z) (s : kmem) : kmem :=
  {| kbytes := wr32 (memset (kbytes s) v 1 PGSIZE) v (freelist s);
     freelist := v; use_lock := use_lock s; kmem_locked := false |}.

Lemma kfree_run v s :
  page_ok v -> kmem_locked s = false -> kfree v s = Ret tt (kfree_state v s).
Proof.
  intros (H1 & H2 & H3 & _) Hl. unfold kfree.
  rewrite (proj2 (kfree_guard v)) by done.
  destruct s as [m fl ul kl]; simpl in Hl; subst kl.
  destruct ul; reflexivity.
Qed.

Lemma kfree_state_rep v s l :
  fl_rep s l -> page_ok v -> v ∉ l -> fl_rep (kfree_state v s) (v :: l).
Proof.
  intros (Hc & Hnd & Hok & Hl) Hv Hin. split_and!; simpl.
  - split; [done|]. rewrite rd32_wr32_eq.
    assert (u32 (freelist s) = freelist s) as ->.
    { apply u32_small. destruct l as [|w l]; simpl in Hc; [lia|].
      apply Forall_cons in Hok as [(_ & _ & _ & ?) _]. lia. }
    revert Hc. apply chain_frame. rewrite Forall_forall in Hok |- *. intros w Hw.
    assert (v <> w) as Hne by (by intros ->).
    destruct (page_apart v w Hv (Hok w Hw) Hne) as [Hd|Hd];
      (rewrite rd32_wr32_ne, rd32_memset_apart by lia; done).
  - by constructor.
  - by constructor.
  - done.
Qed.

Lemma kalloc_run s l :
  fl_rep s l ->
  exists s', kalloc s = Ret (hd 0 l) s' /\ fl_rep s' (tl l) /\
             kbytes s' = kbytes s /\ use_lock s' = use_lock s.
Proof.
  intros (Hc & Hnd & Hok & Hl). destruct s as [m fl ul kl]; simpl in *; subst kl.
  destruct l as [|v l]; simpl in *.
  - subst fl. eexists. unfold kalloc. destruct ul; (split; [reflexivity|]); done.
  - destruct Hc as [-> Hc]. apply NoDup_cons in Hnd as [_ Hnd].
    apply Forall_cons in Hok as [(? & ? & ? & Hpos) Hok].
    exists {| kbytes := m; freelist := rd32 m v; use_lock := ul; kmem_locked := false |}.
    split; [|done]. unfold kalloc, bind, get, gets, when, modify, ret, put, acquire_kmem, release_kmem.
    simpl. destruct ul; simpl; (destruct (Z.eqb_spec v 0); [lia|reflexivity]).
Qed.

Lemma kcount_loop_chain l : forall fuel r c s,
  chain (kbytes s) r l -> Forall page_ok l -> (length l <= fuel)%nat ->
  0 <= c -> c + Z.of_nat (length l) < 2147483648 ->
  kcount_loop fuel r c s = Ret (c + Z.of_nat (length l)) s.
Proof.
  induction l as [|v l IH]; intros fuel r c s Hc Hok Hf H0 Hc'; simpl in *.
  - subst r. destruct fuel; simpl; f_equal; lia.
  - destruct Hc as [-> Hc]. apply Forall_cons in Hok as [(? & ? & ? & Hpos) Hok].
    destruct fuel as [|fuel]; [lia|]. simpl. destruct (Z.eqb_spec v 0); [lia|].
    unfold bind, get. rewrite i32_small by lia. rewrite IH by (done || lia).
    f_equal; lia.
Qed.

(** The pages the loop of [freerange] frees, in the order it frees them. *)
Fixpoint range_pages (n : nat) (p : Z) : list Z :=
  match n with
  | O => []
  | S n' => p :: range_pages n' (p + PGSIZE)
  end.

Lemma elem_of_range_pages n : forall p v,
  v ∈ range_pages n p -> p <= v < p + PGSIZE * Z.of_nat n /\ (v - p) mod PGSIZE = 0.
Proof.
  induction n as [|n IH]; intros p v Hv; simpl in Hv.
  - by apply elem_of_nil in Hv.
  - apply elem_of_cons in Hv as [-> | Hv].
    + rewrite Z.sub_diag. split; [lia|done].
    + apply IH in Hv as [? ?]. split; [lia|]. dlia.
Qed.

Lemma freerange_loop_run fuel : forall n p vend s l,
  fl_rep s l -> (n <= fuel)%nat ->
  p + PGSIZE * Z.of_nat n <= vend < p + PGSIZE * (Z.of_nat n + 1) ->
  Forall page_ok (range_pages n p) ->
  (forall v, v ∈ range_pages n p -> v ∉ l) ->
  exists s', freerange_loop fuel p vend s = Ret tt s' /\
             fl_rep s' (reverse (range_pages n p) ++ l) /\ use_lock s' = use_lock s.
Proof.
  induction fuel as [|fuel IH]; intros n p vend s l Hr Hn Hv Hok Hnew.
  - assert (n = O) as -> by lia. exists s. split; [|done].
    simpl. destruct (Z.leb_spec (p + PGSIZE) vend); [lia|done].
  - destruct n as [|n].
    + exists s. split; [|done]. simpl. destruct (Z.leb_spec (p + PGSIZE) vend); [lia|done].
    + simpl in Hok, Hnew. apply Forall_cons in Hok as [Hp Hok].
      assert (p ∉ l) as Hpl by (apply Hnew; constructor).
      pose proof (kfree_state_rep p s l Hr Hp Hpl) as Hr'.
      destruct Hr as (_ & _ & _ & Hlk).
      destruct (IH n (p + PGSIZE) vend (kfree_state p s) (p :: l)) as (s' & Hrun & Hrep & Hul);
        [done|lia|lia|done| |].
      { intros v Hv'. pose proof (elem_of_range_pages _ _ _ Hv') as [? _].
        apply not_elem_of_cons. split; [lia|]. apply Hnew. by constructor. }
      exists s'. split_and!; [|by cbn [range_pages]; rewrite reverse_cons, <- app_assoc|done].
      simpl. destruct (Z.leb_spec (p + PGSIZE) vend); [|lia].
      by rewrite (bind_ret _ _ _ _ _ (kfree_run p s Hp Hlk)).
Qed.

(** ** Properties *)

(** [kfree] of an allocatable page that is not free pushes it on the free
    list and writes nothing outside that page. *)
Theorem kfree_pushes v s l :
  fl_rep s l -> page_ok v -> v ∉ l ->
  exists s', kfree v s = Ret tt s' /\ fl_rep s' (v :: l) /\
             use_lock s' = use_lock s /\
             (forall a, a < v \/ v + PGSIZE <= a -> rd8 (kbytes s') a = rd8 (kbytes s) a).
Proof.
  intros Hr Hv Hin. exists (kfree_state v s). split_and!.
  - apply kfree_run; [done|by destruct Hr as (_ & _ & _ & ?)].
  - by apply kfree_state_rep.
  - done.
  - intros a Ha. simpl. rewrite rd8_wr32, memset_spec by lia. range_cases; done.
Qed.

(** [kfree] panics exactly for an address that is not page aligned, lies
    below the end of the kernel or is not backed by physical memory, and then
    has no effect to undo. *)
Theorem kfree_panics_iff v s :
  kmem_locked s = false ->
  (kfree v s = Panic "kfree" <->
   v mod PGSIZE <> 0 \/ v < kend \/ PHYSTOP <= V2P v).
Proof.
  intros Hl. unfold kfree.
  destruct (negb (v mod PGSIZE =? 0) || (v <? kend) || (PHYSTOP <=? V2P v)) eqn:E.
  - split; [|done]. intros _.
    destruct (Z.eq_dec (v mod PGSIZE) 0); [|by left].
    destruct (Z.lt_ge_cases v kend); [by right; left|].
    destruct (Z.le_gt_cases PHYSTOP (V2P v)); [by right; right|].
    assert (negb (v mod PGSIZE =? 0) || (v <? kend) || (PHYSTOP <=? V2P v) = false)
      by (apply kfree_guard; lia). congruence.
  - apply kfree_guard in E. split; [|lia].
    destruct s as [m fl ul kl]; simpl in Hl; subst kl. by destruct ul.
Qed.

(** [kalloc] pops the first free page, or returns 0 when there is none,
    and leaves the contents of memory alone. *)
Theorem kalloc_pops s l :
  fl_rep s l ->
  exists s', kalloc s = Ret (hd 0 l) s' /\ fl_rep s' (tl l) /\
             kbytes s' = kbytes s /\ use_lock s' = use_lock s.
Proof. apply kalloc_run. Qed.

(** A page that is freed is the next one allocated, and allocating it
    restores the list of free pages. *)
Theorem kfree_kalloc v s l :
  fl_rep s l -> page_ok v -> v ∉ l ->
  exists s', (kfree v ;;; kalloc) s = Ret v s' /\ fl_rep s' l.
Proof.
  intros Hr Hv Hin. pose proof (kfree_state_rep v s l Hr Hv Hin) as Hr'.
  destruct (kalloc_run _ _ Hr') as (s' & Hrun & Hrep & _).
  exists s'. split; [|done]. destruct Hr as (_ & _ & _ & Hl).
  by rewrite (bind_ret _ _ _ _ _ (kfree_run v s Hv Hl)).
Qed.

(** [kcount] terminates on a well-formed free list and returns the number
    of free pages. *)
Theorem kcount_correct s l fuel :
  fl_rep s l -> (length l <= fuel)%nat -> Z.of_nat (length l) < 2147483648 ->
  kcount fuel s = Ret (Z.of_nat (length l)) s.
Proof.
  intros (Hc & _ & Hok & _) Hf Hb. unfold kcount, bind, get.
  by rewrite kcount_loop_chain with (l := l) by (done || lia).
Qed.

(** [freerange] returns, and adds to the free list every whole page between
    its bounds and no other. *)
Theorem freerange_frees n vstart vend s l :
  fl_rep s l -> 0 <= vstart <= vend -> vend < 4294963200 ->
  n = Z.to_nat ((vend - PGROUNDUP vstart) / PGSIZE) ->
  Forall page_ok (range_pages n (PGROUNDUP vstart)) ->
  (forall v, v ∈ range_pages n (PGROUNDUP vstart) -> v ∉ l) ->
  exists s', freerange vstart vend s = Ret tt s' /\
             fl_rep s' (reverse (range_pages n (PGROUNDUP vstart)) ++ l).
Proof.
  intros Hr Hs Hv -> Hok Hnew.
  destruct (PGROUNDUP_spec vstart) as [_ Hp]; [lia|].
  unfold freerange. destruct (Z.le_gt_cases (PGROUNDUP vstart) vend) as [Hle|Hgt].
  - destruct (freerange_loop_run (Z.to_nat (vend / PGSIZE))
      (Z.to_nat ((vend - PGROUNDUP vstart) / PGSIZE)) (PGROUNDUP vstart) vend s l)
      as (s' & ? & ? & _); try done; [dlia|dlia|by exists s'].
  - exists s. destruct (Z.to_nat (vend / PGSIZE)); simpl;
      (destruct (Z.leb_spec (PGROUNDUP vstart + PGSIZE) vend); [lia|]);
      (split; [done|]); replace (Z.to_nat _) with O by dlia; done.
Qed.

(** Distinct allocatable pages all lie in the 57344 page frames of physical
    memory. *)
Lemma page_count_bound l :
  KERNBASE <= kend -> NoDup l -> Forall page_ok l -> Z.of_nat (length l) <= 57344.
Proof.
  intros Hk Hnd Hok. set (f := fun v : Z => Z.to_nat ((v - KERNBASE) / PGSIZE)).
  assert (NoDup (f <$> l)) as Hf.
  { rewrite Forall_forall in Hok. revert Hok. induction Hnd as [|v l Hv Hnd IH]; intros Hok;
      simpl; [constructor|]. constructor.
    - intros (w & Heq & Hw)%list_elem_of_fmap.
      destruct (Hok v) as (Hv0 & ? & _ & ?); [by constructor|].
      destruct (Hok w) as (Hw0 & ? & _ & ?); [by constructor|].
      apply Hv. replace v with w; [done|]. subst f. simpl in Heq.
      apply Z2Nat.inj in Heq; dlia.
    - apply IH. intros w Hw. apply Hok. by constructor. }
  assert (f <$> l ⊆+ seq 0 (Z.to_nat 57344)) as Hsub.
  { apply NoDup_submseteq; [done|]. intros x (v & -> & Hv)%list_elem_of_fmap.
    rewrite Forall_forall in Hok. destruct (Hok v Hv) as (Hv0 & ? & Hp & ?).
    unfold V2P in Hp. rewrite u32_small in Hp by lia. apply elem_of_seq.
    subst f. simpl. split; [lia|]. apply Z2Nat.inj_lt; dlia. }
  apply submseteq_length in Hsub. rewrite length_fmap, length_seq in Hsub. lia.
Qed.

(** The free memory [sys_memtop] reports is exact: the walk ends and the
    product with the page size does not overflow. *)
Theorem sys_memtop_exact s l fuel :
  KERNBASE <= kend -> fl_rep s l -> 57344 <= Z.of_nat fuel ->
  sys_memtop fuel s = Ret (PGSIZE * Z.of_nat (length l)) s.
Proof.
  intros Hk Hr Hf. pose proof Hr as (Hc & Hnd & Hok & _).
  pose proof (page_count_bound l Hk Hnd Hok) as Hb. unfold sys_memtop, kcount.
  unfold bind at 1, bind at 1, get.
  rewrite kcount_loop_chain with (l := l) by (done || lia).
  unfold ret. rewrite i32_small by lia. f_equal; lia.
Qed.

End Kalloc.

(** ** A concrete allocator *)

Definition kmem0 : kmem :=
  {| kbytes := ∅; freelist := 0; use_lock := true; kmem_locked := false |}.
Definition kend0 : Z := 2148564992.
Definition page0 : Z := 2151677952.

Lemma kmem0_rep : fl_rep kend0 kmem0 [].
Proof. split_and!; [done|constructor|constructor|done]. Qed.

Lemma page0_ok : page_ok kend0 page0.
Proof. repeat split; vm_compute; congruence. Qed.

Lemma kfree_pushes_witness :
  exists s', kfree kend0 page0 kmem0 = Ret tt s' /\ fl_rep kend0 s' [page0].
Proof.
  destruct (kfree_pushes kend0 page0 kmem0 [] kmem0_rep page0_ok) as (s' & H & Hr & _);
    [by apply not_elem_of_nil|by exists s'].
Defined.

Lemma kfree_panics_iff_witness : kfree kend0 4097 kmem0 = Panic "kfree".
Proof. apply (kfree_panics_iff kend0 4097 kmem0); [reflexivity|left; discriminate]. Defined.

Lemma kalloc_pops_witness : exists s', kalloc kmem0 = Ret 0 s'.
Proof.
  destruct (kalloc_pops kend0 kmem0 [] kmem0_rep) as (s' & H & _). by exists s'.
Defined.

Lemma kfree_kalloc_witness :
  exists s', (kfree kend0 page0 ;;; kalloc) kmem0 = Ret page0 s'.
Proof.
  destruct (kfree_kalloc kend0 page0 kmem0 [] kmem0_rep page0_ok) as (s' & H & _);
    [by apply not_elem_of_nil|by exists s'].
Defined.

Lemma kcount_correct_witness : kcount 3 kmem0 = Ret 0 kmem0.
Proof. apply (kcount_correct kend0 kmem0 [] 3 kmem0_rep); simpl; lia. Defined.

Lemma sys_memtop_exact_witness : sys_memtop (Z.to_nat 57344) kmem0 = Ret 0 kmem0.
Proof.
  apply (sys_memtop_exact kend0 kmem0 [] (Z.to_nat 57344)); [|exact kmem0_rep|lia].
  unfold kend0. lia.
Defined.

Lemma freerange_frees_witness :
  exists s', freerange kend0 page0 (page0 + 8192) kmem0 = Ret tt s' /\
             fl_rep kend0 s' [page0 + 4096; page0].
Proof.
  apply (freerange_frees kend0 2 page0 (page0 + 8192) kmem0 []).
  - exact kmem0_rep.
  - unfold page0; lia.
  - unfold page0; lia.
  - reflexivity.
  - repeat constructor; vm_compute; congruence.
  - intros v _. apply not_elem_of_nil.
Defined.
