(* ===== verification/BlockLayer.v ===== *)
(** What the buffer cache promises to the layers above it.

    The operations are those of bio.c as the log and the file system call them;
    the laws describe them through an abstraction of the cache: the contents of
    every block as the kernel sees it ([bc_view]), the contents on the disk
    ([bc_disk]), which blocks are pinned by B_DIRTY, which are held by the
    running process and under which buffer, and how many buffers can still be
    recycled. The laws are for one running process and the one disk, device 1. *)

From Stdlib Require Import ZArith Lia.
From stdpp Require Import base strings gmap numbers list.
From S2P Require Import Prelude.

Open Scope Z_scope.

Abbreviation ROOTDEV := 1 (only parsing).

Class BlockCache (S : Type) := {
  bc_bread : Z -> Z -> M S nat;
  bc_bwrite : nat -> M S unit;
  bc_brelse : nat -> M S unit;
  (** [b->data], a store to it, [b->blockno] and [b->flags |= B_DIRTY]. *)
  bc_data : S -> nat -> block;
  bc_store : nat -> block -> S -> S;
  bc_blockno : S -> nat -> Z;
  bc_pin : nat -> S -> S;
  (** A machine that starts with this disk and an empty cache. *)
  bc_boot : Z -> (Z -> block) -> S;

  bc_inv : S -> Prop;
  bc_nblocks : S -> Z;
  bc_disk : S -> Z -> block;
  bc_view : S -> Z -> block;
  bc_dirty : S -> Z -> bool;
  bc_held : S -> Z -> option nat;
  bc_avail : S -> nat;
  bc_trace : S -> list (Z * block);

  bc_view_ok s n : bc_inv s -> block_ok (bc_view s n);
  bc_disk_ok s n : bc_inv s -> block_ok (bc_disk s n);
  (** A block that is neither pinned nor held is the same on the disk. *)
  bc_view_clean s n :
    bc_inv s -> bc_dirty s n = false -> bc_held s n = None ->
    bc_view s n = bc_disk s n;
  bc_held_data s n b :
    bc_inv s -> bc_held s n = Some b ->
    bc_data s b = bc_view s n /\ bc_blockno s b = n /\ 0 <= n < bc_nblocks s;

  (** There are 30 buffers, and only pinned or held ones cannot be recycled. *)
  bc_avail_bound s (bs : list Z) :
    bc_inv s -> (forall n, bc_dirty s n = true \/ is_Some (bc_held s n) -> n ∈ bs) ->
    (30 <= bc_avail s + length bs)%nat;

  bc_bread_ok s n :
    bc_inv s -> 0 <= n < bc_nblocks s -> bc_held s n = None ->
    bc_dirty s n = true \/ (0 < bc_avail s)%nat ->
    exists b s', bc_bread ROOTDEV n s = Ret b s' /\ bc_inv s' /\
      bc_nblocks s' = bc_nblocks s /\ bc_trace s' = bc_trace s /\
      (forall x, bc_held s' x = if x =? n then Some b else bc_held s x) /\
      (forall x, bc_disk s' x = bc_disk s x) /\
      (forall x, bc_view s' x = bc_view s x) /\
      (forall x, bc_dirty s' x = bc_dirty s x) /\
      (bc_avail s <= bc_avail s' + (if bc_dirty s n then 0 else 1))%nat;

  bc_store_ok s n b d :
    bc_inv s -> bc_held s n = Some b -> block_ok d ->
    let s' := bc_store b d s in
    bc_inv s' /\ bc_nblocks s' = bc_nblocks s /\ bc_trace s' = bc_trace s /\
    (forall x, bc_held s' x = bc_held s x) /\
    (forall x, bc_disk s' x = bc_disk s x) /\
    (forall x, bc_view s' x = if x =? n then d else bc_view s x) /\
    (forall x, bc_dirty s' x = bc_dirty s x) /\
    bc_avail s' = bc_avail s;

  bc_pin_ok s n b :
    bc_inv s -> bc_held s n = Some b ->
    let s' := bc_pin b s in
    bc_inv s' /\ bc_nblocks s' = bc_nblocks s /\ bc_trace s' = bc_trace s /\
    (forall x, bc_held s' x = bc_held s x) /\
    (forall x, bc_disk s' x = bc_disk s x) /\
    (forall x, bc_view s' x = bc_view s x) /\
    (forall x, bc_dirty s' x = (x =? n) || bc_dirty s x) /\
    bc_avail s' = bc_avail s;

  bc_bwrite_ok s n b :
    bc_inv s -> bc_held s n = Some b ->
    exists s', bc_bwrite b s = Ret tt s' /\ bc_inv s' /\
      bc_nblocks s' = bc_nblocks s /\
      bc_trace s' = bc_trace s ++ [(n, bc_view s n)] /\
      (forall x, bc_held s' x = bc_held s x) /\
      (forall x, bc_disk s' x = if x =? n then bc_view s n else bc_disk s x) /\
      (forall x, bc_view s' x = bc_view s x) /\
      (forall x, bc_dirty s' x = negb (x =? n) && bc_dirty s x) /\
      bc_avail s' = bc_avail s;

  bc_brelse_ok s n b :
    bc_inv s -> bc_held s n = Some b ->
    bc_dirty s n = true \/ bc_view s n = bc_disk s n ->
    exists s', bc_brelse b s = Ret tt s' /\ bc_inv s' /\
      bc_nblocks s' = bc_nblocks s /\ bc_trace s' = bc_trace s /\
      (forall x, bc_held s' x = if x =? n then None else bc_held s x) /\
      (forall x, bc_disk s' x = bc_disk s x) /\
      (forall x, bc_view s' x = bc_view s x) /\
      (forall x, bc_dirty s' x = bc_dirty s x) /\
      (bc_avail s + (if bc_dirty s n then 0 else 1) <= bc_avail s')%nat;

  bc_boot_ok size d :
    0 <= size -> (forall n, block_ok (d n)) ->
    let s := bc_boot size d in
    bc_inv s /\ bc_nblocks s = size /\ bc_trace s = [] /\
    (forall x, bc_held s x = None) /\ (forall x, bc_disk s x = d x) /\
    (forall x, bc_dirty s x = false) /\ bc_avail s = 30%nat;
}.
