(* ===== verification/Bio.v ===== *)
(** Buffer cache (bio.c) over the sleep locks of sleeplock.c and the memory
    disk of memide.c.

    The LRU list is the code's doubly linked list: every buffer has [prev] and
    [next], and the list head is the last element of the array. Code that runs
    under [bcache.lock] or under a sleep lock's spin lock is atomic, so those
    spin locks do not appear; a sleep lock that is taken makes the caller
    sleep. The disk's writes are also recorded, in order, in [trace], which is
    what a crash may cut short. *)

From Stdlib Require Import ZArith Lia.
From stdpp Require Import base strings gmap numbers list.
From S2P Require Import Prelude BlockLayer.

Open Scope Z_scope.

(** ** Sleep locks *)

Record sleeplock := { sl_locked : bool; sl_pid : Z }.

Definition initsleeplock : sleeplock := {| sl_locked := false; sl_pid := 0 |}.

(** [None] when the caller has to sleep. *)
Definition acquiresleep (pid : Z) (lk : sleeplock) : option sleeplock :=
  if sl_locked lk then None else Some {| sl_locked := true; sl_pid := pid |}.

Definition releasesleep (lk : sleeplock) : sleeplock :=
  {| sl_locked := false; sl_pid := 0 |}.

Definition holdingsleep (pid : Z) (lk : sleeplock) : bool :=
  sl_locked lk && (sl_pid lk =? pid).

(** ** State *)

Abbreviation B_VALID := 2 (only parsing).
Abbreviation B_DIRTY := 4 (only parsing).

(** [MAXOPBLOCKS * 3] buffers; the list head [bcache.head] is buffer [HEAD]. *)
Abbreviation NBUF := 30%nat (only parsing).
Abbreviation HEAD := 30%nat (only parsing).

Record buf := {
  flags : Z;
  dev : Z;
  blockno : Z;
  lock : sleeplock;
  refcnt : Z;
  prev : nat;
  next : nat;
  data : block;
}.

(** [bcache], the memory disk and the process that runs. *)
Record bio := {
  bufs : list buf;
  memdisk : Z -> block;
  disksize : Z;
  trace : list (Z * block);
  curpid : Z;
}.

#[export] Instance sleeplock_inhabited : Inhabited sleeplock := populate initsleeplock.
#[export] Instance buf_inhabited : Inhabited buf := populate
  {| flags := 0; dev := 0; blockno := 0; lock := initsleeplock; refcnt := 0;
     prev := O; next := O; data := zero_block |}.

Definition set_flags (v : Z) (b : buf) : buf :=
  {| flags := v; dev := dev b; blockno := blockno b; lock := lock b;
     refcnt := refcnt b; prev := prev b; next := next b; data := data b |}.
Definition set_lock (v : sleeplock) (b : buf) : buf :=
  {| flags := flags b; dev := dev b; blockno := blockno b; lock := v;
     refcnt := refcnt b; prev := prev b; next := next b; data := data b |}.
Definition set_refcnt (v : Z) (b : buf) : buf :=
  {| flags := flags b; dev := dev b; blockno := blockno b; lock := lock b;
     refcnt := v; prev := prev b; next := next b; data := data b |}.
Definition set_prev (v : nat) (b : buf) : buf :=
  {| flags := flags b; dev := dev b; blockno := blockno b; lock := lock b;
     refcnt := refcnt b; prev := v; next := next b; data := data b |}.
Definition set_next (v : nat) (b : buf) : buf :=
  {| flags := flags b; dev := dev b; blockno := blockno b; lock := lock b;
     refcnt := refcnt b; prev := prev b; next := v; data := data b |}.
Definition set_data (v : block) (b : buf) : buf :=
  {| flags := flags b; dev := dev b; blockno := blockno b; lock := lock b;
     refcnt := refcnt b; prev := prev b; next := next b; data := v |}.
(** Recycling: the identity of the buffer changes and its contents are stale. *)
Definition recycle (d n : Z) (b : buf) : buf :=
  {| flags := 0; dev := d; blockno := n; lock := lock b;
     refcnt := 1; prev := prev b; next := next b; data := data b |}.

(** [bcache.buf[i]]. *)
Definition bf (s : bio) (i : nat) : buf := bufs s !!! i.

Definition set_bufs (l : list buf) (s : bio) : bio :=
  {| bufs := l; memdisk := memdisk s; disksize := disksize s;
     trace := trace s; curpid := curpid s |}.

(** [*b = f( *b )] *)
Definition upd (i : nat) (f : buf -> buf) (s : bio) : bio :=
  set_bufs (<[i := f (bf s i)]> (bufs s)) s.

(** The store of a block on the memory disk. *)
Definition disk_write (n : Z) (d : block) (s : bio) : bio :=
  {| bufs := bufs s;
     memdisk := fun x => if x =? n then d else memdisk s x;
     disksize := disksize s; trace := trace s ++ [(n, d)]; curpid := curpid s |}.

(** ** Operations *)

(** Insertion of [b] after the list head. *)
Definition link_front (b : nat) (s : bio) : bio :=
  let s := upd b (set_next (next (bf s HEAD))) s in
  let s := upd b (set_prev HEAD) s in
  let s := upd (next (bf s HEAD)) (set_prev b) s in
  upd HEAD (set_next b) s.

(** The loop of [binit]. Each round initialises the buffer's lock, a field that
    the stores of [link_front] around it do not touch. *)
Fixpoint binit_loop (n : nat) (b : nat) (s : bio) : bio :=
  match n with
  | O => s
  | S n' =>
      binit_loop n' (S b) (link_front b (upd b (set_lock initsleeplock) s))
  end.

Definition binit (s : bio) : bio :=
  let s := upd HEAD (set_prev HEAD) s in
  let s := upd HEAD (set_next HEAD) s in
  binit_loop NBUF O s.

(** First scan of [bget], from [head.next] along [next]. *)
Fixpoint bget_cached (fuel : nat) (s : bio) (b : nat) (d n : Z) : option nat :=
  match fuel with
  | O => None
  | S f =>
      if decide (b = HEAD) then None
      else if (dev (bf s b) =? d) && (blockno (bf s b) =? n) then Some b
      else bget_cached f s (next (bf s b)) d n
  end.

(** Second scan, from [head.prev] along [prev]. *)
Fixpoint bget_unused (fuel : nat) (s : bio) (b : nat) : option nat :=
  match fuel with
  | O => None
  | S f =>
      if decide (b = HEAD) then None
      else if (refcnt (bf s b) =? 0) && (Z.land (flags (bf s b)) B_DIRTY =? 0)
      then Some b
      else bget_unused f s (prev (bf s b))
  end.

(** [acquiresleep(&b->lock); return b;] *)
Definition acquire_buf (b : nat) : M bio nat :=
  let* s := get in
  match acquiresleep (curpid s) (lock (bf s b)) with
  | None => sleep_on ("buffer", Z.of_nat b)
  | Some lk => put (upd b (set_lock lk) s) ;;; ret b
  end.

(** A list of [NBUF] buffers is walked in [NBUF + 1] steps. *)
Definition bget (d n : Z) : M bio nat :=
  let* s := get in
  match bget_cached (S NBUF) s (next (bf s HEAD)) d n with
  | Some b =>
      modify (upd b (fun x => set_refcnt (u32 (refcnt x + 1)) x)) ;;;
      acquire_buf b
  | None =>
      match bget_unused (S NBUF) s (prev (bf s HEAD)) with
      | Some b => modify (upd b (recycle d n)) ;;; acquire_buf b
      | None => panic "bget: no buffers"
      end
  end.

(** [iderw] of memide.c. *)
Definition iderw (b : nat) : M bio unit :=
  let* s := get in
  let x := bf s b in
  if negb (holdingsleep (curpid s) (lock x)) then panic "iderw: buf not locked"
  else if Z.land (flags x) (Z.lor B_VALID B_DIRTY) =? B_VALID
  then panic "iderw: nothing to do"
  else if negb (dev x =? 1) then panic "iderw: request not for disk 1"
  else if disksize s <=? blockno x then panic "iderw: block out of range"
  else
    (if negb (Z.land (flags x) B_DIRTY =? 0) then
       modify (upd b (fun x => set_flags (Z.land (flags x) (Z.lnot B_DIRTY)) x)) ;;;
       modify (fun s => disk_write (blockno (bf s b)) (data (bf s b)) s)
     else
       modify (fun s => upd b (set_data (memdisk s (blockno (bf s b)))) s)) ;;;
    modify (upd b (fun x => set_flags (Z.lor (flags x) B_VALID) x)).

Definition bread (d n : Z) : M bio nat :=
  let* b := bget d n in
  let* s := get in
  when (Z.land (flags (bf s b)) B_VALID =? 0) (iderw b) ;;;
  ret b.

Definition bwrite (b : nat) : M bio unit :=
  let* s := get in
  if negb (holdingsleep (curpid s) (lock (bf s b))) then panic "bwrite"
  else
    modify (upd b (fun x => set_flags (Z.lor (flags x) B_DIRTY) x)) ;;;
    iderw b.

(** [b->next->prev = b->prev; b->prev->next = b->next;] *)
Definition unlink (b : nat) (s : bio) : bio :=
  let s := upd (next (bf s b)) (set_prev (prev (bf s b))) s in
  upd (prev (bf s b)) (set_next (next (bf s b))) s.

Definition brelse (b : nat) : M bio unit :=
  let* s := get in
  if negb (holdingsleep (curpid s) (lock (bf s b))) then panic "brelse"
  else
    modify (upd b (fun x => set_lock (releasesleep (lock x)) x)) ;;;
    modify (upd b (fun x => set_refcnt (u32 (refcnt x - 1)) x)) ;;;
    let* s := get in
    when (refcnt (bf s b) =? 0)
      (modify (fun s => link_front b (unlink b s))).

(** ** The linked list as a sequence of buffers *)

(** Following [f] from [a] visits [l] and then reaches [z]. *)
Fixpoint path (f : nat -> nat) (a : nat) (l : list nat) (z : nat) : Prop :=
  match l with
  | [] => f a = z
  | x :: l' => f a = x /\ path f x l' z
  end.

Definition lastd (a : nat) (l : list nat) : nat := default a (last l).

Lemma path_app f l1 : forall a x l2 z,
  path f a (l1 ++ x :: l2) z <-> path f a l1 x /\ path f x l2 z.
Proof.
  induction l1 as [|y l1 IH]; intros a x l2 z; simpl; [done|].
  rewrite IH. tauto.
Qed.

Lemma path_ext f g l : forall a z,
  (forall i, i ∈ a :: l -> f i = g i) -> path f a l z -> path g a l z.
Proof.
  induction l as [|x l IH]; intros a z H Hp; simpl in *.
  - rewrite <- H; [done|set_solver].
  - destruct Hp as [<- Hp]. split; [by rewrite H by set_solver|].
    apply IH; [|done]. intros i Hi. apply H. set_solver.
Qed.

Lemma lastd_cons a x l : lastd a (x :: l) = lastd x l.
Proof.
  unfold lastd. destruct l as [|y l]; [done|]. rewrite last_cons_cons.
  destruct (last (y :: l)) eqn:E; [done|]. by apply last_None in E.
Qed.

Lemma lastd_elem l : forall a, lastd a l ∈ a :: l.
Proof.
  induction l as [|x l IH]; intros a; [set_solver|].
  rewrite lastd_cons. pose proof (IH x). set_solver.
Qed.

Lemma path_last f l : forall a z, path f a l z -> f (lastd a l) = z.
Proof.
  induction l as [|x l IH]; intros a z Hp; [done|].
  rewrite lastd_cons. apply IH. by destruct Hp.
Qed.

(** Redirecting the last node of a path. *)
Lemma path_redirect f g l : forall a x y,
  path f a l x -> NoDup (a :: l) -> g (lastd a l) = y ->
  (forall i, i ∈ a :: l -> i <> lastd a l -> g i = f i) -> path g a l y.
Proof.
  induction l as [|b l IH]; intros a x y Hp Hnd Hl Hg; [done|].
  destruct Hp as [Hab Hp]. rewrite lastd_cons in Hl, Hg.
  apply NoDup_cons in Hnd as [Ha Hnd]. split.
  - rewrite Hg; [done|set_solver|]. pose proof (lastd_elem l b) as Hin.
    intros ->. done.
  - eapply IH; [done..|]. intros i Hi. apply Hg. set_solver.
Qed.

Lemma path_hd f a l z : path f a l z -> f a = default z (head l).
Proof. destruct l; simpl; tauto. Qed.

Definition nx (s : bio) (i : nat) : nat := next (bf s i).
Definition pv (s : bio) (i : nat) : nat := prev (bf s i).

(** The circular list with head [h] visits the nodes in the order [l] forwards,
    and in the reverse order backwards. *)
Definition dll (h : nat) (nxt prv : nat -> nat) (l : list nat) : Prop :=
  path nxt h l h /\ path prv h (reverse l) h /\ NoDup l /\ h ∉ l.

Lemma lastd_reverse l z : lastd z (reverse l) = default z (head l).
Proof. unfold lastd. by rewrite last_reverse. Qed.

Lemma head_reverse_lastd l z : default z (head (reverse l)) = lastd z l.
Proof. unfold lastd. by rewrite head_reverse. Qed.

Lemma NoDup_cons_reverse (h : nat) l : NoDup l -> h ∉ l -> NoDup (h :: reverse l).
Proof.
  intros. constructor; [by rewrite elem_of_reverse|by rewrite reverse_Permutation].
Qed.

(** Insertion of a new node behind the head. *)
Lemma dll_link h nxt prv nxt' prv' l b :
  dll h nxt prv l -> b ∉ l -> b <> h ->
  nxt' h = b -> nxt' b = nxt h -> prv' b = h -> prv' (nxt h) = b ->
  (forall i, i <> h -> i <> b -> nxt' i = nxt i) ->
  (forall i, i <> nxt h -> i <> b -> prv' i = prv i) ->
  dll h nxt' prv' (b :: l).
Proof.
  intros (Hn & Hp & Hnd & Hh) Hb HbH E1 E2 E3 E4 Fn Fp. split_and!.
  - split; [done|]. destruct l as [|c l]; simpl in *.
    + congruence.
    + destruct Hn as [Hc Hn]. split; [congruence|].
      eapply path_ext; [|exact Hn]. intros i Hi. symmetry.
      apply Fn; by intros ->.
  - rewrite reverse_cons. change [b] with (b :: []). apply path_app. split; [|done].
    eapply (path_redirect prv); [exact Hp|by apply NoDup_cons_reverse| |].
    + rewrite lastd_reverse, <- (path_hd _ _ _ _ Hn). done.
    + intros i Hi. rewrite lastd_reverse, <- (path_hd _ _ _ _ Hn). intros Hne.
      apply Fp; [done|]. intros ->. apply elem_of_cons in Hi as [?|Hi]; [done|].
      by rewrite elem_of_reverse in Hi.
  - by constructor.
  - apply not_elem_of_cons. split; [congruence|done].
Qed.

(** What removing [b] from [l1 ++ b :: l2] needs to know of its neighbours. *)
Lemma dll_neighbours h nxt prv l1 l2 b :
  dll h nxt prv (l1 ++ b :: l2) ->
  prv b = lastd h l1 /\ nxt b = lastd h (reverse l2) /\ b <> h /\ b ∉ l1 /\ b ∉ l2 /\
  (forall i, i ∈ l2 -> i <> prv b) /\ (forall i, i ∈ l1 -> i <> nxt b).
Proof.
  intros (Hn & Hp & Hnd & Hh).
  rewrite reverse_app, reverse_cons, <- app_assoc in Hp. simpl in Hp.
  apply path_app in Hn as [_ Hn2]. apply path_app in Hp as [_ Hp1].
  apply NoDup_app in Hnd as (_ & Hdis & [Hb2 _]%NoDup_cons).
  apply not_elem_of_app in Hh as [Hh1 [Hhb Hh2]%not_elem_of_cons].
  assert (prv b = lastd h l1) as Eprv
    by (rewrite (path_hd _ _ _ _ Hp1); apply head_reverse_lastd).
  assert (nxt b = lastd h (reverse l2)) as Enxt
    by (by rewrite (path_hd _ _ _ _ Hn2), lastd_reverse).
  split_and!; [done|done|congruence| |done| |].
  - intros Hb1. apply (Hdis b Hb1). constructor.
  - intros i Hi ->. rewrite Eprv in Hi.
    pose proof (lastd_elem l1 h) as [Heq|Hin]%elem_of_cons; [by rewrite Heq in Hi|].
    apply (Hdis _ Hin). by constructor.
  - intros i Hi ->. rewrite Enxt in Hi.
    pose proof (lastd_elem (reverse l2) h) as [Heq|Hin]%elem_of_cons; [by rewrite Heq in Hi|].
    rewrite elem_of_reverse in Hin. apply (Hdis _ Hi). by constructor.
Qed.

(** Removal of a node. *)
Lemma dll_unlink h nxt prv nxt' prv' l1 l2 b :
  dll h nxt prv (l1 ++ b :: l2) ->
  nxt' (prv b) = nxt b -> prv' (nxt b) = prv b ->
  (forall i, i <> prv b -> i <> b -> nxt' i = nxt i) ->
  (forall i, i <> nxt b -> i <> b -> prv' i = prv i) ->
  dll h nxt' prv' (l1 ++ l2).
Proof.
  intros Hd E1 E2 Fn Fp.
  destruct (dll_neighbours _ _ _ _ _ _ Hd) as (Eprv & Enxt & HbH & Hb1 & Hb2 & N2 & N1).
  destruct Hd as (Hn & Hp & Hnd & Hh).
  rewrite reverse_app, reverse_cons, <- app_assoc in Hp. simpl in Hp.
  apply path_app in Hn as [Hn1 Hn2]. apply path_app in Hp as [Hp2 Hp1].
  apply NoDup_app in Hnd as (Hnd1 & Hdis & [_ Hnd2]%NoDup_cons).
  apply not_elem_of_app in Hh as [Hh1 [_ Hh2]%not_elem_of_cons].
  assert (path nxt' h l1 (nxt b)) as Hq1.
  { eapply (path_redirect nxt); [exact Hn1|by constructor|by rewrite <- Eprv|].
    intros i Hi Hne. apply Fn; [congruence|].
    intros ->. by apply elem_of_cons in Hi as [?|?]. }
  assert (path prv' h (reverse l2) (prv b)) as Hq2.
  { eapply (path_redirect prv); [exact Hp2|by apply NoDup_cons_reverse|by rewrite <- Enxt|].
    intros i Hi Hne. apply Fp; [congruence|].
    intros ->. apply elem_of_cons in Hi as [?|Hi]; [done|]. by rewrite elem_of_reverse in Hi. }
  split_and!.
  - destruct l2 as [|c l2]; simpl in Hn2.
    + rewrite app_nil_r. by rewrite Hn2 in Hq1.
    + destruct Hn2 as [Hc Hn2]. apply path_app. rewrite Hc in Hq1. split; [done|].
      eapply path_ext; [|exact Hn2]. intros i Hi. symmetry.
      apply Fn; [by apply N2|by intros ->].
  - rewrite reverse_app. pose proof (path_hd _ _ _ _ Hp1) as Eh.
    destruct (reverse l1) as [|c r1] eqn:Er; simpl in Hp1, Eh.
    + rewrite app_nil_r. by rewrite Eh in Hq2.
    + destruct Hp1 as [Hc Hp1]. apply path_app. rewrite Hc in Hq2. split; [done|].
      eapply path_ext; [|exact Hp1]. intros i Hi. symmetry.
      rewrite <- Er in Hi. rewrite elem_of_reverse in Hi.
      apply Fp; [by apply N1|by intros ->].
  - apply NoDup_app. split_and!; [done| |done].
    intros i Hi1 Hi2. apply (Hdis i Hi1). by constructor.
  - by apply not_elem_of_app.
Qed.

(** ** Effect of the operations on single buffers *)

Definition len_ok (s : bio) : Prop := length (bufs s) = S NBUF.

Lemma bf_upd i f s j :
  len_ok s -> (i <= HEAD)%nat ->
  bf (upd i f s) j = if decide (i = j) then f (bf s i) else bf s j.
Proof.
  intros Hl Hi. unfold bf at 1, upd. cbn [bufs set_bufs]. case_decide as E.
  - subst j. apply list_lookup_total_insert_eq. rewrite Hl. lia.
  - by apply list_lookup_total_insert_ne.
Qed.

Lemma len_upd i f s : len_ok s -> len_ok (upd i f s).
Proof. unfold len_ok, upd. cbn [bufs set_bufs]. by rewrite length_insert. Qed.

(** A buffer without its links. *)
Definition core (b : buf) : buf := set_prev O (set_next O b).

Lemma link_front_spec b s :
  len_ok s -> (b < HEAD)%nat -> (nx s HEAD <= HEAD)%nat ->
  len_ok (link_front b s) /\
  (forall i, nx (link_front b s) i =
     if decide (i = HEAD) then b else if decide (i = b) then nx s HEAD else nx s i) /\
  (forall i, pv (link_front b s) i =
     if decide (i = nx s HEAD) then b else if decide (i = b) then HEAD else pv s i) /\
  (forall i, core (bf (link_front b s) i) = core (bf s i)).
Proof.
  intros Hl Hb Hn. unfold link_front, nx, pv in *.
  set (s1 := upd b (set_next (next (bf s HEAD))) s).
  assert (len_ok s1) as L1 by (by apply len_upd).
  set (s2 := upd b (set_prev HEAD) s1).
  assert (len_ok s2) as L2 by (by apply len_upd).
  assert (E2 : forall i, bf s2 i = if decide (b = i)
             then set_prev HEAD (set_next (next (bf s HEAD)) (bf s b)) else bf s i).
  { intros i. unfold s2, s1. rewrite !bf_upd by (done || lia). by repeat case_decide. }
  assert (next (bf s2 HEAD) = next (bf s HEAD)) as ->.
  { rewrite E2. case_decide; [lia|done]. }
  set (h := next (bf s HEAD)) in *.
  set (s3 := upd h (set_prev b) s2).
  assert (len_ok s3) as L3 by (by apply len_upd).
  assert (E4 : forall i, bf (upd HEAD (set_next b) s3) i =
    let x := if decide (h = i) then set_prev b (bf s2 h) else bf s2 i in
    if decide (HEAD = i) then set_next b x else x).
  { intros i. rewrite bf_upd by (done || lia). unfold s3. rewrite !bf_upd by (done || lia).
    case_decide; [subst i|]; done. }
  split_and!; [by apply len_upd|..]; intros i; rewrite E4; cbv zeta; rewrite !E2;
    repeat case_decide; subst; try lia; try congruence; try done.
  change (core (bf s h) = core (bf s HEAD)). congruence.
Qed.

Lemma unlink_spec b s :
  len_ok s -> (nx s b <= HEAD)%nat -> (pv s b <= HEAD)%nat ->
  nx s b <> b ->
  len_ok (unlink b s) /\
  (forall i, nx (unlink b s) i = if decide (i = pv s b) then nx s b else nx s i) /\
  (forall i, pv (unlink b s) i = if decide (i = nx s b) then pv s b else pv s i) /\
  (forall i, core (bf (unlink b s) i) = core (bf s i)).
Proof.
  intros Hl Hn Hp Hnb. unfold unlink, nx, pv in *.
  set (s1 := upd (next (bf s b)) (set_prev (prev (bf s b))) s).
  assert (len_ok s1) as L1 by (by apply len_upd).
  assert (E1 : forall i, bf s1 i = if decide (next (bf s b) = i)
             then set_prev (prev (bf s b)) (bf s i) else bf s i).
  { intros i. unfold s1. rewrite bf_upd by (done || lia). case_decide; by subst. }
  assert (bf s1 b = bf s b) as -> by (rewrite E1; by case_decide).
  assert (E2 : forall i, bf (upd (prev (bf s b)) (set_next (next (bf s b))) s1) i =
    let x := if decide (next (bf s b) = i) then set_prev (prev (bf s b)) (bf s i) else bf s i in
    if decide (prev (bf s b) = i) then set_next (next (bf s b)) x else x).
  { intros i. rewrite bf_upd by (done || lia). rewrite E1. by case_decide; [subst i|]; rewrite ?E1. }
  split_and!; [by apply len_upd|..]; intros i; rewrite E2; cbv zeta;
    repeat case_decide; subst; try congruence; done.
Qed.

(** The list of the cache: all buffers, in the order [l]. *)
Definition cache_list (s : bio) (l : list nat) : Prop :=
  len_ok s /\ dll HEAD (nx s) (pv s) l /\ l ≡ₚ seq 0 NBUF.

Lemma cache_list_elem s l i : cache_list s l -> i ∈ l <-> (i < NBUF)%nat.
Proof. intros (_ & _ & ->). rewrite elem_of_seq. lia. Qed.

Lemma path_range f l : forall a z, path f a l z -> forall i, i ∈ a :: l ->
  f i ∈ l ++ [z].
Proof.
  induction l as [|x l IH]; intros a z Hp i Hi; simpl in *.
  - apply list_elem_of_singleton in Hi as ->. rewrite Hp. constructor.
  - destruct Hp as [Hx Hp]. apply elem_of_cons in Hi as [->|Hi].
    + rewrite Hx. constructor.
    + right. by apply (IH x).
Qed.

Lemma cache_list_bounds s l i :
  cache_list s l -> (i <= HEAD)%nat -> (nx s i <= HEAD)%nat /\ (pv s i <= HEAD)%nat.
Proof.
  intros Hc Hi. pose proof (cache_list_elem s l) as He.
  destruct Hc as (Hl & (Hn & Hp & _) & Hperm).
  assert (Hin : forall j, j ∈ l ++ [HEAD] -> (j <= HEAD)%nat).
  { intros j [Hj|Hj]%elem_of_app.
    - rewrite Hperm, elem_of_seq in Hj. lia.
    - apply list_elem_of_singleton in Hj. lia. }
  assert (i ∈ HEAD :: l) as Hmem.
  { destruct (decide (i = HEAD)) as [->|]; [constructor|]. right.
    rewrite Hperm, elem_of_seq. lia. }
  split; apply Hin.
  - by apply (path_range _ _ _ _ Hn).
  - pose proof (path_range _ _ _ _ Hp i) as Hr.
    rewrite elem_of_cons, elem_of_reverse, <- elem_of_cons in Hr.
    specialize (Hr Hmem). rewrite elem_of_app, elem_of_reverse in Hr.
    by apply elem_of_app.
Qed.

(** Moving the released buffer to the front of the list. *)
Lemma cache_list_front s l1 b l2 :
  cache_list s (l1 ++ b :: l2) ->
  cache_list (link_front b (unlink b s)) (b :: l1 ++ l2) /\
  forall i, core (bf (link_front b (unlink b s)) i) = core (bf s i).
Proof.
  intros Hc. pose proof (cache_list_elem _ _ b Hc) as [Hb _].
  assert (b < NBUF)%nat as Hlt by (apply Hb; apply elem_of_app; right; constructor).
  destruct (cache_list_bounds _ _ b Hc) as [Bn Bp]; [lia|].
  destruct Hc as (Hl & Hd & Hperm).
  destruct (dll_neighbours _ _ _ _ _ _ Hd) as (Eprv & Enxt & HbH & Hb1 & Hb2 & N2 & N1).
  assert (nx s b <> b) as Hself.
  { rewrite Enxt. intros Heq. pose proof (lastd_elem (reverse l2) HEAD) as Hin.
    rewrite Heq, elem_of_cons, elem_of_reverse in Hin. naive_solver. }
  destruct (unlink_spec b s) as (Lu & Un & Up & Uc); try done.
  assert (dll HEAD (nx (unlink b s)) (pv (unlink b s)) (l1 ++ l2)) as Hd'.
  { apply (dll_unlink _ _ _ _ _ _ _ _ Hd).
    - rewrite Un. by case_decide.
    - rewrite Up. by case_decide.
    - intros i Hi _. rewrite Un. by case_decide.
    - intros i Hi _. rewrite Up. by case_decide. }
  assert (nx (unlink b s) HEAD <= HEAD)%nat as Bh.
  { rewrite Un. case_decide; [done|].
    apply (cache_list_bounds s (l1 ++ b :: l2) HEAD); [done|lia]. }
  destruct (link_front_spec b (unlink b s)) as (Lf & Fn & Fp & Fc); [done|lia|done|].
  split; [split_and!|]; [done| | |intros i; by rewrite Fc, Uc].
  - assert (b ∉ l1 ++ l2) as Hnew by (by apply not_elem_of_app).
    assert (nx (unlink b s) HEAD <> b) as Hhb.
    { intros Heq. pose proof (path_range _ _ _ _ (proj1 Hd') HEAD) as Hr.
      rewrite Heq in Hr. specialize (Hr ltac:(constructor)).
      apply elem_of_app in Hr as [?|Hr]; [done|].
      apply list_elem_of_singleton in Hr. lia. }
    apply (dll_link _ (nx (unlink b s)) (pv (unlink b s))); try done.
    + rewrite Fn. by repeat case_decide.
    + rewrite Fp. repeat case_decide; congruence.
    + rewrite Fp. by case_decide.
    + intros i H1 H2. rewrite Fn. by repeat case_decide.
    + intros i H1 H2. rewrite Fp. by repeat case_decide.
  - rewrite <- Hperm. by rewrite Permutation_middle.
Qed.

(** ** The scans of [bget] *)

Definition holds_block (d n : Z) (b : buf) : bool := (dev b =? d) && (blockno b =? n).
Definition unused (b : buf) : bool := (refcnt b =? 0) && (Z.land (flags b) B_DIRTY =? 0).

Lemma bget_cached_find s d n l : forall a fuel,
  path (nx s) a l HEAD -> HEAD ∉ l -> (length l < fuel)%nat ->
  bget_cached fuel s (nx s a) d n = List.find (fun i => holds_block d n (bf s i)) l.
Proof.
  induction l as [|x l IH]; intros a fuel Hp Hh Hf;
    (destruct fuel as [|fuel]; [simpl in Hf; lia|]); cbn [bget_cached List.find].
  - simpl in Hp. rewrite Hp. by case_decide.
  - destruct Hp as [-> Hp]. apply not_elem_of_cons in Hh as [Hhx Hh].
    case_decide; [congruence|]. unfold holds_block at 1.
    destruct ((dev (bf s x) =? d) && (blockno (bf s x) =? n)); [done|].
    apply IH; [done..|simpl in Hf; lia].
Qed.

Lemma bget_unused_find s l : forall a fuel,
  path (pv s) a l HEAD -> HEAD ∉ l -> (length l < fuel)%nat ->
  bget_unused fuel s (pv s a) = List.find (fun i => unused (bf s i)) l.
Proof.
  induction l as [|x l IH]; intros a fuel Hp Hh Hf;
    (destruct fuel as [|fuel]; [simpl in Hf; lia|]); cbn [bget_unused List.find].
  - simpl in Hp. rewrite Hp. by case_decide.
  - destruct Hp as [-> Hp]. apply not_elem_of_cons in Hh as [Hhx Hh].
    case_decide; [congruence|]. unfold unused at 1.
    destruct ((refcnt (bf s x) =? 0) && (Z.land (flags (bf s x)) B_DIRTY =? 0)); [done|].
    apply IH; [done..|simpl in Hf; lia].
Qed.

(** [bget]'s two scans in terms of the order of the list: the first buffer that
    holds the block, or else the least recently used one that is free. *)
Lemma bget_scans s l d n :
  cache_list s l ->
  bget_cached (S NBUF) s (next (bf s HEAD)) d n
    = List.find (fun i => holds_block d n (bf s i)) l /\
  bget_unused (S NBUF) s (prev (bf s HEAD))
    = List.find (fun i => unused (bf s i)) (reverse l).
Proof.
  intros (Hl & (Hn & Hp & Hnd & Hh) & Hperm).
  assert (length l = NBUF) as Hlen by (by rewrite Hperm, length_seq).
  split.
  - apply bget_cached_find; [done..|lia].
  - apply bget_unused_find; [done| |]; rewrite ?elem_of_reverse, ?length_reverse; [done|lia].
Qed.

(** ** Initialisation *)

Lemma binit_loop_spec n : forall b s l,
  len_ok s -> dll HEAD (nx s) (pv s) l -> (forall i, i ∈ l -> (i < b)%nat) ->
  (b + n <= NBUF)%nat ->
  len_ok (binit_loop n b s) /\
  dll HEAD (nx (binit_loop n b s)) (pv (binit_loop n b s)) (reverse (seq b n) ++ l) /\
  (forall i, core (bf (binit_loop n b s) i) =
     if decide (b <= i < b + n)%nat then set_lock initsleeplock (core (bf s i))
     else core (bf s i)).
Proof.
  induction n as [|n IH]; intros b s l Hl Hd Hlt Hb; cbn [binit_loop seq].
  { split_and!; [done|done|]. intros i. case_decide; [lia|done]. }
  set (s1 := upd b (set_lock initsleeplock) s).
  assert (len_ok s1) as L1 by (by apply len_upd).
  assert (E1 : forall i, bf s1 i = if decide (b = i) then set_lock initsleeplock (bf s i) else bf s i).
  { intros i. unfold s1. rewrite bf_upd by (done || lia). case_decide; by subst. }
  assert (N1 : forall i, nx s1 i = nx s i) by (intros i; unfold nx; rewrite E1; by case_decide).
  assert (P1 : forall i, pv s1 i = pv s i) by (intros i; unfold pv; rewrite E1; by case_decide).
  assert (dll HEAD (nx s1) (pv s1) l) as Hd1.
  { destruct Hd as (Hn & Hp & ? & ?). split_and!; [| |done..].
    - eapply path_ext; [|exact Hn]. done.
    - eapply path_ext; [|exact Hp]. done. }
  assert (b ∉ l) as Hnew by (intros Hin%Hlt; lia).
  assert (nx s1 HEAD ∈ l ++ [HEAD]) as Hhd.
  { apply (path_range _ _ _ _ (proj1 Hd1)). constructor. }
  assert (nx s1 HEAD <> b /\ nx s1 HEAD <= HEAD)%nat as [Hnb Hle].
  { apply elem_of_app in Hhd as [Hin%Hlt|Hin%list_elem_of_singleton]; lia. }
  destruct (link_front_spec b s1) as (Lf & Fn & Fp & Fc); [done|lia|done|].
  assert (dll HEAD (nx (link_front b s1)) (pv (link_front b s1)) (b :: l)) as Hd2.
  { apply (dll_link _ (nx s1) (pv s1)); [done|done|lia|..].
    - rewrite Fn. by case_decide.
    - rewrite Fn. repeat case_decide; [lia|done|done].
    - rewrite Fp. repeat case_decide; congruence.
    - rewrite Fp. by case_decide.
    - intros i ? ?. rewrite Fn. by repeat case_decide.
    - intros i ? ?. rewrite Fp. by repeat case_decide. }
  destruct (IH (S b) (link_front b s1) (b :: l)) as (L & D & C); [done|done| |lia|].
  { intros i [->|Hi]%elem_of_cons; [lia|]. apply Hlt in Hi. lia. }
  split_and!; [done|by rewrite reverse_cons, <- app_assoc|].
  intros i. rewrite C, Fc, E1.
  repeat case_decide; subst; try lia; done.
Qed.

Lemma binit_list s :
  len_ok s ->
  cache_list (binit s) (reverse (seq 0 NBUF)) /\
  (forall i, (i < NBUF)%nat -> core (bf (binit s) i) = set_lock initsleeplock (core (bf s i))).
Proof.
  intros Hl. unfold binit.
  set (s2 := upd HEAD (set_next HEAD) (upd HEAD (set_prev HEAD) s)).
  assert (len_ok s2) as L2 by (by do 2 apply len_upd).
  assert (E : forall i, bf s2 i = if decide (HEAD = i)
             then set_next HEAD (set_prev HEAD (bf s i)) else bf s i).
  { intros i. unfold s2. rewrite !bf_upd by (first [by apply len_upd|done|lia]).
    repeat case_decide; by subst. }
  destruct (binit_loop_spec NBUF 0 s2 []) as (L & D & C); [done| |set_solver|lia|].
  { split_and!; [| |constructor|apply not_elem_of_nil].
    - simpl. unfold nx. rewrite E. by case_decide.
    - simpl. unfold pv. rewrite E. by case_decide. }
  rewrite app_nil_r in D. split; [split_and!|].
  - done.
  - done.
  - by rewrite reverse_Permutation.
  - intros i Hi. rewrite C, E. repeat case_decide; subst; try lia; done.
Qed.

(** ** The cache as a map from blocks to contents *)

(** Buffer [i] without its links. *)
Definition cr (s : bio) (i : nat) : buf := core (bf s i).

Definition lookup_buf (s : bio) (n : Z) : option nat :=
  List.find (fun i => holds_block 1 n (cr s i)) (seq 0 NBUF).
Definition cbuf (s : bio) (n : Z) : option (nat * buf) :=
  match lookup_buf s n with Some i => Some (i, cr s i) | None => None end.
Definition is_dirty (b : buf) : bool := negb (Z.land (flags b) B_DIRTY =? 0).

Definition view (s : bio) (n : Z) : block :=
  match cbuf s n with Some (_, c) => data c | None => memdisk s n end.
Definition dirty (s : bio) (n : Z) : bool :=
  match cbuf s n with Some (_, c) => is_dirty c | None => false end.
Definition held (s : bio) (n : Z) : option nat :=
  match cbuf s n with
  | Some (i, c) => if sl_locked (lock c) then Some i else None
  | None => None
  end.
Definition avail (s : bio) : nat :=
  length (List.filter (fun i => unused (cr s i)) (seq 0 NBUF)).

(** What holds of a buffer between the operations of the running process: it
    was never used, or it holds a valid block of the disk; it is referenced
    exactly while the process holds its lock; and when it is neither held nor
    dirty it agrees with the disk. *)
Definition buf_ok (s : bio) (b : buf) : Prop :=
  block_ok (data b) /\
  ((dev b = 0 /\ flags b = 0 /\ refcnt b = 0 /\ sl_locked (lock b) = false) \/
   (dev b = 1 /\ 0 <= blockno b < disksize s /\ (flags b = 2 \/ flags b = 6) /\
    (if sl_locked (lock b) then refcnt b = 1 /\ sl_pid (lock b) = curpid s
     else refcnt b = 0 /\ (flags b = 2 -> data b = memdisk s (blockno b))))).

Record bio_inv (s : bio) : Prop := {
  inv_list : exists l, cache_list s l;
  inv_bufs : forall i, (i < NBUF)%nat -> buf_ok s (cr s i);
  inv_uniq : forall i j, (i < NBUF)%nat -> (j < NBUF)%nat ->
    dev (cr s i) = 1 -> dev (cr s j) = 1 ->
    blockno (cr s i) = blockno (cr s j) -> i = j;
  inv_disk : forall n, block_ok (memdisk s n);
}.

Lemma find_unique {A} (P : A -> bool) l x :
  (forall y, y ∈ l -> P y = true -> y = x) -> x ∈ l -> P x = true ->
  List.find P l = Some x.
Proof.
  intros Hu Hx Px. destruct (List.find P l) eqn:E.
  - apply List.find_some in E as [Hin Hp]. f_equal. apply Hu; [|done].
    by apply list_elem_of_In.
  - rewrite (List.find_none _ _ E x) in Px; [done|by apply list_elem_of_In].
Qed.

Lemma find_ext {A} (P Q : A -> bool) l :
  (forall x, x ∈ l -> P x = Q x) -> List.find P l = List.find Q l.
Proof.
  intros H. induction l as [|x l IH]; [done|]. simpl. rewrite H by constructor.
  destruct (Q x); [done|]. apply IH. intros y Hy. apply H. by constructor.
Qed.

Lemma holds_block_true d n b : holds_block d n b = true <-> dev b = d /\ blockno b = n.
Proof. unfold holds_block. rewrite andb_true_iff, !Z.eqb_eq. done. Qed.

Lemma lookup_buf_Some s n i :
  bio_inv s ->
  lookup_buf s n = Some i <-> (i < NBUF)%nat /\ dev (cr s i) = 1 /\ blockno (cr s i) = n.
Proof.
  intros Hi. split.
  - intros [Hin Hh]%List.find_some. apply holds_block_true in Hh as [? ?].
    apply List.in_seq in Hin. split_and!; [lia|done..].
  - intros (Hl & Hd & Hn). apply find_unique.
    + intros j Hj [? ?]%holds_block_true. apply elem_of_seq in Hj.
      apply (inv_uniq s Hi); first [lia|congruence].
    + apply elem_of_seq. lia.
    + by apply holds_block_true.
Qed.

Lemma lookup_buf_None s n :
  lookup_buf s n = None ->
  forall i, (i < NBUF)%nat -> dev (cr s i) = 1 -> blockno (cr s i) <> n.
Proof.
  intros Hf i Hi Hd Hn. pose proof (List.find_none _ _ Hf i) as H. cbv beta in H.
  rewrite (proj2 (holds_block_true 1 n (cr s i))) in H by done.
  discriminate H. apply List.in_seq. lia.
Qed.

(** The scan of [bget] finds the buffer of the block, wherever it is in the list. *)
Lemma scan_lookup s l n :
  bio_inv s -> cache_list s l ->
  List.find (fun i => holds_block 1 n (bf s i)) l = lookup_buf s n.
Proof.
  intros Hi Hc. destruct (lookup_buf s n) as [i|] eqn:E.
  - apply lookup_buf_Some in E as (Hl & Hd & Hn); [|done]. apply find_unique.
    + intros j Hj [? ?]%holds_block_true. apply (cache_list_elem _ _ _ Hc) in Hj.
      by apply (inv_uniq s Hi); [| |..|rewrite Hn].
    + by apply (cache_list_elem _ _ _ Hc).
    + by apply holds_block_true.
  - destruct (List.find _ l) as [i|] eqn:F; [|done].
    apply List.find_some in F as [Hin [Hd Hn]%holds_block_true].
    exfalso. apply (lookup_buf_None _ _ E i); [|done|done].
    apply (cache_list_elem _ _ _ Hc). by apply list_elem_of_In.
Qed.

Lemma count_update {A} `{EqDecision A} (P Q : A -> bool) l i :
  NoDup l -> i ∈ l -> (forall j, j <> i -> P j = Q j) ->
  (length (List.filter Q l) + Nat.b2n (P i) = length (List.filter P l) + Nat.b2n (Q i))%nat.
Proof.
  intros Hnd Hin Heq. induction l as [|x l IH]; [by apply elem_of_nil in Hin|].
  apply NoDup_cons in Hnd as [Hx Hnd]. simpl.
  destruct (decide (x = i)) as [->|Hne].
  - assert (List.filter P l = List.filter Q l) as ->.
    { apply List.filter_ext_in. intros y Hy. apply Heq. intros ->.
      by apply Hx, list_elem_of_In. }
    destruct (P i), (Q i); simpl; lia.
  - apply elem_of_cons in Hin as [->|Hin]; [done|]. specialize (IH Hnd Hin).
    rewrite (Heq x Hne). destruct (Q x); simpl; lia.
Qed.

Lemma avail_update s s' i :
  (i < NBUF)%nat -> (forall j, j <> i -> cr s' j = cr s j) ->
  (avail s' + Nat.b2n (unused (cr s i)) = avail s + Nat.b2n (unused (cr s' i)))%nat.
Proof.
  intros Hi Hc.
  apply (count_update (fun j => unused (cr s j)) (fun j => unused (cr s' j))).
  - apply NoDup_seq.
  - apply elem_of_seq. lia.
  - intros j Hj. by rewrite Hc.
Qed.

Lemma find_filter_pos {A} (P : A -> bool) l :
  (0 < length (List.filter P l))%nat -> exists x, x ∈ l /\ P x = true.
Proof.
  induction l as [|x l IH]; simpl; [lia|]. destruct (P x) eqn:E.
  - intros _. exists x. split; [constructor|done].
  - intros H. destruct (IH H) as (y & Hy & Hp). exists y. split; [by constructor|done].
Qed.

Lemma avail_pos s :
  (0 < avail s)%nat -> exists i, (i < NBUF)%nat /\ unused (bf s i) = true.
Proof.
  unfold avail. intros Hav.
  destruct (find_filter_pos (fun i => unused (cr s i)) (seq 0 NBUF) Hav) as (i & Hin & Hu).
  exists i. apply elem_of_seq in Hin. split; [lia|exact Hu].
Qed.

Lemma avail_all s :
  (forall i, (i < NBUF)%nat -> unused (cr s i) = true) -> avail s = NBUF.
Proof.
  intros H. unfold avail. rewrite forallb_filter_id; [apply length_seq|].
  apply forallb_forall. intros i Hin%in_seq. apply H. lia.
Qed.

(** Buffers that cannot be recycled, counted against the blocks they hold. *)
Lemma avail_complement s :
  (avail s + length (List.filter (fun i => negb (unused (cr s i))) (seq 0 NBUF)) = NBUF)%nat.
Proof. unfold avail. rewrite List.filter_length. apply length_seq. Qed.

#[local] Opaque avail.

(** A change to one buffer that keeps its block. *)
Lemma cbuf_update s s' i n x :
  bio_inv s -> lookup_buf s n = Some i ->
  (forall j, j <> i -> cr s' j = cr s j) ->
  dev (cr s' i) = 1 -> blockno (cr s' i) = n ->
  cbuf s' x = if x =? n then Some (i, cr s' i) else cbuf s x.
Proof.
  intros Hi Hl Hc Hd Hn. apply lookup_buf_Some in Hl as (Hlt & Hd0 & Hn0); [|done].
  assert (lookup_buf s' x = lookup_buf s x) as El.
  { apply find_ext. intros j _. destruct (decide (j = i)) as [->|]; [|by rewrite Hc].
    unfold holds_block. by rewrite Hd, Hd0, Hn, Hn0. }
  unfold cbuf. rewrite El. destruct (Z.eqb_spec x n) as [->|Hne].
  - by rewrite (proj2 (lookup_buf_Some s n i Hi)).
  - destruct (lookup_buf s x) as [j|] eqn:E; [|done].
    apply lookup_buf_Some in E as (_ & _ & Hx); [|done]. rewrite Hc; [done|congruence].
Qed.

Lemma inv_update s s' i n l :
  bio_inv s -> lookup_buf s n = Some i ->
  (forall j, j <> i -> cr s' j = cr s j) ->
  dev (cr s' i) = 1 -> blockno (cr s' i) = n ->
  cache_list s' l -> disksize s' = disksize s -> curpid s' = curpid s ->
  (forall x, x <> n -> memdisk s' x = memdisk s x) -> block_ok (memdisk s' n) ->
  buf_ok s' (cr s' i) -> bio_inv s'.
Proof.
  intros Hi Hl Hc Hd Hn Hcl Hsz Hpid Hm Hmn Hok.
  apply lookup_buf_Some in Hl as (Hlt & Hd0 & Hn0); [|done]. constructor.
  - by exists l.
  - intros j Hj. destruct (decide (j = i)) as [->|Hne]; [done|]. rewrite Hc by done.
    destruct (inv_bufs s Hi j Hj) as [Hb Hcase]. split; [done|].
    rewrite Hsz, Hpid. destruct Hcase as [?|(Hdj & Hbj & Hf & Hrest)]; [by left|right].
    split_and!; [done|lia|lia|done|]. destruct (sl_locked (lock (cr s j))); [done|].
    rewrite Hm; [done|]. intros Heq. apply Hne.
    apply (inv_uniq s Hi); [lia|lia|done|done|congruence].
  - assert (Hid : forall j, dev (cr s' j) = dev (cr s j) /\ blockno (cr s' j) = blockno (cr s j)).
    { intros j. destruct (decide (j = i)) as [->|]; [split; congruence|by rewrite Hc]. }
    intros j k Hj Hk. rewrite !(proj1 (Hid _)), !(proj2 (Hid _)).
    by apply (inv_uniq s Hi).
  - intros x. destruct (decide (x = n)) as [->|]; [done|]. rewrite Hm by done.
    apply (inv_disk s Hi).
Qed.

#[local] Opaque lookup_buf.

(** ** The operations on the map *)

Lemma upd_upd i f g s :
  len_ok s -> (i <= HEAD)%nat -> upd i g (upd i f s) = upd i (fun b => g (f b)) s.
Proof.
  intros Hl Hi. unfold upd at 1. rewrite bf_upd by done. case_decide; [|done].
  unfold upd, set_bufs; simpl. by rewrite list_insert_insert_eq.
Qed.

Lemma cache_list_upd i f s l :
  (i <= HEAD)%nat -> (forall b, next (f b) = next b /\ prev (f b) = prev b) ->
  cache_list s l -> cache_list (upd i f s) l.
Proof.
  intros Hi Hf (Hl & (Hn & Hp & Hnd & Hh) & Hperm).
  assert (N : forall j, nx s j = nx (upd i f s) j).
  { intros j. unfold nx. rewrite bf_upd by done. case_decide; [subst j|done].
    by rewrite (proj1 (Hf _)). }
  assert (P : forall j, pv s j = pv (upd i f s) j).
  { intros j. unfold pv. rewrite bf_upd by done. case_decide; [subst j|done].
    by rewrite (proj2 (Hf _)). }
  split_and!; [by apply len_upd|split_and!|done].
  - eapply path_ext; [|exact Hn]. done.
  - eapply path_ext; [|exact Hp]. done.
  - done.
  - done.
Qed.

Lemma cr_upd i f s j :
  len_ok s -> (i <= HEAD)%nat ->
  cr (upd i f s) j = if decide (i = j) then core (f (bf s i)) else cr s j.
Proof. intros. unfold cr. rewrite bf_upd by done. by case_decide. Qed.

Lemma inv_len s : bio_inv s -> len_ok s.
Proof. intros [(l & Hl & _) _ _ _]. done. Qed.

(** A buffer of the cache that holds block [n]. *)
Lemma held_lookup s n b :
  bio_inv s -> held s n = Some b ->
  lookup_buf s n = Some b /\ (b < NBUF)%nat /\ dev (bf s b) = 1 /\ blockno (bf s b) = n /\
  0 <= n < disksize s /\ (flags (bf s b) = 2 \/ flags (bf s b) = 6) /\
  refcnt (bf s b) = 1 /\ sl_locked (lock (bf s b)) = true /\
  sl_pid (lock (bf s b)) = curpid s.
Proof.
  intros Hi Hh. unfold held, cbuf in Hh. destruct (lookup_buf s n) as [i|] eqn:E; [|done].
  destruct (sl_locked (lock (cr s i))) eqn:El; [|done]. simplify_eq. split; [done|].
  apply lookup_buf_Some in E as (Hlt & Hd & Hn); [|done].
  destruct (inv_bufs s Hi b Hlt) as [_ [(? & _)|(_ & Hr & Hf & Hlk)]]; [congruence|].
  rewrite El in Hlk. rewrite Hn in Hr. destruct Hlk. done.
Qed.

Lemma holding_held s n b :
  bio_inv s -> held s n = Some b -> holdingsleep (curpid s) (lock (bf s b)) = true.
Proof.
  intros Hi Hh. destruct (held_lookup s n b Hi Hh) as (_ & _ & _ & _ & _ & _ & _ & Hl & Hp).
  unfold holdingsleep. by rewrite Hl, Hp, Z.eqb_refl.
Qed.

(** Change of a held buffer that leaves its place, its block, its lock and its
    reference alone. *)
Lemma held_change s n b f m' t' :
  bio_inv s -> held s n = Some b ->
  let s' := {| bufs := bufs (upd b f s); memdisk := m'; disksize := disksize s;
               trace := t'; curpid := curpid s |} in
  (forall x, next (f x) = next x /\ prev (f x) = prev x /\ dev (f x) = dev x /\
             blockno (f x) = blockno x /\ lock (f x) = lock x /\ refcnt (f x) = refcnt x) ->
  flags (f (bf s b)) = 2 \/ flags (f (bf s b)) = 6 ->
  block_ok (data (f (bf s b))) ->
  (forall x, x <> n -> m' x = memdisk s x) -> block_ok (m' n) ->
  bio_inv s' /\
  (forall x, held s' x = held s x) /\
  (forall x, view s' x = if x =? n then data (f (bf s b)) else view s x) /\
  (forall x, dirty s' x = if x =? n then is_dirty (f (bf s b)) else dirty s x) /\
  avail s' = avail s.
Proof.
  intros Hi Hh s' Hf Hfl Hok Hm Hmn.
  destruct (held_lookup s n b Hi Hh) as (Hl & Hlt & Hd & Hn & Hr & _ & Href & Hlk & Hpid).
  pose proof (inv_len s Hi) as Hlen.
  destruct (Hf (bf s b)) as (_ & _ & Fd & Fn & Fl & Fr).
  assert (Hc : forall j, j <> b -> cr s' j = cr s j).
  { intros j Hj. change (cr s' j) with (cr (upd b f s) j).
    rewrite cr_upd by (done || lia). by case_decide. }
  assert (Hb : cr s' b = core (f (bf s b))).
  { change (cr s' b) with (cr (upd b f s) b). rewrite cr_upd by (done || lia). by case_decide. }
  assert (Hcb : forall x, cbuf s' x = if x =? n then Some (b, core (f (bf s b))) else cbuf s x).
  { intros x. rewrite <- Hb. apply cbuf_update; try done; rewrite Hb; simpl; congruence. }
  assert (Hheld : forall x, held s' x = held s x).
  { intros x. unfold held. rewrite Hcb. destruct (Z.eqb_spec x n) as [->|]; [|done].
    simpl. rewrite Fl, Hlk. symmetry. exact Hh. }
  destruct (inv_list s Hi) as [l Hcl].
  split_and!.
  - apply (inv_update s s' b n l); try done; try (rewrite Hb; simpl; congruence).
    + apply (cache_list_upd b f s l); [lia| |done]. intros x. by destruct (Hf x) as (? & ? & _).
    + rewrite Hb. split; [done|]. right. simpl. rewrite Fd, Fn, Fl, Fr, Hlk, Hn.
      split_and!; done || lia.
  - done.
  - intros x. unfold view. rewrite Hcb. destruct (Z.eqb_spec x n) as [->|Hne]; [done|].
    destruct (cbuf s x) as [[? ?]|]; [done|]. by apply Hm.
  - intros x. unfold dirty. rewrite Hcb. by destruct (Z.eqb_spec x n).
  - pose proof (avail_update s s' b Hlt Hc) as Ha.
    assert (unused (cr s b) = false) as E1 by (unfold unused; simpl; by rewrite Href).
    assert (unused (cr s' b) = false) as E2.
    { rewrite Hb. unfold unused. simpl. by rewrite Fr, Href. }
    rewrite E1, E2 in Ha. lia.
Qed.

(** [b->data] is overwritten. *)
Definition store (b : nat) (d : block) (s : bio) : bio := upd b (set_data d) s.

(** [b->flags |= B_DIRTY] *)
Definition pin (b : nat) (s : bio) : bio :=
  upd b (fun x => set_flags (Z.lor (flags x) B_DIRTY) x) s.

Lemma store_ok s n b d :
  bio_inv s -> held s n = Some b -> block_ok d ->
  let s' := store b d s in
  bio_inv s' /\ disksize s' = disksize s /\ trace s' = trace s /\
  (forall x, held s' x = held s x) /\
  (forall x, memdisk s' x = memdisk s x) /\
  (forall x, view s' x = if x =? n then d else view s x) /\
  (forall x, dirty s' x = dirty s x) /\ avail s' = avail s.
Proof.
  intros Hi Hh Hd s'.
  destruct (held_lookup s n b Hi Hh) as (Hl & Hlt & _ & _ & _ & Hfl & _).
  destruct (held_change s n b (set_data d) (memdisk s) (trace s) Hi Hh)
    as (H1 & H2 & H3 & H4 & H5); [done|done|done|done|apply (inv_disk s Hi)|].
  split_and!; [exact H1|done|done|exact H2|done|exact H3| |exact H5].
  intros x. etransitivity; [exact (H4 x)|].
  destruct (Z.eqb_spec x n) as [->|]; [|done].
  unfold dirty, cbuf. by rewrite Hl.
Qed.

Lemma pin_ok s n b :
  bio_inv s -> held s n = Some b ->
  let s' := pin b s in
  bio_inv s' /\ disksize s' = disksize s /\ trace s' = trace s /\
  (forall x, held s' x = held s x) /\
  (forall x, memdisk s' x = memdisk s x) /\
  (forall x, view s' x = view s x) /\
  (forall x, dirty s' x = (x =? n) || dirty s x) /\ avail s' = avail s.
Proof.
  intros Hi Hh s'.
  destruct (held_lookup s n b Hi Hh) as (Hl & Hlt & _ & _ & _ & Hfl & _).
  set (f := fun x => set_flags (Z.lor (flags x) B_DIRTY) x).
  assert (flags (f (bf s b)) = 6) as E by (simpl; destruct Hfl as [-> | ->]; done).
  destruct (held_change s n b f (memdisk s) (trace s) Hi Hh)
    as (H1 & H2 & H3 & H4 & H5); [done|by right|apply (inv_bufs s Hi b Hlt)|done|apply (inv_disk s Hi)|].
  split_and!; [exact H1|done|done|exact H2|done| | |exact H5].
  - intros x. etransitivity; [exact (H3 x)|].
    destruct (Z.eqb_spec x n) as [->|]; [|done]. unfold view, cbuf. by rewrite Hl.
  - intros x. etransitivity; [exact (H4 x)|].
    destruct (Z.eqb_spec x n) as [->|]; [|done]. unfold is_dirty. by rewrite E.
Qed.

(** [iderw] of a dirty buffer writes it out. *)
Lemma iderw_dirty s b :
  len_ok s -> (b < NBUF)%nat -> holdingsleep (curpid s) (lock (bf s b)) = true ->
  flags (bf s b) = 6 -> dev (bf s b) = 1 -> blockno (bf s b) < disksize s ->
  iderw b s = Ret tt (disk_write (blockno (bf s b)) (data (bf s b)) (upd b (set_flags 2) s)).
Proof.
  intros Hl Hb Hh Hf Hd Hn. unfold iderw, bind, get, modify. rewrite Hh, Hf, Hd.
  change (Z.land 6 (Z.lor B_VALID B_DIRTY) =? B_VALID) with false.
  change (Z.land 6 B_DIRTY =? 0) with false. rewrite (Z.eqb_refl 1). cbn [negb].
  destruct (Z.leb_spec (disksize s) (blockno (bf s b))); [lia|].
  set (s1 := upd b (fun x => set_flags (Z.land (flags x) (Z.lnot B_DIRTY)) x) s).
  assert (bf s1 b = set_flags 2 (bf s b)) as E1.
  { unfold s1. rewrite bf_upd by (done || lia). case_decide; [|done]. cbv beta. by rewrite Hf. }
  rewrite E1. change (upd b ?g (disk_write ?n ?d s1)) with (disk_write n d (upd b g s1)).
  unfold s1. rewrite upd_upd by (done || lia). f_equal. f_equal.
  unfold upd. by rewrite Hf.
Qed.

(** [iderw] of an invalid buffer reads it in. *)
Lemma iderw_clean s b :
  len_ok s -> (b < NBUF)%nat -> holdingsleep (curpid s) (lock (bf s b)) = true ->
  flags (bf s b) = 0 -> dev (bf s b) = 1 -> blockno (bf s b) < disksize s ->
  iderw b s = Ret tt (upd b (fun x => set_flags 2 (set_data (memdisk s (blockno x)) x)) s).
Proof.
  intros Hl Hb Hh Hf Hd Hn. unfold iderw, bind, get, modify. rewrite Hh, Hf, Hd.
  change (Z.land 0 (Z.lor B_VALID B_DIRTY) =? B_VALID) with false.
  change (Z.land 0 B_DIRTY =? 0) with true. rewrite (Z.eqb_refl 1). cbn [negb].
  destruct (Z.leb_spec (disksize s) (blockno (bf s b))); [lia|].
  rewrite upd_upd by (done || lia). f_equal. unfold upd. cbn. by rewrite Hf.
Qed.

Lemma bwrite_ok s n b :
  bio_inv s -> held s n = Some b ->
  exists s', bwrite b s = Ret tt s' /\ bio_inv s' /\
    disksize s' = disksize s /\ trace s' = trace s ++ [(n, view s n)] /\
    (forall x, held s' x = held s x) /\
    (forall x, memdisk s' x = if x =? n then view s n else memdisk s x) /\
    (forall x, view s' x = view s x) /\
    (forall x, dirty s' x = negb (x =? n) && dirty s x) /\ avail s' = avail s.
Proof.
  intros Hi Hh. pose proof (inv_len s Hi) as Hlen.
  destruct (held_lookup s n b Hi Hh) as (Hl & Hlt & Hd & Hn & Hr & Hfl & Href & Hlk & Hpid).
  pose proof (holding_held s n b Hi Hh) as Hhold.
  set (F := fun x : buf => set_flags 2 (set_flags (Z.lor (flags x) B_DIRTY) x)).
  set (s' := disk_write n (data (bf s b)) (upd b F s)).
  assert (view s n = data (bf s b)) as Hv by (unfold view, cbuf; by rewrite Hl).
  assert (Hrun : bwrite b s = Ret tt s').
  { unfold bwrite, bind, get, modify. rewrite Hhold. cbn [negb].
    set (s1 := upd b (fun x => set_flags (Z.lor (flags x) B_DIRTY) x) s).
    assert (bf s1 b = set_flags 6 (bf s b)) as E1.
    { unfold s1. rewrite bf_upd by (done || lia). case_decide; [|done].
      by destruct Hfl as [-> | ->]. }
    rewrite iderw_dirty; rewrite ?E1; try done.
    - unfold s1, s'. rewrite upd_upd by (done || lia). cbn [set_flags blockno data].
      by rewrite Hn.
    - by apply len_upd.
    - simpl. rewrite Hn. apply Hr. }
  assert (flags (F (bf s b)) = 2) as EF by done.
  assert (block_ok (data (bf s b))) as Hok by apply (inv_bufs s Hi b Hlt).
  destruct (held_change s n b F (memdisk s') (trace s') Hi Hh)
    as (H1 & H2 & H3 & H4 & H5); [done|by left|done| |simpl; by rewrite Z.eqb_refl|].
  { intros x Hx. simpl. by destruct (Z.eqb_spec x n). }
  exists s'. split_and!; [done|exact H1|done|by rewrite Hv|exact H2|by rewrite Hv| | |exact H5].
  - intros x. etransitivity; [exact (H3 x)|].
    destruct (Z.eqb_spec x n) as [->|]; [by rewrite Hv|done].
  - intros x. etransitivity; [exact (H4 x)|].
    destruct (Z.eqb_spec x n) as [->|]; [|done]. unfold is_dirty. by rewrite EF.
Qed.

Lemma brelse_ok s n b :
  bio_inv s -> held s n = Some b -> dirty s n = true \/ view s n = memdisk s n ->
  exists s', brelse b s = Ret tt s' /\ bio_inv s' /\
    disksize s' = disksize s /\ trace s' = trace s /\
    (forall x, held s' x = if x =? n then None else held s x) /\
    (forall x, memdisk s' x = memdisk s x) /\
    (forall x, view s' x = view s x) /\
    (forall x, dirty s' x = dirty s x) /\
    (avail s + (if dirty s n then 0 else 1) <= avail s')%nat.
Proof.
  intros Hi Hh Hclean. pose proof (inv_len s Hi) as Hlen.
  destruct (held_lookup s n b Hi Hh) as (Hl & Hlt & Hd & Hn & Hr & Hfl & Href & Hlk & Hpid).
  pose proof (holding_held s n b Hi Hh) as Hhold.
  set (F := fun x : buf => set_refcnt (u32 (refcnt x - 1)) (set_lock (releasesleep (lock x)) x)).
  set (s1 := upd b F s). assert (len_ok s1) as L1 by (by apply len_upd).
  set (s' := link_front b (unlink b s1)).
  assert (Hrun : brelse b s = Ret tt s').
  { unfold brelse, bind, get, modify, ret, put, panic, when. rewrite Hhold. cbn [negb].
    rewrite (upd_upd b) by (done || lia). change (upd b _ s) with s1.
    replace (refcnt (bf s1 b)) with 0; [done|].
    unfold s1. rewrite bf_upd by (done || lia). case_decide; [|done].
    unfold F. cbn. by rewrite Href. }
  destruct (inv_list s Hi) as [l Hcl].
  assert (cache_list s1 l) as Hcl1 by (apply cache_list_upd; [lia|done|done]).
  assert (b ∈ l) as (l1 & l2 & ->)%list_elem_of_split by (by apply (cache_list_elem _ _ _ Hcl)).
  destruct (cache_list_front s1 l1 b l2 Hcl1) as [Hcl' Hcore].
  assert (Hc : forall j, j <> b -> cr s' j = cr s j).
  { intros j Hj. unfold cr, s'. rewrite Hcore. unfold s1. rewrite bf_upd by (done || lia).
    by case_decide. }
  assert (Hb : cr s' b = core (F (bf s b))).
  { unfold cr, s'. rewrite Hcore. unfold s1. rewrite bf_upd by (done || lia). by case_decide. }
  assert (Hcb : forall x, cbuf s' x = if x =? n then Some (b, core (F (bf s b))) else cbuf s x).
  { intros x. rewrite <- Hb. apply cbuf_update; try done; rewrite Hb; simpl; congruence. }
  assert (Hdn : dirty s n = is_dirty (bf s b)) by (unfold dirty, cbuf; by rewrite Hl).
  assert (Hvn : view s n = data (bf s b)) by (unfold view, cbuf; by rewrite Hl).
  assert (refcnt (F (bf s b)) = 0) as EF by (unfold F; cbn; by rewrite Href).
  exists s'. split_and!; [done| |done|done| |done| | |].
  - apply (inv_update s s' b n (b :: l1 ++ l2)); try done; try (rewrite Hb; simpl; congruence).
    + apply (inv_disk s Hi).
    + rewrite Hb. split; [apply (inv_bufs s Hi b Hlt)|]. right. simpl.
      rewrite Href, Hd, Hn. split_and!; [done|lia|lia|done|done|].
      intros Hf2. change (memdisk s' n) with (memdisk s n).
      rewrite Hdn, Hvn in Hclean. unfold is_dirty in Hclean. rewrite Hf2 in Hclean.
      by destruct Hclean.
  - intros x. unfold held. rewrite Hcb. by destruct (Z.eqb_spec x n).
  - intros x. unfold view. rewrite Hcb. destruct (Z.eqb_spec x n) as [->|]; [|done].
    unfold cbuf. by rewrite Hl.
  - intros x. unfold dirty. rewrite Hcb. destruct (Z.eqb_spec x n) as [->|]; [|done].
    unfold cbuf. by rewrite Hl.
  - pose proof (avail_update s s' b Hlt Hc) as Ha.
    assert (unused (cr s b) = false) as E1 by (unfold unused; simpl; by rewrite Href).
    rewrite E1, Hb in Ha. rewrite Hdn. unfold unused in Ha. simpl in Ha.
    rewrite Href in Ha. unfold is_dirty.
    destruct Hfl as [E|E]; rewrite E in Ha |- *; simpl in Ha |- *; lia.
Qed.

(** [bget] on a block that is cached and not locked. *)
Lemma bget_hit s n b :
  bio_inv s -> lookup_buf s n = Some b -> sl_locked (lock (bf s b)) = false ->
  bget 1 n s = Ret b (upd b (fun x => set_lock {| sl_locked := true; sl_pid := curpid s |}
                                        (set_refcnt (u32 (refcnt x + 1)) x)) s).
Proof.
  intros Hi Hl Hlk. destruct (inv_list s Hi) as [l Hcl].
  destruct (bget_scans s l 1 n Hcl) as [E _]. rewrite scan_lookup in E by done.
  pose proof Hl as (Hlt & _)%(lookup_buf_Some s n b Hi). pose proof (inv_len s Hi) as Hlen.
  unfold bget, bind, get, modify. rewrite E, Hl.
  unfold acquire_buf, bind, get, put, ret. set (s1 := upd b _ s).
  assert (lock (bf s1 b) = lock (bf s b)) as ->.
  { unfold s1. rewrite bf_upd by (done || lia). by case_decide. }
  unfold acquiresleep. rewrite Hlk. unfold s1. by rewrite upd_upd by (done || lia).
Qed.

(** [bget] on a block that is not cached, when the least recently used buffer
    that is free is [b]. *)
Lemma bget_miss s n l b :
  bio_inv s -> cache_list s l -> lookup_buf s n = None ->
  List.find (fun i => unused (bf s i)) (reverse l) = Some b ->
  sl_locked (lock (bf s b)) = false -> (b < NBUF)%nat ->
  bget 1 n s = Ret b (upd b (fun x => set_lock {| sl_locked := true; sl_pid := curpid s |}
                                        (recycle 1 n x)) s).
Proof.
  intros Hi Hcl Hl Hf Hlk Hlt. pose proof (inv_len s Hi) as Hlen.
  destruct (bget_scans s l 1 n Hcl) as [E1 E2]. rewrite scan_lookup in E1 by done.
  unfold bget, bind, get, modify. rewrite E1, Hl, E2, Hf.
  unfold acquire_buf, bind, get, put, ret. set (s1 := upd b _ s).
  assert (lock (bf s1 b) = lock (bf s b)) as ->.
  { unfold s1. rewrite bf_upd by (done || lia). by case_decide. }
  unfold acquiresleep. rewrite Hlk. unfold s1. by rewrite upd_upd by (done || lia).
Qed.

(** What the laws ask of a state after a read of block [n] into buffer [b]. *)
Definition read_post (n : Z) (b : nat) (s s' : bio) : Prop :=
  bio_inv s' /\ disksize s' = disksize s /\ trace s' = trace s /\
  (forall x, held s' x = if x =? n then Some b else held s x) /\
  (forall x, memdisk s' x = memdisk s x) /\
  (forall x, view s' x = view s x) /\
  (forall x, dirty s' x = dirty s x) /\
  (avail s <= avail s' + (if dirty s n then 0 else 1))%nat.

Lemma bread_hit s n b :
  bio_inv s -> lookup_buf s n = Some b -> held s n = None ->
  exists s', bread 1 n s = Ret b s' /\ read_post n b s s'.
Proof.
  intros Hi Hl Hh. pose proof (inv_len s Hi) as Hlen.
  pose proof Hl as (Hlt & Hd & Hn)%(lookup_buf_Some s n b Hi).
  assert (sl_locked (lock (bf s b)) = false) as Hlk.
  { unfold held, cbuf in Hh. rewrite Hl in Hh. simpl in Hh.
    by destruct (sl_locked (lock (bf s b))). }
  destruct (inv_bufs s Hi b Hlt) as [Hok [(? & _)|(_ & Hr & Hfl & Hrest)]]; [congruence|].
  simpl in Hd, Hn, Hr, Hfl, Hrest, Hok. rewrite Hlk in Hrest. destruct Hrest as [Href Hdata].
  set (F := fun x => set_lock {| sl_locked := true; sl_pid := curpid s |}
                       (set_refcnt (u32 (refcnt x + 1)) x)).
  set (s' := upd b F s).
  assert (Hb : bf s' b = F (bf s b)).
  { unfold s'. rewrite bf_upd by (done || lia). by case_decide. }
  assert (Hc : forall j, j <> b -> cr s' j = cr s j).
  { intros j Hj. unfold s'. rewrite cr_upd by (done || lia). by case_decide. }
  assert (Hcb : forall x, cbuf s' x = if x =? n then Some (b, core (F (bf s b))) else cbuf s x).
  { intros x. rewrite <- Hb. apply cbuf_update; try done; unfold cr; rewrite Hb; simpl; congruence. }
  exists s'. split; [|split_and!]; [| |done|done| |done|..].
  - unfold bread. rewrite (bind_ret _ _ _ _ _ (bget_hit s n b Hi Hl Hlk)).
    unfold bind, get, when, ret. fold F s'. rewrite Hb. cbn [F set_lock set_refcnt flags].
    by destruct Hfl as [-> | ->].
  - destruct (inv_list s Hi) as [l Hcl].
    apply (inv_update s s' b n l); try done; try (unfold cr; rewrite Hb; simpl; congruence).
    + apply cache_list_upd; [lia|done|done].
    + apply (inv_disk s Hi).
    + unfold cr. rewrite Hb. split; [done|]. right. simpl. rewrite Href, Hn in *. done.
  - intros x. unfold held. rewrite Hcb. by destruct (Z.eqb_spec x n).
  - intros x. unfold view. rewrite Hcb. destruct (Z.eqb_spec x n) as [->|]; [|done].
    unfold cbuf. by rewrite Hl.
  - intros x. unfold dirty. rewrite Hcb. destruct (Z.eqb_spec x n) as [->|]; [|done].
    unfold cbuf. by rewrite Hl.
  - pose proof (avail_update s s' b Hlt Hc) as Ha. unfold cr in Ha. rewrite Hb in Ha.
    unfold dirty, cbuf. rewrite Hl. unfold unused, is_dirty in *. simpl in *.
    rewrite Href in Ha. destruct Hfl as [E|E]; rewrite E in *; simpl in *; lia.
Qed.

(** A buffer [bget] may recycle: free, and a copy of the disk if it holds a block. *)
Definition victim (s : bio) (b : nat) : Prop :=
  (b < NBUF)%nat /\ unused (bf s b) = true /\ sl_locked (lock (bf s b)) = false /\
  (dev (bf s b) = 1 -> flags (bf s b) = 2 /\ data (bf s b) = memdisk s (blockno (bf s b))).

Lemma victim_exists s l :
  bio_inv s -> cache_list s l -> (0 < avail s)%nat ->
  exists b, List.find (fun i => unused (bf s i)) (reverse l) = Some b /\ victim s b.
Proof.
  intros Hi Hcl Hav.
  destruct (List.find (fun i => unused (bf s i)) (reverse l)) as [b|] eqn:Hf; last first.
  { destruct (avail_pos s Hav) as (i & Hin & Hu).
    pose proof (List.find_none _ _ Hf i) as Hno. cbv beta in Hno. rewrite Hu in Hno.
    discriminate Hno. apply list_elem_of_In. rewrite elem_of_reverse.
    apply (cache_list_elem _ _ _ Hcl). lia. }
  exists b. split; [done|]. apply List.find_some in Hf as [Hin Hu].
  apply list_elem_of_In in Hin. rewrite elem_of_reverse, (cache_list_elem _ _ _ Hcl) in Hin.
  split; [done|]. split; [done|].
  apply andb_prop in Hu as [Hr0 Hd0]. apply Z.eqb_eq in Hr0, Hd0.
  pose proof (inv_bufs s Hi b Hin) as [Hok Hcase]. unfold cr in Hok, Hcase; simpl in Hok, Hcase.
  destruct Hcase as [(? & ? & ? & ?)|(? & ? & Hfl & Hrest)]; [split; [done|congruence]|].
  destruct (sl_locked (lock (bf s b))); [lia|]. split; [done|]. intros _.
  destruct Hfl as [E|E]; rewrite E in Hd0; [|done]. split; [done|]. by apply Hrest.
Qed.

(** The recycled buffer after the read. *)
Definition filled (s : bio) (n : Z) (x : buf) : buf :=
  set_flags 2 (set_data (memdisk s n)
    (set_lock {| sl_locked := true; sl_pid := curpid s |} (recycle 1 n x))).

Lemma bread_miss_run s n l b :
  bio_inv s -> cache_list s l -> 0 <= n < disksize s -> lookup_buf s n = None ->
  List.find (fun i => unused (bf s i)) (reverse l) = Some b -> victim s b ->
  bread 1 n s = Ret b (upd b (filled s n) s).
Proof.
  intros Hi Hcl Hnr Hl Hf (Hin & _ & Hlk & _). pose proof (inv_len s Hi) as Hlen.
  unfold bread. rewrite (bind_ret _ _ _ _ _ (bget_miss s n l b Hi Hcl Hl Hf Hlk Hin)).
  unfold bind, get, when, ret.
  set (lk := {| sl_locked := true; sl_pid := curpid s |}).
  set (s1 := upd b (fun x => set_lock lk (recycle 1 n x)) s).
  assert (bf s1 b = set_lock lk (recycle 1 n (bf s b))) as E1.
  { unfold s1. rewrite bf_upd by (done || lia). by case_decide. }
  assert (len_ok s1) as L1 by (by apply len_upd). rewrite E1. cbn [set_lock recycle flags].
  change (Z.land 0 B_VALID =? 0) with true. cbn iota.
  rewrite iderw_clean; rewrite ?E1; try done.
  - unfold s1. by rewrite upd_upd by (done || lia).
  - change ((curpid s =? curpid s) = true). apply Z.eqb_refl.
  - simpl. apply Hnr.
Qed.

Lemma filled_others s n b j :
  len_ok s -> (b < NBUF)%nat -> j <> b -> cr (upd b (filled s n) s) j = cr s j.
Proof. intros. rewrite cr_upd by (done || lia). by case_decide. Qed.

Lemma filled_self s n b :
  len_ok s -> (b < NBUF)%nat -> cr (upd b (filled s n) s) b = core (filled s n (bf s b)).
Proof. intros. rewrite cr_upd by (done || lia). by case_decide. Qed.

(** After the read, a buffer of the disk is the recycled one or is as before. *)
Lemma filled_ident s n b j :
  bio_inv s -> lookup_buf s n = None -> (b < NBUF)%nat -> (j < NBUF)%nat ->
  dev (cr (upd b (filled s n) s) j) = 1 ->
  j = b /\ blockno (cr (upd b (filled s n) s) j) = n \/
  j <> b /\ dev (cr s j) = 1 /\ cr (upd b (filled s n) s) j = cr s j /\
  blockno (cr s j) <> n.
Proof.
  intros Hi Hl Hin Hj Hdj. pose proof (inv_len s Hi) as Hlen.
  destruct (decide (j = b)) as [->|Hne].
  - left. split; [done|]. by rewrite filled_self.
  - right. rewrite filled_others in Hdj |- * by done. split_and!; [done|done|done|].
    by apply (lookup_buf_None s n Hl).
Qed.

Lemma filled_inv s n b l :
  bio_inv s -> cache_list s l -> 0 <= n < disksize s -> lookup_buf s n = None ->
  (b < NBUF)%nat -> bio_inv (upd b (filled s n) s).
Proof.
  intros Hi Hcl Hnr Hl Hin. pose proof (inv_len s Hi) as Hlen. constructor.
  - exists l. apply cache_list_upd; [lia|done|done].
  - intros j Hj. destruct (decide (j = b)) as [->|].
    + rewrite filled_self by done. split; [apply (inv_disk s Hi)|].
      right. simpl. split_and!; [done|lia|lia|by left|done|done].
    + rewrite filled_others by done. apply (inv_bufs s Hi j Hj).
  - intros i j Hi1 Hj1 Hdi Hdj Heq.
    destruct (filled_ident s n b i Hi Hl Hin Hi1 Hdi) as [[-> Hn1]|(Hn1 & Hd1 & E1 & B1)],
             (filled_ident s n b j Hi Hl Hin Hj1 Hdj) as [[-> Hn2]|(Hn2 & Hd2 & E2 & B2)].
    + done.
    + rewrite E2, Hn1 in Heq. congruence.
    + rewrite E1, Hn2 in Heq. congruence.
    + apply (inv_uniq s Hi); [done|done|done|done|congruence].
  - apply (inv_disk s Hi).
Qed.

Lemma filled_cbuf s n b l x :
  bio_inv s -> cache_list s l -> 0 <= n < disksize s -> lookup_buf s n = None ->
  (b < NBUF)%nat ->
  cbuf (upd b (filled s n) s) x =
  if x =? n then Some (b, core (filled s n (bf s b)))
  else match cbuf s x with
       | Some (j, c) => if decide (j = b) then None else Some (j, c)
       | None => None
       end.
Proof.
  intros Hi Hcl Hnr Hl Hin. pose proof (inv_len s Hi) as Hlen.
  pose proof (filled_inv s n b l Hi Hcl Hnr Hl Hin) as Hi'.
  unfold cbuf at 1. destruct (lookup_buf (upd b (filled s n) s) x) as [j|] eqn:E.
  - apply lookup_buf_Some in E as (Hj & Hdj & Hx); [|done].
    destruct (filled_ident s n b j Hi Hl Hin Hj Hdj) as [[-> Hn1]|(Hne & Hd1 & E1 & B1)].
    + assert (x = n) as -> by congruence. rewrite Z.eqb_refl. by rewrite filled_self.
    + rewrite E1 in Hx |- *. destruct (Z.eqb_spec x n); [congruence|]. unfold cbuf.
      rewrite (proj2 (lookup_buf_Some s x j Hi)) by done. by case_decide.
  - destruct (Z.eqb_spec x n) as [->|Hne].
    { exfalso. apply (lookup_buf_None _ _ E b Hin); by rewrite filled_self. }
    unfold cbuf. destruct (lookup_buf s x) as [j|] eqn:E2; [|done].
    case_decide as Hjb; [done|].
    apply lookup_buf_Some in E2 as (Hj & Hdj & Hx); [|done]. exfalso.
    apply (lookup_buf_None _ _ E j Hj); by rewrite filled_others.
Qed.

(** What is known of the block a recycled buffer held. *)
Lemma victim_block s n b x c :
  bio_inv s -> lookup_buf s n = None -> victim s b -> cbuf s x = Some (b, c) ->
  x <> n /\ data c = memdisk s x /\ is_dirty c = false /\ sl_locked (lock c) = false.
Proof.
  intros Hi Hl (Hin & _ & Hlk & Hcoh) Hx. unfold cbuf in Hx.
  destruct (lookup_buf s x) as [j'|] eqn:E; [|done]. injection Hx as -> <-.
  apply lookup_buf_Some in E as (Hj & Hdj & Hbx); [|done].
  destruct (Hcoh Hdj) as [Hf2 Hdat]. simpl. split_and!.
  - rewrite <- Hbx. by apply (lookup_buf_None s n Hl).
  - by rewrite Hdat, <- Hbx.
  - unfold is_dirty. simpl. by rewrite Hf2.
  - done.
Qed.

Lemma bread_miss s n :
  bio_inv s -> 0 <= n < disksize s -> lookup_buf s n = None -> (0 < avail s)%nat ->
  exists b s', bread 1 n s = Ret b s' /\ read_post n b s s'.
Proof.
  intros Hi Hnr Hl Hav. pose proof (inv_len s Hi) as Hlen.
  destruct (inv_list s Hi) as [l Hcl].
  destruct (victim_exists s l Hi Hcl Hav) as (b & Hf & Hv).
  exists b, (upd b (filled s n) s). split; [by apply (bread_miss_run s n l)|].
  pose proof Hv as (Hin & _).
  pose proof (fun x => filled_cbuf s n b l x Hi Hcl Hnr Hl Hin) as Hcb.
  assert (Hnone : cbuf s n = None) by (unfold cbuf; by rewrite Hl).
  split_and!; [by apply (filled_inv s n b l)|done|done| |done|..].
  - intros x. unfold held. rewrite Hcb. destruct (Z.eqb_spec x n); [done|].
    destruct (cbuf s x) as [[j c]|] eqn:E; [|done]. case_decide as Hj; [subst j|done].
    by destruct (victim_block s n b x c Hi Hl Hv E) as (_ & _ & _ & ->).
  - intros x. unfold view. rewrite Hcb. destruct (Z.eqb_spec x n) as [->|]; [by rewrite Hnone|].
    destruct (cbuf s x) as [[j c]|] eqn:E; [|done]. case_decide as Hj; [subst j|done].
    by destruct (victim_block s n b x c Hi Hl Hv E) as (_ & -> & _).
  - intros x. unfold dirty. rewrite Hcb. destruct (Z.eqb_spec x n) as [->|]; [by rewrite Hnone|].
    destruct (cbuf s x) as [[j c]|] eqn:E; [|done]. case_decide as Hj; [subst j|done].
    by destruct (victim_block s n b x c Hi Hl Hv E) as (_ & _ & -> & _).
  - pose proof (avail_update s (upd b (filled s n) s) b Hin) as Ha.
    unfold dirty. rewrite Hnone.
    specialize (Ha (fun j Hj => filled_others s n b j Hlen Hin Hj)).
    destruct (unused (cr s b)); simpl in Ha; lia.
Qed.

Lemma bread_ok s n :
  bio_inv s -> 0 <= n < disksize s -> held s n = None ->
  dirty s n = true \/ (0 < avail s)%nat ->
  exists b s', bread 1 n s = Ret b s' /\ read_post n b s s'.
Proof.
  intros Hi Hn Hh Hav. destruct (lookup_buf s n) as [b|] eqn:E.
  - exists b. by apply bread_hit.
  - apply bread_miss; [done..|]. destruct Hav as [Hd|]; [|done].
    unfold dirty, cbuf in Hd. by rewrite E in Hd.
Qed.

(** ** Boot, and the interface *)

(** Memory is zero when the kernel starts; the first process runs [binit]'s
    cache over the disk. *)
Definition boot (size : Z) (d : Z -> block) : bio :=
  binit {| bufs := replicate (S NBUF) inhabitant; memdisk := d; disksize := size;
           trace := []; curpid := 1 |}.

Lemma binit_loop_world n : forall b s,
  memdisk (binit_loop n b s) = memdisk s /\ disksize (binit_loop n b s) = disksize s /\
  trace (binit_loop n b s) = trace s /\ curpid (binit_loop n b s) = curpid s.
Proof.
  induction n as [|n IH]; intros b s; [done|]. cbn [binit_loop].
  destruct (IH (S b) (link_front b (upd b (set_lock initsleeplock) s)))
    as (-> & -> & -> & ->). done.
Qed.

Lemma boot_ok size d :
  (forall n, block_ok (d n)) ->
  let s := boot size d in
  bio_inv s /\ disksize s = size /\ trace s = [] /\
  (forall x, held s x = None) /\ (forall x, memdisk s x = d x) /\
  (forall x, dirty s x = false) /\ avail s = NBUF.
Proof.
  intros Hd s.
  set (s0 := {| bufs := replicate (S NBUF) (inhabitant : buf); memdisk := d; disksize := size;
                trace := []; curpid := 1 |}).
  assert (len_ok s0) as L0 by apply length_replicate.
  destruct (binit_list s0 L0) as [Hcl Hcore]. destruct (binit_loop_world NBUF O
    (upd HEAD (set_next HEAD) (upd HEAD (set_prev HEAD) s0))) as (Em & Es & Et & Ep).
  assert (Hcr : forall i, (i < NBUF)%nat -> cr s i = core inhabitant).
  { intros i Hi. unfold cr. change s with (binit s0). rewrite Hcore by done.
    unfold bf, s0. cbn [bufs]. rewrite lookup_total_replicate_2 by lia. done. }
  change (binit_loop NBUF O _) with s in Em, Es, Et, Ep. change (binit s0) with s in Hcl.
  clearbody s. clear Hcore.
  assert (Hi : bio_inv s).
  { constructor.
    - by eexists.
    - intros i Hi. rewrite Hcr by done. split; [apply block_ok_zero|]. by left.
    - intros i j Hi Hj Hdi. rewrite Hcr in Hdi by done. discriminate Hdi.
    - intros n. rewrite Em. apply Hd. }
  assert (Hnone : forall x, cbuf s x = None).
  { intros x. unfold cbuf. destruct (lookup_buf s x) as [i|] eqn:E; [|done].
    apply lookup_buf_Some in E as (Hl & Hdev & _); [|done].
    rewrite Hcr in Hdev by done. discriminate Hdev. }
  split_and!; [done|done|done|..].
  - intros x. unfold held. by rewrite Hnone.
  - intros x. by rewrite Em.
  - intros x. unfold dirty. by rewrite Hnone.
  - apply avail_all. intros i Hlt. by rewrite Hcr.
Qed.

Lemma view_ok s n : bio_inv s -> block_ok (view s n).
Proof.
  intros Hi. unfold view, cbuf. destruct (lookup_buf s n) as [i|] eqn:E.
  - apply lookup_buf_Some in E as (Hl & _); [|done]. apply (inv_bufs s Hi i Hl).
  - apply (inv_disk s Hi).
Qed.

Lemma view_clean s n :
  bio_inv s -> dirty s n = false -> held s n = None -> view s n = memdisk s n.
Proof.
  intros Hi. unfold view, dirty, held, cbuf. destruct (lookup_buf s n) as [i|] eqn:E; [|done].
  apply lookup_buf_Some in E as (Hl & Hd & Hn); [|done].
  destruct (inv_bufs s Hi i Hl) as [_ [(? & _)|(_ & _ & Hf & Hr)]]; [congruence|].
  unfold is_dirty. intros Hdf Hlk. destruct (sl_locked (lock (cr s i))); [done|].
  rewrite <- Hn. apply Hr. destruct Hf as [?|Ef]; [done|]. by rewrite Ef in Hdf.
Qed.

Lemma avail_bound s (bs : list Z) :
  bio_inv s -> (forall n, dirty s n = true \/ is_Some (held s n) -> n ∈ bs) ->
  (NBUF <= avail s + length bs)%nat.
Proof.
  intros Hi Hbs. rewrite <- (avail_complement s). apply Nat.add_le_mono_l.
  set (l := List.filter (fun i => negb (unused (cr s i))) (seq 0 NBUF)).
  assert (Hl : forall i, i ∈ l -> (i < NBUF)%nat /\ dev (cr s i) = 1 /\ blockno (cr s i) ∈ bs).
  { intros i Hin%list_elem_of_In. apply List.filter_In in Hin as [Hin%List.in_seq Hu].
    split; [lia|]. unfold unused in Hu.
    destruct (inv_bufs s Hi i ltac:(lia)) as [_ [(Hd & Hf & Hr & _)|(Hd & _ & Hf & Hr)]].
    { by rewrite Hf, Hr in Hu. }
    split; [done|]. apply Hbs.
    assert (lookup_buf s (blockno (cr s i)) = Some i) as El
      by (apply lookup_buf_Some; [done|split_and!; [lia|done|done]]).
    unfold dirty, held, cbuf. rewrite El. unfold is_dirty.
    destruct (sl_locked (lock (cr s i))); [right; by eexists|left].
    destruct Hr as [Hr _]. rewrite Hr in Hu. done. }
  assert (NoDup l) as Hnd by apply NoDup_ListNoDup, List.NoDup_filter, NoDup_ListNoDup, NoDup_seq.
  rewrite <- (length_fmap (fun i => blockno (cr s i)) l). apply submseteq_length.
  apply NoDup_submseteq.
  - revert Hnd Hl. generalize l. clear l. intros l Hnd. induction Hnd as [|i l Hni Hnd IH];
      intros Hl; simpl; constructor.
    + intros (j & Heq & Hj)%list_elem_of_fmap.
      destruct (Hl i) as (? & ? & _); [constructor|].
      destruct (Hl j) as (? & ? & _); [by constructor|].
      apply Hni. replace i with j; [done|]. by apply (inv_uniq s Hi).
    + apply IH. intros j Hj. apply Hl. by constructor.
  - intros n (i & -> & Hin)%list_elem_of_fmap. apply (Hl i Hin).
Qed.

#[export] Program Instance bio_cache : BlockCache bio := {|
  bc_bread := bread;
  bc_bwrite := bwrite;
  bc_brelse := brelse;
  bc_data s b := data (bf s b);
  bc_store := store;
  bc_blockno s b := blockno (bf s b);
  bc_pin := pin;
  bc_boot := boot;
  bc_inv := bio_inv;
  bc_nblocks := disksize;
  bc_disk := memdisk;
  bc_view := view;
  bc_dirty := dirty;
  bc_held := held;
  bc_avail := avail;
  bc_trace := trace;
|}.
Next Obligation. apply view_ok. Qed.
Next Obligation. intros s n Hi. apply (inv_disk _ Hi). Qed.
Next Obligation. apply view_clean. Qed.
Next Obligation.
  intros s n b Hi Hh. destruct (held_lookup s n b Hi Hh) as (Hl & _ & _ & Hn & Hr & _).
  split_and!; [|done|lia|lia]. unfold view, cbuf. by rewrite Hl.
Qed.
Next Obligation. intros s bs Hi Hbs. by apply avail_bound. Qed.
Next Obligation.
  intros s n Hi Hn Hh Hav. destruct (bread_ok s n Hi Hn Hh Hav) as (b & s' & Hr & Hp).
  exists b, s'. by split.
Qed.
Next Obligation. intros s n b d Hi Hh Hd. by apply store_ok. Qed.
Next Obligation. intros s n b Hi Hh. by apply pin_ok. Qed.
Next Obligation. intros s n b Hi Hh. by apply bwrite_ok. Qed.
Next Obligation. intros s n b Hi Hh Hc. by apply brelse_ok. Qed.
Next Obligation. intros size d _ Hd. by apply boot_ok. Qed.

(** ** What the cache does, in the order of its list *)

(** [bget] in terms of the list from most to least recently used: it takes a
    reference on the buffer that caches the block if there is one, otherwise
    recycles the least recently used buffer that has no reference and is not
    dirty, and panics exactly when there is none; then it waits for the lock. *)
Theorem bget_lru s l d n :
  cache_list s l ->
  bget d n s =
  match List.find (fun i => holds_block d n (bf s i)) l with
  | Some b =>
      acquire_buf b (upd b (fun x => set_refcnt (u32 (refcnt x + 1)) x) s)
  | None =>
      match List.find (fun i => unused (bf s i)) (reverse l) with
      | Some b => acquire_buf b (upd b (recycle d n) s)
      | None => Panic "bget: no buffers"
      end
  end.
Proof.
  intros Hc. destruct (bget_scans s l d n Hc) as [E1 E2].
  unfold bget, bind, get, modify. rewrite E1, E2.
  destruct (List.find _ l); [done|]. by destruct (List.find _ (reverse l)).
Qed.

Lemma bget_lru_witness :
  exists s l, cache_list s l /\ length l = NBUF /\
    bget 1 7 s = acquire_buf 0 (upd 0 (recycle 1 7) s).
Proof.
  set (z := {| bufs := replicate (S NBUF) inhabitant; memdisk := fun _ => zero_block;
               disksize := 100; trace := []; curpid := 1 |}).
  assert (len_ok z) as Hl by reflexivity.
  destruct (binit_list z Hl) as [Hc _].
  exists (binit z), (reverse (seq 0 NBUF)). split_and!; [done|reflexivity|].
  rewrite (bget_lru (binit z) _ 1 7 Hc).
  assert (List.find (fun i => holds_block 1 7 (bf (binit z) i)) (reverse (seq 0 NBUF)) = None) as ->
    by (vm_compute; reflexivity).
  assert (List.find (fun i => unused (bf (binit z) i)) (reverse (reverse (seq 0 NBUF))) = Some O) as ->
    by (vm_compute; reflexivity).
  reflexivity.
Defined.

(** [brelse] panics when the caller does not hold the buffer's lock. When the
    caller's reference was the last one, the buffer moves to the front of the
    list, the others keeping their order; otherwise the order stays. The
    contents of all buffers are untouched. *)
Theorem brelse_mru s l1 b l2 :
  cache_list s (l1 ++ b :: l2) -> 0 < refcnt (bf s b) < 4294967296 ->
  if holdingsleep (curpid s) (lock (bf s b)) then
    exists s', brelse b s = Ret tt s' /\
      cache_list s' (if refcnt (bf s b) =? 1 then b :: l1 ++ l2 else l1 ++ b :: l2) /\
      sl_locked (lock (bf s' b)) = false /\ refcnt (bf s' b) = refcnt (bf s b) - 1 /\
      forall i, data (bf s' i) = data (bf s i) /\ flags (bf s' i) = flags (bf s i) /\
                dev (bf s' i) = dev (bf s i) /\ blockno (bf s' i) = blockno (bf s i)
  else brelse b s = Panic "brelse".
Proof.
  intros Hc Hr. pose proof (cache_list_elem _ _ b Hc) as [Hb _].
  assert (b < NBUF)%nat as Hlt by (apply Hb; apply elem_of_app; right; constructor).
  pose proof (proj1 Hc) as Hlen.
  destruct (holdingsleep (curpid s) (lock (bf s b))) eqn:Hh.
  2: { unfold brelse, bind, get. by rewrite Hh. }
  set (F := fun x : buf => set_refcnt (u32 (refcnt x - 1)) (set_lock (releasesleep (lock x)) x)).
  set (s1 := upd b F s).
  assert (cache_list s1 (l1 ++ b :: l2)) as Hc1 by (apply cache_list_upd; [lia|done|done]).
  assert (forall i, bf s1 i = if decide (b = i) then F (bf s b) else bf s i) as E1.
  { intros i. unfold s1. rewrite bf_upd by (done || lia). case_decide; by subst. }
  assert (refcnt (bf s1 b) = refcnt (bf s b) - 1) as Er.
  { rewrite E1. case_decide; [|done]. cbn. apply u32_small. lia. }
  assert (brelse b s = when (refcnt (bf s1 b) =? 0)
            (modify (unlink b) ;;; modify (link_front b)) s1) as Hrun.
  { unfold brelse, bind, get, modify. rewrite Hh. cbn [negb].
    rewrite (upd_upd b) by (done || lia). done. }
  assert (forall i, data (bf s1 i) = data (bf s i) /\ flags (bf s1 i) = flags (bf s i) /\
            dev (bf s1 i) = dev (bf s i) /\ blockno (bf s1 i) = blockno (bf s i)) as Hsame.
  { intros i. rewrite E1. case_decide; by subst. }
  rewrite Hrun, Er. destruct (Z.eqb_spec (refcnt (bf s b)) 1) as [E|E].
  - rewrite E. simpl. exists (link_front b (unlink b s1)).
    destruct (cache_list_front s1 l1 b l2 Hc1) as [Hc2 Hcore].
    assert (forall i, data (bf (link_front b (unlink b s1)) i) = data (bf s1 i) /\
      flags (bf (link_front b (unlink b s1)) i) = flags (bf s1 i) /\
      dev (bf (link_front b (unlink b s1)) i) = dev (bf s1 i) /\
      blockno (bf (link_front b (unlink b s1)) i) = blockno (bf s1 i) /\
      lock (bf (link_front b (unlink b s1)) i) = lock (bf s1 i) /\
      refcnt (bf (link_front b (unlink b s1)) i) = refcnt (bf s1 i)) as Hf.
    { intros i. specialize (Hcore i). unfold core, set_prev, set_next in Hcore.
      injection Hcore. intros. done. }
    split_and!; [done|done| | |].
    + destruct (Hf b) as (_ & _ & _ & _ & -> & _). rewrite E1. by case_decide.
    + destruct (Hf b) as (_ & _ & _ & _ & _ & ->). by rewrite Er, E.
    + intros i. destruct (Hf i) as (-> & -> & -> & -> & _). apply Hsame.
  - destruct (Z.eqb_spec (refcnt (bf s b) - 1) 0); [lia|]. simpl. exists s1.
    split_and!; try done. rewrite E1. by case_decide.
Qed.

Lemma brelse_mru_witness :
  exists s b s', 0 < refcnt (bf s b) < 4294967296 /\ brelse b s = Ret tt s' /\
    cache_list s' (1 :: [29; 28; 27; 26; 25; 24; 23; 22; 21; 20; 19; 18; 17; 16; 15; 14; 13; 12;
                         11; 10; 9; 8; 7; 6; 5; 4; 3; 2; 0])%nat.
Proof.
  set (z := {| bufs := replicate (S NBUF) inhabitant; memdisk := fun _ => zero_block;
               disksize := 100; trace := []; curpid := 1 |}).
  assert (len_ok z) as Hl by reflexivity.
  destruct (binit_list z Hl) as [Hc _].
  set (F := fun x => set_lock {| sl_locked := true; sl_pid := 1 |} (set_refcnt 1 x)).
  assert (cache_list (upd 1 F (binit z)) (reverse (seq 0 NBUF))) as Hc1
    by (apply cache_list_upd; [lia|done|done]).
  pose proof (brelse_mru (upd 1 F (binit z)) (reverse (seq 2 28)) 1 [O] Hc1 ltac:(vm_compute; done)) as H.
  assert (holdingsleep (curpid (upd 1 F (binit z))) (lock (bf (upd 1 F (binit z)) 1)) = true) as E
    by (vm_compute; reflexivity).
  rewrite E in H. destruct H as (s' & R & L & _).
  exists (upd 1 F (binit z)), 1%nat, s'. split_and!; [vm_compute; done..|exact R|exact L].
Defined.

(** ** The cache is transparent *)

(** A use of the cache: read a block, or write one through. *)
Inductive bop := Rd (n : Z) | Wr (n : Z) (d : block).

Fixpoint run_bops (ops : list bop) : M bio (list block) :=
  match ops with
  | [] => ret []
  | Rd n :: ops' =>
      let* b := bread 1 n in
      let* d := gets (fun s => data (bf s b)) in
      brelse b ;;;
      let* ds := run_bops ops' in
      ret (d :: ds)
  | Wr n d :: ops' =>
      let* b := bread 1 n in
      modify (store b d) ;;;
      bwrite b ;;;
      brelse b ;;;
      run_bops ops'
  end.

(** The same uses on a plain disk: the blocks read, and the disk after them. *)
Fixpoint disk_bops (ops : list bop) (d : Z -> block) : list block * (Z -> block) :=
  match ops with
  | [] => ([], d)
  | Rd n :: ops' => let r := disk_bops ops' d in (d n :: r.1, r.2)
  | Wr n x :: ops' => disk_bops ops' (fun y => if y =? n then x else d y)
  end.

Definition bop_ok (size : Z) (o : bop) : Prop :=
  match o with
  | Rd n => 0 <= n < size
  | Wr n d => 0 <= n < size /\ block_ok d
  end.

Lemma disk_bops_ext ops : forall d d',
  (forall x, d x = d' x) -> (disk_bops ops d).1 = (disk_bops ops d').1 /\
  forall x, (disk_bops ops d).2 x = (disk_bops ops d').2 x.
Proof.
  induction ops as [|[n|n b] ops IH]; intros d d' Hd; simpl; [done| |].
  - destruct (IH d d' Hd) as [-> H2]. by rewrite Hd.
  - apply IH. intros x. by rewrite Hd.
Qed.

(** No buffer is held or dirty: the cache agrees with the disk. *)
Definition idle (s : bio) : Prop :=
  bio_inv s /\ (forall x, held s x = None) /\ (forall x, dirty s x = false) /\ (0 < avail s)%nat.

Lemma read_block s n :
  idle s -> 0 <= n < disksize s ->
  exists b s1 s', bread 1 n s = Ret b s1 /\ data (bf s1 b) = memdisk s n /\
    brelse b s1 = Ret tt s' /\ idle s' /\ disksize s' = disksize s /\
    forall x, memdisk s' x = memdisk s x.
Proof.
  intros (Hi & Hh & Hd & Ha) Hn.
  destruct (bread_ok s n Hi Hn (Hh n) (or_intror Ha))
    as (b & s1 & R1 & I1 & N1 & _ & H1 & D1 & V1 & P1 & A1).
  assert (held s1 n = Some b) as Hb by (by rewrite H1, Z.eqb_refl).
  assert (view s1 n = memdisk s1 n) as Hv by (rewrite V1, D1; by apply view_clean).
  destruct (brelse_ok s1 n b I1 Hb (or_intror Hv)) as (s2 & R2 & I2 & N2 & _ & H2 & D2 & V2 & P2 & A2).
  exists b, s1, s2. split_and!; [done| |done| |congruence|].
  - rewrite <- D1, <- Hv. unfold view, cbuf.
    by destruct (held_lookup s1 n b I1 Hb) as (-> & _).
  - rewrite P1, Hd in A2. rewrite Hd in A1. split_and!; [done| | |lia].
    + intros x. rewrite H2, H1, Hh. by destruct (x =? n).
    + intros x. by rewrite P2, P1.
  - intros x. by rewrite D2, D1.
Qed.

Lemma write_block s n d :
  idle s -> 0 <= n < disksize s -> block_ok d ->
  exists s', (let* b := bread 1 n in modify (store b d) ;;; bwrite b ;;; brelse b) s = Ret tt s' /\
    idle s' /\ disksize s' = disksize s /\
    forall x, memdisk s' x = if x =? n then d else memdisk s x.
Proof.
  intros (Hi & Hh & Hd & Ha) Hn Hok.
  destruct (bread_ok s n Hi Hn (Hh n) (or_intror Ha))
    as (b & s1 & R1 & I1 & N1 & _ & H1 & D1 & V1 & P1 & A1).
  assert (held s1 n = Some b) as Hb by (by rewrite H1, Z.eqb_refl).
  destruct (store_ok s1 n b d I1 Hb Hok) as (I2 & N2 & _ & H2 & D2 & V2 & P2 & A2).
  destruct (bwrite_ok (store b d s1) n b I2) as (s3 & R3 & I3 & N3 & _ & H3 & D3 & V3 & P3 & A3).
  { by rewrite H2. }
  assert (view (store b d s1) n = d) as Ev by (by rewrite V2, Z.eqb_refl).
  destruct (brelse_ok s3 n b I3) as (s4 & R4 & I4 & N4 & _ & H4 & D4 & V4 & P4 & A4).
  { by rewrite H3, H2. } { right. by rewrite V3, D3, Z.eqb_refl. }
  exists s4. split_and!; [| |congruence|].
  - mstep R1. unfold bind at 1, modify. mstep R3. exact R4.
  - rewrite P3, P2, P1, Z.eqb_refl in A4. simpl in A4. split_and!; [done| | |lia].
    + intros x. rewrite H4, H3, H2, H1, Hh. by destruct (x =? n).
    + intros x. rewrite P4, P3, P2, P1, Hd. apply andb_false_r.
  - intros x. by rewrite D4, D3, D2, D1, Ev.
Qed.

Lemma run_bops_ok ops : forall s,
  idle s -> Forall (bop_ok (disksize s)) ops ->
  exists s', run_bops ops s = Ret (disk_bops ops (memdisk s)).1 s' /\
    forall x, memdisk s' x = (disk_bops ops (memdisk s)).2 x.
Proof.
  induction ops as [|o ops IH]; intros s Hs Hops; [by exists s|].
  apply Forall_cons in Hops as [Ho Hops]. destruct o as [n|n d]; simpl in Ho.
  - destruct (read_block s n Hs Ho) as (b & s1 & s2 & R1 & E1 & R2 & I2 & N2 & D2).
    destruct (IH s2 I2) as (s3 & R3 & D3); [by rewrite N2|].
    destruct (disk_bops_ext ops _ _ D2) as [F1 F2].
    exists s3. split.
    + cbn [run_bops disk_bops]. mstep R1. unfold bind at 1, gets. rewrite E1.
      mstep R2. mstep R3. by rewrite F1.
    + intros x. by rewrite D3, F2.
  - destruct Ho as [Hn Hd]. destruct (write_block s n d Hs Hn Hd) as (s2 & R2 & I2 & N2 & D2).
    destruct (IH s2 I2) as (s3 & R3 & D3); [by rewrite N2|].
    destruct (disk_bops_ext ops _ _ D2) as [F1 F2]. exists s3. split.
    + cbn [run_bops disk_bops]. rewrite <- F1, <- R3.
      unfold bind in R2 |- *. destruct (bread 1 n s) as [b s1| | |]; [|done..].
      unfold modify in R2 |- *. destruct (bwrite b (store b d s1)) as [[] s1'| | |]; [|done..].
      by rewrite R2.
    + intros x. by rewrite D3, F2.
Qed.

(** C3. The buffer cache is transparent: from a cold start, any sequence of
    block reads and write-throughs returns the same contents, and leaves the
    same disk, as running it on the disk directly, whatever the cache evicts on
    the way; none of them panics or sleeps. *)
Theorem cache_transparent size d ops :
  (forall n, block_ok (d n)) -> Forall (bop_ok size) ops ->
  exists s', run_bops ops (boot size d) = Ret (disk_bops ops d).1 s' /\
    forall x, memdisk s' x = (disk_bops ops d).2 x.
Proof.
  intros Hd Hops. destruct (boot_ok size d Hd) as (I & N & _ & H & D & P & A).
  destruct (run_bops_ok ops (boot size d)) as (s' & R & D').
  { split_and!; [done|done|done|lia]. } { by rewrite N. }
  destruct (disk_bops_ext ops _ _ D) as [F1 F2].
  exists s'. split; [by rewrite R, F1|]. intros x. by rewrite D', F2.
Qed.

Lemma cache_transparent_witness :
  exists s', run_bops [Wr 5 (put32 zero_block 0 77); Rd 5; Rd 6] (boot 10 (fun _ => zero_block))
             = Ret [put32 zero_block 0 77; zero_block] s'.
Proof.
  destruct (cache_transparent 10 (fun _ => zero_block)
              [Wr 5 (put32 zero_block 0 77); Rd 5; Rd 6]) as (s' & R & _).
  - intros _. apply block_ok_zero.
  - apply Forall_cons. split; [split; [lia|apply block_ok_put32, block_ok_zero]|].
    apply Forall_cons. split; [simpl; lia|]. apply Forall_cons. split; [simpl; lia|].
    apply Forall_nil_2.
  - exists s'. exact R.
Defined.
