(* ===== verification/Log.v ===== *)
(** The write-ahead log (log.c), over any block cache.

    The log is proved against the interface of BlockLayer.v: transactions,
    commit, recovery, and what a crash between any two disk writes leaves
    behind. Crashes are modelled on the sequence of block writes the disk has
    received: a block write is atomic, and a crash keeps a prefix of them. *)

From Stdlib Require Import ZArith Lia.
From stdpp Require Import base strings gmap numbers list.
From S2P Require Import Prelude BlockLayer.

Open Scope Z_scope.

(** ** Constants and data *)

Abbreviation MAXOPBLOCKS := 10 (only parsing).
Abbreviation LOGSIZE := 30 (only parsing).

(** [struct log], with its [struct logheader lh]. *)
Record log := {
  lstart : Z;
  lsize : Z;
  outstanding : Z;
  committing : bool;
  ldev : Z;
  lh_n : Z;
  lh_block : list Z;
}.

Definition set_outstanding (v : Z) (l : log) : log :=
  {| lstart := lstart l; lsize := lsize l; outstanding := v; committing := committing l;
     ldev := ldev l; lh_n := lh_n l; lh_block := lh_block l |}.
Definition set_committing (v : bool) (l : log) : log :=
  {| lstart := lstart l; lsize := lsize l; outstanding := outstanding l; committing := v;
     ldev := ldev l; lh_n := lh_n l; lh_block := lh_block l |}.
Definition set_lh_n (v : Z) (l : log) : log :=
  {| lstart := lstart l; lsize := lsize l; outstanding := outstanding l;
     committing := committing l; ldev := ldev l; lh_n := v; lh_block := lh_block l |}.
Definition set_lh_block (i : Z) (v : Z) (l : log) : log :=
  {| lstart := lstart l; lsize := lsize l; outstanding := outstanding l;
     committing := committing l; ldev := ldev l; lh_n := lh_n l;
     lh_block := <[Z.to_nat i := v]> (lh_block l) |}.
Definition set_geometry (start size d : Z) (l : log) : log :=
  {| lstart := start; lsize := size; outstanding := outstanding l;
     committing := committing l; ldev := d; lh_n := lh_n l; lh_block := lh_block l |}.

(** [log.lh.block[i]] *)
Definition lh_at (l : log) (i : Z) : Z := default 0 (lh_block l !! Z.to_nat i).

(** [struct superblock] of fs.h, as [readsb] finds it in block 1. *)
Record superblock := {
  sb_size : Z; sb_nblocks : Z; sb_ninodes : Z; sb_nlog : Z;
  sb_logstart : Z; sb_inodestart : Z; sb_bmapstart : Z;
}.

Definition sb_decode (d : block) : superblock :=
  {| sb_size := get32 d 0; sb_nblocks := get32 d 4; sb_ninodes := get32 d 8;
     sb_nlog := get32 d 12; sb_logstart := get32 d 16; sb_inodestart := get32 d 20;
     sb_bmapstart := get32 d 24 |}.

(** ** Operations *)

Section Log.
Context {S : Type} {BC : BlockCache S}.

Record lst := { cache : S; lg : log }.

Definition lc {A} (m : M S A) : M lst A :=
  fun st => match m (cache st) with
            | Ret a s' => Ret a {| cache := s'; lg := lg st |}
            | Panic msg => Panic msg
            | Sleep c s' => Sleep c {| cache := s'; lg := lg st |}
            | OutOfFuel => OutOfFuel
            end.
Definition upd_lg (f : log -> log) : M lst unit :=
  modify (fun st => {| cache := cache st; lg := f (lg st) |}).

(** [memmove(b->data, d, BSIZE)] *)
Definition store_data (b : nat) (d : block) : M lst unit := lc (modify (bc_store b d)).
Definition data_of (b : nat) : M lst block := lc (gets (fun s => bc_data s b)).

(** [install_trans]: the loop on [tail], with [n] iterations left. *)
Fixpoint install_loop (n : nat) (tail : Z) : M lst unit :=
  match n with
  | O => ret tt
  | Datatypes.S n' =>
      let* l := gets lg in
      let* lbuf := lc (bc_bread (ldev l) (u32 (lstart l + tail + 1))) in
      let* dbuf := lc (bc_bread (ldev l) (u32 (lh_at l tail))) in
      let* d := data_of lbuf in
      store_data dbuf d ;;;
      lc (bc_bwrite dbuf) ;;;
      lc (bc_brelse lbuf) ;;;
      lc (bc_brelse dbuf) ;;;
      install_loop n' (tail + 1)
  end.

Definition install_trans : M lst unit :=
  let* l := gets lg in install_loop (Z.to_nat (lh_n l)) 0.

(** The copying loops of [read_head] and [write_head], from index [i]. *)
Fixpoint read_head_loop (n : nat) (i : Z) (d : block) : M lst unit :=
  match n with
  | O => ret tt
  | Datatypes.S n' =>
      upd_lg (set_lh_block i (i32 (get32 d (4 + 4 * i)))) ;;;
      read_head_loop n' (i + 1) d
  end.

Definition read_head : M lst unit :=
  let* l := gets lg in
  let* b := lc (bc_bread (ldev l) (u32 (lstart l))) in
  let* d := data_of b in
  upd_lg (set_lh_n (i32 (get32 d 0))) ;;;
  read_head_loop (Z.to_nat (i32 (get32 d 0))) 0 d ;;;
  lc (bc_brelse b).

Fixpoint fill_head (n : nat) (i : Z) (l : log) (d : block) : block :=
  match n with
  | O => d
  | Datatypes.S n' => fill_head n' (i + 1) l (put32 d (4 + 4 * i) (lh_at l i))
  end.

Definition write_head : M lst unit :=
  let* l := gets lg in
  let* b := lc (bc_bread (ldev l) (u32 (lstart l))) in
  let* d := data_of b in
  let d := put32 d 0 (lh_n l) in
  store_data b (fill_head (Z.to_nat (lh_n l)) 0 l d) ;;;
  lc (bc_bwrite b) ;;;
  lc (bc_brelse b).

Definition recover_from_log : M lst unit :=
  read_head ;;;
  install_trans ;;;
  upd_lg (set_lh_n 0) ;;;
  write_head.

(** [begin_op]: one round of its loop; the process sleeps on [&log] when the
    log commits or might run out of space. *)
Definition begin_op : M lst unit :=
  let* l := gets lg in
  if committing l then sleep_on ("log", 0)
  else if LOGSIZE <? lh_n l + (outstanding l + 1) * MAXOPBLOCKS
  then sleep_on ("log", 0)
  else upd_lg (set_outstanding (outstanding l + 1)).

Fixpoint write_log_loop (n : nat) (tail : Z) : M lst unit :=
  match n with
  | O => ret tt
  | Datatypes.S n' =>
      let* l := gets lg in
      let* to := lc (bc_bread (ldev l) (u32 (lstart l + tail + 1))) in
      let* from := lc (bc_bread (ldev l) (u32 (lh_at l tail))) in
      let* d := data_of from in
      store_data to d ;;;
      lc (bc_bwrite to) ;;;
      lc (bc_brelse from) ;;;
      lc (bc_brelse to) ;;;
      write_log_loop n' (tail + 1)
  end.

Definition write_log : M lst unit :=
  let* l := gets lg in write_log_loop (Z.to_nat (lh_n l)) 0.

Definition commit : M lst unit :=
  let* l := gets lg in
  if 0 <? lh_n l then
    write_log ;;;
    write_head ;;;
    install_trans ;;;
    upd_lg (set_lh_n 0) ;;;
    write_head
  else ret tt.

(** [end_op]; the wake-ups of processes that wait in [begin_op] change nothing
    of the log. *)
Definition end_op : M lst unit :=
  upd_lg (fun l => set_outstanding (outstanding l - 1) l) ;;;
  let* l := gets lg in
  if committing l then panic "log.committing"
  else if outstanding l =? 0 then
    upd_lg (set_committing true) ;;;
    commit ;;;
    upd_lg (set_committing false)
  else ret tt.

(** The search of [log_write] for the block, from index [i]. *)
Fixpoint log_find (n : nat) (i : Z) (l : log) (b : Z) : Z :=
  match n with
  | O => i
  | Datatypes.S n' => if u32 (lh_at l i) =? b then i else log_find n' (i + 1) l b
  end.

Definition log_write (b : nat) : M lst unit :=
  let* l := gets lg in
  if (LOGSIZE <=? lh_n l) || (lsize l - 1 <=? lh_n l)
  then panic "too big a transaction"
  else if outstanding l <? 1 then panic "log_write outside of trans"
  else
    let* n := lc (gets (fun s => bc_blockno s b)) in
    let i := log_find (Z.to_nat (lh_n l)) 0 l n in
    upd_lg (set_lh_block i (i32 n)) ;;;
    (if i =? lh_n l then upd_lg (fun l => set_lh_n (lh_n l + 1) l) else ret tt) ;;;
    lc (modify (bc_pin b)).

Definition readsb (d : Z) : M lst superblock :=
  let* b := lc (bc_bread d 1) in
  let* x := data_of b in
  lc (bc_brelse b) ;;;
  ret (sb_decode x).

(** [sizeof(struct logheader)] is 124, below the block size. *)
Definition initlog (d : Z) : M lst unit :=
  if BSIZE <=? 4 + 4 * LOGSIZE then panic "initlog: too big logheader"
  else
    let* sb := readsb d in
    upd_lg (set_geometry (i32 (sb_logstart sb)) (i32 (sb_nlog sb)) d) ;;;
    recover_from_log.

(** ** Disks, and what recovery makes of one *)

Definition apply_write (d : Z -> block) (w : Z * block) : Z -> block :=
  fun x => if x =? w.1 then w.2 else d x.
Definition apply_writes (ws : list (Z * block)) (d : Z -> block) : Z -> block :=
  foldl apply_write d ws.

(** Block [k] of [bs] replaced by block [f k], in order. *)
Fixpoint overlay (bs : list Z) (k : Z) (f : Z -> block) (d : Z -> block) : Z -> block :=
  match bs with
  | [] => d
  | b :: bs' => overlay bs' (k + 1) f (fun x => if x =? b then f k else d x)
  end.

(** The block numbers in the header block on disk [d]. *)
Definition hdr_list (start : Z) (d : Z -> block) : list Z :=
  (fun i => get32 (d start) (4 + 4 * i)) <$> seqZ 0 (i32 (get32 (d start) 0)).

(** The disk that recovery owes to the log found on [d]. *)
Definition recovered (start : Z) (d : Z -> block) : Z -> block :=
  overlay (hdr_list start d) 0 (fun k => d (start + k + 1)) d.

(** The blocks of the log: the header and [size - 1] data blocks. *)
Definition in_log (start size x : Z) : Prop := start <= x < start + size.

(** The pattern of every update in fs.c: [bread], a change of the data,
    [log_write], [brelse]. *)
Definition update_block (d n : Z) (f : block -> block) : M lst unit :=
  let* b := lc (bc_bread d n) in
  let* x := data_of b in
  store_data b (f x) ;;;
  log_write b ;;;
  lc (bc_brelse b).

(** Block numbers a header may carry. *)
Definition home_ok (start size nblocks : Z) (bs : list Z) : Prop :=
  Forall (fun b => 0 <= b < nblocks /\ ~ in_log start size b) bs.

End Log.
Arguments lst S : clear implicits.

(** ** One block copied through the cache *)

Section LogProofs.
Context {S : Type} {BC : BlockCache S}.
Implicit Types (s : S) (st : lst S).

Definition quiet (s : S) : Prop := bc_inv s /\ forall x, bc_held s x = None.

Lemma lc_run {A} (m : M S A) st a s' :
  m (cache st) = Ret a s' -> lc m st = Ret a {| cache := s'; lg := lg st |}.
Proof. intros E. unfold lc. by rewrite E. Qed.

Lemma lc_bind {A B} (m : M S A) (k : A -> M (lst S) B) s l a s' :
  m s = Ret a s' ->
  bind (lc m) k {| cache := s; lg := l |} = k a {| cache := s'; lg := l |}.
Proof. intros E. unfold bind, lc. simpl. by rewrite E. Qed.

(** The second half of a copy: store, write out, release source and target. *)
Definition copy_tail (src dst : nat) (k : M (lst S) unit) : M (lst S) unit :=
  let* d := data_of src in
  store_data dst d ;;;
  lc (bc_bwrite dst) ;;;
  lc (bc_brelse src) ;;;
  lc (bc_brelse dst) ;;; k.

(** The effect of a copy of block [src] to block [dst]. *)
Definition copied (src dst : Z) (s s' : S) : Prop :=
  quiet s' /\ bc_nblocks s' = bc_nblocks s /\
  bc_trace s' = bc_trace s ++ [(dst, bc_view s src)] /\
  (forall x, bc_disk s' x = if x =? dst then bc_view s src else bc_disk s x) /\
  (forall x, bc_view s' x = if x =? dst then bc_view s src else bc_view s x) /\
  (forall x, bc_dirty s' x = negb (x =? dst) && bc_dirty s x).

Lemma copy_tail_ok s l src dst i j k :
  bc_inv s -> src <> dst ->
  (forall x, bc_held s x = if x =? src then Some i else if x =? dst then Some j else None) ->
  bc_dirty s src = true \/ bc_view s src = bc_disk s src ->
  exists s', copy_tail i j k {| cache := s; lg := l |} = k {| cache := s'; lg := l |} /\
    copied src dst s s' /\
    (bc_avail s + (if bc_dirty s src then 0 else 1) + 1 <= bc_avail s')%nat.
Proof.
  intros Hi Hne Hh Hsrc.
  assert (bc_held s src = Some i) as Hs by (by rewrite Hh, Z.eqb_refl).
  assert (bc_held s dst = Some j) as Hd.
  { rewrite Hh, Z.eqb_refl. by destruct (Z.eqb_spec dst src); [congruence|]. }
  destruct (bc_held_data s src i Hi Hs) as (Edata & _ & _).
  destruct (bc_store_ok s dst j (bc_view s src) Hi Hd (bc_view_ok s src Hi))
    as (I1 & N1 & T1 & H1 & D1 & V1 & P1 & A1).
  set (s1 := bc_store j (bc_view s src) s) in *.
  destruct (bc_bwrite_ok s1 dst j I1) as (s2 & R2 & I2 & N2 & T2 & H2 & D2 & V2 & P2 & A2).
  { by rewrite H1. }
  assert (bc_view s1 dst = bc_view s src) as Ev by (by rewrite V1, Z.eqb_refl).
  destruct (bc_brelse_ok s2 src i I2) as (s3 & R3 & I3 & N3 & T3 & H3 & D3 & V3 & P3 & A3).
  { by rewrite H2, H1. }
  { rewrite P2, P1, D2, D1, V2, V1. destruct (Z.eqb_spec src dst); [done|]. simpl. done. }
  destruct (bc_brelse_ok s3 dst j I3) as (s4 & R4 & I4 & N4 & T4 & H4 & D4 & V4 & P4 & A4).
  { rewrite H3, H2, H1. by destruct (Z.eqb_spec dst src); [congruence|]. }
  { right. rewrite V3, V2, D3, D2, Z.eqb_refl. done. }
  exists s4. split; [|split; [split_and!|]].
  - unfold copy_tail, data_of, store_data.
    rewrite (lc_bind _ _ s l (bc_data s i) s) by done.
    rewrite (lc_bind _ _ s l tt s1) by (unfold modify; by rewrite Edata).
    rewrite (lc_bind _ _ s1 l tt s2 R2).
    rewrite (lc_bind _ _ s2 l tt s3 R3).
    by rewrite (lc_bind _ _ s3 l tt s4 R4).
  - split; [done|]. intros x. rewrite H4, H3, H2, H1, Hh.
    destruct (Z.eqb_spec x dst); [done|]. by destruct (Z.eqb_spec x src).
  - congruence.
  - by rewrite T4, T3, T2, T1, Ev.
  - intros x. by rewrite D4, D3, D2, D1, Ev.
  - intros x. by rewrite V4, V3, V2, V1.
  - intros x. by rewrite P4, P3, P2, P1.
  - rewrite P3, P2, P1 in A4. rewrite P2, P1 in A3.
    rewrite Z.eqb_refl in A4. destruct (Z.eqb_spec src dst); [done|]. simpl in A3, A4. lia.
Qed.

(** Reading two different blocks that are not held. *)
Lemma read_two s l m n (k : nat -> nat -> M (lst S) unit) :
  quiet s -> m <> n -> 0 <= m < bc_nblocks s -> 0 <= n < bc_nblocks s ->
  bc_dirty s m = false -> (1 <= bc_avail s)%nat ->
  bc_dirty s n = true \/ (2 <= bc_avail s)%nat ->
  exists i j s',
    (let* a := lc (bc_bread ROOTDEV m) in let* b := lc (bc_bread ROOTDEV n) in k a b)
      {| cache := s; lg := l |} = k i j {| cache := s'; lg := l |} /\
    bc_inv s' /\ bc_nblocks s' = bc_nblocks s /\ bc_trace s' = bc_trace s /\
    (forall x, bc_held s' x = if x =? m then Some i else if x =? n then Some j else None) /\
    (forall x, bc_disk s' x = bc_disk s x) /\ (forall x, bc_view s' x = bc_view s x) /\
    (forall x, bc_dirty s' x = bc_dirty s x) /\
    (bc_avail s <= bc_avail s' + 1 + (if bc_dirty s n then 0 else 1))%nat.
Proof.
  intros [Hi Hh] Hne Hm Hn Hdm Ha Hdn.
  destruct (bc_bread_ok s m Hi Hm (Hh m)) as (i & s1 & R1 & I1 & N1 & T1 & H1 & D1 & V1 & P1 & A1).
  { right. lia. }
  rewrite Hdm in A1.
  destruct (bc_bread_ok s1 n I1) as (j & s2 & R2 & I2 & N2 & T2 & H2 & D2 & V2 & P2 & A2).
  { by rewrite N1. }
  { rewrite H1. by destruct (Z.eqb_spec n m); [congruence|]. }
  { rewrite P1. destruct Hdn; [by left|right; lia]. }
  exists i, j, s2. split_and!.
  - rewrite (lc_bind _ _ _ _ _ _ R1). by rewrite (lc_bind _ _ _ _ _ _ R2).
  - done.
  - congruence.
  - congruence.
  - intros x. rewrite H2, H1, Hh. destruct (Z.eqb_spec x n), (Z.eqb_spec x m); congruence.
  - intros x. by rewrite D2, D1.
  - intros x. by rewrite V2, V1.
  - intros x. by rewrite P2, P1.
  - rewrite P1 in A2. lia.
Qed.

(** Enough buffers to copy into the blocks [bs]. *)
Definition room (s : S) (bs : list Z) : Prop :=
  (1 <= bc_avail s)%nat /\ ((forall b, b ∈ bs -> bc_dirty s b = true) \/ (2 <= bc_avail s)%nat).

Lemma overlay_ext bs : forall k f f' d d',
  (forall i, k <= i < k + Z.of_nat (length bs) -> f i = f' i) -> (forall x, d x = d' x) ->
  forall x, overlay bs k f d x = overlay bs k f' d' x.
Proof.
  induction bs as [|b bs IH]; intros k f f' d d' Hf Hd x; simpl in *; [done|].
  apply IH; [intros i Hi; apply Hf; lia|]. intros y. rewrite Hf by lia.
  by destruct (y =? b).
Qed.

Lemma overlay_notin bs : forall k f d x, x ∉ bs -> overlay bs k f d x = d x.
Proof.
  induction bs as [|b bs IH]; intros k f d x Hx; simpl; [done|].
  apply not_elem_of_cons in Hx as [Hb Hx]. rewrite IH by done.
  by destruct (Z.eqb_spec x b).
Qed.

(** The geometry of the log and the blocks of a transaction. *)
Record geom (l : log) (nblocks : Z) (bs : list Z) : Prop := {
  g_dev : ldev l = 1;
  g_start : 0 <= lstart l;
  g_end : lstart l + lsize l <= nblocks;
  g_word : nblocks < 2147483648;
  g_size : lsize l <= LOGSIZE;
  g_len : Z.of_nat (length bs) < lsize l;
  g_home : home_ok (lstart l) (lsize l) nblocks bs;
}.

(** The block numbers in [l] from index [k]. *)
Definition lh_from (l : log) (k : Z) (bs : list Z) : Prop :=
  forall i b, bs !! i = Some b -> lh_at l (k + Z.of_nat i) = b.

Lemma lh_from_cons l k b bs :
  lh_from l k (b :: bs) -> lh_at l k = b /\ lh_from l (k + 1) bs.
Proof.
  intros H. split.
  - specialize (H O b eq_refl). by rewrite Z.add_0_r in H.
  - intros i c Hc. rewrite <- (H (Datatypes.S i) c Hc). f_equal. lia.
Qed.

Lemma home_ok_cons start size nb b bs :
  home_ok start size nb (b :: bs) ->
  (0 <= b < nb /\ ~ in_log start size b) /\ home_ok start size nb bs.
Proof. intros H%Forall_cons_1. exact H. Qed.

(** One round of [install_trans]: block [m] of the log is copied to block [b]. *)
Lemma install_one s l m b k :
  quiet s -> m <> b -> 0 <= m < bc_nblocks s -> 0 <= b < bc_nblocks s ->
  bc_dirty s m = false -> (1 <= bc_avail s)%nat ->
  bc_dirty s b = true \/ (2 <= bc_avail s)%nat ->
  exists s',
    (let* i := lc (bc_bread ROOTDEV m) in let* j := lc (bc_bread ROOTDEV b) in copy_tail i j k)
      {| cache := s; lg := l |} = k {| cache := s'; lg := l |} /\
    copied m b s s' /\
    (bc_avail s + (if bc_dirty s b then 1 else 0) <= bc_avail s')%nat.
Proof.
  intros Hq Hne Hm Hb Hdm Ha Hd.
  destruct (read_two s l m b (fun i j => copy_tail i j k) Hq Hne Hm Hb Hdm Ha Hd)
    as (i & j & s1 & R1 & I1 & N1 & T1 & H1 & D1 & V1 & P1 & A1).
  destruct (copy_tail_ok s1 l m b i j k I1 Hne H1)
    as (s2 & R2 & (Q2 & N2 & T2 & D2 & V2 & P2) & A2).
  { right. rewrite V1, D1. apply bc_view_clean; [apply Hq|done|apply Hq]. }
  exists s2. split; [by rewrite R1, R2|split; [split_and!|]].
  - done.
  - congruence.
  - by rewrite T2, T1, V1.
  - intros x. by rewrite D2, D1, V1.
  - intros x. by rewrite V2, !V1.
  - intros x. by rewrite P2, P1.
  - rewrite P1, Hdm in A2. destruct (bc_dirty s b); lia.
Qed.

(** Copying the blocks [bs] home from the log, from index [k] on. *)
Lemma install_loop_ok bs : forall k s l,
  quiet s -> 0 <= k -> lh_from l k bs -> room s bs ->
  ldev l = 1 -> 0 <= lstart l -> lstart l + lsize l <= bc_nblocks s ->
  bc_nblocks s < 2147483648 -> k + Z.of_nat (length bs) < lsize l ->
  home_ok (lstart l) (lsize l) (bc_nblocks s) bs ->
  (forall x, in_log (lstart l) (lsize l) x -> bc_dirty s x = false) ->
  let f := fun i => bc_view s (lstart l + i + 1) in
  exists s', install_loop (length bs) k {| cache := s; lg := l |}
               = Ret tt {| cache := s'; lg := l |} /\
    quiet s' /\ bc_nblocks s' = bc_nblocks s /\
    bc_trace s' = bc_trace s ++ imap (fun i b => (b, f (k + Z.of_nat i))) bs /\
    (forall x, bc_disk s' x = overlay bs k f (bc_disk s) x) /\
    (forall x, bc_view s' x = overlay bs k f (bc_view s) x) /\
    (forall x, bc_dirty s' x = true <-> bc_dirty s x = true /\ x ∉ bs) /\
    (bc_avail s <= bc_avail s')%nat.
Proof.
  induction bs as [|b bs IH]; intros k s l Hq Hk Hlh [Ha Hd] Hdev Hst Hend Hw Hlen Hhome Hlog f.
  { exists s. split_and!; [done..|by rewrite app_nil_r|done|done| |done].
    intros x. split; [|by intros [? _]]. intros ?. split; [done|apply not_elem_of_nil]. }
  apply lh_from_cons in Hlh as [Hat Hlh]. apply home_ok_cons in Hhome as [[Hb Hnl] Hhome].
  simpl length in Hlen.
  assert (in_log (lstart l) (lsize l) (lstart l + k + 1)) as Hin by (unfold in_log; lia).
  assert (lstart l + k + 1 <> b) as Hmb by (intros Heq; apply Hnl; by rewrite <- Heq).
  destruct (install_one s l (lstart l + k + 1) b (install_loop (length bs) (k + 1)))
    as (s2 & R2 & (Q2 & N2 & T2 & D2 & V2 & P2) & A2);
    [done|done|lia|lia|by apply Hlog|lia|destruct Hd as [Hd|?];
      [left; apply Hd; constructor|by right]|].
  assert (forall x, in_log (lstart l) (lsize l) x -> bc_view s2 x = bc_view s x) as Vlog.
  { intros x Hx. rewrite V2. destruct (Z.eqb_spec x b); [by subst|done]. }
  destruct (IH (k + 1) s2 l) as (s3 & R3 & Q3 & N3 & T3 & D3 & V3 & P3 & A3);
    [done|lia|done| |done|done|congruence|congruence|lia|by rewrite N2| |].
  { split; [lia|]. destruct Hd as [Hd|Hd]; [|right; lia].
    rewrite (Hd b) in A2 by constructor. right. lia. }
  { intros x Hx. rewrite P2, Hlog by done. apply andb_false_r. }
  assert (forall i0, k + 1 <= i0 < k + 1 + Z.of_nat (length bs) ->
            bc_view s2 (lstart l + i0 + 1) = f i0) as Ef.
  { intros i0 Hi0. apply Vlog. unfold in_log. lia. }
  exists s3. split_and!; [|done|congruence| | | | |lia].
  - cbn [length install_loop]. unfold bind at 1, gets. cbn [lg]. rewrite Hdev, Hat.
    rewrite !u32_small by lia. unfold copy_tail in R2. rewrite R2. exact R3.
  - rewrite T3, T2. rewrite <- app_assoc. simpl. f_equal. f_equal.
    + unfold f. by rewrite Z.add_0_r.
    + apply imap_ext. intros i0 c Hc. apply lookup_lt_Some in Hc. simpl. f_equal.
      rewrite Ef by lia. unfold f. f_equal. lia.
  - intros x. rewrite D3. simpl. by apply overlay_ext.
  - intros x. rewrite V3. simpl. by apply overlay_ext.
  - intros x. rewrite P3, P2, not_elem_of_cons, andb_true_iff, negb_true_iff, Z.eqb_neq.
    tauto.
Qed.

(** One round of [write_log]: block [b] is copied to block [m] of the log. *)
Lemma write_log_one s l m b k :
  quiet s -> m <> b -> 0 <= m < bc_nblocks s -> 0 <= b < bc_nblocks s ->
  bc_dirty s m = false -> (1 <= bc_avail s)%nat -> bc_dirty s b = true ->
  exists s',
    (let* i := lc (bc_bread ROOTDEV m) in let* j := lc (bc_bread ROOTDEV b) in copy_tail j i k)
      {| cache := s; lg := l |} = k {| cache := s'; lg := l |} /\
    copied b m s s' /\ (bc_avail s <= bc_avail s')%nat.
Proof.
  intros Hq Hne Hm Hb Hdm Ha Hd.
  destruct (read_two s l m b (fun i j => copy_tail j i k) Hq Hne Hm Hb Hdm Ha (or_introl Hd))
    as (i & j & s1 & R1 & I1 & N1 & T1 & H1 & D1 & V1 & P1 & A1).
  destruct (copy_tail_ok s1 l b m j i k I1)
    as (s2 & R2 & (Q2 & N2 & T2 & D2 & V2 & P2) & A2).
  { congruence. }
  { intros x. rewrite H1. destruct (Z.eqb_spec x m), (Z.eqb_spec x b); congruence. }
  { left. by rewrite P1. }
  exists s2. split; [by rewrite R1, R2|split; [split_and!|]].
  - done.
  - congruence.
  - by rewrite T2, T1, V1.
  - intros x. by rewrite D2, D1, V1.
  - intros x. by rewrite V2, !V1.
  - intros x. by rewrite P2, P1.
  - rewrite P1, Hd in A2. rewrite Hd in A1. lia.
Qed.

Lemma apply_writes_cons w ws d : apply_writes (w :: ws) d = apply_writes ws (apply_write d w).
Proof. done. Qed.

Lemma apply_writes_app ws1 ws2 d :
  apply_writes (ws1 ++ ws2) d = apply_writes ws2 (apply_writes ws1 d).
Proof. apply foldl_app. Qed.

Lemma apply_writes_snoc ws w d : apply_writes (ws ++ [w]) d = apply_write (apply_writes ws d) w.
Proof. by rewrite apply_writes_app. Qed.

Lemma apply_writes_ext ws : forall d d' x,
  (forall y, d y = d' y) -> apply_writes ws d x = apply_writes ws d' x.
Proof.
  induction ws as [|w ws IH]; intros d d' x Hd; [apply Hd|].
  rewrite !apply_writes_cons. apply IH. intros y. unfold apply_write. by rewrite Hd.
Qed.

Lemma apply_writes_notin ws : forall d x,
  (forall w, w ∈ ws -> w.1 <> x) -> apply_writes ws d x = d x.
Proof.
  induction ws as [|w ws IH]; intros d x Hx; [done|]. rewrite apply_writes_cons, IH.
  - unfold apply_write. destruct (Z.eqb_spec x w.1) as [->|]; [|done].
    by destruct (Hx w); [constructor|].
  - intros w' Hw'. apply Hx. by constructor.
Qed.

(** The writes of [write_log]: the blocks [bs], with contents [c], go to the
    log from index [k] on. *)
Definition log_writes (start k : Z) (c : Z -> block) (bs : list Z) : list (Z * block) :=
  imap (fun i b => (start + (k + Z.of_nat i) + 1, c b)) bs.

Lemma log_writes_cons start k c b bs :
  log_writes start k c (b :: bs) = (start + k + 1, c b) :: log_writes start (k + 1) c bs.
Proof.
  unfold log_writes. simpl. rewrite Z.add_0_r. f_equal. apply imap_ext.
  intros i x _. simpl. f_equal. lia.
Qed.

Lemma elem_of_log_writes start c bs : forall k w,
  w ∈ log_writes start k c bs -> start + k < w.1 <= start + k + Z.of_nat (length bs).
Proof.
  induction bs as [|b bs IH]; intros k w Hw; [by apply elem_of_nil in Hw|].
  rewrite log_writes_cons in Hw. simpl length.
  apply elem_of_cons in Hw as [->|Hw]; simpl; [lia|]. apply IH in Hw. lia.
Qed.

Lemma log_writes_lookup start c bs : forall k d i b,
  bs !! i = Some b ->
  apply_writes (log_writes start k c bs) d (start + (k + Z.of_nat i) + 1) = c b.
Proof.
  induction bs as [|b' bs IH]; intros k d i b Hb; [done|].
  rewrite log_writes_cons, apply_writes_cons. destruct i as [|i]; simpl in Hb.
  - simplify_eq. rewrite apply_writes_notin.
    + unfold apply_write. simpl. rewrite Z.add_0_r. by rewrite Z.eqb_refl.
    + intros w Hw%elem_of_log_writes. lia.
  - rewrite <- (IH (k + 1) (apply_write d (start + k + 1, c b')) i b Hb). f_equal. lia.
Qed.

Lemma write_log_loop_ok bs : forall k s l,
  quiet s -> 0 <= k -> lh_from l k bs -> (1 <= bc_avail s)%nat ->
  (forall b, b ∈ bs -> bc_dirty s b = true) ->
  ldev l = 1 -> 0 <= lstart l -> lstart l + lsize l <= bc_nblocks s ->
  bc_nblocks s < 2147483648 -> k + Z.of_nat (length bs) < lsize l ->
  home_ok (lstart l) (lsize l) (bc_nblocks s) bs ->
  (forall x, in_log (lstart l) (lsize l) x -> bc_dirty s x = false) ->
  let ws := log_writes (lstart l) k (bc_view s) bs in
  exists s', write_log_loop (length bs) k {| cache := s; lg := l |}
               = Ret tt {| cache := s'; lg := l |} /\
    quiet s' /\ bc_nblocks s' = bc_nblocks s /\ bc_trace s' = bc_trace s ++ ws /\
    (forall x, bc_disk s' x = apply_writes ws (bc_disk s) x) /\
    (forall x, bc_view s' x = apply_writes ws (bc_view s) x) /\
    (forall x, bc_dirty s' x = bc_dirty s x) /\ (bc_avail s <= bc_avail s')%nat.
Proof.
  induction bs as [|b bs IH]; intros k s l Hq Hk Hlh Ha Hd Hdev Hst Hend Hw Hlen Hhome Hlog ws.
  { exists s. split_and!; try done. by rewrite app_nil_r. }
  apply lh_from_cons in Hlh as [Hat Hlh]. apply home_ok_cons in Hhome as [[Hb Hnl] Hhome].
  simpl length in Hlen.
  assert (in_log (lstart l) (lsize l) (lstart l + k + 1)) as Hin by (unfold in_log; lia).
  assert (lstart l + k + 1 <> b) as Hmb by (intros Heq; apply Hnl; by rewrite <- Heq).
  destruct (write_log_one s l (lstart l + k + 1) b (write_log_loop (length bs) (k + 1)))
    as (s2 & R2 & (Q2 & N2 & T2 & D2 & V2 & P2) & A2);
    [done|done|lia|lia|by apply Hlog|lia|apply Hd; constructor|].
  assert (forall x, bc_dirty s2 x = bc_dirty s x) as P2'.
  { intros x. rewrite P2. destruct (Z.eqb_spec x (lstart l + k + 1)) as [->|]; [|done].
    by rewrite (Hlog _ Hin). }
  destruct (IH (k + 1) s2 l) as (s3 & R3 & Q3 & N3 & T3 & D3 & V3 & P3 & A3);
    [done|lia|done|lia| |done|done|congruence|congruence|lia|by rewrite N2| |].
  { intros c Hc. rewrite P2'. apply Hd. by constructor. }
  { intros x Hx. rewrite P2'. by apply Hlog. }
  assert (log_writes (lstart l) (k + 1) (bc_view s2) bs
          = log_writes (lstart l) (k + 1) (bc_view s) bs) as Ews.
  { apply imap_ext. intros i c Hc. simpl. f_equal. rewrite V2.
    destruct (Z.eqb_spec c (lstart l + k + 1)) as [->|]; [|done]. exfalso.
    apply list_elem_of_lookup_2 in Hc.
    specialize (Hd (lstart l + k + 1) ltac:(by constructor)). by rewrite (Hlog _ Hin) in Hd. }
  rewrite Ews in T3, D3, V3. unfold ws. rewrite log_writes_cons.
  exists s3. split_and!; [|done|congruence| | | | |lia].
  - cbn [length write_log_loop]. unfold bind at 1, gets. cbn [lg]. rewrite Hdev, Hat.
    rewrite !u32_small by lia. unfold copy_tail in R2. rewrite R2. exact R3.
  - by rewrite T3, T2, <- app_assoc.
  - intros x. rewrite D3, apply_writes_cons. apply apply_writes_ext. intros y. apply D2.
  - intros x. rewrite V3, apply_writes_cons. apply apply_writes_ext. intros y. apply V2.
  - intros x. by rewrite P3, P2'.
Qed.

(** ** The header block *)

Lemma fill_head_ok n : forall i l d, block_ok d -> block_ok (fill_head n i l d).
Proof.
  induction n as [|n IH]; intros i l d Hd; simpl; [done|].
  apply IH. by apply block_ok_put32.
Qed.

Lemma fill_head_low n : forall i l d j,
  length d = Z.to_nat BSIZE -> 0 <= i -> i + Z.of_nat n <= LOGSIZE ->
  0 <= j -> j + 4 <= 4 + 4 * i -> get32 (fill_head n i l d) j = get32 d j.
Proof.
  induction n as [|n IH]; intros i l d j Hl Hi Hn Hj Hji; simpl; [done|].
  rewrite IH; [|by rewrite length_put32|lia..].
  apply get32_put32_ne; lia.
Qed.

Lemma fill_head_at n : forall i l d k,
  length d = Z.to_nat BSIZE -> 0 <= i -> i + Z.of_nat n <= LOGSIZE ->
  i <= k < i + Z.of_nat n -> get32 (fill_head n i l d) (4 + 4 * k) = u32 (lh_at l k).
Proof.
  induction n as [|n IH]; intros i l d k Hl Hi Hn Hk; simpl; [lia|].
  destruct (decide (k = i)) as [->|].
  - rewrite fill_head_low; [|by rewrite length_put32|lia..].
    apply get32_put32_eq; lia.
  - apply IH; [by rewrite length_put32|lia..].
Qed.

(** The header block [write_head] makes out of [d]. *)
Definition head_block (l : log) (d : block) : block :=
  fill_head (Z.to_nat (lh_n l)) 0 l (put32 d 0 (lh_n l)).

Lemma write_head_ok s l :
  quiet s -> ldev l = 1 -> 0 <= lstart l < bc_nblocks s -> bc_nblocks s < 2147483648 ->
  bc_dirty s (lstart l) = false -> (1 <= bc_avail s)%nat ->
  let h := head_block l (bc_view s (lstart l)) in
  exists s', write_head {| cache := s; lg := l |} = Ret tt {| cache := s'; lg := l |} /\
    quiet s' /\ bc_nblocks s' = bc_nblocks s /\
    bc_trace s' = bc_trace s ++ [(lstart l, h)] /\
    (forall x, bc_disk s' x = apply_write (bc_disk s) (lstart l, h) x) /\
    (forall x, bc_view s' x = apply_write (bc_view s) (lstart l, h) x) /\
    (forall x, bc_dirty s' x = bc_dirty s x) /\ (bc_avail s <= bc_avail s')%nat.
Proof.
  intros [Hi Hh] Hdev Hst Hw Hd Ha h.
  destruct (bc_bread_ok s (lstart l) Hi Hst (Hh _))
    as (b & s1 & R1 & I1 & N1 & T1 & H1 & D1 & V1 & P1 & A1); [right; lia|].
  rewrite Hd in A1.
  assert (bc_held s1 (lstart l) = Some b) as Hb by (by rewrite H1, Z.eqb_refl).
  destruct (bc_held_data s1 _ b I1 Hb) as (Edata & _ & _).
  assert (block_ok h) as Hok.
  { apply fill_head_ok, block_ok_put32. by apply bc_view_ok. }
  destruct (bc_store_ok s1 _ b h I1 Hb Hok) as (I2 & N2 & T2 & H2 & D2 & V2 & P2 & A2).
  set (s2 := bc_store b h s1) in *.
  destruct (bc_bwrite_ok s2 (lstart l) b I2) as (s3 & R3 & I3 & N3 & T3 & H3 & D3 & V3 & P3 & A3).
  { by rewrite H2. }
  assert (bc_view s2 (lstart l) = h) as Ev by (by rewrite V2, Z.eqb_refl).
  destruct (bc_brelse_ok s3 (lstart l) b I3) as (s4 & R4 & I4 & N4 & T4 & H4 & D4 & V4 & P4 & A4).
  { by rewrite H3, H2. }
  { right. by rewrite V3, D3, Z.eqb_refl. }
  assert (forall x, bc_dirty s3 x = bc_dirty s x) as P3'.
  { intros x. rewrite P3, P2, P1. destruct (Z.eqb_spec x (lstart l)) as [->|]; [by rewrite Hd|done]. }
  exists s4. split_and!.
  - unfold write_head. unfold bind at 1, gets. cbn [lg]. rewrite Hdev, u32_small by lia.
    rewrite (lc_bind _ _ _ _ _ _ R1). unfold data_of, store_data.
    rewrite (lc_bind _ _ s1 l (bc_data s1 b) s1) by done.
    rewrite Edata, V1. fold (head_block l (bc_view s (lstart l))). fold h.
    rewrite (lc_bind _ _ s1 l tt s2) by done.
    rewrite (lc_bind _ _ _ _ _ _ R3). unfold lc. simpl. by rewrite R4.
  - split; [done|]. intros x. rewrite H4, H3, H2, H1, Hh. by destruct (Z.eqb_spec x (lstart l)).
  - congruence.
  - by rewrite T4, T3, T2, T1, Ev.
  - intros x. rewrite D4, D3, D2, D1, Ev. done.
  - intros x. rewrite V4, V3, V2, V1. done.
  - intros x. by rewrite P4, P3'.
  - rewrite P3', Hd in A4. lia.
Qed.

(** ** Lists of writes and recovered disks *)

Lemma overlay_writes bs : forall k f d,
  overlay bs k f d = apply_writes (imap (fun i b => (b, f (k + Z.of_nat i))) bs) d.
Proof.
  induction bs as [|b bs IH]; intros k f d; [done|]. cbn [overlay].
  rewrite IH, imap_cons, apply_writes_cons. f_equal.
  - apply imap_ext. intros i x _. simpl. f_equal. f_equal. lia.
  - unfold apply_write. simpl. by rewrite Z.add_0_r.
Qed.

(** Every block of [bs] written with its contents [c]. *)
Definition home_writes (c : Z -> block) (bs : list Z) : list (Z * block) :=
  (fun b => (b, c b)) <$> bs.

Lemma home_writes_at c bs : forall d x,
  apply_writes (home_writes c bs) d x = if decide (x ∈ bs) then c x else d x.
Proof.
  induction bs as [|b bs IH]; intros d x; [done|].
  cbn [home_writes fmap list_fmap]. rewrite apply_writes_cons. fold (home_writes c bs).
  rewrite IH. unfold apply_write. simpl. destruct (decide (x ∈ bs)).
  - by rewrite decide_True by (by constructor).
  - destruct (Z.eqb_spec x b) as [->|]; [by rewrite decide_True by constructor|].
    rewrite decide_False; [done|]. by apply not_elem_of_cons.
Qed.

Lemma imap_home_writes c f bs :
  (forall i b, bs !! i = Some b -> f (0 + Z.of_nat i) = c b) ->
  imap (fun i b => (b, f (0 + Z.of_nat i))) bs = home_writes c bs.
Proof.
  intros H. apply list_eq. intros i. unfold home_writes.
  rewrite list_lookup_imap, list_lookup_fmap. destruct (bs !! i) eqn:E; [|done].
  simpl. by rewrite <- (H i _ E).
Qed.

Lemma overlay_home c f bs d x :
  (forall i b, bs !! i = Some b -> f (0 + Z.of_nat i) = c b) ->
  overlay bs 0 f d x = if decide (x ∈ bs) then c x else d x.
Proof. intros H. rewrite overlay_writes, (imap_home_writes c) by done. apply home_writes_at. Qed.

Lemma hdr_list_zero start d : get32 (d start) 0 = 0 -> hdr_list start d = [].
Proof. intros H. unfold hdr_list. by rewrite H. Qed.

Lemma recovered_zero start d x : get32 (d start) 0 = 0 -> recovered start d x = d x.
Proof. intros H. unfold recovered. by rewrite hdr_list_zero. Qed.

Lemma length_hdr_list start d n :
  get32 (d start) 0 = n -> 0 <= n < 2147483648 -> length (hdr_list start d) = Z.to_nat n.
Proof.
  intros H Hn. unfold hdr_list. by rewrite length_fmap, H, i32_small, length_seqZ by lia.
Qed.

Lemma hdr_list_head start d l old bs :
  d start = head_block l old -> block_ok old -> lh_n l = Z.of_nat (length bs) ->
  Z.of_nat (length bs) <= LOGSIZE -> lh_from l 0 bs -> Forall (fun b => 0 <= b < 4294967296) bs ->
  hdr_list start d = bs.
Proof.
  intros Hd [Hlen _] Hn Hmax Hlh Hr. unfold hdr_list. rewrite Hd. unfold head_block.
  assert (length (put32 old 0 (lh_n l)) = Z.to_nat BSIZE) as Hl by (by rewrite length_put32).
  rewrite fill_head_low, get32_put32_eq, u32_small, i32_small, Hn, ?Nat2Z.id by (lia || rewrite ?Hn; lia).
  apply list_eq. intros i. rewrite list_lookup_fmap.
  destruct (bs !! i) as [b|] eqn:E.
  - pose proof (lookup_lt_Some _ _ _ E) as Hi. rewrite lookup_seqZ_lt by lia. simpl. f_equal.
    rewrite fill_head_at by (rewrite ?length_put32; lia).
    rewrite (Hlh i b E). apply u32_small. by apply (Forall_lookup_1 _ _ _ _ Hr E).
  - apply lookup_ge_None in E. rewrite lookup_seqZ_ge by lia. done.
Qed.

(** A transaction ready to commit: the blocks [bs] of the header are pinned in
    the cache and nothing else is; the header on the disk is empty; no buffer
    is held. *)
Record ready (st : lst S) (bs : list Z) : Prop := {
  r_quiet : quiet (cache st);
  r_geom : geom (lg st) (bc_nblocks (cache st)) bs;
  r_n : lh_n (lg st) = Z.of_nat (length bs);
  r_lh : lh_from (lg st) 0 bs;
  r_dirty : forall x, bc_dirty (cache st) x = true <-> x ∈ bs;
  r_hdr : get32 (bc_disk (cache st) (lstart (lg st))) 0 = 0;
}.

Lemma ready_log_clean st bs x :
  ready st bs -> in_log (lstart (lg st)) (lsize (lg st)) x -> bc_dirty (cache st) x = false.
Proof.
  intros Hr Hx. destruct (bc_dirty (cache st) x) eqn:E; [|done].
  apply (r_dirty _ _ Hr) in E. pose proof (g_home _ _ _ (r_geom _ _ Hr)) as Hh.
  unfold home_ok in Hh. rewrite Forall_forall in Hh. by destruct (Hh x E).
Qed.

Lemma ready_avail st bs : ready st bs -> (1 <= bc_avail (cache st))%nat.
Proof.
  intros Hr. destruct (r_quiet _ _ Hr) as [Hi Hh].
  pose proof (bc_avail_bound (cache st) bs Hi) as Hb.
  pose proof (g_len _ _ _ (r_geom _ _ Hr)). pose proof (g_size _ _ _ (r_geom _ _ Hr)).
  assert (30 <= bc_avail (cache st) + length bs)%nat; [|lia]. apply Hb.
  intros n [Hd|[i Hs]]; [by apply (r_dirty _ _ Hr)|]. by rewrite Hh in Hs.
Qed.

(** The header blocks of a commit: the one that commits, the one that clears. *)
Definition commit_head (st : lst S) : block :=
  head_block (lg st) (bc_view (cache st) (lstart (lg st))).
Definition clear_head (st : lst S) : block := put32 (commit_head st) 0 0.

(** The disk writes of a commit, in order. *)
Definition commit_writes (st : lst S) (bs : list Z) : list (Z * block) :=
  match bs with
  | [] => []
  | _ => log_writes (lstart (lg st)) 0 (bc_view (cache st)) bs ++
         [(lstart (lg st), commit_head st)] ++
         home_writes (bc_view (cache st)) bs ++
         [(lstart (lg st), clear_head st)]
  end.

(** What [commit] leaves. *)
Definition committed (st : lst S) (bs : list Z) (st' : lst S) : Prop :=
  lg st' = set_lh_n 0 (lg st) /\ quiet (cache st') /\
  bc_nblocks (cache st') = bc_nblocks (cache st) /\
  bc_trace (cache st') = bc_trace (cache st) ++ commit_writes st bs /\
  (forall x, bc_disk (cache st') x = apply_writes (commit_writes st bs) (bc_disk (cache st)) x) /\
  (forall x, ~ in_log (lstart (lg st)) (lsize (lg st)) x ->
     bc_view (cache st') x = bc_view (cache st) x) /\
  (forall x, bc_dirty (cache st') x = false).

Lemma commit_empty st : ready st [] -> exists st', commit st = Ret tt st' /\ committed st [] st'.
Proof.
  intros Hr. exists st. destruct st as [s l]. pose proof (r_n _ _ Hr) as Hn. simpl in Hn.
  split.
  - unfold commit, bind, gets. simpl. by rewrite Hn.
  - split_and!; simpl; try done.
    + destruct l; simpl in *; by subst.
    + apply (r_quiet _ _ Hr).
    + by rewrite app_nil_r.
    + intros x. destruct (bc_dirty s x) eqn:E; [|done].
      apply (r_dirty _ _ Hr) in E. by apply elem_of_nil in E.
Qed.

Lemma block_ok_head l d : block_ok d -> block_ok (head_block l d).
Proof. intros H. by apply fill_head_ok, block_ok_put32. Qed.

Lemma commit_writes_ne st bs :
  bs <> [] -> commit_writes st bs =
    log_writes (lstart (lg st)) 0 (bc_view (cache st)) bs ++
    [(lstart (lg st), commit_head st)] ++
    home_writes (bc_view (cache st)) bs ++ [(lstart (lg st), clear_head st)].
Proof. by destruct bs. Qed.

(** The first half of a commit: the transaction and its header are on the
    disk, the blocks are not home yet. *)
Definition logged (st : lst S) (bs : list Z) (s' : S) : Prop :=
  let d := log_writes (lstart (lg st)) 0 (bc_view (cache st)) bs ++
           [(lstart (lg st), commit_head st)] in
  quiet s' /\ bc_nblocks s' = bc_nblocks (cache st) /\
  bc_trace s' = bc_trace (cache st) ++ d /\
  (forall x, bc_disk s' x = apply_writes d (bc_disk (cache st)) x) /\
  (forall x, bc_view s' x = apply_writes d (bc_view (cache st)) x) /\
  (forall x, bc_dirty s' x = bc_dirty (cache st) x) /\
  (bc_avail (cache st) <= bc_avail s')%nat.

Lemma commit_log_phase st bs :
  ready st bs ->
  exists s', (write_log ;;; write_head) st = Ret tt {| cache := s'; lg := lg st |} /\
    logged st bs s'.
Proof.
  intros Hr. pose proof (ready_avail st bs Hr) as Ha.
  pose proof (fun x => ready_log_clean st bs x Hr) as Hclean.
  destruct st as [s l]. destruct Hr as [Hq [Gd Gs Ge Gw Gz Gl Gh] Hn Hlh Hdirty Hhdr].
  simpl in *.
  assert (in_log (lstart l) (lsize l) (lstart l)) as Hst by (unfold in_log; lia).
  destruct (write_log_loop_ok bs 0 s l) as (s1 & R1 & Q1 & N1 & T1 & D1 & V1 & P1 & A1);
    try done || lia; [intros b; apply Hdirty|].
  destruct (write_head_ok s1 l) as (s2 & R2 & Q2 & N2 & T2 & D2 & V2 & P2 & A2);
    [done|done|lia|lia|rewrite P1; by apply Hclean|lia|].
  assert (bc_view s1 (lstart l) = bc_view s (lstart l)) as V1'.
  { rewrite V1. apply apply_writes_notin. intros w Hw%elem_of_log_writes. lia. }
  rewrite V1' in T2, D2, V2.
  exists s2. split.
  - unfold write_log. unfold bind at 1, bind at 1, gets. cbn [lg].
    by rewrite Hn, Nat2Z.id, R1.
  - unfold logged, commit_head. simpl. split_and!; [done|congruence| | | | |lia].
    + by rewrite T2, T1, <- app_assoc.
    + intros x. rewrite D2, apply_writes_app. simpl. unfold apply_write. by rewrite D1.
    + intros x. rewrite V2, apply_writes_app. simpl. unfold apply_write. by rewrite V1.
    + intros x. by rewrite P2, P1.
Qed.

(** After the first half, block [k] of the log is block [k] of the transaction. *)
Lemma logged_view st bs s' i b :
  logged st bs s' -> bs !! i = Some b ->
  bc_view s' (lstart (lg st) + (0 + Z.of_nat i) + 1) = bc_view (cache st) b.
Proof.
  intros (_ & _ & _ & _ & V & _ & _) Hb. rewrite V, apply_writes_app. simpl.
  unfold apply_write. cbn [fst snd].
  destruct (Z.eqb_spec (lstart (lg st) + (0 + Z.of_nat i) + 1) (lstart (lg st))); [lia|].
  by apply log_writes_lookup.
Qed.

(** The second half: the blocks go home and the header is cleared. *)
Lemma commit_home_phase st bs s2 :
  ready st bs -> bs <> [] -> logged st bs s2 ->
  exists st', (install_trans ;;; upd_lg (set_lh_n 0) ;;; write_head)
                {| cache := s2; lg := lg st |} = Ret tt st' /\ committed st bs st'.
Proof.
  intros Hr Hne Hlg. pose proof (ready_avail st bs Hr) as Ha.
  pose proof (fun x => ready_log_clean st bs x Hr) as Hclean.
  pose proof (fun i b => logged_view st bs s2 i b Hlg) as Hf.
  destruct st as [s l]. destruct Hr as [Hq [Gd Gs Ge Gw Gz Gl Gh] Hn Hlh Hdirty Hhdr].
  destruct Hlg as (Q2 & N2 & T2 & D2 & V2 & P2 & A2). cbn [cache lg] in *.
  assert (in_log (lstart l) (lsize l) (lstart l)) as Hst by (unfold in_log; lia).
  destruct (install_loop_ok bs 0 s2 l) as (s3 & R3 & Q3 & N3 & T3 & D3 & V3 & P3 & A3);
    [done|lia|done| |done|done|lia|lia|lia|by rewrite N2| |].
  { split; [lia|]. left. intros b Hb. rewrite P2. by apply Hdirty. }
  { intros x Hx. rewrite P2. by apply Hclean. }
  set (f := fun i => bc_view s2 (lstart l + i + 1)) in *.
  change (imap _ bs) with (imap (fun i b => (b, f (0 + Z.of_nat i))) bs) in T3.
  rewrite (imap_home_writes (bc_view s) f bs Hf) in T3.
  assert (forall d x, overlay bs 0 f d x = apply_writes (home_writes (bc_view s) bs) d x) as Eov.
  { intros d x. by rewrite overlay_writes, (imap_home_writes (bc_view s) f bs Hf). }
  assert (bc_view s3 (lstart l) = commit_head {| cache := s; lg := l |}) as Eh.
  { rewrite V3, Eov, home_writes_at, decide_False, V2, apply_writes_snoc.
    - unfold apply_write. cbn [fst snd]. by rewrite Z.eqb_refl.
    - intros Hin. apply Hdirty in Hin. by rewrite Hclean in Hin. }
  destruct (write_head_ok s3 (set_lh_n 0 l)) as (s4 & R4 & Q4 & N4 & T4 & D4 & V4 & P4 & A4);
    [done|done|simpl; lia|lia| |lia|].
  { simpl. destruct (bc_dirty s3 (lstart l)) eqn:E; [|done]. apply P3 in E as [E _].
    by rewrite P2, Hclean in E. }
  change (lstart (set_lh_n 0 l)) with (lstart l) in *. rewrite Eh in T4, D4, V4.
  change (head_block (set_lh_n 0 l) (commit_head {| cache := s; lg := l |}))
    with (clear_head {| cache := s; lg := l |}) in T4, D4, V4.
  exists {| cache := s4; lg := set_lh_n 0 l |}. split.
  { unfold install_trans. unfold bind at 1, bind at 1, gets. cbn [lg].
    by rewrite Hn, Nat2Z.id, R3. }
  unfold committed. rewrite commit_writes_ne by done. cbn [cache lg].
  split_and!; [done|done|congruence| | | |].
  - by rewrite T4, T3, T2, <- !app_assoc.
  - intros x. rewrite D4, app_assoc, app_assoc, apply_writes_app, apply_writes_app. simpl.
    unfold apply_write at 1 2. destruct (x =? _); [done|].
    rewrite D3, Eov. apply apply_writes_ext. apply D2.
  - intros x Hx. rewrite V4. unfold apply_write. cbn [fst snd].
    destruct (Z.eqb_spec x (lstart l)) as [->|]; [done|].
    rewrite V3, Eov, home_writes_at, V2. destruct (decide (x ∈ bs)); [done|].
    apply apply_writes_notin. intros w [Hw|Hw]%elem_of_app.
    + apply elem_of_log_writes in Hw. unfold in_log in Hx. lia.
    + apply list_elem_of_singleton in Hw as ->. done.
  - intros x. rewrite P4. destruct (bc_dirty s3 x) eqn:E; [|done]. apply P3 in E as [E Hx].
    rewrite P2 in E. by apply Hdirty in E.
Qed.

Lemma commit_ok st bs : ready st bs -> exists st', commit st = Ret tt st' /\ committed st bs st'.
Proof.
  intros Hr. destruct (decide (bs = [])) as [->|Hne]; [by apply commit_empty|].
  destruct (commit_log_phase st bs Hr) as (s2 & R2 & L2).
  destruct (commit_home_phase st bs s2 Hr Hne L2) as (st' & R3 & C). exists st'. split; [|done].
  unfold commit. unfold bind at 1, gets. rewrite (r_n _ _ Hr).
  destruct (Z.ltb_spec 0 (Z.of_nat (length bs))); [|by destruct bs; simpl in *; [|lia]].
  rewrite <- bind_assoc. by mstep R2.
Qed.

(** ** Crashes

    The writes of a commit reach the disk one after the other; a crash keeps
    a prefix of them. *)

Lemma take_log_writes start k c bs m d x :
  x <= start + k -> apply_writes (take m (log_writes start k c bs)) d x = d x.
Proof.
  intros Hx. apply apply_writes_notin. intros w Hw. apply elem_of_take in Hw as (i & Hw & _).
  apply list_elem_of_lookup_2, elem_of_log_writes in Hw. lia.
Qed.

Lemma take_home_writes c bs m : take m (home_writes c bs) = home_writes c (take m bs).
Proof. unfold home_writes. by rewrite fmap_take. Qed.

(** The disk after the first [m] writes of the commit. *)
Definition crash_disk (st : lst S) (bs : list Z) (m : nat) : Z -> block :=
  apply_writes (take m (commit_writes st bs)) (bc_disk (cache st)).

(** Before the header is written, the log on the disk is still empty. *)
Lemma crash_early st bs m :
  ready st bs -> (m <= length bs)%nat ->
  get32 (crash_disk st bs m (lstart (lg st))) 0 = 0 /\
  forall x, ~ in_log (lstart (lg st)) (lsize (lg st)) x ->
    crash_disk st bs m x = bc_disk (cache st) x.
Proof.
  intros Hr Hm. pose proof (g_len _ _ _ (r_geom _ _ Hr)) as Hlen.
  assert (forall x, (forall i, x <> lstart (lg st) + 1 + i \/ i < 0 \/ Z.of_nat (length bs) <= i) ->
            crash_disk st bs m x = bc_disk (cache st) x) as E.
  { intros x Hx. unfold crash_disk. apply apply_writes_notin. intros w Hw.
    destruct (decide (bs = [])) as [->|Hne].
    { simpl in Hw. rewrite take_nil in Hw. by apply elem_of_nil in Hw. }
    rewrite commit_writes_ne, take_app_le in Hw by (done || unfold log_writes; rewrite ?length_imap; lia).
    apply elem_of_take in Hw as (i & Hw & _).
    apply list_elem_of_lookup_2, elem_of_log_writes in Hw.
    specialize (Hx (w.1 - lstart (lg st) - 1)). lia. }
  split.
  - rewrite E; [apply (r_hdr _ _ Hr)|]. intros i. lia.
  - intros x Hx. apply E. intros i. unfold in_log in Hx. lia.
Qed.

(** The disk a transaction is to leave: the view of the kernel. *)
Lemma view_new st bs x :
  ready st bs ->
  bc_view (cache st) x = if decide (x ∈ bs) then bc_view (cache st) x else bc_disk (cache st) x.
Proof.
  intros Hr. destruct (decide (x ∈ bs)) as [|Hx]; [done|].
  destruct (r_quiet _ _ Hr) as [Hi Hh]. apply bc_view_clean; [done| |done].
  destruct (bc_dirty (cache st) x) eqn:E; [|done]. by apply (r_dirty _ _ Hr) in E.
Qed.

Lemma commit_split st bs m :
  bs <> [] -> (length bs < m)%nat ->
  exists k, take m (commit_writes st bs) =
    (log_writes (lstart (lg st)) 0 (bc_view (cache st)) bs ++ [(lstart (lg st), commit_head st)]) ++
    home_writes (bc_view (cache st)) (take k bs) ++
    (if (length bs + length bs + 1 <? m)%nat then [(lstart (lg st), clear_head st)] else []) /\
    ((length bs + length bs + 1 < m)%nat -> (length bs <= k)%nat).
Proof.
  intros Hne Hm. exists (m - length bs - 1)%nat. split; [|lia].
  assert (length (log_writes (lstart (lg st)) 0 (bc_view (cache st)) bs) = length bs) as Hl
    by apply length_imap.
  assert (length (home_writes (bc_view (cache st)) bs) = length bs) as Hl' by apply length_fmap.
  rewrite commit_writes_ne, app_assoc, take_app, take_ge by (rewrite ?length_app, ?Hl; simpl; lia || done).
  rewrite take_app, take_home_writes, !length_app, Hl, Hl'. simpl.
  replace (m - (length bs + 1))%nat with (m - length bs - 1)%nat by lia. do 2 f_equal.
  destruct (Nat.ltb_spec (length bs + length bs + 1) m).
  - rewrite take_ge; [done|simpl; lia].
  - replace (m - length bs - 1 - length bs)%nat with O by lia. done.
Qed.

Lemma ready_notin st bs x :
  ready st bs -> in_log (lstart (lg st)) (lsize (lg st)) x -> x ∉ bs.
Proof.
  intros Hr Hx Hin. apply (r_dirty _ _ Hr) in Hin.
  by rewrite (ready_log_clean st bs x Hr Hx) in Hin.
Qed.

Lemma ready_words st bs : ready st bs -> Forall (fun b => 0 <= b < 4294967296) bs.
Proof.
  intros Hr. pose proof (g_word _ _ _ (r_geom _ _ Hr)) as Hw.
  eapply Forall_impl; [apply (g_home _ _ _ (r_geom _ _ Hr))|]. intros b [Hb _]. lia.
Qed.

(** The log and its header, once both are on the disk. *)
Definition logged_disk (st : lst S) (bs : list Z) : Z -> block :=
  apply_writes (log_writes (lstart (lg st)) 0 (bc_view (cache st)) bs ++
                [(lstart (lg st), commit_head st)]) (bc_disk (cache st)).

Lemma logged_disk_head st bs : logged_disk st bs (lstart (lg st)) = commit_head st.
Proof.
  unfold logged_disk. rewrite apply_writes_snoc. unfold apply_write. simpl. by rewrite Z.eqb_refl.
Qed.

Lemma logged_disk_log st bs i b :
  bs !! i = Some b ->
  logged_disk st bs (lstart (lg st) + (0 + Z.of_nat i) + 1) = bc_view (cache st) b.
Proof.
  intros Hb. unfold logged_disk. rewrite apply_writes_app. simpl. unfold apply_write.
  cbn [fst snd]. destruct (Z.eqb_spec (lstart (lg st) + (0 + Z.of_nat i) + 1) (lstart (lg st))); [lia|].
  by apply log_writes_lookup.
Qed.

Lemma logged_disk_else st bs x :
  ready st bs -> ~ in_log (lstart (lg st)) (lsize (lg st)) x ->
  logged_disk st bs x = bc_disk (cache st) x.
Proof.
  intros Hr Hx. pose proof (g_len _ _ _ (r_geom _ _ Hr)).
  apply apply_writes_notin. unfold in_log in Hx. intros w [Hw|Hw]%elem_of_app.
  - apply elem_of_log_writes in Hw. lia.
  - apply list_elem_of_singleton in Hw as ->. simpl. lia.
Qed.

(** Header written, [k] blocks home, header not cleared: the log holds the
    transaction. *)
Lemma crash_mid st bs k :
  ready st bs ->
  let d := apply_writes (home_writes (bc_view (cache st)) (take k bs)) (logged_disk st bs) in
  hdr_list (lstart (lg st)) d = bs /\
  forall x, ~ in_log (lstart (lg st)) (lsize (lg st)) x ->
    recovered (lstart (lg st)) d x = bc_view (cache st) x.
Proof.
  intros Hr d. pose proof (r_geom _ _ Hr) as G. pose proof (g_len _ _ _ G) as Hlen.
  pose proof (g_size _ _ _ G) as Hsz.
  assert (forall x, x ∉ bs -> d x = logged_disk st bs x) as Hd.
  { intros x Hx. unfold d. rewrite home_writes_at, decide_False; [done|].
    intros (i & Hi & _)%elem_of_take. apply list_elem_of_lookup_2 in Hi. by apply Hx. }
  assert (hdr_list (lstart (lg st)) d = bs) as Hb.
  { destruct (r_quiet _ _ Hr) as [Hi _].
    apply (hdr_list_head _ _ (lg st) (bc_view (cache st) (lstart (lg st)))).
    - rewrite Hd, logged_disk_head; [done|]. apply (ready_notin st); [done|]. unfold in_log. lia.
    - by apply bc_view_ok.
    - apply (r_n _ _ Hr).
    - lia.
    - apply (r_lh _ _ Hr).
    - by apply (ready_words st). }
  split; [done|]. intros x Hx. unfold recovered. rewrite Hb.
  rewrite (overlay_home (bc_view (cache st))).
  - rewrite (view_new st bs x Hr). destruct (decide (x ∈ bs)); [done|].
    by rewrite Hd, logged_disk_else.
  - intros i b Hib. apply lookup_lt_Some in Hib as Hlt.
    rewrite Hd; [by apply logged_disk_log|].
    apply (ready_notin st); [done|]. unfold in_log. lia.
Qed.

Lemma crash_late st bs m :
  ready st bs -> bs <> [] -> (length bs < m)%nat ->
  let d := crash_disk st bs m in
  (hdr_list (lstart (lg st)) d = bs \/ hdr_list (lstart (lg st)) d = []) /\
  forall x, ~ in_log (lstart (lg st)) (lsize (lg st)) x ->
    recovered (lstart (lg st)) d x = bc_view (cache st) x.
Proof.
  intros Hr Hne Hm d. unfold d, crash_disk.
  destruct (commit_split st bs m Hne Hm) as (k & -> & Hk).
  rewrite apply_writes_app. fold (logged_disk st bs).
  destruct (Nat.ltb_spec (length bs + length bs + 1) m) as [Hlt|_].
  2: { rewrite app_nil_r. destruct (crash_mid st bs k Hr) as [Hb Hv]. split; [by left|exact Hv]. }
  rewrite (take_ge bs) by (by apply Hk). rewrite apply_writes_app. simpl.
  set (d1 := apply_writes _ _).
  assert (get32 (apply_write d1 (lstart (lg st), clear_head st) (lstart (lg st))) 0 = 0) as Hz.
  { unfold apply_write. simpl. rewrite Z.eqb_refl. unfold clear_head.
    destruct (r_quiet _ _ Hr) as [Hi _].
    destruct (block_ok_head (lg st) _ (bc_view_ok (cache st) (lstart (lg st)) Hi)) as [Hl _].
    rewrite get32_put32_eq; [done|lia|]. unfold commit_head. by rewrite Hl. }
  split; [right; by apply hdr_list_zero|]. intros x Hx. rewrite recovered_zero by done.
  pose proof (g_len _ _ _ (r_geom _ _ Hr)).
  unfold apply_write. simpl. destruct (Z.eqb_spec x (lstart (lg st))) as [->|].
  { destruct Hx. unfold in_log. lia. }
  unfold d1. rewrite home_writes_at, logged_disk_else by done. by rewrite <- view_new.
Qed.

(** ** Recovery *)

(** Two logs that differ at most in the header they hold. *)
Definition same_geom (l l' : log) : Prop :=
  lstart l' = lstart l /\ lsize l' = lsize l /\ ldev l' = ldev l /\
  outstanding l' = outstanding l /\ committing l' = committing l /\
  length (lh_block l') = length (lh_block l).

Lemma read_head_loop_ok n : forall i d s l,
  0 <= i -> i + Z.of_nat n <= Z.of_nat (length (lh_block l)) ->
  exists l', read_head_loop n i d {| cache := s; lg := l |} = Ret tt {| cache := s; lg := l' |} /\
    same_geom l l' /\ lh_n l' = lh_n l /\
    forall k, 0 <= k -> lh_at l' k =
      if (i <=? k) && (k <? i + Z.of_nat n) then i32 (get32 d (4 + 4 * k)) else lh_at l k.
Proof.
  induction n as [|n IH]; intros i d s l Hi Hl.
  { exists l. split_and!; try done. intros k Hk. range_cases; done. }
  destruct (IH (i + 1) d s (set_lh_block i (i32 (get32 d (4 + 4 * i))) l))
    as (l' & R & (G1 & G2 & G3 & G4 & G5 & G6) & Hn & Hat).
  { lia. }
  { simpl. rewrite length_insert. lia. }
  exists l'. split_and!; [exact R|split_and!; try done|done|].
  { rewrite G6. simpl. apply length_insert. }
  intros k Hk. rewrite Hat by done.
  assert (lh_at (set_lh_block i (i32 (get32 d (4 + 4 * i))) l) k =
          if i =? k then i32 (get32 d (4 + 4 * i)) else lh_at l k) as ->.
  { unfold lh_at. simpl. destruct (Z.eqb_spec i k) as [->|].
    - by rewrite list_lookup_insert_eq by lia.
    - by rewrite list_lookup_insert_ne by lia. }
  range_cases; subst; done.
Qed.

(** What recovery may find: an empty log or blocks outside it. *)
Definition hdr_ok (l : log) (nblocks : Z) (d : Z -> block) : Prop :=
  geom l nblocks (hdr_list (lstart l) d).

Lemma read_head_ok s l :
  quiet s -> (forall x, bc_dirty s x = false) -> (1 <= bc_avail s)%nat ->
  length (lh_block l) = Z.to_nat LOGSIZE -> hdr_ok l (bc_nblocks s) (bc_disk s) ->
  exists s' l', read_head {| cache := s; lg := l |} = Ret tt {| cache := s'; lg := l' |} /\
    quiet s' /\ bc_nblocks s' = bc_nblocks s /\ bc_trace s' = bc_trace s /\
    (forall x, bc_disk s' x = bc_disk s x) /\ (forall x, bc_dirty s' x = false) /\
    (bc_avail s <= bc_avail s')%nat /\ same_geom l l' /\
    Z.to_nat (lh_n l') = length (hdr_list (lstart l) (bc_disk s)) /\
    lh_from l' 0 (hdr_list (lstart l) (bc_disk s)).
Proof.
  intros [Hi Hh] Hd Ha Hlen [Gd Gs Ge Gw Gz Gl Gh].
  assert (0 <= lstart l < bc_nblocks s) as Hst by lia.
  assert (bc_view s (lstart l) = bc_disk s (lstart l)) as Hv by (by apply bc_view_clean).
  destruct (bc_bread_ok s (lstart l) Hi Hst (Hh _))
    as (b & s1 & R1 & I1 & N1 & T1 & H1 & D1 & V1 & P1 & A1); [right; lia|].
  assert (bc_held s1 (lstart l) = Some b) as Hb by (by rewrite H1, Z.eqb_refl).
  destruct (bc_held_data s1 _ b I1 Hb) as (Edata & _ & _). rewrite V1, Hv in Edata.
  set (d := bc_disk s (lstart l)) in *. set (n := i32 (get32 d 0)).
  assert (length (hdr_list (lstart l) (bc_disk s)) = Z.to_nat n) as Hn
    by (unfold hdr_list; by rewrite length_fmap, length_seqZ).
  destruct (read_head_loop_ok (Z.to_nat n) 0 d s1 (set_lh_n n l)) as (l' & R2 & G2 & N2 & Hat).
  { lia. }
  { simpl. lia. }
  destruct (bc_brelse_ok s1 (lstart l) b I1 Hb) as (s3 & R3 & I3 & N3 & T3 & H3 & D3 & V3 & P3 & A3).
  { right. rewrite V1, D1. done. }
  exists s3, l'. split_and!; [| | | | | | |done| |].
  - unfold read_head. unfold bind at 1, gets. cbn [lg]. rewrite Gd, u32_small by lia.
    rewrite (lc_bind _ _ _ _ _ _ R1). unfold data_of.
    rewrite (lc_bind _ _ s1 l (bc_data s1 b) s1), Edata by done.
    unfold bind at 1, upd_lg, modify. cbn [cache lg]. mstep R2.
    unfold lc. cbn [cache]. by rewrite R3.
  - split; [done|]. intros x. rewrite H3, H1, Hh. by destruct (x =? lstart l).
  - congruence.
  - congruence.
  - intros x. by rewrite D3, D1.
  - intros x. by rewrite P3, P1.
  - rewrite P1 in A3. rewrite Hd in A1, A3. lia.
  - rewrite N2. simpl. by rewrite Hn.
  - intros i x Hx. apply lookup_lt_Some in Hx as Hlt.
    assert (0 <= x < bc_nblocks s) as Hr by (by apply (Forall_lookup_1 _ _ _ _ Gh) in Hx as [? _]).
    unfold hdr_list in Hx. rewrite list_lookup_fmap, lookup_seqZ_lt in Hx by (fold d n; lia).
    injection Hx as <-. rewrite Hat by lia. fold d in Hr |- *.
    range_cases. rewrite i32_small; [done|lia].
Qed.

(** The disk writes of recovery, in order. *)
Definition recovery_writes (start : Z) (d : Z -> block) : list (Z * block) :=
  imap (fun i b => (b, d (start + (0 + Z.of_nat i) + 1))) (hdr_list start d) ++
  [(start, put32 (d start) 0 0)].

Lemma recover_from_log_ok s l :
  quiet s -> (forall x, bc_dirty s x = false) -> (2 <= bc_avail s)%nat ->
  length (lh_block l) = Z.to_nat LOGSIZE -> hdr_ok l (bc_nblocks s) (bc_disk s) ->
  let ws := recovery_writes (lstart l) (bc_disk s) in
  exists s' l', recover_from_log {| cache := s; lg := l |} = Ret tt {| cache := s'; lg := l' |} /\
    quiet s' /\ bc_nblocks s' = bc_nblocks s /\ bc_trace s' = bc_trace s ++ ws /\
    (forall x, bc_disk s' x = apply_writes ws (bc_disk s) x) /\
    (forall x, bc_dirty s' x = false) /\ same_geom l l' /\ lh_n l' = 0.
Proof.
  intros Hq Hd Ha Hlen Hok ws.
  destruct (read_head_ok s l Hq Hd ltac:(lia) Hlen Hok)
    as (s1 & l1 & R1 & Q1 & N1 & T1 & D1 & P1 & A1 & G1 & Hn & Hlh).
  assert (hdr_list (lstart l) (bc_disk s1) = hdr_list (lstart l) (bc_disk s)) as Hb.
  { unfold hdr_list. by rewrite D1. }
  set (bs := hdr_list (lstart l) (bc_disk s)) in *.
  destruct Hok as [Gd Gs Ge Gw Gz Gl Gh].
  destruct G1 as (E1 & E2 & E3 & E4 & E5 & E6).
  destruct (install_loop_ok bs 0 s1 l1) as (s2 & R2 & Q2 & N2 & T2 & D2 & V2 & P2 & A2);
    rewrite ?E1, ?E2, ?E3, ?N1; try done || lia.
  { split; [lia|]. right. lia. }
  assert (forall x, bc_view s1 x = bc_disk s x) as V1.
  { intros x. rewrite bc_view_clean by (apply Q1 || apply P1). apply D1. }
  assert (lstart l ∉ bs) as Hnst.
  { intros Hin. pose proof (proj1 (Forall_forall _ _) Gh _ Hin) as [_ Hx].
    apply Hx. unfold in_log. lia. }
  assert (forall x, bc_dirty s2 x = false) as P2'.
  { intros x. destruct (bc_dirty s2 x) eqn:E; [|done]. apply P2 in E as [E _]. by rewrite P1 in E. }
  destruct (write_head_ok s2 (set_lh_n 0 l1)) as (s3 & R3 & Q3 & N3 & T3 & D3 & V3 & P3 & A3).
  { done. } { simpl. congruence. } { simpl. rewrite E1. lia. } { lia. } { apply P2'. } { lia. }
  change (lstart (set_lh_n 0 l1)) with (lstart l1) in *. rewrite E1 in *.
  assert (bc_view s2 (lstart l) = bc_disk s (lstart l)) as Ev.
  { by rewrite V2, overlay_notin, V1. }
  rewrite Ev in T3, D3.
  change (head_block (set_lh_n 0 l1) (bc_disk s (lstart l)))
    with (put32 (bc_disk s (lstart l)) 0 0) in T3, D3.
  assert (imap (fun i b => (b, bc_view s1 (lstart l + (0 + Z.of_nat i) + 1))) bs =
          imap (fun i b => (b, bc_disk s (lstart l + (0 + Z.of_nat i) + 1))) bs) as Eim.
  { apply imap_ext. intros i x _. simpl. by rewrite V1. }
  exists s3, (set_lh_n 0 l1). split_and!; [|done|congruence| | | | |done].
  - unfold recover_from_log. mstep R1. unfold install_trans. unfold bind at 1, bind at 1, gets.
    cbn [lg]. by rewrite Hn, R2.
  - rewrite T3, T2, Eim, T1. unfold ws, recovery_writes. fold bs. by rewrite app_assoc.
  - intros x. rewrite D3. unfold ws, recovery_writes. rewrite apply_writes_snoc. fold bs.
    unfold apply_write. simpl. destruct (x =? lstart l); [done|].
    rewrite D2, overlay_writes, Eim. by apply apply_writes_ext.
  - intros x. by rewrite P3, P2'.
  - by split_and!.
Qed.

(** Recovery over an interrupted recovery *)

Lemma overlay_in bs : forall k f d d' x, x ∈ bs -> overlay bs k f d x = overlay bs k f d' x.
Proof.
  induction bs as [|b bs IH]; intros k f d d' x Hx; [by apply elem_of_nil in Hx|]. simpl.
  destruct (decide (x ∈ bs)) as [|Hn]; [by apply IH|]. rewrite !overlay_notin by done.
  apply elem_of_cons in Hx as [->|]; [|done]. by rewrite Z.eqb_refl.
Qed.

Lemma hdr_cleared start d : block_ok (d start) ->
  get32 (apply_write d (start, put32 (d start) 0 0) start) 0 = 0.
Proof.
  intros [Hl _]. unfold apply_write. simpl. rewrite Z.eqb_refl. apply get32_put32_eq; lia.
Qed.

Lemma recovered_writes start d x :
  x <> start -> recovered start d x = apply_writes (recovery_writes start d) d x.
Proof.
  intros Hx. unfold recovery_writes, recovered.
  rewrite apply_writes_snoc, overlay_writes. unfold apply_write. simpl.
  by destruct (Z.eqb_spec x start).
Qed.

Lemma recovery_prefix start size nb d m :
  home_ok start size nb (hdr_list start d) -> 0 <= start ->
  Z.of_nat (length (hdr_list start d)) < size -> block_ok (d start) ->
  let d' := apply_writes (take m (recovery_writes start d)) d in
  (hdr_list start d' = hdr_list start d \/ hdr_list start d' = []) /\
  forall x, ~ in_log start size x -> recovered start d' x = recovered start d x.
Proof.
  intros Hh Hst Hlen Hok d'. set (bs := hdr_list start d) in *.
  assert (forall x, x ∈ bs -> ~ in_log start size x) as Hout.
  { intros x Hx. by destruct (proj1 (Forall_forall _ _) Hh x Hx). }
  assert (length (imap (fun i b => (b, d (start + (0 + Z.of_nat i) + 1))) bs) = length bs) as Hl
    by apply length_imap.
  destruct (decide (m <= length bs)%nat) as [Hm|Hm].
  - assert (forall x, x ∉ bs -> d' x = d x) as Hd.
    { intros x Hx. apply apply_writes_notin. unfold recovery_writes. fold bs.
      rewrite take_app_le by lia. intros w (i & Hw & _)%elem_of_take Hwx.
      rewrite list_lookup_imap in Hw. destruct (bs !! i) eqn:E; simplify_eq/=.
      by apply list_elem_of_lookup_2 in E. }
    assert (hdr_list start d' = bs) as Hb.
    { unfold bs, hdr_list. rewrite Hd; [done|]. intros Hin. apply (Hout _ Hin). unfold in_log. lia. }
    split; [by left|]. intros x Hx. unfold recovered. rewrite Hb. fold bs.
    rewrite (overlay_ext bs 0 (fun k => d' (start + k + 1)) (fun k => d (start + k + 1)) d' d').
    + destruct (decide (x ∈ bs)); [by apply overlay_in|]. rewrite !overlay_notin by done. by apply Hd.
    + intros i Hi. apply Hd. intros Hin. apply (Hout _ Hin). unfold in_log. lia.
    + done.
  - assert (d' = apply_writes (recovery_writes start d) d) as Ed.
    { unfold d'. rewrite take_ge; [done|]. unfold recovery_writes. fold bs.
      rewrite length_app, Hl. simpl. lia. }
    assert (get32 (d' start) 0 = 0) as Hz.
    { rewrite Ed. unfold recovery_writes. rewrite apply_writes_snoc. unfold apply_write. simpl.
      rewrite Z.eqb_refl. apply get32_put32_eq; [lia|]. destruct Hok as [-> _]. lia. }
    split; [right; by apply hdr_list_zero|]. intros x Hx. rewrite recovered_zero, Ed by done.
    symmetry. apply recovered_writes. intros ->. apply Hx. unfold in_log. lia.
Qed.

(** A disk the kernel can start from: its superblock places the log at
    [start], and the header names home blocks only. *)
Record disk_ok (start size nb : Z) (d : Z -> block) : Prop := {
  dk_blocks : forall n, block_ok (d n);
  dk_start : i32 (sb_logstart (sb_decode (d 1))) = start;
  dk_size : i32 (sb_nlog (sb_decode (d 1))) = size;
  dk_sb : 1 < start;
  dk_end : start + size <= nb;
  dk_word : nb < 2147483648;
  dk_max : size <= LOGSIZE;
  dk_len : Z.of_nat (length (hdr_list start d)) < size;
  dk_home : home_ok start size nb (hdr_list start d);
  dk_notsb : 1 ∉ hdr_list start d;
}.

(** The static variable [log] of a kernel that starts. *)
Definition log0 : log :=
  {| lstart := 0; lsize := 0; outstanding := 0; committing := false; ldev := 0;
     lh_n := 0; lh_block := replicate (Z.to_nat LOGSIZE) 0 |}.

Lemma readsb_ok s l :
  quiet s -> (forall x, bc_dirty s x = false) -> (1 <= bc_avail s)%nat -> 1 < bc_nblocks s ->
  exists s', readsb ROOTDEV {| cache := s; lg := l |}
               = Ret (sb_decode (bc_disk s 1)) {| cache := s'; lg := l |} /\
    quiet s' /\ bc_nblocks s' = bc_nblocks s /\ bc_trace s' = bc_trace s /\
    (forall x, bc_disk s' x = bc_disk s x) /\ (forall x, bc_dirty s' x = false) /\
    (bc_avail s <= bc_avail s')%nat.
Proof.
  intros [Hi Hh] Hd Ha Hn.
  destruct (bc_bread_ok s 1 Hi ltac:(lia) (Hh _))
    as (b & s1 & R1 & I1 & N1 & T1 & H1 & D1 & V1 & P1 & A1); [right; lia|].
  assert (bc_held s1 1 = Some b) as Hb by (by rewrite H1, Z.eqb_refl).
  assert (bc_view s 1 = bc_disk s 1) as Hv by (by apply bc_view_clean).
  destruct (bc_held_data s1 _ b I1 Hb) as (Edata & _ & _). rewrite V1, Hv in Edata.
  destruct (bc_brelse_ok s1 1 b I1 Hb) as (s3 & R3 & I3 & N3 & T3 & H3 & D3 & V3 & P3 & A3).
  { right. by rewrite V1, D1. }
  exists s3. split_and!.
  - unfold readsb. rewrite (lc_bind _ _ _ _ _ _ R1). unfold data_of.
    rewrite (lc_bind _ _ s1 l (bc_data s1 b) s1), Edata by done.
    by rewrite (lc_bind _ _ _ _ _ _ R3).
  - split; [done|]. intros x. rewrite H3, H1, Hh. by destruct (x =? 1).
  - congruence.
  - congruence.
  - intros x. by rewrite D3, D1.
  - intros x. by rewrite P3, P1.
  - rewrite P1 in A3. rewrite Hd in A1, A3. lia.
Qed.

Lemma initlog_ok start size nb d :
  disk_ok start size nb d ->
  exists s' l', initlog ROOTDEV {| cache := bc_boot nb d; lg := log0 |}
                  = Ret tt {| cache := s'; lg := l' |} /\
    quiet s' /\ bc_nblocks s' = nb /\ bc_trace s' = recovery_writes start d /\
    (forall x, bc_disk s' x = apply_writes (recovery_writes start d) d x) /\
    (forall x, bc_dirty s' x = false) /\
    same_geom (set_geometry start size 1 log0) l' /\ lh_n l' = 0.
Proof.
  intros [K1 K2 K3 K4 K5 K6 K7 K8 K9 K10].
  destruct (bc_boot_ok nb d ltac:(lia) K1) as (I0 & N0 & T0 & H0 & D0 & P0 & A0).
  set (s0 := bc_boot nb d) in *.
  destruct (readsb_ok s0 log0 (conj I0 H0) P0 ltac:(lia) ltac:(lia))
    as (s1 & R1 & Q1 & N1 & T1 & D1 & P1 & A1).
  assert (hdr_list start (bc_disk s1) = hdr_list start d) as Hb
    by (unfold hdr_list; by rewrite D1, D0).
  assert (recovery_writes start (bc_disk s1) = recovery_writes start d) as Hw.
  { unfold recovery_writes. rewrite Hb, D1, D0. f_equal. apply imap_ext.
    intros i x _. simpl. by rewrite D1, D0. }
  destruct (recover_from_log_ok s1 (set_geometry start size 1 log0) Q1 P1)
    as (s2 & l2 & R2 & Q2 & N2 & T2 & D2 & P2 & G2 & L2).
  { lia. } { done. }
  { split; simpl; rewrite ?Hb, ?N1, ?N0; try done || lia. }
  simpl in T2, D2. rewrite Hw in T2, D2.
  exists s2, l2. split_and!; try done.
  - unfold initlog. change (BSIZE <=? 4 + 4 * LOGSIZE) with false. cbv iota. mstep R1.
    rewrite D0, K2, K3. exact R2.
  - congruence.
  - by rewrite T2, T1, T0.
  - intros x. rewrite D2. apply apply_writes_ext. intros y. by rewrite D1, D0.
Qed.

Lemma apply_writes_ok ws : forall d,
  (forall n, block_ok (d n)) -> Forall (fun w => block_ok w.2) ws ->
  forall n, block_ok (apply_writes ws d n).
Proof.
  induction ws as [|w ws IH]; intros d Hd Hw n; [done|].
  apply Forall_cons in Hw as [Hw Hws]. rewrite apply_writes_cons. apply IH; [|done].
  intros y. unfold apply_write. by destruct (y =? w.1).
Qed.

Lemma disk_ok_change start size nb d d' :
  disk_ok start size nb d -> (forall n, block_ok (d' n)) -> d' 1 = d 1 ->
  geom (set_geometry start size 1 log0) nb (hdr_list start d') -> 1 ∉ hdr_list start d' ->
  disk_ok start size nb d'.
Proof.
  intros [K1 K2 K3 K4 K5 K6 K7 K8 K9 K10] Hb H1 [G1 G2 G3 G4 G5 G6 G7] Hn.
  split; rewrite ?H1; done.
Qed.

Lemma disk_ok_geom start size nb d bs :
  disk_ok start size nb d -> home_ok start size nb bs -> Z.of_nat (length bs) < size ->
  geom (set_geometry start size 1 log0) nb bs.
Proof. intros [K1 K2 K3 K4 K5 K6 K7 K8 K9 K10] Hb Hl. split; simpl; try done || lia. Qed.

Lemma elem_of_recovery_writes start d w :
  w ∈ recovery_writes start d ->
  (w.1 ∈ hdr_list start d /\ exists k, w.2 = d k) \/ w = (start, put32 (d start) 0 0).
Proof.
  unfold recovery_writes. intros [Hw|Hw]%elem_of_app; [left|right].
  - apply elem_of_lookup_imap in Hw as (i & b & -> & Hb). apply list_elem_of_lookup_2 in Hb.
    split; [done|]. by eexists.
  - by apply list_elem_of_singleton in Hw.
Qed.

Lemma disk_ok_recovery start size nb d m :
  disk_ok start size nb d ->
  let d' := apply_writes (take m (recovery_writes start d)) d in
  disk_ok start size nb d' /\
  forall x, ~ in_log start size x -> recovered start d' x = recovered start d x.
Proof.
  intros Hk d'. pose proof Hk as [K1 K2 K3 K4 K5 K6 K7 K8 K9 K10].
  destruct (recovery_prefix start size nb d m K9 ltac:(lia) K8 (K1 _)) as [Hb Hrec].
  split; [|exact Hrec]. apply (disk_ok_change start size nb d); [done| | | |].
  - apply apply_writes_ok; [done|]. apply Forall_forall. intros w (i & Hw & _)%elem_of_take.
    apply list_elem_of_lookup_2, elem_of_recovery_writes in Hw as [[_ [k ->]]| ->]; [done|].
    by apply block_ok_put32.
  - apply apply_writes_notin. intros w (i & Hw & _)%elem_of_take H1.
    apply list_elem_of_lookup_2, elem_of_recovery_writes in Hw as [[Hw _]| ->].
    + by rewrite H1 in Hw.
    + simpl in H1. lia.
  - apply (disk_ok_geom _ _ _ d); [done| |]; fold d' in Hb; destruct Hb as [->| ->];
      try done || (simpl; lia). apply Forall_nil_2.
  - fold d' in Hb. destruct Hb as [->| ->]; [done|apply not_elem_of_nil].
Qed.

(** Any number of restarts, each of which crashes again after some of the disk
    writes of its recovery. *)
Inductive reboots (nb : Z) : (Z -> block) -> (Z -> block) -> Prop :=
  | reboots_none d : reboots nb d d
  | reboots_crash d m st d' :
      initlog ROOTDEV {| cache := bc_boot nb d; lg := log0 |} = Ret tt st ->
      reboots nb (apply_writes (take m (bc_trace (cache st))) d) d' ->
      reboots nb d d'.

Lemma reboots_recovered start size nb d d' :
  reboots nb d d' -> disk_ok start size nb d ->
  disk_ok start size nb d' /\
  forall x, ~ in_log start size x -> recovered start d' x = recovered start d x.
Proof.
  induction 1 as [|d m st d' Hrun _ IH]; intros Hk; [done|].
  destruct (initlog_ok _ _ _ _ Hk) as (s' & l' & R & _ & _ & T & _).
  rewrite R in Hrun. injection Hrun as <-. simpl in IH. rewrite T in IH.
  destruct (disk_ok_recovery start size nb d m Hk) as [Hk' Hrec].
  destruct (IH Hk') as [Hk2 Hrec2]. split; [done|]. intros x Hx. by rewrite Hrec2, Hrec.
Qed.

Lemma elem_of_commit_writes st bs w :
  quiet (cache st) -> w ∈ commit_writes st bs ->
  block_ok w.2 /\ (lstart (lg st) <= w.1 <= lstart (lg st) + Z.of_nat (length bs) \/ w.1 ∈ bs).
Proof.
  intros [Hi _] Hw. destruct (decide (bs = [])) as [->|Hne]; [by apply elem_of_nil in Hw|].
  assert (block_ok (commit_head st)) as Hok by (apply block_ok_head; by apply bc_view_ok).
  rewrite commit_writes_ne in Hw by done.
  apply elem_of_app in Hw as [Hw|[Hw|[Hw|Hw]%elem_of_app]%elem_of_app].
  - pose proof (elem_of_log_writes _ _ _ _ _ Hw) as Hr.
    apply elem_of_lookup_imap in Hw as (i & b & -> & _).
    split; [by apply bc_view_ok|left; simpl in *; lia].
  - apply list_elem_of_singleton in Hw as ->. split; [done|left; simpl; lia].
  - apply list_elem_of_fmap in Hw as (b & -> & Hb). split; [by apply bc_view_ok|by right].
  - apply list_elem_of_singleton in Hw as ->. split; [by apply block_ok_put32|left; simpl; lia].
Qed.

Lemma crash_disk_ok st bs m :
  ready st bs -> 1 ∉ bs ->
  disk_ok (lstart (lg st)) (lsize (lg st)) (bc_nblocks (cache st)) (bc_disk (cache st)) ->
  disk_ok (lstart (lg st)) (lsize (lg st)) (bc_nblocks (cache st)) (crash_disk st bs m).
Proof.
  intros Hr H1 Hk. pose proof (r_geom _ _ Hr) as G. pose proof (dk_sb _ _ _ _ Hk) as Hsb.
  pose proof (g_len _ _ _ G) as Hlen.
  assert (hdr_list (lstart (lg st)) (crash_disk st bs m) = bs \/
          hdr_list (lstart (lg st)) (crash_disk st bs m) = []) as Hb.
  { destruct (decide (m <= length bs)%nat) as [Hm|Hm].
    - destruct (crash_early st bs m Hr Hm) as [Hz _]. right. by apply hdr_list_zero.
    - destruct (decide (bs = [])) as [->|Hne].
      + right. apply hdr_list_zero. unfold crash_disk. simpl. rewrite take_nil.
        apply (r_hdr _ _ Hr).
      + destruct (crash_late st bs m Hr Hne ltac:(lia)) as [Hh _]. exact Hh. }
  apply (disk_ok_change _ _ _ (bc_disk (cache st))); [done| | | |].
  - apply apply_writes_ok; [apply (dk_blocks _ _ _ _ Hk)|]. apply Forall_forall.
    intros w (i & Hw & _)%elem_of_take. apply list_elem_of_lookup_2 in Hw.
    by apply (elem_of_commit_writes st bs) in Hw as [? _]; [|apply Hr].
  - apply apply_writes_notin. intros w (i & Hw & _)%elem_of_take Hw1.
    apply list_elem_of_lookup_2 in Hw.
    apply (elem_of_commit_writes st bs) in Hw as [_ [?|Hw]]; [lia| |apply Hr].
    by rewrite Hw1 in Hw.
  - apply (disk_ok_geom _ _ _ (bc_disk (cache st))); [done| |]; destruct Hb as [->| ->];
      try done || (simpl; lia); [apply G|apply Forall_nil_2].
  - destruct Hb as [->| ->]; [done|apply not_elem_of_nil].
Qed.

Lemma crash_recovered st bs m x :
  ready st bs -> ~ in_log (lstart (lg st)) (lsize (lg st)) x ->
  recovered (lstart (lg st)) (crash_disk st bs m) x =
  if decide (m <= length bs)%nat then bc_disk (cache st) x else bc_view (cache st) x.
Proof.
  intros Hr Hx. destruct (decide (m <= length bs)%nat) as [Hm|Hm].
  - destruct (crash_early st bs m Hr Hm) as [Hz E]. rewrite recovered_zero by done. by apply E.
  - destruct (decide (bs = [])) as [->|Hne].
    + unfold crash_disk. simpl. rewrite take_nil. simpl. rewrite recovered_zero by apply Hr.
      rewrite (view_new st [] x Hr). done.
    + by apply (crash_late st bs m Hr Hne ltac:(lia)).
Qed.

(** C1. Commit is atomic with respect to crashes. Let the machine stop after
    any number [m] of the disk writes of [commit], restart, and stop again any
    number of times in the middle of recovery. The next start runs [initlog]
    to its end, without a panic, clears the log, and leaves every block outside
    the log as it was before the transaction when [m] does not include the
    header, and as the transaction wrote it otherwise. *)
Theorem commit_crash_atomic st bs m st1 d :
  ready st bs -> 1 ∉ bs ->
  disk_ok (lstart (lg st)) (lsize (lg st)) (bc_nblocks (cache st)) (bc_disk (cache st)) ->
  commit st = Ret tt st1 ->
  reboots (bc_nblocks (cache st))
    (apply_writes (take m (drop (length (bc_trace (cache st))) (bc_trace (cache st1))))
       (bc_disk (cache st))) d ->
  exists st', initlog ROOTDEV {| cache := bc_boot (bc_nblocks (cache st)) d; lg := log0 |}
                = Ret tt st' /\
    lh_n (lg st') = 0 /\ get32 (bc_disk (cache st') (lstart (lg st))) 0 = 0 /\
    forall x, ~ in_log (lstart (lg st)) (lsize (lg st)) x ->
      bc_disk (cache st') x =
      if decide (m <= length bs)%nat then bc_disk (cache st) x else bc_view (cache st) x.
Proof.
  intros Hr H1 Hk Hc Hb. destruct (commit_ok st bs Hr) as (st2 & R & C).
  rewrite R in Hc. injection Hc as ->. destruct C as (_ & _ & _ & T & _).
  rewrite T, drop_app_length in Hb.
  change (apply_writes _ _) with (crash_disk st bs m) in Hb.
  pose proof (crash_disk_ok st bs m Hr H1 Hk) as Hk1.
  destruct (reboots_recovered _ _ _ _ _ Hb Hk1) as [Hk2 Hrec].
  destruct (initlog_ok _ _ _ _ Hk2) as (s' & l' & R' & _ & _ & _ & D' & _ & _ & L').
  exists {| cache := s'; lg := l' |}. cbn [cache lg]. split_and!; [done|done| |].
  - rewrite D'. unfold recovery_writes. rewrite apply_writes_snoc. unfold apply_write. simpl.
    rewrite Z.eqb_refl. apply get32_put32_eq; [lia|].
    destruct (dk_blocks _ _ _ _ Hk2 (lstart (lg st))) as [-> _]. lia.
  - intros x Hx. rewrite D', <- recovered_writes, Hrec, crash_recovered; try done.
    intros ->. apply Hx. pose proof (g_len _ _ _ (r_geom _ _ Hr)). unfold in_log. lia.
Qed.

(** ** Transactions in progress *)

(** The log while system calls run: the blocks [bs] written so far are in the
    header and pinned, and nothing else is; the header on the disk is empty. *)
Record in_txn (st : lst S) (bs : list Z) : Prop := {
  t_inv : bc_inv (cache st);
  t_geom : geom (lg st) (bc_nblocks (cache st)) bs;
  t_n : lh_n (lg st) = Z.of_nat (length bs);
  t_lh : lh_from (lg st) 0 bs;
  t_nodup : NoDup bs;
  t_len : length (lh_block (lg st)) = Z.to_nat LOGSIZE;
  t_dirty : forall x, bc_dirty (cache st) x = true <-> x ∈ bs;
  t_hdr : get32 (bc_disk (cache st) (lstart (lg st))) 0 = 0;
}.

Lemma in_txn_ready st bs :
  in_txn st bs -> (forall x, bc_held (cache st) x = None) -> ready st bs.
Proof. intros [T1 T2 T3 T4 T5 T6 T7 T8] Hh. by split. Qed.

Lemma log_find_spec l (n : Z) bs : forall k,
  0 <= n < 4294967296 -> lh_from l k bs -> Forall (fun b => 0 <= b < 4294967296) bs ->
  log_find (length bs) k l n =
  match list_find (fun b => b = n) bs with
  | Some (i, _) => k + Z.of_nat i
  | None => k + Z.of_nat (length bs)
  end.
Proof.
  induction bs as [|b bs IH]; intros k Hn Hlh Hw; simpl; [lia|].
  apply lh_from_cons in Hlh as [Hat Hlh]. apply Forall_cons in Hw as [Hb Hw].
  rewrite Hat, u32_small by done. destruct (Z.eqb_spec b n) as [->|Hne].
  - rewrite decide_True by done. lia.
  - rewrite decide_False by done. rewrite IH by done.
    destruct (list_find _ bs) as [[i x]|]; simpl; lia.
Qed.

(** The header after [log_write]: absorbed, or appended. *)
Definition absorb (bs : list Z) (n : Z) : list Z := if decide (n ∈ bs) then bs else bs ++ [n].

Lemma lh_from_set l i v bs bs' :
  (i < length (lh_block l))%nat -> (length bs' <= length (lh_block l))%nat -> bs' !! i = Some v ->
  (forall j, j <> i -> bs' !! j = bs !! j) -> lh_from l 0 bs ->
  lh_from (set_lh_block (Z.of_nat i) v l) 0 bs'.
Proof.
  intros Hi Hl Hv Hj Hlh k b Hb. unfold lh_at. simpl. rewrite !Z.add_0_l, !Nat2Z.id.
  destruct (decide (k = i)) as [->|].
  - rewrite list_lookup_insert_eq by done. simplify_eq. done.
  - rewrite list_lookup_insert_ne by done. rewrite Hj in Hb by done.
    specialize (Hlh k b Hb). unfold lh_at in Hlh.
    by rewrite Z.add_0_l, Nat2Z.id in Hlh.
Qed.

Lemma same_geom_set l i v : same_geom l (set_lh_block i v l).
Proof. split_and!; try done. simpl. apply length_insert. Qed.

(** The header part of [log_write]. *)
Definition log_append (n : Z) (l : log) : log :=
  let i := log_find (Z.to_nat (lh_n l)) 0 l n in
  let l1 := set_lh_block i (i32 n) l in
  if i =? lh_n l then set_lh_n (lh_n l1 + 1) l1 else l1.

Lemma log_append_ok l nb bs n :
  geom l nb bs -> lh_n l = Z.of_nat (length bs) -> lh_from l 0 bs ->
  length (lh_block l) = Z.to_nat LOGSIZE -> Z.of_nat (length bs) < lsize l - 1 ->
  0 <= n < nb -> ~ in_log (lstart l) (lsize l) n ->
  let l' := log_append n l in
  same_geom l l' /\ geom l' nb (absorb bs n) /\ lh_n l' = Z.of_nat (length (absorb bs n)) /\
  lh_from l' 0 (absorb bs n).
Proof.
  intros [Gd Gs Ge Gw Gz Gl Gh] Hn Hlh Hlen Hroom Hnb Hnl. unfold log_append.
  assert (Forall (fun b => 0 <= b < 4294967296) bs) as Hw.
  { eapply Forall_impl; [apply Gh|]. intros b [? _]. lia. }
  rewrite Hn, Nat2Z.id, log_find_spec by (done || lia). unfold absorb. rewrite i32_small by lia.
  destruct (list_find (fun b => b = n) bs) as [[i x]|] eqn:E.
  - apply list_find_Some in E as (Ei & -> & _). apply list_elem_of_lookup_2 in Ei as Hin.
    apply lookup_lt_Some in Ei as Hlt. rewrite decide_True by done.
    destruct (Z.eqb_spec (0 + Z.of_nat i) (Z.of_nat (length bs))); [lia|].
    split_and!; [apply same_geom_set|done|done|].
    apply (lh_from_set l i n bs bs); done || lia.
  - apply list_find_None in E. rewrite decide_False.
    2: { intros Hin. by apply (proj1 (Forall_forall _ _) E n Hin). }
    rewrite Z.eqb_refl. split_and!.
    + apply (same_geom_set l).
    + split; simpl; try done; [rewrite length_app; simpl; lia|].
      apply Forall_app. split; [done|]. by apply Forall_singleton.
    + simpl. rewrite length_app, Hn. simpl. lia.
    + change (lh_from (set_lh_block (Z.of_nat (length bs)) n l) 0 (bs ++ [n])).
      apply (lh_from_set l (length bs) n bs); [lia|rewrite length_app; simpl; lia| | |done].
      * by rewrite lookup_app_r, Nat.sub_diag by lia.
      * intros j Hj. destruct (decide (j < length bs)%nat); [by rewrite lookup_app_l|].
        rewrite !lookup_ge_None_2; [done|lia|]. rewrite length_app. simpl. lia.
Qed.

Lemma NoDup_absorb bs n : NoDup bs -> NoDup (absorb bs n).
Proof.
  intros H. unfold absorb. destruct (decide (n ∈ bs)); [done|]. apply NoDup_app.
  split_and!; [done| |apply NoDup_singleton].
  intros x Hx ->%list_elem_of_singleton. done.
Qed.

Lemma elem_of_absorb bs n x : x ∈ absorb bs n <-> x = n \/ x ∈ bs.
Proof.
  unfold absorb. destruct (decide (n ∈ bs)).
  - split; [by right|]. by intros [->|].
  - rewrite elem_of_app, list_elem_of_singleton. tauto.
Qed.

Lemma log_write_run st b n :
  bc_blockno (cache st) b = n -> 1 <= outstanding (lg st) ->
  lh_n (lg st) < LOGSIZE -> lh_n (lg st) < lsize (lg st) - 1 ->
  log_write b st = Ret tt {| cache := bc_pin b (cache st); lg := log_append n (lg st) |}.
Proof.
  intros <- Ho H1 H2. destruct st as [s l]. simpl in *.
  unfold log_write, bind at 1, gets at 1. cbn [lg].
  destruct (Z.leb_spec LOGSIZE (lh_n l)); [lia|].
  destruct (Z.leb_spec (lsize l - 1) (lh_n l)); [lia|].
  destruct (Z.ltb_spec (outstanding l) 1); [lia|]. cbn [orb].
  unfold log_append, bind, lc, gets, upd_lg, modify, ret. cbn [cache lg].
  by destruct (_ =? lh_n l).
Qed.

(** What a transaction in progress never changes. *)
Definition frame (st st' : lst S) : Prop :=
  lstart (lg st') = lstart (lg st) /\ lsize (lg st') = lsize (lg st) /\
  bc_nblocks (cache st') = bc_nblocks (cache st) /\
  outstanding (lg st') = outstanding (lg st) /\ committing (lg st') = committing (lg st).

(** [log_write] on a locked buffer inside a transaction with room left
    records the buffer's block in the header exactly once (log absorption) and
    pins it; contents, disk and locks are untouched. *)
Lemma log_write_absorbs st bs b n :
  in_txn st bs -> bc_held (cache st) n = Some b ->
  ~ in_log (lstart (lg st)) (lsize (lg st)) n ->
  1 <= outstanding (lg st) -> Z.of_nat (length bs) < lsize (lg st) - 1 ->
  exists st', log_write b st = Ret tt st' /\ in_txn st' (absorb bs n) /\
    frame st st' /\
    bc_trace (cache st') = bc_trace (cache st) /\
    (forall x, bc_view (cache st') x = bc_view (cache st) x) /\
    (forall x, bc_disk (cache st') x = bc_disk (cache st) x) /\
    (forall x, bc_held (cache st') x = bc_held (cache st) x).
Proof.
  intros [T1 T2 T3 T4 T5 T6 T7 T8] Hb Hnl Ho Hroom.
  pose proof (g_size _ _ _ T2) as Hsz.
  destruct (bc_held_data _ _ _ T1 Hb) as (_ & Hno & Hr).
  destruct (bc_pin_ok _ _ _ T1 Hb) as (I1 & N1 & T1' & H1 & D1 & V1 & P1 & A1).
  destruct (log_append_ok (lg st) _ bs n T2 T3 T4 T6 Hroom Hr Hnl)
    as ((E1 & E2 & E3 & E4 & E5 & E6) & G & En & El).
  exists {| cache := bc_pin b (cache st); lg := log_append n (lg st) |}.
  split; [apply log_write_run; done || lia|]. cbn [cache lg]. split_and!; try done.
  split; cbn [cache lg]; try done.
  - by rewrite N1.
  - by apply NoDup_absorb.
  - congruence.
  - intros x. rewrite P1, elem_of_absorb, orb_true_iff, Z.eqb_eq, T7. done.
  - by rewrite D1, E1.
Qed.

Lemma in_txn_log_clean st bs x :
  in_txn st bs -> in_log (lstart (lg st)) (lsize (lg st)) x -> x ∉ bs.
Proof.
  intros Ht Hx Hin. pose proof (g_home _ _ _ (t_geom _ _ Ht)) as Hh.
  by destruct (proj1 (Forall_forall _ _) Hh x Hin).
Qed.

(** The state of a transaction does not depend on locks and contents. *)
Lemma in_txn_cache st bs s' :
  in_txn st bs -> bc_inv s' -> bc_nblocks s' = bc_nblocks (cache st) ->
  (forall x, bc_disk s' x = bc_disk (cache st) x) ->
  (forall x, bc_dirty s' x = bc_dirty (cache st) x) ->
  in_txn {| cache := s'; lg := lg st |} bs.
Proof.
  intros [T1 T2 T3 T4 T5 T6 T7 T8] Hi Hn Hd Hp. split; cbn [cache lg]; try done.
  - by rewrite Hn.
  - intros x. by rewrite Hp.
  - by rewrite Hd.
Qed.

(** The update pattern of the file system, run by the cache and the log,
    is an update of one block of the kernel's view inside the transaction; the
    disk does not change and the block is recorded once. *)
Lemma update_block_logs st bs n f :
  in_txn st bs -> bc_held (cache st) n = None -> 0 <= n < bc_nblocks (cache st) ->
  ~ in_log (lstart (lg st)) (lsize (lg st)) n ->
  1 <= outstanding (lg st) -> Z.of_nat (length bs) < lsize (lg st) - 1 ->
  n ∈ bs \/ (0 < bc_avail (cache st))%nat -> (forall d, block_ok d -> block_ok (f d)) ->
  exists st', update_block ROOTDEV n f st = Ret tt st' /\ in_txn st' (absorb bs n) /\
    frame st st' /\
    (forall x, bc_view (cache st') x =
       if x =? n then f (bc_view (cache st) n) else bc_view (cache st) x) /\
    (forall x, bc_disk (cache st') x = bc_disk (cache st) x) /\
    (forall x, bc_held (cache st') x = bc_held (cache st) x).
Proof.
  intros Ht Hh Hn Hnl Ho Hroom Hav Hf. destruct st as [s l]. cbn [cache lg] in *.
  pose proof (t_inv _ _ Ht) as Hi. cbn [cache] in Hi.
  destruct (bc_bread_ok s n Hi Hn Hh) as (b & s1 & R1 & I1 & N1 & T1 & H1 & D1 & V1 & P1 & A1).
  { destruct Hav as [Hin|?]; [left; by apply (t_dirty _ _ Ht)|by right]. }
  assert (bc_held s1 n = Some b) as Hb by (by rewrite H1, Z.eqb_refl).
  destruct (bc_held_data s1 _ b I1 Hb) as (Edata & _ & _). rewrite V1 in Edata.
  destruct (bc_store_ok s1 n b (f (bc_view s n)) I1 Hb (Hf _ (bc_view_ok s n Hi)))
    as (I2 & N2 & T2 & H2 & D2 & V2 & P2 & A2).
  set (s2 := bc_store b (f (bc_view s n)) s1) in *.
  assert (in_txn {| cache := s2; lg := l |} bs) as Ht2.
  { apply (in_txn_cache {| cache := s; lg := l |}); cbn [cache];
      [done|done|by rewrite N2|intros x; by rewrite D2, D1|intros x; by rewrite P2, P1]. }
  destruct (log_write_absorbs _ bs b n Ht2) as (st3 & R3 & Ht3 & O3 & _ & V3 & D3 & H3);
    cbn [cache lg] in *; try done; [by rewrite H2|].
  destruct st3 as [s3 l3]. cbn [cache lg] in *.
  destruct (bc_brelse_ok s3 n b (t_inv _ _ Ht3)) as (s4 & R4 & I4 & N4 & T4 & H4 & D4 & V4 & P4 & A4).
  { by rewrite H3, H2. }
  { left. apply (t_dirty _ _ Ht3). apply elem_of_absorb. by left. }
  destruct O3 as (O1 & O2 & O3 & O4 & O5). cbn [cache lg] in *.
  exists {| cache := s4; lg := l3 |}. cbn [cache lg].
  split_and!; [| |split_and!; simpl; congruence| | |].
  - unfold update_block. rewrite (lc_bind _ _ _ _ _ _ R1). unfold data_of, store_data.
    rewrite (lc_bind _ _ s1 l (bc_data s1 b) s1), Edata by done.
    rewrite (lc_bind _ _ s1 l tt s2) by done. mstep R3.
    exact (lc_run (bc_brelse b) {| cache := s3; lg := l3 |} _ _ R4).
  - by apply (in_txn_cache {| cache := s3; lg := l3 |}).
  - intros x. by rewrite V4, V3, V2, V1.
  - intros x. by rewrite D4, D3, D2, D1.
  - intros x. rewrite H4, H3, H2, H1. destruct (Z.eqb_spec x n) as [->|]; done.
Qed.

(** [log_write] panics exactly when the header is full for LOGSIZE or for
    the log on the disk, or when no transaction is open. *)
Theorem log_write_panics st b :
  (exists msg, log_write b st = Panic msg) <->
  LOGSIZE <= lh_n (lg st) \/ lsize (lg st) - 1 <= lh_n (lg st) \/ outstanding (lg st) < 1.
Proof.
  split.
  - intros [msg E]. destruct (decide (LOGSIZE <= lh_n (lg st) \/ lsize (lg st) - 1 <= lh_n (lg st)
      \/ outstanding (lg st) < 1)) as [|Hn]; [done|].
    by rewrite (log_write_run st b _ eq_refl) in E by lia.
  - intros H. unfold log_write, bind at 1, gets at 1.
    destruct (Z.leb_spec LOGSIZE (lh_n (lg st))); [by eexists|].
    destruct (Z.leb_spec (lsize (lg st) - 1) (lh_n (lg st))); [by eexists|].
    destruct (Z.ltb_spec (outstanding (lg st)) 1); [by eexists|lia].
Qed.

Lemma ready_same st st' bs :
  cache st' = cache st -> lstart (lg st') = lstart (lg st) -> lsize (lg st') = lsize (lg st) ->
  ldev (lg st') = ldev (lg st) -> lh_n (lg st') = lh_n (lg st) ->
  lh_block (lg st') = lh_block (lg st) -> ready st bs -> ready st' bs.
Proof.
  intros Ec E1 E2 E3 En Eb [R1 [Gd Gs Ge Gw Gz Gl Gh] R3 R4 R5 R6].
  split; rewrite ?Ec; try done.
  - split; rewrite ?E1, ?E2, ?E3; done.
  - by rewrite En.
  - intros i b Hb. unfold lh_at. rewrite Eb. by apply R4.
  - by rewrite E1.
Qed.

(** The header on the disk is empty after a commit. *)
Lemma committed_hdr st bs st' :
  ready st bs -> committed st bs st' -> get32 (bc_disk (cache st') (lstart (lg st))) 0 = 0.
Proof.
  intros Hr (_ & _ & _ & _ & D & _). rewrite D.
  destruct (decide (bs = [])) as [->|Hne]; [apply Hr|].
  rewrite commit_writes_ne, !app_assoc, apply_writes_snoc by done.
  unfold apply_write. simpl. rewrite Z.eqb_refl. destruct (r_quiet _ _ Hr) as [Hi _].
  destruct (block_ok_head (lg st) _ (bc_view_ok (cache st) (lstart (lg st)) Hi)) as [Hl _].
  apply get32_put32_eq; [lia|]. unfold commit_head. by rewrite Hl.
Qed.

(** The whole disk after a commit, outside the log. *)
Lemma committed_disk st bs st' x :
  ready st bs -> committed st bs st' -> ~ in_log (lstart (lg st)) (lsize (lg st)) x ->
  bc_disk (cache st') x = bc_view (cache st) x.
Proof.
  intros Hr (_ & [Hi Hh] & _ & _ & _ & V & P) Hx.
  rewrite <- V by done. symmetry. by apply bc_view_clean.
Qed.

(** When the last system call of a transaction ends, [end_op] writes the
    whole transaction out: on return every block outside the log is on the disk
    as the kernel sees it, nothing is pinned, and an empty transaction is open
    to the next [begin_op]. *)
Lemma end_op_commits st bs :
  in_txn st bs -> (forall x, bc_held (cache st) x = None) ->
  outstanding (lg st) = 1 -> committing (lg st) = false ->
  exists st', end_op st = Ret tt st' /\ in_txn st' [] /\
    outstanding (lg st') = 0 /\ committing (lg st') = false /\
    (forall x, bc_held (cache st') x = None) /\
    forall x, ~ in_log (lstart (lg st)) (lsize (lg st)) x ->
      bc_disk (cache st') x = bc_view (cache st) x /\
      bc_view (cache st') x = bc_view (cache st) x.
Proof.
  intros Ht Hh Ho Hc. set (st1 := {| cache := cache st;
    lg := set_committing true (set_outstanding (outstanding (lg st) - 1) (lg st)) |}).
  assert (ready st1 bs) as Hr.
  { apply (ready_same st); try done. by apply in_txn_ready. }
  destruct (commit_ok st1 bs Hr) as (st2 & R2 & C2).
  pose proof (committed_hdr _ _ _ Hr C2) as Hz.
  pose proof (fun x => committed_disk st1 bs st2 x Hr C2) as Hd.
  destruct C2 as (El & [Qi Qh] & N & _ & _ & V & P).
  exists {| cache := cache st2; lg := set_committing false (lg st2) |}. split_and!; cbn [cache lg].
  - unfold end_op, bind at 1, upd_lg at 1, modify. unfold bind at 1, gets. cbn [lg committing set_outstanding outstanding].
    rewrite Hc, Ho. change (1 - 1 =? 0) with true. cbv iota.
    unfold bind at 1, upd_lg at 1, modify. cbn [cache lg]. unfold bind at 1.
    unfold st1 in R2. rewrite Ho in R2. by rewrite R2.
  - destruct Ht as [T1 [Gd Gs Ge Gw Gz Gl Gh] T3 T4 T5 T6 T7 T8].
    split; cbn [cache lg]; rewrite ?El; try done.
    + split; simpl; rewrite ?N; try done; [lia|apply Forall_nil_2].
    + apply NoDup_nil_2.
    + intros x. rewrite P. split; [done|]. by intros ?%elem_of_nil.
  - by rewrite El; simpl; rewrite Ho.
  - done.
  - done.
  - intros x Hx. split; [by apply Hd|by apply V].
Qed.

(** [begin_op] admits a system call exactly when no commit is under way and
    the header, together with ten blocks for every admitted call and for the
    new one, stays within LOGSIZE; otherwise it sleeps on the log and changes
    nothing. *)
Lemma begin_op_admits st :
  begin_op st =
  if negb (committing (lg st)) &&
     (lh_n (lg st) + (outstanding (lg st) + 1) * MAXOPBLOCKS <=? LOGSIZE)
  then Ret tt {| cache := cache st; lg := set_outstanding (outstanding (lg st) + 1) (lg st) |}
  else Sleep ("log"%string, 0) st.
Proof.
  unfold begin_op, bind, gets, upd_lg, modify, sleep_on.
  destruct (committing (lg st)); [done|]. cbn [negb andb].
  destruct (Z.ltb_spec LOGSIZE (lh_n (lg st) + (outstanding (lg st) + 1) * MAXOPBLOCKS)),
    (Z.leb_spec (lh_n (lg st) + (outstanding (lg st) + 1) * MAXOPBLOCKS) LOGSIZE); try done; lia.
Qed.

Lemma in_txn_outstanding st bs v :
  in_txn st bs -> in_txn {| cache := cache st; lg := set_outstanding v (lg st) |} bs.
Proof. intros [? [? ? ? ? ? ? ?] ? ? ? ? ? ?]. by split; [|split|..]. Qed.

(** A sequence of updates, as the code runs it and as it is meant. *)
Fixpoint run_updates (us : list (Z * (block -> block))) : M (lst S) unit :=
  match us with
  | [] => ret tt
  | (n, f) :: us' => update_block ROOTDEV n f ;;; run_updates us'
  end.

Definition apply_update (d : Z -> block) (u : Z * (block -> block)) : Z -> block :=
  fun x => if x =? u.1 then u.2 (d u.1) else d x.
Definition apply_updates (us : list (Z * (block -> block))) (d : Z -> block) : Z -> block :=
  foldl apply_update d us.

Lemma apply_updates_ext us : forall d d' x,
  (forall y, d y = d' y) -> apply_updates us d x = apply_updates us d' x.
Proof.
  induction us as [|u us IH]; intros d d' x Hd; [apply Hd|]. apply IH.
  intros y. unfold apply_update. by rewrite !Hd.
Qed.

(** Updates of home blocks that keep blocks well-formed. *)
Definition update_ok (l : log) (nb : Z) (u : Z * (block -> block)) : Prop :=
  0 <= u.1 < nb /\ ~ in_log (lstart l) (lsize l) u.1 /\ forall d, block_ok d -> block_ok (u.2 d).

Lemma quiet_avail st bs :
  in_txn st bs -> (forall x, bc_held (cache st) x = None) ->
  (30 <= bc_avail (cache st) + length bs)%nat.
Proof.
  intros T H. apply (bc_avail_bound (cache st) bs (t_inv _ _ T)).
  intros n [Hd|[i Hs]]; [by apply (t_dirty _ _ T)|by rewrite H in Hs].
Qed.

Lemma length_absorb bs n : (length (absorb bs n) <= length bs + 1)%nat.
Proof. unfold absorb. destruct (decide _); rewrite ?length_app; simpl; lia. Qed.

Lemma run_updates_ok us : forall st bs,
  in_txn st bs -> (forall x, bc_held (cache st) x = None) -> 1 <= outstanding (lg st) ->
  Forall (update_ok (lg st) (bc_nblocks (cache st))) us ->
  Z.of_nat (length bs) + Z.of_nat (length us) < lsize (lg st) ->
  exists st', run_updates us st = Ret tt st' /\ in_txn st' (foldl absorb bs us.*1) /\
    (forall x, bc_held (cache st') x = None) /\
    lstart (lg st') = lstart (lg st) /\ lsize (lg st') = lsize (lg st) /\
    bc_nblocks (cache st') = bc_nblocks (cache st) /\
    outstanding (lg st') = outstanding (lg st) /\ committing (lg st') = committing (lg st) /\
    (forall x, bc_disk (cache st') x = bc_disk (cache st) x) /\
    forall x, bc_view (cache st') x = apply_updates us (bc_view (cache st)) x.
Proof.
  induction us as [|[n f] us IH]; intros st bs Ht Hh Ho Hus Hlen.
  { exists st. done. }
  apply Forall_cons in Hus as [(Hn & Hnl & Hf) Hus]. cbn [length] in Hlen. cbn [fst snd] in *.
  pose proof (quiet_avail st bs Ht Hh) as Ha. pose proof (g_size _ _ _ (t_geom _ _ Ht)) as Hsz.
  destruct (update_block_logs st bs n f Ht (Hh n) Hn Hnl Ho)
    as (st1 & R1 & T1 & (E1 & E2 & E3 & E4 & E5) & V1 & D1 & H1); [lia|right; lia|done|].
  destruct (IH st1 (absorb bs n) T1) as (st2 & R2 & T2 & H2 & F1 & F2 & F3 & F4 & F5 & D2 & V2).
  { intros x. by rewrite H1. } { lia. } { unfold update_ok. by rewrite E1, E2, E3. }
  { pose proof (length_absorb bs n). lia. }
  exists st2.
  split_and!; [|done|done|congruence|congruence|congruence|congruence|congruence| |].
  - simpl. by mstep R1.
  - intros x. by rewrite D2, D1.
  - intros x. rewrite V2. cbn [apply_updates foldl]. apply apply_updates_ext.
    intros y. by rewrite V1.
Qed.

(** C2. A system call that runs alone implements an atomic batch of updates on
    the disk: [begin_op], any updates through the cache and the log, and
    [end_op] return, and on return the disk outside the log is the old one with
    the updates applied in order, with the log empty again. *)
Theorem transaction_refines st us :
  in_txn st [] -> (forall x, bc_held (cache st) x = None) ->
  outstanding (lg st) = 0 -> committing (lg st) = false ->
  Forall (update_ok (lg st) (bc_nblocks (cache st))) us ->
  Z.of_nat (length us) < lsize (lg st) ->
  exists st', (begin_op ;;; run_updates us ;;; end_op) st = Ret tt st' /\ in_txn st' [] /\
    (forall x, bc_held (cache st') x = None) /\
    outstanding (lg st') = 0 /\ committing (lg st') = false /\
    forall x, ~ in_log (lstart (lg st)) (lsize (lg st)) x ->
      bc_disk (cache st') x = apply_updates us (bc_disk (cache st)) x.
Proof.
  intros Ht Hh Ho Hc Hus Hlen.
  set (st1 := {| cache := cache st; lg := set_outstanding (outstanding (lg st) + 1) (lg st) |}).
  assert (begin_op st = Ret tt st1) as R1.
  { unfold st1. by rewrite begin_op_admits, Hc, Ho, (t_n _ _ Ht). }
  assert (in_txn st1 []) as T1 by (by apply (in_txn_outstanding st [])).
  destruct (run_updates_ok us st1 [] T1 Hh)
    as (st2 & R2 & T2 & H2 & F1 & F2 & F3 & F4 & F5 & D2 & V2).
  { simpl. lia. } { done. } { simpl. lia. }
  destruct (end_op_commits st2 _ T2 H2) as (st3 & R3 & T3 & O3 & C3 & H3 & D3).
  { rewrite F4. simpl. lia. } { by rewrite F5. }
  exists st3. split_and!; try done.
  - mstep R1. by mstep R2.
  - intros x Hx. destruct (D3 x) as [-> _]; [by rewrite F1, F2|]. rewrite V2.
    apply apply_updates_ext. intros y.
    apply bc_view_clean; [apply Ht| |apply Hh].
    destruct (bc_dirty (cache st) y) eqn:E; [|done]. by apply (t_dirty _ _ Ht), elem_of_nil in E.
Qed.

Lemma disk_ok_ext start size nb d d' :
  (forall x, d' x = d x) -> disk_ok start size nb d -> disk_ok start size nb d'.
Proof.
  intros E [K1 K2 K3 K4 K5 K6 K7 K8 K9 K10].
  assert (hdr_list start d' = hdr_list start d) as Hb by (unfold hdr_list; by rewrite E).
  split; rewrite ?Hb, ?E; try done. intros n. by rewrite E.
Qed.

(** The empty transaction [initlog] leaves. *)
Lemma initlog_txn start size nb d :
  disk_ok start size nb d ->
  exists st, initlog ROOTDEV {| cache := bc_boot nb d; lg := log0 |} = Ret tt st /\
    in_txn st [] /\ (forall x, bc_held (cache st) x = None) /\
    lstart (lg st) = start /\ lsize (lg st) = size /\ bc_nblocks (cache st) = nb /\
    outstanding (lg st) = 0 /\ committing (lg st) = false /\
    disk_ok start size nb (bc_disk (cache st)) /\
    forall x, x <> start -> bc_disk (cache st) x = recovered start d x.
Proof.
  intros Hk. destruct (initlog_ok _ _ _ _ Hk)
    as (s & l & R & [Qi Qh] & N & _ & D & P & (E1 & E2 & E3 & E4 & E5 & E6) & L).
  exists {| cache := s; lg := l |}.
  pose proof (disk_ok_recovery _ _ _ _ (length (recovery_writes start d)) Hk) as [Hk' _].
  rewrite take_ge in Hk' by done. destruct Hk as [K1 K2 K3 K4 K5 K6 K7 K8 K9 K10].
  cbn [cache lg]. split_and!; try done.
  - split; cbn [cache lg]; try done.
    + split; rewrite ?E1, ?E2, ?E3; simpl; try done || lia. apply Forall_nil_2.
    + apply NoDup_nil_2.
    + intros x. rewrite P. split; [done|]. by intros ?%elem_of_nil.
    + rewrite E1, D. unfold recovery_writes. rewrite apply_writes_snoc. simpl.
      unfold apply_write. simpl. rewrite Z.eqb_refl. apply get32_put32_eq; [lia|].
      destruct (K1 start) as [-> _]. lia.
  - by apply (disk_ok_ext _ _ _ _ _ D).
  - intros x Hx. rewrite D. by rewrite recovered_writes.
Qed.

(** ** Reservations of concurrent system calls

    A state of the log with the system calls inside it, each with the number of
    [log_write]s it has made. Other kernel code may change the cache at any
    point. *)

Inductive lstep : lst S * list nat -> lst S * list nat -> Prop :=
  | step_begin st st' us :
      begin_op st = Ret tt st' -> lstep (st, us) (st', us ++ [O])
  | step_write st st' us i u b :
      us !! i = Some u -> Z.of_nat u < MAXOPBLOCKS -> log_write b st = Ret tt st' ->
      lstep (st, us) (st', <[i := Datatypes.S u]> us)
  | step_end st st' us i u :
      us !! i = Some u -> end_op st = Ret tt st' -> lstep (st, us) (st', delete i us)
  | step_cache st s' us :
      lstep (st, us) ({| cache := s'; lg := lg st |}, us).

(** Blocks the admitted calls may still add to the header. *)
Definition reserved (us : list nat) : Z :=
  foldr (fun u acc => MAXOPBLOCKS - Z.of_nat u + acc) 0 us.

Lemma reserved_cons u us : reserved (u :: us) = MAXOPBLOCKS - Z.of_nat u + reserved us.
Proof. done. Qed.

Lemma reserved_app us vs : reserved (us ++ vs) = reserved us + reserved vs.
Proof. induction us as [|u us IH]; [done|]. cbn [app]. rewrite !reserved_cons, IH. lia. Qed.

Lemma reserved_split us i u :
  us !! i = Some u ->
  reserved us = reserved (take i us) + (MAXOPBLOCKS - Z.of_nat u) + reserved (drop (Datatypes.S i) us).
Proof.
  intros H. rewrite <- (take_drop_middle _ _ _ H) at 1. rewrite reserved_app, reserved_cons. lia.
Qed.

Definition keeps_lg {A} (m : M (lst S) A) : Prop :=
  forall st a st', m st = Ret a st' -> lg st' = lg st.

Lemma keeps_lc {A} (m : M S A) : keeps_lg (lc m).
Proof. intros st a st' H. unfold lc in H. destruct (m (cache st)); simplify_eq. done. Qed.

Lemma keeps_bind {A B} (m : M (lst S) A) (k : A -> M (lst S) B) :
  keeps_lg m -> (forall a, keeps_lg (k a)) -> keeps_lg (bind m k).
Proof.
  intros Hm Hk st b st' H. minv H as (a & st1 & H1 & H2).
  rewrite (Hk _ _ _ _ H2). by apply (Hm _ _ _ H1).
Qed.

Lemma keeps_ret {A} (a : A) : keeps_lg (ret a).
Proof. intros st b st' H. unfold ret in H. by simplify_eq. Qed.

Lemma keeps_gets {A} (f : lst S -> A) : keeps_lg (gets f).
Proof. intros st b st' H. unfold gets in H. by simplify_eq. Qed.

Create HintDb log.
#[local] Hint Resolve keeps_lc keeps_bind keeps_ret keeps_gets : log.

Lemma keeps_install n : forall k, keeps_lg (install_loop n k).
Proof. induction n as [|n IH]; intros k; simpl; eauto 20 with log. Qed.

Lemma keeps_write_log n : forall k, keeps_lg (write_log_loop n k).
Proof. induction n as [|n IH]; intros k; simpl; eauto 20 with log. Qed.

Lemma keeps_write_head : keeps_lg write_head.
Proof. unfold write_head, data_of, store_data. eauto 20 with log. Qed.

#[local] Hint Resolve keeps_install keeps_write_log keeps_write_head : log.

(** Whatever the cache does, a commit that returns leaves an empty header. *)
Lemma commit_lg st st' :
  commit st = Ret tt st' -> 0 <= lh_n (lg st) -> lg st' = set_lh_n 0 (lg st).
Proof.
  unfold commit. intros H Hn. unfold bind at 1, gets at 1 in H.
  destruct (Z.ltb_spec 0 (lh_n (lg st))).
  - minv H as ([] & s1 & H1 & H). minv H as ([] & s2 & H2 & H). minv H as ([] & s3 & H3 & H).
    assert (lg s3 = lg st) as E.
    { unfold write_log in H1. unfold install_trans in H3.
      apply keeps_bind in H1; [|eauto with log..]. apply keeps_write_head in H2.
      apply keeps_bind in H3; [|eauto with log..]. congruence. }
    minv H as ([] & s4 & H4 & H). unfold upd_lg, modify in H4. injection H4 as <-.
    apply keeps_write_head in H. by rewrite H, E.
  - unfold ret in H. injection H as <-. destruct st as [s l]. destruct l; simpl in *. unfold set_lh_n. simpl. f_equal. lia.
Qed.

(** What holds of the log between any two steps. *)
Definition reserve_inv (c : lst S * list nat) : Prop :=
  let l := lg c.1 in
  committing l = false /\ outstanding l = Z.of_nat (length c.2) /\ 0 <= lh_n l /\
  Forall (fun u => Z.of_nat u <= MAXOPBLOCKS) c.2 /\ lh_n l + reserved c.2 <= LOGSIZE.

Lemma reserved_nonneg us : Forall (fun u => Z.of_nat u <= MAXOPBLOCKS) us -> 0 <= reserved us.
Proof. induction 1; rewrite ?reserved_cons; [done|lia]. Qed.

Lemma reserved_bound us : Forall (fun u => Z.of_nat u <= MAXOPBLOCKS) us ->
  reserved us <= MAXOPBLOCKS * Z.of_nat (length us).
Proof. induction 1; rewrite ?reserved_cons; [done|]. cbn [length]. lia. Qed.

Lemma log_append_n n l : lh_n l <= lh_n (log_append n l) <= lh_n l + 1.
Proof. unfold log_append. destruct (_ =? _); simpl; lia. Qed.

Lemma log_write_inv st b st' :
  log_write b st = Ret tt st' ->
  lg st' = log_append (bc_blockno (cache st) b) (lg st) /\ lh_n (lg st) < LOGSIZE.
Proof.
  intros H. destruct (decide (LOGSIZE <= lh_n (lg st) \/ lsize (lg st) - 1 <= lh_n (lg st)
    \/ outstanding (lg st) < 1)) as [Hp|Hp].
  - exfalso. unfold log_write, bind at 1, gets at 1 in H.
    destruct (Z.leb_spec LOGSIZE (lh_n (lg st))); [done|].
    destruct (Z.leb_spec (lsize (lg st) - 1) (lh_n (lg st))); [done|].
    destruct (Z.ltb_spec (outstanding (lg st)) 1); [done|lia].
  - rewrite (log_write_run st b _ eq_refl) in H by lia. injection H as <-. cbn [lg]. split; [done|lia].
Qed.

Lemma log_append_frame n l :
  outstanding (log_append n l) = outstanding l /\ committing (log_append n l) = committing l.
Proof. unfold log_append. by destruct (_ =? _). Qed.

Lemma end_op_lg st st' :
  end_op st = Ret tt st' -> committing (lg st) = false -> 0 <= lh_n (lg st) ->
  committing (lg st') = false /\ outstanding (lg st') = outstanding (lg st) - 1 /\
  lh_n (lg st') = if outstanding (lg st) =? 1 then 0 else lh_n (lg st).
Proof.
  intros H Hc Hn. unfold end_op, bind at 1, upd_lg at 1, modify in H.
  unfold bind at 1, gets in H. cbn [lg committing set_outstanding outstanding] in H.
  rewrite Hc in H. destruct (Z.eqb_spec (outstanding (lg st) - 1) 0) as [Ho|Ho].
  - minv H as ([] & s1 & H1 & H). unfold upd_lg in H1. injection H1 as <-.
    minv H as ([] & s2 & H2 & H). apply commit_lg in H2; [|done].
    unfold upd_lg, modify in H. injection H as <-. cbn [lg]. rewrite H2. simpl.
    split_and!; try done. by destruct (Z.eqb_spec (outstanding (lg st)) 1); [|lia].
  - unfold ret in H. injection H as <-. simpl. split_and!; try done.
    by destruct (Z.eqb_spec (outstanding (lg st)) 1); [lia|].
Qed.

Lemma lstep_inv c c' : lstep c c' -> reserve_inv c -> reserve_inv c'.
Proof.
  intros H (Hc & Ho & Hn & Hu & Hr).
  destruct H as [st st' us H|st st' us i u b Hi Hlt H|st st' us i u Hi H|st s' us];
    unfold reserve_inv in *; cbn [fst snd] in *.
  - rewrite begin_op_admits, Hc in H. cbn [negb andb] in H.
    destruct (Z.leb_spec (lh_n (lg st) + (outstanding (lg st) + 1) * MAXOPBLOCKS) LOGSIZE); [|done].
    injection H as <-. simpl. pose proof (reserved_bound us Hu). split_and!; try done.
    + rewrite length_app. simpl. lia.
    + apply Forall_app. split; [done|]. apply Forall_singleton. lia.
    + rewrite reserved_app, reserved_cons. cbn [reserved foldr]. lia.
  - apply log_write_inv in H as [E Hmax]. rewrite E.
    destruct (log_append_frame (bc_blockno (cache st) b) (lg st)) as [-> ->].
    pose proof (log_append_n (bc_blockno (cache st) b) (lg st)) as Hb.
    split_and!; [done|by rewrite length_insert|lia| |].
    + apply Forall_insert; [done|lia].
    + rewrite (reserved_split us i u Hi) in Hr. apply lookup_lt_Some in Hi as Hlen.
      rewrite insert_take_drop, reserved_app, reserved_cons by done. lia.
  - apply end_op_lg in H as (-> & -> & ->); [|done..].
    pose proof (reserved_split us i u Hi) as Hs. apply lookup_lt_Some in Hi as Hlen.
    assert (Z.of_nat u <= MAXOPBLOCKS) as Hub by (by apply (Forall_lookup_1 _ _ _ _ Hu Hi)).
    rewrite delete_take_drop, reserved_app, length_app, length_take, length_drop.
    split_and!; [done|lia|destruct (_ =? 1); lia| |].
    + apply Forall_app. split; [by apply Forall_take|by apply Forall_drop].
    + destruct (outstanding (lg st) =? 1); lia.
  - done.
Qed.

Inductive lreach (c : lst S * list nat) : lst S * list nat -> Prop :=
  | lreach_refl : lreach c c
  | lreach_step c1 c2 : lreach c c1 -> lstep c1 c2 -> lreach c c2.

Lemma lreach_inv c c' : lreach c c' -> reserve_inv c -> reserve_inv c'.
Proof. induction 1; [done|]. intros. eapply lstep_inv; eauto. Qed.

Lemma reserved_at_most us i u :
  Forall (fun u => Z.of_nat u <= MAXOPBLOCKS) us -> us !! i = Some u ->
  MAXOPBLOCKS - Z.of_nat u <= reserved us /\
  forall j v, us !! j = Some v -> j <> i -> MAXOPBLOCKS - Z.of_nat u + (MAXOPBLOCKS - Z.of_nat v) <= reserved us.
Proof.
  intros Hf Hi. pose proof (reserved_split us i u Hi) as Hs.
  assert (forall l j v, Forall (fun u => Z.of_nat u <= MAXOPBLOCKS) l -> l !! j = Some v ->
            MAXOPBLOCKS - Z.of_nat v <= reserved l) as Hone.
  { intros l j v Hl Hj. rewrite (reserved_split l j v Hj).
    pose proof (reserved_nonneg _ (Forall_take _ j _ Hl)). pose proof (reserved_nonneg _ (Forall_drop _ (Datatypes.S j) _ Hl)). lia. }
  pose proof (Forall_take _ i _ Hf) as Ht. pose proof (Forall_drop _ (Datatypes.S i) _ Hf) as Hd.
  pose proof (reserved_nonneg _ Ht). pose proof (reserved_nonneg _ Hd). split; [lia|].
  intros j v Hj Hne. destruct (decide (j < i)%nat).
  - pose proof (Hone (take i us) j v Ht ltac:(by rewrite lookup_take_lt)). lia.
  - pose proof (Hone (drop (Datatypes.S i) us) (j - Datatypes.S i)%nat v Hd) as H1.
    rewrite lookup_drop in H1. replace (Datatypes.S i + (j - Datatypes.S i))%nat with j in H1 by lia.
    specialize (H1 Hj). lia.
Qed.

(** C18. What the reservation of [begin_op] is worth for the log mkfs makes, of
    LOGSIZE blocks: whatever the interleaving of system calls and cache activity,
    as long as each call makes at most MAXOPBLOCKS [log_write]s, the header is
    not full when a call with writes left makes one, and the write succeeds -
    except in one case, in which it panics: the call is at the last of its
    writes, every other open call has made all of its writes, and LOGSIZE - 1
    different blocks are in the header. *)
Theorem reservation_sound st0 st us i u b :
  lh_n (lg st0) = 0 -> outstanding (lg st0) = 0 -> committing (lg st0) = false ->
  lreach (st0, []) (st, us) -> us !! i = Some u -> Z.of_nat u < MAXOPBLOCKS ->
  lsize (lg st) = LOGSIZE ->
  lh_n (lg st) < LOGSIZE /\
  ((exists st', log_write b st = Ret tt st') \/
   (log_write b st = Panic "too big a transaction" /\ lh_n (lg st) = LOGSIZE - 1 /\
    Z.of_nat u = MAXOPBLOCKS - 1 /\
    forall j v, us !! j = Some v -> j <> i -> Z.of_nat v = MAXOPBLOCKS)).
Proof.
  intros H1 H2 H3 Hr Hi Hu Hs. apply lreach_inv in Hr as (Hc & Ho & Hn & Hf & Hres).
  2: { unfold reserve_inv. simpl. rewrite H1, H2. split_and!; done || apply Forall_nil_2. }
  cbn [fst snd] in *. destruct (reserved_at_most us i u Hf Hi) as [Hlo Hoth].
  apply lookup_lt_Some in Hi as Hlen. split; [lia|].
  destruct (Z.lt_ge_cases (lh_n (lg st)) (LOGSIZE - 1)) as [Hlt|Hge].
  - left. eexists. apply (log_write_run st b _ eq_refl); lia.
  - right. split_and!; [|lia|lia|].
    + unfold log_write, bind at 1, gets at 1. rewrite Hs.
      destruct (Z.leb_spec LOGSIZE (lh_n (lg st))); [done|].
      by destruct (Z.leb_spec (LOGSIZE - 1) (lh_n (lg st))); [|lia].
    + intros j v Hj Hne. specialize (Hoth j v Hj Hne).
      pose proof (Forall_lookup_1 _ _ _ _ Hf Hj) as Hv. cbn in Hv. lia.
Qed.

End LogProofs.
