(* ===== verification/LogBio.v ===== *)
(** The log over the buffer cache of bio.c: concrete runs.

    A disk of 200 blocks as mkfs.c lays it out (log of LOGSIZE blocks at block
    2), the kernel started on it, and transactions run through the real cache.
    The runs serve as witnesses for the theorems on the log, and show the one
    reservation that [begin_op] grants and [log_write] does not honour. *)

From Stdlib Require Import ZArith Lia.
From stdpp Require Import base strings gmap numbers list.
From S2P Require Import Prelude BlockLayer Bio Log.

Open Scope Z_scope.

(** Block 1 of the disk: size, nblocks, ninodes, nlog, logstart, inodestart,
    bmapstart. *)
Definition demo_sb : block :=
  put32 (put32 (put32 (put32 (put32 (put32 (put32 zero_block
    0 200) 4 140) 8 200) 12 LOGSIZE) 16 2) 20 32) 24 58.

Definition demo_disk : Z -> block := fun n => if n =? 1 then demo_sb else zero_block.

Lemma demo_disk_blocks n : block_ok (demo_disk n).
Proof.
  unfold demo_disk. destruct (n =? 1); [|apply block_ok_zero].
  unfold demo_sb. do 7 apply block_ok_put32. apply block_ok_zero.
Qed.

Lemma demo_disk_ok : disk_ok 2 30 200 demo_disk.
Proof.
  assert (hdr_list 2 demo_disk = []) as Hb by (vm_compute; reflexivity).
  split; rewrite ?Hb; try (done || lia || (vm_compute; reflexivity)).
  - apply demo_disk_blocks.
  - apply Forall_nil_2.
  - apply not_elem_of_nil.
Qed.

Section Demo.
Context {S : Type} {BC : BlockCache S}.

Definition demo_boot : lst S := {| cache := bc_boot 200 demo_disk; lg := log0 |}.

(** The kernel after [initlog] and one [begin_op]. *)
Lemma demo_open :
  exists st, (initlog ROOTDEV ;;; begin_op) demo_boot = Ret tt st /\
    in_txn st [] /\ (forall x, bc_held (cache st) x = None) /\
    lstart (lg st) = 2 /\ lsize (lg st) = 30 /\ bc_nblocks (cache st) = 200 /\
    outstanding (lg st) = 1 /\ committing (lg st) = false /\
    disk_ok 2 30 200 (bc_disk (cache st)).
Proof.
  destruct (initlog_txn _ _ _ _ demo_disk_ok) as (st & R & T & H & E1 & E2 & E3 & E4 & E5 & K & _).
  exists {| cache := cache st; lg := set_outstanding (outstanding (lg st) + 1) (lg st) |}.
  cbn [cache lg set_outstanding lstart lsize outstanding committing]. rewrite E4.
  split_and!; try done.
  - unfold demo_boot. mstep R. rewrite begin_op_admits, E5, E4. by rewrite (t_n _ _ T).
  - by apply (in_txn_outstanding st []).
Qed.

(** Three updates of two blocks. *)
Definition demo_updates : list (Z * (block -> block)) :=
  [(100, fun d => put32 d 0 7); (101, fun d => put32 d 8 9); (100, fun d => put32 d 4 5)].

Lemma demo_updates_ok l nb :
  lstart l = 2 -> lsize l = 30 -> nb = 200 -> Forall (update_ok l nb) demo_updates.
Proof.
  intros E1 E2 ->. unfold update_ok, in_log. rewrite E1, E2. repeat constructor; simpl; try lia.
  all: intros; by apply block_ok_put32.
Qed.

(** A system call that has run them. *)
Lemma demo_written :
  exists st, (initlog ROOTDEV ;;; begin_op ;;; run_updates demo_updates)
               demo_boot = Ret tt st /\
    in_txn st [100; 101] /\ (forall x, bc_held (cache st) x = None) /\
    lstart (lg st) = 2 /\ lsize (lg st) = 30 /\ bc_nblocks (cache st) = 200 /\
    outstanding (lg st) = 1 /\ committing (lg st) = false /\
    disk_ok 2 30 200 (bc_disk (cache st)).
Proof.
  destruct demo_open as (st & R & T & H & E1 & E2 & E3 & E4 & E5 & K).
  pose proof (demo_updates_ok (lg st) (bc_nblocks (cache st)) E1 E2 E3) as Hus.
  destruct (run_updates_ok demo_updates st [] T H ltac:(lia) Hus)
    as (st2 & R2 & T2 & H2 & F1 & F2 & F3 & F4 & F5 & D2 & V2); [rewrite E2; simpl; lia|].
  exists st2. split_and!; try congruence; try done.
  - rewrite <- bind_assoc. by mstep R.
  - by apply (disk_ok_ext _ _ _ _ _ D2).
Qed.

End Demo.

(** ** Witnesses *)

Lemma commit_crash_atomic_witness :
  exists st st' : lst bio, ready st [100; 101] /\
    initlog ROOTDEV {| cache := bc_boot (bc_nblocks (cache st)) (crash_disk st [100; 101] 3);
                       lg := log0 |} = Ret tt st' /\
    bc_disk (cache st') 100 = bc_view (cache st) 100.
Proof.
  destruct (demo_written (S := bio)) as (st & R & T & H & E1 & E2 & E3 & E4 & E5 & K).
  pose proof (in_txn_ready _ _ T H) as Hr.
  destruct (commit_ok st _ Hr) as (st1 & C & Hc).
  assert (1 ∉ [100; 101]) as H1 by (apply not_elem_of_cons; split; [lia|];
    apply not_elem_of_cons; split; [lia|apply not_elem_of_nil]).
  rewrite <- E1, <- E2, <- E3 in K.
  destruct (commit_crash_atomic st [100; 101] 3 st1 (crash_disk st [100; 101] 3) Hr H1 K C)
    as (st' & R' & _ & _ & D).
  - destruct Hc as (_ & _ & _ & -> & _). rewrite drop_app_length. apply reboots_none.
  - exists st, st'. split_and!; [done|done|]. rewrite D; [done|]. unfold in_log. lia.
Defined.

Lemma transaction_refines_witness :
  exists st st' : lst bio,
    (begin_op ;;; run_updates demo_updates ;;; end_op) st = Ret tt st' /\
    bc_disk (cache st') 101 = apply_updates demo_updates (bc_disk (cache st)) 101.
Proof.
  destruct (initlog_txn (S := bio) _ _ _ _ demo_disk_ok)
    as (st & R & T & H & E1 & E2 & E3 & E4 & E5 & K & _).
  destruct (transaction_refines st demo_updates T H E4 E5)
    as (st' & R' & _ & _ & _ & _ & D).
  - apply demo_updates_ok; done.
  - rewrite E2. simpl. lia.
  - exists st, st'. split; [done|]. apply D. unfold in_log. lia.
Defined.

Lemma reservation_sound_witness :
  exists st : lst bio, lsize (lg st) = LOGSIZE /\ lh_n (lg st) < LOGSIZE /\ exists st', log_write 3 st = Ret tt st'.
Proof.
  set (st0 := {| cache := bc_boot 200 demo_disk; lg := set_geometry 2 30 1 log0 |}).
  set (st1 := {| cache := cache st0; lg := set_outstanding 1 (lg st0) |}).
  exists st1. split; [reflexivity|].
  destruct (reservation_sound st0 st1 [O] O O 3) as [Hn [Hw|(_ & Hfull & _)]]; try reflexivity.
  - apply (lreach_step _ (st0, [])); [apply lreach_refl|]. apply step_begin.
    by rewrite begin_op_admits.
  - split; [exact Hn|exact Hw].
  - discriminate Hfull.
Defined.

(** ** The last block of a full reservation *)

(** System calls as commands: [CBegin] is a [begin_op]; [CWrite i n] is call
    [i] reading block [n], passing it to [log_write] and releasing it. *)
Inductive cmd := CBegin | CWrite (i : nat) (n : Z).

Definition run_cmd (c : cmd) (x : lst bio * list nat) : option (lst bio * list nat) :=
  match c with
  | CBegin => match begin_op x.1 with Ret _ st => Some (st, x.2 ++ [O]) | _ => None end
  | CWrite i n =>
      match lc (bread ROOTDEV n) x.1, x.2 !! i with
      | Ret b st1, Some u =>
          if Z.of_nat u <? MAXOPBLOCKS then
            match log_write b st1 with
            | Ret _ st2 =>
                match lc (brelse b) st2 with
                | Ret _ st3 => Some (st3, <[i := S u]> x.2)
                | _ => None
                end
            | _ => None
            end
          else None
      | _, _ => None
      end
  end.

Fixpoint run_cmds (cs : list cmd) (x : lst bio * list nat) : option (lst bio * list nat) :=
  match cs with
  | [] => Some x
  | c :: cs' => match run_cmd c x with Some y => run_cmds cs' y | None => None end
  end.

Lemma lc_cache {A} (m : M bio A) (st : lst bio) (a : A) (st' : lst bio) us :
  lc m st = Ret a st' -> lstep (st, us) (st', us).
Proof.
  intros H. unfold lc in H. destruct (m (cache st)); simplify_eq. apply step_cache.
Qed.

Lemma run_cmd_reach c x y : run_cmd c x = Some y -> lreach x y.
Proof.
  destruct x as [st us]. destruct c as [|i n]; simpl.
  - destruct (begin_op st) as [[] st'| | |] eqn:E; intros; simplify_eq.
    eapply lreach_step; [apply lreach_refl|by apply step_begin].
  - destruct (lc (bread ROOTDEV n) st) as [b st1| | |] eqn:E1; [|done..].
    destruct (us !! i) as [u|] eqn:Eu; [|done].
    destruct (Z.ltb_spec (Z.of_nat u) MAXOPBLOCKS); [|done].
    destruct (log_write b st1) as [[] st2| | |] eqn:E2; [|done..].
    destruct (lc (brelse b) st2) as [[] st3| | |] eqn:E3; [|done..].
    intros [= <-]. eapply lreach_step; [|by eapply lc_cache].
    eapply lreach_step; [|by eapply step_write].
    eapply lreach_step; [apply lreach_refl|by eapply lc_cache].
Qed.

Lemma lreach_trans (x y z : lst bio * list nat) : lreach x y -> lreach y z -> lreach x z.
Proof. intros H. induction 1; [done|]. by eapply lreach_step. Qed.

Lemma run_cmds_reach cs : forall x y, run_cmds cs x = Some y -> lreach x y.
Proof.
  induction cs as [|c cs IH]; intros x y H; simpl in H; [simplify_eq; apply lreach_refl|].
  destruct (run_cmd c x) as [z|] eqn:E; [|done].
  eapply lreach_trans; [by eapply run_cmd_reach|by apply IH].
Qed.

(** Three admitted calls that write 10, 10 and 9 different blocks. *)
Definition full_cmds : list cmd :=
  [CBegin; CBegin; CBegin] ++
  ((fun k => CWrite (k / 10) (100 + Z.of_nat k)) <$> seq 0 29).

Definition started : option (lst bio) :=
  match initlog ROOTDEV {| cache := bc_boot 200 demo_disk; lg := log0 |} with
  | Ret _ st => Some st
  | _ => None
  end.

(** The state before the thirtieth write, with its block already read. *)
Definition full_state : option (lst bio * list nat * nat) :=
  match started with
  | Some st =>
      match run_cmds full_cmds (st, []) with
      | Some (st1, us) =>
          match lc (bread ROOTDEV 129) st1 with Ret b st2 => Some (st2, us, b) | _ => None end
      | None => None
      end
  | None => None
  end.

Definition panics {A} (o : outcome (lst bio) A) (msg : string) : bool :=
  match o with Panic m => String.eqb m msg | _ => false end.

Definition full_check : bool :=
  match full_state with
  | Some (st, us, b) =>
      bool_decide (us = [10; 10; 9]%nat) && (lsize (lg st) =? LOGSIZE) &&
      panics (log_write b st) "too big a transaction"
  | None => false
  end.

Lemma full_check_true : full_check = true.
Proof. vm_compute. reflexivity. Qed.

(** A reservation is not always honoured: on a disk whose log has LOGSIZE
    blocks, as mkfs makes it, three admitted system calls that have written 10,
    10 and 9 different blocks leave the third one with a write that [begin_op]
    reserved and [log_write] answers with a panic, because it also requires
    [log.lh.n < log.size - 1]. *)
Theorem reservation_short :
  exists (st0 st : lst bio) us b,
    started = Some st0 /\ lreach (st0, []) (st, us) /\ us = [10; 10; 9]%nat /\
    lsize (lg st) = LOGSIZE /\ log_write b st = Panic "too big a transaction".
Proof.
  pose proof full_check_true as Hc. unfold full_check, full_state in Hc.
  destruct started as [st0|]; [|done].
  destruct (run_cmds full_cmds (st0, [])) as [[st1 us]|] eqn:E1; [|done].
  destruct (lc (bread ROOTDEV 129) st1) as [b st| | |] eqn:E2; [|done..].
  apply andb_true_iff in Hc as [Hc Hp]. apply andb_true_iff in Hc as [Hus Hs].
  apply bool_decide_eq_true in Hus. apply Z.eqb_eq in Hs.
  exists st0, st, us, b. split_and!; [done| |done|done|].
  - eapply lreach_step; [by eapply run_cmds_reach|by eapply lc_cache].
  - unfold panics in Hp. destruct (log_write b st); try done.
    by apply String.eqb_eq in Hp as ->.
Qed.
