(* ===== verification/Fs.v ===== *)
(** The file system (fs.c): block allocator, inodes, file contents,
    directories, path names.

    Blocks are accessed as the kernel sees them: [bread] gives the contents in
    the buffer cache and [log_write] records an update in the current
    transaction. Log.v proves that the pattern [bread] - modify - [log_write] -
    [brelse] is an update of that view ([update_block_logs]) and that [end_op]
    carries it to the disk; here the view itself is the state, together with the
    header of the log, which decides when [log_write] panics, and with it the
    buffers that the log keeps, which decide when [bget] finds none. The code
    runs as one process; a sleep lock that is held puts it to sleep. *)

From Stdlib Require Import ZArith Lia.
From stdpp Require Import base strings gmap numbers list.
From S2P Require Import Prelude KString BlockLayer Bio Log.

Open Scope Z_scope.

(** ** Constants of fs.h, stat.h and param.h *)

Abbreviation ROOTINO := 1 (only parsing).
Abbreviation NDIRECT := 12 (only parsing).
Abbreviation NINDIRECT := 128 (only parsing).
Abbreviation MAXFILE := (128 * 2048) (only parsing).
Abbreviation IPB := 8 (only parsing).
Abbreviation BPB := 4096 (only parsing).
Abbreviation DIRSIZ := 14 (only parsing).
Abbreviation NINODE := 50%nat (only parsing).
Abbreviation NDEV := 10 (only parsing).
Abbreviation T_DIR := 1 (only parsing).
Abbreviation T_FILE := 2 (only parsing).
Abbreviation T_DEV := 3 (only parsing).

(** The character that separates the elements of a path. *)
Abbreviation slash := 47 (only parsing).

(** ** 16-bit fields *)

Definition i16 (x : Z) : Z :=
  let y := x mod 65536 in if y <? 32768 then y else y - 65536.
Definition get16 (l : list Z) (i : Z) : Z := get8 l i + 256 * get8 l (i + 1).
Definition put16 (l : list Z) (i v : Z) : list Z :=
  put8 (put8 l i (byte_of v 0)) (i + 1) (byte_of v 1).

(** ** State *)

(** [struct inode] of file.h. *)
Record inode := {
  i_dev : Z; i_inum : Z; i_ref : Z; i_lock : sleeplock; i_valid : bool;
  i_type : Z; i_major : Z; i_minor : Z; i_nlink : Z; i_size : Z; i_addrs : list Z;
}.
#[export] Instance inode_inhabited : Inhabited inode :=
  populate {| i_dev := 0; i_inum := 0; i_ref := 0; i_lock := initsleeplock; i_valid := false;
              i_type := 0; i_major := 0; i_minor := 0; i_nlink := 0; i_size := 0;
              i_addrs := replicate 13 0 |}.

(** What [log] of log.c holds: [log.lh.block[0 .. log.lh.n)], [log.size] and
    [log.outstanding]. *)
Record fslog := { tx_blocks : list Z; tx_size : Z; tx_open : Z }.

(** The disk as the kernel sees it, [struct superblock sb], [icache.inode], what
    [myproc()] gives (pid and current directory), and the log. *)
Record fs := {
  blk : Z -> block;
  nblk : Z;
  fsb : superblock;
  inodes : list inode;
  fpid : Z;
  cwd : nat;
  flog : fslog;
}.

Definition set_blk (b : Z -> block) (s : fs) : fs :=
  {| blk := b; nblk := nblk s; fsb := fsb s; inodes := inodes s; fpid := fpid s; cwd := cwd s; flog := flog s |}.
Definition set_fsb (b : superblock) (s : fs) : fs :=
  {| blk := blk s; nblk := nblk s; fsb := b; inodes := inodes s; fpid := fpid s; cwd := cwd s; flog := flog s |}.
Definition set_inodes (l : list inode) (s : fs) : fs :=
  {| blk := blk s; nblk := nblk s; fsb := fsb s; inodes := l; fpid := fpid s; cwd := cwd s; flog := flog s |}.

Definition set_flog (l : fslog) (s : fs) : fs :=
  {| blk := blk s; nblk := nblk s; fsb := fsb s; inodes := inodes s; fpid := fpid s; cwd := cwd s; flog := l |}.

Definition set_i_ref (v : Z) (i : inode) : inode :=
  {| i_dev := i_dev i; i_inum := i_inum i; i_ref := v; i_lock := i_lock i; i_valid := i_valid i;
     i_type := i_type i; i_major := i_major i; i_minor := i_minor i; i_nlink := i_nlink i;
     i_size := i_size i; i_addrs := i_addrs i |}.
Definition set_i_lock (v : sleeplock) (i : inode) : inode :=
  {| i_dev := i_dev i; i_inum := i_inum i; i_ref := i_ref i; i_lock := v; i_valid := i_valid i;
     i_type := i_type i; i_major := i_major i; i_minor := i_minor i; i_nlink := i_nlink i;
     i_size := i_size i; i_addrs := i_addrs i |}.
Definition set_i_valid (v : bool) (i : inode) : inode :=
  {| i_dev := i_dev i; i_inum := i_inum i; i_ref := i_ref i; i_lock := i_lock i; i_valid := v;
     i_type := i_type i; i_major := i_major i; i_minor := i_minor i; i_nlink := i_nlink i;
     i_size := i_size i; i_addrs := i_addrs i |}.
Definition set_i_type (v : Z) (i : inode) : inode :=
  {| i_dev := i_dev i; i_inum := i_inum i; i_ref := i_ref i; i_lock := i_lock i; i_valid := i_valid i;
     i_type := v; i_major := i_major i; i_minor := i_minor i; i_nlink := i_nlink i;
     i_size := i_size i; i_addrs := i_addrs i |}.
Definition set_i_size (v : Z) (i : inode) : inode :=
  {| i_dev := i_dev i; i_inum := i_inum i; i_ref := i_ref i; i_lock := i_lock i; i_valid := i_valid i;
     i_type := i_type i; i_major := i_major i; i_minor := i_minor i; i_nlink := i_nlink i;
     i_size := v; i_addrs := i_addrs i |}.
Definition set_i_addr (k : Z) (v : Z) (i : inode) : inode :=
  {| i_dev := i_dev i; i_inum := i_inum i; i_ref := i_ref i; i_lock := i_lock i; i_valid := i_valid i;
     i_type := i_type i; i_major := i_major i; i_minor := i_minor i; i_nlink := i_nlink i;
     i_size := i_size i; i_addrs := <[Z.to_nat k := v]> (i_addrs i) |}.
(** The fields [ialloc]'s callers set: [ip->major], [ip->minor], [ip->nlink]. *)
Definition set_i_meta (major minor nlink : Z) (i : inode) : inode :=
  {| i_dev := i_dev i; i_inum := i_inum i; i_ref := i_ref i; i_lock := i_lock i; i_valid := i_valid i;
     i_type := i_type i; i_major := major; i_minor := minor; i_nlink := nlink;
     i_size := i_size i; i_addrs := i_addrs i |}.

Definition ino (s : fs) (ip : nat) : inode := inodes s !!! ip.
Definition i_addr (i : inode) (k : Z) : Z := default 0 (i_addrs i !! Z.to_nat k).
Definition upd_ino (ip : nat) (f : inode -> inode) (s : fs) : fs :=
  set_inodes (<[ip := f (ino s ip)]> (inodes s)) s.

(** ** Buffers *)

(** Buffers that [bget] may not recycle: those of the blocks in the log (they
    are dirty) and those the caller holds. *)
Definition pinned (held : list Z) (s : fs) : list Z :=
  tx_blocks (flog s) ++ filter (fun x => x ∉ tx_blocks (flog s)) held.

(** [bread(dev, n)] by a caller that holds the buffers of the blocks [held]: the
    contents of the block. [bget] sleeps on a buffer that is held, and panics
    when the block is not in the cache and no buffer can be recycled; the disk
    driver refuses another device or a block out of range. *)
Definition fbread (held : list Z) (dev n : Z) : M fs block :=
  let* s := get in
  if bool_decide (n ∈ held) then sleep_on ("buffer", n)
  else if bool_decide (n ∉ tx_blocks (flog s)) && (Z.of_nat NBUF <=? Z.of_nat (length (pinned held s)))
  then panic "bget: no buffers"
  else if negb (dev =? 1) then panic "iderw: request not for disk 1"
  else if nblk s <=? n then panic "iderw: block out of range"
  else ret (blk s n).

(** A store to the data of a buffer. *)
Definition fstore (n : Z) (d : block) : M fs unit :=
  modify (fun s => set_blk (fun x => if x =? n then d else blk s x) s).

(** ** The log *)

(** The header after [log_write] of block [n]. *)
Definition log_add (n : Z) (l : fslog) : fslog :=
  {| tx_blocks := absorb (tx_blocks l) n; tx_size := tx_size l; tx_open := tx_open l |}.

Definition flog_write (n : Z) : M fs unit :=
  let* s := get in
  let lhn := Z.of_nat (length (tx_blocks (flog s))) in
  if (LOGSIZE <=? lhn) || (tx_size (flog s) - 1 <=? lhn) then panic "too big a transaction"
  else if tx_open (flog s) <? 1 then panic "log_write outside of trans"
  else modify (set_flog (log_add n (flog s))).

(** A store to the data of a buffer, and [log_write] of it. *)
Definition lstore (n : Z) (d : block) : M fs unit := fstore n d ;;; flog_write n.

(** [begin_op] and [end_op]. A commit, which nobody else can see half done,
    empties the header. *)
Definition fbegin_op : M fs unit :=
  let* s := get in
  let l := flog s in
  if LOGSIZE <? Z.of_nat (length (tx_blocks l)) + (tx_open l + 1) * MAXOPBLOCKS then sleep_on ("log", 0)
  else modify (set_flog {| tx_blocks := tx_blocks l; tx_size := tx_size l; tx_open := tx_open l + 1 |}).

Definition fend_op : M fs unit :=
  modify (fun s => let l := flog s in
    set_flog {| tx_blocks := if tx_open l - 1 =? 0 then [] else tx_blocks l;
                tx_size := tx_size l; tx_open := tx_open l - 1 |} s).

(** ** Blocks *)

Definition freadsb (held : list Z) (dev : Z) : M fs unit :=
  let* d := fbread held dev 1 in modify (set_fsb (sb_decode d)).

Definition bzero (held : list Z) (dev bno : Z) : M fs unit :=
  let* d := fbread held dev bno in lstore bno zero_block.

Definition BBLOCK (b : Z) (sb : superblock) : Z := u32 (b / BPB + sb_bmapstart sb).

(** The test [bp->data[bi/8] & (1 << (bi % 8))]. *)
Definition bit_free (d : block) (bi : Z) : bool :=
  Z.land (get8 d (bi / 8)) (Z.shiftl 1 (bi mod 8)) =? 0.

(** The inner loop of [balloc], from bit [bi]. *)
Fixpoint balloc_bits (n : nat) (b bi size : Z) (d : block) : option Z :=
  match n with
  | O => None
  | S n' =>
      if b + bi <? size then
        if bit_free d bi then Some bi else balloc_bits n' b (bi + 1) size d
      else None
  end.

Fixpoint balloc_loop (n : nat) (held : list Z) (dev b : Z) : M fs Z :=
  match n with
  | O => panic "balloc: out of blocks"
  | S n' =>
      let* s := get in
      if b <? sb_size (fsb s) then
        let bb := BBLOCK b (fsb s) in
        let* d := fbread held dev bb in
        match balloc_bits (Z.to_nat BPB) b 0 (sb_size (fsb s)) d with
        | Some bi =>
            lstore bb (put8 d (bi / 8) (Z.lor (get8 d (bi / 8)) (Z.shiftl 1 (bi mod 8)))) ;;;
            bzero held dev (b + bi) ;;;
            ret (b + bi)
        | None => balloc_loop n' held dev (b + BPB)
        end
      else panic "balloc: out of blocks"
  end.

(** The outer loop visits one bitmap block per [BPB] blocks. *)
Definition balloc (held : list Z) (dev : Z) : M fs Z :=
  let* s := get in balloc_loop (Z.to_nat (sb_size (fsb s) / BPB + 1)) held dev 0.

Definition bfree (held : list Z) (dev b : Z) : M fs unit :=
  freadsb held dev ;;;
  let* s := get in
  let bb := BBLOCK b (fsb s) in
  let* d := fbread held dev bb in
  let bi := b mod BPB in
  if bit_free d bi then panic "freeing free block"
  else lstore bb (put8 d (bi / 8) (Z.land (get8 d (bi / 8)) (Z.lnot (Z.shiftl 1 (bi mod 8))))).

(** ** Inodes *)

Definition IBLOCK (i : Z) (sb : superblock) : Z := u32 (i / IPB + sb_inodestart sb).

(** The byte offset in its block of the on-disk inode. *)
Definition doff (inum : Z) : Z := 64 * (inum mod IPB).

Fixpoint get_addrs (n : nat) (d : block) (o : Z) : list Z :=
  match n with
  | O => []
  | S n' => get32 d o :: get_addrs n' d (o + 4)
  end.
Fixpoint put_addrs (l : list Z) (d : block) (o : Z) : block :=
  match l with
  | [] => d
  | a :: l' => put_addrs l' (put32 d o a) (o + 4)
  end.

Definition iinit (dev : Z) : M fs unit :=
  modify (fun s => set_inodes (set_i_lock initsleeplock <$> inodes s) s) ;;;
  freadsb [] dev.

(** The loop of [iget] from entry [i]: the entry in use for this inode, or the
    first free entry seen. *)
Fixpoint iget_scan (l : list inode) (i : nat) (empty : option nat) (dev inum : Z)
  : (nat + option nat) :=
  match l with
  | [] => inr empty
  | x :: l' =>
      if (0 <? i_ref x) && (i_dev x =? dev) && (i_inum x =? inum) then inl i
      else
        let empty' := match empty with
                      | Some _ => empty
                      | None => if i_ref x =? 0 then Some i else None
                      end in
        iget_scan l' (S i) empty' dev inum
  end.

Definition iget (dev inum : Z) : M fs nat :=
  let* s := get in
  match iget_scan (inodes s) 0 None dev inum with
  | inl i => modify (upd_ino i (fun x => set_i_ref (i_ref x + 1) x)) ;;; ret i
  | inr None => panic "iget: no inodes"
  | inr (Some i) =>
      modify (upd_ino i (fun x =>
        {| i_dev := dev; i_inum := inum; i_ref := 1; i_lock := i_lock x; i_valid := false;
           i_type := i_type x; i_major := i_major x; i_minor := i_minor x; i_nlink := i_nlink x;
           i_size := i_size x; i_addrs := i_addrs x |})) ;;;
      ret i
  end.

Definition idup (ip : nat) : M fs nat :=
  modify (upd_ino ip (fun x => set_i_ref (i_ref x + 1) x)) ;;; ret ip.

(** The [memset] of the 64 bytes of an on-disk inode. *)
Fixpoint zero_bytes (n : nat) (o : Z) (d : block) : block :=
  match n with
  | O => d
  | S n' => zero_bytes n' (o + 1) (put8 d o 0)
  end.

Fixpoint ialloc_loop (n : nat) (dev inum type : Z) : M fs nat :=
  match n with
  | O => panic "ialloc: no inodes"
  | S n' =>
      let* s := get in
      let bb := IBLOCK inum (fsb s) in
      let* d := fbread [] dev bb in
      if i16 (get16 d (doff inum)) =? 0 then
        lstore bb (put16 (zero_bytes 64 (doff inum) d) (doff inum) type) ;;;
        iget dev inum
      else ialloc_loop n' dev (inum + 1) type
  end.

Definition ialloc (dev type : Z) : M fs nat :=
  let* s := get in ialloc_loop (Z.to_nat (sb_ninodes (fsb s) - 1)) dev 1 type.

(** The stores of [iupdate] into the block [d]. *)
Definition dinode_put (x : inode) (d : block) : block :=
  let o := doff (i_inum x) in
  let d := put16 d o (i_type x) in
  let d := put16 d (o + 2) (i_major x) in
  let d := put16 d (o + 4) (i_minor x) in
  let d := put16 d (o + 6) (i_nlink x) in
  let d := put32 d (o + 8) (i_size x) in
  put_addrs (i_addrs x) d (o + 12).

Definition iupdate (ip : nat) : M fs unit :=
  let* s := get in
  let x := ino s ip in
  let bb := IBLOCK (i_inum x) (fsb s) in
  let* d := fbread [] (i_dev x) bb in
  lstore bb (dinode_put x d).

(** The loads of [ilock] from the block [d]. *)
Definition dinode_get (d : block) (x : inode) : inode :=
  let o := doff (i_inum x) in
  {| i_dev := i_dev x; i_inum := i_inum x; i_ref := i_ref x; i_lock := i_lock x; i_valid := true;
     i_type := i16 (get16 d o); i_major := i16 (get16 d (o + 2));
     i_minor := i16 (get16 d (o + 4)); i_nlink := i16 (get16 d (o + 6));
     i_size := get32 d (o + 8); i_addrs := get_addrs 13 d (o + 12) |}.

Definition lock_ino (ip : nat) : M fs unit :=
  let* s := get in
  match acquiresleep (fpid s) (i_lock (ino s ip)) with
  | None => sleep_on ("inode", Z.of_nat ip)
  | Some lk => modify (upd_ino ip (set_i_lock lk))
  end.
Definition unlock_ino (ip : nat) : M fs unit :=
  modify (upd_ino ip (fun x => set_i_lock (releasesleep (i_lock x)) x)).

(** Inode pointers are indices into [icache.inode], never null. *)
Definition ilock (ip : nat) : M fs unit :=
  let* s := get in
  if i_ref (ino s ip) <? 1 then panic "ilock"
  else
    lock_ino ip ;;;
    let* s := get in
    let x := ino s ip in
    if i_valid x then ret tt
    else
      let* d := fbread [] (i_dev x) (IBLOCK (i_inum x) (fsb s)) in
      modify (upd_ino ip (dinode_get d)) ;;;
      let* s := get in
      if i_type (ino s ip) =? 0 then panic "ilock: no type" else ret tt.

Definition iunlock (ip : nat) : M fs unit :=
  let* s := get in
  if negb (holdingsleep (fpid s) (i_lock (ino s ip))) || (i_ref (ino s ip) <? 1)
  then panic "iunlock"
  else unlock_ino ip.

(** ** Contents *)

(** The loop of [itrunc] over [ip->addrs[i]]. *)
Fixpoint itrunc_direct (n : nat) (i : Z) (ip : nat) : M fs unit :=
  match n with
  | O => ret tt
  | S n' =>
      let* s := get in
      (if negb (i_addr (ino s ip) i =? 0) then
         bfree [] (i_dev (ino s ip)) (i_addr (ino s ip) i) ;;;
         modify (upd_ino ip (set_i_addr i 0))
       else ret tt) ;;;
      itrunc_direct n' (i + 1) ip
  end.

(** The loop over the entries [a[j]] of the indirect block, held in [bp]. *)
Fixpoint itrunc_indirect (n : nat) (bp j dev : Z) (a : block) : M fs unit :=
  match n with
  | O => ret tt
  | S n' =>
      (if negb (get32 a (4 * j) =? 0) then bfree [bp] dev (get32 a (4 * j)) else ret tt) ;;;
      itrunc_indirect n' bp (j + 1) dev a
  end.

Definition itrunc (ip : nat) : M fs unit :=
  itrunc_direct (Z.to_nat NDIRECT) 0 ip ;;;
  let* s := get in
  let x := ino s ip in
  (if negb (i_addr x NDIRECT =? 0) then
     let* a := fbread [] (i_dev x) (i_addr x NDIRECT) in
     itrunc_indirect (Z.to_nat NINDIRECT) (i_addr x NDIRECT) 0 (i_dev x) a ;;;
     bfree [] (i_dev x) (i_addr x NDIRECT) ;;;
     modify (upd_ino ip (set_i_addr NDIRECT 0))
   else ret tt) ;;;
  modify (upd_ino ip (set_i_size 0)) ;;;
  iupdate ip.

(** [iput] up to the release of the sleep lock, and its last critical section:
    between the two other processes may run. *)
Definition iput_free (ip : nat) : M fs unit :=
  lock_ino ip ;;;
  let* s := get in
  let x := ino s ip in
  (if i_valid x && (i_nlink x =? 0) then
     if i_ref x =? 1 then
       itrunc ip ;;;
       modify (upd_ino ip (set_i_type 0)) ;;;
       iupdate ip ;;;
       modify (upd_ino ip (set_i_valid false))
     else ret tt
   else ret tt) ;;;
  unlock_ino ip.

(** [ref] is an [int]; it counts pointers, of which there are far fewer than 2^31. *)
Definition iput_drop (ip : nat) : M fs unit := modify (upd_ino ip (fun x => set_i_ref (i_ref x - 1) x)).

Definition iput (ip : nat) : M fs unit := iput_free ip ;;; iput_drop ip.

Definition iunlockput (ip : nat) : M fs unit := iunlock ip ;;; iput ip.

(** The first loop of [bmap]: [bn] and [indirect_bno] after it. *)
Fixpoint bmap_split (fuel : nat) (bn k : Z) : Z * Z :=
  match fuel with
  | O => (bn, k)
  | S f => if NINDIRECT - 1 <=? bn then bmap_split f (bn - (NINDIRECT - 1)) (k + 1) else (bn, k)
  end.

(** The second loop: [bp] is the indirect block read last; the link to the next
    one is its entry 127. *)
Fixpoint bmap_chain (n : nat) (dev bp : Z) : M fs Z :=
  match n with
  | O => ret bp
  | S n' =>
      let* a := fbread [] dev bp in
      let addr := get32 a (4 * (NINDIRECT - 1)) in
      if addr =? 0 then
        let* addr := balloc [bp] dev in
        let* s := get in
        lstore bp (put32 (blk s bp) (4 * (NINDIRECT - 1)) addr) ;;;
        let* d := fbread [] dev addr in
        fstore addr (put32 d (4 * (NINDIRECT - 1)) 0) ;;;
        bmap_chain n' dev addr
      else
        bmap_chain n' dev addr
  end.

Definition bmap (ip : nat) (bn : Z) : M fs Z :=
  let (bn, indirect_bno) := bmap_split (Z.to_nat bn) bn 0 in
  let* s := get in
  let dev := i_dev (ino s ip) in
  let* addr :=
    (if i_addr (ino s ip) 0 =? 0 then
       let* addr := balloc [] dev in
       modify (upd_ino ip (set_i_addr 0 addr)) ;;;
       let* d := fbread [] dev addr in
       fstore addr (put32 d (4 * (NINDIRECT - 1)) 0) ;;;
       ret addr
     else ret (i_addr (ino s ip) 0)) in
  let* bp := bmap_chain (Z.to_nat indirect_bno) dev addr in
  let* a := fbread [] dev bp in
  if get32 a (4 * bn) =? 0 then
    let* addr := balloc [bp] dev in
    let* s := get in
    lstore bp (put32 (blk s bp) (4 * bn) addr) ;;;
    ret addr
  else ret (get32 a (4 * bn)).

(** [struct stat], filled by [stati]. *)
Record stat := { st_type : Z; st_dev : Z; st_ino : Z; st_nlink : Z; st_size : Z }.
Definition stati (ip : nat) : M fs stat :=
  gets (fun s => let x := ino s ip in
    {| st_type := i_type x; st_dev := i32 (i_dev x); st_ino := i_inum x; st_nlink := i_nlink x;
       st_size := i_size x |}).

(** [n] bytes of [d] from offset [o], and a store of bytes there. *)
Definition slice (d : list Z) (o n : Z) : list Z := take (Z.to_nat n) (drop (Z.to_nat o) d).
Fixpoint put_bytes (d : list Z) (o : Z) (l : list Z) : list Z :=
  match l with
  | [] => d
  | x :: l' => put_bytes (put8 d o x) (o + 1) l'
  end.

Section Content.

(** [devsw[major].read] and [.write]: absent, or a driver that gets the inode
    and returns a count, with the bytes it stored for a read. *)
Variable devsw_read : Z -> option (nat -> Z -> M fs (Z * list Z)).
Variable devsw_write : Z -> option (nat -> list Z -> M fs Z).

(** The loop of [readi]; its result is the bytes stored at [dst]. *)
Fixpoint readi_loop (fuel : nat) (ip : nat) (tot off n : Z) : M fs (list Z) :=
  match fuel with
  | O => out_of_fuel
  | S f =>
      if tot <? n then
        let* b := bmap ip (off / BSIZE) in
        let* s := get in
        let* d := fbread [] (i_dev (ino s ip)) b in
        let m := Z.min (n - tot) (BSIZE - off mod BSIZE) in
        let* rest := readi_loop f ip (tot + m) (off + m) n in
        ret (slice d (off mod BSIZE) m ++ rest)
      else ret []
  end.

(** The return value and the bytes stored at [dst]. *)
Definition readi (ip : nat) (off n : Z) : M fs (Z * list Z) :=
  let* s := get in
  let x := ino s ip in
  if i_type x =? T_DEV then
    if (i_major x <? 0) || (NDEV <=? i_major x) then ret (-1, [])
    else match devsw_read (i_major x) with
         | None => ret (-1, [])
         | Some f => f ip n
         end
  else if (i_size x <? off) || (u32 (off + n) <? off) then ret (-1, [])
  else
    let n := if i_size x <? off + n then i_size x - off else n in
    let* l := readi_loop (S (Z.to_nat n)) ip 0 off n in
    ret (i32 n, l).

Fixpoint writei_loop (fuel : nat) (ip : nat) (src : list Z) (tot off n : Z) : M fs Z :=
  match fuel with
  | O => out_of_fuel
  | S f =>
      if tot <? n then
        let* b := bmap ip (off / BSIZE) in
        let* s := get in
        let* d := fbread [] (i_dev (ino s ip)) b in
        let m := Z.min (n - tot) (BSIZE - off mod BSIZE) in
        lstore b (put_bytes d (off mod BSIZE) (slice src tot m)) ;;;
        writei_loop f ip src (tot + m) (off + m) n
      else ret off
  end.

(** [writei] of the bytes [src]; its [n] is their number. *)
Definition writei (ip : nat) (src : list Z) (off : Z) : M fs Z :=
  let n := Z.of_nat (length src) in
  let* s := get in
  let x := ino s ip in
  if i_type x =? T_DEV then
    if (i_major x <? 0) || (NDEV <=? i_major x) then ret (-1)
    else match devsw_write (i_major x) with
         | None => ret (-1)
         | Some f => f ip src
         end
  else if (i_size x <? off) || (u32 (off + n) <? off) then ret (-1)
  else if MAXFILE * BSIZE <? u32 (off + n) then ret (-1)
  else
    let* off := writei_loop (S (Z.to_nat n)) ip src 0 off n in
    let* s := get in
    (if (0 <? n) && (i_size (ino s ip) <? off) then
       modify (upd_ino ip (set_i_size off)) ;;; iupdate ip
     else ret tt) ;;;
    ret (i32 n).

(** ** Directories *)

Definition namecmp (s t : list Z) : Z := strncmp (at_list s) (at_list t) (Z.to_nat DIRSIZ).

(** [struct dirent]: a 16-bit inode number and 14 bytes of name. *)
Definition de_inum (de : list Z) : Z := get16 de 0.
Definition de_name (de : list Z) : list Z := slice de 2 DIRSIZ.

(** The loop of [dirlookup]: the entry found and its offset. *)
Fixpoint dirlookup_loop (fuel : nat) (dp : nat) (name : list Z) (off : Z)
  : M fs (option (nat * Z)) :=
  match fuel with
  | O => out_of_fuel
  | S f =>
      let* s := get in
      if off <? i_size (ino s dp) then
        let* r := readi dp off 16 in
        if negb (r.1 =? 16) then panic "dirlookup read"
        else if de_inum r.2 =? 0 then dirlookup_loop f dp name (off + 16)
        else if namecmp name (de_name r.2) =? 0 then
          let* s := get in
          let* ip := iget (i_dev (ino s dp)) (de_inum r.2) in
          ret (Some (ip, off))
        else dirlookup_loop f dp name (off + 16)
      else ret None
  end.

Definition dirlookup (dp : nat) (name : list Z) : M fs (option (nat * Z)) :=
  let* s := get in
  if negb (i_type (ino s dp) =? T_DIR) then panic "dirlookup not DIR"
  else dirlookup_loop (S (Z.to_nat (i_size (ino s dp)))) dp name 0.

(** The loop of [dirlink]: the offset of the first free entry, or the end; and
    the bytes of [de], which stay those of the last entry read. *)
Fixpoint dirlink_loop (fuel : nat) (dp : nat) (off : Z) : M fs Z :=
  match fuel with
  | O => out_of_fuel
  | S f =>
      let* s := get in
      if off <? i_size (ino s dp) then
        let* r := readi dp off 16 in
        if negb (r.1 =? 16) then panic "dirlink read"
        else if de_inum r.2 =? 0 then ret off
        else dirlink_loop f dp (off + 16)
      else ret off
  end.

(** [strncpy(de.name, name, DIRSIZ)] and [de.inum = inum]: all 16 bytes. *)
Definition name_field (name : list Z) : list Z :=
  let c := cstr (at_list name) (Z.to_nat DIRSIZ) in
  c ++ replicate (Z.to_nat DIRSIZ - length c) 0.
Definition mk_dirent (name : list Z) (inum : Z) : list Z :=
  [byte_of inum 0; byte_of inum 1] ++ name_field name.

Definition dirlink (dp : nat) (name : list Z) (inum : Z) : M fs Z :=
  let* r := dirlookup dp name in
  match r with
  | Some (ip, _) => iput ip ;;; ret (-1)
  | None =>
      let* s := get in
      let* off := dirlink_loop (S (Z.to_nat (i_size (ino s dp)))) dp 0 in
      let* n := writei dp (mk_dirent name inum) off in
      if negb (n =? 16) then panic "dirlink" else ret 0
  end.

(** ** Paths *)

Fixpoint skip_slashes (path : list Z) : list Z :=
  match path with
  | c :: p => if c =? slash then skip_slashes p else path
  | [] => []
  end.
Fixpoint span_elem (path : list Z) : list Z * list Z :=
  match path with
  | c :: p => if c =? slash then ([], path) else let (e, r) := span_elem p in (c :: e, r)
  | [] => ([], [])
  end.

(** [skipelem] on the characters of the path before its NUL; [name] is the
    buffer of DIRSIZ bytes before and after. *)
Definition skipelem (path name : list Z) : option (list Z * list Z) :=
  match skip_slashes path with
  | [] => None
  | p =>
      let (e, r) := span_elem p in
      let name' := if DIRSIZ <=? Z.of_nat (length e) then take (Z.to_nat DIRSIZ) e
                   else e ++ [0] ++ drop (length e + 1) name in
      Some (skip_slashes r, name')
  end.

(** The loop of [namex]; each round consumes an element of the path. *)
Fixpoint namex_loop (fuel : nat) (ip : nat) (path : list Z) (parent : bool) (name : list Z)
  : M fs (option nat * list Z) :=
  match fuel with
  | O => out_of_fuel
  | S f =>
      match skipelem path name with
      | None =>
          if parent then iput ip ;;; ret (None, name) else ret (Some ip, name)
      | Some (path, name) =>
          ilock ip ;;;
          let* s := get in
          if negb (i_type (ino s ip) =? T_DIR) then iunlockput ip ;;; ret (None, name)
          else if parent && bool_decide (path = []) then iunlock ip ;;; ret (Some ip, name)
          else
            let* next := dirlookup ip name in
            match next with
            | None => iunlockput ip ;;; ret (None, name)
            | Some (next, _) => iunlockput ip ;;; namex_loop f next path parent name
            end
      end
  end.

Definition namex (path : list Z) (parent : bool) (name : list Z) : M fs (option nat * list Z) :=
  let* s := get in
  let* ip := (match path with
              | c :: _ => if c =? slash then iget ROOTDEV ROOTINO else idup (cwd s)
              | [] => idup (cwd s)
              end) in
  namex_loop (S (length path)) ip path parent name.

Definition namei (path : list Z) : M fs (option nat) :=
  let* r := namex path false (replicate 14 0) in ret r.1.
Definition nameiparent (path name : list Z) : M fs (option nat * list Z) := namex path true name.

End Content.
