(* ===== verification/FsAlloc.v ===== *)
(** The block allocator of fs.c: [balloc] and [bfree] on the free bit map. *)

From Stdlib Require Import ZArith Lia.
From stdpp Require Import base strings gmap numbers list.
From S2P Require Import Prelude KString BlockLayer Bio Log Fs.

Open Scope Z_scope.

(** ** Single bits of a block *)

Lemma land_bit x k : 0 <= k -> (Z.land x (Z.shiftl 1 k) =? 0) = negb (Z.testbit x k).
Proof.
  intros Hk. destruct (Z.testbit x k) eqn:E; simpl.
  - apply Z.eqb_neq. intros H. apply (f_equal (fun y => Z.testbit y k)) in H.
    rewrite Z.land_spec, Z.shiftl_spec, Z.sub_diag, E, Z.bits_0 in H by done. done.
  - apply Z.eqb_eq, Z.bits_inj'. intros i Hi.
    rewrite Z.land_spec, Z.shiftl_spec, Z.bits_0 by done.
    destruct (Z.eq_dec i k) as [->|Hne]; [by rewrite E|].
    destruct (Z.ltb_spec i k); [by rewrite (Z.testbit_neg_r 1), andb_false_r by lia|].
    change 1 with (2 ^ 0). rewrite Z.pow2_bits_false, andb_false_r by lia. done.
Qed.

Lemma testbit_one k i : 0 <= k -> 0 <= i -> Z.testbit (Z.shiftl 1 k) i = (i =? k).
Proof.
  intros Hk Hi. rewrite Z.shiftl_spec by done. destruct (Z.eqb_spec i k) as [->|].
  - by rewrite Z.sub_diag.
  - destruct (Z.ltb_spec i k); [by rewrite Z.testbit_neg_r by lia|].
    change 1 with (2 ^ 0). by rewrite Z.pow2_bits_false by lia.
Qed.

(** Bit [i] of the bitmap block [d]. *)
Definition dbit (d : block) (i : Z) : bool := Z.testbit (get8 d (i / 8)) (i mod 8).

Lemma bit_free_dbit d i : bit_free d i = negb (dbit d i).
Proof. unfold bit_free, dbit. apply land_bit. dlia. Qed.

(** The two stores of [balloc] and [bfree] on a bit. *)
Definition set_bit (d : block) (i : Z) : block :=
  put8 d (i / 8) (Z.lor (get8 d (i / 8)) (Z.shiftl 1 (i mod 8))).
Definition clear_bit (d : block) (i : Z) : block :=
  put8 d (i / 8) (Z.land (get8 d (i / 8)) (Z.lnot (Z.shiftl 1 (i mod 8)))).

Lemma u8_testbit x k : 0 <= k < 8 -> Z.testbit (u8 x) k = Z.testbit x k.
Proof. intros. unfold u8. change 256 with (2 ^ 8). apply Z.mod_pow2_bits_low. lia. Qed.

Lemma byte_index i j : 0 <= i -> 0 <= j -> i / 8 = j / 8 -> i mod 8 = j mod 8 -> i = j.
Proof. intros. dlia. Qed.

Lemma dbit_set d i j :
  length d = Z.to_nat BSIZE -> 0 <= i < BPB -> 0 <= j < BPB ->
  dbit (set_bit d i) j = (j =? i) || dbit d j.
Proof.
  intros Hl Hi Hj. unfold dbit, set_bit. rewrite get8_put8 by (rewrite ?Hl; dlia).
  assert (0 <= j mod 8 < 8) as Hk by dlia.
  destruct (Z.eqb_spec (i / 8) (j / 8)) as [E|E].
  - rewrite u8_testbit, Z.lor_spec, testbit_one, <- E by dlia.
    destruct (Z.eqb_spec (j mod 8) (i mod 8)) as [E2|E2], (Z.eqb_spec j i) as [E3|E3];
      simpl; rewrite ?orb_true_r, ?orb_false_r; try done.
    + destruct E3. apply byte_index; done || lia.
    + by subst.
  - destruct (Z.eqb_spec j i) as [->|]; done.
Qed.

Lemma dbit_clear d i j :
  length d = Z.to_nat BSIZE -> 0 <= i < BPB -> 0 <= j < BPB ->
  dbit (clear_bit d i) j = negb (j =? i) && dbit d j.
Proof.
  intros Hl Hi Hj. unfold dbit, clear_bit. rewrite get8_put8 by (rewrite ?Hl; dlia).
  assert (0 <= j mod 8 < 8) as Hk by dlia.
  destruct (Z.eqb_spec (i / 8) (j / 8)) as [E|E].
  - rewrite u8_testbit, Z.land_spec, Z.lnot_spec, testbit_one, <- E by dlia.
    destruct (Z.eqb_spec (j mod 8) (i mod 8)) as [E2|E2], (Z.eqb_spec j i) as [E3|E3];
      simpl; rewrite ?andb_true_r, ?andb_false_r; try done.
    + destruct E3. apply byte_index; done || lia.
    + by subst.
  - destruct (Z.eqb_spec j i) as [->|]; done.
Qed.

(** ** Room in the log *)

(** [log.lh.n]. *)
Definition lhn (s : fs) : nat := length (tx_blocks (flog s)).

(** In an open transaction, [k] more blocks may be logged. *)
Definition room (k : nat) (s : fs) : Prop :=
  1 <= tx_open (flog s) /\ Z.of_nat (lhn s + k) < tx_size (flog s) /\ (lhn s + k <= 28)%nat.

(** At most [k] blocks were logged. *)
Definition logs (k : nat) (s s' : fs) : Prop :=
  tx_size (flog s') = tx_size (flog s) /\ tx_open (flog s') = tx_open (flog s) /\
  (lhn s' <= lhn s + k)%nat.

Lemma room_logs a b c s s' : room c s -> logs a s s' -> (a + b <= c)%nat -> room b s'.
Proof. unfold room, logs. intros (?&?&?) (E1&E2&?) ?. rewrite E1, E2. lia. Qed.
Lemma room_le a b s : room b s -> (a <= b)%nat -> room a s.
Proof. unfold room. lia. Qed.
Lemma room_lhn k s : room k s -> (lhn s <= 28)%nat.
Proof. unfold room. lia. Qed.
Lemma logs_refl k s : logs k s s.
Proof. unfold logs. lia. Qed.
Lemma logs_trans a b c s1 s2 s3 : logs a s1 s2 -> logs b s2 s3 -> (a + b <= c)%nat -> logs c s1 s3.
Proof. unfold logs. lia. Qed.
Lemma logs_lhn a s s' : logs a s s' -> room a s -> (lhn s' <= 28)%nat.
Proof. unfold logs, room. lia. Qed.

(** Room for what is left, from the room before. *)
Ltac roomy :=
  solve [assumption
        | match goal with H : room _ ?s |- room _ ?s => apply (room_le _ _ _ H); lia end
        | match goal with H : room _ ?s, G : logs _ ?s ?s' |- room _ ?s' =>
            apply (room_logs _ _ _ _ _ H G); lia end].

Definition upd_blk (n : Z) (d : block) (s : fs) : fs :=
  set_blk (fun x => if x =? n then d else blk s x) s.

(** A block stored and logged. *)
Definition log_blk (n : Z) (d : block) (s : fs) : fs := set_flog (log_add n (flog s)) (upd_blk n d s).

Lemma log_blk_logs n d s : logs 1 s (log_blk n d s).
Proof.
  unfold logs, log_blk, lhn, log_add, absorb, set_flog. cbn [flog tx_size tx_open tx_blocks].
  split_and!; try done. case_decide; [lia|]. rewrite length_app. simpl. lia.
Qed.

Lemma lstore_run n d s : room 1 s -> lstore n d s = Ret tt (log_blk n d s).
Proof.
  intros (H1 & H2 & H3). unfold lstore, fstore, flog_write, bind, modify, get. cbn [set_blk flog].
  fold (lhn s). destruct (Z.leb_spec LOGSIZE (Z.of_nat (lhn s))); [lia|].
  destruct (Z.leb_spec (tx_size (flog s) - 1) (Z.of_nat (lhn s))); [lia|].
  cbn [orb]. destruct (Z.ltb_spec (tx_open (flog s)) 1); [lia|done].
Qed.

Lemma lstore_bind {A} s n d (k : unit -> M fs A) :
  room 1 s -> bind (lstore n d) k s = k tt (log_blk n d s).
Proof. intros H. by mstep (lstore_run n d s H). Qed.

(** The header of this model follows the log of log.c: [log_write], [begin_op]
    and [end_op] panic, sleep and return together, and leave the same header. *)
Definition log_view (l : log) (bs : list Z) : fslog :=
  {| tx_blocks := bs; tx_size := lsize l; tx_open := outstanding l |}.

Section Follows.
Context {S : Type} {BC : BlockCache S}.

Lemma flog_write_follows (st : lst S) bs b s :
  lh_n (lg st) = Z.of_nat (length bs) -> flog s = log_view (lg st) bs ->
  let n := bc_blockno (cache st) b in
  match log_write b st with
  | Ret _ st' => flog_write n s = Ret tt (set_flog (log_view (lg st') (absorb bs n)) s)
  | Panic msg => flog_write n s = Panic msg
  | _ => False
  end.
Proof.
  intros Hn Hv n.
  assert (flog_write n s =
    if (LOGSIZE <=? Z.of_nat (length bs)) || (lsize (lg st) - 1 <=? Z.of_nat (length bs))
    then Panic "too big a transaction"
    else if outstanding (lg st) <? 1 then Panic "log_write outside of trans"
    else Ret tt (set_flog (log_add n (log_view (lg st) bs)) s)) as ->.
  { unfold flog_write, bind, get. rewrite Hv. cbn [log_view tx_blocks tx_size tx_open].
    destruct ((LOGSIZE <=? _) || _); [done|]. by destruct (outstanding (lg st) <? 1). }
  unfold log_write, bind at 1, gets at 1. cbv beta. rewrite Hn.
  destruct ((LOGSIZE <=? _) || _); [done|]. destruct (outstanding (lg st) <? 1); [done|].
  unfold lc, gets, upd_lg, modify, bind, ret. cbn [cache lg].
  destruct (_ =? _); reflexivity.
Qed.

Lemma fbegin_op_follows (st : lst S) bs s :
  lh_n (lg st) = Z.of_nat (length bs) -> committing (lg st) = false -> flog s = log_view (lg st) bs ->
  match begin_op st with
  | Ret _ st' => fbegin_op s = Ret tt (set_flog (log_view (lg st') bs) s)
  | Sleep c _ => fbegin_op s = Sleep c s
  | _ => False
  end.
Proof.
  intros Hn Hc Hv. unfold begin_op, fbegin_op, bind, gets, get. rewrite Hc, Hn, Hv.
  cbn [log_view tx_blocks tx_open]. by destruct (LOGSIZE <? _).
Qed.

Lemma fend_op_follows (st st' : lst S) bs s :
  lh_n (lg st) = Z.of_nat (length bs) -> committing (lg st) = false -> flog s = log_view (lg st) bs ->
  lsize (lg st') = lsize (lg st) -> end_op st = Ret tt st' ->
  exists bs', fend_op s = Ret tt (set_flog (log_view (lg st') bs') s) /\
    lh_n (lg st') = Z.of_nat (length bs').
Proof.
  intros Hn Hc Hv Hs He. apply end_op_lg in He as (_ & E1 & E2); [|done|lia].
  exists (if outstanding (lg st) - 1 =? 0 then [] else bs).
  unfold fend_op, modify. rewrite Hv. unfold log_view. cbn [tx_blocks tx_size tx_open].
  rewrite Hs, E1, E2. split; [done|].
  destruct (Z.eqb_spec (outstanding (lg st)) 1), (Z.eqb_spec (outstanding (lg st) - 1) 0); done || lia.
Qed.

End Follows.

(** [bread] by a caller that holds at most one buffer, of another block. *)
Lemma fbread_run held s n :
  (lhn s <= 28)%nat -> (length held <= 1)%nat -> n ∉ held -> n < nblk s ->
  fbread held ROOTDEV n s = Ret (blk s n) s.
Proof.
  intros Ht Hh Hn Hlt. unfold fbread, bind, get. rewrite bool_decide_false by done.
  assert (length (pinned held s) <= 29)%nat as Hp.
  { unfold pinned. rewrite length_app. fold (lhn s).
    pose proof (length_filter (fun x => x ∉ tx_blocks (flog s)) held). lia. }
  destruct (Z.leb_spec (Z.of_nat NBUF) (Z.of_nat (length (pinned held s)))); [lia|].
  rewrite andb_false_r. cbn [Z.eqb negb]. by destruct (Z.leb_spec (nblk s) n); [lia|].
Qed.

Lemma fbread_held {A} held s n (k : block -> M fs A) :
  (lhn s <= 28)%nat -> (length held <= 1)%nat -> n ∉ held -> n < nblk s ->
  bind (fbread held ROOTDEV n) k s = k (blk s n) s.
Proof. intros H1 H2 H3 H4. by mstep (fbread_run held s n H1 H2 H3 H4). Qed.

Lemma fbread_bind {A} s n (k : block -> M fs A) :
  (lhn s <= 28)%nat -> n < nblk s -> bind (fbread [] ROOTDEV n) k s = k (blk s n) s.
Proof. intros H1 H2. apply fbread_held; [done|simpl; lia|apply not_elem_of_nil|done]. Qed.

Lemma fstore_bind {A} s n d (k : unit -> M fs A) : bind (fstore n d) k s = k tt (upd_blk n d s).
Proof. done. Qed.

(** ** The bit map on the disk *)

(** Block [b] is marked in use. *)
Definition used (sb : superblock) (f : Z -> block) (b : Z) : bool :=
  dbit (f (BBLOCK b sb)) (b mod BPB).

Definition is_bmap (sb : superblock) (x : Z) : Prop :=
  sb_bmapstart sb <= x <= sb_bmapstart sb + (sb_size sb - 1) / BPB.

(** A file system whose superblock is the one on the disk, whose bit map lies
    inside the disk, and whose superblock and bit map are marked in use; the log
    keeps at most 28 of the 30 buffers. *)
Record fs_wf (s : fs) : Prop := {
  wf_log : (lhn s <= 28)%nat;
  wf_blocks : forall n, block_ok (blk s n);
  wf_size : 0 < sb_size (fsb s) <= nblk s;
  wf_word : nblk s < 2147483648;
  wf_bmap : 1 < sb_bmapstart (fsb s);
  wf_bmap_end : sb_bmapstart (fsb s) + (sb_size (fsb s) - 1) / BPB < sb_size (fsb s);
  wf_sb : sb_decode (blk s 1) = fsb s;
  wf_used_bmap : forall x, is_bmap (fsb s) x -> used (fsb s) (blk s) x = true;
  wf_used_sb : used (fsb s) (blk s) 1 = true;
}.

Lemma BBLOCK_range s b : fs_wf s -> 0 <= b < sb_size (fsb s) ->
  BBLOCK b (fsb s) = b / BPB + sb_bmapstart (fsb s) /\ is_bmap (fsb s) (BBLOCK b (fsb s)) /\
  BBLOCK b (fsb s) < nblk s.
Proof.
  intros [] Hb. assert (BBLOCK b (fsb s) = b / BPB + sb_bmapstart (fsb s)) as E.
  { unfold BBLOCK. apply u32_small. dlia. }
  split; [done|]. rewrite E. unfold is_bmap. split; dlia.
Qed.

Lemma bzero_run held s n :
  room 1 s -> (length held <= 1)%nat -> n ∉ held -> n < nblk s ->
  bzero held ROOTDEV n s = Ret tt (log_blk n zero_block s).
Proof.
  intros H1 H2 H3 H4. unfold bzero. rewrite fbread_held by (done || by eapply room_lhn).
  by apply lstore_run.
Qed.

(** Buffers that a caller of the allocator may hold: at most one, of a block in
    use that is neither the superblock nor in the bit map. *)
Definition held_ok (held : list Z) (s : fs) : Prop :=
  (length held <= 1)%nat /\
  forall x, x ∈ held -> ~ is_bmap (fsb s) x /\ x <> 1 /\ used (fsb s) (blk s) x = true.

Lemma held_nil s : held_ok [] s.
Proof. split; [simpl; lia|]. intros x Hx. by apply elem_of_nil in Hx. Qed.
Lemma held_one s x :
  ~ is_bmap (fsb s) x -> x <> 1 -> used (fsb s) (blk s) x = true -> held_ok [x] s.
Proof. intros. split; [simpl; lia|]. by intros y ->%list_elem_of_singleton. Qed.
#[local] Hint Resolve held_nil : core.

Lemma held_bmap held s x : held_ok held s -> is_bmap (fsb s) x -> x ∉ held.
Proof. intros [_ H] Hx Hin. by destruct (H x Hin). Qed.
Lemma held_free held s x : held_ok held s -> used (fsb s) (blk s) x = false -> x ∉ held.
Proof. intros [_ H] Hx Hin. destruct (H x Hin) as (_ & _ & E). congruence. Qed.

Lemma balloc_bits_spec n : forall b bi size d,
  match balloc_bits n b bi size d with
  | Some j => bi <= j < bi + Z.of_nat n /\ b + j < size /\ dbit d j = false /\
              forall i, bi <= i < j -> dbit d i = true
  | None => forall i, bi <= i < bi + Z.of_nat n -> b + i < size -> dbit d i = true
  end.
Proof.
  induction n as [|n IH]; intros b bi size d; simpl; [intros; lia|].
  destruct (Z.ltb_spec (b + bi) size); [|intros; lia].
  rewrite bit_free_dbit. destruct (dbit d bi) eqn:E; simpl.
  - specialize (IH b (bi + 1) size d). destruct (balloc_bits n b (bi + 1) size d) as [j|].
    + destruct IH as (H1 & H2 & H3 & H4). split_and!; try lia; [done|].
      intros i Hi. destruct (decide (i = bi)) as [->|]; [done|apply H4; lia].
    + intros i Hi Hs. destruct (decide (i = bi)) as [->|]; [done|apply IH; lia].
  - split_and!; try lia; done.
Qed.

Lemma used_split s k i :
  0 <= i < BPB -> used (fsb s) (blk s) (BPB * k + i) = dbit (blk s (BBLOCK (BPB * k) (fsb s))) i.
Proof.
  intros Hi. unfold used, BBLOCK.
  replace ((BPB * k + i) mod BPB) with i by dlia.
  by replace ((BPB * k + i) / BPB) with (BPB * k / BPB) by dlia.
Qed.

(** The state after [balloc] has taken block [b]. *)
Definition balloc_state (b : Z) (s : fs) : fs :=
  log_blk b zero_block
    (log_blk (BBLOCK b (fsb s)) (set_bit (blk s (BBLOCK b (fsb s))) (b mod BPB)) s).

Lemma balloc_loop_found held n : forall k s b,
  fs_wf s -> held_ok held s -> room 2 s -> 0 <= k -> sb_size (fsb s) <= BPB * (k + Z.of_nat n) ->
  BPB * k <= b < sb_size (fsb s) -> used (fsb s) (blk s) b = false ->
  (forall x, BPB * k <= x < b -> used (fsb s) (blk s) x = true) ->
  balloc_loop n held ROOTDEV (BPB * k) s = Ret b (balloc_state b s).
Proof.
  induction n as [|n IH]; intros k s b Hwf Hh Hroom Hk Hn Hb Hfree Hlow; [lia|].
  cbn [balloc_loop]. unfold bind at 1, get.
  destruct (Z.ltb_spec (BPB * k) (sb_size (fsb s))); [|lia].
  destruct (BBLOCK_range s (BPB * k) Hwf) as (_ & Hbm & Hbb); [lia|].
  rewrite fbread_held by (done || apply Hwf || apply Hh || by eapply held_bmap). set (d := blk s (BBLOCK (BPB * k) (fsb s))).
  pose proof (balloc_bits_spec (Z.to_nat BPB) (BPB * k) 0 (sb_size (fsb s)) d) as Hspec.
  destruct (balloc_bits (Z.to_nat BPB) (BPB * k) 0 (sb_size (fsb s)) d) as [j|].
  - destruct Hspec as (Hj & Hs & Hf & Hall). rewrite Z2Nat.id in Hj by lia.
    assert (BPB * k + j = b) as Eb.
    { destruct (Z.lt_trichotomy (BPB * k + j) b) as [Hlt|[?|Hgt]]; [|done|].
      - pose proof (Hlow (BPB * k + j) ltac:(lia)) as Hu. rewrite used_split in Hu by lia.
        unfold d in Hf. congruence.
      - assert (dbit d (b - BPB * k) = true) as Hu by (apply Hall; lia).
        replace b with (BPB * k + (b - BPB * k)) in Hfree by lia.
        rewrite used_split in Hfree by lia. unfold d in Hu. congruence. }
    rewrite lstore_bind by roomy. subst b.
    pose proof (wf_size _ Hwf) as Hsz.
    rewrite (bind_ret _ _ _ _ _ (bzero_run held (log_blk (BBLOCK (BPB * k) (fsb s)) (set_bit d j) s) (BPB * k + j)
       (room_logs 1 1 2 _ _ Hroom (log_blk_logs _ _ _) ltac:(lia)) ltac:(apply Hh)
       ltac:(by eapply held_free) ltac:(simpl; lia))).
    unfold balloc_state, ret. f_equal.
    assert (BBLOCK (BPB * k + j) (fsb s) = BBLOCK (BPB * k) (fsb s)) as ->
      by (unfold BBLOCK; by replace ((BPB * k + j) / BPB) with (BPB * k / BPB) by dlia).
    by replace ((BPB * k + j) mod BPB) with j by dlia.
  - rewrite Z2Nat.id in Hspec by lia.
    destruct (Z.ltb_spec b (BPB * k + BPB)) as [Hlt|Hge].
    { replace b with (BPB * k + (b - BPB * k)) in Hfree by lia.
      rewrite used_split in Hfree by lia. fold d in Hfree.
      rewrite Hspec in Hfree by lia. done. }
    replace (BPB * k + BPB) with (BPB * (k + 1)) by lia.
    apply IH; try done; try lia. intros x Hx. apply Hlow. lia.
Qed.

Lemma balloc_loop_full held n : forall k s,
  fs_wf s -> held_ok held s -> 0 <= k -> (forall x, BPB * k <= x < sb_size (fsb s) -> used (fsb s) (blk s) x = true) ->
  balloc_loop n held ROOTDEV (BPB * k) s = Panic "balloc: out of blocks".
Proof.
  induction n as [|n IH]; intros k s Hwf Hh Hk Hfull; [done|].
  cbn [balloc_loop]. unfold bind at 1, get.
  destruct (Z.ltb_spec (BPB * k) (sb_size (fsb s))); [|done].
  destruct (BBLOCK_range s (BPB * k) Hwf) as (_ & Hbm & Hbb); [lia|].
  rewrite fbread_held by (done || apply Hwf || apply Hh || by eapply held_bmap). set (d := blk s (BBLOCK (BPB * k) (fsb s))).
  pose proof (balloc_bits_spec (Z.to_nat BPB) (BPB * k) 0 (sb_size (fsb s)) d) as Hspec.
  destruct (balloc_bits (Z.to_nat BPB) (BPB * k) 0 (sb_size (fsb s)) d) as [j|].
  - destruct Hspec as (Hj & Hs & Hf & _). rewrite Z2Nat.id in Hj by lia.
    pose proof (Hfull (BPB * k + j) ltac:(lia)) as Hu. rewrite used_split in Hu by lia.
    unfold d in Hf. congruence.
  - replace (BPB * k + BPB) with (BPB * (k + 1)) by lia. apply IH; [done|done|lia|].
    intros x Hx. apply Hfull. lia.
Qed.

(** ** The allocator as a set of blocks *)

Lemma used_upd sb f n d x :
  BBLOCK x sb <> n -> used sb (fun y => if y =? n then d else f y) x = used sb f x.
Proof. intros H. unfold used. by destruct (Z.eqb_spec (BBLOCK x sb) n). Qed.

(** A store to the bit of block [b], [v] being its new value. *)
Lemma used_store s b d v x :
  fs_wf s -> 0 <= b < sb_size (fsb s) -> 0 <= x < sb_size (fsb s) ->
  (forall j, 0 <= j < BPB -> dbit d j = if j =? b mod BPB then v
                                        else dbit (blk s (BBLOCK b (fsb s))) j) ->
  used (fsb s) (fun y => if y =? BBLOCK b (fsb s) then d else blk s y) x =
  if x =? b then v else used (fsb s) (blk s) x.
Proof.
  intros Hwf Hb Hx Hd. destruct (BBLOCK_range s b Hwf Hb) as (Eb & _ & _).
  destruct (BBLOCK_range s x Hwf Hx) as (Ex & _ & _). unfold used. rewrite Ex, Eb in *.
  destruct (Z.eqb_spec (x / BPB + sb_bmapstart (fsb s)) (b / BPB + sb_bmapstart (fsb s))) as [E|E].
  - rewrite Hd by dlia. destruct (Z.eqb_spec (x mod BPB) (b mod BPB)), (Z.eqb_spec x b);
      try done; [dlia|by subst|by rewrite E].
  - destruct (Z.eqb_spec x b); [by subst|done].
Qed.

Lemma block_ok_set d i : block_ok d -> block_ok (set_bit d i).
Proof. apply block_ok_put8. Qed.
Lemma block_ok_clear d i : block_ok d -> block_ok (clear_bit d i).
Proof. apply block_ok_put8. Qed.

Lemma free_not_bmap s b : fs_wf s -> used (fsb s) (blk s) b = false -> ~ is_bmap (fsb s) b /\ b <> 1.
Proof.
  intros Hwf Hf. split.
  - intros H%(wf_used_bmap _ Hwf). congruence.
  - intros ->. pose proof (wf_used_sb _ Hwf). congruence.
Qed.

Lemma balloc_state_used s b x :
  fs_wf s -> 0 <= b < sb_size (fsb s) -> used (fsb s) (blk s) b = false ->
  0 <= x < sb_size (fsb s) ->
  used (fsb s) (blk (balloc_state b s)) x = (x =? b) || used (fsb s) (blk s) x.
Proof.
  intros Hwf Hb Hf Hx. destruct (free_not_bmap s b Hwf Hf) as [Hn _].
  destruct (BBLOCK_range s x Hwf Hx) as (_ & Hbx & _).
  unfold balloc_state, log_blk, upd_blk, set_flog, set_blk. cbn [blk].
  rewrite used_upd by (intros E; by rewrite E in Hbx).
  rewrite (used_store s b _ true x Hwf Hb Hx).
  - by destruct (x =? b).
  - intros j Hj. rewrite dbit_set by (apply (wf_blocks _ Hwf) || dlia).
    by destruct (j =? b mod BPB).
Qed.

Lemma balloc_state_blk s b x :
  ~ is_bmap (fsb s) x -> fs_wf s -> 0 <= b < sb_size (fsb s) ->
  blk (balloc_state b s) x = if x =? b then zero_block else blk s x.
Proof.
  intros Hn Hwf Hb. destruct (BBLOCK_range s b Hwf Hb) as (_ & Hbb & _).
  unfold balloc_state, log_blk, upd_blk, set_flog, set_blk. cbn [blk].
  destruct (x =? b); [done|]. destruct (Z.eqb_spec x (BBLOCK b (fsb s))); [by subst|done].
Qed.

Lemma sb_not_bmap s : fs_wf s -> ~ is_bmap (fsb s) 1.
Proof. intros Hwf. pose proof (wf_bmap _ Hwf). unfold is_bmap. lia. Qed.

Lemma bmap_block_size s x : fs_wf s -> is_bmap (fsb s) x -> 0 <= x < sb_size (fsb s).
Proof. intros Hwf Hx. pose proof (wf_bmap _ Hwf). pose proof (wf_bmap_end _ Hwf). unfold is_bmap in Hx. lia. Qed.

(** Well-formedness depends on the bits of the fixed blocks only. *)
Lemma fs_wf_change s s' :
  fs_wf s -> (lhn s' <= 28)%nat -> nblk s' = nblk s -> fsb s' = fsb s -> (forall n, block_ok (blk s' n)) ->
  blk s' 1 = blk s 1 ->
  (forall x, is_bmap (fsb s) x \/ x = 1 -> used (fsb s) (blk s') x = true) -> fs_wf s'.
Proof.
  intros [] Ht Hn Hf Hb H1 Hu. split; rewrite ?Hn, ?Hf, ?H1; try done.
  - intros x Hx. apply Hu. by left.
  - apply Hu. by right.
Qed.

Lemma balloc_state_logs s b : logs 2 s (balloc_state b s).
Proof. eapply (logs_trans 1 1); [apply log_blk_logs..|lia]. Qed.

Lemma balloc_state_wf s b :
  fs_wf s -> room 2 s -> 0 <= b < sb_size (fsb s) -> used (fsb s) (blk s) b = false -> fs_wf (balloc_state b s).
Proof.
  intros Hwf Hroom Hb Hf. destruct (free_not_bmap s b Hwf Hf) as [Hn H1].
  apply (fs_wf_change s); try done.
  - eapply logs_lhn; [apply balloc_state_logs|done].
  - intros n. unfold balloc_state, log_blk, upd_blk, set_flog, set_blk. cbn [blk].
    destruct (n =? b); [apply block_ok_zero|].
    destruct (n =? BBLOCK b (fsb s)); [apply block_ok_set|]; apply (wf_blocks _ Hwf).
  - rewrite balloc_state_blk by (done || by apply sb_not_bmap).
    destruct (Z.eqb_spec 1 b); [congruence|done].
  - intros x Hx. assert (0 <= x < sb_size (fsb s)) as Hr.
    { destruct Hx as [Hx| ->]; [by apply bmap_block_size|].
      pose proof (wf_bmap _ Hwf). pose proof (wf_bmap_end _ Hwf). pose proof (wf_size _ Hwf). dlia. }
    rewrite balloc_state_used by done.
    destruct Hx as [Hx| ->]; [rewrite (wf_used_bmap _ Hwf x Hx)|rewrite (wf_used_sb _ Hwf)];
      apply orb_true_r.
Qed.

(** The least free block, if there is one. *)
Lemma least_free s :
  (forall x, 0 <= x < sb_size (fsb s) -> used (fsb s) (blk s) x = true) \/
  exists b, 0 <= b < sb_size (fsb s) /\ used (fsb s) (blk s) b = false /\
    forall x, 0 <= x < b -> used (fsb s) (blk s) x = true.
Proof.
  destruct (Z.le_gt_cases (sb_size (fsb s)) 0) as [Hs|Hs]; [left; intros; lia|].
  assert (forall n : nat, (forall x, 0 <= x < Z.of_nat n -> used (fsb s) (blk s) x = true) \/
    exists b, 0 <= b < Z.of_nat n /\ used (fsb s) (blk s) b = false /\
      forall x, 0 <= x < b -> used (fsb s) (blk s) x = true) as H.
  { induction n as [|n [IH|(b & Hb & Hf & Hl)]]; [left; intros; lia| |].
    - destruct (used (fsb s) (blk s) (Z.of_nat n)) eqn:E.
      + left. intros x Hx. destruct (decide (x = Z.of_nat n)) as [->|]; [done|apply IH; lia].
      + right. exists (Z.of_nat n). split_and!; [lia|lia|done|done].
    - right. exists b. split_and!; [lia|lia|done|done]. }
  specialize (H (Z.to_nat (sb_size (fsb s)))). by rewrite Z2Nat.id in H by lia.
Qed.

Lemma balloc_found held s b :
  fs_wf s -> held_ok held s -> room 2 s -> 0 <= b < sb_size (fsb s) -> used (fsb s) (blk s) b = false ->
  (forall x, 0 <= x < b -> used (fsb s) (blk s) x = true) ->
  balloc held ROOTDEV s = Ret b (balloc_state b s).
Proof.
  intros Hwf Hh Hroom Hb Hf Hl. unfold balloc, bind, get.
  apply (balloc_loop_found _ _ 0); try done. pose proof (wf_size _ Hwf).
  rewrite Z2Nat.id by dlia. dlia.
Qed.

(** What every caller of [balloc] relies on. *)
Lemma balloc_ok held s :
  fs_wf s -> held_ok held s -> room 2 s -> (exists x, 0 <= x < sb_size (fsb s) /\ used (fsb s) (blk s) x = false) ->
  exists b s', balloc held ROOTDEV s = Ret b s' /\ fs_wf s' /\ logs 2 s s' /\
    0 <= b < sb_size (fsb s) /\ used (fsb s) (blk s) b = false /\
    fsb s' = fsb s /\ nblk s' = nblk s /\ inodes s' = inodes s /\ fpid s' = fpid s /\ cwd s' = cwd s /\
    blk s' b = zero_block /\ ~ is_bmap (fsb s) b /\ b <> 1 /\
    (forall x, ~ is_bmap (fsb s) x -> x <> b -> blk s' x = blk s x) /\
    (forall x, 0 <= x < sb_size (fsb s) ->
       used (fsb s) (blk s') x = (x =? b) || used (fsb s) (blk s) x).
Proof.
  intros Hwf Hh Hroom (y & Hy & Hfy).
  destruct (least_free s) as [Hall|(b & Hb & Hf & Hl)]; [by rewrite Hall in Hfy|].
  destruct (free_not_bmap s b Hwf Hf) as [Hn H1].
  exists b, (balloc_state b s). split_and!; try done; try lia.
  - by apply balloc_found.
  - by apply balloc_state_wf.
  - apply balloc_state_logs.
  - rewrite balloc_state_blk, Z.eqb_refl by done. done.
  - intros x Hx Hne. rewrite balloc_state_blk by done. by destruct (Z.eqb_spec x b).
  - intros x Hx. by apply balloc_state_used.
Qed.

(** [bfree] first reads the superblock again, which changes nothing here. *)
Lemma freadsb_run held s : fs_wf s -> held_ok held s -> freadsb held ROOTDEV s = Ret tt s.
Proof.
  intros Hwf Hh. unfold freadsb. pose proof (wf_size _ Hwf). pose proof (wf_bmap _ Hwf).
  pose proof (wf_bmap_end _ Hwf). rewrite fbread_held; [|apply Hwf|apply Hh|intros Hin; by apply Hh in Hin as (_ & ? & _)|dlia].
  unfold modify. rewrite (wf_sb _ Hwf). by destruct s.
Qed.

Lemma bfree_run held s b :
  fs_wf s -> held_ok held s -> room 1 s -> 0 <= b < sb_size (fsb s) ->
  bfree held ROOTDEV b s =
  if used (fsb s) (blk s) b
  then Ret tt (log_blk (BBLOCK b (fsb s)) (clear_bit (blk s (BBLOCK b (fsb s))) (b mod BPB)) s)
  else Panic "freeing free block".
Proof.
  intros Hwf Hh Hroom Hb. destruct (BBLOCK_range s b Hwf Hb) as (_ & Hbm & Hlt).
  unfold bfree. mstep (freadsb_run held s Hwf Hh). unfold bind at 1, get.
  rewrite fbread_held by (done || apply Hwf || apply Hh || by eapply held_bmap).
  rewrite bit_free_dbit. unfold used. destruct (dbit _ _); [|done]. by apply lstore_run.
Qed.

Lemma bfree_ok held s b :
  fs_wf s -> held_ok held s -> room 1 s -> 0 <= b < sb_size (fsb s) -> ~ is_bmap (fsb s) b -> b <> 1 ->
  used (fsb s) (blk s) b = true ->
  exists s', bfree held ROOTDEV b s = Ret tt s' /\ fs_wf s' /\ logs 1 s s' /\
    fsb s' = fsb s /\ nblk s' = nblk s /\ inodes s' = inodes s /\ fpid s' = fpid s /\ cwd s' = cwd s /\
    (forall x, ~ is_bmap (fsb s) x -> blk s' x = blk s x) /\
    (forall x, 0 <= x < sb_size (fsb s) ->
       used (fsb s) (blk s') x = negb (x =? b) && used (fsb s) (blk s) x).
Proof.
  intros Hwf Hh Hroom Hb Hnb H1 Hu. destruct (BBLOCK_range s b Hwf Hb) as (_ & Hbb & _).
  set (s' := log_blk (BBLOCK b (fsb s)) (clear_bit (blk s (BBLOCK b (fsb s))) (b mod BPB)) s).
  assert (forall x, ~ is_bmap (fsb s) x -> blk s' x = blk s x) as Hblk.
  { intros x Hx. simpl. destruct (Z.eqb_spec x (BBLOCK b (fsb s))); [by subst|done]. }
  assert (forall x, 0 <= x < sb_size (fsb s) ->
       used (fsb s) (blk s') x = negb (x =? b) && used (fsb s) (blk s) x) as Hused.
  { intros x Hx. simpl. rewrite (used_store s b _ false x Hwf Hb Hx).
    - by destruct (x =? b).
    - intros j Hj. rewrite dbit_clear by (apply (wf_blocks _ Hwf) || dlia).
      by destruct (j =? b mod BPB). }
  exists s'. split_and!; try done; [by rewrite bfree_run, Hu| |apply log_blk_logs].
  apply (fs_wf_change s); try done.
  - eapply logs_lhn; [apply log_blk_logs|done].
  - intros n. simpl. destruct (n =? BBLOCK b (fsb s)); [apply block_ok_clear|]; apply (wf_blocks _ Hwf).
  - apply Hblk. by apply sb_not_bmap.
  - intros x Hx. assert (0 <= x < sb_size (fsb s)) as Hr.
    { destruct Hx as [Hx| ->]; [by apply bmap_block_size|].
      pose proof (wf_bmap _ Hwf). pose proof (wf_bmap_end _ Hwf). pose proof (wf_size _ Hwf). dlia. }
    rewrite Hused by done. destruct Hx as [Hx| ->].
    + rewrite (wf_used_bmap _ Hwf x Hx). destruct (Z.eqb_spec x b); [by subst|done].
    + rewrite (wf_used_sb _ Hwf). destruct (Z.eqb_spec 1 b); [congruence|done].
Qed.

(** ** A small file system: 200 blocks, of which the first 60 are in use *)

Definition fs0_sb : block :=
  put32 (put32 (put32 (put32 (put32 (put32 (put32 zero_block
    0 200) 4 140) 8 200) 12 30) 16 2) 20 32) 24 58.
Definition fs0_map : block := foldl (fun d i => set_bit d i) zero_block (seqZ 0 60).
Definition fs0 : fs :=
  {| blk := fun n => if n =? 1 then fs0_sb else if n =? 58 then fs0_map else zero_block;
     nblk := 200; fsb := sb_decode fs0_sb;
     inodes := replicate NINODE inhabitant; fpid := 1; cwd := 0;
     flog := {| tx_blocks := []; tx_size := 30; tx_open := 1 |} |}.

Lemma fs0_sb_decode :
  fsb fs0 = {| sb_size := 200; sb_nblocks := 140; sb_ninodes := 200; sb_nlog := 30;
               sb_logstart := 2; sb_inodestart := 32; sb_bmapstart := 58 |}.
Proof. vm_compute. reflexivity. Qed.

Lemma foldl_set_ok l : forall d, block_ok d -> block_ok (foldl (fun d i => set_bit d i) d l).
Proof. induction l as [|i l IH]; intros d Hd; [done|]. simpl. apply IH. by apply block_ok_set. Qed.

Lemma fs0_wf : fs_wf fs0.
Proof.
  split; rewrite ?fs0_sb_decode; cbn [sb_size sb_bmapstart nblk fs0]; try lia.
  - unfold lhn. simpl. lia.
  - intros n. simpl. destruct (n =? 1).
    { unfold fs0_sb. do 7 apply block_ok_put32. apply block_ok_zero. }
    destruct (n =? 58); [apply foldl_set_ok|]; apply block_ok_zero.
  - vm_compute. reflexivity.
  - vm_compute. reflexivity.
  - intros x Hx. unfold is_bmap in Hx. cbn [sb_size sb_bmapstart] in Hx.
    assert (x = 58) as -> by dlia. vm_compute. reflexivity.
  - vm_compute. reflexivity.
Qed.

Lemma fs0_room k : (k <= 28)%nat -> room k fs0.
Proof. intros Hk. unfold room, lhn, fs0. cbn [flog tx_open tx_size tx_blocks length]. lia. Qed.

(** ** Properties *)

(** In a transaction with room for two blocks, [balloc] takes the least block
    that the bit map has free: it is marked, zeroed and returned, no other block
    outside the bit map changes, no other bit changes; when every block is in
    use it panics. *)
Theorem balloc_least_free held s :
  fs_wf s -> held_ok held s -> room 2 s ->
  (exists b s', balloc held ROOTDEV s = Ret b s' /\ fs_wf s' /\ logs 2 s s' /\
     0 <= b < sb_size (fsb s) /\ used (fsb s) (blk s) b = false /\
     (forall x, 0 <= x < b -> used (fsb s) (blk s) x = true) /\
     blk s' b = zero_block /\
     (forall x, ~ is_bmap (fsb s) x -> x <> b -> blk s' x = blk s x) /\
     (forall x, 0 <= x < sb_size (fsb s) ->
        used (fsb s) (blk s') x = (x =? b) || used (fsb s) (blk s) x)) \/
  (balloc held ROOTDEV s = Panic "balloc: out of blocks" /\
   forall x, 0 <= x < sb_size (fsb s) -> used (fsb s) (blk s) x = true).
Proof.
  intros Hwf Hh Hroom. destruct (least_free s) as [Hall|(b & Hb & Hf & Hl)].
  - right. split; [|done]. unfold balloc, bind, get.
    apply (balloc_loop_full _ _ 0); [done|done|lia|]. intros x Hx. apply Hall. lia.
  - left. destruct (free_not_bmap s b Hwf Hf) as [Hn H1].
    exists b, (balloc_state b s). split_and!; try done; try lia.
    + by apply balloc_found.
    + by apply balloc_state_wf.
    + apply balloc_state_logs.
    + rewrite balloc_state_blk, Z.eqb_refl by done. done.
    + intros x Hx Hne. rewrite balloc_state_blk by done. by destruct (Z.eqb_spec x b).
    + intros x Hx. by apply balloc_state_used.
Qed.

Lemma balloc_least_free_witness :
  exists s', balloc [] ROOTDEV fs0 = Ret 60 s' /\ used (fsb fs0) (blk s') 60 = true.
Proof.
  destruct (balloc_least_free [] fs0 fs0_wf (held_nil fs0) (fs0_room 2 ltac:(lia)))
    as [(b & s' & R & _ & _ & Hb & Hf & Hl & _ & _ & Hu)|[_ H]].
  - assert (b = 60) as ->.
    { destruct (Z.lt_trichotomy b 60) as [Hlt|[?|Hgt]]; [|done|].
      - assert (forallb (fun x => used (fsb fs0) (blk fs0) x) (seqZ 0 60) = true) as Hall
          by (vm_compute; reflexivity).
        rewrite List.forallb_forall in Hall. rewrite Hall in Hf; [done|].
        apply list_elem_of_In, elem_of_seqZ. lia.
      - assert (used (fsb fs0) (blk fs0) 60 = false) as E by (vm_compute; reflexivity).
        rewrite Hl in E by lia. done. }
    exists s'. split; [done|]. rewrite Hu by done. done.
  - assert (used (fsb fs0) (blk fs0) 60 = false) as E by (vm_compute; reflexivity).
    rewrite H in E; [done|]. rewrite fs0_sb_decode. simpl. lia.
Defined.

(** In a transaction with room for three blocks, [bfree] of a block in use clears its bit and changes nothing else;
    [bfree] of a free block panics. Allocation and release are inverse: freeing
    what [balloc] returned restores the set of blocks in use. *)
Theorem bfree_inverts_balloc s b :
  fs_wf s -> room 3 s -> 0 <= b < sb_size (fsb s) -> ~ is_bmap (fsb s) b -> b <> 1 ->
  (if used (fsb s) (blk s) b then
     exists s', bfree [] ROOTDEV b s = Ret tt s' /\ fs_wf s' /\
       (forall x, ~ is_bmap (fsb s) x -> blk s' x = blk s x) /\
       (forall x, 0 <= x < sb_size (fsb s) ->
          used (fsb s) (blk s') x = negb (x =? b) && used (fsb s) (blk s) x)
   else
     bfree [] ROOTDEV b s = Panic "freeing free block" /\
     exists a s', (let* a := balloc [] ROOTDEV in bfree [] ROOTDEV a ;;; ret a) s = Ret a s' /\
       forall x, 0 <= x < sb_size (fsb s) -> used (fsb s) (blk s') x = used (fsb s) (blk s) x).
Proof.
  intros Hwf Hroom Hb Hnb H1. assert (room 1 s) as Hr1 by roomy.
  destruct (used (fsb s) (blk s) b) eqn:E.
  - destruct (bfree_ok [] s b Hwf (held_nil s) Hr1 Hb Hnb H1 E) as (s' & R & W & _ & _ & _ & _ & _ & _ & B & U). eauto 10.
  - split; [by rewrite bfree_run, E|].
    destruct (balloc_ok [] s Hwf (held_nil s) ltac:(roomy))
      as (a & s1 & R1 & W1 & G1 & Ha & Hf & F1 & F2 & _ & _ & _ & _ & Hn & H1a & _ & U1).
    { by exists b. }
    destruct (bfree_ok [] s1 a W1 (held_nil s1)) as (s2 & R2 & _ & _ & _ & _ & _ & _ & _ & _ & U2);
      rewrite ?F1; try done.
    { roomy. }
    { by rewrite U1, Z.eqb_refl. }
    exists a, s2. split; [mstep R1; by mstep R2|]. intros x Hx.
    rewrite F1 in U2. rewrite U2, U1 by done. destruct (Z.eqb_spec x a) as [->|]; simpl; [by rewrite Hf|done].
Qed.

Lemma bfree_inverts_balloc_witness :
  exists s', bfree [] ROOTDEV 59 fs0 = Ret tt s' /\ used (fsb fs0) (blk s') 59 = false.
Proof.
  pose proof (bfree_inverts_balloc fs0 59 fs0_wf (fs0_room 3 ltac:(lia))) as H.
  assert (used (fsb fs0) (blk fs0) 59 = true) as E by (vm_compute; reflexivity). rewrite E in H.
  destruct H as (s' & R & _ & _ & U).
  - rewrite fs0_sb_decode. simpl. lia.
  - rewrite fs0_sb_decode. unfold is_bmap. cbn [sb_size sb_bmapstart]. dlia.
  - lia.
  - exists s'. split; [done|]. rewrite U; [done|]. rewrite fs0_sb_decode. simpl. lia.
Defined.
