(* ===== verification/FsInode.v ===== *)
(** Inodes (fs.c): the on-disk format, the inode cache and its reference
    counts. *)

From Stdlib Require Import ZArith Lia.
From stdpp Require Import base strings gmap numbers list.
From S2P Require Import Prelude KString BlockLayer Bio Log Fs FsAlloc.

Open Scope Z_scope.

(** ** The on-disk inode *)

Lemma length_put16 l i v : length (put16 l i v) = length l.
Proof. unfold put16. by rewrite !length_put8. Qed.

Lemma get8_put16 l i v j :
  0 <= i -> i + 2 <= Z.of_nat (length l) -> 0 <= j ->
  get8 (put16 l i v) j =
  if (i <=? j) && (j <? i + 2) then byte_of v (j - i) else get8 l j.
Proof.
  intros Hi Hl Hj. unfold put16.
  rewrite !get8_put8, !(u8_small (byte_of _ _)) by
    (rewrite ?length_put8; lia || apply byte_of_range).
  range_cases; try done; f_equal; lia.
Qed.

Lemma get16_put16_eq l i v :
  0 <= i -> i + 2 <= Z.of_nat (length l) -> get16 (put16 l i v) i = v mod 65536.
Proof.
  intros. unfold get16. rewrite !get8_put16 by lia. range_cases.
  replace (i + 1 - i) with 1 by lia. rewrite Z.sub_diag. unfold byte_of.
  change (256 ^ 0) with 1. change (256 ^ 1) with 256. dlia.
Qed.

Lemma i16_mod v : -32768 <= v < 32768 -> i16 (v mod 65536) = v.
Proof. intros. unfold i16. rewrite Z.mod_mod by lia. destruct (Z.ltb_spec (v mod 65536) 32768); dlia. Qed.

(** Fields read from bytes that two blocks share are equal. *)
Lemma get16_ext d d' i :
  (forall j, i <= j < i + 2 -> get8 d j = get8 d' j) -> get16 d i = get16 d' i.
Proof. intros H. unfold get16. by rewrite !H by lia. Qed.
Lemma get32_ext d d' i :
  (forall j, i <= j < i + 4 -> get8 d j = get8 d' j) -> get32 d i = get32 d' i.
Proof. intros H. unfold get32. by rewrite !H by lia. Qed.
Lemma get_addrs_ext n : forall d d' o,
  (forall j, o <= j < o + 4 * Z.of_nat n -> get8 d j = get8 d' j) ->
  get_addrs n d o = get_addrs n d' o.
Proof.
  induction n as [|n IH]; intros d d' o H; simpl; [done|]. f_equal.
  - apply get32_ext. intros j Hj. apply H. lia.
  - apply IH. intros j Hj. apply H. lia.
Qed.

Lemma put_addrs_frame l : forall d o j,
  0 <= o -> o + 4 * Z.of_nat (length l) <= Z.of_nat (length d) -> 0 <= j ->
  j < o \/ o + 4 * Z.of_nat (length l) <= j -> get8 (put_addrs l d o) j = get8 d j.
Proof.
  induction l as [|a l IH]; intros d o j Ho Hl Hj Hout; simpl in *; [done|].
  rewrite IH by (rewrite ?length_put32; lia). rewrite get8_put32 by lia. by range_cases.
Qed.

Lemma length_put_addrs l : forall d o, length (put_addrs l d o) = length d.
Proof. induction l as [|a l IH]; intros d o; simpl; [done|]. by rewrite IH, length_put32. Qed.

Lemma get_put_addrs l : forall d o,
  0 <= o -> o + 4 * Z.of_nat (length l) <= Z.of_nat (length d) ->
  Forall (fun a => 0 <= a < 4294967296) l -> get_addrs (length l) (put_addrs l d o) o = l.
Proof.
  induction l as [|a l IH]; intros d o Ho Hl Hr; simpl in *; [done|].
  apply Forall_cons in Hr as [Ha Hr]. f_equal.
  - rewrite (get32_ext _ (put32 d o a)).
    + rewrite get32_put32_eq by lia. by apply u32_small.
    + intros j Hj. apply put_addrs_frame; rewrite ?length_put32; lia.
  - apply IH; [lia| |done]. rewrite length_put32. lia.
Qed.

(** An inode whose fields fit their types on the disk. *)
Record inode_ok (x : inode) : Prop := {
  ok_inum : 0 <= i_inum x < 4294967296;
  ok_type : -32768 <= i_type x < 32768;
  ok_major : -32768 <= i_major x < 32768;
  ok_minor : -32768 <= i_minor x < 32768;
  ok_nlink : -32768 <= i_nlink x < 32768;
  ok_size : 0 <= i_size x < 4294967296;
  ok_addrs : length (i_addrs x) = 13%nat;
  ok_addrs_word : Forall (fun a => 0 <= a < 4294967296) (i_addrs x);
}.

Lemma doff_range i : 0 <= doff i /\ doff i + 64 <= BSIZE.
Proof. unfold doff. dlia. Qed.

Lemma dinode_put_frame x d j :
  inode_ok x -> length d = Z.to_nat BSIZE -> 0 <= j ->
  j < doff (i_inum x) \/ doff (i_inum x) + 64 <= j -> get8 (dinode_put x d) j = get8 d j.
Proof.
  intros Hx Hd Hj Hout. pose proof (doff_range (i_inum x)) as Ho.
  pose proof (ok_addrs _ Hx) as Ha. unfold dinode_put.
  rewrite put_addrs_frame by (rewrite ?length_put32, ?length_put16, ?Ha; lia).
  rewrite get8_put32 by (rewrite ?length_put16; lia).
  rewrite !get8_put16 by (rewrite ?length_put16; lia).
  by range_cases.
Qed.

Lemma dinode_get_put x d :
  inode_ok x -> length d = Z.to_nat BSIZE -> dinode_get (dinode_put x d) x = set_i_valid true x.
Proof.
  intros Hx Hd. pose proof (doff_range (i_inum x)) as Ho.
  destruct Hx as [X1 X2 X3 X4 X5 X6 Ha X8]. unfold dinode_get, set_i_valid. set (o := doff (i_inum x)) in *.
  set (d1 := put16 d o (i_type x)). set (d2 := put16 d1 (o + 2) (i_major x)).
  set (d3 := put16 d2 (o + 4) (i_minor x)). set (d4 := put16 d3 (o + 6) (i_nlink x)).
  set (d5 := put32 d4 (o + 8) (i_size x)).
  assert (length d1 = Z.to_nat BSIZE) as L1 by (unfold d1; by rewrite length_put16).
  assert (length d2 = Z.to_nat BSIZE) as L2 by (unfold d2; by rewrite length_put16).
  assert (length d3 = Z.to_nat BSIZE) as L3 by (unfold d3; by rewrite length_put16).
  assert (length d4 = Z.to_nat BSIZE) as L4 by (unfold d4; by rewrite length_put16).
  assert (length d5 = Z.to_nat BSIZE) as L5 by (unfold d5; by rewrite length_put32).
  assert (dinode_put x d = put_addrs (i_addrs x) d5 (o + 12)) as -> by done.
  assert (forall j, o <= j < o + 12 -> get8 (put_addrs (i_addrs x) d5 (o + 12)) j = get8 d5 j) as F.
  { intros j Hj. apply put_addrs_frame; rewrite ?L5, ?Ha; lia. }
  assert (forall j, o <= j < o + 8 -> get8 d5 j = get8 d4 j) as F5.
  { intros j Hj. unfold d5. rewrite get8_put32 by lia. by range_cases. }
  f_equal.
  - rewrite (get16_ext _ d1); [unfold d1; rewrite get16_put16_eq, i16_mod by lia; done|].
    intros j Hj. rewrite F, F5 by lia. unfold d4, d3, d2. rewrite 3!get8_put16 by (rewrite ?length_put16; lia). by range_cases.
  - rewrite (get16_ext _ d2); [unfold d2; rewrite get16_put16_eq, i16_mod by lia; done|].
    intros j Hj. rewrite F, F5 by lia. unfold d4, d3. rewrite 2!get8_put16 by (rewrite ?length_put16; lia). by range_cases.
  - rewrite (get16_ext _ d3); [unfold d3; rewrite get16_put16_eq, i16_mod by lia; done|].
    intros j Hj. rewrite F, F5 by lia. unfold d4. rewrite get8_put16 by (rewrite ?length_put16; lia). by range_cases.
  - rewrite (get16_ext _ d4); [unfold d4; rewrite get16_put16_eq, i16_mod by lia; done|].
    intros j Hj. by rewrite F, F5 by lia.
  - rewrite (get32_ext _ d5); [unfold d5; rewrite get32_put32_eq, u32_small by lia; done|].
    intros j Hj. by rewrite F by lia.
  - rewrite <- Ha at 1. apply get_put_addrs; [lia|rewrite L5, Ha; lia|done].
Qed.

(** Another inode of the same block is read back unchanged. *)
Lemma dinode_get_other x y d :
  inode_ok x -> length d = Z.to_nat BSIZE -> i_inum x mod IPB <> i_inum y mod IPB ->
  dinode_get (dinode_put x d) y = dinode_get d y.
Proof.
  intros Hx Hd Hne. pose proof (doff_range (i_inum y)) as Ho.
  assert (forall j, doff (i_inum y) <= j < doff (i_inum y) + 64 ->
            get8 (dinode_put x d) j = get8 d j) as F.
  { intros j Hj. apply dinode_put_frame; try done; [lia|]. unfold doff in *. lia. }
  unfold dinode_get. f_equal;
    first [apply (f_equal i16), get16_ext|apply get32_ext|apply get_addrs_ext];
    intros j Hj; apply F; lia.
Qed.

(** ** The inode cache *)

Lemma ino_upd s ip f j :
  (ip < length (inodes s))%nat ->
  ino (upd_ino ip f s) j = if decide (ip = j) then f (ino s ip) else ino s j.
Proof.
  intros Hl. unfold ino, upd_ino, set_inodes. cbn [inodes]. case_decide as E.
  - subst. by rewrite list_lookup_total_insert_eq.
  - by rewrite list_lookup_total_insert_ne.
Qed.

Lemma length_upd_ino s ip f : length (inodes (upd_ino ip f s)) = length (inodes s).
Proof. apply length_insert. Qed.

(** The entry serves inode [inum] of device [dev]. *)
Definition serves (dev inum : Z) (x : inode) : Prop :=
  0 < i_ref x /\ i_dev x = dev /\ i_inum x = inum.

Record icache_ok (s : fs) : Prop := {
  ic_len : length (inodes s) = NINODE;
  ic_ref : forall i, (i < NINODE)%nat -> 0 <= i_ref (ino s i);
  ic_uniq : forall i j dev inum, (i < NINODE)%nat -> (j < NINODE)%nat ->
    serves dev inum (ino s i) -> serves dev inum (ino s j) -> i = j;
}.

Lemma iget_scan_spec dev inum l : forall i empty,
  match iget_scan l i empty dev inum with
  | inl j => exists k x, j = (i + k)%nat /\ l !! k = Some x /\ serves dev inum x
  | inr e => (forall x, x ∈ l -> ~ serves dev inum x) /\
      match empty with
      | Some _ => e = empty
      | None =>
          match e with
          | Some j => exists k x, j = (i + k)%nat /\ l !! k = Some x /\ i_ref x = 0 /\
                        forall k' y, (k' < k)%nat -> l !! k' = Some y -> i_ref y <> 0
          | None => forall x, x ∈ l -> i_ref x <> 0
          end
      end
  end.
Proof.
  induction l as [|x l IH]; intros i empty; cbn [iget_scan].
  { split; [by intros ? ?%elem_of_nil|]. destruct empty; [done|]. by intros ? ?%elem_of_nil. }
  destruct ((0 <? i_ref x) && (i_dev x =? dev) && (i_inum x =? inum)) eqn:E.
  { exists O, x. split_and!; [lia|done|]. apply andb_true_iff in E as [[H1 H2]%andb_true_iff H3].
    split_and!; lia. }
  assert (~ serves dev inum x) as Hx.
  { intros (H1 & H2 & H3). destruct (Z.ltb_spec 0 (i_ref x)), (Z.eqb_spec (i_dev x) dev),
      (Z.eqb_spec (i_inum x) inum); done || lia. }
  set (e' := match empty with Some _ => empty | None => if i_ref x =? 0 then Some i else None end).
  specialize (IH (S i) e'). destruct (iget_scan l (S i) e' dev inum) as [j|e].
  { destruct IH as (k & y & -> & Hk & Hs). exists (S k), y. split_and!; [lia|done|done]. }
  destruct IH as [Hno He]. split.
  { intros y [->|Hy]%elem_of_cons; [done|by apply Hno]. }
  unfold e' in He. destruct empty; [done|]. destruct (Z.eqb_spec (i_ref x) 0) as [E0|E0].
  - subst e. exists O, x. split_and!; [lia|done|done|lia].
  - destruct e as [j|].
    + destruct He as (k & y & -> & Hk & Hr & Hl). exists (S k), y. split_and!; [lia|done|done|].
      intros [|k'] z Hlt Hz; simpl in Hz; [by simplify_eq|]. apply (Hl k'); [lia|done].
    + intros y [->|Hy]%elem_of_cons; [done|by apply He].
Qed.

(** The entry [iget] takes over when the inode is not cached. *)
Definition fresh_ino (dev inum : Z) (x : inode) : inode :=
  {| i_dev := dev; i_inum := inum; i_ref := 1; i_lock := i_lock x; i_valid := false;
     i_type := i_type x; i_major := i_major x; i_minor := i_minor x; i_nlink := i_nlink x;
     i_size := i_size x; i_addrs := i_addrs x |}.

Lemma ino_lookup s i x : inodes s !! i = Some x -> ino s i = x.
Proof. intros H. unfold ino. by apply list_lookup_total_correct. Qed.

Lemma lookup_ino s i : (i < length (inodes s))%nat -> inodes s !! i = Some (ino s i).
Proof. intros H. unfold ino. by apply list_lookup_lookup_total_lt. Qed.

(** The three outcomes of [iget]. *)
Lemma iget_cases s dev inum :
  (exists i, (i < length (inodes s))%nat /\ serves dev inum (ino s i) /\
     iget dev inum s = Ret i (upd_ino i (fun x => set_i_ref (i_ref x + 1) x) s)) \/
  ((forall i, (i < length (inodes s))%nat -> ~ serves dev inum (ino s i)) /\
   ((exists i, (i < length (inodes s))%nat /\ i_ref (ino s i) = 0 /\
       (forall j, (j < i)%nat -> i_ref (ino s j) <> 0) /\
       iget dev inum s = Ret i (upd_ino i (fresh_ino dev inum) s)) \/
    ((forall i, (i < length (inodes s))%nat -> i_ref (ino s i) <> 0) /\
     iget dev inum s = Panic "iget: no inodes"))).
Proof.
  pose proof (iget_scan_spec dev inum (inodes s) 0 None) as H.
  unfold iget, bind, get, modify, ret.
  destruct (iget_scan (inodes s) 0 None dev inum) as [j|[j|]].
  - left. destruct H as (k & x & -> & Hk & Hs). exists k. cbn [Nat.add].
    rewrite (ino_lookup _ _ _ Hk). split_and!; [by eapply lookup_lt_Some|done|done].
  - right. destruct H as [Hno (k & x & -> & Hk & Hr & Hl)].
    assert (k < length (inodes s))%nat as Hlt by (by eapply lookup_lt_Some). split.
    + intros i Hi. apply Hno. eapply list_elem_of_lookup_2. by apply lookup_ino.
    + left. exists k. cbn [Nat.add]. split_and!; [done|by rewrite (ino_lookup _ _ _ Hk)| |done].
      intros j Hj. apply (Hl j); [done|]. apply lookup_ino. lia.
  - right. destruct H as [Hno Hall]. split.
    + intros i Hi. apply Hno. eapply list_elem_of_lookup_2. by apply lookup_ino.
    + right. split; [|done]. intros i Hi. apply Hall. eapply list_elem_of_lookup_2. by apply lookup_ino.
Qed.

(** ** Operations that keep every entry bound to its inode *)

Definition same_id (x y : inode) : Prop :=
  i_dev y = i_dev x /\ i_inum y = i_inum x /\ i_ref y = i_ref x.

Definition ids_kept (s s' : fs) : Prop :=
  length (inodes s') = length (inodes s) /\ forall i, same_id (ino s i) (ino s' i).

Definition keeps_ids {A} (m : M fs A) : Prop := forall s a s', m s = Ret a s' -> ids_kept s s'.

#[export] Instance ids_kept_preorder : PreOrder ids_kept.
Proof.
  split.
  - intros s. split; [done|]. by intros i.
  - intros s1 s2 s3 [L1 I1] [L2 I2]. split; [congruence|]. intros i.
    destruct (I1 i) as (? & ? & ?), (I2 i) as (? & ? & ?). split_and!; congruence.
Qed.

Lemma keeps_ids_bind {A B} (m : M fs A) (k : A -> M fs B) :
  keeps_ids m -> (forall a, keeps_ids (k a)) -> keeps_ids (bind m k).
Proof.
  intros Hm Hk s b s' H. minv H as (a & s1 & H1 & H2).
  transitivity s1; [by eapply Hm|by eapply Hk].
Qed.
Lemma keeps_ids_ret {A} (a : A) : keeps_ids (ret a).
Proof. intros s b s' H. unfold ret in H. injection H as <- <-. reflexivity. Qed.
Lemma keeps_ids_get : keeps_ids get.
Proof. intros s b s' H. unfold get in H. injection H as <- <-. reflexivity. Qed.
Lemma keeps_ids_panic {A} msg : keeps_ids (panic msg : M fs A).
Proof. done. Qed.
Lemma keeps_ids_sleep {A} c : keeps_ids (sleep_on c : M fs A).
Proof. done. Qed.
Lemma keeps_ids_if {A} (b : bool) (m1 m2 : M fs A) :
  keeps_ids m1 -> keeps_ids m2 -> keeps_ids (if b then m1 else m2).
Proof. by destruct b. Qed.
Lemma keeps_ids_fstore n d : keeps_ids (fstore n d).
Proof. intros s a s' H. unfold fstore, modify in H. injection H as <- <-. by split. Qed.
Lemma keeps_ids_fbread held dev n : keeps_ids (fbread held dev n).
Proof.
  intros s a s' H. unfold fbread, bind, get in H. repeat case_match; try done.
  unfold ret in H. by injection H as <- <-.
Qed.
Lemma keeps_ids_flog_write n : keeps_ids (flog_write n).
Proof.
  intros s a s' H. unfold flog_write, bind, get, modify in H. repeat case_match; try done.
  injection H as <- <-. by split.
Qed.
Lemma keeps_ids_lstore n d : keeps_ids (lstore n d).
Proof. apply keeps_ids_bind; [apply keeps_ids_fstore|intros; apply keeps_ids_flog_write]. Qed.
Lemma keeps_ids_upd ip f : (forall x, same_id x (f x)) -> keeps_ids (modify (upd_ino ip f)).
Proof.
  intros Hf s a s' H. unfold modify in H. injection H as <- <-. split; [apply length_upd_ino|].
  intros j. destruct (decide (ip < length (inodes s))%nat) as [Hl|Hl].
  - rewrite ino_upd by done. case_decide; [subst; apply Hf|done].
  - unfold ino, upd_ino, set_inodes. cbn [inodes]. by rewrite list_insert_ge by lia.
Qed.

Create HintDb fs.
#[export] Hint Resolve keeps_ids_bind keeps_ids_ret keeps_ids_get keeps_ids_panic keeps_ids_sleep
  keeps_ids_if keeps_ids_fstore keeps_ids_lstore keeps_ids_fbread keeps_ids_upd : fs.
#[export] Hint Extern 4 (same_id _ _) => (split_and!; reflexivity) : fs.

Lemma keeps_ids_freadsb held dev : keeps_ids (freadsb held dev).
Proof.
  unfold freadsb. apply keeps_ids_bind; [auto with fs|]. intros d s a s' H.
  unfold modify in H. injection H as <- <-. by split.
Qed.
#[export] Hint Resolve keeps_ids_freadsb : fs.
Lemma keeps_ids_bfree held dev b : keeps_ids (bfree held dev b).
Proof. unfold bfree. auto 10 with fs. Qed.
Lemma keeps_ids_iupdate ip : keeps_ids (iupdate ip).
Proof. unfold iupdate. auto 10 with fs. Qed.
Lemma keeps_ids_lock ip : keeps_ids (lock_ino ip).
Proof.
  unfold lock_ino. apply keeps_ids_bind; [auto with fs|]. intros s.
  destruct (acquiresleep _ _); auto with fs.
Qed.
Lemma keeps_ids_unlock ip : keeps_ids (unlock_ino ip).
Proof. unfold unlock_ino. auto with fs. Qed.
#[export] Hint Resolve keeps_ids_bfree keeps_ids_iupdate keeps_ids_lock keeps_ids_unlock : fs.

Lemma keeps_ids_itrunc_direct n : forall i ip, keeps_ids (itrunc_direct n i ip).
Proof. induction n as [|n IH]; intros i ip; simpl; auto 12 with fs. Qed.
Lemma keeps_ids_itrunc_indirect n : forall bp j dev a, keeps_ids (itrunc_indirect n bp j dev a).
Proof. induction n as [|n IH]; intros bp j dev a; simpl; auto 12 with fs. Qed.
#[export] Hint Resolve keeps_ids_itrunc_direct keeps_ids_itrunc_indirect : fs.
Lemma keeps_ids_itrunc ip : keeps_ids (itrunc ip).
Proof. unfold itrunc. auto 20 with fs. Qed.
#[export] Hint Resolve keeps_ids_itrunc : fs.
Lemma keeps_ids_ilock ip : keeps_ids (ilock ip).
Proof. unfold ilock. auto 20 with fs. Qed.
Lemma keeps_ids_iunlock ip : keeps_ids (iunlock ip).
Proof. unfold iunlock. auto 10 with fs. Qed.
#[export] Hint Resolve keeps_ids_ilock keeps_ids_iunlock : fs.

(** [iput] until it has let go of the sleep lock. *)
Lemma keeps_ids_iput_free ip : keeps_ids (iput_free ip).
Proof.
  unfold iput_free. apply keeps_ids_bind; [auto with fs|]. intros _.
  apply keeps_ids_bind; [auto with fs|]. intros s. auto 20 with fs.
Qed.

(** Its end drops one reference of its entry and leaves the others alone. *)
Lemma iput_drop_refs ip s s' :
  iput_drop ip s = Ret tt s' -> (ip < length (inodes s))%nat ->
  length (inodes s') = length (inodes s) /\
  forall i, i_dev (ino s' i) = i_dev (ino s i) /\ i_inum (ino s' i) = i_inum (ino s i) /\
    i_ref (ino s' i) = i_ref (ino s i) - (if decide (i = ip) then 1 else 0).
Proof.
  intros H Hip. unfold iput_drop, modify in H. injection H as <-. split; [by rewrite length_upd_ino|].
  intros i. rewrite ino_upd by lia. repeat case_decide; subst; simpl; split_and!; try done; lia.
Qed.

(** ** References to inodes

    A client of the inode cache holds pointers; each is recorded with the inode
    it was obtained for. [iput] is two steps ([iput_two_steps]): its first part
    is one of the other operations, and the pointer is given up in its last
    critical section. *)

Definition handle : Type := nat * (Z * Z).

Inductive istep : fs * list handle -> fs * list handle -> Prop :=
  | step_iget s hs dev inum ip s' :
      iget dev inum s = Ret ip s' -> istep (s, hs) (s', (ip, (dev, inum)) :: hs)
  | step_idup s hs1 hs2 h ip s' :
      idup h.1 s = Ret ip s' -> istep (s, hs1 ++ h :: hs2) (s', (ip, h.2) :: hs1 ++ h :: hs2)
  | step_drop s hs1 hs2 h s' :
      iput_drop h.1 s = Ret tt s' -> istep (s, hs1 ++ h :: hs2) (s', hs1 ++ hs2)
  | step_other s hs s' :
      (exists A (m : M fs A) a, keeps_ids m /\ m s = Ret a s') -> istep (s, hs) (s', hs).

Inductive ireach (c : fs * list handle) : fs * list handle -> Prop :=
  | ireach_refl : ireach c c
  | ireach_step c1 c2 : ireach c c1 -> istep c1 c2 -> ireach c c2.

Lemma iput_two_steps s hs1 hs2 h s' :
  iput h.1 s = Ret tt s' -> exists s1, istep (s, hs1 ++ h :: hs2) (s1, hs1 ++ h :: hs2) /\ istep (s1, hs1 ++ h :: hs2) (s', hs1 ++ hs2).
Proof.
  intros H. unfold iput in H. minv H as ([] & s1 & H1 & H2). exists s1. split; [|by apply step_drop].
  apply step_other. exists unit, (iput_free h.1), tt. split; [apply keeps_ids_iput_free|done].
Qed.

Fixpoint count_ip (ip : nat) (hs : list handle) : Z :=
  match hs with
  | [] => 0
  | h :: hs' => (if decide (h.1 = ip) then 1 else 0) + count_ip ip hs'
  end.

Record refs_ok (s : fs) (hs : list handle) : Prop := {
  rf_cache : icache_ok s;
  rf_count : forall i, (i < NINODE)%nat -> i_ref (ino s i) = count_ip i hs;
  rf_bound : forall h, h ∈ hs -> (h.1 < NINODE)%nat /\ i_dev (ino s h.1) = h.2.1 /\
                                i_inum (ino s h.1) = h.2.2;
}.

Lemma count_cons i h hs : count_ip i (h :: hs) = (if decide (h.1 = i) then 1 else 0) + count_ip i hs.
Proof. done. Qed.
Lemma count_app i hs1 hs2 : count_ip i (hs1 ++ hs2) = count_ip i hs1 + count_ip i hs2.
Proof. induction hs1 as [|h hs1 IH]; [done|]. cbn [app]. rewrite !count_cons, IH. lia. Qed.
Lemma count_nonneg i hs : 0 <= count_ip i hs.
Proof. induction hs as [|h hs IH]; [done|]. rewrite count_cons. case_decide; lia. Qed.

Lemma count_pos h hs : h ∈ hs -> 0 < count_ip h.1 hs.
Proof.
  intros (l1 & l2 & ->)%list_elem_of_split. rewrite count_app, count_cons.
  pose proof (count_nonneg h.1 l1). pose proof (count_nonneg h.1 l2). case_decide; [lia|done].
Qed.

Lemma refs_held s hs h :
  refs_ok s hs -> h ∈ hs -> serves h.2.1 h.2.2 (ino s h.1).
Proof.
  intros [C N B] Hh. destruct (B h Hh) as (Hl & Hd & Hi).
  split_and!; [|done|done]. rewrite N by done. by apply count_pos.
Qed.

(** Changing reference counts only. *)
Lemma refs_change s s' hs hs' :
  refs_ok s hs -> length (inodes s') = length (inodes s) ->
  (forall i, (i < NINODE)%nat -> i_dev (ino s' i) = i_dev (ino s i) /\
     i_inum (ino s' i) = i_inum (ino s i) /\ i_ref (ino s' i) = count_ip i hs' /\
     (0 < i_ref (ino s' i) -> 0 < i_ref (ino s i))) ->
  (forall h, h ∈ hs' -> h ∈ hs \/ exists h0, h0 ∈ hs /\ h = h0) -> refs_ok s' hs'.
Proof.
  intros [[L R U] N B] Hl Hi Hsub. split; [split|..].
  - congruence.
  - intros i Hlt. destruct (Hi i Hlt) as (_ & _ & -> & _). apply count_nonneg.
  - intros i j dev inum Hli Hlj (P1 & D1 & I1) (P2 & D2 & I2).
    destruct (Hi i Hli) as (Ed & Ei & _ & Ep), (Hi j Hlj) as (Fd & Fi & _ & Fp).
    apply (U i j dev inum Hli Hlj); split_and!; try congruence; auto.
  - intros i Hlt. by destruct (Hi i Hlt) as (_ & _ & ? & _).
  - intros h Hh. assert (h ∈ hs) as Hin by (destruct (Hsub h Hh) as [|(? & ? & ->)]; done).
    destruct (B h Hin) as (Hlt & Hd & Hn). destruct (Hi h.1 Hlt) as (Ed & Ei & _).
    split_and!; [done|congruence|congruence].
Qed.

Lemma iget_refs s hs dev inum ip s' :
  refs_ok s hs -> iget dev inum s = Ret ip s' -> refs_ok s' ((ip, (dev, inum)) :: hs).
Proof.
  intros Hr H. pose proof Hr as [[L R U] N B].
  destruct (iget_cases s dev inum) as [(i & Hi & Hs & E)|(Hno & [(i & Hi & Hz & _ & E)|[_ E]])];
    rewrite E in H; [| |done]; injection H as <- <-; rewrite L in Hi.
  - assert (forall j, ino (upd_ino i (fun x => set_i_ref (i_ref x + 1) x) s) j =
      if decide (i = j) then set_i_ref (i_ref (ino s i) + 1) (ino s i) else ino s j) as F
      by (intros j; apply (ino_upd s i (fun x => set_i_ref (i_ref x + 1) x)); lia).
    destruct Hs as (Hp & Hd & Hn). split; [split|..].
    + by rewrite length_upd_ino.
    + intros j Hj. rewrite F. case_decide; [simpl; specialize (R i Hi); lia|by apply R].
    + intros j k d n Hj Hk (P1 & D1 & I1) (P2 & D2 & I2). rewrite F in P1, D1, I1, P2, D2, I2.
      apply (U j k d n Hj Hk); split_and!; repeat case_decide; subst; simpl in *; done.
    + intros j Hj. rewrite F, count_cons. simpl. case_decide as Ej; simpl; rewrite ?N by done; [|lia].
      subst. lia.
    + intros h [->|Hh]%elem_of_cons; rewrite F; simpl.
      * by rewrite decide_True by done.
      * destruct (B h Hh) as (? & ? & ?). case_decide; subst; done.
  - assert (forall j, ino (upd_ino i (fresh_ino dev inum) s) j =
      if decide (i = j) then fresh_ino dev inum (ino s i) else ino s j) as F
      by (intros j; apply ino_upd; lia).
    rewrite L in Hno. split; [split|..].
    + by rewrite length_upd_ino.
    + intros j Hj. rewrite F. case_decide; [simpl; lia|by apply R].
    + intros j k d n Hj Hk (P1 & D1 & I1) (P2 & D2 & I2). rewrite F in P1, D1, I1, P2, D2, I2.
      repeat case_decide; subst; simpl in *; try done;
        first [by destruct (Hno k Hk); unfold serves; split_and!
              |by destruct (Hno j Hj); unfold serves; split_and!
              |by apply (U j k (i_dev (ino s k)) (i_inum (ino s k)) Hj Hk); unfold serves; split_and!].
    + intros j Hj. rewrite F, count_cons. simpl. case_decide as Ej; simpl; rewrite ?N by done; [|lia].
      subst. rewrite N in Hz by done. lia.
    + intros h [->|Hh]%elem_of_cons; rewrite F; simpl.
      * by rewrite decide_True by done.
      * destruct (B h Hh) as (? & ? & ?). case_decide; [|done]. subst.
        pose proof (refs_held s hs h Hr Hh) as (? & _). lia.
Qed.

Lemma istep_refs c c' : istep c c' -> refs_ok c.1 c.2 -> refs_ok c'.1 c'.2.
Proof.
  intros H Hr. destruct H as [s hs dev inum ip s' H|s hs1 hs2 h ip s' H|s hs1 hs2 h s' H|s hs s' H];
    simpl in *.
  - by eapply iget_refs.
  - unfold idup, bind, modify, ret in H. injection H as <- <-.
    assert (h ∈ hs1 ++ h :: hs2) as Hh by (apply elem_of_app; right; constructor).
    pose proof Hr as [[L R U] N B]. destruct (B h Hh) as (Hl & Hd & Hi).
    pose proof (refs_held _ _ _ Hr Hh) as (Hp & _).
    apply (refs_change s _ (hs1 ++ h :: hs2)); [done|by rewrite length_upd_ino| |].
    + intros i Hlt. rewrite ino_upd by lia. rewrite count_cons. cbn [fst].
      case_decide; subst; simpl; split_and!; try done; rewrite ?N by done; lia.
    + intros h' [->|Hh']%elem_of_cons; [|by left]. right. exists h. split; [done|by destruct h].
  - assert (h ∈ hs1 ++ h :: hs2) as Hh by (apply elem_of_app; right; constructor).
    pose proof Hr as [[L R U] N B]. destruct (B h Hh) as (Hl & Hd & Hi).
    destruct (iput_drop_refs _ _ _ H) as [L' I']; [lia|].
    apply (refs_change s _ (hs1 ++ h :: hs2)); [done|done| |].
    + intros i Hlt. destruct (I' i) as (-> & -> & ->). rewrite N by done.
      rewrite !count_app, count_cons. pose proof (count_nonneg i hs1). pose proof (count_nonneg i hs2).
      repeat case_decide; subst; try done; split_and!; try done; lia.
    + intros h' Hh'. left. apply elem_of_app in Hh' as [?|?]; apply elem_of_app; [by left|right; by constructor].
  - destruct H as (A & m & a & Hm & H). apply Hm in H as [L I].
    apply (refs_change s _ hs); [done|done| |by left].
    intros i Hlt. destruct (I i) as (? & ? & E). rewrite E. destruct Hr as [_ N _].
    split_and!; try done. by apply N.
Qed.

Lemma ireach_refs c c' : ireach c c' -> refs_ok c.1 c.2 -> refs_ok c'.1 c'.2.
Proof. induction 1; [done|]. intros. eapply istep_refs; eauto. Qed.

(** ** Properties *)

Lemma IBLOCK_inj sb x y :
  0 <= x < 4294967296 -> 0 <= y < 4294967296 -> 0 <= sb_inodestart sb < 2147483648 ->
  IBLOCK x sb = IBLOCK y sb -> x mod IPB = y mod IPB -> x = y.
Proof. intros Hx Hy Hs H Hm. unfold IBLOCK in H. rewrite !u32_small in H by dlia. dlia. Qed.

(** In a transaction with room for a block, [iupdate] writes an inode that [ilock] reads back with the same type,
    device numbers, link count, size and addresses, and leaves every other inode
    on the disk as it was, also those in the same block. *)
Theorem iupdate_roundtrip s ip :
  let x := ino s ip in
  inode_ok x -> i_dev x = 1 -> room 1 s -> (forall n, block_ok (blk s n)) ->
  IBLOCK (i_inum x) (fsb s) < nblk s -> 0 <= sb_inodestart (fsb s) < 2147483648 ->
  exists s', iupdate ip s = Ret tt s' /\ inodes s' = inodes s /\
    dinode_get (blk s' (IBLOCK (i_inum x) (fsb s))) x = set_i_valid true x /\
    forall y, 0 <= i_inum y < 4294967296 -> i_inum y <> i_inum x ->
      dinode_get (blk s' (IBLOCK (i_inum y) (fsb s))) y =
      dinode_get (blk s (IBLOCK (i_inum y) (fsb s))) y.
Proof.
  intros x Hx Hd Hroom Hb Hn Hst. set (bb := IBLOCK (i_inum x) (fsb s)) in *.
  destruct (Hb bb) as [Hl _].
  exists (log_blk bb (dinode_put x (blk s bb)) s). split_and!; [|done| |].
  - unfold iupdate, bind at 1, get. fold x. rewrite Hd. fold bb. rewrite fbread_bind by (done || by eapply room_lhn).
    by apply lstore_run.
  - simpl. rewrite Z.eqb_refl. by apply dinode_get_put.
  - intros y Hy Hne. simpl. destruct (Z.eqb_spec (IBLOCK (i_inum y) (fsb s)) bb) as [E|]; [|done].
    rewrite E. apply dinode_get_other; [done|done|]. intros Hm. apply Hne. symmetry.
    apply (IBLOCK_inj (fsb s)); [apply (ok_inum _ Hx)|done|done|done|done].
Qed.

Lemma iupdate_roundtrip_witness :
  let x := {| i_dev := 1; i_inum := 9; i_ref := 1; i_lock := initsleeplock; i_valid := true;
              i_type := 2; i_major := 0; i_minor := -1; i_nlink := 1; i_size := 700;
              i_addrs := 61 :: replicate 12 0 |} in
  exists s', iupdate 3 (upd_ino 3 (fun _ => x) fs0) = Ret tt s' /\
    dinode_get (blk s' 33) x = set_i_valid true x.
Proof.
  intros x. set (s := upd_ino 3 (fun _ => x) fs0).
  assert (ino s 3 = x) as Ex by reflexivity.
  assert (fsb s = fsb fs0) as Es by reflexivity.
  destruct (iupdate_roundtrip s 3) as (s' & R & _ & E & _).
  - rewrite Ex. split; simpl; try lia. repeat constructor; lia.
  - done.
  - exact (fs0_room 1 ltac:(lia)).
  - apply (wf_blocks _ fs0_wf).
  - rewrite Ex, Es, fs0_sb_decode. reflexivity.
  - rewrite Es, fs0_sb_decode. simpl. lia.
  - exists s'. split; [exact R|]. rewrite Ex, Es, fs0_sb_decode in E. exact E.
Defined.

Lemma fs0_refs : refs_ok fs0 [].
Proof.
  assert (forall i, (i < NINODE)%nat -> i_ref (ino fs0 i) = 0) as H.
  { intros i Hi. unfold ino, fs0. cbn [inodes]. by rewrite lookup_total_replicate_2 by done. }
  split; [split|..].
  - reflexivity.
  - intros i Hi. by rewrite H.
  - intros i j d n Hi Hj (P & _) _. rewrite H in P by done. lia.
  - intros i Hi. by rewrite H.
  - intros h Hh. by apply elem_of_nil in Hh.
Qed.

(** C32. Inode pointers stay valid. However gets, duplications, puts (which are
    two steps) and other operations interleave, every pointer a client still
    holds denotes the entry of the inode it was obtained for, the entry's
    reference count is the number of pointers held to it, and two pointers to
    the same inode are the same entry. *)
Theorem inode_pointers_valid s hs s' hs' h1 h2 :
  refs_ok s hs -> ireach (s, hs) (s', hs') -> h1 ∈ hs' -> h2 ∈ hs' ->
  i_dev (ino s' h1.1) = h1.2.1 /\ i_inum (ino s' h1.1) = h1.2.2 /\
  i_ref (ino s' h1.1) = count_ip h1.1 hs' /\ (h1.2 = h2.2 <-> h1.1 = h2.1).
Proof.
  intros Hr Hreach H1 H2. apply ireach_refs in Hreach; [|done]. simpl in Hreach.
  pose proof Hreach as [[L R U] N B].
  destruct (B h1 H1) as (L1 & D1 & I1), (B h2 H2) as (L2 & D2 & I2).
  split_and!; [done|done|by apply N|]. split.
  - intros E. apply (U h1.1 h2.1 h1.2.1 h1.2.2 L1 L2).
    + by apply (refs_held s' hs').
    + rewrite E. by apply (refs_held s' hs').
  - intros E. rewrite E in D1, I1. destruct h1 as [? [? ?]], h2 as [? [? ?]]. simpl in *. congruence.
Qed.

Lemma inode_pointers_valid_witness :
  exists s', ireach (fs0, []) (s', [(O, (1, 5)); (O, (1, 5))]) /\ i_ref (ino s' 0) = 2.
Proof.
  destruct (iget_cases fs0 1 5) as [(i & Hi & (Hp & _) & _)|(_ & [(i & Hi & Hz & Hl & E)|[H _]])].
  { rewrite (rf_count _ _ fs0_refs) in Hp by exact Hi. simpl in Hp. lia. }
  2: { exfalso. apply (H O); [simpl; lia|reflexivity]. }
  assert (i = O) as ->.
  { destruct i as [|i]; [done|]. exfalso. apply (Hl O); [lia|reflexivity]. }
  set (s1 := upd_ino 0 (fresh_ino 1 5) fs0) in *.
  set (s2 := upd_ino 0 (fun x => set_i_ref (i_ref x + 1) x) s1).
  assert (ireach (fs0, []) (s2, [(O, (1, 5)); (O, (1, 5))])) as Hr.
  { eapply ireach_step; [eapply ireach_step; [apply ireach_refl|by apply step_iget]|].
    apply (step_idup s1 [] [] (O, (1, 5))). done. }
  exists s2. split; [exact Hr|].
  destruct (inode_pointers_valid fs0 [] s2 [(O, (1, 5)); (O, (1, 5))] (O, (1, 5)) (O, (1, 5)) fs0_refs Hr)
    as (_ & _ & Hc & _); [constructor|constructor|exact Hc].
Defined.
