(* ===== verification/FsFile.v ===== *)
(** File contents (fs.c): the block map of an inode as a linked list of
    indirect blocks, and what [bmap], [readi], [writei] and [itrunc] do with it.

    [ip->addrs[0]] points to an indirect block of 128 words: 127 addresses of
    data blocks and, in the last word, the next indirect block. Every block that
    one call changes takes a place in the log: [bmap_cost] and [write_cost] bound
    how many, [chunk_room] says that the chunks of [filewrite] fit, and
    [writei_too_big] shows the panic of a call that does not. *)

From Stdlib Require Import ZArith Lia.
From stdpp Require Import base strings gmap numbers list.
From S2P Require Import Prelude KString BlockLayer Bio Log Fs FsAlloc FsInode.

Open Scope Z_scope.

(** ** Free blocks *)

Definition free_blocks (s : fs) : list Z :=
  filter (fun b => used (fsb s) (blk s) b = false) (seqZ 0 (sb_size (fsb s))).
Definition free_count (s : fs) : nat := length (free_blocks s).

Lemma elem_of_free s b :
  b ∈ free_blocks s <-> used (fsb s) (blk s) b = false /\ 0 <= b < sb_size (fsb s).
Proof. unfold free_blocks. rewrite list_elem_of_filter, elem_of_seqZ, Z.add_0_l. tauto. Qed.

Lemma NoDup_free s : NoDup (free_blocks s).
Proof. apply NoDup_filter, NoDup_seqZ. Qed.

Lemma free_count_pos s : (0 < free_count s)%nat ->
  exists x, 0 <= x < sb_size (fsb s) /\ used (fsb s) (blk s) x = false.
Proof.
  unfold free_count. intros H. destruct (free_blocks s) as [|x l] eqn:E; [simpl in H; lia|].
  exists x. assert (x ∈ free_blocks s) as Hx by (rewrite E; constructor).
  apply elem_of_free in Hx. tauto.
Qed.

Lemma free_count_take s s' b :
  fsb s' = fsb s -> b ∈ free_blocks s ->
  (forall x, 0 <= x < sb_size (fsb s) ->
     used (fsb s) (blk s') x = (x =? b) || used (fsb s) (blk s) x) ->
  free_count s = S (free_count s').
Proof.
  intros Hf Hb Hu. unfold free_count.
  assert (free_blocks s ≡ₚ b :: free_blocks s') as E.
  { apply NoDup_Permutation; [apply NoDup_free| |].
    - apply NoDup_cons. split; [|apply NoDup_free]. intros Hin%elem_of_free.
      rewrite Hf in Hin. rewrite Hu, Z.eqb_refl in Hin by lia. by destruct Hin.
    - intros x. rewrite elem_of_cons, !elem_of_free, Hf. apply elem_of_free in Hb.
      destruct (Z.eqb_spec x b) as [->|Hne].
      + split; [by left|done].
      + split.
        * intros [H1 H2]. right. split; [|done]. rewrite Hu by done.
          by destruct (Z.eqb_spec x b).
        * intros [?|[H1 H2]]; [done|]. split; [|done]. rewrite Hu in H1 by done.
          by destruct (Z.eqb_spec x b). }
  by rewrite E.
Qed.

Lemma free_count_same s s' :
  fsb s' = fsb s -> (forall x, 0 <= x < sb_size (fsb s) ->
     used (fsb s) (blk s') x = used (fsb s) (blk s) x) -> free_count s' = free_count s.
Proof.
  intros Hf Hu. unfold free_count. apply Permutation_length, NoDup_Permutation; [apply NoDup_free..|].
  intros x. rewrite !elem_of_free, Hf. split; intros [H1 H2]; (split; [|done]).
  - by rewrite <- Hu.
  - by rewrite Hu.
Qed.

(** ** The block map *)

(** Word [i] of block [c]; word 127 is the link. *)
Definition ent (s : fs) (c i : Z) : Z := get32 (blk s c) (4 * i).

(** A block that may hold file contents. *)
Definition data_blk (s : fs) (b : Z) : Prop :=
  0 <= b < sb_size (fsb s) /\ ~ is_bmap (fsb s) b /\ b <> 1 /\ b <> 0 /\
  used (fsb s) (blk s) b = true.

(** The inode address [a] is the head of the chain of indirect blocks [cs]. All
    blocks of the file are different, in use and outside the metadata. *)
Record file_wf (s : fs) (a : Z) (cs : list Z) : Prop := {
  fw_root : a = default 0 (head cs);
  fw_link : forall k c, cs !! k = Some c -> ent s c 127 = default 0 (cs !! S k);
  fw_nodup : NoDup cs;
  fw_ind : forall c, c ∈ cs -> data_blk s c;
  fw_data : forall c i, c ∈ cs -> 0 <= i < 127 ->
    ent s c i = 0 \/ (data_blk s (ent s c i) /\ ent s c i ∉ cs);
  fw_inj : forall c c' i i', c ∈ cs -> c' ∈ cs -> 0 <= i < 127 -> 0 <= i' < 127 ->
    ent s c i = ent s c' i' -> ent s c i <> 0 -> c = c' /\ i = i';
}.

(** Block 0, the boot block, is never free. *)
Record fs_ok (s : fs) : Prop := {
  fo_wf : fs_wf s;
  fo_boot : used (fsb s) (blk s) 0 = true;
}.

(** A store to a block that holds file contents; it does not depend on the log. *)
Lemma upd_data s c d :
  fs_ok s -> data_blk s c -> block_ok d ->
  fs_ok (upd_blk c d s) /\
  forall x, 0 <= x < sb_size (fsb s) ->
    used (fsb s) (blk (upd_blk c d s)) x = used (fsb s) (blk s) x.
Proof.
  intros [Hwf Hb] (Hc & Hn & H1 & H0 & Hu) Hd.
  assert (forall x, 0 <= x < sb_size (fsb s) ->
    used (fsb s) (blk (upd_blk c d s)) x = used (fsb s) (blk s) x) as U.
  { intros x Hx. simpl. apply used_upd. destruct (BBLOCK_range s x Hwf Hx) as (_ & Hbx & _).
    intros E. by rewrite E in Hbx. }
  split; [|done]. split.
  - apply (fs_wf_change s); try done.
    + apply (wf_log _ Hwf).
    + intros n. simpl. destruct (n =? c); [done|apply (wf_blocks _ Hwf)].
    + cbn [upd_blk set_blk blk]. destruct (Z.eqb_spec 1 c); [congruence|done].
    + intros x Hx. assert (0 <= x < sb_size (fsb s)) as Hr.
      { destruct Hx as [Hx| ->]; [by apply bmap_block_size|].
        pose proof (wf_bmap _ Hwf). pose proof (wf_bmap_end _ Hwf). pose proof (wf_size _ Hwf). dlia. }
      rewrite U by done. destruct Hx as [Hx| ->]; [by apply (wf_used_bmap _ Hwf)|apply (wf_used_sb _ Hwf)].
  - change (fsb (upd_blk c d s)) with (fsb s). rewrite U; [done|]. pose proof (wf_size _ Hwf). lia.
Qed.

Lemma data_blk_mono s s' b :
  fsb s' = fsb s ->
  (forall x, 0 <= x < sb_size (fsb s) -> used (fsb s) (blk s) x = true -> used (fsb s) (blk s') x = true) ->
  data_blk s b -> data_blk s' b.
Proof. intros Hf Hm (H1 & H2 & H3 & H4 & H5). unfold data_blk. rewrite Hf. split_and!; auto; lia. Qed.

Lemma held_data s c : data_blk s c -> held_ok [c] s.
Proof. intros (_ & H1 & H2 & _ & H3). by apply held_one. Qed.

(** [balloc] as the block map uses it. *)
Lemma balloc_data held s :
  fs_ok s -> held_ok held s -> room 2 s -> (0 < free_count s)%nat ->
  exists b s', balloc held ROOTDEV s = Ret b s' /\ fs_ok s' /\ logs 2 s s' /\
    fsb s' = fsb s /\ nblk s' = nblk s /\ inodes s' = inodes s /\ fpid s' = fpid s /\ cwd s' = cwd s /\
    used (fsb s) (blk s) b = false /\ data_blk s' b /\ blk s' b = zero_block /\
    free_count s = S (free_count s') /\
    (forall x, data_blk s x -> blk s' x = blk s x /\ data_blk s' x /\ x <> b).
Proof.
  intros [Hwf H0] Hh Hroom Hf. destruct (balloc_ok held s Hwf Hh Hroom (free_count_pos s Hf))
    as (b & s' & R & W & G & Hb & Hfree & F1 & F2 & F3 & F4 & F5 & Hz & Hn & H1 & Hblk & Hu).
  exists b, s'. pose proof (wf_size _ Hwf) as Hsz.
  assert (b <> 0) as Hb0 by (intros ->; congruence).
  split_and!; try done.
  - split; [done|]. rewrite F1, Hu by lia. rewrite H0. apply orb_true_r.
  - unfold data_blk. rewrite F1. split_and!; try done; try lia. by rewrite Hu, Z.eqb_refl.
  - apply (free_count_take s s' b); [done| |done]. by apply elem_of_free.
  - intros x Hx. pose proof Hx as (X1 & X2 & X3 & X4 & X5).
    assert (x <> b) as Hne by (intros ->; congruence). split_and!; [by apply Hblk| |done].
    apply (data_blk_mono s); [done| |done]. intros y Hy Hyu. rewrite Hu, Hyu by done. apply orb_true_r.
Qed.

Lemma ent_put s c i v j :
  fs_ok s -> 0 <= i < 128 -> 0 <= j < 128 -> 0 <= v < 4294967296 ->
  ent (upd_blk c (put32 (blk s c) (4 * i) v) s) c j = if j =? i then v else ent s c j.
Proof.
  intros [Hwf _] Hi Hj Hv. unfold ent. simpl. rewrite Z.eqb_refl.
  destruct (wf_blocks _ Hwf c) as [Hl _]. destruct (Z.eqb_spec j i) as [->|].
  - rewrite get32_put32_eq by lia. by apply u32_small.
  - apply get32_put32_ne; lia.
Qed.

Lemma ent_other s c d c' j : c' <> c -> ent (upd_blk c d s) c' j = ent s c' j.
Proof. intros H. unfold ent. simpl. by destruct (Z.eqb_spec c' c). Qed.

Lemma data_blk_word s b : fs_ok s -> data_blk s b -> 0 <= b < 4294967296.
Proof.
  intros [Hwf _] ((? & ?) & _). pose proof (wf_size _ Hwf). pose proof (wf_word _ Hwf). lia.
Qed.

(** What an allocation for the file leaves alone: the words of its indirect
    blocks, and the contents of every block in use outside them. *)
Definition extends (s : fs) (cs : list Z) (s' : fs) (cs' : list Z) : Prop :=
  cs `prefix_of` cs' /\
  (forall c i, c ∈ cs -> 0 <= i < 127 -> ent s c i <> 0 -> ent s' c i = ent s c i) /\
  (forall x, data_blk s x -> data_blk s' x /\ (x ∉ cs -> blk s' x = blk s x /\ x ∉ cs')) /\
  fsb s' = fsb s /\ nblk s' = nblk s /\ fpid s' = fpid s /\ cwd s' = cwd s.

Lemma extends_refl s cs : extends s cs s cs.
Proof. split_and!; done. Qed.

Lemma prefix_elem {A} (l l' : list A) x : l `prefix_of` l' -> x ∈ l -> x ∈ l'.
Proof. intros [k ->] H. apply elem_of_app. by left. Qed.

Lemma extends_trans s1 c1 s2 c2 s3 c3 : extends s1 c1 s2 c2 -> extends s2 c2 s3 c3 -> extends s1 c1 s3 c3.
Proof.
  intros (P1 & E1 & D1 & F1 & F2 & F3 & F4) (P2 & E2 & D2 & G1 & G2 & G3 & G4).
  split_and!; try congruence.
  - by transitivity c2.
  - intros c i Hc Hi Hne. rewrite (E2 c i); [by apply E1|by eapply prefix_elem|done|].
    by rewrite E1.
  - intros x Hx. destruct (D1 x Hx) as [H1 H2]. destruct (D2 x H1) as [H3 H4].
    split; [done|]. intros Hn. destruct (H2 Hn) as [B1 N1]. destruct (H4 N1) as [B2 N2].
    split; [congruence|done].
Qed.

(** The address [bmap] finds for block [bn] of a file with chain [cs]. *)
Definition addr_of (s : fs) (cs : list Z) (bn : Z) : Z :=
  match cs !! Z.to_nat (bn / 127) with
  | Some c => ent s c (bn mod 127)
  | None => 0
  end.

Lemma addr_of_snoc s s' cs b :
  (forall i, 0 <= i < 128 -> ent s' b i = 0) ->
  (forall c i, c ∈ cs -> 0 <= i < 127 -> ent s' c i = ent s c i) ->
  forall n, 0 <= n -> addr_of s' (cs ++ [b]) n = addr_of s cs n.
Proof.
  intros Hz He n Hn. unfold addr_of. assert (0 <= n mod 127 < 127) as Hm by dlia.
  destruct (cs !! Z.to_nat (n / 127)) as [c|] eqn:E.
  - rewrite lookup_app_l, E by (by eapply lookup_lt_Some).
    apply He; [by eapply list_elem_of_lookup_2|done].
  - apply lookup_ge_None in E. rewrite lookup_app_r by done.
    destruct (Z.to_nat (n / 127) - length cs)%nat; simpl; [apply Hz; lia|done].
Qed.

(** A new indirect block at the end of the chain. *)
Lemma file_wf_snoc s s' a cs b :
  file_wf s a cs -> data_blk s' b -> (forall x, data_blk s x -> data_blk s' x /\ x <> b) ->
  (forall i, 0 <= i < 128 -> ent s' b i = 0) ->
  (forall k c, cs !! k = Some c -> ent s' c 127 = if decide (S k = length cs) then b else ent s c 127) ->
  (forall c i, c ∈ cs -> 0 <= i < 127 -> ent s' c i = ent s c i) ->
  file_wf s' (default 0 (head (cs ++ [b]))) (cs ++ [b]).
Proof.
  intros [W1 W2 W3 W4 W5 W6] Hb Hold Hz Hl He.
  assert (b ∉ cs) as Hnew by (intros Hin; by destruct (Hold b (W4 b Hin))).
  assert (forall c, c ∈ cs ++ [b] -> c ∈ cs \/ c = b) as Hc.
  { intros c [?|?%list_elem_of_singleton]%elem_of_app; [by left|by right]. }
  split; [done|..].
  - intros k c Hk. destruct (decide (k < length cs)%nat) as [Hlt|Hge].
    + rewrite lookup_app_l in Hk by done. rewrite (Hl k c Hk). case_decide as E.
      * by rewrite lookup_app_r, E, Nat.sub_diag by lia.
      * rewrite (W2 k c Hk). by rewrite lookup_app_l by lia.
    + rewrite lookup_app_r in Hk by lia. destruct (k - length cs)%nat eqn:Ek; [|done].
      simpl in Hk. injection Hk as <-. rewrite Hz by lia.
      rewrite lookup_ge_None_2; [done|]. rewrite length_app. simpl. lia.
  - apply NoDup_app. split_and!; [done| |apply NoDup_singleton].
    intros x Hx ->%list_elem_of_singleton. done.
  - intros c [Hin| ->]%Hc; [by apply Hold, W4|done].
  - intros c i [Hin| ->]%Hc Hi; [|left; apply Hz; lia].
    rewrite (He c i Hin Hi). destruct (W5 c i Hin Hi) as [?|[Hd Hn]]; [by left|right].
    destruct (Hold _ Hd) as [? Hne]. split; [done|]. intros [?|?]%Hc; done.
  - intros c c' i i' [Hin| ->]%Hc [Hin'| ->]%Hc Hi Hi' E Hne;
      [|by rewrite (Hz i') in E by lia|by rewrite Hz in Hne by lia|by rewrite Hz in Hne by lia].
    rewrite (He c i Hin Hi) in E, Hne. rewrite (He c' i' Hin' Hi') in E. by apply W6.
Qed.

(** A new data block in word [j] of the indirect block [c]. *)
Lemma file_wf_entry s s' a cs c j b :
  file_wf s a cs -> c ∈ cs -> 0 <= j < 127 -> data_blk s' b ->
  (forall x, data_blk s x -> data_blk s' x /\ x <> b) ->
  (forall c', c' ∈ cs -> ent s' c' 127 = ent s c' 127) ->
  (forall c' i, c' ∈ cs -> 0 <= i < 127 ->
     ent s' c' i = if decide (c' = c /\ i = j) then b else ent s c' i) ->
  file_wf s' a cs.
Proof.
  intros [W1 W2 W3 W4 W5 W6] Hc Hj Hb Hold Hl He.
  assert (b ∉ cs) as Hnew by (intros Hin; by destruct (Hold b (W4 b Hin))).
  assert (forall c' i, c' ∈ cs -> 0 <= i < 127 -> ent s c' i <> b) as Hfresh.
  { intros c' i Hin Hi E. destruct (W5 c' i Hin Hi) as [E0|[Hd _]].
    - destruct Hb as (_ & _ & _ & Hb0 & _). congruence.
    - rewrite E in Hd. by destruct (Hold b Hd). }
  split; [done|..].
  - intros k c' Hk. rewrite Hl by (by eapply list_elem_of_lookup_2). by apply W2.
  - done.
  - intros c' Hin. by apply Hold, W4.
  - intros c' i Hin Hi. rewrite (He c' i Hin Hi). case_decide; [by right|].
    destruct (W5 c' i Hin Hi) as [?|[Hd Hn]]; [by left|right]. by destruct (Hold _ Hd).
  - intros c1 c2 i1 i2 H1 H2 Hi1 Hi2 E Hne.
    rewrite (He c1 i1 H1 Hi1) in E, Hne. rewrite (He c2 i2 H2 Hi2) in E.
    repeat case_decide; [destruct_and!; by subst| | |by apply W6].
    + by destruct (Hfresh c2 i2 H2 Hi2).
    + by destruct (Hfresh c1 i1 H1 Hi1).
Qed.

Lemma ent_zero s b i : blk s b = zero_block -> 0 <= i < 128 -> ent s b i = 0.
Proof.
  intros E Hi. unfold ent. rewrite E. unfold get32, get8, zero_block.
  rewrite !lookup_replicate_2 by lia. done.
Qed.

Lemma zero_block_put : put32 zero_block (4 * (NINDIRECT - 1)) 0 = zero_block.
Proof. vm_compute. reflexivity. Qed.

(** [balloc] for a new indirect block, and its last word set to 0. *)
Lemma balloc_indirect held s :
  fs_ok s -> held_ok held s -> room 2 s -> (0 < free_count s)%nat ->
  exists b s', balloc held ROOTDEV s = Ret b s' /\ fs_ok s' /\ logs 2 s s' /\
    fsb s' = fsb s /\ nblk s' = nblk s /\ inodes s' = inodes s /\ fpid s' = fpid s /\ cwd s' = cwd s /\
    data_blk s' b /\ blk s' b = zero_block /\ free_count s = S (free_count s') /\
    (forall x, data_blk s x -> blk s' x = blk s x /\ data_blk s' x /\ x <> b) /\
    b < nblk s'.
Proof.
  intros Hok Hh Hroom Hf. destruct (balloc_data held s Hok Hh Hroom Hf)
    as (b & s' & R & W & G & F1 & F2 & F3 & F4 & F5 & _ & Hd & Hz & Hc & Hold).
  exists b, s'. split_and!; try done.
  destruct Hd as ((_ & Hb) & _). destruct W as [W _]. pose proof (wf_size _ W). lia.
Qed.

Lemma data_blk_upd s c d x :
  fs_ok s -> data_blk s c -> block_ok d -> data_blk s x -> data_blk (upd_blk c d s) x.
Proof.
  intros Hok Hc Hd Hx. destruct (upd_data s c d Hok Hc Hd) as [_ U].
  apply (data_blk_mono s); [done| |done]. intros y Hy Hu. by rewrite U.
Qed.

Lemma free_count_upd s c d :
  fs_ok s -> data_blk s c -> block_ok d -> free_count (upd_blk c d s) = free_count s.
Proof.
  intros Hok Hc Hd. destruct (upd_data s c d Hok Hc Hd) as [_ U]. by apply free_count_same.
Qed.

Lemma data_blk_lt s c : fs_ok s -> data_blk s c -> c < nblk s.
Proof. intros [W _] ((_ & H) & _). pose proof (wf_size _ W). lia. Qed.

Lemma fs_ok_blk s c : fs_ok s -> block_ok (blk s c).
Proof. intros [W _]. apply (wf_blocks _ W). Qed.

(** Nothing of the disk part depends on the inode cache, or on the log as long
    as it leaves buffers. *)
Lemma fs_ok_inodes s s' :
  blk s' = blk s -> nblk s' = nblk s -> fsb s' = fsb s -> (lhn s' <= 28)%nat -> fs_ok s -> fs_ok s'.
Proof.
  intros E1 E2 E3 Ht [[] H]. split; [split|]; rewrite ?E1, ?E2, ?E3; done.
Qed.

Lemma ent_inodes s s' c i : blk s' = blk s -> ent s' c i = ent s c i.
Proof. intros E. unfold ent. by rewrite E. Qed.

Lemma data_blk_inodes s s' b : blk s' = blk s -> fsb s' = fsb s -> data_blk s b -> data_blk s' b.
Proof. intros E1 E2. unfold data_blk. by rewrite E1, E2. Qed.

Lemma file_wf_inodes s s' a cs : blk s' = blk s -> fsb s' = fsb s -> file_wf s a cs -> file_wf s' a cs.
Proof.
  intros E1 E2 [W1 W2 W3 W4 W5 W6]. split.
  - done.
  - intros k c Hk. rewrite (ent_inodes s) by done. by apply W2.
  - done.
  - intros c Hc. by eapply data_blk_inodes; [..|apply W4].
  - intros c i Hc Hi. rewrite (ent_inodes s) by done.
    destruct (W5 c i Hc Hi) as [?|[? ?]]; [by left|right]. split; [by eapply data_blk_inodes|done].
  - intros c c' i i' Hc Hc' Hi Hi'. rewrite !(ent_inodes s s') by done. by apply W6.
Qed.

Lemma fs_ok_lhn s : fs_ok s -> (lhn s <= 28)%nat.
Proof. intros [W _]. apply (wf_log _ W). Qed.

(** A store to a block that holds file contents, logged. *)
Lemma log_data s c d :
  fs_ok s -> room 1 s -> data_blk s c -> block_ok d ->
  fs_ok (log_blk c d s) /\ free_count (log_blk c d s) = free_count s /\
  forall x, data_blk s x -> data_blk (log_blk c d s) x.
Proof.
  intros Hok Hroom Hc Hd. destruct (upd_data s c d Hok Hc Hd) as [H1 _]. split_and!.
  - apply (fs_ok_inodes (upd_blk c d s)); try done. eapply logs_lhn; [apply log_blk_logs|done].
  - by apply free_count_upd.
  - intros x Hx. by apply (data_blk_upd s c d x).
Qed.

(** The state in which block [b] has been linked after the indirect block [c]. *)
Definition linked (c b : Z) (s : fs) : fs :=
  let s2 := log_blk c (put32 (blk s c) (4 * (NINDIRECT - 1)) b) s in
  upd_blk b (put32 (blk s2 b) (4 * (NINDIRECT - 1)) 0) s2.

Lemma linked_blk s c b x :
  blk s b = zero_block -> c <> b -> x <> c -> blk (linked c b s) x = blk s x.
Proof.
  intros Hz Hcb Hx. unfold linked. cbn [log_blk upd_blk set_flog set_blk blk].
  destruct (Z.eqb_spec b c); [congruence|]. destruct (Z.eqb_spec x b) as [->|].
  - by rewrite Hz, zero_block_put.
  - by destruct (Z.eqb_spec x c).
Qed.

Lemma linked_ok s c b :
  fs_ok s -> room 1 s -> data_blk s c -> data_blk s b -> blk s b = zero_block -> c <> b ->
  fs_ok (linked c b s) /\ logs 1 s (linked c b s) /\ free_count (linked c b s) = free_count s /\
  (forall x, data_blk s x -> data_blk (linked c b s) x) /\
  (forall i, 0 <= i < 128 -> ent (linked c b s) c i = if i =? 127 then b else ent s c i) /\
  (forall x i, x <> c -> ent (linked c b s) x i = ent s x i).
Proof.
  intros Hok Hroom Hc Hb Hz Hcb. pose proof (data_blk_word s b Hok Hb) as Hw.
  set (d := put32 (blk s c) (4 * (NINDIRECT - 1)) b).
  assert (block_ok d) as Hd by (apply block_ok_put32; by apply fs_ok_blk).
  destruct (log_data s c d Hok Hroom Hc Hd) as (Hok2 & Hf2 & Hm2).
  assert (block_ok (put32 (blk (log_blk c d s) b) (4 * (NINDIRECT - 1)) 0)) as Hd2
    by (apply block_ok_put32; by apply fs_ok_blk).
  destruct (upd_data _ b _ Hok2 (Hm2 b Hb) Hd2) as [Hok3 _].
  split_and!.
  - exact Hok3.
  - apply log_blk_logs.
  - unfold linked. fold d. rewrite free_count_upd; [done|done|by apply Hm2|done].
  - intros x Hx. apply data_blk_upd; [done|by apply Hm2|done|by apply Hm2].
  - intros i Hi. unfold linked. rewrite ent_other by done. by apply ent_put.
  - intros x i Hx. unfold ent. by rewrite linked_blk.
Qed.

(** Walking [n] links from the [k]-th indirect block, extending the chain where
    it ends. *)
Lemma bmap_chain_ok n : forall s a cs k c,
  fs_ok s -> file_wf s a cs -> cs !! k = Some c -> (n <= free_count s)%nat ->
  room (3 * (k + n + 1 - length cs)) s ->
  exists s' cs' c', bmap_chain n ROOTDEV c s = Ret c' s' /\ fs_ok s' /\ file_wf s' a cs' /\
    cs' !! (k + n)%nat = Some c' /\ extends s cs s' cs' /\ inodes s' = inodes s /\
    (forall n, 0 <= n -> addr_of s' cs' n = addr_of s cs n) /\
    length cs' = Nat.max (length cs) (k + n + 1) /\
    (free_count s + length cs <= free_count s' + length cs')%nat /\
    logs (3 * (length cs' - length cs)) s s'.
Proof.
  induction n as [|n IH]; intros s a cs k c Hok Hf Hk Hn Hroom.
  { exists s, cs, c. rewrite Nat.add_0_r. pose proof (lookup_lt_Some _ _ _ Hk).
    split_and!; try done; try lia. apply logs_refl. }
  assert (c ∈ cs) as Hin by (by eapply list_elem_of_lookup_2).
  pose proof (fw_ind _ _ _ Hf c Hin) as Hc.
  cbn [bmap_chain]. rewrite fbread_bind by (by apply data_blk_lt || by apply fs_ok_lhn).
  fold (ent s c 127). change (get32 (blk s c) (4 * (NINDIRECT - 1))) with (ent s c 127).
  pose proof (fw_link _ _ _ Hf k c Hk) as Hlink.
  destruct (cs !! S k) as [c2|] eqn:Hk2.
  - simpl in Hlink. assert (c2 ∈ cs) as Hin2 by (by eapply list_elem_of_lookup_2).
    pose proof (fw_ind _ _ _ Hf c2 Hin2) as (_ & _ & _ & H0 & _). rewrite Hlink.
    destruct (Z.eqb_spec c2 0); [done|].
    destruct (IH s a cs (S k) c2 Hok Hf Hk2) as (s' & cs' & c' & R & H1 & H2 & H3 & H4 & H5 & Hm & H6 & H7 & G); [lia|roomy|].
    exists s', cs', c'. rewrite Nat.add_succ_r. split_and!; try done; lia.
  - simpl in Hlink. rewrite Hlink. cbn [Z.eqb].
    assert (length cs = S k) as Hlen.
    { apply lookup_ge_None in Hk2. apply lookup_lt_Some in Hk. lia. }
    destruct (balloc_indirect [c] s Hok (held_data s c Hc))
      as (b & s1 & R1 & Hok1 & G1 & F1 & F2 & F3 & F4 & F5 & Hb & Hz & Hc1 & Hold & Hlt);
      [roomy|lia|].
    assert (room (3 * S n - 2) s1) as Hroom1 by roomy.
    mstep R1. unfold bind at 1, get. rewrite lstore_bind by roomy.
    destruct (Hold c Hc) as (Ec & Hdc & Hne).
    destruct (linked_ok s1 c b Hok1 ltac:(roomy) Hdc Hb Hz Hne) as (Hok2 & G2 & Hc2 & Hd2 & He & Ho).
    rewrite fbread_bind by (exact Hlt || by apply (fs_ok_lhn (linked c b s1))).
    rewrite fstore_bind. fold (linked c b s1).
    assert (forall i, 0 <= i < 128 -> ent (linked c b s1) b i = 0) as Hbz.
    { intros i Hi. rewrite Ho by done. by apply ent_zero. }
    assert (forall c' i, c' ∈ cs -> 0 <= i < 127 -> ent (linked c b s1) c' i = ent s c' i) as Hsame.
    { intros c' i Hin' Hi. destruct (Hold c' (fw_ind _ _ _ Hf c' Hin')) as (Eb & _).
      destruct (decide (c' = c)) as [->|].
      - rewrite He by lia. destruct (Z.eqb_spec i 127); [lia|]. unfold ent. by rewrite Eb.
      - rewrite Ho by done. unfold ent. by rewrite Eb. }
    assert (file_wf (linked c b s1) a (cs ++ [b])) as Hf2.
    { assert (a = default 0 (head (cs ++ [b]))) as Ea.
      { rewrite (fw_root _ _ _ Hf). destruct cs; [done|done]. }
      rewrite Ea. apply (file_wf_snoc s _ a).
      - done.
      - by apply Hd2.
      - intros x Hx. destruct (Hold x Hx) as (_ & ? & ?). split; [by apply Hd2|done].
      - exact Hbz.
      - intros k' c' Hk'. case_decide as E.
        + assert (k' = k) as -> by lia. rewrite Hk in Hk'. injection Hk' as <-. by rewrite He by lia.
        + assert (c' <> c) as Hcc.
          { intros ->. assert (k' = k) by (eapply NoDup_lookup; [apply (fw_nodup _ _ _ Hf)|done|done]). lia. }
          rewrite Ho by done. unfold ent.
          assert (c' ∈ cs) as Hin' by (by eapply list_elem_of_lookup_2).
          by destruct (Hold c' (fw_ind _ _ _ Hf c' Hin')) as (-> & _).
      - exact Hsame. }
    destruct (IH (linked c b s1) a (cs ++ [b]) (S k) b Hok2 Hf2)
      as (s' & cs' & c' & R & H1 & H2 & H3 & H4 & H5 & Hm & H6 & H7 & G).
    { by rewrite lookup_app_r, Hlen, Nat.sub_diag by lia. }
    { lia. }
    { rewrite length_app. simpl. roomy. }
    rewrite length_app in H6, H7, G. simpl in H6, H7, G.
    exists s', cs', c'. rewrite Nat.add_succ_r. split_and!; try done; [| | |lia|lia|].
    + apply (extends_trans _ _ (linked c b s1) (cs ++ [b])); [|done].
      split_and!; try done.
      * by exists [b].
      * intros c0 i Hin' Hi _. by apply Hsame.
      * intros x Hx. destruct (Hold x Hx) as (Eb & Hdx & Hxb). split; [by apply Hd2|].
        intros Hn'. split.
        -- rewrite linked_blk; [done|done|done|]. intros ->. done.
        -- intros [?|?%list_elem_of_singleton]%elem_of_app; done.
    + by rewrite H5.
    + intros m Hm0. rewrite Hm by done. by apply addr_of_snoc.
    + eapply (logs_trans 2); [exact G1| |].
      * eapply (logs_trans 1); [exact G2|exact G|reflexivity].
      * lia.
Qed.

(** ** [bmap] *)

Lemma bmap_split_spec fuel : forall bn k,
  0 <= bn <= Z.of_nat fuel -> bmap_split fuel bn k = (bn mod 127, k + bn / 127).
Proof.
  induction fuel as [|f IH]; intros bn k Hb; cbn [bmap_split].
  - assert (bn = 0) as -> by lia. f_equal; dlia.
  - destruct (Z.leb_spec (NINDIRECT - 1) bn).
    + rewrite IH by lia. f_equal; dlia.
    + f_equal; dlia.
Qed.

(** Only [addrs[0]] of inode [ip] may change. *)
Definition addr_frame (ip : nat) (s s' : fs) : Prop :=
  length (inodes s') = length (inodes s) /\
  (forall j, j <> ip -> ino s' j = ino s j) /\
  exists v, ino s' ip = set_i_addr 0 v (ino s ip).

Lemma set_addr_same x : length (i_addrs x) = 13%nat -> set_i_addr 0 (i_addr x 0) x = x.
Proof.
  intros Hl. destruct x as [d n r l v t ma mi nl sz ad]. unfold set_i_addr, i_addr. simpl in *.
  f_equal. destruct ad; [done|]. done.
Qed.

(** The first indirect block, allocated on the first access. *)
Definition bmap_root (ip : nat) (s : fs) : M fs Z :=
  if i_addr (ino s ip) 0 =? 0 then
    let* addr := balloc [] (i_dev (ino s ip)) in
    modify (upd_ino ip (set_i_addr 0 addr)) ;;;
    let* d := fbread [] (i_dev (ino s ip)) addr in
    fstore addr (put32 d (4 * (NINDIRECT - 1)) 0) ;;;
    ret addr
  else ret (i_addr (ino s ip) 0).

Lemma bmap_root_ok ip s cs :
  fs_ok s -> (ip < length (inodes s))%nat -> i_dev (ino s ip) = 1 ->
  length (i_addrs (ino s ip)) = 13%nat -> file_wf s (i_addr (ino s ip) 0) cs ->
  (1 <= free_count s)%nat -> room (3 * (1 - length cs)) s ->
  exists a s' cs', bmap_root ip s s = Ret a s' /\ fs_ok s' /\
    file_wf s' a cs' /\ i_addr (ino s' ip) 0 = a /\ cs' !! O = Some a /\
    extends s cs s' cs' /\ addr_frame ip s s' /\
    (forall n, 0 <= n -> addr_of s' cs' n = addr_of s cs n) /\
    length cs' = Nat.max (length cs) 1 /\
    (free_count s + length cs <= free_count s' + length cs')%nat /\
    logs (3 * (length cs' - length cs)) s s'.
Proof.
  intros Hok Hip Hdev Hlen Hf Hfree Hroom. unfold bmap_root. rewrite Hdev.
  pose proof (fw_root _ _ _ Hf) as Hroot.
  destruct (Z.eqb_spec (i_addr (ino s ip) 0) 0) as [E0|E0].
  - assert (cs = []) as ->.
    { destruct cs as [|c cs]; [done|]. simpl in Hroot.
      destruct (fw_ind _ _ _ Hf c) as (_ & _ & _ & H0 & _); [constructor|]. congruence. }
    simpl in Hroom. destruct (balloc_indirect [] s Hok (held_nil s))
      as (b & s1 & R1 & Hok1 & G1 & F1 & F2 & F3 & F4 & F5 & Hb & Hz & Hc1 & Hold & Hlt);
      [roomy|lia|].
    mstep R1. unfold bind at 1, modify. set (s2 := upd_ino ip (set_i_addr 0 b) s1).
    assert (lhn s2 <= 28)%nat as Ht2 by (apply (fs_ok_lhn s1 Hok1)).
    rewrite fbread_bind by (done || exact Hlt). rewrite fstore_bind.
    change (blk s2 b) with (blk s1 b). rewrite Hz, zero_block_put.
    assert (fs_ok s2) as Hok2 by (by apply (fs_ok_inodes s1)).
    assert (data_blk s2 b) as Hb2 by (by apply (data_blk_inodes s1)).
    destruct (upd_data s2 b zero_block Hok2 Hb2 block_ok_zero) as [Hok3 _].
    assert (forall x, data_blk s x -> data_blk (upd_blk b zero_block s2) x /\ x <> b) as Hmono.
    { intros x Hx. destruct (Hold x Hx) as (_ & Hdx & Hne). split; [|done].
      apply data_blk_upd; [done|done|apply block_ok_zero|by apply (data_blk_inodes s1)]. }
    assert (forall i, 0 <= i < 128 -> ent (upd_blk b zero_block s2) b i = 0) as Hent.
    { intros i Hi. apply ent_zero; [|done]. simpl. by rewrite Z.eqb_refl. }
    assert (Hip1 : (ip < length (inodes s1))%nat) by (by rewrite F3).
    assert (ino (upd_blk b zero_block s2) ip = set_i_addr 0 b (ino s ip)) as Eino.
    { change (ino (upd_blk b zero_block s2) ip) with (ino s2 ip). unfold s2.
      rewrite ino_upd by done. case_decide; [|done]. unfold ino. by rewrite F3. }
    exists b, (upd_blk b zero_block s2), [b]. split_and!.
    + done.
    + done.
    + apply (file_wf_snoc s _ (i_addr (ino s ip) 0) [] b); try done.
      * apply data_blk_upd; [done|done|apply block_ok_zero|done].
      * intros c i Hc. by apply elem_of_nil in Hc.
    + rewrite Eino. unfold i_addr, set_i_addr. simpl. by rewrite list_lookup_insert_eq by lia.
    + done.
    + split_and!; try done.
      * apply prefix_nil.
      * intros c i Hc. by apply elem_of_nil in Hc.
      * intros x Hx. destruct (Hold x Hx) as (Eb & _ & Hne). destruct (Hmono x Hx) as [Hx' _].
        split; [done|]. intros _. split.
        -- cbn [upd_blk set_blk blk]. by destruct (Z.eqb_spec x b).
        -- intros ?%list_elem_of_singleton. done.
    + split_and!.
      * change (length (inodes s2) = length (inodes s)). unfold s2. by rewrite length_upd_ino, F3.
      * intros j Hj. change (ino s2 j = ino s j). unfold s2. rewrite ino_upd by done.
        case_decide; [by subst|]. unfold ino. by rewrite F3.
      * by exists b.
    + apply (addr_of_snoc s _ [] b); [done|]. intros c i Hc. by apply elem_of_nil in Hc.
    + done.
    + rewrite free_count_upd by (done || apply block_ok_zero).
      change (free_count s2) with (free_count s1). simpl. lia.
    + change (logs 3 s s1). eapply (logs_trans 2 0); [exact G1|apply logs_refl|lia].
  - exists (i_addr (ino s ip) 0), s, cs. split_and!; try done; [| | |].
    + destruct cs as [|c cs]; [done|]. simpl in *. by f_equal.
    + split_and!; try done. exists (i_addr (ino s ip) 0). by rewrite set_addr_same.
    + destruct cs; [done|simpl; lia].
    + apply logs_refl.
Qed.

(** The last step of [bmap]: the address in word [i] of the indirect block
    [bp], allocated when it is 0. *)
Definition bmap_entry (dev bp i : Z) : M fs Z :=
  let* a := fbread [] dev bp in
  if get32 a (4 * i) =? 0 then
    let* addr := balloc [bp] dev in
    let* s := get in
    lstore bp (put32 (blk s bp) (4 * i) addr) ;;;
    ret addr
  else ret (get32 a (4 * i)).

Lemma bmap_unfold ip bn s :
  0 <= bn ->
  bmap ip bn s =
  (let* a := bmap_root ip s in
   let* bp := bmap_chain (Z.to_nat (bn / 127)) (i_dev (ino s ip)) a in
   bmap_entry (i_dev (ino s ip)) bp (bn mod 127)) s.
Proof. intros Hb. unfold bmap. rewrite bmap_split_spec by lia. done. Qed.

Lemma bmap_entry_ok s a cs c i :
  fs_ok s -> file_wf s a cs -> c ∈ cs -> 0 <= i < 127 -> (1 <= free_count s)%nat ->
  room (if (ent s c i =? 0)%Z then 3 else 0) s ->
  exists addr s', bmap_entry ROOTDEV c i s = Ret addr s' /\ fs_ok s' /\ file_wf s' a cs /\
    extends s cs s' cs /\ inodes s' = inodes s /\ ent s' c i = addr /\ data_blk s' addr /\
    (addr = ent s c i \/ ent s c i = 0 /\ blk s' addr = zero_block /\ ~ data_blk s addr) /\
    (forall c' j, c' ∈ cs -> 0 <= j < 127 -> c' <> c \/ j <> i -> ent s' c' j = ent s c' j) /\
    (free_count s <= free_count s' + (if (ent s c i =? 0)%Z then 1 else 0))%nat /\
    logs (if (ent s c i =? 0)%Z then 3 else 0) s s'.
Proof.
  intros Hok Hf Hin Hi Hfree Hroom. pose proof (fw_ind _ _ _ Hf c Hin) as Hc.
  unfold bmap_entry. rewrite fbread_bind by (by apply data_blk_lt || by apply fs_ok_lhn).
  change (get32 (blk s c) (4 * i)) with (ent s c i).
  destruct (Z.eqb_spec (ent s c i) 0) as [E0|E0].
  - destruct (balloc_indirect [c] s Hok (held_data s c Hc))
      as (b & s1 & R1 & Hok1 & G1 & F1 & F2 & F3 & F4 & F5 & Hb & Hz & Hc1 & Hold & Hlt);
      [roomy|lia|].
    assert (room 1 s1) as Hroom1 by roomy.
    mstep R1. unfold bind at 1, get. rewrite lstore_bind by done.
    destruct (Hold c Hc) as (Ec & Hdc & Hne).
    set (d := put32 (blk s1 c) (4 * i) b).
    assert (block_ok d) as Hd by (apply block_ok_put32; by apply fs_ok_blk).
    destruct (log_data s1 c d Hok1 Hroom1 Hdc Hd) as (Hok2 & Hf2 & Hm2).
    pose proof (data_blk_word s1 b Hok1 Hb) as Hw.
    assert (forall x, data_blk s x -> data_blk (log_blk c d s1) x /\ x <> b) as Hmono.
    { intros x Hx. destruct (Hold x Hx) as (_ & ? & ?). split; [by apply Hm2|done]. }
    assert (forall c' j, c' ∈ cs -> 0 <= j < 128 -> ent (log_blk c d s1) c' j =
              if decide (c' = c /\ j = i) then b else ent s c' j) as He.
    { intros c' j Hin' Hj. destruct (Hold c' (fw_ind _ _ _ Hf c' Hin')) as (Eb & _).
      destruct (decide (c' = c)) as [->|Hcc].
      - change (ent (upd_blk c d s1) c j = if decide (c = c /\ j = i) then b else ent s c j).
        unfold d. rewrite ent_put by (done || lia). destruct (Z.eqb_spec j i) as [->|].
        + by rewrite decide_True by done.
        + rewrite decide_False by tauto. unfold ent. by rewrite Eb.
      - change (ent (upd_blk c d s1) c' j = if decide (c' = c /\ j = i) then b else ent s c' j).
        rewrite ent_other by done. rewrite decide_False by tauto. unfold ent. by rewrite Eb. }
    exists b, (log_blk c d s1). split_and!; try done.
    + apply (file_wf_entry s _ a cs c i b); try done.
      * by apply Hm2.
      * intros c' Hin'. rewrite He by (done || lia). rewrite decide_False by lia. done.
      * intros c' j Hin' Hj. apply He; [done|lia].
    + split_and!; try done.
      * intros c' j Hin' Hj Hne'. rewrite He by (done || lia). case_decide as Hcj; [|done].
        destruct Hcj as [-> ->]. done.
      * intros x Hx. destruct (Hmono x Hx) as [Hx' _]. split; [done|]. intros Hn. split; [|done].
        destruct (Hold x Hx) as (Eb & _). cbn [log_blk set_flog upd_blk set_blk blk].
        destruct (Z.eqb_spec x c); [by subst|done].
    + rewrite He by (done || lia). by rewrite decide_True.
    + by apply Hm2.
    + right. split_and!; [done| |by intros (_ & _ & ?)%Hold].
      cbn [log_blk set_flog upd_blk set_blk blk]. destruct (Z.eqb_spec b c); [congruence|done].
    + intros c' j Hin' Hj Hne'. rewrite He by (done || lia). by rewrite decide_False by tauto.
    + lia.
    + eapply (logs_trans 2); [exact G1|apply log_blk_logs|lia].
  - exists (ent s c i), s. split_and!; try done.
    + by destruct (fw_data _ _ _ Hf c i Hin Hi) as [?|[? _]].
    + by left.
    + lia.
    + apply logs_refl.
Qed.

(** How many times [bmap] logs a block at most: three times for each indirect
    block it adds to the chain of [len], and for the block itself. *)
Definition bmap_cost (s : fs) (cs : list Z) (bn : Z) : nat :=
  3 * (Z.to_nat (bn / 127) + 1 - length cs) + (if (addr_of s cs bn =? 0)%Z then 3 else 0).

(** Everything [bmap] does. *)
Lemma bmap_ok ip s cs bn :
  fs_ok s -> (ip < length (inodes s))%nat -> i_dev (ino s ip) = 1 ->
  length (i_addrs (ino s ip)) = 13%nat -> file_wf s (i_addr (ino s ip) 0) cs ->
  0 <= bn -> (Z.to_nat (bn / 127) + 2 <= free_count s)%nat -> room (bmap_cost s cs bn) s ->
  exists addr s' cs', bmap ip bn s = Ret addr s' /\ fs_ok s' /\
    file_wf s' (i_addr (ino s' ip) 0) cs' /\ extends s cs s' cs' /\ addr_frame ip s s' /\
    data_blk s' addr /\ addr ∉ cs' /\
    (forall n, 0 <= n -> addr_of s' cs' n = if n =? bn then addr else addr_of s cs n) /\
    (addr = addr_of s cs bn \/
     addr_of s cs bn = 0 /\ blk s' addr = zero_block /\ ~ data_blk s addr) /\
    length cs' = Nat.max (length cs) (Z.to_nat (bn / 127) + 1) /\
    (free_count s + length cs <= free_count s' + length cs' + (if (addr_of s cs bn =? 0)%Z then 1 else 0))%nat /\
    logs (bmap_cost s cs bn) s s'.
Proof.
  intros Hok Hip Hdev Hlen Hf Hbn Hfree Hroom. rewrite bmap_unfold by done. unfold bmap_cost in *.
  destruct (bmap_root_ok ip s cs Hok Hip Hdev Hlen Hf)
    as (a & s1 & cs1 & R1 & Hok1 & Hf1 & Ha1 & Hcs1 & X1 & A1 & M1 & Hl1 & Hc1 & G1); [lia|roomy|].
  destruct (bmap_chain_ok (Z.to_nat (bn / 127)) s1 a cs1 0 a Hok1 Hf1 Hcs1)
    as (s2 & cs2 & c & R2 & Hok2 & Hf2 & Hcs2 & X2 & I2 & M2 & Hl2 & Hc2 & G2); [lia|roomy|].
  assert (room (if (addr_of s cs bn =? 0)%Z then 3 else 0) s2) as Hroom2.
  { eapply (room_logs (3 * (length cs2 - length cs))); [exact Hroom| |lia].
    eapply logs_trans; [exact G1|exact G2|lia]. }
  cbn [Nat.add] in Hcs2.
  assert (c ∈ cs2) as Hin by (by eapply list_elem_of_lookup_2).
  assert (forall n, 0 <= n -> addr_of s2 cs2 n = addr_of s cs n) as M
    by (intros n Hn; by rewrite M2, M1).
  assert (addr_of s2 cs2 bn = ent s2 c (bn mod 127)) as Ebn by (unfold addr_of; by rewrite Hcs2).
  rewrite <- M, Ebn in Hroom2 by done.
  destruct (bmap_entry_ok s2 a cs2 c (bn mod 127) Hok2 Hf2 Hin)
    as (addr & s3 & R3 & Hok3 & Hf3 & X3 & I3 & He & Hd & Hz & Hoth & Hc3 & G3); [dlia|lia|done|].
  assert (inodes s3 = inodes s1) as I13 by congruence.
  assert (forall j, ino s3 j = ino s1 j) as Ej by (intros j; unfold ino; by rewrite I13).
  exists addr, s3, cs2. split_and!; try done.
  - mstep R1. rewrite Hdev. mstep R2. exact R3.
  - by rewrite Ej, Ha1.
  - eapply extends_trans; [exact X1|]. by eapply extends_trans.
  - destruct A1 as (L & O & v & V). split_and!; [congruence| |].
    + intros j Hj. rewrite Ej. by apply O.
    + exists v. by rewrite Ej.
  - rewrite <- He. destruct (fw_data _ _ _ Hf3 c (bn mod 127) Hin) as [E|[_ ?]]; [dlia| |done].
    destruct Hd as (_ & _ & _ & H0 & _). congruence.
  - intros n Hn. destruct (Z.eqb_spec n bn) as [->|Hne]; [unfold addr_of; by rewrite Hcs2|].
    rewrite <- M by done. unfold addr_of.
    destruct (cs2 !! Z.to_nat (n / 127)) as [c'|] eqn:E; [|done].
    apply Hoth; [by eapply list_elem_of_lookup_2|dlia|].
    destruct (decide (c' = c)) as [->|]; [right|by left]. intros Em. apply Hne.
    assert (Z.to_nat (n / 127) = Z.to_nat (bn / 127)) as Ed
      by (eapply NoDup_lookup; [apply (fw_nodup _ _ _ Hf2)|done|done]). dlia.
  - rewrite <- M, Ebn by done. destruct Hz as [?|(E & Z0 & Hnew)]; [by left|right].
    split_and!; [done|done|]. intros Hx. apply Hnew.
    destruct X1 as (_ & _ & D1 & _), X2 as (_ & _ & D2 & _). by apply D2, D1.
  - lia.
  - rewrite <- M, Ebn by done. lia.
  - rewrite <- M, Ebn by done. eapply (logs_trans (3 * (length cs2 - length cs))); [|exact G3|lia].
    eapply logs_trans; [exact G1|exact G2|lia].
Qed.

(** A mapped block is found without any change of state. *)
Lemma bmap_chain_mapped n : forall s a cs k c c',
  fs_ok s -> file_wf s a cs -> cs !! k = Some c -> cs !! (k + n)%nat = Some c' ->
  bmap_chain n ROOTDEV c s = Ret c' s.
Proof.
  induction n as [|n IH]; intros s a cs k c c' Hok Hf Hk Hk'.
  { rewrite Nat.add_0_r in Hk'. by simplify_eq. }
  assert (c ∈ cs) as Hin by (by eapply list_elem_of_lookup_2).
  cbn [bmap_chain].
  rewrite fbread_bind; [|by apply fs_ok_lhn|by eapply data_blk_lt; [|apply (fw_ind _ _ _ Hf)]].
  change (get32 (blk s c) (4 * (NINDIRECT - 1))) with (ent s c 127).
  rewrite (fw_link _ _ _ Hf k c Hk). rewrite Nat.add_succ_r in Hk'.
  destruct (lookup_lt_is_Some_2 cs (S k)) as [c2 Hk2]; [apply lookup_lt_Some in Hk'; lia|].
  rewrite Hk2. simpl. assert (c2 ∈ cs) as Hin2 by (by eapply list_elem_of_lookup_2).
  destruct (fw_ind _ _ _ Hf c2 Hin2) as (_ & _ & _ & H0 & _).
  destruct (Z.eqb_spec c2 0); [done|]. by eapply IH.
Qed.

Lemma bmap_mapped ip s cs bn :
  fs_ok s -> i_dev (ino s ip) = 1 -> file_wf s (i_addr (ino s ip) 0) cs -> 0 <= bn ->
  addr_of s cs bn <> 0 -> bmap ip bn s = Ret (addr_of s cs bn) s.
Proof.
  intros Hok Hdev Hf Hbn Hne. rewrite bmap_unfold, Hdev by done. unfold addr_of in *.
  destruct (cs !! Z.to_nat (bn / 127)) as [c|] eqn:E; [|done].
  pose proof (fw_root _ _ _ Hf) as Hroot. destruct cs as [|c0 cs]; [done|]. simpl in Hroot.
  assert (c0 <> 0) as H0 by (by destruct (fw_ind _ _ _ Hf c0) as (_ & _ & _ & ? & _); [constructor|]).
  unfold bmap_root. rewrite Hroot. destruct (Z.eqb_spec c0 0); [done|].
  unfold bind at 1, ret at 1.
  mstep (bmap_chain_mapped (Z.to_nat (bn / 127)) s _ (c0 :: cs) 0 c0 c Hok Hf eq_refl E).
  unfold bmap_entry. rewrite fbread_bind; [|by apply fs_ok_lhn|].
  - change (get32 (blk s c) (4 * (bn mod 127))) with (ent s c (bn mod 127)).
    destruct (Z.eqb_spec (ent s c (bn mod 127)) 0); done.
  - eapply data_blk_lt; [done|]. apply (fw_ind _ _ _ Hf). by eapply list_elem_of_lookup_2.
Qed.

(** ** Bytes of a file *)

(** Byte [off] of the file; blocks that are not mapped read as 0. *)
Definition fbyte (s : fs) (cs : list Z) (off : Z) : Z :=
  if addr_of s cs (off / BSIZE) =? 0 then 0
  else get8 (blk s (addr_of s cs (off / BSIZE))) (off mod BSIZE).

Lemma addr_of_data s a cs n :
  file_wf s a cs -> 0 <= n -> addr_of s cs n <> 0 ->
  data_blk s (addr_of s cs n) /\ addr_of s cs n ∉ cs.
Proof.
  intros Hf Hn Hne. unfold addr_of in *. destruct (cs !! Z.to_nat (n / 127)) as [c|] eqn:E; [|done].
  assert (c ∈ cs) as Hin by (by eapply list_elem_of_lookup_2).
  destruct (fw_data _ _ _ Hf c (n mod 127) Hin) as [?|?]; [dlia|done|done].
Qed.

Lemma addr_of_inj s a cs n m :
  file_wf s a cs -> 0 <= n -> 0 <= m -> addr_of s cs n <> 0 -> addr_of s cs n = addr_of s cs m -> n = m.
Proof.
  intros Hf Hn Hm Hne E. unfold addr_of in *.
  destruct (cs !! Z.to_nat (n / 127)) as [c|] eqn:E1; [|done].
  destruct (cs !! Z.to_nat (m / 127)) as [c'|] eqn:E2; [|congruence].
  destruct (fw_inj _ _ _ Hf c c' (n mod 127) (m mod 127)) as [-> Hmod]; try done; try dlia;
    try (by eapply list_elem_of_lookup_2).
  assert (Z.to_nat (n / 127) = Z.to_nat (m / 127)) as Ed
    by (eapply NoDup_lookup; [apply (fw_nodup _ _ _ Hf)|done|done]). dlia.
Qed.

Lemma slice_get8 d o m :
  0 <= o -> 0 <= m -> o + m <= Z.of_nat (length d) -> slice d o m = get8 d <$> seqZ o m.
Proof.
  intros Ho Hm Hl. apply list_eq. intros i. unfold slice, get8. rewrite list_lookup_fmap.
  destruct (decide (i < Z.to_nat m)%nat) as [Hi|Hi].
  - rewrite lookup_take_lt, lookup_drop, lookup_seqZ_lt by lia. simpl.
    replace (Z.to_nat (o + Z.of_nat i)) with (Z.to_nat o + i)%nat by lia.
    destruct (lookup_lt_is_Some_2 d (Z.to_nat o + i)) as [x ->]; [lia|done].
  - rewrite lookup_take_ge, lookup_seqZ_ge by lia. done.
Qed.

(** The bytes of one block, as the loops of [readi] and [writei] cut them. *)
Lemma chunk_block off m x :
  0 <= off -> 0 < m <= BSIZE - off mod BSIZE -> off <= x < off + m ->
  x / BSIZE = off / BSIZE /\ x mod BSIZE = off mod BSIZE + (x - off).
Proof. intros. split; dlia. Qed.

Lemma readi_loop_ok ip cs fuel : forall s tot off n,
  fs_ok s -> i_dev (ino s ip) = 1 -> file_wf s (i_addr (ino s ip) 0) cs ->
  0 <= off -> 0 <= tot <= n -> n - tot < Z.of_nat fuel ->
  (forall x, off <= x < off + (n - tot) -> addr_of s cs (x / BSIZE) <> 0) ->
  readi_loop fuel ip tot off n s = Ret (fbyte s cs <$> seqZ off (n - tot)) s.
Proof.
  induction fuel as [|fuel IH]; intros s tot off n Hok Hdev Hf Hoff Htot Hfuel Hmap; [lia|].
  cbn [readi_loop]. destruct (Z.ltb_spec tot n) as [Hlt|Hge].
  2: { assert (n - tot = 0) as -> by lia. done. }
  assert (addr_of s cs (off / BSIZE) <> 0) as Hne by (apply Hmap; lia).
  assert (0 <= off / BSIZE) as Hb by dlia.
  mstep (bmap_mapped ip s cs (off / BSIZE) Hok Hdev Hf Hb Hne).
  unfold bind at 1, get. rewrite Hdev. set (a := addr_of s cs (off / BSIZE)) in *.
  destruct (addr_of_data s _ cs _ Hf Hb Hne) as [Hd _].
  rewrite fbread_bind by (by apply data_blk_lt || by apply fs_ok_lhn). fold a.
  set (m := Z.min (n - tot) (BSIZE - off mod BSIZE)).
  assert (0 < m <= BSIZE - off mod BSIZE /\ m <= n - tot) as [Hm Hm2].
  { unfold m. assert (0 <= off mod BSIZE < BSIZE) by dlia. lia. }
  unfold bind at 1. rewrite IH; try done; try lia.
  2: { intros x Hx. apply Hmap. lia. }
  unfold ret. f_equal.
  replace (n - tot) with (m + (n - (tot + m))) by lia. rewrite seqZ_app by lia.
  rewrite fmap_app. f_equal. destruct (fs_ok_blk s a Hok) as [Hl _].
  rewrite slice_get8 by (rewrite ?Hl; dlia). apply list_eq. intros i.
  rewrite !list_lookup_fmap. destruct (decide (i < Z.to_nat m)%nat) as [Hi|Hi].
  - rewrite !lookup_seqZ_lt by lia. simpl. f_equal. unfold fbyte.
    destruct (chunk_block off m (off + Z.of_nat i)) as [-> ->]; [done|done|lia|]. fold a.
    destruct (Z.eqb_spec a 0); [done|]. f_equal. lia.
  - by rewrite !lookup_seqZ_ge by lia.
Qed.

(** ** Writing *)

Lemma length_put_bytes l : forall d o, length (put_bytes d o l) = length d.
Proof. induction l as [|x l IH]; intros d o; simpl; [done|]. by rewrite IH, length_put8. Qed.

Lemma block_ok_put_bytes l : forall d o, block_ok d -> block_ok (put_bytes d o l).
Proof. induction l as [|x l IH]; intros d o Hd; simpl; [done|]. apply IH. by apply block_ok_put8. Qed.

Lemma get8_put_bytes l : forall d o j,
  0 <= o -> o + Z.of_nat (length l) <= Z.of_nat (length d) -> 0 <= j ->
  get8 (put_bytes d o l) j =
  if (o <=? j) && (j <? o + Z.of_nat (length l)) then u8 (get8 l (j - o)) else get8 d j.
Proof.
  induction l as [|x l IH]; intros d o j Ho Hl Hj; simpl in *.
  { by range_cases. }
  rewrite IH by (rewrite ?length_put8; lia). rewrite get8_put8 by lia.
  unfold get8. range_cases; try done; subst.
  - replace (Z.to_nat (j - o)) with (S (Z.to_nat (j - (o + 1)))) by lia. done.
  - by replace (Z.to_nat (j - j)) with O by lia.
Qed.

(** Blocks in use by anything else than the file. *)
Definition outside (s : fs) (cs : list Z) (x : Z) : Prop :=
  data_blk s x /\ x ∉ cs /\ forall n, 0 <= n -> addr_of s cs n <> x.

(** A store to a block of the file or to a block outside it leaves the map. *)
Lemma upd_content s a cs x d :
  fs_ok s -> file_wf s a cs -> data_blk s x -> x ∉ cs -> block_ok d ->
  file_wf (upd_blk x d s) a cs /\ (forall n, addr_of (upd_blk x d s) cs n = addr_of s cs n).
Proof.
  intros Hok Hf Hx Hn Hd.
  assert (forall c i, c ∈ cs -> ent (upd_blk x d s) c i = ent s c i) as He.
  { intros c i Hc. apply ent_other. by intros ->. }
  pose proof (fun y => data_blk_upd s x d y Hok Hx Hd) as Hmono. split.
  - destruct Hf as [W1 W2 W3 W4 W5 W6]. split; [done|..|done| | |].
    + intros k c Hk. rewrite He by (by eapply list_elem_of_lookup_2). by apply W2.
    + intros c Hc. by apply Hmono, W4.
    + intros c i Hc Hi. rewrite He by done. destruct (W5 c i Hc Hi) as [?|[? ?]]; [by left|right].
      split; [by apply Hmono|done].
    + intros c c' i i' Hc Hc'. rewrite !He by done. by apply W6.
  - intros n. unfold addr_of. destruct (cs !! Z.to_nat (n / 127)) as [c|] eqn:E; [|done].
    apply He. by eapply list_elem_of_lookup_2.
Qed.

Lemma log_content s a cs x d :
  fs_ok s -> file_wf s a cs -> data_blk s x -> x ∉ cs -> block_ok d ->
  file_wf (log_blk x d s) a cs /\ (forall n, addr_of (log_blk x d s) cs n = addr_of s cs n).
Proof.
  intros Hok Hf Hx Hn Hd. destruct (upd_content s a cs x d Hok Hf Hx Hn Hd) as [H1 H2].
  split; [by apply (file_wf_inodes (upd_blk x d s))|exact H2].
Qed.

(** What a write of the bytes [src] at offset [off] does to the file. *)
Record wrote (ip : nat) (s : fs) (cs : list Z) (src : list Z) (off : Z) (s' : fs) (cs' : list Z) : Prop := {
  wr_ok : fs_ok s';
  wr_map : file_wf s' (i_addr (ino s' ip) 0) cs';
  wr_frame : addr_frame ip s s';
  wr_old : forall n, 0 <= n -> addr_of s cs n <> 0 -> addr_of s' cs' n = addr_of s cs n;
  wr_new : forall x, off <= x < off + Z.of_nat (length src) -> addr_of s' cs' (x / BSIZE) <> 0;
  wr_bytes : forall x, 0 <= x ->
    fbyte s' cs' x = if (off <=? x) && (x <? off + Z.of_nat (length src))
                     then get8 src (x - off) else fbyte s cs x;
  wr_outside : forall x, outside s cs x -> outside s' cs' x /\ blk s' x = blk s x;
  wr_world : fsb s' = fsb s /\ nblk s' = nblk s /\ fpid s' = fpid s /\ cwd s' = cwd s;
}.

Lemma addr_frame_refl ip s : length (i_addrs (ino s ip)) = 13%nat -> addr_frame ip s s.
Proof. intros H. split_and!; try done. exists (i_addr (ino s ip) 0). by rewrite set_addr_same. Qed.

Lemma set_addr_twice v w x : set_i_addr 0 v (set_i_addr 0 w x) = set_i_addr 0 v x.
Proof. unfold set_i_addr. simpl. f_equal. apply list_insert_insert_eq. Qed.

Lemma addr_frame_trans ip s1 s2 s3 : addr_frame ip s1 s2 -> addr_frame ip s2 s3 -> addr_frame ip s1 s3.
Proof.
  intros (L1 & O1 & v1 & V1) (L2 & O2 & v2 & V2). split_and!; [congruence| |].
  - intros j Hj. by rewrite O2, O1.
  - exists v2. by rewrite V2, V1, set_addr_twice.
Qed.

Lemma wrote_nil ip s cs off :
  fs_ok s -> length (i_addrs (ino s ip)) = 13%nat -> file_wf s (i_addr (ino s ip) 0) cs ->
  wrote ip s cs [] off s cs.
Proof.
  intros H1 H2 H3. split; try done; [by apply addr_frame_refl|intros x Hx; simpl in Hx; lia|].
  intros x Hx. simpl. by range_cases.
Qed.

Lemma wrote_app ip s1 c1 s2 c2 s3 c3 l1 l2 off :
  0 <= off -> wrote ip s1 c1 l1 off s2 c2 -> wrote ip s2 c2 l2 (off + Z.of_nat (length l1)) s3 c3 ->
  wrote ip s1 c1 (l1 ++ l2) off s3 c3.
Proof.
  intros Hoff [A1 A2 A3 A4 A5 A6 A7 A8] [B1 B2 B3 B4 B5 B6 B7 B8]. split; try done.
  - by eapply addr_frame_trans.
  - intros n Hn Hne. rewrite B4; [by apply A4|done|by rewrite A4].
  - intros x Hx. rewrite length_app in Hx.
    destruct (Z.lt_ge_cases x (off + Z.of_nat (length l1))); [|apply B5; lia].
    rewrite B4; [apply A5; lia|dlia|apply A5; lia].
  - intros x Hx. rewrite B6, A6, length_app by done. unfold get8.
    range_cases; try done.
    + rewrite lookup_app_r by lia. do 2 f_equal. lia.
    + rewrite lookup_app_l by lia. done.
  - intros x Hx. destruct (A7 x Hx) as [Ho E]. destruct (B7 x Ho) as [? ?]. split; [done|congruence].
  - destruct A8 as (? & ? & ? & ?), B8 as (? & ? & ? & ?). split_and!; congruence.
Qed.

(** One round of the loop of [writei]: the bytes [l], within one block. *)
Lemma write_chunk ip s cs off l :
  fs_ok s -> (ip < length (inodes s))%nat -> i_dev (ino s ip) = 1 ->
  length (i_addrs (ino s ip)) = 13%nat -> file_wf s (i_addr (ino s ip) 0) cs ->
  0 <= off -> 0 < Z.of_nat (length l) <= BSIZE - off mod BSIZE ->
  Forall (fun b => 0 <= b < 256) l ->
  (Z.to_nat (off / BSIZE / 127) + 2 <= free_count s)%nat ->
  room (bmap_cost s cs (off / BSIZE) + 1) s ->
  exists addr s1 cs1, bmap ip (off / BSIZE) s = Ret addr s1 /\ i_dev (ino s1 ip) = 1 /\
    addr < nblk s1 /\ (lhn s1 <= 28)%nat /\ room 1 s1 /\
    length cs1 = Nat.max (length cs) (Z.to_nat (off / BSIZE / 127) + 1) /\
    (free_count s + length cs <=
     free_count s1 + length cs1 + (if (addr_of s cs (off / BSIZE)%Z =? 0)%Z then 1 else 0))%nat /\
    let s' := log_blk addr (put_bytes (blk s1 addr) (off mod BSIZE) l) s1 in
    logs (bmap_cost s cs (off / BSIZE) + 1) s s' /\
    wrote ip s cs l off s' cs1 /\ free_count s' = free_count s1 /\
    (forall n, 0 <= n -> addr_of s' cs1 n = if n =? off / BSIZE then addr else addr_of s cs n).
Proof.
  intros Hok Hip Hdev Hlen Hf Hoff Hl Hbytes Hfree Hroom.
  set (bn := off / BSIZE). assert (0 <= bn) as Hbn by (unfold bn; dlia).
  destruct (bmap_ok ip s cs bn Hok Hip Hdev Hlen Hf Hbn Hfree (room_le _ _ _ Hroom (Nat.le_add_r _ 1)))
    as (addr & s1 & cs1 & R & Hok1 & Hf1 & (Xp & Xe & Xd & X1 & X2 & X3 & X4) & A1 & Hd & Hnc & Hmap & Hkind & Hl0 & Hc & G).
  pose proof (room_logs _ _ _ _ _ Hroom G ltac:(reflexivity)) as Hroom1.
  exists addr, s1, cs1. set (d := put_bytes (blk s1 addr) (off mod BSIZE) l).
  assert (block_ok d) as Hdok by (apply block_ok_put_bytes; by apply fs_ok_blk).
  destruct (log_data s1 addr d Hok1 Hroom1 Hd Hdok) as (Hok2 & Hfc2 & Hm2).
  destruct (log_content s1 _ cs1 addr d Hok1 Hf1 Hd Hnc Hdok) as [Hf2 Hmap2].
  assert (addr <> 0) as Ha0 by (by destruct Hd as (_ & _ & _ & ? & _)).
  assert (forall n, 0 <= n -> addr_of (log_blk addr d s1) cs1 n =
                      if n =? bn then addr else addr_of s cs n) as Hm.
  { intros n Hn. by rewrite Hmap2, Hmap. }
  (* contents of the blocks the file had *)
  assert (forall n, 0 <= n -> addr_of s cs n <> 0 -> blk s1 (addr_of s cs n) = blk s (addr_of s cs n)) as Hkeep.
  { intros n Hn Hne. destruct (addr_of_data s _ cs n Hf Hn Hne) as [Hdn Hnn].
    by apply (Xd _ Hdn). }
  assert (forall n, 0 <= n -> n <> bn -> addr_of s cs n <> addr) as Hother.
  { intros n Hn Hne E. apply Hne. apply (addr_of_inj s1 _ cs1 n bn Hf1 Hn Hbn).
    - rewrite Hmap by done. by destruct (Z.eqb_spec n bn); [|rewrite E].
    - rewrite !Hmap, Z.eqb_refl by done. by destruct (Z.eqb_spec n bn); [done|]. }
  destruct (fs_ok_blk s1 addr Hok1) as [Hl1 _].
  split_and!; [done| |by apply data_blk_lt|by apply fs_ok_lhn|done|done|done|].
  { destruct A1 as (_ & _ & v & ->). done. }
  split; [eapply logs_trans; [exact G|apply log_blk_logs|lia]|].
  split; [|split; [exact Hfc2|exact Hm]]. split; try done.
  - intros n Hn Hne. rewrite Hm by done. destruct (Z.eqb_spec n bn) as [->|]; [|done].
    by destruct Hkind as [?|(? & _ & _)].
  - intros x Hx. destruct (chunk_block off (Z.of_nat (length l)) x) as [E _]; [done|lia|done|].
    rewrite Hm by dlia. by rewrite E, Z.eqb_refl.
  - intros x Hx. unfold fbyte. assert (0 <= x / BSIZE) as Hxb by dlia. rewrite Hm by done.
    destruct (Z.eqb_spec (x / BSIZE) bn) as [E|E].
    + destruct (Z.eqb_spec addr 0); [done|]. cbn [log_blk set_flog upd_blk set_blk blk]. rewrite Z.eqb_refl.
      unfold d. rewrite get8_put_bytes by (rewrite ?Hl1; dlia).
      assert ((off mod BSIZE <=? x mod BSIZE) && (x mod BSIZE <? off mod BSIZE + Z.of_nat (length l)) =
              (off <=? x) && (x <? off + Z.of_nat (length l))) as ->.
      { unfold bn in E. assert (x - off = x mod BSIZE - off mod BSIZE) by dlia. range_cases. }
      destruct ((off <=? x) && (x <? off + Z.of_nat (length l))) eqn:Er.
      * replace (x mod BSIZE - off mod BSIZE) with (x - off) by (unfold bn in E; dlia).
        apply u8_small. by apply get8_range.
      * rewrite E. destruct Hkind as [Hk|(Hk & Hz & _)].
        -- destruct (Z.eqb_spec (addr_of s cs bn) 0); [congruence|]. rewrite Hk at 1.
           by rewrite Hkeep.
        -- rewrite Hk. simpl. rewrite Hz. unfold get8, zero_block.
           by rewrite lookup_replicate_2 by dlia.
    + assert ((off <=? x) && (x <? off + Z.of_nat (length l)) = false) as ->.
      { apply not_true_iff_false. intros [H1 H2]%andb_true_iff.
        destruct (chunk_block off (Z.of_nat (length l)) x) as [E' _]; [done|lia|lia|]. done. }
      destruct (Z.eqb_spec (addr_of s cs (x / BSIZE)) 0); [done|].
      cbn [log_blk set_flog upd_blk set_blk blk]. destruct (Z.eqb_spec (addr_of s cs (x / BSIZE)) addr) as [Ea|].
      * by destruct (Hother (x / BSIZE) Hxb E).
      * by rewrite Hkeep.
  - intros x (Hdx & Hnx & Hax). destruct (Xd x Hdx) as [Hdx1 Hx1]. destruct (Hx1 Hnx) as [Ex Hnx1].
    assert (x <> addr) as Hxa.
    { intros ->. destruct Hkind as [Hk|(_ & _ & Hk)]; [|done]. by destruct (Hax bn Hbn). }
    split; [split_and!|].
    + by apply Hm2.
    + done.
    + intros n Hn. rewrite Hm by done. destruct (n =? bn); [congruence|by apply Hax].
    + cbn [log_blk set_flog upd_blk set_blk blk]. by destruct (Z.eqb_spec x addr).
Qed.

(** A regular file or directory, with its block map. *)
Record file_ok (s : fs) (ip : nat) (cs : list Z) : Prop := {
  fk_fs : fs_ok s;
  fk_ip : (ip < length (inodes s))%nat;
  fk_dev : i_dev (ino s ip) = 1;
  fk_type : i_type (ino s ip) <> T_DEV;
  fk_addrs : length (i_addrs (ino s ip)) = 13%nat;
  fk_map : file_wf s (i_addr (ino s ip) 0) cs;
  fk_size : 0 <= i_size (ino s ip) <= MAXFILE * BSIZE;
  fk_mapped : forall x, 0 <= x < i_size (ino s ip) -> addr_of s cs (x / BSIZE) <> 0;
}.

(** The contents of the file. *)
Definition content (s : fs) (ip : nat) (cs : list Z) : list Z :=
  fbyte s cs <$> seqZ 0 (i_size (ino s ip)).

Lemma slice_fmap_seqZ (f : Z -> Z) n off m :
  0 <= off -> 0 <= m -> off + m <= n -> slice (f <$> seqZ 0 n) off m = f <$> seqZ off m.
Proof.
  intros. apply list_eq. intros i. unfold slice. rewrite list_lookup_fmap.
  destruct (decide (i < Z.to_nat m)%nat).
  - rewrite lookup_take_lt, lookup_drop, list_lookup_fmap, !lookup_seqZ_lt by lia. simpl. do 2 f_equal. lia.
  - rewrite lookup_take_ge, lookup_seqZ_ge by lia. done.
Qed.

(** [readi] of a file: an error for an offset beyond the end, otherwise the
    bytes from the offset on, cut at the end of the file. *)
Lemma readi_ok devsw_read s ip cs off n :
  file_ok s ip cs -> 0 <= off -> 0 <= n < 2147483648 -> off + n < 4294967296 ->
  readi devsw_read ip off n s =
  if i_size (ino s ip) <? off then Ret (-1, []) s
  else let m := Z.min n (i_size (ino s ip) - off) in
       Ret (m, slice (content s ip cs) off m) s.
Proof.
  intros [] Hoff Hn Hsum. unfold readi, bind at 1, get.
  destruct (Z.eqb_spec (i_type (ino s ip)) T_DEV); [done|].
  rewrite u32_small by lia.
  destruct (Z.ltb_spec (i_size (ino s ip)) off); [done|]. cbn [orb].
  destruct (Z.ltb_spec (off + n) off); [lia|].
  set (m := if i_size (ino s ip) <? off + n then i_size (ino s ip) - off else n).
  assert (m = Z.min n (i_size (ino s ip) - off)) as Em.
  { unfold m. destruct (Z.ltb_spec (i_size (ino s ip)) (off + n)); lia. }
  mstep (readi_loop_ok ip cs (S (Z.to_nat m)) s 0 off m fk_fs0 fk_dev0 fk_map0 Hoff
           ltac:(lia) ltac:(lia) ltac:(intros x Hx; apply fk_mapped0; lia)).
  unfold ret. rewrite i32_small by lia. rewrite Em, Z.sub_0_r. unfold content.
  by rewrite slice_fmap_seqZ by lia.
Qed.

Lemma slice_app (l : list Z) o a b :
  0 <= o -> 0 <= a -> 0 <= b -> slice l o (a + b) = slice l o a ++ slice l (o + a) b.
Proof.
  intros. unfold slice. rewrite !Z2Nat.inj_add by lia.
  rewrite <- drop_drop. by rewrite take_take_drop.
Qed.

Lemma length_slice (l : list Z) o n :
  0 <= o -> 0 <= n -> o + n <= Z.of_nat (length l) -> Z.of_nat (length (slice l o n)) = n.
Proof. intros. unfold slice. rewrite length_take, length_drop. lia. Qed.

(** Blocks that [n] bytes from offset [off] touch, and the free blocks that
    suffice to map them: for each one data block and every indirect block up to
    the end. *)
Definition touched (off n : Z) : Z := if n <=? 0 then 0 else (off + n - 1) / BSIZE - off / BSIZE + 1.
Definition blocks_needed (off n : Z) : nat :=
  (Z.to_nat (touched off n) * (Z.to_nat ((off + n) / BSIZE / 127) + 2))%nat.

(** The indirect blocks that the write reaches, and how many times it logs a
    block at most: three times for an indirect block it adds, four times for
    each block it touches, and once for the inode. *)
Definition chain_needed (off n : Z) : nat :=
  if n <=? 0 then 0 else (Z.to_nat ((off + n - 1) / BSIZE / 127) + 1)%nat.
Definition write_cost (cs : list Z) (off n : Z) : nat :=
  3 * (chain_needed off n - length cs) + 4 * Z.to_nat (touched off n) + 1.

Lemma touched_step off n m :
  0 <= off -> 0 < n -> m = Z.min n (BSIZE - off mod BSIZE) ->
  touched off n = touched (off + m) (n - m) + 1.
Proof.
  intros Hoff Hn Hm. unfold touched.
  destruct (Z.leb_spec n 0); [lia|]. destruct (Z.leb_spec (n - m) 0).
  - assert (m = n) by lia. dlia.
  - assert (m = BSIZE - off mod BSIZE) by lia. dlia.
Qed.

Lemma chain_needed_step off n m :
  0 <= off -> 0 < n -> 0 < m <= BSIZE - off mod BSIZE -> m <= n ->
  (Z.to_nat (off / BSIZE / 127) + 1 <= chain_needed off n)%nat /\
  (chain_needed (off + m) (n - m) <= chain_needed off n)%nat.
Proof.
  intros Hoff Hn Hm Hm2. unfold chain_needed. destruct (Z.leb_spec n 0); [lia|].
  assert (off / BSIZE / 127 <= (off + n - 1) / BSIZE / 127) as Hle
    by (apply Z.div_le_mono; [lia|]; apply Z.div_le_mono; lia).
  assert (0 <= off / BSIZE / 127) by dlia. split; [lia|].
  destruct (Z.leb_spec (n - m) 0); [lia|]. by replace (off + m + (n - m) - 1) with (off + n - 1) by lia.
Qed.

Lemma bmap_cost_le s cs bn : (bmap_cost s cs bn <= 3 * (Z.to_nat (bn / 127) + 1 - length cs) + 3)%nat.
Proof. unfold bmap_cost. destruct (_ =? 0); lia. Qed.

Lemma writei_loop_ok ip src fuel : forall s cs tot off K L,
  fs_ok s -> (ip < length (inodes s))%nat -> i_dev (ino s ip) = 1 ->
  length (i_addrs (ino s ip)) = 13%nat -> file_wf s (i_addr (ino s ip) 0) cs ->
  Forall (fun b => 0 <= b < 256) src ->
  0 <= off -> 0 <= tot <= Z.of_nat (length src) -> Z.of_nat (length src) - tot < Z.of_nat fuel ->
  (Z.to_nat ((off + (Z.of_nat (length src) - tot)) / BSIZE / 127) + 2 <= K)%nat ->
  (Z.to_nat (touched off (Z.of_nat (length src) - tot)) * K <= free_count s)%nat ->
  (chain_needed off (Z.of_nat (length src) - tot) <= L)%nat ->
  room (3 * (L - length cs) + 4 * Z.to_nat (touched off (Z.of_nat (length src) - tot))) s ->
  exists s' cs', writei_loop fuel ip src tot off (Z.of_nat (length src)) s
      = Ret (off + (Z.of_nat (length src) - tot)) s' /\
    wrote ip s cs (slice src tot (Z.of_nat (length src) - tot)) off s' cs' /\
    logs (3 * (L - length cs) + 4 * Z.to_nat (touched off (Z.of_nat (length src) - tot))) s s'.
Proof.
  set (n := Z.of_nat (length src)).
  induction fuel as [|fuel IH]; intros s cs tot off K L Hok Hip Hdev Hlen Hf Hb Hoff Htot Hfuel HK Hfree HL Hroom; [lia|].
  cbn [writei_loop]. destruct (Z.ltb_spec tot n) as [Hlt|Hge].
  2: { exists s, cs. assert (n - tot = 0) as -> by lia. split_and!; [by rewrite Z.add_0_r|by apply wrote_nil|apply logs_refl]. }
  set (m := Z.min (n - tot) (BSIZE - off mod BSIZE)).
  assert (0 <= off mod BSIZE < BSIZE) as Hmod by dlia.
  assert (0 < m <= BSIZE - off mod BSIZE /\ m <= n - tot) as [Hm Hm2] by lia.
  assert (Z.of_nat (length (slice src tot m)) = m) as Hsl by (apply length_slice; lia).
  rewrite (touched_step off (n - tot) m) in Hfree, Hroom |- * by (done || lia).
  assert (0 <= touched (off + m) (n - tot - m)) as Ht.
  { unfold touched. destruct (Z.leb_spec (n - tot - m) 0); dlia. }
  rewrite Z2Nat.inj_add in Hfree, Hroom |- * by lia.
  change (Z.to_nat 1) with 1%nat in *. set (t := Z.to_nat (touched (off + m) (n - tot - m))) in *.
  destruct (chain_needed_step off (n - tot) m Hoff ltac:(lia) Hm Hm2) as [HL1 HL2].
  pose proof (bmap_cost_le s cs (off / BSIZE)) as Hcost.
  assert (Z.to_nat (off / BSIZE / 127) <= Z.to_nat ((off + (n - tot)) / BSIZE / 127))%nat as Hle.
  { apply Z2Nat.inj_le; [dlia|dlia|]. apply Z.div_le_mono; [lia|]. apply Z.div_le_mono; lia. }
  destruct (write_chunk ip s cs off (slice src tot m) Hok Hip Hdev Hlen Hf Hoff)
    as (addr & s1 & cs1 & R & D1 & Hlt1 & Ht1 & Hr1 & Hl1 & Hc1 & G1 & Hw & Hc2 & _).
  { lia. }
  { by apply Forall_take, Forall_drop. }
  { nia. }
  { apply (room_le _ _ _ Hroom). lia. }
  assert (free_count s <= free_count s1 + Z.to_nat (off / BSIZE / 127) + 2)%nat as Hc3
    by (destruct (addr_of s cs (off / BSIZE) =? 0); lia).
  mstep R. unfold bind at 1, get. rewrite D1, fbread_bind by done.
  rewrite lstore_bind by done. fold m.
  set (s2 := log_blk addr _ s1) in *.
  destruct Hw as [A1 A2 A3 A4 A5 A6 A7 A8] eqn:EHw.
  destruct A3 as (L3 & O3 & v & V3).
  destruct (IH s2 cs1 (tot + m) (off + m) K L) as (s3 & cs3 & R3 & W3 & G3);
    [done|by rewrite L3|by rewrite V3|rewrite V3; simpl; by rewrite length_insert|done|done|lia|lia|lia| | | | |].
  { replace (off + m + (n - (tot + m))) with (off + (n - tot)) by lia. done. }
  { rewrite Hc2. replace (n - (tot + m)) with (n - tot - m) by lia. fold t. nia. }
  { replace (n - (tot + m)) with (n - tot - m) by lia. lia. }
  { replace (n - (tot + m)) with (n - tot - m) by lia. fold t.
    apply (room_logs _ _ _ _ _ Hroom G1). lia. }
  replace (n - (tot + m)) with (n - tot - m) in G3 by lia. fold t in G3.
  exists s3, cs3. split_and!; [rewrite R3; f_equal; lia| |].
  - replace (n - tot) with (m + (n - (tot + m))) by lia. rewrite slice_app by lia.
    eapply wrote_app; [done|exact Hw|]. by rewrite Hsl.
  - eapply logs_trans; [exact G1|exact G3|lia].
Qed.

Lemma block_ok_put16 l i v : block_ok l -> block_ok (put16 l i v).
Proof. intros H. unfold put16. by do 2 apply block_ok_put8. Qed.
Lemma block_ok_put_addrs l : forall d o, block_ok d -> block_ok (put_addrs l d o).
Proof. induction l as [|a l IH]; intros d o H; simpl; [done|]. apply IH. by apply block_ok_put32. Qed.
Lemma block_ok_dinode x d : block_ok d -> block_ok (dinode_put x d).
Proof.
  intros H. unfold dinode_put. apply block_ok_put_addrs, block_ok_put32. by do 4 apply block_ok_put16.
Qed.

Lemma addr_set_other v x k : 0 < k -> i_addr (set_i_addr 0 v x) k = i_addr x k.
Proof. intros Hk. unfold i_addr, set_i_addr. simpl. by rewrite list_lookup_insert_ne by lia. Qed.

(** The end of [writei]: the new size, recorded in the inode's block. *)
Lemma grow_size ip s cs sz :
  fs_ok s -> (ip < length (inodes s))%nat -> i_dev (ino s ip) = 1 ->
  file_wf s (i_addr (ino s ip) 0) cs -> outside s cs (IBLOCK (i_inum (ino s ip)) (fsb s)) ->
  room 1 s ->
  exists s', (modify (upd_ino ip (set_i_size sz)) ;;; iupdate ip) s = Ret tt s' /\ fs_ok s' /\
    file_wf s' (i_addr (ino s' ip) 0) cs /\ ino s' ip = set_i_size sz (ino s ip) /\
    (forall j, j <> ip -> ino s' j = ino s j) /\ length (inodes s') = length (inodes s) /\
    (forall n, addr_of s' cs n = addr_of s cs n) /\
    (forall x, x <> IBLOCK (i_inum (ino s ip)) (fsb s) -> blk s' x = blk s x) /\
    fsb s' = fsb s /\ nblk s' = nblk s /\ (forall x, outside s cs x -> outside s' cs x) /\
    logs 1 s s'.
Proof.
  intros Hok Hip Hdev Hf (Hd & Hn & Ha) Hroom. set (ib := IBLOCK (i_inum (ino s ip)) (fsb s)) in *.
  set (s1 := upd_ino ip (set_i_size sz) s).
  assert (ino s1 ip = set_i_size sz (ino s ip)) as E1.
  { unfold s1. rewrite ino_upd by done. by case_decide. }
  assert (fs_ok s1) as Hok1 by (apply (fs_ok_inodes s); try done; by eapply room_lhn).
  assert (file_wf s1 (i_addr (ino s ip) 0) cs) as Hf1 by (by apply (file_wf_inodes s)).
  assert (data_blk s1 ib) as Hd1 by (by apply (data_blk_inodes s)).
  set (d := dinode_put (ino s1 ip) (blk s1 ib)).
  assert (block_ok d) as Hdok by (apply block_ok_dinode; by apply fs_ok_blk).
  destruct (log_data s1 ib d Hok1 Hroom Hd1 Hdok) as (Hok2 & _ & Hm2).
  destruct (log_content s1 _ cs ib d Hok1 Hf1 Hd1 Hn Hdok) as [Hf2 Hm].
  exists (log_blk ib d s1). split_and!; try done.
  - unfold bind at 1, modify. fold s1. unfold iupdate, bind at 1, get.
    rewrite E1. cbn [set_i_size i_dev i_inum]. rewrite Hdev.
    change (fsb s1) with (fsb s). fold ib. rewrite fbread_bind by (by apply data_blk_lt || by eapply room_lhn).
    unfold d. rewrite E1. by apply lstore_run.
  - change (ino (log_blk ib d s1) ip) with (ino s1 ip). by rewrite E1.
  - intros j Hj. change (ino s1 j = ino s j). unfold s1. rewrite ino_upd by done. by case_decide.
  - change (length (inodes s1) = length (inodes s)). apply length_upd_ino.
  - intros x Hx. cbn [log_blk set_flog upd_blk set_blk blk]. by destruct (Z.eqb_spec x ib).
  - intros x (Hdx & Hnx & Hax). split_and!; [|done|].
    + by apply Hm2.
    + intros n Hn'. rewrite Hm. by apply Hax.
  - apply (log_blk_logs ib d s1).
Qed.

(** The bytes of [l] replaced from position [off] on, the list extended as
    needed. *)
Definition splice (l : list Z) (off : Z) (src : list Z) : list Z :=
  take (Z.to_nat off) l ++ src ++ drop (Z.to_nat off + length src) l.

Lemma lookup_splice l off src i :
  0 <= off <= Z.of_nat (length l) ->
  splice l off src !! i =
  if decide (Z.to_nat off <= i < Z.to_nat off + length src)%nat
  then src !! (i - Z.to_nat off)%nat else l !! i.
Proof.
  intros Hoff. unfold splice. assert (length (take (Z.to_nat off) l) = Z.to_nat off) as Hl
    by (rewrite length_take; lia).
  case_decide.
  - rewrite lookup_app_r, Hl, lookup_app_l by lia. done.
  - destruct (decide (i < Z.to_nat off)%nat).
    + rewrite lookup_app_l by lia. by rewrite lookup_take_lt.
    + rewrite lookup_app_r, Hl, lookup_app_r, lookup_drop by lia. f_equal. lia.
Qed.

Lemma content_splice s s' ip cs cs' src off :
  0 <= off <= i_size (ino s ip) ->
  i_size (ino s' ip) = Z.max (i_size (ino s ip)) (off + Z.of_nat (length src)) ->
  (forall x, 0 <= x -> fbyte s' cs' x =
     if (off <=? x) && (x <? off + Z.of_nat (length src)) then get8 src (x - off) else fbyte s cs x) ->
  content s' ip cs' = splice (content s ip cs) off src.
Proof.
  intros Hoff Hsz Hb. apply list_eq. intros i. unfold content.
  rewrite lookup_splice by (rewrite length_fmap, length_seqZ; lia).
  rewrite !list_lookup_fmap.
  destruct (decide (i < Z.to_nat (i_size (ino s' ip)))%nat) as [Hi|Hi].
  - rewrite lookup_seqZ_lt by lia. simpl. rewrite Hb by lia. case_decide as Hr.
    + destruct (Z.leb_spec off (0 + Z.of_nat i)); [|lia].
      destruct (Z.ltb_spec (0 + Z.of_nat i) (off + Z.of_nat (length src))); [|lia]. cbn [andb].
      unfold get8. replace (Z.to_nat (0 + Z.of_nat i - off)) with (i - Z.to_nat off)%nat by lia.
      destruct (lookup_lt_is_Some_2 src (i - Z.to_nat off)) as [x ->]; [lia|done].
    + rewrite lookup_seqZ_lt by lia. simpl. f_equal.
      destruct (Z.leb_spec off (0 + Z.of_nat i)); [|done].
      destruct (Z.ltb_spec (0 + Z.of_nat i) (off + Z.of_nat (length src))); [lia|done].
  - rewrite lookup_seqZ_ge by lia. case_decide; [lia|]. by rewrite lookup_seqZ_ge by lia.
Qed.

Lemma writei_ok devsw_write s ip cs src off :
  file_ok s ip cs -> Forall (fun b => 0 <= b < 256) src ->
  0 <= off <= i_size (ino s ip) -> off + Z.of_nat (length src) <= MAXFILE * BSIZE ->
  (blocks_needed off (Z.of_nat (length src)) <= free_count s)%nat ->
  outside s cs (IBLOCK (i_inum (ino s ip)) (fsb s)) ->
  room (write_cost cs off (Z.of_nat (length src))) s ->
  exists s' cs', writei devsw_write ip src off s = Ret (Z.of_nat (length src)) s' /\
    file_ok s' ip cs' /\ content s' ip cs' = splice (content s ip cs) off src /\
    (forall j, j <> ip -> ino s' j = ino s j) /\
    i_type (ino s' ip) = i_type (ino s ip) /\ i_inum (ino s' ip) = i_inum (ino s ip) /\ fsb s' = fsb s /\
    (forall x, outside s cs x -> x <> IBLOCK (i_inum (ino s ip)) (fsb s) -> blk s' x = blk s x) /\
    (forall x, outside s cs x -> outside s' cs' x) /\
    (forall k, 0 < k -> i_addr (ino s' ip) k = i_addr (ino s ip) k) /\
    logs (write_cost cs off (Z.of_nat (length src))) s s'.
Proof.
  intros [Hok Hip Hdev Hty Hlen Hf Hsz Hmp] Hb Hoff Hmax Hfree Hib Hroom. unfold write_cost in *.
  set (n := Z.of_nat (length src)) in *.
  destruct (writei_loop_ok ip src (S (Z.to_nat n)) s cs 0 off
              (Z.to_nat ((off + n) / BSIZE / 127) + 2) (chain_needed off n) Hok Hip Hdev Hlen Hf Hb)
    as (s1 & cs1 & R1 & W & G1); fold n; rewrite ?Z.sub_0_r;
    first [lia|exact Hfree|roomy|idtac].
  fold n in R1, W, G1. rewrite Z.sub_0_r in R1, W, G1.
  assert (room 1 s1) as Hroom1 by roomy.
  assert (slice src 0 n = src) as Es.
  { unfold slice. rewrite drop_0. apply take_ge. lia. }
  rewrite Es in W. destruct W as [A1 A2 (L3 & O3 & v & V3) A4 A5 A6 A7 (F1 & F2 & _)].
  destruct (A7 _ Hib) as [Hib1 _].
  assert (writei devsw_write ip src off s =
    ((if (0 <? n) && (i_size (ino s ip) <? off + n)
      then modify (upd_ino ip (set_i_size (off + n))) ;;; iupdate ip else ret tt) ;;; ret n) s1) as Hrun.
  { unfold writei. fold n. unfold bind at 1, get at 1.
    destruct (Z.eqb_spec (i_type (ino s ip)) T_DEV); [done|]. rewrite u32_small by lia.
    destruct (Z.ltb_spec (i_size (ino s ip)) off); [lia|]. cbn [orb].
    destruct (Z.ltb_spec (off + n) off); [lia|].
    destruct (Z.ltb_spec (MAXFILE * BSIZE) (off + n)); [lia|].
    mstep R1. unfold bind at 1, get. rewrite V3, i32_small by lia. done. }
  assert (i_inum (ino s1 ip) = i_inum (ino s ip)) as En by (by rewrite V3).
  destruct ((0 <? n) && (i_size (ino s ip) <? off + n)) eqn:Eg.
  - apply andb_true_iff in Eg as [Hn Hg]. apply Z.ltb_lt in Hn, Hg.
    rewrite <- F1, <- En in Hib1.
    destruct (grow_size ip s1 cs1 (off + n)) as (s2 & R2 & B1 & B2 & B3 & B4 & B5 & B6 & B7 & B8 & B9 & B10 & G2);
      [done|by rewrite L3|by rewrite V3|done|by rewrite En in Hib1 |- *|done|].
    rewrite En, F1 in B7, Hib1.
    assert (forall x, 0 <= x -> fbyte s2 cs1 x = fbyte s1 cs1 x) as Hfb.
    { intros x Hx. unfold fbyte. rewrite B6. destruct (_ =? 0); [done|].
      rewrite B7; [done|]. destruct Hib1 as (_ & _ & Hne). apply Hne. dlia. }
    exists s2, cs1. split_and!.
    + rewrite Hrun. mstep R2. done.
    + split.
      * exact B1.
      * by rewrite B5, L3.
      * by rewrite B3, V3.
      * by rewrite B3, V3.
      * rewrite B3, V3. simpl. by rewrite length_insert.
      * exact B2.
      * rewrite B3. simpl. lia.
      * intros x Hx. rewrite B3 in Hx. simpl in Hx. rewrite B6. destruct (Z.lt_ge_cases x off).
        -- rewrite A4; [apply Hmp; lia|dlia|apply Hmp; lia].
        -- apply A5. lia.
    + apply content_splice; [done|rewrite B3; simpl; lia|].
      intros x Hx. rewrite Hfb by done. by apply A6.
    + intros j Hj. rewrite B4 by done. by apply O3.
    + by rewrite B3, V3.
    + by rewrite B3, V3.
    + congruence.
    + intros x Ho Hx. rewrite B7 by done. by apply A7.
    + intros x Ho. apply B10. by apply A7.
    + intros k Hk. rewrite B3, V3. by apply addr_set_other.
    + eapply logs_trans; [exact G1|exact G2|lia].
  - exists s1, cs1. assert (off + n <= i_size (ino s ip) \/ n = 0) as Hcase.
    { destruct (Z.ltb_spec 0 n), (Z.ltb_spec (i_size (ino s ip)) (off + n)); try done; lia. }
    split_and!.
    + rewrite Hrun. done.
    + split.
      * exact A1.
      * by rewrite L3.
      * by rewrite V3.
      * by rewrite V3.
      * rewrite V3. simpl. by rewrite length_insert.
      * exact A2.
      * rewrite V3. simpl. lia.
      * intros x Hx. rewrite V3 in Hx. simpl in Hx. rewrite A4; [by apply Hmp|dlia|by apply Hmp].
    + apply content_splice; [done|rewrite V3; simpl; lia|done].
    + done.
    + by rewrite V3.
    + done.
    + done.
    + intros x Ho _. by apply A7.
    + intros x Ho. by apply A7.
    + intros k Hk. rewrite V3. by apply addr_set_other.
    + eapply (logs_trans _ 0); [exact G1|apply logs_refl|lia].
Qed.


(** ** Truncation *)

(** [itrunc] on the layout [bmap] builds: [addrs[0]] is the only address in use. *)
Lemma itrunc_direct_zero ip n : forall i s,
  (forall k, i <= k < i + Z.of_nat n -> i_addr (ino s ip) k = 0) ->
  itrunc_direct n i ip s = Ret tt s.
Proof.
  induction n as [|n IH]; intros i s Hz; [done|]. cbn [itrunc_direct]. unfold bind at 1, get.
  rewrite Hz by lia. simpl. unfold bind, ret. apply IH. intros k Hk. apply Hz. lia.
Qed.

Lemma itrunc_run s ip c cs :
  file_ok s ip (c :: cs) -> (forall k, 1 <= k <= 12 -> i_addr (ino s ip) k = 0) ->
  outside s (c :: cs) (IBLOCK (i_inum (ino s ip)) (fsb s)) -> room 2 s ->
  exists s', itrunc ip s = Ret tt s' /\ fs_ok s' /\ fsb s' = fsb s /\
    i_size (ino s' ip) = 0 /\ (forall k, 0 <= k <= 12 -> i_addr (ino s' ip) k = 0) /\
    (forall x, 0 <= x < sb_size (fsb s) ->
       used (fsb s) (blk s') x = negb (x =? c) && used (fsb s) (blk s) x).
Proof.
  intros [Hok Hip Hdev Hty Hlen Hf Hsz Hmp] Hz (Hdb & Hnc & Hna) Hroom.
  pose proof (fw_root _ _ _ Hf) as Hroot. simpl in Hroot.
  destruct (fw_ind _ _ _ Hf c) as (Hc1 & Hc2 & Hc3 & Hc4 & Hc5); [constructor|].
  destruct (bfree_ok [] s c (fo_wf _ Hok) (held_nil s) ltac:(roomy) Hc1 Hc2 Hc3 Hc5)
    as (s1 & R1 & W1 & G1 & F1 & F2 & F3 & F4 & F5 & B1 & U1).
  assert (room 1 s1) as Hroom1 by roomy. assert (lhn s1 <= 28)%nat as Ht1 by (by eapply room_lhn).
  set (s2 := upd_ino ip (set_i_addr 0 0) s1).
  assert (ino s1 ip = ino s ip) as E1 by (unfold ino; by rewrite F3).
  assert (ino s2 ip = set_i_addr 0 0 (ino s ip)) as E2.
  { unfold s2. rewrite ino_upd by (by rewrite F3). case_decide; [by rewrite E1|done]. }
  assert (forall k, 0 <= k <= 12 -> i_addr (ino s2 ip) k = 0) as Hz2.
  { intros k Hk. rewrite E2. destruct (decide (k = 0)) as [->|].
    - unfold i_addr, set_i_addr. simpl. by rewrite list_lookup_insert_eq by lia.
    - rewrite addr_set_other by lia. apply Hz. lia. }
  assert (fs_ok s2) as Hok2.
  { apply (fs_ok_inodes s1); try done. split; [done|]. rewrite F1, U1.
    - destruct (Z.eqb_spec 0 c); [congruence|]. apply (fo_boot _ Hok).
    - pose proof (wf_size _ (fo_wf _ Hok)). lia. }
  set (ib := IBLOCK (i_inum (ino s ip)) (fsb s)) in *.
  assert (ib <> c) as Hibc by (intros ->; apply Hnc; constructor).
  set (s3 := upd_ino ip (set_i_size 0) s2).
  assert (ino s3 ip = set_i_size 0 (set_i_addr 0 0 (ino s ip))) as E3.
  { unfold s3. rewrite ino_upd, E2; [by case_decide|]. unfold s2. by rewrite length_upd_ino, F3. }
  assert (fs_ok s3) as Hok3 by (by apply (fs_ok_inodes s2)).
  assert (data_blk s3 ib) as Hd3.
  { destruct Hdb as (D1 & D2 & D3 & D4 & D5). unfold data_blk.
    change (fsb s3) with (fsb s1). change (blk s3) with (blk s1). rewrite F1.
    split_and!; try done; try lia. rewrite U1, D5 by done. by destruct (Z.eqb_spec ib c). }
  set (d := dinode_put (ino s3 ip) (blk s3 ib)).
  assert (block_ok d) as Hdok by (apply block_ok_dinode; by apply fs_ok_blk).
  destruct (upd_data s3 ib d Hok3 Hd3 Hdok) as [_ U4].
  destruct (log_data s3 ib d Hok3 Hroom1 Hd3 Hdok) as (Hok4 & _ & _).
  exists (log_blk ib d s3). split_and!; try done.
  - assert (itrunc_direct (Z.to_nat NDIRECT) 0 ip s = Ret tt s2) as Hdir.
    { change (Z.to_nat NDIRECT) with 12%nat. cbn [itrunc_direct]. unfold bind at 1, get.
      rewrite Hroot, Hdev. destruct (Z.eqb_spec c 0); [done|]. cbn [negb].
      rewrite bind_assoc. mstep R1. unfold bind at 1, modify. fold s2.
      apply (itrunc_direct_zero ip 11). intros k Hk. apply Hz2. lia. }
    unfold itrunc. mstep Hdir. unfold bind at 1, get. rewrite Hz2 by lia. cbn [Z.eqb negb].
    unfold bind at 1, ret. unfold bind at 1, modify. fold s3.
    unfold iupdate, bind at 1, get. rewrite E3. cbn [set_i_size set_i_addr i_dev i_inum].
    rewrite Hdev. change (fsb s3) with (fsb s1). rewrite F1. fold ib.
    rewrite fbread_bind by (by apply data_blk_lt || done). unfold d. rewrite E3. by apply lstore_run.
  - change (ino (log_blk ib d s3) ip) with (ino s3 ip). by rewrite E3.
  - change (ino (log_blk ib d s3) ip) with (ino s3 ip). intros k Hk. rewrite E3.
    change (i_addr (set_i_size 0 (set_i_addr 0 0 (ino s ip))) k) with (i_addr (set_i_addr 0 0 (ino s ip)) k).
    rewrite <- E2. by apply Hz2.
  - intros x Hx. change (fsb s3) with (fsb s1) in U4. rewrite F1 in U4. etransitivity; [by apply U4|].
    change (blk s3) with (blk s1). by apply U1.
Qed.

(** A short write adds one indirect block at most. *)
Lemma chain_growth s ip cs off n :
  file_ok s ip cs -> 0 <= off <= i_size (ino s ip) -> n <= 1536 ->
  (chain_needed off n <= length cs + 1)%nat.
Proof.
  intros Hf Hoff Hn. unfold chain_needed. destruct (Z.leb_spec n 0); [lia|].
  destruct (Z.eq_dec (i_size (ino s ip)) 0) as [E|E].
  { assert ((off + n - 1) / BSIZE / 127 = 0) as -> by dlia. lia. }
  assert (addr_of s cs ((i_size (ino s ip) - 1) / BSIZE) <> 0) as Hm
    by (apply (fk_mapped _ _ _ Hf); lia).
  unfold addr_of in Hm. destruct (cs !! _) as [c|] eqn:Ec in Hm; [|done].
  apply lookup_lt_Some in Ec.
  assert ((off + n - 1) / BSIZE / 127 <= (i_size (ino s ip) - 1) / BSIZE / 127 + 1) by dlia.
  assert (0 <= (i_size (ino s ip) - 1) / BSIZE / 127) by dlia. lia.
Qed.

(** A chunk of [filewrite], 1536 bytes at most, logs at most 20 times, so an
    empty log has room for it. *)
Lemma chunk_cost s ip cs off n :
  file_ok s ip cs -> 0 <= off <= i_size (ino s ip) -> n <= 1536 -> (write_cost cs off n <= 20)%nat.
Proof.
  intros Hf Hoff Hn. assert (touched off n <= 4) as Ht.
  { unfold touched. destruct (Z.leb_spec n 0); [lia|dlia]. }
  pose proof (chain_growth s ip cs off n Hf Hoff Hn). unfold write_cost. lia.
Qed.

Lemma chunk_room s ip cs off n :
  file_ok s ip cs -> 0 <= off <= i_size (ino s ip) -> n <= 1536 ->
  tx_blocks (flog s) = [] -> tx_size (flog s) = LOGSIZE -> 1 <= tx_open (flog s) ->
  room (write_cost cs off n) s.
Proof.
  intros Hf Hoff Hn E1 E2 E3. pose proof (chunk_cost s ip cs off n Hf Hoff Hn).
  unfold room, lhn. rewrite E1, E2. simpl. lia.
Qed.

(** ** Properties *)

(** C4. What is written is what is read. For a regular file or directory with
    enough free blocks and enough room in the log (a chunk of [filewrite] always
    fits an empty log, [chunk_room]; a write of 29 blocks does not and panics,
    [writei_too_big]), a write within the size limit returns its length, makes
    the contents the old ones with the bytes replaced from the offset on (and
    extended), keeps the file well-formed, touches no block of any other file;
    and reading the same range returns exactly the bytes written. *)
Theorem writei_readi devr devw s ip cs src off :
  file_ok s ip cs -> Forall (fun b => 0 <= b < 256) src ->
  0 <= off <= i_size (ino s ip) -> off + Z.of_nat (length src) <= MAXFILE * BSIZE ->
  (blocks_needed off (Z.of_nat (length src)) <= free_count s)%nat ->
  outside s cs (IBLOCK (i_inum (ino s ip)) (fsb s)) ->
  room (write_cost cs off (Z.of_nat (length src))) s ->
  exists s' cs', writei devw ip src off s = Ret (Z.of_nat (length src)) s' /\
    file_ok s' ip cs' /\ content s' ip cs' = splice (content s ip cs) off src /\
    logs (write_cost cs off (Z.of_nat (length src))) s s' /\
    (forall x, outside s cs x -> x <> IBLOCK (i_inum (ino s ip)) (fsb s) -> blk s' x = blk s x) /\
    readi devr ip off (Z.of_nat (length src)) s' = Ret (Z.of_nat (length src), src) s'.
Proof.
  intros Hf Hb Hoff Hmax Hfree Hib Hroom.
  destruct (writei_ok devw s ip cs src off Hf Hb Hoff Hmax Hfree Hib Hroom)
    as (s' & cs' & R & Hf' & Hc & _ & _ & _ & _ & Ho & _ & _ & G).
  exists s', cs'. split_and!; try done.
  assert (length (content s ip cs) = Z.to_nat (i_size (ino s ip))) as L
    by (unfold content; by rewrite length_fmap, length_seqZ).
  assert (length (content s' ip cs') = Z.to_nat (i_size (ino s' ip))) as L'
    by (unfold content; by rewrite length_fmap, length_seqZ).
  assert (off + Z.of_nat (length src) <= i_size (ino s' ip)) as Hsz.
  { pose proof (fk_size _ _ _ Hf'). rewrite Hc in L'. unfold splice in L'. rewrite !length_app, length_take, length_drop in L'. lia. }
  rewrite (readi_ok devr s' ip cs' off) by (done || lia).
  destruct (Z.ltb_spec (i_size (ino s' ip)) off); [lia|].
  rewrite Z.min_l by lia. cbv zeta. do 2 f_equal. rewrite Hc. apply list_eq. intros i.
  unfold slice. destruct (decide (i < length src)%nat).
  - rewrite lookup_take_lt, lookup_drop, lookup_splice by lia. rewrite decide_True by lia. f_equal. lia.
  - rewrite lookup_take_ge by lia. symmetry. apply lookup_ge_None_2. lia.
Qed.

(** An empty file, inode 9 in entry 3 of the cache of [fs0]. *)
Definition empty_file : inode :=
  {| i_dev := 1; i_inum := 9; i_ref := 1; i_lock := initsleeplock; i_valid := true;
     i_type := 2; i_major := 0; i_minor := 0; i_nlink := 1; i_size := 0;
     i_addrs := replicate 13 0 |}.
Definition fs1 : fs := upd_ino 3 (fun _ => empty_file) fs0.

Lemma fs1_ino : ino fs1 3 = empty_file.
Proof. reflexivity. Qed.

Lemma fs1_ok : fs_ok fs1.
Proof.
  apply (fs_ok_inodes fs0); try reflexivity; [unfold lhn; simpl; lia|]. split; [apply fs0_wf|]. vm_compute. reflexivity.
Qed.

Lemma fs1_file : file_ok fs1 3 [].
Proof.
  split; rewrite ?fs1_ino.
  - apply fs1_ok.
  - unfold fs1. rewrite length_upd_ino. cbn [inodes fs0]. rewrite length_replicate. lia.
  - done.
  - simpl. lia.
  - done.
  - split; try done.
    + apply NoDup_nil_2.
    + intros c Hc. by apply elem_of_nil in Hc.
    + intros c i Hc. by apply elem_of_nil in Hc.
    + intros c c' i i' Hc. by apply elem_of_nil in Hc.
  - simpl. lia.
  - intros x Hx. simpl in Hx. lia.
Qed.

Lemma fs1_ib : outside fs1 [] (IBLOCK (i_inum (ino fs1 3)) (fsb fs1)).
Proof.
  rewrite fs1_ino. change (fsb fs1) with (fsb fs0).
  assert (IBLOCK (i_inum empty_file) (fsb fs0) = 33) as -> by (vm_compute; reflexivity).
  split_and!.
  - unfold data_blk. change (fsb fs1) with (fsb fs0). change (blk fs1) with (blk fs0).
    assert (used (fsb fs0) (blk fs0) 33 = true) as Hu by (vm_compute; reflexivity).
    rewrite fs0_sb_decode in *. unfold is_bmap. cbn [sb_size sb_bmapstart].
    split_and!; try done; try lia.
  - apply not_elem_of_nil.
  - intros n Hn. unfold addr_of. simpl. lia.
Qed.

(** The log holds 29 blocks: a write of 29 blocks at once, which also logs the
    bit map and an indirect block, stops the machine. *)
Example writei_too_big :
  writei (fun _ => None) 3 (replicate (Z.to_nat (29 * BSIZE)) 7) 0 fs1 = Panic "too big a transaction".
Proof. vm_compute. reflexivity. Qed.

Lemma fs1_free : free_count fs1 = 140%nat.
Proof. vm_compute. reflexivity. Qed.

Lemma writei_readi_witness :
  exists s', writei (fun _ => None) 3 [104; 105; 33] 0 fs1 = Ret 3 s' /\
    readi (fun _ => None) 3 0 3 s' = Ret (3, [104; 105; 33]) s'.
Proof.
  destruct (writei_readi (fun _ => None) (fun _ => None) fs1 3 [] [104; 105; 33] 0 fs1_file)
    as (s' & cs' & R & _ & _ & _ & _ & R2).
  - repeat constructor; lia.
  - rewrite fs1_ino. simpl. lia.
  - simpl. lia.
  - rewrite fs1_free. vm_compute. lia.
  - apply fs1_ib.
  - apply (chunk_room fs1 3 [] 0); try reflexivity; [apply fs1_file|rewrite fs1_ino; simpl; lia|].
    simpl. lia.
  - change (Z.of_nat (length [104; 105; 33])) with 3 in R, R2.
    exists s'. split; [exact R|exact R2].
Defined.

(** C34. The block map is stable and injective: with free blocks and room in the
    log for both calls, [bmap] of
    two different block numbers gives different disk blocks, asking for the
    first one again returns the same block and changes nothing, and neither
    call moves or alters a block the file already had. *)
Theorem bmap_stable_injective s ip cs n m :
  file_ok s ip cs -> 0 <= n -> 0 <= m -> n <> m ->
  (Z.to_nat (n / 127) + Z.to_nat (m / 127) + 4 <= free_count s)%nat ->
  room (3 * (Z.to_nat (Z.max n m / 127) + 1 - length cs) + 6) s ->
  exists a b s1 s2, bmap ip n s = Ret a s1 /\ bmap ip m s1 = Ret b s2 /\ a <> b /\
    bmap ip n s2 = Ret a s2 /\
    forall k, 0 <= k -> addr_of s cs k <> 0 ->
      bmap ip k s2 = Ret (addr_of s cs k) s2 /\ blk s2 (addr_of s cs k) = blk s (addr_of s cs k).
Proof.
  intros [Hok Hip Hdev Hty Hlen Hf Hsz Hmp] Hn Hm Hne Hfree Hroom.
  pose proof (bmap_cost_le s cs n) as Hcn.
  assert (0 <= n / 127 <= Z.max n m / 127 /\ 0 <= m / 127 <= Z.max n m / 127) as [Hqn Hqm]
    by (split; (split; [dlia|apply Z.div_le_mono; lia])).
  destruct (bmap_ok ip s cs n Hok Hip Hdev Hlen Hf Hn)
    as (a & s1 & cs1 & R1 & Hok1 & Hf1 & X1 & (L1 & O1 & v1 & V1) & Da & _ & M1 & K1 & EL1 & C1 & G1); [lia|roomy|].
  pose proof (bmap_cost_le s1 cs1 m) as Hcm.
  assert (free_count s <= free_count s1 + Z.to_nat (n / 127) + 2)%nat as C0
    by (destruct (addr_of s cs n =? 0); lia).
  destruct (bmap_ok ip s1 cs1 m Hok1) as (b & s2 & cs2 & R2 & Hok2 & Hf2 & X2 & (L2 & O2 & v2 & V2) & Db & _ & M2 & K2 & _);
    [by rewrite L1|by rewrite V1|rewrite V1; simpl; by rewrite length_insert|done|done|lia|
     roomy|].
  assert (i_dev (ino s2 ip) = 1) as Hdev2 by (by rewrite V2, V1).
  assert (a <> 0 /\ b <> 0) as [Ha0 Hb0] by (split; [apply Da|apply Db]).
  assert (addr_of s2 cs2 n = a) as En.
  { rewrite M2 by done. destruct (Z.eqb_spec n m); [done|]. by rewrite M1, Z.eqb_refl. }
  assert (addr_of s2 cs2 m = b) as Em by (by rewrite M2, Z.eqb_refl).
  exists a, b, s1, s2. split_and!; try done.
  - intros E. apply Hne. apply (addr_of_inj s2 _ cs2 n m Hf2 Hn Hm); congruence.
  - rewrite <- En at 1. apply bmap_mapped; try done. congruence.
  - intros k Hk Hk0. assert (addr_of s1 cs1 k = addr_of s cs k) as E1.
    { rewrite M1 by done. destruct (Z.eqb_spec k n) as [->|]; [|done].
      by destruct K1 as [?|(? & _)]. }
    assert (addr_of s2 cs2 k = addr_of s cs k) as E2.
    { rewrite M2 by done. destruct (Z.eqb_spec k m) as [->|]; [|done].
      destruct K2 as [?|(? & _)]; congruence. }
    split; [rewrite <- E2; apply bmap_mapped; congruence|].
    destruct (addr_of_data s _ cs k Hf Hk Hk0) as [Hd Hnc].
    destruct X1 as (_ & _ & D1 & _), X2 as (_ & _ & D2 & _).
    destruct (D1 _ Hd) as [Hd1 Hb1]. destruct (Hb1 Hnc) as [B1 Hnc1].
    destruct (D2 _ Hd1) as [_ Hb2]. destruct (Hb2 Hnc1) as [B2 _]. congruence.
Qed.

Lemma bmap_stable_injective_witness :
  exists a b s1 s2, bmap 3 0 fs1 = Ret a s1 /\ bmap 3 300 s1 = Ret b s2 /\ a <> b.
Proof.
  destruct (bmap_stable_injective fs1 3 [] 0 300 fs1_file) as (a & b & s1 & s2 & R1 & R2 & Hne & _);
    [lia|lia|lia|rewrite fs1_free; vm_compute; lia|exact (fs0_room 15 ltac:(lia))|].
  exists a, b, s1, s2. split; [exact R1|]. split; [exact R2|exact Hne].
Defined.

(** [itrunc] does not give back the blocks of a file that [bmap] built: on a
    file whose only address is the chain head in [addrs[0]], it frees that one
    indirect block and no other, so every data block and every further indirect
    block stays marked in use although the inode has lost it. *)
Theorem itrunc_leaks s ip c cs n :
  file_ok s ip (c :: cs) -> (forall k, 1 <= k <= 12 -> i_addr (ino s ip) k = 0) ->
  outside s (c :: cs) (IBLOCK (i_inum (ino s ip)) (fsb s)) -> room 2 s ->
  0 <= n -> addr_of s (c :: cs) n <> 0 ->
  exists s', itrunc ip s = Ret tt s' /\
    (forall k, 0 <= k <= 12 -> i_addr (ino s' ip) k = 0) /\
    used (fsb s) (blk s') c = false /\
    used (fsb s) (blk s') (addr_of s (c :: cs) n) = true /\
    forall x, x ∈ cs -> used (fsb s) (blk s') x = true.
Proof.
  intros Hf Hz Hib Hroom Hn Hne. pose proof (fk_map _ _ _ Hf) as Hm.
  destruct (itrunc_run s ip c cs Hf Hz Hib Hroom) as (s' & R & _ & _ & _ & A & U).
  destruct (addr_of_data s _ _ n Hm Hn Hne) as [(D1 & D2 & D3 & D4 & D5) Hnc].
  apply not_elem_of_cons in Hnc as [Hnc _].
  exists s'. split_and!; try done.
  - destruct (fw_ind _ _ _ Hm c) as (C1 & _); [constructor|]. rewrite U by done.
    by rewrite Z.eqb_refl.
  - rewrite U, D5 by done. by destruct (Z.eqb_spec (addr_of s (c :: cs) n) c).
  - intros x Hx. destruct (fw_ind _ _ _ Hm x) as (X1 & _ & _ & _ & X5); [by constructor|].
    rewrite U, X5 by done. destruct (Z.eqb_spec x c) as [->|]; [|done].
    pose proof (fw_nodup _ _ _ Hm) as Hd. by apply NoDup_cons in Hd as [? _].
Qed.

Lemma itrunc_leaks_witness :
  exists s s' a, itrunc 3 s = Ret tt s' /\ a <> 0 /\ used (fsb s) (blk s') a = true.
Proof.
  destruct (writei_ok (fun _ => None) fs1 3 [] [104; 105; 33] 0 fs1_file)
    as (s & cs & R & Hf & Hc & _ & _ & Hn & Hs & _ & Ho & Ha & G).
  - repeat constructor; lia.
  - rewrite fs1_ino. simpl. lia.
  - simpl. lia.
  - rewrite fs1_free. vm_compute. lia.
  - apply fs1_ib.
  - exact (fs0_room 8 ltac:(lia)).
  - assert (i_size (ino s 3) = 3) as Hsz.
    { apply (f_equal length) in Hc. unfold content in Hc. rewrite length_fmap, length_seqZ in Hc.
      rewrite fs1_ino in Hc. change (length (splice _ 0 [104; 105; 33])) with 3%nat in Hc.
      pose proof (fk_size _ _ _ Hf). lia. }
    pose proof (fk_mapped _ _ _ Hf 0 ltac:(lia)) as Hne. change (0 / BSIZE) with 0 in Hne.
    clear R Hc. destruct cs as [|c cs]; [exfalso; by apply Hne|].
    destruct (itrunc_leaks s 3 c cs 0 Hf) as (s' & R' & _ & _ & U & _).
    + intros k Hk. rewrite Ha by lia. rewrite fs1_ino. unfold i_addr. cbn [i_addrs empty_file].
      destruct (replicate 13 0 !! Z.to_nat k) as [x|] eqn:Hx; [|done].
      by apply lookup_replicate in Hx as [-> _].
    + rewrite Hn, Hs. apply Ho, fs1_ib.
    + apply (room_logs 8 2 10 fs1 s (fs0_room 10 ltac:(lia)) G). lia.
    + lia.
    + done.
    + exists s, s', (addr_of s (c :: cs) 0). split; [exact R'|]. split; [exact Hne|exact U].
Defined.
