(* ===== verification/FsDir.v ===== *)
(** Directories and path names (fs.c): entries of 16 bytes in the contents of a
    directory, and the splitting of paths into elements. *)

From Stdlib Require Import ZArith Lia.
From stdpp Require Import base strings gmap numbers list.
From S2P Require Import Prelude KString BlockLayer Bio Log Fs FsAlloc FsInode FsFile.

Open Scope Z_scope.

(** ** Names *)

Lemma cstr_cons x l n :
  cstr (at_list (x :: l)) (S n) = if x =? 0 then [] else x :: cstr (at_list l) n.
Proof. reflexivity. Qed.

Lemma cstr_nil n : cstr (at_list []) n = [].
Proof. by destruct n. Qed.

Lemma length_cstr p n : (length (cstr p n) <= n)%nat.
Proof.
  revert p. induction n as [|n IH]; intros p; simpl; [lia|].
  destruct (p O =? 0); simpl; [lia|]. specialize (IH (rshift p)). lia.
Qed.

Lemma cstr_nonzero p n : Forall (fun c => c <> 0) (cstr p n).
Proof.
  revert p. induction n as [|n IH]; intros p; simpl; [apply Forall_nil_2|].
  destruct (Z.eqb_spec (p O) 0); [apply Forall_nil_2|]. by apply Forall_cons.
Qed.

(** A string followed by NULs, read back. *)
Lemma cstr_padded l : forall n k,
  Forall (fun c => c <> 0) l -> (length l <= n)%nat -> cstr (at_list (l ++ replicate k 0)) n = l.
Proof.
  induction l as [|x l IH]; intros n k Hl Hn.
  - destruct n; [done|]. destruct k; [apply cstr_nil|]. done.
  - apply Forall_cons in Hl as [Hx Hl]. destruct n as [|n]; [simpl in Hn; lia|].
    cbn [app]. rewrite cstr_cons. destruct (Z.eqb_spec x 0); [done|]. f_equal.
    apply IH; [done|simpl in Hn; lia].
Qed.

(** The name a buffer of DIRSIZ bytes denotes. *)
Definition dname (l : list Z) : list Z := cstr (at_list l) (Z.to_nat DIRSIZ).

Lemma namecmp_eq s t : namecmp s t = 0 <-> dname s = dname t.
Proof. apply strncmp_0_iff. Qed.

Lemma dname_field name : dname (name_field name) = dname name.
Proof.
  unfold dname at 1, name_field. fold (dname name).
  apply cstr_padded; [apply cstr_nonzero|apply length_cstr].
Qed.

Lemma length_name_field name : length (name_field name) = Z.to_nat DIRSIZ.
Proof.
  unfold name_field. rewrite length_app, length_replicate.
  pose proof (length_cstr (at_list name) (Z.to_nat DIRSIZ)). lia.
Qed.

Lemma length_mk_dirent name inum : length (mk_dirent name inum) = 16%nat.
Proof. unfold mk_dirent. rewrite length_app, length_name_field. done. Qed.

Lemma de_name_mk name inum : de_name (mk_dirent name inum) = name_field name.
Proof.
  unfold de_name, slice, mk_dirent. change (drop (Z.to_nat 2) _) with (name_field name).
  apply take_ge. by rewrite length_name_field.
Qed.

Lemma de_inum_mk name inum : 0 <= inum < 65536 -> de_inum (mk_dirent name inum) = inum.
Proof.
  intros H. unfold de_inum, get16, get8, mk_dirent. simpl. unfold byte_of.
  change (256 ^ 0) with 1. change (256 ^ 1) with 256. dlia.
Qed.

(** ** Lookup in the contents of a directory *)

(** The first entry from offset [off] on that is in use and has this name. *)
Fixpoint dir_find (n : nat) (c : list Z) (name : list Z) (off : Z) : option (Z * Z) :=
  match n with
  | O => None
  | S n' =>
      let de := slice c off 16 in
      if (de_inum de =? 0) || negb (namecmp name (de_name de) =? 0)
      then dir_find n' c name (off + 16)
      else Some (de_inum de, off)
  end.

(** The first free entry, or the end. *)
Fixpoint dir_free (n : nat) (c : list Z) (off : Z) : Z :=
  match n with
  | O => off
  | S n' => if de_inum (slice c off 16) =? 0 then off else dir_free n' c (off + 16)
  end.

(** A directory of [n] entries. *)
Definition dir_ok (s : fs) (dp : nat) (cs : list Z) (n : nat) : Prop :=
  file_ok s dp cs /\ i_type (ino s dp) = T_DIR /\ i_size (ino s dp) = 16 * Z.of_nat n.

Section Dir.
Variable devsw_read : Z -> option (nat -> Z -> M fs (Z * list Z)).

Lemma read_entry s dp cs n k :
  dir_ok s dp cs n -> 0 <= k < Z.of_nat n ->
  readi devsw_read dp (16 * k) 16 s = Ret (16, slice (content s dp cs) (16 * k) 16) s.
Proof.
  intros (Hf & _ & Hsz) Hk. pose proof (fk_size _ _ _ Hf).
  rewrite (readi_ok devsw_read s dp cs) by (done || lia).
  destruct (Z.ltb_spec (i_size (ino s dp)) (16 * k)); [lia|]. by rewrite Z.min_l by lia.
Qed.

(** What [dirlookup] returns once the entry is found. *)
Definition found (r : option (Z * Z)) : M fs (option (nat * Z)) :=
  match r with
  | None => ret None
  | Some (inum, off) => let* ip := iget ROOTDEV inum in ret (Some (ip, off))
  end.

Lemma dirlookup_loop_ok s dp cs n name m : forall k fuel,
  dir_ok s dp cs n -> 0 <= k -> k + Z.of_nat m = Z.of_nat n -> (m < fuel)%nat ->
  dirlookup_loop devsw_read fuel dp name (16 * k) s =
  found (dir_find m (content s dp cs) name (16 * k)) s.
Proof.
  induction m as [|m IH]; intros k fuel Hd Hk Hn Hf; (destruct fuel as [|fuel]; [lia|]);
    cbn [dirlookup_loop dir_find]; unfold bind at 1, get; pose proof Hd as (Hfile & _ & Hsz);
    rewrite Hsz.
  { destruct (Z.ltb_spec (16 * k) (16 * Z.of_nat n)); [lia|done]. }
  destruct (Z.ltb_spec (16 * k) (16 * Z.of_nat n)); [|lia].
  mstep (read_entry s dp cs n k Hd ltac:(lia)). cbn [fst snd Z.eqb Pos.eqb negb].
  set (de := slice (content s dp cs) (16 * k) 16).
  replace (16 * k + 16) with (16 * (k + 1)) by lia.
  destruct (Z.eqb_spec (de_inum de) 0) as [E|E]; cbn [orb].
  { apply IH; done || lia. }
  destruct (Z.eqb_spec (namecmp name (de_name de)) 0) as [E2|E2]; cbn [negb].
  - unfold bind at 1, get. by rewrite (fk_dev _ _ _ Hfile).
  - apply IH; done || lia.
Qed.

Lemma dirlookup_ok s dp cs n name :
  dir_ok s dp cs n ->
  dirlookup devsw_read dp name s = found (dir_find n (content s dp cs) name 0) s.
Proof.
  intros Hd. pose proof Hd as (Hf & Ht & Hsz). unfold dirlookup, bind, get. rewrite Ht. cbn [Z.eqb negb].
  change (T_DIR =? T_DIR) with true. cbn [negb].
  apply (dirlookup_loop_ok s dp cs n name n 0); [done|lia|lia|lia].
Qed.

Lemma dirlink_loop_ok s dp cs n m : forall k fuel,
  dir_ok s dp cs n -> 0 <= k -> k + Z.of_nat m = Z.of_nat n -> (m < fuel)%nat ->
  dirlink_loop devsw_read fuel dp (16 * k) s = Ret (dir_free m (content s dp cs) (16 * k)) s.
Proof.
  induction m as [|m IH]; intros k fuel Hd Hk Hn Hf; (destruct fuel as [|fuel]; [lia|]);
    cbn [dirlink_loop dir_free]; unfold bind at 1, get; pose proof Hd as (Hfile & _ & Hsz);
    rewrite Hsz.
  { destruct (Z.ltb_spec (16 * k) (16 * Z.of_nat n)); [lia|done]. }
  destruct (Z.ltb_spec (16 * k) (16 * Z.of_nat n)); [|lia].
  mstep (read_entry s dp cs n k Hd ltac:(lia)). cbn [fst snd Z.eqb Pos.eqb negb].
  replace (16 * k + 16) with (16 * (k + 1)) by lia.
  destruct (Z.eqb_spec (de_inum (slice (content s dp cs) (16 * k) 16)) 0); [done|].
  apply IH; done || lia.
Qed.

Lemma dir_free_range m : forall c k,
  exists j, dir_free m c (16 * k) = 16 * j /\ k <= j <= k + Z.of_nat m /\
    (forall i, k <= i < j -> de_inum (slice c (16 * i) 16) <> 0) /\
    (j < k + Z.of_nat m -> de_inum (slice c (16 * j) 16) = 0).
Proof.
  induction m as [|m IH]; intros c k; cbn [dir_free].
  { exists k. split_and!; try lia. }
  destruct (Z.eqb_spec (de_inum (slice c (16 * k) 16)) 0) as [E|E].
  - exists k. split_and!; try lia.
  - replace (16 * k + 16) with (16 * (k + 1)) by lia.
    destruct (IH c (k + 1)) as (j & H1 & H2 & H3 & H4). exists j. split_and!; try lia.
    intros i Hi. destruct (decide (i = k)) as [->|]; [done|apply H3; lia].
Qed.

(** Entries after one of them has been written. *)
Lemma slice_splice c j src i :
  length src = 16%nat -> 0 <= j -> 16 * j <= Z.of_nat (length c) -> 0 <= i ->
  slice (splice c (16 * j) src) (16 * i) 16 = if i =? j then src else slice c (16 * i) 16.
Proof.
  intros Hs Hj Hl Hi. apply list_eq. intros p. unfold slice.
  destruct (decide (p < 16)%nat) as [Hp|Hp].
  - rewrite lookup_take_lt, lookup_drop, lookup_splice by lia. rewrite Hs.
    destruct (Z.eqb_spec i j) as [->|].
    + rewrite decide_True by lia. f_equal. lia.
    + rewrite decide_False by lia. by rewrite lookup_take_lt, lookup_drop by lia.
  - rewrite lookup_take_ge by lia. destruct (Z.eqb_spec i j) as [->|].
    + symmetry. apply lookup_ge_None_2. lia.
    + by rewrite lookup_take_ge by lia.
Qed.

(** Lookup depends on the entries only. *)
Lemma dir_find_ext m : forall c c' name k,
  (forall i, k <= i < k + Z.of_nat m -> slice c (16 * i) 16 = slice c' (16 * i) 16) ->
  dir_find m c name (16 * k) = dir_find m c' name (16 * k).
Proof.
  induction m as [|m IH]; intros c c' name k H; cbn [dir_find]; [done|].
  rewrite H by lia. replace (16 * k + 16) with (16 * (k + 1)) by lia.
  rewrite (IH c c') by (intros i Hi; apply H; lia). done.
Qed.

(** Entry [i] is in use and has this name. *)
Definition entry_is (c : list Z) (name : list Z) (i : Z) : Prop :=
  de_inum (slice c (16 * i) 16) <> 0 /\ dname name = dname (de_name (slice c (16 * i) 16)).

Lemma entry_is_bool c name i :
  (de_inum (slice c (16 * i) 16) =? 0) || negb (namecmp name (de_name (slice c (16 * i) 16)) =? 0) = false
  <-> entry_is c name i.
Proof.
  unfold entry_is. rewrite orb_false_iff, negb_false_iff, Z.eqb_neq, Z.eqb_eq, namecmp_eq. done.
Qed.

Lemma dir_find_spec m : forall c name k,
  match dir_find m c name (16 * k) with
  | None => forall i, k <= i < k + Z.of_nat m -> ~ entry_is c name i
  | Some (inum, off) => exists j, off = 16 * j /\ k <= j < k + Z.of_nat m /\ entry_is c name j /\
      inum = de_inum (slice c (16 * j) 16) /\ forall i, k <= i < j -> ~ entry_is c name i
  end.
Proof.
  induction m as [|m IH]; intros c name k; cbn [dir_find]; [intros; lia|].
  destruct (_ || _) eqn:E.
  - assert (~ entry_is c name k) as Hk by (rewrite <- entry_is_bool, E; done).
    replace (16 * k + 16) with (16 * (k + 1)) by lia. specialize (IH c name (k + 1)).
    destruct (dir_find m c name (16 * (k + 1))) as [[inum off]|].
    + destruct IH as (j & H1 & H2 & H3 & H4 & H5). exists j. split_and!; try done; try lia.
      intros i Hi. destruct (decide (i = k)) as [->|]; [done|apply H5; lia].
    + intros i Hi. destruct (decide (i = k)) as [->|]; [done|apply IH; lia].
  - apply entry_is_bool in E. exists k. split_and!; try done; lia.
Qed.

Lemma dir_find_first m c name j :
  0 <= j < Z.of_nat m -> entry_is c name j -> (forall i, 0 <= i < j -> ~ entry_is c name i) ->
  dir_find m c name 0 = Some (de_inum (slice c (16 * j) 16), 16 * j).
Proof.
  intros Hj He Hno. pose proof (dir_find_spec m c name 0) as H. change (16 * 0) with 0 in H.
  destruct (dir_find m c name 0) as [[inum off]|].
  - destruct H as (i & -> & Hi & Hei & -> & Hni). assert (i = j) as ->; [|done].
    destruct (Z.lt_trichotomy i j) as [?|[?|?]]; [|done|].
    + by destruct (Hno i); [lia|].
    + by destruct (Hni j); [lia|].
  - by destruct (H j); [lia|].
Qed.

Lemma dir_find_none m c name :
  (forall i, 0 <= i < Z.of_nat m -> ~ entry_is c name i) -> dir_find m c name 0 = None.
Proof.
  intros Hno. pose proof (dir_find_spec m c name 0) as H. change (16 * 0) with 0 in H.
  destruct (dir_find m c name 0) as [[inum off]|]; [|done].
  destruct H as (i & _ & Hi & Hei & _). by destruct (Hno i).
Qed.

(** The directory after an entry has been written at the free position [j]. *)
Lemma dir_find_linked c name inum j n n' :
  0 < inum < 65536 -> 0 <= j <= Z.of_nat n -> length c = (16 * n)%nat ->
  Z.of_nat n' = Z.max (Z.of_nat n) (j + 1) ->
  (j < Z.of_nat n -> de_inum (slice c (16 * j) 16) = 0) ->
  let c' := splice c (16 * j) (mk_dirent name inum) in
  (dir_find n c name 0 = None -> dir_find n' c' name 0 = Some (inum, 16 * j)) /\
  forall other, dname other <> dname name -> dir_find n' c' other 0 = dir_find n c other 0.
Proof.
  intros Hin Hj Hl Hn' Hfree c'.
  assert (forall i, 0 <= i -> slice c' (16 * i) 16 =
            if i =? j then mk_dirent name inum else slice c (16 * i) 16) as Hs.
  { intros i Hi. apply slice_splice; [apply length_mk_dirent|lia|lia|done]. }
  assert (forall nm i, 0 <= i -> i <> j -> entry_is c' nm i <-> entry_is c nm i) as He.
  { intros nm i Hi Hne. unfold entry_is. rewrite Hs by done. by destruct (Z.eqb_spec i j). }
  assert (slice c' (16 * j) 16 = mk_dirent name inum) as Hsj by (rewrite Hs, Z.eqb_refl by lia; done).
  split.
  - intros Hnone. pose proof (dir_find_spec n c name 0) as H. change (16 * 0) with 0 in H.
    rewrite Hnone in H. rewrite (dir_find_first n' c' name j); [|lia| |].
    + by rewrite Hsj, de_inum_mk by lia.
    + unfold entry_is. rewrite Hsj, de_inum_mk, de_name_mk, dname_field by lia. split; [lia|done].
    + intros i Hi. rewrite He by lia. apply H. lia.
  - intros other Hne.
    assert (~ entry_is c' other j) as Hj'.
    { unfold entry_is. rewrite Hsj, de_name_mk, dname_field. by intros [_ ?]. }
    pose proof (dir_find_spec n c other 0) as H. change (16 * 0) with 0 in H.
    destruct (dir_find n c other 0) as [[i0 off]|].
    + destruct H as (i & -> & Hi & Hei & -> & Hni).
      assert (i <> j) as Hij by (intros ->; destruct Hei as [Hei _]; apply Hei, Hfree; lia).
      rewrite (dir_find_first n' c' other i); [|lia| |].
      * rewrite Hs by lia. by destruct (Z.eqb_spec i j).
      * apply He; [lia|done|done].
      * intros k Hk. destruct (decide (k = j)) as [->|]; [done|]. rewrite He by lia. apply Hni. lia.
    + apply dir_find_none. intros i Hi. destruct (decide (i = j)) as [->|]; [done|].
      rewrite He by lia. apply H. lia.
Qed.

Variable devsw_write : Z -> option (nat -> list Z -> M fs Z).

Lemma mk_dirent_bytes name inum :
  Forall (fun b => 0 <= b < 256) name -> Forall (fun b => 0 <= b < 256) (mk_dirent name inum).
Proof.
  intros Hn. unfold mk_dirent. apply Forall_app. split.
  - apply Forall_cons. split; [apply byte_of_range|]. apply Forall_cons. split; [apply byte_of_range|].
    apply Forall_nil_2.
  - unfold name_field. apply Forall_app. split; [|apply Forall_replicate; lia].
    assert (forall p k, (forall i, 0 <= p i < 256) -> Forall (fun b => 0 <= b < 256) (cstr p k)) as H.
    { intros p k. revert p. induction k as [|k IH]; intros p Hp; simpl; [apply Forall_nil_2|].
      destruct (p O =? 0); [apply Forall_nil_2|]. apply Forall_cons. split; [apply Hp|].
      apply IH. intros i. apply Hp. }
    apply H. intros i. unfold at_list. destruct (name !! i) eqn:E; simpl; [|lia].
    by apply (Forall_lookup_1 _ _ _ _ Hn E).
Qed.

Lemma length_content s ip cs : length (content s ip cs) = Z.to_nat (i_size (ino s ip)).
Proof. unfold content. by rewrite length_fmap, length_seqZ. Qed.

(** A directory entry lies within one block. *)
Lemma dirent_cost s dp cs j :
  file_ok s dp cs -> 0 <= j -> 16 * j <= i_size (ino s dp) -> (write_cost cs (16 * j) 16 <= 8)%nat.
Proof.
  intros Hf Hj Hs. assert (touched (16 * j) 16 = 1) as Ht by (unfold touched; cbn [Z.leb Z.compare]; dlia).
  pose proof (chain_growth s dp cs (16 * j) 16 Hf ltac:(lia) ltac:(lia)). unfold write_cost.
  rewrite Ht. lia.
Qed.

Lemma dirlink_ok s dp cs n name inum :
  dir_ok s dp cs n -> Forall (fun b => 0 <= b < 256) name -> 0 < inum < 65536 ->
  16 * Z.of_nat n + 16 <= MAXFILE * BSIZE ->
  (forall off, 0 <= off <= i_size (ino s dp) -> (blocks_needed off 16 <= free_count s)%nat) ->
  outside s cs (IBLOCK (i_inum (ino s dp)) (fsb s)) -> room 8 s ->
  dir_find n (content s dp cs) name 0 = None ->
  exists s' cs' n' off, dirlink devsw_read devsw_write dp name inum s = Ret 0 s' /\
    dir_ok s' dp cs' n' /\
    dir_find n' (content s' dp cs') name 0 = Some (inum, off) /\
    (forall other, dname other <> dname name ->
       dir_find n' (content s' dp cs') other 0 = dir_find n (content s dp cs) other 0).
Proof.
  intros Hd Hb Hin Hmax Hfree Hib Hroom Hnone. pose proof Hd as (Hf & Ht & Hsz).
  destruct (dir_free_range n (content s dp cs) 0) as (j & Ej & Hj & _ & Hjz).
  change (16 * 0) with 0 in Ej.
  set (src := mk_dirent name inum).
  assert (length src = 16%nat) as Hsrc by apply length_mk_dirent.
  destruct (writei_ok devsw_write s dp cs src (16 * j) Hf)
    as (s' & cs' & R & Hf' & Hc & _ & Hty & _); rewrite ?Hsrc; try done; try lia.
  { by apply mk_dirent_bytes. } { apply Hfree. lia. }
  { apply (room_le _ _ _ Hroom). apply (dirent_cost s dp cs j Hf); lia. }
  set (n' := Z.to_nat (Z.max (Z.of_nat n) (j + 1))).
  assert (i_size (ino s' dp) = 16 * Z.of_nat n') as Hsz'.
  { pose proof (length_content s' dp cs') as L. rewrite Hc in L. unfold splice in L.
    rewrite !length_app, length_take, length_drop, length_content, Hsrc in L.
    pose proof (fk_size _ _ _ Hf'). unfold n'. lia. }
  destruct (dir_find_linked (content s dp cs) name inum j n n' Hin) as [H1 H2];
    [lia|rewrite length_content; lia|unfold n'; lia|intros; apply Hjz; lia|].
  exists s', cs', n', (16 * j). split_and!.
  - assert (dirlookup devsw_read dp name s = Ret None s) as Rl
      by (rewrite (dirlookup_ok s dp cs n name Hd), Hnone; done).
    unfold dirlink. mstep Rl. unfold bind at 1, get.
    mstep (dirlink_loop_ok s dp cs n n 0 (S (Z.to_nat (i_size (ino s dp)))) Hd ltac:(lia) ltac:(lia) ltac:(lia)).
    change (16 * 0) with 0. rewrite Ej. fold src. mstep R. rewrite Hsrc. done.
  - split_and!; [done|by rewrite Hty|done].
  - rewrite Hc. by apply H1.
  - intros other Hne. rewrite Hc. by apply H2.
Qed.

End Dir.

(** ** Path elements *)

(** The non-empty pieces of a path between slashes; [cur] is the piece read so
    far. *)
Fixpoint elems_from (cur path : list Z) : list (list Z) :=
  match path with
  | [] => match cur with [] => [] | _ => [cur] end
  | c :: p =>
      if c =? slash then
        match cur with [] => elems_from [] p | _ => cur :: elems_from [] p end
      else elems_from (cur ++ [c]) p
  end.
Definition elems (path : list Z) : list (list Z) := elems_from [] path.

Lemma elems_skip path : elems (skip_slashes path) = elems path.
Proof.
  induction path as [|c p IH]; [done|]. cbn [skip_slashes].
  destruct (Z.eqb_spec c slash) as [->|]; [|done]. rewrite IH. done.
Qed.

Lemma skip_slashes_head path : head (skip_slashes path) <> Some slash.
Proof.
  induction path as [|c p IH]; [done|]. cbn [skip_slashes].
  destruct (Z.eqb_spec c slash); [done|]. simpl. congruence.
Qed.

Lemma elems_span p : forall cur,
  cur ++ (span_elem p).1 <> [] ->
  elems_from cur p = (cur ++ (span_elem p).1) :: elems (span_elem p).2.
Proof.
  induction p as [|c p IH]; intros cur Hne; cbn [elems_from span_elem] in *.
  - simpl in *. rewrite app_nil_r in *. by destruct cur.
  - destruct (Z.eqb_spec c slash) as [->|Hc].
    + simpl in *. rewrite app_nil_r in *. destruct cur; [done|]. done.
    + destruct (span_elem p) as [e r] eqn:E. cbn [fst snd] in *.
      rewrite IH; rewrite <- app_assoc; [done|]. by destruct cur.
Qed.

Lemma span_elem_length p : (length (span_elem p).1 + length (span_elem p).2 = length p)%nat.
Proof.
  induction p as [|c p IH]; [done|]. cbn [span_elem].
  destruct (c =? slash); [done|]. destruct (span_elem p). simpl in *. lia.
Qed.

Lemma skip_slashes_length p : (length (skip_slashes p) <= length p)%nat.
Proof. induction p as [|c p IH]; [done|]. cbn [skip_slashes]. destruct (c =? slash); simpl; lia. Qed.

Lemma span_nonzero p : Forall (fun c => c <> 0) p -> Forall (fun c => c <> 0) (span_elem p).1.
Proof.
  induction p as [|c p IH]; intros H; [done|]. apply Forall_cons in H as [Hc H]. cbn [span_elem].
  destruct (c =? slash); [apply Forall_nil_2|]. destruct (span_elem p). apply Forall_cons. auto.
Qed.

Lemma skip_nonzero p : Forall (fun c => c <> 0) p -> Forall (fun c => c <> 0) (skip_slashes p).
Proof.
  induction p as [|c p IH]; intros H; [done|]. cbn [skip_slashes].
  destruct (c =? slash); [|done]. apply IH. by apply Forall_cons in H as [_ H].
Qed.

Lemma cstr_take l : forall n, Forall (fun c => c <> 0) l -> cstr (at_list (take n l)) n = take n l.
Proof.
  induction l as [|x l IH]; intros n H; [rewrite take_nil; apply cstr_nil|].
  destruct n; [done|]. apply Forall_cons in H as [Hx H]. cbn [take]. rewrite cstr_cons.
  destruct (Z.eqb_spec x 0); [done|]. f_equal. by apply IH.
Qed.

Lemma cstr_nul l : forall n rest,
  Forall (fun c => c <> 0) l -> (length l < n)%nat -> cstr (at_list (l ++ 0 :: rest)) n = l.
Proof.
  induction l as [|x l IH]; intros n rest H Hn; (destruct n; [simpl in Hn; lia|]).
  - done.
  - apply Forall_cons in H as [Hx H]. cbn [app]. rewrite cstr_cons.
    destruct (Z.eqb_spec x 0); [done|]. f_equal. apply IH; [done|simpl in Hn; lia].
Qed.

Lemma skipelem_ok path name :
  length name = Z.to_nat DIRSIZ -> Forall (fun c => c <> 0) path ->
  match skipelem path name with
  | None => elems path = []
  | Some (rest, name') => exists e, elems path = e :: elems rest /\ e <> [] /\
      dname name' = take (Z.to_nat DIRSIZ) e /\ length name' = Z.to_nat DIRSIZ /\
      head rest <> Some slash /\ (length rest < length path)%nat /\ Forall (fun c => c <> 0) rest
  end.
Proof.
  intros Hn Hp. unfold skipelem. pose proof (elems_skip path) as Hs.
  pose proof (skip_slashes_head path) as Hh. pose proof (skip_slashes_length path) as Hl.
  pose proof (skip_nonzero path Hp) as Hz.
  destruct (skip_slashes path) as [|c p]; [by rewrite <- Hs|].
  assert (c <> slash) as Hc by (intros ->; done).
  destruct (span_elem (c :: p)) as [e r] eqn:E.
  assert (e <> []) as He.
  { cbn [span_elem] in E. destruct (Z.eqb_spec c slash); [done|]. destruct (span_elem p). by injection E as <- <-. }
  assert (Forall (fun c => c <> 0) e) as Hez.
  { pose proof (span_nonzero (c :: p) Hz) as H. by rewrite E in H. }
  pose proof (span_elem_length (c :: p)) as Hlen. rewrite E in Hlen. cbn [fst snd] in Hlen.
  exists e. split_and!.
  - rewrite <- Hs, elems_skip. unfold elems at 1. rewrite elems_span; by rewrite E.
  - done.
  - destruct (Z.leb_spec DIRSIZ (Z.of_nat (length e))).
    + by apply cstr_take.
    + rewrite (take_ge e) by lia. apply cstr_nul; [done|lia].
  - destruct (Z.leb_spec DIRSIZ (Z.of_nat (length e))).
    + rewrite length_take. lia.
    + rewrite !length_app, length_drop. simpl. lia.
  - apply skip_slashes_head.
  - pose proof (skip_slashes_length r). destruct e; [done|]. simpl in *. lia.
  - apply skip_nonzero. clear -E Hz.
    assert (forall q, Forall (fun c => c <> 0) q -> Forall (fun c => c <> 0) (span_elem q).2) as H.
    { induction q as [|x q IH]; intros Hq; [done|]. cbn [span_elem]. destruct (x =? slash); [done|].
      apply Forall_cons in Hq as [_ Hq]. specialize (IH Hq). by destruct (span_elem q). }
    specialize (H _ Hz). by rewrite E in H.
Qed.

(** ** Properties *)

(** [dirlookup] on a well-formed directory is exactly the search for the
    first entry in use with that name (compared on at most DIRSIZ characters):
    it returns a reference to that entry's inode with the entry's offset, or 0
    when no entry matches; the directory is not changed by the search. *)
Theorem dirlookup_first devr s dp cs n name :
  dir_ok s dp cs n ->
  match dir_find n (content s dp cs) name 0 with
  | None => dirlookup devr dp name s = Ret None s /\
      forall i, 0 <= i < Z.of_nat n -> ~ entry_is (content s dp cs) name i
  | Some (inum, off) =>
      dirlookup devr dp name s = (let* ip := iget ROOTDEV inum in ret (Some (ip, off))) s /\
      exists j, off = 16 * j /\ 0 <= j < Z.of_nat n /\ entry_is (content s dp cs) name j /\
        forall i, 0 <= i < j -> ~ entry_is (content s dp cs) name i
  end.
Proof.
  intros Hd. pose proof (dirlookup_ok devr s dp cs n name Hd) as H.
  pose proof (dir_find_spec n (content s dp cs) name 0) as Hs. change (16 * 0) with 0 in Hs.
  destruct (dir_find n (content s dp cs) name 0) as [[inum off]|].
  - split; [exact H|]. destruct Hs as (j & ? & ? & ? & _ & ?). exists j. split_and!; try done; lia.
  - split; [exact H|exact Hs].
Qed.

(** An empty directory, inode 9 in entry 3 of the cache. *)
Definition fs_dir : fs := upd_ino 3 (set_i_type T_DIR) fs1.

Lemma fs_dir_ok : dir_ok fs_dir 3 [] 0.
Proof.
  pose proof fs1_file as Hf. split_and!; [|reflexivity|reflexivity].
  destruct Hf as [F1 F2 F3 F4 F5 F6 F7 F8]. split.
  - apply (fs_ok_inodes fs1); try done. apply (fs_ok_lhn fs1 F1).
  - unfold fs_dir. by rewrite length_upd_ino.
  - reflexivity.
  - intros H. assert (1 = 3) by exact H. lia.
  - reflexivity.
  - apply (file_wf_inodes fs1); [reflexivity|reflexivity|exact F6].
  - assert (i_size (ino fs_dir 3) = 0) as -> by reflexivity. lia.
  - intros x Hx. assert (i_size (ino fs_dir 3) = 0) as E by reflexivity. lia.
Qed.

Lemma dirlookup_first_witness :
  dirlookup (fun _ => None) 3 [97; 98] fs_dir = Ret None fs_dir.
Proof.
  pose proof (dirlookup_first (fun _ => None) fs_dir 3 [] 0 [97; 98] fs_dir_ok) as H.
  exact (proj1 H).
Defined.

(** C33. A name linked by [dirlink] is found by lookup. When the directory has no
    entry of that name and there is room on the disk, and in the log for eight
    blocks, [dirlink] returns 0, a lookup of the
    name then finds the inode number given, and lookups of every other name
    give what they gave before. *)
Theorem dirlink_then_lookup devr devw s dp cs n name inum :
  dir_ok s dp cs n -> Forall (fun b => 0 <= b < 256) name -> 0 < inum < 65536 ->
  16 * Z.of_nat n + 16 <= MAXFILE * BSIZE ->
  (forall off, 0 <= off <= i_size (ino s dp) -> (blocks_needed off 16 <= free_count s)%nat) ->
  outside s cs (IBLOCK (i_inum (ino s dp)) (fsb s)) -> room 8 s ->
  dir_find n (content s dp cs) name 0 = None ->
  exists s' cs' n' off, dirlink devr devw dp name inum s = Ret 0 s' /\ dir_ok s' dp cs' n' /\
    dirlookup devr dp name s' = (let* ip := iget ROOTDEV inum in ret (Some (ip, off))) s' /\
    forall other, dname other <> dname name ->
      dir_find n' (content s' dp cs') other 0 = dir_find n (content s dp cs) other 0.
Proof.
  intros Hd Hb Hin Hmax Hfree Hib Hroom Hnone.
  destruct (dirlink_ok devr devw s dp cs n name inum Hd Hb Hin Hmax Hfree Hib Hroom Hnone)
    as (s' & cs' & n' & off & R & Hd' & Hfind & Hoth).
  exists s', cs', n', off. split_and!; try done.
  by rewrite (dirlookup_ok devr s' dp cs' n' name Hd'), Hfind.
Qed.

Lemma fs_dir_ib : outside fs_dir [] (IBLOCK (i_inum (ino fs_dir 3)) (fsb fs_dir)).
Proof.
  pose proof fs1_ib as (H1 & H2 & H3). split_and!; [|done|done].
  by apply (data_blk_inodes fs1).
Qed.

Lemma dirlink_then_lookup_witness :
  exists s' cs' n', dirlink (fun _ => None) (fun _ => None) 3 [97; 98] 5 fs_dir = Ret 0 s' /\
    dir_ok s' 3 cs' n'.
Proof.
  destruct (dirlink_then_lookup (fun _ => None) (fun _ => None) fs_dir 3 [] 0 [97; 98] 5)
    as (s' & cs' & n' & off & R & Hd & _).
  - apply fs_dir_ok.
  - repeat constructor; lia.
  - lia.
  - lia.
  - intros off Hoff. assert (i_size (ino fs_dir 3) = 0) as E by reflexivity.
    assert (off = 0) as -> by lia. change (free_count fs_dir) with (free_count fs1).
    rewrite fs1_free. vm_compute. lia.
  - apply fs_dir_ib.
  - exact (fs0_room 8 ltac:(lia)).
  - reflexivity.
  - exists s', cs', n'. split; [exact R|exact Hd].
Defined.

(** [skipelem] returns 0 exactly when the path has no element left.
    Otherwise it removes the first element: the name buffer then denotes that
    element cut to DIRSIZ characters, the rest of the path has the remaining
    elements, does not start with a slash and is shorter than the path. *)
Theorem skipelem_splits path name :
  length name = Z.to_nat DIRSIZ -> Forall (fun c => c <> 0) path ->
  match skipelem path name with
  | None => elems path = []
  | Some (rest, name') => exists e, elems path = e :: elems rest /\ e <> [] /\
      dname name' = take (Z.to_nat DIRSIZ) e /\
      head rest <> Some slash /\ (length rest < length path)%nat
  end.
Proof.
  intros Hn Hp. pose proof (skipelem_ok path name Hn Hp) as H.
  destruct (skipelem path name) as [[rest name']|]; [|done].
  destruct H as (e & ? & ? & ? & _ & ? & ? & _). eauto 10.
Qed.

Lemma skipelem_splits_witness :
  exists rest name', skipelem [47; 47; 97; 47; 47; 98; 98] (replicate 14 7) = Some (rest, name') /\
    elems [47; 47; 97; 47; 47; 98; 98] = [97] :: elems rest /\ dname name' = [97].
Proof.
  pose proof (skipelem_splits [47; 47; 97; 47; 47; 98; 98] (replicate 14 7) eq_refl
                ltac:(repeat constructor; lia)) as H.
  exists [98; 98], ([97; 0] ++ replicate 12 7). split; [reflexivity|].
  destruct H as (e & E & _ & D & _).
  assert (e = [97]) as -> by (vm_compute in E; by simplify_eq).
  split; [exact E|exact D].
Defined.
