(* ===== verification/Pipe.v ===== *)
(** Pipes: xv6-public/pipe.c.

    A pipe is a ring of [PIPESIZE] bytes with two free-running 32-bit counters.
    [pipewrite] and [piperead] hold the pipe's lock except while they sleep, so
    a call is a sequence of critical sections: from the entry, or from the
    return of [sleep], to the next [sleep] or to the return. [pipewrite_sec]
    and [piperead_sec] are these sections; [pstep] interleaves the sections of
    any number of processes, with [pipeclose] and [kill].

    Theorems: the ring refines a bounded FIFO queue of bytes, wrap-around of
    the counters included ([piperead_fifo], [pipe_stream]); no wake-up is lost
    and a reader and a writer are never both left asleep ([pipe_no_lost_wakeup]);
    a writer and a reader that take turns move the whole buffer
    ([transfer_delivers]). *)

From Stdlib Require Import ZArith Lia.
From stdpp Require Import base strings gmap numbers list.
From S2P Require Import Prelude.

Open Scope Z_scope.

Abbreviation PIPESIZE := 512 (only parsing).

Record pipe := {
  pdata : list Z;
  nread : Z;
  nwrite : Z;
  readopen : bool;
  writeopen : bool;
}.

(** What [pipealloc] stores into a fresh page, whose contents are [junk]. *)
Definition pipe_init (junk : list Z) : pipe :=
  {| pdata := junk; nread := 0; nwrite := 0; readopen := true; writeopen := true |}.

(** The channels [&p->nread] and [&p->nwrite]. *)
Inductive pchan := ChRead | ChWrite.

#[export] Instance pchan_eq_dec : EqDecision pchan.
Proof. solve_decision. Defined.

(** How a critical section ends: with a return, or in [sleep] on a channel.
    [i] is the loop counter at that point and [wk] the channels on which the
    section called [wakeup]. *)
Inductive section (A : Type) :=
  | SRet (r : Z) (i : A) (p : pipe) (wk : list pchan)
  | SSleep (c : pchan) (i : A) (p : pipe) (wk : list pchan).
Arguments SRet {A} r i p wk.
Arguments SSleep {A} c i p wk.

(** [p->data[p->nwrite++ % PIPESIZE] = b] *)
Definition ppush (b : Z) (p : pipe) : pipe :=
  {| pdata := put8 (pdata p) (nwrite p mod PIPESIZE) b; nread := nread p;
     nwrite := u32 (nwrite p + 1); readopen := readopen p; writeopen := writeopen p |}.

(** [p->data[p->nread++ % PIPESIZE]] *)
Definition ppop (p : pipe) : Z * pipe :=
  (get8 (pdata p) (nread p mod PIPESIZE),
   {| pdata := pdata p; nread := u32 (nread p + 1);
      nwrite := nwrite p; readopen := readopen p; writeopen := writeopen p |}).

Definition pfull (p : pipe) : bool := nwrite p =? u32 (nread p + PIPESIZE).
Definition pempty (p : pipe) : bool := nread p =? nwrite p.

(** The loop of [pipewrite] of [n] bytes from byte [i] on; [rest] are the
    bytes [addr[i]], [addr[i+1]], ... still to be written. *)
Fixpoint pipewrite_loop (killed : bool) (rest : list Z) (i n : Z) (p : pipe) : section Z :=
  match rest with
  | [] => SRet n i p [ChRead]
  | b :: rest' =>
      if pfull p then
        if negb (readopen p) || killed then SRet (-1) i p []
        else SSleep ChWrite i p [ChRead]
      else pipewrite_loop killed rest' (i + 1) n (ppush b p)
  end.

Definition pipewrite_sec (killed : bool) (addr : list Z) (i : Z) (p : pipe) : section Z :=
  pipewrite_loop killed (drop (Z.to_nat i) addr) i (Z.of_nat (length addr)) p.

(** The copy loop of [piperead]. *)
Fixpoint piperead_copy (n : nat) (p : pipe) : list Z * pipe :=
  match n with
  | O => ([], p)
  | S n' =>
      if pempty p then ([], p)
      else let '(b, p1) := ppop p in
           let '(bs, p2) := piperead_copy n' p1 in (b :: bs, p2)
  end.

(** [piperead] of at most [n] bytes; the bytes stored to [addr] are the second
    component of the return. *)
Definition piperead_sec (killed : bool) (n : nat) (p : pipe) : section (list Z) :=
  if pempty p && writeopen p then
    if killed then SRet (-1) [] p []
    else SSleep ChRead [] p []
  else
    let '(bs, p') := piperead_copy n p in
    SRet (Z.of_nat (length bs)) bs p' [ChWrite].

(** [pipeclose]: the pipe, the channels woken, and whether its page is freed. *)
Definition pipeclose (p : pipe) (writable : bool) : pipe * list pchan * bool :=
  let '(p', wk) :=
    if writable then
      ({| pdata := pdata p; nread := nread p; nwrite := nwrite p;
          readopen := readopen p; writeopen := false |}, [ChRead])
    else
      ({| pdata := pdata p; nread := nread p; nwrite := nwrite p;
          readopen := false; writeopen := writeopen p |}, [ChWrite]) in
  (p', wk, negb (readopen p') && negb (writeopen p')).

(** ** The ring as a queue *)

(** Number of bytes in the ring. *)
Definition pcount (p : pipe) : Z := u32 (nwrite p - nread p).

Record pipe_ok (p : pipe) : Prop := {
  po_len : length (pdata p) = Z.to_nat PIPESIZE;
  po_bytes : Forall (fun b => 0 <= b < 256) (pdata p);
  po_rd : 0 <= nread p < 4294967296;
  po_wr : 0 <= nwrite p < 4294967296;
  po_cnt : pcount p <= PIPESIZE;
}.

(** The byte at distance [k] from the read position. *)
Definition pbyte (p : pipe) (k : nat) : Z :=
  get8 (pdata p) (u32 (nread p + Z.of_nat k) mod PIPESIZE).

(** The queue the ring represents, oldest byte first. *)
Definition contents (p : pipe) : list Z := pbyte p <$> seq 0 (Z.to_nat (pcount p)).

Lemma length_contents p : length (contents p) = Z.to_nat (pcount p).
Proof. unfold contents. by rewrite length_fmap, length_seq. Qed.

Lemma contents_length_Z p : Z.of_nat (length (contents p)) = pcount p.
Proof. rewrite length_contents. pose proof (u32_range (nwrite p - nread p)). unfold pcount. lia. Qed.

Lemma pfull_spec p : pipe_ok p -> pfull p = true <-> pcount p = PIPESIZE.
Proof.
  intros [_ _ Hr Hw Hc]. unfold pfull, pcount, u32 in *. rewrite Z.eqb_eq. dlia.
Qed.

Lemma pempty_spec p : pipe_ok p -> pempty p = true <-> pcount p = 0.
Proof.
  intros [_ _ Hr Hw Hc]. unfold pempty, pcount, u32 in *. rewrite Z.eqb_eq. dlia.
Qed.

Lemma pempty_contents p : pipe_ok p -> pempty p = true <-> contents p = [].
Proof.
  intros Hok. rewrite pempty_spec by done. rewrite <- contents_length_Z.
  destruct (contents p); simpl; split; intros; lia || done.
Qed.

(** Positions at distance below [PIPESIZE] are different slots of the ring;
    the counters' wrap-around does not disturb this since [PIPESIZE] divides
    2^32. *)
Lemma slot_inj r j k :
  0 <= j < PIPESIZE -> 0 <= k < PIPESIZE ->
  u32 (r + j) mod PIPESIZE = u32 (r + k) mod PIPESIZE -> j = k.
Proof. unfold u32. dlia. Qed.

Lemma ppush_ok b p :
  pipe_ok p -> pfull p = false -> 0 <= b < 256 ->
  pipe_ok (ppush b p) /\ contents (ppush b p) = contents p ++ [b] /\
  readopen (ppush b p) = readopen p /\ writeopen (ppush b p) = writeopen p.
Proof.
  intros Hok Hf Hb. pose proof (pfull_spec p Hok) as Hfs. rewrite Hf in Hfs.
  destruct Hok as [Hl Hby Hr Hw Hc].
  assert (Hlt : 0 <= pcount p < PIPESIZE).
  { pose proof (u32_range (nwrite p - nread p)). unfold pcount in *.
    destruct (decide (u32 (nwrite p - nread p) = PIPESIZE)); [naive_solver|lia]. }
  assert (Hc' : pcount (ppush b p) = pcount p + 1).
  { unfold pcount, ppush in *. cbn. unfold u32 in *. dlia. }
  split_and!; [split|..]; try done; cbn.
  - by rewrite length_put8.
  - by apply put8_ok.
  - apply u32_range.
  - rewrite Hc'. lia.
  - unfold contents. rewrite Hc'.
    replace (Z.to_nat (pcount p + 1)) with (Z.to_nat (pcount p) + 1)%nat by lia.
    rewrite seq_app, fmap_app. f_equal.
    + apply list_fmap_ext. intros i k Hk. apply lookup_seq in Hk as [-> Hk]. unfold pbyte. cbn.
      rewrite get8_put8 by (rewrite ?Hl; dlia).
      destruct (Z.eqb_spec (nwrite p mod PIPESIZE) (u32 (nread p + Z.of_nat i) mod PIPESIZE)) as [E|]; [|done].
      exfalso. enough (pcount p = Z.of_nat i) by lia.
      apply (slot_inj (nread p)); [lia|lia|]. rewrite <- E.
      unfold pcount. unfold u32. rewrite Zplus_mod_idemp_r.
      f_equal. rewrite Zplus_minus. by apply Z.mod_small.
    + cbn. f_equal. unfold pbyte. cbn.
      replace (u32 (nread p + Z.of_nat (Z.to_nat (pcount p)))) with (nwrite p).
      * rewrite get8_put8 by (rewrite ?Hl; dlia). rewrite Z.eqb_refl. by apply u8_small.
      * rewrite Z2Nat.id by lia. unfold pcount, u32. rewrite Zplus_mod_idemp_r, Zplus_minus.
        symmetry. by apply Z.mod_small.
Qed.

Lemma ppop_ok p :
  pipe_ok p -> pempty p = false ->
  pipe_ok (ppop p).2 /\ contents p = (ppop p).1 :: contents (ppop p).2 /\
  readopen (ppop p).2 = readopen p /\ writeopen (ppop p).2 = writeopen p.
Proof.
  intros Hok He. pose proof (pempty_spec p Hok) as Hes. rewrite He in Hes.
  destruct Hok as [Hl Hby Hr Hw Hc].
  assert (Hlt : 0 < pcount p).
  { pose proof (u32_range (nwrite p - nread p)). unfold pcount in *.
    destruct (decide (u32 (nwrite p - nread p) = 0)); [naive_solver|lia]. }
  assert (Hc' : pcount (ppop p).2 = pcount p - 1).
  { unfold pcount, ppop in *. cbn. unfold u32 in *. dlia. }
  split_and!; [split|..]; try done.
  - apply u32_range.
  - rewrite Hc'. lia.
  - unfold contents. rewrite Hc'.
    replace (Z.to_nat (pcount p)) with (1 + Z.to_nat (pcount p - 1))%nat by lia.
    rewrite seq_app, fmap_app. cbn. f_equal.
    + unfold pbyte. rewrite Z.add_0_r, u32_small by lia. done.
    + rewrite <- fmap_S_seq, <- list_fmap_compose. apply list_fmap_ext. intros i k Hk.
      unfold pbyte, compose. cbn. f_equal. f_equal. rewrite u32_add_l. f_equal. lia.
Qed.

(** ** Critical sections on the queue *)

Abbreviation bytes l := (Forall (fun b => 0 <= b < 256) l).

(** A section of [pipewrite] appends the bytes it passes over to the queue. *)
Lemma pipewrite_loop_ok killed rest i n p :
  pipe_ok p -> bytes rest ->
  exists sent rest' p',
    rest = sent ++ rest' /\ pipe_ok p' /\ contents p' = contents p ++ sent /\
    readopen p' = readopen p /\ writeopen p' = writeopen p /\
    ((rest' = [] /\
      pipewrite_loop killed rest i n p = SRet n (i + Z.of_nat (length sent)) p' [ChRead]) \/
     (rest' <> [] /\ pcount p' = PIPESIZE /\
      pipewrite_loop killed rest i n p =
        if negb (readopen p) || killed then SRet (-1) (i + Z.of_nat (length sent)) p' []
        else SSleep ChWrite (i + Z.of_nat (length sent)) p' [ChRead])).
Proof.
  intros Hok Hb. revert i p Hok. induction Hb as [|b rest Hb Hrest IH]; intros i p Hok; cbn.
  - exists [], [], p. cbn. rewrite (app_nil_r (contents p)), Z.add_0_r. split_and!; auto.
  - destruct (pfull p) eqn:Hf.
    + exists [], (b :: rest), p. cbn. rewrite (app_nil_r (contents p)), Z.add_0_r. split_and!; try done.
      right. split_and!; [done|by apply pfull_spec|done].
    + destruct (ppush_ok b p Hok Hf Hb) as (Hok' & Hc & Hro & Hwo).
      destruct (IH (i + 1) (ppush b p) Hok') as (sent & rest' & p' & -> & ? & Hc' & Hr' & Hw' & Hcase).
      exists (b :: sent), rest', p'. rewrite Hc', Hc, <- app_assoc, Hr', Hw', Hro, Hwo.
      rewrite Hro in Hcase.
      replace (i + Z.of_nat (length (b :: sent))) with (i + 1 + Z.of_nat (length sent)) by (cbn; lia).
      eauto 10.
Qed.

(** The copy loop removes bytes from the front of the queue. *)
Lemma piperead_copy_ok n p :
  pipe_ok p ->
  let '(bs, p') := piperead_copy n p in
  pipe_ok p' /\ bs = take n (contents p) /\ contents p' = drop n (contents p) /\
  readopen p' = readopen p /\ writeopen p' = writeopen p.
Proof.
  revert p. induction n as [|n IH]; intros p Hok; cbn.
  - rewrite drop_0. done.
  - destruct (pempty p) eqn:He.
    + apply pempty_contents in He; [|done]. rewrite He. done.
    + destruct (ppop_ok p Hok He) as (Hok' & Hc & Hr & Hw).
      specialize (IH _ Hok'). cbn in IH. unfold ppop in Hc. cbn in Hc.
      destruct (piperead_copy n _) as [bs p2]. destruct IH as (? & -> & Hc2 & ? & ?).
      rewrite Hc. cbn. done.
Qed.

(** ** Processes around one pipe *)

(** A process outside the pipe code, in a call to [pipewrite] or [piperead]
    that is about to take or retake the lock, or asleep in such a call. *)
Inductive pst :=
  | Idle
  | Writing (addr : list Z) (i : Z)
  | WSleep (addr : list Z) (i : Z)
  | Reading (n : nat)
  | RSleep (n : nat).

(** [wakeup] of channel [c], on one process. *)
Definition wake1 (c : pchan) (x : pst) : pst :=
  match c, x with
  | ChWrite, WSleep a i => Writing a i
  | ChRead, RSleep n => Reading n
  | _, _ => x
  end.

Definition wake (wk : list pchan) (xs : list pst) : list pst :=
  foldl (fun xs c => wake1 c <$> xs) xs wk.

Record sys := {
  spipe : pipe;
  sproc : list pst;
  skilled : list bool;
  sent : list Z;      (** the bytes [pipewrite] calls have passed over, in order *)
  received : list Z;  (** the bytes [piperead] calls have stored, in order *)
}.

Definition sys_init (junk : list Z) (n : nat) : sys :=
  {| spipe := pipe_init junk; sproc := replicate n Idle; skilled := replicate n false;
     sent := []; received := [] |}.

(** No process is in a call that reads, or that writes. *)
Definition no_readers (xs : list pst) : Prop :=
  Forall (fun x => match x with Reading _ | RSleep _ => False | _ => True end) xs.
Definition no_writers (xs : list pst) : Prop :=
  Forall (fun x => match x with Writing _ _ | WSleep _ _ => False | _ => True end) xs.

(** One critical section, or one event from outside. A call needs a file
    descriptor on its end of the pipe, and [fileclose] calls [pipeclose] only
    for the last reference to an end; hence the guards of the calls and of the
    two closes. *)
Inductive pstep : sys -> sys -> Prop :=
  | step_call_write s k addr :
      sproc s !! k = Some Idle -> writeopen (spipe s) = true -> bytes addr ->
      pstep s {| spipe := spipe s; sproc := <[k := Writing addr 0]> (sproc s);
                 skilled := skilled s; sent := sent s; received := received s |}
  | step_call_read s k n :
      sproc s !! k = Some Idle -> readopen (spipe s) = true ->
      pstep s {| spipe := spipe s; sproc := <[k := Reading n]> (sproc s);
                 skilled := skilled s; sent := sent s; received := received s |}
  | step_write_ret s k addr i killed r i' p' wk :
      sproc s !! k = Some (Writing addr i) -> skilled s !! k = Some killed ->
      pipewrite_sec killed addr i (spipe s) = SRet r i' p' wk ->
      pstep s {| spipe := p'; sproc := wake wk (<[k := Idle]> (sproc s));
                 skilled := skilled s;
                 sent := sent s ++ take (Z.to_nat (i' - i)) (drop (Z.to_nat i) addr);
                 received := received s |}
  | step_write_sleep s k addr i killed c i' p' wk :
      sproc s !! k = Some (Writing addr i) -> skilled s !! k = Some killed ->
      pipewrite_sec killed addr i (spipe s) = SSleep c i' p' wk ->
      pstep s {| spipe := p'; sproc := <[k := WSleep addr i']> (wake wk (sproc s));
                 skilled := skilled s;
                 sent := sent s ++ take (Z.to_nat (i' - i)) (drop (Z.to_nat i) addr);
                 received := received s |}
  | step_read_ret s k n killed r bs p' wk :
      sproc s !! k = Some (Reading n) -> skilled s !! k = Some killed ->
      piperead_sec killed n (spipe s) = SRet r bs p' wk ->
      pstep s {| spipe := p'; sproc := wake wk (<[k := Idle]> (sproc s));
                 skilled := skilled s; sent := sent s; received := received s ++ bs |}
  | step_read_sleep s k n killed c bs p' wk :
      sproc s !! k = Some (Reading n) -> skilled s !! k = Some killed ->
      piperead_sec killed n (spipe s) = SSleep c bs p' wk ->
      pstep s {| spipe := p'; sproc := <[k := RSleep n]> (wake wk (sproc s));
                 skilled := skilled s; sent := sent s; received := received s ++ bs |}
  | step_close s (w : bool) p' wk fr :
      (if w then no_writers (sproc s) else no_readers (sproc s)) ->
      pipeclose (spipe s) w = (p', wk, fr) ->
      pstep s {| spipe := p'; sproc := wake wk (sproc s); skilled := skilled s;
                 sent := sent s; received := received s |}
  | step_kill s k :
      pstep s {| spipe := spipe s;
                 sproc := alter (fun x => wake1 ChRead (wake1 ChWrite x)) k (sproc s);
                 skilled := <[k := true]> (skilled s); sent := sent s; received := received s |}.

(** Reachable from a pipe just allocated. *)
Inductive preach (junk : list Z) (n : nat) : sys -> Prop :=
  | preach_init : preach junk n (sys_init junk n)
  | preach_step s s' : preach junk n s -> pstep s s' -> preach junk n s'.

(** What a process may be in, given the pipe: a sleeping writer has a full
    pipe with an open reader before it; a sleeping reader has an empty one with
    an open writer, unless some process was killed ([quiet] is false). *)
Definition pst_ok (quiet : Prop) (p : pipe) (x : pst) : Prop :=
  match x with
  | Idle => True
  | Reading _ => readopen p = true
  | Writing a i => bytes a /\ 0 <= i
  | WSleep a i => bytes a /\ 0 <= i /\ pcount p = PIPESIZE /\ readopen p = true
  | RSleep _ => readopen p = true /\ writeopen p = true /\ (quiet -> pcount p = 0)
  end.

Definition quiet (s : sys) : Prop := Forall (eq false) (skilled s).

Record sys_ok (s : sys) : Prop := {
  so_pipe : pipe_ok (spipe s);
  so_stream : sent s = received s ++ contents (spipe s);
  so_procs : Forall (pst_ok (quiet s) (spipe s)) (sproc s);
}.

Lemma pst_ok_wake1 q p c x : pst_ok q p x -> pst_ok q p (wake1 c x).
Proof. destruct c, x; cbn; naive_solver. Qed.

Lemma Forall_wake (P : pst -> Prop) wk xs :
  (forall c x, P x -> P (wake1 c x)) -> Forall P xs -> Forall P (wake wk xs).
Proof.
  intros Hw. revert xs. induction wk as [|c wk IH]; intros xs Hx; cbn; [done|].
  apply IH. rewrite Forall_fmap. eapply Forall_impl; [exact Hx|]. intros x. apply Hw.
Qed.

(** A change of the pipe keeps the processes in order when it wakes those it
    concerns. *)
Lemma pst_ok_wake q p p' wk xs :
  Forall (pst_ok q p) xs ->
  (forall x, pst_ok q p x -> pst_ok q p' (foldl (fun x c => wake1 c x) x wk)) ->
  Forall (pst_ok q p') (wake wk xs).
Proof.
  intros Hx Hp. replace (wake wk xs) with ((fun x => foldl (fun x c => wake1 c x) x wk) <$> xs).
  - rewrite Forall_fmap. eapply Forall_impl; [exact Hx|]. exact Hp.
  - clear Hx Hp. unfold wake. revert xs. induction wk as [|c wk IH]; intros xs; cbn.
    + by rewrite list_fmap_id.
    + rewrite <- IH, <- list_fmap_compose. done.
Qed.

Lemma sys_ok_init junk n :
  length junk = Z.to_nat PIPESIZE -> bytes junk -> sys_ok (sys_init junk n).
Proof.
  intros Hl Hb. split.
  - split; cbn [spipe sys_init pipe_init pdata nread nwrite]; try done; lia.
  - reflexivity.
  - by apply Forall_replicate.
Qed.

(** A section of [pipewrite], seen from the queue: the bytes it passes over
    are appended, and the way it ends is decided by the room left. *)
Lemma pipewrite_sec_ok killed addr i p :
  pipe_ok p -> bytes addr -> 0 <= i ->
  exists i' p',
    i <= i' /\ pipe_ok p' /\ readopen p' = readopen p /\ writeopen p' = writeopen p /\
    contents p' = contents p ++ take (Z.to_nat (i' - i)) (drop (Z.to_nat i) addr) /\
    pipewrite_sec killed addr i p =
      (if decide (drop (Z.to_nat i') addr = []) then SRet (Z.of_nat (length addr)) i' p' [ChRead]
       else if negb (readopen p) || killed then SRet (-1) i' p' []
       else SSleep ChWrite i' p' [ChRead]) /\
    (drop (Z.to_nat i') addr <> [] -> pcount p' = PIPESIZE).
Proof.
  intros Hok Hb Hi. unfold pipewrite_sec.
  destruct (pipewrite_loop_ok killed (drop (Z.to_nat i) addr) i (Z.of_nat (length addr)) p Hok)
    as (sn & rest' & p' & Hsn & Hok' & Hc & Hr & Hw & Hcase); [by apply Forall_drop|].
  exists (i + Z.of_nat (length sn)), p'.
  replace (Z.to_nat (i + Z.of_nat (length sn))) with (Z.to_nat i + length sn)%nat by lia.
  replace (Z.to_nat (i + Z.of_nat (length sn) - i)) with (length sn) by lia.
  assert (Hd : drop (length sn) (drop (Z.to_nat i) addr) = rest') by (by rewrite Hsn, drop_app_length).
  assert (Ht : take (length sn) (drop (Z.to_nat i) addr) = sn) by (by rewrite Hsn, take_app_length).
  rewrite <- drop_drop, Hd, Ht.
  split_and!; try done; try lia.
  - destruct Hcase as [[-> ->]|(Hne & _ & ->)]; [done|]. by rewrite decide_False.
  - destruct Hcase as [[-> _]|(_ & Hf & _)]; done.
Qed.

(** ** Every step keeps the system in order *)

Lemma pcount_contents p p' : contents p = contents p' -> pcount p = pcount p'.
Proof. intros H. by rewrite <- !contents_length_Z, H. Qed.

(** A full ring takes no more bytes. *)
Lemma full_no_room p p' bs :
  pipe_ok p' -> pcount p = PIPESIZE -> contents p' = contents p ++ bs -> pcount p' = PIPESIZE.
Proof.
  intros [_ _ _ _ Hc] Hp H. pose proof (contents_length_Z p). pose proof (contents_length_Z p').
  rewrite H, length_app in *. lia.
Qed.

Lemma quiet_lookup s k b : quiet s -> skilled s !! k = Some b -> b = false.
Proof. intros H Hk. by rewrite (Forall_lookup_1 _ _ _ _ H Hk). Qed.

Lemma write_sec_ok s k addr i killed i' p' :
  sys_ok s -> sproc s !! k = Some (Writing addr i) -> skilled s !! k = Some killed ->
  (forall r wk, pipewrite_sec killed addr i (spipe s) = SRet r i' p' wk ->
    sys_ok {| spipe := p'; sproc := wake wk (<[k := Idle]> (sproc s)); skilled := skilled s;
              sent := sent s ++ take (Z.to_nat (i' - i)) (drop (Z.to_nat i) addr);
              received := received s |}) /\
  (forall c wk, pipewrite_sec killed addr i (spipe s) = SSleep c i' p' wk ->
    sys_ok {| spipe := p'; sproc := <[k := WSleep addr i']> (wake wk (sproc s));
              skilled := skilled s;
              sent := sent s ++ take (Z.to_nat (i' - i)) (drop (Z.to_nat i) addr);
              received := received s |}).
Proof.
  intros [Hok Hst Hpr] Hk Hkl.
  destruct (Forall_lookup_1 _ _ _ _ Hpr Hk) as [Hb Hi].
  destruct (pipewrite_sec_ok killed addr i (spipe s) Hok Hb Hi)
    as (i1 & p1 & Hle & Hok1 & Hr & Hw & Hc & -> & Hfull).
  assert (Hwake : forall xs, Forall (pst_ok (quiet s) (spipe s)) xs ->
            Forall (pst_ok (quiet s) p1) (wake [ChRead] xs)).
  { intros xs Hxs. eapply pst_ok_wake; [exact Hxs|]. intros [| | | |] Hx; cbn in *; rewrite ?Hr; try done.
    - destruct Hx as (? & ? & ? & ?). split_and!; try done. by eapply full_no_room.
    - by destruct Hx. }
  assert (Hstr : sent s ++ take (Z.to_nat (i1 - i)) (drop (Z.to_nat i) addr) =
                 received s ++ contents p1) by (by rewrite Hc, Hst, app_assoc).
  split; intros x wk; (destruct (decide (drop (Z.to_nat i1) addr = [])) as [Hd|Hd]; [|destruct (negb _ || _) eqn:Hq]);
    intros; simplify_eq; split; cbn; try done.
  - apply Hwake. by apply Forall_insert.
  - apply Forall_insert; [|done]. eapply Forall_impl; [exact Hpr|]. intros [| | | |] Hx; cbn in *; rewrite ?Hr, ?Hw; try done.
    + destruct Hx as (? & ? & ? & ?). split_and!; try done. by eapply full_no_room.
    + destruct Hx as (Hro & ? & ?). split_and!; try done. intros HQ.
      rewrite Hro, (quiet_lookup _ _ _ HQ Hkl) in Hq. done.
  - apply Forall_insert; [by apply Hwake|]. cbn. rewrite Hr. apply orb_false_iff in Hq as [Hq _].
    split_and!; try done; [lia|by apply Hfull|by destruct (readopen (spipe s))].
Qed.

Lemma read_sec_ok s k n killed bs p' :
  sys_ok s -> sproc s !! k = Some (Reading n) -> skilled s !! k = Some killed ->
  (forall r wk, piperead_sec killed n (spipe s) = SRet r bs p' wk ->
    sys_ok {| spipe := p'; sproc := wake wk (<[k := Idle]> (sproc s)); skilled := skilled s;
              sent := sent s; received := received s ++ bs |}) /\
  (forall c wk, piperead_sec killed n (spipe s) = SSleep c bs p' wk ->
    sys_ok {| spipe := p'; sproc := <[k := RSleep n]> (wake wk (sproc s));
              skilled := skilled s; sent := sent s; received := received s ++ bs |}).
Proof.
  intros [Hok Hst Hpr] Hk Hkl. pose proof (Forall_lookup_1 _ _ _ _ Hpr Hk) as Hro. cbn in Hro.
  unfold piperead_sec. destruct (pempty (spipe s) && writeopen (spipe s)) eqn:Hew.
  - apply andb_true_iff in Hew as [He Hw]. apply pempty_spec in He; [|done].
    destruct killed; split; intros ? ? ?; simplify_eq; split; cbn; rewrite ?app_nil_r; try done.
    + by apply Forall_insert.
    + by apply Forall_insert.
  - pose proof (piperead_copy_ok n _ Hok) as Hcp. destruct (piperead_copy n (spipe s)) as [bs1 p1].
    destruct Hcp as (Hok1 & -> & Hc1 & Hr1 & Hw1). split; intros ? ? ?; simplify_eq. split; cbn; try done.
    + by rewrite Hc1, Hst, <- app_assoc, take_drop.
    + apply (pst_ok_wake (quiet s) (spipe s) p' [ChWrite]); [by apply Forall_insert|].
      intros [| | | |] Hx; cbn in *; rewrite ?Hr1, ?Hw1; try naive_solver.
      destruct Hx as (? & ? & Hq). split_and!; try done. intros HQ. specialize (Hq HQ).
      rewrite <- contents_length_Z in Hq |- *. rewrite Hc1, length_drop. lia.
Qed.

Lemma Forall_and_wake (P : pst -> Prop) q p xs :
  Forall P xs -> Forall (pst_ok q p) xs -> Forall (fun x => P x /\ pst_ok q p x) xs.
Proof. rewrite Forall_and. done. Qed.

Lemma sys_ok_step s s' : sys_ok s -> pstep s s' -> sys_ok s'.
Proof.
  intros Hs Hstep. inversion Hstep as
    [? k addr Hk Ho Hb|? k n Hk Ho|? k addr i kd r i' p' wk Hk Hkl E|? k addr i kd c i' p' wk Hk Hkl E
    |? k n kd r bs p' wk Hk Hkl E|? k n kd c bs p' wk Hk Hkl E|? w p' wk fr Hg E|? k]; subst.
  - destruct Hs as [Hok Hst Hpr]. split; cbn; try done. apply Forall_insert; [done|]. split; [done|lia].
  - destruct Hs as [Hok Hst Hpr]. split; cbn; try done. by apply Forall_insert.
  - by eapply write_sec_ok.
  - by eapply write_sec_ok.
  - by eapply read_sec_ok.
  - by eapply read_sec_ok.
  - destruct Hs as [[Hl Hby Hr Hw Hc] Hst Hpr]. unfold pipeclose in E.
    destruct w; simplify_eq; split; try (by split); try done; cbn; rewrite Forall_fmap;
      (eapply Forall_impl; [exact (Forall_and_wake _ _ _ _ Hg Hpr)|]);
      intros [| | | |] [Hx Hy]; cbn in *; naive_solver.
  - destruct Hs as [Hok Hst Hpr]. split; [done|done|]. cbn [sproc spipe].
    apply Forall_alter.
    + eapply Forall_impl; [exact Hpr|]. intros [| | | |]; cbn; try done.
      intros (? & ? & Hq). split_and!; try done. intros HQ. apply Hq.
      unfold quiet in HQ. cbn in HQ. destruct (decide (k < length (skilled s))%nat) as [Hk|Hk].
      * pose proof (list_lookup_insert_eq (skilled s) k true Hk) as Hl.
        discriminate (Forall_lookup_1 _ _ _ _ HQ Hl).
      * by rewrite list_insert_ge in HQ by lia.
    + intros x _ Hx. by do 2 apply pst_ok_wake1.
Qed.

Lemma preach_ok junk n s :
  length junk = Z.to_nat PIPESIZE -> bytes junk -> preach junk n s -> sys_ok s.
Proof.
  intros Hl Hb. induction 1 as [|s s' _ IH Hst]; [by apply sys_ok_init|by eapply sys_ok_step].
Qed.

(** ** Properties *)

(** C6. At every moment, whatever processes read, write, close or are
    killed in whatever order, the bytes handed to readers followed by the at
    most [PIPESIZE] bytes in the ring are exactly the bytes written so far, in
    order: a pipe neither loses, duplicates nor reorders bytes. *)
Theorem pipe_stream junk n s :
  length junk = Z.to_nat PIPESIZE -> bytes junk -> preach junk n s ->
  sent s = received s ++ contents (spipe s) /\
  Z.of_nat (length (contents (spipe s))) <= PIPESIZE.
Proof.
  intros Hl Hb Hr. destruct (preach_ok _ _ _ Hl Hb Hr) as [[_ _ _ _ Hc] Hst _].
  by rewrite contents_length_Z.
Qed.

(** C19. As long as no process was killed, a process asleep in
    [piperead] faces an empty pipe with an open writer and one asleep in
    [pipewrite] a full pipe with an open reader (the latter whether or not any
    was killed). So no wake-up is missed, and a reader and a writer are never
    asleep at the same time. *)
Theorem pipe_no_lost_wakeup junk n s :
  length junk = Z.to_nat PIPESIZE -> bytes junk -> preach junk n s ->
  (forall k a i, sproc s !! k = Some (WSleep a i) ->
     pfull (spipe s) = true /\ readopen (spipe s) = true) /\
  (quiet s -> forall k m, sproc s !! k = Some (RSleep m) ->
     pempty (spipe s) = true /\ writeopen (spipe s) = true /\
     forall k' a i, sproc s !! k' <> Some (WSleep a i)).
Proof.
  intros Hl Hb Hr. destruct (preach_ok _ _ _ Hl Hb Hr) as [Hok _ Hp].
  assert (HW : forall k a i, sproc s !! k = Some (WSleep a i) ->
            pcount (spipe s) = PIPESIZE /\ readopen (spipe s) = true).
  { intros k a i Hk. destruct (Forall_lookup_1 _ _ _ _ Hp Hk) as (_ & _ & ? & ?). done. }
  split.
  - intros k a i Hk. destruct (HW _ _ _ Hk). by rewrite pfull_spec.
  - intros Hq k m Hk. destruct (Forall_lookup_1 _ _ _ _ Hp Hk) as (_ & Hw & Hc).
    specialize (Hc Hq). split_and!; [by apply pempty_spec|done|].
    intros k' a i Hk'. destruct (HW _ _ _ Hk'). lia.
Qed.

(** [piperead] on the queue: an empty pipe with an open writer
    makes the caller sleep (or return -1 when killed); otherwise the call
    returns the first [n] bytes of the queue, or all of it when it is shorter
    (none at end of file), and wakes the writers. *)
Theorem piperead_fifo killed n p :
  pipe_ok p ->
  (contents p = [] -> writeopen p = true ->
   piperead_sec killed n p = if killed then SRet (-1) [] p [] else SSleep ChRead [] p []) /\
  (contents p <> [] \/ writeopen p = false ->
   exists p', piperead_sec killed n p =
       SRet (Z.min (Z.of_nat n) (Z.of_nat (length (contents p)))) (take n (contents p)) p' [ChWrite] /\
     pipe_ok p' /\ contents p' = drop n (contents p)).
Proof.
  intros Hok. unfold piperead_sec. split.
  - intros Hc Hw. rewrite (proj2 (pempty_contents p Hok) Hc), Hw. done.
  - intros Hc. destruct (pempty p && writeopen p) eqn:E.
    { apply andb_true_iff in E as [E1 E2]. apply pempty_contents in E1; [|done].
      destruct Hc; congruence. }
    pose proof (piperead_copy_ok n p Hok) as Hcp. destruct (piperead_copy n p) as [bs p'].
    destruct Hcp as (? & -> & ? & _). exists p'. split_and!; try done.
    rewrite length_take. f_equal. lia.
Qed.

(** A writer of [addr] and a reader of [n] bytes at a time taking turns: the
    value [pipewrite] returns, the bytes read meanwhile and the pipe. *)
Fixpoint transfer (fuel n : nat) (addr : list Z) (i : Z) (p : pipe) (got : list Z)
  : option (Z * list Z * pipe) :=
  match fuel with
  | O => None
  | S f =>
      match pipewrite_sec false addr i p with
      | SRet r _ p' _ => Some (r, got, p')
      | SSleep _ i' p' _ =>
          match piperead_sec false n p' with
          | SRet _ bs p'' _ => transfer f n addr i' p'' (got ++ bs)
          | SSleep _ _ _ _ => None
          end
      end
  end.

Lemma transfer_ok fuel n addr i p got :
  pipe_ok p -> bytes addr -> readopen p = true -> (0 < n)%nat -> 0 <= i ->
  got ++ contents p = take (Z.to_nat i) addr ->
  (length addr - length got < fuel)%nat ->
  exists got' p', transfer fuel n addr i p got = Some (Z.of_nat (length addr), got', p') /\
    got' ++ contents p' = addr.
Proof.
  intros Hok Hb Hro Hn. revert i p got Hok Hro.
  induction fuel as [|fuel IH]; intros i p got Hok Hro Hi Hg Hf; [lia|]. cbn [transfer].
  destruct (pipewrite_sec_ok false addr i p Hok Hb Hi)
    as (i' & p' & Hle & Hok' & Hro' & _ & Hc & -> & Hfull).
  rewrite Hro. cbn [negb orb].
  assert (Hg' : got ++ contents p' = take (Z.to_nat i') addr).
  { rewrite Hc, app_assoc, Hg.
    replace (Z.to_nat i') with (Z.to_nat i + Z.to_nat (i' - i))%nat by lia.
    by rewrite take_take_drop. }
  case_decide as Hd.
  - exists got, p'. split; [done|]. rewrite Hg'. apply take_ge.
    pose proof (length_drop addr (Z.to_nat i')) as Hl. rewrite Hd in Hl. cbn in Hl. lia.
  - specialize (Hfull Hd). unfold piperead_sec.
    assert (pempty p' = false) as ->.
    { apply not_true_iff_false. rewrite pempty_spec by done. lia. }
    pose proof (piperead_copy_ok n p' Hok') as Hcp. cbn [andb].
    destruct (piperead_copy n p') as [bs p'']. destruct Hcp as (Hok2 & -> & Hc2 & Hro2 & _).
    pose proof (contents_length_Z p') as Hcl.
    apply IH; try done; [by rewrite Hro2, Hro'|lia| |].
    + by rewrite Hc2, <- app_assoc, take_drop.
    + apply (f_equal length) in Hg'. rewrite length_app, length_take in *. lia.
Qed.

(** When a reader that asks for at least one byte at a time and a
    writer take turns, a [pipewrite] of any length, beyond the size of the ring
    too, returns its whole length, and what the reader got followed by what is
    left in the ring is the written buffer. *)
Theorem transfer_delivers n addr p :
  pipe_ok p -> contents p = [] -> readopen p = true -> bytes addr -> (0 < n)%nat ->
  exists got p',
    transfer (S (length addr)) n addr 0 p [] = Some (Z.of_nat (length addr), got, p') /\
    got ++ contents p' = addr.
Proof.
  intros Hok Hc Hro Hb Hn. apply transfer_ok; try done; try (cbn; lia).
Qed.

(** ** Concrete pipes *)

Definition junk0 : list Z := replicate (Z.to_nat PIPESIZE) 0.

Lemma junk0_ok : length junk0 = Z.to_nat PIPESIZE /\ bytes junk0.
Proof. split; [apply length_replicate|]. apply Forall_replicate. lia. Qed.

(** A ring whose counters are about to wrap, with three bytes in it. *)
Definition pipe_wrap : pipe :=
  {| pdata := put8 (put8 (put8 junk0 510 7) 511 8) 0 9; nread := 4294967294; nwrite := 1;
     readopen := true; writeopen := true |}.

Lemma pipe_wrap_ok : pipe_ok pipe_wrap.
Proof.
  split.
  - reflexivity.
  - unfold pipe_wrap. cbn [pdata]. do 3 apply put8_ok. apply junk0_ok.
  - cbn. lia.
  - cbn. lia.
  - vm_compute. discriminate.
Qed.

Lemma piperead_fifo_witness :
  pipe_ok pipe_wrap /\
  exists p', piperead_sec false 2 pipe_wrap = SRet 2 [7; 8] p' [ChWrite] /\ contents p' = [9].
Proof.
  split; [exact pipe_wrap_ok|].
  destruct (proj2 (piperead_fifo false 2 pipe_wrap pipe_wrap_ok)) as (p' & H & _ & Hc).
  { left. vm_compute. discriminate. }
  exists p'. split; [rewrite H; reflexivity|]. rewrite Hc. reflexivity.
Defined.

Lemma transfer_delivers_witness :
  exists got p', transfer 1300 100 (replicate 1299 5) 0 (pipe_init junk0) [] =
    Some (1299, got, p') /\ got ++ contents p' = replicate 1299 5.
Proof.
  apply (transfer_delivers 100 (replicate 1299 5) (pipe_init junk0)).
  - destruct junk0_ok. split; cbn [pipe_init pdata nread nwrite]; try done; lia.
  - reflexivity.
  - reflexivity.
  - apply Forall_replicate. lia.
  - lia.
Defined.

(** Two processes; the second writes three bytes, the first reads two. *)
Definition sys_rw : sys :=
  {| spipe := {| pdata := put8 (put8 (put8 junk0 0 7) 1 8) 2 9; nread := 2; nwrite := 3;
                 readopen := true; writeopen := true |};
     sproc := [Idle; Idle]; skilled := [false; false]; sent := [7; 8; 9]; received := [7; 8] |}.

Lemma preach_to junk n s s1 s2 :
  preach junk n s -> pstep s s1 -> s1 = s2 -> preach junk n s2.
Proof. intros ? ? <-. by eapply preach_step. Qed.

Lemma sys_rw_reach : preach junk0 2 sys_rw.
Proof.
  eapply preach_to; [eapply preach_step; [eapply preach_step; [eapply preach_step;
    [apply preach_init|]|]|]| |].
  - apply (step_call_write _ 1 [7; 8; 9]); [reflexivity..|]. repeat constructor; lia.
  - eapply (step_write_ret _ 1); [reflexivity..|]. reflexivity.
  - apply (step_call_read _ 0 2); reflexivity.
  - eapply (step_read_ret _ 0 2); [reflexivity..|]. reflexivity.
  - vm_compute. reflexivity.
Qed.

Lemma pipe_stream_witness :
  preach junk0 2 sys_rw /\ sent sys_rw = received sys_rw ++ contents (spipe sys_rw).
Proof.
  split; [exact sys_rw_reach|].
  apply (pipe_stream junk0 2 sys_rw); [apply junk0_ok..|exact sys_rw_reach].
Defined.

(** A reader asleep before an empty pipe. *)
Definition sys_sleep : sys :=
  {| spipe := pipe_init junk0; sproc := [RSleep 2; Idle]; skilled := [false; false];
     sent := []; received := [] |}.

Lemma sys_sleep_reach : preach junk0 2 sys_sleep.
Proof.
  eapply preach_to; [eapply preach_step; [apply preach_init|]| |].
  - apply (step_call_read _ 0 2); reflexivity.
  - eapply (step_read_sleep _ 0 2); [reflexivity..|]. reflexivity.
  - vm_compute. reflexivity.
Qed.

Lemma pipe_no_lost_wakeup_witness :
  preach junk0 2 sys_sleep /\ pempty (spipe sys_sleep) = true /\ writeopen (spipe sys_sleep) = true.
Proof.
  split; [exact sys_sleep_reach|].
  destruct (pipe_no_lost_wakeup junk0 2 sys_sleep) as [_ H]; [apply junk0_ok..|exact sys_sleep_reach|].
  destruct (H ltac:(repeat constructor) 0%nat 2%nat eq_refl) as (? & ? & _). done.
Defined.

(** ** A writer killed while it fills the ring *)

(** The state reached when process 0 sleeps in [piperead], process 1 calls
    [pipewrite] with 513 bytes, is killed, and then finds the ring full. *)
Definition sys_killed : sys :=
  {| spipe := {| pdata := replicate (Z.to_nat PIPESIZE) 5; nread := 0; nwrite := 512;
                 readopen := true; writeopen := true |};
     sproc := [RSleep 2; Idle]; skilled := [false; true];
     sent := replicate 512 5; received := [] |}.

(** The return of [pipewrite] on the path of a killed process does
    not call [wakeup]: there is a run after which a reader sleeps on the read
    channel although the ring is full, with the writer back out of the pipe
    code and the write end still open for other processes. *)
Theorem pipewrite_killed_no_wakeup :
  exists s, preach junk0 2 s /\
    sproc s !! 0%nat = Some (RSleep 2) /\ sproc s !! 1%nat = Some Idle /\
    pfull (spipe s) = true /\ writeopen (spipe s) = true.
Proof.
  exists sys_killed. split; [|by split_and!].
  eapply preach_to; [eapply preach_step; [eapply preach_step; [exact sys_sleep_reach|]|]| |].
  - apply (step_call_write _ 1 (replicate 513 5)); [reflexivity..|]. apply Forall_replicate. lia.
  - apply (step_kill _ 1).
  - eapply (step_write_ret _ 1); [reflexivity..|]. vm_compute. reflexivity.
  - vm_compute. reflexivity.
Qed.
