(* ===== verification/Spin.v ===== *)
(** Kernel spin locks and interrupt nesting: xv6-public/spinlock.c.

    Several processors run code that acquires and releases any number of
    locks. A step ([spin_step]) is one access to shared memory, so the reads of
    [holding], the [xchg] of the spin loop and the stores of [release] of
    different processors interleave in every way. [pushcli] and [popcli] act on
    the processor's own state and are part of the step beside them.

    Theorems: at most one processor is between the successful [xchg] and the
    store that clears [locked] ([spin_mutex]); the panics of [acquire] and
    [release] are raised only by a processor that acquires a lock it has or
    releases one it has not, however [holding]'s two reads race with others
    ([spin_panic_iff_misuse]); interrupts are off while a lock is held and come
    back as they were when the last one is released ([spin_interrupts]). *)

From Stdlib Require Import ZArith Lia.
From stdpp Require Import base strings gmap numbers list.
From S2P Require Import Prelude.

Open Scope Z_scope.

Record spinlock := { locked : Z; lcpu : option nat }.

Definition initlock : spinlock := {| locked := 0; lcpu := None |}.

(** Where a processor is. [AcqLocked] and [AcqCpu] are the two reads of
    [holding] inside [acquire l], [AcqXchg] the spin loop, [AcqSet] the store
    of [lk->cpu]; [RelLocked] and [RelCpu] are the reads inside [release l],
    [RelClear] the store [lk->cpu = 0], [RelUnlock] the [movl] that clears
    [lk->locked] and [RelPop] the final [popcli]. *)
Inductive cpu_pc :=
  | Run
  | AcqLocked (l : nat) | AcqCpu (l : nat) | AcqXchg (l : nat) | AcqSet (l : nat)
  | RelLocked (l : nat) | RelCpu (l : nat) | RelClear (l : nat) | RelUnlock (l : nat) | RelPop (l : nat)
  | Halted (msg : string).

(** The parts of [struct cpu] the locks use, with the interrupt flag FL_IF.
    [held] lists the locks acquired and not yet released (most recent first):
    no code reads it. *)
Record cpu := { pc : cpu_pc; ncli : Z; intena : bool; iflag : bool; held : list nat }.

Definition set_pc (p : cpu_pc) (c : cpu) : cpu :=
  {| pc := p; ncli := ncli c; intena := intena c; iflag := iflag c; held := held c |}.
Definition set_held (h : list nat) (c : cpu) : cpu :=
  {| pc := pc c; ncli := ncli c; intena := intena c; iflag := iflag c; held := h |}.

Definition pushcli (c : cpu) : cpu :=
  {| pc := pc c; ncli := ncli c + 1;
     intena := if ncli c =? 0 then iflag c else intena c;
     iflag := false; held := held c |}.

Definition popcli (c : cpu) : string + cpu :=
  if iflag c then inl "popcli - interruptible"
  else if ncli c - 1 <? 0 then inl "popcli"
  else inr {| pc := pc c; ncli := ncli c - 1; intena := intena c;
              iflag := (ncli c - 1 =? 0) && intena c; held := held c |}.

(** Continue at [p] after a [popcli], or stop in its panic. *)
Definition after_pop (p : cpu_pc) (c : cpu) : cpu :=
  match popcli c with inl m => set_pc (Halted m) c | inr c' => set_pc p c' end.

(** [mycpu] panics when interrupts are on. *)
Definition with_mycpu (k : cpu -> cpu) (c : cpu) : cpu :=
  if iflag c then set_pc (Halted "mycpu called with interrupts enabled") c else k c.

Record machine := { cpus : list cpu; lks : list spinlock }.

Definition lk (m : machine) (l : nat) : spinlock := default initlock (lks m !! l).

(** A processor's next access. In [Run] it may begin [acquire l] or
    [release l] for any lock, which is the argument [op] ([inl] acquire,
    [inr] release); elsewhere [op] is not read. *)
Definition cpu_next (op : nat + nat) (me : nat) (m : machine) (c : cpu) : cpu * list spinlock :=
  match pc c with
  | Run =>
      match op with
      | inl l => (set_pc (AcqLocked l) (pushcli (pushcli c)), lks m)
      | inr l => (set_pc (RelLocked l) (pushcli c), lks m)
      end
  | AcqLocked l =>
      if locked (lk m l) =? 0 then (after_pop (AcqXchg l) c, lks m)
      else (set_pc (AcqCpu l) c, lks m)
  | AcqCpu l =>
      (with_mycpu (fun c =>
         if decide (lcpu (lk m l) = Some me) then set_pc (Halted "acquire") c
         else after_pop (AcqXchg l) c) c, lks m)
  | AcqXchg l =>
      (if locked (lk m l) =? 0 then set_pc (AcqSet l) c else c,
       <[l := {| locked := 1; lcpu := lcpu (lk m l) |}]> (lks m))
  | AcqSet l =>
      if iflag c then (set_pc (Halted "mycpu called with interrupts enabled") c, lks m)
      else (set_held (l :: held c) (set_pc Run c),
            <[l := {| locked := locked (lk m l); lcpu := Some me |}]> (lks m))
  | RelLocked l =>
      if locked (lk m l) =? 0 then (set_pc (Halted "release") c, lks m)
      else (set_pc (RelCpu l) c, lks m)
  | RelCpu l =>
      (with_mycpu (fun c =>
         if decide (lcpu (lk m l) = Some me) then after_pop (RelClear l) c
         else set_pc (Halted "release") c) c, lks m)
  | RelClear l =>
      (set_pc (RelUnlock l) c,
       <[l := {| locked := locked (lk m l); lcpu := None |}]> (lks m))
  | RelUnlock l =>
      (set_held (filter (fun x => x <> l) (held c)) (set_pc (RelPop l) c),
       <[l := {| locked := 0; lcpu := lcpu (lk m l) |}]> (lks m))
  | RelPop l => (after_pop Run c, lks m)
  | Halted _ => (c, lks m)
  end.

(** One step of processor [i]; locks are named by their index. *)
Inductive spin_step : machine -> machine -> Prop :=
  | spin_step_cpu m i c op :
      cpus m !! i = Some c ->
      (forall l, op = inl l \/ op = inr l -> (l < length (lks m))%nat) ->
      spin_step m {| cpus := <[i := (cpu_next op i m c).1]> (cpus m);
                     lks := (cpu_next op i m c).2 |}.

(** Processors outside all lock code, with interrupt flags [ifs]. *)
Definition spin_init (ifs : list bool) (n : nat) : machine :=
  {| cpus := (fun b => {| pc := Run; ncli := 0; intena := false; iflag := b; held := [] |}) <$> ifs;
     lks := replicate n initlock |}.

Inductive spin_reach (ifs : list bool) (n : nat) : machine -> Prop :=
  | spin_reach_init : spin_reach ifs n (spin_init ifs n)
  | spin_reach_step m m' : spin_reach ifs n m -> spin_step m m' -> spin_reach ifs n m'.

(** [getcallerpcs]: [rd] reads a word of memory; follows the chain of saved
    frame pointers for at most ten frames and pads with 0. *)
Fixpoint getcallerpcs_loop (rd : Z -> Z) (n : nat) (ebp : Z) : list Z :=
  match n with
  | O => []
  | S n' =>
      if (ebp =? 0) || (ebp <? KERNBASE) || (ebp =? 4294967295) then replicate (S n') 0
      else rd (u32 (ebp + 4)) :: getcallerpcs_loop rd n' (rd ebp)
  end.
Definition getcallerpcs (rd : Z -> Z) (v : Z) : list Z := getcallerpcs_loop rd 10 (u32 (v - 8)).

(** ** Ownership *)

(** The lock a processor owns because of where it is, beyond those in [held]. *)
Definition owns (c : cpu) (l : nat) : bool :=
  match pc c with
  | AcqSet l' => bool_decide (l = l')
  | _ => false
  end || bool_decide (l ∈ held c).

(** The lock's [cpu] field names this processor while it owns the lock and is
    neither before [AcqSet] nor past [RelClear]. *)
Definition named (c : cpu) (l : nat) : bool :=
  bool_decide (l ∈ held c) &&
  match pc c with RelUnlock l' => negb (bool_decide (l = l')) | _ => true end.

(** How often the code between [pushcli] and its [popcli] is entered at [pc]. *)
Definition pend (p : cpu_pc) : Z :=
  match p with
  | Run => 0
  | AcqLocked _ | AcqCpu _ => 2
  | AcqXchg _ | AcqSet _ => 1
  | RelLocked _ | RelCpu _ => 1
  | RelClear _ | RelUnlock _ => 0
  | RelPop _ => 1
  | Halted _ => 0
  end.

(** ** Invariant *)

(** A processor's own state: [b] is its interrupt flag outside all locks. *)
Definition pc_lock (p : cpu_pc) : option nat :=
  match p with
  | Run | Halted _ => None
  | AcqLocked l | AcqCpu l | AcqXchg l | AcqSet l
  | RelLocked l | RelCpu l | RelClear l | RelUnlock l | RelPop l => Some l
  end.

Record cpu_ok (n : nat) (b : bool) (c : cpu) : Prop := {
  co_nodup : NoDup (held c);
  co_held : forall l, l ∈ held c -> (l < n)%nat;
  co_pc : forall l, pc_lock (pc c) = Some l -> (l < n)%nat;
  co_acq : forall l, pc c = AcqXchg l \/ pc c = AcqSet l -> l ∉ held c;
  co_rel : forall l, pc c = RelClear l \/ pc c = RelUnlock l -> l ∈ held c;
  co_ncli : (forall s, pc c <> Halted s) -> ncli c = Z.of_nat (length (held c)) + pend (pc c);
  co_if : (forall s, pc c <> Halted s) ->
    if ncli c =? 0 then iflag c = b else iflag c = false /\ intena c = b;
}.

Record lock_ok (m : machine) (l : nat) : Prop := {
  lo_val : locked (lk m l) = 0 \/ locked (lk m l) = 1;
  lo_own : forall i c, cpus m !! i = Some c -> owns c l = true ->
    locked (lk m l) = 1 /\ forall j c', cpus m !! j = Some c' -> owns c' l = true -> j = i;
  lo_cpu : forall i c, cpus m !! i = Some c -> named c l = true <-> lcpu (lk m l) = Some i;
}.

Record mach_ok (ifs : list bool) (n : nat) (m : machine) : Prop := {
  mo_len : length (lks m) = n;
  mo_cpus : Forall2 (cpu_ok n) ifs (cpus m);
  mo_locks : forall l, (l < n)%nat -> lock_ok m l;
}.

Lemma mach_ok_init ifs n : mach_ok ifs n (spin_init ifs n).
Proof.
  split; cbn.
  - apply length_replicate.
  - apply Forall2_fmap_r, Forall_Forall2_diag, Forall_forall. intros b _. split; cbn; try done.
    + apply NoDup_nil_2.
    + intros l Hl. by apply elem_of_nil in Hl.
    + by intros l [?|?].
    + by intros l [?|?].
  - intros l Hl.
    assert (lk (spin_init ifs n) l = initlock) as Hk.
    { unfold lk. cbn. by rewrite lookup_replicate_2. }
    split; rewrite ?Hk; cbn; auto; intros i c Hc; apply list_lookup_fmap_Some in Hc as (b & -> & _); done.
Qed.

(** The two facts about nesting: the first [pushcli] saves the flag, the
    last [popcli] puts it back. *)
Definition nest (b : bool) (k : Z) (c : cpu) : Prop :=
  ncli c = k /\ 0 <= k /\ if k =? 0 then iflag c = b else iflag c = false /\ intena c = b.

Lemma pushcli_nest b k c : nest b k c -> nest b (k + 1) (pushcli c).
Proof.
  intros (<- & Hk & Hi). unfold nest, pushcli. cbn. split_and!; [done|lia|].
  destruct (Z.eqb_spec (ncli c + 1) 0); [lia|]. split; [done|].
  destruct (Z.eqb_spec (ncli c) 0); [done|by destruct Hi].
Qed.

Lemma after_pop_nest b k c p :
  nest b (k + 1) c -> 0 <= k ->
  nest b k (after_pop p c) /\ pc (after_pop p c) = p /\ held (after_pop p c) = held c.
Proof.
  intros (Hn & _ & Hi) Hk. destruct (Z.eqb_spec (k + 1) 0) as [|Hz]; [lia|]. destruct Hi as [Hi1 Hi2].
  unfold after_pop, popcli. rewrite Hi1, Hn.
  destruct (Z.ltb_spec (k + 1 - 1) 0) as [|_]; [lia|].
  split_and!; try done. unfold nest. cbn. replace (k + 1 - 1) with k by lia.
  split_and!; try done. rewrite Hi2. by destruct (Z.eqb_spec k 0).
Qed.

Lemma cpu_ok_nest n b c :
  cpu_ok n b c -> (forall s, pc c <> Halted s) -> nest b (Z.of_nat (length (held c)) + pend (pc c)) c.
Proof.
  intros Hc Hp. pose proof (co_ncli _ _ _ Hc Hp) as Hn. pose proof (co_if _ _ _ Hc Hp) as Hi.
  unfold nest. rewrite <- Hn. split_and!; [done| |exact Hi].
  rewrite Hn. destruct (pc c); cbn; lia.
Qed.

(** Interrupts are off at every point between a [pushcli] and its [popcli]. *)
Lemma nest_off b k c : nest b k c -> 0 < k -> iflag c = false.
Proof. intros (_ & _ & H) Hk. destruct (Z.eqb_spec k 0); [lia|]. by destruct H. Qed.

(** Put a processor together again. *)
Lemma cpu_ok_intro n b c k :
  NoDup (held c) -> (forall l, l ∈ held c -> (l < n)%nat) ->
  (forall l, pc_lock (pc c) = Some l -> (l < n)%nat) ->
  (forall l, pc c = AcqXchg l \/ pc c = AcqSet l -> l ∉ held c) ->
  (forall l, pc c = RelClear l \/ pc c = RelUnlock l -> l ∈ held c) ->
  nest b k c -> k = Z.of_nat (length (held c)) + pend (pc c) -> cpu_ok n b c.
Proof.
  intros ? ? ? ? ? (Hn & Hk & Hi) E. split; try done; intros _; rewrite Hn; [done|].
  exact Hi.
Qed.

(** A step that neither takes nor gives a lock keeps the locks in order. *)
Lemma lock_ok_same m i c c' l :
  lock_ok m l -> cpus m !! i = Some c ->
  owns c' l = owns c l -> named c' l = named c l ->
  lock_ok {| cpus := <[i := c']> (cpus m); lks := lks m |} l.
Proof.
  intros [Hv Ho Hc] Hi Eo En.
  assert (Hl : forall j x, <[i := c']> (cpus m) !! j = Some x ->
            exists y, cpus m !! j = Some y /\ owns x l = owns y l /\ named x l = named y l).
  { intros j x Hx. destruct (decide (i = j)) as [<-|Hne].
    - rewrite list_lookup_insert_eq in Hx by (by eapply lookup_lt_Some). simplify_eq. eauto.
    - rewrite list_lookup_insert_ne in Hx by done. eauto. }
  split; unfold lk; cbn; [done| |].
  - intros j x Hx Hox. destruct (Hl j x Hx) as (y & Hy & Ey & _).
    destruct (Ho j y Hy) as [H1 H2]; [congruence|]. split; [done|].
    intros j' x' Hx' Hox'. destruct (Hl j' x' Hx') as (y' & Hy' & Ey' & _). apply (H2 j' y' Hy'). congruence.
  - intros j x Hx. destruct (Hl j x Hx) as (y & Hy & _ & ->). by apply Hc.
Qed.

(** ** Preservation *)

Lemma lk_insert_eq m l x cs :
  (l < length (lks m))%nat -> lk {| cpus := cs; lks := <[l := x]> (lks m) |} l = x.
Proof. intros H. unfold lk. cbn. by rewrite list_lookup_insert_eq. Qed.

Lemma lk_insert_ne m l l' x cs :
  l <> l' -> lk {| cpus := cs; lks := <[l := x]> (lks m) |} l' = lk m l'.
Proof. intros H. unfold lk. cbn. by rewrite list_lookup_insert_ne. Qed.

(** Other locks do not notice a step on [l]. *)
Lemma lock_ok_other m i c c' l l' x :
  lock_ok m l' -> cpus m !! i = Some c -> l <> l' ->
  owns c' l' = owns c l' -> named c' l' = named c l' ->
  lock_ok {| cpus := <[i := c']> (cpus m); lks := <[l := x]> (lks m) |} l'.
Proof.
  intros Hl Hi Hne Eo En. destruct (lock_ok_same m i c c' l' Hl Hi Eo En) as [Hv Ho Hc].
  split; rewrite lk_insert_ne by done; cbn in *; [exact Hv|exact Ho|exact Hc].
Qed.

Lemma insert_cases {A} (cs : list A) i c' j x :
  <[i := c']> cs !! j = Some x -> (j = i /\ x = c') \/ (j <> i /\ cs !! j = Some x).
Proof.
  intros H. destruct (decide (i = j)) as [<-|Hne].
  - left. split; [done|]. rewrite list_lookup_insert_eq in H by
      (apply lookup_lt_Some in H; by rewrite length_insert in H). congruence.
  - right. by rewrite list_lookup_insert_ne in H by done.
Qed.

(** A processor that owns [l] afterwards, with a store to [l] that sets
    [locked] to 1: the only processor that did or could own it before. *)
Lemma lock_ok_owner m i c c' l x :
  (l < length (lks m))%nat -> lock_ok m l -> cpus m !! i = Some c ->
  (locked (lk m l) = 0 \/ owns c l = true) -> owns c' l = true ->
  locked x = 1 -> lcpu x = (if named c' l then Some i else if named c l then None else lcpu (lk m l)) ->
  lock_ok {| cpus := <[i := c']> (cpus m); lks := <[l := x]> (lks m) |} l.
Proof.
  intros Hlt [Hv Ho Hc] Hi Hown Eo Hx Hlc. split; rewrite lk_insert_eq by done; cbn; [auto| |].
  - assert (Hu : forall j y, j <> i -> cpus m !! j = Some y -> owns y l = true -> False).
    { intros j y Hj Hy Hoy. destruct Hown as [H0|Hoc].
      - destruct (Ho j y Hy Hoy). lia.
      - apply Hj. by apply (proj2 (Ho i c Hi Hoc) j y). }
    intros j y Hy Hoy. split; [done|]. intros j' y' Hy' Hoy'.
    destruct (insert_cases _ _ _ _ _ Hy) as [[-> ->]|[? ?]], (insert_cases _ _ _ _ _ Hy') as [[-> ->]|[? ?]];
      try done; exfalso; eauto.
  - intros j y Hy. rewrite Hlc. destruct (insert_cases _ _ _ _ _ Hy) as [[-> ->]|[Hj Hy0]].
    + destruct (named c' l) eqn:E; [done|]. split; [done|]. destruct (named c l) eqn:E1; [done|].
      intros H. apply (Hc i c Hi) in H. congruence.
    + assert (Hny : named y l = true -> False).
      { intros Hny. assert (owns y l = true) as Hoy.
        { unfold named, owns in *. apply andb_true_iff in Hny as [-> _]. apply orb_true_r. }
        destruct Hown as [H0|Hoc]; [destruct (Ho j y Hy0 Hoy); lia|].
        apply Hj. by apply (proj2 (Ho i c Hi Hoc) j y). }
      split; [by intros ?; exfalso|]. destruct (named c' l); [congruence|].
      destruct (named c l) eqn:E1; [done|]. intros H. by apply (Hc j y Hy0).
Qed.

(** A processor that gives [l] up. *)
Lemma lock_ok_release m i c c' l x :
  (l < length (lks m))%nat -> lock_ok m l -> cpus m !! i = Some c ->
  owns c l = true -> named c l = false -> owns c' l = false -> named c' l = false ->
  locked x = 0 -> lcpu x = lcpu (lk m l) ->
  lock_ok {| cpus := <[i := c']> (cpus m); lks := <[l := x]> (lks m) |} l.
Proof.
  intros Hlt [Hv Ho Hc] Hi Eo En Eo' En' Hx Hlc. split; rewrite lk_insert_eq by done; cbn; [auto| |].
  - intros j y Hy Hoy. exfalso. destruct (insert_cases _ _ _ _ _ Hy) as [[-> ->]|[Hj Hy0]]; [congruence|].
    apply Hj. by apply (proj2 (Ho i c Hi Eo) j y).
  - intros j y Hy. rewrite Hlc. destruct (insert_cases _ _ _ _ _ Hy) as [[-> ->]|[Hj Hy0]]; [|by apply Hc].
    rewrite En', <- (Hc i c Hi), En. done.
Qed.

(** What a processor's next step does, with no other panic than those for
    misuse. *)
Definition next_spec (m : machine) (op : nat + nat) (c : cpu) (p : cpu_pc) : Prop :=
  match pc c with
  | Run => p = match op with inl l => AcqLocked l | inr l => RelLocked l end
  | AcqLocked l => p = if locked (lk m l) =? 0 then AcqXchg l else AcqCpu l
  | AcqCpu l => p = if bool_decide (l ∈ held c) then Halted "acquire" else AcqXchg l
  | AcqXchg l => p = if locked (lk m l) =? 0 then AcqSet l else AcqXchg l
  | AcqSet l => p = Run
  | RelLocked l => p = if locked (lk m l) =? 0 then Halted "release" else RelCpu l
  | RelCpu l => p = if bool_decide (l ∈ held c) then RelClear l else Halted "release"
  | RelClear l => p = RelUnlock l
  | RelUnlock l => p = RelPop l
  | RelPop l => p = Run
  | Halted s => p = Halted s
  end.

Lemma named_held_pc c l :
  (forall l', pc c <> RelUnlock l') -> named c l = bool_decide (l ∈ held c).
Proof. intros H. unfold named. destruct (pc c) eqn:E; try (by rewrite andb_true_r). by destruct (H l0). Qed.

Lemma owns_held_pc c l :
  (forall l', pc c <> AcqSet l') -> owns c l = bool_decide (l ∈ held c).
Proof. intros H. unfold owns. destruct (pc c) eqn:E; try done. by destruct (H l0). Qed.

(** A processor that stops keeps what it has. *)
Lemma cpu_ok_halt n b c s :
  NoDup (held c) -> (forall l, l ∈ held c -> (l < n)%nat) -> cpu_ok n b (set_pc (Halted s) c).
Proof. intros ? ?. split; cbn; try done; try (by intros l [?|?]); intros Hp; by destruct (Hp s). Qed.

Lemma lks_id m l : (l < length (lks m))%nat -> <[l := lk m l]> (lks m) = lks m.
Proof.
  intros H. apply lookup_lt_is_Some in H as [x Hx]. apply list_insert_id.
  unfold lk. by rewrite Hx.
Qed.

(** Steps that leave [held] and the locks alone. *)
Lemma step_same_ok ifs n m i c c' :
  mach_ok ifs n m -> cpus m !! i = Some c ->
  (forall b, cpu_ok n b c -> cpu_ok n b c') ->
  (forall l, owns c' l = owns c l /\ named c' l = named c l) ->
  mach_ok ifs n {| cpus := <[i := c']> (cpus m); lks := lks m |}.
Proof.
  intros [Hl Hc Hk] Hi Hok Hon. split; cbn; [done| |].
  - destruct (Forall2_lookup_r _ _ _ _ _ Hc Hi) as (b & Hb & Hcb).
    rewrite <- (list_insert_id ifs i b) by done. by apply Forall2_insert; [|apply Hok].
  - intros l Hll. destruct (Hon l). by eapply lock_ok_same; [apply Hk| | |].
Qed.

(** Steps that store to the lock [l]. *)
Lemma step_store_ok ifs n m i c c' l x :
  mach_ok ifs n m -> cpus m !! i = Some c ->
  (forall b, cpu_ok n b c -> cpu_ok n b c') ->
  (forall l', l' <> l -> owns c' l' = owns c l' /\ named c' l' = named c l') ->
  lock_ok {| cpus := <[i := c']> (cpus m); lks := <[l := x]> (lks m) |} l ->
  mach_ok ifs n {| cpus := <[i := c']> (cpus m); lks := <[l := x]> (lks m) |}.
Proof.
  intros [Hl Hc Hk] Hi Hok Hon Hlo. split; cbn; [by rewrite length_insert| |].
  - destruct (Forall2_lookup_r _ _ _ _ _ Hc Hi) as (b & Hb & Hcb).
    rewrite <- (list_insert_id ifs i b) by done. by apply Forall2_insert; [|apply Hok].
  - intros l' Hll. destruct (decide (l' = l)) as [->|Hne]; [done|].
    destruct (Hon l' Hne). eapply lock_ok_other; [by apply Hk|done..].
Qed.

(** Between locks: the pieces of a processor that a step keeps. *)
Lemma cpu_ok_keep n b c c' k :
  cpu_ok n b c -> held c' = held c ->
  (forall l, pc_lock (pc c') = Some l -> (l < n)%nat) ->
  (forall l, pc c' = AcqXchg l \/ pc c' = AcqSet l -> l ∉ held c) ->
  (forall l, pc c' = RelClear l \/ pc c' = RelUnlock l -> l ∈ held c) ->
  nest b k c' -> k = Z.of_nat (length (held c)) + pend (pc c') -> cpu_ok n b c'.
Proof.
  intros Hc Eh ? ? ? ? ->. eapply cpu_ok_intro; rewrite ?Eh; try done;
    [by eapply co_nodup|by eapply co_held].
Qed.

(** The test of [holding] is exact: the two reads race with the other
    processors, but only this one can make both come out true. *)
Lemma holding_exact m i c l :
  lock_ok m l -> cpus m !! i = Some c ->
  (forall l', pc c <> RelUnlock l') -> (forall l', pc c <> AcqSet l') ->
  (lcpu (lk m l) = Some i <-> l ∈ held c) /\ (l ∈ held c -> locked (lk m l) = 1).
Proof.
  intros [_ Ho Hc] Hi Hp Hq. split.
  - rewrite <- (Hc i c Hi), named_held_pc by done. by rewrite bool_decide_eq_true.
  - intros Hl. apply (Ho i c Hi). rewrite owns_held_pc by done. by rewrite bool_decide_eq_true.
Qed.

Ltac pc_side E := intros l' Hl'; rewrite ?E in Hl'; cbn in Hl'; 
  match type of Hl' with _ \/ _ => destruct Hl' | _ => idtac end; simplify_eq; try done.

Lemma step_run ifs n m i c op :
  mach_ok ifs n m -> cpus m !! i = Some c -> pc c = Run ->
  (forall l, op = inl l \/ op = inr l -> (l < n)%nat) ->
  mach_ok ifs n {| cpus := <[i := (cpu_next op i m c).1]> (cpus m); lks := (cpu_next op i m c).2 |} /\
  next_spec m op c (pc (cpu_next op i m c).1).
Proof.
  intros Hm Hi E Hop. unfold cpu_next, next_spec. rewrite E.
  destruct op as [l|l]; (split; [|done]);
    (eapply step_same_ok; [done|done| |by intros l'; unfold owns, named; rewrite ?E]);
    intros b Hc; pose proof (cpu_ok_nest _ _ _ Hc) as Hn; rewrite E in Hn; cbn [pend] in Hn; rewrite Z.add_0_r in Hn;
    specialize (Hn ltac:(done)).
  - eapply cpu_ok_keep; [exact Hc|done|pc_side E; auto|pc_side E|pc_side E|apply pushcli_nest, pushcli_nest, Hn|cbn; lia].
  - eapply cpu_ok_keep; [exact Hc|done|pc_side E; auto|pc_side E|pc_side E|apply pushcli_nest, Hn|cbn; lia].
Qed.

(** The steps at which [holding] reads. *)
Lemma step_holding ifs n m i c op l :
  mach_ok ifs n m -> cpus m !! i = Some c ->
  pc c = AcqLocked l \/ pc c = AcqCpu l \/ pc c = RelLocked l \/ pc c = RelCpu l ->
  mach_ok ifs n {| cpus := <[i := (cpu_next op i m c).1]> (cpus m); lks := (cpu_next op i m c).2 |} /\
  next_spec m op c (pc (cpu_next op i m c).1).
Proof.
  intros Hm Hi Hpc.
  destruct (Forall2_lookup_r _ _ _ _ _ (mo_cpus _ _ _ Hm) Hi) as (b0 & _ & Hc0).
  assert (Hl : (l < n)%nat).
  { apply (co_pc _ _ _ Hc0). destruct Hpc as [E|[E|[E|E]]]; by rewrite E. }
  assert (Hnu : (forall l', pc c <> RelUnlock l') /\ (forall l', pc c <> AcqSet l') /\
                (forall s, pc c <> Halted s)).
  { destruct Hpc as [E|[E|[E|E]]]; by rewrite E. }
  destruct Hnu as (Hnu & Hns & Hnh).
  destruct (holding_exact m i c l (mo_locks _ _ _ Hm l Hl) Hi Hnu Hns) as [Hhe Hlk].
  pose proof (co_nodup _ _ _ Hc0) as Hnd. pose proof (co_held _ _ _ Hc0) as Hhd.
  assert (Hsame : forall c', held c' = held c -> (forall l', pc c' <> RelUnlock l') ->
            (forall l', pc c' <> AcqSet l') -> forall l', owns c' l' = owns c l' /\ named c' l' = named c l').
  { intros c' Eh ? ? l'. by rewrite !owns_held_pc, !named_held_pc, Eh. }
  assert (Hoff : iflag c = false).
  { pose proof (cpu_ok_nest _ _ _ Hc0 Hnh) as Hn. eapply nest_off; [exact Hn|].
    destruct Hpc as [E|[E|[E|E]]]; rewrite E; cbn; lia. }
  assert (Hstay : forall p, pend p = pend (pc c) -> pc_lock p = Some l ->
            (p = AcqCpu l \/ p = RelCpu l) -> forall b, cpu_ok n b c -> cpu_ok n b (set_pc p c)).
  { intros p Hp Hpl Hpp b Hc. eapply cpu_ok_keep; [exact Hc|done|..|apply (cpu_ok_nest _ _ _ Hc Hnh)|cbn; by rewrite Hp];
      cbn; destruct Hpp as [-> | ->]; pc_side Hpl. }
  assert (Hpop : forall p, pend p = pend (pc c) - 1 -> pc_lock p = Some l ->
            (p = AcqXchg l /\ l ∉ held c \/ p = RelClear l /\ l ∈ held c) ->
            (forall b, cpu_ok n b c -> cpu_ok n b (after_pop p c)) /\ pc (after_pop p c) = p /\
            held (after_pop p c) = held c).
  { intros p Hp Hpl Hpp.
    assert (Hap : forall b, cpu_ok n b c -> nest b (Z.of_nat (length (held c)) + pend p) (after_pop p c) /\
              pc (after_pop p c) = p /\ held (after_pop p c) = held c).
    { intros b Hc. apply after_pop_nest; [|destruct Hpp as [[-> _]|[-> _]]; cbn; lia].
      replace (_ + _ + 1) with (Z.of_nat (length (held c)) + pend (pc c)) by lia.
      by apply (cpu_ok_nest n). }
    destruct (Hap b0 Hc0) as (_ & Ep & Eh). split_and!; [|done|done].
    intros b Hc. destruct (Hap b Hc) as (Hn & _). eapply cpu_ok_keep; [exact Hc|done|..|exact Hn|by rewrite Ep];
      rewrite Ep; destruct Hpp as [[-> ?]|[-> ?]]; pc_side Hpl. }
  assert (Hhalt : forall s b, cpu_ok n b c -> cpu_ok n b (set_pc (Halted s) c)).
  { intros s b _. by apply cpu_ok_halt. }
  unfold cpu_next, next_spec, with_mycpu. rewrite Hoff.
  destruct Hpc as [E|[E|[E|E]]]; rewrite E in *; cbn [pend] in *.
  - destruct (locked (lk m l) =? 0) eqn:E0; cbn.
    + assert (Hnot : l ∉ held c) by (intros Hin; specialize (Hlk Hin); apply Z.eqb_eq in E0; lia).
      destruct (Hpop (AcqXchg l)) as (? & Ep & Eh); [done|done|by left|].
      split; [|done]. eapply step_same_ok; [done..|]. apply Hsame; rewrite ?Ep; done.
    + split; [|done]. eapply step_same_ok; [done|done|apply Hstay; auto|]. by apply Hsame.
  - case_decide as Hd; cbn.
    + rewrite bool_decide_eq_true_2 by (by apply Hhe). split; [|done].
      eapply step_same_ok; [done|done|apply Hhalt|]. by apply Hsame.
    + assert (Hnot : l ∉ held c) by (by rewrite <- Hhe).
      rewrite bool_decide_eq_false_2 by done.
      destruct (Hpop (AcqXchg l)) as (? & Ep & Eh); [done|done|by left|].
      split; [|done]. eapply step_same_ok; [done..|]. apply Hsame; rewrite ?Ep; done.
  - destruct (locked (lk m l) =? 0) eqn:E0; cbn; (split; [|done]).
    + eapply step_same_ok; [done|done|apply Hhalt|]. by apply Hsame.
    + eapply step_same_ok; [done|done|apply Hstay; auto|]. by apply Hsame.
  - case_decide as Hd; cbn.
    + apply Hhe in Hd. rewrite bool_decide_eq_true_2 by done.
      destruct (Hpop (RelClear l)) as (? & Ep & Eh); [done|done|by right|].
      split; [|done]. eapply step_same_ok; [done..|]. apply Hsame; rewrite ?Ep; done.
    + rewrite bool_decide_eq_false_2 by (by rewrite <- Hhe). split; [|done].
      eapply step_same_ok; [done|done|apply Hhalt|]. by apply Hsame.
Qed.

Lemma step_xchg ifs n m i c op l :
  mach_ok ifs n m -> cpus m !! i = Some c -> pc c = AcqXchg l ->
  mach_ok ifs n {| cpus := <[i := (cpu_next op i m c).1]> (cpus m); lks := (cpu_next op i m c).2 |} /\
  next_spec m op c (pc (cpu_next op i m c).1).
Proof.
  intros Hm Hi E. destruct (Forall2_lookup_r _ _ _ _ _ (mo_cpus _ _ _ Hm) Hi) as (b0 & _ & Hc0).
  assert (Hl : (l < n)%nat) by (apply (co_pc _ _ _ Hc0); by rewrite E).
  assert (Hll : (l < length (lks m))%nat) by (by rewrite (mo_len _ _ _ Hm)).
  pose proof (mo_locks _ _ _ Hm l Hl) as Hlo.
  assert (Hnot : l ∉ held c) by (apply (co_acq _ _ _ Hc0); by left).
  unfold cpu_next, next_spec. rewrite E. destruct (Z.eqb_spec (locked (lk m l)) 0) as [E0|E0]; cbn.
  - split; [|done].
    eapply (step_store_ok _ _ _ _ c); [done|done| | |].
    + intros b Hc. eapply cpu_ok_keep; [exact Hc|done|pc_side E|pc_side E|pc_side E|
        apply (cpu_ok_nest _ _ _ Hc); by rewrite E|cbn; by rewrite E].
    + intros l' Hne. unfold owns, named. cbn. rewrite E. by rewrite (bool_decide_eq_false_2 (l' = l)).
    + eapply (lock_ok_owner _ _ c); [done|done|done|by left| |done|].
      * unfold owns. cbn. by rewrite bool_decide_eq_true_2.
      * unfold named. cbn. rewrite E, bool_decide_eq_false_2 by done. done.
  - destruct Hlo as [[?|H1] _ _]; [done|].
    replace {| locked := 1; lcpu := lcpu (lk m l) |} with (lk m l) by (destruct (lk m l); cbn in *; by subst).
    rewrite lks_id, list_insert_id by done. split; [by destruct m|]. by rewrite E.
Qed.

Lemma step_set ifs n m i c op l :
  mach_ok ifs n m -> cpus m !! i = Some c -> pc c = AcqSet l ->
  mach_ok ifs n {| cpus := <[i := (cpu_next op i m c).1]> (cpus m); lks := (cpu_next op i m c).2 |} /\
  next_spec m op c (pc (cpu_next op i m c).1).
Proof.
  intros Hm Hi E. destruct (Forall2_lookup_r _ _ _ _ _ (mo_cpus _ _ _ Hm) Hi) as (b0 & _ & Hc0).
  assert (Hl : (l < n)%nat) by (apply (co_pc _ _ _ Hc0); by rewrite E).
  assert (Hll : (l < length (lks m))%nat) by (by rewrite (mo_len _ _ _ Hm)).
  pose proof (mo_locks _ _ _ Hm l Hl) as Hlo.
  assert (Hnot : l ∉ held c) by (apply (co_acq _ _ _ Hc0); by right).
  assert (Hnh : forall s, pc c <> Halted s) by (by rewrite E).
  assert (Hoff : iflag c = false).
  { eapply nest_off; [apply (cpu_ok_nest _ _ _ Hc0 Hnh)|]. rewrite E. cbn. lia. }
  assert (Hown : owns c l = true) by (unfold owns; rewrite E, bool_decide_eq_true_2; done).
  unfold cpu_next, next_spec. rewrite E, Hoff. cbn. split; [|done].
  eapply (step_store_ok _ _ _ _ c); [done|done| | |].
  - intros b Hc. eapply cpu_ok_intro; cbn.
    + constructor; [done|by eapply co_nodup].
    + intros l' [->|Hin]%elem_of_cons; [done|by eapply co_held].
    + done.
    + pc_side E.
    + pc_side E.
    + apply (cpu_ok_nest _ _ _ Hc Hnh).
    + rewrite E. cbn. lia.
  - intros l' Hne. unfold owns, named. cbn. rewrite E, (bool_decide_eq_false_2 (l' = l)) by done.
    rewrite (bool_decide_ext (l' ∈ l :: held c) (l' ∈ held c)); [done|]. set_solver.
  - eapply (lock_ok_owner _ _ c); [done|done|done|by right| | |].
    + unfold owns. cbn. rewrite bool_decide_eq_true_2; [done|]. set_solver.
    + cbn. by apply (lo_own _ _ Hlo i c).
    + unfold named. cbn. rewrite bool_decide_eq_true_2; [done|]. set_solver.
Qed.

Lemma step_clear ifs n m i c op l :
  mach_ok ifs n m -> cpus m !! i = Some c -> pc c = RelClear l ->
  mach_ok ifs n {| cpus := <[i := (cpu_next op i m c).1]> (cpus m); lks := (cpu_next op i m c).2 |} /\
  next_spec m op c (pc (cpu_next op i m c).1).
Proof.
  intros Hm Hi E. destruct (Forall2_lookup_r _ _ _ _ _ (mo_cpus _ _ _ Hm) Hi) as (b0 & _ & Hc0).
  assert (Hl : (l < n)%nat) by (apply (co_pc _ _ _ Hc0); by rewrite E).
  assert (Hll : (l < length (lks m))%nat) by (by rewrite (mo_len _ _ _ Hm)).
  pose proof (mo_locks _ _ _ Hm l Hl) as Hlo.
  assert (Hin : l ∈ held c) by (apply (co_rel _ _ _ Hc0); by left).
  assert (Hown : owns c l = true) by (unfold owns; rewrite E, bool_decide_eq_true_2; done).
  assert (Hnam : named c l = true) by (unfold named; rewrite E, bool_decide_eq_true_2; done).
  unfold cpu_next, next_spec. rewrite E. cbn. split; [|done].
  eapply (step_store_ok _ _ _ _ c); [done|done| | |].
  - intros b Hc. eapply cpu_ok_keep; [exact Hc|done|pc_side E|pc_side E|pc_side E|
      apply (cpu_ok_nest _ _ _ Hc); by rewrite E|cbn; by rewrite E].
  - intros l' Hne. unfold owns, named. cbn. rewrite E, (bool_decide_eq_false_2 (l' = l)) by done. done.
  - eapply (lock_ok_owner _ _ c); [done|done|done|by right| | |].
    + unfold owns. cbn. by rewrite bool_decide_eq_true_2.
    + cbn. by apply (lo_own _ _ Hlo i c).
    + rewrite Hnam. unfold named. cbn. by rewrite !bool_decide_eq_true_2.
Qed.

(** Taking one lock out of the list of held ones. *)
Lemma length_filter_one (l : nat) (h : list nat) :
  NoDup h -> l ∈ h -> length h = S (length (filter (fun x => x <> l) h)).
Proof.
  induction h as [|x h IH]; intros Hnd Hin; [by apply elem_of_nil in Hin|].
  apply NoDup_cons in Hnd as [Hx Hnd]. rewrite filter_cons. case_decide as Hd.
  - apply elem_of_cons in Hin as [->|Hin]; [done|]. cbn. by rewrite (IH Hnd Hin) at 1.
  - subst x. cbn. do 2 f_equal. symmetry. clear IH Hnd Hin.
    induction h as [|y h IH]; [done|]. apply not_elem_of_cons in Hx as [? ?].
    rewrite filter_cons, decide_True by done. f_equal. by apply IH.
Qed.

Lemma step_unlock ifs n m i c op l :
  mach_ok ifs n m -> cpus m !! i = Some c -> pc c = RelUnlock l ->
  mach_ok ifs n {| cpus := <[i := (cpu_next op i m c).1]> (cpus m); lks := (cpu_next op i m c).2 |} /\
  next_spec m op c (pc (cpu_next op i m c).1).
Proof.
  intros Hm Hi E. destruct (Forall2_lookup_r _ _ _ _ _ (mo_cpus _ _ _ Hm) Hi) as (b0 & _ & Hc0).
  assert (Hl : (l < n)%nat) by (apply (co_pc _ _ _ Hc0); by rewrite E).
  assert (Hll : (l < length (lks m))%nat) by (by rewrite (mo_len _ _ _ Hm)).
  pose proof (mo_locks _ _ _ Hm l Hl) as Hlo.
  assert (Hin : l ∈ held c) by (apply (co_rel _ _ _ Hc0); by right).
  unfold cpu_next, next_spec. rewrite E. cbn. split; [|done].
  eapply (step_store_ok _ _ _ _ c); [done|done| | |].
  - intros b Hc. pose proof (co_nodup _ _ _ Hc) as Hnd. eapply cpu_ok_intro; cbn.
    + by apply NoDup_filter.
    + intros l' [_ Hf]%list_elem_of_filter. by eapply co_held.
    + by intros ? [= <-].
    + pc_side E.
    + pc_side E.
    + apply (cpu_ok_nest _ _ _ Hc). by rewrite E.
    + rewrite E, (length_filter_one l (held c)) by done. cbn [pend]. lia.
  - intros l' Hne. unfold owns, named. cbn. rewrite E, (bool_decide_eq_false_2 (l' = l)) by done.
    rewrite (bool_decide_ext (l' ∈ filter _ _) (l' ∈ held c)); [done|].
    rewrite list_elem_of_filter. naive_solver.
  - assert (Hf : l ∉ filter (fun x => x <> l) (held c)) by (by intros [? _]%list_elem_of_filter).
    eapply (lock_ok_release _ _ c); try done; unfold owns, named; cbn; rewrite ?E, ?(bool_decide_eq_true_2 (l ∈ held c)) by done.
    + done.
    + by rewrite bool_decide_eq_true_2.
    + by rewrite bool_decide_eq_false_2.
    + by rewrite bool_decide_eq_false_2.
Qed.

Lemma cpu_next_ok ifs n m i c op :
  mach_ok ifs n m -> cpus m !! i = Some c ->
  (forall l, op = inl l \/ op = inr l -> (l < n)%nat) ->
  mach_ok ifs n {| cpus := <[i := (cpu_next op i m c).1]> (cpus m); lks := (cpu_next op i m c).2 |} /\
  next_spec m op c (pc (cpu_next op i m c).1).
Proof.
  intros Hm Hi Hop. destruct (pc c) as [|l|l|l|l|l|l|l|l|l|s] eqn:E.
  - by apply step_run.
  - eapply step_holding; eauto.
  - eapply step_holding; eauto.
  - by eapply step_xchg.
  - by eapply step_set.
  - eapply step_holding; eauto.
  - eapply step_holding; eauto 6.
  - by eapply step_clear.
  - by eapply step_unlock.
  - destruct (Forall2_lookup_r _ _ _ _ _ (mo_cpus _ _ _ Hm) Hi) as (b0 & _ & Hc0).
    assert (Hap : forall b, cpu_ok n b c -> nest b (Z.of_nat (length (held c))) (after_pop Run c) /\
              pc (after_pop Run c) = Run /\ held (after_pop Run c) = held c).
    { intros b Hc. apply after_pop_nest; [|lia]. pose proof (cpu_ok_nest _ _ _ Hc) as Hn.
      rewrite E in Hn. by apply Hn. }
    destruct (Hap b0 Hc0) as (_ & Ep & Eh). unfold cpu_next, next_spec. rewrite E. cbn. split; [|done].
    eapply step_same_ok; [done|done| |].
    + intros b Hc. destruct (Hap b Hc) as (Hn & _).
      eapply cpu_ok_keep; [exact Hc|done|..|exact Hn|rewrite Ep; cbn; lia]; rewrite Ep; pc_side E.
    + intros l'. unfold owns, named. by rewrite Ep, Eh, E.
  - unfold cpu_next, next_spec. rewrite E. cbn. split; [|done]. rewrite list_insert_id by done. by destruct m.
Qed.

Lemma spin_reach_ok ifs n m : spin_reach ifs n m -> mach_ok ifs n m.
Proof.
  induction 1 as [|m m' _ IH Hst]; [apply mach_ok_init|].
  destruct Hst as [m i c op Hi Hop]. apply cpu_next_ok; [done..|].
  intros l Hl. rewrite <- (mo_len _ _ _ IH). by apply Hop.
Qed.

(** ** Properties *)

(** C20. In every interleaving of the processors' memory accesses, at
    most one processor is between the [xchg] that won a lock and the store that
    clears [locked], and [locked] is 1 all that time. *)
Theorem spin_mutex ifs n m i j ci cj l :
  spin_reach ifs n m -> (l < n)%nat ->
  cpus m !! i = Some ci -> cpus m !! j = Some cj ->
  owns ci l = true -> owns cj l = true -> i = j /\ locked (lk m l) = 1.
Proof.
  intros Hr Hl Hi Hj Hoi Hoj. apply spin_reach_ok in Hr as [_ _ Hk].
  destruct (lo_own _ _ (Hk l Hl) j cj Hj Hoj) as [H1 H2]. split; [by eapply H2|done].
Qed.

(** A processor stops in a panic only by misuse: [acquire] of a
    lock it holds, found in the second read of [holding], or [release] of one
    it does not hold. Conversely both kinds of misuse do end in the panic. The
    reads of [holding] are not atomic and race with the other processors'
    stores, but never confuse one processor with another; and [popcli] and
    [mycpu] never panic here. *)
Theorem spin_panic_iff_misuse ifs n m i c op :
  spin_reach ifs n m -> cpus m !! i = Some c ->
  (forall l, op = inl l \/ op = inr l -> (l < n)%nat) ->
  let p := pc (cpu_next op i m c).1 in
  (forall s, p = Halted s -> (exists s', pc c = Halted s') \/
     exists l, (pc c = AcqCpu l /\ l ∈ held c /\ s = "acquire"%string) \/
               ((pc c = RelLocked l \/ pc c = RelCpu l) /\ l ∉ held c /\ s = "release"%string)) /\
  (forall l, l ∈ held c -> (pc c = AcqLocked l -> p = AcqCpu l) /\
                           (pc c = AcqCpu l -> p = Halted "acquire")) /\
  (forall l, l ∉ held c -> pc c = RelCpu l -> p = Halted "release").
Proof.
  intros Hr Hi Hop. apply spin_reach_ok in Hr as Hm.
  destruct (cpu_next_ok _ _ _ _ _ _ Hm Hi Hop) as [_ Hs]. revert Hs. unfold next_spec.
  destruct (Forall2_lookup_r _ _ _ _ _ (mo_cpus _ _ _ Hm) Hi) as (b0 & _ & Hc0).
  assert (Hheld : forall l, l ∈ held c -> locked (lk m l) <> 0).
  { intros l Hl. pose proof (co_held _ _ _ Hc0 l Hl) as Hln.
    enough (locked (lk m l) = 1) by lia. eapply (lo_own _ _ (mo_locks _ _ _ Hm l Hln)); [done|].
    unfold owns. by rewrite (bool_decide_eq_true_2 (l ∈ held c)), orb_true_r. }
  cbn zeta. set (p := pc (cpu_next op i m c).1). clearbody p.
  destruct (pc c) as [|l|l|l|l|l|l|l|l|l|s0] eqn:E; intros ->;
    repeat match goal with |- context [bool_decide ?P] => destruct (bool_decide_reflect P) end;
    repeat match goal with |- context [?a =? 0] => destruct (Z.eqb_spec a 0) end;
    try (destruct op); (split_and!; [intros s Hs; simplify_eq|intros l' Hl'; split; intros ?; simplify_eq|intros l' Hl' ?; simplify_eq]);
    try done; naive_solver.
Qed.

(** With [ifs] the processors' interrupt flags outside all lock
    code: interrupts are off as long as a processor holds any lock; when it
    runs outside [acquire] and [release], the depth of [pushcli] is the number
    of locks it holds; and once it holds none the flag is what it was at first. *)
Theorem spin_interrupts ifs n m i c b :
  spin_reach ifs n m -> cpus m !! i = Some c -> ifs !! i = Some b -> (forall s, pc c <> Halted s) ->
  (held c <> [] -> iflag c = false) /\
  (pc c = Run -> ncli c = Z.of_nat (length (held c)) /\ (held c = [] -> iflag c = b)).
Proof.
  intros Hr Hi Hb Hp. apply spin_reach_ok in Hr as [_ Hc _].
  pose proof (Forall2_lookup_lr _ _ _ _ _ _ Hc Hb Hi) as Hok.
  pose proof (cpu_ok_nest _ _ _ Hok Hp) as Hn. split.
  - intros Hh. eapply nest_off; [exact Hn|]. destruct (held c); [done|]. destruct (pc c); cbn; lia.
  - intros E. rewrite E in Hn. destruct Hn as (Hn & _ & Hi'). cbn in Hn. rewrite Z.add_0_r in Hn.
    split; [done|]. intros Hh. by rewrite Hh in Hi'.
Qed.

(** ** Concrete runs *)

(** Runs processors in the given order. *)
Fixpoint spin_run (m : machine) (sched : list (nat * (nat + nat))) : machine :=
  match sched with
  | [] => m
  | (i, op) :: sched' =>
      match cpus m !! i with
      | Some c => spin_run {| cpus := <[i := (cpu_next op i m c).1]> (cpus m);
                              lks := (cpu_next op i m c).2 |} sched'
      | None => m
      end
  end.

Lemma spin_run_reach ifs n m sched :
  spin_reach ifs n m ->
  Forall (fun x => match x.2 with inl l | inr l => l < n end)%nat sched ->
  spin_reach ifs n (spin_run m sched).
Proof.
  intros Hr Hs. revert m Hr. induction Hs as [|[i op] sched Hop _ IH]; intros m Hr; cbn; [done|].
  destruct (cpus m !! i) as [c|] eqn:E; [|done]. apply IH. eapply spin_reach_step; [exact Hr|].
  constructor; [done|]. intros l Hl. rewrite (mo_len _ _ _ (spin_reach_ok _ _ _ Hr)).
  cbn in Hop. destruct Hl; by subst.
Qed.

(** Processor 0 takes lock 0 while processor 1 spins for it. *)
Definition spin_demo : machine :=
  spin_run (spin_init [true; false] 1)
    [(0%nat, inl 0%nat); (1%nat, inl 0%nat); (0%nat, inl 0%nat); (0%nat, inl 0%nat);
     (1%nat, inl 0%nat); (1%nat, inl 0%nat); (0%nat, inl 0%nat); (1%nat, inl 0%nat)].

Lemma spin_demo_reach : spin_reach [true; false] 1 spin_demo.
Proof. apply spin_run_reach; [constructor|]. repeat constructor. Qed.

Definition demo_cpu : cpu :=
  {| pc := Run; ncli := 1; intena := true; iflag := false; held := [0%nat] |}.

Lemma spin_mutex_witness :
  spin_reach [true; false] 1 spin_demo /\ cpus spin_demo !! 0%nat = Some demo_cpu /\
  locked (lk spin_demo 0) = 1.
Proof.
  split; [exact spin_demo_reach|]. split; [reflexivity|].
  apply (spin_mutex [true; false] 1 spin_demo 0 0 demo_cpu demo_cpu 0 spin_demo_reach);
    (lia || reflexivity).
Defined.

Lemma spin_interrupts_witness :
  spin_reach [true; false] 1 spin_demo /\ iflag demo_cpu = false.
Proof.
  split; [exact spin_demo_reach|].
  apply (spin_interrupts [true; false] 1 spin_demo 0 demo_cpu true spin_demo_reach);
    first [reflexivity|discriminate].
Defined.

(** Processor 0, which holds lock 0, calls [acquire] on it again. *)
Definition spin_demo2 : machine :=
  spin_run spin_demo [(0%nat, inl 0%nat); (0%nat, inl 0%nat)].
Definition demo_cpu2 : cpu :=
  {| pc := AcqCpu 0; ncli := 3; intena := true; iflag := false; held := [0%nat] |}.

Lemma spin_demo2_reach : spin_reach [true; false] 1 spin_demo2.
Proof. apply spin_run_reach; [exact spin_demo_reach|]. repeat constructor. Qed.

Lemma spin_panic_iff_misuse_witness :
  cpus spin_demo2 !! 0%nat = Some demo_cpu2 /\
  pc (cpu_next (inl 0%nat) 0 spin_demo2 demo_cpu2).1 = Halted "acquire".
Proof.
  split; [reflexivity|].
  apply (spin_panic_iff_misuse [true; false] 1 spin_demo2 0 demo_cpu2 (inl 0%nat) spin_demo2_reach)
    with (l := 0%nat).
  - reflexivity.
  - intros l [H|H]; [injection H as <-; lia|discriminate].
  - cbn. set_solver.
  - reflexivity.
Defined.
