(* ===== verification/Sem.v ===== *)
(** User-level locks of threads: xv6-public/thread_lock_impl.h, with the
    kernel side of their condition variable in proc.c ([thread_sleep],
    [mutex_lock], [mutex_unlock], [wakeup]).

    Any number of threads call [sem_wait] and [sem_post] on one semaphore. A
    step is one access to the memory the threads share (the word of the mutex,
    the count) or one action of the kernel under [ptable.lock]; [count--] and
    [count++] are a load and a store. Sleeping threads may also be woken for
    other reasons (by [kill], or by a wake-up of the same address in another
    process).

    Theorems: the mutex excludes, so the non-atomic updates of the count are
    exact and no more waits complete than the initial count and the posts
    allow ([sem_counts]); a thread never stays asleep with a positive count
    unless a [sem_post] is still on its way to the wake-up ([sem_no_lost_wakeup]). *)

From Stdlib Require Import ZArith Lia.
From stdpp Require Import base strings gmap numbers list.
From S2P Require Import Prelude.

Open Scope Z_scope.

(** Where a thread is. The first group is [sem_wait], the second the call of
    [thread_sleep] inside it, the third [sem_post]. *)
Inductive tpc :=
  | TIdle
  | WLock          (** [thread_mutex_lock]: the [xchg] loop *)
  | WTest          (** the test of [sem->count] *)
  | WLoad | WStore (v : Z)   (** [sem->count--] *)
  | WUnlock        (** [thread_mutex_unlock] *)
  | SPt            (** [thread_sleep]: [acquire(&ptable.lock)] *)
  | SUnl           (** [mutex_unlock(lk)] *)
  | SSet           (** [p->state = SLEEPING], then [sched], which gives up [ptable.lock] *)
  | SAsleep
  | SResume        (** runnable: the scheduler takes [ptable.lock] for it *)
  | STidy          (** [release(&ptable.lock)] *)
  | SRelock        (** [mutex_lock(lk)]: the [xchg] loop with [yield] *)
  | PLock
  | PLoad | PStore (v : Z)   (** [sem->count++] *)
  | PUnlock
  | PSignal        (** [wakeup]: [acquire(&ptable.lock)] *)
  | PWake.         (** [wakeup1] and [release] *)

#[export] Instance tpc_eq_dec : EqDecision tpc.
Proof. solve_decision. Defined.

Record sem := {
  mlocked : Z;              (** the mutex word *)
  count : Z;
  ptlock : option nat;      (** the thread on whose behalf [ptable.lock] is held *)
  threads : list tpc;
  posts : Z;                (** completed [count++], not read by the code *)
  waits : Z;                (** completed [count--], not read by the code *)
}.

Definition sem_init (c : Z) (n : nat) : sem :=
  {| mlocked := 0; count := i32 c; ptlock := None; threads := replicate n TIdle;
     posts := 0; waits := 0 |}.

Definition goto (i : nat) (p : tpc) (s : sem) : sem :=
  {| mlocked := mlocked s; count := count s; ptlock := ptlock s;
     threads := <[i := p]> (threads s); posts := posts s; waits := waits s |}.
Definition set_mlocked (v : Z) (s : sem) : sem :=
  {| mlocked := v; count := count s; ptlock := ptlock s;
     threads := threads s; posts := posts s; waits := waits s |}.
Definition set_ptlock (v : option nat) (s : sem) : sem :=
  {| mlocked := mlocked s; count := count s; ptlock := v;
     threads := threads s; posts := posts s; waits := waits s |}.
Definition add_count (v d p w : Z) (s : sem) : sem :=
  {| mlocked := mlocked s; count := i32 (v + d); ptlock := ptlock s;
     threads := threads s; posts := posts s + p; waits := waits s + w |}.

(** [while(xchg(&m->locked, 1) != 0) ...;]: on success go on at [p], else
    stay (after [sleep(1)], or [yield] in the kernel's [mutex_lock]). *)
Definition mutex_xchg (i : nat) (p : tpc) (s : sem) : sem :=
  let s' := set_mlocked 1 s in if mlocked s =? 0 then goto i p s' else s'.

(** [movl $0, lk->locked] *)
Definition mutex_clear (i : nat) (p : tpc) (s : sem) : sem := goto i p (set_mlocked 0 s).

(** [acquire(&ptable.lock)]: no step while another has it. *)
Definition ptable_acquire (i : nat) (p : tpc) (s : sem) : option sem :=
  match ptlock s with
  | None => Some (goto i p (set_ptlock (Some i) s))
  | Some _ => None
  end.

(** [wakeup1]: every thread asleep on the channel becomes runnable. *)
Definition wake_all (s : sem) : sem :=
  {| mlocked := mlocked s; count := count s; ptlock := ptlock s;
     threads := (fun p => match p with SAsleep => SResume | _ => p end) <$> threads s;
     posts := posts s; waits := waits s |}.

Definition sem_wait_next (i : nat) (pc : tpc) (s : sem) : option sem :=
  match pc with
  | WLock => Some (mutex_xchg i WTest s)
  | WTest => Some (goto i (if count s =? 0 then SPt else WLoad) s)
  | WLoad => Some (goto i (WStore (count s)) s)
  | WStore v => Some (goto i WUnlock (add_count v (-1) 0 1 s))
  | WUnlock => Some (mutex_clear i TIdle s)
  | _ => None
  end.

(** [thread_sleep(&cv->cond, m)], called by [thread_cond_wait]; its return is
    to the test of [sem_wait]. *)
Definition thread_sleep_next (i : nat) (pc : tpc) (s : sem) : option sem :=
  match pc with
  | SPt => ptable_acquire i SUnl s
  | SUnl => Some (mutex_clear i SSet s)
  | SSet => Some (goto i SAsleep (set_ptlock None s))
  | SResume => ptable_acquire i STidy s
  | STidy => Some (goto i SRelock (set_ptlock None s))
  | SRelock => Some (mutex_xchg i WTest s)
  | _ => None
  end.

Definition sem_post_next (i : nat) (pc : tpc) (s : sem) : option sem :=
  match pc with
  | PLock => Some (mutex_xchg i PLoad s)
  | PLoad => Some (goto i (PStore (count s)) s)
  | PStore v => Some (goto i PUnlock (add_count v 1 1 0 s))
  | PUnlock => Some (mutex_clear i PSignal s)
  | PSignal => ptable_acquire i PWake s
  | PWake => Some (goto i TIdle (set_ptlock None (wake_all s)))
  | _ => None
  end.

Inductive sem_step : sem -> sem -> Prop :=
  | step_wait s i : threads s !! i = Some TIdle -> sem_step s (goto i WLock s)
  | step_post s i : threads s !! i = Some TIdle -> sem_step s (goto i PLock s)
  | step_in_wait s i pc s' :
      threads s !! i = Some pc -> sem_wait_next i pc s = Some s' -> sem_step s s'
  | step_in_sleep s i pc s' :
      threads s !! i = Some pc -> thread_sleep_next i pc s = Some s' -> sem_step s s'
  | step_in_post s i pc s' :
      threads s !! i = Some pc -> sem_post_next i pc s = Some s' -> sem_step s s'
  | step_spurious s i :
      threads s !! i = Some SAsleep -> ptlock s = None -> sem_step s (goto i SResume s).

Inductive sem_reach (c : Z) (n : nat) : sem -> Prop :=
  | sem_reach_init : sem_reach c n (sem_init c n)
  | sem_reach_step s s' : sem_reach c n s -> sem_step s s' -> sem_reach c n s'.

(** ** Invariant *)

(** The thread has the mutex. *)
Definition has_mutex (p : tpc) : bool :=
  match p with
  | WTest | WLoad | WStore _ | WUnlock | SPt | SUnl | PLoad | PStore _ | PUnlock => true
  | _ => false
  end.

(** [ptable.lock] is held on the thread's behalf. *)
Definition has_pt (p : tpc) : bool :=
  match p with SUnl | SSet | STidy | PWake => true | _ => false end.

(** Asleep or certain to sleep. *)
Definition sleepy (p : tpc) : bool := match p with SSet | SAsleep => true | _ => false end.

(** Past the increment and before the wake-up. *)
Definition posting (p : tpc) : bool :=
  match p with PUnlock | PSignal | PWake => true | _ => false end.

(** What a thread knows of the count. *)
Definition knows (c : Z) (p : tpc) : Prop :=
  match p with
  | WLoad => 0 < c
  | WStore v => v = c /\ 0 < c
  | PStore v => v = c
  | SPt | SUnl => c = 0
  | _ => True
  end.

Record sem_ok (c0 : Z) (s : sem) : Prop := {
  sm_bit : mlocked s = 0 \/ mlocked s = 1;
  sm_mutex : forall i p, threads s !! i = Some p -> has_mutex p = true ->
    mlocked s = 1 /\ forall j q, threads s !! j = Some q -> has_mutex q = true -> j = i;
  sm_pt : forall i p, threads s !! i = Some p -> has_pt p = true <-> ptlock s = Some i;
  sm_count : count s = c0 + posts s - waits s /\ 0 <= count s /\ 0 <= posts s /\ 0 <= waits s;
  sm_knows : forall i p, threads s !! i = Some p -> knows (count s) p;
  sm_wake : forall i p, threads s !! i = Some p -> sleepy p = true -> 0 < count s ->
    exists j q, threads s !! j = Some q /\ posting q = true;
}.

Lemma insert_thread (ts : list tpc) i q j r :
  <[i := q]> ts !! j = Some r -> (j = i /\ r = q) \/ (j <> i /\ ts !! j = Some r).
Proof.
  intros H. destruct (decide (i = j)) as [<-|Hne].
  - left. split; [done|]. rewrite list_lookup_insert_eq in H by
      (apply lookup_lt_Some in H; by rewrite length_insert in H). congruence.
  - right. by rewrite list_lookup_insert_ne in H by done.
Qed.

Lemma knows_mutex c c' p : has_mutex p = false -> knows c p -> knows c' p.
Proof. by destruct p. Qed.

(** How one thread's move may change the mutex, [ptable.lock] and the count. *)
Record move (s : sem) (i : nat) (p q : tpc) (ml cnt : Z) (pt : option nat) : Prop := {
  mv_mutex : (ml = mlocked s /\ has_mutex q = has_mutex p) \/
             (mlocked s = 0 /\ ml = 1 /\ has_mutex q = true) \/
             (has_mutex p = true /\ ml = 0 /\ has_mutex q = false);
  mv_pt : (pt = ptlock s /\ has_pt q = has_pt p) \/
          (ptlock s = None /\ pt = Some i /\ has_pt q = true) \/
          (has_pt p = true /\ pt = None /\ has_pt q = false);
  mv_cnt : cnt = count s \/ has_mutex p = true;
  mv_knows : knows cnt q;
  mv_wake : posting q = true \/
            (cnt <= count s /\ posting p = false /\
             (sleepy q = true -> sleepy p = true \/ cnt <= 0));
}.

Lemma move_mutex s i p q ml cnt pt :
  (forall i p, threads s !! i = Some p -> has_mutex p = true ->
    mlocked s = 1 /\ forall j q, threads s !! j = Some q -> has_mutex q = true -> j = i) ->
  threads s !! i = Some p -> move s i p q ml cnt pt ->
  forall k r, <[i := q]> (threads s) !! k = Some r -> has_mutex r = true ->
    ml = 1 /\ forall j r', <[i := q]> (threads s) !! j = Some r' -> has_mutex r' = true -> j = k.
Proof.
  intros H Hi [Hm _ _ _ _] k r Hk Hr. destruct (insert_thread _ _ _ _ _ Hk) as [[-> ->]|[Hne Hk0]].
  - split.
    + destruct Hm as [[-> E]|[(_ & -> & _)|(_ & _ & E)]]; [|done|congruence].
      apply (H i p Hi). congruence.
    + intros j r' Hj Hr'. destruct (insert_thread _ _ _ _ _ Hj) as [[-> ->]|[Hnj Hj0]]; [done|].
      destruct Hm as [[-> E]|[(E0 & _ & _)|(_ & _ & E)]]; [|destruct (H j r' Hj0 Hr'); lia|congruence].
      by apply (proj2 (H i p Hi ltac:(congruence)) j r').
  - destruct (H k r Hk0 Hr) as [H1 H2]. split.
    + destruct Hm as [[-> _]|[(_ & -> & _)|(Hp & _ & _)]]; [done|done|]. destruct Hne. by rewrite (H2 i p Hi Hp).
    + intros j r' Hj Hr'. destruct (insert_thread _ _ _ _ _ Hj) as [[-> ->]|[Hnj Hj0]]; [|by eapply H2].
      destruct Hm as [[-> E]|[(E0 & _ & _)|(_ & _ & E)]]; [|lia|congruence].
      apply (H2 i p Hi). congruence.
Qed.

Lemma sem_ok_move c0 s i p q ml cnt pt po wa :
  sem_ok c0 s -> threads s !! i = Some p -> move s i p q ml cnt pt ->
  cnt = c0 + po - wa -> 0 <= cnt -> 0 <= po -> 0 <= wa ->
  sem_ok c0 {| mlocked := ml; count := cnt; ptlock := pt; threads := <[i := q]> (threads s);
               posts := po; waits := wa |}.
Proof.
  intros [Hb Hm Hp Hc Hk Hw] Hi Hmv Ec ? ? ?. pose proof (move_mutex _ _ _ _ _ _ _ Hm Hi Hmv) as Hm'.
  destruct Hmv as [Mm Mp Mc Mk Mw]. split; cbn; try done.
  - destruct Mm as [[-> _]|[(_ & -> & _)|(_ & -> & _)]]; auto.
  - intros j r Hj. destruct (insert_thread _ _ _ _ _ Hj) as [[-> ->]|[Hne Hj0]].
    + destruct Mp as [[-> ->]|[(_ & -> & ->)|(_ & -> & ->)]]; [by apply Hp|done|done].
    + rewrite (Hp j r Hj0). destruct Mp as [[-> _]|[(-> & -> & _)|(E & -> & _)]]; [done| |].
      * split; [done|congruence].
      * split; [|done]. intros E'. apply (Hp i p Hi) in E. congruence.
  - intros j r Hj. destruct (insert_thread _ _ _ _ _ Hj) as [[-> ->]|[Hne Hj0]]; [done|].
    destruct Mc as [-> | Hpm]; [by eapply Hk|]. eapply knows_mutex; [|by eapply Hk].
    apply not_true_iff_false. intros Hr. apply Hne. by apply (proj2 (Hm i p Hi Hpm) j r).
  - assert (Hin : <[i := q]> (threads s) !! i = Some q).
    { apply list_lookup_insert_eq. by eapply lookup_lt_Some. }
    intros j r Hj Hs Hpos. destruct Mw as [Hq|(Hle & Hpp & Hsl)]; [by exists i, q|].
    assert (exists j q0, threads s !! j = Some q0 /\ posting q0 = true) as (k & qk & Hk0 & Hqk).
    { destruct (insert_thread _ _ _ _ _ Hj) as [[-> ->]|[Hne Hj0]].
      - destruct (Hsl Hs) as [Hsp|]; [|lia]. eapply Hw; [exact Hi|done|lia].
      - eapply Hw; [exact Hj0|done|lia]. }
    exists k, qk. split; [|done]. rewrite list_lookup_insert_ne; [done|]. intros <-. congruence.
Qed.

Lemma sem_ok_wake c0 s i :
  sem_ok c0 s -> threads s !! i = Some PWake ->
  sem_ok c0 (goto i TIdle (set_ptlock None (wake_all s))).
Proof.
  intros [Hb Hm Hp Hc Hk Hw] Hi.
  assert (Hl : forall j r, threads (goto i TIdle (set_ptlock None (wake_all s))) !! j = Some r ->
            sleepy r = false /\ (has_pt r = false) /\
            exists r0, threads s !! j = Some r0 /\ (has_mutex r = true -> has_mutex r0 = true) /\ (knows (count s) r0 -> knows (count s) r)).
  { intros j r Hj. cbn in Hj. destruct (insert_thread _ _ _ _ _ Hj) as [[-> ->]|[Hne Hj0]]; [eauto 10|].
    apply list_lookup_fmap_Some in Hj0 as (r0 & -> & Hr0).
    assert (has_pt r0 = false).
    { apply not_true_iff_false. intros Hr. apply (Hp j r0 Hr0) in Hr.
      pose proof (proj1 (Hp i PWake Hi) eq_refl). congruence. }
    destruct r0; cbn in *; try done; split_and!; try done; eexists; split_and!; try done. }
  split; [done| | |exact Hc| |].
  - intros j r Hj Hr. destruct (Hl j r Hj) as (_ & _ & r0 & Hr0 & Hmx & _).
    destruct (Hm j r0 Hr0 (Hmx Hr)) as [H1 H2]. split; [exact H1|].
    intros j' r' Hj' Hr'. destruct (Hl j' r' Hj') as (_ & _ & r0' & Hr0' & Hmx' & _). by apply (H2 j' r0'); auto.
  - intros j r Hj. destruct (Hl j r Hj) as (_ & -> & _). done.
  - intros j r Hj. destruct (Hl j r Hj) as (_ & _ & r0 & Hr0 & _ & Hkn). apply Hkn. by eapply Hk.
  - intros j r Hj Hs. destruct (Hl j r Hj) as (E & _). congruence.
Qed.

Lemma i32_dec v : 0 < v < 2147483648 -> i32 (v + -1) = v - 1.
Proof. intros. rewrite i32_small by lia. lia. Qed.

Lemma i32_inc v : 0 <= v < 2147483647 -> i32 (v + 1) = v + 1.
Proof. intros. by rewrite i32_small by lia. Qed.

(** The spin loop on the mutex word. *)
Lemma sem_ok_xchg c0 s i p q :
  sem_ok c0 s -> threads s !! i = Some p ->
  has_mutex p = false -> has_mutex q = true -> has_pt q = has_pt p ->
  posting p = false -> sleepy q = false -> (forall c, knows c q) ->
  sem_ok c0 (mutex_xchg i q s).
Proof.
  intros Hok Hi Hp Hq Hpt Hpo Hsl Hk. pose proof Hok as [Hb _ _ (Hc & ? & ? & ?) _ _].
  unfold mutex_xchg. destruct (Z.eqb_spec (mlocked s) 0) as [E|E].
  - eapply (sem_ok_move _ s _ p q); try done.
    split; [by right; left|by left|by left|done|]. right. split_and!; [done|done|by rewrite Hsl].
  - destruct Hb as [?|E1]; [done|]. unfold set_mlocked. rewrite <- E1. by destruct s.
Qed.

Lemma sem_ok_clear c0 s i p q :
  sem_ok c0 s -> threads s !! i = Some p ->
  has_mutex p = true -> has_mutex q = false -> has_pt q = has_pt p ->
  posting p = posting q -> (sleepy q = true -> count s <= 0) -> (forall c, knows c q) ->
  sem_ok c0 (mutex_clear i q s).
Proof.
  intros Hok Hi Hp Hq Hpt Hpo Hsl Hk. pose proof Hok as [Hb _ _ (Hc & ? & ? & ?) _ _].
  eapply (sem_ok_move _ s _ p q); try done.
  split; [by right; right|by left|by left|done|].
  destruct (posting q); [by left|]. right. split_and!; [done|done|auto].
Qed.

Lemma sem_ok_ptacquire c0 s i p q s' :
  sem_ok c0 s -> threads s !! i = Some p -> ptable_acquire i q s = Some s' ->
  has_mutex q = has_mutex p -> has_pt q = true -> posting p = posting q -> sleepy q = false ->
  (knows (count s) p -> knows (count s) q) -> sem_ok c0 s'.
Proof.
  intros Hok Hi Hs Hp Hpt Hpo Hsl Hk. pose proof Hok as [Hb _ _ (Hc & ? & ? & ?) Hkn _].
  unfold ptable_acquire in Hs. destruct (ptlock s) eqn:E; simplify_eq.
  eapply (sem_ok_move _ s _ p q); try done.
  split; [by left|by right; left|by left|by eapply Hk, Hkn|].
  destruct (posting q); [by left|]. right. by rewrite Hsl.
Qed.

(** A move that leaves the shared words alone, except that it may give up
    [ptable.lock]. *)
Lemma sem_ok_goto c0 s i p q pt :
  sem_ok c0 s -> threads s !! i = Some p -> has_mutex q = has_mutex p ->
  ((pt = ptlock s /\ has_pt q = has_pt p) \/ (has_pt p = true /\ pt = None /\ has_pt q = false)) ->
  posting p = false -> (sleepy q = true -> sleepy p = true) -> (knows (count s) p -> knows (count s) q) ->
  sem_ok c0 (goto i q (set_ptlock pt s)).
Proof.
  intros Hok Hi Hp Hpt Hpo Hsl Hk. pose proof Hok as [Hb _ _ (Hc & ? & ? & ?) Hkn _].
  eapply (sem_ok_move _ s _ p q); try done.
  split; [by left| |by left|by eapply Hk, Hkn|].
  - destruct Hpt as [?|?]; auto.
  - right. split_and!; [done|done|auto].
Qed.

Lemma sem_ok_goto0 c0 s i p q :
  sem_ok c0 s -> threads s !! i = Some p -> has_mutex q = has_mutex p -> has_pt q = has_pt p ->
  posting p = false -> (sleepy q = true -> sleepy p = true) -> (knows (count s) p -> knows (count s) q) ->
  sem_ok c0 (goto i q s).
Proof.
  intros Hok Hi Hp Hpt Hpo Hsl Hk. replace s with (set_ptlock (ptlock s) s) by (by destruct s).
  eapply sem_ok_goto; eauto.
Qed.

Lemma sem_ok_step c0 s s' :
  sem_ok c0 s -> sem_step s s' -> c0 + posts s' < 2147483648 -> sem_ok c0 s'.
Proof.
  intros Hok Hst Hbd. pose proof Hok as [Hb Hmx _ (Hc & H1 & H2 & H3) Hkn _].
  destruct Hst as [s i Hi|s i Hi|s i pc s' Hi E|s i pc s' Hi E|s i pc s' Hi E|s i Hi Hpt].
  - by eapply sem_ok_goto0; eauto.
  - by eapply sem_ok_goto0; eauto.
  - pose proof (Hkn i pc Hi) as Hk. destruct pc; cbn in E; simplify_eq; cbn in Hk.
    + by eapply sem_ok_xchg.
    + destruct (Z.eqb_spec (count s) 0); eapply sem_ok_goto0; eauto; cbn; try done; intros; lia.
    + eapply sem_ok_goto0; eauto; done.
    + destruct Hk as [-> Hpos]. cbn in Hbd. rewrite Z.add_0_r in Hbd.
      eapply (sem_ok_move _ s _ (WStore (count s)) WUnlock); try done; cbn; rewrite ?i32_dec by lia; try lia.
      split; cbn; auto. right. split_and!; [lia|done|done].
    + by eapply sem_ok_clear.
  - pose proof (Hkn i pc Hi) as Hk. destruct pc; cbn in E; simplify_eq; cbn in Hk.
    + eapply sem_ok_ptacquire; [exact Hok|exact Hi|exact E|..]; done.
    + eapply sem_ok_clear; [exact Hok|exact Hi|..]; try done. cbn. lia.
    + eapply sem_ok_goto; eauto.
    + eapply sem_ok_ptacquire; [exact Hok|exact Hi|exact E|..]; done.
    + eapply sem_ok_goto; eauto.
    + by eapply sem_ok_xchg.
  - pose proof (Hkn i pc Hi) as Hk. destruct pc; cbn in E; simplify_eq; cbn in Hk.
    + by eapply sem_ok_xchg.
    + eapply sem_ok_goto0; eauto; done.
    + subst v. cbn in Hbd.
      eapply (sem_ok_move _ s _ (PStore (count s)) PUnlock); try done; cbn; rewrite ?i32_inc by lia; try lia.
      split; cbn; auto.
    + by eapply sem_ok_clear.
    + eapply sem_ok_ptacquire; [exact Hok|exact Hi|exact E|..]; done.
    + by apply sem_ok_wake.
  - by eapply sem_ok_goto0; eauto.
Qed.

Lemma posts_mono s s' : sem_step s s' -> posts s <= posts s'.
Proof.
  assert (Hx : forall i q s, posts (mutex_xchg i q s) = posts s).
  { intros i q t. unfold mutex_xchg. by destruct (_ =? _). }
  assert (Ha : forall i q s s', ptable_acquire i q s = Some s' -> posts s' = posts s).
  { intros i q t t' H. unfold ptable_acquire in H. destruct (ptlock t); by simplify_eq. }
  destruct 1 as [s i Hi|s i Hi|s i pc s' Hi E|s i pc s' Hi E|s i pc s' Hi E|s i Hi Hpt]; try done;
    destruct pc; cbn in E; try (rewrite (Ha _ _ _ _ E); done); simplify_eq; rewrite ?Hx; cbn; lia.
Qed.

Lemma sem_reach_ok c0 n s :
  0 <= c0 -> sem_reach c0 n s -> c0 + posts s < 2147483648 -> sem_ok c0 s.
Proof.
  intros H0 Hr. induction Hr as [|s s' _ IH Hst]; intros Hbd.
  - cbn in Hbd.
    assert (Hl : forall i p, threads (sem_init c0 n) !! i = Some p -> p = TIdle).
    { intros i p Hi. by apply lookup_replicate in Hi as [? _]. }
    split; cbn; [by left|..]; rewrite ?(i32_small c0) by lia; try lia;
      intros i p Hi; rewrite (Hl i p Hi); done.
  - eapply sem_ok_step; [apply IH|exact Hst|exact Hbd]. pose proof (posts_mono _ _ Hst). lia.
Qed.

(** ** Properties *)

(** C21. Whatever the interleaving, the mutex admits one thread at a
    time, and the count is the initial count plus the posts minus the waits
    done: no update of it is lost although [count++] and [count--] are not
    atomic, and the completed waits never exceed the initial count plus the
    posts (as long as the count fits an [int]). *)
Theorem sem_counts c0 n s :
  0 <= c0 -> sem_reach c0 n s -> c0 + posts s < 2147483648 ->
  count s = c0 + posts s - waits s /\ 0 <= waits s <= c0 + posts s /\
  forall i j p q, threads s !! i = Some p -> threads s !! j = Some q ->
    has_mutex p = true -> has_mutex q = true -> i = j.
Proof.
  intros H0 Hr Hb. destruct (sem_reach_ok _ _ _ H0 Hr Hb) as [_ Hm _ (Hc & ? & ? & ?) _ _].
  split_and!; [done|lia|lia|]. intros i j p q Hi Hj Hp Hq. by apply (proj2 (Hm j q Hj Hq) i p).
Qed.

(** A thread is asleep in [sem_wait] with a positive count only
    while some thread is in [sem_post] between its increment and the end of its
    wake-up, which will make the sleeper runnable: the release of the mutex
    inside [thread_sleep] before the thread is marked sleeping loses no
    wake-up. *)
Theorem sem_no_lost_wakeup c0 n s i :
  0 <= c0 -> sem_reach c0 n s -> c0 + posts s < 2147483648 ->
  threads s !! i = Some SAsleep -> 0 < count s ->
  exists j q, threads s !! j = Some q /\ posting q = true /\ (q = PWake ->
    sem_post_next j q s = Some (goto j TIdle (set_ptlock None (wake_all s))) /\
    threads (goto j TIdle (set_ptlock None (wake_all s))) !! i = Some SResume).
Proof.
  intros H0 Hr Hb Hi Hc. destruct (sem_reach_ok _ _ _ H0 Hr Hb) as [_ _ _ _ _ Hw].
  destruct (Hw i SAsleep Hi eq_refl Hc) as (j & q & Hj & Hq). exists j, q. split_and!; [done..|].
  intros ->. split; [done|]. cbn. rewrite list_lookup_insert_ne by congruence.
  by rewrite list_lookup_fmap, Hi.
Qed.

(** ** Concrete runs *)

(** One step of thread [i], which begins the call [w] ([true] for [sem_wait])
    when it is idle. *)
Definition sem_try (w : bool) (i : nat) (s : sem) : option sem :=
  match threads s !! i with
  | Some TIdle => Some (goto i (if w then WLock else PLock) s)
  | Some pc =>
      match sem_wait_next i pc s with
      | Some s' => Some s'
      | None => match thread_sleep_next i pc s with
                | Some s' => Some s'
                | None => sem_post_next i pc s
                end
      end
  | None => None
  end.

Fixpoint sem_run (s : sem) (sched : list (nat * bool)) : option sem :=
  match sched with
  | [] => Some s
  | (i, w) :: sched' => match sem_try w i s with Some s' => sem_run s' sched' | None => None end
  end.

Lemma sem_run_reach c n s sched s' :
  sem_reach c n s -> sem_run s sched = Some s' -> sem_reach c n s'.
Proof.
  revert s. induction sched as [|[i w] sched IH]; intros s Hr Hs; cbn in Hs; [by simplify_eq|].
  destruct (sem_try w i s) as [s1|] eqn:E; [|done]. apply (IH s1); [|done].
  eapply sem_reach_step; [exact Hr|]. unfold sem_try in E.
  destruct (threads s !! i) as [pc|] eqn:Ei; [|done].
  destruct (decide (pc = TIdle)) as [->|Hne].
  - simplify_eq. destruct w; by constructor.
  - assert (match sem_wait_next i pc s with
      | Some s' => Some s'
      | None => match thread_sleep_next i pc s with Some s' => Some s' | None => sem_post_next i pc s end
      end = Some s1) as E' by (by destruct pc).
    destruct (sem_wait_next i pc s) eqn:E1; [simplify_eq; by eapply step_in_wait|].
    destruct (thread_sleep_next i pc s) eqn:E2; [simplify_eq; by eapply step_in_sleep|].
    by eapply step_in_post.
Qed.

(** Thread 0 waits and sleeps; thread 1 posts and is about to wake it. *)
Definition sem_demo : sem :=
  {| mlocked := 0; count := 1; ptlock := Some 1%nat; threads := [SAsleep; PWake];
     posts := 1; waits := 0 |}.

Lemma sem_demo_reach : sem_reach 0 2 sem_demo.
Proof.
  eapply (sem_run_reach 0 2 (sem_init 0 2)
    (replicate 6 (0%nat, true) ++ replicate 6 (1%nat, false))); [constructor|reflexivity].
Qed.

Lemma sem_no_lost_wakeup_witness :
  threads sem_demo !! 0%nat = Some SAsleep /\
  exists j q, threads sem_demo !! j = Some q /\ posting q = true.
Proof.
  split; [reflexivity|].
  destruct (sem_no_lost_wakeup 0 2 sem_demo 0) as (j & q & H1 & H2 & _);
    first [exact sem_demo_reach | reflexivity | cbn; lia | exists j, q; split; assumption].
Defined.

Lemma sem_counts_witness :
  sem_reach 0 2 sem_demo /\ count sem_demo = 0 + posts sem_demo - waits sem_demo.
Proof.
  split; [exact sem_demo_reach|].
  apply (sem_counts 0 2 sem_demo); first [exact sem_demo_reach | cbn; lia].
Defined.
