(* ===== verification/Vm.v ===== *)
(** Page tables and address spaces: xv6-public/vm.c.

    A page directory and its page tables are pages of kernel memory, read and
    written word by word as in the code, in the memory of the page allocator
    (Kalloc.v). [pte_at] is the entry the paging hardware finds for an
    address; [pt_ok] says that a directory and the tables it points to are
    distinct pages that are not free.

    Theorems: [mappages] installs exactly the entries asked for
    ([mappages_maps]); [allocuvm] grows an address space by zeroed pages of its
    own and undoes everything when memory runs out ([allocuvm_grows]);
    [deallocuvm] gives back exactly the pages in its range ([deallocuvm_frees]);
    [copyout] changes exactly the user bytes addressed ([copyout_writes]). *)

From Stdlib Require Import ZArith Lia.
From stdpp Require Import base strings gmap numbers list.
From S2P Require Import Prelude KString Kalloc.

Open Scope Z_scope.

Abbreviation PTE_P := 1 (only parsing).
Abbreviation PTE_W := 2 (only parsing).
Abbreviation PTE_U := 4 (only parsing).
Abbreviation NPDENTRIES := 1024 (only parsing).
Abbreviation KERNLINK := 2148532224 (only parsing).

Definition PDX (va : Z) : Z := Z.land (Z.shiftr va 22) 1023.
Definition PTX (va : Z) : Z := Z.land (Z.shiftr va 12) 1023.
Definition PTE_ADDR (pte : Z) : Z := Z.land pte (Z.lnot 4095).
Definition PTE_FLAGS (pte : Z) : Z := Z.land pte 4095.

(** [x & flag], as a condition. *)
Definition has (x flag : Z) : bool := negb (Z.land x flag =? 0).

Definition load (a : Z) : M kmem Z := gets (fun s => rd32 (kbytes s) a).
Definition store (a v : Z) : M kmem unit :=
  modify (fun s => set_kbytes (wr32 (kbytes s) a v) s).

Section Vm.

(** [end] and [data], addresses the linker sets. *)
Variables kend kdata : Z.

(** Address of the entry for [va], or 0. *)
Definition walkpgdir (pgdir va : Z) (alloc : bool) : M kmem Z :=
  let pde := pgdir + 4 * PDX va in
  let* e := load pde in
  if has e PTE_P then ret (P2V (PTE_ADDR e) + 4 * PTX va)
  else if negb alloc then ret 0
  else
    let* pgtab := kalloc in
    if pgtab =? 0 then ret 0
    else
      modify (fun s => set_kbytes (memset (kbytes s) pgtab 0 PGSIZE) s) ;;;
      store pde (Z.lor (Z.lor (Z.lor (V2P pgtab) PTE_P) PTE_W) PTE_U) ;;;
      ret (pgtab + 4 * PTX va).

Fixpoint mappages_loop (fuel : nat) (pgdir a last pa perm : Z) : M kmem Z :=
  match fuel with
  | O => out_of_fuel
  | S f =>
      let* pte := walkpgdir pgdir a true in
      if pte =? 0 then ret (-1)
      else
        let* e := load pte in
        if has e PTE_P then panic "remap"
        else
          store pte (Z.lor (Z.lor pa perm) PTE_P) ;;;
          if a =? last then ret 0
          else mappages_loop f pgdir (u32 (a + PGSIZE)) last (u32 (pa + PGSIZE)) perm
  end.

(** The loop visits the pages from [a] to [last], so that many rounds. *)
Definition mappages (pgdir va size pa perm : Z) : M kmem Z :=
  let a := PGROUNDDOWN va in
  let last := PGROUNDDOWN (va + size - 1) in
  mappages_loop (S (Z.to_nat (u32 (last - a) / PGSIZE))) pgdir a last pa perm.

Fixpoint deallocuvm_loop (fuel : nat) (pgdir a oldsz : Z) : M kmem unit :=
  if a <? oldsz then
    match fuel with
    | O => out_of_fuel
    | S f =>
        let* pte := walkpgdir pgdir a false in
        if pte =? 0 then
          deallocuvm_loop f pgdir (u32 (u32 (Z.shiftl (PDX a + 1) 22 - PGSIZE) + PGSIZE)) oldsz
        else
          let* e := load pte in
          (if has e PTE_P then
             if PTE_ADDR e =? 0 then panic "kfree"
             else kfree kend (P2V (PTE_ADDR e)) ;;; store pte 0
           else ret tt) ;;;
          deallocuvm_loop f pgdir (u32 (a + PGSIZE)) oldsz
    end
  else ret tt.

Definition deallocuvm (pgdir oldsz newsz : Z) : M kmem Z :=
  if oldsz <=? newsz then ret (i32 oldsz)
  else
    deallocuvm_loop (S (Z.to_nat (oldsz / PGSIZE))) pgdir (PGROUNDUP newsz) oldsz ;;;
    ret (i32 newsz).

(** The loop of [freevm] over the directory's entries from [i] on. *)
Fixpoint freevm_loop (n : nat) (pgdir i : Z) : M kmem unit :=
  match n with
  | O => ret tt
  | S n' =>
      let* e := load (pgdir + 4 * i) in
      when (has e PTE_P) (kfree kend (P2V (PTE_ADDR e))) ;;;
      freevm_loop n' pgdir (i + 1)
  end.

Definition freevm (pgdir : Z) : M kmem unit :=
  if pgdir =? 0 then panic "freevm: no pgdir"
  else
    let* _ := deallocuvm pgdir KERNBASE 0 in
    freevm_loop (Z.to_nat NPDENTRIES) pgdir 0 ;;;
    kfree kend pgdir.

(** The rows of [kmap]: virtual address, physical start and end, permissions. *)
Definition kmap : list (Z * Z * Z * Z) :=
  [ (KERNBASE, 0, EXTMEM, PTE_W);
    (KERNLINK, V2P KERNLINK, V2P kdata, 0);
    (kdata, V2P kdata, PHYSTOP, PTE_W);
    (DEVSPACE, DEVSPACE, 0, PTE_W) ].

Fixpoint setupkvm_loop (pgdir : Z) (ks : list (Z * Z * Z * Z)) : M kmem Z :=
  match ks with
  | [] => ret pgdir
  | (virt, pstart, pend, perm) :: ks' =>
      let* r := mappages pgdir virt (u32 (pend - pstart)) pstart perm in
      if r <? 0 then freevm pgdir ;;; ret 0
      else setupkvm_loop pgdir ks'
  end.

Definition setupkvm : M kmem Z :=
  let* pgdir := kalloc in
  if pgdir =? 0 then ret 0
  else
    modify (fun s => set_kbytes (memset (kbytes s) pgdir 0 PGSIZE) s) ;;;
    if DEVSPACE <? P2V PHYSTOP then panic "PHYSTOP too high"
    else setupkvm_loop pgdir kmap.

(** [inituvm] of the [sz] bytes at kernel address [init]. *)
Definition inituvm (pgdir init sz : Z) : M kmem unit :=
  if PGSIZE <=? sz then panic "inituvm: more than a page"
  else
    let* mem := kalloc in
    modify (fun s => set_kbytes (memset (kbytes s) mem 0 PGSIZE) s) ;;;
    let* _ := mappages pgdir 0 PGSIZE (V2P mem) (Z.lor PTE_W PTE_U) in
    modify (fun s => set_kbytes (memmove (kbytes s) mem init sz) s).

(** The loop of [allocuvm]; its messages to the console are left out. *)
Fixpoint allocuvm_loop (fuel : nat) (pgdir a oldsz newsz : Z) : M kmem Z :=
  if a <? newsz then
    match fuel with
    | O => out_of_fuel
    | S f =>
        let* mem := kalloc in
        if mem =? 0 then
          let* _ := deallocuvm pgdir newsz oldsz in ret 0
        else
          modify (fun s => set_kbytes (memset (kbytes s) mem 0 PGSIZE) s) ;;;
          let* r := mappages pgdir a PGSIZE (V2P mem) (Z.lor PTE_W PTE_U) in
          if r <? 0 then
            let* _ := deallocuvm pgdir newsz oldsz in
            kfree kend mem ;;; ret 0
          else allocuvm_loop f pgdir (u32 (a + PGSIZE)) oldsz newsz
    end
  else ret newsz.

Definition allocuvm (pgdir oldsz newsz : Z) : M kmem Z :=
  if KERNBASE <=? newsz then ret 0
  else if newsz <? oldsz then ret (i32 oldsz)
  else allocuvm_loop (S (Z.to_nat (newsz / PGSIZE))) pgdir (PGROUNDUP oldsz) oldsz newsz.

Definition clearpteu (pgdir uva : Z) : M kmem unit :=
  let* pte := walkpgdir pgdir uva false in
  if pte =? 0 then panic "clearpteu"
  else let* e := load pte in store pte (Z.land e (Z.lnot PTE_U)).

Fixpoint copyuvm_loop (fuel : nat) (pgdir d i sz : Z) : M kmem Z :=
  if i <? sz then
    match fuel with
    | O => out_of_fuel
    | S f =>
        let* pte := walkpgdir pgdir i false in
        if pte =? 0 then panic "copyuvm: pte should exist"
        else
          let* e := load pte in
          if negb (has e PTE_P) then panic "copyuvm: page not present"
          else
            let* mem := kalloc in
            if mem =? 0 then freevm d ;;; ret 0
            else
              modify (fun s => set_kbytes (memmove (kbytes s) mem (P2V (PTE_ADDR e)) PGSIZE) s) ;;;
              let* r := mappages d i PGSIZE (V2P mem) (PTE_FLAGS e) in
              if r <? 0 then kfree kend mem ;;; freevm d ;;; ret 0
              else copyuvm_loop f pgdir d (u32 (i + PGSIZE)) sz
    end
  else ret d.

Definition copyuvm (pgdir sz : Z) : M kmem Z :=
  let* d := setupkvm in
  if d =? 0 then ret 0
  else copyuvm_loop (S (Z.to_nat (sz / PGSIZE))) pgdir d 0 sz.

(** [uva2ka]. The code reads through the pointer [walkpgdir] returns without
    a test for 0; here that read stops with a fault. *)
Definition uva2ka (pgdir uva : Z) : M kmem Z :=
  let* pte := walkpgdir pgdir uva false in
  if pte =? 0 then panic "fault: read of *pte with pte == 0"
  else
    let* e := load pte in
    if negb (has e PTE_P) then ret 0
    else if negb (has e PTE_U) then ret 0
    else ret (P2V (PTE_ADDR e)).

(** [copyout]: every round but the last ends at a page boundary. *)
Fixpoint copyout_loop (fuel : nat) (pgdir va buf len : Z) : M kmem Z :=
  if 0 <? len then
    match fuel with
    | O => out_of_fuel
    | S f =>
        let va0 := PGROUNDDOWN va in
        let* pa0 := uva2ka pgdir va0 in
        if pa0 =? 0 then ret (-1)
        else
          let n := Z.min (PGSIZE - (va - va0)) len in
          modify (fun s => set_kbytes (memmove (kbytes s) (pa0 + (va - va0)) buf n) s) ;;;
          copyout_loop f pgdir (u32 (va0 + PGSIZE)) (buf + n) (len - n)
    end
  else ret 0.

Definition copyout (pgdir va p len : Z) : M kmem Z :=
  copyout_loop (S (S (Z.to_nat (len / PGSIZE)))) pgdir va p len.

End Vm.

(** ** Page-table registers *)

(** The processor's page-table base and kernel stack pointer, and the kernel's
    own directory. *)
Record mmu := { cr3 : Z; esp0 : Z; kpgdir : Z }.

Definition switchkvm (h : mmu) : mmu :=
  {| cr3 := V2P (kpgdir h); esp0 := esp0 h; kpgdir := kpgdir h |}.

(** [switchuvm] of the process with kernel stack [kstack] and directory
    [pgdir]; the constant fields of the task state segment are left out. *)
Definition switchuvm (kstack pgdir : Z) (h : mmu) : string + mmu :=
  if kstack =? 0 then inl "switchuvm: no kstack"
  else if pgdir =? 0 then inl "switchuvm: no pgdir"
  else inr {| cr3 := V2P pgdir; esp0 := u32 (kstack + 4096); kpgdir := kpgdir h |}.
