(* ===== verification/VmSpec.v ===== *)
(** Properties of the page tables and address spaces of Vm.v. *)

From Stdlib Require Import ZArith Lia.
From stdpp Require Import base strings gmap numbers list.
From S2P Require Import Prelude KString Kalloc Vm.

Open Scope Z_scope.

(** ** Bit fields of addresses and entries *)

Lemma PDX_div va : 0 <= va < 4294967296 -> PDX va = va / 4194304.
Proof.
  intros H. unfold PDX. change 1023 with (Z.ones 10).
  rewrite Z.land_ones, Z.shiftr_div_pow2 by lia. change (2 ^ 22) with 4194304. change (2 ^ 10) with 1024.
  apply Z.mod_small. dlia.
Qed.

Lemma PTX_div va : PTX va = (va / PGSIZE) mod 1024.
Proof.
  unfold PTX. change 1023 with (Z.ones 10).
  rewrite Z.land_ones, Z.shiftr_div_pow2 by lia. done.
Qed.

Lemma PTE_ADDR_sub x : PTE_ADDR x = x - x mod PGSIZE.
Proof. unfold PTE_ADDR. apply (land_page_mask x). Qed.

Lemma lor_page pa y : pa mod PGSIZE = 0 -> 0 <= y < PGSIZE -> Z.lor pa y = pa + y.
Proof.
  intros Hp Hy. replace pa with (Z.shiftl (pa / PGSIZE) 12).
  - apply lor_shiftl; [lia|exact Hy].
  - rewrite Z.shiftl_mul_pow2 by lia. change (2 ^ 12) with PGSIZE. dlia.
Qed.

Lemma land_low pa y f :
  pa mod PGSIZE = 0 -> 0 <= y < PGSIZE -> 0 <= f < PGSIZE -> Z.land (pa + y) f = Z.land y f.
Proof.
  intros Hp Hy Hf.
  assert (E : forall x, Z.land x f = Z.land (x mod PGSIZE) f).
  { intros x. change PGSIZE with (2 ^ 12). rewrite <- Z.land_ones by lia.
    rewrite <- Z.land_assoc. f_equal. symmetry. rewrite Z.land_comm, Z.land_ones by lia.
    apply Z.mod_small. exact Hf. }
  rewrite (E (pa + y)). f_equal. dlia.
Qed.

(** An entry made of a page address and flags. *)
Lemma entry_fields pa y :
  pa mod PGSIZE = 0 -> 0 <= y < PGSIZE ->
  PTE_ADDR (pa + y) = pa /\ PTE_FLAGS (pa + y) = y /\
  (forall f, 0 <= f < PGSIZE -> has (pa + y) f = has y f).
Proof.
  intros Hp Hy. split_and!.
  - rewrite PTE_ADDR_sub. dlia.
  - unfold PTE_FLAGS. change 4095 with (Z.ones 12). rewrite Z.land_ones by lia.
    change (2 ^ 12) with PGSIZE. dlia.
  - intros f Hf. unfold has. by rewrite land_low.
Qed.

Lemma lor_bound a b n : 0 <= n -> 0 <= a < 2 ^ n -> 0 <= b < 2 ^ n -> 0 <= Z.lor a b < 2 ^ n.
Proof.
  intros Hn Ha Hb. assert (Z.lor a b = Z.lor a b mod 2 ^ n) as ->.
  { rewrite <- Z.land_ones, Z.land_lor_distr_l, !Z.land_ones, !Z.mod_small by lia. done. }
  apply Z.mod_pos_bound. lia.
Qed.

Lemma has_lor_r a b f : has b f = true -> has (Z.lor a b) f = true.
Proof.
  unfold has. rewrite !negb_true_iff, !Z.eqb_neq. intros H E. apply H.
  rewrite Z.land_lor_distr_l in E. apply Z.lor_eq_0_iff in E as [_ E]. done.
Qed.

(** The entry [mappages] stores. *)
Lemma pte_fields pa perm :
  pa mod PGSIZE = 0 -> 0 <= pa < 4294967296 -> 0 <= perm < PGSIZE ->
  let e := (Z.lor (Z.lor pa perm) PTE_P) in
  e = pa + Z.lor perm PTE_P /\ PTE_ADDR e = pa /\ PTE_FLAGS e = Z.lor perm PTE_P /\
  has e PTE_P = true /\ 0 <= e < 4294967296.
Proof.
  intros Hp Hr Hf. cbn zeta. rewrite <- Z.lor_assoc.
  assert (Hb : 0 <= Z.lor perm PTE_P < PGSIZE).
  { change PGSIZE with (2 ^ 12) in *. apply lor_bound; lia. }
  rewrite lor_page by done. destruct (entry_fields pa (Z.lor perm PTE_P) Hp Hb) as (Ha & Hfl & Hh).
  split_and!; try done; [rewrite Hh by lia; by apply has_lor_r| |]; dlia.
Qed.

Lemma P2V_V2P p : KERNBASE <= p < 4294967296 -> P2V (V2P p) = p.
Proof. intros. unfold P2V, V2P. rewrite u32_add_l, u32_small by lia. lia. Qed.

Lemma V2P_P2V a : 0 <= a < KERNBASE -> V2P (P2V a) = a.
Proof. intros. unfold P2V, V2P. rewrite u32_sub_l, u32_small by lia. lia. Qed.

(** ** Directories and tables in memory *)

Definition inpg (p a : Z) : Prop := p <= a < p + PGSIZE.

Definition pde (m : mem) (pgdir i : Z) : Z := rd32 m (pgdir + 4 * i).
Definition tab (m : mem) (pgdir i : Z) : Z := P2V (PTE_ADDR (pde m pgdir i)).
Definition pde_p (m : mem) (pgdir i : Z) : bool := has (pde m pgdir i) PTE_P.

(** Address of the entry for [va], 0 when its table is missing. *)
Definition slot (m : mem) (pgdir va : Z) : Z :=
  if pde_p m pgdir (PDX va) then tab m pgdir (PDX va) + 4 * PTX va else 0.

(** The entry for [va], 0 (not present) when its table is missing. *)
Definition pte_at (m : mem) (pgdir va : Z) : Z :=
  if pde_p m pgdir (PDX va) then rd32 m (tab m pgdir (PDX va) + 4 * PTX va) else 0.

Section Tables.

Variable kend : Z.
Hypothesis kend_high : KERNLINK <= kend.

(** The directory and its tables are pages of their own. *)
Record pt_ok (m : mem) (pgdir : Z) (free : list Z) : Prop := {
  pt_dir : page_ok kend pgdir;
  pt_dir_free : pgdir ∉ free;
  pt_tab : forall i, 0 <= i < 1024 -> pde_p m pgdir i = true ->
    page_ok kend (tab m pgdir i) /\ tab m pgdir i <> pgdir /\ tab m pgdir i ∉ free;
  pt_inj : forall i j, 0 <= i < 1024 -> 0 <= j < 1024 ->
    pde_p m pgdir i = true -> pde_p m pgdir j = true -> tab m pgdir i = tab m pgdir j -> i = j;
}.

Lemma PDX_range va : 0 <= PDX va < 1024.
Proof.
  unfold PDX. change 1023 with (Z.ones 10). rewrite Z.land_ones by lia.
  apply Z.mod_pos_bound. lia.
Qed.

Lemma PTX_range va : 0 <= PTX va < 1024.
Proof. rewrite PTX_div. apply Z.mod_pos_bound. lia. Qed.

(** The pages of a directory: itself and its present tables. *)
Definition ptpage (m : mem) (pgdir p : Z) : Prop :=
  p = pgdir \/ exists i, 0 <= i < 1024 /\ pde_p m pgdir i = true /\ p = tab m pgdir i.

(** Memory that is the same on those pages gives the same tables. *)
Lemma pt_frame m m' pgdir :
  (forall a p, ptpage m pgdir p -> inpg p a -> rd8 m' a = rd8 m a) ->
  (forall i, 0 <= i < 1024 -> pde m' pgdir i = pde m pgdir i) /\
  (forall va, pte_at m' pgdir va = pte_at m pgdir va) /\
  (forall va, slot m' pgdir va = slot m pgdir va).
Proof.
  intros Hf.
  assert (Hd : forall i, 0 <= i < 1024 -> pde m' pgdir i = pde m pgdir i).
  { intros i Hi. apply rd32_ext. intros b Hb. apply (Hf b pgdir); [by left|]. unfold inpg. lia. }
  assert (Ht : forall va, pde_p m' pgdir (PDX va) = pde_p m pgdir (PDX va) /\
             tab m' pgdir (PDX va) = tab m pgdir (PDX va)).
  { intros va. unfold pde_p, tab. by rewrite !Hd by apply PDX_range. }
  split_and!; [done| |].
  - intros va. unfold pte_at. destruct (Ht va) as [-> ->]. destruct (pde_p m pgdir (PDX va)) eqn:E; [|done].
    apply rd32_ext. intros b Hb. apply (Hf b (tab m pgdir (PDX va))).
    + right. exists (PDX va). split_and!; [apply PDX_range..|done|done].
    + unfold inpg. pose proof (PTX_range va). lia.
  - intros va. unfold slot. by destruct (Ht va) as [-> ->].
Qed.

Lemma pt_ok_frame m m' pgdir free free' :
  pt_ok m pgdir free -> (forall p, p ∈ free' -> p ∈ free) ->
  (forall i, 0 <= i < 1024 -> pde m' pgdir i = pde m pgdir i) -> pt_ok m' pgdir free'.
Proof.
  intros [H1 H2 H3 H4] Hs Hd. split.
  - done.
  - intros Hp. by apply H2, Hs.
  - intros i Hi. unfold pde_p, tab. rewrite (Hd i Hi). intros Hp.
    destruct (H3 i Hi Hp) as (? & ? & Hn). split_and!; try done. intros Hx. by apply Hn, Hs.
  - intros i j Hi Hj. unfold pde_p, tab. rewrite (Hd i Hi), (Hd j Hj). by apply H4.
Qed.

(** ** [walkpgdir] *)

Lemma walk_noalloc pgdir va s :
  walkpgdir pgdir va false s = Ret (slot (kbytes s) pgdir va) s.
Proof.
  unfold walkpgdir, load, bind, gets, slot, pde_p, tab, pde.
  by destruct (has (rd32 (kbytes s) (pgdir + 4 * PDX va)) PTE_P).
Qed.

Lemma page_range p : page_ok kend p -> KERNBASE <= p < 4294967296 /\ p mod PGSIZE = 0.
Proof. intros (? & ? & _ & ?). split; lia. Qed.

Lemma V2P_page p : page_ok kend p -> V2P p mod PGSIZE = 0 /\ 0 <= V2P p < PHYSTOP.
Proof.
  intros (Hm & Hk & Hp & Hr). unfold V2P in *. rewrite u32_small in * by lia. dlia.
Qed.

Lemma slot_pos m pgdir free va :
  pt_ok m pgdir free -> pde_p m pgdir (PDX va) = true ->
  inpg (tab m pgdir (PDX va)) (slot m pgdir va) /\ slot m pgdir va <> 0.
Proof.
  intros Hok Hp. destruct (pt_tab _ _ _ Hok (PDX va) (PDX_range va) Hp) as (Hpg & _).
  apply page_range in Hpg as [? _]. unfold slot, inpg. rewrite Hp. pose proof (PTX_range va). lia.
Qed.

Lemma slot_zero m pgdir free va :
  pt_ok m pgdir free -> slot m pgdir va = 0 <-> pde_p m pgdir (PDX va) = false.
Proof.
  intros Hok. destruct (pde_p m pgdir (PDX va)) eqn:E.
  - split; [|done]. intros H. by destruct (slot_pos _ _ _ _ Hok E).
  - split; [done|]. intros _. unfold slot. by rewrite E.
Qed.

(** The directory entry [walkpgdir] makes for a new table. *)
Lemma new_pde p :
  page_ok kend p ->
  let e := Z.lor (Z.lor (Z.lor (V2P p) PTE_P) PTE_W) PTE_U in
  has e PTE_P = true /\ P2V (PTE_ADDR e) = p /\ 0 <= e < 4294967296.
Proof.
  intros Hp. destruct (V2P_page p Hp) as [Hm Hr]. apply page_range in Hp as [Hk _].
  cbn zeta. rewrite <- !Z.lor_assoc. change (Z.lor PTE_P (Z.lor PTE_W PTE_U)) with 7.
  rewrite lor_page by (done || lia).
  destruct (entry_fields (V2P p) 7 Hm) as (Ha & _ & Hh); [lia|].
  rewrite Ha, Hh by lia. split_and!; [done|by apply P2V_V2P|lia..].
Qed.

Lemma rd8_memset_page m p c a :
  rd8 (memset m p c PGSIZE) a = if (p <=? a) && (a <? p + PGSIZE) then u8 c else rd8 m a.
Proof. by rewrite memset_spec by lia. Qed.

(** A zeroed page as a table has no present entry. *)
Lemma rd32_zero m p a : inpg p a -> inpg p (a + 3) -> rd32 (memset m p 0 PGSIZE) a = 0.
Proof.
  unfold inpg. intros Ha Hb. unfold rd32. rewrite !rd8_memset_page. by range_cases.
Qed.

(** The memory after [walkpgdir] has hung the new table [p] into the directory. *)
Definition new_table (m : mem) (pgdir va p : Z) : mem :=
  wr32 (memset m p 0 PGSIZE) (pgdir + 4 * PDX va)
    (Z.lor (Z.lor (Z.lor (V2P p) PTE_P) PTE_W) PTE_U).

Lemma new_table_ok m pgdir va p free :
  pt_ok m pgdir (p :: free) -> page_ok kend p -> p ∉ free -> pde_p m pgdir (PDX va) = false ->
  0 <= va < 4294967296 ->
  let m' := new_table m pgdir va p in
  pt_ok m' pgdir free /\ pde_p m' pgdir (PDX va) = true /\ tab m' pgdir (PDX va) = p /\
  (forall i, 0 <= i < 1024 -> i <> PDX va -> pde m' pgdir i = pde m pgdir i) /\
  (forall va', 0 <= va' < 4294967296 -> pte_at m' pgdir va' = pte_at m pgdir va') /\
  (forall a, ~ inpg p a -> ~ inpg pgdir a -> rd8 m' a = rd8 m a).
Proof.
  intros Hok Hp Hpf Habs Hva. cbn zeta. set (m' := new_table m pgdir va p).
  destruct (new_pde p Hp) as (Hpres & Haddr & Her).
  assert (Hdir : pgdir <> p) by (intros ->; apply (pt_dir_free _ _ _ Hok); by constructor).
  pose proof (page_apart kend pgdir p (pt_dir _ _ _ Hok) Hp Hdir) as Hap.
  pose proof (PDX_range va) as Hi0.
  assert (Heq : pde m' pgdir (PDX va) = Z.lor (Z.lor (Z.lor (V2P p) PTE_P) PTE_W) PTE_U).
  { unfold pde, m', new_table. rewrite rd32_wr32_eq. by apply u32_small. }
  assert (Hne : forall i, 0 <= i < 1024 -> i <> PDX va -> pde m' pgdir i = pde m pgdir i).
  { intros i Hi Hn. unfold pde, m', new_table. rewrite rd32_wr32_ne by lia. apply rd32_memset_apart. lia. }
  assert (Hout : forall a, ~ inpg p a -> ~ inpg pgdir a -> rd8 m' a = rd8 m a).
  { unfold inpg. intros a H1 H2. unfold m', new_table. rewrite rd8_wr32, rd8_memset_page. range_cases; done. }
  assert (Htab : tab m' pgdir (PDX va) = p) by (unfold tab; by rewrite Heq).
  assert (Hpp : pde_p m' pgdir (PDX va) = true) by (unfold pde_p; by rewrite Heq).
  assert (Hothers : forall i, 0 <= i < 1024 -> i <> PDX va ->
            pde_p m' pgdir i = pde_p m pgdir i /\ tab m' pgdir i = tab m pgdir i).
  { intros i Hi Hn. unfold pde_p, tab. by rewrite (Hne i Hi Hn). }
  split_and!; [split| | | | |]; try done.
  - apply (pt_dir _ _ _ Hok).
  - intros Hx. apply (pt_dir_free _ _ _ Hok). by constructor.
  - intros i Hi Hpi. destruct (decide (i = PDX va)) as [->|Hn]; [by rewrite Htab|].
    destruct (Hothers i Hi Hn) as [E1 E2]. rewrite E1 in Hpi. rewrite E2.
    destruct (pt_tab _ _ _ Hok i Hi Hpi) as (? & ? & Hnf). split_and!; try done.
    intros Hx. apply Hnf. by constructor.
  - assert (Hnotp : forall i, 0 <= i < 1024 -> i <> PDX va -> pde_p m' pgdir i = true -> tab m' pgdir i <> p).
    { intros i Hi Hn Hpi. destruct (Hothers i Hi Hn) as [E1 E2]. rewrite E1 in Hpi. rewrite E2.
      destruct (pt_tab _ _ _ Hok i Hi Hpi) as (_ & _ & Hnf). intros Ex. apply Hnf. rewrite Ex. by constructor. }
    intros i j Hi Hj Hpi Hpj E.
    destruct (decide (i = PDX va)) as [->|Hni], (decide (j = PDX va)) as [->|Hnj]; try done.
    + rewrite Htab in E. by destruct (Hnotp j Hj Hnj Hpj).
    + rewrite Htab in E. by destruct (Hnotp i Hi Hni Hpi).
    + destruct (Hothers i Hi Hni) as [E1 E2], (Hothers j Hj Hnj) as [E3 E4].
      apply (pt_inj _ _ _ Hok); congruence.
  - intros va' Hva'. unfold pte_at. pose proof (PDX_range va') as Hi'. pose proof (PTX_range va') as Hx'.
    destruct (decide (PDX va' = PDX va)) as [->|Hn].
    + rewrite Hpp, Habs, Htab. unfold m', new_table. rewrite rd32_wr32_ne by lia.
      apply rd32_zero; unfold inpg; lia.
    + destruct (Hothers _ Hi' Hn) as [-> ->]. destruct (pde_p m pgdir (PDX va')) eqn:E; [|done].
      destruct (pt_tab _ _ _ Hok _ Hi' E) as (Hpg & Hnd & Hnf).
      assert (tab m pgdir (PDX va') <> p) as Hnp by (intros Ex; apply Hnf; rewrite Ex; by constructor).
      pose proof (page_apart kend _ _ Hpg Hp Hnp). pose proof (page_apart kend _ _ Hpg (pt_dir _ _ _ Hok) Hnd).
      apply rd32_ext. intros b Hb. apply Hout; unfold inpg; lia.
Qed.

Lemma fl_rep_frame s s' free :
  fl_rep kend s free -> freelist s' = freelist s -> kmem_locked s' = false ->
  (forall p, p ∈ free -> rd32 (kbytes s') p = rd32 (kbytes s) p) -> fl_rep kend s' free.
Proof.
  intros (Hc & Hnd & Hok & Hl) Hf Hl' Hr. split_and!; try done. rewrite Hf.
  eapply chain_frame; [|exact Hc]. by apply Forall_forall.
Qed.

(** What the page-table code may do to the memory: it takes pages from the
    front of the free list and makes them tables, and writes only to the
    directory and its tables. *)
Record pt_extends (s s' : kmem) (pgdir : Z) (free taken free' : list Z) : Prop := {
  ex_free : free = taken ++ free';
  ex_rep : fl_rep kend s' free';
  ex_ok : pt_ok (kbytes s') pgdir free';
  ex_out : forall a, (forall p, ptpage (kbytes s') pgdir p -> ~ inpg p a) ->
    rd8 (kbytes s') a = rd8 (kbytes s) a;
  ex_new : forall p, ptpage (kbytes s') pgdir p -> ptpage (kbytes s) pgdir p \/ p ∈ taken;
  ex_old : forall p, ptpage (kbytes s) pgdir p \/ p ∈ taken -> ptpage (kbytes s') pgdir p;
}.

Lemma pt_extends_refl s pgdir free :
  fl_rep kend s free -> pt_ok (kbytes s) pgdir free -> pt_extends s s pgdir free [] free.
Proof. intros ? ?. split; auto. intros p [?|Hp]; [done|by apply elem_of_nil in Hp]. Qed.

Lemma pt_extends_trans s s1 s2 pgdir f t1 f1 t2 f2 :
  pt_extends s s1 pgdir f t1 f1 -> pt_extends s1 s2 pgdir f1 t2 f2 ->
  pt_extends s s2 pgdir f (t1 ++ t2) f2.
Proof.
  intros [A1 A2 A3 A4 A5 A6] [B1 B2 B3 B4 B5 B6]. split.
  - by rewrite A1, B1, app_assoc.
  - done.
  - done.
  - intros a Ha. rewrite B4 by done. apply A4. intros p Hp. apply Ha, B6. by left.
  - intros p Hp. rewrite elem_of_app. destruct (B5 p Hp) as [H|H]; [|auto]. destruct (A5 p H); auto.
  - intros p. rewrite elem_of_app. intros [H|[H|H]]; apply B6; auto.
Qed.

Lemma walk_alloc pgdir va s free :
  fl_rep kend s free -> pt_ok (kbytes s) pgdir free -> 0 <= va < 4294967296 ->
  exists r s' taken free',
    walkpgdir pgdir va true s = Ret r s' /\ pt_extends s s' pgdir free taken free' /\
    (forall va', 0 <= va' < 4294967296 -> pte_at (kbytes s') pgdir va' = pte_at (kbytes s) pgdir va') /\
    (forall i, 0 <= i < 1024 -> i <> PDX va -> pde (kbytes s') pgdir i = pde (kbytes s) pgdir i) /\
    ((r = 0 /\ free' = [] /\ pde_p (kbytes s') pgdir (PDX va) = false) \/
     (pde_p (kbytes s') pgdir (PDX va) = true /\ r = slot (kbytes s') pgdir va)).
Proof.
  intros Hr Hok Hva. destruct (pde_p (kbytes s) pgdir (PDX va)) eqn:E.
  - exists (slot (kbytes s) pgdir va), s, [], free. split_and!; auto.
    + unfold walkpgdir, load, bind, gets, slot, tab. unfold pde_p, pde in *. rewrite E. done.
    + by apply pt_extends_refl.
  - destruct (kalloc_run kend s free Hr) as (s1 & Hrun & Hrep & Hb & Hul).
    assert (Hpre : walkpgdir pgdir va true s =
      (let* pgtab := kalloc in
       if pgtab =? 0 then ret 0
       else
         modify (fun s => set_kbytes (memset (kbytes s) pgtab 0 PGSIZE) s) ;;;
         store (pgdir + 4 * PDX va) (Z.lor (Z.lor (Z.lor (V2P pgtab) PTE_P) PTE_W) PTE_U) ;;;
         ret (pgtab + 4 * PTX va)) s).
    { unfold walkpgdir at 1. unfold pde_p, pde in E. unfold load, bind at 1, gets. rewrite E. done. }
    rewrite Hpre. mstep Hrun. destruct free as [|p free].
    + exists 0, s1, [], []. rewrite <- Hb in Hok. split_and!; auto.
      * split; rewrite ?Hb; try done; rewrite <- ?Hb; auto.
        intros p [?|Hp]; [done|by apply elem_of_nil in Hp].
      * intros va' _. by rewrite Hb.
      * intros i _ _. by rewrite Hb.
      * left. by rewrite Hb.
    + cbn [hd tl] in *. destruct Hr as (_ & Hnd & Hpok & _).
      apply NoDup_cons in Hnd as [Hpf _]. apply Forall_cons in Hpok as [Hp _].
      destruct (Z.eqb_spec p 0) as [->|_]; [destruct Hp as (_ & _ & _ & ?); lia|].
      destruct (new_table_ok (kbytes s) pgdir va p free Hok Hp Hpf E Hva) as (Hok' & Hpp & Ht & Hoth & Hpte & Hout).
      eexists _, (set_kbytes (new_table (kbytes s) pgdir va p) s1), [p], free.
      split; [unfold modify, store, bind, ret; cbn; by rewrite Hb|]. split_and!.
      * assert (Hptp : ptpage (new_table (kbytes s) pgdir va p) pgdir p).
        { right. exists (PDX va). split_and!; [apply PDX_range..|done|done]. }
        split; cbn [kbytes set_kbytes]; [done| |exact Hok'| | |].
        -- eapply fl_rep_frame; [exact Hrep|done|by destruct Hrep as (_ & _ & _ & ?)|].
           intros q Hq. cbn. rewrite Hb. apply rd32_ext. intros b Hbb.
           destruct Hrep as (_ & _ & Hqs & _). rewrite Forall_forall in Hqs. specialize (Hqs q Hq).
           assert (p <> q) as Hne by (by intros ->).
           assert (pgdir <> q) as Hnd' by (intros ->; apply (pt_dir_free _ _ _ Hok); by constructor).
           pose proof (page_apart kend _ _ Hp Hqs Hne). pose proof (page_apart kend _ _ (pt_dir _ _ _ Hok) Hqs Hnd').
           apply Hout; unfold inpg; lia.
        -- intros a Ha. apply Hout; apply Ha; [exact Hptp|by left].
        -- intros q [->|(i & Hi & Hpi & ->)]; [by left; left|].
           destruct (decide (i = PDX va)) as [->|Hn]; [right; rewrite Ht; by constructor|].
           left. right. exists i. unfold pde_p, tab in *. rewrite (Hoth i Hi Hn) in *. done.
        -- intros q [[->|(i & Hi & Hpi & ->)]|Hq%list_elem_of_singleton]; [by left| |by rewrite Hq].
           right. exists i. assert (i <> PDX va) as Hn by (intros ->; congruence).
           unfold pde_p, tab in *. rewrite (Hoth i Hi Hn). done.
      * exact Hpte.
      * exact Hoth.
      * right. split; [done|]. unfold slot. cbn. by rewrite Hpp, Ht.
Qed.

(** Storing an entry through [slot]. *)
Lemma PDX_PTX_inj va va' :
  0 <= va < 4294967296 -> 0 <= va' < 4294967296 ->
  PDX va = PDX va' -> PTX va = PTX va' -> va / PGSIZE = va' / PGSIZE.
Proof. intros ? ?. rewrite !PDX_div, !PTX_div by done. intros. dlia. Qed.

Lemma PDX_PTX_page va va' :
  0 <= va < 4294967296 -> 0 <= va' < 4294967296 ->
  va / PGSIZE = va' / PGSIZE -> PDX va = PDX va' /\ PTX va = PTX va'.
Proof. intros ? ? E. rewrite !PDX_div, !PTX_div, E by done. split; [dlia|done]. Qed.

Lemma store_slot m pgdir va v free :
  pt_ok m pgdir free -> pde_p m pgdir (PDX va) = true ->
  0 <= va < 4294967296 -> 0 <= v < 4294967296 ->
  let m' := wr32 m (slot m pgdir va) v in
  pt_ok m' pgdir free /\
  (forall i, 0 <= i < 1024 -> pde m' pgdir i = pde m pgdir i) /\
  (forall va', 0 <= va' < 4294967296 ->
     pte_at m' pgdir va' = if va' / PGSIZE =? va / PGSIZE then v else pte_at m pgdir va') /\
  (forall a, ~ inpg (tab m pgdir (PDX va)) a -> rd8 m' a = rd8 m a).
Proof.
  intros Hok Hp Hva Hv. cbn zeta. set (m' := wr32 m _ v).
  destruct (pt_tab _ _ _ Hok _ (PDX_range va) Hp) as (Hpg & Hnd & Hnf).
  pose proof (page_apart kend _ _ Hpg (pt_dir _ _ _ Hok) Hnd) as Hap.
  assert (Hsl : slot m pgdir va = tab m pgdir (PDX va) + 4 * PTX va) by (unfold slot; by rewrite Hp).
  pose proof (PTX_range va) as Hx.
  assert (Hout : forall a, ~ inpg (tab m pgdir (PDX va)) a -> rd8 m' a = rd8 m a).
  { unfold inpg. intros a Ha. unfold m'. rewrite rd8_wr32, Hsl. range_cases; done. }
  assert (Hd : forall i, 0 <= i < 1024 -> pde m' pgdir i = pde m pgdir i).
  { intros i Hi. apply rd32_ext. intros b Hb. apply Hout. unfold inpg. lia. }
  split_and!; try done.
  - by eapply pt_ok_frame.
  - intros va' Hva'. unfold pte_at, pde_p, tab. rewrite !Hd by apply PDX_range.
    fold (pde_p m pgdir (PDX va')). fold (tab m pgdir (PDX va')).
    pose proof (PTX_range va') as Hx'.
    destruct (Z.eqb_spec (va' / PGSIZE) (va / PGSIZE)) as [E|E].
    + destruct (PDX_PTX_page va' va Hva' Hva E) as [-> ->]. rewrite Hp. unfold m'.
      rewrite Hsl, rd32_wr32_eq. by apply u32_small.
    + destruct (pde_p m pgdir (PDX va')) eqn:Hp'; [|done].
      destruct (decide (PDX va' = PDX va)) as [Ed|Ed].
      * assert (PTX va' <> PTX va) by (intros Et; by destruct E; apply PDX_PTX_inj).
        rewrite Ed. unfold m'. rewrite Hsl. apply rd32_wr32_ne. lia.
      * destruct (pt_tab _ _ _ Hok _ (PDX_range va') Hp') as (Hpg' & _ & _).
        assert (tab m pgdir (PDX va) <> tab m pgdir (PDX va')) as Hnt.
        { intros Et. apply Ed. symmetry. by apply (pt_inj _ _ _ Hok); try apply PDX_range. }
        pose proof (page_apart kend _ _ Hpg Hpg' Hnt).
        apply rd32_ext. intros b Hb. apply Hout. unfold inpg. lia.
Qed.

(** A store through [slot] as a step of the page-table code. *)
Lemma pt_extends_store s pgdir va v free :
  fl_rep kend s free -> pt_ok (kbytes s) pgdir free -> pde_p (kbytes s) pgdir (PDX va) = true ->
  0 <= va < 4294967296 -> 0 <= v < 4294967296 ->
  pt_extends s (set_kbytes (wr32 (kbytes s) (slot (kbytes s) pgdir va) v) s) pgdir free [] free.
Proof.
  intros Hr Hok Hp Hva Hv. destruct (store_slot _ _ va v _ Hok Hp Hva Hv) as (Hok' & Hd & _ & Hout).
  destruct (pt_tab _ _ _ Hok _ (PDX_range va) Hp) as (Hpg & _ & Hnf).
  assert (Hpt : forall p, ptpage (wr32 (kbytes s) (slot (kbytes s) pgdir va) v) pgdir p <-> ptpage (kbytes s) pgdir p).
  { intros p. unfold ptpage, pde_p, tab. split; (intros [->|(i & Hi & H)]; [by left|]); right; exists i;
      (rewrite Hd in * || rewrite <- Hd in *); by try rewrite Hd in *. }
  split; cbn [kbytes set_kbytes]; try done.
  - eapply fl_rep_frame; [exact Hr|done|by destruct Hr as (_ & _ & _ & ?)|].
    intros q Hq. cbn. apply rd32_ext. intros b Hb. destruct Hr as (_ & _ & Hqs & _).
    rewrite Forall_forall in Hqs. specialize (Hqs q Hq).
    assert (tab (kbytes s) pgdir (PDX va) <> q) as Hne by (intros Ex; apply Hnf; by rewrite Ex).
    pose proof (page_apart kend _ _ Hpg Hqs Hne). apply Hout. unfold inpg. lia.
  - intros a Ha. apply Hout, Ha, Hpt. right. exists (PDX va). split_and!; [apply PDX_range..|done|done].
  - intros p Hp'. left. by apply Hpt.
  - intros p [Hp'|Hp']; [by apply Hpt|by apply elem_of_nil in Hp'].
Qed.

Lemma PDX_mono va va' : 0 <= va <= va' -> va' < 4294967296 -> PDX va <= PDX va'.
Proof. intros ? ?. rewrite !PDX_div by lia. apply Z.div_le_mono; lia. Qed.

(** The entries after mapping [k] pages from [a] on to [pa] and following. *)
Definition mapped (m m' : mem) (pgdir a pa perm k : Z) : Prop :=
  forall va, 0 <= va < 4294967296 ->
    pte_at m' pgdir va =
    if (a <=? va) && (va <? a + PGSIZE * k)
    then Z.lor (Z.lor (pa + PGSIZE * ((va - a) / PGSIZE)) perm) PTE_P
    else pte_at m pgdir va.

Lemma mappages_loop_ok n : forall fuel pgdir a pa perm s free,
  fl_rep kend s free -> pt_ok (kbytes s) pgdir free ->
  a mod PGSIZE = 0 -> 0 <= a -> a + PGSIZE * (Z.of_nat n + 1) <= 4294967296 ->
  pa mod PGSIZE = 0 -> 0 <= pa -> pa + PGSIZE * (Z.of_nat n + 1) <= 4294967296 ->
  0 <= perm < PGSIZE -> (n < fuel)%nat ->
  (forall va, a <= va < a + PGSIZE * (Z.of_nat n + 1) -> has (pte_at (kbytes s) pgdir va) PTE_P = false) ->
  exists r k s' taken free',
    mappages_loop fuel pgdir a (a + PGSIZE * Z.of_nat n) pa perm s = Ret r s' /\
    pt_extends s s' pgdir free taken free' /\
    mapped (kbytes s) (kbytes s') pgdir a pa perm k /\
    (forall i, 0 <= i < 1024 -> pde_p (kbytes s') pgdir i = true ->
       pde_p (kbytes s) pgdir i = true \/ PDX a <= i <= PDX (a + PGSIZE * Z.of_nat n)) /\
    ((r = 0 /\ k = Z.of_nat n + 1) \/
     (r = -1 /\ 0 <= k <= Z.of_nat n /\ free' = [] /\ pde_p (kbytes s') pgdir (PDX (a + PGSIZE * k)) = false)).
Proof.
  induction n as [|n IH]; intros fuel pgdir a pa perm s free Hr Hok Ham Ha0 Ha Hpm Hp0 Hp Hf Hfu Hun;
    (destruct fuel as [|fuel]; [lia|]); cbn [mappages_loop].
  all: destruct (walk_alloc pgdir a s free Hr Hok ltac:(lia))
    as (r & s1 & t1 & f1 & Hrun & Hex & Hpte & Hpd & Hcase); mstep Hrun.
  all: assert (Hp1 : forall i, 0 <= i < 1024 -> pde_p (kbytes s1) pgdir i = true ->
    pde_p (kbytes s) pgdir i = true \/ i = PDX a) by
    (intros i Hi; destruct (decide (i = PDX a)); [by right|]; unfold pde_p; rewrite Hpd by done; by left).
  all: destruct Hcase as [(-> & -> & Hno)|(Hpp & ->)].
  1, 3: exists (-1), 0, s1, t1, []; split_and!; [done|done| | |right; split_and!; try lia; try done; by rewrite Z.mul_0_r, Z.add_0_r].
  1, 3: intros va Hva; rewrite (Hpte va Hva); range_cases; done.
  1, 2: intros i Hi Hpi; destruct (Hp1 i Hi Hpi) as [|E]; [by left|right];
    rewrite E; split; [lia|apply PDX_mono; lia].
  all: pose proof Hex as [_ Hr1 Hok1 _ _ _].
  all: destruct (slot_pos _ _ _ _ Hok1 Hpp) as [_ Hs0].
  all: destruct (Z.eqb_spec (slot (kbytes s1) pgdir a) 0) as [|_]; [done|].
  all: unfold load, bind at 1, gets.
  all: replace (rd32 (kbytes s1) (slot (kbytes s1) pgdir a)) with (pte_at (kbytes s1) pgdir a)
    by (unfold pte_at, slot; by rewrite Hpp).
  all: rewrite (Hpte a) by lia; rewrite Hun by lia.
  all: destruct (pte_fields pa perm Hpm ltac:(lia) Hf) as (_ & _ & _ & _ & Her).
  all: destruct (store_slot _ _ a _ _ Hok1 Hpp ltac:(lia) Her) as (Hok2 & Hd2 & Hset & _).
  all: pose proof (pt_extends_store s1 pgdir a _ f1 Hr1 Hok1 Hpp ltac:(lia) Her) as Hex2.
  all: unfold store, bind at 1, modify.
  all: set (s2 := set_kbytes _ s1) in *.
  all: pose proof (pt_extends_trans _ _ _ _ _ _ _ _ _ Hex Hex2) as Hex3; rewrite app_nil_r in Hex3.
  all: assert (Hp2 : forall i, 0 <= i < 1024 -> pde_p (kbytes s2) pgdir i = true ->
    pde_p (kbytes s) pgdir i = true \/ i = PDX a) by
    (intros i Hi; unfold pde_p; cbn [s2 kbytes set_kbytes]; rewrite Hd2 by done; by apply Hp1).
  - destruct (Z.eqb_spec a (a + PGSIZE * Z.of_nat 0)) as [_|]; [|lia].
    exists 0, 1, s2, t1, f1. split_and!; [done|done| | |by left].
    2: { intros i Hi Hpi. destruct (Hp2 i Hi Hpi) as [|E]; [by left|right].
         rewrite E. split; [lia|apply PDX_mono; lia]. }
    intros va Hva. cbn [kbytes s2 set_kbytes]. rewrite Hset, (Hpte va) by done.
    destruct (Z.eqb_spec (va / PGSIZE) (a / PGSIZE)); range_cases; try dlia; try done.
    replace ((va - a) / PGSIZE) with 0 by dlia. by rewrite Z.mul_0_r, Z.add_0_r.
  - destruct (Z.eqb_spec a (a + PGSIZE * Z.of_nat (S n))) as [|_]; [lia|].
    rewrite !u32_small by lia.
    replace (a + PGSIZE * Z.of_nat (S n)) with ((a + PGSIZE) + PGSIZE * Z.of_nat n) by lia.
    destruct (IH fuel pgdir (a + PGSIZE) (pa + PGSIZE) perm s2 f1) as (r & k & s' & t2 & f2 & Hrun2 & Hex4 & Hmap & Hp4 & Hcase);
      try lia; try dlia; try (by apply Hex2).
    { intros va Hva. cbn [kbytes s2 set_kbytes]. rewrite Hset by lia.
      destruct (Z.eqb_spec (va / PGSIZE) (a / PGSIZE)); [dlia|]. rewrite Hpte by lia. apply Hun. lia. }
    exists r, (k + 1), s', (t1 ++ t2), f2.
    pose proof (PDX_mono a (a + PGSIZE) ltac:(lia) ltac:(lia)).
    pose proof (PDX_mono (a + PGSIZE) (a + PGSIZE + PGSIZE * Z.of_nat n) ltac:(lia) ltac:(lia)).
    split_and!; [exact Hrun2|by eapply pt_extends_trans| | |].
    + intros va Hva. rewrite (Hmap va Hva). cbn [kbytes s2 set_kbytes]. rewrite Hset, (Hpte va) by done.
      assert (0 <= k) by (destruct Hcase; lia).
      destruct (Z.eqb_spec (va / PGSIZE) (a / PGSIZE)); range_cases; try dlia; try done.
      all: try (replace ((va - a) / PGSIZE) with 0 by dlia; by rewrite Z.mul_0_r, Z.add_0_r).
      all: do 2 f_equal; dlia.
    + intros i Hi Hpi. destruct (Hp4 i Hi Hpi) as [Hx|Hx]; [|right; lia].
      destruct (Hp2 i Hi Hx) as [|E]; [by left|right; lia].
    + destruct Hcase as [[-> ->]|(-> & ? & -> & Hno)]; [left; lia|right]. split_and!; try lia; try done.
      by replace (a + PGSIZE * (k + 1)) with (a + PGSIZE + PGSIZE * k) by lia.
Qed.

(** [mappages] (with [va] and [size] not necessarily aligned)
    either maps every page that [va .. va+size-1] touches to consecutive
    frames from [pa] on, with the permissions asked for, or returns -1 having
    mapped the first few when no page is left for a table; every other address
    keeps its entry, and nothing outside the directory and its tables is
    written. Mapping a page that is already present panics. *)
Theorem mappages_maps pgdir va size pa perm s free :
  fl_rep kend s free -> pt_ok (kbytes s) pgdir free ->
  0 <= va -> 0 < size -> va + size <= 4294967296 ->
  let a := PGROUNDDOWN va in
  let n := (PGROUNDDOWN (va + size - 1) - a) / PGSIZE + 1 in
  pa mod PGSIZE = 0 -> 0 <= pa -> pa + PGSIZE * n <= 4294967296 -> 0 <= perm < PGSIZE ->
  ((forall x, a <= x < a + PGSIZE * n -> has (pte_at (kbytes s) pgdir x) PTE_P = false) ->
   exists r k s' taken free',
    mappages pgdir va size pa perm s = Ret r s' /\
    pt_extends s s' pgdir free taken free' /\
    mapped (kbytes s) (kbytes s') pgdir a pa perm k /\
    ((r = 0 /\ k = n) \/ (r = -1 /\ 0 <= k < n /\ free' = []))) /\
  (has (pte_at (kbytes s) pgdir a) PTE_P = true -> mappages pgdir va size pa perm s = Panic "remap").
Proof.
  intros Hr Hok Hva Hsz Hend a n Hpm Hp0 Hpe Hperm.
  destruct (PGROUNDDOWN_spec va ltac:(lia)) as [Ham Har].
  destruct (PGROUNDDOWN_spec (va + size - 1) ltac:(lia)) as [Hlm Hlr].
  fold a in Ham, Har. set (last := PGROUNDDOWN (va + size - 1)) in *.
  assert (Hlast : last = a + PGSIZE * Z.of_nat (Z.to_nat (n - 1))) by (unfold n in *; dlia).
  unfold mappages. fold a last. rewrite u32_small by (unfold n in *; dlia).
  replace (Z.to_nat ((last - a) / PGSIZE)) with (Z.to_nat (n - 1)) by (unfold n; f_equal; lia).
  assert (1 <= n) by (unfold n; dlia).
  assert (0 <= a /\ last + PGSIZE <= 4294967296) as [? ?] by (clearbody n; dlia). split.
  - intros Hun. rewrite Hlast.
    destruct (mappages_loop_ok (Z.to_nat (n - 1)) (S (Z.to_nat (n - 1))) pgdir a pa perm s free)
      as (r & k & s' & t & f & E1 & E2 & E3 & _ & E4); try done; try lia.
    { intros x Hx. apply Hun. lia. }
    exists r, k, s', t, f. split_and!; try done. destruct E4 as [[? ?]|(? & ? & ? & _)]; [left|right]; split_and!; lia || done.
  - intros Hpres. cbn [mappages_loop].
    assert (Hpp : pde_p (kbytes s) pgdir (PDX a) = true).
    { unfold pte_at in Hpres. by destruct (pde_p (kbytes s) pgdir (PDX a)). }
    assert (Hrun : walkpgdir pgdir a true s = Ret (slot (kbytes s) pgdir a) s).
    { unfold walkpgdir, load, bind, gets, slot, tab. unfold pde_p, pde in *. by rewrite Hpp. }
    mstep Hrun. destruct (slot_pos _ _ _ _ Hok Hpp) as [_ Hs0].
    destruct (Z.eqb_spec (slot (kbytes s) pgdir a) 0); [done|]. unfold load, bind at 1, gets.
    replace (rd32 (kbytes s) (slot (kbytes s) pgdir a)) with (pte_at (kbytes s) pgdir a)
      by (unfold pte_at, slot; by rewrite Hpp). by rewrite Hpres.
Qed.

(** ** User address spaces *)

Abbreviation UPAGES := 524288 (only parsing).

(** The page of memory behind user page number [k]. *)
Definition upte (m : mem) (pgdir k : Z) : Z := pte_at m pgdir (k * PGSIZE).
Definition upg (m : mem) (pgdir k : Z) : Z := P2V (PTE_ADDR (upte m pgdir k)).

(** Exactly the user pages numbered in [P] are mapped, each to a page of its
    own that is neither free nor a table. *)
Record us_ok (s : kmem) (pgdir : Z) (free : list Z) (P : Z -> bool) : Prop := {
  us_rep : fl_rep kend s free;
  us_pt : pt_ok (kbytes s) pgdir free;
  us_map : forall k, 0 <= k < UPAGES -> has (upte (kbytes s) pgdir k) PTE_P = P k;
  us_page : forall k, 0 <= k < UPAGES -> P k = true ->
    page_ok kend (upg (kbytes s) pgdir k) /\ upg (kbytes s) pgdir k ∉ free /\
    ~ ptpage (kbytes s) pgdir (upg (kbytes s) pgdir k);
  us_inj : forall j k, 0 <= j < UPAGES -> 0 <= k < UPAGES -> P j = true -> P k = true ->
    upg (kbytes s) pgdir j = upg (kbytes s) pgdir k -> j = k;
}.

Lemma ptpage_ok m pgdir free p : pt_ok m pgdir free -> ptpage m pgdir p -> page_ok kend p /\ p ∉ free.
Proof.
  intros Hok [->|(i & Hi & Hp & ->)]; [split; apply Hok|]. by destruct (pt_tab _ _ _ Hok i Hi Hp) as (? & _ & ?).
Qed.

(** A page that holds no table keeps the tables when written. *)
Lemma pt_out m m' pgdir free v :
  pt_ok m pgdir free -> page_ok kend v -> ~ ptpage m pgdir v ->
  (forall a, ~ inpg v a -> rd8 m' a = rd8 m a) ->
  (forall i, 0 <= i < 1024 -> pde m' pgdir i = pde m pgdir i) /\
  (forall va, pte_at m' pgdir va = pte_at m pgdir va) /\
  (forall va, slot m' pgdir va = slot m pgdir va).
Proof.
  intros Hok Hv Hnp Hout. apply pt_frame. intros a p Hp Ha. apply Hout. intros Hav.
  destruct (ptpage_ok _ _ _ _ Hok Hp) as [Hpp _].
  assert (p <> v) as Hne by (by intros ->). pose proof (page_apart kend _ _ Hpp Hv Hne).
  unfold inpg in *. lia.
Qed.

Lemma ptpage_eq m m' pgdir :
  (forall i, 0 <= i < 1024 -> pde m' pgdir i = pde m pgdir i) ->
  forall p, ptpage m' pgdir p <-> ptpage m pgdir p.
Proof.
  intros Hd p. unfold ptpage, pde_p, tab. split; (intros [->|(i & Hi & H)]; [by left|]); right; exists i.
  - by rewrite Hd in H.
  - by rewrite Hd.
Qed.

Lemma kfree_out v s a : ~ inpg v a -> rd8 (kbytes (kfree_state v s)) a = rd8 (kbytes s) a.
Proof.
  unfold inpg. intros H. cbn. rewrite rd8_wr32, memset_spec by lia. range_cases; done.
Qed.

Lemma upte_div m pgdir va : 0 <= va < 4294967296 -> pte_at m pgdir va = upte m pgdir (va / PGSIZE).
Proof.
  intros H. unfold upte, pte_at. destruct (PDX_PTX_page va (va / PGSIZE * PGSIZE)) as [-> ->]; done || dlia.
Qed.

Definition pminus (P : Z -> bool) (j : Z) : Z -> bool := fun k => P k && negb (k =? j).

(** The round of [deallocuvm] for a mapped page: [kfree], then [*pte = 0]. *)
Lemma free_page_ok s pgdir free P k :
  us_ok s pgdir free P -> 0 <= k < UPAGES -> P k = true ->
  let v := upg (kbytes s) pgdir k in
  let s1 := kfree_state v s in
  let s2 := set_kbytes (wr32 (kbytes s1) (slot (kbytes s) pgdir (k * PGSIZE)) 0) s1 in
  kfree kend v s = Ret tt s1 /\ us_ok s2 pgdir (v :: free) (pminus P k) /\
  (forall j, 0 <= j < UPAGES -> j <> k -> upte (kbytes s2) pgdir j = upte (kbytes s) pgdir j) /\
  (forall p, ptpage (kbytes s2) pgdir p <-> ptpage (kbytes s) pgdir p) /\
  (forall a, ~ inpg v a -> (forall p, ptpage (kbytes s) pgdir p -> ~ inpg p a) ->
     rd8 (kbytes s2) a = rd8 (kbytes s) a).
Proof.
  intros Hus Hk HPk. cbn zeta. pose proof Hus as [Hr Hok Hmap Hpg Hinj].
  destruct (Hpg k Hk HPk) as (Hv & Hvf & Hvp). set (v := upg (kbytes s) pgdir k) in *.
  assert (Hlk : kmem_locked s = false) by (by destruct Hr as (_ & _ & _ & ?)).
  pose proof (kfree_state_rep kend v s free Hr Hv Hvf) as Hr1.
  destruct (pt_out (kbytes s) (kbytes (kfree_state v s)) pgdir free v Hok Hv Hvp (kfree_out v s)) as (Hd1 & Hpte1 & Hsl1).
  set (s1 := kfree_state v s) in *.
  assert (Hok1 : pt_ok (kbytes s1) pgdir (v :: free)).
  { split.
    - apply Hok.
    - intros [Hx|Hx]%elem_of_cons; [|by apply (pt_dir_free _ _ _ Hok)]. apply Hvp. left. done.
    - intros i Hi Hp. unfold pde_p, tab in *. rewrite (Hd1 i Hi) in *.
      destruct (pt_tab _ _ _ Hok i Hi Hp) as (? & ? & Hnf). split_and!; try done.
      intros [Hx|Hx]%elem_of_cons; [|done]. apply Hvp. right. by exists i.
    - intros i j Hi Hj. unfold pde_p, tab. rewrite (Hd1 i Hi), (Hd1 j Hj). by apply (pt_inj _ _ _ Hok). }
  assert (Hpp : pde_p (kbytes s1) pgdir (PDX (k * PGSIZE)) = true).
  { unfold pde_p. rewrite Hd1 by apply PDX_range. fold (pde_p (kbytes s) pgdir (PDX (k * PGSIZE))).
    pose proof (Hmap k Hk) as Hm. rewrite HPk in Hm. unfold upte, pte_at in Hm.
    by destruct (pde_p (kbytes s) pgdir (PDX (k * PGSIZE))). }
  rewrite <- (Hsl1 (k * PGSIZE)).
  destruct (store_slot _ _ (k * PGSIZE) 0 _ Hok1 Hpp ltac:(lia) ltac:(lia)) as (Hok2 & Hd2 & Hset & Hout2).
  pose proof (pt_extends_store s1 pgdir (k * PGSIZE) 0 _ Hr1 Hok1 Hpp ltac:(lia) ltac:(lia)) as [_ Hr2 _ Hout2' _ _].
  set (s2 := set_kbytes _ s1) in *.
  assert (Hpt2 : forall p, ptpage (kbytes s2) pgdir p <-> ptpage (kbytes s) pgdir p).
  { apply ptpage_eq. intros i Hi. rewrite <- (Hd1 i Hi). by apply Hd2. }
  assert (Hothers : forall j, 0 <= j < UPAGES -> j <> k -> upte (kbytes s2) pgdir j = upte (kbytes s) pgdir j).
  { intros j Hj Hne. unfold upte. cbn [s2 kbytes set_kbytes]. rewrite Hset by lia.
    destruct (Z.eqb_spec (j * PGSIZE / PGSIZE) (k * PGSIZE / PGSIZE)); [dlia|]. apply Hpte1. }
  assert (Hself : upte (kbytes s2) pgdir k = 0).
  { unfold upte. cbn [s2 kbytes set_kbytes]. rewrite Hset, Z.eqb_refl by lia. done. }
  split_and!; [by apply kfree_run| |done|done|].
  - assert (Hin : forall j, 0 <= j < UPAGES -> pminus P k j = true -> j <> k /\ P j = true).
    { unfold pminus. intros j Hj HP. apply andb_true_iff in HP as [? HP]. by apply negb_true_iff, Z.eqb_neq in HP. }
    assert (Hug : forall j, 0 <= j < UPAGES -> pminus P k j = true -> upg (kbytes s2) pgdir j = upg (kbytes s) pgdir j).
    { intros j Hj HP. unfold upg. by rewrite Hothers by (done || by apply Hin). }
    split; [exact Hr2|exact Hok2| | |].
    + intros j Hj. unfold pminus. destruct (Z.eqb_spec j k) as [->|Hne].
      * rewrite Hself, andb_false_r. done.
      * rewrite Hothers, andb_true_r by done. by apply Hmap.
    + intros j Hj HP. rewrite Hug by done. destruct (Hin j Hj HP) as [Hne HPj].
      destruct (Hpg j Hj HPj) as (? & Hnf & Hnp). split_and!; [done| |by rewrite Hpt2].
      intros [Hx|Hx]%elem_of_cons; [|done]. apply Hne. by apply Hinj.
    + intros j j' Hj Hj' HP HP'. rewrite !Hug by done. apply Hinj; try done; by apply Hin.
  - intros a Ha Hnp. rewrite Hout2'; [by apply kfree_out|].
    intros p Hp. apply Hnp. by apply Hpt2.
Qed.

Lemma us_ok_ext s pgdir free P Q :
  (forall k, 0 <= k < UPAGES -> P k = Q k) -> us_ok s pgdir free P -> us_ok s pgdir free Q.
Proof.
  intros E [H1 H2 H3 H4 H5]. split; try done.
  - intros k Hk. rewrite <- E by done. by apply H3.
  - intros k Hk HQ. apply H4; [done|by rewrite E].
  - intros j k Hj Hk HQj HQk. apply H5; try done; by rewrite E.
Qed.

Definition prange (j N k : Z) : bool := (j <=? k) && (k <? N).

(** What unmapping the pages numbered [j .. N-1] does. *)
Record unmaps (s s' : kmem) (pgdir : Z) (free freed : list Z) (P : Z -> bool) (j N : Z) : Prop := {
  un_us : us_ok s' pgdir (freed ++ free) (fun k => P k && negb (prange j N k));
  un_same : forall k, 0 <= k < UPAGES -> prange j N k = false ->
    upte (kbytes s') pgdir k = upte (kbytes s) pgdir k;
  un_pt : forall p, ptpage (kbytes s') pgdir p <-> ptpage (kbytes s) pgdir p;
  un_freed : forall p, p ∈ freed <->
    exists k, 0 <= k < UPAGES /\ prange j N k = true /\ P k = true /\ p = upg (kbytes s) pgdir k;
  un_out : forall a, (forall p, p ∈ freed -> ~ inpg p a) ->
    (forall p, ptpage (kbytes s) pgdir p -> ~ inpg p a) -> rd8 (kbytes s') a = rd8 (kbytes s) a;
}.

Lemma unmaps_none s pgdir free P j N :
  us_ok s pgdir free P -> (forall k, 0 <= k < UPAGES -> prange j N k = true -> P k = false) ->
  unmaps s s pgdir free [] P j N.
Proof.
  intros Hus Hn. split; try done.
  - eapply us_ok_ext; [|exact Hus]. intros k Hk. cbn. destruct (prange j N k) eqn:E; cbn.
    + by rewrite Hn.
    + by rewrite andb_true_r.
  - intros p. split; [by intros Hp%elem_of_nil|]. intros (k & Hk & Hr & HP & _). by rewrite Hn in HP.
Qed.

(** Pages [j .. i-1] are not mapped, then [i .. N-1]. *)
Lemma unmaps_skip s s' pgdir free freed P j i N :
  j <= i -> (forall k, 0 <= k < UPAGES -> j <= k < i -> P k = false) ->
  unmaps s s' pgdir free freed P i N -> unmaps s s' pgdir free freed P j N.
Proof.
  intros Hji Hn [H1 H2 H3 H4 H5].
  assert (Hp : forall k, 0 <= k < UPAGES -> P k = true -> prange i N k = prange j N k).
  { intros k Hk HP. destruct (decide (j <= k < i)); [by rewrite Hn in HP|]. unfold prange. range_cases; done. }
  split; try done.
  - eapply us_ok_ext; [|exact H1]. intros k Hk. cbn. destruct (P k) eqn:E; [|done]. by rewrite Hp.
  - intros k Hk Hr. apply H2; [done|]. unfold prange in *. revert Hr. range_cases; done.
  - intros p. rewrite H4. split; intros (k & Hk & Hr & HP & Hpk); exists k.
    + rewrite <- Hp by done. done.
    + rewrite Hp by done. done.
Qed.

(** Page [j] is freed, then [j+1 .. N-1]. *)
Lemma unmaps_cons s s2 s' pgdir free freed P j N v :
  us_ok s pgdir free P -> 0 <= j < UPAGES -> j < N -> P j = true -> v = upg (kbytes s) pgdir j ->
  (forall k, 0 <= k < UPAGES -> k <> j -> upte (kbytes s2) pgdir k = upte (kbytes s) pgdir k) ->
  (forall p, ptpage (kbytes s2) pgdir p <-> ptpage (kbytes s) pgdir p) ->
  (forall a, ~ inpg v a -> (forall p, ptpage (kbytes s) pgdir p -> ~ inpg p a) ->
     rd8 (kbytes s2) a = rd8 (kbytes s) a) ->
  unmaps s2 s' pgdir (v :: free) freed (pminus P j) (j + 1) N ->
  unmaps s s' pgdir free (freed ++ [v]) P j N.
Proof.
  intros Hus Hj HjN HPj -> Hs2 Hp2 Ho2 [H1 H2 H3 H4 H5]. split.
  - rewrite <- app_assoc. eapply us_ok_ext; [|exact H1]. intros k Hk. cbn. unfold pminus, prange.
    destruct (P k); [|done]. cbn. range_cases; done.
  - intros k Hk Hr. rewrite H2, Hs2; try done; revert Hr; unfold prange; range_cases; done.
  - intros p. by rewrite H3, Hp2.
  - intros p. rewrite elem_of_app, list_elem_of_singleton, H4. split.
    + intros [(k & Hk & Hr & HP & ->)| ->].
      * unfold pminus in HP. apply andb_true_iff in HP as [HP Hne%negb_true_iff%Z.eqb_neq].
        exists k. split_and!; [lia|lia| |done|unfold upg; by rewrite Hs2 by done].
        revert Hr. unfold prange. range_cases; done.
      * exists j. split_and!; [lia|lia| |done|done]. unfold prange. range_cases; done.
    + intros (k & Hk & Hr & HP & ->). destruct (decide (k = j)) as [->|Hne]; [by right|left].
      exists k. split_and!; [lia|lia| | |].
      * revert Hr. unfold prange. range_cases; done.
      * unfold pminus. rewrite HP. by rewrite (proj2 (Z.eqb_neq k j)).
      * unfold upg. by rewrite Hs2.
  - intros a Ha Hnp. rewrite H5.
    + apply Ho2; [|done]. apply Ha. rewrite elem_of_app, list_elem_of_singleton. by right.
    + intros p Hp. apply Ha. rewrite elem_of_app. by left.
    + intros p Hp. by apply Hnp, Hp2.
Qed.

Abbreviation pages sz := ((sz + PGSIZE - 1) / PGSIZE).

Lemma dealloc_loop_ok fuel : forall j pgdir oldsz s free P,
  us_ok s pgdir free P -> 0 <= j -> 0 <= oldsz <= KERNBASE -> pages oldsz - j <= Z.of_nat fuel ->
  exists s' freed, deallocuvm_loop kend fuel pgdir (j * PGSIZE) oldsz s = Ret tt s' /\
    unmaps s s' pgdir free freed P j (pages oldsz).
Proof.
  induction fuel as [|fuel IH]; intros j pgdir oldsz s free P Hus Hj Ho Hf; cbn [deallocuvm_loop].
  all: destruct (Z.ltb_spec (j * PGSIZE) oldsz) as [Hlt|Hge].
  2, 4: exists s, []; split; [done|]; apply unmaps_none; [done|]; intros k Hk; unfold prange; range_cases; try dlia; done.
  { dlia. }
  assert (Hj' : 0 <= j < UPAGES) by lia. assert (HjN : j < pages oldsz) by dlia.
  pose proof Hus as [_ Hok Hmap Hpg _]. mstep (walk_noalloc pgdir (j * PGSIZE) s).
  destruct (Z.eqb_spec (slot (kbytes s) pgdir (j * PGSIZE)) 0) as [Hs0|Hs0].
  - apply (slot_zero _ _ _ _ Hok) in Hs0.
    assert (Hx : u32 (u32 (Z.shiftl (PDX (j * PGSIZE) + 1) 22 - PGSIZE) + PGSIZE) = (j / 1024 + 1) * 1024 * PGSIZE).
    { rewrite PDX_div, u32_add_l, Z.shiftl_mul_pow2 by lia. change (2 ^ 22) with 4194304.
      rewrite u32_small; dlia. }
    rewrite Hx.
    destruct (IH ((j / 1024 + 1) * 1024) pgdir oldsz s free P Hus) as (s' & freed & Hrun & Hun); [dlia|done|dlia|].
    exists s', freed. split; [exact Hrun|]. eapply unmaps_skip; [|intros k Hk Hr|exact Hun]; [dlia|].
    rewrite <- (Hmap k Hk). unfold upte, pte_at.
    replace (PDX (k * PGSIZE)) with (PDX (j * PGSIZE)) by (rewrite !PDX_div by lia; dlia).
    by rewrite Hs0.
  - assert (Hpp : pde_p (kbytes s) pgdir (PDX (j * PGSIZE)) = true).
    { apply not_false_iff_true. by rewrite <- (slot_zero _ _ _ (j * PGSIZE) Hok). }
    unfold load, bind at 1, gets.
    replace (rd32 (kbytes s) (slot (kbytes s) pgdir (j * PGSIZE))) with (upte (kbytes s) pgdir j)
      by (unfold upte, pte_at, slot; by rewrite Hpp).
    rewrite (Hmap j Hj'). replace (u32 (j * PGSIZE + PGSIZE)) with ((j + 1) * PGSIZE) by (rewrite u32_small; lia).
    destruct (P j) eqn:HPj.
    + destruct (free_page_ok s pgdir free P j Hus Hj' HPj) as (Hrun & Hus2 & Hs2 & Hp2 & Ho2).
      destruct (Z.eqb_spec (PTE_ADDR (upte (kbytes s) pgdir j)) 0) as [E0|_].
      { destruct (Hpg j Hj' HPj) as ((_ & Hlow & _) & _). unfold upg in Hlow. rewrite E0 in Hlow.
        unfold P2V in Hlow. rewrite u32_small in Hlow by lia. lia. }
      rewrite bind_assoc. fold (upg (kbytes s) pgdir j). mstep Hrun. unfold store, bind at 1, modify.
      destruct (IH (j + 1) _ oldsz _ _ _ Hus2) as (s' & freed & Hrun2 & Hun); [lia|done|lia|].
      exists s', (freed ++ [upg (kbytes s) pgdir j]). split; [exact Hrun2|].
      eapply unmaps_cons; try done.
    + unfold bind at 1, ret.
      destruct (IH (j + 1) pgdir oldsz s free P Hus) as (s' & freed & Hrun2 & Hun); [lia|done|lia|].
      exists s', freed. split; [exact Hrun2|]. eapply unmaps_skip; [|intros k Hk Hr|exact Hun]; [lia|].
      assert (k = j) as -> by lia. done.
Qed.

Lemma PGROUNDUP_pages x : 0 <= x <= 4294963200 -> PGROUNDUP x = pages x * PGSIZE.
Proof. intros H. destruct (PGROUNDUP_spec x H). dlia. Qed.

Lemma deallocuvm_run pgdir oldsz newsz s free P :
  us_ok s pgdir free P -> 0 <= newsz < oldsz -> oldsz <= KERNBASE ->
  exists s' freed, deallocuvm kend pgdir oldsz newsz s = Ret newsz s' /\
    unmaps s s' pgdir free freed P (pages newsz) (pages oldsz).
Proof.
  intros Hus Hn Ho. unfold deallocuvm. destruct (Z.leb_spec oldsz newsz); [lia|].
  rewrite PGROUNDUP_pages by lia.
  destruct (dealloc_loop_ok (S (Z.to_nat (oldsz / PGSIZE))) (pages newsz) pgdir oldsz s free P Hus)
    as (s' & freed & Hrun & Hun); [dlia|lia|dlia|].
  exists s', freed. split; [|exact Hun]. mstep Hrun. unfold ret. by rewrite i32_small by lia.
Qed.

(** [deallocuvm] to a smaller size returns that size and gives back
    to the allocator exactly the pages mapped above it: it unmaps them, skips
    what is not mapped (whole missing tables too), and neither the entries nor
    the contents of the pages below change. *)
Theorem deallocuvm_frees pgdir oldsz newsz s free P :
  us_ok s pgdir free P -> 0 <= newsz < oldsz -> oldsz <= KERNBASE ->
  exists s' freed,
    deallocuvm kend pgdir oldsz newsz s = Ret newsz s' /\
    us_ok s' pgdir (freed ++ free) (fun k => P k && negb (prange (pages newsz) (pages oldsz) k)) /\
    (forall p, p ∈ freed <-> exists k, 0 <= k < UPAGES /\
       prange (pages newsz) (pages oldsz) k = true /\ P k = true /\ p = upg (kbytes s) pgdir k) /\
    (forall k, 0 <= k < UPAGES -> prange (pages newsz) (pages oldsz) k = false ->
       upte (kbytes s') pgdir k = upte (kbytes s) pgdir k) /\
    (forall k a, 0 <= k < pages newsz -> P k = true -> inpg (upg (kbytes s) pgdir k) a ->
       rd8 (kbytes s') a = rd8 (kbytes s) a).
Proof.
  intros Hus Hn Ho. destruct (deallocuvm_run pgdir oldsz newsz s free P Hus Hn Ho) as (s' & freed & Hrun & [H1 H2 H3 H4 H5]).
  exists s', freed. split_and!; try done. intros k a Hk HP Ha.
  assert (Hku : 0 <= k < UPAGES) by dlia. pose proof Hus as [_ Hok _ Hpg Hinj].
  destruct (Hpg k Hku HP) as (Hv & _ & Hvp). apply H5.
  - intros p (j & Hj & Hr & HPj & ->)%H4 Hin.
    destruct (Hpg j Hj HPj) as (Hv' & _).
    assert (upg (kbytes s) pgdir k <> upg (kbytes s) pgdir j) as Hne.
    { intros E. apply (Hinj k j Hku Hj HP HPj) in E as ->. revert Hr. unfold prange. range_cases; done. }
    pose proof (page_apart kend _ _ Hv Hv' Hne). unfold inpg in *. lia.
  - intros p Hp Hin. destruct (ptpage_ok _ _ _ _ Hok Hp) as [Hpp _].
    assert (upg (kbytes s) pgdir k <> p) as Hne by (intros E; apply Hvp; by rewrite E).
    pose proof (page_apart kend _ _ Hv Hpp Hne). unfold inpg in *. lia.
Qed.

(** ** Growing an address space *)

(** Writing to one page that the address space does not use. *)
Lemma us_ok_write s m' pgdir free P v :
  us_ok s pgdir free P -> page_ok kend v -> v ∉ free -> ~ ptpage (kbytes s) pgdir v ->
  (forall a, ~ inpg v a -> rd8 m' a = rd8 (kbytes s) a) ->
  us_ok (set_kbytes m' s) pgdir free P /\
  (forall va, pte_at m' pgdir va = pte_at (kbytes s) pgdir va) /\
  (forall p, ptpage m' pgdir p <-> ptpage (kbytes s) pgdir p).
Proof.
  intros [Hr Hok Hmap Hpg Hinj] Hv Hvf Hvp Hout.
  destruct (pt_out _ m' _ _ _ Hok Hv Hvp Hout) as (Hd & Hpte & _).
  pose proof (ptpage_eq _ _ _ Hd) as Hpt. split_and!; [|done|done].
  assert (Hu : forall k, upte m' pgdir k = upte (kbytes s) pgdir k) by (intros k; apply Hpte).
  assert (Hg : forall k, upg m' pgdir k = upg (kbytes s) pgdir k) by (intros k; unfold upg; by rewrite Hu).
  split; cbn [kbytes set_kbytes].
  - eapply fl_rep_frame; [exact Hr|done|by destruct Hr as (_ & _ & _ & ?)|].
    intros q Hq. cbn. apply rd32_ext. intros b Hb. apply Hout. intros Hin.
    destruct Hr as (_ & _ & Hqs & _). rewrite Forall_forall in Hqs. specialize (Hqs q Hq).
    assert (v <> q) as Hne by (by intros ->). pose proof (page_apart kend _ _ Hv Hqs Hne). unfold inpg in *. lia.
  - by eapply pt_ok_frame.
  - intros k Hk. rewrite Hu. by apply Hmap.
  - intros k Hk HP. rewrite Hg, Hpt. by apply Hpg.
  - intros j k. rewrite !Hg. by apply Hinj.
Qed.

(** Taking the first free page and clearing it. *)
Lemma take_page s pgdir p free P c :
  us_ok s pgdir (p :: free) P ->
  exists s1, kalloc s = Ret p s1 /\ kbytes s1 = kbytes s /\ us_ok s1 pgdir free P /\
    let m2 := memset (kbytes s1) p c PGSIZE in
    let s2 := set_kbytes m2 s1 in
    us_ok s2 pgdir free P /\ page_ok kend p /\ p ∉ free /\ ~ ptpage m2 pgdir p /\
    (forall k, 0 <= k < UPAGES -> P k = true -> upg m2 pgdir k <> p) /\
    (forall k, upte m2 pgdir k = upte (kbytes s) pgdir k) /\
    (forall q, ptpage m2 pgdir q <-> ptpage (kbytes s) pgdir q) /\
    (forall a, ~ inpg p a -> rd8 m2 a = rd8 (kbytes s) a) /\
    (forall a, inpg p a -> rd8 m2 a = u8 c).
Proof.
  intros Hus. pose proof Hus as [Hr Hok Hmap Hpg Hinj].
  destruct (kalloc_run kend s (p :: free) Hr) as (s1 & Hrun & Hrep & Hb & _). cbn [hd tl] in *.
  pose proof Hr as (_ & Hnd & Hps & _). apply NoDup_cons in Hnd as [Hpf _]. apply Forall_cons in Hps as [Hp _].
  assert (Hus1 : us_ok s1 pgdir free P).
  { split; rewrite ?Hb; try done.
    - eapply pt_ok_frame; [exact Hok| |done]. intros q Hq. by constructor.
    - intros k Hk HP. destruct (Hpg k Hk HP) as (? & Hnf & ?). split_and!; try done.
      intros Hx. apply Hnf. by constructor. }
  assert (Hnp : ~ ptpage (kbytes s1) pgdir p).
  { rewrite Hb. intros Hx. destruct (ptpage_ok _ _ _ _ Hok Hx) as [_ Hn]. apply Hn. by constructor. }
  exists s1. do 3 (split; [done|]). cbn zeta.
  assert (Hout : forall a, ~ inpg p a -> rd8 (memset (kbytes s1) p c PGSIZE) a = rd8 (kbytes s1) a).
  { unfold inpg. intros a Ha. rewrite rd8_memset_page. range_cases; done. }
  destruct (us_ok_write s1 _ pgdir free P p Hus1 Hp Hpf Hnp Hout) as (Hus2 & Hpte & Hpt).
  split_and!; try done.
  - by rewrite Hpt.
  - intros k Hk HP E. destruct (us_page _ _ _ _ Hus k Hk HP) as (_ & Hn & _). apply Hn.
    unfold upg, upte in E. rewrite Hpte, Hb in E. unfold upg, upte. rewrite E. by constructor.
  - intros k. unfold upte. by rewrite Hpte, Hb.
  - intros q. by rewrite Hpt, Hb.
  - intros a Ha. by rewrite Hout, Hb.
  - unfold inpg. intros a Ha. rewrite rd8_memset_page. range_cases; done.
Qed.

(** Mapping the page [p], which nothing else uses, at user page [j]. *)
Lemma map_page s pgdir free P p j perm :
  us_ok s pgdir free P -> page_ok kend p -> p ∉ free -> ~ ptpage (kbytes s) pgdir p ->
  (forall k, 0 <= k < UPAGES -> P k = true -> upg (kbytes s) pgdir k <> p) ->
  0 <= j < UPAGES -> P j = false -> 0 <= perm < PGSIZE ->
  exists r s' taken free',
    mappages pgdir (j * PGSIZE) PGSIZE (V2P p) perm s = Ret r s' /\
    free = taken ++ free' /\
    (forall q, ptpage (kbytes s') pgdir q <-> ptpage (kbytes s) pgdir q \/ q ∈ taken) /\
    (forall a, (forall q, ptpage (kbytes s') pgdir q -> ~ inpg q a) -> rd8 (kbytes s') a = rd8 (kbytes s) a) /\
    (forall k, 0 <= k < UPAGES -> k <> j -> upte (kbytes s') pgdir k = upte (kbytes s) pgdir k) /\
    (forall va, KERNBASE <= va < 4294967296 -> pte_at (kbytes s') pgdir va = pte_at (kbytes s) pgdir va) /\
    (forall i, 0 <= i < 1024 -> pde_p (kbytes s') pgdir i = true ->
       pde_p (kbytes s) pgdir i = true \/ i = j / 1024) /\
    ((r = 0 /\ us_ok s' pgdir free' (fun k => P k || (k =? j)) /\
      upte (kbytes s') pgdir j = V2P p + Z.lor perm PTE_P /\ upg (kbytes s') pgdir j = p) \/
     (r = -1 /\ free' = [] /\ us_ok s' pgdir free' P /\ upte (kbytes s') pgdir j = upte (kbytes s) pgdir j /\
      pde_p (kbytes s') pgdir (j / 1024) = false)).
Proof.
  intros Hus Hp Hpf Hnp Hne Hj HPj Hperm. pose proof Hus as [Hr Hok Hmap Hpg Hinj].
  destruct (V2P_page p Hp) as [Hvm Hvr]. pose proof (page_range p Hp) as [Hpr _].
  destruct (mappages_loop_ok 0 1 pgdir (j * PGSIZE) (V2P p) perm s free)
    as (r & k & s' & t & f' & Hrun & [E1 E2 E3 E4 E5 E6] & Hmp & Hpd & Hcase); try done; try lia; try dlia.
  { intros va Hva. rewrite upte_div by lia. replace (va / PGSIZE) with j by dlia. by rewrite Hmap. }
  exists r, s', t, f'.
  assert (Hrun' : mappages pgdir (j * PGSIZE) PGSIZE (V2P p) perm s = Ret r s').
  { destruct (PGROUNDDOWN_spec (j * PGSIZE) ltac:(lia)) as [? ?].
    destruct (PGROUNDDOWN_spec (j * PGSIZE + PGSIZE - 1) ltac:(lia)) as [? ?].
    unfold mappages.
    replace (PGROUNDDOWN (j * PGSIZE + PGSIZE - 1)) with (j * PGSIZE + PGSIZE * Z.of_nat 0) by dlia.
    replace (PGROUNDDOWN (j * PGSIZE)) with (j * PGSIZE) by dlia.
    replace (j * PGSIZE + PGSIZE * Z.of_nat 0 - j * PGSIZE) with 0 by lia. exact Hrun. }
  assert (Hpt : forall q, ptpage (kbytes s') pgdir q <-> ptpage (kbytes s) pgdir q \/ q ∈ t).
  { intros q. split; [apply E5|apply E6]. }
  assert (Hsame : forall k', 0 <= k' < UPAGES -> k' <> j -> upte (kbytes s') pgdir k' = upte (kbytes s) pgdir k').
  { intros k' Hk' Hn. unfold upte. rewrite (Hmp (k' * PGSIZE)) by lia. range_cases; done. }
  assert (Hnotpt : forall q, page_ok kend q -> q ∉ free -> ~ ptpage (kbytes s) pgdir q -> ~ ptpage (kbytes s') pgdir q).
  { intros q _ Hq1 Hq2 [?|Hq]%Hpt; [done|]. apply Hq1. rewrite E1, elem_of_app. by left. }
  assert (Hsub : forall q, q ∉ free -> q ∉ f') by (intros q Hq Hx; apply Hq; rewrite E1, elem_of_app; by right).
  assert (Hdx : PDX (j * PGSIZE) = j / 1024) by (rewrite PDX_div by lia; dlia).
  split_and!; try done.
  { intros va Hva. rewrite (Hmp va) by lia. assert (k <= 1) by (destruct Hcase as [[_ ->]|(_ & ? & _)]; lia).
    range_cases; done. }
  { intros i Hi Hpi. rewrite Z.mul_0_r, Z.add_0_r, Hdx in Hpd. destruct (Hpd i Hi Hpi); [by left|right; lia]. }
  destruct Hcase as [[-> ->]|(-> & Hk & -> & Hno)]; [left|right].
  - destruct (pte_fields (V2P p) perm Hvm ltac:(lia) Hperm) as (F1 & F2 & _ & F3 & _).
    assert (Huj : upte (kbytes s') pgdir j = Z.lor (Z.lor (V2P p) perm) PTE_P).
    { unfold upte. rewrite (Hmp (j * PGSIZE)) by lia. range_cases; try lia.
      rewrite Z.sub_diag. by rewrite Z.mul_0_r, Z.add_0_r. }
    assert (Hgj : upg (kbytes s') pgdir j = p) by (unfold upg; rewrite Huj, F2; apply P2V_V2P; lia).
    assert (Hgs : forall k, 0 <= k < UPAGES -> k <> j -> upg (kbytes s') pgdir k = upg (kbytes s) pgdir k).
    { intros k Hk Hn. unfold upg. by rewrite Hsame. }
    split_and!; [done| |by rewrite Huj, F1|done]. split; try done.
    + intros k Hk. destruct (Z.eqb_spec k j) as [->|Hn]; [by rewrite Huj, orb_true_r|].
      rewrite orb_false_r, Hsame by done. by apply Hmap.
    + intros k Hk HP. destruct (Z.eqb_spec k j) as [->|Hn]; [rewrite Hgj; auto|].
      rewrite orb_false_r in HP. rewrite Hgs by done. destruct (Hpg k Hk HP) as (? & ? & ?). auto.
    + intros k1 k2 Hk1 Hk2 HP1 HP2.
      destruct (Z.eqb_spec k1 j) as [->|Hn1], (Z.eqb_spec k2 j) as [->|Hn2]; try done;
        rewrite ?orb_false_r in *; rewrite ?Hgj, ?Hgs by done; intros E.
      * destruct (Hne k2 Hk2 HP2). done.
      * destruct (Hne k1 Hk1 HP1). done.
      * by apply Hinj.
  - assert (k = 0) as -> by lia.
    assert (Hall : forall k, 0 <= k < UPAGES -> upte (kbytes s') pgdir k = upte (kbytes s) pgdir k).
    { intros k Hk'. unfold upte. rewrite (Hmp (k * PGSIZE)) by lia. range_cases; done. }
    assert (Hgs : forall k, 0 <= k < UPAGES -> upg (kbytes s') pgdir k = upg (kbytes s) pgdir k).
    { intros k Hk'. unfold upg. by rewrite Hall. }
    rewrite Z.mul_0_r, Z.add_0_r, Hdx in Hno.
    split_and!; [done|done| |by apply Hall|done]. split; try done.
    + intros k Hk'. rewrite Hall by done. by apply Hmap.
    + intros k Hk' HP. rewrite Hgs by done. destruct (Hpg k Hk' HP) as (? & ? & ?). auto.
    + intros k1 k2 Hk1 Hk2 HP1 HP2. rewrite !Hgs by done. by apply Hinj.
Qed.

(** [s] is [s0] with zeroed pages mapped at the user pages [j0 .. j-1]. *)
Record grows (s0 s : kmem) (pgdir : Z) (free0 free : list Z) (P0 : Z -> bool) (j0 j : Z) : Prop := {
  g_us : us_ok s pgdir free (fun k => P0 k || prange j0 j k);
  g_same : forall k, 0 <= k < UPAGES -> prange j0 j k = false ->
    upte (kbytes s) pgdir k = upte (kbytes s0) pgdir k;
  g_new : forall k, 0 <= k < UPAGES -> prange j0 j k = true ->
    upte (kbytes s) pgdir k = V2P (upg (kbytes s) pgdir k) + 7 /\
    (forall a, inpg (upg (kbytes s) pgdir k) a -> rd8 (kbytes s) a = 0);
  g_old : forall k a, 0 <= k < UPAGES -> P0 k = true -> inpg (upg (kbytes s0) pgdir k) a ->
    rd8 (kbytes s) a = rd8 (kbytes s0) a;
  g_free : forall p, p ∈ free0 ->
    p ∈ free \/ ptpage (kbytes s) pgdir p \/
    exists k, 0 <= k < UPAGES /\ prange j0 j k = true /\ p = upg (kbytes s) pgdir k;
  g_sub : forall p, p ∈ free -> p ∈ free0;
  g_from : forall k, 0 <= k < UPAGES -> prange j0 j k = true -> upg (kbytes s) pgdir k ∈ free0;
  g_pt : forall p, ptpage (kbytes s) pgdir p -> ptpage (kbytes s0) pgdir p \/ p ∈ free0;
}.

Lemma grows_refl s pgdir free P j : us_ok s pgdir free P -> grows s s pgdir free free P j j.
Proof.
  assert (Hp : forall k, prange j j k = false) by (intros k; unfold prange; range_cases; done).
  intros Hus. split; auto.
  - eapply us_ok_ext; [|exact Hus]. intros k Hk. by rewrite Hp, orb_false_r.
  - intros k _. by rewrite Hp.
  - intros k _. by rewrite Hp.
Qed.

Lemma page_disjoint p q a : page_ok kend p -> page_ok kend q -> p <> q -> inpg p a -> ~ inpg q a.
Proof. intros Hp Hq Hne. pose proof (page_apart kend _ _ Hp Hq Hne). unfold inpg. lia. Qed.

(** One successful round of [allocuvm]: page [p], already cleared in [s2],
    is mapped at [j]. *)
Lemma grows_step s0 s s2 s' pgdir free0 p free taken free' P0 j0 j :
  grows s0 s pgdir free0 (p :: free) P0 j0 j -> us_ok s0 pgdir free0 P0 ->
  0 <= j0 <= j -> j < UPAGES ->
  page_ok kend p -> p ∉ free -> ~ ptpage (kbytes s2) pgdir p ->
  (forall k, upte (kbytes s2) pgdir k = upte (kbytes s) pgdir k) ->
  (forall q, ptpage (kbytes s2) pgdir q <-> ptpage (kbytes s) pgdir q) ->
  (forall a, ~ inpg p a -> rd8 (kbytes s2) a = rd8 (kbytes s) a) ->
  (forall a, inpg p a -> rd8 (kbytes s2) a = 0) ->
  free = taken ++ free' ->
  (forall q, ptpage (kbytes s') pgdir q <-> ptpage (kbytes s2) pgdir q \/ q ∈ taken) ->
  (forall a, (forall q, ptpage (kbytes s') pgdir q -> ~ inpg q a) -> rd8 (kbytes s') a = rd8 (kbytes s2) a) ->
  (forall k, 0 <= k < UPAGES -> k <> j -> upte (kbytes s') pgdir k = upte (kbytes s2) pgdir k) ->
  us_ok s' pgdir free' (fun k => (P0 k || prange j0 j k) || (k =? j)) ->
  upte (kbytes s') pgdir j = V2P p + 7 -> upg (kbytes s') pgdir j = p ->
  grows s0 s' pgdir free0 free' P0 j0 (j + 1).
Proof.
  intros [G1 G2 G3 G4 G5 G6 G8 G7] Hus0 Hj0 Hj Hp Hpf Hnp Hu2 Hpt2 Hout2 Hz2 Hfr Hpt' Hout' Hu' Hus' Huj Hgj.
  pose proof Hus' as [_ Hok' _ Hpg' _].
  assert (Hrange : forall k, prange j0 (j + 1) k = prange j0 j k || (k =? j)).
  { intros k. unfold prange. range_cases; done. }
  assert (Hus'' : us_ok s' pgdir free' (fun k => P0 k || prange j0 (j + 1) k)).
  { eapply us_ok_ext; [|exact Hus']. intros k Hk. cbn. by rewrite Hrange, orb_assoc. }
  assert (Hgk : forall k, 0 <= k < UPAGES -> k <> j -> upg (kbytes s') pgdir k = upg (kbytes s) pgdir k).
  { intros k Hk Hn. unfold upg. by rewrite Hu', Hu2. }
  (* bytes of a data page other than [p] do not change *)
  assert (Hkeep : forall q a, page_ok kend q -> q <> p -> ~ ptpage (kbytes s') pgdir q -> inpg q a ->
            rd8 (kbytes s') a = rd8 (kbytes s) a).
  { intros q a Hq Hqp Hnq Ha. rewrite Hout'.
    - apply Hout2. by apply (page_disjoint q).
    - intros r Hr. destruct (ptpage_ok _ _ _ _ Hok' Hr) as [Hrp _].
      apply (page_disjoint q); try done. intros ->. done. }
  split; try done.
  - intros k Hk. rewrite Hrange. intros [Hr Hn%Z.eqb_neq]%orb_false_iff. rewrite Hu', Hu2 by done. by apply G2.
  - intros k Hk. rewrite Hrange. intros Hr. destruct (decide (k = j)) as [->|Hn].
    + rewrite Hgj. split; [done|]. intros a Ha. rewrite Hout'; [by apply Hz2|].
      intros q Hq. destruct (ptpage_ok _ _ _ _ Hok' Hq) as [Hqp _].
      apply (page_disjoint p); try done. intros <-. rewrite Hpt' in Hq. destruct Hq as [?|Hq]; [done|].
      apply Hpf. rewrite Hfr, elem_of_app. by left.
    + rewrite (proj2 (Z.eqb_neq k j)), orb_false_r in Hr by done. rewrite Hgk, Hu', Hu2 by done.
      destruct (G3 k Hk Hr) as [E1 E2]. split; [done|]. intros a Ha.
      destruct (Hpg' k Hk) as (Hq & _ & Hnq); [by rewrite Hr, orb_true_r|]. rewrite Hgk in Hq, Hnq by done.
      rewrite (Hkeep _ a Hq); [by apply E2| |done|done].
      intros E. destruct (us_page _ _ _ _ G1 k Hk) as (_ & Hn1 & _); [by rewrite Hr, orb_true_r|].
      apply Hn1. rewrite E. by constructor.
  - intros k a Hk HP Ha. destruct (us_page _ _ _ _ Hus0 k Hk HP) as (Hq & Hqf & Hqp).
    rewrite (Hkeep (upg (kbytes s0) pgdir k) a); [by apply (G4 k)|done| | |done].
    + intros E. apply Hqf, G6. rewrite E. by constructor.
    + rewrite Hpt', Hpt2. intros [Hx|Hx].
      * by destruct (G7 _ Hx).
      * apply Hqf, G6. rewrite Hfr. apply elem_of_cons. right. rewrite elem_of_app. by left.
  - intros q Hq. destruct (G5 q Hq) as [Hx|[Hx|(k & Hk & Hr & ->)]].
    + apply elem_of_cons in Hx as [->|Hx].
      * right; right. exists j. split_and!; [lia|lia| |done]. rewrite Hrange, Z.eqb_refl. apply orb_true_r.
      * rewrite Hfr, elem_of_app in Hx. destruct Hx as [Hx|Hx]; [|by left]. right; left. apply Hpt'. by right.
    + right; left. apply Hpt'. left. by apply Hpt2.
    + right; right. exists k. assert (k <> j) as Hn by (intros ->; revert Hr; unfold prange; range_cases; done).
      rewrite Hrange, Hr, Hgk by done. done.
  - intros q Hq. apply G6, elem_of_cons. right. rewrite Hfr, elem_of_app. by right.
  - intros k Hk. rewrite Hrange. intros Hr. destruct (decide (k = j)) as [->|Hn].
    + rewrite Hgj. apply G6. by constructor.
    + rewrite (proj2 (Z.eqb_neq k j)), orb_false_r in Hr by done. rewrite Hgk by done. by apply G8.
  - intros q. rewrite Hpt', Hpt2. intros [Hx|Hx]; [by apply G7|]. right. apply G6, elem_of_cons. right.
    rewrite Hfr, elem_of_app. by left.
Qed.

(** An address space put back as it was: the entries and contents of its pages
    are those of [s0], and the free pages are those of [s0] except the ones in
    [lost] and those that became tables. *)
Record restored (s0 s : kmem) (pgdir : Z) (free0 free lost : list Z) (P0 : Z -> bool) (j0 N : Z) : Prop := {
  rs_us : us_ok s pgdir free P0;
  rs_same : forall k, 0 <= k < UPAGES -> prange j0 N k = false ->
    upte (kbytes s) pgdir k = upte (kbytes s0) pgdir k;
  rs_old : forall k a, 0 <= k < UPAGES -> P0 k = true -> inpg (upg (kbytes s0) pgdir k) a ->
    rd8 (kbytes s) a = rd8 (kbytes s0) a;
  rs_free : forall p, p ∈ free0 -> p ∈ lost \/ p ∈ free \/ ptpage (kbytes s) pgdir p;
  rs_sub : forall p, p ∈ free -> p ∈ free0;
  rs_pt : forall p, ptpage (kbytes s) pgdir p -> ptpage (kbytes s0) pgdir p \/ p ∈ free0;
}.

Lemma undo_ok s0 s3 s' pgdir free0 f3 freed lost P0 j0 j N :
  us_ok s0 pgdir free0 P0 -> us_ok s3 pgdir f3 (fun k => P0 k || prange j0 j k) ->
  j <= N -> (forall k, 0 <= k < UPAGES -> prange j0 N k = true -> P0 k = false) ->
  (forall k, 0 <= k < UPAGES -> prange j0 j k = false -> upte (kbytes s3) pgdir k = upte (kbytes s0) pgdir k) ->
  (forall k a, 0 <= k < UPAGES -> P0 k = true -> inpg (upg (kbytes s0) pgdir k) a ->
     rd8 (kbytes s3) a = rd8 (kbytes s0) a) ->
  (forall p, p ∈ free0 -> p ∈ lost \/ p ∈ f3 \/ ptpage (kbytes s3) pgdir p \/
     exists k, 0 <= k < UPAGES /\ prange j0 j k = true /\ p = upg (kbytes s3) pgdir k) ->
  (forall p, p ∈ f3 -> p ∈ free0) ->
  (forall k, 0 <= k < UPAGES -> prange j0 j k = true -> upg (kbytes s3) pgdir k ∈ free0) ->
  (forall p, ptpage (kbytes s3) pgdir p -> ptpage (kbytes s0) pgdir p \/ p ∈ free0) ->
  unmaps s3 s' pgdir f3 freed (fun k => P0 k || prange j0 j k) j0 N ->
  restored s0 s' pgdir free0 (freed ++ f3) lost P0 j0 N.
Proof.
  intros Hus0 Hus3 HjN HP0 H1 H2 H3 H4 H5 H6 [U1 U2 U3 U4 U5].
  assert (Hsub : forall k, prange j0 j k = true -> prange j0 N k = true).
  { intros k. unfold prange. range_cases; done. }
  assert (Hnr : forall k, 0 <= k < UPAGES -> P0 k = true -> prange j0 N k = false).
  { intros k Hk HP. apply not_true_iff_false. intros Hr. by rewrite (HP0 k Hk Hr) in HP. }
  assert (Hnr' : forall k, prange j0 N k = false -> prange j0 j k = false).
  { intros k Hk. apply not_true_iff_false. intros Hr%Hsub. congruence. }
  assert (Hfr : forall p, p ∈ freed -> exists k, 0 <= k < UPAGES /\ prange j0 j k = true /\ p = upg (kbytes s3) pgdir k).
  { intros p (k & Hk & Hr & HP & ->)%U4. exists k. split_and!; [lia|lia| |done].
    by rewrite (HP0 k Hk Hr) in HP. }
  split.
  - eapply us_ok_ext; [|exact U1]. intros k Hk. cbn. destruct (prange j0 N k) eqn:E.
    + rewrite andb_false_r. symmetry. by apply HP0.
    + rewrite (Hnr' k E), orb_false_r. apply andb_true_r.
  - intros k Hk Hr. rewrite U2 by done. apply H1; [done|by apply Hnr'].
  - intros k a Hk HP Ha. rewrite U5; [by apply (H2 k)| |].
    + intros p (k' & Hk' & Hr' & ->)%Hfr Hin.
      destruct (us_page _ _ _ _ Hus0 k Hk HP) as (Hq & Hqf & _).
      destruct (us_page _ _ _ _ Hus3 k' Hk') as (Hq' & _ & _); [by rewrite Hr', orb_true_r|].
      revert Hin. apply (page_disjoint (upg (kbytes s0) pgdir k)); try done.
      intros E. apply Hqf. rewrite E. by apply H5.
    + intros p Hp Hin. destruct (us_page _ _ _ _ Hus0 k Hk HP) as (Hq & Hqf & Hqp).
      destruct (ptpage_ok _ _ _ _ (us_pt _ _ _ _ Hus3) Hp) as [Hpp _].
      revert Hin. apply (page_disjoint (upg (kbytes s0) pgdir k)); try done.
      intros E. rewrite <- E in Hp. by destruct (H6 _ Hp).
  - intros p Hp. rewrite elem_of_app, U3. destruct (H3 p Hp) as [?|[?|[?|(k & Hk & Hr & ->)]]]; auto.
    right; left; left. apply U4. exists k. split_and!; [lia|lia|by apply Hsub|by rewrite Hr, orb_true_r|done].
  - intros p [Hp|Hp]%elem_of_app; [|by apply H4]. apply Hfr in Hp as (k & Hk & Hr & ->). by apply H5.
  - intros p. rewrite U3. apply H6.
Qed.

(** Giving back a page that the address space does not use. *)
Lemma give_page s pgdir free P p :
  us_ok s pgdir free P -> page_ok kend p -> p ∉ free -> ~ ptpage (kbytes s) pgdir p ->
  (forall k, 0 <= k < UPAGES -> P k = true -> upg (kbytes s) pgdir k <> p) ->
  let s' := kfree_state p s in
  kfree kend p s = Ret tt s' /\ us_ok s' pgdir (p :: free) P /\
  (forall va, pte_at (kbytes s') pgdir va = pte_at (kbytes s) pgdir va) /\
  (forall q, ptpage (kbytes s') pgdir q <-> ptpage (kbytes s) pgdir q).
Proof.
  intros Hus Hp Hpf Hnp Hne s'. pose proof Hus as [Hr _ _ _ _].
  destruct (us_ok_write s (kbytes s') pgdir free P p Hus Hp Hpf Hnp (kfree_out p s))
    as ([_ [A1 A2 A3 A4] Hmap2 Hpg2 Hinj2] & Hpte & Hpt).
  cbn [kbytes set_kbytes] in *. split_and!; try done.
  - apply kfree_run; [done|by destruct Hr as (_ & _ & _ & ?)].
  - split; [by apply kfree_state_rep| |done| |done].
    + split; try done.
      * intros [Hx|Hx]%elem_of_cons; [|done]. apply Hnp, Hpt. by left.
      * intros i Hi Hpi. destruct (A3 i Hi Hpi) as (? & ? & ?). split_and!; try done.
        intros [Hx|Hx]%elem_of_cons; [|done]. apply Hnp, Hpt. right. by exists i.
    + intros k Hk HP. destruct (Hpg2 k Hk HP) as (? & ? & ?). split_and!; try done.
      intros [Hx|Hx]%elem_of_cons; [|done]. destruct (Hne k Hk HP). rewrite <- Hx.
      unfold upg, upte. by rewrite Hpte.
Qed.

(** Giving back the page that could not be mapped. *)
Lemma restored_kfree s0 s pgdir free0 free p P0 j0 N :
  restored s0 s pgdir free0 free [p] P0 j0 N -> us_ok s0 pgdir free0 P0 ->
  (forall k, 0 <= k < UPAGES -> prange j0 N k = true -> P0 k = false) ->
  page_ok kend p -> p ∈ free0 -> p ∉ free -> ~ ptpage (kbytes s) pgdir p ->
  kfree kend p s = Ret tt (kfree_state p s) /\
  restored s0 (kfree_state p s) pgdir free0 (p :: free) [] P0 j0 N.
Proof.
  intros [R1 R2 R3 R4 R5 R6] Hus0 HP0 Hp Hp0 Hpf Hnp.
  assert (Hup : forall k, 0 <= k < UPAGES -> P0 k = true -> upg (kbytes s) pgdir k <> p).
  { intros k Hk HP. assert (E : upg (kbytes s) pgdir k = upg (kbytes s0) pgdir k).
    { unfold upg. rewrite R2; [done|done|]. apply not_true_iff_false. intros Hx. by rewrite (HP0 k Hk Hx) in HP. }
    rewrite E. intros Ex. destruct (us_page _ _ _ _ Hus0 k Hk HP) as (_ & Hn & _). by rewrite Ex in Hn. }
  destruct (give_page s pgdir free P0 p R1 Hp Hpf Hnp Hup) as (Hrun & Hus & Hpte & Hpt). split; [done|].
  split; [done| | | | |].
  - intros k Hk Hx. unfold upte. rewrite Hpte. by apply R2.
  - intros k a Hk HP Ha. rewrite <- (R3 k a Hk HP Ha). apply kfree_out.
    destruct (us_page _ _ _ _ Hus0 k Hk HP) as (Hq & Hn & _).
    apply (page_disjoint (upg (kbytes s0) pgdir k)); try done. by intros <-.
  - intros q Hq. rewrite Hpt, elem_of_cons. destruct (R4 q Hq) as [Hx%list_elem_of_singleton|[?|?]]; auto.
  - intros q [->|Hq]%elem_of_cons; [done|by apply R5].
  - intros q. rewrite Hpt. apply R6.
Qed.

Lemma grows_undo s0 s pgdir free0 free P0 j0 j oldsz newsz :
  grows s0 s pgdir free0 free P0 j0 j -> us_ok s0 pgdir free0 P0 ->
  0 <= oldsz < newsz -> newsz <= KERNBASE -> j0 = pages oldsz -> j <= pages newsz ->
  (forall k, 0 <= k < UPAGES -> prange j0 (pages newsz) k = true -> P0 k = false) ->
  exists s' free', deallocuvm kend pgdir newsz oldsz s = Ret oldsz s' /\
    restored s0 s' pgdir free0 free' [] P0 j0 (pages newsz).
Proof.
  intros [G1 G2 G3 G4 G5 G6 G8 G7] Hus0 Ho Hn -> Hj HP0.
  destruct (deallocuvm_run pgdir newsz oldsz s free _ G1 Ho Hn) as (s' & freed & Hrun & Hun).
  exists s', (freed ++ free). split; [exact Hrun|]. eapply undo_ok; try done. intros p Hp. right. by apply G5.
Qed.

Lemma kalloc_none s pgdir P :
  us_ok s pgdir [] P ->
  exists s1, kalloc s = Ret 0 s1 /\ kbytes s1 = kbytes s /\ us_ok s1 pgdir [] P.
Proof.
  intros [Hr Hok Hmap Hpg Hinj]. destruct (kalloc_run kend s [] Hr) as (s1 & Hrun & Hrep & Hb & _).
  exists s1. split_and!; [done|done|]. split; rewrite ?Hb; done.
Qed.

Lemma grows_kbytes s0 s s1 pgdir free0 free P0 j0 j :
  grows s0 s pgdir free0 free P0 j0 j -> kbytes s1 = kbytes s ->
  us_ok s1 pgdir free (fun k => P0 k || prange j0 j k) -> grows s0 s1 pgdir free0 free P0 j0 j.
Proof. intros [G1 G2 G3 G4 G5 G6 G7] Hb Hus. by split; rewrite ?Hb. Qed.

(** The round in which the page is there but no table for it. *)
Lemma grows_undo_map s0 s s2 s3 pgdir free0 p free taken P0 j0 j oldsz newsz :
  grows s0 s pgdir free0 (p :: free) P0 j0 j -> us_ok s0 pgdir free0 P0 ->
  0 <= oldsz < newsz -> newsz <= KERNBASE -> j0 = pages oldsz -> j <= pages newsz -> 0 <= j < UPAGES ->
  (forall k, 0 <= k < UPAGES -> prange j0 (pages newsz) k = true -> P0 k = false) ->
  page_ok kend p -> p ∉ free -> ~ ptpage (kbytes s2) pgdir p ->
  (forall k, 0 <= k < UPAGES -> P0 k || prange j0 j k = true -> upg (kbytes s2) pgdir k <> p) ->
  (forall k, upte (kbytes s2) pgdir k = upte (kbytes s) pgdir k) ->
  (forall q, ptpage (kbytes s2) pgdir q <-> ptpage (kbytes s) pgdir q) ->
  (forall a, ~ inpg p a -> rd8 (kbytes s2) a = rd8 (kbytes s) a) ->
  free = taken ++ [] ->
  (forall q, ptpage (kbytes s3) pgdir q <-> ptpage (kbytes s2) pgdir q \/ q ∈ taken) ->
  (forall a, (forall q, ptpage (kbytes s3) pgdir q -> ~ inpg q a) -> rd8 (kbytes s3) a = rd8 (kbytes s2) a) ->
  (forall k, 0 <= k < UPAGES -> upte (kbytes s3) pgdir k = upte (kbytes s2) pgdir k) ->
  us_ok s3 pgdir [] (fun k => P0 k || prange j0 j k) ->
  exists s' s'' free', deallocuvm kend pgdir newsz oldsz s3 = Ret oldsz s' /\
    kfree kend p s' = Ret tt s'' /\ restored s0 s'' pgdir free0 free' [] P0 j0 (pages newsz).
Proof.
  intros [G1 G2 G3 G4 G5 G6 G8 G7] Hus0 Ho Hn -> Hj Hju HP0 Hp Hpf Hnp Hpne Hu2 Hpt2 Hout2 Hfr Hpt3 Hout3 Hu3 Hus3.
  rewrite app_nil_r in Hfr. subst taken.
  assert (Hg3 : forall k, 0 <= k < UPAGES -> upg (kbytes s3) pgdir k = upg (kbytes s) pgdir k).
  { intros k Hk. unfold upg. by rewrite Hu3, Hu2. }
  assert (Hnp3 : ~ ptpage (kbytes s3) pgdir p) by (rewrite Hpt3; by intros [?|?]).
  destruct (deallocuvm_run pgdir newsz oldsz s3 [] _ Hus3 Ho Hn) as (s' & freed & Hrun & Hun).
  assert (Hres : restored s0 s' pgdir free0 (freed ++ []) [p] P0 (pages oldsz) (pages newsz)).
  { eapply undo_ok; try done.
    - intros k Hk Hr. rewrite Hu3, Hu2 by done. by apply G2.
    - intros k a Hk HP Ha. destruct (us_page _ _ _ _ Hus0 k Hk HP) as (Hq & Hqf & Hqp). rewrite Hout3.
      + rewrite Hout2; [by apply (G4 k)|]. apply (page_disjoint (upg (kbytes s0) pgdir k)); try done.
        intros E. apply Hqf, G6. rewrite E. by constructor.
      + intros q Hq3. destruct (ptpage_ok _ _ _ _ (us_pt _ _ _ _ Hus3) Hq3) as [Hqq _].
        apply (page_disjoint (upg (kbytes s0) pgdir k)); try done. intros <-.
        rewrite Hpt3, Hpt2 in Hq3. destruct Hq3 as [Hx|Hx]; [by destruct (G7 _ Hx)|].
        apply Hqf, G6. by apply elem_of_cons; right.
    - intros q Hq. destruct (G5 q Hq) as [Hx|[Hx|(k & Hk & Hr & ->)]].
      + apply elem_of_cons in Hx as [->|Hx]; [left; by constructor|]. right; right; left. apply Hpt3. by right.
      + right; right; left. apply Hpt3. left. by apply Hpt2.
      + right; right; right. exists k. by rewrite Hg3.
    - intros q Hq. by apply elem_of_nil in Hq.
    - intros k Hk Hr. rewrite Hg3 by done. by apply G8.
    - intros q. rewrite Hpt3, Hpt2. intros [Hx|Hx]; [by apply G7|]. right. apply G6. by apply elem_of_cons; right. }
  destruct Hun as [_ _ U3 U4 _].
  destruct (restored_kfree _ _ _ _ _ p _ _ _ Hres Hus0 HP0 Hp) as [Hkf Hres2].
  - apply G6. by constructor.
  - rewrite app_nil_r. intros (k & Hk & Hr & HP & E)%U4. apply (Hpne k Hk HP).
    rewrite E. unfold upg. by rewrite Hu3.
  - by rewrite U3.
  - by exists s', (kfree_state p s'), (p :: freed ++ []).
Qed.

(** *** When memory runs out *)

(** Room that suffices for the pages from [j0] up to [N]: the pages themselves and
    a table for every 1024 of them. *)
Definition grow_need (j0 N : Z) : Z := (N - j0) + ((N + 1023) / 1024 - j0 / 1024).

(** The tables added so far are those of the pages from [j0] up to [j]. *)
Definition tables_added (m0 m : mem) (pgdir j0 j : Z) : Prop :=
  (forall p, ptpage m0 pgdir p -> ptpage m pgdir p) /\
  (forall i, 0 <= i < 1024 -> pde_p m pgdir i = true ->
     pde_p m0 pgdir i = true \/ j0 / 1024 <= i < (j + 1023) / 1024).

Definition present (m : mem) (pgdir : Z) (l : list Z) : list Z := filter (fun i => pde_p m pgdir i = true) l.

Lemma elem_of_present m pgdir l i : i ∈ present m pgdir l <-> pde_p m pgdir i = true /\ i ∈ l.
Proof. unfold present. by rewrite list_elem_of_filter. Qed.

(** The directory and its tables, as a list. *)
Lemma tables_NoDup m pgdir free : pt_ok m pgdir free ->
  NoDup (pgdir :: (tab m pgdir <$> present m pgdir (seqZ 0 1024))).
Proof.
  intros Hok. apply NoDup_cons. split.
  - intros (i & E & [Hp Hi%elem_of_seqZ]%elem_of_present)%list_elem_of_fmap.
    by destruct (pt_tab _ _ _ Hok i ltac:(lia) Hp) as (_ & Hne & _).
  - apply NoDup_fmap_2_strong; [|by apply NoDup_filter, NoDup_seqZ].
    intros i j [Hpi Hi%elem_of_seqZ]%elem_of_present [Hpj Hj%elem_of_seqZ]%elem_of_present.
    apply (pt_inj _ _ _ Hok); done || lia.
Qed.

Lemma tables_elem m pgdir p :
  p ∈ pgdir :: (tab m pgdir <$> present m pgdir (seqZ 0 1024)) <-> ptpage m pgdir p.
Proof.
  unfold ptpage. rewrite elem_of_cons, list_elem_of_fmap. split; (intros [->|(i & H)]; [by left|right; exists i]).
  - destruct H as [-> [Hp Hi%elem_of_seqZ]%elem_of_present]. split_and!; done || lia.
  - destruct H as (Hi & Hp & ->). split; [done|]. apply elem_of_present. split; [done|]. apply elem_of_seqZ. lia.
Qed.

(** A free list that is used up in the round of page [j] was not long enough. *)
Lemma grow_short m0 m pgdir free0 (extra : list Z) j0 j N :
  pt_ok m0 pgdir free0 -> NoDup free0 -> tables_added m0 m pgdir j0 N -> 0 <= j0 <= j -> j < N -> N <= UPAGES ->
  (forall p, p ∈ free0 -> p ∈ extra \/ ptpage m pgdir p \/ exists k, prange j0 j k = true /\ p = upg m pgdir k) ->
  extra = [] \/ (length extra = 1%nat /\ pde_p m pgdir (j / 1024) = false) ->
  Z.of_nat (length free0) < grow_need j0 N.
Proof.
  intros Hok Hnd [Hkeep Hnew] Hj HjN HN Hf Hextra.
  set (dl := seqZ (j0 / 1024) ((N + 1023) / 1024 - j0 / 1024)).
  set (l := free0 ++ pgdir :: (tab m0 pgdir <$> present m0 pgdir (seqZ 0 1024))).
  set (r := extra ++ (pgdir :: (tab m pgdir <$> present m pgdir (present m0 pgdir (seqZ 0 1024) ++ dl))) ++ (upg m pgdir <$> seqZ j0 (j - j0))).
  assert (Hpt : forall p, ptpage m pgdir p -> p ∈ pgdir :: (tab m pgdir <$> present m pgdir (present m0 pgdir (seqZ 0 1024) ++ dl))).
  { intros p [->|(i & Hi & Hp & ->)]; [by left|right]. apply list_elem_of_fmap. exists i. split; [done|].
    apply elem_of_present. split; [done|]. rewrite elem_of_app. unfold dl. rewrite elem_of_seqZ, elem_of_present, elem_of_seqZ.
    destruct (Hnew i Hi Hp); [left|right]; split_and?; done || lia. }
  assert (Hs : l ⊆+ r).
  { apply NoDup_submseteq.
    - apply NoDup_app. split_and!; [done| |by eapply tables_NoDup].
      intros p Hp Hx%tables_elem. by destruct (ptpage_ok _ _ _ _ Hok Hx).
    - intros p. unfold l, r. rewrite !elem_of_app. intros [Hp|Hp%tables_elem]; [|by right; left; apply Hpt, Hkeep].
      destruct (Hf p Hp) as [?|[?|(k & Hk & ->)]]; [by left|by right; left; apply Hpt|right; right].
      apply list_elem_of_fmap. exists k. split; [done|]. apply elem_of_seqZ. revert Hk. unfold prange. range_cases; done || lia. }
  apply submseteq_length in Hs. unfold l, r in Hs. unfold present at 2 in Hs. rewrite filter_app in Hs.
  rewrite !length_app in Hs. cbn [length] in Hs. rewrite !length_fmap, length_app, length_seqZ in Hs.
  pose proof (length_filter (fun i => pde_p m pgdir i = true) (present m0 pgdir (seqZ 0 1024))) as L1.
  pose proof (length_filter (fun i => pde_p m pgdir i = true) dl) as L2.
  assert (Hdl : length dl = Z.to_nat ((N + 1023) / 1024 - j0 / 1024)) by apply length_seqZ.
  unfold grow_need. destruct Hextra as [->|[Hx Hno]]; [cbn [length] in Hs; dlia|].
  assert (length (filter (fun i => pde_p m pgdir i = true) dl) < length dl)%nat; [|dlia].
  apply (length_filter_lt _ _ (j / 1024)); [|by rewrite Hno]. apply elem_of_seqZ. dlia.
Qed.

Lemma tables_added_mono m0 m pgdir j0 j j' : j <= j' -> tables_added m0 m pgdir j0 j -> tables_added m0 m pgdir j0 j'.
Proof.
  intros Hj [H1 H2]. split; [done|]. intros i Hi Hp. destruct (H2 i Hi Hp); [by left|right].
  pose proof (Z.div_le_mono (j + 1023) (j' + 1023) 1024). lia.
Qed.

Lemma tables_added_step m0 m m2 m3 pgdir (t : list Z) j0 j :
  tables_added m0 m pgdir j0 j -> 0 <= j0 <= j ->
  (forall q, ptpage m2 pgdir q <-> ptpage m pgdir q) -> (forall i, 0 <= i < 1024 -> pde m2 pgdir i = pde m pgdir i) ->
  (forall q, ptpage m3 pgdir q <-> ptpage m2 pgdir q \/ q ∈ t) ->
  (forall i, 0 <= i < 1024 -> pde_p m3 pgdir i = true -> pde_p m2 pgdir i = true \/ i = j / 1024) ->
  tables_added m0 m3 pgdir j0 (j + 1).
Proof.
  intros [H1 H2] Hj Hpt2 Hd2 Hpt3 Hd3. split.
  - intros p Hp. apply Hpt3. left. by apply Hpt2, H1.
  - intros i Hi Hp. assert (j0 / 1024 <= j / 1024) by (apply Z.div_le_mono; lia).
    destruct (Hd3 i Hi Hp) as [Hp2| ->]; [|right; dlia].
    unfold pde_p in Hp2. rewrite Hd2 in Hp2 by done. destruct (H2 i Hi Hp2); [by left|right; dlia].
Qed.

(** The two ways in which the round of page [j] finds no memory. *)
Lemma short_page s0 s pgdir free0 P0 j0 j N :
  us_ok s0 pgdir free0 P0 -> grows s0 s pgdir free0 [] P0 j0 j -> tables_added (kbytes s0) (kbytes s) pgdir j0 j ->
  0 <= j0 <= j -> j < N -> N <= UPAGES -> Z.of_nat (length free0) < grow_need j0 N.
Proof.
  intros Hus0 Hg Ht Hj HjN HN. apply (grow_short (kbytes s0) (kbytes s) pgdir free0 [] j0 j N); try done.
  - apply Hus0.
  - apply Hus0.
  - eapply tables_added_mono; [|exact Ht]. lia.
  - intros p Hp. destruct (g_free _ _ _ _ _ _ _ _ Hg p Hp) as [Hx|[?|(k & _ & Hk & ->)]];
      [by apply elem_of_nil in Hx|by right; left|right; right; by exists k].
  - by left.
Qed.

Lemma short_table s0 s s2 s3 pgdir free0 p free P0 j0 j N :
  us_ok s0 pgdir free0 P0 -> grows s0 s pgdir free0 (p :: free) P0 j0 j ->
  tables_added (kbytes s0) (kbytes s3) pgdir j0 (j + 1) -> 0 <= j0 <= j -> j < N -> N <= UPAGES ->
  (forall k, upte (kbytes s2) pgdir k = upte (kbytes s) pgdir k) ->
  (forall q, ptpage (kbytes s2) pgdir q <-> ptpage (kbytes s) pgdir q) ->
  (forall q, ptpage (kbytes s3) pgdir q <-> ptpage (kbytes s2) pgdir q \/ q ∈ free) ->
  (forall k, 0 <= k < UPAGES -> upte (kbytes s3) pgdir k = upte (kbytes s2) pgdir k) ->
  pde_p (kbytes s3) pgdir (j / 1024) = false ->
  Z.of_nat (length free0) < grow_need j0 N.
Proof.
  intros Hus0 Hg Ht Hj HjN HN Hu2 Hpt2 Hpt3 Hu3 Hno.
  apply (grow_short (kbytes s0) (kbytes s3) pgdir free0 [p] j0 j N); try done.
  - apply Hus0.
  - apply Hus0.
  - eapply tables_added_mono; [|exact Ht]. lia.
  - intros q Hq. destruct (g_free _ _ _ _ _ _ _ _ Hg q Hq) as [Hx|[Hx|(k & Hk & Hr & ->)]].
    + apply elem_of_cons in Hx as [->|Hx]; [left; by constructor|right; left; apply Hpt3; by right].
    + right; left. apply Hpt3. left. by apply Hpt2.
    + right; right. exists k. split; [done|]. unfold upg. by rewrite Hu3, Hu2.
  - by right.
Qed.

Lemma allocuvm_loop_ok s0 pgdir free0 P0 oldsz newsz :
  us_ok s0 pgdir free0 P0 -> 0 <= oldsz -> newsz < KERNBASE ->
  (forall k, 0 <= k < UPAGES -> prange (pages oldsz) (pages newsz) k = true -> P0 k = false) ->
  forall fuel j s free,
  grows s0 s pgdir free0 free P0 (pages oldsz) j -> tables_added (kbytes s0) (kbytes s) pgdir (pages oldsz) j ->
  pages oldsz <= j <= Z.max (pages oldsz) (pages newsz) -> pages newsz - j <= Z.of_nat fuel ->
  exists r s' free', allocuvm_loop kend fuel pgdir (j * PGSIZE) oldsz newsz s = Ret r s' /\
    ((r = newsz /\ grows s0 s' pgdir free0 free' P0 (pages oldsz) (Z.max (pages oldsz) (pages newsz))) \/
     (r = 0 /\ Z.of_nat (length free0) < grow_need (pages oldsz) (pages newsz) /\
      restored s0 s' pgdir free0 free' [] P0 (pages oldsz) (pages newsz))).
Proof.
  intros Hus0 Ho Hn HP0. induction fuel as [|fuel IH]; intros j s free Hg Ht Hj Hf; cbn [allocuvm_loop];
    destruct (Z.ltb_spec (j * PGSIZE) newsz) as [Hlt|Hge].
  2, 4: exists newsz, s, free; split; [done|]; left; split; [done|];
    replace (Z.max _ _) with j by dlia; exact Hg.
  { dlia. }
  assert (Hj1 : 0 <= j < UPAGES) by dlia. assert (Hon : 0 <= oldsz < newsz) by dlia.
  assert (HjN : j <= pages newsz) by dlia.
  pose proof Hg as [G1 _ _ _ _ _ _ _]. destruct free as [|p free].
  - destruct (kalloc_none _ _ _ G1) as (s1 & Hrun & Hb & Hus1). mstep Hrun. cbn [Z.eqb].
    destruct (grows_undo s0 s1 pgdir free0 [] P0 (pages oldsz) j oldsz newsz) as (s' & f' & Hd & Hres); try done; try lia.
    { by eapply grows_kbytes. }
    mstep Hd. exists 0, s', f'. split; [done|]. right. split; [done|]. split; [|done].
    eapply (short_page s0 s); done || dlia.
  - destruct (take_page s pgdir p free _ 0 G1) as (s1 & Hrun & Hb & Hus1 & Htk). cbn zeta in Htk.
    destruct Htk as (Hus2 & Hp & Hpf & Hnp & Hpne & Hu2 & Hpt2 & Hout2 & Hz2).
    mstep Hrun. destruct (Z.eqb_spec p 0) as [->|_]; [destruct Hp as (_ & _ & _ & ?); lia|].
    unfold modify, bind at 1. remember (set_kbytes (memset (kbytes s1) p 0 PGSIZE) s1) as s2 eqn:Es2.
    assert (Ek : memset (kbytes s1) p 0 PGSIZE = kbytes s2) by (by rewrite Es2).
    clear Es2. rewrite Ek in *.
    assert (Hd2 : forall i, 0 <= i < 1024 -> pde (kbytes s2) pgdir i = pde (kbytes s) pgdir i).
    { apply (pt_out _ _ _ _ p (us_pt _ _ _ _ G1) Hp); [by rewrite <- Hpt2|exact Hout2]. }
    destruct (map_page s2 pgdir free _ p j (Z.lor PTE_W PTE_U) Hus2 Hp Hpf Hnp Hpne Hj1) as
      (r & s3 & t & f' & Hm & Hfr & Hpt3 & Hout3 & Hu3 & _ & Hd3 & Hcase).
    { cbn. rewrite HP0; [|lia|unfold prange; range_cases; dlia || done]. unfold prange. range_cases; done. }
    { split; reflexivity || discriminate. }
    pose proof (tables_added_step _ _ _ _ _ _ _ _ Ht ltac:(dlia) Hpt2 Hd2 Hpt3 Hd3) as Ht3.
    mstep Hm. destruct Hcase as [(-> & Hus3 & Huj & Hgj)|(-> & -> & Hus3 & Huj & Hno)].
    + change (0 <? 0) with false. cbn [Z.ltb].
      replace (u32 (j * PGSIZE + PGSIZE)) with ((j + 1) * PGSIZE) by (rewrite u32_small; lia).
      apply (IH (j + 1) s3 f'); [|done|dlia|lia].
      eapply (grows_step s0 s s2 s3); try done; [split; [dlia|lia]|lia].
    + change (-1 <? 0) with true. cbn [Z.ltb].
      destruct (grows_undo_map s0 s s2 s3 pgdir free0 p free t P0 (pages oldsz) j oldsz newsz)
        as (s' & s'' & f'' & Hd & Hk & Hres); try done; try lia.
      { intros k Hk. destruct (decide (k = j)) as [->|Hkj]; [done|by apply Hu3]. }
      mstep Hd. mstep Hk. exists 0, s'', f''. split; [done|]. right. split; [done|]. split; [|done].
      rewrite app_nil_r in Hfr. subst t. eapply (short_table s0 s s2 s3); try done; try dlia.
      intros k Hk'. destruct (decide (k = j)) as [->|Hkj]; [done|by apply Hu3].
Qed.

Lemma allocuvm_run pgdir oldsz newsz s free P :
  us_ok s pgdir free P -> 0 <= oldsz <= newsz -> newsz < KERNBASE ->
  (forall k, 0 <= k < UPAGES -> prange (pages oldsz) (pages newsz) k = true -> P k = false) ->
  exists r s' free', allocuvm kend pgdir oldsz newsz s = Ret r s' /\
    ((r = newsz /\ grows s s' pgdir free free' P (pages oldsz) (pages newsz)) \/
     (r = 0 /\ Z.of_nat (length free) < grow_need (pages oldsz) (pages newsz) /\
      restored s s' pgdir free free' [] P (pages oldsz) (pages newsz))).
Proof.
  intros Hus Ho Hn HP. unfold allocuvm.
  destruct (Z.leb_spec KERNBASE newsz); [lia|]. destruct (Z.ltb_spec newsz oldsz); [lia|].
  rewrite PGROUNDUP_pages by lia.
  destruct (allocuvm_loop_ok s pgdir free P oldsz newsz Hus ltac:(lia) Hn HP
    (S (Z.to_nat (newsz / PGSIZE))) (pages oldsz) s free) as (r & s' & f' & Hrun & Hcase).
  - by apply grows_refl.
  - split; [done|]. intros. by left.
  - lia.
  - dlia.
  - exists r, s', f'. replace (Z.max (pages oldsz) (pages newsz)) with (pages newsz) in Hcase by dlia. done.
Qed.

(** C9. [allocuvm] from a size whose pages are mapped and above which
    (up to the new size) nothing is: either it returns the new size, and the
    address space has gained exactly the pages in between, each a page of its
    own taken from the free list, cleared, writable and accessible to the user;
    or it returns 0, which happens only when fewer than [grow_need] pages were
    free, and the address space is as before: the same pages mapped, with the
    same contents, and every page it had taken is free again or has become a
    page table. No other outcome is possible. *)
Theorem allocuvm_grows pgdir oldsz newsz s free P :
  us_ok s pgdir free P -> 0 <= oldsz <= newsz -> newsz < KERNBASE ->
  (forall k, 0 <= k < UPAGES -> prange (pages oldsz) (pages newsz) k = true -> P k = false) ->
  exists r s' free', allocuvm kend pgdir oldsz newsz s = Ret r s' /\
    ((r = newsz /\ grows s s' pgdir free free' P (pages oldsz) (pages newsz)) \/
     (r = 0 /\ Z.of_nat (length free) < grow_need (pages oldsz) (pages newsz) /\
      restored s s' pgdir free free' [] P (pages oldsz) (pages newsz))).
Proof. apply allocuvm_run. Qed.

(** ** Copying to user memory *)

(** The byte at user address [va]. *)
Definition ubyte (m : mem) (pgdir va : Z) : Z := rd8 m (upg m pgdir (va / PGSIZE) + va mod PGSIZE).

(** Page [k] is mapped and accessible to the user. *)
Definition uacc (m : mem) (pgdir k : Z) : bool :=
  has (upte m pgdir k) PTE_P && has (upte m pgdir k) PTE_U.

(** [uva2ka] where the table exists. *)
Lemma uva2ka_run pgdir k s free P :
  us_ok s pgdir free P -> 0 <= k < UPAGES -> slot (kbytes s) pgdir (k * PGSIZE) <> 0 ->
  uva2ka pgdir (k * PGSIZE) s = Ret (if uacc (kbytes s) pgdir k then upg (kbytes s) pgdir k else 0) s.
Proof.
  intros Hus Hk Hs. unfold uva2ka. mstep (walk_noalloc pgdir (k * PGSIZE) s).
  destruct (Z.eqb_spec (slot (kbytes s) pgdir (k * PGSIZE)) 0) as [|_]; [done|].
  assert (Hpp : pde_p (kbytes s) pgdir (PDX (k * PGSIZE)) = true).
  { apply not_false_iff_true. by rewrite <- (slot_zero _ _ _ _ (us_pt _ _ _ _ Hus)). }
  unfold load, bind at 1, gets.
  replace (rd32 (kbytes s) (slot (kbytes s) pgdir (k * PGSIZE))) with (upte (kbytes s) pgdir k)
    by (unfold upte, pte_at, slot; by rewrite Hpp).
  unfold uacc, upg. destruct (has _ PTE_P); [|done]. by destruct (has _ PTE_U).
Qed.

(** Writing into one mapped user page: the address space stays as it is. *)
Lemma us_ok_upage s m' pgdir free P k :
  us_ok s pgdir free P -> 0 <= k < UPAGES -> P k = true ->
  (forall a, ~ inpg (upg (kbytes s) pgdir k) a -> rd8 m' a = rd8 (kbytes s) a) ->
  us_ok (set_kbytes m' s) pgdir free P /\
  (forall va, pte_at m' pgdir va = pte_at (kbytes s) pgdir va).
Proof.
  intros Hus Hk HP Hout. destruct (us_page _ _ _ _ Hus k Hk HP) as (Hv & Hvf & Hvp).
  destruct (us_ok_write s m' pgdir free P _ Hus Hv Hvf Hvp Hout) as (? & ? & _). done.
Qed.

(** One [memmove] of [copyout], within the user page [k]. *)
Lemma ubyte_memmove s pgdir free P k va buf n :
  us_ok s pgdir free P -> 0 <= k < UPAGES -> P k = true ->
  0 <= n -> k * PGSIZE <= va -> va + n <= (k + 1) * PGSIZE ->
  let v := upg (kbytes s) pgdir k in
  let m1 := memmove (kbytes s) (v + (va - k * PGSIZE)) buf n in
  us_ok (set_kbytes m1 s) pgdir free P /\
  (forall x, pte_at m1 pgdir x = pte_at (kbytes s) pgdir x) /\
  (forall a, ~ inpg v a -> rd8 m1 a = rd8 (kbytes s) a) /\
  (forall x, 0 <= x < KERNBASE -> P (x / PGSIZE) = true ->
     ubyte m1 pgdir x = if (va <=? x) && (x <? va + n) then rd8 (kbytes s) (buf + (x - va)) else ubyte (kbytes s) pgdir x).
Proof.
  intros Hus Hk HPk Hn Hlo Hhi v m1.
  assert (Hm1 : forall a, rd8 m1 a = if (v + (va - k * PGSIZE) <=? a) && (a <? v + (va - k * PGSIZE) + n)
             then rd8 (kbytes s) (buf + (a - (v + (va - k * PGSIZE)))) else rd8 (kbytes s) a).
  { intros a. unfold m1. apply memmove_bytes. lia. }
  assert (Hout1 : forall a, ~ inpg v a -> rd8 m1 a = rd8 (kbytes s) a).
  { unfold inpg. intros a Ha. rewrite Hm1. range_cases; done. }
  destruct (us_ok_upage s m1 pgdir free P k Hus Hk HPk Hout1) as [Hus1 Hpte1].
  split_and!; try done. intros x Hx HPx.
  assert (Hxk : 0 <= x / PGSIZE < UPAGES) by dlia.
  assert (Hg : upg m1 pgdir (x / PGSIZE) = upg (kbytes s) pgdir (x / PGSIZE)) by (unfold upg, upte; by rewrite Hpte1).
  unfold ubyte. rewrite Hg. destruct (decide (x / PGSIZE = k)) as [E|E].
  - rewrite E. fold v. rewrite Hm1.
    assert (x = k * PGSIZE + x mod PGSIZE) as Hxm by dlia.
    range_cases; try done. f_equal. lia.
  - destruct (us_page _ _ _ _ Hus k Hk HPk) as (Hv & _). destruct (us_page _ _ _ _ Hus _ Hxk HPx) as (Hvx & _).
    assert (upg (kbytes s) pgdir (x / PGSIZE) <> v) as Hne by (intros Ex; apply E; by apply (us_inj _ _ _ _ Hus)).
    rewrite Hout1; [range_cases; try done; dlia|].
    apply (page_disjoint (upg (kbytes s) pgdir (x / PGSIZE))); try done. unfold inpg. dlia.
Qed.

Lemma copyout_loop_ok fuel : forall pgdir va buf len s free P,
  us_ok s pgdir free P -> 0 <= va -> 0 <= len -> va + len <= KERNBASE ->
  (forall x, va <= x < va + len -> uacc (kbytes s) pgdir (x / PGSIZE) = true) ->
  (forall k a, 0 <= k < UPAGES -> P k = true -> buf <= a < buf + len -> ~ inpg (upg (kbytes s) pgdir k) a) ->
  (va + len + PGSIZE - 1) / PGSIZE - va / PGSIZE <= Z.of_nat fuel ->
  exists s', copyout_loop fuel pgdir va buf len s = Ret 0 s' /\ us_ok s' pgdir free P /\
    (forall x, pte_at (kbytes s') pgdir x = pte_at (kbytes s) pgdir x) /\
    (forall x, 0 <= x < KERNBASE -> P (x / PGSIZE) = true ->
       ubyte (kbytes s') pgdir x =
       if (va <=? x) && (x <? va + len) then rd8 (kbytes s) (buf + (x - va)) else ubyte (kbytes s) pgdir x) /\
    (forall a, (forall k, 0 <= k < UPAGES -> P k = true -> ~ inpg (upg (kbytes s) pgdir k) a) ->
       rd8 (kbytes s') a = rd8 (kbytes s) a).
Proof.
  induction fuel as [|fuel IH]; intros pgdir va buf len s free P Hus Hva Hlen Hend Hacc Hbuf Hf;
    cbn [copyout_loop]; (destruct (Z.ltb_spec 0 len) as [Hl|Hl]; [|exists s; split_and!; try done;
      intros x Hx HPx; range_cases; done]).
  { dlia. }
  destruct (PGROUNDDOWN_spec va ltac:(lia)) as [Hm Hr].
  assert (Hk0 : PGROUNDDOWN va = va / PGSIZE * PGSIZE) by dlia. rewrite Hk0 in *.
  remember (va / PGSIZE) as k eqn:Ek.
  assert (Hk : 0 <= k < UPAGES) by dlia.
  assert (Hak : uacc (kbytes s) pgdir k = true) by (rewrite Ek; apply Hacc; lia).
  assert (HPk : P k = true).
  { rewrite <- (us_map _ _ _ _ Hus k Hk). unfold uacc in Hak. by apply andb_true_iff in Hak as [? _]. }
  assert (Hslot : slot (kbytes s) pgdir (k * PGSIZE) <> 0).
  { rewrite (slot_zero _ _ _ _ (us_pt _ _ _ _ Hus)). intros E.
    unfold uacc, upte, pte_at in Hak. by rewrite E in Hak. }
  mstep (uva2ka_run pgdir k s free P Hus Hk Hslot). rewrite Hak.
  destruct (us_page _ _ _ _ Hus k Hk HPk) as (Hv & _). pose proof (page_range _ Hv) as [Hvr _].
  destruct (Z.eqb_spec (upg (kbytes s) pgdir k) 0); [lia|].
  unfold modify, bind at 1. remember (Z.min (PGSIZE - (va - k * PGSIZE)) len) as c eqn:Ec.
  destruct (ubyte_memmove s pgdir free P k va buf c Hus Hk HPk) as (Hus1 & Hpte1 & Hout1 & Hb1); try lia.
  remember (set_kbytes _ s) as s1 eqn:Es1.
  replace (memmove _ _ _ _) with (kbytes s1) in Hpte1, Hout1, Hb1 by (by rewrite Es1). clear Es1.
  assert (Hu1 : forall j, upte (kbytes s1) pgdir j = upte (kbytes s) pgdir j) by (intros j; apply Hpte1).
  assert (Hg1 : forall j, upg (kbytes s1) pgdir j = upg (kbytes s) pgdir j) by (intros j; unfold upg; by rewrite Hu1).
  replace (u32 (k * PGSIZE + PGSIZE)) with ((k + 1) * PGSIZE) by (rewrite u32_small; lia).
  (* the rest of the source is not in a user page, so the first chunk did not change it *)
  assert (Hsrc : forall a, buf <= a < buf + len -> rd8 (kbytes s1) a = rd8 (kbytes s) a).
  { intros a Ha. apply Hout1. by apply Hbuf. }
  destruct (Z.eq_dec c len) as [Hlast|Hmore].
  - exists s1. split; [destruct fuel; cbn [copyout_loop]; rewrite Hlast, Z.sub_diag; done|].
    split_and!; [done|done| |].
    + intros x Hx HPx. rewrite (Hb1 x Hx HPx), Hlast. done.
    + intros a Ha. apply Hout1. by apply Ha.
  - assert (Hnv : va + c = (k + 1) * PGSIZE) by lia.
    destruct (IH pgdir ((k + 1) * PGSIZE) (buf + c) (len - c) s1 free P Hus1)
      as (s' & Hrun & Hus' & Hp' & Hb' & Ho'); try lia.
    + intros x Hx. unfold uacc. rewrite !Hu1. apply Hacc. lia.
    + intros j a Hj HPj Ha. rewrite Hg1. apply Hbuf; try done. lia.
    + dlia.
    + exists s'. split_and!; [exact Hrun|done| | |].
      * intros x. by rewrite Hp', Hpte1.
      * intros x Hx HPx. rewrite (Hb' x Hx HPx), (Hb1 x Hx HPx).
        range_cases; try done. rewrite Hsrc by lia. f_equal. lia.
      * intros a Ha. rewrite Ho'; [apply Hout1; by apply Ha|]. intros j Hj HPj. rewrite Hg1. by apply Ha.
Qed.

(** [copyout] to user pages that are mapped and accessible, from a
    kernel buffer outside user memory, returns 0 (the loop ends) and changes
    user memory exactly at [va .. va+len-1], to the bytes of the buffer; no
    page table entry and no byte outside the user pages changes. *)
Theorem copyout_writes pgdir va buf len s free P :
  us_ok s pgdir free P -> 0 <= va -> 0 <= len -> va + len <= KERNBASE ->
  (forall x, va <= x < va + len -> uacc (kbytes s) pgdir (x / PGSIZE) = true) ->
  (forall k a, 0 <= k < UPAGES -> P k = true -> buf <= a < buf + len -> ~ inpg (upg (kbytes s) pgdir k) a) ->
  exists s', copyout pgdir va buf len s = Ret 0 s' /\
    (forall x, pte_at (kbytes s') pgdir x = pte_at (kbytes s) pgdir x) /\
    (forall x, 0 <= x < KERNBASE -> P (x / PGSIZE) = true ->
       ubyte (kbytes s') pgdir x =
       if (va <=? x) && (x <? va + len) then rd8 (kbytes s) (buf + (x - va)) else ubyte (kbytes s) pgdir x) /\
    (forall a, (forall k, 0 <= k < UPAGES -> P k = true -> ~ inpg (upg (kbytes s) pgdir k) a) ->
       rd8 (kbytes s') a = rd8 (kbytes s) a).
Proof.
  intros Hus Hva Hlen Hend Hacc Hbuf. unfold copyout.
  destruct (copyout_loop_ok (S (S (Z.to_nat (len / PGSIZE)))) pgdir va buf len s free P) as (s' & H1 & _ & H2 & H3 & H4); try done.
  - dlia.
  - by exists s'.
Qed.

End Tables.

(** ** A concrete address space *)

(** A cleared directory at [page0] and three free pages. *)
Definition vpage (i : Z) : Z := page0 + PGSIZE * i.
Definition vm0 : kmem := kfree_state (vpage 3) (kfree_state (vpage 2) (kfree_state (vpage 1) kmem0)).
Definition vfree0 : list Z := [vpage 3; vpage 2; vpage 1].

Lemma vpage_ok i : 0 <= i <= 3 -> page_ok kend0 (vpage i).
Proof.
  intros Hi. unfold vpage, page0, page_ok, V2P, kend0. rewrite u32_small by lia. split_and!; try lia. dlia.
Qed.

Lemma kend0_high : KERNLINK <= kend0.
Proof. unfold kend0. lia. Qed.

Lemma vm0_rep : fl_rep kend0 vm0 vfree0.
Proof.
  unfold vm0, vfree0. apply kfree_state_rep; [apply kfree_state_rep; [apply kfree_state_rep; [apply kmem0_rep|..]|..]|..];
    try (apply vpage_ok; lia); unfold vpage, page0; rewrite ?not_elem_of_cons; split_and?; try lia; apply not_elem_of_nil.
Qed.

(** The directory page still reads 0. *)
Lemma vm0_dir i : 0 <= i < 1024 -> pde (kbytes vm0) (vpage 0) i = 0.
Proof.
  intros Hi. unfold pde. transitivity (rd32 (kbytes kmem0) (vpage 0 + 4 * i)); [|reflexivity].
  apply rd32_ext. intros b Hb. unfold vm0. rewrite !kfree_out; [done|..]; unfold inpg, vpage in *; lia.
Qed.

Lemma vm0_ok : us_ok kend0 vm0 (vpage 0) vfree0 (fun _ => false).
Proof.
  assert (Hp : forall i, 0 <= i < 1024 -> pde_p (kbytes vm0) (vpage 0) i = false).
  { intros i Hi. unfold pde_p. by rewrite vm0_dir. }
  split; [apply vm0_rep| | |intros k Hk HP; discriminate HP|intros j k Hj Hk HP; discriminate HP].
  - split.
    + apply vpage_ok. lia.
    + unfold vfree0, vpage, page0. rewrite !not_elem_of_cons. split_and!; try lia. apply not_elem_of_nil.
    + intros i Hi. rewrite (Hp i Hi). intros HP; discriminate HP.
    + intros i j Hi Hj. rewrite (Hp i Hi). intros HP; discriminate HP.
  - intros k Hk. unfold upte, pte_at. rewrite Hp by apply PDX_range. reflexivity.
Qed.

Lemma mappages_maps_witness :
  exists r k s' t f, mappages (vpage 0) 100 5000 (V2P (vpage 2)) 6 vm0 = Ret r s' /\
    pt_extends kend0 vm0 s' (vpage 0) vfree0 t f /\ mapped (kbytes vm0) (kbytes s') (vpage 0) 0 (V2P (vpage 2)) 6 k.
Proof.
  destruct (proj1 (mappages_maps kend0 kend0_high (vpage 0) 100 5000 (V2P (vpage 2)) 6 vm0 vfree0 vm0_rep
    (us_pt _ _ _ _ _ vm0_ok) ltac:(lia) ltac:(lia) ltac:(lia) ltac:(reflexivity) ltac:(vm_compute; discriminate)
    ltac:(vm_compute; discriminate) ltac:(lia))) as (r & k & s' & t & f & H1 & H2 & H3 & _).
  - intros x Hx. assert (Hx' : 0 <= x < 8192) by exact Hx. clear Hx.
    rewrite upte_div by lia. apply (us_map _ _ _ _ _ vm0_ok). dlia.
  - exists r, k, s', t, f. split; [exact H1|]. split; [exact H2|exact H3].
Defined.

(** Three free pages are just enough for two pages and their table. *)
Lemma allocuvm_grows_witness :
  exists s' f, allocuvm kend0 (vpage 0) 0 5000 vm0 = Ret 5000 s' /\ grows kend0 vm0 s' (vpage 0) vfree0 f (fun _ => false) 0 2.
Proof.
  destruct (allocuvm_grows kend0 kend0_high (vpage 0) 0 5000 vm0 vfree0 (fun _ => false) vm0_ok)
    as (r & s' & f & E & Hc); [lia|lia|intros k _ _; reflexivity|].
  destruct Hc as [[-> Hg]|(_ & Hl & _)]; [exists s', f; split; [exact E|exact Hg]|].
  exfalso. vm_compute in Hl. discriminate Hl.
Defined.

(** Two user pages mapped by [allocuvm]. *)
Definition vm1 : kmem :=
  match allocuvm kend0 (vpage 0) 0 5000 vm0 with Ret _ s => s | _ => vm0 end.

Lemma vm1_grows :
  exists f, grows kend0 vm0 vm1 (vpage 0) vfree0 f (fun _ => false) 0 2.
Proof.
  destruct (allocuvm_run kend0 kend0_high (vpage 0) 0 5000 vm0 vfree0 (fun _ => false) vm0_ok)
    as (r & s' & f & Ha & Hc); [lia|lia|intros k _ _; reflexivity|].
  exists f. unfold vm1. rewrite Ha. destruct Hc as [[_ Hg]|[E _]]; [exact Hg|].
  assert (E5 : match allocuvm kend0 (vpage 0) 0 5000 vm0 with Ret x _ => x | _ => -1 end = 5000) by
    (vm_compute; reflexivity).
  rewrite Ha in E5. lia.
Qed.

Lemma copyout_writes_witness :
  exists s', copyout (vpage 0) 4000 kend0 200 vm1 = Ret 0 s' /\
    ubyte (kbytes s') (vpage 0) 4100 = rd8 (kbytes vm1) (kend0 + 100).
Proof.
  destruct vm1_grows as [f Hg]. pose proof (g_us _ _ _ _ _ _ _ _ _ Hg) as Hus.
  destruct (copyout_writes kend0 kend0_high (vpage 0) 4000 kend0 200 vm1 f _ Hus) as (s' & Hr & _ & Hb & _).
  - lia.
  - lia.
  - lia.
  - intros x Hx. assert (E : x / PGSIZE = 0 \/ x / PGSIZE = 1) by dlia.
    destruct E as [-> | ->]; vm_compute; reflexivity.
  - intros k a Hk HP Ha. unfold prange in HP.
    assert (E : k = 0 \/ k = 1) by (revert HP; range_cases; intros; done || lia).
    assert (Hp : page0 <= upg (kbytes vm1) (vpage 0) k) by (destruct E as [-> | ->]; vm_compute; discriminate).
    unfold inpg, kend0, page0 in *. lia.
  - exists s'. split; [exact Hr|]. rewrite Hb; [reflexivity|lia|reflexivity].
Defined.

Lemma deallocuvm_frees_witness :
  exists s' freed f, deallocuvm kend0 (vpage 0) 5000 100 vm1 = Ret 100 s' /\
    us_ok kend0 s' (vpage 0) (freed ++ f) (fun k => (false || prange 0 2 k) && negb (prange 1 2 k)).
Proof.
  destruct vm1_grows as [f Hg]. pose proof (g_us _ _ _ _ _ _ _ _ _ Hg) as Hus.
  destruct (deallocuvm_frees kend0 kend0_high (vpage 0) 5000 100 vm1 f _ Hus) as (s' & fr & Hr & Hu & _); [lia|lia|].
  exists s', fr, f. split; [exact Hr|exact Hu].
Defined.
