(* ===== verification/VmKern.v ===== *)
(** Whole address spaces: [setupkvm], [freevm] and [copyuvm] of vm.c.

    Theorems: [freevm] gives the pages of an address space back to the
    allocator, each once ([freevm_frees]); [setupkvm] makes the kernel's map
    and nothing else, or leaves the free pages as they were, and the latter only
    when fewer than 65 were free ([setupkvm_maps]); [copyuvm] makes a space of
    new pages with the parent's contents and flags, or leaves the free pages as
    they were, and never touches the parent ([copyuvm_copies]). *)

From Stdlib Require Import ZArith Lia.
From stdpp Require Import base strings gmap numbers list.
From S2P Require Import Prelude KString Kalloc Vm VmSpec.

Open Scope Z_scope.

Abbreviation pages sz := ((sz + PGSIZE - 1) / PGSIZE).
Abbreviation UPAGES := 524288 (only parsing).

(** Only bytes of the pages in [fs] differ. *)
Definition only (fs : Z -> Prop) (m m' : mem) : Prop :=
  forall a, (forall p, fs p -> ~ inpg p a) -> rd8 m' a = rd8 m a.

Lemma only_refl fs m : only fs m m.
Proof. by intros a _. Qed.

Lemma only_trans (fs : Z -> Prop) m1 m2 m3 : only fs m1 m2 -> only fs m2 m3 -> only fs m1 m3.
Proof. intros H1 H2 a Ha. by rewrite H2, H1. Qed.

Lemma only_mono (fs gs : Z -> Prop) m m' : (forall p, fs p -> gs p) -> only fs m m' -> only gs m m'.
Proof. intros Hs H a Ha. apply H. intros p Hp. by apply Ha, Hs. Qed.

(** The pages an address space is made of. *)
Definition owned (m : mem) (pgdir : Z) (P : Z -> bool) (p : Z) : Prop :=
  ptpage m pgdir p \/ exists k, 0 <= k < UPAGES /\ P k = true /\ p = upg m pgdir k.

Section Kern.

Variables kend kdata : Z.
Hypothesis kend_high : KERNLINK <= kend.

Lemma owned_ok s pgdir free P p :
  us_ok kend s pgdir free P -> owned (kbytes s) pgdir P p -> page_ok kend p /\ p ∉ free.
Proof.
  intros Hus [Hp|(k & Hk & HP & ->)].
  - by eapply ptpage_ok; [apply Hus|].
  - by destruct (us_page _ _ _ _ _ Hus k Hk HP) as (? & ? & _).
Qed.

(** ** [freevm] *)

Lemma kfree_state_out p s : only (eq p) (kbytes s) (kbytes (kfree_state p s)).
Proof. intros a Ha. apply kfree_out. by apply Ha. Qed.

(** Writing to another page leaves the directory's entries. *)
Lemma pde_only m m' pgdir v i :
  page_ok kend pgdir -> page_ok kend v -> v <> pgdir -> only (eq v) m m' -> 0 <= i < 1024 ->
  pde m' pgdir i = pde m pgdir i.
Proof.
  intros Hd Hv Hne Ho Hi. pose proof (page_apart kend _ _ Hv Hd Hne).
  apply rd32_ext. intros b Hb. apply Ho. intros p <-. unfold inpg. lia.
Qed.

Lemma freevm_loop_ok pgdir n : forall i s f,
  Z.of_nat n + i = 1024 -> 0 <= i -> fl_rep kend s f -> page_ok kend pgdir -> pgdir ∉ f ->
  (forall j, i <= j < 1024 -> pde_p (kbytes s) pgdir j = true ->
     page_ok kend (tab (kbytes s) pgdir j) /\ tab (kbytes s) pgdir j <> pgdir /\ tab (kbytes s) pgdir j ∉ f) ->
  (forall j k, i <= j < 1024 -> i <= k < 1024 -> pde_p (kbytes s) pgdir j = true ->
     pde_p (kbytes s) pgdir k = true -> tab (kbytes s) pgdir j = tab (kbytes s) pgdir k -> j = k) ->
  let T p := exists j, i <= j < 1024 /\ pde_p (kbytes s) pgdir j = true /\ p = tab (kbytes s) pgdir j in
  exists s' f', freevm_loop kend n pgdir i s = Ret tt s' /\ fl_rep kend s' f' /\
    (forall p, p ∈ f' <-> p ∈ f \/ T p) /\ only T (kbytes s) (kbytes s').
Proof.
  induction n as [|n IH]; intros i s f Hn Hi Hr Hd Hdf Ht Hinj T; cbn [freevm_loop].
  { exists s, f. split_and!; [done|done| |apply only_refl].
    intros p. split; [by left|]. intros [?|(j & Hj & _)]; [done|lia]. }
  unfold load, bind at 1, gets. change (rd32 (kbytes s) (pgdir + 4 * i)) with (pde (kbytes s) pgdir i).
  fold (pde_p (kbytes s) pgdir i) (tab (kbytes s) pgdir i).
  destruct (pde_p (kbytes s) pgdir i) eqn:E; cbn [when].
  - destruct (Ht i ltac:(lia) E) as (Hv & Hvd & Hvf). set (v := tab (kbytes s) pgdir i) in *.
    assert (Hlk : kmem_locked s = false) by (by destruct Hr as (_ & _ & _ & ?)).
    mstep (kfree_run kend v s Hv Hlk).
    assert (Hpd : forall j, 0 <= j < 1024 -> pde (kbytes (kfree_state v s)) pgdir j = pde (kbytes s) pgdir j).
    { intros j Hj. apply (pde_only _ _ _ v); try done. apply kfree_state_out. }
    assert (Hpt : forall j, i + 1 <= j < 1024 ->
      pde_p (kbytes (kfree_state v s)) pgdir j = pde_p (kbytes s) pgdir j /\
      tab (kbytes (kfree_state v s)) pgdir j = tab (kbytes s) pgdir j).
    { intros j Hj. unfold pde_p, tab. by rewrite Hpd by lia. }
    destruct (IH (i + 1) (kfree_state v s) (v :: f)) as (s' & f' & Hrun & Hr' & Hf' & Ho'); try lia; try done.
    + by apply kfree_state_rep.
    + rewrite elem_of_cons. intros [Hx|Hx]; [by apply Hvd|done].
    + intros j Hj. destruct (Hpt j Hj) as [-> ->]. intros Hp.
      destruct (Ht j ltac:(lia) Hp) as (? & ? & ?). split_and!; try done.
      rewrite elem_of_cons. intros [Hx|Hx]; [|done].
      assert (j = i) by (apply Hinj; try lia; done). lia.
    + intros j k Hj Hk. destruct (Hpt j Hj) as [-> ->], (Hpt k Hk) as [-> ->]. apply Hinj; lia.
    + exists s', f'. split_and!; [exact Hrun|done| |].
      * intros p. rewrite Hf', elem_of_cons. split.
        -- intros [[->|Hp]|(j & Hj & Hp & ->)]; [right|by left|right]; [by exists i; split; [lia|]|].
           destruct (Hpt j Hj) as [E1 E2]. rewrite E1 in Hp. rewrite E2. exists j. split; [lia|done].
        -- intros [Hp|(j & Hj & Hp & ->)]; [left; by right|].
           destruct (decide (j = i)) as [->|Hne]; [by left; left|right]. exists j.
           destruct (Hpt j ltac:(lia)) as [-> ->]. split; [lia|done].
      * eapply only_trans; [|eapply only_mono; [|exact Ho']].
        -- eapply only_mono; [|apply kfree_state_out]. intros p <-. by exists i; split; [lia|].
        -- intros p (j & Hj & Hp & ->). destruct (Hpt j Hj) as [E1 E2]. rewrite E1 in Hp. rewrite E2.
           exists j. split; [lia|done].
  - unfold ret at 1, bind at 1.
    destruct (IH (i + 1) s f) as (s' & f' & Hrun & Hr' & Hf' & Ho'); try lia; try done.
    + intros j Hj. apply Ht. lia.
    + intros j k Hj Hk. apply Hinj; lia.
    + assert (HT : forall p, T p <-> exists j, i + 1 <= j < 1024 /\ pde_p (kbytes s) pgdir j = true /\ p = tab (kbytes s) pgdir j).
      { intros p. split; intros (j & Hj & Hp & ->); exists j; (split; [|done]); [|lia].
        assert (j <> i) by (intros ->; congruence). lia. }
      exists s', f'. split_and!; [exact Hrun|done| |].
      * intros p. by rewrite Hf', HT.
      * eapply only_mono; [|exact Ho']. intros p. apply HT.
Qed.

Lemma freevm_run pgdir s free P :
  us_ok kend s pgdir free P ->
  exists s' free', freevm kend pgdir s = Ret tt s' /\ fl_rep kend s' free' /\
    (forall p, p ∈ free' <-> p ∈ free \/ owned (kbytes s) pgdir P p) /\
    only (owned (kbytes s) pgdir P) (kbytes s) (kbytes s').
Proof.
  intros Hus. unfold freevm. pose proof (pt_dir _ _ _ _ (us_pt _ _ _ _ _ Hus)) as Hd.
  destruct (Z.eqb_spec pgdir 0) as [->|_]; [destruct Hd as (_ & _ & _ & ?); lia|].
  destruct (deallocuvm_run kend kend_high pgdir KERNBASE 0 s free P Hus) as (s1 & freed & Hrun & [U1 _ U3 U4 U5]); try lia.
  mstep Hrun. destruct U1 as [Hr [_ Hdf Ht Hinj] _ _ _].
  assert (Hfr : forall p, p ∈ freed -> exists k, 0 <= k < UPAGES /\ P k = true /\ p = upg (kbytes s) pgdir k).
  { intros p (k & Hk & _ & HP & Hp)%U4. by exists k. }
  destruct (freevm_loop_ok pgdir 1024 0 s1 (freed ++ free)) as (s2 & f2 & Hrun2 & Hr2 & Hf2 & Ho2); try done.
  cbn zeta in Hf2, Ho2. mstep Hrun2.
  assert (HT : forall p, p = pgdir \/ (exists j, 0 <= j < 1024 /\ pde_p (kbytes s1) pgdir j = true /\
            p = tab (kbytes s1) pgdir j) <-> ptpage (kbytes s) pgdir p) by apply U3.
  assert (Hdf2 : pgdir ∉ f2).
  { rewrite Hf2. intros [?|(j & Hj & Hp & E)]; [done|]. by destruct (Ht j Hj Hp) as (_ & [] & _). }
  exists (kfree_state pgdir s2), (pgdir :: f2). split_and!.
  - apply kfree_run; [done|by destruct Hr2 as (_ & _ & _ & ?)].
  - by apply kfree_state_rep.
  - intros p. unfold owned. rewrite elem_of_cons, Hf2, elem_of_app, <- HT. split.
    + intros [->|[[Hp%Hfr|?]|?]]; auto.
    + intros [?|[[?|?]|(k & Hk & HP & ->)]]; auto. right; left; left. apply U4.
      exists k. split_and!; try done; try lia. unfold prange. range_cases; done || dlia.
  - eapply only_trans; [|eapply only_trans; [|]].
    + intros a Ha. apply U5; [intros p Hp%Hfr; apply Ha; by right|]. intros p Hp. apply Ha. by left.
    + eapply only_mono; [|exact Ho2]. intros p Hp. left. apply HT. by right.
    + eapply only_mono; [|apply kfree_state_out]. intros p <-. by left; left.
Qed.

(** C38. [freevm] of an address space returns, and gives back to the allocator
    exactly the pages the space is made of - its user pages, its page tables
    and its directory - each of them once; no other byte of memory changes. *)
Theorem freevm_frees pgdir s free P :
  us_ok kend s pgdir free P ->
  exists s' free', freevm kend pgdir s = Ret tt s' /\ fl_rep kend s' free' /\ NoDup free' /\
    (forall p, p ∈ free' <-> p ∈ free \/ owned (kbytes s) pgdir P p) /\
    only (owned (kbytes s) pgdir P) (kbytes s) (kbytes s').
Proof.
  intros Hus. destruct (freevm_run pgdir s free P Hus) as (s' & f' & H1 & H2 & H3 & H4).
  exists s', f'. split_and!; try done. apply H2.
Qed.

(** ** [setupkvm] *)

(** The entry a row of the table asks for at [va]. *)
Definition row_pte (r : Z * Z * Z * Z) (va : Z) : option Z :=
  let '(virt, pstart, pend, perm) := r in
  if (virt <=? va) && (va <? virt + u32 (pend - pstart))
  then Some (Z.lor (Z.lor (pstart + PGSIZE * ((va - virt) / PGSIZE)) perm) PTE_P) else None.

(** The entries after the rows [ks] have been mapped over [old]. *)
Fixpoint rows_pte (ks : list (Z * Z * Z * Z)) (old : Z -> Z) (va : Z) : Z :=
  match ks with
  | [] => old va
  | r :: ks' => rows_pte ks' (fun x => default (old x) (row_pte r x)) va
  end.

(** Rows of whole pages, in order from [lo] on, whose directory entries are in [dl]. *)
Fixpoint rows_ok (dl : list Z) (lo : Z) (ks : list (Z * Z * Z * Z)) : Prop :=
  match ks with
  | [] => True
  | (virt, pstart, pend, perm) :: ks' =>
      let size := u32 (pend - pstart) in
      lo <= virt /\ virt mod PGSIZE = 0 /\ pstart mod PGSIZE = 0 /\ size mod PGSIZE = 0 /\ 0 < size /\
      0 <= pstart /\ virt + size <= 4294967296 /\ pstart + size <= 4294967296 /\ 0 <= perm < PGSIZE /\
      (forall i, PDX virt <= i <= PDX (virt + size - PGSIZE) -> i ∈ dl) /\ rows_ok dl (virt + size) ks'
  end.

(** The tables present in [m] are those of directory entries in [dl]. *)
Definition tabs_in (m : mem) (pgdir : Z) (dl : list Z) : Prop :=
  forall i, 0 <= i < 1024 -> pde_p m pgdir i = true -> i ∈ dl.

Lemma tabs_bound m pgdir dl (l : list Z) :
  NoDup l -> tabs_in m pgdir dl -> (forall p, p ∈ l -> ptpage m pgdir p /\ p <> pgdir) ->
  (length l <= length (filter (fun i => pde_p m pgdir i = true) dl))%nat.
Proof.
  intros Hnd Hin Hl.
  assert (l ⊆+ tab m pgdir <$> filter (fun i => pde_p m pgdir i = true) dl) as Hs.
  2: { apply submseteq_length in Hs. by rewrite length_fmap in Hs. }
  apply NoDup_submseteq; [done|]. intros p Hp. destruct (Hl p Hp) as [[->|(i & Hi & Hpi & ->)] Hne]; [done|].
  apply list_elem_of_fmap. exists i. split; [done|]. apply list_elem_of_filter. by split; [|apply Hin].
Qed.

Lemma mappages_row pgdir virt size pa perm s free :
  fl_rep kend s free -> pt_ok kend (kbytes s) pgdir free ->
  0 <= virt -> virt mod PGSIZE = 0 -> size mod PGSIZE = 0 -> 0 < size -> virt + size <= 4294967296 ->
  pa mod PGSIZE = 0 -> 0 <= pa -> pa + size <= 4294967296 -> 0 <= perm < PGSIZE ->
  (forall x, virt <= x < virt + size -> has (pte_at (kbytes s) pgdir x) PTE_P = false) ->
  exists r k s' taken free',
    mappages pgdir virt size pa perm s = Ret r s' /\ pt_extends kend s s' pgdir free taken free' /\
    mapped (kbytes s) (kbytes s') pgdir virt pa perm k /\
    (forall i, 0 <= i < 1024 -> pde_p (kbytes s') pgdir i = true ->
       pde_p (kbytes s) pgdir i = true \/ PDX virt <= i <= PDX (virt + size - PGSIZE)) /\
    ((r = 0 /\ PGSIZE * k = size) \/
     (r = -1 /\ 0 <= k /\ PGSIZE * k < size /\ free' = [] /\ pde_p (kbytes s') pgdir (PDX (virt + PGSIZE * k)) = false)).
Proof.
  intros Hr Hok Hv Hvm Hsm Hs Hend Hpm Hp0 Hpe Hperm Hun.
  destruct (PGROUNDDOWN_spec virt ltac:(lia)) as [Ham Har].
  destruct (PGROUNDDOWN_spec (virt + size - 1) ltac:(lia)) as [Hlm Hlr].
  destruct (mappages_loop_ok kend kend_high (Z.to_nat (size / PGSIZE - 1)) (S (Z.to_nat (size / PGSIZE - 1)))
    pgdir virt pa perm s free) as (r & k & s' & t & f & E1 & E2 & E3 & E4 & E5); try done; try lia; try dlia.
  { intros va Hva. apply Hun. dlia. }
  assert (Hz : virt + PGSIZE * Z.of_nat (Z.to_nat (size / PGSIZE - 1)) = virt + size - PGSIZE) by dlia.
  rewrite Hz in *. exists r, k, s', t, f. split_and!; try done.
  - unfold mappages. replace (PGROUNDDOWN (virt + size - 1)) with (virt + size - PGSIZE) by dlia.
    replace (PGROUNDDOWN virt) with virt by dlia. rewrite u32_small by lia.
    replace ((virt + size - PGSIZE - virt) / PGSIZE) with (size / PGSIZE - 1) by dlia. exact E1.
  - destruct E5 as [[-> ->]|(-> & Hk & -> & Hno)]; [left|right]; split_and!; try done; dlia.
Qed.

Lemma rows_pte_ext ks va : forall f g : Z -> Z, (forall x, 0 <= x < 4294967296 -> f x = g x) ->
  0 <= va < 4294967296 -> rows_pte ks f va = rows_pte ks g va.
Proof.
  induction ks as [|q ks IH]; intros f g H Hva; cbn; [by apply H|]. apply IH; [|done]. intros x Hx. by rewrite H.
Qed.

Lemma us_ok_empty s pgdir free :
  fl_rep kend s free -> pt_ok kend (kbytes s) pgdir free ->
  (forall va, 0 <= va < KERNBASE -> has (pte_at (kbytes s) pgdir va) PTE_P = false) ->
  us_ok kend s pgdir free (fun _ => false).
Proof. intros Hr Hok Hun. split; try done. intros k Hk. apply Hun. lia. Qed.

(** The rows [ks], from a state [s] reached from the cleared directory of [s0]. *)
Lemma setupkvm_loop_ok s0 pgdir free0 dl :
  fl_rep kend s0 free0 -> (forall p, ptpage (kbytes s0) pgdir p -> p = pgdir) -> pgdir ∉ free0 ->
  forall ks lo s taken free,
  pt_extends kend s0 s pgdir free0 taken free -> tabs_in (kbytes s) pgdir dl ->
  KERNBASE <= lo -> rows_ok dl lo ks ->
  (forall va, 0 <= va < KERNBASE \/ lo <= va < 4294967296 -> has (pte_at (kbytes s) pgdir va) PTE_P = false) ->
  exists r s', setupkvm_loop kend pgdir ks s = Ret r s' /\
    ((r = pgdir /\ exists taken' free', pt_extends kend s0 s' pgdir free0 taken' free' /\
        tabs_in (kbytes s') pgdir dl /\
        (forall va, 0 <= va < 4294967296 -> pte_at (kbytes s') pgdir va = rows_pte ks (pte_at (kbytes s) pgdir) va)) \/
     (r = 0 /\ (length free0 < length dl)%nat /\ exists free', fl_rep kend s' free' /\
        (forall p, p ∈ free' <-> p = pgdir \/ p ∈ free0) /\
        only (fun p => p = pgdir \/ p ∈ free0) (kbytes s0) (kbytes s'))).
Proof.
  intros Hr0 Hpt0 Hdf. induction ks as [|[[[virt pstart] pend] perm] ks IH];
    intros lo s taken free Hex Htin Hlo Hrows Hun; cbn [setupkvm_loop].
  { exists pgdir, s. split; [done|]. left. split; [done|]. by exists taken, free. }
  cbn [rows_ok] in Hrows. destruct Hrows as (R1 & R2 & R3 & R4 & R5 & R6 & R7 & R8 & R9 & R10 & R11).
  set (size := u32 (pend - pstart)) in *. pose proof Hex as [_ Hr Hok _ _ _].
  destruct (mappages_row pgdir virt size pstart perm s free) as (r & k & s1 & t & f & Hrun & Hex1 & Hmap & Hpd & Hcase);
    try done; try lia.
  { intros x Hx. apply Hun. lia. }
  pose proof (pt_extends_trans kend _ _ _ _ _ _ _ _ _ Hex Hex1) as Hex2.
  assert (Htin1 : tabs_in (kbytes s1) pgdir dl).
  { intros i Hi Hp. destruct (Hpd i Hi Hp); [by apply Htin|by apply R10]. }
  mstep Hrun. destruct Hcase as [[-> Hk]|(-> & Hk0 & Hk & -> & Hno)].
  - change (0 <? 0) with false. cbv iota.
    destruct (IH (virt + size) s1 (taken ++ t) f Hex2 Htin1 ltac:(lia) R11) as (r' & s' & Hrun' & Hcase').
    { intros va Hva. rewrite Hmap by lia. range_cases; try (apply Hun; lia). }
    exists r', s'. split; [exact Hrun'|]. destruct Hcase' as [(-> & t' & f' & H1 & H2 & H3)|H]; [left|by right].
    split; [done|]. exists t', f'. split_and!; [done|done|]. intros va Hva. rewrite H3 by done. cbn [rows_pte].
    apply rows_pte_ext; [|done]. intros x Hx. rewrite Hmap by done. unfold row_pte. fold size. rewrite Hk. by destruct (_ && _).
  - change (-1 <? 0) with true. cbv iota.
    destruct (freevm_run pgdir s1 [] (fun _ => false)) as (s2 & f2 & Hrun2 & Hr2 & Hf2 & Ho2).
    { apply us_ok_empty; [apply Hex1|apply Hex1|]. intros va Hva. rewrite Hmap by lia. range_cases; apply Hun; lia. }
    mstep Hrun2. exists 0, s2. split; [done|]. right. split; [done|].
    destruct Hex2 as [F1 _ _ F4 F5 F6]. rewrite app_nil_r in F1. rewrite <- F1 in F5, F6.
    assert (Hown : forall p, owned (kbytes s1) pgdir (fun _ => false) p <-> p = pgdir \/ p ∈ free0).
    { intros p. unfold owned. split.
      - intros [[Hp|Hp]%F5|(j & _ & HP & _)]; [left; by apply Hpt0|by right|done].
      - intros [->|Hp]; left; [by left|apply F6; by right]. }
    split_and!.
    + eapply Nat.le_lt_trans; [apply (tabs_bound (kbytes s1) pgdir dl); try done|].
      * apply Hr0.
      * intros p Hp. split; [apply F6; by right|by intros ->].
      * apply (length_filter_lt _ _ (PDX (virt + PGSIZE * k))); [apply R10|by rewrite Hno].
        split; apply PDX_mono; dlia.
    + exists f2. split_and!; [done| |].
      * intros p. rewrite Hf2, Hown. split; [intros [Hx|?]; [by apply elem_of_nil in Hx|done]|by right].
      * eapply only_trans; [|eapply only_mono; [|exact Ho2]; intros p; apply Hown].
        intros a Ha. apply F4. intros p Hp. apply Ha, Hown. by left.
Qed.

(** A cleared page as a directory. *)
Lemma fresh_dir s p free :
  fl_rep kend s (p :: free) ->
  exists s1, kalloc s = Ret p s1 /\ page_ok kend p /\ p ∉ free /\
    let s0 := set_kbytes (memset (kbytes s1) p 0 PGSIZE) s1 in
    fl_rep kend s0 free /\ pt_ok kend (kbytes s0) p free /\ only (eq p) (kbytes s) (kbytes s0) /\
    (forall i, 0 <= i < 1024 -> pde_p (kbytes s0) p i = false) /\
    (forall va, pte_at (kbytes s0) p va = 0).
Proof.
  intros Hr. destruct (kalloc_run kend s _ Hr) as (s1 & Hrun & Hrep & Hb & _). cbn [hd tl] in *.
  pose proof Hr as (_ & Hnd & Hps & _). apply NoDup_cons in Hnd as [Hpf _]. apply Forall_cons in Hps as [Hp Hps].
  exists s1. do 3 (split; [done|]). cbv zeta. cbn [kbytes set_kbytes].
  assert (Hpde : forall i, 0 <= i < 1024 -> pde_p (memset (kbytes s1) p 0 PGSIZE) p i = false).
  { intros i Hi. unfold pde_p, pde. by rewrite rd32_zero by (unfold inpg; lia). }
  split_and!; [| | |done|].
  - eapply fl_rep_frame; [exact Hrep|done|by destruct Hrep as (_ & _ & _ & ?)|].
    intros q Hq. cbn. apply rd32_memset_apart. rewrite Forall_forall in Hps.
    assert (p <> q) as Hne by (by intros ->). pose proof (page_apart kend _ _ Hp (Hps q Hq) Hne). lia.
  - split; [done|done| |]; intros i; [intros Hi|intros j Hi Hj]; by rewrite Hpde.
  - intros a Ha. specialize (Ha p eq_refl). unfold inpg in Ha. rewrite rd8_memset_page, Hb. range_cases; done.
  - intros va. unfold pte_at. by rewrite Hpde by apply PDX_range.
Qed.

(** The directory entries of the kernel: those of KERNBASE up to the end of
    physical memory, and those of the devices. *)
Definition kern_dirs : list Z := seqZ 512 56 ++ seqZ 1016 8.

(** The entry of every address space for [va]: what the comment above [kmap]
    says, and no entry for user memory. *)
Definition kern_pte (va : Z) : Z :=
  let page := va / PGSIZE * PGSIZE in
  if va <? KERNBASE then 0
  else if va <? KERNLINK then page - KERNBASE + 3
  else if va <? kdata then page - KERNBASE + 1
  else if va <? KERNBASE + PHYSTOP then page - KERNBASE + 3
  else if va <? DEVSPACE then 0
  else page + 3.

Hypothesis kdata_page : kdata mod PGSIZE = 0.
Hypothesis kdata_in : KERNLINK < kdata < KERNBASE + PHYSTOP.

Lemma kmap_rows : rows_ok kern_dirs KERNBASE (kmap kdata).
Proof.
  unfold kmap, rows_ok, V2P. rewrite (u32_small (kdata - KERNBASE)) by lia.
  rewrite (u32_small (KERNLINK - KERNBASE)) by lia.
  change (u32 (EXTMEM - 0)) with 1048576. change (u32 (0 - DEVSPACE)) with 33554432.
  rewrite !u32_small by lia.
  split_and!; try lia; try dlia; try done; intros i; rewrite !PDX_div by lia;
    unfold kern_dirs; rewrite elem_of_app, !elem_of_seqZ; dlia.
Qed.

Lemma kmap_pte va : 0 <= va < 4294967296 -> rows_pte (kmap kdata) (fun _ => 0) va = kern_pte va.
Proof.
  intros Hva. unfold kmap, rows_pte, row_pte, kern_pte, V2P. rewrite (u32_small (kdata - KERNBASE)) by lia.
  rewrite (u32_small (KERNLINK - KERNBASE)) by lia.
  change (u32 (EXTMEM - 0)) with 1048576. change (u32 (0 - DEVSPACE)) with 33554432.
  rewrite !u32_small by lia.
  assert (Hsum : forall pa perm e, pa mod PGSIZE = 0 -> 0 <= pa < 4294967296 -> 0 <= perm < PGSIZE ->
    pa + Z.lor perm PTE_P = e -> Z.lor (Z.lor pa perm) PTE_P = e).
  { intros pa perm e H1 H2 H3 <-. by destruct (pte_fields pa perm H1 H2 H3) as [-> _]. }
  range_cases; cbn [default id]; try done; try dlia; apply Hsum;
    change (Z.lor PTE_W PTE_P) with 3; change (Z.lor 0 PTE_P) with 1; dlia.
Qed.

(** What [setupkvm] has made: a space without user pages out of pages of [free]. *)
Record kernel_space (s s' : kmem) (r : Z) (free free' : list Z) : Prop := {
  ks_in : r ∈ free;
  ks_us : us_ok kend s' r free' (fun _ => false);
  ks_pte : forall va, 0 <= va < 4294967296 -> pte_at (kbytes s') r va = kern_pte va;
  ks_free : forall p, p ∈ free <-> p ∈ free' \/ ptpage (kbytes s') r p;
  ks_tabs : tabs_in (kbytes s') r kern_dirs;
}.

Lemma setupkvm_run s free :
  fl_rep kend s free ->
  exists r s' free', setupkvm kend kdata s = Ret r s' /\
    only (fun p => p ∈ free) (kbytes s) (kbytes s') /\
    (kernel_space s s' r free free' \/
     (r = 0 /\ (length free < 65)%nat /\ fl_rep kend s' free' /\ (forall p, p ∈ free' <-> p ∈ free))).
Proof.
  intros Hr. unfold setupkvm. destruct free as [|p free].
  { destruct (kalloc_run kend s [] Hr) as (s1 & Hrun & Hrep & Hb & _). mstep Hrun.
    exists 0, s1, []. split; [done|]. rewrite Hb. split; [apply only_refl|]. right. split_and!; done || (cbn; lia). }
  destruct (fresh_dir s p free Hr) as (s1 & Hrun & Hp & Hpf & Hr0 & Hok0 & Hout0 & Hpde0 & Hpte0).
  mstep Hrun. destruct (Z.eqb_spec p 0) as [->|_]; [destruct Hp as (_ & _ & _ & ?); lia|].
  unfold modify, bind at 1. change (DEVSPACE <? P2V PHYSTOP) with false. cbv iota.
  set (s0 := set_kbytes _ s1) in *.
  assert (Hpt0 : forall q, ptpage (kbytes s0) p q -> q = p).
  { intros q [->|(i & Hi & Hpi & _)]; [done|]. by rewrite Hpde0 in Hpi. }
  destruct (setupkvm_loop_ok s0 p free kern_dirs Hr0 Hpt0 Hpf (kmap kdata) KERNBASE s0 [] free)
    as (r & s' & Hrun' & Hcase).
  - by apply pt_extends_refl.
  - intros i Hi Hpi. by rewrite Hpde0 in Hpi.
  - lia.
  - apply kmap_rows.
  - intros va _. by rewrite Hpte0.
  - exists r, s'. destruct Hcase as [(-> & t & f & [F1 F2 F3 F4 F5 F6] & Ht & Hpte)|(-> & Hlen & f & H1 & H2 & H3)].
    + assert (Hk : forall va, 0 <= va < 4294967296 -> pte_at (kbytes s') p va = kern_pte va).
      { intros va Hva. rewrite Hpte, <- kmap_pte by done. apply rows_pte_ext; [|done]. intros x _. by rewrite Hpte0. }
      exists f. split_and!; [exact Hrun'| |left].
      * eapply only_trans; [eapply only_mono; [|exact Hout0]; intros q <-; by left|].
        intros a Ha. apply F4. intros q [->%Hpt0|Hq]%F5; apply Ha; [by left|right; rewrite F1, elem_of_app; by left].
      * split; [by left| |done| |done].
        -- apply us_ok_empty; [done|done|]. intros va Hva. rewrite Hk by lia. unfold kern_pte. range_cases; done.
        -- intros q. rewrite elem_of_cons, F1, elem_of_app. split.
           ++ intros [->|[?|?]]; [right; by left|right; apply F6; by right|by left].
           ++ intros [?|[->%Hpt0|?]%F5]; auto.
    + exists f. split_and!; [exact Hrun'| |right].
      * eapply only_trans; [eapply only_mono; [|exact Hout0]; intros q <-; by left|].
        eapply only_mono; [|exact H3]. intros q. by rewrite elem_of_cons.
      * split_and!; [done| |done|intros q; by rewrite elem_of_cons]. cbn. change (length kern_dirs) with 64%nat in Hlen. lia.
Qed.

(** C27. [setupkvm] either makes a directory in which every address has the
    entry that the comment above its table promises and user memory has none,
    out of pages of the free list (the directory, its tables, and the pages that
    stay free are all of them), or returns 0 with the free pages as they were;
    only pages that were free are written. It succeeds whenever 65 pages are
    free: one for the directory and 64 tables. *)
Theorem setupkvm_maps s free :
  fl_rep kend s free ->
  exists r s' free', setupkvm kend kdata s = Ret r s' /\
    only (fun p => p ∈ free) (kbytes s) (kbytes s') /\
    ((r ∈ free /\ us_ok kend s' r free' (fun _ => false) /\
      (forall va, 0 <= va < 4294967296 -> pte_at (kbytes s') r va = kern_pte va) /\
      (forall p, p ∈ free <-> p ∈ free' \/ ptpage (kbytes s') r p)) \/
     (r = 0 /\ (length free < 65)%nat /\ fl_rep kend s' free' /\ (forall p, p ∈ free' <-> p ∈ free))).
Proof.
  intros Hr. destruct (setupkvm_run s free Hr) as (r & s' & f & Hrun & Ho & [[H1 H2 H3 H4 _]|H]);
    exists r, s', f; (split_and!; [done|done|]); [left|by right]. by split_and!.
Qed.

(** ** [copyuvm] *)

(** An address space is left alone by code that writes free pages only. *)
Lemma us_frame s s' pgdir free free' P :
  us_ok kend s pgdir free P -> fl_rep kend s' free' -> (forall p, p ∈ free' -> p ∈ free) ->
  only (fun p => p ∈ free) (kbytes s) (kbytes s') ->
  us_ok kend s' pgdir free' P /\
  (forall va, pte_at (kbytes s') pgdir va = pte_at (kbytes s) pgdir va) /\
  (forall va, slot (kbytes s') pgdir va = slot (kbytes s) pgdir va) /\
  (forall k a, 0 <= k < UPAGES -> P k = true -> inpg (upg (kbytes s) pgdir k) a ->
     rd8 (kbytes s') a = rd8 (kbytes s) a).
Proof.
  intros Hus Hr' Hsub Ho. pose proof Hus as [Hr Hok Hmap Hpg Hinj].
  assert (Hout : forall p a, page_ok kend p -> p ∉ free -> inpg p a -> rd8 (kbytes s') a = rd8 (kbytes s) a).
  { intros p a Hp Hpf Ha. apply Ho. intros q Hq. destruct Hr as (_ & _ & Hqs & _).
    rewrite Forall_forall in Hqs. apply (page_disjoint kend p); try done; [by apply Hqs|by intros ->]. }
  destruct (pt_frame (kbytes s) (kbytes s') pgdir) as (Hd & Hpte & Hsl).
  { intros a p Hp. destruct (ptpage_ok kend _ _ _ _ Hok Hp) as [Hp1 Hp2]. by apply Hout. }
  assert (Hg : forall k, upg (kbytes s') pgdir k = upg (kbytes s) pgdir k) by (intros k; unfold upg, upte; by rewrite Hpte).
  split_and!; [|done|done|].
  - split; [done|by eapply pt_ok_frame| | |].
    + intros k Hk. unfold upte. rewrite Hpte. by apply Hmap.
    + intros k Hk HP. rewrite Hg, (ptpage_eq (kbytes s) _ _ Hd). destruct (Hpg k Hk HP) as (? & Hf & ?).
      split_and!; try done. intros Hx. by apply Hf, Hsub.
    + intros i k Hi Hk HPi HPk. rewrite !Hg. by apply Hinj.
  - intros k a Hk HP. destruct (Hpg k Hk HP) as (? & ? & _). by apply Hout.
Qed.

Lemma flags_present e : has e PTE_P = true -> Z.lor (PTE_FLAGS e) PTE_P = PTE_FLAGS e.
Proof.
  unfold has, PTE_FLAGS. rewrite negb_true_iff, Z.eqb_neq. intros He. apply Z.bits_inj'. intros n Hn.
  rewrite Z.lor_spec. destruct (Z.eq_dec n 0) as [->|Hn0].
  - rewrite Z.land_spec. destruct (Z.testbit e 0) eqn:E; [done|]. destruct He. apply Z.bits_inj'. intros i Hi.
    rewrite Z.land_spec, Z.bits_0. destruct (Z.eq_dec i 0) as [->|Hi0]; [by rewrite E|].
    change PTE_P with (2 ^ 0). by rewrite Z.pow2_bits_false, andb_false_r by lia.
  - change PTE_P with (2 ^ 0). by rewrite Z.pow2_bits_false, orb_false_r by lia.
Qed.

(** [s] has, in the directory [d], new pages with the contents and flags of the
    pages [0 .. j-1] that [pgdir] has in [s0]. *)
Record copied (s0 s : kmem) (pgdir d : Z) (free0 free : list Z) (j : Z) : Prop := {
  c_us : us_ok kend s d free (prange 0 j);
  c_out : only (fun p => p ∈ free0) (kbytes s0) (kbytes s);
  c_free : forall p, p ∈ free0 <-> p ∈ free \/ owned (kbytes s) d (prange 0 j) p;
  c_tabs : forall i, 0 <= i < 1024 -> pde_p (kbytes s) d i = true -> i ∈ kern_dirs \/ i * 1024 < j;
  c_kern : forall va, KERNBASE <= va < 4294967296 -> pte_at (kbytes s) d va = kern_pte va;
  c_data : forall k, 0 <= k < j ->
    PTE_FLAGS (upte (kbytes s) d k) = PTE_FLAGS (upte (kbytes s0) pgdir k) /\
    (forall o, 0 <= o < PGSIZE ->
       rd8 (kbytes s) (upg (kbytes s) d k + o) = rd8 (kbytes s0) (upg (kbytes s0) pgdir k + o));
}.

(** Room that suffices: the directory and the kernel's tables, the pages, and a
    table for every 1024 of them. *)
Definition copy_need (n : Z) : Z := 65 + n + (n + 1023) / 1024.

Lemma owned_bound m d j dl (extra l : list Z) :
  0 <= j -> NoDup l -> tabs_in m d dl -> (forall p, p ∈ l -> owned m d (prange 0 j) p \/ p ∈ extra) ->
  (length l <= 1 + length (filter (fun i => pde_p m d i = true) dl) + Z.to_nat j + length extra)%nat.
Proof.
  intros Hj Hnd Hin Hl.
  assert (l ⊆+ d :: (tab m d <$> filter (fun i => pde_p m d i = true) dl) ++ (upg m d <$> seqZ 0 j) ++ extra) as Hs.
  2: { apply submseteq_length in Hs. cbn in Hs. rewrite !length_app, !length_fmap, length_seqZ in Hs. lia. }
  apply NoDup_submseteq; [done|]. intros p Hp. rewrite elem_of_cons, !elem_of_app, !list_elem_of_fmap.
  destruct (Hl p Hp) as [[[->|(i & Hi & Hpi & ->)]|(k & Hk & HP & ->)]|?]; auto.
  - right; left. exists i. split; [done|]. apply list_elem_of_filter. split; [done|by apply Hin].
  - right; right; left. exists k. split; [done|]. apply elem_of_seqZ. revert HP. unfold prange. range_cases; done.
Qed.

(** The parent, from a state of the copy. *)
Lemma copied_parent s0 s pgdir d free0 free P j :
  us_ok kend s0 pgdir free0 P -> copied s0 s pgdir d free0 free j ->
  (forall va, pte_at (kbytes s) pgdir va = pte_at (kbytes s0) pgdir va) /\
  (forall va, slot (kbytes s) pgdir va = slot (kbytes s0) pgdir va) /\
  (forall k a, 0 <= k < UPAGES -> P k = true -> inpg (upg (kbytes s0) pgdir k) a ->
     rd8 (kbytes s) a = rd8 (kbytes s0) a).
Proof.
  intros Hus [C1 C2 C3 _ _ _]. destruct (us_frame s0 s pgdir free0 free P) as (_ & ?); try done.
  - apply C1.
  - intros p Hp. apply C3. by left.
Qed.

(** The round's new page, with the parent's bytes. *)
Lemma copy_page s0 s pgdir d free0 p free P j :
  us_ok kend s0 pgdir free0 P -> copied s0 s pgdir d free0 (p :: free) j -> 0 <= j < UPAGES -> P j = true ->
  exists s1, kalloc s = Ret p s1 /\
    let s2 := set_kbytes (memmove (kbytes s1) p (upg (kbytes s0) pgdir j) PGSIZE) s1 in
    page_ok kend p /\ p ∉ free /\ us_ok kend s2 d free (prange 0 j) /\ ~ ptpage (kbytes s2) d p /\
    (forall k, 0 <= k < UPAGES -> prange 0 j k = true -> upg (kbytes s2) d k <> p) /\
    (forall va, pte_at (kbytes s2) d va = pte_at (kbytes s) d va) /\
    (forall q, ptpage (kbytes s2) d q <-> ptpage (kbytes s) d q) /\
    only (eq p) (kbytes s) (kbytes s2) /\
    (forall o, 0 <= o < PGSIZE -> rd8 (kbytes s2) (p + o) = rd8 (kbytes s0) (upg (kbytes s0) pgdir j + o)).
Proof.
  intros Hus Hc Hj HPj. pose proof (c_us _ _ _ _ _ _ _ Hc) as Hd.
  destruct (take_page kend s d p free _ 0 Hd) as (s1 & Hrun & Hb & Hus1 & _ & Hp & Hpf & Hnp & Hne & Hu & Hpt & _).
  exists s1. split; [done|]. cbv zeta. cbn [kbytes set_kbytes]. rewrite Hpt, <- Hb in Hnp.
  set (src := upg (kbytes s0) pgdir j) in *.
  assert (Ho : only (eq p) (kbytes s1) (memmove (kbytes s1) p src PGSIZE)).
  { intros a Ha. specialize (Ha p eq_refl). unfold inpg in Ha. rewrite memmove_bytes by lia. range_cases; done. }
  destruct (us_ok_write kend s1 (memmove (kbytes s1) p src PGSIZE) d free _ p Hus1 Hp Hpf Hnp) as (Hus2 & Hpte & Hpt2).
  { intros a Ha. apply Ho. by intros q <-. }
  rewrite <- Hb. split_and!; try done.
  - by rewrite Hpt2.
  - intros k Hk HP. unfold upg, upte. rewrite Hpte, Hb. specialize (Hne k Hk HP). unfold upg in Hne. by rewrite Hu in Hne.
  - intros o Hoo. rewrite memmove_bytes, Hb by lia. range_cases.
    replace (src + (p + o - p)) with (src + o) by lia.
    destruct (copied_parent _ _ _ _ _ _ _ _ Hus Hc) as (_ & _ & Hby). apply (Hby j); try done. unfold inpg. fold src. lia.
Qed.

(** The round of page [j]: [p] taken and filled ([s2]), then mapped ([s3]). *)
Record copy_round (s0 s s2 s3 : kmem) (pgdir d p : Z) (free t free' : list Z) (j : Z) : Prop := {
  cr_page : page_ok kend p /\ p ∉ free /\ ~ ptpage (kbytes s2) d p;
  cr_pte2 : forall va, pte_at (kbytes s2) d va = pte_at (kbytes s) d va;
  cr_pt2 : forall q, ptpage (kbytes s2) d q <-> ptpage (kbytes s) d q;
  cr_out2 : only (eq p) (kbytes s) (kbytes s2);
  cr_bytes : forall o, 0 <= o < PGSIZE -> rd8 (kbytes s2) (p + o) = rd8 (kbytes s0) (upg (kbytes s0) pgdir j + o);
  cr_free : free = t ++ free';
  cr_pt3 : forall q, ptpage (kbytes s3) d q <-> ptpage (kbytes s2) d q \/ q ∈ t;
  cr_out3 : only (ptpage (kbytes s3) d) (kbytes s2) (kbytes s3);
  cr_same : forall k, 0 <= k < UPAGES -> k <> j -> upte (kbytes s3) d k = upte (kbytes s2) d k;
  cr_kern : forall va, KERNBASE <= va < 4294967296 -> pte_at (kbytes s3) d va = pte_at (kbytes s2) d va;
  cr_tabs : forall i, 0 <= i < 1024 -> pde_p (kbytes s3) d i = true -> pde_p (kbytes s2) d i = true \/ i = j / 1024;
  cr_us : us_ok kend s3 d free' (fun k => prange 0 j k || (k =? j));
  cr_pte : upte (kbytes s3) d j = V2P p + Z.lor (PTE_FLAGS (upte (kbytes s0) pgdir j)) PTE_P;
  cr_upg : upg (kbytes s3) d j = p;
}.

Lemma prange_0 j k : prange 0 j k = true <-> 0 <= k < j.
Proof. unfold prange. range_cases; split; intros; done || lia. Qed.

Lemma prange_0_S j k : 0 <= j -> prange 0 (j + 1) k = prange 0 j k || (k =? j).
Proof. unfold prange. range_cases; done. Qed.

(** Tables present after [s3], against the start of the round. *)
Lemma round_tabs s s2 s3 d p free j :
  us_ok kend s d (p :: free) (prange 0 j) -> page_ok kend p -> ~ ptpage (kbytes s2) d p ->
  only (eq p) (kbytes s) (kbytes s2) ->
  (forall i, 0 <= i < 1024 -> pde_p (kbytes s3) d i = true -> pde_p (kbytes s2) d i = true \/ i = j / 1024) ->
  (forall i, 0 <= i < 1024 -> pde_p (kbytes s) d i = true -> i ∈ kern_dirs \/ i * 1024 < j) ->
  forall i, 0 <= i < 1024 -> pde_p (kbytes s3) d i = true -> i ∈ kern_dirs \/ i * 1024 < j + 1.
Proof.
  intros Hus Hp Hnp Ho Hd3 C4 i Hi Hpi. destruct (Hd3 i Hi Hpi) as [Hx| ->]; [|right; dlia].
  assert (Hx' : pde_p (kbytes s) d i = true).
  { unfold pde_p in *. erewrite <- (pde_only (kbytes s)); [exact Hx|apply Hus|exact Hp| |exact Ho|done].
    intros ->. apply Hnp. by left. }
  destruct (C4 i Hi Hx'); [by left|right; lia].
Qed.

(** Flags and contents after the round. *)
Lemma round_data s0 s s2 s3 pgdir d free0 p free t f' P j :
  us_ok kend s0 pgdir free0 P -> copied s0 s pgdir d free0 (p :: free) j -> 0 <= j < UPAGES -> P j = true ->
  copy_round s0 s s2 s3 pgdir d p free t f' j ->
  forall k, 0 <= k < j + 1 ->
    PTE_FLAGS (upte (kbytes s3) d k) = PTE_FLAGS (upte (kbytes s0) pgdir k) /\
    (forall o, 0 <= o < PGSIZE ->
       rd8 (kbytes s3) (upg (kbytes s3) d k + o) = rd8 (kbytes s0) (upg (kbytes s0) pgdir k + o)).
Proof.
  intros Hus Hc Hj HPj [(Hp & Hpf & Hnp2) R1 R2 R3 R4 R5 R6 R7 R8 _ _ R9 R10 R11] k Hk.
  pose proof (c_us _ _ _ _ _ _ _ Hc) as C1.
  assert (Hnp3 : forall q, q ∉ free -> ~ ptpage (kbytes s2) d q -> ~ ptpage (kbytes s3) d q).
  { intros q H1 H2. rewrite R6. intros [?|Hx]; [done|]. apply H1. rewrite R5, elem_of_app. by left. }
  (* a page that is no table keeps its bytes when [p] is mapped *)
  assert (Hkeep : forall q a, page_ok kend q -> q ∉ free -> ~ ptpage (kbytes s2) d q -> inpg q a ->
            rd8 (kbytes s3) a = rd8 (kbytes s2) a).
  { intros q a Hq H1 H2 Ha. apply R7. intros r Hr.
    destruct (ptpage_ok kend _ _ _ _ (us_pt _ _ _ _ _ R9) Hr) as [Hrp _].
    apply (page_disjoint kend q); try done. intros ->. by apply (Hnp3 r). }
  destruct (decide (k = j)) as [->|Hne].
  - rewrite R10, R11. destruct (V2P_page kend kend_high p Hp) as [Hvm _].
    assert (Hfl : 0 <= PTE_FLAGS (upte (kbytes s0) pgdir j) < PGSIZE).
    { unfold PTE_FLAGS. change 4095 with (Z.ones 12). rewrite Z.land_ones by lia. apply Z.mod_pos_bound. lia. }
    rewrite flags_present by (by rewrite (us_map _ _ _ _ _ Hus)).
    destruct (entry_fields (V2P p) _ Hvm Hfl) as (_ & -> & _). split; [done|].
    intros o Ho. rewrite (Hkeep p); [by apply R4|done..|unfold inpg; lia].
  - unfold upg at 1. rewrite R8 by lia. unfold upte. rewrite R1. fold (upte (kbytes s) d k) (upg (kbytes s) d k).
    destruct (c_data _ _ _ _ _ _ _ Hc k ltac:(lia)) as [D1 D2]. split; [exact D1|]. intros o Ho. rewrite <- D2 by done.
    destruct (us_page _ _ _ _ _ C1 k ltac:(lia)) as (Hq & Hqf & Hqp); [apply prange_0; lia|].
    set (q := upg (kbytes s) d k) in *. apply not_elem_of_cons in Hqf as [Hqe Hqf].
    rewrite (Hkeep q); [|done|done|by rewrite R2|unfold inpg; lia].
    apply R3. intros r <-. apply (page_disjoint kend q); try done. unfold inpg. lia.
Qed.

Lemma copied_step s0 s s2 s3 pgdir d free0 p free t f' P j :
  us_ok kend s0 pgdir free0 P -> copied s0 s pgdir d free0 (p :: free) j -> 0 <= j < UPAGES -> P j = true ->
  copy_round s0 s s2 s3 pgdir d p free t f' j -> copied s0 s3 pgdir d free0 f' (j + 1).
Proof.
  intros Hus Hc Hj HPj Hrd. pose proof (round_data _ _ _ _ _ _ _ _ _ _ _ _ _ Hus Hc Hj HPj Hrd) as Hdata.
  destruct Hrd as [(Hp & Hpf & Hnp2) R1 R2 R3 _ R5 R6 R7 R8 R12 R13 R9 _ R11].
  destruct Hc as [C1 C2 C3 C4 C5 _].
  assert (Hg : forall k, 0 <= k < j -> upg (kbytes s3) d k = upg (kbytes s) d k).
  { intros k Hk. unfold upg. rewrite R8 by lia. unfold upte. by rewrite R1. }
  split; [| | | | |done].
  - eapply us_ok_ext; [|exact R9]. intros k Hk. cbn. by rewrite prange_0_S by lia.
  - eapply only_trans; [exact C2|]. eapply only_trans; [eapply only_mono; [|exact R3]|eapply only_mono; [|exact R7]].
    + intros q <-. apply C3. left. by left.
    + intros q [Hq|Hq]%R6; apply C3; [right; left; by apply R2|]. left. right. rewrite R5, elem_of_app. by left.
  - intros q. rewrite C3, elem_of_cons, R5, elem_of_app. unfold owned. rewrite R6, R2. split.
    + intros [[->|[?|?]]|[?|(k & Hk & HP & ->)]]; auto; right; right.
      * exists j. by rewrite prange_0_S, Z.eqb_refl, orb_true_r by lia.
      * exists k. rewrite prange_0_S, HP, Hg by (lia || by apply prange_0). done.
    + intros [?|[[?|?]|(k & Hk & HP & ->)]]; auto. rewrite prange_0_S in HP by lia.
      destruct (Z.eqb_spec k j) as [->|Hn]; [left; by left|].
      rewrite orb_false_r in HP. right; right. exists k. rewrite Hg by (by apply prange_0). done.
  - by eapply round_tabs.
  - intros va Hva. by rewrite R12, R1, C5.
Qed.

(** Giving everything up. *)
Lemma copy_undo s0 s d (free0 f : list Z) P :
  us_ok kend s d f P -> (forall p, p ∈ free0 <-> p ∈ f \/ owned (kbytes s) d P p) ->
  only (fun p => p ∈ free0) (kbytes s0) (kbytes s) ->
  exists s' f', freevm kend d s = Ret tt s' /\ fl_rep kend s' f' /\ (forall p, p ∈ f' <-> p ∈ free0) /\
    only (fun p => p ∈ free0) (kbytes s0) (kbytes s').
Proof.
  intros Hus Hf Ho. destruct (freevm_run d s f P Hus) as (s' & f' & Hrun & Hr & Hf' & Ho').
  exists s', f'. split_and!; [done|done|intros p; by rewrite Hf', Hf|].
  eapply only_trans; [exact Ho|]. eapply only_mono; [|exact Ho']. intros p Hp. apply Hf. by right.
Qed.

(** Memory ran out in the round of page [j], so there was not room enough. *)
Lemma copy_short m d free0 (extra : list Z) j n i :
  NoDup free0 -> 0 <= j -> j + Z.of_nat (length extra) <= n - 1 \/
    (j + Z.of_nat (length extra) <= n /\ i = j / 1024 /\ pde_p m d i = false /\ j < n) ->
  (forall i, 0 <= i < 1024 -> pde_p m d i = true -> i ∈ kern_dirs \/ i * 1024 < n) ->
  (forall p, p ∈ free0 -> owned m d (prange 0 j) p \/ p ∈ extra) ->
  Z.of_nat (length free0) < copy_need n.
Proof.
  intros Hnd Hj Hc Ht Ho. set (dl := kern_dirs ++ seqZ 0 ((n + 1023) / 1024)).
  assert (Hlen : length dl = (64 + Z.to_nat ((n + 1023) / 1024))%nat) by (unfold dl; by rewrite length_app, length_seqZ).
  assert (Hin : tabs_in m d dl).
  { intros k Hk Hp. unfold dl. rewrite elem_of_app, elem_of_seqZ. destruct (Ht k Hk Hp); [by left|right; dlia]. }
  pose proof (owned_bound m d j dl extra free0 Hj Hnd Hin Ho) as Hb. unfold copy_need.
  destruct Hc as [Hc|(Hc & -> & Hp & Hjn)].
  - pose proof (length_filter (fun i => pde_p m d i = true) dl). dlia.
  - assert (length (filter (fun i => pde_p m d i = true) dl) < length dl)%nat; [|dlia].
    apply (length_filter_lt _ _ (j / 1024)); [|by rewrite Hp].
    unfold dl. rewrite elem_of_app, elem_of_seqZ. right. dlia.
Qed.

(** The parent's entry for page [j], as the copy reads it. *)
Lemma parent_entry s0 s pgdir d free0 free P j :
  us_ok kend s0 pgdir free0 P -> copied s0 s pgdir d free0 free j -> 0 <= j < UPAGES -> P j = true ->
  slot (kbytes s) pgdir (j * PGSIZE) <> 0 /\
  rd32 (kbytes s) (slot (kbytes s) pgdir (j * PGSIZE)) = upte (kbytes s0) pgdir j /\
  has (upte (kbytes s0) pgdir j) PTE_P = true.
Proof.
  intros Hus Hc Hj HPj. destruct (copied_parent _ _ _ _ _ _ _ _ Hus Hc) as (Hpte & Hsl & _).
  pose proof (us_map _ _ _ _ _ Hus j Hj) as Hpres. rewrite HPj in Hpres.
  assert (Hs : slot (kbytes s0) pgdir (j * PGSIZE) <> 0).
  { rewrite (slot_zero kend kend_high _ _ free0) by apply Hus. intros E. unfold upte, pte_at in Hpres. by rewrite E in Hpres. }
  split_and!; [by rewrite Hsl| |done]. unfold upte. rewrite <- Hpte. rewrite <- Hsl in Hs.
  unfold slot, pte_at in *. by destruct (pde_p (kbytes s) pgdir (PDX (j * PGSIZE))).
Qed.

(** The round in which there was a page but none for its table. *)
Lemma copy_unmapped s0 s s2 s3 pgdir d free0 p free t P j n :
  us_ok kend s0 pgdir free0 P -> copied s0 s pgdir d free0 (p :: free) j -> 0 <= j < UPAGES -> j < n ->
  page_ok kend p -> p ∉ free -> ~ ptpage (kbytes s2) d p ->
  (forall k, 0 <= k < UPAGES -> prange 0 j k = true -> upg (kbytes s2) d k <> p) ->
  (forall va, pte_at (kbytes s2) d va = pte_at (kbytes s) d va) ->
  (forall q, ptpage (kbytes s2) d q <-> ptpage (kbytes s) d q) -> only (eq p) (kbytes s) (kbytes s2) ->
  free = t ++ [] -> (forall q, ptpage (kbytes s3) d q <-> ptpage (kbytes s2) d q \/ q ∈ t) ->
  only (ptpage (kbytes s3) d) (kbytes s2) (kbytes s3) ->
  (forall k, 0 <= k < UPAGES -> k <> j -> upte (kbytes s3) d k = upte (kbytes s2) d k) ->
  (forall i, 0 <= i < 1024 -> pde_p (kbytes s3) d i = true -> pde_p (kbytes s2) d i = true \/ i = j / 1024) ->
  us_ok kend s3 d [] (prange 0 j) -> pde_p (kbytes s3) d (j / 1024) = false ->
  exists s' f', kfree kend p s3 = Ret tt (kfree_state p s3) /\ freevm kend d (kfree_state p s3) = Ret tt s' /\
    Z.of_nat (length free0) < copy_need n /\ fl_rep kend s' f' /\ (forall q, q ∈ f' <-> q ∈ free0) /\
    only (fun q => q ∈ free0) (kbytes s0) (kbytes s').
Proof.
  intros Hus Hc Hj Hn Hp Hpf Hnp Hne Hpte2 Hpt2 Ho2 Hfr Hpt3 Ho3 Hu3 Hd3 Hus3 Hno.
  rewrite app_nil_r in Hfr. subst t. destruct Hc as [C1 C2 C3 C4 _ _].
  assert (Hg2 : forall k, 0 <= k < j -> upg (kbytes s3) d k = upg (kbytes s2) d k).
  { intros k Hk. unfold upg. by rewrite Hu3 by lia. }
  assert (Hnp3 : ~ ptpage (kbytes s3) d p) by (rewrite Hpt3; by intros [?|?]).
  destruct (give_page kend s3 d [] _ p Hus3 Hp) as (Hk & Hus4 & Hpte4 & Hpt4); try done.
  { apply not_elem_of_nil. }
  { intros k Hk HP. rewrite Hg2 by (by apply prange_0). by apply Hne. }
  set (s4 := kfree_state p s3) in *.
  assert (Hown : forall q, q ∈ free0 <-> q = p \/ owned (kbytes s3) d (prange 0 j) q).
  { intros q. rewrite C3, elem_of_cons. unfold owned. rewrite Hpt3, Hpt2.
    assert (Hg : forall k, 0 <= k < j -> upg (kbytes s3) d k = upg (kbytes s) d k).
    { intros k Hk'. rewrite Hg2 by done. unfold upg, upte. by rewrite Hpte2. }
    split; [intros [[?|?]|[?|(k & Hk' & HP & ->)]]|intros [?|[[?|?]|(k & Hk' & HP & ->)]]]; auto;
      right; right; exists k; rewrite Hg by (by apply prange_0); done. }
  destruct (copy_undo s0 s4 d free0 [p] _ Hus4) as (s' & f' & Hrun & H1 & H2 & H3).
  { intros q. rewrite Hown, list_elem_of_singleton. unfold owned. rewrite Hpt4.
    assert (Hg : forall k, upg (kbytes s4) d k = upg (kbytes s3) d k) by (intros k; unfold upg, upte; by rewrite Hpte4).
    setoid_rewrite Hg. done. }
  { assert (Hpin : p ∈ free0) by (apply Hown; by left).
    eapply only_trans; [exact C2|]. eapply only_trans; [eapply only_mono; [|exact Ho2]; by intros q <-|].
    eapply only_trans; [eapply only_mono; [|exact Ho3]; intros q Hq; apply Hown; right; by left|].
    eapply only_mono; [|apply kfree_state_out]. by intros q <-. }
  exists s', f'. split_and!; try done.
  apply (copy_short (kbytes s3) d free0 [p] j n (j / 1024)); try done; [apply Hus|lia|cbn; right; split_and!; lia || done| |].
  - intros i Hi Hpi. destruct (round_tabs s s2 s3 d p free j C1 Hp Hnp Ho2 Hd3 C4 i Hi Hpi); [by left|right; lia].
  - intros q [->|Hq]%Hown; [right; by left|by left].
Qed.

Lemma copyuvm_loop_ok s0 pgdir d free0 P sz :
  us_ok kend s0 pgdir free0 P -> 0 <= sz <= KERNBASE ->
  (forall k, 0 <= k < pages sz -> P k = true) ->
  forall fuel j s free, copied s0 s pgdir d free0 free j -> 0 <= j <= pages sz -> pages sz - j <= Z.of_nat fuel ->
  exists r s' free', copyuvm_loop kend fuel pgdir d (j * PGSIZE) sz s = Ret r s' /\
    ((r = d /\ copied s0 s' pgdir d free0 free' (pages sz)) \/
     (r = 0 /\ Z.of_nat (length free0) < copy_need (pages sz) /\ fl_rep kend s' free' /\
      (forall p, p ∈ free' <-> p ∈ free0) /\ only (fun p => p ∈ free0) (kbytes s0) (kbytes s'))).
Proof.
  intros Hus Hsz HP. induction fuel as [|fuel IH]; intros j s free Hc Hj Hf; cbn [copyuvm_loop];
    destruct (Z.ltb_spec (j * PGSIZE) sz) as [Hlt|Hge].
  2, 4: exists d, s, free; split; [done|]; left; split; [done|]; replace (pages sz) with j by dlia; exact Hc.
  { dlia. }
  assert (Hj1 : 0 <= j < UPAGES /\ j < pages sz) by dlia. destruct Hj1 as [Hj1 HjN].
  specialize (HP j ltac:(lia)) as HPj. assert (Hnd : NoDup free0) by apply Hus.
  mstep (walk_noalloc pgdir (j * PGSIZE) s).
  destruct (parent_entry s0 s pgdir d free0 free P j Hus Hc Hj1 HPj) as (Hs0 & He & Hpres).
  destruct (Z.eqb_spec (slot (kbytes s) pgdir (j * PGSIZE)) 0) as [|_]; [done|].
  unfold load, bind at 1, gets. rewrite He, Hpres. cbn [negb].
  pose proof Hc as [C1 C2 C3 C4 _ _]. destruct free as [|p free].
  - destruct (kalloc_none _ _ _ _ C1) as (s1 & Hrun & Hb & Hus1). mstep Hrun. cbn [Z.eqb]. rewrite <- Hb in C2, C3, C4.
    destruct (copy_undo s0 s1 d free0 [] _ Hus1 C3 C2) as (s' & f' & Hrun' & H1 & H2 & H3).
    mstep Hrun'. exists 0, s', f'. split; [done|right]. split_and!; try done.
    apply (copy_short (kbytes s1) d free0 [] j _ 0); try done; [lia|cbn; left; lia| |].
    + intros i Hi Hp. destruct (C4 i Hi Hp); [by left|right; lia].
    + intros p [Hx|Hx]%C3; [by right|by left].
  - destruct (copy_page _ _ _ _ _ _ _ _ _ Hus Hc Hj1 HPj)
      as (s1 & Hrun & Hp & Hpf & Hus2 & Hnp & Hne & Hpte2 & Hpt2 & Ho2 & Hby).
    mstep Hrun. destruct (Z.eqb_spec p 0) as [->|_]; [destruct Hp as (_ & _ & _ & ?); lia|].
    unfold modify, bind at 1. fold (upg (kbytes s0) pgdir j).
    remember (set_kbytes (memmove (kbytes s1) p (upg (kbytes s0) pgdir j) PGSIZE) s1) as s2 eqn:Es2.
    destruct (map_page kend kend_high s2 d free _ p j (PTE_FLAGS (upte (kbytes s0) pgdir j)) Hus2 Hp Hpf Hnp Hne Hj1)
      as (r & s3 & t & f' & Hm & Hfr & Hpt3 & Ho3 & Hu3 & Hk3 & Hd3 & Hcase).
    { unfold prange. range_cases; done. }
    { unfold PTE_FLAGS. change 4095 with (Z.ones 12). rewrite Z.land_ones by lia. apply Z.mod_pos_bound. lia. }
    mstep Hm. destruct Hcase as [(-> & Hus3 & Huj & Hgj)|(-> & -> & Hus3 & Huj & Hno)].
    + change (0 <? 0) with false. cbv iota.
      replace (u32 (j * PGSIZE + PGSIZE)) with ((j + 1) * PGSIZE) by (rewrite u32_small; lia).
      apply (IH (j + 1) s3 f'); [|lia|lia]. by eapply (copied_step s0 s s2 s3).
    + change (-1 <? 0) with true. cbv iota.
      destruct (copy_unmapped s0 s s2 s3 pgdir d free0 p free t P j (pages sz)) as (s' & f'' & E1 & E2 & E3); try done.
      mstep E1. mstep E2. exists 0, s', f''. split; [done|by right].
Qed.

(** The copy before its first page. *)
Lemma copied_start s s1 pgdir d free f1 :
  only (fun p => p ∈ free) (kbytes s) (kbytes s1) -> kernel_space s s1 d free f1 -> copied s s1 pgdir d free f1 0.
Proof.
  intros Ho [K1 K2 K3 K4 K5].
  assert (Hno : forall k, prange 0 0 k = false) by (intros k; unfold prange; range_cases; done).
  split; [|done| | |intros va Hva; apply K3; lia|intros k Hk'; lia].
  - eapply us_ok_ext; [|exact K2]. intros k _. by rewrite Hno.
  - intros p. rewrite K4. unfold owned. split; [intros [?|?]; auto|].
    intros [?|[?|(k & _ & HPk & _)]]; auto. by rewrite Hno in HPk.
  - intros i Hi Hp. left. by apply K5.
Qed.

Lemma copyuvm_run s pgdir sz free P :
  us_ok kend s pgdir free P -> 0 <= sz <= KERNBASE -> (forall k, 0 <= k < pages sz -> P k = true) ->
  exists r s' free', copyuvm kend kdata pgdir sz s = Ret r s' /\
    ((r ∈ free /\ copied s s' pgdir r free free' (pages sz)) \/
     (r = 0 /\ Z.of_nat (length free) < copy_need (pages sz) /\ (forall p, p ∈ free' <-> p ∈ free))) /\
    only (fun p => p ∈ free) (kbytes s) (kbytes s') /\ fl_rep kend s' free' /\ (forall p, p ∈ free' -> p ∈ free).
Proof.
  intros Hus Hsz HP. unfold copyuvm.
  destruct (setupkvm_run s free (us_rep _ _ _ _ _ Hus)) as (d & s1 & f1 & Hk & Ho & [Hks|(-> & Hlen & Hr & Hf)]); mstep Hk.
  - pose proof (copied_start s s1 pgdir d free f1 Ho Hks) as Hc.
    destruct (Z.eqb_spec d 0) as [->|_]; [destruct (pt_dir _ _ _ _ (us_pt _ _ _ _ _ (ks_us _ _ _ _ _ Hks))) as (_ & _ & _ & ?); lia|].
    destruct (copyuvm_loop_ok s pgdir d free P sz Hus Hsz HP (S (Z.to_nat (sz / PGSIZE))) 0 s1 f1 Hc)
      as (r & s' & f' & Hrun & Hcase); [dlia|dlia|].
    exists r, s', f'. split; [exact Hrun|]. destruct Hcase as [[-> Hc']|(-> & H1 & H2 & H3 & H4)].
    + split; [left; split; [apply Hks|done]|]. destruct Hc' as [C1 C2 C3 _ _ _]. split_and!; [done|apply C1|].
      intros p Hp. apply C3. by left.
    + split; [by right|]. split_and!; [done|done|]. intros p. apply H3.
  - exists 0, s1, f1. split; [done|]. split; [right; split_and!; try done; unfold copy_need; dlia|].
    split_and!; [done|done|]. intros p. apply Hf.
Qed.

(** C10. [copyuvm] of an address space whose first [sz] bytes are mapped returns.
    Either it returns a directory out of the free list that has the kernel's
    map and, for every page below [sz], a page of its own with the flags and,
    byte for byte, the contents of the parent's page, and no other user page
    (the free pages are divided between the new space and those that stay
    free); or it returns 0 and the same pages are free as before, which happens
    only when fewer than [copy_need] pages were free. In both cases only pages
    that were free are written, and the parent's entries and bytes are
    unchanged. *)
Theorem copyuvm_copies s pgdir sz free P :
  us_ok kend s pgdir free P -> 0 <= sz <= KERNBASE -> (forall k, 0 <= k < pages sz -> P k = true) ->
  exists r s' free', copyuvm kend kdata pgdir sz s = Ret r s' /\
    ((r ∈ free /\ copied s s' pgdir r free free' (pages sz)) \/
     (r = 0 /\ Z.of_nat (length free) < copy_need (pages sz) /\ (forall p, p ∈ free' <-> p ∈ free))) /\
    only (fun p => p ∈ free) (kbytes s) (kbytes s') /\
    us_ok kend s' pgdir free' P /\
    (forall va, pte_at (kbytes s') pgdir va = pte_at (kbytes s) pgdir va) /\
    (forall k a, 0 <= k < UPAGES -> P k = true -> inpg (upg (kbytes s) pgdir k) a ->
       rd8 (kbytes s') a = rd8 (kbytes s) a).
Proof.
  intros Hus Hsz HP. destruct (copyuvm_run s pgdir sz free P Hus Hsz HP) as (r & s' & f' & Hrun & Hcase & Ho & Hr & Hsub).
  exists r, s', f'. split; [done|]. split; [done|].
  destruct (us_frame s s' pgdir free f' P Hus Hr Hsub Ho) as (H1 & H2 & _ & H3). split_and!; done.
Qed.

(** ** [clearpteu] *)

Lemma clear_u e :
  let v := Z.land e (Z.lnot PTE_U) in
  PTE_ADDR v = PTE_ADDR e /\ has v PTE_P = has e PTE_P /\ has v PTE_U = false.
Proof. cbv zeta. unfold PTE_ADDR, has. rewrite <- !Z.land_assoc. split_and!; try done. by rewrite Z.land_0_r. Qed.

(** Storing an entry with the frame and the present bit of the old one. *)
Lemma store_flags pgdir k s free P v :
  us_ok kend s pgdir free P -> 0 <= k < UPAGES -> P k = true -> 0 <= v < 4294967296 ->
  PTE_ADDR v = PTE_ADDR (upte (kbytes s) pgdir k) -> has v PTE_P = has (upte (kbytes s) pgdir k) PTE_P ->
  pde_p (kbytes s) pgdir (PDX (k * PGSIZE)) = true ->
  let s' := set_kbytes (wr32 (kbytes s) (slot (kbytes s) pgdir (k * PGSIZE)) v) s in
  us_ok kend s' pgdir free P /\ upte (kbytes s') pgdir k = v /\ upg (kbytes s') pgdir k = upg (kbytes s) pgdir k /\
  (forall va, 0 <= va < 4294967296 -> va / PGSIZE <> k -> pte_at (kbytes s') pgdir va = pte_at (kbytes s) pgdir va) /\
  only (ptpage (kbytes s) pgdir) (kbytes s) (kbytes s').
Proof.
  intros [Hr Hok Hmap Hpg Hinj] Hk HPk Hv Hva Hvp Hpp s'.
  destruct (store_slot kend _ _ (k * PGSIZE) v _ Hok Hpp ltac:(lia) Hv) as (Hok' & Hd & Hset & _).
  destruct (pt_extends_store kend s pgdir (k * PGSIZE) v free Hr Hok Hpp ltac:(lia) Hv) as [_ Hr' _ Hout _ _].
  fold s' in Hr', Hout. assert (Hu : forall j, 0 <= j < UPAGES -> upte (kbytes s') pgdir j = if j =? k then v else upte (kbytes s) pgdir j).
  { intros j Hj. unfold upte. cbn [s' kbytes set_kbytes]. rewrite Hset by lia. rewrite !Z.div_mul by lia. done. }
  assert (Hg : forall j, 0 <= j < UPAGES -> upg (kbytes s') pgdir j = upg (kbytes s) pgdir j).
  { intros j Hj. unfold upg. rewrite Hu by done. destruct (Z.eqb_spec j k) as [->|_]; [by rewrite Hva|done]. }
  pose proof (ptpage_eq (kbytes s) (kbytes s') pgdir Hd) as Hpt.
  split_and!; [split; [done|done| | |]| | | |].
  - intros j Hj. rewrite Hu by done. destruct (Z.eqb_spec j k) as [->|_]; [rewrite Hvp|]; by apply Hmap.
  - intros j Hj HP. rewrite Hg, Hpt by done. by apply Hpg.
  - intros i j Hi Hj HPi HPj. rewrite !Hg by done. by apply Hinj.
  - by rewrite Hu, Z.eqb_refl.
  - by apply Hg.
  - intros va Hva' Hne. cbn [s' kbytes set_kbytes]. rewrite Hset, Z.div_mul by lia. by rewrite (proj2 (Z.eqb_neq _ _) Hne).
  - intros a Ha. apply Hout. intros p Hp. by apply Ha, Hpt.
Qed.

(** [clearpteu] of a mapped user page takes the user's access to it away: the
    page stays mapped to the same memory and keeps its contents, the entries of
    all other addresses stay, and only the tables of the directory are written. *)
Theorem clearpteu_clears pgdir k s free P :
  us_ok kend s pgdir free P -> 0 <= k < UPAGES -> P k = true ->
  exists s', clearpteu pgdir (k * PGSIZE) s = Ret tt s' /\ us_ok kend s' pgdir free P /\
    upg (kbytes s') pgdir k = upg (kbytes s) pgdir k /\ uacc (kbytes s') pgdir k = false /\
    (forall va, 0 <= va < 4294967296 -> va / PGSIZE <> k -> pte_at (kbytes s') pgdir va = pte_at (kbytes s) pgdir va) /\
    only (ptpage (kbytes s) pgdir) (kbytes s) (kbytes s').
Proof.
  intros Hus Hk HPk. unfold clearpteu.
  assert (Hpp : pde_p (kbytes s) pgdir (PDX (k * PGSIZE)) = true).
  { pose proof (us_map _ _ _ _ _ Hus k Hk) as Hm. rewrite HPk in Hm. unfold upte, pte_at in Hm.
    by destruct (pde_p (kbytes s) pgdir (PDX (k * PGSIZE))). }
  mstep (walk_noalloc pgdir (k * PGSIZE) s).
  destruct (slot_pos kend kend_high _ _ _ _ (us_pt _ _ _ _ _ Hus) Hpp) as [_ Hs0].
  destruct (Z.eqb_spec (slot (kbytes s) pgdir (k * PGSIZE)) 0) as [|_]; [done|].
  unfold load, bind, gets, store, modify.
  replace (rd32 (kbytes s) (slot (kbytes s) pgdir (k * PGSIZE))) with (upte (kbytes s) pgdir k)
    by (unfold upte, pte_at, slot; by rewrite Hpp).
  assert (0 <= upte (kbytes s) pgdir k < 4294967296) as He by (unfold upte, pte_at; rewrite Hpp; apply rd32_range).
  destruct (clear_u (upte (kbytes s) pgdir k)) as (Hva & Hvp & Hvu). set (v := Z.land _ (Z.lnot PTE_U)) in *.
  assert (Hv : 0 <= v < 4294967296).
  { unfold v. rewrite Z.land_comm. rewrite <- (Z.mod_small _ (2 ^ 32) He).
    rewrite <- Z.land_ones, Z.land_assoc, Z.land_ones by lia. apply Z.mod_pos_bound. lia. }
  destruct (store_flags pgdir k s free P v Hus Hk HPk Hv Hva Hvp Hpp) as (H1 & H2 & H3 & H4 & H5).
  eexists. split; [done|]. split_and!; try done. unfold uacc. by rewrite H2, Hvu, andb_false_r.
Qed.

End Kern.

(** ** A concrete address space with room to copy it *)

(** [vm1], with its two pages, and 80 more free pages. *)
Fixpoint more (n : nat) (s : kmem) : kmem :=
  match n with O => s | S n' => kfree_state (vpage (Z.of_nat n' + 4)) (more n' s) end.
Fixpoint more_free (n : nat) : list Z :=
  match n with O => [] | S n' => vpage (Z.of_nat n' + 4) :: more_free n' end.

Lemma more_page i : 0 <= i <= 100 -> page_ok kend0 (vpage i).
Proof.
  intros Hi. unfold vpage, page0, page_ok, V2P, kend0. rewrite u32_small by lia. split_and!; try lia. dlia.
Qed.

Lemma more_high n q : q ∈ more_free n -> vpage 4 <= q < vpage (Z.of_nat n + 4).
Proof.
  induction n as [|n IH]; cbn [more_free]; [by intros ?%elem_of_nil|].
  intros [->|Hq]%elem_of_cons; [unfold vpage; lia|]. specialize (IH Hq). unfold vpage in *. lia.
Qed.

Lemma more_ok f P n : (n <= 80)%nat ->
  us_ok kend0 vm1 (vpage 0) f P -> (forall q, q ∈ f \/ owned (kbytes vm1) (vpage 0) P q -> q <= vpage 3) ->
  us_ok kend0 (more n vm1) (vpage 0) (more_free n ++ f) P /\
  (forall q, owned (kbytes (more n vm1)) (vpage 0) P q -> q <= vpage 3).
Proof.
  intros Hn Hus Hlow. induction n as [|n IH]; cbn [more more_free].
  { split; [done|]. intros q Hq. apply Hlow. by right. }
  destruct IH as [Hus1 Hl1]; [lia|]. set (s := more n vm1) in *. set (p := vpage (Z.of_nat n + 4)).
  assert (Hp : vpage 3 < p) by (unfold p, vpage; lia).
  destruct (give_page kend0 s (vpage 0) _ P p Hus1) as (_ & Hus2 & Hpte & Hpt).
  - apply more_page. lia.
  - rewrite elem_of_app. intros [Hx%more_high|Hx]; [unfold p in *; lia|]. specialize (Hlow p (or_introl Hx)). lia.
  - intros Hx. specialize (Hl1 p (or_introl Hx)). lia.
  - intros k Hk HPk E. assert (p <= vpage 3); [|lia]. apply Hl1. right. by exists k.
  - split; [exact Hus2|]. intros q [Hq|(k & Hk & HPk & ->)]; apply Hl1; [left; by apply Hpt|right].
    exists k. split_and!; try done; try lia. unfold upg, upte. by rewrite Hpte.
Qed.

(** Two user pages, and 80 free pages and more. *)
Definition vm2 : kmem := more 80 vm1.

Lemma vm2_ok : exists f, us_ok kend0 vm2 (vpage 0) f (fun k => false || prange 0 2 k) /\ (80 <= length f)%nat.
Proof.
  destruct vm1_grows as [f Hg]. exists (more_free 80 ++ f). split; [|rewrite length_app; cbn; lia].
  apply more_ok; [lia|apply Hg|].
  assert (Hv : forall q, q ∈ vfree0 -> q <= vpage 3).
  { intros q. unfold vfree0. rewrite !elem_of_cons, elem_of_nil. unfold vpage, page0. intros H. lia. }
  intros q [Hq|[Hq|(k & Hk & HP & ->)]].
  - apply Hv. by apply Hg.
  - destruct (g_pt _ _ _ _ _ _ _ _ _ Hg q Hq) as [[->|(i & Hi & Hp & _)]|Hx]; [unfold vpage; lia| |by apply Hv].
    exfalso. revert Hp. unfold pde_p. by rewrite vm0_dir.
  - apply Hv, (g_from _ _ _ _ _ _ _ _ _ Hg); [lia|done].
Qed.

Lemma freevm_frees_witness :
  exists s' f', freevm kend0 (vpage 0) vm1 = Ret tt s' /\ fl_rep kend0 s' f' /\ NoDup f' /\ vpage 0 ∈ f'.
Proof.
  destruct vm1_grows as [f Hg].
  destruct (freevm_frees kend0 kend0_high (vpage 0) vm1 f _ (g_us _ _ _ _ _ _ _ _ _ Hg)) as (s' & f' & H1 & H2 & H3 & H4 & _).
  exists s', f'. split; [exact H1|]. split; [exact H2|]. split; [exact H3|]. apply H4. right; left; left. reflexivity.
Defined.

(** The kernel's data, two pages after its text. *)
Definition kdata0 : Z := KERNLINK + 2 * PGSIZE.

Lemma setupkvm_maps_witness :
  exists r s', setupkvm kend0 kdata0 vm2 = Ret r s' /\ r <> 0 /\
    pte_at (kbytes s') r KERNLINK = 1048576 + 1 /\ pte_at (kbytes s') r kdata0 = 1048576 + 8192 + 3.
Proof.
  destruct vm2_ok as (f & Hus & Hlen).
  destruct (setupkvm_maps kend0 kdata0 kend0_high ltac:(reflexivity) ltac:(unfold kdata0; lia) vm2 f (us_rep _ _ _ _ _ Hus))
    as (r & s' & f' & Hrun & _ & [(Hin & Hus' & Hpte & _)|(_ & Hl & _)]); [|lia].
  exists r, s'. split; [exact Hrun|]. split.
  - intros ->. destruct (pt_dir _ _ _ _ (us_pt _ _ _ _ _ Hus')) as (_ & _ & _ & ?). lia.
  - split; (rewrite Hpte; [reflexivity|unfold kdata0; lia]).
Defined.

Lemma copyuvm_copies_witness :
  exists r s' f', copyuvm kend0 kdata0 (vpage 0) 5000 vm2 = Ret r s' /\ r <> 0 /\
    us_ok kend0 s' r f' (prange 0 2) /\ us_ok kend0 s' (vpage 0) f' (prange 0 2) /\
    rd8 (kbytes s') (upg (kbytes s') r 1 + 17) = rd8 (kbytes vm2) (upg (kbytes vm2) (vpage 0) 1 + 17).
Proof.
  destruct vm2_ok as (f & Hus & Hlen).
  destruct (copyuvm_copies kend0 kdata0 kend0_high ltac:(reflexivity) ltac:(unfold kdata0; lia) vm2 (vpage 0) 5000 f _ Hus)
    as (r & s' & f' & Hrun & Hc & _ & Hus' & _); [lia| |].
  - change (pages 5000) with 2. intros k Hk. unfold prange. range_cases; reflexivity || lia.
  - change (pages 5000) with 2 in Hc. change (copy_need 2) with 68 in Hc. destruct Hc as [[Hin Hc]|(_ & Hl & _)]; [|lia].
    exists r, s', f'. split; [exact Hrun|]. pose proof (c_us _ _ _ _ _ _ _ _ _ Hc) as Hu. split.
    + intros ->. destruct (pt_dir _ _ _ _ (us_pt _ _ _ _ _ Hu)) as (_ & _ & _ & ?). lia.
    + split; [exact Hu|]. split; [exact Hus'|].
      destruct (c_data _ _ _ _ _ _ _ _ _ Hc 1 ltac:(lia)) as [_ Hd]. apply Hd. lia.
Defined.

Lemma clearpteu_clears_witness :
  exists s', clearpteu (vpage 0) PGSIZE vm1 = Ret tt s' /\ uacc (kbytes s') (vpage 0) 1 = false.
Proof.
  destruct vm1_grows as [f Hg].
  destruct (clearpteu_clears kend0 kend0_high (vpage 0) 1 vm1 f _ (g_us _ _ _ _ _ _ _ _ _ Hg)) as (s' & H1 & _ & _ & H2 & _);
    [lia|reflexivity|].
  exists s'. split; [exact H1|exact H2].
Defined.
