(* ===== verification/File.v ===== *)
(** Open files: xv6-public/file.c, with [pipealloc] of pipe.c.

    The state joins the layers a file operation reaches: the page allocator
    (a pipe lives in a page), the file system, the pipes by the address of
    their page, and the table of open files. [outst] counts the calls of
    [begin_op] by the caller that no [end_op] has matched yet; the log's own
    [outstanding] is in the file system's state.

    A pipe operation that would block ends in [Sleep]; Pipe.v follows it
    further. *)

From Stdlib Require Import ZArith Lia.
From stdpp Require Import base strings gmap numbers list.
From S2P Require Import Prelude KString BlockLayer Bio Log Kalloc Fs Pipe.

Open Scope Z_scope.

Abbreviation NFILE := 100%nat (only parsing).
Abbreviation NOFILE := 16 (only parsing).

Inductive ftype := FD_NONE | FD_PIPE | FD_INODE.

#[export] Instance ftype_eq_dec : EqDecision ftype.
Proof. solve_decision. Defined.

Record file := {
  f_type : ftype; f_ref : Z; f_readable : bool; f_writable : bool;
  f_pipe : Z; f_ip : nat; f_off : Z;
}.
#[export] Instance file_inhabited : Inhabited file :=
  populate {| f_type := FD_NONE; f_ref := 0; f_readable := false; f_writable := false;
              f_pipe := 0; f_ip := 0; f_off := 0 |}.

Definition set_f_ref (v : Z) (f : file) : file :=
  {| f_type := f_type f; f_ref := v; f_readable := f_readable f; f_writable := f_writable f;
     f_pipe := f_pipe f; f_ip := f_ip f; f_off := f_off f |}.
Definition set_f_type (t : ftype) (f : file) : file :=
  {| f_type := t; f_ref := f_ref f; f_readable := f_readable f; f_writable := f_writable f;
     f_pipe := f_pipe f; f_ip := f_ip f; f_off := f_off f |}.
Definition set_f_off (v : Z) (f : file) : file :=
  {| f_type := f_type f; f_ref := f_ref f; f_readable := f_readable f; f_writable := f_writable f;
     f_pipe := f_pipe f; f_ip := f_ip f; f_off := v |}.

Record kfile := {
  kf_km : kmem;
  kf_fs : fs;
  pipes : gmap Z pipe;
  ftable : list file;
  outst : Z;
}.

Definition set_km (x : kmem) (s : kfile) : kfile :=
  {| kf_km := x; kf_fs := kf_fs s; pipes := pipes s; ftable := ftable s; outst := outst s |}.
Definition set_fs (x : fs) (s : kfile) : kfile :=
  {| kf_km := kf_km s; kf_fs := x; pipes := pipes s; ftable := ftable s; outst := outst s |}.
Definition set_pipes (x : gmap Z pipe) (s : kfile) : kfile :=
  {| kf_km := kf_km s; kf_fs := kf_fs s; pipes := x; ftable := ftable s; outst := outst s |}.
Definition set_ftable (x : list file) (s : kfile) : kfile :=
  {| kf_km := kf_km s; kf_fs := kf_fs s; pipes := pipes s; ftable := x; outst := outst s |}.
Definition set_outst (x : Z) (s : kfile) : kfile :=
  {| kf_km := kf_km s; kf_fs := kf_fs s; pipes := pipes s; ftable := ftable s; outst := x |}.

(** Run an operation of one part on the whole. *)
Definition part {S T A} (g : S -> T) (p : T -> S -> S) (m : M T A) : M S A :=
  fun s => match m (g s) with
           | Ret a t => Ret a (p t s)
           | Panic msg => Panic msg
           | Sleep c t => Sleep c (p t s)
           | OutOfFuel => OutOfFuel
           end.
Definition on_km {A} (m : M kmem A) : M kfile A := part kf_km set_km m.
Definition on_fs {A} (m : M fs A) : M kfile A := part kf_fs set_fs m.

Definition fl (s : kfile) (f : nat) : file := ftable s !!! f.
Definition upd_file (f : nat) (g : file -> file) (s : kfile) : kfile :=
  set_ftable (<[f := g (fl s f)]> (ftable s)) s.

(** [begin_op] and [end_op], counted for their caller. *)
Definition begin_txn : M kfile unit :=
  on_fs fbegin_op ;;; modify (fun s => set_outst (outst s + 1) s).
Definition end_txn : M kfile unit :=
  on_fs fend_op ;;; modify (fun s => set_outst (outst s - 1) s).

(** The first entry of the table with no reference. *)
Fixpoint filealloc_scan (l : list file) (i : nat) : option nat :=
  match l with
  | [] => None
  | f :: l' => if f_ref f =? 0 then Some i else filealloc_scan l' (S i)
  end.

Definition filealloc : M kfile (option nat) :=
  let* s := get in
  match filealloc_scan (ftable s) 0 with
  | Some i => modify (upd_file i (set_f_ref 1)) ;;; ret (Some i)
  | None => ret None
  end.

Definition filedup (f : nat) : M kfile nat :=
  let* s := get in
  if f_ref (fl s f) <? 1 then panic "filedup"
  else modify (upd_file f (fun x => set_f_ref (f_ref x + 1) x)) ;;; ret f.

Section File.

(** [end] of the kernel image, and the device drivers (see Fs.v). *)
Variable kend : Z.
Variable devsw_read : Z -> option (nat -> Z -> M fs (Z * list Z)).
Variable devsw_write : Z -> option (nat -> list Z -> M fs Z).

(** [pipeclose] of the pipe in page [p]; the wake-ups change nothing here. *)
Definition pipe_close (p : Z) (writable : bool) : M kfile unit :=
  let* s := get in
  match pipes s !! p with
  | None => panic "fault: pipeclose of no pipe"
  | Some x =>
      let '(x', _, fr) := pipeclose x writable in
      if fr : bool then
        modify (fun s => set_pipes (delete p (pipes s)) s) ;;; on_km (kfree kend p)
      else modify (fun s => set_pipes (<[p := x']> (pipes s)) s)
  end.

Definition fileclose (f : nat) : M kfile unit :=
  let* s := get in
  if f_ref (fl s f) <? 1 then panic "fileclose"
  else
    modify (upd_file f (fun x => set_f_ref (f_ref x - 1) x)) ;;;
    let* s := get in
    let ff := fl s f in
    if 0 <? f_ref ff then ret tt
    else
      modify (upd_file f (fun x => set_f_type FD_NONE (set_f_ref 0 x))) ;;;
      match f_type ff with
      | FD_PIPE => pipe_close (f_pipe ff) (f_writable ff)
      | FD_INODE => begin_txn ;;; on_fs (iput (f_ip ff)) ;;; end_txn
      | FD_NONE => ret tt
      end.

(** The return value and, on success, what is stored at [st]. *)
Definition filestat (f : nat) : M kfile (Z * option stat) :=
  let* s := get in
  match f_type (fl s f) with
  | FD_INODE =>
      let ip := f_ip (fl s f) in
      on_fs (ilock ip) ;;;
      let* st := on_fs (stati ip) in
      on_fs (iunlock ip) ;;;
      ret (0, Some st)
  | _ => ret (-1, None)
  end.

(** Continue with the result of a pipe section. *)
Definition pipe_section {A B} (p : Z) (x : section A) (k : Z -> A -> B) : M kfile B :=
  match x with
  | SRet r i p' _ => modify (fun s => set_pipes (<[p := p']> (pipes s)) s) ;;; ret (k r i)
  | SSleep c _ p' _ =>
      modify (fun s => set_pipes (<[p := p']> (pipes s)) s) ;;;
      sleep_on ((match c with ChRead => "nread" | ChWrite => "nwrite" end)%string, p)
  end.

(** [fileread] of [n] bytes by a process with the given [killed] flag: the
    return value and the bytes stored at [addr]. *)
Definition fileread (killed : bool) (f : nat) (n : Z) : M kfile (Z * list Z) :=
  let* s := get in
  let x := fl s f in
  if negb (f_readable x) then ret (-1, [])
  else match f_type x with
  | FD_PIPE =>
      match pipes s !! f_pipe x with
      | None => panic "fault: piperead of no pipe"
      | Some p => pipe_section (f_pipe x) (piperead_sec killed (Z.to_nat n) p) (fun r l => (r, l))
      end
  | FD_INODE =>
      on_fs (ilock (f_ip x)) ;;;
      let* r := on_fs (readi devsw_read (f_ip x) (f_off x) n) in
      when (0 <? r.1) (modify (upd_file f (fun x => set_f_off (u32 (f_off x + r.1)) x))) ;;;
      on_fs (iunlock (f_ip x)) ;;;
      ret r
  | FD_NONE => panic "fileread"
  end.

(** The largest write in one transaction. *)
Definition write_max : Z := ((MAXOPBLOCKS - 1 - 1 - 2) / 2) * 512.

(** The loop of [filewrite]; returns the final [i]. *)
Fixpoint filewrite_loop (fuel : nat) (f : nat) (addr : list Z) (i : Z) : M kfile Z :=
  let n := Z.of_nat (length addr) in
  if i <? n then
    match fuel with
    | O => out_of_fuel
    | S fuel' =>
        let n1 := if write_max <? n - i then write_max else n - i in
        begin_txn ;;;
        let* s := get in
        let ip := f_ip (fl s f) in
        on_fs (ilock ip) ;;;
        let* r := on_fs (writei devsw_write ip (slice addr i n1) (f_off (fl s f))) in
        when (0 <? r) (modify (upd_file f (fun x => set_f_off (u32 (f_off x + r)) x))) ;;;
        on_fs (iunlock ip) ;;;
        end_txn ;;;
        if r <? 0 then ret i
        else if negb (r =? n1) then panic "short filewrite"
        else filewrite_loop fuel' f addr (i + r)
    end
  else ret i.

(** [filewrite] of the bytes [addr]; [n] is their number. *)
Definition filewrite (killed : bool) (f : nat) (addr : list Z) : M kfile Z :=
  let n := Z.of_nat (length addr) in
  let* s := get in
  let x := fl s f in
  if negb (f_writable x) then ret (-1)
  else match f_type x with
  | FD_PIPE =>
      match pipes s !! f_pipe x with
      | None => panic "fault: pipewrite of no pipe"
      | Some p => pipe_section (f_pipe x) (pipewrite_sec killed addr 0 p) (fun r _ => r)
      end
  | FD_INODE =>
      let* i := filewrite_loop (length addr) f addr 0 in
      ret (if i =? n then n else -1)
  | FD_NONE => panic "filewrite"
  end.

(** [pipealloc]: the read and the write end, or -1. The fields of the new
    pipe that are not set keep what the page held ([junk]). *)
Definition mk_pipe_end (p : Z) (w : bool) (x : file) : file :=
  {| f_type := FD_PIPE; f_ref := f_ref x; f_readable := negb w; f_writable := w;
     f_pipe := p; f_ip := f_ip x; f_off := f_off x |}.

Definition opt_close (f : option nat) : M kfile unit :=
  match f with Some f => fileclose f | None => ret tt end.

Definition pipealloc (junk : list Z) : M kfile (option (nat * nat)) :=
  let* f0 := filealloc in
  match f0 with
  | None => ret None
  | Some f0 =>
      let* f1 := filealloc in
      match f1 with
      | None => opt_close (Some f0) ;;; ret None
      | Some f1 =>
          let* p := on_km kalloc in
          if p =? 0 then opt_close (Some f0) ;;; opt_close (Some f1) ;;; ret None
          else
            modify (fun s => set_pipes (<[p := pipe_init junk]> (pipes s)) s) ;;;
            modify (upd_file f0 (mk_pipe_end p false)) ;;;
            modify (upd_file f1 (mk_pipe_end p true)) ;;;
            ret (Some (f0, f1))
      end
  end.

End File.
