(* ===== verification/SysfileSpec.v ===== *)
(** Properties of the file-system calls of Sysfile.v. *)

From Stdlib Require Import ZArith Lia.
From stdpp Require Import base strings gmap numbers list.
From S2P Require Import Prelude KString BlockLayer Bio Log Kalloc Fs FsAlloc Pipe File Sysfile.

Open Scope Z_scope.

(** An operation of one part keeps every predicate that does not read it. *)
Lemma triple_part {S T A} (g : S -> T) (p : T -> S -> S) (P : S -> Prop) (m : M T A) :
  (forall s t, P s -> P (p t s)) -> triple P (part g p m) (fun _ => P).
Proof.
  intros H s a s' HP E. unfold part in E. destruct (m (g s)); simplify_eq. by apply H.
Qed.

(** ** Calls *)

Section Calls.

Variable kend : Z.
Variable devsw_read : Z -> option (nat -> Z -> M fs (Z * list Z)).
Variable devsw_write : Z -> option (nat -> list Z -> M fs Z).

(** The calls of sysfile.c with their arguments ([sys_exec] is in Exec.v). *)
Inductive call :=
  | CDup (fd : option Z)
  | CRead (fd n : option Z)
  | CWrite (fd : option Z) (buf : option (list Z))
  | CClose (fd : option Z)
  | CFstat (fd : option Z) (st : bool)
  | CLink (old new : option (list Z))
  | CUnlink (path : option (list Z))
  | COpen (path : option (list Z)) (omode : option Z)
  | CMkdir (path : option (list Z))
  | CMknod (path : option (list Z)) (major minor : option Z)
  | CChdir (path : option (list Z))
  | CPipe (fd : bool) (junk : list Z).

Definition discard {A} (m : M usys A) : M usys unit := m ;;; ret tt.

Definition run_call (c : call) : M usys unit :=
  match c with
  | CDup fd => discard (sys_dup fd)
  | CRead fd n => discard (sys_read devsw_read fd n)
  | CWrite fd buf => discard (sys_write devsw_write fd buf)
  | CClose fd => discard (sys_close kend fd)
  | CFstat fd st => discard (sys_fstat fd st)
  | CLink old new => discard (sys_link devsw_read devsw_write old new)
  | CUnlink path => discard (sys_unlink devsw_read devsw_write path)
  | COpen path omode => discard (sys_open kend devsw_read devsw_write path omode)
  | CMkdir path => discard (sys_mkdir devsw_read devsw_write path)
  | CMknod path a b => discard (sys_mknod devsw_read devsw_write path a b)
  | CChdir path => discard (sys_chdir devsw_read path)
  | CPipe fd junk => discard (sys_pipe kend fd junk)
  end.

(** ** Transactions *)

Definition txn (d : Z) (s : usys) : Prop := outst (uf s) = d.
Definition ktxn (d : Z) (s : kfile) : Prop := outst s = d.

Lemma ktxn_on_fs {A} d (m : M fs A) : triple (ktxn d) (on_fs m) (fun _ => ktxn d).
Proof. by apply triple_part. Qed.
Lemma ktxn_begin d : triple (ktxn d) begin_txn (fun _ => ktxn (d + 1)).
Proof.
  eapply triple_bind; [apply ktxn_on_fs|]. intros ?. apply triple_modify. unfold ktxn. cbn. lia.
Qed.
Lemma ktxn_end d : triple (ktxn d) end_txn (fun _ => ktxn (d - 1)).
Proof.
  eapply triple_bind; [apply ktxn_on_fs|]. intros ?. apply triple_modify. unfold ktxn. cbn. lia.
Qed.
Lemma ktxn_on_km {A} d (m : M kmem A) : triple (ktxn d) (on_km m) (fun _ => ktxn d).
Proof. by apply triple_part. Qed.

(** An operation on the files, seen from the process. *)
Lemma triple_on_uf {A} (P : kfile -> Prop) (m : M kfile A) (Q : A -> kfile -> Prop) :
  triple P m Q -> triple (fun s => P (uf s)) (on_uf m) (fun a s => Q a (uf s)).
Proof.
  intros H s a s' HP E. unfold on_uf, part in E. destruct (m (uf s)) eqn:Em; simplify_eq.
  by apply (H _ _ _ HP Em).
Qed.

Lemma txn_on_uf {A} d e (m : M kfile A) :
  triple (ktxn d) m (fun _ => ktxn e) -> triple (txn d) (on_uf m) (fun _ => txn e).
Proof. apply triple_on_uf. Qed.
Lemma txn_on_ufs {A} d (m : M fs A) : triple (txn d) (on_ufs m) (fun _ => txn d).
Proof. apply txn_on_uf, ktxn_on_fs. Qed.
Lemma txn_begin d : triple (txn d) u_begin_op (fun _ => txn (d + 1)).
Proof. apply txn_on_uf, ktxn_begin. Qed.
Lemma txn_end d : triple (txn d) u_end_op (fun _ => txn (d - 1)).
Proof. apply txn_on_uf, ktxn_end. Qed.

Create HintDb txn.
#[local] Hint Resolve ktxn_begin ktxn_end ktxn_on_fs ktxn_on_km txn_begin txn_end txn_on_ufs : txn.

Ltac txn_fin := intros; unfold txn, ktxn in *; cbn [outst uf set_uf set_ofile upd_file set_ftable set_pipes set_km set_fs] in *; lia.
Ltac txn_leaf :=
  first [ solve [auto with txn]
        | eapply triple_weaken; [solve [eauto with txn] | intros ? Hs; exact Hs | txn_fin] ].
Ltac txn_walk := walk ltac:(txn_leaf) ltac:(txn_fin).

Lemma ktxn_filealloc d : triple (ktxn d) filealloc (fun _ => ktxn d).
Proof. unfold filealloc. txn_walk. Qed.
Lemma ktxn_filedup d f : triple (ktxn d) (filedup f) (fun _ => ktxn d).
Proof. unfold filedup. txn_walk. Qed.
Lemma ktxn_pipe_close d p w : triple (ktxn d) (pipe_close kend p w) (fun _ => ktxn d).
Proof. unfold pipe_close. txn_walk. Qed.
#[local] Hint Resolve ktxn_filealloc ktxn_filedup ktxn_pipe_close : txn.
Lemma ktxn_fileclose d f : triple (ktxn d) (fileclose kend f) (fun _ => ktxn d).
Proof. unfold fileclose. txn_walk. Qed.
Lemma ktxn_filestat d f : triple (ktxn d) (filestat f) (fun _ => ktxn d).
Proof. unfold filestat. txn_walk. Qed.
Lemma ktxn_section {A B} d p x (k : Z -> A -> B) : triple (ktxn d) (pipe_section p x k) (fun _ => ktxn d).
Proof. unfold pipe_section. txn_walk. Qed.
#[local] Hint Resolve ktxn_fileclose ktxn_filestat ktxn_section : txn.
Lemma ktxn_fileread d b f n : triple (ktxn d) (fileread devsw_read b f n) (fun _ => ktxn d).
Proof. unfold fileread. txn_walk. Qed.

Lemma ktxn_filewrite_loop d n f addr i :
  triple (ktxn d) (filewrite_loop devsw_write n f addr i) (fun _ => ktxn d).
Proof.
  revert i. induction n as [|n IH]; intros i; cbn [filewrite_loop]; [txn_walk|].
  cbv zeta. destruct (i <? _); [|txn_walk].
  eapply triple_bind; [apply ktxn_begin|intros ?].
  eapply (triple_bind _ (fun _ => ktxn (d + 1))); [apply triple_get; txn_fin|intros s].
  do 4 (eapply (triple_bind _ (fun _ => ktxn (d + 1))); [solve [txn_walk]|intros ?]).
  eapply (triple_bind _ (fun _ => ktxn d)); [solve [txn_walk]|intros _].
  destruct (_ <? 0); [txn_walk|]. destruct (negb _); [txn_walk|]. apply IH.
Qed.
#[local] Hint Resolve ktxn_fileread ktxn_filewrite_loop : txn.
Lemma ktxn_filewrite d b f addr : triple (ktxn d) (filewrite devsw_write b f addr) (fun _ => ktxn d).
Proof. unfold filewrite. txn_walk. Qed.
Lemma ktxn_opt_close d f : triple (ktxn d) (opt_close kend f) (fun _ => ktxn d).
Proof. unfold opt_close. txn_walk. Qed.
#[local] Hint Resolve ktxn_filewrite ktxn_opt_close : txn.
Lemma ktxn_pipealloc d junk : triple (ktxn d) (pipealloc kend junk) (fun _ => ktxn d).
Proof. unfold pipealloc. txn_walk. Qed.
#[local] Hint Resolve ktxn_pipealloc txn_on_uf : txn.

Lemma txn_modify_fs d g : triple (txn d) (on_ufs (modify g)) (fun _ => txn d).
Proof. apply txn_on_ufs. Qed.
Lemma txn_argfd d fd : triple (txn d) (argfd fd) (fun _ => txn d).
Proof. unfold argfd. txn_walk. Qed.
Lemma txn_fdalloc d f : triple (txn d) (fdalloc f) (fun _ => txn d).
Proof. unfold fdalloc. txn_walk. Qed.
Lemma txn_upd_file d f g : triple (txn d) (on_uf (modify (upd_file f g))) (fun _ => txn d).
Proof. apply txn_on_uf, triple_modify. txn_fin. Qed.
Lemma txn_uino d ip : triple (txn d) (uino ip) (fun _ => txn d).
Proof. apply triple_gets. txn_fin. Qed.
#[local] Hint Resolve txn_argfd txn_fdalloc txn_upd_file txn_uino : txn.

Lemma txn_link_bad d ip : triple (txn d) (link_bad ip) (fun _ => txn (d - 1)).
Proof. unfold link_bad. txn_walk. Qed.
Lemma txn_unlink_bad d ip : triple (txn d) (unlink_bad ip) (fun _ => txn (d - 1)).
Proof. unfold unlink_bad. txn_walk. Qed.
Lemma txn_create d path a b c :
  triple (txn d) (create devsw_read devsw_write path a b c) (fun _ => txn d).
Proof. unfold create. txn_walk. Qed.
Lemma txn_open_tail d ip m : triple (txn d) (open_tail kend ip m) (fun _ => txn (d - 1)).
Proof. unfold open_tail. txn_walk. Qed.
#[local] Hint Resolve txn_link_bad txn_unlink_bad txn_create txn_open_tail : txn.

Lemma txn_run_call d c : triple (txn d) (run_call c) (fun _ => txn d).
Proof.
  destruct c; cbn [run_call]; unfold discard;
    unfold sys_dup, sys_read, sys_write, sys_close, sys_fstat, sys_link, sys_unlink, sys_open,
      sys_mkdir, sys_mknod, sys_chdir, sys_pipe.
  all: txn_walk.
Qed.

(** ** Reference counts

    [kr o s]: the reference count of every entry of the open-file table is
    given by [o]. [rf o s]: it is the number of the caller's descriptors for
    the entry plus [o], the references from elsewhere. *)

Fixpoint fd_count (f : nat) (l : list (option nat)) : Z :=
  match l with
  | [] => 0
  | x :: l' => (if decide (x = Some f) then 1 else 0) + fd_count f l'
  end.

Definition kr (o : nat -> Z) (s : kfile) : Prop :=
  forall f, (f < length (ftable s))%nat -> f_ref (fl s f) = o f.
Definition plus1 (f : nat) (d : Z) (o : nat -> Z) (g : nat) : Z :=
  if decide (f = g) then o g + d else o g.
Definition cnt (o : nat -> Z) (l : list (option nat)) (f : nat) : Z := o f + fd_count f l.
Definition rf (o : nat -> Z) (s : usys) : Prop := kr (cnt o (ofile s)) (uf s).

Lemma fd_count_nonneg f l : 0 <= fd_count f l.
Proof. induction l as [|x l IH]; cbn; [lia|]. case_decide; lia. Qed.

Lemma fd_count_insert f l i x y :
  l !! i = Some y ->
  fd_count f (<[i := x]> l) =
  fd_count f l + (if decide (x = Some f) then 1 else 0) - (if decide (y = Some f) then 1 else 0).
Proof.
  revert i. induction l as [|z l IH]; intros [|i] H; simpl in *; simplify_eq; [lia|].
  rewrite IH by done. lia.
Qed.

Lemma kr_ext o o' s : (forall f, o f = o' f) -> kr o s -> kr o' s.
Proof. intros E H f Hf. rewrite <- E. by apply H. Qed.

Lemma fl_upd s f g i :
  (f < length (ftable s))%nat ->
  fl (upd_file f g s) i = if decide (f = i) then g (fl s f) else fl s i.
Proof.
  intros Hf. unfold fl, upd_file. cbn. case_decide as E; [subst i|].
  - by rewrite list_lookup_total_insert_eq.
  - by rewrite list_lookup_total_insert_ne.
Qed.

Lemma length_upd_file s f g : length (ftable (upd_file f g s)) = length (ftable s).
Proof. cbn. apply length_insert. Qed.

(** A change of one entry changes its count by [d]. *)
Lemma kr_upd o s f g d :
  f_ref (g (fl s f)) = f_ref (fl s f) + d -> kr o s -> kr (plus1 f d o) (upd_file f g s).
Proof.
  intros Eg H i Hi. rewrite length_upd_file in Hi. unfold plus1.
  destruct (decide (f < length (ftable s))%nat) as [Hf|Hf].
  - rewrite fl_upd by done. case_decide; subst; [|by apply H]. rewrite Eg. f_equal. by apply H.
  - rewrite decide_False by (intros ->; done). rewrite <- (H i Hi). f_equal. unfold fl, upd_file. cbn.
    by rewrite list_insert_ge by lia.
Qed.

Lemma kr_upd_same o s f g : (forall x, f_ref (g x) = f_ref x) -> kr o s -> kr o (upd_file f g s).
Proof.
  intros Eg H. eapply kr_ext; [|apply (kr_upd o s f g 0); [rewrite Eg; lia|done]].
  intros i. unfold plus1. case_decide; lia.
Qed.

Lemma filealloc_scan_some l i f :
  filealloc_scan l i = Some f -> (i <= f)%nat /\ exists x, l !! (f - i)%nat = Some x /\ f_ref x = 0.
Proof.
  revert i. induction l as [|x l IH]; intros i H; cbn in H; [done|].
  destruct (Z.eqb_spec (f_ref x) 0) as [E|E]; simplify_eq.
  - split; [lia|]. exists x. by rewrite Nat.sub_diag.
  - apply IH in H as (? & y & Hy & ?). split; [lia|]. exists y. split; [|done].
    by replace (f - i)%nat with (S (f - S i)) by lia.
Qed.

Definition kr_alloc (o : nat -> Z) (a : option nat) : kfile -> Prop :=
  match a with Some f => kr (plus1 f 1 o) | None => kr o end.

Lemma kr_filealloc o : triple (kr o) filealloc (kr_alloc o).
Proof.
  intros s a s' H E. unfold filealloc, bind, get in E.
  destruct (filealloc_scan (ftable s) 0) as [f|] eqn:Ef; [|by unfold ret in E; simplify_eq].
  unfold modify, ret in E. simplify_eq. apply filealloc_scan_some in Ef as (_ & x & Hx & E0).
  rewrite Nat.sub_0_r in Hx. apply kr_upd; [|done]. unfold fl. rewrite (list_lookup_total_correct _ _ _ Hx), E0. done.
Qed.
Lemma kr_filedup o f : triple (kr o) (filedup f) (fun _ => kr (plus1 f 1 o)).
Proof.
  intros s a s' H E. unfold filedup, bind, get in E. destruct (_ <? 1); [done|].
  unfold modify, ret in E. simplify_eq. by apply kr_upd.
Qed.

Lemma kr_on_fs {A} o (m : M fs A) : triple (kr o) (on_fs m) (fun _ => kr o).
Proof. by apply triple_part. Qed.
Lemma kr_begin o : triple (kr o) begin_txn (fun _ => kr o).
Proof. eapply triple_bind; [apply kr_on_fs|]. intros ?. by apply triple_modify. Qed.
Lemma kr_end o : triple (kr o) end_txn (fun _ => kr o).
Proof. eapply triple_bind; [apply kr_on_fs|]. intros ?. by apply triple_modify. Qed.
Lemma kr_on_km {A} o (m : M kmem A) : triple (kr o) (on_km m) (fun _ => kr o).
Proof. by apply triple_part. Qed.
Lemma kr_set_pipes o g : triple (kr o) (modify (fun s => set_pipes (g s) s)) (fun _ => kr o).
Proof. by apply triple_modify. Qed.
Lemma kr_modify_file o f g :
  (forall x, f_ref (g x) = f_ref x) -> triple (kr o) (modify (upd_file f g)) (fun _ => kr o).
Proof. intros E. apply triple_modify. intros s H. by apply kr_upd_same. Qed.

Create HintDb refs.
#[local] Hint Resolve kr_begin kr_end kr_on_fs kr_on_km kr_set_pipes : refs.
#[local] Hint Extern 1 (triple _ (modify (upd_file _ _)) _) => apply kr_modify_file; done : refs.
Ltac refs_walk := walk ltac:(solve [auto with refs]) ltac:(intros; assumption).

Lemma kr_pipe_close o p w : triple (kr o) (pipe_close kend p w) (fun _ => kr o).
Proof. unfold pipe_close. refs_walk. Qed.
Lemma kr_section {A B} o p x (k : Z -> A -> B) : triple (kr o) (pipe_section p x k) (fun _ => kr o).
Proof. unfold pipe_section. refs_walk. Qed.
Lemma kr_filestat o f : triple (kr o) (filestat f) (fun _ => kr o).
Proof. unfold filestat. refs_walk. Qed.
#[local] Hint Resolve kr_pipe_close kr_section kr_filestat : refs.
Lemma kr_fileread o b f n : triple (kr o) (fileread devsw_read b f n) (fun _ => kr o).
Proof. unfold fileread. refs_walk. Qed.
Lemma kr_filewrite_loop o n f addr i :
  triple (kr o) (filewrite_loop devsw_write n f addr i) (fun _ => kr o).
Proof.
  revert i. induction n as [|n IH]; intros i; cbn [filewrite_loop]; [refs_walk|].
  cbv zeta. destruct (i <? _); [|refs_walk].
  do 7 (eapply (triple_bind _ (fun _ => kr o)); [solve [refs_walk]|intros ?]).
  destruct (_ <? 0); [refs_walk|]. destruct (negb _); [refs_walk|]. apply IH.
Qed.
#[local] Hint Resolve kr_fileread kr_filewrite_loop : refs.
Lemma kr_filewrite o b f addr : triple (kr o) (filewrite devsw_write b f addr) (fun _ => kr o).
Proof. unfold filewrite. refs_walk. Qed.

(** The entry closed loses one reference; an entry outside the table panics. *)
Lemma kr_fileclose o f : triple (kr o) (fileclose kend f) (fun _ => kr (plus1 f (-1) o)).
Proof.
  unfold fileclose. intros s0 a s' H E. unfold bind at 1, get at 1 in E.
  destruct (Z.ltb_spec (f_ref (fl s0 f)) 1) as [|Hr]; [done|].
  unfold bind at 1, modify at 1 in E. unfold bind at 1, get at 1 in E. cbv zeta in E.
  pose proof (kr_upd o s0 f (fun x => set_f_ref (f_ref x - 1) x) (-1) eq_refl H) as H1.
  set (s1 := upd_file f _ s0) in *.
  destruct (Z.ltb_spec 0 (f_ref (fl s1 f))) as [|H0]; [unfold ret in E; by simplify_eq|].
  revert E. match goal with |- ?m s1 = _ -> _ => enough (triple (fun t => t = s1) m (fun _ => kr (plus1 f (-1) o))) as T
    by (intros E; by apply (T s1 a s')) end.
  eapply (triple_bind _ (fun _ => kr (plus1 f (-1) o))); [|intros ?; destruct (f_type _); refs_walk].
  apply triple_modify. intros t Ht. rewrite Ht. eapply kr_ext; [|eapply (kr_upd (plus1 f (-1) o) s1 f _ 0); [|exact H1]].
  - intros i. unfold plus1. repeat case_decide; lia.
  - cbn. assert (f < length (ftable s0))%nat as Hf.
    { destruct (decide (f < length (ftable s0))%nat) as [|Hf]; [done|]. exfalso. unfold fl in Hr.
      rewrite list_lookup_total_alt, lookup_ge_None_2 in Hr by lia. cbn in Hr. lia. }
    unfold s1 in *. rewrite fl_upd, decide_True in * by done. cbn in *. lia.
Qed.

Definition kr_ends (o : nat -> Z) (a : option (nat * nat)) : kfile -> Prop :=
  match a with Some (f0, f1) => kr (plus1 f1 1 (plus1 f0 1 o)) | None => kr o end.

Lemma plus1_cancel f d o g : plus1 f (- d) (plus1 f d o) g = o g.
Proof. unfold plus1. repeat case_decide; lia. Qed.

Lemma kr_pipealloc o junk : triple (kr o) (pipealloc kend junk) (kr_ends o).
Proof.
  unfold pipealloc. eapply triple_bind; [apply kr_filealloc|intros [f0|]]; [|refs_walk].
  eapply triple_bind; [apply kr_filealloc|intros [f1|]]; cbn [kr_alloc].
  - eapply triple_bind; [apply kr_on_km|intros p]. destruct (p =? 0); [|refs_walk].
    eapply triple_bind; [apply kr_fileclose|intros ?].
    eapply triple_bind; [apply kr_fileclose|intros ?].
    apply triple_ret. intros s. apply kr_ext. intros f. unfold plus1. repeat case_decide; lia.
  - eapply triple_bind; [apply kr_fileclose|intros ?]. apply triple_ret.
    intros s. apply kr_ext. intros f. apply (plus1_cancel f0 1).
Qed.

(** A file operation of the caller leaves its descriptors alone. *)
Lemma rf_on_uf {A} o (m : M kfile A) (Q : (nat -> Z) -> A -> kfile -> Prop) :
  (forall o, triple (kr o) m (Q o)) ->
  triple (rf o) (on_uf m) (fun a s => Q (cnt o (ofile s)) a (uf s)).
Proof.
  intros H s a s' HP E. unfold on_uf, part in E. destruct (m (uf s)) eqn:Em; simplify_eq.
  cbn. by apply (H _ _ _ _ HP Em).
Qed.
Lemma rf_keep {A} o (m : M kfile A) :
  (forall o, triple (kr o) m (fun _ => kr o)) -> triple (rf o) (on_uf m) (fun _ => rf o).
Proof. apply (rf_on_uf o m (fun o _ => kr o)). Qed.
Lemma rf_on_ufs {A} o (m : M fs A) : triple (rf o) (on_ufs m) (fun _ => rf o).
Proof. apply rf_keep. intros. apply kr_on_fs. Qed.
Lemma rf_begin o : triple (rf o) u_begin_op (fun _ => rf o).
Proof. apply rf_keep. intros. apply kr_begin. Qed.
Lemma rf_end o : triple (rf o) u_end_op (fun _ => rf o).
Proof. apply rf_keep. intros. apply kr_end. Qed.
Lemma rf_uino o ip : triple (rf o) (uino ip) (fun _ => rf o).
Proof. by apply triple_gets. Qed.
Lemma rf_ext o o' s : (forall f, o f = o' f) -> rf o s -> rf o' s.
Proof. intros E. apply kr_ext. intros f. unfold cnt. by rewrite E. Qed.
Lemma rf_of_kr o o' s :
  (forall f, o' f + fd_count f (ofile s) = o f) -> kr o (uf s) -> rf o' s.
Proof. intros E. apply kr_ext. intros f. unfold cnt. by rewrite E. Qed.
#[local] Hint Resolve rf_on_ufs rf_begin rf_end rf_uino : refs.
#[local] Hint Resolve kr_filewrite rf_keep : refs.

Lemma rf_dup o f : triple (rf o) (on_uf (filedup f)) (fun _ => rf (plus1 f 1 o)).
Proof.
  eapply triple_weaken; [apply (rf_on_uf o _ (fun o _ => kr (plus1 f 1 o)))|done|].
  - intros. apply kr_filedup.
  - intros ? s. apply rf_of_kr. intros g. unfold plus1, cnt. case_decide; lia.
Qed.
Lemma rf_close o f : triple (rf o) (on_uf (fileclose kend f)) (fun _ => rf (plus1 f (-1) o)).
Proof.
  eapply triple_weaken; [apply (rf_on_uf o _ (fun o _ => kr (plus1 f (-1) o)))|done|].
  - intros. apply kr_fileclose.
  - intros ? s. apply rf_of_kr. intros g. unfold plus1, cnt. case_decide; lia.
Qed.

Lemma argfd_spec P fd :
  triple P (argfd fd) (fun a s => P s /\
    match a with Some (fd, f) => ofile s !! Z.to_nat fd = Some (Some f) | None => True end).
Proof.
  intros s a s' HP E. unfold argfd, bind, get in E. destruct fd as [fd|]; [|unfold ret in E; by simplify_eq].
  destruct (_ || _); [unfold ret in E; by simplify_eq|].
  destruct (ofile s !! Z.to_nat fd) as [[f|]|] eqn:Ef; unfold ret in E; by simplify_eq.
Qed.

Lemma fdalloc_scan_spec l i fd :
  fdalloc_scan l i = Some fd ->
  (i <= fd)%nat /\ l !! (fd - i)%nat = Some None /\
  forall j, (j < fd - i)%nat -> exists f, l !! j = Some (Some f).
Proof.
  revert i. induction l as [|x l IH]; intros i H; cbn in H; [done|]. destruct x as [f|].
  - apply IH in H as (? & Hn & Hlt). split_and!; [lia| |].
    + by replace (fd - i)%nat with (S (fd - S i)) by lia.
    + intros [|j] Hj; [by exists f|]. apply Hlt. lia.
  - simplify_eq. rewrite Nat.sub_diag. split_and!; [lia|done|lia].
Qed.
Lemma fdalloc_scan_none l i : fdalloc_scan l i = None -> forall j x, l !! j = Some x -> is_Some x.
Proof.
  revert i. induction l as [|x l IH]; intros i H j y Hj; [done|]. destruct x as [f|]; [|done].
  destruct j as [|j]; [by simplify_eq/=; eauto|]. by apply (IH (S i) H j).
Qed.

(** [fdalloc] gives up or enters [f] in the table, taking over one reference. *)
Definition fd_done (o : nat -> Z) (f : nat) (r : Z) (s : usys) : Prop :=
  if r <? 0 then rf o s
  else rf (plus1 f (-1) o) s /\ ofile s !! Z.to_nat r = Some (Some f).

Lemma rf_fdalloc o f : triple (rf o) (fdalloc f) (fd_done o f).
Proof.
  intros s r s' H E. unfold fdalloc, bind, get in E.
  destruct (fdalloc_scan (ofile s) 0) as [fd|] eqn:Ef; [|unfold ret in E; simplify_eq; exact H].
  apply fdalloc_scan_spec in Ef as (_ & Hn & _). rewrite Nat.sub_0_r in Hn.
  unfold modify, ret in E. simplify_eq. unfold fd_done.
  destruct (Z.ltb_spec (Z.of_nat fd) 0); [lia|]. rewrite Nat2Z.id. split.
  - revert H. apply kr_ext. intros g. unfold cnt, plus1. cbn [ofile set_ofile].
    rewrite (fd_count_insert _ _ _ _ None) by done. repeat case_decide; simplify_eq; lia.
  - cbn. apply list_lookup_insert_eq. apply lookup_lt_Some in Hn. lia.
Qed.

(** Clearing a descriptor hands its reference to the caller. *)
Lemma rf_clear o fd f :
  triple (fun s => rf o s /\ ofile s !! fd = Some (Some f))
    (modify (fun s => set_ofile (<[fd := None]> (ofile s)) s)) (fun _ => rf (plus1 f 1 o)).
Proof.
  apply triple_modify. intros s [H Hf]. revert H. apply kr_ext. intros g.
  unfold cnt, plus1. cbn [ofile set_ofile]. rewrite (fd_count_insert _ _ _ _ (Some f)) by done.
  repeat case_decide; simplify_eq; lia.
Qed.

Ltac rf_fin := intros; cbv beta in *; eapply rf_ext; [|eassumption];
  let g := fresh in intros g; unfold plus1; repeat case_decide; lia.

Lemma rf_sys_dup o fd : triple (rf o) (sys_dup fd) (fun _ => rf o).
Proof.
  unfold sys_dup. eapply triple_bind; [apply argfd_spec|intros [[fd' f]|]]; [|apply triple_ret; by intros s [? _]].
  eapply triple_bind; [eapply triple_weaken; [apply rf_fdalloc|by intros s [? _]|by intros ? ? Hs; exact Hs]|].
  intros r. unfold fd_done. destruct (r <? 0); [by apply triple_ret|].
  eapply triple_bind; [eapply triple_weaken; [apply rf_dup|by intros s [? _]|by intros ? ? Hs; exact Hs]|intros ?].
  apply triple_ret. rf_fin.
Qed.

Lemma rf_sys_close o fd : triple (rf o) (sys_close kend fd) (fun _ => rf o).
Proof.
  unfold sys_close. eapply triple_bind; [apply argfd_spec|intros [[fd' f]|]]; [|apply triple_ret; by intros s [? _]].
  eapply triple_bind; [apply rf_clear|intros ?]. eapply triple_bind; [apply rf_close|intros ?].
  apply triple_ret. rf_fin.
Qed.

Lemma rf_mk_open o f ip m : triple (rf o) (on_uf (modify (upd_file f (mk_open ip m)))) (fun _ => rf o).
Proof. apply rf_keep. intros. by apply kr_modify_file. Qed.

Definition rf_alloc (o : nat -> Z) (a : option nat) : usys -> Prop :=
  match a with Some f => rf (plus1 f 1 o) | None => rf o end.
Lemma rf_filealloc o : triple (rf o) (on_uf filealloc) (rf_alloc o).
Proof.
  eapply triple_weaken; [apply (rf_on_uf o _ kr_alloc), kr_filealloc|done|].
  intros [f|] s; [|done]. apply rf_of_kr. intros g. unfold plus1, cnt. case_decide; lia.
Qed.

Lemma rf_open_tail o ip m : triple (rf o) (open_tail kend ip m) (fun _ => rf o).
Proof.
  unfold open_tail. eapply triple_bind; [apply rf_filealloc|intros [f|]]; cbn [rf_alloc]; [|refs_walk].
  eapply triple_bind; [apply rf_fdalloc|intros r]. unfold fd_done. destruct (r <? 0).
  - eapply (triple_bind _ (fun _ => rf o)); [|refs_walk].
    eapply triple_weaken; [apply rf_close|intros ? Hs; exact Hs|]. rf_fin.
  - eapply (triple_bind _ (fun _ => rf o)); [|intros ?; refs_walk; apply rf_mk_open].
    eapply triple_weaken; [apply (rf_on_ufs o)| |intros ? ? Hs; exact Hs]. intros s [H _].
    revert H. apply rf_ext. intros g. unfold plus1. repeat case_decide; lia.
Qed.

Definition rf_ends (o : nat -> Z) (a : option (nat * nat)) : usys -> Prop :=
  match a with Some (f0, f1) => rf (plus1 f1 1 (plus1 f0 1 o)) | None => rf o end.
Lemma rf_pipealloc o junk : triple (rf o) (on_uf (pipealloc kend junk)) (rf_ends o).
Proof.
  eapply triple_weaken; [apply (rf_on_uf o _ kr_ends); intros; apply kr_pipealloc|done|].
  intros [[f0 f1]|] s; [|done]. apply rf_of_kr. intros g. unfold plus1, cnt. repeat case_decide; lia.
Qed.

Lemma fdalloc_keeps i g f :
  triple (fun s => ofile s !! i = Some (Some g)) (fdalloc f) (fun _ s => ofile s !! i = Some (Some g)).
Proof.
  intros s r s' H E. unfold fdalloc, bind, get in E.
  destruct (fdalloc_scan (ofile s) 0) as [fd|] eqn:Ef; unfold modify, ret in E; simplify_eq; [|done].
  apply fdalloc_scan_spec in Ef as (_ & Hn & _). rewrite Nat.sub_0_r in Hn.
  cbn. rewrite list_lookup_insert_ne; [done|]. intros ->. by simplify_eq.
Qed.

Lemma rf_sys_pipe o fd junk : triple (rf o) (sys_pipe kend fd junk) (fun _ => rf o).
Proof.
  unfold sys_pipe. destruct (negb fd); [by apply triple_ret|].
  eapply triple_bind; [apply rf_pipealloc|intros [[f0 f1]|]]; cbn [rf_ends]; [|by apply triple_ret].
  eapply triple_bind; [apply rf_fdalloc|intros r0]. unfold fd_done at 1. destruct (Z.ltb_spec r0 0) as [H0|H0].
  - do 2 (eapply (triple_bind _ (fun _ => rf _)); [|intros ?]; cbn [orb];
      [try (destruct (Z.leb_spec 0 r0); [lia|]); apply triple_ret; intros ? Hs; exact Hs|]).
    eapply triple_bind; [apply rf_close|intros ?]. eapply triple_bind; [apply rf_close|intros ?].
    apply triple_ret. rf_fin.
  - eapply (triple_bind _ (fun r s => fd_done _ f1 r s /\ ofile s !! Z.to_nat r0 = Some (Some f0))); [|intros r1].
    { intros s r s' [H Hk] E. split; [eapply rf_fdalloc; eassumption|by eapply fdalloc_keeps]. }
    cbn [orb]. unfold fd_done. destruct (r1 <? 0); cbn [orb].
    + destruct (Z.leb_spec 0 r0); [|lia]. eapply triple_bind; [apply rf_clear|intros ?].
      eapply triple_bind; [apply rf_close|intros ?]. eapply triple_bind; [apply rf_close|intros ?].
      apply triple_ret. rf_fin.
    + apply triple_ret. intros s [[H _] _]. revert H. apply rf_ext.
      intros g. unfold plus1. repeat case_decide; lia.
Qed.

Lemma rf_argfd o fd : triple (rf o) (argfd fd) (fun _ => rf o).
Proof. eapply triple_weaken; [apply argfd_spec|by intros s H; exact H|by intros ? s [? _]]. Qed.
Lemma rf_link_bad o ip : triple (rf o) (link_bad ip) (fun _ => rf o).
Proof. unfold link_bad. refs_walk. Qed.
Lemma rf_unlink_bad o ip : triple (rf o) (unlink_bad ip) (fun _ => rf o).
Proof. unfold unlink_bad. refs_walk. Qed.
Lemma rf_create o path a b c :
  triple (rf o) (create devsw_read devsw_write path a b c) (fun _ => rf o).
Proof. unfold create. refs_walk. Qed.
#[local] Hint Resolve rf_argfd rf_link_bad rf_unlink_bad rf_create rf_open_tail rf_sys_dup
  rf_sys_close rf_sys_pipe : refs.

Lemma rf_run_call o c : triple (rf o) (run_call c) (fun _ => rf o).
Proof.
  destruct c; cbn [run_call]; unfold discard;
    unfold sys_read, sys_write, sys_fstat, sys_link, sys_unlink, sys_open, sys_mkdir, sys_mknod, sys_chdir.
  all: refs_walk.
Qed.

(** C31. Transactions are balanced. Whatever file-system call a process makes and
    whichever path it takes, errors included, when the call returns the process
    has closed every log transaction that it opened: [begin_op] and [end_op]
    pair up. *)
Theorem sysfile_txn_balanced c s s' :
  run_call c s = Ret tt s' -> outst (uf s') = outst (uf s).
Proof. intros E. by apply (txn_run_call (outst (uf s)) c s tt s'). Qed.

(** C8. Reference counts of open files are exact. If before a file-system call
    every entry of the open-file table is referenced as often as the calling
    process has descriptors for it, plus [others], then so it is when the call
    returns, on every path of every call. *)
Theorem sysfile_refs_exact others c s s' :
  (forall f, (f < length (ftable (uf s)))%nat ->
     f_ref (fl (uf s) f) = others f + fd_count f (ofile s)) ->
  run_call c s = Ret tt s' ->
  forall f, (f < length (ftable (uf s')))%nat ->
    f_ref (fl (uf s') f) = others f + fd_count f (ofile s').
Proof. intros H E. by apply (rf_run_call others c s tt s'). Qed.

End Calls.

(** [fdalloc] returns the lowest free descriptor and enters the file there;
    when every descriptor is in use it returns -1 and changes nothing. *)
Theorem fdalloc_lowest f s :
  (exists fd, fdalloc f s = Ret (Z.of_nat fd) (set_ofile (<[fd := Some f]> (ofile s)) s) /\
     ofile s !! fd = Some None /\ forall j, (j < fd)%nat -> exists g, ofile s !! j = Some (Some g)) \/
  (fdalloc f s = Ret (-1) s /\ forall j x, ofile s !! j = Some x -> is_Some x).
Proof.
  unfold fdalloc, bind, get. destruct (fdalloc_scan (ofile s) 0) as [fd|] eqn:E.
  - left. apply fdalloc_scan_spec in E as (_ & Hn & Hl). rewrite Nat.sub_0_r in *. by exists fd.
  - right. split; [done|]. by apply (fdalloc_scan_none _ 0).
Qed.

(** ** A disk with an empty root directory *)

Definition root_blk : block := put8 (put8 zero_block 64 1) 70 1.
Definition fs_root : fs := set_blk (fun n => if n =? 32 then root_blk else blk fs0 n) fs0.
Definition usys0 : usys :=
  {| uf := {| kf_km := {| kbytes := ∅; freelist := 0; use_lock := false; kmem_locked := false |};
              kf_fs := fs_root; pipes := ∅; ftable := replicate NFILE inhabitant; outst := 0 |};
     ofile := replicate 16 None; ukilled := false |}.

Definition no_read : Z -> option (nat -> Z -> M fs (Z * list Z)) := fun _ => None.
Definition no_write : Z -> option (nat -> list Z -> M fs Z) := fun _ => None.

(** Creating and opening "/b" from there. *)
Definition demo_call : call := COpen (Some [47; 98; 0]) (Some 514).
Definition returned (x : outcome usys unit) : option usys :=
  match x with Ret _ s => Some s | _ => None end.

Lemma returned_ret x : is_Some (returned x) -> exists s, x = Ret tt s.
Proof. intros [s H]. destruct x as [[] t| | |]; try discriminate H. by exists t. Qed.

Lemma demo_returns : exists s', run_call 0 no_read no_write demo_call usys0 = Ret tt s'.
Proof.
  apply returned_ret.
  assert (match returned (run_call 0 no_read no_write demo_call usys0) with
          | Some _ => true | None => false end = true) as H by (vm_compute; reflexivity).
  destruct (returned _) as [s|]; [by exists s|discriminate H].
Qed.

Lemma usys0_refs f :
  (f < length (ftable (uf usys0)))%nat -> f_ref (fl (uf usys0) f) = 0 + fd_count f (ofile usys0).
Proof.
  intros Hf. unfold fl. cbn [usys0 uf ftable] in *. rewrite length_replicate in Hf.
  rewrite lookup_total_replicate_2 by done. reflexivity.
Qed.

Lemma sysfile_txn_balanced_witness :
  exists s', run_call 0 no_read no_write demo_call usys0 = Ret tt s' /\
    outst (uf s') = outst (uf usys0).
Proof.
  destruct demo_returns as [s' H]. exists s'. split; [exact H|].
  exact (sysfile_txn_balanced 0 no_read no_write demo_call usys0 s' H).
Defined.

Lemma sysfile_refs_exact_witness :
  exists s', run_call 0 no_read no_write demo_call usys0 = Ret tt s' /\
    forall f, (f < length (ftable (uf s')))%nat ->
      f_ref (fl (uf s') f) = 0 + fd_count f (ofile s').
Proof.
  destruct demo_returns as [s' H]. exists s'. split; [exact H|].
  exact (sysfile_refs_exact 0 no_read no_write (fun _ => 0) demo_call usys0 s' usys0_refs H).
Defined.
