(* ===== verification/Proc.v ===== *)
(** Processes: xv6-public/proc.c.

    [ptab] is what ptable.lock protects: the table of processes (a process is
    named by its index), [initproc] and [nextpid]. The critical sections on the
    table are functions on it; ProcSpec.v interleaves them. [kern] adds what
    the operations reach beyond the table: files and file system, kernel
    memory, page-table registers and the processor's lock nesting. The
    operations of proc.c are composed from the sections in the monad [M kern].

    A process that leaves the processor in [sched] ends its section with the
    outcome [Sleep]; what it does when the scheduler resumes it is a section of
    its own ([sleep_tidy], [yield_tidy], [forkret]). *)

From Stdlib Require Import ZArith Lia.
From stdpp Require Import base strings gmap numbers list.
From S2P Require Import Prelude KString BlockLayer Bio Log Kalloc Fs Pipe Spin Vm File.

Open Scope Z_scope.

Abbreviation NPROC := 64%nat (only parsing).
Abbreviation KSTACKSIZE := 4096 (only parsing).

Inductive procstate := UNUSED | EMBRYO | SLEEPING | RUNNABLE | RUNNING | ZOMBIE.

#[export] Instance procstate_eq_dec : EqDecision procstate.
Proof. solve_decision. Defined.

Record proc := {
  p_sz : Z; p_pgdir : Z; p_kstack : Z; p_state : procstate; p_pid : Z;
  p_parent : option nat; p_tf : Z; p_context : Z; p_chan : option chan; p_killed : bool;
  p_ofile : list (option nat); p_cwd : option nat; p_name : list Z; p_isthread : bool;
}.
#[export] Instance proc_inhabited : Inhabited proc :=
  populate {| p_sz := 0; p_pgdir := 0; p_kstack := 0; p_state := UNUSED; p_pid := 0;
              p_parent := None; p_tf := 0; p_context := 0; p_chan := None; p_killed := false;
              p_ofile := replicate 16 None; p_cwd := None; p_name := replicate 16 0;
              p_isthread := false |}.

(** Stores to single fields. *)
Inductive pfield :=
  | Fsz (v : Z) | Fpgdir (v : Z) | Fkstack (v : Z) | Fstate (v : procstate) | Fpid (v : Z)
  | Fparent (v : option nat) | Ftf (v : Z) | Fcontext (v : Z) | Fchan (v : option chan)
  | Fkilled (v : bool) | Fofile (v : list (option nat)) | Fcwd (v : option nat)
  | Fname (v : list Z) | Fisthread (v : bool).

Definition setf (f : pfield) (p : proc) : proc :=
  {| p_sz := match f with Fsz v => v | _ => p_sz p end;
     p_pgdir := match f with Fpgdir v => v | _ => p_pgdir p end;
     p_kstack := match f with Fkstack v => v | _ => p_kstack p end;
     p_state := match f with Fstate v => v | _ => p_state p end;
     p_pid := match f with Fpid v => v | _ => p_pid p end;
     p_parent := match f with Fparent v => v | _ => p_parent p end;
     p_tf := match f with Ftf v => v | _ => p_tf p end;
     p_context := match f with Fcontext v => v | _ => p_context p end;
     p_chan := match f with Fchan v => v | _ => p_chan p end;
     p_killed := match f with Fkilled v => v | _ => p_killed p end;
     p_ofile := match f with Fofile v => v | _ => p_ofile p end;
     p_cwd := match f with Fcwd v => v | _ => p_cwd p end;
     p_name := match f with Fname v => v | _ => p_name p end;
     p_isthread := match f with Fisthread v => v | _ => p_isthread p end |}.

Record ptab := { procs : list proc; initproc : option nat; nextpid : Z }.

Definition set_procs (l : list proc) (t : ptab) : ptab :=
  {| procs := l; initproc := initproc t; nextpid := nextpid t |}.
Definition pr (t : ptab) (i : nat) : proc := procs t !!! i.
Definition upd_proc (i : nat) (g : proc -> proc) (t : ptab) : ptab :=
  set_procs (<[i := g (pr t i)]> (procs t)) t.
Definition store_f (i : nat) (f : pfield) (t : ptab) : ptab := upd_proc i (setf f) t.

(** ** Critical sections on the table *)

(** The channel [curproc] of a process that waits for its children. *)
Definition proc_chan (i : nat) : chan := ("proc"%string, Z.of_nat i).

Definition is_state (st : procstate) (p : proc) : bool := bool_decide (p_state p = st).

(** [wakeup1] on one process. *)
Definition wakeup1_proc (c : chan) (p : proc) : proc :=
  if is_state SLEEPING p && bool_decide (p_chan p = Some c) then setf (Fstate RUNNABLE) p else p.
Definition wakeup1 (c : chan) (t : ptab) : ptab :=
  set_procs (wakeup1_proc c <$> procs t) t.

(** The first entry from [i] on in state [st]. *)
Fixpoint find_state (st : procstate) (l : list proc) (i : nat) : option nat :=
  match l with
  | [] => None
  | p :: l' => if is_state st p then Some i else find_state st l' (S i)
  end.

(** The locked part of [allocproc]. *)
Definition alloc_slot (t : ptab) : option (nat * ptab) :=
  match find_state UNUSED (procs t) 0 with
  | None => None
  | Some i =>
      let t := store_f i (Fstate EMBRYO) t in
      let t := store_f i (Fpid (nextpid t)) t in
      Some (i, {| procs := procs t; initproc := initproc t; nextpid := i32 (nextpid t + 1) |})
  end.

(** The loop of [exit] that passes children to [initproc], from entry [i]. *)
Fixpoint reparent_loop (n i me : nat) (t : ptab) : ptab :=
  match n with
  | O => t
  | S n' =>
      let t' :=
        if bool_decide (p_parent (pr t i) = Some me) then
          let t := store_f i (Fparent (initproc t)) t in
          if is_state ZOMBIE (pr t i)
          then match initproc t with Some ip => wakeup1 (proc_chan ip) t | None => t end
          else t
        else t in
      reparent_loop n' (S i) me t'
  end.

(** The locked part of [exit] and [thread_exit]. *)
Definition exit_sec (me : nat) (t : ptab) : ptab :=
  let t := match p_parent (pr t me) with Some q => wakeup1 (proc_chan q) t | None => t end in
  let t := reparent_loop (length (procs t)) 0 me t in
  store_f me (Fstate ZOMBIE) t.

(** The scan of [wait] ([thread := false]) and [thread_join] ([thread := true])
    over the entries [l], the first of which has index [i]: an exited child, or
    whether there are children. *)
Fixpoint wait_scan (thread : bool) (me : nat) (l : list proc) (i : nat) (havekids : bool) : nat + bool :=
  match l with
  | [] => inr havekids
  | p :: l' =>
      if bool_decide (p_isthread p <> thread) || bool_decide (p_parent p <> Some me)
      then wait_scan thread me l' (S i) havekids
      else if is_state ZOMBIE p then inl i
      else wait_scan thread me l' (S i) true
  end.

(** What [wait] does to the entry it reaps, the two frees apart. *)
Definition reap (i : nat) (t : ptab) : ptab :=
  let t := store_f i (Fkstack 0) t in
  let t := store_f i (Fpid 0) t in
  let t := store_f i (Fparent None) t in
  let t := store_f i (Fname (<[0%nat := 0]> (p_name (pr t i)))) t in
  let t := store_f i (Fkilled false) t in
  store_f i (Fstate UNUSED) t.

(** Entering [sleep] on [c]. *)
Definition sleep_sec (me : nat) (c : chan) (t : ptab) : ptab :=
  store_f me (Fstate SLEEPING) (store_f me (Fchan (Some c)) t).

(** One pass of [wait] through its loop: reap entry [i], give up, or sleep. *)
Inductive wait_result :=
  | WReap (i : nat) (t : ptab)
  | WNone
  | WSleep (t : ptab).
Definition wait_sec (thread : bool) (me : nat) (t : ptab) : wait_result :=
  match wait_scan thread me (procs t) 0 false with
  | inl i => WReap i (reap i t)
  | inr havekids =>
      if negb havekids || p_killed (pr t me) then WNone
      else WSleep (sleep_sec me (proc_chan me) t)
  end.

Fixpoint find_pid (pid : Z) (l : list proc) (i : nat) : option nat :=
  match l with
  | [] => None
  | p :: l' => if p_pid p =? pid then Some i else find_pid pid l' (S i)
  end.

(** [kill]: whether the pid was found. *)
Definition kill_sec (pid : Z) (t : ptab) : bool * ptab :=
  match find_pid pid (procs t) 0 with
  | None => (false, t)
  | Some i =>
      let t := store_f i (Fkilled true) t in
      (true, if is_state SLEEPING (pr t i) then store_f i (Fstate RUNNABLE) t else t)
  end.

(** The scheduler's pass over the table from entry [pos]: the process chosen. *)
Definition sched_scan (pos : nat) (t : ptab) : option nat :=
  find_state RUNNABLE (drop pos (procs t)) pos.

(** ** The kernel state *)

Record kern := { kx : kfile; kt : ptab; khw : mmu; kcpu : cpu; cur : nat }.

Definition set_kx (x : kfile) (s : kern) : kern :=
  {| kx := x; kt := kt s; khw := khw s; kcpu := kcpu s; cur := cur s |}.
Definition set_kt (x : ptab) (s : kern) : kern :=
  {| kx := kx s; kt := x; khw := khw s; kcpu := kcpu s; cur := cur s |}.
Definition set_khw (x : mmu) (s : kern) : kern :=
  {| kx := kx s; kt := kt s; khw := x; kcpu := kcpu s; cur := cur s |}.
Definition set_kcpu (x : cpu) (s : kern) : kern :=
  {| kx := kx s; kt := kt s; khw := khw s; kcpu := x; cur := cur s |}.
Definition set_cur (x : nat) (s : kern) : kern :=
  {| kx := kx s; kt := kt s; khw := khw s; kcpu := kcpu s; cur := x |}.

(** The process running on this processor ([myproc]). *)
Definition me (s : kern) : proc := pr (kt s) (cur s).

Definition on_pt (g : ptab -> ptab) : M kern unit := modify (fun s => set_kt (g (kt s)) s).
Definition kfield (i : nat) (f : pfield) : M kern unit := on_pt (store_f i f).

(** File operations see the pid and the current directory of [myproc()]. *)
Definition fs_me (s : kern) : kfile :=
  let x := kx s in
  set_fs {| blk := blk (kf_fs x); nblk := nblk (kf_fs x); fsb := fsb (kf_fs x);
            inodes := inodes (kf_fs x); fpid := p_pid (me s);
            cwd := default 0%nat (p_cwd (me s)); flog := flog (kf_fs x) |} x.
Definition on_file {A} (m : M kfile A) : M kern A := part fs_me set_kx m.
Definition on_kmem {A} (m : M kmem A) : M kern A := part (fun s => kf_km (kx s)) (fun x s => set_kx (set_km x (kx s)) s) m.
Definition kstore (a v : Z) : M kern unit := on_kmem (store a v).

(** [acquire] and [release] of lock [l] on this processor; ptable.lock is [PT]. *)
Definition PT : nat := 0.
Definition acquire_lk (l : nat) : M kern unit :=
  let* s := get in
  if bool_decide (l ∈ held (kcpu s)) then panic "acquire"
  else modify (set_kcpu (set_held (l :: held (kcpu s)) (pushcli (kcpu s)))).
Definition release_lk (l : nat) : M kern unit :=
  let* s := get in
  if bool_decide (l ∉ held (kcpu s)) then panic "release"
  else match popcli (set_held (filter (fun x => x <> l) (held (kcpu s))) (kcpu s)) with
       | inl msg => panic msg
       | inr c => modify (set_kcpu c)
       end.
Definition acquire_pt : M kern unit := acquire_lk PT.
Definition release_pt : M kern unit := release_lk PT.

Definition proc_fault {A} : M kern A := panic "fault".

(** ** Virtual memory as the processor sees it

    A kernel access to virtual address [va] under directory [pgdir]; one that
    the page tables do not allow ends in [trap]'s panic. *)
Definition vaddr (pgdir va : Z) (write : bool) : M kmem Z :=
  let* e := load (pgdir + 4 * PDX va) in
  if negb (has e PTE_P) then panic "trap"
  else
    let* e := load (P2V (PTE_ADDR e) + 4 * PTX va) in
    if negb (has e PTE_P) || (write && negb (has e PTE_W)) then panic "trap"
    else ret (P2V (PTE_ADDR e) + va mod PGSIZE).
Definition vrd8 (pgdir va : Z) : M kmem Z :=
  let* a := vaddr pgdir va false in gets (fun s => rd8 (kbytes s) a).
Definition vwr8 (pgdir va v : Z) : M kmem unit :=
  let* a := vaddr pgdir va true in modify (fun s => set_kbytes (wr8 (kbytes s) a v) s).
Definition vrd32 (pgdir va : Z) : M kmem Z :=
  let* b0 := vrd8 pgdir va in
  let* b1 := vrd8 pgdir (u32 (va + 1)) in
  let* b2 := vrd8 pgdir (u32 (va + 2)) in
  let* b3 := vrd8 pgdir (u32 (va + 3)) in
  ret (le4 b0 b1 b2 b3).
Definition vwr32 (pgdir va v : Z) : M kmem unit :=
  vwr8 pgdir va (byte_of v 0) ;;;
  vwr8 pgdir (u32 (va + 1)) (byte_of v 1) ;;;
  vwr8 pgdir (u32 (va + 2)) (byte_of v 2) ;;;
  vwr8 pgdir (u32 (va + 3)) (byte_of v 3).

(** ** Operations *)

(** The trap frame: size and the offsets of the fields that are stored to. *)
Abbreviation TF_SIZE := 76 (only parsing).
Abbreviation TF_eax := 28 (only parsing).
Abbreviation TF_es := 40 (only parsing).
Abbreviation TF_ds := 44 (only parsing).
Abbreviation TF_eip := 56 (only parsing).
Abbreviation TF_cs := 60 (only parsing).
Abbreviation TF_eflags := 64 (only parsing).
Abbreviation TF_esp := 68 (only parsing).
Abbreviation TF_ss := 72 (only parsing).

(** [safestrcpy] between two name arrays: [k] is [n - 1]. *)
Fixpoint name_copy (k : nat) (s t : list Z) : list Z :=
  match k, s, t with
  | O, _ :: s', _ => 0 :: s'
  | S k', _ :: s', c :: t' =>
      if c =? 0 then c :: match s' with _ :: s'' => 0 :: s'' | [] => [] end
      else c :: name_copy k' s' t'
  | _, _, _ => s
  end.

Section Proc.

(** Addresses the linker sets: [end], [data], [trapret], [forkret], the start
    and size of initcode; and the device drivers. *)
Variables kend kdata trapret forkret_pc initcode_start initcode_size : Z.
Variable devsw_read : Z -> option (nat -> Z -> M fs (Z * list Z)).

Definition allocproc : M kern (option nat) :=
  acquire_pt ;;;
  let* s := get in
  match alloc_slot (kt s) with
  | None => release_pt ;;; ret None
  | Some (p, t) =>
      modify (set_kt t) ;;;
      release_pt ;;;
      let* kstack := on_kmem kalloc in
      kfield p (Fkstack kstack) ;;;
      if kstack =? 0 then kfield p (Fstate UNUSED) ;;; ret None
      else
        let sp := kstack + KSTACKSIZE - TF_SIZE in
        kfield p (Ftf sp) ;;;
        kstore (sp - 4) trapret ;;;
        kfield p (Fcontext (sp - 24)) ;;;
        on_kmem (modify (fun s => set_kbytes (memset (kbytes s) (sp - 24) 0 20) s)) ;;;
        kstore (sp - 24 + 16) forkret_pc ;;;
        ret (Some p)
  end.

(** A 16-bit store. *)
Definition kstore16 (a v : Z) : M kern unit :=
  on_kmem (modify (fun s => set_kbytes (wr8 (wr8 (kbytes s) a (byte_of v 0)) (a + 1) (byte_of v 1)) s)).

Definition initcode_name : list Z := [105; 110; 105; 116; 99; 111; 100; 101; 0].

Definition userinit : M kern unit :=
  let* p := allocproc in
  match p with
  | None => proc_fault
  | Some p =>
      modify (fun s => set_kt {| procs := procs (kt s); initproc := Some p; nextpid := nextpid (kt s) |} s) ;;;
      let* pgdir := on_kmem (setupkvm kend kdata) in
      kfield p (Fpgdir pgdir) ;;;
      if pgdir =? 0 then panic "userinit: out of memory?"
      else
        on_kmem (inituvm pgdir initcode_start initcode_size) ;;;
        kfield p (Fsz PGSIZE) ;;;
        let* s := get in
        let tf := p_tf (pr (kt s) p) in
        on_kmem (modify (fun s => set_kbytes (memset (kbytes s) tf 0 TF_SIZE) s)) ;;;
        kstore16 (tf + TF_cs) (Z.lor (Z.shiftl 3 3) 3) ;;;
        kstore16 (tf + TF_ds) (Z.lor (Z.shiftl 4 3) 3) ;;;
        kstore16 (tf + TF_es) (Z.lor (Z.shiftl 4 3) 3) ;;;
        kstore16 (tf + TF_ss) (Z.lor (Z.shiftl 4 3) 3) ;;;
        kstore (tf + TF_eflags) 512 ;;;
        kstore (tf + TF_esp) PGSIZE ;;;
        kstore (tf + TF_eip) 0 ;;;
        kfield p (Fname (name_copy 15 (p_name (pr (kt s) p)) initcode_name)) ;;;
        let* ip := on_file (on_fs (namei devsw_read [47; 0])) in
        kfield p (Fcwd ip) ;;;
        acquire_pt ;;;
        kfield p (Fstate RUNNABLE) ;;;
        release_pt
  end.

(** [switchuvm] of process [p]. *)
Definition switchuvm_proc (p : nat) : M kern unit :=
  let* s := get in
  match switchuvm (p_kstack (pr (kt s) p)) (p_pgdir (pr (kt s) p)) (khw s) with
  | inl msg => panic msg
  | inr h => modify (set_khw h)
  end.

(** The loop of [growproc] over the table: every thread of the caller and every
    thread whose parent is the caller's parent gets the caller's size. *)
Definition grow_threads (c : nat) (t : ptab) : ptab :=
  set_procs ((fun p => if p_isthread p &&
                          (bool_decide (p_parent p = p_parent (pr t c)) || bool_decide (p_parent p = Some c))
                       then setf (Fsz (p_sz (pr t c))) p else p) <$> procs t) t.

Definition growproc (n : Z) : M kern Z :=
  let* s := get in
  let c := cur s in
  let pgdir := p_pgdir (me s) in
  let oldsz := p_sz (me s) in
  let* r := (if 0 <? n then
               let* sz := on_kmem (allocuvm kend pgdir oldsz (u32 (oldsz + n))) in
               ret (if sz =? 0 then None else Some (u32 sz))
             else if n <? 0 then
               if p_isthread (me s) then ret None
               else
                 let* sz := on_kmem (deallocuvm kend pgdir oldsz (u32 (oldsz + n))) in
                 ret (if sz =? 0 then None else Some (u32 sz))
             else ret (Some oldsz)) in
  match r with
  | None => ret (-1)
  | Some sz =>
      kfield c (Fsz sz) ;;;
      (if p_isthread (me s) then
         match p_parent (me s) with Some q => kfield q (Fsz sz) | None => proc_fault end
       else ret tt) ;;;
      acquire_pt ;;;
      on_pt (grow_threads c) ;;;
      release_pt ;;;
      switchuvm_proc c ;;;
      ret (i32 oldsz)
  end.

(** The loop of [fork] and [thread_create] over the descriptors from [i] on. *)
Fixpoint dup_files (l : list (option nat)) (i : nat) (np : nat) : M kern unit :=
  match l with
  | [] => ret tt
  | None :: l' => dup_files l' (S i) np
  | Some f :: l' =>
      let* g := on_file (filedup f) in
      let* s := get in
      kfield np (Fofile (<[i := Some g]> (p_ofile (pr (kt s) np)))) ;;;
      dup_files l' (S i) np
  end.

(** [idup] of the caller's directory into [np]. *)
Definition dup_cwd (np : nat) : M kern unit :=
  let* s := get in
  match p_cwd (me s) with
  | None => proc_fault
  | Some ip => let* ip := on_file (on_fs (idup ip)) in kfield np (Fcwd (Some ip))
  end.

(** [*np->tf = *curproc->tf]. *)
Definition copy_tf (np : nat) : M kern unit :=
  let* s := get in
  on_kmem (modify (fun m => set_kbytes (memmove (kbytes m) (p_tf (pr (kt s) np)) (p_tf (me s)) TF_SIZE) m)).

Definition make_runnable (np : nat) : M kern unit :=
  acquire_pt ;;; kfield np (Fstate RUNNABLE) ;;; release_pt.

Definition fork : M kern Z :=
  let* np := allocproc in
  match np with
  | None => ret (-1)
  | Some np =>
      let* s := get in
      let* d := on_kmem (copyuvm kend kdata (p_pgdir (me s)) (p_sz (me s))) in
      kfield np (Fpgdir d) ;;;
      if d =? 0 then
        on_kmem (kfree kend (p_kstack (pr (kt s) np))) ;;;
        kfield np (Fkstack 0) ;;;
        kfield np (Fstate UNUSED) ;;;
        ret (-1)
      else
        kfield np (Fsz (p_sz (me s))) ;;;
        kfield np (Fparent (Some (cur s))) ;;;
        copy_tf np ;;;
        kstore (p_tf (pr (kt s) np) + TF_eax) 0 ;;;
        dup_files (p_ofile (me s)) 0 np ;;;
        dup_cwd np ;;;
        kfield np (Fname (name_copy 15 (p_name (pr (kt s) np)) (p_name (me s)))) ;;;
        make_runnable np ;;;
        ret (p_pid (pr (kt s) np))
  end.

(** The loop of [exit] over its descriptors from [i] on. *)
Fixpoint close_files (n i : nat) : M kern unit :=
  match n with
  | O => ret tt
  | S n' =>
      let* s := get in
      (match p_ofile (me s) !! i with
       | Some (Some f) =>
           on_file (fileclose kend f) ;;;
           kfield (cur s) (Fofile (<[i := None]> (p_ofile (me s))))
       | _ => ret tt
       end) ;;;
      close_files n' (S i)
  end.

(** [sched]: the checks, then the switch away from the process. *)
Definition sched : M kern unit :=
  let* s := get in
  if bool_decide (PT ∉ held (kcpu s)) then panic "sched ptable.lock"
  else if negb (ncli (kcpu s) =? 1) then panic "sched locks"
  else if is_state RUNNING (me s) then panic "sched running"
  else if iflag (kcpu s) then panic "sched interruptible"
  else sleep_on ("swtch"%string, Z.of_nat (cur s)).

(** [exit]; [thread_exit] has the same body. *)
Definition exit : M kern unit :=
  let* s := get in
  if bool_decide (Some (cur s) = initproc (kt s)) then panic "init exiting"
  else
    close_files 16 0 ;;;
    on_file begin_txn ;;;
    (match p_cwd (me s) with
     | Some ip => on_file (on_fs (iput ip))
     | None => proc_fault
     end) ;;;
    on_file end_txn ;;;
    kfield (cur s) (Fcwd None) ;;;
    acquire_pt ;;;
    on_pt (exit_sec (cur s)) ;;;
    sched ;;;
    panic "zombie exit".

Definition thread_exit : M kern unit := exit.

(** The body of [wait]'s loop, with ptable.lock held. A child that is reaped
    loses its kernel stack and, unless it is a thread, its address space. *)
Definition wait_body (thread : bool) : M kern Z :=
  let* s := get in
  match wait_sec thread (cur s) (kt s) with
  | WReap i t =>
      on_kmem (kfree kend (p_kstack (pr (kt s) i))) ;;;
      (if thread then ret tt else on_kmem (freevm kend (p_pgdir (pr (kt s) i)))) ;;;
      modify (set_kt t) ;;;
      release_pt ;;;
      ret (p_pid (pr (kt s) i))
  | WNone => release_pt ;;; ret (-1)
  | WSleep t =>
      modify (set_kt t) ;;;
      sched ;;; ret 0
  end.

Definition wait : M kern Z := acquire_pt ;;; wait_body false.
Definition thread_join : M kern Z := acquire_pt ;;; wait_body true.
(** After the sleep in [wait]: tidy up and look again. *)
Definition wait_resume (thread : bool) : M kern Z :=
  let* s := get in kfield (cur s) (Fchan None) ;;; wait_body thread.

(** One pass of the scheduler's loop from entry [pos], ptable.lock held: the
    process it switches to, or the end of the pass, where it lets go of the
    lock, enables interrupts and takes the lock again. *)
Definition scheduler_step (pos : nat) : M kern (option nat) :=
  let* s := get in
  match sched_scan pos (kt s) with
  | Some p =>
      modify (set_cur p) ;;;
      switchuvm_proc p ;;;
      kfield p (Fstate RUNNING) ;;;
      ret (Some p)
  | None =>
      release_pt ;;;
      modify (fun s => set_kcpu {| pc := pc (kcpu s); ncli := ncli (kcpu s); intena := intena (kcpu s);
                                   iflag := true; held := held (kcpu s) |} s) ;;;
      acquire_pt ;;;
      ret None
  end.
(** When the process has switched back. *)
Definition scheduler_back : M kern unit := modify (fun s => set_khw (switchkvm (khw s)) s).

Definition yield : M kern unit :=
  acquire_pt ;;;
  let* s := get in
  kfield (cur s) (Fstate RUNNABLE) ;;;
  sched.
Definition yield_tidy : M kern unit := release_pt.

(** [sleep] on [c] with lock [lk], up to the switch, and from there on. *)
Definition sleep (c : chan) (lk : nat) : M kern unit :=
  (if bool_decide (lk <> PT) then acquire_pt ;;; release_lk lk else ret tt) ;;;
  let* s := get in
  on_pt (sleep_sec (cur s) c) ;;;
  sched.
Definition sleep_tidy (lk : nat) : M kern unit :=
  let* s := get in
  kfield (cur s) (Fchan None) ;;;
  (if bool_decide (lk <> PT) then release_pt ;;; acquire_lk lk else ret tt).

Definition wakeup (c : chan) : M kern unit :=
  acquire_pt ;;; on_pt (wakeup1 c) ;;; release_pt.

Definition kill (pid : Z) : M kern Z :=
  acquire_pt ;;;
  let* s := get in
  let '(b, t) := kill_sec pid (kt s) in
  modify (set_kt t) ;;;
  release_pt ;;;
  ret (if b then 0 else -1).

(** The bytes [p->name .. p->name + len - 1]; [beyond] are those that follow the
    16 bytes of the name in memory. *)
Definition name_bytes (name : list Z) (beyond : nat -> Z) (len : Z) : list Z :=
  (fun i => match name !! i with Some c => c | None => beyond (i - 16)%nat end) <$> seq 0 (Z.to_nat len).

(** Store the bytes [l] at [va] on. *)
Fixpoint vput (pgdir va : Z) (l : list Z) : M kmem unit :=
  match l with
  | [] => ret tt
  | b :: l' => vwr8 pgdir va b ;;; vput pgdir (u32 (va + 1)) l'
  end.

(** The number of present entries of the directory at [pd], from entry [i] on,
    read by the process with directory [pgdir]. *)
Fixpoint leaf_pages (n : nat) (pgdir pd i : Z) : M kmem Z :=
  match n with
  | O => ret 0
  | S n' =>
      let* e := vrd32 pgdir (u32 (pd + 4 * i)) in
      let* k := leaf_pages n' pgdir pd (i + 1) in
      ret ((if has e PTE_P then 1 else 0) + k)
  end.

Definition getmeminfo (pid name len : Z) (beyond : nat -> Z) : M kern Z :=
  let* s := get in
  match find_pid pid (procs (kt s)) 0 with
  | None => ret 0
  | Some i =>
      let p := pr (kt s) i in
      on_kmem (vput (p_pgdir (me s)) name (name_bytes (p_name p) beyond len)) ;;;
      let* leafPages := on_kmem (leaf_pages (Z.to_nat NPDENTRIES) (p_pgdir (me s)) (p_pgdir p) 0) in
      ret (i32 (PGROUNDUP (p_sz p) + PGSIZE + PGSIZE + leafPages * PGSIZE))
  end.

(** The last stores to the trap frame at [tf] in [thread_create]: the new
    thread starts at [fcn] with the argument and a fake return address on the
    page [stack]. *)
Definition thread_tf (pgdir tf fcn arg stack : Z) : M kern unit :=
  kstore (tf + TF_eax) 0 ;;;
  kstore (tf + TF_eip) fcn ;;;
  kstore (tf + TF_esp) (stack + PGSIZE) ;;;
  let esp := u32 (stack + PGSIZE - 4) in
  kstore (tf + TF_esp) esp ;;;
  on_kmem (vwr32 pgdir esp arg) ;;;
  let esp := u32 (esp - 4) in
  kstore (tf + TF_esp) esp ;;;
  on_kmem (vwr32 pgdir esp 4294967295).

Definition thread_create (fcn arg stack : Z) : M kern Z :=
  let* np := allocproc in
  match np with
  | None => ret (-1)
  | Some np =>
      let* s := get in
      kfield np (Fpgdir (p_pgdir (me s))) ;;;
      dup_files (p_ofile (me s)) 0 np ;;;
      kfield np (Fsz (p_sz (me s))) ;;;
      kfield np (Fparent (Some (cur s))) ;;;
      dup_cwd np ;;;
      kfield np (Fname (name_copy 15 (p_name (pr (kt s) np)) (p_name (me s)))) ;;;
      copy_tf np ;;;
      thread_tf (p_pgdir (me s)) (p_tf (pr (kt s) np)) fcn arg stack ;;;
      kfield np (Fisthread true) ;;;
      make_runnable np ;;;
      ret (p_pid (pr (kt s) np))
  end.

End Proc.
