(* ===== verification/ProcSpec.v ===== *)
(** Properties of the process table of Proc.v.

    Processes on any number of processors interleave the critical sections of
    proc.c. [wk] records the processes inside [wait] ([false]) or
    [thread_join] ([true]); [own] the entry that a process inside [fork] or
    [thread_create] is filling. Both only say where a process is in the code. *)

From Stdlib Require Import ZArith Lia.
From stdpp Require Import base strings gmap numbers list.
From S2P Require Import Prelude KString BlockLayer Bio Log Kalloc Fs Pipe Spin Vm File Proc.

Open Scope Z_scope.

Record psys := { tb : ptab; own : gmap nat nat; wk : gmap nat bool }.

Inductive paction :=
  | PAlloc (p : nat)                    (* allocproc finds an entry *)
  | PStore (p : nat) (f : pfield)       (* a store to the new entry *)
  | PReady (p : nat)                    (* fork, thread_create: RUNNABLE *)
  | PFail (p : nat)                     (* fork gives the entry up *)
  | PExit (p : nat)
  | PWait (thread : bool) (p : nat)     (* one pass of wait or thread_join *)
  | PSleep (p : nat) (c : chan)
  | PTidy (p : nat)                     (* back from sleep *)
  | PYield (p : nat)
  | PRun (p : nat)                      (* the scheduler's choice *)
  | PWakeup (c : chan)
  | PKill (pid : Z)
  | PGrow (p : nat) (sz : Z)            (* growproc *)
  | PSelf (p : nat) (f : pfield).       (* stores to the process's own entry *)

(** The fields that [fork] and [thread_create] set in the new entry, and those
    a process changes in its own. *)
Definition child_field (p : nat) (f : pfield) : bool :=
  match f with
  | Fsz _ | Fpgdir _ | Fkstack _ | Ftf _ | Fcontext _ | Fofile _ | Fcwd _ | Fname _ => true
  | Fisthread v => v
  | Fparent q => bool_decide (q = Some p)
  | Fstate _ | Fpid _ | Fchan _ | Fkilled _ => false
  end.
Definition own_field (f : pfield) : bool :=
  match f with
  | Fsz _ | Fpgdir _ | Ftf _ | Fcontext _ | Fofile _ | Fcwd _ | Fname _ => true
  | _ => false
  end.

Definition upd_tb (t : ptab) (s : psys) : psys := {| tb := t; own := own s; wk := wk s |}.
Definition running (s : psys) (p : nat) : bool :=
  bool_decide (p < length (procs (tb s)))%nat && is_state RUNNING (pr (tb s) p).

Definition pnext (a : paction) (s : psys) : option psys :=
  let t := tb s in
  match a with
  | PAlloc p =>
      if running s p && bool_decide (own s !! p = None) then
        match alloc_slot t with
        | Some (i, t') => Some {| tb := t'; own := <[p := i]> (own s); wk := wk s |}
        | None => None
        end
      else None
  | PStore p f =>
      match own s !! p with
      | Some i => if running s p && child_field p f then Some (upd_tb (store_f i f t) s) else None
      | None => None
      end
  | PReady p =>
      match own s !! p with
      | Some i =>
          if running s p && bool_decide (p_parent (pr t i) = Some p)
          then Some {| tb := store_f i (Fstate RUNNABLE) t; own := delete p (own s); wk := wk s |}
          else None
      | None => None
      end
  | PFail p =>
      match own s !! p with
      | Some i =>
          if running s p && bool_decide (p_parent (pr t i) = None)
          then Some {| tb := store_f i (Fstate UNUSED) t; own := delete p (own s); wk := wk s |}
          else None
      | None => None
      end
  | PExit p =>
      if running s p && bool_decide (own s !! p = None) && bool_decide (initproc t <> Some p)
      then Some (upd_tb (exit_sec p t) s) else None
  | PWait k p =>
      if running s p && bool_decide (own s !! p = None) then
        match wait_sec k p t with
        | WReap i t' => Some {| tb := t'; own := own s; wk := delete p (wk s) |}
        | WNone => Some {| tb := t; own := own s; wk := delete p (wk s) |}
        | WSleep t' => Some {| tb := t'; own := own s; wk := <[p := k]> (wk s) |}
        end
      else None
  | PSleep p c =>
      if running s p then Some {| tb := sleep_sec p c t; own := own s; wk := delete p (wk s) |} else None
  | PTidy p =>
      if running s p then Some {| tb := store_f p (Fchan None) t; own := own s; wk := delete p (wk s) |} else None
  | PYield p => if running s p then Some (upd_tb (store_f p (Fstate RUNNABLE) t) s) else None
  | PRun p =>
      if bool_decide (p < length (procs t))%nat && is_state RUNNABLE (pr t p)
      then Some (upd_tb (store_f p (Fstate RUNNING) t) s) else None
  | PWakeup c => Some (upd_tb (wakeup1 c t) s)
  | PKill pid => Some (upd_tb (kill_sec pid t).2 s)
  | PGrow p sz =>
      if running s p then Some (upd_tb (grow_threads p (store_f p (Fsz sz) t)) s) else None
  | PSelf p f => if running s p && own_field f then Some (upd_tb (store_f p f t) s) else None
  end.

(** The table [userinit] leaves: the first process, in entry 0. *)
Definition ptab_empty : ptab :=
  {| procs := replicate NPROC inhabitant; initproc := None; nextpid := 1 |}.
Definition psys0 : psys :=
  let t := match alloc_slot ptab_empty with
           | Some (i, t) => store_f i (Fstate RUNNABLE)
                              {| procs := procs t; initproc := Some i; nextpid := nextpid t |}
           | None => ptab_empty
           end in
  {| tb := t; own := ∅; wk := ∅ |}.

(** [preach n s]: [s] is reached from [psys0] in [n] actions. *)
Inductive preach : nat -> psys -> Prop :=
  | preach_boot : preach 0 psys0
  | preach_step n s a s' : preach n s -> pnext a s = Some s' -> preach (S n) s'.

Fixpoint prun (l : list paction) (s : psys) : option psys :=
  match l with
  | [] => Some s
  | a :: l' => match pnext a s with Some s' => prun l' s' | None => None end
  end.

Lemma prun_reach l n s s' : preach n s -> prun l s = Some s' -> preach (n + length l) s'.
Proof.
  revert n s. induction l as [|a l IH]; intros n s H E; simpl in *; simplify_eq.
  - by rewrite Nat.add_0_r.
  - destruct (pnext a s) as [s1|] eqn:Ea; [|done]. rewrite <- Nat.add_succ_comm.
    apply (IH _ s1); [by eapply preach_step|done].
Qed.

(** ** Entries after an update *)

Lemma pr_upd t i g j :
  (i < length (procs t))%nat -> pr (upd_proc i g t) j = if decide (i = j) then g (pr t i) else pr t j.
Proof.
  intros Hi. unfold pr, upd_proc. cbn. case_decide as E; [subst j|].
  - by rewrite list_lookup_total_insert_eq.
  - by rewrite list_lookup_total_insert_ne.
Qed.
Lemma pr_store t i f j :
  (i < length (procs t))%nat -> pr (store_f i f t) j = if decide (i = j) then setf f (pr t i) else pr t j.
Proof. apply pr_upd. Qed.
Lemma pr_store2 t i f g j :
  (i < length (procs t))%nat ->
  pr (store_f i f (store_f i g t)) j = if decide (i = j) then setf f (setf g (pr t i)) else pr t j.
Proof.
  intros Hi. rewrite pr_store by (cbn; by rewrite length_insert). rewrite !pr_store by done.
  case_decide; [|done]. by rewrite decide_True.
Qed.
Lemma len_store t i f : length (procs (store_f i f t)) = length (procs t).
Proof. cbn. apply length_insert. Qed.
Lemma pr_fmap g t j : (j < length (procs t))%nat -> pr (set_procs (g <$> procs t) t) j = g (pr t j).
Proof. intros Hj. unfold pr. cbn. by rewrite (list_lookup_total_fmap g). Qed.

Definition live (p : proc) : bool :=
  match p_state p with SLEEPING | RUNNABLE | RUNNING => true | _ => false end.

(** ** The invariant *)

(** [p] sleeps in [wait] or [thread_join] for a reason. *)
Definition waiting_ok (s : psys) (p : nat) (k : bool) : Prop :=
  p_chan (pr (tb s) p) = Some (proc_chan p) /\ p_killed (pr (tb s) p) = false /\ own s !! p = None /\
  (forall c, (c < NPROC)%nat -> p_parent (pr (tb s) c) = Some p -> p_isthread (pr (tb s) c) = k ->
     p_state (pr (tb s) c) <> ZOMBIE) /\
  exists c, (c < NPROC)%nat /\ p_parent (pr (tb s) c) = Some p /\ p_isthread (pr (tb s) c) = k /\
    live (pr (tb s) c) = true.

Record pinv (n : Z) (s : psys) : Prop := {
  v_len : length (procs (tb s)) = NPROC;
  v_next : 0 < nextpid (tb s) <= n;
  v_pid : forall i, (i < NPROC)%nat -> p_state (pr (tb s) i) <> UNUSED ->
    0 < p_pid (pr (tb s) i) < nextpid (tb s);
  v_distinct : forall i j, (i < NPROC)%nat -> (j < NPROC)%nat -> i <> j ->
    p_state (pr (tb s) i) <> UNUSED -> p_state (pr (tb s) j) <> UNUSED ->
    p_pid (pr (tb s) i) <> p_pid (pr (tb s) j);
  v_init : exists ip, initproc (tb s) = Some ip /\ (ip < NPROC)%nat /\ live (pr (tb s) ip) = true;
  v_parent : forall i, (i < NPROC)%nat -> live (pr (tb s) i) = true \/ p_state (pr (tb s) i) = ZOMBIE ->
    initproc (tb s) <> Some i ->
    exists q, p_parent (pr (tb s) i) = Some q /\ (q < NPROC)%nat /\ live (pr (tb s) q) = true;
  v_unused : forall i, (i < NPROC)%nat -> p_state (pr (tb s) i) = UNUSED -> p_parent (pr (tb s) i) = None;
  v_root : forall ip, initproc (tb s) = Some ip -> p_parent (pr (tb s) ip) = None;
  v_noself : forall i, (i < NPROC)%nat -> p_parent (pr (tb s) i) <> Some i;
  v_own : forall p i, own s !! p = Some i ->
    (p < NPROC)%nat /\ (i < NPROC)%nat /\ live (pr (tb s) p) = true /\ p_state (pr (tb s) i) = EMBRYO /\
    (p_parent (pr (tb s) i) = None \/ p_parent (pr (tb s) i) = Some p);
  v_inj : forall p q i, own s !! p = Some i -> own s !! q = Some i -> p = q;
  v_embryo : forall i, (i < NPROC)%nat -> p_state (pr (tb s) i) = EMBRYO -> exists p, own s !! p = Some i;
  v_wait : forall p k, (p < NPROC)%nat -> wk s !! p = Some k -> p_state (pr (tb s) p) = SLEEPING ->
    waiting_ok s p k;
}.

(** Two entries that the invariant cannot tell apart, except that a process
    that is alive may be scheduled differently. *)
Record soft (p p' : proc) : Prop := {
  so_pid : p_pid p' = p_pid p;
  so_parent : p_parent p' = p_parent p;
  so_thread : p_isthread p' = p_isthread p;
  so_state : p_state p' = p_state p \/ live p = true /\ live p' = true;
}.

Lemma soft_live p p' : soft p p' -> live p' = live p.
Proof. intros [_ _ _ [E|[-> ->]]]; [|done]. unfold live. by rewrite E. Qed.
Lemma soft_dead p p' st : soft p p' -> st = UNUSED \/ st = EMBRYO \/ st = ZOMBIE ->
  p_state p' = st <-> p_state p = st.
Proof.
  intros [_ _ _ [->|[H H']]] Hst; [done|]. unfold live in *.
  split; intros E; rewrite E in *; destruct Hst as [-> |[-> | ->]]; done.
Qed.

Lemma pinv_soft n s t' wk' :
  pinv n s -> length (procs t') = length (procs (tb s)) ->
  initproc t' = initproc (tb s) -> nextpid t' = nextpid (tb s) ->
  (forall j, (j < NPROC)%nat -> soft (pr (tb s) j) (pr t' j)) ->
  (forall j k, (j < NPROC)%nat -> wk' !! j = Some k -> p_state (pr t' j) = SLEEPING ->
     wk s !! j = Some k /\ p_state (pr (tb s) j) = SLEEPING /\
     p_chan (pr t' j) = p_chan (pr (tb s) j) /\ p_killed (pr t' j) = p_killed (pr (tb s) j)) ->
  pinv n {| tb := t'; own := own s; wk := wk' |}.
Proof.
  intros I Hl Hi Hn Hs Hw.
  assert (forall j, (j < NPROC)%nat -> live (pr t' j) = live (pr (tb s) j)) as HL by (intros; by apply soft_live, Hs).
  assert (forall j, (j < NPROC)%nat -> p_pid (pr t' j) = p_pid (pr (tb s) j)) as HP by (intros; by apply Hs).
  assert (forall j, (j < NPROC)%nat -> p_parent (pr t' j) = p_parent (pr (tb s) j)) as HQ by (intros; by apply Hs).
  assert (forall j, (j < NPROC)%nat -> p_isthread (pr t' j) = p_isthread (pr (tb s) j)) as HT by (intros; by apply Hs).
  assert (forall st j, st = UNUSED \/ st = EMBRYO \/ st = ZOMBIE -> (j < NPROC)%nat ->
    p_state (pr t' j) = st <-> p_state (pr (tb s) j) = st) as HD by (intros; apply soft_dead; auto).
  split; cbn [tb own wk].
  - rewrite Hl. apply I.
  - rewrite Hn. apply I.
  - intros i Hi' Hu. rewrite HP, Hn by done. apply I; [done|]. by rewrite <- (HD UNUSED) by auto.
  - intros i j Hi' Hj Hne Hu Hu'. rewrite !HP by done. apply I; try done.
    + by rewrite <- (HD UNUSED) by auto.
    + by rewrite <- (HD UNUSED) by auto.
  - destruct (v_init _ _ I) as (ip & ? & ? & ?). exists ip. rewrite Hi, HL by done. done.
  - intros i Hi' Ha Hni. rewrite HL, (HD ZOMBIE) in Ha by auto. rewrite Hi in Hni.
    destruct (v_parent _ _ I i Hi' Ha Hni) as (q & ? & ? & ?). exists q. rewrite HQ, HL by done. done.
  - intros i Hi' Hu. rewrite HQ by done. apply I; [done|]. by apply HD; auto.
  - intros ip Hip. rewrite Hi in Hip. destruct (v_init _ _ I) as (ip' & ? & ? & ?). simplify_eq.
    rewrite HQ by done. by apply (v_root _ _ I).
  - intros i Hi'. rewrite HQ by done. by apply (v_noself _ _ I).
  - intros p i Ho. destruct (v_own _ _ I p i Ho) as (? & ? & ? & ? & ?). rewrite HL, HQ by done.
    split_and!; try done. by apply HD; auto.
  - intros p q i H1 H2. by eapply (v_inj _ _ I).
  - intros i Hi' He. apply I; [done|]. by apply HD; auto.
  - intros p k Hp Hk Hst. destruct (Hw p k Hp Hk Hst) as (Hk' & Hs' & Hc & Hkl).
    destruct (v_wait _ _ I p k Hp Hk' Hs') as (W1 & W2 & W3 & W4 & c & W5 & W6 & W7 & W8).
    unfold waiting_ok. cbn [tb own wk]. rewrite Hc, Hkl. split_and!; try done.
    + intros c' Hc' Hpar Hth. rewrite HQ, HT in * by done. rewrite (HD ZOMBIE) by auto. by apply W4.
    + exists c. rewrite HQ, HT, HL by done. done.
Qed.

(** ** Actions that only reschedule *)

Lemma soft_refl p : soft p p.
Proof. split; auto. Qed.

Definition soft_field (p : proc) (f : pfield) : bool :=
  match f with
  | Fpid _ | Fparent _ | Fisthread _ => false
  | Fstate st => live p && live (setf f p)
  | _ => true
  end.
Lemma soft_setf p f : soft_field p f = true -> soft p (setf f p).
Proof.
  destruct f; cbn; try discriminate; intros H; split; cbn; auto.
  right. by apply andb_true_iff.
Qed.
Lemma soft_store t i f j : soft_field (pr t i) f = true -> (i < length (procs t))%nat ->
  soft (pr t j) (pr (store_f i f t) j).
Proof. intros Hf Hi. rewrite pr_store by done. case_decide; [subst; by apply soft_setf|apply soft_refl]. Qed.
Lemma soft_wakeup c t j : (j < length (procs t))%nat -> soft (pr t j) (pr (wakeup1 c t) j).
Proof.
  intros Hj. unfold wakeup1. rewrite pr_fmap by done. unfold wakeup1_proc.
  destruct (is_state SLEEPING (pr t j)) eqn:E; cbn [andb]; [|apply soft_refl].
  apply bool_decide_eq_true in E. case_bool_decide; [|apply soft_refl]. apply soft_setf. cbn. unfold live. by rewrite E.
Qed.

Lemma running_spec n s p : pinv n s -> running s p = true ->
  (p < NPROC)%nat /\ (p < length (procs (tb s)))%nat /\ p_state (pr (tb s) p) = RUNNING /\ live (pr (tb s) p) = true.
Proof.
  intros I H. apply andb_true_iff in H as [H1 H2]. apply bool_decide_eq_true in H1, H2.
  rewrite (v_len _ _ I) in *. unfold live. by rewrite H2.
Qed.

(** A store by a running process to its own entry. *)
Lemma pinv_self n s p f wk' :
  pinv n s -> running s p = true -> soft_field (pr (tb s) p) f = true -> f <> Fstate SLEEPING ->
  wk' ⊆ wk s ->
  pinv n {| tb := store_f p f (tb s); own := own s; wk := wk' |}.
Proof.
  intros I Hr Hf Hns Hsub. destruct (running_spec n s p I Hr) as (Hp & Hl & Hst & Hlv).
  apply pinv_soft; try done.
  - apply len_store.
  - intros j Hj. by apply soft_store.
  - intros j k Hj Hk HS. pose proof (lookup_weaken _ _ _ _ Hk Hsub).
    rewrite pr_store in * by done. case_decide; [|done]. subst j.
    destruct f; cbn in *; congruence.
Qed.

Lemma pinv_wakeup n s c : pinv n s -> pinv n (upd_tb (wakeup1 c (tb s)) s).
Proof.
  intros I. apply pinv_soft; try done.
  - cbn. apply length_fmap.
  - intros j Hj. apply soft_wakeup. by rewrite (v_len _ _ I).
  - intros j k Hj Hk HS. unfold wakeup1 in *. rewrite pr_fmap in * by (by rewrite (v_len _ _ I)).
    unfold wakeup1_proc in *. destruct (_ && _); [done|]. by split_and!.
Qed.

Lemma find_pid_spec pid l i j :
  find_pid pid l i = Some j -> (i <= j)%nat /\ exists p, l !! (j - i)%nat = Some p /\ p_pid p = pid /\
    forall m q, (m < j - i)%nat -> l !! m = Some q -> p_pid q <> pid.
Proof.
  revert i. induction l as [|p l IH]; intros i H; simpl in H; [done|].
  destruct (Z.eqb_spec (p_pid p) pid) as [E|E]; simplify_eq.
  - split; [lia|]. exists p. rewrite Nat.sub_diag. split_and!; [done|done|lia].
  - apply IH in H as (? & q & Hq & E2 & Hlt). split; [lia|]. exists q.
    replace (j - i)%nat with (S (j - S i)) by lia. split_and!; [done|done|].
    intros [|m] q' Hm Hq'; simpl in Hq'; [by simplify_eq|]. apply (Hlt m); [lia|done].
Qed.

Lemma find_pid_pr pid t i : find_pid pid (procs t) 0 = Some i ->
  (i < length (procs t))%nat /\ p_pid (pr t i) = pid.
Proof.
  intros H. apply find_pid_spec in H as (_ & p & Hp & E & _). rewrite Nat.sub_0_r in Hp. split.
  - by eapply lookup_lt_Some.
  - unfold pr. by rewrite (list_lookup_total_correct _ _ _ Hp).
Qed.

Lemma pinv_kill n s pid : pinv n s -> pinv n (upd_tb (kill_sec pid (tb s)).2 s).
Proof.
  intros I. unfold kill_sec. destruct (find_pid pid (procs (tb s)) 0) as [i|] eqn:E; cbn [snd]; [|by destruct s].
  apply find_pid_pr in E as [Hi _].
  assert (soft_field (pr (tb s) i) (Fkilled true) = true) as Hk by done.
  destruct (is_state SLEEPING (pr (store_f i (Fkilled true) (tb s)) i)) eqn:Es; apply pinv_soft; try done;
    rewrite ?len_store; try done.
  - intros j Hj. rewrite pr_store2 by done. case_decide; subst; [|apply soft_refl].
    apply bool_decide_eq_true in Es. rewrite pr_store, decide_True in Es by done. cbn in Es.
    split; cbn; auto. right. unfold live. by rewrite Es.
  - intros j k Hj Hwk. rewrite pr_store2 by done. by case_decide.
  - intros j Hj. by apply soft_store.
  - intros j k Hj Hwk HS. rewrite pr_store in * by done. case_decide; [|done]. subst j.
    apply bool_decide_eq_false in Es. rewrite decide_True in Es by done. by cbn in *.
Qed.

Lemma pinv_grow n s p sz : pinv n s -> running s p = true ->
  pinv n (upd_tb (grow_threads p (store_f p (Fsz sz) (tb s))) s).
Proof.
  intros I Hr. destruct (running_spec n s p I Hr) as (Hp & Hl & Hst & Hlv).
  assert (forall j, (j < NPROC)%nat -> exists v w,
    pr (grow_threads p (store_f p (Fsz sz) (tb s))) j = setf (Fsz v) (setf (Fsz w) (pr (tb s) j))) as H.
  { intros j Hj. unfold grow_threads. rewrite pr_fmap by (rewrite len_store, (v_len _ _ I); done).
    rewrite (pr_store _ _ _ j) by done.
    assert (forall q, exists v w, q = setf (Fsz v) (setf (Fsz w) q)) as Hq.
    { intros []. eexists _, 0. cbn. reflexivity. }
    assert (forall q v, exists v' w, setf (Fsz v) q = setf (Fsz v') (setf (Fsz w) q)) as Hq1.
    { intros q v. by exists v, 0. }
    destruct (_ && _); case_decide; subst; eauto. }
  apply pinv_soft; try done.
  - cbn. by rewrite length_fmap, length_insert.
  - intros j Hj. destruct (H j Hj) as (v & w & ->). split; cbn; auto.
  - intros j k Hj Hk. destruct (H j Hj) as (v & w & ->). done.
Qed.

Lemma pinv_run n s p : pinv n s -> (p < length (procs (tb s)))%nat -> is_state RUNNABLE (pr (tb s) p) = true ->
  pinv n (upd_tb (store_f p (Fstate RUNNING) (tb s)) s).
Proof.
  intros I Hl Hs. apply bool_decide_eq_true in Hs. apply pinv_soft; try done.
  - apply len_store.
  - intros j Hj. apply soft_store; [|done]. cbn. unfold live. by rewrite Hs.
  - intros j k Hj Hk. rewrite pr_store by done. by case_decide.
Qed.

Lemma pinv_sleep n s p c : pinv n s -> running s p = true ->
  pinv n {| tb := sleep_sec p c (tb s); own := own s; wk := delete p (wk s) |}.
Proof.
  intros I Hr. destruct (running_spec n s p I Hr) as (Hp & Hl & Hst & Hlv).
  unfold sleep_sec. apply pinv_soft; rewrite ?len_store; try done.
  - intros j Hj. rewrite pr_store2 by done. case_decide; subst; [|apply soft_refl]. split; cbn; auto.
  - intros j k Hj Hk. assert (p <> j) by (intros ->; by rewrite lookup_delete_eq in Hk).
    rewrite lookup_delete_ne in Hk by done. rewrite pr_store2 by done. by rewrite decide_False.
Qed.

(** ** Creating a process *)

Lemma find_state_spec st l i j :
  find_state st l i = Some j -> (i <= j)%nat /\ exists p, l !! (j - i)%nat = Some p /\ p_state p = st.
Proof.
  revert i. induction l as [|p l IH]; intros i H; simpl in H; [done|].
  unfold is_state in H. case_bool_decide as E; simplify_eq.
  - split; [lia|]. exists p. by rewrite Nat.sub_diag.
  - apply IH in H as (? & q & Hq & E2). split; [lia|]. exists q.
    by replace (j - i)%nat with (S (j - S i)) by lia.
Qed.

Lemma alloc_slot_spec t i t' :
  alloc_slot t = Some (i, t') ->
  (i < length (procs t))%nat /\ p_state (pr t i) = UNUSED /\ length (procs t') = length (procs t) /\
  initproc t' = initproc t /\ nextpid t' = i32 (nextpid t + 1) /\
  forall j, pr t' j = if decide (i = j) then setf (Fpid (nextpid t)) (setf (Fstate EMBRYO) (pr t i)) else pr t j.
Proof.
  intros H. unfold alloc_slot in H. destruct (find_state _ _ _) as [k|] eqn:E; [|done]. simplify_eq.
  apply find_state_spec in E as (_ & p & Hp & E). rewrite Nat.sub_0_r in Hp.
  pose proof (lookup_lt_Some _ _ _ Hp) as Hl. split_and!; try done.
  - unfold pr. by rewrite (list_lookup_total_correct _ _ _ Hp).
  - cbn. by rewrite !length_insert.
  - intros j. by apply pr_store2.
Qed.

Lemma live_not p : live p = true -> p_state p <> UNUSED /\ p_state p <> EMBRYO /\ p_state p <> ZOMBIE.
Proof. unfold live. by destruct (p_state p). Qed.
Lemma running_live p : p_state p = RUNNING -> live p = true.
Proof. unfold live. by intros ->. Qed.
Lemma live_setf f p : match f with Fstate _ => False | _ => True end -> live (setf f p) = live p.
Proof. by destruct f. Qed.

(** What the invariant needs of a table in which entry [i], not alive before or
    after, was changed. *)
Lemma pinv_entry n n' s i x t' own' :
  pinv n s -> (i < NPROC)%nat ->
  length (procs t') = length (procs (tb s)) -> initproc t' = initproc (tb s) ->
  nextpid (tb s) <= nextpid t' <= n' ->
  (forall j, pr t' j = if decide (i = j) then x else pr (tb s) j) ->
  live (pr (tb s) i) = false -> p_parent x <> Some i ->
  live x = false -> p_state x <> ZOMBIE ->
  (p_state x <> UNUSED -> 0 < p_pid x < nextpid t' /\
     forall j, (j < NPROC)%nat -> i <> j -> p_state (pr (tb s) j) <> UNUSED -> p_pid (pr (tb s) j) <> p_pid x) ->
  (p_state x = UNUSED -> p_parent x = None) ->
  (forall p j, own' !! p = Some j -> j <> i -> own s !! p = Some j) ->
  (forall p j, own s !! p = Some j -> j <> i -> own' !! p = Some j) ->
  (forall p, own' !! p = Some i -> (p < NPROC)%nat /\ live (pr (tb s) p) = true /\ p_state x = EMBRYO /\
     (p_parent x = None \/ p_parent x = Some p)) ->
  (forall p q, own' !! p = Some i -> own' !! q = Some i -> p = q) ->
  (p_state x = EMBRYO -> exists p, own' !! p = Some i) ->
  (forall p, own s !! p = None -> p_state (pr (tb s) p) = SLEEPING -> own' !! p = None) ->
  pinv n' {| tb := t'; own := own'; wk := wk s |}.
Proof.
  intros I Hi Hl Hip Hn H Hdead Hns Hxl HxZ Hpid Hun Ho1 Ho2 Hoi Hinj Hem Hsl.
  assert (forall j, live (pr (tb s) j) = true -> i <> j) as Hne by (intros j Hj ->; congruence).
  assert (forall j, live (pr (tb s) j) = true -> live (pr t' j) = true) as Hlv
    by (intros j Hj; rewrite H, decide_False; auto).
  split; cbn [tb own wk].
  - rewrite Hl. apply I.
  - pose proof (v_next _ _ I). lia.
  - intros j Hj. rewrite H. case_decide; subst; intros Hu; [by apply Hpid|].
    pose proof (v_pid _ _ I j Hj Hu). lia.
  - intros j k Hj Hk Hjk. rewrite !H. repeat case_decide; subst; try done; intros Hu Hu'.
    + apply not_eq_sym. by apply Hpid.
    + by apply Hpid.
    + by apply I.
  - destruct (v_init _ _ I) as (ip & ? & ? & ?). exists ip. rewrite Hip. auto.
  - intros j Hj. rewrite H, Hip. case_decide; subst; [by intros [?|?]; congruence|]. intros Ha Hni.
    destruct (v_parent _ _ I j Hj Ha Hni) as (q & ? & ? & ?). exists q. auto.
  - intros j Hj. rewrite H. case_decide; subst; [done|]. by apply I.
  - intros ip Hip'. rewrite Hip in Hip'. destruct (v_init _ _ I) as (ip' & ? & ? & ?). simplify_eq.
    rewrite H, decide_False by auto. by apply (v_root _ _ I).
  - intros j Hj. rewrite H. case_decide; subst; [done|]. by apply I.
  - intros p j Hpj. destruct (decide (j = i)) as [->|Hji].
    + rewrite (H i), decide_True by done. destruct (Hoi p Hpj) as (? & ? & ? & ?). split_and!; auto.
    + destruct (v_own _ _ I p j (Ho1 _ _ Hpj Hji)) as (? & ? & ? & ? & ?).
      rewrite (H j), decide_False by congruence. split_and!; auto.
  - intros p q j Hpj Hqj. destruct (decide (j = i)) as [->|Hji]; [by apply Hinj|].
    apply (v_inj _ _ I p q j); by apply Ho1.
  - intros j Hj. rewrite H. case_decide; subst; [done|]. intros E.
    destruct (v_embryo _ _ I j Hj E) as [p Hp]. exists p. apply Ho2; congruence.
  - intros p k Hp Hk HS. rewrite H in HS. case_decide; subst; [unfold live in Hxl; by rewrite HS in Hxl|].
    destruct (v_wait _ _ I p k Hp Hk HS) as (W1 & W2 & W3 & W4 & c & W5 & W6 & W7 & W8).
    unfold waiting_ok. cbn [tb own wk]. rewrite !(H p), !decide_False by done. split_and!; auto.
    + intros c' Hc'. rewrite H. case_decide; subst; [done|]. by apply W4.
    + exists c. rewrite (H c), decide_False by auto. auto.
Qed.

Lemma dead_state p : live p = false <-> p_state p = UNUSED \/ p_state p = EMBRYO \/ p_state p = ZOMBIE.
Proof. unfold live. destruct (p_state p); intuition discriminate. Qed.

Lemma pinv_alloc n s p i t' :
  pinv n s -> n < 2147483647 -> running s p = true -> own s !! p = None -> alloc_slot (tb s) = Some (i, t') ->
  pinv (n + 1) {| tb := t'; own := <[p := i]> (own s); wk := wk s |}.
Proof.
  intros I Hb Hr Ho E. destruct (running_spec n s p I Hr) as (Hp & _ & Hst & Hlv).
  destruct (alloc_slot_spec _ _ _ E) as (Hi & Hu & Hl & Hip & Hnp & Hpr).
  pose proof (v_next _ _ I) as Hn. rewrite (v_len _ _ I) in Hi. rewrite i32_small in Hnp by lia.
  assert (forall q, own s !! q <> Some i) as Hno.
  { intros q Hq. apply (v_own _ _ I) in Hq as (_ & _ & _ & Hq & _). congruence. }
  eapply pinv_entry; try eassumption; cbn [setf p_state p_pid p_parent]; try done.
  - lia.
  - apply dead_state. auto.
  - by rewrite (v_unused _ _ I i Hi Hu).
  - intros _. split; [lia|]. intros j Hj _ Hj'. pose proof (v_pid _ _ I j Hj Hj'). lia.
  - intros q j Hq Hj. destruct (decide (p = q)) as [->|]; [rewrite lookup_insert_eq in Hq; congruence|].
    by rewrite lookup_insert_ne in Hq.
  - intros q j Hq Hj. rewrite lookup_insert_ne; [done|]. intros ->. congruence.
  - intros q Hq. destruct (decide (p = q)) as [->|].
    + rewrite (v_unused _ _ I i Hi Hu). auto.
    + rewrite lookup_insert_ne in Hq by done. by apply Hno in Hq.
  - intros q q' Hq Hq'. destruct (decide (p = q)) as [->|], (decide (q = q')) as [->|]; try done.
    + rewrite lookup_insert_ne in Hq' by done. by apply Hno in Hq'.
    + rewrite lookup_insert_ne in Hq by done. by apply Hno in Hq.
  - intros _. exists p. apply lookup_insert_eq.
  - intros q Hq HS. rewrite lookup_insert_ne; [done|]. intros ->. congruence.
Qed.

Lemma pinv_store n s p i f :
  pinv n s -> own s !! p = Some i -> child_field p f = true -> pinv n (upd_tb (store_f i f (tb s)) s).
Proof.
  intros I Ho Hf. destruct (v_own _ _ I p i Ho) as (Hp & Hi & Hlv & He & Hpar).
  assert (i < length (procs (tb s)))%nat as Hl by (by rewrite (v_len _ _ I)).
  assert (p_state (setf f (pr (tb s) i)) = EMBRYO) as HE by (by destruct f).
  assert (p_pid (setf f (pr (tb s) i)) = p_pid (pr (tb s) i)) as HP by (by destruct f).
  pose proof (v_pid _ _ I i Hi) as Hpid.
  eapply (pinv_entry n n s i (setf f (pr (tb s) i))); try done.
  - apply len_store.
  - pose proof (v_next _ _ I). cbn. lia.
  - intros j. by apply pr_store.
  - apply dead_state. auto.
  - assert (i <> p) by (intros ->; apply live_not in Hlv; intuition congruence).
    destruct f; cbn in *; try (by apply (v_noself _ _ I)); [by apply bool_decide_eq_true in Hf; congruence].
  - apply dead_state. auto.
  - by rewrite HE.
  - intros _. rewrite HP. split; [apply Hpid; congruence|].
    intros j Hj Hij Hu. apply not_eq_sym, I; try done. congruence.
  - by rewrite HE.
  - intros q Hq. rewrite (v_inj _ _ I q p i Hq Ho). split_and!; try done.
    destruct f; cbn in *; auto; [by apply bool_decide_eq_true in Hf; auto].
  - intros q q' Hq Hq'. by rewrite (v_inj _ _ I q p i), (v_inj _ _ I q' p i).
  - eauto.
Qed.

Lemma pinv_fail n s p i :
  pinv n s -> own s !! p = Some i -> p_parent (pr (tb s) i) = None ->
  pinv n {| tb := store_f i (Fstate UNUSED) (tb s); own := delete p (own s); wk := wk s |}.
Proof.
  intros I Ho Hpar. destruct (v_own _ _ I p i Ho) as (Hp & Hi & Hlv & He & _).
  assert (i < length (procs (tb s)))%nat as Hl by (by rewrite (v_len _ _ I)).
  assert (forall q, delete p (own s) !! q <> Some i) as Hno.
  { intros q. rewrite lookup_delete_Some. intros [Hne Hq]. by apply Hne, (v_inj _ _ I p q i). }
  eapply (pinv_entry n n s i (setf (Fstate UNUSED) (pr (tb s) i))); try done.
  - apply len_store.
  - pose proof (v_next _ _ I). cbn. lia.
  - intros j. by apply pr_store.
  - apply dead_state. auto.
  - by apply (v_noself _ _ I).
  - intros q j. rewrite lookup_delete_Some. by intros [_ ?].
  - intros q j Hq Hj. rewrite lookup_delete_ne; [done|]. intros ->. congruence.
  - intros q Hq. by apply Hno in Hq.
  - intros q q' Hq. by apply Hno in Hq.
  - intros q Hq _. by rewrite lookup_delete_None; auto.
Qed.

Lemma pinv_ready n s p i :
  pinv n s -> own s !! p = Some i -> p_parent (pr (tb s) i) = Some p ->
  pinv n {| tb := store_f i (Fstate RUNNABLE) (tb s); own := delete p (own s); wk := wk s |}.
Proof.
  intros I Ho Hpar. destruct (v_own _ _ I p i Ho) as (Hp & Hi & Hlv & He & _).
  assert (i < length (procs (tb s)))%nat as Hl by (by rewrite (v_len _ _ I)).
  assert (forall j, pr (store_f i (Fstate RUNNABLE) (tb s)) j =
    if decide (i = j) then setf (Fstate RUNNABLE) (pr (tb s) i) else pr (tb s) j) as H by (intros; by apply pr_store).
  assert (forall j, live (pr (tb s) j) = true -> i <> j) as Hne
    by (intros j Hj ->; apply live_not in Hj; intuition congruence).
  assert (forall j, live (pr (tb s) j) = true -> live (pr (store_f i (Fstate RUNNABLE) (tb s)) j) = true) as Hlv'
    by (intros j Hj; rewrite H, decide_False; auto).
  split; cbn [tb own wk].
  - rewrite len_store. apply I.
  - apply I.
  - intros j Hj. rewrite H. case_decide; subst; intros Hu; [apply (v_pid _ _ I); congruence|by apply I].
  - intros j k Hj Hk Hjk. rewrite !H. repeat case_decide; subst; try done; intros Hu Hu';
      apply (v_distinct _ _ I); congruence.
  - destruct (v_init _ _ I) as (ip & ? & ? & ?). exists ip. auto.
  - intros j Hj. rewrite H. case_decide as Ed; intros Ha Hni; [subst j; exists p; auto|].
    destruct (v_parent _ _ I j Hj Ha Hni) as (q & ? & ? & ?). exists q. auto.
  - intros j Hj. rewrite H. case_decide; subst; [done|]. by apply I.
  - intros ip Hip. change (initproc (tb s) = Some ip) in Hip. destruct (v_init _ _ I) as (ip' & ? & ? & ?). simplify_eq.
    rewrite H, decide_False by auto. by apply (v_root _ _ I).
  - intros j Hj. rewrite H. case_decide; subst; by apply (v_noself _ _ I).
  - intros q j. rewrite lookup_delete_Some. intros [Hpq Hq].
    destruct (v_own _ _ I q j Hq) as (? & ? & ? & ? & ?).
    assert (i <> j) by (intros ->; by apply Hpq, (v_inj _ _ I p q j)).
    rewrite (H j), decide_False by done. split_and!; auto.
  - intros q q' j. rewrite !lookup_delete_Some. intros [_ ?] [_ ?]. by apply (v_inj _ _ I q q' j).
  - intros j Hj. rewrite H. case_decide; subst; [done|]. intros E.
    destruct (v_embryo _ _ I j Hj E) as [q Hq]. exists q. rewrite lookup_delete_ne; [done|]. intros ->. congruence.
  - intros q k Hq Hk HS. rewrite H in HS. case_decide; subst; [done|].
    destruct (v_wait _ _ I q k Hq Hk HS) as (W1 & W2 & W3 & W4 & c & W5 & W6 & W7 & W8).
    unfold waiting_ok. cbn [tb own wk]. rewrite !(H q), !decide_False by done. split_and!; auto.
    + by rewrite lookup_delete_None; auto.
    + intros c' Hc'. rewrite H. case_decide; subst; [done|]. by apply W4.
    + exists c. rewrite (H c), decide_False by auto. auto.
Qed.

(** ** Waiting *)

Lemma pinv_wk n s wk' : pinv n s -> wk' ⊆ wk s -> pinv n {| tb := tb s; own := own s; wk := wk' |}.
Proof.
  intros I Hs. apply pinv_soft; try done.
  - intros. apply soft_refl.
  - intros j k Hj Hk HS. by pose proof (lookup_weaken _ _ _ _ Hk Hs).
Qed.

(** The children of [me] that a scan for kind [k] is about. *)
Definition kid (k : bool) (me : nat) (p : proc) : Prop := p_isthread p = k /\ p_parent p = Some me.

Lemma wait_scan_spec k me l i h :
  match wait_scan k me l i h with
  | inl j => (i <= j)%nat /\ exists p, l !! (j - i)%nat = Some p /\ kid k me p /\ p_state p = ZOMBIE
  | inr b => (forall j p, l !! j = Some p -> kid k me p -> p_state p <> ZOMBIE) /\
             (b = true <-> h = true \/ exists j p, l !! j = Some p /\ kid k me p)
  end.
Proof.
  revert i h. induction l as [|p l IH]; intros i h; simpl; [naive_solver|].
  unfold kid in *. destruct (bool_decide (p_isthread p <> k) || bool_decide (p_parent p <> Some me)) eqn:E.
  - assert (~ (p_isthread p = k /\ p_parent p = Some me)) as Hn.
    { apply orb_true_iff in E as [E|E]; apply bool_decide_eq_true in E; naive_solver. }
    specialize (IH (S i) h). destruct (wait_scan _ _ _ _ _) as [j|b].
    + destruct IH as (? & q & Hq & ?). split; [lia|]. exists q.
      by replace (j - i)%nat with (S (j - S i)) by lia.
    + destruct IH as [H1 H2]. split; [intros [|j] q Hq; simpl in *; [naive_solver|by eapply H1]|].
      rewrite H2. split; (intros [?|(j & q & Hq & ?)]; [by left|right]).
      * by exists (S j), q.
      * destruct j as [|j]; simpl in Hq; [naive_solver|by exists j, q].
  - apply orb_false_iff in E as [E1 E2]. apply bool_decide_eq_false in E1, E2.
    apply dec_stable in E1, E2. unfold is_state. case_bool_decide.
    + split; [lia|]. exists p. rewrite Nat.sub_diag. done.
    + specialize (IH (S i) true). destruct (wait_scan _ _ _ _ _) as [j|b].
      * destruct IH as (? & q & Hq & ?). split; [lia|]. exists q.
        by replace (j - i)%nat with (S (j - S i)) by lia.
      * destruct IH as [H1 H2]. split; [intros [|j] q Hq; simpl in *; [naive_solver|by eapply H1]|].
        rewrite H2. split; [intros _|naive_solver]. right. by exists 0%nat, p.
Qed.

Lemma pr_lookup t j : (j < length (procs t))%nat -> procs t !! j = Some (pr t j).
Proof. intros H. unfold pr. by apply list_lookup_lookup_total_lt. Qed.

Lemma pr_reap t i j : (i < length (procs t))%nat ->
  pr (reap i t) j = if decide (i = j) then
    setf (Fstate UNUSED) (setf (Fkilled false) (setf (Fname (<[0%nat := 0]> (p_name (pr t i))))
      (setf (Fparent None) (setf (Fpid 0) (setf (Fkstack 0) (pr t i)))))) else pr t j.
Proof.
  intros Hi. unfold reap.
  rewrite !pr_store by (repeat (rewrite len_store); done). case_decide; [|done]. subst.
  rewrite !decide_True by done. done.
Qed.
Lemma len_reap t i : length (procs (reap i t)) = length (procs t).
Proof. unfold reap. by rewrite !len_store. Qed.

Lemma pinv_reap n s i :
  pinv n s -> (i < NPROC)%nat -> p_state (pr (tb s) i) = ZOMBIE -> pinv n (upd_tb (reap i (tb s)) s).
Proof.
  intros I Hi Hz. assert (i < length (procs (tb s)))%nat as Hl by (by rewrite (v_len _ _ I)).
  assert (forall q, own s !! q <> Some i) as Hno.
  { intros q Hq. apply (v_own _ _ I) in Hq as (_ & _ & _ & Hq & _). congruence. }
  eapply (pinv_entry n n s i); [done|done|apply len_reap|done| |intros j; by apply pr_reap|..]; try done.
  - pose proof (v_next _ _ I). cbn. lia.
  - apply dead_state. auto.
  - intros q Hq. by apply Hno in Hq.
  - intros q q' Hq. by apply Hno in Hq.
Qed.

Lemma pinv_wait_add n s p k :
  pinv n s -> waiting_ok s p k -> pinv n {| tb := tb s; own := own s; wk := <[p := k]> (wk s) |}.
Proof.
  intros I Hw. destruct I. split; cbn [tb own wk]; try assumption.
  intros q k' Hq Hk HS. destruct (decide (p = q)) as [->|].
  - rewrite lookup_insert_eq in Hk. by simplify_eq.
  - rewrite lookup_insert_ne in Hk by done. by apply v_wait0.
Qed.

Lemma pinv_wait n s p k s' :
  pinv n s -> pnext (PWait k p) s = Some s' -> pinv n s'.
Proof.
  intros I E. cbn [pnext] in E. destruct (running s p) eqn:Hr; [|done].
  case_bool_decide as Ho; [|done]. cbn [andb] in E.
  destruct (running_spec n s p I Hr) as (Hp & Hl & Hst & Hlv).
  pose proof (pinv_wk n s _ I (delete_subseteq (wk s) p)) as Id.
  unfold wait_sec in E. pose proof (wait_scan_spec k p (procs (tb s)) 0 false) as Hw.
  destruct (wait_scan _ _ _ _ _) as [i|b]; simplify_eq.
  - destruct Hw as (_ & q & Hq & _ & Hz). rewrite Nat.sub_0_r in Hq.
    pose proof (lookup_lt_Some _ _ _ Hq) as Hi. rewrite (pr_lookup _ _ Hi) in Hq. simplify_eq.
    apply (pinv_reap n _ i Id); [by rewrite <- (v_len _ _ I)|done].
  - destruct Hw as [Hnz Hb]. destruct (negb b || p_killed (pr (tb s) p)) eqn:Ek; simplify_eq; [done|].
    apply orb_false_iff in Ek as [Eb Ek]. apply negb_false_iff in Eb. subst b.
    destruct Hb as [Hb _]. destruct (Hb eq_refl) as [|(c & q & Hc & Hkid)]; [done|].
    pose proof (lookup_lt_Some _ _ _ Hc) as Hcl. rewrite (pr_lookup _ _ Hcl) in Hc. simplify_eq.
    rewrite <- (insert_delete_eq (wk s) p k).
    apply (pinv_wait_add n _ p k (pinv_sleep n s p (proc_chan p) I Hr)).
    unfold waiting_ok, sleep_sec. cbn [tb own]. rewrite !(pr_store2 _ _ _ _ p) by done.
    rewrite !decide_True by done. split_and!; try done.
    + intros c' Hc'. rewrite pr_store2 by done. case_decide; subst; [done|]. intros Hpar Hth.
      apply (Hnz c'); [apply pr_lookup; by rewrite (v_len _ _ I)|done].
    + exists c. rewrite (v_len _ _ I) in Hcl. destruct Hkid as [Hk1 Hk2].
      assert (live (pr (tb s) c) = true) as Hlc.
      { destruct (live (pr (tb s) c)) eqn:Elc; [done|]. apply dead_state in Elc as [H|[H|H]].
        - pose proof (v_unused _ _ I c Hcl H). congruence.
        - destruct (v_embryo _ _ I c Hcl H) as [q Hq].
          destruct (v_own _ _ I q c Hq) as (_ & _ & _ & _ & [?|?]); congruence.
        - by apply (Hnz c (pr (tb s) c)) in H; [|apply pr_lookup; by rewrite (v_len _ _ I)|done]. }
      rewrite pr_store2 by done. case_decide; subst; done.
Qed.

(** ** Exiting *)

(** What the locked part of [exit] does to an entry other than the caller's:
    it may be woken, and a child of the caller becomes a child of [init]. *)
Record passed (me : nat) (ip : option nat) (p p' : proc) : Prop := {
  pa_pid : p_pid p' = p_pid p;
  pa_parent : p_parent p' = if decide (p_parent p = Some me) then ip else p_parent p;
  pa_thread : p_isthread p' = p_isthread p;
  pa_chan : p_chan p' = p_chan p;
  pa_killed : p_killed p' = p_killed p;
  pa_state : p_state p' = p_state p \/ p_state p = SLEEPING /\ p_state p' = RUNNABLE;
}.

(** The same without the new parent. *)
Definition woke (p p' : proc) : Prop := p' = p \/ p_state p = SLEEPING /\ p' = setf (Fstate RUNNABLE) p.

Lemma woke_trans p q r : woke p q -> woke q r -> woke p r.
Proof. intros [->|[? ->]] [->|[? ->]]; unfold woke; auto. Qed.

Lemma woke_wakeup c t j : (j < length (procs t))%nat -> woke (pr t j) (pr (wakeup1 c t) j).
Proof.
  intros Hj. unfold wakeup1. rewrite pr_fmap by done. unfold wakeup1_proc, is_state.
  case_bool_decide; [|by left]. case_bool_decide; [|by left]. by right.
Qed.
Lemma len_wakeup c t : length (procs (wakeup1 c t)) = length (procs t).
Proof. cbn. apply length_fmap. Qed.

(** [p] does not sleep on [c]. *)
Definition awake (c : chan) (p : proc) : Prop := p_state p = SLEEPING -> p_chan p <> Some c.

Lemma awake_woke c p q : woke p q -> awake c p -> awake c q.
Proof. intros [->|[? ->]]; [done|]. by intros _ ?. Qed.
Lemma awake_wakeup c t j : (j < length (procs t))%nat -> awake c (pr (wakeup1 c t) j).
Proof.
  intros Hj. unfold wakeup1, awake. rewrite pr_fmap by done. unfold wakeup1_proc, is_state.
  case_bool_decide; [|done]. case_bool_decide; done.
Qed.

Definition reparented (me : nat) (ip : option nat) (p : proc) : proc :=
  if decide (p_parent p = Some me) then setf (Fparent ip) p else p.

(** One round of the loop: entry [i] changes parent, and others may be woken. *)
Lemma reparent_loop_spec n i me t ip :
  (i + n = length (procs t))%nat -> initproc t = Some ip -> (ip < length (procs t))%nat ->
  let t' := reparent_loop n i me t in
  length (procs t') = length (procs t) /\ initproc t' = initproc t /\ nextpid t' = nextpid t /\
  (forall j, (j < length (procs t))%nat ->
     woke (if decide (i <= j)%nat then reparented me (Some ip) (pr t j) else pr t j) (pr t' j)) /\
  ((exists j, (i <= j < length (procs t))%nat /\ p_parent (pr t j) = Some me /\ p_state (pr t j) = ZOMBIE) ->
     awake (proc_chan ip) (pr t' ip)).
Proof.
  revert i t. induction n as [|n IH]; intros i t Hlen Hip Hlt; cbn [reparent_loop].
  { split_and!; try done; [|intros (j & ? & _); lia].
    intros j Hj. rewrite decide_False by lia. by left. }
  assert (i < length (procs t))%nat as Hi by lia.
  set (t1 := if bool_decide _ then _ else _).
  assert (length (procs t1) = length (procs t) /\ initproc t1 = initproc t /\ nextpid t1 = nextpid t) as (Hl1 & Hi1 & Hn1).
  { unfold t1. case_bool_decide; [|done]. destruct (is_state _ _); [|by rewrite len_store].
    cbn [initproc store_f upd_proc set_procs]. rewrite Hip, len_wakeup, len_store. done. }
  assert (forall j, (j < length (procs t))%nat ->
    woke (if decide (i = j) then reparented me (Some ip) (pr t j) else pr t j) (pr t1 j)) as Hw1.
  { intros j Hj. unfold t1, reparented. case_bool_decide as Ep.
    - assert (forall j, pr (store_f i (Fparent (initproc t)) t) j =
        if decide (i = j) then setf (Fparent (Some ip)) (pr t i) else pr t j) as Hst.
      { intros j'. rewrite pr_store by done. by rewrite Hip. }
      assert ((if decide (i = j) then if decide (p_parent (pr t j) = Some me) then setf (Fparent (Some ip)) (pr t j)
               else pr t j else pr t j) = pr (store_f i (Fparent (initproc t)) t) j) as ->.
      { rewrite Hst. case_decide as Eij; [|done]. subst j. by rewrite decide_True. }
      destruct (is_state _ _); [|by left]. cbn [initproc store_f upd_proc set_procs]. rewrite Hip.
      apply woke_wakeup. by rewrite len_store.
    - case_decide as Eij; [subst j; rewrite decide_False by done|]; by left. }
  assert (p_parent (pr t i) = Some me -> p_state (pr t i) = ZOMBIE -> awake (proc_chan ip) (pr t1 ip)) as Ha1.
  { intros Ep Ez. unfold t1. rewrite bool_decide_eq_true_2 by done. unfold is_state.
    rewrite bool_decide_eq_true_2 by (rewrite pr_store, decide_True by done; done).
    cbn [initproc store_f upd_proc set_procs]. rewrite Hip. apply awake_wakeup. by rewrite len_store. }
  clearbody t1. specialize (IH (S i) t1). rewrite Hl1, Hi1, Hn1 in IH.
  destruct IH as (L & E1 & E2 & Hw & Ha); [lia|done|done|].
  split_and!; try done.
  - intros j Hj. pose proof (Hw j Hj) as H2. pose proof (Hw1 j Hj) as H1. unfold reparented in *.
    destruct (decide (i = j)) as [->|].
    + rewrite (decide_False _ _ (P := (S j <= j)%nat)) in H2 by lia. rewrite decide_True by lia.
      by eapply woke_trans.
    + destruct H1 as [H1|[HS H1]]; rewrite H1 in H2.
      * destruct (decide (S i <= j)%nat), (decide (i <= j)%nat); try lia; done.
      * eapply woke_trans; [|exact H2]. destruct (decide (S i <= j)%nat), (decide (i <= j)%nat); try lia;
          [|by right]. cbn [p_parent setf]. destruct (decide (p_parent (pr t j) = Some me)); by right.
  - intros (j & Hj & Ep & Ez). destruct (decide (i = j)) as [->|].
    + pose proof (Hw ip Hlt) as H2. eapply awake_woke; [exact H2|]. specialize (Ha1 Ep Ez).
      unfold reparented. repeat case_decide; done.
    + apply Ha. exists j. split; [lia|]. pose proof (Hw1 j) as H1. rewrite decide_False in H1 by done.
      destruct H1 as [->|[? _]]; [lia|done|congruence].
Qed.

Lemma woke_passed me ip p q r :
  woke p q -> woke (reparented me ip q) r -> passed me ip p r.
Proof.
  unfold reparented. intros [->|[HS ->]]; cbn [p_parent setf];
    (case_decide; intros [->|[HS' ->]]; split; cbn in *; try discriminate; rewrite ?decide_True, ?decide_False by done; auto).
Qed.

Lemma exit_sec_spec me t ip :
  initproc t = Some ip -> (ip < length (procs t))%nat -> (me < length (procs t))%nat ->
  p_state (pr t me) = RUNNING ->
  let t' := exit_sec me t in
  length (procs t') = length (procs t) /\ initproc t' = initproc t /\ nextpid t' = nextpid t /\
  p_state (pr t' me) = ZOMBIE /\
  (forall j, (j < length (procs t))%nat -> exists p', passed me (Some ip) (pr t j) p' /\
     pr t' j = if decide (me = j) then setf (Fstate ZOMBIE) p' else p') /\
  (forall q, p_parent (pr t me) = Some q -> (q < length (procs t))%nat -> q <> me -> awake (proc_chan q) (pr t' q)) /\
  ((exists j, (j < length (procs t))%nat /\ p_parent (pr t j) = Some me /\ p_state (pr t j) = ZOMBIE) ->
     ip <> me -> awake (proc_chan ip) (pr t' ip)).
Proof.
  intros Hip Hlt Hme Hr. unfold exit_sec.
  set (t1 := match p_parent (pr t me) with Some q => _ | None => t end).
  assert (length (procs t1) = length (procs t) /\ initproc t1 = initproc t /\ nextpid t1 = nextpid t) as (Hl1 & Hi1 & Hn1).
  { unfold t1. destruct (p_parent _); [|done]. by rewrite len_wakeup. }
  assert (forall j, (j < length (procs t))%nat -> woke (pr t j) (pr t1 j)) as Hw1.
  { intros j Hj. unfold t1. destruct (p_parent _); [by apply woke_wakeup|by left]. }
  assert (forall q, p_parent (pr t me) = Some q -> (q < length (procs t))%nat -> awake (proc_chan q) (pr t1 q)) as Ha1.
  { intros q Hq Hql. unfold t1. rewrite Hq. by apply awake_wakeup. }
  clearbody t1. destruct (reparent_loop_spec (length (procs t1)) 0 me t1 ip) as (L & E1 & E2 & Hw & Ha);
    [done|congruence|congruence|].
  set (t2 := reparent_loop _ _ _ _) in *. clearbody t2. rewrite Hl1 in *.
  assert (forall j, pr (store_f me (Fstate ZOMBIE) t2) j =
    if decide (me = j) then setf (Fstate ZOMBIE) (pr t2 me) else pr t2 j) as Hst.
  { intros j. apply pr_store. lia. }
  cbv zeta. rewrite len_store. split_and!; cbn [initproc nextpid store_f upd_proc set_procs]; try congruence.
  - by rewrite Hst, decide_True.
  - intros j Hj. exists (pr t2 j). split.
    + eapply woke_passed; [by apply Hw1|]. specialize (Hw j Hj). by rewrite decide_True in Hw by lia.
    + rewrite Hst. by case_decide; subst.
  - intros q Hq Hql Hqm. rewrite Hst, decide_False by done.
    specialize (Hw q Hql). rewrite decide_True in Hw by lia. eapply awake_woke; [exact Hw|].
    unfold reparented. specialize (Ha1 q Hq Hql). by case_decide.
  - intros (j & Hj & Ep & Ez) Hne. rewrite Hst, decide_False by done. apply Ha. exists j. split; [lia|].
    destruct (Hw1 j Hj) as [->|[? _]]; [done|congruence].
Qed.

Lemma pinv_exit n s p :
  pinv n s -> running s p = true -> own s !! p = None -> initproc (tb s) <> Some p ->
  pinv n (upd_tb (exit_sec p (tb s)) s).
Proof.
  intros I Hr Ho Hni. destruct (running_spec n s p I Hr) as (Hp & Hl & Hst & Hlv).
  destruct (v_init _ _ I) as (ip & Hip & Hipl & Hipv).
  destruct (exit_sec_spec p (tb s) ip Hip) as (L & E1 & E2 & Hz & Hpass & Hpar & Hzk);
    [by rewrite (v_len _ _ I)|done|done|].
  rewrite (v_len _ _ I) in *. set (t' := exit_sec p (tb s)) in *. clearbody t'.
  assert (ip <> p) as Hipp by congruence.
  assert (forall j, (j < NPROC)%nat -> p_pid (pr t' j) = p_pid (pr (tb s) j) /\
    p_isthread (pr t' j) = p_isthread (pr (tb s) j) /\ p_chan (pr t' j) = p_chan (pr (tb s) j) /\
    p_killed (pr t' j) = p_killed (pr (tb s) j) /\
    p_parent (pr t' j) = if decide (p_parent (pr (tb s) j) = Some p) then Some ip else p_parent (pr (tb s) j)) as HF.
  { intros j Hj. destruct (Hpass j Hj) as (p' & [] & ->). destruct (decide (p = j)); cbn; split_and!; done. }
  assert (forall j, (j < NPROC)%nat -> j <> p -> p_state (pr t' j) = p_state (pr (tb s) j) \/
    p_state (pr (tb s) j) = SLEEPING /\ p_state (pr t' j) = RUNNABLE) as HS.
  { intros j Hj Hjp. destruct (Hpass j Hj) as (p' & [] & ->). by rewrite decide_False. }
  assert (forall j, (j < NPROC)%nat -> j <> p -> live (pr t' j) = live (pr (tb s) j)) as HL.
  { intros j Hj Hjp. unfold live. destruct (HS j Hj Hjp) as [->|[-> ->]]; done. }
  assert (forall j st, (j < NPROC)%nat -> p_state (pr t' j) = st -> st = UNUSED \/ st = EMBRYO ->
    j <> p /\ p_state (pr (tb s) j) = st) as HU.
  { intros j st Hj E Hd. assert (j <> p) by (intros ->; destruct Hd; congruence). split; [done|].
    destruct (HS j Hj) as [E'|[_ E']]; [done|congruence|destruct Hd; congruence]. }
  assert (forall j, (j < NPROC)%nat -> p_state (pr t' j) <> UNUSED -> p_state (pr (tb s) j) <> UNUSED) as HnU.
  { intros j Hj H. destruct (decide (j = p)) as [->|Hjp]; [congruence|]. destruct (HS j Hj Hjp) as [E|[E _]]; congruence. }
  split; cbn [tb own wk upd_tb].
  - done.
  - rewrite E2. apply I.
  - intros j Hj Hu. destruct (HF j Hj) as (-> & _). rewrite E2. apply I; auto.
  - intros j k Hj Hk Hjk Hu Hu'. destruct (HF j Hj) as (-> & _), (HF k Hk) as (-> & _). apply I; auto.
  - exists ip. by rewrite E1, HL.
  - intros j Hj Ha Hnj. destruct (HF j Hj) as (_ & _ & _ & _ & ->). rewrite E1 in Hnj.
    case_decide as Ed; [exists ip; by rewrite HL|].
    destruct (v_parent _ _ I j Hj) as (q & Hq & Hql & Hqv); [|done|].
    + destruct (decide (j = p)) as [->|Hjp]; [by left|]. rewrite HL in Ha by done.
      destruct Ha as [?|Ha]; [by left|]. destruct (HS j Hj Hjp) as [E|[_ E]]; [right|]; congruence.
    + exists q. rewrite HL by (done || congruence). done.
  - intros j Hj Hu. destruct (HU j _ Hj Hu) as [Hjp Hu']; [auto|]. destruct (HF j Hj) as (_ & _ & _ & _ & ->).
    by rewrite (v_unused _ _ I j Hj Hu').
  - intros ip' Hip'. assert (ip' = ip) as -> by congruence. destruct (HF ip Hipl) as (_ & _ & _ & _ & ->).
    by rewrite (v_root _ _ I ip Hip).
  - intros j Hj. destruct (HF j Hj) as (_ & _ & _ & _ & ->). case_decide; [|by apply (v_noself _ _ I)].
    pose proof (v_root _ _ I ip Hip). congruence.
  - intros q i Hq. destruct (v_own _ _ I q i Hq) as (Hql & Hil & Hqv & He & Hep).
    assert (q <> p) by congruence. assert (i <> p) by (intros ->; congruence).
    rewrite HL by done. destruct (HF i Hil) as (_ & _ & _ & _ & ->).
    split_and!; try done; [destruct (HS i Hil) as [E|[E _]]; congruence|].
    case_decide; [|done]. destruct Hep; congruence.
  - intros q q' i. apply (v_inj _ _ I).
  - intros i Hi He. destruct (HU i _ Hi He) as [_ He']; [auto|]. by apply I.
  - intros q k Hq Hk HSl. assert (q <> p) as Hqp by (intros ->; congruence).
    assert (p_state (pr (tb s) q) = SLEEPING) as HSq by (destruct (HS q Hq Hqp) as [E|[_ E]]; congruence).
    destruct (v_wait _ _ I q k Hq Hk HSq) as (W1 & W2 & W3 & W4 & c & W5 & W6 & W7 & W8).
    destruct (HF q Hq) as (_ & _ & Fc & Fk & _).
    assert (p_parent (pr (tb s) p) <> Some q) as Hnotkid.
    { intros E. apply (Hpar q E Hq Hqp HSl). congruence. }
    unfold waiting_ok. cbn [tb own wk upd_tb]. split_and!; try congruence.
    + intros c' Hc' Hpar' Hth' Hz'. destruct (HF c' Hc') as (_ & Ft & _ & _ & Fp). rewrite Fp in Hpar'.
      destruct (decide (c' = p)) as [->|Hcp].
      { rewrite decide_False in Hpar' by (apply (v_noself _ _ I); done). done. }
      assert (p_state (pr (tb s) c') = ZOMBIE) as Hz0 by (destruct (HS c' Hc' Hcp) as [E|[_ E]]; congruence).
      case_decide as Ed; simplify_eq.
      * apply (Hzk (ex_intro _ c' (conj Hc' (conj Ed Hz0))) Hqp HSl). congruence.
      * by apply (W4 c'); try congruence.
    + exists c. destruct (HF c W5) as (_ & -> & _ & _ & ->).
      assert (c <> p) by (intros ->; congruence). rewrite HL by done.
      rewrite decide_False by congruence. done.
Qed.

(** ** Every reachable table *)

Lemma pinv_mono n m s : pinv n s -> n <= m -> pinv m s.
Proof. intros I Hm. destruct I as [? [? ?] ? ? ? ? ? ? ? ? ? ? ?]. split; try assumption. lia. Qed.

Lemma pinv_boot : pinv 2 psys0.
Proof.
  assert (forall j, (j < NPROC)%nat -> pr (tb psys0) j =
    if decide (0%nat = j) then setf (Fstate RUNNABLE) (setf (Fpid 1) (setf (Fstate EMBRYO) inhabitant))
    else inhabitant) as H.
  { intros [|j] Hj; [reflexivity|]. rewrite decide_False by done. unfold pr, psys0. cbn.
    apply (lookup_total_replicate_2 63). lia. }
  split.
  - reflexivity.
  - assert (nextpid (tb psys0) = 2) as -> by reflexivity. lia.
  - intros i Hi. assert (nextpid (tb psys0) = 2) as -> by reflexivity.
    rewrite H by done. case_decide; cbn; [lia|done].
  - intros i j Hi Hj Hne. rewrite !H by done. by repeat case_decide; subst.
  - exists 0%nat. split_and!; [done|lia|reflexivity].
  - intros i Hi. rewrite H by done. case_decide; subst; cbn; [done|]. by intros [?|?].
  - intros i Hi. rewrite H by done. by case_decide.
  - intros ip Hip. assert (ip = 0%nat) as -> by (injection Hip; congruence). reflexivity.
  - intros i Hi. rewrite H by done. by case_decide.
  - intros p i Ho. discriminate Ho.
  - intros p q i Ho. discriminate Ho.
  - intros i Hi. rewrite H by done. by case_decide.
  - intros p k Hp Hk. discriminate Hk.
Qed.

Lemma pinv_next n s a s' : pinv n s -> n < 2147483647 -> pnext a s = Some s' -> pinv (n + 1) s'.
Proof.
  intros I Hn E. destruct a as [p|p f|p|p|p|k p|p c|p|p|p|c|pid|p sz|p f]; cbn [pnext] in E.
  - destruct (running s p) eqn:Hr; [|done]. case_bool_decide as Ho; [|done]. cbn [andb] in E.
    destruct (alloc_slot (tb s)) as [[i t']|] eqn:Ea; [|done]. simplify_eq. by apply pinv_alloc.
  - destruct (own s !! p) as [i|] eqn:Ho; [|done]. destruct (running s p && child_field p f) eqn:Hr; [|done].
    simplify_eq. apply andb_true_iff in Hr as [_ Hf]. eapply pinv_mono; [by eapply pinv_store|lia].
  - destruct (own s !! p) as [i|] eqn:Ho; [|done]. destruct (running s p); [|done].
    case_bool_decide; [|done]. cbn [andb] in E. simplify_eq. eapply pinv_mono; [by eapply pinv_ready|lia].
  - destruct (own s !! p) as [i|] eqn:Ho; [|done]. destruct (running s p); [|done].
    case_bool_decide; [|done]. cbn [andb] in E. simplify_eq. eapply pinv_mono; [by eapply pinv_fail|lia].
  - destruct (running s p) eqn:Hr; [|done]. case_bool_decide; [|done]. case_bool_decide; [|done].
    cbn [andb] in E. simplify_eq. eapply pinv_mono; [by eapply pinv_exit|lia].
  - eapply pinv_mono; [by eapply pinv_wait|lia].
  - destruct (running s p) eqn:Hr; [|done]. simplify_eq. eapply pinv_mono; [by apply pinv_sleep|lia].
  - destruct (running s p) eqn:Hr; [|done]. simplify_eq.
    eapply pinv_mono; [apply pinv_self; try done; apply delete_subseteq|lia].
  - destruct (running s p) eqn:Hr; [|done]. simplify_eq. destruct (running_spec n s p I Hr) as (_ & _ & _ & Hlv).
    eapply pinv_mono; [apply pinv_self; try done; cbn; by rewrite Hlv|lia].
  - case_bool_decide; [|done]. destruct (is_state _ _) eqn:Es; [|done]. cbn [andb] in E. simplify_eq.
    eapply pinv_mono; [by apply pinv_run|lia].
  - simplify_eq. eapply pinv_mono; [by apply pinv_wakeup|lia].
  - simplify_eq. eapply pinv_mono; [by apply pinv_kill|lia].
  - destruct (running s p) eqn:Hr; [|done]. simplify_eq. eapply pinv_mono; [by apply pinv_grow|lia].
  - destruct (running s p) eqn:Hr; [|done]. destruct (own_field f) eqn:Hf; [|done]. cbn [andb] in E. simplify_eq.
    eapply pinv_mono; [apply pinv_self; try done; by destruct f|lia].
Qed.

Lemma preach_inv n s : preach n s -> Z.of_nat n < 2147483645 -> pinv (Z.of_nat n + 2) s.
Proof.
  induction 1 as [|n s a s' _ IH E]; intros Hn; [apply pinv_boot|].
  replace (Z.of_nat (S n) + 2) with (Z.of_nat n + 2 + 1) by lia.
  eapply pinv_next; [apply IH; lia|lia|exact E].
Qed.

(** C11. The process table stays well formed. In every table that any interleaving
    of process creations, exits, waits, sleeps, wake-ups, kills and scheduling
    decisions reaches (before [nextpid] overflows), entries in use have distinct
    positive pids, [init] is alive, and the parent of every other process that
    lives or is a zombie is alive: nobody is left without a process that can
    wait for it. *)
Theorem proc_table_ok n s :
  preach n s -> Z.of_nat n < 2147483645 ->
  (forall i j, (i < NPROC)%nat -> (j < NPROC)%nat -> i <> j ->
     p_state (pr (tb s) i) <> UNUSED -> p_state (pr (tb s) j) <> UNUSED ->
     0 < p_pid (pr (tb s) i) /\ p_pid (pr (tb s) i) <> p_pid (pr (tb s) j)) /\
  exists ip, initproc (tb s) = Some ip /\ live (pr (tb s) ip) = true /\
    forall i, (i < NPROC)%nat -> i <> ip -> live (pr (tb s) i) = true \/ p_state (pr (tb s) i) = ZOMBIE ->
      exists q, p_parent (pr (tb s) i) = Some q /\ (q < NPROC)%nat /\ live (pr (tb s) q) = true.
Proof.
  intros H Hn. pose proof (preach_inv n s H Hn) as I. split.
  - intros i j Hi Hj Hne Hu Hu'. split; [by apply I|by apply I].
  - destruct (v_init _ _ I) as (ip & Hip & Hipl & Hipv). exists ip. split_and!; try done.
    intros i Hi Hne Ha. apply (v_parent _ _ I); congruence || done.
Qed.

(** C5. [wait] and [thread_join] lose no wake-up. A process that sleeps in one of
    them has not been killed, none of the children it waits for is a zombie, and
    at least one of them is alive and will wake it when it exits: however the
    exits of children, of their parents (which hands zombies to [init]) and the
    kills interleave with the scan and the sleep. *)
Theorem wait_no_lost_wakeup n s p k :
  preach n s -> Z.of_nat n < 2147483645 -> (p < NPROC)%nat ->
  wk s !! p = Some k -> p_state (pr (tb s) p) = SLEEPING ->
  p_killed (pr (tb s) p) = false /\
  (forall c, (c < NPROC)%nat -> p_parent (pr (tb s) c) = Some p -> p_isthread (pr (tb s) c) = k ->
     p_state (pr (tb s) c) <> ZOMBIE) /\
  exists c, (c < NPROC)%nat /\ p_parent (pr (tb s) c) = Some p /\ p_isthread (pr (tb s) c) = k /\
    live (pr (tb s) c) = true.
Proof.
  intros H Hn Hp Hk HS. destruct (v_wait _ _ (preach_inv n s H Hn) p k Hp Hk HS) as (_ & ? & _ & ? & ?). done.
Qed.

(** ** Runs *)

(** [fork] and [thread_create] by [p] into entry [i], as actions. *)
Definition fork_acts (p : nat) (pgdir : Z) : list paction :=
  [PAlloc p; PStore p (Fpgdir pgdir); PStore p (Fparent (Some p)); PReady p].
Definition thread_acts (p : nat) (pgdir : Z) : list paction :=
  [PAlloc p; PStore p (Fpgdir pgdir); PStore p (Fparent (Some p)); PStore p (Fisthread true); PReady p].

Definition ran (l : list paction) : psys := default psys0 (prun l psys0).
Lemma ran_reach l : is_Some (prun l psys0) -> preach (length l) (ran l).
Proof. intros [s E]. unfold ran. rewrite E. apply (prun_reach l 0 psys0 s preach_boot E). Qed.

(** [init] forks and waits. *)
Definition run_wait : list paction := PRun 0 :: fork_acts 0 4096 ++ [PWait false 0].

Lemma run_wait_reach : preach (length run_wait) (ran run_wait).
Proof. apply ran_reach. vm_compute. eauto. Qed.

Lemma proc_table_ok_witness :
  preach (length run_wait) (ran run_wait) /\
  exists ip, initproc (tb (ran run_wait)) = Some ip /\ live (pr (tb (ran run_wait)) ip) = true.
Proof.
  split; [apply run_wait_reach|].
  destruct (proc_table_ok (length run_wait) (ran run_wait) run_wait_reach) as (_ & ip & Hip & Hl & _).
  - vm_compute. reflexivity.
  - exists ip. split; assumption.
Defined.

Lemma wait_no_lost_wakeup_witness :
  p_state (pr (tb (ran run_wait)) 0) = SLEEPING /\ p_killed (pr (tb (ran run_wait)) 0) = false.
Proof.
  assert (p_state (pr (tb (ran run_wait)) 0) = SLEEPING) as HS by (vm_compute; reflexivity).
  split; [exact HS|].
  destruct (wait_no_lost_wakeup (length run_wait) (ran run_wait) 0 false run_wait_reach) as (Hk & _).
  - vm_compute. reflexivity.
  - lia.
  - vm_compute. reflexivity.
  - exact HS.
  - exact Hk.
Defined.

(** A forked child can be invisible to [wait]. [isthread] is set by
    [thread_create] and never cleared: after a thread has come and gone, the
    entry it used still says "thread", so a process that [fork] creates there is
    not seen by its parent's [wait], which returns -1 while the child lives
    (and [thread_join] would reap it without freeing its memory). *)
Theorem forked_child_ignored :
  exists s, preach (length (PRun 0 :: thread_acts 0 4096 ++ [PRun 1; PExit 1; PWait true 0] ++ fork_acts 0 8192)) s /\
    prun (PRun 0 :: thread_acts 0 4096 ++ [PRun 1; PExit 1; PWait true 0] ++ fork_acts 0 8192) psys0 = Some s /\
    live (pr (tb s) 1) = true /\ p_parent (pr (tb s) 1) = Some 0%nat /\
    wait_sec false 0 (tb s) = WNone.
Proof.
  set (l := PRun 0 :: _). exists (ran l). split_and!; [apply ran_reach; vm_compute; eauto|vm_compute; reflexivity..].
Qed.

(** [wait] can free an address space that is in use. The threads of a process
    survive its [exit] (they become children of [init]); when its parent then
    reaps it, [freevm] is applied to the page directory that a runnable thread
    still has. *)
Theorem wait_frees_shared_pgdir :
  exists n s i t' c, preach n s /\ wait_sec false 0 (tb s) = WReap i t' /\
    c <> i /\ live (pr (tb s) c) = true /\ p_pgdir (pr (tb s) c) = p_pgdir (pr (tb s) i) /\
    p_pgdir (pr (tb s) c) <> 0.
Proof.
  set (l := PRun 0 :: fork_acts 0 4096 ++ PRun 1 :: thread_acts 1 4096 ++ [PExit 1]).
  exists (length l), (ran l), 1%nat, (reap 1 (tb (ran l))), 2%nat.
  split_and!; [apply ran_reach; vm_compute; eauto|vm_compute; reflexivity|done|vm_compute; reflexivity..|].
  vm_compute. discriminate.
Qed.

(** [kill(0)] condemns a process that does not exist yet. In a reachable table
    [kill] of pid 0, when it reports success, has set [killed] in an entry that
    is not in use; since [allocproc] does not clear the flag, the next process
    created there is born killed. *)
Theorem kill_zero_marks_free_entry n s t' :
  preach n s -> Z.of_nat n < 2147483645 -> kill_sec 0 (tb s) = (true, t') ->
  exists i, (i < NPROC)%nat /\ p_state (pr t' i) = UNUSED /\ p_killed (pr t' i) = true /\
    forall t'', alloc_slot t' = Some (i, t'') -> p_state (pr t'' i) = EMBRYO /\ p_killed (pr t'' i) = true.
Proof.
  intros H Hn E. pose proof (preach_inv n s H Hn) as I. unfold kill_sec in E.
  destruct (find_pid 0 (procs (tb s)) 0) as [i|] eqn:Ef; [|done]. apply find_pid_pr in Ef as [Hi Hp].
  assert (i < NPROC)%nat as Hi' by (by rewrite <- (v_len _ _ I)).
  assert (p_state (pr (tb s) i) = UNUSED) as Hu.
  { destruct (decide (p_state (pr (tb s) i) = UNUSED)) as [|Hne]; [done|].
    pose proof (v_pid _ _ I i Hi' Hne). lia. }
  assert (pr (store_f i (Fkilled true) (tb s)) i = setf (Fkilled true) (pr (tb s) i)) as Hst
    by (by rewrite pr_store, decide_True).
  unfold is_state in E. rewrite Hst, bool_decide_eq_false_2 in E by (cbn; congruence). simplify_eq.
  exists i. rewrite Hst. split_and!; try done. intros t'' Ea.
  apply alloc_slot_spec in Ea as (_ & _ & _ & _ & _ & Hpr). rewrite !Hpr, decide_True by done.
  cbn [setf p_state p_killed]. by rewrite Hst.
Qed.

Lemma kill_zero_marks_free_entry_witness :
  exists t', kill_sec 0 (tb (ran run_wait)) = (true, t') /\
    exists i, p_state (pr t' i) = UNUSED /\ p_killed (pr t' i) = true.
Proof.
  assert ((kill_sec 0 (tb (ran run_wait))).1 = true) as E by (vm_compute; reflexivity).
  destruct (kill_sec 0 (tb (ran run_wait))) as [b t'] eqn:Ek. cbn in E. subst b. exists t'. split; [reflexivity|].
  destruct (kill_zero_marks_free_entry (length run_wait) (ran run_wait) t' run_wait_reach) as (i & _ & Hu & Hk & _).
  - vm_compute. reflexivity.
  - exact Ek.
  - exists i. split; assumption.
Defined.

(** [growproc] resizes threads of another address space. When a process that
    is not a thread grows, every thread of its PARENT gets its new size, though
    those threads share the parent's memory and not that of the caller. *)
Theorem growproc_resizes_foreign_threads t p q i :
  (i < length (procs t))%nat -> p_parent (pr t p) = Some q ->
  p_isthread (pr t i) = true -> p_parent (pr t i) = Some q ->
  p_sz (pr (grow_threads p t) i) = p_sz (pr t p).
Proof.
  intros Hi Hp Ht Hq. unfold grow_threads. rewrite pr_fmap by done.
  rewrite Ht, bool_decide_eq_true_2 by congruence. done.
Qed.

(** [init] has a thread (entry 1) and a forked child (entry 2), which grows. *)
Definition run_grow : list paction :=
  PRun 0 :: thread_acts 0 4096 ++ fork_acts 0 8192 ++ [PRun 2; PSelf 2 (Fsz 65536)].

Lemma growproc_resizes_foreign_threads_witness :
  p_sz (pr (tb (ran run_grow)) 1) = 0 /\ p_sz (pr (grow_threads 2 (tb (ran run_grow))) 1) = 65536.
Proof.
  split; [vm_compute; reflexivity|].
  rewrite (growproc_resizes_foreign_threads (tb (ran run_grow)) 2 0 1).
  - vm_compute. reflexivity.
  - apply Nat.ltb_lt. vm_compute. reflexivity.
  - vm_compute. reflexivity.
  - vm_compute. reflexivity.
  - vm_compute. reflexivity.
Defined.
