(* ===== verification/ProcOps.v ===== *)
(** Scheduling, switching and process creation (Proc.v).

    Theorems: the scheduler is fair ([scheduler_fair]); [yield] and [sleep] pass
    all of [sched]'s checks ([yield_sleep_switch]); [fork] makes a child that is
    a copy of its parent ([fork_child]). *)

From Stdlib Require Import ZArith Lia.
From stdpp Require Import base strings gmap numbers list.
From S2P Require Import Prelude KString BlockLayer Bio Log Kalloc Fs Pipe Spin Vm File Sysfile SysfileSpec Proc ProcSpec.

Open Scope Z_scope.

(** ** The scheduler *)

(** The processes one scheduler chooses, from position [pos] of its loop on,
    when it finds the tables [ts] at its successive looks: a look ends with a
    process chosen or at the end of the table. *)
Fixpoint picks (pos : nat) (ts : list ptab) : list nat :=
  match ts with
  | [] => []
  | t :: ts' =>
      match sched_scan pos t with
      | Some i => i :: picks (S i) ts'
      | None => picks 0 ts'
      end
  end.

(** What [scheduler_step] chooses is what the look of [picks] finds. *)
Lemma scheduler_step_looks pos s r s' : scheduler_step pos s = Ret r s' -> r = sched_scan pos (kt s).
Proof.
  intros E. unfold scheduler_step in E. minv E as (s0 & s1 & E0 & E). unfold get in E0. injection E0 as <- <-.
  destruct (sched_scan pos (kt s)); minv E as (? & ? & _ & E); minv E as (? & ? & _ & E); minv E as (? & ? & _ & E);
    unfold ret in E; by simplify_eq.
Qed.

Lemma find_state_first st l i q p :
  l !! q = Some p -> p_state p = st -> exists j, find_state st l i = Some j /\ (i <= j <= i + q)%nat.
Proof.
  revert i q. induction l as [|x l IH]; intros i q Hq Hs; [done|]. simpl. unfold is_state.
  case_bool_decide as E; [exists i; split; [done|lia]|].
  destruct q as [|q]; simpl in Hq; [congruence|]. destruct (IH (S i) q Hq Hs) as (j & Hj & ?).
  exists j. split; [done|lia].
Qed.

Lemma sched_scan_before t pos q :
  (q < length (procs t))%nat -> p_state (pr t q) = RUNNABLE -> (pos <= q)%nat ->
  exists j, sched_scan pos t = Some j /\ (pos <= j <= q)%nat.
Proof.
  intros Hq Hs Hp. unfold sched_scan.
  destruct (find_state_first RUNNABLE (drop pos (procs t)) pos (q - pos) (pr t q)) as (j & Hj & ?).
  - rewrite lookup_drop. replace (pos + (q - pos))%nat with q by lia. by apply pr_lookup.
  - done.
  - exists j. split; [done|lia].
Qed.

Lemma sched_scan_bound t pos j : sched_scan pos t = Some j -> (pos <= j < length (procs t))%nat.
Proof.
  intros H. apply find_state_spec in H as (? & p & Hp & _). rewrite lookup_drop in Hp.
  apply lookup_lt_Some in Hp. lia.
Qed.

Definition shows (q : nat) (t : ptab) : Prop :=
  length (procs t) = NPROC /\ p_state (pr t q) = RUNNABLE.

Lemma picks_before q pos ts :
  (q < NPROC)%nat -> (pos <= q)%nat -> Forall (shows q) ts -> (q - pos < length ts)%nat -> q ∈ picks pos ts.
Proof.
  intros Hq. revert pos. induction ts as [|t ts IH]; intros pos Hp Ht Hl; simpl in *; [lia|].
  inversion Ht as [|? ? [Hn Hr] Ht']; subst.
  destruct (sched_scan_before t pos q) as (j & -> & Hj); [lia|done|done|].
  destruct (decide (j = q)) as [->|]; [by left|]. right. apply IH; [lia|done|lia].
Qed.

(** C40. The scheduler is fair. A process that is RUNNABLE whenever the scheduler
    looks at the table, whatever happens to the rest of it in between, is chosen
    within NPROC + 1 looks, wherever the scheduler stands in its loop. *)
Theorem scheduler_fair q pos ts :
  (q < NPROC)%nat -> (pos <= NPROC)%nat -> Forall (shows q) ts -> (NPROC < length ts)%nat ->
  q ∈ picks pos ts.
Proof.
  intros Hq Hpos Ht Hl.
  assert (forall ts pos, (q < pos <= NPROC)%nat -> Forall (shows q) ts ->
    (NPROC - pos + q + 1 < length ts)%nat -> q ∈ picks pos ts) as Hw.
  { clear - Hq. induction ts as [|t ts IH]; intros pos Hp Ht Hl; simpl in *; [lia|].
    inversion Ht as [|? ? [Hn Hr] Ht']; subst.
    destruct (sched_scan pos t) as [j|] eqn:Ej.
    - apply sched_scan_bound in Ej. right. apply IH; [lia|done|lia].
    - apply picks_before; [done|lia|done|lia]. }
  destruct (decide (pos <= q)%nat); [apply picks_before; done || lia|apply Hw; done || lia].
Qed.

(** Entry 5 among 64 runnable processes, the scheduler standing behind it. *)
Definition all_runnable : ptab :=
  {| procs := replicate NPROC (setf (Fstate RUNNABLE) inhabitant); initproc := Some 0%nat; nextpid := 65 |}.
Lemma scheduler_fair_witness : 5%nat ∈ picks 6 (replicate 65 all_runnable).
Proof.
  apply (scheduler_fair 5 6); [lia|lia| |rewrite length_replicate; lia].
  apply Forall_replicate. split; reflexivity.
Defined.

(** ** Giving up the processor *)

(** The lock state of this processor. *)
Definition holds (l : list nat) (s : kern) : Prop :=
  held (kcpu s) = l /\ ncli (kcpu s) = Z.of_nat (length l) /\ (l <> [] -> iflag (kcpu s) = false).

Lemma acquire_ok l s ls :
  holds ls s -> l ∉ ls ->
  exists c, acquire_lk l s = Ret tt (set_kcpu c s) /\ holds (l :: ls) (set_kcpu c s).
Proof.
  intros (Hh & Hn & _) Hl. unfold acquire_lk, bind, get. rewrite bool_decide_eq_false_2 by (by rewrite Hh).
  eexists. split; [reflexivity|]. unfold holds. cbn. rewrite Hh. split_and!; [done| |done]. lia.
Qed.

Lemma release_ok l s ls :
  holds ls s -> l ∈ ls -> length (filter (fun x => x <> l) ls) = pred (length ls) ->
  exists c, release_lk l s = Ret tt (set_kcpu c s) /\ holds (filter (fun x => x <> l) ls) (set_kcpu c s).
Proof.
  intros (Hh & Hn & Hi) Hl Hlen. unfold release_lk, bind, get.
  rewrite bool_decide_eq_false_2 by (rewrite Hh; tauto). unfold popcli. cbn [iflag set_held ncli].
  rewrite Hi by (intros ->; by apply not_elem_of_nil in Hl).
  assert (length ls <> 0%nat) by (destruct ls; [by apply not_elem_of_nil in Hl|done]).
  destruct (Z.ltb_spec (ncli (kcpu s) - 1) 0); [lia|]. eexists. split; [reflexivity|].
  unfold holds. cbn. rewrite Hh. split_and!; [done|lia|]. intros Hne.
  destruct (Z.eqb_spec (ncli (kcpu s) - 1) 0); [|done].
  destruct (filter _ ls) eqn:E; [done|]. cbn in Hlen. lia.
Qed.

Lemma sched_ok s :
  holds [PT] s -> p_state (me s) <> RUNNING -> sched s = Sleep ("swtch"%string, Z.of_nat (cur s)) s.
Proof.
  intros (Hh & Hn & Hi) Hs. unfold sched, bind, get.
  rewrite bool_decide_eq_false_2 by (rewrite Hh; set_solver). rewrite Hn. cbn [length Z.of_nat Pos.of_succ_nat Z.eqb negb Pos.eqb].
  unfold is_state. rewrite bool_decide_eq_false_2 by done. by rewrite Hi.
Qed.

Lemma me_store s i f c :
  (i < length (procs (kt s)))%nat -> i = cur s ->
  me (set_kt (store_f i f (kt s)) (set_kcpu c s)) = setf f (me s).
Proof. intros Hi ->. unfold me. cbn [kt cur set_kt set_kcpu]. rewrite pr_store by done. by rewrite decide_True. Qed.

(** [yield] and [sleep] reach the scheduler. A process that yields holding no
    lock, or sleeps holding just the lock it passes (ptable.lock itself or
    another one), passes every check of [acquire], [release] and [sched]: it
    switches away holding exactly ptable.lock, in state RUNNABLE, or SLEEPING on
    the channel with its lock released. *)
Theorem yield_sleep_switch s c lk :
  (cur s < length (procs (kt s)))%nat -> p_state (me s) = RUNNING ->
  (holds [] s -> exists s', yield s = Sleep ("swtch"%string, Z.of_nat (cur s)) s' /\
     holds [PT] s' /\ p_state (me s') = RUNNABLE) /\
  (holds [lk] s -> exists s', sleep c lk s = Sleep ("swtch"%string, Z.of_nat (cur s)) s' /\
     holds [PT] s' /\ p_state (me s') = SLEEPING /\ p_chan (me s') = Some c).
Proof.
  intros Hc Hr. split; intros Hh.
  - destruct (acquire_ok PT s [] Hh) as (x & Ha & Hh'); [set_solver|].
    unfold yield, acquire_pt. mstep Ha. unfold bind at 1, get. unfold kfield, on_pt, bind at 1, modify.
    set (s' := set_kt _ _). assert (me s' = setf (Fstate RUNNABLE) (me s)) as Hm
      by (by apply (me_store s (cur s) (Fstate RUNNABLE) x)).
    exists s'. split_and!; [|exact Hh'|by rewrite Hm].
    rewrite (sched_ok s'); [done|exact Hh'|by rewrite Hm].
  - assert (exists x, (if bool_decide (lk <> PT) then acquire_pt ;;; release_lk lk else ret tt) s = Ret tt (set_kcpu x s) /\
      holds [PT] (set_kcpu x s)) as (x & Hx & Hh').
    { case_bool_decide as Hl.
      - destruct (acquire_ok PT s [lk] Hh) as (x & Ha & Hh1); [set_solver|].
        destruct (release_ok lk (set_kcpu x s) [PT; lk] Hh1) as (y & Hb & Hh2); [set_solver| |].
        { rewrite filter_cons_True by done. by rewrite filter_cons_False by tauto. }
        exists y. unfold acquire_pt. mstep Ha. rewrite Hb. split; [done|].
        rewrite filter_cons_True, filter_cons_False in Hh2 by (done || tauto). exact Hh2.
      - subst lk. exists (kcpu s). by destruct s. }
    unfold sleep. mstep Hx. unfold bind at 1, get. unfold on_pt, bind at 1, modify.
    set (s' := set_kt _ _). assert (me s' = setf (Fstate SLEEPING) (setf (Fchan (Some c)) (me s))) as Hm.
    { unfold me, s'. cbn [kt cur set_kt set_kcpu]. unfold sleep_sec. rewrite pr_store2 by done. by rewrite decide_True. }
    exists s'. rewrite !Hm. split_and!; [|exact Hh'|done|done].
    rewrite (sched_ok s'); [done|exact Hh'|by rewrite Hm].
Qed.

Definition kern_demo : kern :=
  {| kx := {| kf_km := {| kbytes := ∅; freelist := 0; use_lock := false; kmem_locked := false |};
              kf_fs := fs_root; pipes := ∅; ftable := replicate NFILE inhabitant; outst := 0 |};
     kt := store_f 0 (Fstate RUNNING) (tb psys0); khw := {| cr3 := 0; esp0 := 0; kpgdir := 0 |};
     kcpu := {| pc := Run; ncli := 0; intena := true; iflag := true; held := [] |}; cur := 0 |}.

Lemma yield_sleep_switch_witness :
  exists s', yield kern_demo = Sleep ("swtch"%string, 0) s' /\ p_state (me s') = RUNNABLE.
Proof.
  destruct (yield_sleep_switch kern_demo (proc_chan 0) 1) as [H _].
  - apply Nat.ltb_lt. vm_compute. reflexivity.
  - vm_compute. reflexivity.
  - destruct H as (s' & H1 & _ & H2); [split; [reflexivity|split; [reflexivity|intros H; destruct H; reflexivity]]|].
    exists s'. split; assumption.
Defined.

(** ** Creating a process *)

(** What [fork] is followed by: the table, the caller and the reference counts
    of the open files. *)
Definition st (t : ptab) (c : nat) (o : nat -> Z) (s : kern) : Prop :=
  kt s = t /\ cur s = c /\ kr o (kx s).

Lemma st_kmem {A} t c o (m : M kmem A) : triple (st t c o) (on_kmem m) (fun _ => st t c o).
Proof. by apply triple_part. Qed.
Lemma st_acquire t c o l : triple (st t c o) (acquire_lk l) (fun _ => st t c o).
Proof.
  intros s a s' H E. unfold acquire_lk, bind, get in E. destruct (bool_decide _); [done|].
  unfold modify in E. by simplify_eq.
Qed.
Lemma st_release t c o l : triple (st t c o) (release_lk l) (fun _ => st t c o).
Proof.
  intros s a s' H E. unfold release_lk, bind, get in E. destruct (bool_decide _); [done|].
  destruct (popcli _); [done|]. unfold modify in E. by simplify_eq.
Qed.
Lemma st_field t c o i f : triple (st t c o) (kfield i f) (fun _ => st (store_f i f t) c o).
Proof. apply triple_modify. by intros s (<- & <- & H). Qed.
Lemma st_get {A} t c o (k : kern -> M kern A) Q :
  (forall s, st t c o s -> triple (st t c o) (k s) Q) -> triple (st t c o) (bind get k) Q.
Proof. intros H s a s' Hs E. by apply (H s Hs s a s' Hs E). Qed.
Lemma st_ext t c o o' s : (forall f, o f = o' f) -> st t c o s -> st t c o' s.
Proof. intros E (? & ? & H). split_and!; try done. by eapply kr_ext. Qed.

(** The descriptors of the child after the loop over [l] from index [i] on. *)
Fixpoint overlay (l : list (option nat)) (i : nat) (d : list (option nat)) : list (option nat) :=
  match l with
  | [] => d
  | None :: l' => overlay l' (S i) d
  | Some f :: l' => overlay l' (S i) (<[i := Some f]> d)
  end.

Lemma fs_me_ftable s : ftable (fs_me s) = ftable (kx s).
Proof. done. Qed.

Lemma filedup_id f s g s' : filedup f s = Ret g s' -> g = f.
Proof. unfold filedup, bind, get. destruct (_ <? 1); [done|]. unfold modify, ret. by intros [=]. Qed.

Lemma st_filedup t c o f :
  triple (st t c o) (on_file (filedup f)) (fun g s => g = f /\ st t c (plus1 f 1 o) s).
Proof.
  intros s g s' (Ht & Hc & Hk) E. unfold on_file, part in E.
  destruct (filedup f (fs_me s)) as [g' x| | |] eqn:Ed; simplify_eq.
  split; [by eapply filedup_id|]. split_and!; try done. cbn.
  by apply (kr_filedup o f (fs_me s) g x).
Qed.

Lemma st_dup_files l : forall i np t c o,
  (np < length (procs t))%nat ->
  triple (st t c o) (dup_files l i np)
    (fun _ s => exists t', st t' c (fun f => o f + fd_count f l) s /\ length (procs t') = length (procs t) /\
       initproc t' = initproc t /\ nextpid t' = nextpid t /\
       forall j, pr t' j = if decide (np = j) then setf (Fofile (overlay l i (p_ofile (pr t np)))) (pr t np) else pr t j).
Proof.
  induction l as [|[f|] l IH]; intros i np t c o Hnp; cbn [dup_files].
  - apply triple_ret. intros s H. exists t. split_and!; try done.
    + revert H. apply st_ext. intros f. cbn. lia.
    + intros j. case_decide; [subst; by destruct (pr t j)|done].
  - eapply triple_bind; [apply st_filedup|intros g]. apply triple_assume. intros ->.
    apply st_get. intros s (Ht & Hc & _). rewrite Ht.
    eapply triple_bind; [apply st_field|intros ?].
    eapply triple_weaken; [apply IH; by rewrite len_store|done|].
    intros _ s2 (t' & H & Hl & Hi & Hn & Hpr). exists t'. rewrite len_store in Hl. split_and!; [|done..|].
    + revert H. apply st_ext. intros h. cbn. unfold plus1. repeat case_decide; simplify_eq; lia.
    + intros j. rewrite Hpr. rewrite !pr_store by done. destruct (decide (np = j)) as [<-|]; [|done].
      by rewrite decide_True by done.
  - eapply triple_weaken; [by apply IH|done|].
    intros _ s2 (t' & H & Hl & Hi & Hn & Hpr). exists t'. split_and!; try done.
Qed.

Lemma overlay_copy l : forall pre d,
  length d = (length pre + length l)%nat -> take (length pre) d = pre -> drop (length pre) d = replicate (length l) None ->
  overlay l (length pre) d = pre ++ l.
Proof.
  induction l as [|x l IH]; intros pre d Hl Ht Hd.
  - cbn. by rewrite <- (take_drop (length pre) d), Ht, Hd.
  - cbn in Hl. assert (d = pre ++ None :: replicate (length l) None) as ->.
    { rewrite <- (take_drop (length pre) d), Ht, Hd. done. }
    assert (forall y, overlay l (S (length pre)) (pre ++ y :: replicate (length l) None) = pre ++ y :: l) as H.
    { intros y. replace (S (length pre)) with (length (pre ++ [y])) by (rewrite length_app; cbn; lia).
      rewrite (IH (pre ++ [y])).
      - by rewrite <- app_assoc.
      - rewrite !length_app. cbn. rewrite length_replicate. lia.
      - replace (pre ++ y :: replicate (length l) None) with ((pre ++ [y]) ++ replicate (length l) None) by (by rewrite <- app_assoc).
        apply take_app_length.
      - replace (pre ++ y :: replicate (length l) None) with ((pre ++ [y]) ++ replicate (length l) None) by (by rewrite <- app_assoc).
        apply drop_app_length. }
    destruct x as [f|]; cbn [overlay]; [|apply H].
    rewrite insert_app_r_alt, Nat.sub_diag by lia. cbn. apply H.
Qed.

(** Entry [np] after the stores [fs], the rest of the table as in [t]. *)
Definition ups (fs : list pfield) (p : proc) : proc := foldl (fun p f => setf f p) p fs.
Record entry (t : ptab) (np : nat) (fs : list pfield) (t' : ptab) : Prop := {
  en_len : length (procs t') = length (procs t);
  en_lt : (np < length (procs t))%nat;
  en_pr : forall j, pr t' j = if decide (np = j) then ups fs (pr t np) else pr t j;
}.

Section Fork.
Context (t0 : ptab) (c : nat) (np : nat).

Definition en (fs : list pfield) (o : nat -> Z) (s : kern) : Prop :=
  exists t', st t' c o s /\ entry t0 np fs t'.

Lemma entry_store fs f t' : entry t0 np fs t' -> entry t0 np (fs ++ [f]) (store_f np f t').
Proof.
  intros [H1 H2 H3]. split; [by rewrite len_store|done|]. intros j. rewrite pr_store by lia.
  unfold ups. rewrite foldl_app. cbn. rewrite !H3. destruct (decide (np = j)) as [<-|]; [|done].
  by rewrite decide_True.
Qed.

Lemma en_st {A} fs o (m : M kern A) :
  (forall t, triple (st t c o) m (fun _ => st t c o)) -> triple (en fs o) m (fun _ => en fs o).
Proof. intros H s a s' (t' & Hs & He) E. exists t'. split; [by apply (H t' s a s')|done]. Qed.
Lemma en_kmem {A} fs o (m : M kmem A) : triple (en fs o) (on_kmem m) (fun _ => en fs o).
Proof. apply en_st. intros. apply st_kmem. Qed.
Lemma en_acquire fs o l : triple (en fs o) (acquire_lk l) (fun _ => en fs o).
Proof. apply en_st. intros. apply st_acquire. Qed.
Lemma en_release fs o l : triple (en fs o) (release_lk l) (fun _ => en fs o).
Proof. apply en_st. intros. apply st_release. Qed.
Lemma en_field fs o f : triple (en fs o) (kfield np f) (fun _ => en (fs ++ [f]) o).
Proof.
  intros s a s' (t' & Hs & He) E. exists (store_f np f t'). split; [|by apply entry_store].
  by apply (st_field t' c o np f s a s').
Qed.
Lemma en_get {A} fs o (k : kern -> M kern A) Q :
  (forall s, en fs o s -> triple (en fs o) (k s) Q) -> triple (en fs o) (bind get k) Q.
Proof. intros H s a s' Hs E. by apply (H s Hs s a s' Hs E). Qed.
Lemma en_me fs o s : en fs o s -> np <> c -> me s = pr t0 c /\ cur s = c /\ pr (kt s) np = ups fs (pr t0 np).
Proof.
  intros (t' & (Ht & Hc & _) & [_ _ H]) Hne. unfold me. rewrite Ht, Hc, !H.
  rewrite decide_False, decide_True by done. done.
Qed.

Lemma en_dup_files fs o l :
  triple (en fs o) (dup_files l 0 np)
    (fun _ => en (fs ++ [Fofile (overlay l 0 (p_ofile (ups fs (pr t0 np))))]) (fun f => o f + fd_count f l)).
Proof.
  intros s a s' (t' & Hs & [H1 H2 H3]) E.
  destruct (st_dup_files l 0 np t' c o ltac:(lia) s a s' Hs E) as (t2 & Hs2 & Hl & _ & _ & Hpr).
  exists t2. split; [done|]. split; [lia|done|]. intros j. rewrite Hpr, !H3.
  destruct (decide (np = j)) as [<-|]; [|done]. rewrite decide_True by done. unfold ups. by rewrite foldl_app.
Qed.

Lemma en_dup_cwd fs o :
  np <> c ->
  triple (en fs o) (dup_cwd np) (fun _ s => exists ip, p_cwd (pr t0 c) = Some ip /\ en (fs ++ [Fcwd (Some ip)]) o s).
Proof.
  intros Hne. unfold dup_cwd. apply en_get. intros s Hs. destruct (en_me fs o s Hs Hne) as (-> & _ & _).
  destruct (p_cwd (pr t0 c)) as [ip|]; [|apply triple_panic].
  eapply triple_bind with (R := fun g s => g = ip /\ en fs o s).
  - intros s1 g s2 H E. unfold on_file, part, on_fs in E. unfold part, idup, bind, modify, ret in E. simplify_eq.
    split; [done|]. destruct H as (t' & (? & ? & ?) & ?). by exists t'.
  - intros g. apply triple_assume. intros ->. eapply triple_weaken; [apply en_field|done|]. eauto.
Qed.

Lemma en_copy_tf fs o : triple (en fs o) (copy_tf np) (fun _ => en fs o).
Proof. unfold copy_tf. apply en_get. intros. apply en_kmem. Qed.

Lemma en_make_runnable fs o : triple (en fs o) (make_runnable np) (fun _ => en (fs ++ [Fstate RUNNABLE]) o).
Proof.
  unfold make_runnable. eapply triple_bind; [apply en_acquire|intros ?].
  eapply triple_bind; [apply en_field|intros ?]. apply en_release.
Qed.

End Fork.

Section ForkSpec.
Variables kend kdata trapret forkret_pc : Z.

Lemma allocproc_en t c o :
  triple (st t c o) (allocproc trapret forkret_pc)
    (fun a s => match a with
       | Some np => p_state (pr t np) = UNUSED /\ exists k tf cx,
           en t c np [Fstate EMBRYO; Fpid (nextpid t); Fkstack k; Ftf tf; Fcontext cx] o s
       | None => True
       end).
Proof.
  unfold allocproc. eapply triple_bind; [apply st_acquire|intros ?]. apply st_get. intros s (Ht & _ & _). rewrite Ht.
  destruct (alloc_slot t) as [[np t']|] eqn:Ea; [|eapply triple_bind; [apply st_release|intros ?]; by apply triple_ret].
  apply alloc_slot_spec in Ea as (Hnp & Hu & Hl & _ & _ & Hpr).
  eapply triple_bind with (R := fun _ => en t c np [Fstate EMBRYO; Fpid (nextpid t)] o).
  { apply triple_modify. intros s1 (_ & Hc & Hk). exists t'. by split. }
  intros ?. eapply triple_bind; [apply en_release|intros ?]. eapply triple_bind; [apply en_kmem|intros k].
  eapply triple_bind; [apply en_field|intros ?]. destruct (k =? 0).
  { eapply triple_bind; [apply en_field|intros ?]. by apply triple_ret. }
  eapply triple_bind; [apply en_field|intros ?]. eapply triple_bind; [apply en_kmem|intros ?].
  eapply triple_bind; [apply en_field|intros ?]. eapply triple_bind; [apply en_kmem|intros ?].
  eapply triple_bind; [apply en_kmem|intros ?]. apply triple_ret. intros s2 Hs2. split; [done|]. do 3 eexists. exact Hs2.
Qed.

(** The stores of [fork] into the entry it found. *)
Definition fork_stores (t : ptab) (c np : nat) (k tf cx d : Z) (ip : nat) : list pfield :=
  [Fstate EMBRYO; Fpid (nextpid t); Fkstack k; Ftf tf; Fcontext cx; Fpgdir d; Fsz (p_sz (pr t c));
   Fparent (Some c); Fofile (overlay (p_ofile (pr t c)) 0 (p_ofile (pr t np))); Fcwd (Some ip);
   Fname (name_copy 15 (p_name (pr t np)) (p_name (pr t c))); Fstate RUNNABLE].

Lemma fork_en t c o :
  p_state (pr t c) <> UNUSED ->
  triple (st t c o) (fork kend kdata trapret forkret_pc)
    (fun r s => r = -1 \/ exists np k tf cx d ip, r = nextpid t /\ p_state (pr t np) = UNUSED /\
       p_cwd (pr t c) = Some ip /\
       en t c np (fork_stores t c np k tf cx d ip) (fun f => o f + fd_count f (p_ofile (pr t c))) s).
Proof.
  intros Hc. unfold fork. eapply triple_bind; [apply allocproc_en|intros [np|]]; [|apply triple_ret; by left].
  apply triple_assume. intros Hu. assert (np <> c) as Hne by congruence.
  apply triple_ex. intros k. apply triple_ex. intros tf. apply triple_ex. intros cx.
  apply en_get. intros s Hs. destruct (en_me _ _ _ _ _ _ Hs Hne) as (Hme & Hcur & Hnp). rewrite Hme, Hcur, Hnp.
  eapply triple_bind; [apply en_kmem|intros d]. eapply triple_bind; [apply en_field|intros ?].
  destruct (d =? 0).
  { eapply triple_bind; [apply en_kmem|intros ?]. do 2 (eapply triple_bind; [apply en_field|intros ?]).
    apply triple_ret. by left. }
  do 2 (eapply triple_bind; [apply en_field|intros ?]). eapply triple_bind; [apply en_copy_tf|intros ?].
  eapply triple_bind; [apply en_kmem|intros ?]. eapply triple_bind; [apply en_dup_files|intros ?].
  eapply triple_bind; [by apply en_dup_cwd|intros ?]. apply triple_ex. intros ip. apply triple_assume. intros Hip.
  eapply triple_bind; [apply en_field|intros ?]. eapply triple_bind; [apply en_make_runnable|intros ?].
  apply triple_ret. intros s4 Hs4. right. exists np, k, tf, cx, d, ip. split_and!; done.
Qed.

(** The stores of [thread_create]. *)
Definition thread_stores (t : ptab) (c np : nat) (k tf cx : Z) (ip : nat) : list pfield :=
  [Fstate EMBRYO; Fpid (nextpid t); Fkstack k; Ftf tf; Fcontext cx; Fpgdir (p_pgdir (pr t c));
   Fofile (overlay (p_ofile (pr t c)) 0 (p_ofile (pr t np))); Fsz (p_sz (pr t c));
   Fparent (Some c); Fcwd (Some ip);
   Fname (name_copy 15 (p_name (pr t np)) (p_name (pr t c))); Fisthread true; Fstate RUNNABLE].

Lemma en_thread_tf t c np fs o pgdir tf fcn arg stack :
  triple (en t c np fs o) (thread_tf pgdir tf fcn arg stack) (fun _ => en t c np fs o).
Proof. unfold thread_tf. do 6 (eapply triple_bind; [apply en_kmem|intros ?; cbv zeta]). apply en_kmem. Qed.

Lemma thread_en fcn arg stack t c o :
  p_state (pr t c) <> UNUSED ->
  triple (st t c o) (thread_create trapret forkret_pc fcn arg stack)
    (fun r s => r = -1 \/ exists np k tf cx ip, r = nextpid t /\ p_state (pr t np) = UNUSED /\
       p_cwd (pr t c) = Some ip /\
       en t c np (thread_stores t c np k tf cx ip) (fun f => o f + fd_count f (p_ofile (pr t c))) s).
Proof.
  intros Hc. unfold thread_create. eapply triple_bind; [apply allocproc_en|intros [np|]]; [|apply triple_ret; by left].
  apply triple_assume. intros Hu. assert (np <> c) as Hne by congruence.
  apply triple_ex. intros k. apply triple_ex. intros tf. apply triple_ex. intros cx.
  apply en_get. intros s Hs. destruct (en_me _ _ _ _ _ _ Hs Hne) as (Hme & Hcur & Hnp). rewrite Hme, Hcur, Hnp.
  eapply triple_bind; [apply en_field|intros ?]. eapply triple_bind; [apply en_dup_files|intros ?].
  do 2 (eapply triple_bind; [apply en_field|intros ?]).
  eapply triple_bind; [by apply en_dup_cwd|intros ?]. apply triple_ex. intros ip. apply triple_assume. intros Hip.
  eapply triple_bind; [apply en_field|intros ?]. eapply triple_bind; [apply en_copy_tf|intros ?].
  eapply triple_bind; [apply en_thread_tf|intros ?]. eapply triple_bind; [apply en_field|intros ?].
  eapply triple_bind; [apply en_make_runnable|intros ?].
  apply triple_ret. intros s4 Hs4. right. exists np, k, tf, cx, ip. split_and!; done.
Qed.

(** Creating a process ([None]) or a thread at [fcn] with an argument and a
    stack. *)
Definition spawn (op : option (Z * Z * Z)) : M kern Z :=
  match op with
  | None => fork kend kdata trapret forkret_pc
  | Some (fcn, arg, stack) => thread_create trapret forkret_pc fcn arg stack
  end.

Lemma spawn_en op t c o :
  p_state (pr t c) <> UNUSED ->
  triple (st t c o) (spawn op)
    (fun r s => r = -1 \/ exists np fs, r = nextpid t /\ p_state (pr t np) = UNUSED /\
       en t c np fs (fun f => o f + fd_count f (p_ofile (pr t c))) s /\
       p_pid (ups fs (pr t np)) = r /\ p_state (ups fs (pr t np)) = RUNNABLE /\
       p_parent (ups fs (pr t np)) = Some c /\ p_sz (ups fs (pr t np)) = p_sz (pr t c) /\
       p_ofile (ups fs (pr t np)) = overlay (p_ofile (pr t c)) 0 (p_ofile (pr t np)) /\
       p_cwd (ups fs (pr t np)) = p_cwd (pr t c) /\
       p_killed (ups fs (pr t np)) = p_killed (pr t np) /\
       p_isthread (ups fs (pr t np)) = (if op then true else p_isthread (pr t np)) /\
       (op <> None -> p_pgdir (ups fs (pr t np)) = p_pgdir (pr t c))).
Proof.
  intros Hc. destruct op as [[[fcn arg] stack]|]; cbn [spawn];
    (eapply triple_weaken; [by (apply thread_en || apply fork_en)|by intros s Hs; exact Hs|]).
  - intros r s [->|(np & k & tf & cx & ip & -> & Hu & Hip & He)]; [by left|right].
    eexists np, _. split_and!; done.
  - intros r s [->|(np & k & tf & cx & d & ip & -> & Hu & Hip & He)]; [by left|right].
    eexists np, _. split_and!; done.
Qed.

(** [fork] and [thread_create] make a copy of the caller. When they do not
    return -1, they return the pid of a process in an entry that was free:
    runnable, with a fresh pid, the caller as parent, and the caller's size, open
    files and directory (and, for a thread, the caller's page directory); every
    open file has gained one reference per descriptor copied, and no other entry
    of the table changes. A thread is marked as one; the flag [killed], and for
    [fork] also [isthread], are whatever the free entry had. *)
Theorem spawn_child op s r s' :
  p_state (me s) <> UNUSED -> length (p_ofile (me s)) = 16%nat ->
  (forall i, p_state (pr (kt s) i) = UNUSED -> p_ofile (pr (kt s) i) = replicate 16 None) ->
  spawn op s = Ret r s' -> r <> -1 ->
  exists np, p_state (pr (kt s) np) = UNUSED /\
    r = nextpid (kt s) /\ p_pid (pr (kt s') np) = r /\ p_state (pr (kt s') np) = RUNNABLE /\
    p_parent (pr (kt s') np) = Some (cur s) /\ p_sz (pr (kt s') np) = p_sz (me s) /\
    p_ofile (pr (kt s') np) = p_ofile (me s) /\ p_cwd (pr (kt s') np) = p_cwd (me s) /\
    p_killed (pr (kt s') np) = p_killed (pr (kt s) np) /\
    p_isthread (pr (kt s') np) = (if op then true else p_isthread (pr (kt s) np)) /\
    (op <> None -> p_pgdir (pr (kt s') np) = p_pgdir (me s)) /\
    (forall j, j <> np -> pr (kt s') j = pr (kt s) j) /\
    forall f, (f < length (ftable (kx s')))%nat ->
      f_ref (fl (kx s') f) = f_ref (fl (kx s) f) + fd_count f (p_ofile (me s)).
Proof.
  intros Hu Hlen Hfree E Hr.
  assert (st (kt s) (cur s) (fun f => f_ref (fl (kx s) f)) s) as Hst by (split_and!; done).
  destruct (spawn_en op _ _ _ Hu s r s' Hst E)
    as [?|(np & fs & -> & Hun & He & Hpid & Hs & Hpar & Hsz & Hof & Hcwd & Hk & Hth & Hpg)]; [done|].
  destruct He as (t' & (<- & _ & Hkr) & [_ _ Hpr]).
  exists np. rewrite !Hpr, !decide_True by done. split_and!; try done.
  - rewrite Hof, (Hfree np Hun). change (pr (kt s) (cur s)) with (me s).
    apply (overlay_copy _ [] (replicate 16 None)); [cbn; lia|done|cbn; by rewrite Hlen].
  - intros j Hj. by rewrite Hpr, decide_False.
Qed.

End ForkSpec.

(** A process with one user page, an open file and a free page for the new
    kernel stack. *)
Definition spawn_demo : kern :=
  {| kx := {| kf_km := {| kbytes := wr32 (wr32 ∅ 2151677952 4198407) 2151682048 4202503;
                          freelist := 2151694336; use_lock := false; kmem_locked := false |};
              kf_fs := fs_root; pipes := ∅; ftable := <[0%nat := set_f_ref 1 inhabitant]> (replicate NFILE inhabitant);
              outst := 0 |};
     kt := foldl (fun t f => store_f 0 f t) (tb psys0)
             [Fstate RUNNING; Fpgdir 2151677952; Fsz 4096; Ftf 2151690240; Fcwd (Some 0%nat);
              Fofile (<[0%nat := Some 0%nat]> (replicate 16 None))];
     khw := {| cr3 := 0; esp0 := 0; kpgdir := 0 |};
     kcpu := {| pc := Run; ncli := 0; intena := true; iflag := true; held := [] |}; cur := 0 |}.

Lemma spawn_demo_ret : exists s', spawn 0 0 0 0 (Some (16, 5, 0)) spawn_demo = Ret 2 s'.
Proof.
  assert (match spawn 0 0 0 0 (Some (16, 5, 0)) spawn_demo with Ret r _ => r =? 2 | _ => false end = true) as H
    by (vm_compute; reflexivity).
  destruct (spawn _ _ _ _ _ _) as [r s'| | |]; try discriminate H. apply Z.eqb_eq in H. subst r. by exists s'.
Qed.

Lemma spawn_demo_free i :
  p_state (pr (kt spawn_demo) i) = UNUSED -> p_ofile (pr (kt spawn_demo) i) = replicate 16 None.
Proof.
  destruct i as [|i]; [discriminate|]. intros _.
  destruct (decide (i < 63)%nat) as [Hi|Hi].
  - assert (pr (kt spawn_demo) (S i) = inhabitant) as ->; [|reflexivity].
    apply (lookup_total_replicate_2 63). lia.
  - unfold pr. rewrite list_lookup_total_alt, lookup_ge_None_2; [reflexivity|].
    assert (length (procs (kt spawn_demo)) = 64%nat) as -> by (vm_compute; reflexivity). lia.
Qed.

Lemma spawn_child_witness :
  exists s' np, spawn 0 0 0 0 (Some (16, 5, 0)) spawn_demo = Ret 2 s' /\
    p_state (pr (kt s') np) = RUNNABLE /\ p_isthread (pr (kt s') np) = true.
Proof.
  destruct spawn_demo_ret as [s' E]. exists s'.
  destruct (spawn_child 0 0 0 0 (Some (16, 5, 0)) spawn_demo 2 s')
    as (np & _ & _ & _ & Hs & _ & _ & _ & _ & _ & Ht & _).
  - intros H. vm_compute in H. discriminate H.
  - vm_compute. reflexivity.
  - exact spawn_demo_free.
  - exact E.
  - discriminate.
  - exists np. split; [exact E|]. split; [exact Hs|exact Ht].
Defined.
