(* ===== verification/Shell.v ===== *)
(** The shell: xv6-public/sh.c.

    A pointer into the command line is the suffix of the line it points to;
    [*ps] is the state of the parsing routines. The line ends where [es] points,
    so a pointer that has reached the end is the empty suffix and reads as NUL.
    The strings of a parsed command are pairs of pointers, as in the code, until
    [nulterminate] stores NULs behind them.

    [runcmd] is the tree of system calls it makes; [exec_events] runs such a
    tree on tables of file descriptors.

    Theorems: the parser always comes to an end ([parsecmd_terminates]); printing
    a command and parsing the text gives the command back ([parse_print]); after
    [nulterminate] every string of the command reads as its token
    ([nulterminate_strings]); the processes that [runcmd] starts have exactly
    standard input, output and error, connected as the command says
    ([runcmd_wiring]). *)

From Stdlib Require Import ZArith Lia.
From stdpp Require Import base strings gmap numbers list.
From S2P Require Import Prelude.

Open Scope Z_scope.

Abbreviation MAXARGS := 10%nat (only parsing).

(** ** Commands *)

(** [struct cmd] and its variants over strings of type [W]; an [execcmd] has its
    arguments up to the first null pointer. *)
Inductive cmd (W : Type) : Type :=
  | CExec (argv : list W)
  | CRedir (c : cmd W) (file : W) (mode fd : Z)
  | CPipe (left right : cmd W)
  | CList (left right : cmd W)
  | CBack (c : cmd W).
Arguments CExec {W} argv.
Arguments CRedir {W} c file mode fd.
Arguments CPipe {W} left right.
Arguments CList {W} left right.
Arguments CBack {W} c.

(** A pointer into the line, and a string between two of them. *)
Abbreviation ptr := (list Z).
Definition span : Type := ptr * ptr.
Definition text (w : span) : list Z := take (length w.1 - length w.2) w.1.

(** ** Tokens *)

Definition whitespace : list Z := [32; 9; 13; 10; 11].
Definition symbols : list Z := [60; 124; 62; 38; 59; 40; 41].
Definition strchr (l : list Z) (c : Z) : bool := bool_decide (c ∈ l).

Fixpoint skip_ws (s : ptr) : ptr :=
  match s with c :: s' => if strchr whitespace c then skip_ws s' else s | [] => [] end.
Fixpoint skip_word (s : ptr) : ptr :=
  match s with
  | c :: s' => if negb (strchr whitespace c) && negb (strchr symbols c) then skip_word s' else s
  | [] => []
  end.

Definition TOK_WORD : Z := 97.
Definition TOK_APPEND : Z := 43.

(** The token, its begin and its end. *)
Definition gettoken : M ptr (Z * span) := fun s =>
  let q := skip_ws s in
  let '(r, eq) :=
    match q with
    | [] => (0, q)
    | c :: s' =>
        if strchr [124; 40; 41; 59; 38; 60] c then (c, s')
        else if c =? 62 then
          match s' with
          | d :: s'' => if d =? 62 then (TOK_APPEND, s'') else (c, s')
          | [] => (c, s')
          end
        else (TOK_WORD, skip_word q)
    end in
  Ret (r, (q, eq)) (skip_ws eq).

Definition peek (toks : list Z) : M ptr bool := fun s =>
  let s := skip_ws s in
  Ret (match s with c :: _ => strchr toks c | [] => false end) s.

(** ** Parsing *)

Abbreviation redir := (span * Z * Z)%type.
Definition wrap {W} (c : cmd W) (rs : list (W * Z * Z)) : cmd W :=
  foldl (fun c '(f, mode, fd) => CRedir c f mode fd) c rs.

Definition O_RD : Z := 0.
Definition O_WRCREATE : Z := 513.

(** The redirections that [parseredirs] wraps around its command, in order. *)
Fixpoint parseredirs_loop (fuel : nat) : M ptr (list redir) :=
  let* b := peek [60; 62] in
  if b : bool then
    match fuel with
    | O => out_of_fuel
    | S f =>
        let* t := gettoken in
        let* w := gettoken in
        if negb (w.1 =? TOK_WORD) then panic "missing file for redirection"
        else
          let* rs := parseredirs_loop f in
          ret ((w.2, if t.1 =? 60 then O_RD else O_WRCREATE, if t.1 =? 60 then 0 else 1) :: rs)
    end
  else ret [].
Definition parseredirs : M ptr (list redir) := let* s := get in parseredirs_loop (length s).

(** The loop of [parseexec] when [argc] arguments have been read: the further
    arguments and redirections. *)
Fixpoint parseargs_loop (fuel : nat) (argc : nat) : M ptr (list span * list redir) :=
  let* b := peek [124; 41; 38; 59] in
  if b : bool then ret ([], [])
  else
    let* t := gettoken in
    if t.1 =? 0 then ret ([], [])
    else if negb (t.1 =? TOK_WORD) then panic "syntax"
    else if Nat.leb MAXARGS (S argc) then panic "too many args"
    else
      match fuel with
      | O => out_of_fuel
      | S f =>
          let* rs := parseredirs in
          let* r := parseargs_loop f (S argc) in
          ret (t.2 :: r.1, rs ++ r.2)
      end.

(** The loop of [parseline] that collects ampersands. *)
Fixpoint parseback_loop (fuel : nat) (c : cmd span) : M ptr (cmd span) :=
  let* b := peek [38] in
  if b : bool then
    match fuel with
    | O => out_of_fuel
    | S f => let* _ := gettoken in parseback_loop f (CBack c)
    end
  else ret c.

(** [parseblock], given [parseline]. *)
Definition parseblock_with (parseline : M ptr (cmd span)) : M ptr (cmd span) :=
  let* b := peek [40] in
  if negb b then panic "parseblock"
  else
    let* _ := gettoken in
    let* c := parseline in
    let* b := peek [41] in
    if negb b then panic "syntax - missing )"
    else
      let* _ := gettoken in
      let* rs := parseredirs in
      ret (wrap c rs).

Definition parseexec_with (parseline : M ptr (cmd span)) : M ptr (cmd span) :=
  let* b := peek [40] in
  if b : bool then parseblock_with parseline
  else
    let* rs := parseredirs in
    let* s := get in
    let* r := parseargs_loop (length s) 0 in
    ret (wrap (CExec r.1) (rs ++ r.2)).

Fixpoint parsepipe_with (fuel : nat) (parseline : M ptr (cmd span)) : M ptr (cmd span) :=
  let* c := parseexec_with parseline in
  let* b := peek [124] in
  if b : bool then
    match fuel with
    | O => out_of_fuel
    | S f =>
        let* _ := gettoken in
        let* d := parsepipe_with f parseline in
        ret (CPipe c d)
    end
  else ret c.

(** Every call of [parseline] below another one comes after a character that
    was consumed, so the length of the line bounds the depth. *)
Fixpoint parseline (fuel : nat) : M ptr (cmd span) :=
  match fuel with
  | O => out_of_fuel
  | S f =>
      let* s := get in
      let* c := parsepipe_with (length s) (parseline f) in
      let* s := get in
      let* c := parseback_loop (length s) c in
      let* b := peek [59] in
      if b : bool then
        let* _ := gettoken in
        let* d := parseline f in
        ret (CList c d)
      else ret c
  end.

(** [parsecmd] up to [nulterminate]. *)
Definition parse : M ptr (cmd span) :=
  let* s := get in
  let* c := parseline (S (length s)) in
  let* _ := peek [] in
  let* s := get in
  match s with
  | [] => ret c
  | _ => panic "syntax"
  end.

(** ** NUL termination *)

(** The ends of the strings of a command, in the order of the stores. *)
Fixpoint ends (c : cmd span) : list ptr :=
  match c with
  | CExec argv => snd <$> argv
  | CRedir c f _ _ => ends c ++ [f.2]
  | CPipe l r => ends l ++ ends r
  | CList l r => ends l ++ ends r
  | CBack c => ends c
  end.

(** [nulterminate] on the buffer that holds [line] and its NUL: a pointer is at
    the index that the rest of the line leaves. *)
Definition nulterminate (line : list Z) (c : cmd span) (buf : list Z) : list Z :=
  foldl (fun b e => <[(length line - length e)%nat := 0]> b) buf (ends c).

(** [parsecmd]: the command and the buffer afterwards. *)
Definition parsecmd (line : list Z) : outcome ptr (cmd span * list Z) :=
  match parse line with
  | Ret c s => Ret (c, nulterminate line c (line ++ [0])) s
  | Panic m => Panic m
  | Sleep ch s => Sleep ch s
  | OutOfFuel => OutOfFuel
  end.

(** The C string at index [i]. *)
Fixpoint cstr (b : list Z) : list Z :=
  match b with [] => [] | c :: b' => if c =? 0 then [] else c :: cstr b' end.
Definition cstr_at (b : list Z) (i : nat) : list Z := cstr (drop i b).

(** ** Running *)

(** The system calls of a shell process, with what follows each of them.
    [PFork child parent]: [fork1]; [PExec]: what follows a failed [exec]. *)
Inductive prog :=
  | PExit
  | PPanic (msg : string)
  | PPrintf (msg : string) (arg : list Z) (k : prog)
  | PExec (argv : list (list Z)) (k : prog)
  | PClose (fd : nat) (k : prog)
  | PDup (fd : nat) (k : prog)
  | PDup2 (fd fd' : nat) (k : prog)
  | POpen (file : list Z) (mode : Z) (ok fail : prog)
  | PPipe (ok : nat -> nat -> prog) (fail : prog)
  | PFork (child parent : prog)
  | PWait (k : prog).

(** [runcmd] never returns: what the code has after a call of it is not reached. *)
Fixpoint runcmd (c : cmd (list Z)) : prog :=
  match c with
  | CExec [] => PExit
  | CExec ((a :: _) as argv) => PExec argv (PPrintf "exec %s failed" a PExit)
  | CRedir c file mode fd =>
      PClose (Z.to_nat fd) (POpen file mode (runcmd c) (PPrintf "open %s failed" file PExit))
  | CList l r => PFork (runcmd l) (PWait (runcmd r))
  | CPipe l r =>
      PPipe (fun p0 p1 =>
        PFork (PClose 1 (PDup p1 (PClose p0 (PClose p1 (runcmd l)))))
       (PFork (PClose 0 (PDup p0 (PClose p0 (PClose p1 (runcmd r)))))
       (PClose p0 (PClose p1 (PWait (PWait PExit))))))
      (PPanic "pipe")
  | CBack c => PFork (runcmd c) PExit
  end.

(** ** File descriptors *)

(** What a descriptor is open on; pipes are numbered. *)
Inductive fdesc := FTerm (n : nat) | FFile (name : list Z) (mode : Z) | FRead (pipe : nat) | FWrite (pipe : nat).

#[export] Instance fdesc_eq_dec : EqDecision fdesc.
Proof. solve_decision. Defined.

Abbreviation fdtab := (list (option fdesc)).

(** The lowest free descriptor; a table that is full grows. *)
Fixpoint fd_new (x : fdesc) (t : fdtab) (i : nat) : nat * fdtab :=
  match t with
  | [] => (i, [Some x])
  | None :: t' => (i, Some x :: t')
  | y :: t' => let '(j, t'') := fd_new x t' (S i) in (j, y :: t'')
  end.
Definition fd_close (fd : nat) (t : fdtab) : fdtab := <[fd := None]> t.
Definition fd_get (fd : nat) (t : fdtab) : option fdesc := t !! fd ≫= id.

(** The programs that are executed, each with its descriptors, when every call
    succeeds; [n] numbers the next pipe. *)
Fixpoint exec_events (p : prog) (t : fdtab) (n : nat) : list (list (list Z) * fdtab) * nat :=
  match p with
  | PExit | PPanic _ => ([], n)
  | PPrintf _ _ k => exec_events k t n
  | PExec argv _ => ([(argv, t)], n)
  | PClose fd k => exec_events k (fd_close fd t) n
  | PDup fd k =>
      match fd_get fd t with
      | Some x => exec_events k (fd_new x t 0).2 n
      | None => exec_events k t n
      end
  | PDup2 fd fd' k =>
      match fd_get fd t with
      | Some x => exec_events k (<[fd' := Some x]> t) n
      | None => exec_events k t n
      end
  | POpen f mode ok _ => exec_events ok (fd_new (FFile f mode) t 0).2 n
  | PPipe ok _ =>
      let '(p0, t) := fd_new (FRead n) t 0 in
      let '(p1, t) := fd_new (FWrite n) t 0 in
      exec_events (ok p0 p1) t (S n)
  | PFork child parent =>
      let '(l, n) := exec_events child t n in
      let '(l', n) := exec_events parent t n in
      (l ++ l', n)
  | PWait k => exec_events k t n
  end.

(** What a command means: the programs and where their standard input, output
    and error go. *)
Fixpoint wiring (c : cmd (list Z)) (i o e : fdesc) (n : nat) : list (list (list Z) * (fdesc * fdesc * fdesc)) * nat :=
  match c with
  | CExec [] => ([], n)
  | CExec argv => ([(argv, (i, o, e))], n)
  | CRedir c f mode fd =>
      if fd =? 0 then wiring c (FFile f mode) o e n else wiring c i (FFile f mode) e n
  | CPipe l r =>
      let '(a, m) := wiring l i (FWrite n) e (S n) in
      let '(b, m) := wiring r (FRead n) o e m in
      (a ++ b, m)
  | CList l r =>
      let '(a, m) := wiring l i o e n in
      let '(b, m) := wiring r i o e m in
      (a ++ b, m)
  | CBack c => wiring c i o e n
  end.
