(* ===== verification/ShellSpec.v ===== *)
(** Properties of the shell (Shell.v). *)

From Stdlib Require Import ZArith Lia.
From stdpp Require Import base strings gmap numbers list.
From S2P Require Import Prelude Shell.

Open Scope Z_scope.

(** ** Termination *)

Lemma skip_ws_length s : (length (skip_ws s) <= length s)%nat.
Proof. induction s as [|c s IH]; simpl; [lia|]. destruct (strchr _ _); simpl; lia. Qed.
Lemma skip_word_length s : (length (skip_word s) <= length s)%nat.
Proof. induction s as [|c s IH]; simpl; [lia|]. destruct (_ && _); simpl; lia. Qed.
Lemma skip_ws_idem s : skip_ws (skip_ws s) = skip_ws s.
Proof. induction s as [|c s IH]; simpl; [done|]. destruct (strchr whitespace c) eqn:E; simpl; [done|]. by rewrite E. Qed.

Lemma skip_ws_head s c q : skip_ws s = c :: q -> strchr whitespace c = false.
Proof.
  induction s as [|d s IH]; simpl; [done|]. destruct (strchr whitespace d) eqn:E; [done|]. congruence.
Qed.

(** The characters that end a word are the whitespace and the ones [gettoken]
    treats one by one. *)
Lemma symbols_cases c : strchr symbols c = strchr [124; 40; 41; 59; 38; 60] c || (c =? 62).
Proof.
  unfold strchr, symbols. destruct (Z.eqb_spec c 62) as [->|Hne]; [reflexivity|].
  rewrite orb_false_r. apply bool_decide_ext. set_solver.
Qed.

Definition word_char (c : Z) : bool := negb (strchr whitespace c) && negb (strchr symbols c).

Lemma gettoken_word s c q :
  skip_ws s = c :: q -> word_char c = true ->
  gettoken s = Ret (TOK_WORD, (c :: q, skip_word q)) (skip_ws (skip_word q)).
Proof.
  intros E Hw. unfold word_char in Hw. unfold gettoken. rewrite E.
  apply andb_true_iff in Hw as [Hw Hs]. rewrite symbols_cases in Hs.
  apply negb_true_iff, orb_false_iff in Hs as [Hs1 Hs2]. rewrite Hs1, Hs2.
  simpl. rewrite Hw, symbols_cases, Hs1, Hs2. done.
Qed.

(** [gettoken] makes progress unless it is at the end. *)
Lemma gettoken_progress s : exists r w s', gettoken s = Ret (r, w) s' /\ (length s' <= length s)%nat /\
  (skip_ws s <> [] -> (length s' < length s)%nat) /\ (r <> 0 -> skip_ws s <> []).
Proof.
  pose proof (skip_ws_length s) as H. destruct (skip_ws s) as [|c q] eqn:E.
  { unfold gettoken. rewrite E. eexists _, _, _. split; [done|]. simpl. split_and!; [lia|done|done]. }
  simpl in H. assert (forall x, (length (skip_ws x) <= length x)%nat) as Hl by apply skip_ws_length.
  destruct (word_char c) eqn:Hw.
  { rewrite (gettoken_word s c q E Hw). eexists _, _, _. split; [done|].
    specialize (Hl (skip_word q)). pose proof (skip_word_length q). split_and!; try done; lia. }
  unfold gettoken. rewrite E. destruct (strchr [124; 40; 41; 59; 38; 60] c) eqn:Es.
  { eexists _, _, _. split; [done|]. specialize (Hl q). split_and!; try done; lia. }
  destruct (c =? 62) eqn:Ec.
  - destruct q as [|d q]; [|destruct (d =? 62)]; (eexists _, _, _; split; [done|]).
    + simpl in *. split_and!; try done; lia.
    + specialize (Hl q). simpl in *. split_and!; try done; lia.
    + specialize (Hl (d :: q)). simpl in *. split_and!; try done; lia.
  - exfalso. unfold word_char in Hw. rewrite symbols_cases, Es, Ec, (skip_ws_head s c q E) in Hw. done.
Qed.

(** [m] does not run out of fuel on [s], and leaves no more input than it got. *)
Definition ends_on {A} (m : M ptr A) (s : ptr) : Prop :=
  match m s with
  | Ret _ s' => (length s' <= length s)%nat
  | Panic _ => True
  | Sleep _ _ | OutOfFuel => False
  end.

Lemma ends_ret {A} (a : A) s : ends_on (ret a) s.
Proof. unfold ends_on, ret. lia. Qed.
Lemma ends_panic {A} m s : ends_on (panic m : M ptr A) s.
Proof. done. Qed.
Lemma ends_bind {A B} (m : M ptr A) (k : A -> M ptr B) s :
  ends_on m s -> (forall a s', m s = Ret a s' -> (length s' <= length s)%nat -> ends_on (k a) s') -> ends_on (bind m k) s.
Proof.
  unfold ends_on, bind. destruct (m s) as [a s'| | |]; try done. intros Hm Hk. specialize (Hk a s' eq_refl Hm).
  destruct (k a s'); try done. lia.
Qed.
Lemma ends_get {B} (k : ptr -> M ptr B) s : ends_on (k s) s -> ends_on (bind get k) s.
Proof. done. Qed.

(** After a successful [peek] the next token is not empty. *)
Lemma ends_peek {B} toks (k : bool -> M ptr B) s :
  (forall s', (length s' <= length s)%nat -> skip_ws s' = s' -> ends_on (k false) s') ->
  (forall s', (length s' <= length s)%nat -> skip_ws s' <> [] -> ends_on (k true) s') ->
  ends_on (bind (peek toks) k) s.
Proof.
  intros Hf Ht. unfold bind, peek, ends_on. pose proof (skip_ws_length s) as Hl.
  destruct (skip_ws s) as [|c q] eqn:E.
  - specialize (Hf [] ltac:(simpl; lia) eq_refl). unfold ends_on in Hf. destruct (k false []); try done. simpl in *. lia.
  - assert (skip_ws (c :: q) = c :: q) as Hi by (rewrite <- E; apply skip_ws_idem).
    destruct (strchr toks c).
    + specialize (Ht (c :: q) Hl ltac:(by rewrite Hi)). unfold ends_on in Ht. destruct (k true (c :: q)); try done. lia.
    + specialize (Hf (c :: q) Hl Hi). unfold ends_on in Hf. destruct (k false (c :: q)); try done. lia.
Qed.
Lemma ends_gettoken {B} (k : Z * span -> M ptr B) s :
  (forall r w s', (length s' <= length s)%nat -> (skip_ws s <> [] -> (length s' < length s)%nat) ->
     (r <> 0 -> (length s' < length s)%nat) -> ends_on (k (r, w)) s') ->
  ends_on (bind gettoken k) s.
Proof.
  intros H. destruct (gettoken_progress s) as (r & w & s' & E & Hl & Hp & Hr).
  unfold bind, ends_on. rewrite E. specialize (H r w s' Hl Hp (fun h => Hp (Hr h))). unfold ends_on in H.
  destruct (k (r, w) s'); try done. lia.
Qed.

Lemma ends_redirs n s : (length s <= n)%nat -> ends_on (parseredirs_loop n) s.
Proof.
  revert s. induction n as [|n IH]; intros s Hs; cbn [parseredirs_loop]; apply ends_peek.
  - intros. apply ends_ret.
  - intros s' Hl Hne. destruct s'; [done|simpl in *; lia].
  - intros. apply ends_ret.
  - intros s1 Hl1 Hne1. apply ends_gettoken. intros r w s2 _ H2 _. specialize (H2 Hne1).
    apply ends_gettoken. intros r' w' s3 H3 _ _. destruct (negb _); [apply ends_panic|].
    apply ends_bind; [apply IH; lia|]. intros. apply ends_ret.
Qed.
Lemma ends_parseredirs s : ends_on parseredirs s.
Proof. apply ends_get. by apply ends_redirs. Qed.

Lemma ends_args n argc s : (length s <= n)%nat -> ends_on (parseargs_loop n argc) s.
Proof.
  revert argc s. induction n as [|n IH]; intros argc s Hs; cbn [parseargs_loop]; apply ends_peek;
    try (intros; apply ends_ret); intros s1 Hl1 _; apply ends_gettoken; intros r w s2 _ _ H2; cbn [fst].
  - destruct (Z.eqb_spec r 0); [apply ends_ret|]. specialize (H2 n). lia.
  - destruct (Z.eqb_spec r 0) as [|Hr]; [apply ends_ret|]. specialize (H2 Hr).
    destruct (negb _); [apply ends_panic|]. destruct (Nat.leb _ _); [apply ends_panic|].
    apply ends_bind; [apply ends_parseredirs|]. intros rs s3 _ H3.
    apply ends_bind; [apply IH; lia|]. intros. apply ends_ret.
Qed.

Lemma ends_back n c s : (length s <= n)%nat -> ends_on (parseback_loop n c) s.
Proof.
  revert c s. induction n as [|n IH]; intros c s Hs; cbn [parseback_loop]; apply ends_peek;
    try (intros; apply ends_ret); intros s1 Hl1 Hne.
  - destruct s1; [done|simpl in *; lia].
  - apply ends_gettoken. intros r w s2 _ H2 _. specialize (H2 Hne). apply IH. lia.
Qed.

Section Nested.
Context (pl : M ptr (cmd span)).

Lemma ends_block s : (forall s', (length s' < length s)%nat -> ends_on pl s') -> ends_on (parseblock_with pl) s.
Proof.
  intros H. unfold parseblock_with. apply ends_peek; [intros; apply ends_panic|]. intros s1 H1 Hne. cbn [negb].
  apply ends_gettoken. intros r w s2 _ H2 _. specialize (H2 Hne). apply ends_bind; [apply H; lia|]. intros c s3 _ H3.
  apply ends_peek; [intros; apply ends_panic|]. intros s4 _ _. apply ends_gettoken. intros r' w' s5 _ _ _.
  apply ends_bind; [apply ends_parseredirs|]. intros. apply ends_ret.
Qed.
Lemma ends_exec s : (forall s', (length s' < length s)%nat -> ends_on pl s') -> ends_on (parseexec_with pl) s.
Proof.
  intros H. unfold parseexec_with. apply ends_peek.
  - intros s1 H1 _. apply ends_bind; [apply ends_parseredirs|]. intros rs s2 _ _.
    apply ends_get. apply ends_bind; [by apply ends_args|]. intros. apply ends_ret.
  - intros s1 H1 Hne. apply ends_block. intros s' Hs'. apply H. lia.
Qed.
Lemma ends_pipe n s : (length s <= n)%nat -> (forall s', (length s' < length s)%nat -> ends_on pl s') ->
  ends_on (parsepipe_with n pl) s.
Proof.
  revert s. induction n as [|n IH]; intros s Hn H; cbn [parsepipe_with];
    (apply ends_bind; [by apply ends_exec|]); intros c s1 _ H1; (apply ends_peek; [intros; apply ends_ret|]);
    intros s2 H2 Hne.
  - destruct s2; [done|simpl in *; lia].
  - apply ends_gettoken. intros r w s3 _ H3 _. specialize (H3 Hne).
    apply ends_bind; [apply IH; [lia|intros; apply H; lia]|]. intros. apply ends_ret.
Qed.

End Nested.

Lemma ends_line n s : (length s < n)%nat -> ends_on (parseline n) s.
Proof.
  revert s. induction n as [|n IH]; intros s Hn; [lia|]. cbn [parseline]. apply ends_get.
  apply ends_bind; [apply ends_pipe; [done|intros; apply IH; lia]|]. intros c s1 _ H1. apply ends_get.
  apply ends_bind; [by apply ends_back|]. intros c' s2 _ H2. apply ends_peek; [intros; apply ends_ret|].
  intros s3 H3 Hne. apply ends_gettoken. intros r w s4 _ H4 _. specialize (H4 Hne).
  apply ends_bind; [apply IH; lia|]. intros. apply ends_ret.
Qed.

Lemma parse_ends line : match parse line with Ret _ s => s = [] | Panic _ => True | _ => False end.
Proof.
  unfold parse, bind at 1, get at 1. pose proof (ends_line (S (length line)) line ltac:(lia)) as H.
  unfold ends_on in H. unfold bind at 1. destruct (parseline (S (length line)) line) as [c s| | |]; try done.
  unfold bind, peek, get. by destruct (skip_ws s).
Qed.

(** C36. The parser terminates: on every line [parsecmd] returns a command or
    stops with one of its error messages. *)
Theorem parsecmd_terminates line :
  (exists c buf, parsecmd line = Ret (c, buf) []) \/ exists msg, parsecmd line = Panic msg.
Proof.
  pose proof (parse_ends line) as H. unfold parsecmd. destruct (parse line); try done; subst; eauto.
Qed.

(** ** Strings *)

Section Strings.
Context (line : list Z).

Definition at_line (s : ptr) : Prop := s `suffix_of` line.

(** A word: a maximal run of word characters. *)
Definition tok_ok (w : span) : Prop :=
  at_line w.1 /\ exists t, w.1 = t ++ w.2 /\ Forall (fun c => word_char c = true) t /\
    match w.2 with c :: _ => word_char c = false | [] => True end.

Fixpoint spans (c : cmd span) : list span :=
  match c with
  | CExec argv => argv
  | CRedir c f _ _ => spans c ++ [f]
  | CPipe l r => spans l ++ spans r
  | CList l r => spans l ++ spans r
  | CBack c => spans c
  end.
Definition cmd_ok (c : cmd span) : Prop := Forall tok_ok (spans c).

Lemma skip_ws_suffix s : skip_ws s `suffix_of` s.
Proof. induction s as [|c s IH]; simpl; [done|]. destruct (strchr _ _); [by apply suffix_cons_r|done]. Qed.
Lemma skip_word_split s : exists t, s = t ++ skip_word s /\ Forall (fun c => word_char c = true) t /\
  match skip_word s with c :: _ => word_char c = false | [] => True end.
Proof.
  induction s as [|c s (t & E & Ht & Hs)]; [by exists []|]. cbn [skip_word].
  change (negb (strchr whitespace c) && negb (strchr symbols c)) with (word_char c).
  destruct (word_char c) eqn:Hw.
  - exists (c :: t). simpl. split_and!; [by f_equal|by constructor|done].
  - exists []. simpl. rewrite Hw. split_and!; [done|constructor|done].
Qed.

Lemma line_peek toks : triple at_line (peek toks) (fun _ => at_line).
Proof.
  intros s b s' H E. unfold peek in E. simplify_eq. unfold at_line in *. by etrans; [apply skip_ws_suffix|].
Qed.
Lemma line_gettoken :
  triple at_line gettoken (fun t s => at_line s /\ (t.1 = TOK_WORD -> tok_ok t.2)).
Proof.
  intros s [r w] s' H E. unfold at_line in H.
  assert (skip_ws s `suffix_of` line) as Hq by (by etrans; [apply skip_ws_suffix|]).
  destruct (skip_ws s) as [|c q] eqn:Es.
  { unfold gettoken in E. rewrite Es in E. simplify_eq. split; [apply suffix_nil|done]. }
  destruct (word_char c) eqn:Hw.
  - rewrite (gettoken_word s c q Es Hw) in E. simplify_eq. cbn [fst snd].
    destruct (skip_word_split q) as (t & Et & Ht & Hs). split.
    + unfold at_line in *. etrans; [apply skip_ws_suffix|]. etrans; [|exact Hq]. exists (c :: t). simpl. f_equal. exact Et.
    + intros _. split; [done|]. exists (c :: t). cbn [fst snd]. split_and!; [simpl; f_equal; exact Et|by constructor|done].
  - assert (at_line (skip_ws w.2) /\ r <> TOK_WORD) as [H1 H2]; [|unfold gettoken in E; rewrite Es in E].
    { unfold gettoken in E. rewrite Es in E.
      assert (forall x, x `suffix_of` (c :: q) -> at_line (skip_ws x)) as Hx.
      { intros x Hx. unfold at_line. etrans; [apply skip_ws_suffix|]. by etrans. }
      destruct (strchr [124; 40; 41; 59; 38; 60] c) eqn:E1.
      - simplify_eq. cbn [snd]. split; [apply Hx; by apply suffix_cons_r|]. intros ->. discriminate E1.
      - destruct (Z.eqb_spec c 62) as [->|].
        + destruct q as [|d q]; [|destruct (d =? 62)]; simplify_eq; cbn [snd]; (split; [apply Hx|done]).
          * apply suffix_nil.
          * by do 2 apply suffix_cons_r.
          * by apply suffix_cons_r.
        + exfalso. unfold word_char in Hw. rewrite symbols_cases, E1, (skip_ws_head s c q Es) in Hw.
          destruct (Z.eqb_spec c 62); done. }
    cbn [fst]. split; [|done]. repeat case_match; simplify_eq; exact H1.
Qed.

Definition redirs_ok (rs : list redir) : Prop := Forall (fun r => tok_ok r.1.1) rs.

Lemma line_redirs_loop n :
  triple at_line (parseredirs_loop n) (fun rs s => at_line s /\ redirs_ok rs).
Proof.
  induction n as [|n IH]; cbn [parseredirs_loop]; (eapply triple_bind; [apply line_peek|intros b]);
    (destruct b; [|apply triple_ret; intros s H; split; [done|constructor]]); [apply triple_fuel|].
  eapply triple_bind with (R := fun _ => at_line); [eapply triple_weaken; [apply line_gettoken|done|by intros ? s [? _]]|intros t].
  eapply triple_bind; [apply line_gettoken|intros w].
  destruct (Z.eqb_spec w.1 TOK_WORD) as [Ew|]; cbn [negb]; [|apply triple_panic].
  eapply triple_bind with (R := fun rs s => tok_ok w.2 /\ at_line s /\ redirs_ok rs).
  - intros s rs s' [H1 H2] E. split; [by apply H2|]. by apply (IH s rs s' H1).
  - intros rs. apply triple_ret. intros s (H1 & H2 & H3). split; [done|]. by constructor.
Qed.
Lemma line_redirs : triple at_line parseredirs (fun rs s => at_line s /\ redirs_ok rs).
Proof.
  unfold parseredirs. eapply triple_bind with (R := fun _ => at_line); [by apply triple_get|intros s]. apply line_redirs_loop.
Qed.

Lemma line_args n argc :
  triple at_line (parseargs_loop n argc) (fun r s => at_line s /\ Forall tok_ok r.1 /\ redirs_ok r.2).
Proof.
  assert (forall s, at_line s -> at_line s /\ Forall tok_ok (@nil span) /\ redirs_ok []) as H0
    by (intros s Hs; split; [exact Hs|split; constructor]).
  revert argc. induction n as [|n IH]; intros argc; cbn [parseargs_loop];
    (eapply triple_bind; [apply line_peek|intros b]); (destruct b; [by apply triple_ret|]);
    (eapply triple_bind; [apply line_gettoken|intros t]);
    (destruct (t.1 =? 0); [apply triple_ret; intros s [H _]; by apply H0|]);
    (destruct (Z.eqb_spec t.1 TOK_WORD) as [Ew|]; cbn [negb]; [|apply triple_panic]);
    (destruct (Nat.leb _ _); [apply triple_panic|]); [apply triple_fuel|].
  eapply triple_bind with (R := fun rs s => (tok_ok t.2 /\ redirs_ok rs) /\ at_line s).
  { intros s rs s' [H1 H2] E. destruct (line_redirs s rs s' H1 E). auto. }
  intros rs. apply triple_assume. intros [Ht Hrs].
  eapply triple_bind; [apply IH|intros r]. apply triple_ret. intros s (H1 & H2 & H3).
  split_and!; [done|by constructor|by apply Forall_app].
Qed.

Lemma spans_wrap c rs : cmd_ok c -> redirs_ok rs -> cmd_ok (wrap c rs).
Proof.
  revert c. induction rs as [|[[f m] d] rs IH]; intros c Hc Hr; [done|]. inversion Hr; subst. cbn. apply IH; [|done].
  apply Forall_app. split; [done|]. by constructor.
Qed.

Definition ok_from (pl : M ptr (cmd span)) : Prop := triple at_line pl (fun c s => at_line s /\ cmd_ok c).

Lemma line_token : triple at_line gettoken (fun _ => at_line).
Proof. eapply triple_weaken; [apply line_gettoken|done|by intros ? s [? _]]. Qed.

Lemma line_block pl : ok_from pl -> ok_from (parseblock_with pl).
Proof.
  intros H. unfold ok_from, parseblock_with. eapply triple_bind; [apply line_peek|intros b].
  destruct b; cbn [negb]; [|apply triple_panic]. eapply triple_bind; [apply line_token|intros ?].
  eapply triple_bind; [apply H|intros c]. eapply triple_bind with (R := fun _ s => cmd_ok c /\ at_line s).
  { intros s b s' [H1 H2] E. split; [done|by eapply (line_peek _ s b s' H1)]. }
  intros b. apply triple_assume. intros Hc. destruct b; cbn [negb]; [|apply triple_panic].
  eapply triple_bind; [apply line_token|intros ?]. eapply triple_bind; [apply line_redirs|intros rs].
  apply triple_ret. intros s [? ?]. split; [done|by apply spans_wrap].
Qed.
Lemma line_exec pl : ok_from pl -> ok_from (parseexec_with pl).
Proof.
  intros H. unfold ok_from, parseexec_with. eapply triple_bind; [apply line_peek|intros b].
  destruct b; [by apply line_block|]. eapply triple_bind; [apply line_redirs|intros rs].
  eapply triple_bind with (R := fun _ s => redirs_ok rs /\ at_line s); [by apply triple_get; intros s [? ?]|intros s0].
  apply triple_assume. intros Hrs. eapply triple_bind; [apply line_args|intros r].
  apply triple_ret. intros s (H1 & H2 & H3). split; [done|]. apply spans_wrap; [done|by apply Forall_app].
Qed.
Lemma line_pipe n pl : ok_from pl -> ok_from (parsepipe_with n pl).
Proof.
  intros H. induction n as [|n IH]; unfold ok_from in *; cbn [parsepipe_with];
    (eapply triple_bind; [by apply line_exec|intros c]);
    (eapply triple_bind with (R := fun _ s => cmd_ok c /\ at_line s);
      [intros s b s' [H1 H2] E; split; [done|by eapply (line_peek _ s b s' H1)]|intros b]);
    apply triple_assume; intros Hc; (destruct b; [|by apply triple_ret]); [apply triple_fuel|].
  eapply triple_bind; [apply line_token|intros ?]. eapply triple_bind; [apply IH|intros d].
  apply triple_ret. intros s [? ?]. split; [done|]. by apply Forall_app.
Qed.
Lemma line_back n c : cmd_ok c -> ok_from (parseback_loop n c).
Proof.
  unfold ok_from. revert c. induction n as [|n IH]; intros c Hc; cbn [parseback_loop];
    (eapply triple_bind; [apply line_peek|intros b]); (destruct b; [|by apply triple_ret]); [apply triple_fuel|].
  eapply triple_bind; [apply line_token|intros ?]. by apply IH.
Qed.
Lemma line_line n : ok_from (parseline n).
Proof.
  unfold ok_from. induction n as [|n IH]; cbn [parseline]; [apply triple_fuel|].
  eapply triple_bind with (R := fun _ => at_line); [by apply triple_get|intros s0].
  eapply triple_bind; [by apply line_pipe|intros c].
  eapply triple_bind with (R := fun _ s => cmd_ok c /\ at_line s); [by apply triple_get; intros s [? ?]|intros s1].
  apply triple_assume. intros Hc. eapply triple_bind; [by apply line_back|intros c'].
  eapply triple_bind with (R := fun _ s => cmd_ok c' /\ at_line s).
  { intros s b s' [H1 H2] E. split; [done|by eapply (line_peek _ s b s' H1)]. }
  intros b. apply triple_assume. intros Hc'. destruct b; [|by apply triple_ret].
  eapply triple_bind; [apply line_token|intros ?]. eapply triple_bind; [apply IH|intros d].
  apply triple_ret. intros s [? ?]. split; [done|]. by apply Forall_app.
Qed.

Lemma parse_ok c s : parse line = Ret c s -> cmd_ok c.
Proof.
  unfold parse, bind at 1, get at 1. intros E. minv E as (c' & s1 & E1 & E2).
  destruct (line_line _ line c' s1 (reflexivity line) E1) as [_ H].
  minv E2 as (b & s2 & _ & E2). unfold bind, get in E2. destruct s2; unfold ret, panic in E2; by simplify_eq.
Qed.

(** Storing NULs at the ends of words does not touch the inside of a word. *)
Lemma nul_fold (es : list ptr) (b : list Z) i :
  (forall e, e ∈ es -> (length line - length e)%nat <> i) ->
  foldl (fun b e => <[(length line - length e)%nat := 0]> b) b es !! i = b !! i.
Proof.
  revert b. induction es as [|e es IH]; intros b H; [done|]. simpl. rewrite IH; [|intros; apply H; by right].
  rewrite list_lookup_insert_ne; [done|]. apply H. by left.
Qed.
Lemma nul_fold_keep (es : list ptr) (b : list Z) i :
  b !! i = Some 0 -> foldl (fun b e => <[(length line - length e)%nat := 0]> b) b es !! i = Some 0.
Proof.
  revert b. induction es as [|e es IH]; intros b H; [done|]. simpl. apply IH.
  destruct (decide ((length line - length e)%nat = i)) as [<-|]; [|by rewrite list_lookup_insert_ne].
  apply list_lookup_insert_eq. by eapply lookup_lt_Some.
Qed.
Lemma nul_fold_eq (es : list ptr) (b : list Z) e :
  e ∈ es -> (length line - length e < length b)%nat ->
  foldl (fun b e => <[(length line - length e)%nat := 0]> b) b es !! (length line - length e)%nat = Some 0.
Proof.
  revert b. induction es as [|x es IH]; intros b He Hl; [by apply not_elem_of_nil in He|]. simpl.
  apply elem_of_cons in He as [<-|He].
  - apply nul_fold_keep. by apply list_lookup_insert_eq.
  - apply IH; [done|]. by rewrite length_insert.
Qed.

Lemma ends_spans c : ends c = snd <$> spans c.
Proof. induction c; simpl; rewrite ?fmap_app; cbn; by f_equal. Qed.

Lemma text_split (w : span) t : w.1 = t ++ w.2 -> text w = t.
Proof.
  destruct w as [q e]. cbn. intros ->. unfold text. cbn [fst snd]. rewrite length_app.
  replace (length t + length e - length e)%nat with (length t) by lia. apply take_app_length.
Qed.

(** The characters of a word, and the one behind it, by their index. *)
Lemma tok_index w t :
  at_line w.1 -> w.1 = t ++ w.2 ->
  let i := (length line - length w.1)%nat in
  (length line - length w.2 = i + length t)%nat /\ (i + length t <= length line)%nat /\
  (forall j, (j < length t)%nat -> line !! (i + j)%nat = t !! j) /\ line !! (i + length t)%nat = head w.2.
Proof.
  intros [pre Hpre] E. pose proof (f_equal length E) as El. rewrite length_app in El. cbv zeta.
  assert (length line = length pre + length w.1)%nat as Hl by (rewrite Hpre at 1; by rewrite length_app).
  replace (length line - length w.1)%nat with (length pre) by lia. split_and!; [lia|lia| |].
  - intros j Hj. rewrite Hpre, E, lookup_app_r by lia. rewrite lookup_app_l by lia. f_equal. lia.
  - rewrite Hpre, E, lookup_app_r by lia. rewrite lookup_app_r by lia.
    replace (length pre + length t - length pre - length t)%nat with 0%nat by lia. by destruct w.2.
Qed.

Lemma cstr_prefix t b : Forall (fun c => c <> 0) t ->
  (forall j, (j < length t)%nat -> b !! j = t !! j) -> b !! length t = Some 0 -> cstr b = t.
Proof.
  revert b. induction t as [|c t IH]; intros b Ht Hj H0; destruct b as [|d b]; simpl in *; try done.
  - by simplify_eq.
  - inversion Ht; subst. pose proof (Hj 0%nat ltac:(lia)) as Hd. simpl in Hd. simplify_eq.
    destruct (Z.eqb_spec c 0); [done|]. f_equal. apply IH; [done| |done].
    intros j Hl. apply (Hj (S j)). lia.
Qed.

Lemma nulterminate_ok c w :
  Forall (fun x => x <> 0) line -> cmd_ok c -> w ∈ spans c ->
  cstr_at (nulterminate line c (line ++ [0])) (length line - length w.1) = text w.
Proof.
  intros H0 Hc Hw. unfold cmd_ok in Hc. rewrite Forall_forall in Hc.
  destruct (Hc w Hw) as (Hq & t & E & Ht & He). rewrite (text_split w t E).
  destruct (tok_index w t Hq E) as (I1 & I2 & I3 & I4).
  set (i := (length line - length w.1)%nat) in *. unfold cstr_at, nulterminate. rewrite ends_spans.
  apply cstr_prefix.
  - apply Forall_forall. intros x Hx. apply list_elem_of_lookup in Hx as [j Hj].
    rewrite <- I3 in Hj by (by eapply lookup_lt_Some). by apply (Forall_lookup_1 _ _ _ _ H0 Hj).
  - intros j Hj. rewrite lookup_drop, nul_fold.
    + rewrite lookup_app_l by lia. by apply I3.
    + intros e Hin Heq. apply list_elem_of_fmap in Hin as (w' & -> & Hw').
      destruct (Hc w' Hw') as (Hq' & t' & E' & _ & He'). destruct (tok_index w' t' Hq' E') as (J1 & _ & _ & J4).
      rewrite J1 in Heq. rewrite Heq, I3 in J4 by done.
      destruct (lookup_lt_is_Some_2 t j Hj) as [x Hx]. rewrite Hx in J4.
      pose proof (Forall_lookup_1 _ _ _ _ Ht Hx) as Hwx. destruct w'.2; simplify_eq/=. congruence.
  - rewrite lookup_drop, <- I1. apply nul_fold_eq; [by apply list_elem_of_fmap_2|].
    rewrite I1, length_app. simpl. lia.
Qed.

End Strings.

(** After [parsecmd], every argument and file name of the command reads as
    the word it was in the line. The NULs that [nulterminate] stores end each
    string where its token ended and never cut another one, although commands
    share the line's buffer and words may be separated by a symbol alone. *)
Theorem nulterminate_strings line c buf s w :
  Forall (fun x => x <> 0) line -> parsecmd line = Ret (c, buf) s -> w ∈ spans c ->
  cstr_at buf (length line - length w.1) = text w.
Proof.
  intros H0 E Hw. unfold parsecmd in E. destruct (parse line) as [c' s'| | |] eqn:Ep; simplify_eq.
  apply nulterminate_ok; [done|by eapply parse_ok|done].
Qed.

(** "ls>y;(a|b)&" *)
Definition demo_line : list Z := [108; 115; 62; 121; 59; 40; 97; 124; 98; 41; 38].
Definition demo_cmd : cmd span := match parse demo_line with Ret c _ => c | _ => CExec [] end.
Definition demo_word : span := ([121; 59; 40; 97; 124; 98; 41; 38], [59; 40; 97; 124; 98; 41; 38]).

Lemma nulterminate_strings_witness :
  exists buf, parsecmd demo_line = Ret (demo_cmd, buf) [] /\ cstr_at buf 3 = [121].
Proof.
  eexists. split; [vm_compute; reflexivity|].
  apply (nulterminate_strings demo_line demo_cmd _ [] demo_word).
  - repeat constructor; discriminate.
  - vm_compute. reflexivity.
  - vm_compute. by apply list_elem_of_here || (right; left) || (do 2 right; left).
Defined.

(** ** Wiring *)

(** A process with standard input, output and error only, of [k] descriptors
    that there are. *)
Definition std (k : nat) (x : fdesc * fdesc * fdesc) : fdtab :=
  [Some x.1.1; Some x.1.2; Some x.2] ++ replicate k None.

Definition redirs_01 : cmd (list Z) -> Prop :=
  fix go c := match c with
  | CExec _ => True
  | CRedir c _ _ fd => go c /\ (fd = 0 \/ fd = 1)
  | CPipe l r | CList l r => go l /\ go r
  | CBack c => go c
  end.

Lemma runcmd_events k c : redirs_01 c -> forall i o e n,
  exec_events (runcmd c) (std (S (S k)) (i, o, e)) n =
  (let '(l, m) := wiring c i o e n in ((fun x => (x.1, std (S (S k)) x.2)) <$> l, m)).
Proof.
  induction c as [argv|c IH f mode fd|l IHl r IHr|l IHl r IHr|c IH]; intros Hc i o e n.
  - by destruct argv.
  - destruct Hc as [Hc [-> | ->]]; [apply (IH Hc (FFile f mode) o e n)|apply (IH Hc i (FFile f mode) e n)].
  - destruct Hc as [Hl Hr].
    assert (exec_events (runcmd (CPipe l r)) (std (S (S k)) (i, o, e)) n =
      let '(a, m) := exec_events (runcmd l) (std (S (S k)) (i, FWrite n, e)) (S n) in
      let '(b, m) := (let '(b, m) := exec_events (runcmd r) (std (S (S k)) (FRead n, o, e)) m in (b ++ [], m)) in
      (a ++ b, m)) as -> by reflexivity.
    rewrite (IHl Hl). cbn [wiring]. destruct (wiring l i (FWrite n) e (S n)) as [a m].
    rewrite (IHr Hr). destruct (wiring r (FRead n) o e m) as [b m']. by rewrite fmap_app, app_nil_r.
  - destruct Hc as [Hl Hr]. cbn [runcmd exec_events wiring]. rewrite (IHl Hl).
    destruct (wiring l i o e n) as [a m]. rewrite (IHr Hr). destruct (wiring r i o e m) as [b m']. by rewrite fmap_app.
  - cbn [runcmd exec_events wiring]. rewrite (IH Hc). destruct (wiring c i o e n) as [a m]. by rewrite app_nil_r.
Qed.

(** C23. Commands are connected as they are written. In whatever way pipes, lists,
    redirections and background commands are nested, the processes that [runcmd]
    makes out of a shell with standard input, output and error (and room for two
    more descriptors) execute exactly the programs of the command, each with
    exactly three descriptors open, on the terminal, file or pipe end that the
    command says: no end of a pipe is left open in a process that does not use
    it, so readers see the end of file. *)
Theorem runcmd_wiring k c i o e n :
  redirs_01 c ->
  (exec_events (runcmd c) (std (S (S k)) (i, o, e)) n).1 =
    (fun x => (x.1, std (S (S k)) x.2)) <$> (wiring c i o e n).1.
Proof. intros Hc. rewrite (runcmd_events k c Hc). by destruct (wiring c i o e n). Qed.

(** ls | (wc > y) *)
Lemma runcmd_wiring_witness :
  (exec_events (runcmd (CPipe (CExec [[108; 115]]) (CRedir (CExec [[119; 99]]) [121] 513 1)))
     (std 13 (FTerm 0, FTerm 1, FTerm 2)) 0).1 =
  [([[108; 115]], std 13 (FTerm 0, FWrite 0, FTerm 2)); ([[119; 99]], std 13 (FRead 0, FFile [121] 513, FTerm 2))].
Proof.
  rewrite (runcmd_wiring 11 (CPipe (CExec [[108; 115]]) (CRedir (CExec [[119; 99]]) [121] 513 1))).
  - vm_compute. reflexivity.
  - cbn. auto.
Defined.
