(* ===== verification/ShellPrint.v ===== *)
(** A printer for shell commands, and that the parser of Shell.v inverts it. *)

From Stdlib Require Import ZArith Lia.
From stdpp Require Import base strings gmap numbers list.
From S2P Require Import Prelude Shell ShellSpec.

Open Scope Z_scope.

(** ** Printing *)

Definition pr_word (w : list Z) : list Z := 32 :: w.
Definition pr_words (ws : list (list Z)) : list Z := concat (pr_word <$> ws).
Definition pr_redir (r : list Z * Z * Z) : list Z := (if r.2 =? 0 then 60 else 62) :: pr_word r.1.1.
Definition pr_redirs (rs : list (list Z * Z * Z)) : list Z := concat (pr_redir <$> rs).
Definition paren (b : bool) (s : list Z) : list Z := if b then 40 :: s ++ [41] else s.

(** Levels: 0 a line, 1 with ampersands, 2 a pipeline, 3 a single command. What
    does not fit its level goes into parentheses. *)
Fixpoint print (lv : nat) (c : cmd (list Z)) : list Z :=
  match c with
  | CExec argv => pr_words argv
  | CRedir c f mode fd => print 3 c ++ pr_redir (f, mode, fd)
  | CPipe l r => paren (Nat.ltb 2 lv) (print 3 l ++ 124 :: print 2 r)
  | CBack c => paren (Nat.ltb 1 lv) (print 1 c ++ [38])
  | CList l r => paren (Nat.ltb 0 lv) (print 1 l ++ 59 :: print 0 r)
  end.

(** A command that can be typed: words of word characters, at most nine
    arguments, the two kinds of redirection. *)
Definition word_ok (w : list Z) : Prop := w <> [] /\ Forall (fun c => word_char c = true /\ c <> 0) w.
Definition redir_ok (mode fd : Z) : Prop := (mode = O_RD /\ fd = 0) \/ (mode = O_WRCREATE /\ fd = 1).
Fixpoint wf_cmd (c : cmd (list Z)) : Prop :=
  match c with
  | CExec argv => (length argv < MAXARGS)%nat /\ Forall word_ok argv
  | CRedir c f mode fd => wf_cmd c /\ word_ok f /\ redir_ok mode fd
  | CPipe l r | CList l r => wf_cmd l /\ wf_cmd r
  | CBack c => wf_cmd c
  end.

(** The command with its strings. *)
Fixpoint erase (c : cmd span) : cmd (list Z) :=
  match c with
  | CExec argv => CExec (text <$> argv)
  | CRedir c f mode fd => CRedir (erase c) (text f) mode fd
  | CPipe l r => CPipe (erase l) (erase r)
  | CList l r => CList (erase l) (erase r)
  | CBack c => CBack (erase c)
  end.
Definition erase_r (r : redir) : list Z * Z * Z := (text r.1.1, r.1.2, r.2).

(** ** Tokens of printed text *)

(** [k] is empty or starts with one of [l]. *)
Definition stop (l : list Z) (k : ptr) : Prop := match k with [] => True | c :: _ => c ∈ l end.
(** [k] does not continue a word. *)
Definition no_word (k : ptr) : Prop := match k with [] => True | c :: _ => word_char c = false end.

Lemma gettoken_skip s s' : skip_ws s = skip_ws s' -> gettoken s = gettoken s'.
Proof. intros E. unfold gettoken. by rewrite E. Qed.
Lemma peek_skip toks s s' : skip_ws s = skip_ws s' -> peek toks s = peek toks s'.
Proof. intros E. unfold peek. by rewrite E. Qed.

Lemma skip_word_app w k : Forall (fun c => word_char c = true) w -> no_word k -> skip_word (w ++ k) = k.
Proof.
  intros Hw Hk. induction Hw as [|c w Hc Hw IH]; cbn [app].
  - destruct k as [|c k]; [done|]. cbn [skip_word].
    change (negb (strchr whitespace c) && negb (strchr symbols c)) with (word_char c). by rewrite Hk.
  - cbn [skip_word]. change (negb (strchr whitespace c) && negb (strchr symbols c)) with (word_char c). by rewrite Hc.
Qed.

Lemma word_chars w : word_ok w -> exists c w', w = c :: w' /\ word_char c = true /\ Forall (fun c => word_char c = true) w.
Proof.
  intros [Hne Hw]. destruct w as [|c w]; [done|]. exists c, w. split; [done|].
  assert (Forall (fun c => word_char c = true) (c :: w)) as H by (eapply Forall_impl; [exact Hw|by intros ? [? _]]).
  split; [by inversion H|done].
Qed.

Lemma skip_ws_word c s : word_char c = true -> skip_ws (c :: s) = c :: s.
Proof.
  intros H. apply andb_true_iff in H as [H _]. apply negb_true_iff in H. cbn [skip_ws]. by rewrite H.
Qed.
Lemma skip_ws_sym c s : c ∈ symbols -> skip_ws (c :: s) = c :: s.
Proof.
  intros H. cbn [skip_ws]. assert (strchr whitespace c = false) as ->; [|done].
  unfold symbols in H. repeat (apply elem_of_cons in H as [->|H]; [reflexivity|]). by apply not_elem_of_nil in H.
Qed.
Lemma skip_ws_stop l k : l ⊆ symbols -> stop l k -> skip_ws k = k.
Proof. intros Hl Hk. destruct k; [done|]. apply skip_ws_sym. by apply Hl. Qed.
Lemma skip_ws_pr_word w k : word_ok w -> skip_ws (pr_word w ++ k) = w ++ k.
Proof. intros H. destruct (word_chars w H) as (c & w' & -> & Hc & _). cbn. by apply (skip_ws_word c (w' ++ k)). Qed.

Lemma token_word s w k :
  word_ok w -> no_word k -> skip_ws s = w ++ k ->
  gettoken s = Ret (TOK_WORD, (w ++ k, k)) (skip_ws k).
Proof.
  intros Hw Hk E. destruct (word_chars w Hw) as (c & w' & -> & Hc & Hall). cbn [app] in *.
  rewrite (gettoken_word s c (w' ++ k) E Hc). inversion Hall; subst. by rewrite skip_word_app.
Qed.
Lemma text_word w k : text (w ++ k, k) = w.
Proof. by apply text_split. Qed.

Lemma token_sym s c k : c ∈ [124; 40; 41; 59; 38; 60] -> skip_ws s = c :: k ->
  gettoken s = Ret (c, (c :: k, k)) (skip_ws k).
Proof. intros Hc E. unfold gettoken. rewrite E. unfold strchr. by rewrite bool_decide_eq_true_2. Qed.

Lemma peek_cons s toks c k : skip_ws s = c :: k -> peek toks s = Ret (bool_decide (c ∈ toks)) (c :: k).
Proof. intros E. unfold peek. by rewrite E. Qed.
Lemma peek_stop s toks l k : l ⊆ symbols -> (forall c, c ∈ l -> c ∉ toks) -> stop l k -> skip_ws s = k ->
  peek toks s = Ret false k.
Proof.
  intros Hl Ht Hk E. unfold peek. rewrite E. destruct k as [|c k]; [done|].
  unfold strchr. rewrite bool_decide_eq_false_2; [done|]. by apply Ht.
Qed.
Lemma peek_word s toks w k : toks ⊆ symbols -> word_ok w -> skip_ws s = w ++ k -> peek toks s = Ret false (w ++ k).
Proof.
  intros Ht Hw E. destruct (word_chars w Hw) as (c & w' & -> & Hc & _). cbn [app] in *. rewrite (peek_cons s toks c _ E).
  rewrite bool_decide_eq_false_2; [done|]. intros Hin. apply Ht in Hin. unfold word_char, strchr in Hc.
  rewrite (bool_decide_eq_true_2 _ Hin), andb_false_r in Hc. done.
Qed.

(** ** Redirections and arguments *)

Definition rdir_ok (r : list Z * Z * Z) : Prop := word_ok r.1.1 /\ redir_ok r.1.2 r.2.
Definition exec_stop : list Z := [124; 41; 38; 59].

Lemma exec_stop_symbols : exec_stop ⊆ symbols.
Proof. unfold exec_stop, symbols. set_solver. Qed.

(** The text after a word or redirection does not continue it. *)
Lemma no_word_rest rs k : stop exec_stop k -> no_word (pr_redirs rs ++ k).
Proof.
  intros Hk. destruct rs as [|r rs].
  - destruct k as [|c k]; [done|]. cbn. unfold word_char, strchr.
    rewrite (bool_decide_eq_true_2 _ (exec_stop_symbols _ Hk)). apply andb_false_r.
  - cbn. by destruct (r.2 =? 0).
Qed.
Lemma skip_ws_redirs rs k : stop exec_stop k -> skip_ws (pr_redirs rs ++ k) = pr_redirs rs ++ k.
Proof.
  intros Hk. destruct rs as [|r rs]; [by apply (skip_ws_stop exec_stop k exec_stop_symbols)|].
  change (pr_redirs (r :: rs) ++ k) with ((if r.2 =? 0 then 60 else 62) :: (pr_word r.1.1 ++ pr_redirs rs) ++ k).
  apply skip_ws_sym. unfold symbols. destruct (r.2 =? 0); set_solver.
Qed.

Lemma parse_redirs rs : forall n s k,
  Forall rdir_ok rs -> stop exec_stop k -> (length rs <= n)%nat -> skip_ws s = pr_redirs rs ++ k ->
  exists rs', parseredirs_loop n s = Ret rs' k /\ erase_r <$> rs' = rs.
Proof.
  induction rs as [|[[f m] d] rs IH]; intros n s k Hrs Hk Hn E.
  - exists []. split; [|done]. destruct n; cbn [parseredirs_loop];
      rewrite (bind_ret _ _ _ _ _ (peek_stop s [60; 62] exec_stop k exec_stop_symbols ltac:(unfold exec_stop; set_solver) Hk E)); done.
  - inversion Hrs as [|? ? [Hf Hr] Hrs']; subst. cbn [fst snd] in *. destruct n as [|n]; [simpl in Hn; lia|].
    set (c := if d =? 0 then 60 else 62) in *.
    assert (pr_redirs ((f, m, d) :: rs) ++ k = c :: pr_word f ++ pr_redirs rs ++ k) as Et.
    { unfold pr_redirs. cbn. by rewrite <- app_assoc. }
    rewrite Et in E. cbn [parseredirs_loop].
    assert (peek [60; 62] s = Ret true (c :: pr_word f ++ pr_redirs rs ++ k)) as Hp.
    { rewrite (peek_cons s _ _ _ E), bool_decide_eq_true_2; [done|]. unfold c. destruct (d =? 0); set_solver. }
    mstep Hp. set (s1 := c :: _) in *.
    assert (skip_ws s1 = s1) as Es1 by (apply skip_ws_sym; unfold c, symbols; destruct (d =? 0); set_solver).
    assert (exists w1, gettoken s1 = Ret (c, w1) (skip_ws (pr_word f ++ pr_redirs rs ++ k))) as [w1 Ht].
    { unfold gettoken. rewrite Es1. unfold s1, c. destruct (d =? 0); eexists; reflexivity. }
    mstep Ht. rewrite skip_ws_pr_word by done.
    assert (gettoken (f ++ pr_redirs rs ++ k) = Ret (TOK_WORD, (f ++ pr_redirs rs ++ k, pr_redirs rs ++ k)) (pr_redirs rs ++ k)) as Hw.
    { rewrite (token_word _ f (pr_redirs rs ++ k)); [by rewrite skip_ws_redirs|done|by apply no_word_rest|].
      destruct (word_chars f Hf) as (x & f' & -> & Hx & _). by apply (skip_ws_word x (f' ++ _)). }
    mstep Hw. cbn [fst snd]. rewrite Z.eqb_refl. cbn [negb].
    destruct (IH n (pr_redirs rs ++ k) k Hrs' Hk) as (rs' & Hl & Ers); [simpl in Hn; lia|by apply skip_ws_redirs|].
    mstep Hl. eexists. split; [reflexivity|]. cbn. rewrite Ers. f_equal. unfold erase_r. cbn [fst snd].
    rewrite text_word. unfold c. destruct Hr as [[-> ->]|[-> ->]]; reflexivity.
Qed.

Lemma pr_redirs_length rs : (length rs <= length (pr_redirs rs))%nat.
Proof. induction rs as [|r rs IH]; [done|]. unfold pr_redirs in *. cbn. rewrite length_app. cbn. lia. Qed.
Lemma skip_length s x : skip_ws s = x -> (length x <= length s)%nat.
Proof. intros <-. apply skip_ws_length. Qed.

Lemma parse_redirs_all rs s k :
  Forall rdir_ok rs -> stop exec_stop k -> skip_ws s = pr_redirs rs ++ k ->
  exists rs', parseredirs s = Ret rs' k /\ erase_r <$> rs' = rs.
Proof.
  intros Hrs Hk E. apply (parse_redirs rs (length s) s k Hrs Hk); [|done].
  apply skip_length in E. rewrite length_app in E. pose proof (pr_redirs_length rs). lia.
Qed.
Lemma parse_no_redirs s w k : word_ok w -> skip_ws s = w ++ k -> parseredirs s = Ret [] (w ++ k).
Proof.
  intros Hw E. unfold parseredirs, bind at 1, get. destruct (length s); cbn [parseredirs_loop];
    rewrite (bind_ret _ _ _ _ _ (peek_word s [60; 62] w k ltac:(unfold symbols; set_solver) Hw E)); done.
Qed.

Lemma parse_args args : forall argc rs n s k,
  Forall word_ok args -> Forall rdir_ok rs -> stop exec_stop k -> (args = [] -> rs = []) ->
  (argc + length args < MAXARGS)%nat -> (length s <= n)%nat ->
  skip_ws s = skip_ws (pr_words args ++ pr_redirs rs ++ k) ->
  exists r, parseargs_loop n argc s = Ret r k /\ text <$> r.1 = args /\ erase_r <$> r.2 = rs.
Proof.
  induction args as [|a args IH]; intros argc rs n s k Ha Hrs Hk Hnil Hc Hn E.
  - rewrite (Hnil eq_refl) in *. cbn [pr_words pr_redirs fmap list_fmap concat app] in E.
    rewrite (skip_ws_stop exec_stop k exec_stop_symbols Hk) in E. exists ([], []). split; [|done].
    destruct k as [|c k].
    + assert (forall m, parseargs_loop m argc s = Ret ([], []) []) as ->; [|done]. intros m.
      assert (peek exec_stop s = Ret false []) as Hp by (unfold peek; by rewrite E).
      destruct m; cbn [parseargs_loop]; mstep Hp; done.
    + assert (peek exec_stop s = Ret true (c :: k)) as Hp by (rewrite (peek_cons s _ c k E); by rewrite bool_decide_eq_true_2).
      destruct n; cbn [parseargs_loop]; mstep Hp; done.
  - inversion Ha as [|? ? Hw Ha']; subst.
    assert (pr_words (a :: args) ++ pr_redirs rs ++ k = pr_word a ++ pr_words args ++ pr_redirs rs ++ k) as Et.
    { unfold pr_words. cbn. by rewrite <- app_assoc. }
    rewrite Et, skip_ws_pr_word in E by done. set (k1 := pr_words args ++ pr_redirs rs ++ k) in *.
    assert (no_word k1) as Hk1 by (unfold k1; destruct args; [by apply no_word_rest|done]).
    pose proof (skip_length _ _ E) as Hl. destruct (word_chars a Hw) as (x & a' & Ea & Hx & _).
    destruct n as [|n]; [rewrite Ea in Hl; simpl in Hl; lia|]. cbn [parseargs_loop].
    mstep (peek_word s [124; 41; 38; 59] a k1 exec_stop_symbols Hw E).
    assert (skip_ws (a ++ k1) = a ++ k1) as Ek by (rewrite Ea; by apply (skip_ws_word x (a' ++ k1))).
    mstep (token_word (a ++ k1) a k1 Hw Hk1 Ek). cbn [fst snd TOK_WORD Z.eqb Pos.eqb negb].
    rewrite (proj2 (Nat.leb_gt _ _)) by (simpl in Hc; lia).
    assert (length (skip_ws k1) <= n)%nat as Hln.
    { pose proof (skip_ws_length k1). rewrite Ea in Hl. simpl in Hl. rewrite length_app in Hl. lia. }
    destruct args as [|b args].
    + destruct (parse_redirs_all rs (skip_ws k1) k Hrs Hk) as (rs' & Hp & Er).
      { rewrite skip_ws_idem. by apply skip_ws_redirs. }
      mstep Hp. destruct (IH (S argc) [] n k k) as (r & Hr & E1 & E2); try done; [simpl in *; lia| |].
      { pose proof (skip_ws_length k1) as Hlk. assert (skip_ws k1 = pr_redirs rs ++ k) as Hkk by (by apply skip_ws_redirs).
        rewrite Hkk, length_app in Hln. lia. }
      mstep Hr. exists ((a ++ k1, k1) :: r.1, rs' ++ r.2). split; [done|]. cbn [fst snd].
      rewrite fmap_app, E2, app_nil_r. split; [|done]. by rewrite fmap_cons, text_word, E1.
    + pose proof (Forall_inv Ha') as Hb.
      assert (skip_ws k1 = b ++ (pr_words args ++ pr_redirs rs ++ k)) as Ek1.
      { unfold k1, pr_words. cbn [fmap list_fmap concat]. rewrite <- app_assoc. by rewrite (skip_ws_pr_word b). }
      mstep (parse_no_redirs (skip_ws k1) b _ Hb ltac:(by rewrite skip_ws_idem)). rewrite <- Ek1.
      destruct (IH (S argc) rs n (skip_ws k1) k) as (r & Hr & E1 & E2); try done; [simpl in *; lia|apply skip_ws_idem|].
      mstep Hr. exists ((a ++ k1, k1) :: r.1, [] ++ r.2). split; [done|]. cbn [fst snd app]. by rewrite fmap_cons, text_word, E1.
Qed.

(** ** The levels of the grammar *)

Lemma erase_wrap c rs : erase (wrap c rs) = wrap (erase c) (erase_r <$> rs).
Proof. revert c. induction rs as [|[[f m] d] rs IH]; intros c; [done|]. apply (IH (CRedir c f m d)). Qed.

(** [c] is read back as a single command with the redirections [rs] behind it. *)
Definition reads_exec (c : cmd (list Z)) : Prop := forall rs n s k,
  Forall rdir_ok rs -> stop exec_stop k -> (length s <= n)%nat ->
  skip_ws s = skip_ws (print 3 c ++ pr_redirs rs ++ k) ->
  exists c', parseexec_with (parseline n) s = Ret c' k /\ erase c' = wrap c rs.

Definition reads_pipe (c : cmd (list Z)) : Prop := forall f n s k,
  stop [41; 38; 59] k -> (length s <= f)%nat -> (length s <= n)%nat -> skip_ws s = skip_ws (print 2 c ++ k) ->
  exists c', parsepipe_with f (parseline n) s = Ret c' k /\ erase c' = c.

(** After a command with ampersands the loop that collects them goes on. *)
Definition reads_back (c : cmd (list Z)) : Prop := forall n s k,
  stop [41; 38; 59] k -> (length s <= n)%nat -> skip_ws s = skip_ws (print 1 c ++ k) ->
  exists c' m, (let* c := parsepipe_with (length s) (parseline n) in
                let* s := get in parseback_loop (length s) c) s = parseback_loop m c' k /\
    (length k <= m)%nat /\ erase c' = c.

Definition reads_line (c : cmd (list Z)) : Prop := forall n s k,
  stop [41] k -> (length s < n)%nat -> skip_ws s = skip_ws (print 0 c ++ k) ->
  exists c', parseline n s = Ret c' k /\ erase c' = c.

Ltac sub_symbols := unfold symbols, exec_stop; set_solver.
Ltac skip_stop k := rewrite (skip_ws_stop exec_stop k exec_stop_symbols) by (first [done|destruct k; [done|unfold exec_stop; set_solver]]).

Lemma stop_weaken l l' k : l ⊆ l' -> stop l k -> stop l' k.
Proof. intros Hl Hk. destruct k; [done|]. by apply Hl. Qed.

Lemma reads_pipe_exec c : reads_exec c -> print 2 c = print 3 c -> reads_pipe c.
Proof.
  intros H Ep f n s k Hk Hf Hn E. rewrite Ep in E.
  assert (stop exec_stop k) as Hk' by (revert Hk; apply stop_weaken; sub_symbols).
  destruct (H [] n s k (Forall_nil_2 _) Hk' Hn E) as (c' & Hr & Ec). exists c'. split; [|done].
  assert (peek [124] k = Ret false k) as Hp.
  { apply (peek_stop k [124] [41; 38; 59]); [sub_symbols|set_solver|done|by apply (skip_ws_stop exec_stop k exec_stop_symbols)]. }
  destruct f; cbn [parsepipe_with]; mstep Hr; mstep Hp; done.
Qed.

Lemma back_stop m c k : stop [41; 59] k -> parseback_loop m c k = Ret c k.
Proof.
  intros Hk. assert (peek [38] k = Ret false k) as Hp.
  { apply (peek_stop k [38] [41; 59]); [sub_symbols|set_solver|done|].
    apply (skip_ws_stop exec_stop k exec_stop_symbols). revert Hk. apply stop_weaken. sub_symbols. }
  destruct m; cbn [parseback_loop]; mstep Hp; done.
Qed.

Lemma reads_back_pipe c : reads_pipe c -> print 1 c = print 2 c -> reads_back c.
Proof.
  intros H Ep n s k Hk Hn E. rewrite Ep in E.
  destruct (H (length s) n s k Hk (le_n _) Hn E) as (c' & Hr & Ec). exists c', (length k). split; [|done].
  mstep Hr. done.
Qed.

Lemma line_unfold n s c' k :
  (let* c := parsepipe_with (length s) (parseline n) in
   let* s := get in parseback_loop (length s) c) s = Ret c' k ->
  parseline (S n) s = (let* b := peek [59] in
    if b : bool then let* _ := gettoken in let* d := parseline n in ret (CList c' d) else ret c') k.
Proof.
  intros H. cbn [parseline]. unfold bind at 1, get at 1. unfold bind at 1 in H. unfold bind at 1.
  destruct (parsepipe_with _ _ s) as [c1 s1| | |]; try done. unfold bind, get in H. unfold bind at 1, get at 1.
  unfold bind at 1. by rewrite H.
Qed.

Lemma reads_line_back c : reads_back c -> print 0 c = print 1 c -> reads_line c.
Proof.
  intros H Ep n s k Hk Hn E. rewrite Ep in E. destruct n as [|n]; [lia|].
  destruct (H n s k) as (c' & m & Hr & _ & Ec); [by revert Hk; apply stop_weaken; set_solver|lia|done|].
  assert (stop [41; 59] k) as Hk' by (revert Hk; apply stop_weaken; set_solver).
  rewrite (back_stop m c' k Hk') in Hr. exists c'. split; [|done].
  rewrite (line_unfold n s c' k Hr). assert (peek [59] k = Ret false k) as Hp.
  { apply (peek_stop k [59] [41]); [sub_symbols|set_solver|done|].
    apply (skip_ws_stop exec_stop k exec_stop_symbols). revert Hk. apply stop_weaken. sub_symbols. }
  mstep Hp. done.
Qed.

(** A parenthesised line is a single command. *)
Lemma reads_exec_line c : reads_line c -> print 3 c = 40 :: print 0 c ++ [41] -> reads_exec c.
Proof.
  intros H Ep rs n s k Hrs Hk Hn E. rewrite Ep in E. cbn [app] in E.
  set (k1 := pr_redirs rs ++ k) in *. set (k2 := 41 :: k1).
  assert (skip_ws s = 40 :: print 0 c ++ k2) as Es.
  { rewrite E, skip_ws_sym by sub_symbols. unfold k2. by rewrite <- app_assoc. }
  pose proof (skip_length _ _ Es) as Hl. cbn [length] in Hl.
  assert (peek [40] s = Ret true (40 :: print 0 c ++ k2)) as Hp by (by rewrite (peek_cons s [40] 40 _ Es)).
  unfold parseexec_with. mstep Hp. unfold parseblock_with.
  assert (forall x, skip_ws (40 :: x) = 40 :: x) as H40 by (intros; apply skip_ws_sym; sub_symbols).
  mstep (peek_cons (40 :: print 0 c ++ k2) [40] 40 _ (H40 _)). cbn [negb bool_decide].
  rewrite bool_decide_eq_true_2 by set_solver. cbn [negb].
  mstep (token_sym (40 :: print 0 c ++ k2) 40 _ ltac:(set_solver) (H40 _)).
  destruct (H n (skip_ws (print 0 c ++ k2)) k2) as (c' & Hr & Ec); [cbn; set_solver| |apply skip_ws_idem|].
  { pose proof (skip_ws_length (print 0 c ++ k2)). lia. }
  mstep Hr. assert (skip_ws k2 = k2) as Ek2 by (apply skip_ws_sym; sub_symbols).
  mstep (peek_cons k2 [41] 41 k1 Ek2). rewrite bool_decide_eq_true_2 by set_solver. cbn [negb].
  mstep (token_sym (41 :: k1) 41 k1 ltac:(set_solver) Ek2).
  destruct (parse_redirs_all rs (skip_ws k1) k Hrs Hk) as (rs' & Hd & Er).
  { rewrite skip_ws_idem. by apply skip_ws_redirs. }
  mstep Hd. eexists. split; [reflexivity|]. by rewrite erase_wrap, Ec, Er.
Qed.

Lemma reads_exec_args argv : wf_cmd (CExec argv) -> reads_exec (CExec argv).
Proof.
  intros [Hl Ha] rs n s k Hrs Hk Hn E. cbn [print] in E. unfold parseexec_with.
  assert (peek [40] s = Ret false (skip_ws s)) as Hp.
  { unfold peek. destruct argv as [|a argv].
    - cbn [pr_words fmap list_fmap concat app] in E. rewrite skip_ws_redirs in E by done. rewrite E.
      destruct rs as [|r rs]; [|cbn; by destruct (r.2 =? 0)]. destruct k as [|c k]; [done|]. cbn.
      unfold strchr. rewrite bool_decide_eq_false_2; [done|]. cbn in Hk. unfold exec_stop in Hk. set_solver.
    - inversion Ha as [|? ? Hw _]; subst. unfold pr_words in E. cbn [fmap list_fmap concat] in E.
      rewrite <- !app_assoc, skip_ws_pr_word in E by done. rewrite E. destruct (word_chars a Hw) as (c & a' & -> & Hc & _).
      cbn. unfold strchr. rewrite bool_decide_eq_false_2; [done|]. intros Hin.
      assert (c = 40) as -> by set_solver. discriminate Hc. }
  mstep Hp. clear Hp. destruct argv as [|a argv].
  - cbn [pr_words fmap list_fmap concat app] in E. rewrite skip_ws_redirs in E by done.
    destruct (parse_redirs_all rs (skip_ws s) k Hrs Hk) as (rs' & Hd & Er); [by rewrite skip_ws_idem|].
    mstep Hd. unfold bind at 1, get.
    destruct (parse_args [] 0 [] (length k) k k (Forall_nil_2 _) (Forall_nil_2 _) Hk (fun _ => eq_refl)
      ltac:(cbn; lia) (le_n _) eq_refl) as (r & Hr & E1 & E2).
    mstep Hr. eexists. split; [reflexivity|]. rewrite erase_wrap, fmap_app, E2, app_nil_r, Er. cbn [erase]. by rewrite E1.
  - inversion Ha as [|? ? Hw _]; subst.
    assert (skip_ws s = a ++ pr_words argv ++ pr_redirs rs ++ k) as Es.
    { rewrite E. unfold pr_words. cbn [fmap list_fmap concat]. by rewrite <- !app_assoc, skip_ws_pr_word. }
    mstep (parse_no_redirs (skip_ws s) a _ Hw ltac:(rewrite skip_ws_idem; exact Es)). unfold bind at 1, get.
    rewrite <- Es.
    destruct (parse_args (a :: argv) 0 rs (length (skip_ws s)) (skip_ws s) k) as (r & Hr & E1 & E2); try done.
    { by rewrite skip_ws_idem. }
    mstep Hr. eexists. split; [reflexivity|]. rewrite erase_wrap. cbn [app]. rewrite E2. cbn [erase]. by rewrite E1.
Qed.

Lemma reads_exec_redir c f m d : reads_exec c -> word_ok f -> redir_ok m d -> reads_exec (CRedir c f m d).
Proof.
  intros H Hf Hr rs n s k Hrs Hk Hn E. cbn [print] in E. rewrite <- app_assoc in E.
  destruct (H ((f, m, d) :: rs) n s k) as (c' & Hc & Ec); try done.
  - by constructor.
  - unfold pr_redirs in *. cbn [fmap list_fmap concat]. by rewrite <- app_assoc.
  - exists c'. done.
Qed.

Lemma print_pipe_skip l r k : skip_ws (print 2 (CPipe l r) ++ k) = skip_ws (print 3 l ++ pr_redirs [] ++ 124 :: print 2 r ++ k).
Proof. cbn. by rewrite <- app_assoc. Qed.

Lemma reads_pipe_pipe l r : reads_exec l -> reads_pipe r -> reads_pipe (CPipe l r).
Proof.
  intros Hl Hr f n s k Hk Hf Hn E. rewrite print_pipe_skip in E. set (k1 := 124 :: print 2 r ++ k) in *.
  destruct (Hl [] n s k1 (Forall_nil_2 _)) as (c' & Hc & Ec); [cbn; unfold exec_stop; set_solver|done|done|].
  assert (length k1 <= length s)%nat as Hlen.
  { pose proof (ends_exec (parseline n) s) as He. unfold ends_on in He. rewrite Hc in He. apply He.
    intros s' Hs'. apply ends_line. lia. }
  destruct f as [|f]; [unfold k1 in Hlen; simpl in Hlen; lia|]. cbn [parsepipe_with]. mstep Hc.
  assert (skip_ws k1 = k1) as Ek1 by (apply skip_ws_sym; sub_symbols).
  mstep (peek_cons k1 [124] 124 _ Ek1). rewrite bool_decide_eq_true_2 by set_solver.
  mstep (token_sym (124 :: print 2 r ++ k) 124 _ ltac:(set_solver) Ek1).
  pose proof (skip_ws_length (print 2 r ++ k)) as Hsk. unfold k1 in Hlen. cbn [length] in Hlen.
  destruct (Hr f n (skip_ws (print 2 r ++ k)) k Hk) as (d & Hd & Ed); [lia|lia|apply skip_ws_idem|].
  mstep Hd. eexists. split; [reflexivity|]. cbn [erase]. cbn [wrap foldl] in Ec. by rewrite Ec, Ed.
Qed.

Lemma reads_back_back c : reads_back c -> reads_back (CBack c).
Proof.
  intros H n s k Hk Hn E. assert (skip_ws s = skip_ws (print 1 c ++ 38 :: k)) as E'.
  { rewrite E. cbn. by rewrite <- app_assoc. }
  destruct (H n s (38 :: k)) as (c' & m & Hr & Hm & Ec); [cbn; set_solver|done|done|].
  destruct m as [|m]; [simpl in Hm; lia|]. exists (CBack c'), m. split; [|split; [simpl in Hm; lia|by rewrite <- Ec]].
  rewrite Hr. cbn [parseback_loop]. assert (skip_ws (38 :: k) = 38 :: k) as Ek by (apply skip_ws_sym; sub_symbols).
  mstep (peek_cons (38 :: k) [38] 38 k Ek). rewrite bool_decide_eq_true_2 by set_solver.
  mstep (token_sym (38 :: k) 38 k ltac:(set_solver) Ek).
  assert (skip_ws k = k) as ->; [|done]. apply (skip_ws_stop exec_stop k exec_stop_symbols).
  revert Hk. apply stop_weaken. sub_symbols.
Qed.

Lemma reads_line_list l r : reads_back l -> reads_line r -> reads_line (CList l r).
Proof.
  intros Hl Hr n s k Hk Hn E. set (k1 := 59 :: print 0 r ++ k).
  assert (skip_ws s = skip_ws (print 1 l ++ k1)) as E' by (rewrite E; cbn; by rewrite <- app_assoc).
  destruct n as [|n]; [lia|]. destruct (Hl n s k1) as (c' & m & Hc & _ & Ec); [cbn; set_solver|lia|done|].
  rewrite (back_stop m c' k1) in Hc by (cbn; set_solver).
  assert (length k1 <= length s)%nat as Hlen.
  { assert (ends_on (let* c := parsepipe_with (length s) (parseline n) in
      let* s := get in parseback_loop (length s) c) s) as He.
    { apply ends_bind; [apply ends_pipe; [done|intros; apply ends_line; lia]|]. intros c1 s1 _ H1.
      apply ends_get. by apply ends_back. }
    unfold ends_on in He. by rewrite Hc in He. }
  rewrite (line_unfold n s c' k1 Hc).
  assert (skip_ws k1 = k1) as Ek1 by (apply skip_ws_sym; sub_symbols).
  mstep (peek_cons k1 [59] 59 _ Ek1). rewrite bool_decide_eq_true_2 by set_solver.
  mstep (token_sym (59 :: print 0 r ++ k) 59 _ ltac:(set_solver) Ek1).
  pose proof (skip_ws_length (print 0 r ++ k)) as Hsk. unfold k1 in Hlen. cbn [length] in Hlen.
  destruct (Hr n (skip_ws (print 0 r ++ k)) k Hk) as (d & Hd & Ed); [lia|apply skip_ws_idem|].
  mstep Hd. eexists. split; [reflexivity|]. cbn [erase]. by rewrite Ec, Ed.
Qed.

Lemma reads_all c : wf_cmd c -> reads_exec c /\ reads_pipe c /\ reads_back c /\ reads_line c.
Proof.
  induction c as [argv|c IH f m d|l IHl r IHr|l IHl r IHr|c IH]; intros Hw.
  - pose proof (reads_exec_args argv Hw) as He. pose proof (reads_pipe_exec _ He eq_refl) as Hp.
    pose proof (reads_back_pipe _ Hp eq_refl) as Hb. pose proof (reads_line_back _ Hb eq_refl). done.
  - destruct Hw as (Hw & Hf & Hr). destruct (IH Hw) as (He0 & _).
    pose proof (reads_exec_redir c f m d He0 Hf Hr) as He. pose proof (reads_pipe_exec _ He eq_refl) as Hp.
    pose proof (reads_back_pipe _ Hp eq_refl) as Hb. pose proof (reads_line_back _ Hb eq_refl). done.
  - destruct Hw as [Hwl Hwr]. destruct (IHl Hwl) as (Hl & _), (IHr Hwr) as (_ & Hr & _).
    pose proof (reads_pipe_pipe l r Hl Hr) as Hp. pose proof (reads_back_pipe _ Hp eq_refl) as Hb.
    pose proof (reads_line_back _ Hb eq_refl) as Hn. pose proof (reads_exec_line _ Hn eq_refl). done.
  - destruct Hw as [Hwl Hwr]. destruct (IHl Hwl) as (_ & _ & Hl & _), (IHr Hwr) as (_ & _ & _ & Hr).
    pose proof (reads_line_list l r Hl Hr) as Hn. pose proof (reads_exec_line _ Hn eq_refl) as He.
    pose proof (reads_pipe_exec _ He eq_refl) as Hp. pose proof (reads_back_pipe _ Hp eq_refl). done.
  - destruct (IH Hw) as (_ & _ & Hb0 & _). pose proof (reads_back_back c Hb0) as Hb.
    pose proof (reads_line_back _ Hb eq_refl) as Hn. pose proof (reads_exec_line _ Hn eq_refl) as He.
    pose proof (reads_pipe_exec _ He eq_refl). done.
Qed.

(** C7. Parsing inverts printing. Every command that can be typed (words of word
    characters, at most nine arguments, the redirections of the shell), printed
    with parentheses where its structure needs them, is read back as the same
    command, whatever way pipes, lists, background commands and redirections are
    nested in it. *)
Theorem parse_print c :
  wf_cmd c -> exists c' buf, parsecmd (print 0 c) = Ret (c', buf) [] /\ erase c' = c.
Proof.
  intros Hw. destruct (reads_all c Hw) as (_ & _ & _ & H).
  destruct (H (S (length (print 0 c))) (print 0 c) []) as (c' & Hc & Ec); [done|lia|by rewrite app_nil_r|].
  exists c'. eexists. split; [|exact Ec]. unfold parsecmd, parse, bind at 1, get at 1. unfold bind at 1.
  by rewrite Hc.
Qed.

(** (a < in | b) & ; c > out *)
Definition demo_ast : cmd (list Z) :=
  CList (CBack (CPipe (CRedir (CExec [[97]]) [105; 110] O_RD 0) (CExec [[98]])))
        (CRedir (CExec [[99]]) [111; 117; 116] O_WRCREATE 1).
Lemma parse_print_witness :
  exists c' buf, parsecmd (print 0 demo_ast) = Ret (c', buf) [] /\ erase c' = demo_ast.
Proof.
  apply (parse_print demo_ast). unfold demo_ast. cbn -[symbols whitespace].
  unfold word_ok, redir_ok. repeat split; auto; repeat constructor; try discriminate; cbn; lia.
Defined.
