(* ===== verification/Shell1.v ===== *)
(** The first homework's shell: cs238p_hw1/sh.c.

    A smaller shell for Linux with the same parsing technique (it copies its
    words with [mkcopy] instead of terminating them in place) and pipes made
    with [dup2].

    Theorems: on lines without the characters that only the xv6 shell knows, both
    shells parse the same command ([shells_agree]); its processes get the right
    standard input, output and error ([hw1_std_wiring]) but also descriptors they
    should not have ([hw1_pipe_leak]). *)

From Stdlib Require Import ZArith Lia.
From stdpp Require Import base strings gmap numbers list.
From S2P Require Import Prelude Shell ShellSpec ShellPrint.

Open Scope Z_scope.

Definition symbols1 : list Z := [60; 124; 62].
Fixpoint skip_word1 (s : ptr) : ptr :=
  match s with
  | c :: s' => if negb (strchr whitespace c) && negb (strchr symbols1 c) then skip_word1 s' else s
  | [] => []
  end.

Definition gettoken1 : M ptr (Z * span) := fun s =>
  let q := skip_ws s in
  let '(r, eq) :=
    match q with
    | [] => (0, q)
    | c :: s' =>
        if strchr [124; 60] c then (c, s')
        else if c =? 62 then (c, s')
        else (TOK_WORD, skip_word1 q)
    end in
  Ret (r, (q, eq)) (skip_ws eq).

(** [peek] is the same function in both shells. *)

(** [mkcopy]: the characters from [s] up to [es]. *)
Definition mkcopy (w : span) : list Z := take (length w.1 - length w.2) w.1.

Definition O_TRUNCATE : Z := 577.
(** The mode and descriptor that [redircmd] chooses for its type. *)
Definition redirmode (type : Z) : Z := if type =? 60 then O_RD else O_TRUNCATE.
Definition redirfd (type : Z) : Z := if type =? 60 then 0 else 1.

Fixpoint parseredirs1_loop (fuel : nat) : M ptr (list (list Z * Z * Z)) :=
  let* b := peek [60; 62] in
  if b : bool then
    match fuel with
    | O => out_of_fuel
    | S f =>
        let* t := gettoken1 in
        let* w := gettoken1 in
        if negb (w.1 =? TOK_WORD) then panic "missing file for redirection"
        else
          let* rs := parseredirs1_loop f in
          ret ((mkcopy w.2, redirmode t.1, redirfd t.1) :: rs)
    end
  else ret [].
Definition parseredirs1 : M ptr (list (list Z * Z * Z)) := let* s := get in parseredirs1_loop (length s).

Fixpoint parseargs1_loop (fuel : nat) (argc : nat) : M ptr (list (list Z) * list (list Z * Z * Z)) :=
  let* b := peek [124] in
  if b : bool then ret ([], [])
  else
    let* t := gettoken1 in
    if t.1 =? 0 then ret ([], [])
    else if negb (t.1 =? TOK_WORD) then panic "syntax error"
    else if Nat.leb MAXARGS (S argc) then panic "too many args"
    else
      match fuel with
      | O => out_of_fuel
      | S f =>
          let* rs := parseredirs1 in
          let* r := parseargs1_loop f (S argc) in
          ret (mkcopy t.2 :: r.1, rs ++ r.2)
      end.

Definition parseexec1 : M ptr (cmd (list Z)) :=
  let* rs := parseredirs1 in
  let* s := get in
  let* r := parseargs1_loop (length s) 0 in
  ret (wrap (CExec r.1) (rs ++ r.2)).

Fixpoint parsepipe1 (fuel : nat) : M ptr (cmd (list Z)) :=
  let* c := parseexec1 in
  let* b := peek [124] in
  if b : bool then
    match fuel with
    | O => out_of_fuel
    | S f =>
        let* _ := gettoken1 in
        let* d := parsepipe1 f in
        ret (CPipe c d)
    end
  else ret c.

Definition parseline1 : M ptr (cmd (list Z)) := let* s := get in parsepipe1 (length s).

Definition parsecmd1 : M ptr (cmd (list Z)) :=
  let* c := parseline1 in
  let* _ := peek [] in
  let* s := get in
  match s with
  | [] => ret c
  | _ => panic "leftovers"
  end.

(** [runcmd] never returns; the right side of a pipe runs in the process that
    made it. *)
Fixpoint runcmd1 (c : cmd (list Z)) : prog :=
  match c with
  | CExec [] => PExit
  | CExec argv => PExec argv (PPrintf "Error in execvp" [] PExit)
  | CRedir c file mode fd =>
      PDup (Z.to_nat fd) (PClose (Z.to_nat fd)
        (POpen file mode (runcmd1 c) (PPrintf "File opening error" [] PExit)))
  | CPipe l r =>
      PPipe (fun p0 p1 =>
        PFork (PDup2 p1 1 (PClose p0 (runcmd1 l)))
              (PDup2 p0 0 (PClose p1 (runcmd1 r))))
      (PPanic "result of pipe not checked")
  | CList _ _ | CBack _ => PPrintf "unknown runcmd" [] PExit
  end.

(** ** Agreement with the xv6 shell *)

(** Text without ampersands, semicolons, parentheses and [>>]. *)
Fixpoint plain (s : ptr) : bool :=
  match s with
  | [] => true
  | c :: s' =>
      negb (strchr [38; 59; 40; 41] c) &&
      negb ((c =? 62) && match s' with d :: _ => d =? 62 | [] => false end) && plain s'
  end.

Lemma plain_cons c s : plain (c :: s) = true -> plain s = true.
Proof. cbn. intros H. by apply andb_true_iff in H as [_ H]. Qed.
Lemma plain_ws s : plain s = true -> plain (skip_ws s) = true.
Proof.
  induction s as [|c s IH]; [done|]. intros H. cbn [skip_ws]. destruct (strchr whitespace c); [|done].
  apply IH. by eapply plain_cons.
Qed.
Lemma plain_word s : plain s = true -> plain (skip_word s) = true.
Proof.
  induction s as [|c s IH]; [done|]. intros H. cbn [skip_word]. destruct (_ && _); [|done].
  apply IH. by eapply plain_cons.
Qed.
Lemma plain_char c s : plain (c :: s) = true -> c ∉ [38; 59; 40; 41].
Proof.
  cbn. intros H. apply andb_true_iff in H as [H _]. apply andb_true_iff in H as [H _].
  apply negb_true_iff in H. by apply bool_decide_eq_false in H.
Qed.

Lemma plain_symbols c s : plain (c :: s) = true -> strchr symbols c = strchr symbols1 c.
Proof.
  intros H. apply plain_char in H. unfold strchr, symbols, symbols1. apply bool_decide_ext. set_solver.
Qed.
Lemma skip_word_plain s : plain s = true -> skip_word1 s = skip_word s.
Proof.
  induction s as [|c s IH]; [done|]. intros H. cbn [skip_word skip_word1]. rewrite (plain_symbols c s H).
  destruct (_ && _); [|done]. apply IH. by eapply plain_cons.
Qed.

Lemma gettoken_plain s : plain s = true ->
  gettoken1 s = gettoken s /\ exists t s', gettoken s = Ret t s' /\ plain s' = true.
Proof.
  intros H. apply plain_ws in H. unfold gettoken, gettoken1. destruct (skip_ws s) as [|c q] eqn:E.
  { split; [done|]. by eexists _, _. }
  assert (strchr [124; 60] c = strchr [124; 40; 41; 59; 38; 60] c) as ->.
  { apply plain_char in H. unfold strchr. apply bool_decide_ext. set_solver. }
  destruct (strchr [124; 40; 41; 59; 38; 60] c).
  { split; [done|]. eexists _, _. split; [done|]. by eapply plain_ws, plain_cons. }
  destruct (Z.eqb_spec c 62) as [->|].
  - destruct q as [|d q]; [split; [done|]; by eexists _, _|].
    assert (d =? 62 = false) as ->.
    { cbn in H. destruct (d =? 62); [|done]. cbn in H. by rewrite andb_false_r in H. }
    split; [done|]. eexists _, _. split; [done|]. by eapply plain_ws, plain_cons.
  - rewrite skip_word_plain by done. split; [done|]. eexists _, _. split; [done|]. by apply plain_ws, plain_word.
Qed.

(** The same outcome up to [R], in the same place of a plain text. *)
Definition agree {A B} (R : A -> B -> Prop) (x : outcome ptr A) (y : outcome ptr B) : Prop :=
  match x, y with
  | Ret a s, Ret b s' => R a b /\ s = s' /\ plain s = true
  | Panic _, Panic _ => True
  | _, _ => False
  end.

Lemma agree_bind {A B A' B'} (R : A -> B -> Prop) (R' : A' -> B' -> Prop) (m : M ptr A) (m' : M ptr B) k k' s s0 :
  agree R (m s) (m' s0) ->
  (forall a b s1, R a b -> m s = Ret a s1 -> plain s1 = true -> agree R' (k a s1) (k' b s1)) ->
  agree R' (bind m k s) (bind m' k' s0).
Proof.
  unfold agree at 1, bind. destruct (m s) as [a s1| | |], (m' s0) as [b s1'| | |]; try done.
  intros (HR & <- & Hp) Hk. by apply Hk.
Qed.
Lemma agree_peek {A B} toks (R : A -> B -> Prop) k k' s s' :
  skip_ws s = skip_ws s' -> plain s = true ->
  (forall b s1, s1 = skip_ws s -> plain s1 = true -> (b = true -> s1 <> []) -> agree R (k b s1) (k' b s1)) ->
  agree R (bind (peek toks) k s) (bind (peek toks) k' s').
Proof.
  intros E Hp H. unfold bind, peek. rewrite <- E. apply H; [done|by apply plain_ws|].
  destruct (skip_ws s); [done|]. done.
Qed.
Lemma agree_peek2 {A B} toks toks' (R : A -> B -> Prop) k k' s :
  peek toks s = peek toks' s -> plain s = true ->
  (forall b s1, s1 = skip_ws s -> plain s1 = true -> agree R (k b s1) (k' b s1)) ->
  agree R (bind (peek toks) k s) (bind (peek toks') k' s).
Proof.
  intros E Hp H. unfold bind. rewrite <- E. unfold peek. apply H; [done|by apply plain_ws].
Qed.
Lemma agree_token {A B} (R : A -> B -> Prop) k k' s :
  plain s = true ->
  (forall t s1, gettoken s = Ret t s1 -> plain s1 = true -> agree R (k t s1) (k' t s1)) ->
  agree R (bind gettoken k s) (bind gettoken1 k' s).
Proof.
  intros Hp H. destruct (gettoken_plain s Hp) as (E & t & s1 & Et & Hp1). unfold bind. rewrite E, Et. by apply H.
Qed.
Lemma agree_ret {A B} (R : A -> B -> Prop) a b s : R a b -> plain s = true -> agree R (ret a s) (ret b s).
Proof. done. Qed.

(** What [gettoken] leaves is shorter. *)
Lemma gettoken_shorter s t s1 : gettoken s = Ret t s1 ->
  (length s1 <= length s)%nat /\ (skip_ws s <> [] -> (length s1 < length s)%nat) /\ (t.1 <> 0 -> (length s1 < length s)%nat).
Proof.
  destruct (gettoken_progress s) as (r & w & s' & E & H1 & H2 & H3). intros E'. rewrite E in E'. simplify_eq. cbn. auto.
Qed.

(** The xv6 shell opens for writing without truncating. *)
Definition trunc_mode (m : Z) : Z := if m =? O_WRCREATE then O_TRUNCATE else m.
Definition redir_agree (r : list redir) (r1 : list (list Z * Z * Z)) : Prop :=
  r1 = (fun x => (text x.1.1, trunc_mode x.1.2, x.2)) <$> r.

Lemma redirs_agree n : forall m s s',
  skip_ws s = skip_ws s' -> plain s = true -> (length (skip_ws s) <= n)%nat -> (length (skip_ws s) <= m)%nat ->
  agree redir_agree (parseredirs_loop n s) (parseredirs1_loop m s').
Proof.
  induction n as [|n IH]; intros m s s' E Hp Hn Hm; cbn [parseredirs_loop];
    destruct m as [|m]; cbn [parseredirs1_loop]; apply agree_peek; try done; intros b s1 Es1 Hp1 Hb;
    (destruct b; [specialize (Hb eq_refl)|by apply agree_ret]).
  - rewrite <- Es1 in Hn. destruct s1; [done|simpl in Hn; lia].
  - rewrite <- Es1 in Hn. destruct s1; [done|simpl in Hn; lia].
  - rewrite <- Es1 in Hm. destruct s1; [done|simpl in Hm; lia].
  - assert (skip_ws s1 = s1) as Ei by (rewrite Es1; apply skip_ws_idem).
    apply agree_token; [done|]. intros t s2 Ht Hp2. apply gettoken_shorter in Ht as (_ & Ht & _).
    rewrite Ei in Ht. specialize (Ht Hb). rewrite <- Es1 in *.
    apply agree_token; [done|]. intros w s3 Hw Hp3. apply gettoken_shorter in Hw as (Hw & _ & _).
    destruct (negb _); [done|]. pose proof (skip_ws_length s3).
    eapply agree_bind; [apply IH; [done|done|lia|lia]|]. intros rs rs1 s4 -> _ Hp4. apply agree_ret; [|done].
    unfold redir_agree. cbn. f_equal. unfold mkcopy, redirmode, redirfd, text. by destruct (t.1 =? 60).
Qed.
Lemma parseredirs_agree s s' : skip_ws s = skip_ws s' -> plain s = true ->
  agree redir_agree (parseredirs s) (parseredirs1 s').
Proof.
  intros E Hp. unfold parseredirs, parseredirs1, bind, get. apply redirs_agree; try done.
  - apply skip_ws_length.
  - rewrite E. apply skip_ws_length.
Qed.

Definition args_agree (r : list span * list redir) (r1 : list (list Z) * list (list Z * Z * Z)) : Prop :=
  r1.1 = text <$> r.1 /\ redir_agree r.2 r1.2.

(** Without the other symbols, a pipe character is the only one that stops. *)
Lemma peek_plain s : plain s = true -> peek [124; 41; 38; 59] s = peek [124] s.
Proof.
  intros Hp. apply plain_ws in Hp. unfold peek. destruct (skip_ws s) as [|c q]; [done|].
  f_equal. apply plain_char in Hp. unfold strchr. apply bool_decide_ext. set_solver.
Qed.

Lemma args_agree_loop n : forall m argc s,
  plain s = true -> (length (skip_ws s) <= n)%nat -> (length (skip_ws s) <= m)%nat ->
  agree args_agree (parseargs_loop n argc s) (parseargs1_loop m argc s).
Proof.
  assert (args_agree ([], []) ([], [])) as H0 by done.
  induction n as [|n IH]; intros m argc s Hp Hn Hm; cbn [parseargs_loop];
    destruct m as [|m]; cbn [parseargs1_loop]; (apply agree_peek2; [by apply peek_plain|done|]);
    intros b s1 Es1 Hp1; rewrite <- Es1 in *;
    (destruct b; [by apply agree_ret|]); (apply agree_token; [done|]); intros t s2 Ht Hp2;
    apply gettoken_shorter in Ht as (_ & _ & Ht); (destruct (Z.eqb_spec t.1 0); [by apply agree_ret|]);
    (destruct (negb _); [done|]); (destruct (Nat.leb _ _); [done|]); specialize (Ht ltac:(done)); try lia.
  eapply agree_bind; [by apply parseredirs_agree|]. intros rs rs1 s3 -> E3 Hp3.
  pose proof (ends_parseredirs s2) as He. unfold ends_on in He. rewrite E3 in He. pose proof (skip_ws_length s3).
  eapply agree_bind; [apply IH; [done|lia|lia]|]. intros r r1 s4 [Hr1 Hr2] _ Hp4. apply agree_ret; [|done].
  split; cbn; [by rewrite Hr1|]. unfold redir_agree in *. by rewrite fmap_app, Hr2.
Qed.

(** The command in the first homework's form. *)
Fixpoint trunc (c : cmd (list Z)) : cmd (list Z) :=
  match c with
  | CExec argv => CExec argv
  | CRedir c f mode fd => CRedir (trunc c) f (trunc_mode mode) fd
  | CPipe l r => CPipe (trunc l) (trunc r)
  | CList l r => CList (trunc l) (trunc r)
  | CBack c => CBack (trunc c)
  end.
Definition cmd_agree (c : cmd span) (c1 : cmd (list Z)) : Prop := c1 = trunc (erase c).

Lemma wrap_agree c c1 rs rs1 : cmd_agree c c1 -> redir_agree rs rs1 -> cmd_agree (wrap c rs) (wrap c1 rs1).
Proof.
  unfold cmd_agree. intros -> ->. revert c. induction rs as [|[[f m] d] rs IH]; intros c; [done|].
  apply (IH (CRedir c f m d)).
Qed.

Lemma exec_agree pl s : plain s = true -> agree cmd_agree (parseexec_with pl s) (parseexec1 s).
Proof.
  intros Hp. unfold parseexec_with. assert (peek [40] s = Ret false (skip_ws s)) as E.
  { unfold peek. pose proof (plain_ws s Hp) as H. destruct (skip_ws s) as [|c q]; [done|]. apply plain_char in H.
    unfold strchr. rewrite bool_decide_eq_false_2; [done|]. set_solver. }
  mstep E. unfold parseexec1. eapply agree_bind.
  { apply parseredirs_agree; [by rewrite skip_ws_idem|by apply plain_ws]. }
  intros rs rs1 s1 Hrs _ Hp1. unfold bind at 1, get. unfold bind at 2, get.
  eapply agree_bind; [apply args_agree_loop; [done|apply skip_ws_length|apply skip_ws_length]|].
  intros r r1 s2 [Hr1 Hr2] _ Hp2. apply agree_ret; [|done]. apply wrap_agree.
  - unfold cmd_agree. by rewrite Hr1.
  - unfold redir_agree in *. by rewrite fmap_app, Hrs, Hr2.
Qed.

Lemma exec_ends pl s : plain s = true -> ends_on (parseexec_with pl) s.
Proof.
  intros Hp. unfold parseexec_with. assert (peek [40] s = Ret false (skip_ws s)) as E.
  { unfold peek. pose proof (plain_ws s Hp) as H. destruct (skip_ws s) as [|c q]; [done|]. apply plain_char in H.
    unfold strchr. rewrite bool_decide_eq_false_2; [done|]. set_solver. }
  apply ends_bind; [unfold ends_on; rewrite E; apply skip_ws_length|]. intros b s1 Eb H1. rewrite E in Eb. simplify_eq.
  apply ends_bind; [apply ends_parseredirs|]. intros rs s2 _ _.
  apply ends_get. apply ends_bind; [by apply ends_args|]. intros. apply ends_ret.
Qed.

Lemma pipe_agree pl n : forall m s, plain s = true -> (length s <= n)%nat -> (length s <= m)%nat ->
  agree cmd_agree (parsepipe_with n pl s) (parsepipe1 m s).
Proof.
  induction n as [|n IH]; intros m s Hp Hn Hm; cbn [parsepipe_with]; destruct m as [|m]; cbn [parsepipe1];
    (eapply agree_bind; [by apply exec_agree|]); intros c c1 s1 Hc Ec Hp1;
    pose proof (exec_ends pl s Hp) as He; unfold ends_on in He; rewrite Ec in He;
    (apply agree_peek; [done|done|]); intros b s2 Es2 Hp2 Hb; pose proof (skip_ws_length s1) as Hl; rewrite <- Es2 in Hl;
    (destruct b; [specialize (Hb eq_refl)|by apply agree_ret]); try (destruct s2; [done|simpl in *; lia]).
  apply agree_token; [done|]. intros t s3 Ht Hp3. apply gettoken_shorter in Ht as (_ & Ht & _).
  assert (skip_ws s2 = s2) as Ei by (rewrite Es2; apply skip_ws_idem). rewrite Ei in Ht. specialize (Ht Hb).
  eapply agree_bind; [apply IH; [done|lia|lia]|]. intros d d1 s4 Hd _ Hp4. apply agree_ret; [|done].
  unfold cmd_agree in *. by rewrite Hc, Hd.
Qed.

(** The rest of [parseline] does nothing on plain text. *)
Lemma plain_peek_false toks s : toks ⊆ [38; 59; 40; 41] -> plain s = true -> peek toks s = Ret false (skip_ws s).
Proof.
  intros Ht Hp. unfold peek. pose proof (plain_ws s Hp) as H. destruct (skip_ws s) as [|c q]; [done|].
  apply plain_char in H. unfold strchr. rewrite bool_decide_eq_false_2; [done|]. set_solver.
Qed.
Lemma line_plain n s c s1 :
  parsepipe_with (length s) (parseline n) s = Ret c s1 -> plain s1 = true ->
  parseline (S n) s = Ret c (skip_ws s1).
Proof.
  intros E Hp. assert (parseback_loop (length s1) c s1 = Ret c (skip_ws s1)) as Hb.
  { destruct (length s1); cbn [parseback_loop]; mstep (plain_peek_false [38] s1 ltac:(set_solver) Hp); done. }
  rewrite (line_unfold n s c (skip_ws s1)).
  - mstep (plain_peek_false [59] (skip_ws s1) ltac:(set_solver) (plain_ws _ Hp)). by rewrite skip_ws_idem.
  - mstep E. exact Hb.
Qed.
Lemma line_panic n s msg : parsepipe_with (length s) (parseline n) s = Panic msg -> parseline (S n) s = Panic msg.
Proof. intros E. cbn [parseline]. unfold bind at 1, get at 1. unfold bind at 1. by rewrite E. Qed.

(** C35. The two shells parse alike. On a line that has none of the characters
    that only the xv6 shell knows (ampersand, semicolon, parentheses, and no
    [>>]), both parsers accept or both reject, and when they accept they build
    the same command (the first homework's shell opens output files to truncate
    them). *)
Theorem shells_agree line :
  plain line = true ->
  (exists c, parse line = Ret c [] /\ parsecmd1 line = Ret (trunc (erase c)) []) \/
  (exists m m', parse line = Panic m /\ parsecmd1 line = Panic m').
Proof.
  intros Hp. pose proof (pipe_agree (parseline (length line)) (length line) (length line) line Hp (le_n _) (le_n _)) as H.
  unfold agree in H. destruct (parsepipe_with _ _ line) as [c s1| msg| |] eqn:E1; try done;
    destruct (parsepipe1 (length line) line) as [c1 s1'|msg'| |] eqn:E2; try done.
  - destruct H as (Hc & <- & Hp1).
    assert (parse line = (match skip_ws s1 with [] => ret c | _ => panic "syntax" end : M ptr (cmd span)) (skip_ws s1)) as ->.
    { unfold parse, bind at 1, get at 1. mstep (line_plain (length line) line c s1 E1 Hp1).
      unfold bind, peek, get. by rewrite skip_ws_idem. }
    assert (parsecmd1 line = (match skip_ws s1 with [] => ret c1 | _ => panic "leftovers" end : M ptr (cmd (list Z))) (skip_ws s1)) as ->.
    { unfold parsecmd1, parseline1, bind, get. rewrite E2. done. }
    destruct (skip_ws s1); [left|right].
    + exists c. by rewrite Hc.
    + by eexists _, _.
  - right. eexists msg, msg'. split.
    + unfold parse, bind at 1, get at 1. unfold bind at 1. by rewrite (line_panic _ _ _ E1).
    + unfold parsecmd1, parseline1, bind, get. by rewrite E2.
Qed.

(** ls < in | wc > y *)
Lemma shells_agree_witness :
  exists c, parse [108; 115; 60; 105; 124; 119; 62; 121] = Ret c [] /\
    parsecmd1 [108; 115; 60; 105; 124; 119; 62; 121] = Ret (trunc (erase c)) [].
Proof.
  destruct (shells_agree [108; 115; 60; 105; 124; 119; 62; 121] eq_refl) as [(c & H1 & H2)|(m & m' & H1 & _)].
  - exists c. split; assumption.
  - vm_compute in H1. discriminate H1.
Defined.

(** ** Descriptors *)

Lemma fd_new_spec x t : forall i, exists j t', fd_new x t i = ((i + j)%nat, t') /\ t' !! j = Some (Some x) /\
  (length t <= length t')%nat /\ forall k y, t !! k = Some (Some y) -> t' !! k = Some (Some y).
Proof.
  induction t as [|y t IH]; intros i; cbn [fd_new].
  - exists 0%nat, [Some x]. rewrite Nat.add_0_r. split_and!; [done|done|simpl; lia|done].
  - destruct y as [y|].
    + destruct (IH (S i)) as (j & t' & -> & Hj & Hl & Hk). exists (S j), (Some y :: t').
      split_and!; [f_equal; lia|done|simpl; lia|]. by intros [|k] z Hz; [|apply Hk].
    + exists 0%nat, (Some x :: t). rewrite Nat.add_0_r. split_and!; [done|done|done|]. by intros [|k] z Hz.
Qed.

(** The three standard descriptors of a process. *)
Definition std3 (t : fdtab) : option (fdesc * fdesc * fdesc) :=
  match t with Some i :: Some o :: Some e :: _ => Some (i, o, e) | _ => None end.

(** The commands of the first homework's shell. *)
Definition hw1_cmd : cmd (list Z) -> Prop :=
  fix go c := match c with
  | CExec _ => True
  | CRedir c _ _ fd => go c /\ (fd = 0 \/ fd = 1)
  | CPipe l r => go l /\ go r
  | CList _ _ | CBack _ => False
  end.

(** A new descriptor of a process that has the standard ones. *)
Lemma fd_new3 y i o e x : exists j x', fd_new y (Some i :: Some o :: Some e :: x) 0 =
    (S (S (S j)), Some i :: Some o :: Some e :: x') /\ x' !! j = Some (Some y) /\
    forall k z, x !! k = Some (Some z) -> x' !! k = Some (Some z).
Proof.
  destruct (fd_new_spec y x 3) as (j & x' & E & Hj & _ & Hk). exists j, x'. split; [|done].
  cbn [fd_new]. by rewrite E.
Qed.

Lemma hw1_events c : hw1_cmd c -> forall i o e x n,
  let '(l, m) := exec_events (runcmd1 c) (Some i :: Some o :: Some e :: x) n in
  let '(l', m') := wiring c i o e n in
  (fun y => (y.1, std3 y.2)) <$> l = (fun y => (y.1, Some y.2)) <$> l' /\ m = m'.
Proof.
  induction c as [argv|c IH f mode fd|l IHl r IHr|l IHl r IHr|c IH]; intros Hc i o e x n; try done.
  - by destruct argv.
  - destruct Hc as [Hc [-> | ->]]; cbn [runcmd1 exec_events].
    + change (fd_get (Z.to_nat 0) _) with (Some i). cbv iota.
      destruct (fd_new3 i i o e x) as (j & x' & E & _). rewrite E. apply (IH Hc (FFile f mode) o e x' n).
    + change (fd_get (Z.to_nat 1) _) with (Some o). cbv iota.
      destruct (fd_new3 o i o e x) as (j & x' & E & _). rewrite E. apply (IH Hc i (FFile f mode) e x' n).
  - destruct Hc as [Hl Hr]. cbn [runcmd1 exec_events].
    destruct (fd_new3 (FRead n) i o e x) as (j0 & x0 & E0 & H0 & _). rewrite E0.
    destruct (fd_new3 (FWrite n) i o e x0) as (j1 & x1 & E1 & H1 & Hk). rewrite E1.
    assert (fd_get (S (S (S j1))) (Some i :: Some o :: Some e :: x1) = Some (FWrite n)) as ->
      by (unfold fd_get; change ((Some i :: Some o :: Some e :: x1) !! S (S (S j1))) with (x1 !! j1); by rewrite H1).
    assert (fd_get (S (S (S j0))) (Some i :: Some o :: Some e :: x1) = Some (FRead n)) as ->
      by (unfold fd_get; change ((Some i :: Some o :: Some e :: x1) !! S (S (S j0))) with (x1 !! j0); by rewrite (Hk j0 _ H0)).
    specialize (IHl Hl i (FWrite n) e (<[j0 := None]> x1) (S n)). cbn [wiring].
    change (fd_close (S (S (S j0))) (<[1%nat := Some (FWrite n)]> (Some i :: Some o :: Some e :: x1)))
      with (Some i :: Some (FWrite n) :: Some e :: <[j0 := None]> x1).
    destruct (exec_events (runcmd1 l) _ (S n)) as [a m]. destruct (wiring l i (FWrite n) e (S n)) as [a' m'].
    destruct IHl as [Ha ->]. specialize (IHr Hr (FRead n) o e (<[j1 := None]> x1) m').
    change (fd_close (S (S (S j1))) (<[0%nat := Some (FRead n)]> (Some i :: Some o :: Some e :: x1)))
      with (Some (FRead n) :: Some o :: Some e :: <[j1 := None]> x1).
    destruct (exec_events (runcmd1 r) _ m') as [b mb]. destruct (wiring r (FRead n) o e m') as [b' mb'].
    destruct IHr as [Hb ->]. by rewrite !fmap_app, Ha, Hb.
Qed.

(** The first homework's shell connects standard input, output and error as
    the command says, however pipes and redirections are nested. *)
Theorem hw1_std_wiring c i o e x n :
  hw1_cmd c ->
  (fun y => (y.1, std3 y.2)) <$> (exec_events (runcmd1 c) (Some i :: Some o :: Some e :: x) n).1 =
  (fun y => (y.1, Some y.2)) <$> (wiring c i o e n).1.
Proof.
  intros Hc. pose proof (hw1_events c Hc i o e x n) as H.
  destruct (exec_events _ _ n) as [l m], (wiring c i o e n) as [l' m']. by destruct H.
Qed.

(** a | b | c *)
Definition three_pipe : cmd (list Z) := CPipe (CExec [[97]]) (CPipe (CExec [[98]]) (CExec [[99]])).

Lemma hw1_std_wiring_witness :
  (fun y => (y.1, std3 y.2)) <$> (exec_events (runcmd1 three_pipe) [Some (FTerm 0); Some (FTerm 1); Some (FTerm 2)] 0).1 =
  [([[97]], Some (FTerm 0, FWrite 0, FTerm 2)); ([[98]], Some (FRead 0, FWrite 1, FTerm 2));
   ([[99]], Some (FRead 1, FTerm 1, FTerm 2))].
Proof.
  rewrite (hw1_std_wiring three_pipe); [vm_compute; reflexivity|cbn; auto].
Defined.

(** It leaks descriptors: in [a | b | c] the program [c] still has the read
    end of the pipe between [a] and [b], so [a] is not told when [b] stops
    reading; the xv6 shell gives [c] just its three descriptors. *)
Theorem hw1_pipe_leak :
  exists t, ([[99]], t) ∈ (exec_events (runcmd1 three_pipe) [Some (FTerm 0); Some (FTerm 1); Some (FTerm 2)] 0).1 /\
    Some (FRead 0) ∈ t /\
    ([[99]], std 13 (FRead 1, FTerm 1, FTerm 2)) ∈
      (exec_events (runcmd three_pipe) (std 13 (FTerm 0, FTerm 1, FTerm 2)) 0).1.
Proof.
  exists [Some (FRead 1); Some (FTerm 1); Some (FTerm 2); Some (FRead 0); Some (FRead 1); None].
  assert (Some (FRead 0) ∈ [Some (FRead 1); Some (FTerm 1); Some (FTerm 2); Some (FRead 0); Some (FRead 1); None]) by set_solver.
  split; [|split; [done|]]; vm_compute; do 2 right; left.
Qed.
