(* ===== verification/Syscall.v ===== *)
(** System-call arguments: [fetchint], [fetchstr], [argint], [argptr] and
    [argstr] of xv6-public/syscall.c.

    The kernel reads the arguments on the user stack, and strings, through the
    page table of the calling process, as the processor does ([vrd8] of
    Proc.v): a read that the page table does not allow is a trap in kernel mode,
    which panics.

    Theorem: for every value of the stack pointer and of the arguments, the
    functions read only user memory below the size of the process, so they do
    not trap, and give exactly the word, the string or the buffer they are
    asked for, or -1 when it does not lie below that size ([args_exact]). *)

From Stdlib Require Import ZArith Lia.
From stdpp Require Import base strings gmap numbers list.
From S2P Require Import Prelude KString Kalloc Vm VmSpec Fs FsAlloc Pipe Spin File Proc.

Open Scope Z_scope.

(** ** Operations *)

(** [*ip = *(int* )addr] *)
Definition fetchint (addr : Z) : M kern (option Z) :=
  let* s := get in
  let curproc := me s in
  if (p_sz curproc <=? addr) || (p_sz curproc <? u32 (addr + 4)) then ret None
  else let* v := on_kmem (vrd32 (p_pgdir curproc) addr) in ret (Some (i32 v)).

(** The loop of [fetchstr] from [s], which has passed [len] bytes. *)
Fixpoint fetchstr_loop (n : nat) (pgdir s len : Z) : M kmem (option Z) :=
  match n with
  | O => ret None
  | S n' =>
      let* c := vrd8 pgdir s in
      if c =? 0 then ret (Some len) else fetchstr_loop n' pgdir (s + 1) (len + 1)
  end.

(** The pointer and the length of the string. *)
Definition fetchstr (addr : Z) : M kern (option (Z * Z)) :=
  let* s := get in
  let curproc := me s in
  if p_sz curproc <=? addr then ret None
  else
    let* r := on_kmem (fetchstr_loop (Z.to_nat (p_sz curproc - addr)) (p_pgdir curproc) addr 0) in
    ret (match r with Some len => Some (addr, len) | None => None end).

Definition tf_esp : M kern Z :=
  let* s := get in on_kmem (load (p_tf (me s) + TF_esp)).

Definition argint (n : Z) : M kern (option Z) :=
  let* esp := tf_esp in fetchint (u32 (esp + 4 + 4 * n)).

Definition argptr (n size : Z) : M kern (option Z) :=
  let* s := get in
  let* a := argint n in
  match a with
  | None => ret None
  | Some i =>
      let sz := p_sz (me s) in
      if (size <? 0) || (sz <=? u32 i) || (sz <? u32 (u32 i + size)) then ret None
      else ret (Some (u32 i))
  end.

Definition argstr (n : Z) : M kern (option (Z * Z)) :=
  let* a := argint n in
  match a with
  | None => ret None
  | Some addr => fetchstr (u32 addr)
  end.

(** ** The memory of the calling process *)

Section Args.

Variable kend : Z.

Definition kmem_of (s : kern) : kmem := kf_km (kx s).
Definition my_byte (s : kern) (va : Z) : Z := ubyte (kbytes (kmem_of s)) (p_pgdir (me s)) va.
Definition my_word (s : kern) (va : Z) : Z :=
  le4 (my_byte s va) (my_byte s (va + 1)) (my_byte s (va + 2)) (my_byte s (va + 3)).
Definition my_esp (s : kern) : Z := rd32 (kbytes (kmem_of s)) (p_tf (me s) + TF_esp).

(** All pages below the size of the process are mapped. *)
Record user_ok (s : kern) : Prop := {
  uo_sz : 0 <= p_sz (me s) <= KERNBASE;
  uo_us : exists free P, us_ok kend (kmem_of s) (p_pgdir (me s)) free P /\
            forall k, 0 <= k -> k * PGSIZE < p_sz (me s) -> P k = true
}.

Lemma vrd8_us km pgdir free P va :
  us_ok kend km pgdir free P -> 0 <= va < KERNBASE -> P (va / PGSIZE) = true ->
  vrd8 pgdir va km = Ret (ubyte (kbytes km) pgdir va) km.
Proof.
  intros Hus Hva HP. assert (Hk : 0 <= va / PGSIZE < 524288) by dlia.
  pose proof (us_map _ _ _ _ _ Hus _ Hk) as Hp. rewrite HP, <- upte_div in Hp by lia.
  assert (Hd : has (rd32 (kbytes km) (pgdir + 4 * PDX va)) PTE_P = true).
  { revert Hp. unfold pte_at, pde_p, pde. by destruct (has (rd32 _ _) PTE_P). }
  unfold vrd8, vaddr, load, gets, ret, bind. rewrite Hd. cbn [negb].
  assert (Ee : rd32 (kbytes km) (P2V (PTE_ADDR (rd32 (kbytes km) (pgdir + 4 * PDX va))) + 4 * PTX va) = pte_at (kbytes km) pgdir va).
  { unfold pte_at, pde_p, tab, pde. by rewrite Hd. }
  rewrite Ee, Hp. cbn [negb orb andb]. unfold ubyte, upg. by rewrite <- upte_div by lia.
Qed.

(** A byte below the size of the process is read without a trap. *)
Lemma my_vrd8 s va : user_ok s -> 0 <= va < p_sz (me s) ->
  vrd8 (p_pgdir (me s)) va (kmem_of s) = Ret (my_byte s va) (kmem_of s).
Proof.
  intros [Hsz (free & P & Hus & HP)] Hva. eapply vrd8_us; [done|lia|]. apply HP; [apply Z.div_pos; lia|]. dlia.
Qed.

Lemma on_kmem_ret {A} (m : M kmem A) s a : m (kmem_of s) = Ret a (kmem_of s) -> on_kmem m s = Ret a s.
Proof.
  intros H. unfold on_kmem, part. fold (kmem_of s). rewrite H. f_equal. unfold kmem_of.
  destruct s as [[] ? ? ? ?]. done.
Qed.

Lemma my_vrd32 s va : user_ok s -> 0 <= va -> va + 4 <= p_sz (me s) ->
  vrd32 (p_pgdir (me s)) va (kmem_of s) = Ret (my_word s va) (kmem_of s).
Proof.
  intros Hok Hva Hsz. pose proof (uo_sz _ Hok). unfold vrd32.
  rewrite !u32_small by lia. mstep (my_vrd8 s va Hok ltac:(lia)). mstep (my_vrd8 s (va + 1) Hok ltac:(lia)).
  mstep (my_vrd8 s (va + 2) Hok ltac:(lia)). mstep (my_vrd8 s (va + 3) Hok ltac:(lia)). done.
Qed.

Lemma fetchint_run s addr : user_ok s -> 0 <= addr < 4294967296 ->
  fetchint addr s = Ret (if addr + 4 <=? p_sz (me s) then Some (i32 (my_word s addr)) else None) s.
Proof.
  intros Hok Ha. pose proof (uo_sz _ Hok) as Hsz. unfold fetchint, get, bind at 1. cbv zeta.
  destruct (Z.leb_spec (p_sz (me s)) addr); cbn [orb].
  - destruct (Z.leb_spec (addr + 4) (p_sz (me s))); [lia|done].
  - rewrite u32_small by lia. destruct (Z.ltb_spec (p_sz (me s)) (addr + 4)), (Z.leb_spec (addr + 4) (p_sz (me s)));
      try lia; [done|].
    mstep (on_kmem_ret _ s _ (my_vrd32 s addr Hok ltac:(lia) ltac:(lia))). done.
Qed.

(** The string at [addr]: its length if a NUL follows below the size. *)
Definition is_str (s : kern) (addr len : Z) : Prop :=
  0 <= len /\ addr + len < p_sz (me s) /\ my_byte s (addr + len) = 0 /\
  forall x, addr <= x < addr + len -> my_byte s x <> 0.

Lemma fetchstr_loop_run s addr n : user_ok s -> 0 <= addr -> addr + Z.of_nat n = p_sz (me s) -> forall len,
  exists r, fetchstr_loop n (p_pgdir (me s)) addr len (kmem_of s) = Ret r (kmem_of s) /\
    ((exists k, r = Some (len + k) /\ is_str s addr k) \/
     (r = None /\ forall x, addr <= x < p_sz (me s) -> my_byte s x <> 0)).
Proof.
  intros Hok. revert addr. induction n as [|n IH]; intros addr Ha Hn len; cbn [fetchstr_loop].
  - exists None. split; [done|]. right. split; [done|]. lia.
  - mstep (my_vrd8 s addr Hok ltac:(lia)). destruct (Z.eqb_spec (my_byte s addr) 0) as [E|E].
    + exists (Some len). split; [done|]. left. exists 0. rewrite Z.add_0_r. split; [done|].
      unfold is_str. rewrite Z.add_0_r. split_and!; [lia|lia|done|lia].
    + destruct (IH (addr + 1) ltac:(lia) ltac:(lia) (len + 1)) as (r & Er & Hr). exists r. split; [done|].
      destruct Hr as [(k & -> & H1 & H2 & H3 & H4)|[-> Hn0]].
      * left. exists (k + 1). split; [f_equal; lia|]. unfold is_str.
        replace (addr + (k + 1)) with (addr + 1 + k) by lia. split_and!; [lia|lia|done|].
        intros x Hx. destruct (Z.eq_dec x addr) as [->|]; [done|]. apply H4. lia.
      * right. split; [done|]. intros x Hx. destruct (Z.eq_dec x addr) as [->|]; [done|]. apply Hn0. lia.
Qed.

Lemma fetchstr_run s addr : user_ok s -> 0 <= addr < 4294967296 ->
  exists r, fetchstr addr s = Ret r s /\
    ((exists len, r = Some (addr, len) /\ is_str s addr len) \/
     (r = None /\ forall x, addr <= x < p_sz (me s) -> my_byte s x <> 0)).
Proof.
  intros Hok Ha. unfold fetchstr, get, bind at 1. cbv zeta. destruct (Z.leb_spec (p_sz (me s)) addr).
  - exists None. split; [done|]. right. split; [done|]. lia.
  - destruct (fetchstr_loop_run s addr (Z.to_nat (p_sz (me s) - addr)) Hok ltac:(lia) ltac:(lia) 0) as (r & E & Hr).
    mstep (on_kmem_ret _ s _ E). eexists. split; [done|]. destruct Hr as [(k & -> & H1)|[-> H1]]; [left; by exists k|by right].
Qed.

Lemma tf_esp_run s : tf_esp s = Ret (my_esp s) s.
Proof. unfold tf_esp, get, bind. by apply (on_kmem_ret _ s). Qed.

(** The address of argument [n]. *)
Definition arg_addr (s : kern) (n : Z) : Z := u32 (my_esp s + 4 + 4 * n).

Lemma argint_run s n : user_ok s ->
  argint n s = Ret (if arg_addr s n + 4 <=? p_sz (me s) then Some (i32 (my_word s (arg_addr s n))) else None) s.
Proof.
  intros Hok. unfold argint. mstep (tf_esp_run s). apply fetchint_run; [done|]. apply u32_range.
Qed.

Lemma my_word_range s va : 0 <= my_word s va < 4294967296.
Proof. apply le4_range; apply rd8_range. Qed.

(** C28. Whatever the user's stack pointer and arguments are, fetching the [n]th
    argument does not trap and does not change the kernel: [argint] gives the
    word on the stack if its four bytes lie below the size of the process;
    [argptr] gives the pointer if, moreover, all [size] bytes behind it do, with
    no wrap-around; [argstr] gives a pointer to a string whose NUL lies below
    that size, and fails only if there is none. *)
Theorem args_exact s n size :
  user_ok s -> -2147483648 <= size < 2147483648 ->
  let a := arg_addr s n in
  let w := my_word s a in
  let ok := a + 4 <= p_sz (me s) in
  (exists r, argint n s = Ret r s /\ (ok -> r = Some (i32 w)) /\ (~ ok -> r = None)) /\
  (exists r, argptr n size s = Ret r s /\
     (ok /\ 0 <= size /\ w < p_sz (me s) /\ w + size <= p_sz (me s) -> r = Some w) /\
     (~ (ok /\ 0 <= size /\ w < p_sz (me s) /\ w + size <= p_sz (me s)) -> r = None)) /\
  (exists r, argstr n s = Ret r s /\
     (forall p len, r = Some (p, len) -> ok /\ p = w /\ is_str s w len) /\
     (r = None -> ok -> forall x, w <= x < p_sz (me s) -> my_byte s x <> 0)).
Proof.
  intros Hok Hsize a w ok. pose proof (uo_sz _ Hok) as Hsz. pose proof (my_word_range s a) as Hw. fold w in Hw.
  pose proof (argint_run s n Hok) as Ei. fold a w in Ei.
  assert (Hu : u32 (i32 w) = w) by (rewrite u32_i32; by apply u32_small). unfold ok in *. clear ok.
  split; [|split].
  - eexists. split; [exact Ei|]. destruct (Z.leb_spec (a + 4) (p_sz (me s))); split; intros; done || lia.
  - unfold argptr, get, bind at 1. mstep Ei. destruct (Z.leb_spec (a + 4) (p_sz (me s))).
    + cbv zeta. rewrite Hu. destruct (Z.ltb_spec size 0); cbn [orb]; [eexists; split; [done|]; split; intros; done || lia|].
      destruct (Z.leb_spec (p_sz (me s)) w); cbn [orb]; [eexists; split; [done|]; split; intros; done || lia|].
      rewrite u32_small by lia. destruct (Z.ltb_spec (p_sz (me s)) (w + size));
        (eexists; split; [done|]; split; intros; done || lia).
    + eexists. split; [done|]. split; intros; done || lia.
  - unfold argstr. mstep Ei. destruct (Z.leb_spec (a + 4) (p_sz (me s))).
    + rewrite Hu. destruct (fetchstr_run s w Hok Hw) as (r & E & Hr). exists r. split; [done|].
      destruct Hr as [(len & -> & H1)|[-> H1]]; (split; [|done]); [|done]. intros p len' [= <- <-]. by split_and!.
    + exists None. split; [done|]. split; [done|]. intros; lia.
Qed.

End Args.

(** ** A process of 5000 bytes whose stack pointer is below its end *)

Definition arg_demo : kern :=
  {| kx := {| kf_km := vm1; kf_fs := fs0; pipes := ∅; ftable := []; outst := 0 |};
     kt := {| procs := [setf (Fpgdir (vpage 0)) (setf (Fsz 5000) (setf (Ftf kend0) inhabitant))];
              initproc := None; nextpid := 1 |};
     khw := {| cr3 := 0; esp0 := 0; kpgdir := 0 |};
     kcpu := {| pc := Run; ncli := 0; intena := true; iflag := true; held := [] |}; cur := 0%nat |}.

Lemma arg_demo_ok : user_ok kend0 arg_demo.
Proof.
  destruct vm1_grows as [f Hg]. pose proof (g_us _ _ _ _ _ _ _ _ _ Hg) as Hus. split.
  - change (0 <= 5000 <= 2147483648). lia.
  - exists f, (fun k => false || prange 0 2 k). split; [exact Hus|]. intros k Hk Hlt.
    change (k * PGSIZE < 5000) in Hlt. unfold prange. cbn [orb]. range_cases; done.
Qed.

Lemma args_exact_witness : exists r, argint 0 arg_demo = Ret r arg_demo /\ r = Some (i32 (my_word arg_demo 4)).
Proof.
  destruct (args_exact kend0 arg_demo 0 4 arg_demo_ok ltac:(lia)) as ((r & E & Hr & _) & _).
  exists r. split; [exact E|]. apply Hr. vm_compute. discriminate.
Defined.
