(* ===== verification/Exec.v ===== *)
(** Running a program: xv6-public/exec.c, [loaduvm] of vm.c and [sys_exec] of
    sysfile.c.

    A new address space is built beside the old one and takes its place only at
    the end. The strings of [argv] are those the code reads through the caller's
    pointers; [copyoutb] is [copyout] of vm.c with the source's bytes as a list.

    Theorems: [exec] either fails with -1, leaving the process table as it was,
    or returns 0 and has changed the size, the directory and the name of the
    calling process only; on every path the transaction is closed
    ([exec_all_or_nothing]). The new program finds its arguments: the words and
    strings of [argc] and [argv] on its stack ([exec_args]). *)

From Stdlib Require Import ZArith Lia.
From stdpp Require Import base strings gmap numbers list.
From S2P Require Import Prelude KString Kalloc Vm VmSpec Fs FsAlloc Pipe Spin File Proc ProcOps Syscall.

Open Scope Z_scope.

Abbreviation MAXARG := 32 (only parsing).
Abbreviation ELF_MAGIC := 1179403647 (only parsing).

(** Stores the bytes [l] from [a] on. *)
Fixpoint mput (m : mem) (a : Z) (l : list Z) : mem :=
  match l with
  | [] => m
  | b :: l' => mput (wr8 m a b) (a + 1) l'
  end.

(** ** Headers, as they lie in the file *)

Record elfhdr := {
  eh_magic : Z; eh_elf : list Z; eh_type : Z; eh_machine : Z; eh_version : Z; eh_entry : Z;
  eh_phoff : Z; eh_shoff : Z; eh_flags : Z; eh_ehsize : Z; eh_phentsize : Z; eh_phnum : Z;
  eh_shentsize : Z; eh_shnum : Z; eh_shstrndx : Z }.
Definition elf_parse (l : list Z) : elfhdr :=
  {| eh_magic := get32 l 0; eh_elf := take 12 (drop 4 l); eh_type := get16 l 16; eh_machine := get16 l 18;
     eh_version := get32 l 20; eh_entry := get32 l 24; eh_phoff := get32 l 28; eh_shoff := get32 l 32;
     eh_flags := get32 l 36; eh_ehsize := get16 l 40; eh_phentsize := get16 l 42; eh_phnum := get16 l 44;
     eh_shentsize := get16 l 46; eh_shnum := get16 l 48; eh_shstrndx := get16 l 50 |}.

Record proghdr := {
  ph_type : Z; ph_off : Z; ph_vaddr : Z; ph_paddr : Z; ph_filesz : Z; ph_memsz : Z; ph_flags : Z; ph_align : Z }.
Definition ph_parse (l : list Z) : proghdr :=
  {| ph_type := get32 l 0; ph_off := get32 l 4; ph_vaddr := get32 l 8; ph_paddr := get32 l 12;
     ph_filesz := get32 l 16; ph_memsz := get32 l 20; ph_flags := get32 l 24; ph_align := get32 l 28 |}.

(** The words of [ustack] as bytes. *)
Fixpoint words (l : list Z) : list Z :=
  match l with
  | [] => []
  | w :: l' => byte_of w 0 :: byte_of w 1 :: byte_of w 2 :: byte_of w 3 :: words l'
  end.

(** ** Copying to the new address space *)

Fixpoint copyoutb_loop (fuel : nat) (pgdir va : Z) (src : list Z) : M kmem Z :=
  match src with
  | [] => ret 0
  | _ =>
      match fuel with
      | O => out_of_fuel
      | S f =>
          let va0 := PGROUNDDOWN va in
          let* pa0 := uva2ka pgdir va0 in
          if pa0 =? 0 then ret (-1)
          else
            let n := Z.min (PGSIZE - (va - va0)) (Z.of_nat (length src)) in
            modify (fun s => set_kbytes (mput (kbytes s) (pa0 + (va - va0)) (take (Z.to_nat n) src)) s) ;;;
            copyoutb_loop f pgdir (u32 (va0 + PGSIZE)) (drop (Z.to_nat n) src)
      end
  end.
Definition copyoutb (pgdir va : Z) (src : list Z) : M kmem Z :=
  copyoutb_loop (S (length src)) pgdir va src.

(** The loop over [argv]: the stack pointer and the pointers stored from
    [ustack[3]] on, or none for [goto bad]. *)
Fixpoint push_args (argv : list (list Z)) (argc pgdir sp : Z) (ptrs : list Z) : M kmem (option (Z * list Z)) :=
  match argv with
  | [] => ret (Some (sp, ptrs))
  | a :: argv' =>
      if MAXARG <=? argc then ret None
      else
        let len := Z.of_nat (length a) + 1 in
        let sp := Z.land (u32 (sp - len)) (Z.lnot 3) in
        let* r := copyoutb pgdir sp (a ++ [0]) in
        if r <? 0 then ret None
        else push_args argv' (argc + 1) pgdir sp (ptrs ++ [sp])
  end.

(** The whole argument stack from [sz] down: the final [sp]. *)
Definition build_stack (pgdir sz : Z) (argv : list (list Z)) : M kmem (option Z) :=
  let* r := push_args argv 0 pgdir sz [] in
  match r with
  | None => ret None
  | Some (sp, ptrs) =>
      let argc := Z.of_nat (length ptrs) in
      let ustack := [4294967295; argc; u32 (sp - (argc + 1) * 4)] ++ ptrs ++ [0] in
      let sp := u32 (sp - (3 + argc + 1) * 4) in
      let* r := copyoutb pgdir sp (words ustack) in
      ret (if r <? 0 then None else Some sp)
  end.

(** ** Loading *)

Section Exec.

Variables kend kdata : Z.
Variable devsw_read : Z -> option (nat -> Z -> M fs (Z * list Z)).

Fixpoint loaduvm_loop (fuel : nat) (pgdir addr : Z) (ip : nat) (offset sz i : Z) : M kfile Z :=
  match fuel with
  | O => out_of_fuel
  | S f =>
      if i <? sz then
        let* pte := on_km (walkpgdir pgdir (u32 (addr + i)) false) in
        if pte =? 0 then panic "loaduvm: address should exist"
        else
          let* e := on_km (load pte) in
          let pa := PTE_ADDR e in
          let n := if sz - i <? PGSIZE then sz - i else PGSIZE in
          let* r := on_fs (readi devsw_read ip (u32 (offset + i)) n) in
          on_km (modify (fun s => set_kbytes (mput (kbytes s) (P2V pa) r.2) s)) ;;;
          if negb (r.1 =? n) then ret (-1)
          else loaduvm_loop f pgdir addr ip offset sz (i + PGSIZE)
      else ret 0
  end.
Definition loaduvm (pgdir addr : Z) (ip : nat) (offset sz : Z) : M kfile Z :=
  if negb (addr mod PGSIZE =? 0) then panic "loaduvm: addr must be page aligned"
  else loaduvm_loop (S (S (Z.to_nat (sz / PGSIZE)))) pgdir addr ip offset sz 0.

(** The loop over the program headers, [n] of which are left; the size of the
    image, or none for [goto bad]. *)
Fixpoint load_segs (n : nat) (ip : nat) (pgdir off sz : Z) : M kern (option Z) :=
  match n with
  | O => ret (Some sz)
  | S n' =>
      let* r := on_file (on_fs (readi devsw_read ip (u32 off) 32)) in
      if negb (r.1 =? 32) then ret None
      else
        let ph := ph_parse r.2 in
        if negb (ph_type ph =? 1) then load_segs n' ip pgdir (i32 (off + 32)) sz
        else if ph_memsz ph <? ph_filesz ph then ret None
        else if u32 (ph_vaddr ph + ph_memsz ph) <? ph_vaddr ph then ret None
        else
          let* sz := on_kmem (allocuvm kend pgdir sz (u32 (ph_vaddr ph + ph_memsz ph))) in
          if sz =? 0 then ret None
          else if negb (ph_vaddr ph mod PGSIZE =? 0) then ret None
          else
            let* r := on_file (loaduvm pgdir (ph_vaddr ph) ip (ph_off ph) (ph_filesz ph)) in
            if r <? 0 then ret None else load_segs n' ip pgdir (i32 (off + 32)) (u32 sz)
  end.

(** The exit [bad]; [ip] is null once it has been put. *)
Definition exec_bad (pgdir : Z) (ip : option nat) : M kern Z :=
  (if pgdir =? 0 then ret tt else on_kmem (freevm kend pgdir)) ;;;
  (match ip with
   | Some ip => on_file (on_fs (iunlockput ip)) ;;; on_file end_txn
   | None => ret tt
   end) ;;;
  ret (-1).

(** [last] of the loop over the path: what follows its last slash. *)
Fixpoint last_elem (s last : list Z) : list Z :=
  match s with
  | [] => last
  | c :: s' => if c =? 0 then last else last_elem s' (if c =? 47 then s' else last)
  end.

(** From the point where the image is loaded. *)
Definition exec_commit (path : list Z) (entry pgdir sz sp : Z) : M kern Z :=
  let* s := get in
  let c := cur s in
  kfield c (Fname (name_copy 15 (p_name (me s)) (last_elem path path))) ;;;
  let oldpgdir := p_pgdir (me s) in
  kfield c (Fpgdir pgdir) ;;;
  kfield c (Fsz sz) ;;;
  kstore (p_tf (me s) + TF_eip) entry ;;;
  kstore (p_tf (me s) + TF_esp) sp ;;;
  switchuvm_proc c ;;;
  on_kmem (freevm kend oldpgdir) ;;;
  ret 0.

Definition exec_stack (path : list Z) (argv : list (list Z)) (entry pgdir sz : Z) : M kern Z :=
  let sz := PGROUNDUP sz in
  let* sz := on_kmem (allocuvm kend pgdir sz (u32 (sz + 2 * PGSIZE))) in
  if sz =? 0 then exec_bad pgdir None
  else
    let sz := u32 sz in
    on_kmem (clearpteu pgdir (u32 (sz - 2 * PGSIZE))) ;;;
    let* sp := on_kmem (build_stack pgdir sz argv) in
    match sp with
    | None => exec_bad pgdir None
    | Some sp => exec_commit path entry pgdir sz sp
    end.

Definition exec (path : list Z) (argv : list (list Z)) : M kern Z :=
  on_file begin_txn ;;;
  let* ip := on_file (on_fs (namei devsw_read path)) in
  match ip with
  | None => on_file end_txn ;;; ret (-1)
  | Some ip =>
      on_file (on_fs (ilock ip)) ;;;
      let* r := on_file (on_fs (readi devsw_read ip 0 52)) in
      if negb (r.1 =? 52) then exec_bad 0 (Some ip)
      else
        let elf := elf_parse r.2 in
        if negb (eh_magic elf =? ELF_MAGIC) then exec_bad 0 (Some ip)
        else
          let* pgdir := on_kmem (setupkvm kend kdata) in
          if pgdir =? 0 then exec_bad 0 (Some ip)
          else
            let* sz := load_segs (Z.to_nat (eh_phnum elf)) ip pgdir (i32 (eh_phoff elf)) 0 in
            match sz with
            | None => exec_bad pgdir (Some ip)
            | Some sz =>
                on_file (on_fs (iunlockput ip)) ;;;
                on_file end_txn ;;;
                exec_stack path argv (eh_entry elf) pgdir sz
            end
  end.

(** The bytes of a string of the calling process, with its NUL. *)
Fixpoint read_bytes (n : nat) (pgdir p : Z) : M kmem (list Z) :=
  match n with
  | O => ret []
  | S n' => let* c := vrd8 pgdir p in let* l := read_bytes n' pgdir (p + 1) in ret (c :: l)
  end.
Definition user_str (x : Z * Z) : M kern (list Z) :=
  let* s := get in on_kmem (read_bytes (Z.to_nat x.2) (p_pgdir (me s)) x.1).

(** The loop of [sys_exec] over the user's [argv]; none for -1. *)
Fixpoint fetch_argv (n : nat) (uargv i : Z) : M kern (option (list (list Z))) :=
  match n with
  | O => ret None
  | S n' =>
      let* uarg := fetchint (u32 (uargv + 4 * i)) in
      match uarg with
      | None => ret None
      | Some uarg =>
          if uarg =? 0 then ret (Some [])
          else
            let* p := fetchstr (u32 uarg) in
            match p with
            | None => ret None
            | Some p =>
                let* a := user_str p in
                let* rest := fetch_argv n' uargv (i + 1) in
                ret (match rest with Some l => Some (a :: l) | None => None end)
            end
      end
  end.

Definition sys_exec : M kern Z :=
  let* path := argstr 0 in
  match path with
  | None => ret (-1)
  | Some path =>
      let* uargv := argint 1 in
      match uargv with
      | None => ret (-1)
      | Some uargv =>
          let* argv := fetch_argv (Z.to_nat MAXARG) (u32 uargv) 0 in
          match argv with
          | None => ret (-1)
          | Some argv => let* p := user_str path in exec (p ++ [0]) argv
          end
      end
  end.

(** ** All or nothing *)

(** What is followed through [exec]: the process table, the running process,
    its processor's locks and the open transactions. *)
Definition kst (t : ptab) (c : nat) (l : cpu) (d : Z) (s : kern) : Prop :=
  kt s = t /\ cur s = c /\ kcpu s = l /\ outst (kx s) = d.

Lemma kst_kmem {A} t c l d (m : M kmem A) : triple (kst t c l d) (on_kmem m) (fun _ => kst t c l d).
Proof.
  intros s a s' H E. unfold on_kmem, part in E. destruct (m _); simplify_eq. exact H.
Qed.

Lemma kst_file {A} t c l d d' (m : M kfile A) :
  triple (fun x => outst x = d) m (fun _ x => outst x = d') ->
  triple (kst t c l d) (on_file m) (fun _ => kst t c l d').
Proof.
  intros Hm s a s' (H1 & H2 & H3 & H4) E. unfold on_file, part in E. destruct (m (fs_me s)) eqn:Em; simplify_eq.
  eapply Hm in Em; [|done]. done.
Qed.

Lemma outst_fs {A} d (m : M fs A) : triple (fun x => outst x = d) (on_fs m) (fun _ x => outst x = d).
Proof. intros s a s' H E. unfold on_fs, part in E. destruct (m _); simplify_eq; done. Qed.
Lemma outst_km {A} d (m : M kmem A) : triple (fun x => outst x = d) (on_km m) (fun _ x => outst x = d).
Proof. intros s a s' H E. unfold on_km, part in E. destruct (m _); simplify_eq; done. Qed.

Lemma kst_fs {A} t c l d (m : M fs A) : triple (kst t c l d) (on_file (on_fs m)) (fun _ => kst t c l d).
Proof. apply kst_file, outst_fs. Qed.
Lemma kst_begin t c l d : triple (kst t c l d) (on_file begin_txn) (fun _ => kst t c l (d + 1)).
Proof.
  apply kst_file. eapply triple_bind; [apply outst_fs|]. intros ?. apply triple_modify. cbn. lia.
Qed.
Lemma kst_end t c l d : triple (kst t c l (d + 1)) (on_file end_txn) (fun _ => kst t c l d).
Proof.
  apply kst_file. eapply triple_bind; [apply outst_fs|]. intros ?. apply triple_modify. cbn. lia.
Qed.

Ltac out_leaf := first [apply outst_fs | apply outst_km].

Lemma loaduvm_outst d pgdir addr ip offset sz :
  triple (fun x => outst x = d) (loaduvm pgdir addr ip offset sz) (fun _ x => outst x = d).
Proof.
  unfold loaduvm. generalize (S (S (Z.to_nat (sz / PGSIZE)))) as fuel. intros fuel.
  assert (H : forall i, triple (fun x => outst x = d) (loaduvm_loop fuel pgdir addr ip offset sz i) (fun _ x => outst x = d)).
  { induction fuel as [|fuel IH]; intros i; cbn [loaduvm_loop]; walk ltac:(first [out_leaf | apply IH]) ltac:(done). }
  walk ltac:(apply H) ltac:(done).
Qed.

Lemma load_segs_kst t c l d n : forall ip pgdir off sz,
  triple (kst t c l d) (load_segs n ip pgdir off sz) (fun _ => kst t c l d).
Proof.
  induction n as [|n IH]; intros ip pgdir off sz; cbn [load_segs];
    walk ltac:(first [apply kst_kmem | apply kst_fs | apply kst_file, loaduvm_outst | apply IH]) ltac:(done).
Qed.

(** What a call of [exec] leaves behind. *)
Definition exec_post (t : ptab) (c : nat) (l : cpu) (d r : Z) (s : kern) : Prop :=
  cur s = c /\ kcpu s = l /\ outst (kx s) = d /\
  ((r = -1 /\ kt s = t) \/
   (r = 0 /\ exists name pgdir sz, kt s = store_f c (Fsz sz) (store_f c (Fpgdir pgdir) (store_f c (Fname name) t)))).

Lemma exec_bad_none t c l d pgdir : triple (kst t c l d) (exec_bad pgdir None) (exec_post t c l d).
Proof.
  unfold exec_bad. walk ltac:(apply kst_kmem) ltac:(unfold kst, exec_post; naive_solver).
Qed.

Lemma exec_bad_some t c l d pgdir ip : triple (kst t c l (d + 1)) (exec_bad pgdir (Some ip)) (exec_post t c l d).
Proof.
  unfold exec_bad.
  walk ltac:(first [apply kst_kmem | apply kst_fs | apply kst_end
    | eapply triple_bind; [apply kst_fs|intros; apply kst_end]]) ltac:(unfold kst, exec_post; naive_solver).
Qed.

Lemma kst_kfield t c l d i f : triple (kst t c l d) (kfield i f) (fun _ => kst (store_f i f t) c l d).
Proof. intros s a s' (H1 & H2 & H3 & H4) E. unfold kfield, on_pt, modify in E. simplify_eq. done. Qed.

Lemma kst_switch t c l d p : triple (kst t c l d) (switchuvm_proc p) (fun _ => kst t c l d).
Proof.
  unfold switchuvm_proc. intros s a s' H E. unfold bind, get in E. destruct (switchuvm _ _ _); [done|].
  unfold modify in E. simplify_eq. exact H.
Qed.

Lemma exec_commit_post t c l d path entry pgdir sz sp :
  triple (kst t c l d) (exec_commit path entry pgdir sz sp) (exec_post t c l d).
Proof.
  unfold exec_commit. eapply (triple_bind _ (fun a s => cur a = c /\ kst t c l d s)).
  { apply triple_get. intros s H. split; [apply H|done]. }
  intros s0. apply triple_assume. intros ->. cbv zeta.
  eapply triple_bind; [apply kst_kfield|]. intros ?. eapply triple_bind; [apply kst_kfield|]. intros ?.
  eapply triple_bind; [apply kst_kfield|]. intros ?. unfold kstore.
  walk ltac:(first [apply kst_kmem | apply kst_switch]) ltac:(unfold kst, exec_post; naive_solver).
Qed.

Lemma exec_stack_post t c l d path argv entry pgdir sz :
  triple (kst t c l d) (exec_stack path argv entry pgdir sz) (exec_post t c l d).
Proof.
  unfold exec_stack.
  walk ltac:(first [apply kst_kmem | apply exec_bad_none | apply exec_commit_post]) ltac:(done).
Qed.

(** C15. [exec] is all or nothing: when it returns -1 the process table is as
    before the call; when it returns 0 exactly the name, the directory and the
    size of the calling process have changed. In both cases, on every path, the
    transaction it opened is closed and the processor's locks are as before. *)
Theorem exec_all_or_nothing path argv s r s' :
  exec path argv s = Ret r s' ->
  cur s' = cur s /\ kcpu s' = kcpu s /\ outst (kx s') = outst (kx s) /\
  ((r = -1 /\ kt s' = kt s) \/
   (r = 0 /\ exists name pgdir sz,
      kt s' = store_f (cur s) (Fsz sz) (store_f (cur s) (Fpgdir pgdir) (store_f (cur s) (Fname name) (kt s))))).
Proof.
  intros E. enough (H : triple (kst (kt s) (cur s) (kcpu s) (outst (kx s))) (exec path argv)
                          (exec_post (kt s) (cur s) (kcpu s) (outst (kx s)))) by (by eapply H).
  clear E. generalize (kt s) (cur s) (kcpu s) (outst (kx s)). clear. intros t c l d. unfold exec.
  eapply triple_bind; [apply kst_begin|]. intros ?. eapply triple_bind; [apply kst_fs|]. intros ip.
  destruct ip as [ip|].
  2:{ eapply triple_bind; [apply kst_end|]. intros ?. apply triple_ret. unfold kst, exec_post. naive_solver. }
  assert (Hbad : forall pgdir, triple (kst t c l (d + 1)) (exec_bad pgdir (Some ip)) (exec_post t c l d))
    by (intros; apply exec_bad_some).
  eapply triple_bind; [apply kst_fs|]. intros ?. eapply triple_bind; [apply kst_fs|]. intros x.
  destruct (negb (x.1 =? 52)); [apply Hbad|]. destruct (negb _); [apply Hbad|].
  eapply triple_bind; [apply kst_kmem|]. intros pgdir. destruct (pgdir =? 0); [apply Hbad|].
  eapply triple_bind; [apply load_segs_kst|]. intros [sz|]; [|apply Hbad].
  eapply triple_bind; [apply kst_fs|]. intros ?. eapply triple_bind; [apply kst_end|]. intros ?. apply exec_stack_post.
Qed.

End Exec.

(** ** The argument stack *)

Section Arguments.

Variable kend : Z.
Hypothesis kend_high : KERNLINK <= kend.

Lemma mput_spec l : forall m a x,
  rd8 (mput m a l) x = if (a <=? x) && (x <? a + Z.of_nat (length l)) then u8 (default 0 (l !! Z.to_nat (x - a))) else rd8 m x.
Proof.
  induction l as [|b l IH]; intros m a x; cbn [mput length].
  - range_cases; done.
  - rewrite IH, rd8_wr8. destruct (Z.eqb_spec a x) as [->|Hne].
    + replace (x - x) with 0 by lia. range_cases; done.
    + destruct (Z.leb_spec (a + 1) x).
      * replace (Z.to_nat (x - a)) with (S (Z.to_nat (x - (a + 1)))) by lia. cbn [lookup list_lookup andb]. range_cases; done.
      * range_cases; done.
Qed.

Lemma ubyte_mput s pgdir free P k va l :
  us_ok kend s pgdir free P -> 0 <= k < 524288 -> P k = true -> Forall (fun b => 0 <= b < 256) l ->
  k * PGSIZE <= va -> va + Z.of_nat (length l) <= (k + 1) * PGSIZE ->
  let v := upg (kbytes s) pgdir k in
  let m1 := mput (kbytes s) (v + (va - k * PGSIZE)) l in
  us_ok kend (set_kbytes m1 s) pgdir free P /\
  (forall x, pte_at m1 pgdir x = pte_at (kbytes s) pgdir x) /\
  (forall x, 0 <= x < KERNBASE -> P (x / PGSIZE) = true ->
     ubyte m1 pgdir x = if (va <=? x) && (x <? va + Z.of_nat (length l))
                        then default 0 (l !! Z.to_nat (x - va)) else ubyte (kbytes s) pgdir x).
Proof.
  intros Hus Hk HPk Hb Hlo Hhi v m1.
  assert (Hout1 : forall a, ~ inpg v a -> rd8 m1 a = rd8 (kbytes s) a).
  { unfold inpg. intros a Ha. unfold m1. rewrite mput_spec. range_cases; done. }
  destruct (us_ok_upage kend s m1 pgdir free P k Hus Hk HPk Hout1) as [Hus1 Hpte1].
  split_and!; try done. intros x Hx HPx.
  assert (Hxk : 0 <= x / PGSIZE < 524288) by dlia.
  assert (Hg : upg m1 pgdir (x / PGSIZE) = upg (kbytes s) pgdir (x / PGSIZE)) by (unfold upg, upte; by rewrite Hpte1).
  unfold ubyte. rewrite Hg. destruct (decide (x / PGSIZE = k)) as [E|E].
  - rewrite E. fold v. unfold m1. rewrite mput_spec.
    assert (x = k * PGSIZE + x mod PGSIZE) as Hxm by dlia.
    replace (v + x mod PGSIZE - (v + (va - k * PGSIZE))) with (x - va) by lia.
    range_cases; try done. apply u8_small.
    destruct (l !! Z.to_nat (x - va)) eqn:El; [|apply lookup_ge_None in El; lia].
    cbn. rewrite Forall_forall in Hb. apply Hb. by eapply list_elem_of_lookup_2.
  - destruct (us_page _ _ _ _ _ Hus k Hk HPk) as (Hv & _). destruct (us_page _ _ _ _ _ Hus _ Hxk HPx) as (Hvx & _).
    assert (upg (kbytes s) pgdir (x / PGSIZE) <> v) as Hne by (intros Ex; apply E; by apply (us_inj _ _ _ _ _ Hus)).
    rewrite Hout1; [range_cases; try done; dlia|].
    apply (page_disjoint kend (upg (kbytes s) pgdir (x / PGSIZE))); try done. unfold inpg. dlia.
Qed.

(** A copy that stays within one accessible page. *)
Lemma copyoutb_page s pgdir free P k va l :
  us_ok kend s pgdir free P -> 0 <= k < 524288 -> uacc (kbytes s) pgdir k = true ->
  Forall (fun b => 0 <= b < 256) l -> l <> [] -> k * PGSIZE <= va -> va + Z.of_nat (length l) <= (k + 1) * PGSIZE ->
  exists s', copyoutb pgdir va l s = Ret 0 s' /\ us_ok kend s' pgdir free P /\
    (forall x, pte_at (kbytes s') pgdir x = pte_at (kbytes s) pgdir x) /\
    (forall x, 0 <= x < KERNBASE -> P (x / PGSIZE) = true ->
       ubyte (kbytes s') pgdir x = if (va <=? x) && (x <? va + Z.of_nat (length l))
                                   then default 0 (l !! Z.to_nat (x - va)) else ubyte (kbytes s) pgdir x).
Proof.
  intros Hus Hk Hacc Hb Hne Hlo Hhi.
  assert (Hlen : 1 <= Z.of_nat (length l)) by (destruct l; [done|cbn; lia]).
  assert (HPk : P k = true).
  { rewrite <- (us_map _ _ _ _ _ Hus k Hk). unfold uacc in Hacc. by apply andb_true_iff in Hacc as [? _]. }
  assert (Hslot : slot (kbytes s) pgdir (k * PGSIZE) <> 0).
  { rewrite (slot_zero kend kend_high _ _ _ _ (us_pt _ _ _ _ _ Hus)). intros E. unfold uacc, upte, pte_at in Hacc. by rewrite E in Hacc. }
  destruct (PGROUNDDOWN_spec va ltac:(lia)) as [Hm Hr].
  assert (Hk0 : PGROUNDDOWN va = k * PGSIZE) by dlia.
  destruct (us_page _ _ _ _ _ Hus k Hk HPk) as (Hv & _). pose proof (page_range kend kend_high _ Hv) as [Hvr _].
  destruct (ubyte_mput s pgdir free P k va l Hus Hk HPk Hb Hlo Hhi) as (Hus1 & Hpte1 & Hb1).
  eexists. split; [|split; [exact Hus1|split; [exact Hpte1|exact Hb1]]].
  unfold copyoutb. cbn [copyoutb_loop]. destruct l as [|b l]; [done|]. rewrite Hk0.
  mstep (uva2ka_run kend kend_high pgdir k s free P Hus Hk Hslot). rewrite Hacc.
  destruct (Z.eqb_spec (upg (kbytes s) pgdir k) 0); [lia|]. unfold modify, bind at 1.
  rewrite Z.min_r, Nat2Z.id, take_ge, drop_ge by lia. by destruct (length _).
Qed.

Lemma land_lnot3 x : Z.land x (Z.lnot 3) = x - x mod 4.
Proof.
  change 3 with (Z.ones 2). rewrite <- Z.ldiff_land, Z.ldiff_ones_r by lia.
  rewrite Z.shiftl_mul_pow2, Z.shiftr_div_pow2 by lia. change (2 ^ 2) with 4. dlia.
Qed.

(** The bytes of [a] with its NUL lie at [q]. *)
Definition str_at (m : mem) (pgdir q : Z) (a : list Z) : Prop :=
  forall j c, (a ++ [0]) !! j = Some c -> ubyte m pgdir (q + Z.of_nat j) = c.

(** The most that the strings need, alignment included. *)
Fixpoint need (argv : list (list Z)) : Z :=
  match argv with [] => 0 | a :: argv' => Z.of_nat (length a) + 4 + need argv' end.

Lemma need_pos argv : 0 <= need argv.
Proof. induction argv; cbn [need]; lia. Qed.

Section Stack.
Variables (pgdir : Z) (free : list Z) (P : Z -> bool) (k : Z).
Hypothesis Hk : 0 <= k < 524288.
Hypothesis HPk : P k = true.

(** Memory as before outside the part of the page from [lo] to [hi]. *)
Definition stack_frame (s s' : kmem) (lo hi : Z) : Prop :=
  us_ok kend s' pgdir free P /\ (forall x, pte_at (kbytes s') pgdir x = pte_at (kbytes s) pgdir x) /\
  forall x, 0 <= x < KERNBASE -> P (x / PGSIZE) = true -> ~ (lo <= x < hi) ->
    ubyte (kbytes s') pgdir x = ubyte (kbytes s) pgdir x.

Lemma stack_frame_trans s s1 s2 lo mid hi :
  stack_frame s s1 mid hi -> stack_frame s1 s2 lo mid -> lo <= mid <= hi -> stack_frame s s2 lo hi.
Proof.
  intros (_ & Hp1 & Hb1) (Hus & Hp2 & Hb2) Hle. split; [done|]. split; [intros x; by rewrite Hp2|].
  intros x Hx HPx Hn. rewrite Hb2, Hb1 by (done || lia). done.
Qed.

Lemma uacc_frame s s' lo hi j : stack_frame s s' lo hi -> uacc (kbytes s') pgdir j = uacc (kbytes s) pgdir j.
Proof. intros (_ & Hp & _). unfold uacc, upte. by rewrite Hp. Qed.

Lemma in_page x : k * PGSIZE <= x < (k + 1) * PGSIZE -> 0 <= x < KERNBASE /\ P (x / PGSIZE) = true.
Proof. intros Hx. assert (x / PGSIZE = k) as -> by dlia. split; [lia|done]. Qed.

(** Pushing one string. *)
Lemma push_one s sp a :
  us_ok kend s pgdir free P -> uacc (kbytes s) pgdir k = true -> Forall (fun b => 0 <= b < 256) a ->
  sp mod 4 = 0 -> k * PGSIZE <= sp - (Z.of_nat (length a) + 4) -> sp <= (k + 1) * PGSIZE ->
  let sp1 := Z.land (u32 (sp - (Z.of_nat (length a) + 1))) (Z.lnot 3) in
  exists s1, copyoutb pgdir sp1 (a ++ [0]) s = Ret 0 s1 /\ stack_frame s s1 sp1 sp /\
    str_at (kbytes s1) pgdir sp1 a /\ sp1 mod 4 = 0 /\
    sp - (Z.of_nat (length a) + 4) <= sp1 /\ sp1 + Z.of_nat (length a) + 1 <= sp.
Proof.
  intros Hus Hacc Hb Hm Hlo Hhi sp1.
  assert (Hsp1 : sp1 = (sp - (Z.of_nat (length a) + 1)) - (sp - (Z.of_nat (length a) + 1)) mod 4).
  { unfold sp1. rewrite u32_small by lia. apply land_lnot3. }
  assert (Hr : sp - (Z.of_nat (length a) + 4) <= sp1 /\ sp1 + Z.of_nat (length a) + 1 <= sp /\ sp1 mod 4 = 0) by dlia.
  destruct (copyoutb_page s pgdir free P k sp1 (a ++ [0]) Hus Hk Hacc) as (s1 & E & Hus1 & Hp1 & Hb1).
  { apply Forall_app. split; [done|]. constructor; [lia|done]. }
  { by destruct a. }
  { lia. }
  { rewrite length_app. cbn. lia. }
  rewrite length_app in Hb1. cbn [length] in Hb1.
  exists s1. split; [done|]. split; [split; [done|split; [done|]]|split; [|lia]].
  - intros x Hx HPx Hn. rewrite Hb1 by done. range_cases; done.
  - intros j c Hj. pose proof (lookup_lt_Some _ _ _ Hj) as Hlt. rewrite length_app in Hlt. cbn in Hlt.
    destruct (in_page (sp1 + Z.of_nat j)) as [Hx HPx]; [lia|]. rewrite Hb1 by done.
    replace (Z.to_nat (sp1 + Z.of_nat j - sp1)) with j by lia. rewrite Hj. range_cases; done.
Qed.

Lemma push_args_ok argv : forall argc sp ptrs s,
  us_ok kend s pgdir free P -> uacc (kbytes s) pgdir k = true -> Forall (Forall (fun b => 0 <= b < 256)) argv ->
  sp mod 4 = 0 -> k * PGSIZE <= sp - need argv -> sp <= (k + 1) * PGSIZE ->
  argc + Z.of_nat (length argv) <= MAXARG ->
  exists s' sp' qs, push_args argv argc pgdir sp ptrs s = Ret (Some (sp', ptrs ++ qs)) s' /\
    stack_frame s s' sp' sp /\ sp' mod 4 = 0 /\ sp - need argv <= sp' <= sp /\ length qs = length argv /\
    forall i a q, argv !! i = Some a -> qs !! i = Some q ->
      sp' <= q /\ q + Z.of_nat (length a) + 1 <= sp /\ str_at (kbytes s') pgdir q a.
Proof.
  induction argv as [|a argv IH]; intros argc sp ptrs s Hus Hacc Hb Hm Hlo Hhi Hc; cbn [push_args need length] in *.
  - exists s, sp, []. rewrite app_nil_r. split_and!; try done; lia.
  - apply Forall_cons in Hb as [Ha Hb]. pose proof (need_pos argv).
    destruct (Z.leb_spec MAXARG argc); [lia|].
    destruct (push_one s sp a Hus Hacc Ha Hm ltac:(lia) Hhi) as (s1 & E1 & Hf1 & Hs1 & Hm1 & Hlo1 & Hhi1).
    cbv zeta. set (sp1 := Z.land _ _) in *. mstep E1. cbn [Z.ltb Z.compare].
    destruct (IH (argc + 1) sp1 (ptrs ++ [sp1]) s1) as (s' & sp' & qs & E & Hf & Hm' & Hr & Hl & Hstr); try done; try lia.
    { apply Hf1. } { by rewrite (uacc_frame _ _ _ _ _ Hf1). }
    exists s', sp', (sp1 :: qs). rewrite <- app_assoc in E. split; [done|].
    split; [eapply stack_frame_trans; [done..|lia]|]. split; [done|]. split; [lia|]. split; [cbn; lia|].
    intros [|i] a' q Hi Hq; cbn in Hi, Hq.
    + injection Hi as <-. injection Hq as <-. split; [lia|]. split; [lia|]. intros j c Hj.
      pose proof (lookup_lt_Some _ _ _ Hj) as Hlt. rewrite length_app in Hlt. cbn in Hlt.
      destruct (in_page (sp1 + Z.of_nat j)) as [Hx HPx]; [lia|].
      destruct Hf as (_ & _ & Hfb). rewrite Hfb by (done || lia). by apply Hs1.
    + destruct (Hstr i a' q Hi Hq) as (? & ? & ?). split_and!; [lia|lia|done].
Qed.

Lemma length_words l : length (words l) = (4 * length l)%nat.
Proof. induction l; cbn; lia. Qed.

Lemma lookup_words l : forall i j w, l !! i = Some w -> (j < 4)%nat -> words l !! (4 * i + j)%nat = Some (byte_of w (Z.of_nat j)).
Proof.
  induction l as [|v l IH]; intros [|i] j w Hi Hj; cbn in Hi; simplify_eq.
  - destruct j as [|[|[|[|j]]]]; try done; lia.
  - replace (4 * S i + j)%nat with (S (S (S (S (4 * i + j))))) by lia. cbn [words]. by apply IH.
Qed.

Lemma words_bytes l : Forall (fun b => 0 <= b < 256) (words l).
Proof. induction l; cbn; [done|]. repeat (constructor; [apply byte_of_range|]). done. Qed.

(** The word at user address [va]. *)
Definition uword (m : mem) (va : Z) : Z :=
  le4 (ubyte m pgdir va) (ubyte m pgdir (va + 1)) (ubyte m pgdir (va + 2)) (ubyte m pgdir (va + 3)).

End Stack.

(** Reading back the words of a copy. *)
Lemma uword_copied m pgdir sp l i w :
  (forall x, sp <= x < sp + Z.of_nat (length (words l)) -> ubyte m pgdir x = default 0 (words l !! Z.to_nat (x - sp))) ->
  l !! i = Some w -> 0 <= w < 4294967296 -> uword pgdir m (sp + 4 * Z.of_nat i) = w.
Proof.
  intros H Hi Hw. pose proof (lookup_lt_Some _ _ _ Hi) as Hlt. rewrite length_words in H.
  assert (Hj : forall j, (j < 4)%nat -> ubyte m pgdir (sp + 4 * Z.of_nat i + Z.of_nat j) = byte_of w (Z.of_nat j)).
  { intros j Hj. rewrite H by lia. replace (Z.to_nat _) with (4 * i + j)%nat by lia. by rewrite (lookup_words _ _ _ _ Hi Hj). }
  pose proof (Hj 0%nat ltac:(lia)) as J0. pose proof (Hj 1%nat ltac:(lia)) as J1.
  pose proof (Hj 2%nat ltac:(lia)) as J2. pose proof (Hj 3%nat ltac:(lia)) as J3.
  change (Z.of_nat 0) with 0 in J0. change (Z.of_nat 1) with 1 in J1. change (Z.of_nat 2) with 2 in J2.
  change (Z.of_nat 3) with 3 in J3. rewrite Z.add_0_r in J0.
  unfold uword. rewrite J0, J1, J2, J3, le4_byte_of. by apply u32_small.
Qed.

(** The stack that [exec] builds in the last page of the new program: if there
    are at most MAXARG arguments and they fit the page, [main] finds the fake
    return address, [argc], and in [argv] one pointer for each argument, to a
    copy of its bytes with a NUL behind, and a null pointer at the end. Nothing
    outside the used part of the page changes. *)
Theorem exec_args pgdir free P k argv s :
  us_ok kend s pgdir free P -> 0 <= k < 524288 -> uacc (kbytes s) pgdir k = true ->
  Forall (Forall (fun b => 0 <= b < 256)) argv -> Z.of_nat (length argv) <= MAXARG ->
  need argv + 4 * (Z.of_nat (length argv) + 4) <= PGSIZE ->
  let sz := (k + 1) * PGSIZE in
  exists s' sp, build_stack pgdir sz argv s = Ret (Some sp) s' /\ sz - PGSIZE <= sp < sz /\
    uword pgdir (kbytes s') sp = 4294967295 /\
    uword pgdir (kbytes s') (sp + 4) = Z.of_nat (length argv) /\
    uword pgdir (kbytes s') (sp + 8) = sp + 12 /\
    (forall i a, argv !! i = Some a -> str_at (kbytes s') pgdir (uword pgdir (kbytes s') (sp + 12 + 4 * Z.of_nat i)) a) /\
    uword pgdir (kbytes s') (sp + 12 + 4 * Z.of_nat (length argv)) = 0 /\
    stack_frame pgdir free P s s' sp sz.
Proof.
  intros Hus Hk Hacc Hb Hmax Hneed sz.
  assert (HPk : P k = true).
  { rewrite <- (us_map _ _ _ _ _ Hus k Hk). unfold uacc in Hacc. by apply andb_true_iff in Hacc as [? _]. }
  destruct (push_args_ok pgdir free P k Hk HPk argv 0 sz [] s Hus Hacc Hb) as
    (s1 & sp1 & qs & E1 & Hf1 & Hm1 & Hr1 & Hl & Hstr); try (unfold sz in *; lia || dlia).
  unfold build_stack. mstep E1. cbn [app]. rewrite Hl. set (argc := Z.of_nat (length argv)) in *.
  rewrite (u32_small (sp1 - (argc + 1) * 4)), (u32_small (sp1 - (3 + argc + 1) * 4)) by (unfold sz in *; lia).
  set (us := 4294967295 :: argc :: (sp1 - (argc + 1) * 4) :: qs ++ [0]).
  set (sp := sp1 - (3 + argc + 1) * 4).
  assert (Hlen : length us = (length argv + 4)%nat) by (unfold us; cbn; rewrite length_app, Hl; cbn; lia).
  assert (Hlw : Z.of_nat (length (words us)) = 4 * (argc + 4)) by (rewrite length_words, Hlen; lia).
  destruct (copyoutb_page s1 pgdir free P k sp (words us)) as (s2 & E2 & Hus2 & Hp2 & Hb2); try done.
  { apply Hf1. } { by rewrite (uacc_frame _ _ _ _ _ _ _ _ Hf1). } { apply words_bytes. } { unfold sp, sz in *; lia. } { unfold sp, sz in *; lia. }
  mstep E2. cbn [Z.ltb Z.compare]. exists s2, sp. split; [done|].
  assert (Hf2 : stack_frame pgdir free P s1 s2 sp sp1).
  { split; [done|]. split; [done|]. intros x Hx HPx Hn. rewrite Hb2 by done. unfold sp in *. range_cases; done. }
  assert (Hw : forall i w, us !! i = Some w -> 0 <= w < 4294967296 -> uword pgdir (kbytes s2) (sp + 4 * Z.of_nat i) = w).
  { intros i w Hi Hwr. eapply uword_copied; [|exact Hi|exact Hwr]. intros x Hx.
    destruct (in_page P k Hk HPk x) as [Hx1 Hx2]; [unfold sp, sz in *; lia|]. rewrite (Hb2 x Hx1 Hx2). range_cases; done. }
  split; [unfold sp, sz in *; lia|].
  split. { rewrite <- (Hw 0%nat 4294967295); [f_equal; lia|done|lia]. }
  split. { rewrite <- (Hw 1%nat argc); [f_equal; lia|done|lia]. }
  split. { replace (sp + 8) with (sp + 4 * Z.of_nat 2) by lia.
    rewrite (Hw 2%nat (sp1 - (argc + 1) * 4)); [unfold sp; lia|done|unfold sz in *; lia]. }
  assert (Hqi : forall i q, qs !! i = Some q -> us !! (3 + i)%nat = Some q).
  { intros i q Hq. change (us !! (3 + i)%nat) with ((qs ++ [0]) !! i). by rewrite lookup_app_l by (by eapply lookup_lt_Some). }
  split.
  { intros i a Hi. destruct (qs !! i) as [q|] eqn:Hq.
    2:{ apply lookup_ge_None in Hq. apply lookup_lt_Some in Hi. lia. }
    destruct (Hstr i a q Hi Hq) as (Hq1 & Hq2 & Hs). specialize (Hw _ _ (Hqi _ _ Hq)).
    replace (sp + 12 + 4 * Z.of_nat i) with (sp + 4 * Z.of_nat (3 + i)) by lia.
    rewrite Hw by (unfold sz in *; lia). intros j c Hj. destruct Hf2 as (_ & _ & Hf2).
    pose proof (lookup_lt_Some _ _ _ Hj) as Hlt. rewrite length_app in Hlt. cbn in Hlt.
    destruct (in_page P k Hk HPk (q + Z.of_nat j)) as [Hx1 Hx2]; [unfold sz in *; lia|].
    rewrite (Hf2 _ Hx1 Hx2) by lia. by apply Hs. }
  split.
  { rewrite <- (Hw (3 + length argv)%nat 0); [f_equal; lia| |lia]. change (us !! (3 + length argv)%nat) with ((qs ++ [0]) !! length argv). rewrite lookup_app_r by lia. by rewrite Hl, Nat.sub_diag. }
  eapply stack_frame_trans; [done..|]. unfold sp, sz in *. lia.
Qed.

End Arguments.

(** ** Examples *)

Lemma exec_args_witness : exists s' sp,
  build_stack (vpage 0) (2 * PGSIZE) [[101; 99; 104; 111]; [104; 105]] vm1 = Ret (Some sp) s' /\
  uword (vpage 0) (kbytes s') (sp + 4) = 2 /\
  str_at (kbytes s') (vpage 0) (uword (vpage 0) (kbytes s') (sp + 16)) [104; 105].
Proof.
  destruct vm1_grows as [f Hg]. pose proof (g_us _ _ _ _ _ _ _ _ _ Hg) as Hus.
  destruct (exec_args kend0 kend0_high (vpage 0) f _ 1 [[101; 99; 104; 111]; [104; 105]] vm1 Hus)
    as (s' & sp & E & _ & _ & Hc & _ & Hs & _).
  - lia.
  - vm_compute. reflexivity.
  - repeat (constructor; try lia).
  - cbn. lia.
  - cbn. lia.
  - exists s', sp. split; [exact E|]. split; [exact Hc|]. replace (sp + 16) with (sp + 12 + 4 * Z.of_nat 1) by lia.
    by apply Hs.
Defined.

(** A program that does not exist. *)
Lemma exec_missing : exists s', exec kend0 0 (fun _ => None) [47; 120; 0] [] kern_demo = Ret (-1) s'.
Proof.
  assert (H : match exec kend0 0 (fun _ => None) [47; 120; 0] [] kern_demo with Ret r _ => r =? -1 | _ => false end = true)
    by (vm_compute; reflexivity).
  destruct (exec _ _ _ _ _ _) as [r s'| | |]; try done. apply Z.eqb_eq in H as ->. eauto.
Qed.

Lemma exec_all_or_nothing_witness : exists s',
  exec kend0 0 (fun _ => None) [47; 120; 0] [] kern_demo = Ret (-1) s' /\ kt s' = kt kern_demo.
Proof.
  destruct exec_missing as (s' & E). exists s'. split; [exact E|].
  destruct (exec_all_or_nothing kend0 0 (fun _ => None) [47; 120; 0] [] kern_demo (-1) s' E) as (_ & _ & _ & [[_ H]|[H _]]); [exact H|discriminate H].
Defined.
