(* ===== verification/Trap.v ===== *)
(** System calls and traps: [syscall] of syscall.c, the handlers of sysproc.c,
    and [trap] of trap.c.

    The handlers of sysfile.c (Sysfile.v) work on the files of one process; here
    they get their arguments from the user's stack (Syscall.v), run on the
    calling process, and store their results in its memory. A handler that
    blocks ends in [Sleep]; what follows it in [trap] is [trap_sysret]. The
    [yield] of a timer interrupt is followed to its end: [others] is what the
    rest of the system does between the switch away and the switch back.

    Theorems: a process that has been killed never gets back to user mode
    ([no_killed_return]); a number without a handler changes nothing but the
    result register ([unknown_syscall]); [sleep] does not return early, and for a
    negative argument waits half the range of the clock ([sleep_not_early]). *)

From Stdlib Require Import ZArith Lia.
From stdpp Require Import base strings gmap numbers list.
From S2P Require Import Prelude KString Kalloc Vm Fs Pipe Spin File Sysfile Proc Syscall Exec.

Open Scope Z_scope.

(** ** The state *)

(** The kernel, the clock, whether this processor runs no process, and its
    number. *)
Record tsys := { tk : kern; ticks : Z; idle : bool; cpuid : Z }.

Definition set_tk (x : kern) (s : tsys) : tsys := {| tk := x; ticks := ticks s; idle := idle s; cpuid := cpuid s |}.
Definition set_ticks (x : Z) (s : tsys) : tsys := {| tk := tk s; ticks := x; idle := idle s; cpuid := cpuid s |}.
Definition on_k {A} (m : M kern A) : M tsys A := part tk set_tk m.

(** [tickslock], and the channel [&ticks]. *)
Definition TICKS : nat := 1.
Definition ticks_chan : chan := ("ticks"%string, 0).

(** A user address as a channel. *)
Definition user_chan (a : Z) : chan := ("user"%string, a).

(** ** File system calls on the calling process *)

Definition usys_of (s : kern) : usys :=
  {| uf := fs_me s; ofile := p_ofile (me s); ukilled := p_killed (me s) |}.
Definition put_usys (u : usys) (s : kern) : kern :=
  let t := store_f (cur s) (Fofile (ofile u)) (kt s) in
  let t := store_f (cur s) (Fcwd (match p_cwd (me s) with
                                  | Some _ => Some (cwd (kf_fs (uf u)))
                                  | None => None
                                  end)) t in
  set_kt t (set_kx (uf u) s).
Definition on_usys {A} (m : M usys A) : M kern A := part usys_of put_usys m.

(** The path or string of argument [n], with its NUL. *)
Definition arg_path (n : Z) : M kern (option (list Z)) :=
  let* a := argstr n in
  match a with
  | None => ret None
  | Some a => let* l := user_str a in ret (Some (l ++ [0]))
  end.

(** [argint(n, &len)] and [argptr(p, &buf, len)]. *)
Definition arg_buf (p n : Z) : M kern (option (Z * Z)) :=
  let* len := argint n in
  match len with
  | None => ret None
  | Some len =>
      let* a := argptr p len in
      ret (match a with Some a => Some (a, len) | None => None end)
  end.

Definition user_put (va : Z) (l : list Z) : M kern unit :=
  let* s := get in on_kmem (vput (p_pgdir (me s)) va l).
Definition user_get (va n : Z) : M kern (list Z) :=
  let* s := get in on_kmem (read_bytes (Z.to_nat n) (p_pgdir (me s)) va).

(** [struct stat] in memory: [short], [int], [uint], [short], [uint]; the
    padding is left as it is. *)
Definition put_stat (va : Z) (st : stat) : M kern unit :=
  user_put va [byte_of (st_type st) 0; byte_of (st_type st) 1] ;;;
  user_put (va + 4) (words [st_dev st; st_ino st]) ;;;
  user_put (va + 12) [byte_of (st_nlink st) 0; byte_of (st_nlink st) 1] ;;;
  user_put (va + 16) (words [st_size st]).

Section Trap.

(** Addresses the linker sets, the device switch, the bytes that follow a
    process's name and those of a fresh page, and the interrupt handlers of the
    devices. *)
Variables kend kdata trapret forkret_pc : Z.
Variable devsw_read : Z -> option (nat -> Z -> M fs (Z * list Z)).
Variable devsw_write : Z -> option (nat -> list Z -> M fs Z).
Variable beyond : nat -> Z.
Variable junk : list Z.
Variables ideintr kbdintr uartintr : M tsys unit.

(** What the other processes and processors make of the state from the moment
    the process has left the processor in [sched] until [sched] returns to it,
    possibly on another processor. *)
Variable others : tsys -> tsys.

Definition k_dup : M kern Z := let* fd := argint 0 in on_usys (sys_dup fd).

Definition k_read : M kern Z :=
  let* fd := argint 0 in
  let* b := arg_buf 1 2 in
  let* r := on_usys (sys_read devsw_read fd (option_map snd b)) in
  (match b with Some (p, _) => user_put p r.2 | None => ret tt end) ;;;
  ret r.1.

Definition k_write : M kern Z :=
  let* fd := argint 0 in
  let* b := arg_buf 1 2 in
  let* l := (match b with Some (p, n) => let* l := user_get p n in ret (Some l) | None => ret None end) in
  on_usys (sys_write devsw_write fd l).

Definition k_close : M kern Z := let* fd := argint 0 in on_usys (sys_close kend fd).

Definition k_fstat : M kern Z :=
  let* fd := argint 0 in
  let* st := argptr 1 20 in
  let* r := on_usys (sys_fstat fd (bool_decide (is_Some st))) in
  (match st, r.2 with Some p, Some x => put_stat p x | _, _ => ret tt end) ;;;
  ret r.1.

Definition k_link : M kern Z :=
  let* old := arg_path 0 in
  let* new := arg_path 1 in
  on_usys (sys_link devsw_read devsw_write old new).
Definition k_unlink : M kern Z := let* p := arg_path 0 in on_usys (sys_unlink devsw_read devsw_write p).
Definition k_open : M kern Z :=
  let* p := arg_path 0 in
  let* omode := argint 1 in
  on_usys (sys_open kend devsw_read devsw_write p omode).
Definition k_mkdir : M kern Z := let* p := arg_path 0 in on_usys (sys_mkdir devsw_read devsw_write p).
Definition k_mknod : M kern Z :=
  let* p := arg_path 0 in
  let* major := argint 1 in
  let* minor := argint 2 in
  on_usys (sys_mknod devsw_read devsw_write p major minor).
Definition k_chdir : M kern Z := let* p := arg_path 0 in on_usys (sys_chdir devsw_read p).

Definition k_pipe : M kern Z :=
  let* p := argptr 0 8 in
  let* r := on_usys (sys_pipe kend (bool_decide (is_Some p)) junk) in
  (match p, r.2 with Some p, Some (fd0, fd1) => user_put p (words [fd0; fd1]) | _, _ => ret tt end) ;;;
  ret r.1.

(** ** sysproc.c *)

Definition sys_kill : M kern Z :=
  let* pid := argint 0 in
  match pid with None => ret (-1) | Some pid => kill pid end.

Definition sys_getpid : M kern Z := gets (fun s => p_pid (me s)).

Definition sys_sbrk : M kern Z :=
  let* n := argint 0 in
  match n with
  | None => ret (-1)
  | Some n =>
      let* addr := gets (fun s => i32 (p_sz (me s))) in
      let* r := growproc kend n in
      if r <? 0 then ret (-1) else ret addr
  end.

(** One round of the loop of [sys_sleep], with [tickslock] held. The comparison
    is between unsigned numbers. *)
Definition sleep_check (n ticks0 : Z) : M tsys Z :=
  let* s := get in
  if u32 (ticks s - ticks0) <? u32 n then
    if p_killed (me (tk s)) then on_k (release_lk TICKS) ;;; ret (-1)
    else on_k (sleep ticks_chan TICKS) ;;; ret 0
  else on_k (release_lk TICKS) ;;; ret 0.

Definition sys_sleep : M tsys Z :=
  let* n := on_k (argint 0) in
  match n with
  | None => ret (-1)
  | Some n =>
      on_k (acquire_lk TICKS) ;;;
      let* ticks0 := gets ticks in
      sleep_check n ticks0
  end.
(** When it has been woken. *)
Definition sys_sleep_resume (n ticks0 : Z) : M tsys Z :=
  on_k (sleep_tidy TICKS) ;;; sleep_check n ticks0.

Definition sys_uptime : M tsys Z :=
  on_k (acquire_lk TICKS) ;;;
  let* xticks := gets ticks in
  on_k (release_lk TICKS) ;;;
  ret (i32 xticks).

Definition k_memtop : M kern Z := on_kmem (sys_memtop (Z.to_nat (PHYSTOP / PGSIZE))).

Definition sys_getmeminfo : M kern Z :=
  let* pid := argint 0 in
  let* name := argstr 1 in
  let* size := argint 2 in
  match pid, name, size with
  | Some pid, Some (name, _), Some size => getmeminfo pid name size beyond
  | _, _, _ => ret (-1)
  end.

Definition sys_thread_create : M kern Z :=
  let* fcn := argptr 0 4 in
  let* arg := argptr 1 4 in
  let* stack := argptr 2 4 in
  match fcn, arg, stack with
  | Some fcn, Some arg, Some stack => thread_create trapret forkret_pc fcn arg stack
  | _, _, _ => ret (-1)
  end.

(** [mutex_lock] and [mutex_unlock] of proc.c, on the user's mutex at [lk]. The
    loop of [mutex_lock] yields after an [xchg] that finds the mutex taken: the
    outcome is then [Sleep], and [mutex_lock_resume] goes on from there. *)
Definition mutex_lock (lk : Z) : M kern unit :=
  let* s := get in
  let* old := on_kmem (vrd32 (p_pgdir (me s)) lk) in
  on_kmem (vwr32 (p_pgdir (me s)) lk 1) ;;;
  if old =? 0 then ret tt else yield.
Definition mutex_lock_resume (lk : Z) : M kern unit := yield_tidy ;;; mutex_lock lk.

Definition mutex_unlock (lk : Z) : M kern unit :=
  let* s := get in on_kmem (vwr32 (p_pgdir (me s)) lk 0).

(** [thread_sleep] of proc.c: releases the user's mutex at [lk] once ptable.lock
    is held, and sleeps; and what it does when it has been woken. A user address
    is never that of ptable.lock. *)
Definition thread_sleep (chan lk : Z) : M kern unit :=
  if lk =? 0 then panic "sleep without lk"
  else
    acquire_pt ;;;
    mutex_unlock lk ;;;
    let* s := get in
    on_pt (sleep_sec (cur s) (user_chan chan)) ;;;
    sched.
Definition thread_sleep_tidy (lk : Z) : M kern unit :=
  let* s := get in
  kfield (cur s) (Fchan None) ;;;
  release_pt ;;;
  mutex_lock lk.

Definition sys_thread_sleep : M kern Z :=
  let* chan := argptr 0 4 in
  let* lk := argptr 1 4 in
  match chan, lk with
  | Some chan, Some lk => thread_sleep chan lk ;;; ret 0
  | _, _ => ret (-1)
  end.

Definition sys_thread_wakeup : M kern Z :=
  let* chan := argptr 0 4 in
  match chan with
  | Some chan => wakeup (user_chan chan) ;;; ret 0
  | None => ret (-1)
  end.

(** ** syscall.c *)

(** The table [syscalls]. *)
Definition syscalls (num : Z) : option (M tsys Z) :=
  match num with
  | 1 => Some (on_k (fork kend kdata trapret forkret_pc))
  | 2 => Some (on_k (exit kend) ;;; ret 0)
  | 3 => Some (on_k (wait kend))
  | 4 => Some (on_k k_pipe)
  | 5 => Some (on_k k_read)
  | 6 => Some (on_k sys_kill)
  | 7 => Some (on_k (sys_exec kend kdata devsw_read))
  | 8 => Some (on_k k_fstat)
  | 9 => Some (on_k k_chdir)
  | 10 => Some (on_k k_dup)
  | 11 => Some (on_k sys_getpid)
  | 12 => Some (on_k sys_sbrk)
  | 13 => Some sys_sleep
  | 14 => Some sys_uptime
  | 15 => Some (on_k k_open)
  | 16 => Some (on_k k_write)
  | 17 => Some (on_k k_mknod)
  | 18 => Some (on_k k_unlink)
  | 19 => Some (on_k k_link)
  | 20 => Some (on_k k_mkdir)
  | 21 => Some (on_k k_close)
  | 22 => Some (on_k sys_thread_create)
  | 23 => Some (on_k (thread_join kend))
  | 24 => Some (on_k (thread_exit kend) ;;; ret 0)
  | 25 => Some (on_k sys_thread_sleep)
  | 26 => Some (on_k sys_thread_wakeup)
  | 27 => Some (on_k k_memtop)
  | 28 => Some (on_k sys_getmeminfo)
  | _ => None
  end.

Definition tf_load (off : Z) : M tsys Z :=
  let* s := get in on_k (on_kmem (load (p_tf (me (tk s)) + off))).
Definition tf_store (off v : Z) : M tsys unit :=
  let* s := get in on_k (kstore (p_tf (me (tk s)) + off) v).

Definition syscall : M tsys unit :=
  let* num := tf_load TF_eax in
  match syscalls (i32 num) with
  | Some h => let* r := h in tf_store TF_eax r
  | None => tf_store TF_eax (-1)
  end.

(** ** trap.c *)

Abbreviation TF_trapno := 48 (only parsing).
Abbreviation T_SYSCALL := 64 (only parsing).
Abbreviation T_IRQ0 := 32 (only parsing).

Definition t_exit : M tsys unit := on_k (exit kend).
Definition killed_now : M tsys bool := gets (fun s => p_killed (me (tk s))).

(** The end of a system call. *)
Definition trap_sysret : M tsys unit :=
  let* k := killed_now in if k then t_exit else ret tt.

Definition timer_tick : M tsys unit :=
  let* s := get in
  when (cpuid s =? 0)
    (on_k (acquire_lk TICKS) ;;;
     modify (fun s => set_ticks (u32 (ticks s + 1)) s) ;;;
     on_k (wakeup ticks_chan) ;;;
     on_k (release_lk TICKS)).

(** From user mode? *)
Definition from_user (cs : Z) : bool := Z.land cs 3 =? 3.

(** [yield] with its switch: away in [sched], back from it, and [release]. *)
Definition yield_back : M tsys unit :=
  fun s => match on_k yield s with
           | Sleep _ s1 => on_k yield_tidy (others s1)
           | r => r
           end.

(** Exit if killed in user mode: the check before the [yield] and the one after. *)
Definition trap_tail (cs : Z) : M tsys unit :=
  let* s := get in
  if negb (idle s) && p_killed (me (tk s)) && from_user cs then t_exit else ret tt.

(** The [switch] on the trap number. *)
Definition trap_switch (trapno cs : Z) : M tsys unit :=
  if trapno =? T_IRQ0 + 0 then timer_tick
  else if trapno =? T_IRQ0 + 14 then ideintr
  else if trapno =? T_IRQ0 + 15 then ret tt
  else if trapno =? T_IRQ0 + 1 then kbdintr
  else if trapno =? T_IRQ0 + 4 then uartintr
  else if (trapno =? T_IRQ0 + 7) || (trapno =? T_IRQ0 + 31) then ret tt
  else
    let* s := get in
    if idle s || (Z.land cs 3 =? 0) then panic "trap"
    else on_k (kfield (cur (tk s)) (Fkilled true)).

(** [trap] of the frame at [tf]. *)
Definition trap (tf : Z) : M tsys unit :=
  let* trapno := on_k (on_kmem (load (tf + TF_trapno))) in
  let* cs := gets (fun s => rd8 (kbytes (kmem_of (tk s))) (tf + TF_cs)) in
  if trapno =? T_SYSCALL then
    let* k := killed_now in
    (if k then t_exit else ret tt) ;;;
    let* s := get in
    on_k (kfield (cur (tk s)) (Ftf tf)) ;;;
    syscall ;;;
    trap_sysret
  else
    trap_switch trapno cs ;;;
    trap_tail cs ;;;
    let* s := get in
    (if negb (idle s) && is_state RUNNING (me (tk s)) && (trapno =? T_IRQ0 + 0)
     then yield_back else ret tt) ;;;
    trap_tail cs.

(** ** Properties *)

Lemma exit_never_returns s u s' : t_exit s <> Ret u s'.
Proof.
  intros E. unfold t_exit, on_k, part in E. destruct (exit kend (tk s)) eqn:Ex; simplify_eq.
  unfold exit in Ex. minv Ex as (k & s1 & E1 & Ex). unfold get in E1. simplify_eq.
  destruct (bool_decide _); [done|].
  do 8 (minv Ex as (? & ? & ? & Ex)). done.
Qed.

(** C16. No process that has been killed returns to user mode: whenever [trap]
    comes back from a system call, or from an interrupt or exception taken in
    user mode, the process is not marked killed, whatever the rest of the system
    did while it was off the processor in the [yield] of a timer interrupt,
    killing it included. The same holds for the end of [trap] that runs when a
    system call has slept. *)
Theorem no_killed_return s s' :
  (forall tf, trap tf s = Ret tt s' ->
     rd32 (kbytes (kmem_of (tk s))) (tf + TF_trapno) = T_SYSCALL \/
     (idle s' = false /\ from_user (rd8 (kbytes (kmem_of (tk s))) (tf + TF_cs)) = true) ->
     p_killed (me (tk s')) = false) /\
  (trap_sysret s = Ret tt s' -> p_killed (me (tk s')) = false).
Proof.
  assert (Hsys : forall s1, trap_sysret s1 = Ret tt s' -> p_killed (me (tk s')) = false).
  { intros s1 E. unfold trap_sysret in E. minv E as (k & s2 & E1 & E). unfold killed_now, gets in E1. simplify_eq.
    destruct (p_killed (me (tk s2))) eqn:Ek; [by apply exit_never_returns in E|]. unfold ret in E. by simplify_eq. }
  assert (Htail : forall s1 cs, trap_tail cs s1 = Ret tt s' -> idle s' = false -> from_user cs = true -> p_killed (me (tk s')) = false).
  { intros s1 cs E Hi Hu. unfold trap_tail in E. minv E as (k & s2 & E1 & E). unfold get in E1. simplify_eq.
    destruct (negb (idle s2) && p_killed (me (tk s2)) && from_user cs) eqn:Ec; [by apply exit_never_returns in E|].
    unfold ret in E. simplify_eq. rewrite Hi, Hu, andb_true_r in Ec. exact Ec. }
  split; [|apply Hsys].
  intros tf E Hor. unfold trap in E. minv E as (trapno & s1 & E1 & E).
  assert (s1 = s /\ trapno = rd32 (kbytes (kmem_of (tk s))) (tf + TF_trapno)) as [-> Etr].
  { unfold on_k, part, on_kmem, part, load, gets in E1. simplify_eq. split; [|done].
    destruct s as [[[] ? ? ? ?] ? ? ?]. done. }
  minv E as (cs & s2 & E2 & E). unfold gets in E2. simplify_eq.
  destruct (Z.eqb_spec (rd32 (kbytes (kmem_of (tk s2))) (tf + TF_trapno)) T_SYSCALL).
  - do 5 (minv E as (? & ? & _ & E)). by eapply Hsys.
  - destruct Hor as [|[Hi Hu]]; [done|]. do 4 (minv E as (? & ? & _ & E)). by eapply Htail.
Qed.

(** A system-call number that is not in the table, zero and negative numbers
    included, runs no handler: the call comes back with -1 in the result
    register and everything else as it was. *)
Theorem unknown_syscall s :
  let m := kbytes (kmem_of (tk s)) in
  let a := p_tf (me (tk s)) + TF_eax in
  ~ (1 <= i32 (rd32 m a) <= 28) ->
  exists s', syscall s = Ret tt s' /\ kbytes (kmem_of (tk s')) = wr32 m a (-1) /\
    kt (tk s') = kt (tk s) /\ kf_fs (kx (tk s')) = kf_fs (kx (tk s)) /\ ticks s' = ticks s.
Proof.
  intros m a Hnum. assert (E : syscalls (i32 (rd32 m a)) = None).
  { revert Hnum. generalize (i32 (rd32 m a)). intros z Hz. destruct z as [|p|p]; try done.
    do 5 (destruct p as [p|p|]; try done; try lia). }
  unfold syscall, tf_load. eexists. unfold bind, get, on_k, part, on_kmem, part, load, gets.
  cbn [tk set_tk kx kt cur set_kx kf_km set_km]. fold (kmem_of (tk s)). fold m.
  change (me (set_kx _ (tk s))) with (me (tk s)). fold a. rewrite E. split; [reflexivity|]. done.
Qed.

End Trap.

(** [sleep(n)] returns 0 only when [n] ticks have passed since it was called,
    as unsigned numbers, and returns -1 only to a process that has been killed.
    A negative [n] counts as at least 2^31 ticks. *)
Theorem sleep_not_early n ticks0 s r s' :
  sleep_check n ticks0 s = Ret r s' ->
  ((r = 0 /\ u32 n <= u32 (ticks s - ticks0)) \/ (r = -1 /\ p_killed (me (tk s)) = true)) /\
  (-2147483648 <= n < 0 -> r = 0 -> 2147483648 <= u32 (ticks s - ticks0)).
Proof.
  intros E. unfold sleep_check in E. minv E as (s0 & s1 & E0 & E). unfold get in E0. simplify_eq.
  assert (H : (r = 0 /\ u32 n <= u32 (ticks s1 - ticks0)) \/ (r = -1 /\ p_killed (me (tk s1)) = true)).
  { destruct (Z.ltb_spec (u32 (ticks s1 - ticks0)) (u32 n)).
    - destruct (p_killed (me (tk s1))) eqn:Ek; minv E as (x & s2 & E1 & E); unfold ret in E; simplify_eq; [by right|].
      exfalso. unfold on_k, part in E1. destruct (sleep ticks_chan TICKS (tk s1)) eqn:Es; simplify_eq.
      revert Es. unfold sleep. intros Es. do 3 (minv Es as (? & ? & _ & Es)).
      unfold sched in Es. minv Es as (? & ? & _ & Es).
      repeat (destruct (bool_decide _) || destruct (negb _) || destruct (is_state _ _) || destruct (iflag _)); done.
    - minv E as (x & s2 & E1 & E). unfold ret in E. simplify_eq. by left. }
  split; [done|]. intros Hn ->. destruct H as [[_ H]|[H _]]; [|done].
  assert (2147483648 <= u32 n) by (unfold u32; dlia). lia.
Qed.

(** ** Examples *)

Definition trap_demo : tsys := {| tk := arg_demo; ticks := 7; idle := false; cpuid := 0 |}.

(** A clock interrupt at 4096 that found process 0 in user mode; the process
    gives the processor up and gets it back, killed in the meantime or not. *)
Definition clock_demo : tsys :=
  let km := kf_km (kx arg_demo) in
  let m := wr32 (wr32 (kbytes km) (4096 + 48) 32) (4096 + TF_cs) 27 in
  {| tk := {| kx := set_km (set_kbytes m km) (kx arg_demo);
              kt := {| procs := [setf (Fcwd (Some O)) (setf (Fstate RUNNING) inhabitant)];
                       initproc := None; nextpid := 1 |};
              khw := khw arg_demo;
              kcpu := {| pc := Run; ncli := 0; intena := false; iflag := false; held := [] |};
              cur := O |};
     ticks := 7; idle := false; cpuid := 0 |}.
Definition back (killed : bool) (s : tsys) : tsys :=
  set_tk (set_kt (store_f 0 (Fkilled killed) (store_f 0 (Fstate RUNNING) (kt (tk s)))) (tk s)) s.
Abbreviation clock_trap killed :=
  (trap kend0 0 0 0 (fun _ => None) (fun _ => None) (fun _ => 0) [] (ret tt) (ret tt) (ret tt) (back killed) 4096 clock_demo).

Lemma no_killed_return_witness :
  exists s', clock_trap false = Ret tt s' /\ idle s' = false /\ ticks s' = 8 /\ p_killed (me (tk s')) = false.
Proof.
  assert (E : match clock_trap false with Ret _ s' => negb (idle s') && (ticks s' =? 8) | _ => false end = true)
    by (vm_compute; reflexivity).
  destruct (clock_trap false) as [[] s'| | |] eqn:Et; try discriminate E.
  apply andb_prop in E as [Hi Ht]. apply negb_true_iff in Hi. apply Z.eqb_eq in Ht.
  exists s'. split; [reflexivity|]. split; [exact Hi|]. split; [exact Ht|].
  apply (no_killed_return kend0 0 0 0 (fun _ => None) (fun _ => None) (fun _ => 0) [] (ret tt) (ret tt) (ret tt)
           (back false) clock_demo s') with (tf := 4096); [exact Et|].
  right. split; [exact Hi|]. vm_compute. reflexivity.
Defined.

(** Killed while it was away, the process exits instead. *)
Example killed_while_away :
  match clock_trap true with Sleep _ s' => is_state ZOMBIE (pr (kt (tk s')) 0) | _ => false end = true.
Proof. vm_compute. reflexivity. Qed.

Lemma unknown_syscall_witness : exists s',
  syscall 0 0 0 0 (fun _ => None) (fun _ => None) (fun _ => 0) [] trap_demo = Ret tt s' /\ ticks s' = 7.
Proof.
  destruct (unknown_syscall 0 0 0 0 (fun _ => None) (fun _ => None) (fun _ => 0) [] trap_demo) as (s' & E & _ & _ & _ & Ht).
  - vm_compute. intros [H _]. by apply H.
  - exists s'. split; [exact E|exact Ht].
Defined.

Definition sleep_demo : tsys :=
  set_tk (set_kcpu {| pc := Run; ncli := 1; intena := true; iflag := false; held := [TICKS] |} arg_demo) trap_demo.

Lemma sleep_not_early_witness : exists s', sleep_check 5 2 sleep_demo = Ret 0 s' /\ u32 5 <= u32 (ticks sleep_demo - 2).
Proof.
  assert (E : exists s', sleep_check 5 2 sleep_demo = Ret 0 s') by (eexists; reflexivity).
  destruct E as [s' E]. exists s'. split; [exact E|].
  destruct (sleep_not_early 5 2 sleep_demo 0 s' E) as [[[_ H]|[H _]] _]; [exact H|discriminate H].
Defined.
