(* ===== verification/Umalloc.v ===== *)
(** The allocator of user programs: xv6-public/umalloc.c, over [sbrk].

    The free blocks form a ring through their headers, ascending by address,
    with the static header [base] of size 0 as its lowest element; [freep]
    points somewhere into the ring. Headers live in the memory of the process;
    an access behind its last page is a page fault.

    The heap is described by a [layout]: all blocks that [morecore] has obtained,
    by address, each in use or free. Theorems: [malloc] and [free] always come
    back, without a fault, and act on the layout as taking the end of a free
    block that is large enough and as freeing a block and merging it with its
    free neighbours ([malloc_layout], [free_layout]); so in any history of
    calls, the blocks a program holds are inside its memory, disjoint, and keep
    the bytes written to them ([malloc_safe]). *)

From Stdlib Require Import ZArith Lia.
From stdpp Require Import base strings gmap numbers list.
From S2P Require Import Prelude.

Open Scope Z_scope.

(** ** State and memory accesses *)

(** The process: its memory, the variable [freep], and its size. *)
Record ust := { um : mem; freep : Z; brk : Z }.

Definition set_um (m : mem) (s : ust) : ust := {| um := m; freep := freep s; brk := brk s |}.
Definition set_freep (p : Z) (s : ust) : ust := {| um := um s; freep := p; brk := brk s |}.

Section Umalloc.

(** The address of the static variable [base], and whether the kernel finds the
    pages to grow a process from one size to another. *)
Variable base : Z.
Variable grant : Z -> Z -> bool.

Definition uld (a : Z) : M ust Z :=
  let* s := get in
  if a + 4 <=? PGROUNDUP (brk s) then ret (rd32 (um s) a) else panic "trap 14".
Definition ust32 (a v : Z) : M ust unit :=
  let* s := get in
  if a + 4 <=? PGROUNDUP (brk s) then modify (fun s => set_um (wr32 (um s) a v) s) else panic "trap 14".

(** [p->s.ptr] and [p->s.size]. *)
Definition h_ptr (p : Z) : M ust Z := uld p.
Definition h_size (p : Z) : M ust Z := uld (p + 4).
Definition set_h_ptr (p v : Z) : M ust unit := ust32 p v.
Definition set_h_size (p v : Z) : M ust unit := ust32 (p + 4) v.

(** Pointer arithmetic on headers of 8 bytes. *)
Definition hplus (p n : Z) : Z := u32 (p + 8 * n).

(** [sbrk]: the system call, with what [growproc], [allocuvm] and [deallocuvm]
    make of the size. Pages that are added read as zero. *)
Definition sbrk (n : Z) : M ust Z :=
  let* s := get in
  let n := i32 n in
  let newsz := u32 (brk s + n) in
  if 0 <? n then
    if KERNBASE <=? newsz then ret (u32 (-1))
    else if newsz <? brk s then ret (brk s)
    else if grant (brk s) newsz then
      put {| um := filter (fun x => x.1 < PGROUNDUP (brk s)) (um s); freep := freep s; brk := newsz |} ;;;
      ret (brk s)
    else ret (u32 (-1))
  else if n <? 0 then
    if brk s <=? newsz then (if brk s =? 0 then ret (u32 (-1)) else ret (brk s))
    else if newsz =? 0 then ret (u32 (-1))
    else put {| um := um s; freep := freep s; brk := newsz |} ;;; ret (brk s)
  else ret (brk s).

(** ** [free] *)

(** The search for the place of [bp] in the ring. *)
Fixpoint free_find (fuel : nat) (bp p : Z) : M ust Z :=
  match fuel with
  | O => out_of_fuel
  | S fuel' =>
      let* q := h_ptr p in
      if (p <? bp) && (bp <? q) then ret p
      else if (q <=? p) && ((p <? bp) || (bp <? q)) then ret p
      else free_find fuel' bp q
  end.

(** Joining the block to its upper and to its lower neighbour in the ring. *)
Definition free_next (bp p : Z) : M ust unit :=
  let* bsize := h_size bp in
  let* q := h_ptr p in
  if hplus bp bsize =? q then
    let* qsize := h_size q in
    set_h_size bp (u32 (bsize + qsize)) ;;;
    let* q := h_ptr p in
    let* qptr := h_ptr q in
    set_h_ptr bp qptr
  else set_h_ptr bp q.

Definition free_prev (bp p : Z) : M ust unit :=
  let* psize := h_size p in
  if hplus p psize =? bp then
    let* bsize := h_size bp in
    set_h_size p (u32 (psize + bsize)) ;;;
    let* bptr := h_ptr bp in
    set_h_ptr p bptr
  else set_h_ptr p bp.

Definition free_at (fuel : nat) (ap : Z) : M ust unit :=
  let bp := u32 (ap - 8) in
  let* p := gets freep in
  let* p := free_find fuel bp p in
  free_next bp p ;;;
  free_prev bp p ;;;
  modify (set_freep p).

(** As many headers as fit into the process. *)
Definition ring_fuel (s : ust) : nat := Z.to_nat (brk s / 8 + 1).

Definition free (ap : Z) : M ust unit :=
  let* s := get in free_at (ring_fuel s) ap.

(** ** [malloc] *)

Definition morecore (nu : Z) : M ust Z :=
  let nu := if nu <? 4096 then 4096 else nu in
  let* p := sbrk (u32 (nu * 8)) in
  if p =? u32 (-1) then ret 0
  else
    set_h_size p nu ;;;
    free (u32 (p + 8)) ;;;
    gets freep.

Fixpoint malloc_loop (fuel : nat) (nunits prevp p : Z) : M ust Z :=
  match fuel with
  | O => out_of_fuel
  | S fuel' =>
      let* size := h_size p in
      if nunits <=? size then
        let* p :=
          (if size =? nunits then
             let* q := h_ptr p in
             set_h_ptr prevp q ;;; ret p
           else
             set_h_size p (u32 (size - nunits)) ;;;
             let* size := h_size p in
             let p := hplus p size in
             set_h_size p nunits ;;; ret p) in
        modify (set_freep prevp) ;;;
        ret (u32 (p + 8))
      else
        let* fp := gets freep in
        if p =? fp then
          let* p := morecore nunits in
          if p =? 0 then ret 0
          else
            let* q := h_ptr p in
            malloc_loop fuel' nunits p q
        else
          let* q := h_ptr p in
          malloc_loop fuel' nunits p q
  end.

Definition nunits_of (nbytes : Z) : Z := u32 (u32 (nbytes + 8 - 1) / 8 + 1).

Definition malloc (nbytes : Z) : M ust Z :=
  let nunits := nunits_of nbytes in
  let* prevp := gets freep in
  let* prevp :=
    (if prevp =? 0 then
       modify (set_freep base) ;;;
       set_h_ptr base base ;;;
       set_h_size base 0 ;;;
       ret base
     else ret prevp) in
  let* s := get in
  let* p := h_ptr prevp in
  malloc_loop (2 * ring_fuel s + 2) nunits prevp p.

(** ** The layout of the heap *)

(** In use or free, the address of the header, the size in units of 8 bytes. *)
Abbreviation blk := (bool * Z * Z)%type.

(** Blocks in order of their addresses, none overlapping, between [lo] and [hi]. *)
Fixpoint asc (lo : Z) (h : list blk) (hi : Z) : Prop :=
  match h with
  | [] => lo <= hi
  | (_, a, n) :: h' => lo <= a /\ 1 <= n /\ asc (a + 8 * n) h' hi
  end.

Fixpoint frees (h : list blk) : list (Z * Z) :=
  match h with
  | [] => []
  | (u, a, n) :: h' => if u : bool then frees h' else (a, n) :: frees h'
  end.

(** Merges free blocks that touch. *)
Definition touch (x y : blk) : bool :=
  match x, y with
  | (false, a, n), (false, b, _) => a + 8 * n =? b
  | _, _ => false
  end.
Definition join (x : blk) (h : list blk) : list blk :=
  match h with
  | y :: h' => if touch x y then (false, x.1.2, x.2 + y.2) :: h' else x :: h
  | [] => [x]
  end.
Fixpoint coalesce (h : list blk) : list blk :=
  match h with
  | [] => []
  | x :: h' => join x (coalesce h')
  end.

(** No two free blocks touch. *)
Fixpoint sep (h : list blk) : Prop :=
  match h with
  | x :: ((y :: _) as h') => touch x y = false /\ sep h'
  | _ => True
  end.

(** A segment of the ring in memory: headers from [x] on, linked, the last one
    pointing to [z]. *)
Fixpoint seg (m : mem) (l : list (Z * Z)) (x z : Z) : Prop :=
  match l with
  | [] => x = z
  | (a, n) :: l' => x = a /\ rd32 m (a + 4) = n /\ seg m l' (rd32 m a) z
  end.

Definition ring (h : list blk) : list (Z * Z) := (base, 0) :: frees h.

(** The memory of the process [s] holds the heap [h]. *)
Record heap_ok (s : ust) (h : list blk) : Prop := {
  ho_base : 0 < base;
  ho_brk : brk s < KERNBASE;
  ho_asc : asc (base + 8) h (brk s);
  ho_used : forall a n, (true, a, n) ∈ h -> rd32 (um s) (a + 4) = n;
  ho_ring : seg (um s) (ring h) base base;
  ho_freep : freep s ∈ (ring h).*1;
  ho_max : sep h
}.

(** ** Lemmas on layouts *)

Lemma asc_le h : forall lo hi, asc lo h hi -> lo <= hi.
Proof. induction h as [|[[u a] n] h IH]; cbn [asc]; intros; [done|]. destruct H as (? & ? & H%IH). lia. Qed.

Lemma asc_weaken h : forall lo hi lo' hi', asc lo h hi -> lo' <= lo -> hi <= hi' -> asc lo' h hi'.
Proof.
  induction h as [|[[u a] n] h IH]; cbn [asc]; intros lo hi lo' hi' H ? ?; [lia|].
  destruct H as (? & ? & H). repeat split; [lia..|]. eapply IH; [done|lia..].
Qed.

Lemma asc_app h1 : forall h2 lo hi,
  asc lo (h1 ++ h2) hi <-> exists mid, asc lo h1 mid /\ asc mid h2 hi.
Proof.
  induction h1 as [|[[u a] n] h1 IH]; intros h2 lo hi; cbn [asc app].
  - split; [intros; exists lo; split; [lia|done]|]. intros (mid & ? & ?). by eapply asc_weaken.
  - rewrite IH. naive_solver.
Qed.

Lemma asc_mid h1 u a n h2 lo hi :
  asc lo (h1 ++ (u, a, n) :: h2) hi <-> asc lo h1 a /\ 1 <= n /\ asc (a + 8 * n) h2 hi.
Proof.
  rewrite asc_app. cbn [asc]. split.
  - intros (mid & H1 & ? & ? & ?). repeat split; [|done..]. by eapply asc_weaken.
  - intros (? & ? & ?). exists a. repeat split; [done|lia|done..].
Qed.

Lemma asc_in h : forall lo hi u a n, asc lo h hi -> (u, a, n) ∈ h -> lo <= a /\ 1 <= n /\ a + 8 * n <= hi.
Proof.
  induction h as [|[[u' a'] n'] h IH]; cbn [asc]; intros lo hi u a n H Hin; [by apply elem_of_nil in Hin|].
  destruct H as (? & ? & H). apply elem_of_cons in Hin as [E|Hin].
  - simplify_eq. apply asc_le in H. lia.
  - specialize (IH _ _ _ _ _ H Hin). lia.
Qed.

(** Two different blocks of a layout do not overlap. *)
Lemma asc_disjoint h lo hi u a n u' a' n' :
  asc lo h hi -> (u, a, n) ∈ h -> (u', a', n') ∈ h ->
  (u, a, n) = (u', a', n') \/ a + 8 * n <= a' \/ a' + 8 * n' <= a.
Proof.
  intros H (h1 & h2 & ->)%list_elem_of_split Hin. apply asc_mid in H as (H1 & Hn & H2).
  apply elem_of_app in Hin as [Hin|[E|Hin]%elem_of_cons]; [|naive_solver|].
  - apply (asc_in _ _ _ _ _ _ H1) in Hin. lia.
  - apply (asc_in _ _ _ _ _ _ H2) in Hin. lia.
Qed.

Lemma frees_app h1 h2 : frees (h1 ++ h2) = frees h1 ++ frees h2.
Proof. induction h1 as [|[[[] a] n] h1 IH]; cbn [frees app]; [done|done|by rewrite IH]. Qed.

Lemma elem_of_frees h a n : (a, n) ∈ frees h <-> (false, a, n) ∈ h.
Proof.
  induction h as [|[[[] a'] n'] h IH]; cbn [frees]; rewrite ?elem_of_cons, ?IH, ?elem_of_nil; naive_solver.
Qed.

(** Ascending lists of headers; a header takes 8 bytes even when its size is 0. *)
Fixpoint fasc (lo : Z) (l : list (Z * Z)) (hi : Z) : Prop :=
  match l with
  | [] => lo <= hi
  | (a, n) :: l' => lo <= a /\ fasc (a + 8 * Z.max 1 n) l' hi
  end.

Lemma fasc_weaken l : forall lo hi lo' hi', fasc lo l hi -> lo' <= lo -> hi <= hi' -> fasc lo' l hi'.
Proof.
  induction l as [|[a n] l IH]; cbn [fasc]; intros lo hi lo' hi' H ? ?; [lia|].
  destruct H as (? & H). split; [lia|]. eapply IH; [done|lia..].
Qed.

Lemma fasc_le l : forall lo hi, fasc lo l hi -> lo <= hi.
Proof. induction l as [|[a n] l IH]; cbn [fasc]; intros lo hi H; [done|]. destruct H as (? & H%IH). lia. Qed.

Lemma fasc_app l1 : forall l2 lo hi,
  fasc lo (l1 ++ l2) hi <-> exists mid, fasc lo l1 mid /\ fasc mid l2 hi.
Proof.
  induction l1 as [|[a n] l1 IH]; intros l2 lo hi; cbn [fasc app].
  - split; [intros; exists lo; split; [lia|done]|]. intros (mid & ? & ?). by eapply fasc_weaken.
  - rewrite IH. naive_solver.
Qed.

Lemma fasc_in l : forall lo hi a n, fasc lo l hi -> (a, n) ∈ l -> lo <= a /\ a + 8 * Z.max 1 n <= hi.
Proof.
  induction l as [|[a' n'] l IH]; cbn [fasc]; intros lo hi a n H Hin; [by apply elem_of_nil in Hin|].
  destruct H as (? & H). apply elem_of_cons in Hin as [E|Hin].
  - simplify_eq. apply fasc_le in H. lia.
  - specialize (IH _ _ _ _ H Hin). lia.
Qed.

Lemma asc_frees h : forall lo hi, asc lo h hi -> fasc lo (frees h) hi.
Proof.
  induction h as [|[[[] a] n] h IH]; cbn [asc frees fasc]; intros lo hi H; [done|..]; destruct H as (? & ? & H).
  - apply (fasc_weaken _ (a + 8 * n) hi); [auto|lia..].
  - split; [done|]. apply (fasc_weaken _ (a + 8 * n) hi); [auto|lia..].
Qed.

Lemma ring_fasc h hi : asc (base + 8) h hi -> fasc base (ring h) hi.
Proof. intros H. cbn. split; [lia|]. by apply asc_frees. Qed.

(** ** Lemmas on merging *)

Lemma join_head x h : exists n h', join x h = (x.1, n) :: h'.
Proof.
  destruct x as [[u a] n], h as [|[[u' b] k] h]; cbn [join]; [by eauto|].
  destruct (touch _ _) eqn:E; [|by eauto]. destruct u; [done|]. by eauto.
Qed.

Lemma join_id x y h : touch x y = false -> join x (y :: h) = x :: y :: h.
Proof. cbn [join]. by intros ->. Qed.

Lemma touch_head x u a n n' : touch x (u, a, n) = touch x (u, a, n').
Proof. by destruct x as [[[] ?] ?], u. Qed.

Lemma sep_cons_inv x h : sep (x :: h) -> sep h.
Proof. destruct h; [done|]. by intros []. Qed.

Lemma sep_join x h : sep h -> sep (join x h).
Proof.
  destruct h as [|y h]; cbn [join]; [done|]. intros H. destruct (touch x y) eqn:E; [|by split].
  destruct x as [[[] a] n], y as [[[] b] k]; try done. cbn [touch] in E. apply Z.eqb_eq in E.
  destruct h as [|z h]; [done|]. destruct H as [Ht H]. split; [|done].
  destruct z as [[[] c] j]; [done|]. cbn in *. apply Z.eqb_neq in Ht. apply Z.eqb_neq. lia.
Qed.

Lemma sep_coalesce h : sep (coalesce h).
Proof. induction h; [done|]. cbn [coalesce]. by apply sep_join. Qed.

Lemma coalesce_id h : sep h -> coalesce h = h.
Proof.
  induction h as [|x h IH]; [done|]. intros H. cbn [coalesce]. rewrite IH by by eapply sep_cons_inv.
  destruct h; [done|]. destruct H. by apply join_id.
Qed.

(** In front of a block, only the last block before it can be merged with it. *)
Lemma coalesce_snoc h1 : forall x t, sep (h1 ++ [x]) -> sep t -> coalesce (h1 ++ x :: t) = h1 ++ join x t.
Proof.
  induction h1 as [|y h1 IH]; intros x t H Ht.
  - cbn [app coalesce]. by rewrite coalesce_id.
  - cbn [app coalesce]. rewrite (IH x t) by (done || by eapply sep_cons_inv).
    assert (exists z r, h1 ++ join x t = z :: r /\ touch y z = false) as (z & r & E & Hz).
    { destruct h1 as [|z h1]; cbn [app].
      - destruct (join_head x t) as (n & h' & ->). eexists _, _. split; [done|].
        destruct H as [H _]. destruct x as [[u a] k]. cbn [fst]. by rewrite (touch_head _ _ _ _ k).
      - destruct H as [H _]. by eauto. }
    rewrite E. by rewrite join_id.
Qed.

Lemma sep_app h1 h2 : sep (h1 ++ h2) -> sep h1 /\ sep h2.
Proof.
  induction h1 as [|x h1 IH]; [done|]. cbn [app]. intros H. destruct (IH (sep_cons_inv _ _ H)) as [H1 H2].
  split; [|done]. destruct h1 as [|y h1]; [done|]. destruct H. by split.
Qed.

Lemma asc_join x h lo hi : asc lo (x :: h) hi -> asc lo (join x h) hi.
Proof.
  destruct x as [[u a] n], h as [|[[u' b] k] h]; [done|]. cbn [join].
  destruct (touch _ _) eqn:E; [|done]. destruct u, u'; try done. cbn [touch] in E. apply Z.eqb_eq in E.
  cbn [asc fst snd]. intros (? & ? & ? & ? & H). split; [lia|]. split; [lia|].
  by replace (a + 8 * (n + k)) with (b + 8 * k) by lia.
Qed.

Lemma asc_coalesce h : forall lo hi, asc lo h hi -> asc lo (coalesce h) hi.
Proof.
  induction h as [|[[u a] n] h IH]; intros lo hi H; [done|]. cbn [coalesce]. apply asc_join.
  cbn [asc] in *. naive_solver.
Qed.

(** Merging leaves the blocks in use alone. *)
Lemma used_join x h a n : (true, a, n) ∈ join x h <-> (true, a, n) ∈ x :: h.
Proof.
  destruct h as [|y h]; [done|]. cbn [join]. destruct (touch x y) eqn:E; [|done].
  destruct x as [[[] ?] ?], y as [[[] ?] ?]; try done. rewrite !elem_of_cons. naive_solver.
Qed.

Lemma used_coalesce h a n : (true, a, n) ∈ coalesce h <-> (true, a, n) ∈ h.
Proof. induction h as [|x h IH]; [done|]. cbn [coalesce]. rewrite used_join, !elem_of_cons, IH. done. Qed.

(** ** The ring in memory *)

Lemma seg_app m l1 : forall l2 x z,
  seg m (l1 ++ l2) x z <-> exists y, seg m l1 x y /\ seg m l2 y z.
Proof.
  induction l1 as [|[a n] l1 IH]; intros l2 x z; cbn [seg app]; [naive_solver|].
  rewrite IH. naive_solver.
Qed.

(** A segment only depends on its headers. *)
Lemma seg_frame m m' l : forall x z,
  (forall a n, (a, n) ∈ l -> forall b, a <= b < a + 8 -> rd8 m' b = rd8 m b) ->
  seg m l x z -> seg m' l x z.
Proof.
  induction l as [|[a n] l IH]; intros x z Hf H; cbn [seg] in *; [done|].
  destruct H as (-> & H1 & H2).
  assert (Ha : forall b, a <= b < a + 8 -> rd8 m' b = rd8 m b) by (apply (Hf a n); set_solver).
  rewrite (rd32_ext m' m a), (rd32_ext m' m (a + 4)) by (intros; apply Ha; lia).
  repeat split; [done|]. apply IH; [|done]. intros c k Hin. apply (Hf c k). set_solver.
Qed.

Lemma seg_bounds m l x z lo : seg m l x z -> fasc lo l z -> lo <= x <= z.
Proof.
  destruct l as [|[a n] l]; cbn [seg fasc]; [lia|]. intros (-> & _ & _) (? & H%fasc_le). lia.
Qed.

Lemma brk_le_page x : 0 <= x < KERNBASE -> x <= PGROUNDUP x.
Proof. intros H. destruct (PGROUNDUP_spec x); lia. Qed.

(** ** Running accesses *)

Lemma bind_uld {A} a (k : Z -> M ust A) s :
  a + 4 <= brk s -> 0 <= brk s < KERNBASE -> bind (uld a) k s = k (rd32 (um s) a) s.
Proof.
  intros. unfold uld, get, bind. pose proof (brk_le_page (brk s)).
  destruct (Z.leb_spec (a + 4) (PGROUNDUP (brk s))); [done|lia].
Qed.

Lemma bind_ust32 {A} a v (k : unit -> M ust A) s :
  a + 4 <= brk s -> 0 <= brk s < KERNBASE -> bind (ust32 a v) k s = k tt (set_um (wr32 (um s) a v) s).
Proof.
  intros. unfold ust32, get, bind. pose proof (brk_le_page (brk s)).
  destruct (Z.leb_spec (a + 4) (PGROUNDUP (brk s))); [done|lia].
Qed.

Lemma ust32_run a v s :
  a + 4 <= brk s -> 0 <= brk s < KERNBASE -> ust32 a v s = Ret tt (set_um (wr32 (um s) a v) s).
Proof.
  intros. unfold ust32, get, bind. pose proof (brk_le_page (brk s)).
  destruct (Z.leb_spec (a + 4) (PGROUNDUP (brk s))); [done|lia].
Qed.

Lemma hplus_small p n : 0 <= p + 8 * n < 4294967296 -> hplus p n = p + 8 * n.
Proof. apply u32_small. Qed.

(** ** The search of [free] *)

Section Find.
Variables (s : ust) (bp : Z).
Hypothesis Hbrk : 0 <= brk s < KERNBASE.

(** Below [bp] the search goes up, *)
Lemma find_up l : forall f p z lo,
  seg (um s) l p z -> fasc lo l z -> z < bp -> z + 8 <= brk s ->
  free_find (length l + f) bp p s = free_find f bp z s.
Proof.
  induction l as [|[a n] l IH]; intros f p z lo Hs Ha Hz Hb; cbn [seg fasc] in *; [by subst|].
  destruct Hs as (-> & _ & Hs), Ha as (_ & Ha). pose proof (seg_bounds _ _ _ _ _ Hs Ha).
  cbn [length Nat.add free_find]. unfold h_ptr. rewrite bind_uld by lia.
  rewrite <- (IH f _ z _ Hs Ha Hz Hb). range_cases; done.
Qed.

(** above it goes up and around to [base]. *)
Lemma find_down l : forall f p lo hi,
  seg (um s) l p base -> fasc lo l hi -> bp < lo -> base < bp -> hi <= brk s ->
  free_find (length l + f) bp p s = free_find f bp base s.
Proof.
  induction l as [|[a n] l IH]; intros f p lo hi Hs Ha Hl Hb Hh; cbn [seg fasc] in *; [by subst|].
  destruct Hs as (-> & _ & Hs), Ha as (Hlo & Ha). pose proof (fasc_le _ _ _ Ha).
  cbn [length Nat.add free_find]. unfold h_ptr. rewrite bind_uld by lia.
  rewrite <- (IH f _ _ hi Hs Ha ltac:(lia) Hb Hh).
  destruct l as [|[b k] l]; cbn [seg fasc] in *.
  - rewrite Hs. range_cases; done.
  - destruct Hs as (-> & _). destruct Ha. range_cases; done.
Qed.

(** It stops at the last header below [bp]. *)
Lemma find_here f p k l hi :
  seg (um s) ((p, k) :: l) p base -> fasc p l hi -> p < bp -> base < bp -> base <= p ->
  p + 8 <= brk s -> (forall a n, (a, n) ∈ l -> bp < a) ->
  free_find (S f) bp p s = Ret p s.
Proof.
  intros (_ & _ & Hs) Ha Hp Hb Hbp Hbr Hl. cbn [free_find]. unfold h_ptr. rewrite bind_uld by lia.
  destruct l as [|[b n] l]; cbn [seg] in Hs.
  - rewrite Hs. range_cases; done.
  - destruct Hs as (-> & _). specialize (Hl b n ltac:(set_solver)). range_cases; done.
Qed.

End Find.

Lemma fasc_length l : forall lo hi, fasc lo l hi -> 8 * Z.of_nat (length l) <= hi - lo.
Proof.
  induction l as [|[a n] l IH]; cbn [fasc length]; intros lo hi H; [lia|]. destruct H as (? & H%IH). lia.
Qed.

Lemma ring_split h1 a n h2 : ring (h1 ++ (true, a, n) :: h2) = ring h1 ++ frees h2.
Proof. unfold ring. by rewrite frees_app. Qed.

Lemma ring_last h : exists R p k, ring h = R ++ [(p, k)].
Proof.
  destruct (ring h) as [|x l] eqn:E using rev_ind; [done|]. destruct x as [p k]. by eauto.
Qed.

Lemma freep_in (l : list (Z * Z)) e : e ∈ l.*1 -> exists j A B, l = A ++ (e, j) :: B.
Proof.
  intros ([e' j] & -> & Hin)%list_elem_of_fmap. apply list_elem_of_split in Hin as (A & B & ->). by eauto.
Qed.

(** From wherever [freep] is, the search finds the predecessor of the block. *)
Lemma find_run s h1 a n h2 R1 p k :
  heap_ok s (h1 ++ (true, a, n) :: h2) -> ring h1 = R1 ++ [(p, k)] ->
  free_find (ring_fuel s) a (freep s) s = Ret p s.
Proof.
  intros [Hb0 Hbrk Hasc _ Hring Hfp _] HR.
  pose proof Hasc as (H1 & Hn & H2)%asc_mid. pose proof (asc_le _ _ _ H1). pose proof (asc_le _ _ _ H2).
  pose proof (ring_fasc _ _ H1) as F1. rewrite HR in F1. apply fasc_app in F1 as (mid & F1 & Fp & Fe).
  cbn [fasc] in Fe. assert (F1' : fasc base R1 p) by by eapply fasc_weaken.
  pose proof (asc_frees _ _ _ H2) as F2. pose proof (fasc_length _ _ _ F1') as L1.
  pose proof (fasc_length _ _ _ F2) as L2. pose proof (fasc_le _ _ _ F1').
  rewrite ring_split, HR, <- app_assoc in Hring, Hfp. cbn [app] in Hring, Hfp.
  apply seg_app in Hring as (y & S1 & S2). assert (y = p) as -> by (cbn in S2; tauto).
  set (R2 := frees h2) in *.
  assert (Hhere : forall f, free_find (S f) a p s = Ret p s).
  { intros f. eapply (find_here s a ltac:(lia) f p k R2 (brk s)); [done| |lia..|].
    - eapply fasc_weaken; [apply F2|lia..].
    - intros c j Hin. apply (fasc_in _ _ _ _ _ F2) in Hin. lia. }
  assert (Hup : forall A e j B f, R1 = A ++ (e, j) :: B -> free_find (length ((e, j) :: B) + S f) a e s = Ret p s).
  { intros A e j B f E. rewrite E in S1, F1'. apply seg_app in S1 as (y' & _ & S1).
    assert (y' = e) as -> by (cbn in S1; tauto). apply fasc_app in F1' as (m' & _ & F1').
    rewrite (find_up s a ltac:(lia) _ (S f) e p m') by (done || lia). apply Hhere. }
  assert (Hbase : forall f, free_find (length R1 + S f) a base s = Ret p s).
  { intros f. destruct R1 as [|[b j] R]; cbn [length Nat.add].
    - cbn in S1. rewrite S1. apply Hhere.
    - assert (b = base) as -> by (unfold ring in HR; cbn in HR; naive_solver). by apply (Hup [] base j R f). }
  assert (Hfuel : exists f, ring_fuel s = (length R1 + length R2 + S f)%nat).
  { exists (ring_fuel s - length R1 - length R2 - 1)%nat. unfold ring_fuel.
    assert (Z.of_nat (length R1) + Z.of_nat (length R2) <= brk s / 8) by (apply Z.div_le_lower_bound; lia). lia. }
  destruct Hfuel as [f ->].
  rewrite fmap_app, fmap_cons, elem_of_app, elem_of_cons in Hfp. destruct Hfp as [Hf|[Hf|Hf]].
  - apply freep_in in Hf as (j & A & B & E). rewrite E, length_app.
    replace (_ + _)%nat with (length ((freep s, j) :: B) + S (length A + length R2 + f))%nat by (cbn; lia).
    by eapply Hup.
  - cbn in Hf. rewrite Hf. rewrite Nat.add_succ_r. apply Hhere.
  - apply freep_in in Hf as (j & A & B & E). cbn [seg] in S2. destruct S2 as (_ & _ & S2).
    rewrite E in S2, F2 |- *. apply seg_app in S2 as (y & _ & S2).
    assert (y = freep s) as -> by (cbn in S2; tauto). apply fasc_app in F2 as (m' & F2a & F2).
    pose proof (fasc_le _ _ _ F2a). rewrite length_app.
    replace (_ + _)%nat with (length ((freep s, j) :: B) + (length R1 + S (length A + f)))%nat by (cbn; lia).
    rewrite (find_down s a ltac:(lia) _ _ _ m' (brk s)) by (done || lia). apply Hbase.
Qed.

(** ** Joining *)

(** Where two memories agree outside one header. *)
Definition same_but (m m' : mem) (a : Z) : Prop :=
  forall x, ~ (a <= x < a + 8) -> rd8 m' x = rd8 m x.

Lemma same_but_wr32 m a b v : a = b \/ a + 4 = b -> same_but m (wr32 m b v) a.
Proof. intros H x Hx. rewrite rd8_wr32. range_cases; lia. Qed.

Lemma same_but_trans m m' m'' a : same_but m m' a -> same_but m' m'' a -> same_but m m'' a.
Proof. intros H1 H2 x Hx. by rewrite H2, H1. Qed.

Lemma same_but_rd32 m m' a b : same_but m m' a -> b + 4 <= a \/ a + 8 <= b -> rd32 m' b = rd32 m b.
Proof. intros H Hb. apply rd32_ext. intros x Hx. apply H. lia. Qed.

Lemma same_but_seg m m' a l x z :
  same_but m m' a -> (forall c k, (c, k) ∈ l -> c + 8 <= a \/ a + 8 <= c) -> seg m l x z -> seg m' l x z.
Proof. intros H Hl. apply seg_frame. intros c k Hin b Hb. apply H. specialize (Hl c k Hin). lia. Qed.

Lemma seg_fasc_frame m m' a l x z lo hi :
  same_but m m' a -> fasc lo l hi -> hi <= a \/ a + 8 <= lo -> seg m l x z -> seg m' l x z.
Proof.
  intros H Hf Ha. apply (same_but_seg _ _ a); [done|]. intros c k Hin.
  apply (fasc_in _ _ _ _ _ Hf) in Hin. lia.
Qed.

Lemma touch_next h2 lo hi b k l :
  asc lo h2 hi -> frees h2 = (b, k) :: l -> b = lo -> exists h2', h2 = (false, b, k) :: h2' /\ frees h2' = l.
Proof.
  destruct h2 as [|[[[] c] j] h2]; cbn [asc frees]; [done|..].
  - intros (? & ? & H%asc_frees) E Hb. rewrite E in H. cbn [fasc] in H. lia.
  - intros _ E _. simplify_eq. eauto.
Qed.

Lemma free_next_run s a n h2 p hi :
  0 <= base < a -> base <= p -> p + 8 <= a -> a + 8 * n <= hi -> hi <= brk s -> brk s < KERNBASE -> 1 <= n ->
  rd32 (um s) (a + 4) = n -> asc (a + 8 * n) h2 hi -> seg (um s) (frees h2) (rd32 (um s) p) base ->
  exists m n' h2', free_next a p s = Ret tt (set_um m s) /\ same_but (um s) m a /\
    join (false, a, n) h2 = (false, a, n') :: h2' /\ 1 <= n' /\ asc (a + 8 * n') h2' hi /\
    rd32 m (a + 4) = n' /\ seg m (frees h2') (rd32 m a) base.
Proof.
  intros Hba Hbp Hpa Hhi Hhb Hbrk Hn En Hasc Hs. unfold free_next, h_size, h_ptr, set_h_size, set_h_ptr.
  rewrite !bind_uld by lia. rewrite En, hplus_small by lia.
  pose proof (asc_frees _ _ _ Hasc) as Hf.
  destruct (frees h2) as [|[b k] l] eqn:El; cbn [seg] in Hs.
  - rewrite Hs. destruct (Z.eqb_spec (a + 8 * n) base) as [|_]; [lia|].
    rewrite ust32_run by lia. eexists _, n, h2. split; [done|].
    split; [apply same_but_wr32; lia|]. split.
    { destruct h2 as [|[[[] c] j] h2]; [done..|]. cbn in El. done. }
    rewrite rd32_wr32_eq, rd32_wr32_ne, u32_small, El by lia. by rewrite En.
  - destruct Hs as (Eq & Ek & Hs). rewrite Eq. cbn [fasc] in Hf. destruct Hf as (Hbl & Hf).
    pose proof (fasc_le _ _ _ Hf). destruct (Z.eqb_spec (a + 8 * n) b) as [E|E].
    + destruct (touch_next _ _ _ _ _ _ Hasc El (eq_sym E)) as (h2' & -> & El').
      destruct Hasc as (_ & Hk & Hasc). rewrite bind_uld, bind_ust32, bind_uld by (cbn; lia).
      cbn [um set_um]. rewrite rd32_wr32_ne, Eq, bind_uld, ust32_run by (cbn; lia). cbn [um set_um].
      rewrite Ek, rd32_wr32_ne by lia.
      eexists _, (n + k), h2'. split; [done|]. cbn [um set_um].
      assert (Hsb : same_but (um s) (wr32 (wr32 (um s) (a + 4) (u32 (n + k))) a (rd32 (um s) b)) a).
      { eapply same_but_trans; apply same_but_wr32; lia. }
      split; [done|]. split. { cbn [join touch]. rewrite <- E, Z.eqb_refl. done. }
      split; [lia|]. split. { by replace (a + 8 * (n + k)) with (b + 8 * k) by lia. }
      rewrite rd32_wr32_ne, rd32_wr32_eq, rd32_wr32_eq by lia.
      pose proof (asc_le _ _ _ Hasc).
      split; [by rewrite u32_u32, u32_small by lia|].
      rewrite El', (u32_small (rd32 _ _)) by apply rd32_range. eapply seg_fasc_frame; [apply Hsb|apply Hf|lia|done].
    + rewrite ust32_run by lia. eexists _, n, h2. split; [done|].
      assert (Hsb : same_but (um s) (wr32 (um s) a b) a) by (apply same_but_wr32; lia).
      split; [done|]. split.
      { destruct h2 as [|[[[] c] j] h2]; [done..|]. cbn in El. injection El as -> _ _. cbn [join touch].
        destruct (Z.eqb_spec (a + 8 * n) b); done. }
      rewrite rd32_wr32_eq, rd32_wr32_ne, El by lia. split; [lia|]. split; [done|]. split; [done|].
      rewrite u32_small by lia. cbn [seg]. split; [done|].
      rewrite (same_but_rd32 _ _ _ b Hsb), (same_but_rd32 _ _ _ (b + 4) Hsb) by lia. split; [done|].
      eapply seg_fasc_frame; [apply Hsb|apply Hf|lia|done].
Qed.

Lemma free_prev_run s a p k n :
  0 <= p -> 0 <= k -> p + 8 * Z.max 1 k <= a -> 1 <= n -> a + 8 * n <= brk s -> brk s < KERNBASE ->
  rd32 (um s) (p + 4) = k -> rd32 (um s) (a + 4) = n ->
  exists m, free_prev a p s = Ret tt (set_um m s) /\ same_but (um s) m p /\
    (if p + 8 * k =? a then rd32 m p = rd32 (um s) a /\ rd32 m (p + 4) = k + n
     else rd32 m p = a /\ rd32 m (p + 4) = k).
Proof.
  intros Hp Hk Hpa Hn Ha Hbrk Ek En. unfold free_prev, h_size, h_ptr, set_h_size, set_h_ptr.
  rewrite bind_uld by lia. rewrite Ek, hplus_small by lia. destruct (Z.eqb_spec (p + 8 * k) a) as [E|E].
  - rewrite bind_uld, bind_ust32, bind_uld, ust32_run by (cbn; lia). cbn [um set_um].
    eexists. split; [done|]. split; [eapply same_but_trans; apply same_but_wr32; lia|].
    rewrite En, rd32_wr32_eq, (rd32_wr32_ne _ p), rd32_wr32_eq, (rd32_wr32_ne _ (p + 4)) by lia.
    rewrite u32_u32, !u32_small by first [lia|apply rd32_range]. done.
  - rewrite ust32_run by lia. eexists. split; [done|]. split; [apply same_but_wr32; lia|].
    rewrite rd32_wr32_eq, rd32_wr32_ne, u32_small by lia. done.
Qed.

Lemma touch_prev h1 lo a R p k :
  asc lo h1 a -> frees h1 = R ++ [(p, k)] -> p + 8 * k = a -> exists h1', h1 = h1' ++ [(false, p, k)] /\ frees h1' = R.
Proof.
  destruct h1 as [|[[[] c] j] h1 _] using rev_ind; [by intros _ E%symmetry%app_nil_r_inv|..];
    rewrite frees_app; cbn [frees]; intros (H1 & Hj & H2)%asc_mid E Ep; cbn [asc] in H2.
  - rewrite app_nil_r in E. assert (Hin : (p, k) ∈ frees h1) by (rewrite E; set_solver).
    apply (fasc_in _ _ _ _ _ (asc_frees _ _ _ H1)) in Hin. lia.
  - apply app_inj_tail in E as [E1 E]. simplify_eq. eauto.
Qed.

Lemma coalesce_app_r h1 t : coalesce (h1 ++ t) = coalesce (h1 ++ coalesce t).
Proof.
  induction h1 as [|x h1 IH]; cbn [app coalesce]; [|by rewrite IH].
  symmetry. apply coalesce_id, sep_coalesce.
Qed.

(** The result of freeing: joined with the block below or not. *)
Lemma coalesce_free h1 lo a n h2 n' h2' R p k :
  asc lo h1 a -> sep h1 -> sep h2 -> join (false, a, n) h2 = (false, a, n') :: h2' ->
  ring h1 = R ++ [(p, k)] -> base + 8 <= a ->
  if p + 8 * k =? a
  then exists h1', h1 = h1' ++ [(false, p, k)] /\ ring h1' = R /\
         coalesce (h1 ++ (false, a, n) :: h2) = h1' ++ (false, p, k + n') :: h2'
  else coalesce (h1 ++ (false, a, n) :: h2) = h1 ++ (false, a, n') :: h2'.
Proof.
  intros Hasc S1 S2 Hj HR Hba. rewrite coalesce_app_r. cbn [coalesce]. rewrite (coalesce_id h2 S2), Hj.
  assert (SX : sep ((false, a, n') :: h2')) by (rewrite <- Hj; by apply sep_join).
  destruct (Z.eqb_spec (p + 8 * k) a) as [E|E].
  - assert (exists R', frees h1 = R' ++ [(p, k)] /\ R = (base, 0) :: R') as (R' & ER & ->).
    { destruct R as [|x R]; unfold ring in HR; cbn in HR; simplify_eq; [lia|]. eauto. }
    destruct (touch_prev _ _ _ _ _ _ Hasc ER E) as (h1' & -> & <-). exists h1'. split; [done|]. split; [done|].
    rewrite <- app_assoc. cbn [app]. rewrite coalesce_snoc by done. cbn [join touch].
    by rewrite E, Z.eqb_refl.
  - destruct h1 as [|[[u c] j] h1 _] using rev_ind; [cbn [app]; by apply coalesce_id|].
    rewrite <- app_assoc. cbn [app]. rewrite coalesce_snoc by done. rewrite join_id; [done|].
    destruct u; [done|]. unfold ring in HR. rewrite frees_app, app_comm_cons in HR. cbn [frees] in HR.
    apply app_inj_tail in HR as [_ HR]. simplify_eq. cbn. by apply Z.eqb_neq.
Qed.

Lemma used_not_ring s h b j c k :
  heap_ok s h -> (true, b, j) ∈ h -> (c, k) ∈ ring h -> c + 8 <= b \/ b + 8 * j <= c.
Proof.
  intros H Hb [E|Hc]%elem_of_cons; pose proof (ho_asc _ _ H) as Ha.
  - simplify_eq. apply (asc_in _ _ _ _ _ _ Ha) in Hb. lia.
  - apply elem_of_frees in Hc. pose proof (asc_in _ _ _ _ _ _ Ha Hc).
    destruct (asc_disjoint _ _ _ _ _ _ _ _ _ Ha Hb Hc) as [|[]]; [done|lia..].
Qed.

(** A byte that belongs to the free list. *)
Definition ring_byte (h : list blk) (x : Z) : Prop := exists c k, (c, k) ∈ ring h /\ c <= x < c + 8.

(** What [free] does to the memory: the ring of the new layout. *)
Lemma free_stores s h1 a n h2 :
  heap_ok s (h1 ++ (true, a, n) :: h2) ->
  exists m p, free (a + 8) s = Ret tt {| um := m; freep := p; brk := brk s |} /\
    (p ∈ (ring h1).*1) /\ p ∈ (ring (coalesce (h1 ++ (false, a, n) :: h2))).*1 /\
    (forall x, ~ (a <= x < a + 8) -> ~ (p <= x < p + 8) -> rd8 m x = rd8 (um s) x) /\
    seg m (ring (coalesce (h1 ++ (false, a, n) :: h2))) base base.
Proof.
  intros H. destruct (ring_last h1) as (R & p & k & HR). pose proof (find_run _ _ _ _ _ _ _ _ H HR) as Hf.
  destruct H as [Hb0 Hbrk Hasc Hu Hring Hfp Hsep].
  pose proof Hasc as (H1 & Hn & H2)%asc_mid. pose proof (asc_le _ _ _ H1). pose proof (asc_le _ _ _ H2).
  apply sep_app in Hsep as [S1 S2%sep_cons_inv].
  rewrite ring_split, HR, <- app_assoc in Hring. apply seg_app in Hring as (y & G1 & -> & Ek & G2).
  pose proof (ring_fasc _ _ H1) as F1. rewrite HR in F1. apply fasc_app in F1 as (mid & F1 & Fp & Fe).
  cbn [fasc] in Fe. pose proof (fasc_le _ _ _ F1).
  assert (Hk : 0 <= k).
  { assert (Hin : (p, k) ∈ ring h1) by (rewrite HR; set_solver). apply elem_of_cons in Hin as [|Hin]; [simplify_eq; lia|].
    apply elem_of_frees in Hin. apply (asc_in _ _ _ _ _ _ H1) in Hin. lia. }
  destruct (free_next_run s a n h2 p (brk s)) as (m1 & n' & h2' & E1 & B1 & Hj & Hn' & A' & En' & G2');
    try done; try lia. { apply Hu. set_solver. }
  pose proof (asc_le _ _ _ A').
  destruct (free_prev_run (set_um m1 s) a p k n') as (m2 & E2 & B2 & Hp2); cbn [um set_um brk] in *; try lia.
  { rewrite (same_but_rd32 _ _ _ _ B1) by lia. done. }
  pose proof (coalesce_free h1 _ a n h2 n' h2' R p k H1 S1 S2 Hj HR ltac:(lia)) as Hc.
  exists m2, p. split.
  { unfold free, free_at, get, gets, modify, bind. replace (a + 8 - 8) with a by lia. rewrite u32_small by lia.
    rewrite Hf, E1, E2. done. }
  split; [rewrite HR, fmap_app; set_solver|].
  assert (GR : seg m2 R base p).
  { eapply seg_fasc_frame; [apply B2|apply F1|lia|]. eapply seg_fasc_frame; [apply B1|apply F1|lia|done]. }
  assert (Gh : forall x, seg m1 (frees h2') x base -> seg m2 (frees h2') x base).
  { intros x. eapply seg_fasc_frame; [apply B2|apply asc_frees, A'|lia]. }
  destruct (Z.eqb_spec (p + 8 * k) a) as [E|E].
  - destruct Hc as (h1' & -> & HR' & ->). destruct Hp2 as [P1 P2].
    assert (Er : ring (h1' ++ (false, p, k + n') :: h2') = R ++ (p, k + n') :: frees h2')
      by (unfold ring in *; by rewrite frees_app, app_comm_cons, HR').
    rewrite Er. split; [rewrite fmap_app; set_solver|]. split; [intros x ? ?; by rewrite B2, B1|].
    apply seg_app. exists p. split; [done|]. cbn [seg]. rewrite P1, P2. auto.
  - rewrite Hc. destruct Hp2 as [P1 P2].
    assert (Er : ring (h1 ++ (false, a, n') :: h2') = R ++ (p, k) :: (a, n') :: frees h2')
      by (unfold ring in *; by rewrite frees_app, app_comm_cons, HR, <- app_assoc).
    rewrite Er. split; [rewrite fmap_app; set_solver|]. split; [intros x ? ?; by rewrite B2, B1|].
    apply seg_app. exists p. split; [done|]. cbn [seg].
    rewrite P1, P2, !(same_but_rd32 _ _ _ _ B2) by lia. auto 10.
Qed.

Lemma elem_of_mid {A} (l1 : list A) x l2 : x ∈ l1 ++ x :: l2.
Proof. apply elem_of_app. right. apply list_elem_of_here. Qed.

Lemma asc_retag h1 u u' a n h2 lo hi : asc lo (h1 ++ (u, a, n) :: h2) hi -> asc lo (h1 ++ (u', a, n) :: h2) hi.
Proof. by rewrite !asc_mid. Qed.

Lemma used_retag (h1 h2 : list blk) (a n b j : Z) : (true, b, j) ∈ h1 ++ (false, a, n) :: h2 -> (true, b, j) ∈ h1 ++ (true, a, n) :: h2.
Proof. rewrite !elem_of_app, !elem_of_cons. naive_solver. Qed.

Lemma elem_of_ring_addr h c : c ∈ (ring h).*1 -> exists k, (c, k) ∈ ring h.
Proof. intros ([c' k] & -> & Hin)%list_elem_of_fmap. eauto. Qed.

(** [free] comes back without a fault. The block becomes free and is merged
    with the free blocks it touches, whatever place of the ring [freep] points
    to; the bytes of all other blocks in use are left alone. *)
Lemma free_ok s h1 a n h2 :
  heap_ok s (h1 ++ (true, a, n) :: h2) ->
  exists s', free (a + 8) s = Ret tt s' /\
    heap_ok s' (coalesce (h1 ++ (false, a, n) :: h2)) /\ brk s' = brk s /\
    forall x, ~ (a <= x < a + 8) -> ~ ring_byte (h1 ++ (true, a, n) :: h2) x -> rd8 (um s') x = rd8 (um s) x.
Proof.
  intros H. destruct (free_stores _ _ _ _ _ H) as (m & p & E & Hp & Hp' & Hfr & Hseg).
  eexists. split; [exact E|]. apply elem_of_ring_addr in Hp as [k Hp].
  assert (Hpr : (p, k) ∈ ring (h1 ++ (true, a, n) :: h2)) by (rewrite ring_split; apply elem_of_app; by left).
  split; [|split; [done|]].
  - destruct (H) as [Hb0 Hbrk Hasc Hu _ _ _]. split; cbn [um brk freep]; try done.
    + eapply asc_coalesce, asc_retag, Hasc.
    + intros b j Hin. rewrite used_coalesce in Hin. assert (Hin' : (true, b, j) ∈ h1 ++ (true, a, n) :: h2) by exact (used_retag _ _ _ _ _ _ Hin).
      rewrite <- (Hu b j Hin'). apply rd32_ext. intros x Hx.
      pose proof (used_not_ring _ _ _ _ _ _ H Hin' Hpr). pose proof (asc_in _ _ _ _ _ _ Hasc Hin').
      pose proof (asc_in _ _ _ _ _ _ Hasc (elem_of_mid _ _ _)). apply asc_retag with (u' := false) in Hasc.
      destruct (asc_disjoint _ _ _ _ b j _ a n Hasc Hin (elem_of_mid _ _ _)) as [|[]]; [done|apply Hfr; lia..].
    + apply sep_coalesce.
  - intros x Hx Hr. apply Hfr; [done|]. intros Hpx. apply Hr. by exists p, k.
Qed.

(** ** [morecore] *)

Lemma rd8_filter m hi x : x < hi -> rd8 (filter (fun y : Z * Z => y.1 < hi) m) x = rd8 m x.
Proof.
  intros Hx. unfold rd8. f_equal. destruct (m !! x) eqn:E.
  - rewrite (map_lookup_filter_Some_2 _ _ _ _ E); done.
  - rewrite map_lookup_filter_None_2; [done|]. by left.
Qed.

Lemma sbrk_grow s n : 0 < n < KERNBASE -> 0 <= brk s < KERNBASE ->
  sbrk n s = Ret (u32 (-1)) s \/
  (brk s + n < KERNBASE /\
   sbrk n s = Ret (brk s) {| um := filter (fun x => x.1 < PGROUNDUP (brk s)) (um s); freep := freep s; brk := brk s + n |}).
Proof.
  intros. unfold sbrk, get, put, bind. rewrite i32_small, u32_small by lia.
  range_cases; try (by left). destruct (grant _ _); [right|left]; done.
Qed.

Lemma ring_used h a n : ring (h ++ [(true, a, n)]) = ring h.
Proof. rewrite ring_split. apply app_nil_r. Qed.

Lemma sep_used h a n : sep h -> sep (h ++ [(true, a, n)]).
Proof.
  induction h as [|x h IH]; [done|]. intros H. pose proof (IH (sep_cons_inv _ _ H)) as IH'.
  destruct h as [|y h]; cbn [app] in *; [split; [by destruct x as [[[] ?] ?]|done]|]. by destruct H.
Qed.

(** A state in which the heap's memory has not changed and the process has grown. *)
Lemma heap_ok_grow s h m b :
  heap_ok s h -> brk s <= b < KERNBASE -> (forall x, x < brk s -> rd8 m x = rd8 (um s) x) ->
  heap_ok {| um := m; freep := freep s; brk := b |} h.
Proof.
  intros [Hb0 Hbrk Hasc Hu Hring Hfp Hsep] Hb Hm. split; cbn [um brk freep]; try done; [lia|..].
  - eapply asc_weaken; [done|lia..].
  - intros a n Hin. rewrite <- (Hu a n Hin). apply rd32_ext. intros x Hx.
    apply (asc_in _ _ _ _ _ _ Hasc) in Hin. apply Hm. lia.
  - eapply seg_frame; [|done]. intros a n Hin x Hx. apply Hm.
    apply (fasc_in _ _ _ _ _ (ring_fasc _ _ Hasc)) in Hin. lia.
Qed.

Lemma morecore_ok s h nu :
  heap_ok s h -> 0 < nu -> 8 * nu < KERNBASE ->
  morecore nu s = Ret 0 s \/
  exists s' nu', nu' = Z.max 4096 nu /\ morecore nu s = Ret (freep s') s' /\
    heap_ok s' (coalesce (h ++ [(false, brk s, nu')])) /\ brk s' = brk s + 8 * nu' /\
    forall x, x < brk s -> ~ ring_byte h x -> rd8 (um s') x = rd8 (um s) x.
Proof.
  intros H Hnu Hnu2. pose proof (ho_brk _ _ H) as Hbrk. pose proof (ho_base _ _ H) as Hb0.
  pose proof (asc_le _ _ _ (ho_asc _ _ H)). unfold morecore. cbv zeta.
  assert (En : (if nu <? 4096 then 4096 else nu) = Z.max 4096 nu) by (range_cases; lia). rewrite En.
  set (nu' := Z.max 4096 nu). rewrite (u32_small (nu' * 8)) by lia.
  destruct (sbrk_grow s (nu' * 8)) as [E|(Hb & E)]; [lia..|left|right]; mstep E; [done|].
  destruct (Z.eqb_spec (brk s) (u32 (-1))) as [E'|_]; [by rewrite E' in Hbrk|].
  set (m1 := filter _ _). unfold set_h_size. rewrite bind_ust32 by (cbn; lia). unfold set_um. cbn [um freep brk].
  set (m2 := wr32 m1 (brk s + 4) nu').
  assert (Hm2 : forall x, x < brk s -> rd8 m2 x = rd8 (um s) x).
  { intros x Hx. unfold m2. rewrite rd8_wr32. range_cases. apply rd8_filter. pose proof (brk_le_page (brk s)). lia. }
  pose proof (heap_ok_grow _ _ m2 (brk s + nu' * 8) H ltac:(lia) Hm2) as H2.
  assert (H3 : heap_ok {| um := m2; freep := freep s; brk := brk s + nu' * 8 |} (h ++ [(true, brk s, nu')])).
  { destruct H2 as [_ _ _ Hu Hring Hfp Hsep]. split; cbn [um brk freep] in *; try done; try lia.
    - apply asc_app. exists (brk s). split; [apply (ho_asc _ _ H)|]. cbn [asc]. lia.
    - intros a n [Hin|Hin%list_elem_of_singleton]%elem_of_app; [by apply Hu|]. simplify_eq.
      unfold m2. rewrite rd32_wr32_eq, u32_small by lia. done.
    - by rewrite ring_used.
    - by rewrite ring_used.
    - by apply sep_used. }
  destruct (free_ok _ h (brk s) nu' [] H3) as (s' & E2 & H4 & Hb4 & Hfr).
  rewrite (u32_small (brk s + 8)) by lia. mstep E2. exists s', nu'. split; [done|]. split; [done|]. split; [done|].
  cbn [brk um] in *. split; [lia|]. intros x Hx Hr. rewrite Hfr; [by apply Hm2|lia|].
  unfold ring_byte. by rewrite ring_used.
Qed.

(** ** The search of [malloc] *)

Lemma fasc_nodup l : forall lo hi, fasc lo l hi -> NoDup l.*1.
Proof.
  induction l as [|[a n] l IH]; intros lo hi H; [constructor|]. destruct H as (_ & H).
  rewrite fmap_cons. constructor; [|by eapply IH]. cbn. intros ([b k] & Eb & Hin)%list_elem_of_fmap. cbn in Eb.
  apply (fasc_in _ _ _ _ _ H) in Hin. lia.
Qed.

Lemma nodup_split (A C B D : list (Z * Z)) a k k' :
  A ++ (a, k) :: B = C ++ (a, k') :: D -> NoDup (A ++ (a, k) :: B).*1 -> A = C /\ k = k' /\ B = D.
Proof.
  revert C. induction A as [|x A IH]; intros [|y C] E Hn; cbn [app] in E.
  - by simplify_eq.
  - exfalso. injection E as <- ->. apply NoDup_cons in Hn as [Hn _]. apply Hn.
    apply list_elem_of_fmap. exists (a, k'). split; [done|apply elem_of_mid].
  - exfalso. injection E as -> <-. apply NoDup_cons in Hn as [Hn _]. apply Hn.
    apply list_elem_of_fmap. exists (a, k). split; [done|apply elem_of_mid].
  - injection E as -> E. apply NoDup_cons in Hn as [_ Hn]. by destruct (IH _ E Hn) as (-> & -> & ->).
Qed.

Lemma split_first n (l : list (Z * Z)) :
  Forall (fun x => x.2 < n) l \/
  exists l1 c k l2, l = l1 ++ (c, k) :: l2 /\ Forall (fun x => x.2 < n) l1 /\ n <= k.
Proof.
  induction l as [|[c k] l IH]; [by left|]. destruct (Z.ltb_spec k n).
  - destruct IH as [H1|(l1 & c' & k' & l2 & -> & H1 & H2)]; [left; by constructor|right].
    exists ((c, k) :: l1), c', k', l2. split; [done|]. split; [by constructor|done].
  - right. by exists [], c, k, l.
Qed.

(** Blocks that are too small are passed by. *)
Lemma malloc_skip s n l : 0 <= brk s < KERNBASE -> forall prevp p c,
  seg (um s) l p c -> rd32 (um s) prevp = p ->
  Forall (fun x => x.2 < n) l -> (forall a k, (a, k) ∈ l -> a <> freep s /\ a + 8 <= brk s) ->
  exists prevp', (forall f, malloc_loop (length l + f) n prevp p s = malloc_loop f n prevp' c s) /\
    prevp' ∈ prevp :: l.*1 /\ rd32 (um s) prevp' = c.
Proof.
  intros Hbrk. induction l as [|[a k] l IH]; intros prevp p c Hs Hp Hl Ha; cbn [seg] in Hs.
  - subst. exists prevp. repeat split. apply list_elem_of_here.
  - destruct Hs as (-> & Ek & Hs). apply Forall_cons in Hl as [Hk Hl']. destruct (Ha a _ (list_elem_of_here _ _)) as [Hne Hb].
    destruct (IH a _ c Hs eq_refl Hl') as (prevp' & E & Hin & Hr).
    { intros b j Hin. apply (Ha b j). by apply list_elem_of_further. }
    exists prevp'. split; [|split; [|done]].
    + intros f. cbn [length Nat.add malloc_loop]. unfold h_size, h_ptr. rewrite bind_uld by lia.
      cbn [snd] in Hk. rewrite Ek. destruct (Z.leb_spec n k); [lia|].
      unfold gets at 1, bind at 1. destruct (Z.eqb_spec a (freep s)); [done|].
      rewrite bind_uld by lia. apply E.
    + rewrite fmap_cons. by apply list_elem_of_further.
Qed.

(** From [freep], the search either finds a block or comes back to [freep]. *)
Lemma malloc_scan s h n :
  heap_ok s h ->
  exists g prevp c k, (g < length (ring h))%nat /\ (c, k) ∈ ring h /\ prevp ∈ (ring h).*1 /\ rd32 (um s) prevp = c /\
    (forall f, malloc_loop (g + f) n (freep s) (rd32 (um s) (freep s)) s = malloc_loop f n prevp c s) /\
    (n <= k \/ (c = freep s /\ Forall (fun x => x.2 < n) (ring h))).
Proof.
  intros H. pose proof (ring_fasc _ _ (ho_asc _ _ H)) as Hf. pose proof (fasc_nodup _ _ _ Hf) as Hnd.
  pose proof (ho_brk _ _ H) as Hbrk. pose proof (asc_le _ _ _ (ho_asc _ _ H)). pose proof (ho_base _ _ H).
  destruct (freep_in _ _ (ho_freep _ _ H)) as (j & A & B & HR). set (e := freep s) in *.
  pose proof (ho_ring _ _ H) as Hs. rewrite HR in Hs. apply seg_app in Hs as (y & SA & -> & Ej & SB).
  assert (SL : seg (um s) (B ++ A) (rd32 (um s) e) e) by (apply seg_app; eauto).
  assert (HLin : forall a k, (a, k) ∈ B ++ A -> (a, k) ∈ ring h /\ a <> e).
  { intros a k Hin. rewrite HR in Hnd |- *. rewrite fmap_app, fmap_cons in Hnd. apply NoDup_app in Hnd as (_ & N1 & N2%NoDup_cons).
    destruct N2 as [N2 _]. split; [rewrite elem_of_app, elem_of_cons in *; naive_solver|].
    intros ->. rewrite elem_of_app in Hin. destruct Hin as [Hin|Hin].
    - apply N2. cbn. apply list_elem_of_fmap. by exists (e, k).
    - apply (N1 e); [apply list_elem_of_fmap; by exists (e, k)|apply list_elem_of_here]. }
  assert (HLb : forall a k, (a, k) ∈ B ++ A -> a <> e /\ a + 8 <= brk s).
  { intros a k Hin. destruct (HLin _ _ Hin) as [Hin' Hne]. apply (fasc_in _ _ _ _ _ Hf) in Hin'. lia. }
  assert (Hel : length (ring h) = S (length (B ++ A))) by (rewrite HR, !length_app; cbn; lia).
  assert (Hee : (e, j) ∈ ring h) by (rewrite HR; apply elem_of_mid).
  assert (Hadr : forall l prevp, (forall x, x ∈ l -> x ∈ B ++ A) -> prevp ∈ e :: l.*1 -> prevp ∈ (ring h).*1).
  { intros l prevp Hl [->|([a k] & -> & Hin)%list_elem_of_fmap]%elem_of_cons; apply list_elem_of_fmap; [by exists (e, j)|].
    exists (a, k). split; [done|]. by apply HLin, Hl. }
  destruct (split_first n (B ++ A)) as [Hall|(l1 & c & k & l2 & EL & Hl1 & Hk)].
  - destruct (malloc_skip s n (B ++ A) ltac:(lia) e _ e SL eq_refl Hall HLb) as (prevp & E & Hin & Hr).
    exists (length (B ++ A)), prevp, e, j. split; [lia|]. split; [done|]. split; [by eapply Hadr|].
    split; [done|]. split; [done|]. destruct (Z.le_gt_cases n j); [by left|right]. split; [done|].
    rewrite HR. apply Forall_app in Hall as [HB HA]. apply Forall_app. split; [done|]. constructor; [cbn; lia|done].
  - rewrite EL in SL. apply seg_app in SL as (y & SL & Sc). assert (y = c) as -> by (cbn in Sc; tauto).
    assert (Hsub : forall x, x ∈ l1 -> x ∈ B ++ A) by (intros; rewrite EL; apply elem_of_app; by left).
    destruct (malloc_skip s n l1 ltac:(lia) e _ c SL eq_refl Hl1) as (prevp & E & Hin & Hr).
    { intros a i Hin. apply (HLb a i). by apply Hsub. }
    exists (length l1), prevp, c, k. split. { rewrite EL, length_app in Hel. cbn [length] in Hel. lia. }
    split. { apply HLin. rewrite EL. apply elem_of_mid. }
    split; [by eapply Hadr|]. auto.
Qed.

(** ** Taking a block *)

Lemma sep_mid h1 x h2 : sep (h1 ++ x :: h2) <-> sep (h1 ++ [x]) /\ sep (x :: h2).
Proof.
  induction h1 as [|y h1 IH]; [cbn [app]; cbn; tauto|]. destruct h1 as [|z h1]; cbn [app] in *; cbn in *; tauto.
Qed.

Lemma sep_last h1 x x' : (forall y, touch y x = false -> touch y x' = false) -> sep (h1 ++ [x]) -> sep (h1 ++ [x']).
Proof.
  intros Hx. induction h1 as [|y h1 IH]; [done|]. destruct h1 as [|z h1]; cbn [app] in *; cbn in *; naive_solver.
Qed.

Lemma sep_take h1 c k n h2 :
  sep (h1 ++ (false, c, k) :: h2) ->
  sep (h1 ++ (if k =? n then [] else [(false, c, k - n)]) ++ (true, c + 8 * (k - n), n) :: h2).
Proof.
  intros [H1 H2]%sep_mid. apply sep_cons_inv in H2.
  assert (Hu : forall a, sep ((true, a, n) :: h2)) by (intros; by destruct h2).
  destruct (k =? n); cbn [app]; apply sep_mid; (split; [eapply sep_last; [|exact H1]|]).
  - by intros [[[] ?] ?].
  - apply Hu.
  - intros y. by rewrite (touch_head y false c k (k - n)).
  - split; [done|apply Hu].
Qed.

(** The end of a free block of at least [n] units becomes the block [p]. *)
Definition takes (n : Z) (h : list blk) (p : Z) (h' : list blk) : Prop :=
  exists h1 c k h2, h = h1 ++ (false, c, k) :: h2 /\ n <= k /\ p = c + 8 * (k - n) + 8 /\
    h' = h1 ++ (if k =? n then [] else [(false, c, k - n)]) ++ (true, c + 8 * (k - n), n) :: h2.

Lemma asc_take h1 c k n h2 lo hi :
  1 <= n <= k -> asc lo (h1 ++ (false, c, k) :: h2) hi ->
  asc lo (h1 ++ (if k =? n then [] else [(false, c, k - n)]) ++ (true, c + 8 * (k - n), n) :: h2) hi.
Proof.
  intros Hn (H1 & Hk & H2)%asc_mid. destruct (Z.eqb_spec k n) as [->|]; cbn [app]; apply asc_mid.
  - rewrite Z.sub_diag, Z.mul_0_r, Z.add_0_r. done.
  - cbn [asc]. split; [done|]. split; [lia|]. split; [lia|]. split; [lia|].
    by replace (c + 8 * (k - n) + 8 * n) with (c + 8 * k) by lia.
Qed.

(** The ring in front of a block: the header that points to it is the last one. *)
Lemma ring_pred s h1 c k h2 prevp :
  heap_ok s (h1 ++ (false, c, k) :: h2) -> prevp ∈ (ring (h1 ++ (false, c, k) :: h2)).*1 -> rd32 (um s) prevp = c ->
  exists A j, ring h1 = A ++ [(prevp, j)].
Proof.
  intros H Hin Hr. destruct (freep_in _ _ Hin) as (j & A & B & HR).
  pose proof (fasc_nodup _ _ _ (ring_fasc _ _ (ho_asc _ _ H))) as Hnd. pose proof (ho_ring _ _ H) as Hs.
  pose proof (ho_asc _ _ H) as (H1%asc_le & _)%asc_mid.
  assert (E : ring (h1 ++ (false, c, k) :: h2) = ring h1 ++ (c, k) :: frees h2) by (unfold ring; by rewrite frees_app).
  rewrite HR in Hs. apply seg_app in Hs as (y & _ & _ & _ & SB). rewrite Hr in SB.
  destruct B as [|[c' k'] B]; cbn [seg] in SB; [lia|]. destruct SB as (<- & _).
  exists A, j. rewrite E in HR, Hnd. replace (A ++ _) with ((A ++ [(prevp, j)]) ++ (c, k') :: B) in HR by by rewrite <- app_assoc.
  by destruct (nodup_split _ _ _ _ _ _ _ HR Hnd).
Qed.

Lemma ring_byte_in h c k x : (c, k) ∈ ring h -> c <= x < c + 8 -> ring_byte h x.
Proof. intros. by exists c, k. Qed.

Lemma take_stores s h1 c k h2 n prevp f :
  let h := h1 ++ (false, c, k) :: h2 in
  let h' := h1 ++ (if k =? n then [] else [(false, c, k - n)]) ++ (true, c + 8 * (k - n), n) :: h2 in
  heap_ok s h -> 1 <= n <= k -> prevp ∈ (ring h).*1 -> rd32 (um s) prevp = c ->
  exists m, malloc_loop (S f) n prevp c s = Ret (c + 8 * (k - n) + 8) {| um := m; freep := prevp; brk := brk s |} /\
    seg m (ring h') base base /\ prevp ∈ (ring h').*1 /\ rd32 m (c + 8 * (k - n) + 4) = n /\
    (forall x, ~ ring_byte h x -> ~ (c + 8 * (k - n) <= x < c + 8 * (k - n) + 8) -> rd8 m x = rd8 (um s) x).
Proof.
  intros h h' H Hn Hpin Hr. destruct (ring_pred _ _ _ _ _ _ H Hpin Hr) as (A & j & HA).
  pose proof (ho_asc _ _ H) as Hasc. pose proof (ho_base _ _ H) as Hb0. pose proof (ho_brk _ _ H) as Hbrk.
  apply asc_mid in Hasc as (H1 & Hk & H2). pose proof (asc_le _ _ _ H1). pose proof (asc_le _ _ _ H2).
  pose proof (ring_fasc _ _ H1) as F1. pose proof F1 as F1'. rewrite HA in F1'.
  apply fasc_app in F1' as (mid & FA & Fp & Fe). cbn [fasc] in Fe. pose proof (fasc_le _ _ _ FA).
  pose proof (asc_frees _ _ _ H2) as F2.
  assert (E : ring h = ring h1 ++ (c, k) :: frees h2) by (unfold h, ring; by rewrite frees_app).
  assert (Hpr : (prevp, j) ∈ ring h) by (rewrite E, HA; set_solver).
  assert (Hcr : (c, k) ∈ ring h) by (rewrite E; apply elem_of_mid).
  pose proof (ho_ring _ _ H) as Hs. fold h in Hs. rewrite E in Hs.
  apply seg_app in Hs as (y & S1 & -> & Ek & S2).
  cbn [malloc_loop]. unfold h_size, h_ptr, set_h_size, set_h_ptr. rewrite bind_uld by lia. rewrite Ek.
  destruct (Z.leb_spec n k); [|lia]. destruct (Z.eqb_spec k n) as [->|Hne]; subst h'.
  - rewrite !bind_assoc, bind_uld, bind_assoc, bind_ust32 by lia.
    unfold ret, modify, set_freep, set_um, bind. cbn [um freep brk]. rewrite Z.sub_diag, Z.mul_0_r, Z.add_0_r, u32_small by lia.
    eexists. split; [done|]. cbn [app]. rewrite ring_split.
    assert (B : same_but (um s) (wr32 (um s) prevp (rd32 (um s) c)) prevp) by (apply same_but_wr32; lia).
    rewrite HA in S1. apply seg_app in S1 as (y & SA & -> & Ej & _).
    split. { rewrite HA, <- app_assoc. apply seg_app. exists prevp.
      split; [eapply seg_fasc_frame; [apply B|apply FA|lia|done]|]. cbn [app seg]. split; [done|].
      rewrite rd32_wr32_ne, rd32_wr32_eq, u32_small by (lia || apply rd32_range). split; [done|].
      eapply seg_fasc_frame; [apply B|apply F2|lia|done]. }
    split. { rewrite HA, !fmap_app. set_solver. }
    split; [by rewrite rd32_wr32_ne by lia|].
    intros x Hx _. apply B. intros Hpx. apply Hx. by eapply ring_byte_in.
  - rewrite !bind_assoc, bind_ust32 by lia. rewrite bind_assoc, bind_uld by (cbn; lia). cbn [um set_um].
    rewrite rd32_wr32_eq, u32_u32, (u32_small (k - n)), hplus_small by lia.
    rewrite bind_assoc, bind_ust32 by (cbn; lia). unfold ret, modify, set_freep, set_um, bind. cbn [um freep brk].
    rewrite u32_small by lia. eexists. split; [done|].
    set (p := c + 8 * (k - n)). set (m1 := wr32 (um s) (c + 4) (k - n)).
    assert (B1 : same_but (um s) m1 c) by (apply same_but_wr32; lia).
    assert (B2 : same_but m1 (wr32 m1 (p + 4) n) p) by (apply same_but_wr32; lia).
    assert (E' : ring (h1 ++ [(false, c, k - n)] ++ (true, p, n) :: h2) = ring h1 ++ (c, k - n) :: frees h2)
      by (unfold ring; by rewrite !frees_app).
    rewrite E'. split. { apply seg_app. exists c.
      split; [eapply seg_fasc_frame; [apply B2|apply F1|lia|]; eapply seg_fasc_frame; [apply B1|apply F1|lia|done]|].
      cbn [seg]. split; [done|]. rewrite !rd32_wr32_ne by lia. unfold m1. rewrite rd32_wr32_eq, rd32_wr32_ne, u32_small by lia.
      split; [done|]. eapply seg_fasc_frame; [apply B2|apply F2|lia|]. eapply seg_fasc_frame; [apply B1|apply F2|lia|done]. }
    split. { rewrite HA, !fmap_app. set_solver. }
    split; [by rewrite rd32_wr32_eq, u32_small by lia|].
    intros x Hx Hxp. rewrite B2, B1; [done| |done]. intros Hcx. apply Hx. by eapply ring_byte_in.
Qed.

Lemma take_ok s h n prevp c k f :
  heap_ok s h -> (c, k) ∈ ring h -> 1 <= n <= k -> prevp ∈ (ring h).*1 -> rd32 (um s) prevp = c ->
  exists p s' h', malloc_loop (S f) n prevp c s = Ret p s' /\ heap_ok s' h' /\ takes n h p h' /\ brk s' = brk s /\
    forall x, ~ ring_byte h x -> ~ (p - 8 <= x < p) -> rd8 (um s') x = rd8 (um s) x.
Proof.
  intros H Hin Hn Hp Hr. assert (Hf : (c, k) ∈ frees h) by (apply elem_of_cons in Hin as [|]; [simplify_eq; lia|done]).
  apply elem_of_frees, list_elem_of_split in Hf as (h1 & h2 & ->).
  destruct (take_stores s h1 c k h2 n prevp f H Hn Hp Hr) as (m & E & Hs & Hpin & En & Hfr).
  eexists _, _, _. split; [exact E|].
  assert (Hfr' : forall x, ~ ring_byte (h1 ++ (false, c, k) :: h2) x ->
    ~ (c + 8 * (k - n) + 8 - 8 <= x < c + 8 * (k - n) + 8) -> rd8 m x = rd8 (um s) x) by (intros; apply Hfr; [done|lia]).
  split; [|split; [exists h1, c, k, h2; split_and!; [done|lia|done|done]|done]].
  destruct (H) as [Hb0 Hbrk Hasc Hu _ _ Hsep]. split; cbn [um brk freep]; try done.
  - by apply asc_take.
  - intros b i Hb. destruct (decide ((true, b, i) = (true, c + 8 * (k - n), n))) as [Eb|Eb]; [by simplify_eq|].
    assert (Hb' : (true, b, i) ∈ h1 ++ (false, c, k) :: h2).
    { rewrite !elem_of_app, !elem_of_cons in *. destruct (k =? n); set_solver. }
    rewrite <- (Hu b i Hb'). apply rd32_ext. intros x Hx. pose proof (asc_in _ _ _ _ _ _ Hasc Hb').
    apply Hfr.
    + intros (a & z & Ha & Hax). pose proof (used_not_ring _ _ _ _ _ _ H Hb' Ha). lia.
    + destruct (asc_disjoint _ _ _ _ _ _ _ _ _ Hasc Hb' (elem_of_mid h1 (false, c, k) h2)) as [|[]]; [done|lia..].
  - by apply sep_take.
Qed.

(** ** [malloc] as a whole *)

Lemma frees_join x h : (length (frees (join x h)) <= length (frees (x :: h)))%nat.
Proof.
  destruct h as [|y h]; [done|]. cbn [join]. destruct (touch x y) eqn:E; [|done].
  destruct x as [[[] ?] ?], y as [[[] ?] ?]; try done. cbn. lia.
Qed.

Lemma frees_coalesce h : (length (frees (coalesce h)) <= length (frees h))%nat.
Proof.
  induction h as [|x h IH]; [done|]. cbn [coalesce]. etrans; [apply frees_join|].
  destruct x as [[[] ?] ?]; cbn; lia.
Qed.

(** Merging does not make blocks smaller. *)
Lemma coalesce_big h : forall lo hi a k, asc lo h hi -> (false, a, k) ∈ h ->
  exists b j, (false, b, j) ∈ coalesce h /\ k <= j.
Proof.
  induction h as [|[[u c] i] h IH]; intros lo hi a k Ha Hin; [by apply elem_of_nil in Hin|].
  cbn [coalesce]. destruct Ha as (_ & Hi & Ha). pose proof (asc_coalesce _ _ _ Ha) as Hc.
  assert (Hlow : forall b j, (false, b, j) ∈ (u, c, i) :: coalesce h ->
    exists b' j', (false, b', j') ∈ join (u, c, i) (coalesce h) /\ j <= j').
  { intros b j Hb. destruct (coalesce h) as [|[[u' d] z] t]; [eauto with lia|]. cbn [join].
    destruct (touch _ _) eqn:E; [|eauto with lia]. destruct u, u'; try done. cbn [asc fst snd] in *.
    rewrite !elem_of_cons in Hb. destruct Hb as [Hb|[Hb|Hb]]; simplify_eq.
    1,2: eexists _, _; split; [apply list_elem_of_here|lia].
    exists b, j. split; [by apply list_elem_of_further|lia]. }
  apply elem_of_cons in Hin as [E|Hin].
  - injection E as <- <- <-. apply (Hlow a k), list_elem_of_here.
  - destruct (IH _ _ _ _ Ha Hin) as (b & j & Hb & Hj).
    destruct (Hlow b j) as (b' & j' & Hb' & Hj'); [by apply list_elem_of_further|]. exists b', j'. split; [done|lia].
Qed.

Lemma ring_length s h : heap_ok s h -> Z.of_nat (length (ring h)) <= brk s / 8.
Proof.
  intros H. pose proof (fasc_length _ _ _ (ring_fasc _ _ (ho_asc _ _ H))). pose proof (ho_base _ _ H).
  apply Z.div_le_lower_bound; lia.
Qed.

(** What a successful call gives: the end of a free block that was there, or,
    if none was large enough, of one that includes new memory. *)
Definition malloc_gives (n : Z) (s : ust) (h : list blk) (p : Z) (s' : ust) (h' : list blk) : Prop :=
  heap_ok s' h' /\
  ((takes n h p h' /\ brk s' = brk s) \/
   (Forall (fun x => x.2 < n) (ring h) /\ brk s' = brk s + 8 * Z.max 4096 n /\
    takes n (coalesce (h ++ [(false, brk s, Z.max 4096 n)])) p h')) /\
  forall a k x, (true, a, k) ∈ h -> a + 8 <= x < a + 8 * k -> rd8 (um s') x = rd8 (um s) x.

Lemma used_kept_bytes s h a k x : heap_ok s h -> (true, a, k) ∈ h -> a <= x < a + 8 * k -> ~ ring_byte h x.
Proof. intros H Hin Hx (c & j & Hc & Hcx). pose proof (used_not_ring _ _ _ _ _ _ H Hin Hc). lia. Qed.

Lemma takes_new n h p h' lo hi a k :
  asc lo h hi -> takes n h p h' -> (true, a, k) ∈ h -> a + 8 * k <= p - 8 \/ p - 8 + 8 * n <= a.
Proof.
  intros Ha (h1 & c & j & h2 & -> & Hj & -> & _) Hin.
  destruct (asc_disjoint _ _ _ _ _ _ _ _ _ Ha Hin (elem_of_mid h1 (false, c, j) h2)) as [|[]]; [done|lia..].
Qed.

(** The header at [freep] in memory. *)
Lemma freep_header s h k : heap_ok s h -> (freep s, k) ∈ ring h ->
  rd32 (um s) (freep s + 4) = k /\ 0 < freep s /\ freep s + 8 <= brk s.
Proof.
  intros H Hc. pose proof (ho_base _ _ H). split.
  - apply list_elem_of_split in Hc as (A & B & HR). pose proof (ho_ring _ _ H) as Hs. rewrite HR in Hs.
    by apply seg_app in Hs as (y & _ & _ & ? & _).
  - apply (fasc_in _ _ _ _ _ (ring_fasc _ _ (ho_asc _ _ H))) in Hc. lia.
Qed.

(** A search that finds a block. *)
Lemma malloc_first s h n fuel :
  heap_ok s h -> 1 <= n -> (length (ring h) <= fuel)%nat -> ~ Forall (fun x => x.2 < n) (ring h) ->
  exists p s' h', malloc_loop fuel n (freep s) (rd32 (um s) (freep s)) s = Ret p s' /\
    heap_ok s' h' /\ takes n h p h' /\ brk s' = brk s /\
    forall a k x, (true, a, k) ∈ h -> a + 8 <= x < a + 8 * k -> rd8 (um s') x = rd8 (um s) x.
Proof.
  intros H Hn Hfuel Hno. pose proof (ho_asc _ _ H) as Hasc.
  destruct (malloc_scan s h n H) as (g & prevp & c & k & Hg & Hc & Hp & Hr & Hloop & [Hk|[-> Hall]]); [|done].
  destruct (take_ok s h n prevp c k (fuel - g - 1) H Hc ltac:(lia) Hp Hr) as (p & s' & h' & E & H' & Ht & Hb & Hfr).
  exists p, s', h'. split. { replace fuel with (g + S (fuel - g - 1))%nat by lia. by rewrite Hloop. }
  split; [done|]. split; [done|]. split; [done|]. intros a i x Hin Hx.
  pose proof (takes_new _ _ _ _ _ _ _ _ Hasc Ht Hin). apply Hfr; [eapply used_kept_bytes; [done..|lia]|lia].
Qed.

(** A heap that has just grown has a block that is large enough. *)
Lemma grown_heap s h nu : let h1 := coalesce (h ++ [(false, brk s, nu)]) in
  heap_ok s h -> 1 <= nu ->
  (length (ring h1) <= length (ring h) + 1)%nat /\ (forall n, n <= nu -> ~ Forall (fun x => x.2 < n) (ring h1)).
Proof.
  intros h1 H Hnu. split.
  - unfold ring, h1. pose proof (frees_coalesce (h ++ [(false, brk s, nu)])) as L.
    rewrite frees_app, length_app in L. cbn [length frees] in *. lia.
  - intros n Hn Hno.
    assert (Hasc0 : asc (base + 8) (h ++ [(false, brk s, nu)]) (brk s + 8 * nu)).
    { apply asc_app. exists (brk s). split; [apply (ho_asc _ _ H)|]. cbn [asc]. lia. }
    destruct (coalesce_big _ _ _ (brk s) nu Hasc0) as (b & i & Hbi & Hi);
      [apply elem_of_app; right; apply list_elem_of_here|].
    rewrite Forall_forall in Hno. apply elem_of_frees in Hbi.
    specialize (Hno (b, i) (list_elem_of_further _ _ _ Hbi)). cbn in Hno. lia.
Qed.

Lemma malloc_loop_ok s h n fuel :
  heap_ok s h -> 1 <= n -> 8 * n < KERNBASE -> (2 * ring_fuel s + 2 <= fuel)%nat ->
  exists p s', malloc_loop fuel n (freep s) (rd32 (um s) (freep s)) s = Ret p s' /\
    ((p = 0 /\ s' = s /\ Forall (fun x => x.2 < n) (ring h)) \/ exists h', malloc_gives n s h p s' h').
Proof.
  intros H Hn Hn8 Hfuel. pose proof (ring_length _ _ H) as Hlen. unfold ring_fuel in Hfuel.
  pose proof (ho_asc _ _ H) as Hasc. pose proof (ho_brk _ _ H) as Hbrk.
  pose proof (asc_le _ _ _ Hasc) as Hlo. pose proof (ho_base _ _ H) as Hb0.
  destruct (decide (Forall (fun x => x.2 < n) (ring h))) as [Hall|Hno].
  2:{ destruct (malloc_first s h n fuel H Hn ltac:(lia) Hno) as (p & s' & h' & E & H' & Ht & Hb & Hfr).
      exists p, s'. split; [done|]. right. exists h'. split; [done|]. split; [by left|done]. }
  destruct (malloc_scan s h n H) as (g & prevp & c & k & Hg & Hc & Hp & Hr & Hloop & Hor).
  assert (Hkn : k < n) by (rewrite Forall_forall in Hall; apply (Hall _ Hc)). destruct Hor as [|[-> _]]; [lia|].
  destruct (freep_header _ _ _ H Hc) as (Hck & _ & Hcb).
  replace fuel with (g + S (fuel - g - 1))%nat by lia. rewrite Hloop. cbn [malloc_loop].
  unfold h_size. rewrite bind_uld, Hck by lia. destruct (Z.leb_spec n k); [lia|].
  unfold gets at 1, bind at 1. rewrite Z.eqb_refl.
  destruct (morecore_ok s h n H ltac:(lia) Hn8) as [E|(s1 & nu & -> & E & H1 & Hb1 & Hfr1)]; mstep E.
  { exists 0, s. split; [done|]. by left. }
  pose proof (ho_brk _ _ H1) as Hbrk1. destruct (elem_of_ring_addr _ _ (ho_freep _ _ H1)) as (k1 & Hk1).
  destruct (freep_header _ _ _ H1 Hk1) as (_ & Hf0 & Hf1).
  destruct (Z.eqb_spec (freep s1) 0); [lia|]. unfold h_ptr. rewrite bind_uld by lia.
  destruct (grown_heap s h (Z.max 4096 n) H ltac:(lia)) as (Hl1 & Hbig).
  destruct (malloc_first s1 _ n (fuel - g - 1) H1 Hn ltac:(lia) (Hbig n ltac:(lia))) as (p & s' & h' & E' & H' & Ht & Hb & Hfr).
  exists p, s'. split; [done|]. right. exists h'. split; [done|]. split; [right; split; [done|]; split; [lia|done]|].
  intros a i x Hin Hx. pose proof (asc_in _ _ _ _ _ _ Hasc Hin).
  rewrite (Hfr a i), Hfr1; [done|lia|eapply used_kept_bytes; [done..|lia]|apply used_coalesce, elem_of_app; by left|done].
Qed.

(** Before the first call, [freep] is null and there is no heap. *)
Definition heap_st (s : ust) (h : list blk) : Prop :=
  heap_ok s h \/ (freep s = 0 /\ h = [] /\ 0 < base /\ base + 8 <= brk s < KERNBASE).

(** The state in which the search starts. *)
Definition started (s : ust) : ust :=
  if freep s =? 0 then {| um := wr32 (wr32 (um s) base base) (base + 4) 0; freep := base; brk := brk s |} else s.

Lemma started_ok s h : heap_st s h -> heap_ok (started s) h /\ brk (started s) = brk s /\
  forall x, ~ (base <= x < base + 8) -> rd8 (um (started s)) x = rd8 (um s) x.
Proof.
  unfold started. intros [H|(E & -> & Hb & Hbrk)].
  - destruct (Z.eqb_spec (freep s) 0) as [E|]; [|done].
    destruct (elem_of_ring_addr _ _ (ho_freep _ _ H)) as (k & Hk). apply (freep_header _ _ _ H) in Hk. lia.
  - rewrite E. cbn [Z.eqb]. split; [|split; [done|]].
    + split; cbn [um brk freep]; try done; try lia.
      * cbn [asc]. lia.
      * intros a n Hin. by apply elem_of_nil in Hin.
      * cbn [ring frees seg]. rewrite rd32_wr32_eq, rd32_wr32_ne, rd32_wr32_eq, !u32_small by lia. done.
      * apply list_elem_of_here.
    + intros x Hx. cbn [um]. rewrite !rd8_wr32. range_cases; done.
Qed.

Lemma malloc_started nbytes s h : heap_st s h ->
  malloc nbytes s = malloc_loop (2 * ring_fuel (started s) + 2) (nunits_of nbytes)
    (freep (started s)) (rd32 (um (started s)) (freep (started s))) (started s).
Proof.
  intros H. destruct (started_ok _ _ H) as (H1 & Hb1 & _).
  pose proof (ho_brk _ _ H1) as Hbrk. pose proof (ho_base _ _ H1). pose proof (asc_le _ _ _ (ho_asc _ _ H1)).
  destruct (elem_of_ring_addr _ _ (ho_freep _ _ H1)) as (k & Hk). apply (freep_header _ _ _ H1) in Hk as (_ & _ & Hf).
  unfold malloc, started in *. cbv zeta. unfold gets at 1, bind at 1. destruct (Z.eqb_spec (freep s) 0) as [E|E].
  - rewrite !bind_assoc. unfold modify at 1, bind at 1. unfold set_h_ptr, set_h_size.
    rewrite bind_assoc, bind_ust32 by (cbn in *; lia). rewrite bind_assoc, bind_ust32 by (cbn in *; lia).
    unfold ret, get, bind at 1, bind at 1. unfold h_ptr. rewrite bind_uld by (cbn in *; lia). done.
  - unfold ret, get, bind at 1, bind at 1. unfold h_ptr. rewrite bind_uld by lia. done.
Qed.

Lemma nunits_small nbytes : 0 <= nbytes < KERNBASE - 16 ->
  nunits_of nbytes = (nbytes + 7) / 8 + 1 /\ 1 <= nunits_of nbytes /\
  nbytes <= 8 * (nunits_of nbytes - 1) /\ 8 * nunits_of nbytes < KERNBASE.
Proof. intros. unfold nunits_of. rewrite !(u32_small (nbytes + 8 - 1)) by lia. rewrite u32_small by dlia. dlia. Qed.

(** [malloc] comes back without a fault: with null and nothing changed when no
    free block is large enough and the kernel gives no memory, or with a block
    of the layout; the bytes of the blocks in use are kept. *)
Lemma malloc_ok nbytes s h :
  heap_st s h -> 1 <= nunits_of nbytes -> 8 * nunits_of nbytes < KERNBASE ->
  exists p s', malloc nbytes s = Ret p s' /\
    ((p = 0 /\ s' = started s /\ Forall (fun x => x.2 < nunits_of nbytes) (ring h)) \/
     exists h', malloc_gives (nunits_of nbytes) (started s) h p s' h').
Proof.
  intros H Hn1 Hn2. destruct (started_ok _ _ H) as (H1 & _). rewrite (malloc_started _ _ _ H).
  by apply malloc_loop_ok.
Qed.

(** ** Histories *)

(** The size of the program before any allocation. *)
Variable brk0 : Z.

(** What a program does with the allocator, and the blocks it holds: it
    allocates and frees, stores into its blocks and into its own data, and
    extends its memory by calls of [sbrk] of its own. *)
Inductive ureach : ust -> list (Z * Z) -> Prop :=
  | ur_init m : 0 < base -> base + 8 <= brk0 < KERNBASE -> ureach {| um := m; freep := 0; brk := brk0 |} []
  | ur_malloc s L nbytes p s' : ureach s L -> 0 <= nbytes < KERNBASE - 16 -> malloc nbytes s = Ret p s' ->
      ureach s' (if p =? 0 then L else (p, nbytes) :: L)
  | ur_free s L1 p nb L2 s' : ureach s (L1 ++ (p, nb) :: L2) -> free p s = Ret tt s' -> ureach s' (L1 ++ L2)
  | ur_write s L p nb a v : ureach s L -> (p, nb) ∈ L -> p <= a < p + nb -> ureach (set_um (wr8 (um s) a v) s) L
  | ur_data s L a v : ureach s L -> a < brk0 -> ~ (base <= a < base + 8) -> ureach (set_um (wr8 (um s) a v) s) L
  | ur_sbrk s L n r s' : ureach s L -> 0 <= n < KERNBASE -> sbrk n s = Ret r s' -> ureach s' L.

Record hist_ok (s : ust) (L : list (Z * Z)) (h : list blk) : Prop := {
  hi_heap : heap_st s h;
  hi_brk : brk0 <= brk s;
  hi_above : forall u a k, (u, a, k) ∈ h -> brk0 <= a;
  hi_nodup : NoDup L.*1;
  hi_live : forall p nb, (p, nb) ∈ L -> 0 <= nb < KERNBASE - 16 /\ (true, p - 8, nunits_of nb) ∈ h
}.

Lemma heap_ok_write s h a v :
  heap_ok s h -> ~ ring_byte h a -> (forall b k, (true, b, k) ∈ h -> ~ (b <= a < b + 8)) ->
  heap_ok (set_um (wr8 (um s) a v) s) h.
Proof.
  intros H Hr Hh. destruct (H) as [Hb0 Hbrk Hasc Hu Hring Hfp Hsep].
  assert (Hx : forall x, x <> a -> rd8 (wr8 (um s) a v) x = rd8 (um s) x).
  { intros x Hx. rewrite rd8_wr8. range_cases; done. }
  split; cbn [um brk freep set_um]; try done.
  - intros b k Hin. rewrite <- (Hu b k Hin). apply rd32_ext. intros x ?. apply Hx. specialize (Hh b k Hin). lia.
  - eapply seg_frame; [|done]. intros b k Hin x ?. apply Hx. intros ->. apply Hr. by exists b, k.
Qed.

Lemma coalesce_above h u a k : (u, a, k) ∈ coalesce h -> exists u' k', (u', a, k') ∈ h.
Proof.
  revert u a k. induction h as [|[[u1 a1] k1] h IH]; intros u a k Hin; [by apply elem_of_nil in Hin|].
  cbn [coalesce] in Hin. assert (Hin' : (exists u' k', (u', a, k') ∈ (u1, a1, k1) :: coalesce h)).
  { destruct (coalesce h) as [|[[u2 a2] k2] t]; [eauto|]. cbn [join] in Hin.
    destruct (touch _ _); [|eauto]. cbn [fst snd] in Hin. apply elem_of_cons in Hin as [E|Hin].
    - injection E as -> -> ->. do 2 eexists. apply list_elem_of_here.
    - do 2 eexists. by do 2 apply list_elem_of_further. }
  destruct Hin' as (u' & k' & Hin'). apply elem_of_cons in Hin' as [E|Hin'].
  - injection E as -> -> ->. do 2 eexists. apply list_elem_of_here.
  - destruct (IH _ _ _ Hin') as (u2 & k2 & ?). do 2 eexists. by apply list_elem_of_further.
Qed.

Lemma takes_blocks n h p h' : takes n h p h' ->
  (true, p - 8, n) ∈ h' /\ (forall a k, (true, a, k) ∈ h -> (true, a, k) ∈ h') /\
  (forall lo, (forall u a k, (u, a, k) ∈ h -> lo <= a) -> forall u a k, (u, a, k) ∈ h' -> lo <= a).
Proof.
  intros (h1 & c & k & h2 & -> & Hk & -> & ->). replace (c + 8 * (k - n) + 8 - 8) with (c + 8 * (k - n)) by lia.
  split; [rewrite app_assoc; apply elem_of_mid|]. split.
  - intros a j. rewrite !elem_of_app, !elem_of_cons. naive_solver.
  - intros lo Hlo u a j Hin. pose proof (Hlo _ _ _ (elem_of_mid h1 (false, c, k) h2)) as Hc.
    rewrite !elem_of_app, elem_of_cons in Hin. destruct Hin as [Hin|[Hin|[E|Hin]]].
    + apply (Hlo u a j), elem_of_app. by left.
    + destruct (k =? n); [by apply elem_of_nil in Hin|]. apply list_elem_of_singleton in Hin. simplify_eq. lia.
    + simplify_eq. lia.
    + apply (Hlo u a j), elem_of_app. right. by apply list_elem_of_further.
Qed.

(** Both ways of [malloc_gives] at once. *)
Lemma gives_facts n s h p s' h' : heap_ok s h -> 1 <= n -> malloc_gives n s h p s' h' ->
  8 < p /\ brk s <= brk s' /\ (true, p - 8, n) ∈ h' /\
  (forall a k, (true, a, k) ∈ h -> (true, a, k) ∈ h' /\ (a + 8 * k <= p - 8 \/ p - 8 + 8 * n <= a)) /\
  (forall lo, lo <= brk s -> (forall u a k, (u, a, k) ∈ h -> lo <= a) -> forall u a k, (u, a, k) ∈ h' -> lo <= a).
Proof.
  intros H Hn (H' & Hor & _). pose proof (ho_base _ _ H).
  assert (exists hm hi, takes n hm p h' /\ asc (base + 8) hm hi /\ brk s <= brk s' /\ (forall a k, (true, a, k) ∈ h -> (true, a, k) ∈ hm) /\
    (forall lo, lo <= brk s -> (forall u a k, (u, a, k) ∈ h -> lo <= a) -> forall u a k, (u, a, k) ∈ hm -> lo <= a))
    as (hm & hi & Ht & Ha & Hb & Hm1 & Hm2).
  { destruct Hor as [[Ht Hb]|(_ & Hb & Ht)].
    - exists h, (brk s). split; [done|]. split; [apply (ho_asc _ _ H)|]. split; [lia|]. split; [done|]. intros lo _. done.
    - eexists _, (brk s'). split; [exact Ht|]. split.
      { apply asc_coalesce, asc_app. exists (brk s). split; [apply (ho_asc _ _ H)|]. cbn [asc]. lia. }
      split; [lia|]. split; [intros a k Hin; apply used_coalesce, elem_of_app; by left|].
      intros lo Hlo Hall u a k (u' & k' & Hin)%coalesce_above. apply elem_of_app in Hin as [Hin|Hin%list_elem_of_singleton]; [by eapply Hall|].
      simplify_eq. done. }
  destruct (takes_blocks _ _ _ _ Ht) as (T1 & T2 & T3).
  split. { destruct Ht as (h1 & c & k & h2 & -> & Hk & -> & _). apply asc_mid in Ha as (Ha%asc_le & _). lia. }
  split; [done|]. split; [done|]. split.
  - intros a k Hin. split; [by apply T2, Hm1|]. eapply takes_new; [done..|]. by apply Hm1.
  - intros lo Hlo Hall. by apply T3, Hm2.
Qed.

Lemma live_heap s L h p nb : hist_ok s L h -> (p, nb) ∈ L -> heap_ok s h.
Proof.
  intros H Hin. destruct (hi_live _ _ _ H _ _ Hin) as [_ Hb]. destruct (hi_heap _ _ _ H) as [|(_ & -> & _)]; [done|].
  by apply elem_of_nil in Hb.
Qed.

(** The bytes of a block that is held belong to its block of the layout. *)
Lemma live_bytes s L h p nb : hist_ok s L h -> (p, nb) ∈ L ->
  (true, p - 8, nunits_of nb) ∈ h /\ nb <= 8 * (nunits_of nb - 1) /\ 1 <= nunits_of nb /\
  base + 8 <= p - 8 /\ p - 8 + 8 * nunits_of nb <= brk s.
Proof.
  intros H Hin. pose proof (live_heap _ _ _ _ _ H Hin) as Hh. destruct (hi_live _ _ _ H _ _ Hin) as [Hnb Hb].
  pose proof (nunits_small nb Hnb). pose proof (asc_in _ _ _ _ _ _ (ho_asc _ _ Hh) Hb). split; [done|]. lia.
Qed.

Lemma hist_malloc s L h nbytes : hist_ok s L h -> 0 <= nbytes < KERNBASE - 16 ->
  exists p s' h', malloc nbytes s = Ret p s' /\ hist_ok s' (if p =? 0 then L else (p, nbytes) :: L) h' /\
    (forall q nb x, (q, nb) ∈ L -> q <= x < q + nb -> rd8 (um s') x = rd8 (um s) x).
Proof.
  intros H Hnb. pose proof (nunits_small nbytes Hnb) as (_ & Hn1 & _ & Hn2).
  destruct (started_ok _ _ (hi_heap _ _ _ H)) as (H1 & Hb1 & Hfr1).
  assert (Hkeep : forall q nb x, (q, nb) ∈ L -> q <= x < q + nb -> rd8 (um (started s)) x = rd8 (um s) x).
  { intros q nb x Hin Hx. pose proof (live_bytes _ _ _ _ _ H Hin). apply Hfr1. lia. }
  destruct (malloc_ok nbytes s h (hi_heap _ _ _ H) Hn1 Hn2) as (p & s' & E & [(-> & -> & _)|(h' & Hg)]).
  - exists 0, (started s), h. split; [done|]. split; [|done]. destruct H as [_ ? ? ? ?]. split; try done; [by left|lia].
  - destruct (gives_facts _ _ _ _ _ _ H1 Hn1 Hg) as (Hp & Hb & Hin & Hlive & Habove). destruct Hg as (H' & _ & Hfr).
    exists p, s', h'. split; [done|]. destruct (Z.eqb_spec p 0); [lia|]. split.
    + split; [by left|destruct H; lia|apply Habove; destruct H; [lia|done]|..].
      * rewrite fmap_cons. constructor; [|apply H]. intros ([q nb] & Eq & Hq)%list_elem_of_fmap. cbn in Eq. subst q.
        pose proof (live_bytes _ _ _ _ _ H Hq) as (Hq' & _). destruct (Hlive _ _ Hq') as [_ ?].
        pose proof (nunits_small nb ltac:(by apply (hi_live _ _ _ H _ _ Hq))). lia.
      * intros q nb [E'|Hq]%elem_of_cons; [by simplify_eq|]. destruct (hi_live _ _ _ H _ _ Hq) as [? Hq'].
        split; [done|]. by apply Hlive.
    + intros q nb x Hq Hx. rewrite <- (Hkeep q nb x Hq Hx). pose proof (live_bytes _ _ _ _ _ H Hq) as (Hq' & ? & _).
      apply (Hfr _ _ _ Hq'). lia.
Qed.

Lemma hist_free s L1 p nb L2 h : hist_ok s (L1 ++ (p, nb) :: L2) h ->
  exists s' h', free p s = Ret tt s' /\ hist_ok s' (L1 ++ L2) h' /\
    (forall q nb' x, (q, nb') ∈ L1 ++ L2 -> q <= x < q + nb' -> rd8 (um s') x = rd8 (um s) x).
Proof.
  intros H. pose proof (elem_of_mid L1 (p, nb) L2) as Hin. pose proof (live_heap _ _ _ _ _ H Hin) as Hh.
  destruct (live_bytes _ _ _ _ _ H Hin) as (Hb & Hnb). pose proof (list_elem_of_split _ _ Hb) as (h1 & h2 & ->).
  destruct (free_ok s h1 (p - 8) (nunits_of nb) h2 Hh) as (s' & E & H' & Hbr & Hfr).
  replace (p - 8 + 8) with p in E by lia.
  assert (Hoth : forall q i, (q, i) ∈ L1 ++ L2 -> (q, i) ∈ L1 ++ (p, nb) :: L2 /\ q <> p).
  { intros q i Hq. pose proof (hi_nodup _ _ _ H) as Hnd. rewrite fmap_app, fmap_cons in Hnd.
    apply NoDup_app in Hnd as (_ & N1 & [N2 _]%NoDup_cons). rewrite elem_of_app in Hq.
    split; [rewrite elem_of_app, elem_of_cons; naive_solver|]. intros ->. destruct Hq as [Hq|Hq].
    - apply (N1 p); [|apply list_elem_of_here]. apply list_elem_of_fmap. by exists (p, i).
    - apply N2, list_elem_of_fmap. by exists (p, i). }
  exists s', (coalesce (h1 ++ (false, p - 8, nunits_of nb) :: h2)). split; [done|]. split.
  - split; [by left|rewrite Hbr; apply H|..].
    + intros u a k (u' & k' & Ha)%coalesce_above. rewrite elem_of_app, elem_of_cons in Ha.
      destruct Ha as [Ha|[Ha|Ha]].
      * apply (hi_above _ _ _ H u' a k'), elem_of_app. by left.
      * simplify_eq. apply (hi_above _ _ _ H _ _ _ Hb).
      * apply (hi_above _ _ _ H u' a k'), elem_of_app. right. by apply list_elem_of_further.
    + pose proof (hi_nodup _ _ _ H) as Hnd. rewrite fmap_app, fmap_cons in Hnd. rewrite fmap_app.
      apply NoDup_app in Hnd as (N1 & N2 & [_ N3]%NoDup_cons). apply NoDup_app. split; [done|]. split; [|done].
      intros x Hx Hx2. apply (N2 x Hx). by apply list_elem_of_further.
    + intros q i Hq. destruct (Hoth _ _ Hq) as [Hq' Hne]. destruct (hi_live _ _ _ H _ _ Hq') as [? Hq''].
      split; [done|]. apply used_coalesce. rewrite elem_of_app, elem_of_cons in Hq'' |- *. naive_solver lia.
  - intros q i x Hq Hx. destruct (Hoth _ _ Hq) as [Hq' Hne]. pose proof (live_bytes _ _ _ _ _ H Hq') as (Hq'' & ?).
    apply Hfr; [|eapply used_kept_bytes; [done..|lia]].
    destruct (asc_disjoint _ _ _ _ _ _ _ _ _ (ho_asc _ _ Hh) Hq'' Hb) as [E'|[]]; [|lia..].
    assert (q - 8 = p - 8) by congruence. lia.
Qed.

Lemma hist_write s L h a v : hist_ok s L h ->
  (exists p nb, (p, nb) ∈ L /\ p <= a < p + nb) \/ (a < brk0 /\ ~ (base <= a < base + 8)) ->
  hist_ok (set_um (wr8 (um s) a v) s) L h.
Proof.
  intros H Ha. destruct (H) as [Hh ? Habove ? ?]. split; try done. destruct Hh as [Hh|]; [left|by right].
  pose proof (ho_asc _ _ Hh) as Hasc. apply heap_ok_write; [done|..].
  - destruct Ha as [(p & nb & Hin & Hx)|[Hlt Hb]].
    + destruct (live_bytes _ _ _ _ _ H Hin) as (Hin' & ?). eapply used_kept_bytes; [done..|lia].
    + intros (c & k & [E|Hc%elem_of_frees]%elem_of_cons & Hx); [simplify_eq; lia|]. apply Habove in Hc. lia.
  - intros b k Hb. destruct Ha as [(p & nb & Hin & Hx)|[Hlt _]].
    + destruct (live_bytes _ _ _ _ _ H Hin) as (Hin' & ?). pose proof (asc_in _ _ _ _ _ _ Hasc Hb).
      destruct (asc_disjoint _ _ _ _ _ _ _ _ _ Hasc Hb Hin') as [E|[]]; [|lia..]. assert (b = p - 8) by congruence. lia.
    + apply Habove in Hb. lia.
Qed.

Lemma hist_sbrk s L h n r s' : hist_ok s L h -> 0 <= n < KERNBASE -> sbrk n s = Ret r s' -> hist_ok s' L h.
Proof.
  intros H Hn E. assert (Hb : 0 <= brk s < KERNBASE).
  { destruct (hi_heap _ _ _ H) as [Hh|(_ & _ & ? & ?)]; [|lia]. pose proof (ho_brk _ _ Hh). pose proof (ho_base _ _ Hh).
    pose proof (asc_le _ _ _ (ho_asc _ _ Hh)). lia. }
  destruct (Z.eq_dec n 0) as [->|]. { unfold sbrk, get, bind, ret in E. change (i32 0) with 0 in E. cbn in E. by simplify_eq. }
  destruct (sbrk_grow s n ltac:(lia) Hb) as [E'|(Hlt & E')]; rewrite E' in E; simplify_eq; [done|].
  destruct H as [Hh ? ? ? ?]. split; cbn [brk]; try done; [|lia]. destruct Hh as [Hh|(? & ? & ? & ?)].
  - left. apply heap_ok_grow; [done|lia|]. intros x Hx. apply rd8_filter. pose proof (brk_le_page (brk s)). lia.
  - right. cbn [freep brk]. split; [done|]. split; [done|]. lia.
Qed.

Lemma ureach_ok s L : ureach s L -> exists h, hist_ok s L h.
Proof.
  induction 1 as [m Hb Hbrk|s L nbytes p s' _ [h IH] Hnb E|s L1 p nb L2 s' _ [h IH] E|s L p nb a v _ [h IH] Hin Ha
    |s L a v _ [h IH] Ha Hb|s L n r s' _ [h IH] Hn E].
  - exists []. split; cbn; [right; cbn; tauto|lia|set_solver|constructor|set_solver].
  - destruct (hist_malloc _ _ _ nbytes IH Hnb) as (p1 & s1 & h1 & E1 & H1 & _). rewrite E1 in E. simplify_eq. eauto.
  - destruct (hist_free _ _ _ _ _ _ IH) as (s1 & h1 & E1 & H1 & _). rewrite E1 in E. simplify_eq. eauto.
  - exists h. apply hist_write; [done|]. left. eauto.
  - exists h. apply hist_write; [done|]. by right.
  - exists h. by eapply hist_sbrk.
Qed.

(** C14. In every history of a program, the blocks it holds lie in its memory and
    do not overlap. From there, [malloc] of any size below 2 GB and [free] of
    any block held come back, without a page fault, and leave every byte of the
    other blocks as it was. *)
Theorem malloc_safe s L :
  ureach s L ->
  (NoDup L.*1 /\ forall p nb, (p, nb) ∈ L -> base + 16 <= p /\ p + nb <= brk s /\
     forall q nb', (q, nb') ∈ L -> q = p \/ p + nb <= q \/ q + nb' <= p) /\
  (forall nbytes, 0 <= nbytes < KERNBASE - 16 -> exists p s', malloc nbytes s = Ret p s' /\
     forall q nb x, (q, nb) ∈ L -> q <= x < q + nb -> rd8 (um s') x = rd8 (um s) x) /\
  (forall L1 p nb L2, L = L1 ++ (p, nb) :: L2 -> exists s', free p s = Ret tt s' /\
     forall q nb' x, (q, nb') ∈ L1 ++ L2 -> q <= x < q + nb' -> rd8 (um s') x = rd8 (um s) x).
Proof.
  intros [h H]%ureach_ok. split; [split; [apply H|]|split].
  - intros p nb Hin. pose proof (live_bytes _ _ _ _ _ H Hin) as (Hp & ?). split; [lia|]. split; [lia|].
    intros q nb' Hq. pose proof (live_bytes _ _ _ _ _ H Hq) as (Hq' & ?).
    destruct (asc_disjoint _ _ _ _ _ _ _ _ _ (ho_asc _ _ (live_heap _ _ _ _ _ H Hin)) Hp Hq') as [E|[]]; [|lia..].
    left. assert (p - 8 = q - 8) by congruence. lia.
  - intros nbytes Hnb. destruct (hist_malloc _ _ _ _ H Hnb) as (p & s' & h' & E & _ & Hfr). eauto.
  - intros L1 p nb L2 ->. destruct (hist_free _ _ _ _ _ _ H) as (s' & h' & E & _ & Hfr). eauto.
Qed.

(** C24. [malloc] and [free] implement an allocator on layouts: [malloc] cuts the
    block off the end of a free block that is large enough, and only when there
    is none asks the kernel for at least 32 KB, which join a free block at the
    end of the heap; when it returns null no free block is large enough and the
    break has not moved. [free] makes the block free and merges all free blocks
    that touch, so that afterwards no two do. *)
Theorem malloc_refines s h :
  heap_ok s h ->
  (forall nbytes, 0 <= nbytes < KERNBASE - 16 -> exists p s', malloc nbytes s = Ret p s' /\
     ((p = 0 /\ heap_ok s' h /\ brk s' = brk s /\ Forall (fun x => x.2 < nunits_of nbytes) (frees h)) \/
      exists h', heap_ok s' h' /\
        (takes (nunits_of nbytes) h p h' \/
         (Forall (fun x => x.2 < nunits_of nbytes) (frees h) /\
          takes (nunits_of nbytes) (coalesce (h ++ [(false, brk s, Z.max 4096 (nunits_of nbytes))])) p h')))) /\
  (forall h1 a n h2, h = h1 ++ (true, a, n) :: h2 -> exists s', free (a + 8) s = Ret tt s' /\
     heap_ok s' (coalesce (h1 ++ (false, a, n) :: h2))).
Proof.
  intros H. split.
  - intros nbytes Hnb. pose proof (nunits_small nbytes Hnb) as (_ & Hn1 & _ & Hn2).
    assert (Hst : started s = s).
    { unfold started. destruct (elem_of_ring_addr _ _ (ho_freep _ _ H)) as (k & Hk). apply (freep_header _ _ _ H) in Hk.
      destruct (Z.eqb_spec (freep s) 0); [lia|done]. }
    destruct (malloc_ok nbytes s h (or_introl H) Hn1 Hn2) as (p & s' & E & Hor). rewrite Hst in Hor.
    exists p, s'. split; [done|]. destruct Hor as [(-> & -> & Hall)|(h' & H' & Hor & _)].
    + left. apply Forall_cons in Hall as [_ Hall]. done.
    + right. exists h'. split; [done|]. destruct Hor as [[Ht _]|(Hall & _ & Ht)]; [by left|right].
      apply Forall_cons in Hall as [_ Hall]. done.
  - intros h1 a n h2 ->. destruct (free_ok _ _ _ _ _ H) as (s' & E & H' & _). eauto.
Qed.

(** The rounding of the request wraps around: for the largest requests [malloc]
    returns a block without any bytes. *)
Lemma malloc_wraps nbytes s h :
  heap_ok s h -> 4294967289 <= nbytes < 4294967296 ->
  exists p s', malloc nbytes s = Ret p s' /\ (p = 0 \/ exists h', heap_ok s' h' /\ (true, p - 8, 1) ∈ h').
Proof.
  intros H Hnb. assert (E1 : nunits_of nbytes = 1).
  { unfold nunits_of. replace (u32 (nbytes + 8 - 1)) with (nbytes - 4294967289) by (unfold u32; dlia).
    rewrite Z.div_small by dlia. done. }
  destruct (started_ok _ _ (or_introl H)) as (H1 & _).
  destruct (malloc_ok nbytes s h (or_introl H) ltac:(lia) ltac:(lia)) as (p & s' & E & Hor). rewrite E1 in Hor.
  exists p, s'. split; [done|]. destruct Hor as [(-> & _)|(h' & Hg)]; [by left|right].
  exists h'. destruct (gives_facts 1 _ _ _ _ _ H1 ltac:(lia) Hg) as (_ & _ & Hin & _). destruct Hg. done.
Qed.

End Umalloc.

(** ** A run *)

(** Two blocks are allocated, written and the first freed again. *)
Definition um_grant (old new : Z) : bool := true.
Definition um0 : ust := {| um := ∅; freep := 0; brk := 12288 |}.
Definition um_run : M ust (Z * Z) :=
  let* p := malloc 4096 um_grant 100 in
  let* q := malloc 4096 um_grant 5000 in
  modify (fun s => set_um (wr8 (um s) q 7) s) ;;;
  free p ;;;
  ret (p, q).

Example um_run_ok : match um_run um0 with Ret (p, q) s => (p =? 44952) && (q =? 39944) && (rd8 (um s) q =? 7) | _ => false end = true.
Proof. vm_compute. reflexivity. Qed.

Lemma ret_exists (m : M ust Z) s p :
  (match m s with Ret q _ => q =? p | _ => false end) = true -> exists s', m s = Ret p s'.
Proof. destruct (m s) as [q s'| | |]; try done. intros ->%Z.eqb_eq. eauto. Qed.

Definition um_second (s : ust) : bool :=
  match malloc 4096 um_grant 5000 s with Ret q _ => q =? 39944 | _ => false end.

Lemma um_first : exists s, malloc 4096 um_grant 100 um0 = Ret 44952 s /\ um_second s = true.
Proof.
  assert (H : match malloc 4096 um_grant 100 um0 with Ret q s => (q =? 44952) && um_second s | _ => false end = true)
    by (vm_compute; reflexivity).
  destruct (malloc 4096 um_grant 100 um0) as [q s| | |]; try done.
  apply andb_prop in H as [->%Z.eqb_eq H]. eauto.
Qed.

Lemma um_hist : exists s, ureach 4096 um_grant 12288 s [(39944, 5000); (44952, 100)].
Proof.
  destruct um_first as (s1 & E1 & (s2 & E2)%ret_exists). exists s2.
  assert (H1 : ureach 4096 um_grant 12288 s1 [(44952, 100)]).
  { apply (ur_malloc 4096 um_grant 12288 um0 [] 100 44952); [apply ur_init; lia|lia|done]. }
  apply (ur_malloc 4096 um_grant 12288 s1 _ 5000 39944 s2 H1); [lia|done].
Qed.

Lemma malloc_safe_witness : exists s,
  (exists p s', malloc 4096 um_grant 64 s = Ret p s') /\ (exists s', free 44952 s = Ret tt s') /\
  44952 + 100 <= brk s /\ 39944 + 5000 <= 44952.
Proof.
  destruct um_hist as (s & H). exists s. destruct (malloc_safe 4096 um_grant 12288 s _ H) as ([_ H1] & H2 & H3).
  split. { destruct (H2 64 ltac:(lia)) as (p & s' & E & _). eauto. }
  split. { destruct (H3 [(39944, 5000)] 44952 100 [] eq_refl) as (s' & E & _). eauto. }
  destruct (H1 44952 100 ltac:(set_solver)) as (_ & Hb & Hd). split; [done|].
  destruct (Hd 39944 5000 ltac:(set_solver)) as [|[]]; lia.
Defined.

Lemma um_heap : exists s h, heap_ok 4096 s h /\ (true, 44944, 14) ∈ h.
Proof.
  destruct um_hist as (s & H). destruct (ureach_ok _ _ _ _ _ H) as (h & Hh). exists s, h.
  split; [by eapply (live_heap _ _ _ _ _ 39944 5000); [done|set_solver]|].
  by apply (hi_live _ _ _ _ _ Hh 44952 100); set_solver.
Qed.

Lemma malloc_refines_witness : exists s h h1 h2 s',
  h = h1 ++ (true, 44944, 14) :: h2 /\ free 44952 s = Ret tt s' /\
  heap_ok 4096 s' (coalesce (h1 ++ (false, 44944, 14) :: h2)).
Proof.
  destruct um_heap as (s & h & H & Hin). pose proof (list_elem_of_split _ _ Hin) as (h1 & h2 & E).
  destruct (proj2 (malloc_refines 4096 um_grant s h H) h1 44944 14 h2 E) as (s' & Ef & H').
  by exists s, h, h1, h2, s'.
Defined.
