(* ===== verification/Print.v ===== *)
(** Formatted output and numbers: [printint] and [cprintf] of console.c,
    [printint] and [printf] of printf.c, [atoi] and the other string routines
    of ulib.c.

    Output is the list of bytes passed to [consputc] or written by [putc]. The
    variable arguments are words on the stack, [ap] counts them; a pointer
    argument of [%s] leads into memory, whose loop without a static bound takes
    [fuel].

    Theorems: what [printint] prints reads back as the number, fits its buffer,
    and [atoi] inverts it ([printint_reads]); the two formatting loops, written
    differently, print the same ([printf_cprintf]); the user library's
    [memmove] is the kernel's except on overlapping moves upwards, which it
    garbles ([umemmove_agrees]). *)

From Stdlib Require Import ZArith Lia.
From stdpp Require Import base strings gmap numbers list.
From S2P Require Import Prelude KString.

Open Scope Z_scope.

(** ** Numbers *)

(** The static tables ["0123456789abcdef"] of console.c and
    ["0123456789ABCDEF"] of printf.c. *)
Definition kdigits : list Z := [48; 49; 50; 51; 52; 53; 54; 55; 56; 57; 97; 98; 99; 100; 101; 102].
Definition udigits : list Z := [48; 49; 50; 51; 52; 53; 54; 55; 56; 57; 65; 66; 67; 68; 69; 70].

(** [buf[i++] = digits[x % base]] while [x /= base] is not 0. *)
Fixpoint digits_loop (fuel : nat) (digits : list Z) (x base : Z) : list Z :=
  match fuel with
  | O => []
  | S fuel' =>
      let d := default 0 (digits !! Z.to_nat (x mod base)) in
      if x / base =? 0 then [d] else d :: digits_loop fuel' digits (x / base) base
  end.

(** [buf] of console.c's [printint], and what it prints. *)
Definition kprint_buf (xx base : Z) (sign : bool) : list Z :=
  let sign := sign && (xx <? 0) in
  let x := u32 (if sign then - xx else xx) in
  digits_loop 32 kdigits x base ++ (if sign then [45] else []).
Definition kprintint (xx base : Z) (sign : bool) : list Z := reverse (kprint_buf xx base sign).

(** The same of printf.c. *)
Definition uprint_buf (xx base : Z) (sgn : bool) : list Z :=
  let '(neg, x) := if sgn && (xx <? 0) then (true, u32 (- xx)) else (false, u32 xx) in
  digits_loop 32 udigits x base ++ (if neg : bool then [45] else []).
Definition uprintint (xx base : Z) (sgn : bool) : list Z := reverse (uprint_buf xx base sgn).

Definition is_digit (c : Z) : bool := (48 <=? c) && (c <=? 57).

(** [atoi]: a string is the list of its bytes. *)
Fixpoint atoi_loop (s : list Z) (n : Z) : Z :=
  match s with
  | c :: s' => if is_digit c then atoi_loop s' (i32 (n * 10 + c - 48)) else n
  | [] => n
  end.
Definition atoi (s : list Z) : Z := atoi_loop s 0.

(** ** Formats *)

Section Formats.

(** Memory for the strings, the words of the variable arguments, and the fuel
    of the loops over strings. *)
Variables (m : mem) (args : nat -> Z) (fuel : nat).

(** [for(; *s; s++) consputc( *s)]. *)
Fixpoint put_str (n : nat) (s : Z) : option (list Z) :=
  match n with
  | O => None
  | S n' => let c := rd8 m s in
            if c =? 0 then Some [] else option_map (cons c) (put_str n' (s + 1))
  end.

(** ["(null)"]. *)
Definition null_str : list Z := [40; 110; 117; 108; 108; 41].
Definition put_arg (s : Z) : option (list Z) := if s =? 0 then Some null_str else put_str fuel s.

Definition emit (l : list Z) (k : option (list Z)) : option (list Z) := option_map (app l) k.
Definition emit_str (s : Z) (k : option (list Z)) : option (list Z) :=
  match put_arg s with Some l => emit l k | None => None end.

(** The loop of [cprintf] on the rest of the format; [printint] is the one of
    the same file. *)
Fixpoint cprintf_loop (printint : Z -> Z -> bool -> list Z) (fmt : list Z) (ap : nat) : option (list Z) :=
  match fmt with
  | [] => Some []
  | c :: fmt' =>
      if negb (c =? 37) then emit [c] (cprintf_loop printint fmt' ap)
      else
        match fmt' with
        | [] => Some []
        | c :: fmt'' =>
            if c =? 100 then emit (printint (i32 (args ap)) 10 true) (cprintf_loop printint fmt'' (S ap))
            else if (c =? 120) || (c =? 112)
            then emit (printint (i32 (args ap)) 16 false) (cprintf_loop printint fmt'' (S ap))
            else if c =? 115 then emit_str (args ap) (cprintf_loop printint fmt'' (S ap))
            else if c =? 37 then emit [37] (cprintf_loop printint fmt'' ap)
            else emit [37; c] (cprintf_loop printint fmt'' ap)
        end
  end.
Definition cprintf (fmt : list Z) : option (list Z) := cprintf_loop kprintint fmt 0.

(** The loop of [printf], a state machine over the characters. *)
Fixpoint printf_loop (fmt : list Z) (state : Z) (ap : nat) : option (list Z) :=
  match fmt with
  | [] => Some []
  | c :: fmt' =>
      if state =? 0 then
        if c =? 37 then printf_loop fmt' 37 ap
        else emit [c] (printf_loop fmt' state ap)
      else if state =? 37 then
        if c =? 100 then emit (uprintint (i32 (args ap)) 10 true) (printf_loop fmt' 0 (S ap))
        else if (c =? 120) || (c =? 112)
        then emit (uprintint (i32 (args ap)) 16 false) (printf_loop fmt' 0 (S ap))
        else if c =? 115 then emit_str (args ap) (printf_loop fmt' 0 (S ap))
        else if c =? 99 then emit [u8 (args ap)] (printf_loop fmt' 0 (S ap))
        else if c =? 37 then emit [c] (printf_loop fmt' 0 ap)
        else emit [37; c] (printf_loop fmt' 0 ap)
      else printf_loop fmt' state ap
  end.
Definition printf (fmt : list Z) : option (list Z) := printf_loop fmt 0 0.

(** Formats without [%c], which [cprintf] does not know. *)
Fixpoint no_char (fmt : list Z) : bool :=
  match fmt with
  | 37 :: ((c :: fmt'') as fmt') => negb (c =? 99) && no_char fmt''
  | _ :: fmt' => no_char fmt'
  | [] => true
  end.

(** The user library's [printf], a state machine, and the kernel's
    [cprintf], which looks ahead, print the same for every format without [%c]
    and all arguments: the kernel's loop with the library's [printint] (upper
    case hexadecimal digits) is the library's loop. *)
Theorem printf_cprintf fmt :
  no_char fmt = true -> printf fmt = cprintf_loop uprintint fmt 0.
Proof.
  unfold printf. generalize O.
  induction fmt as [fmt IH] using (induction_ltof1 _ (@length Z)); unfold ltof in IH. intros ap Hc.
  destruct fmt as [|c fmt]; [done|]. cbn [printf_loop cprintf_loop Z.eqb].
  destruct (Z.eqb_spec c 37) as [->|Hne]; cbn [negb].
  - destruct fmt as [|d fmt]; [done|]. cbn [no_char] in Hc. apply andb_prop in Hc as [Hd Hc].
    cbn [printf_loop Z.eqb Pos.eqb].
    destruct (Z.eqb_spec d 100); [by rewrite (IH fmt) by (done || cbn; lia)|].
    destruct ((d =? 120) || (d =? 112)); [by rewrite (IH fmt) by (done || cbn; lia)|].
    destruct (Z.eqb_spec d 115); [by rewrite (IH fmt) by (done || cbn; lia)|].
    destruct (d =? 99); [done|].
    destruct (Z.eqb_spec d 37) as [->|]; by rewrite (IH fmt) by (done || cbn; lia).
  - rewrite (IH fmt); [done|cbn; lia|]. revert Hc. cbn [no_char]. destruct c as [|p|p]; try done.
    do 6 (destruct p as [p|p|]; try done).
Qed.

End Formats.

(** ** Reading numbers back *)

(** The value of a digit in either table, and of digits with the least or the
    most significant one first. *)
Definition digit_val (c : Z) : Z :=
  if c <=? 57 then c - 48 else if c <=? 70 then c - 55 else c - 87.
Fixpoint num_le (base : Z) (l : list Z) : Z :=
  match l with [] => 0 | c :: l' => digit_val c + base * num_le base l' end.
Definition num_be (base : Z) (l : list Z) : Z := fold_left (fun n c => n * base + digit_val c) l 0.
Definition read_int (l : list Z) : Z :=
  match l with
  | c :: l' => if c =? 45 then - num_be 10 l' else num_be 10 l
  | [] => 0
  end.

Lemma num_be_reverse base l : num_be base (reverse l) = num_le base l.
Proof.
  induction l as [|c l IH]; [done|]. rewrite reverse_cons. unfold num_be in *. rewrite fold_left_app, IH. cbn. lia.
Qed.

Definition table_ok (digits : list Z) : Prop := forall k, 0 <= k < 16 ->
  digit_val (default 0 (digits !! Z.to_nat k)) = k /\ 48 <= default 0 (digits !! Z.to_nat k) /\
  (k < 10 -> is_digit (default 0 (digits !! Z.to_nat k)) = true).

Lemma table_check digits :
  forallb (fun k => let d := default 0 (digits !! k) in
    (digit_val d =? Z.of_nat k) && (48 <=? d) && ((9 <? Z.of_nat k) || is_digit d)) (seq 0 16) = true ->
  table_ok digits.
Proof.
  intros H k Hk. rewrite forallb_forall in H. specialize (H (Z.to_nat k)).
  rewrite in_seq in H. specialize (H ltac:(lia)). cbv zeta in H. rewrite Z2Nat.id in H by lia.
  apply andb_prop in H as [[H1%Z.eqb_eq H2%Z.leb_le]%andb_prop H3].
  split; [done|]. split; [done|]. intros. destruct (Z.ltb_spec 9 k); [lia|done].
Qed.

Lemma kdigits_ok : table_ok kdigits. Proof. apply table_check. reflexivity. Qed.
Lemma udigits_ok : table_ok udigits. Proof. apply table_check. reflexivity. Qed.

(** The loop of [printint]: with enough room for the number, its digits. *)
Lemma digits_loop_ok digits base fuel : table_ok digits -> 2 <= base <= 16 -> forall x k,
  0 <= x < base ^ Z.of_nat k -> (1 <= k <= fuel)%nat ->
  let l := digits_loop fuel digits x base in
  num_le base l = x /\ (1 <= length l <= k)%nat /\ Forall (fun c => 48 <= c) l /\
  (base <= 10 -> Forall (fun c => is_digit c = true) l).
Proof.
  intros Ht Hb. induction fuel as [|fuel IH]; intros x k Hx Hk; [lia|]. cbn [digits_loop]. cbv zeta.
  pose proof (Z.mod_pos_bound x base ltac:(lia)) as Hm. destruct (Ht (x mod base) ltac:(lia)) as (Hv & Hlo & Hd).
  pose proof (Z.div_mod x base ltac:(lia)) as Hdm.
  destruct (Z.eqb_spec (x / base) 0) as [E|E].
  - cbn [num_le length]. split; [rewrite Hv; lia|]. split; [lia|]. split; [by constructor|].
    intros. constructor; [apply Hd; lia|done].
  - destruct k as [|[|k]]; [lia|rewrite Z.pow_1_r in Hx; rewrite Z.div_small in E by lia; done|].
    destruct (IH (x / base) (S k)) as (I1 & I2 & I3 & I4).
    { split; [apply Z.div_pos; lia|]. apply Z.div_lt_upper_bound; [lia|].
      rewrite (Nat2Z.inj_succ (S k)), Z.pow_succ_r in Hx by lia. lia. }
    { lia. }
    cbn [num_le length]. split; [rewrite Hv, I1; lia|]. split; [lia|]. split; [by constructor|].
    intros. constructor; [apply Hd; lia|auto].
Qed.

Lemma atoi_digits l : forall n, Forall (fun c => is_digit c = true) l -> 0 <= n ->
  fold_left (fun n c => n * 10 + digit_val c) l n < 2147483648 ->
  atoi_loop l n = fold_left (fun n c => n * 10 + digit_val c) l n.
Proof.
  induction l as [|c l IH]; intros n Hl Hn Hlt; [done|]. apply Forall_cons in Hl as [Hc Hl].
  cbn [atoi_loop fold_left] in *. rewrite Hc. unfold is_digit in Hc. apply andb_prop in Hc as [H1%Z.leb_le H2%Z.leb_le].
  assert (Hv : digit_val c = c - 48) by (unfold digit_val; range_cases). rewrite Hv in *.
  replace (n * 10 + (c - 48)) with (n * 10 + c - 48) in * by lia.
  assert (Hmono : forall l n, Forall (fun c => is_digit c = true) l -> 0 <= n ->
    n <= fold_left (fun n c => n * 10 + digit_val c) l n).
  { clear. induction l as [|c l IH]; intros n Hl Hn; cbn; [lia|]. apply Forall_cons in Hl as [Hc Hl].
    unfold is_digit in Hc. apply andb_prop in Hc as [H1%Z.leb_le H2%Z.leb_le].
    assert (Hv : digit_val c = c - 48) by (unfold digit_val; range_cases). rewrite Hv.
    etrans; [|apply IH; [done|lia]]. lia. }
  pose proof (Hmono l (n * 10 + c - 48) Hl ltac:(lia)). rewrite i32_small by lia. apply IH; [done|lia|done].
Qed.

(** Both [printint]s, on a table of digits. *)
Lemma print_buf_ok digits xx (neg : bool) :
  table_ok digits -> -2147483648 <= xx < 2147483648 -> neg = (xx <? 0) ->
  let l := digits_loop 32 digits (u32 (if neg then - xx else xx)) 10 in
  num_le 10 l = Z.abs xx /\ (length l <= 10)%nat /\ Forall (fun c => is_digit c = true) l /\ l <> [].
Proof.
  intros Ht Hx ->. assert (Ex : u32 (if xx <? 0 then - xx else xx) = Z.abs xx).
  { rewrite u32_small; destruct (Z.ltb_spec xx 0); lia. }
  rewrite Ex. destruct (digits_loop_ok digits 10 32 Ht ltac:(lia) (Z.abs xx) 10) as (H1 & H2 & _ & H4);
    [change (10 ^ Z.of_nat 10) with 10000000000; lia|lia|]. cbv zeta. split; [done|]. split; [lia|].
  split; [apply H4; lia|]. by destruct (digits_loop _ _ _ _); [cbn in H2; lia|].
Qed.

Lemma read_int_digits l : Forall (fun c => is_digit c = true) l -> l <> [] ->
  read_int (reverse l) = num_le 10 l /\ read_int (reverse (l ++ [45])) = - num_le 10 l.
Proof.
  intros Hl Hne. split.
  - rewrite <- num_be_reverse. destruct (reverse l) as [|c r] eqn:E; [done|]. cbn [read_int].
    assert (Hc : is_digit c = true).
    { rewrite Forall_forall in Hl. apply Hl. rewrite <- elem_of_reverse, E. apply list_elem_of_here. }
    unfold is_digit in Hc. destruct (Z.eqb_spec c 45) as [->|]; done.
  - rewrite reverse_app. cbn [reverse rev_append app read_int Z.eqb Pos.eqb]. by rewrite num_be_reverse.
Qed.

(** For every [int]: the digits and the sign fit the 16 bytes of [buf], with
    no store beyond them; what either [printint] prints in decimal reads back as
    the number and, when it is not negative, [atoi] of it is the number; in
    hexadecimal it reads back as the unsigned word. *)
Theorem printint_reads xx :
  -2147483648 <= xx < 2147483648 ->
  ((length (kprint_buf xx 10 true) <= 11)%nat /\ (length (kprint_buf xx 16 false) <= 8)%nat /\
   read_int (kprintint xx 10 true) = xx /\ num_be 16 (kprintint xx 16 false) = u32 xx) /\
  ((length (uprint_buf xx 10 true) <= 11)%nat /\ (length (uprint_buf xx 16 false) <= 8)%nat /\
   read_int (uprintint xx 10 true) = xx /\ num_be 16 (uprintint xx 16 false) = u32 xx) /\
  (0 <= xx -> atoi (uprintint xx 10 true) = xx).
Proof.
  intros Hx. pose proof (u32_range xx) as Hu.
  assert (Hhex : forall digits, table_ok digits -> let l := digits_loop 32 digits (u32 xx) 16 in
    num_le 16 l = u32 xx /\ (length l <= 8)%nat).
  { intros digits Ht. destruct (digits_loop_ok digits 16 32 Ht ltac:(lia) (u32 xx) 8) as (H1 & H2 & _);
      [change (16 ^ Z.of_nat 8) with 4294967296; lia|lia|]. split; [done|lia]. }
  assert (Hdec : forall digits, table_ok digits ->
    let l := digits_loop 32 digits (u32 (if xx <? 0 then - xx else xx)) 10 ++ (if xx <? 0 then [45] else []) in
    (length l <= 11)%nat /\ read_int (reverse l) = xx /\ (0 <= xx -> atoi (reverse l) = xx)).
  { intros digits Ht. destruct (print_buf_ok digits xx (xx <? 0) Ht Hx eq_refl) as (H1 & H2 & H3 & H4).
    destruct (read_int_digits _ H3 H4) as [R1 R2]. cbv zeta. destruct (Z.ltb_spec xx 0).
    - split; [rewrite length_app; cbn [length]; lia|]. split; [rewrite R2; lia|lia].
    - rewrite app_nil_r. split; [lia|]. split; [rewrite R1; lia|]. intros _.
      unfold atoi. rewrite atoi_digits; [|by apply Forall_reverse|lia|].
      all: change (fold_left _ _ 0) with (num_be 10 (reverse (digits_loop 32 digits (u32 xx) 10)));
        rewrite num_be_reverse; lia. }
  destruct (Hhex _ kdigits_ok) as [K1 K2], (Hhex _ udigits_ok) as [U1 U2].
  destruct (Hdec _ kdigits_ok) as (K3 & K4 & _), (Hdec _ udigits_ok) as (U3 & U4 & U5).
  unfold kprintint, uprintint, kprint_buf, uprint_buf. cbn [andb].
  rewrite !app_nil_r, !num_be_reverse.
  replace (let '(neg, x) := if xx <? 0 then (true, u32 (- xx)) else (false, u32 xx) in
     digits_loop 32 udigits x 10 ++ (if neg then [45] else []))
    with (digits_loop 32 udigits (u32 (if xx <? 0 then - xx else xx)) 10 ++ (if xx <? 0 then [45] else []))
    by (by destruct (xx <? 0)).
  tauto.
Qed.

Lemma printint_reads_witness : read_int (kprintint (-2147483648) 10 true) = -2147483648 /\ atoi (uprintint 2147483647 10 true) = 2147483647.
Proof.
  split; [apply (printint_reads (-2147483648)); lia|apply (printint_reads 2147483647); lia].
Defined.

Lemma printf_cprintf_witness :
  printf ∅ (fun _ => 4294967295) 10 [97; 37; 100; 37] = cprintf_loop ∅ (fun _ => 4294967295) 10 uprintint [97; 37; 100; 37] 0 /\
  printf ∅ (fun _ => 4294967295) 10 [97; 37; 100; 37] = Some [97; 45; 49].
Proof. split; [apply printf_cprintf; reflexivity|vm_compute; reflexivity]. Defined.

(** ** Strings and memory of the user library *)

(** [while(n-- > 0) *dst++ = *src++], always upwards. *)
Definition umemmove (m : mem) (vdst vsrc n : Z) : mem := copy_up m vdst vsrc (Z.to_nat n).

Definition umemset (m : mem) (dst c n : Z) : mem := stosb m dst c (Z.to_nat n).

(** [while(( *s++ = *t++) != 0)]. *)
Fixpoint strcpy (fuel : nat) (m : mem) (s t : Z) : option mem :=
  match fuel with
  | O => None
  | S fuel' => let c := rd8 m t in
               let m' := wr8 m s c in
               if c =? 0 then Some m' else strcpy fuel' m' (s + 1) (t + 1)
  end.

Fixpoint strcmp (fuel : nat) (p q : nat -> Z) : option Z :=
  match fuel with
  | O => None
  | S fuel' => if negb (p O =? 0) && (p O =? q O) then strcmp fuel' (rshift p) (rshift q) else Some (p O - q O)
  end.

(** The offset of the first [c], or none. *)
Fixpoint strchr (fuel : nat) (s : nat -> Z) (c : Z) : option (option Z) :=
  match fuel with
  | O => None
  | S fuel' => if s O =? 0 then Some None
               else if s O =? c then Some (Some 0)
               else option_map (option_map (Z.add 1)) (strchr fuel' (rshift s) c)
  end.

(** [gets]: [input] are the bytes that [read(0, &c, 1)] will deliver before it
    reports the end or an error; the line and the rest of the input. *)
Fixpoint gets_loop (room : nat) (input : list Z) : list Z * list Z :=
  match room with
  | O => ([], input)
  | S room' =>
      match input with
      | [] => ([], [])
      | c :: input' =>
          if (c =? 10) || (c =? 13) then ([c], input')
          else let '(l, r) := gets_loop room' input' in (c :: l, r)
      end
  end.
Definition ugets (max : Z) (input : list Z) : list Z * list Z :=
  let '(l, r) := gets_loop (Z.to_nat (max - 1)) input in (l ++ [0], r).

(** The user library's [memmove] does what the kernel's does unless the
    destination starts inside the source: there it copies bytes it has already
    overwritten, while [memmove] is specified for overlapping moves as well. *)
Theorem umemmove_agrees :
  (forall m dst src n, ~ (src < dst < src + n) -> umemmove m dst src n = memmove m dst src n) /\
  exists m, rd8 (memmove m 101 100 2) 102 <> rd8 (umemmove m 101 100 2) 102.
Proof.
  split.
  - intros m dst src n H. unfold umemmove, memmove.
    destruct (Z.ltb_spec src dst), (Z.ltb_spec dst (src + n)); cbn [andb]; (done || lia).
  - exists {[100 := 1; 101 := 2; 102 := 3]}. vm_compute. discriminate.
Qed.

(** [strcmp] is the kernel's [strncmp] without its limit. *)
Lemma strcmp_strncmp fuel : forall p q r, strcmp fuel p q = Some r -> strncmp p q fuel = r.
Proof.
  induction fuel as [|fuel IH]; intros p q r H; [done|]. cbn [strcmp strncmp] in *.
  destruct (negb (p O =? 0) && (p O =? q O)); [by apply IH|by simplify_eq].
Qed.

(** [gets] takes one line: the bytes up to the first end of line, at most
    [max - 1] of them, and leaves the rest. *)
Lemma gets_loop_ok room : forall input l r, gets_loop room input = (l, r) ->
  input = l ++ r /\ (length l <= room)%nat /\
  (forall i c, l !! i = Some c -> c = 10 \/ c = 13 -> i = (length l - 1)%nat) /\
  (l = [] \/ length l = room \/ r = [] \/ exists c, last l = Some c /\ (c = 10 \/ c = 13)).
Proof.
  induction room as [|room IH]; intros input l r H; cbn [gets_loop] in H.
  - simplify_eq. split; [done|]. split; [done|]. split; [done|by left].
  - destruct input as [|c input]; [simplify_eq; split; [done|]; split; [cbn; lia|]; split; [done|by left]|].
    destruct ((c =? 10) || (c =? 13)) eqn:Ec.
    + simplify_eq. split; [done|]. split; [cbn; lia|]. split.
      * intros [|i] d; [done|]. by destruct i.
      * right. right. right. exists c. split; [done|]. apply orb_prop in Ec as [?%Z.eqb_eq|?%Z.eqb_eq]; tauto.
    + destruct (gets_loop room input) as [l' r'] eqn:E. simplify_eq. destruct (IH _ _ _ E) as (-> & Hl & Hi & Hor).
      apply orb_false_elim in Ec as [?%Z.eqb_neq ?%Z.eqb_neq].
      split; [done|]. split; [cbn; lia|]. split.
      * intros [|i] d Hd Hc; cbn in Hd; [simplify_eq; lia|]. specialize (Hi _ _ Hd Hc).
        apply lookup_lt_Some in Hd. cbn. lia.
      * destruct Hor as [->|[Hor|[Hor|(d & Hd & Hc)]]].
        -- destruct room as [|room]; [right; by left|]. cbn [app gets_loop] in E.
           destruct r as [|d r]; [right; right; by left|].
           destruct ((d =? 10) || (d =? 13)); [done|]. destruct (gets_loop room r); done.
        -- right. left. cbn. lia.
        -- right. right. by left.
        -- right. right. right. exists d. split; [|done]. by rewrite last_cons, Hd.
Qed.
