(* ===== verification/Console.v ===== *)
(** The console: xv6-public/console.c and the keyboard decoder kbd.c.

    The screen is the CGA text memory, an array of 16-bit cells, and the cursor
    registers of the controller. Output to the serial line is recorded byte by
    byte. Input is edited in a ring of [INPUT_BUF] bytes with free-running
    32-bit counters: [r] to [w] are the bytes of finished lines that wait for a
    reader, [w] to [e] the line being edited. Code under [cons.lock] is atomic;
    [consoleread] gives the lock up only while it sleeps, so a call is a
    sequence of sections, which [cstep] interleaves with keyboard interrupts.

    Theorems: [cgaputc] never leaves the screen and scrolls by a line
    ([cgaputc_screen]); the ring refines a line editor over a queue of finished
    lines, counter wrap-around included ([consoleintr_refines]); readers get
    every byte of the finished lines once and in order, and no reader sleeps
    while there are any ([console_delivers]). *)

From Stdlib Require Import ZArith Lia.
From stdpp Require Import base strings gmap numbers list.
From S2P Require Import Prelude Fs File.

Open Scope Z_scope.

(** ** The screen *)

Abbreviation BACKSPACE := 256 (only parsing).

(** The cells of [crt] and the two cursor registers. *)
Record cga := { crt : Z -> Z; cur_hi : Z; cur_lo : Z }.

Definition cga_pos (s : cga) : Z := Z.lor (Z.shiftl (cur_hi s) 8) (cur_lo s).

Definition set_cell (i v : Z) (f : Z -> Z) : Z -> Z := fun j => if j =? i then v else f j.

(** [memmove(crt, crt+80, ...)] of 23 rows and [memset(crt+pos, 0, ...)] up to
    the end of row 23. *)
Definition scroll (f : Z -> Z) : Z -> Z :=
  fun j => if (0 <=? j) && (j <? 23 * 80) then f (j + 80) else f j.
Definition clear_from (pos : Z) (f : Z -> Z) : Z -> Z :=
  fun j => if (pos <=? j) && (j <? pos + (24 * 80 - pos)) then 0 else f j.

Definition cgaputc (c : Z) : M cga unit :=
  let* s := get in
  let pos := cga_pos s in
  let '(f, pos) :=
    (if c =? 10 then (crt s, pos + (80 - Z.rem pos 80))
     else if c =? BACKSPACE then (crt s, if 0 <? pos then pos - 1 else pos)
     else (set_cell pos (Z.lor (Z.land c 255) 1792) (crt s), pos + 1)) in
  if (pos <? 0) || (25 * 80 <? pos) then panic "pos under/overflow"
  else
    let '(f, pos) :=
      (if 24 <=? Z.quot pos 80 then (clear_from (pos - 80) (scroll f), pos - 80) else (f, pos)) in
    put {| crt := set_cell pos (Z.lor 32 1792) f;
           cur_hi := u8 (Z.shiftr pos 8); cur_lo := u8 pos |}.

(** The cursor is on one of the 24 rows. *)
Definition cga_ok (s : cga) : Prop :=
  0 <= cur_hi s < 256 /\ 0 <= cur_lo s < 256 /\ 0 <= cga_pos s < 24 * 80.

(** Reads the registers back as they were written. *)
Lemma cursor_roundtrip f pos : 0 <= pos < 65536 ->
  cga_pos {| crt := f; cur_hi := u8 (Z.shiftr pos 8); cur_lo := u8 pos |} = pos.
Proof.
  intros H. unfold cga_pos. cbn [cur_hi cur_lo]. rewrite lor_shiftl by (try apply u8_range; lia).
  rewrite Z.shiftl_mul_pow2, Z.shiftr_div_pow2 by lia. unfold u8. change (2 ^ 8) with 256. dlia.
Qed.

(** What a character does to the cursor, before scrolling. *)
Definition next_pos (c pos : Z) : Z :=
  if c =? 10 then pos + (80 - pos mod 80) else if c =? BACKSPACE then Z.max 0 (pos - 1) else pos + 1.

(** On a screen with the cursor on its 24 rows, [cgaputc] does not panic and
    leaves the cursor there; it never stores outside the 24 rows. A character
    appears at the old position unless the cursor leaves the last row: then every
    row moves up by one and the last one is blank. The cursor's cell is a space. *)
Theorem cgaputc_screen c s :
  cga_ok s ->
  exists s', cgaputc c s = Ret tt s' /\ cga_ok s' /\
    (forall j, ~ (0 <= j < 24 * 80) -> crt s' j = crt s j) /\
    let p := next_pos c (cga_pos s) in
    let shown j := if (c =? 10) || (c =? BACKSPACE) || negb (j =? cga_pos s)
                   then crt s j else Z.lor (Z.land c 255) 1792 in
    if p <? 24 * 80 then
      cga_pos s' = p /\ (forall j, j <> p -> crt s' j = shown j) /\ crt s' p = 1824
    else
      cga_pos s' = 23 * 80 /\ (forall j, 0 <= j < 23 * 80 -> crt s' j = shown (j + 80)) /\
      crt s' (23 * 80) = 1824 /\ (forall j, 23 * 80 < j < 24 * 80 -> crt s' j = 0).
Proof.
  intros (Hh & Hl & Hp). unfold cgaputc, get, put, bind, next_pos. cbn zeta.
  set (pos := cga_pos s) in *. rewrite Z.rem_mod_nonneg by lia.
  assert (Hm : 0 <= pos mod 80 < 80) by (apply Z.mod_pos_bound; lia).
  assert (Hd : pos + (80 - pos mod 80) <= 24 * 80) by dlia.
  set (f := crt s).
  set (f1 := if c =? 10 then f else if c =? BACKSPACE then f else set_cell pos (Z.lor (Z.land c 255) 1792) f).
  set (p := if c =? 10 then pos + (80 - pos mod 80) else if c =? BACKSPACE then Z.max 0 (pos - 1) else pos + 1).
  assert (E : (if c =? 10 then (f, pos + (80 - pos mod 80))
     else if c =? BACKSPACE then (f, if 0 <? pos then pos - 1 else pos)
     else (set_cell pos (Z.lor (Z.land c 255) 1792) f, pos + 1)) = (f1, p)).
  { unfold f1, p. destruct (c =? 10); [done|]. destruct (c =? BACKSPACE); [|done]. f_equal. range_cases; lia. }
  rewrite E.
  assert (Hf1 : forall j, f1 j = if (c =? 10) || (c =? BACKSPACE) || negb (j =? pos) then f j else Z.lor (Z.land c 255) 1792).
  { intros j. unfold f1, set_cell. destruct (c =? 10); [done|]. destruct (c =? BACKSPACE); [done|].
    by destruct (j =? pos). }
  assert (Hpb : 0 <= p <= 24 * 80).
  { unfold p. destruct (c =? 10); [lia|]. destruct (c =? BACKSPACE); lia. }
  assert (Hf1o : forall j, ~ (0 <= j < 24 * 80) -> f1 j = f j).
  { intros j Hj. rewrite Hf1. destruct (Z.eqb_spec j pos); [lia|]. by rewrite orb_true_r. }
  clearbody f1 p. destruct (Z.ltb_spec p 0); [lia|]. destruct (Z.ltb_spec (25 * 80) p); [lia|]. cbn [orb].
  rewrite Z.quot_div_nonneg by lia. destruct (Z.ltb_spec p (24 * 80)) as [Hlt|Hge].
  - destruct (Z.leb_spec 24 (p / 80)); [dlia|]. eexists. split; [done|]. unfold cga_ok.
    rewrite cursor_roundtrip by lia. cbn [crt cur_hi cur_lo]. split; [split; [apply u8_range|split; [apply u8_range|lia]]|].
    unfold set_cell. split; [intros j Hj; rewrite <- Hf1o by done; range_cases|]. split; [done|].
    split; [intros j Hj; rewrite <- Hf1; range_cases; done|]. by rewrite Z.eqb_refl.
  - destruct (Z.leb_spec 24 (p / 80)); [|dlia]. assert (p = 24 * 80) as -> by lia. eexists. split; [done|]. unfold cga_ok.
    rewrite cursor_roundtrip by lia. cbn [crt cur_hi cur_lo]. split; [split; [apply u8_range|split; [apply u8_range|lia]]|].
    unfold set_cell, clear_from, scroll. split; [intros j Hj; rewrite <- Hf1o by done; range_cases; done|].
    split; [lia|]. split; [intros j Hj; rewrite <- Hf1; range_cases; done|]. split; [done|].
    intros j Hj. range_cases; done.
Qed.

Definition cga0 : cga := {| crt := fun _ => 0; cur_hi := 7; cur_lo := 127 |}.

Lemma cgaputc_screen_witness : exists s', cgaputc 65 cga0 = Ret tt s' /\ cga_pos s' = 23 * 80.
Proof.
  destruct (cgaputc_screen 65 cga0) as (s' & E & _ & _ & H); [vm_compute; intuition discriminate|].
  exists s'. split; [done|]. apply H.
Defined.

(** ** The console's state *)

Abbreviation INPUT_BUF := 128 (only parsing).

Record input := { ibuf : list Z; ir : Z; iw : Z; ie : Z }.

(** The screen, the bytes sent to the serial line, [panicked], and [input]. *)
Record cons := { screen : cga; uart : list Z; panicked : bool; inp : input }.

Definition set_screen (x : cga) (s : cons) : cons :=
  {| screen := x; uart := uart s; panicked := panicked s; inp := inp s |}.
Definition set_inp (x : input) (s : cons) : cons :=
  {| screen := screen s; uart := uart s; panicked := panicked s; inp := x |}.

Definition uartputc (c : Z) : M cons unit :=
  modify (fun s => {| screen := screen s; uart := uart s ++ [u8 c]; panicked := panicked s; inp := inp s |}).

(** A processor that prints after another one has panicked stops. *)
Definition consputc (c : Z) : M cons unit :=
  let* s := get in
  if panicked s then panic "frozen"
  else
    (if c =? BACKSPACE then uartputc 8 ;;; uartputc 32 ;;; uartputc 8 else uartputc c) ;;;
    part screen set_screen (cgaputc c).

Fixpoint consputs (l : list Z) : M cons unit :=
  match l with
  | [] => ret tt
  | c :: l' => consputc c ;;; consputs l'
  end.

(** ** Interrupts *)

Definition set_ie (e : Z) (i : input) : input := {| ibuf := ibuf i; ir := ir i; iw := iw i; ie := e |}.
Definition set_iw (w : Z) (i : input) : input := {| ibuf := ibuf i; ir := ir i; iw := w; ie := ie i |}.
Definition set_ir (r : Z) (i : input) : input := {| ibuf := ibuf i; ir := r; iw := iw i; ie := ie i |}.

(** Control-U: the loop that removes the line, and how often it erases. *)
Fixpoint kill_line (fuel : nat) (i : input) : input * nat :=
  match fuel with
  | O => (i, O)
  | S fuel' =>
      if negb (ie i =? iw i) && negb (get8 (ibuf i) (u32 (ie i - 1) mod INPUT_BUF) =? 10)
      then let '(i', k) := kill_line fuel' (set_ie (u32 (ie i - 1)) i) in (i', S k)
      else (i, O)
  end.

(** One character: the input, what is echoed, and whether readers are woken. *)
Definition intr_char (c : Z) (i : input) : input * list Z * bool :=
  if c =? 16 then (i, [], false)
  else if c =? 21 then
    let '(i', k) := kill_line (Z.to_nat INPUT_BUF) i in (i', replicate k BACKSPACE, false)
  else if (c =? 8) || (c =? 127) then
    if negb (ie i =? iw i) then (set_ie (u32 (ie i - 1)) i, [BACKSPACE], false) else (i, [], false)
  else if negb (c =? 0) && (u32 (ie i - ir i) <? INPUT_BUF) then
    let c := if c =? 13 then 10 else c in
    let i1 := {| ibuf := put8 (ibuf i) (ie i mod INPUT_BUF) c; ir := ir i; iw := iw i; ie := u32 (ie i + 1) |} in
    if (c =? 10) || (c =? 4) || (ie i1 =? u32 (ir i1 + INPUT_BUF))
    then (set_iw (ie i1) i1, [c], true)
    else (i1, [c], false)
  else (i, [], false).

(** [consoleintr] on the characters that [getc] returns before it has no more;
    the results are whether [wakeup] and [procdump] are called. *)
Fixpoint consoleintr (cs : list Z) : M cons (bool * bool) :=
  match cs with
  | [] => ret (false, false)
  | c :: cs' =>
      let* s := get in
      let '(i, echo, wk) := intr_char c (inp s) in
      put (set_inp i s) ;;;
      consputs echo ;;;
      let* r := consoleintr cs' in
      ret (wk || r.1, (c =? 16) || r.2)
  end.

(** ** Reading and writing *)

(** How a section of [consoleread] ends. *)
Inductive csection :=
  | CRet (r : Z) (dst : list Z) (i : input)
  | CSleep (n : nat) (dst : list Z) (i : input).

(** The loop from [n] bytes still to read; [dst] are the bytes stored so far, so
    that [n < target] says that there are some. *)
Fixpoint consoleread_sec (killed : bool) (n : nat) (dst : list Z) (i : input) : csection :=
  match n with
  | O => CRet (Z.of_nat (length dst)) dst i
  | S n' =>
      if ir i =? iw i then
        if killed then CRet (-1) dst i else CSleep n dst i
      else
        let c := get8 (ibuf i) (ir i mod INPUT_BUF) in
        let i1 := set_ir (u32 (ir i + 1)) i in
        if c =? 4 then
          if 0 <? Z.of_nat (length dst) then CRet (Z.of_nat (length dst)) dst (set_ir (u32 (ir i1 - 1)) i1)
          else CRet (Z.of_nat (length dst)) dst i1
        else if c =? 10 then CRet (Z.of_nat (length (dst ++ [c]))) (dst ++ [c]) i1
        else consoleread_sec killed n' (dst ++ [c]) i1
  end.

(** The system calls' side: the inode is unlocked during the transfer. *)
Record condev := { cd_fs : fs; cd_cons : cons }.
Definition set_cd_fs (x : fs) (s : condev) : condev := {| cd_fs := x; cd_cons := cd_cons s |}.
Definition set_cd_cons (x : cons) (s : condev) : condev := {| cd_fs := cd_fs s; cd_cons := x |}.

Definition consoleread (killed : bool) (ip : nat) (n : Z) : M condev (Z * list Z) :=
  part cd_fs set_cd_fs (iunlock ip) ;;;
  let* s := get in
  match consoleread_sec killed (Z.to_nat n) [] (inp (cd_cons s)) with
  | CRet r dst i =>
      put (set_cd_cons (set_inp i (cd_cons s)) s) ;;;
      part cd_fs set_cd_fs (ilock ip) ;;;
      ret (r, dst)
  | CSleep n dst i =>
      put (set_cd_cons (set_inp i (cd_cons s)) s) ;;;
      sleep_on ("input.r"%string, 0)
  end.

Definition consolewrite (ip : nat) (buf : list Z) : M condev Z :=
  part cd_fs set_cd_fs (iunlock ip) ;;;
  part cd_cons set_cd_cons (consputs (u8 <$> buf)) ;;;
  part cd_fs set_cd_fs (ilock ip) ;;;
  ret (Z.of_nat (length buf)).

(** ** The line editor *)

Record input_ok (i : input) : Prop := {
  io_len : length (ibuf i) = Z.to_nat INPUT_BUF;
  io_bytes : Forall (fun b => 0 <= b < 256) (ibuf i);
  io_r : 0 <= ir i < 4294967296;
  io_w : 0 <= iw i < 4294967296;
  io_e : 0 <= ie i < 4294967296;
  io_we : u32 (iw i - ir i) <= u32 (ie i - ir i);
  io_cap : u32 (ie i - ir i) <= INPUT_BUF
}.

(** The ring from [r] to [e], the finished bytes, and the line being edited. *)
Definition islot (i : input) (k : nat) : Z := get8 (ibuf i) ((ir i + Z.of_nat k) mod INPUT_BUF).
Definition iall (i : input) : list Z := islot i <$> seq 0 (Z.to_nat (u32 (ie i - ir i))).
Definition ndone (i : input) : nat := Z.to_nat (u32 (iw i - ir i)).
Definition done_q (i : input) : list Z := take (ndone i) (iall i).
Definition edit_l (i : input) : list Z := drop (ndone i) (iall i).

(** The editor on lists: finished bytes and line. *)
Definition edit_char (c : Z) (q l : list Z) : list Z * list Z * list Z * bool :=
  if c =? 16 then (q, l, [], false)
  else if c =? 21 then (q, [], replicate (length l) BACKSPACE, false)
  else if (c =? 8) || (c =? 127) then
    (q, take (length l - 1) l, if decide (l = []) then [] else [BACKSPACE], false)
  else if negb (c =? 0) && (Z.of_nat (length q + length l) <? INPUT_BUF) then
    let c := if c =? 13 then 10 else c in
    if (c =? 10) || (c =? 4) || (Z.of_nat (length q + length l) =? INPUT_BUF - 1)
    then (q ++ l ++ [c], [], [c], true)
    else (q, l ++ [c], [c], false)
  else (q, l, [], false).

(** A read of [n] bytes from the finished ones: the bytes, what is left, and
    whether the read is over. *)
Fixpoint take_line (n : nat) (dst q : list Z) : list Z * list Z * bool :=
  match n with
  | O => (dst, q, true)
  | S n' =>
      match q with
      | [] => (dst, [], false)
      | c :: q' =>
          if c =? 4 then (dst, if decide (dst = []) then q' else q, true)
          else if c =? 10 then (dst ++ [c], q', true)
          else take_line n' (dst ++ [c]) q'
      end
  end.

(** ** The ring as two lists *)

Definition icount (i : input) : nat := Z.to_nat (u32 (ie i - ir i)).

Lemma length_iall i : length (iall i) = icount i.
Proof. unfold iall. by rewrite length_fmap, length_seq. Qed.

Lemma lookup_iall i k : (k < icount i)%nat -> iall i !! k = Some (islot i k).
Proof. intros. unfold iall. rewrite list_lookup_fmap, lookup_seq_lt by done. done. Qed.

(** The slot behind the last byte. *)
Lemma e_slot i : 0 <= ie i < 4294967296 -> ie i mod INPUT_BUF = (ir i + Z.of_nat (icount i)) mod INPUT_BUF.
Proof. intros. unfold icount. rewrite Z2Nat.id by apply u32_range. unfold u32. dlia. Qed.

Lemma slots_differ r j k : 0 <= j < INPUT_BUF -> 0 <= k < INPUT_BUF -> j <> k -> (r + j) mod INPUT_BUF <> (r + k) mod INPUT_BUF.
Proof. dlia. Qed.

(** The same ring up to a position, from the same start. *)
Lemma iall_same i i' n :
  ir i' = ir i -> icount i' = n -> (n <= icount i)%nat ->
  (forall k, (k < n)%nat -> islot i' k = islot i k) -> iall i' = take n (iall i).
Proof.
  intros Hr Hn Hle Hs. apply list_eq. intros k. destruct (decide (k < n)%nat).
  - rewrite lookup_take_lt, !lookup_iall by lia. f_equal. by apply Hs.
  - rewrite lookup_take_ge by lia. apply lookup_ge_None. rewrite length_iall. lia.
Qed.

Lemma push_ok i c : input_ok i -> (icount i < Z.to_nat INPUT_BUF)%nat -> 0 <= c < 256 ->
  let i1 := {| ibuf := put8 (ibuf i) (ie i mod INPUT_BUF) c; ir := ir i; iw := iw i; ie := u32 (ie i + 1) |} in
  input_ok i1 /\ iall i1 = iall i ++ [c] /\ icount i1 = S (icount i) /\ ndone i1 = ndone i.
Proof.
  intros [Hl Hb Hr Hw He Hwe Hc] Hn Hcr i1.
  assert (Hi1 : icount i1 = S (icount i)) by (unfold icount, i1, u32 in *; cbn; dlia).
  split; [|split; [|split; [done|done]]].
  - split; cbn; try done.
    + by rewrite length_put8.
    + by apply put8_ok.
    + apply u32_range.
    + unfold icount, u32 in *. dlia.
    + unfold icount, u32 in *. dlia.
  - apply list_eq. intros k. destruct (decide (k < icount i)%nat) as [Hk|Hk].
    + rewrite lookup_app_l by (rewrite length_iall; lia). rewrite !lookup_iall by lia. f_equal.
      unfold islot, i1. cbn. rewrite get8_put8 by (rewrite ?Hl; apply Z.mod_pos_bound; lia).
      rewrite e_slot by done. destruct (Z.eqb_spec ((ir i + Z.of_nat (icount i)) mod INPUT_BUF)
        ((ir i + Z.of_nat k) mod INPUT_BUF)) as [E|]; [|done]. exfalso. revert E. apply slots_differ; lia.
    + destruct (decide (k = icount i)) as [->|Hne].
      * rewrite lookup_app_r by (rewrite length_iall; lia). rewrite length_iall, Nat.sub_diag, lookup_iall by lia.
        cbn. f_equal. unfold islot, i1. cbn. rewrite get8_put8 by (rewrite ?Hl; apply Z.mod_pos_bound; lia).
        rewrite e_slot, Z.eqb_refl, u8_small by done. done.
      * rewrite !(proj2 (lookup_ge_None _ _)); [done|..]; rewrite ?length_app, ?length_iall; cbn; lia.
Qed.

Lemma back_ok i : input_ok i -> ie i <> iw i ->
  let i1 := set_ie (u32 (ie i - 1)) i in
  input_ok i1 /\ iall i1 = take (icount i - 1) (iall i) /\ icount i1 = (icount i - 1)%nat /\ ndone i1 = ndone i /\
  (ndone i < icount i)%nat /\ iall i !! (icount i - 1)%nat = Some (get8 (ibuf i) (u32 (ie i - 1) mod INPUT_BUF)).
Proof.
  intros [Hl Hb Hr Hw He Hwe Hc] Hne i1.
  assert (Hlt : (ndone i < icount i)%nat) by (unfold ndone, icount, u32 in *; dlia).
  assert (Hi1 : icount i1 = (icount i - 1)%nat) by (unfold ndone, icount, i1, u32 in *; cbn; dlia).
  split; [|split; [|split; [done|split; [done|split; [done|]]]]].
  - split; cbn; try done; [apply u32_range|..]; unfold ndone, icount, u32 in *; dlia.
  - apply iall_same; [done|done|lia|done].
  - rewrite lookup_iall by lia. f_equal. unfold islot. f_equal.
    unfold ndone, icount, u32 in *. dlia.
Qed.

Lemma pop_ok i : input_ok i -> ir i <> iw i ->
  let i1 := set_ir (u32 (ir i + 1)) i in
  input_ok i1 /\ iall i = get8 (ibuf i) (ir i mod INPUT_BUF) :: iall i1 /\ ndone i = S (ndone i1).
Proof.
  intros [Hl Hb Hr Hw He Hwe Hc] Hne i1.
  assert (Hn1 : ndone i = S (ndone i1)) by (unfold ndone, i1, u32 in *; cbn; dlia).
  assert (Hi1 : icount i = S (icount i1)) by (unfold icount, i1, u32 in *; cbn; dlia).
  split; [|split; [|done]].
  - split; cbn; try done; [apply u32_range|..]; unfold ndone, icount, u32 in *; dlia.
  - apply list_eq. intros [|k]; cbn.
    + rewrite lookup_iall by lia. f_equal. unfold islot. f_equal. f_equal. lia.
    + destruct (decide (k < icount i1)%nat).
      * rewrite !lookup_iall by lia. f_equal. unfold islot, i1. cbn. f_equal. unfold u32. dlia.
      * rewrite (lookup_ge_None_2 (iall i)), (lookup_ge_None_2 (iall i1)); [done|..]; rewrite length_iall; lia.
Qed.

Lemma unpop i : input_ok i -> ir i <> iw i ->
  set_ir (u32 (ir (set_ir (u32 (ir i + 1)) i) - 1)) (set_ir (u32 (ir i + 1)) i) = i.
Proof.
  intros Hok _. destruct i as [b r w e]. unfold set_ir. cbn. f_equal. destruct Hok as [_ _ Hr _ _ _ _]. cbn in Hr.
  unfold u32. dlia.
Qed.

Lemma ndone_le i : input_ok i -> (ndone i <= icount i)%nat.
Proof. intros [Hl Hb Hr Hw He Hwe Hc]. unfold ndone, icount. lia. Qed.

Lemma done_lengths i : input_ok i ->
  length (done_q i) = ndone i /\ length (edit_l i) = (icount i - ndone i)%nat /\ (icount i <= Z.to_nat INPUT_BUF)%nat.
Proof.
  intros Hok. pose proof (ndone_le i Hok). unfold done_q, edit_l. rewrite length_take, length_drop, length_iall.
  destruct Hok. unfold icount in *. lia.
Qed.

Lemma r_w_done i : input_ok i -> ir i = iw i <-> done_q i = [].
Proof.
  intros Hok. destruct (done_lengths i Hok) as (H1 & _). split; intros H.
  - apply nil_length_inv. rewrite H1. unfold ndone. rewrite H, Z.sub_diag. done.
  - rewrite H in H1. cbn in H1. destruct Hok. unfold ndone, u32 in *. dlia.
Qed.

(** Erasing the last byte of the line. *)
Lemma back_edit i : input_ok i -> ie i <> iw i ->
  let i1 := set_ie (u32 (ie i - 1)) i in
  input_ok i1 /\ done_q i1 = done_q i /\
  edit_l i = edit_l i1 ++ [get8 (ibuf i) (u32 (ie i - 1) mod INPUT_BUF)].
Proof.
  intros Hok Hne i1. destruct (back_ok i Hok Hne) as (Hok1 & Ha & Hc1 & Hd & Hlt & Hlast). fold i1 in Hok1, Ha, Hc1, Hd.
  assert (E : iall i = iall i1 ++ [get8 (ibuf i) (u32 (ie i - 1) mod INPUT_BUF)]).
  { rewrite Ha, <- (take_S_r _ _ _ Hlast). symmetry. apply take_ge. rewrite length_iall. lia. }
  split; [done|]. unfold done_q, edit_l. rewrite Hd, E.
  rewrite take_app_le, drop_app_le by (rewrite length_iall; lia). done.
Qed.

Lemma edit_nil i : input_ok i -> edit_l i = [] <-> ie i = iw i.
Proof.
  intros Hok. destruct (done_lengths i Hok) as (_ & H & _). split; intros E.
  - rewrite E in H. cbn in H. pose proof (ndone_le i Hok). destruct Hok. unfold ndone, icount, u32 in *. dlia.
  - apply nil_length_inv. rewrite H. unfold icount, ndone. rewrite E. lia.
Qed.

Lemma kill_line_ok fuel : forall i, input_ok i -> (10 ∉ edit_l i) -> (length (edit_l i) <= fuel)%nat ->
  exists i', kill_line fuel i = (i', length (edit_l i)) /\ input_ok i' /\ done_q i' = done_q i /\ edit_l i' = [].
Proof.
  induction fuel as [|fuel IH]; intros i Hok Hnl Hle; cbn [kill_line].
  - assert (E : edit_l i = []) by (apply nil_length_inv; lia). exists i. by rewrite E.
  - destruct (Z.eqb_spec (ie i) (iw i)) as [E|Hne]; cbn [negb andb].
    + apply edit_nil in E; [|done]. exists i. by rewrite E.
    + destruct (back_edit i Hok Hne) as (Hok1 & Hd & He). set (x := get8 _ _) in *.
      rewrite He, length_app in Hle. cbn [length] in Hle. rewrite He, not_elem_of_app in Hnl. destruct Hnl as [Hnl Hx].
      destruct (Z.eqb_spec x 10) as [->|_]; [set_solver|]. cbn [negb andb].
      destruct (IH _ Hok1 Hnl ltac:(lia)) as (i' & E & Hok' & Hd' & He'). rewrite E.
      exists i'. split; [|split; [done|split; [by rewrite Hd'|done]]]. f_equal. rewrite He, length_app. cbn. lia.
Qed.

Lemma finish_ok i : input_ok i ->
  input_ok (set_iw (ie i) i) /\ done_q (set_iw (ie i) i) = iall i /\ edit_l (set_iw (ie i) i) = [].
Proof.
  intros [Hl Hb Hr Hw He Hwe Hc]. split; [split; cbn; try done; lia|]. unfold done_q, edit_l.
  change (iall (set_iw (ie i) i)) with (iall i). change (ndone (set_iw (ie i) i)) with (icount i).
  rewrite <- length_iall. split; [by rewrite take_ge|by rewrite drop_ge].
Qed.

Lemma done_edit i : done_q i ++ edit_l i = iall i.
Proof. apply take_drop. Qed.

Lemma full_iff e r : 0 <= e < 4294967296 -> 0 <= r < 4294967296 ->
  u32 (e + 1) = u32 (r + INPUT_BUF) <-> u32 (e - r) = INPUT_BUF - 1.
Proof. intros. unfold u32. split; intros; dlia. Qed.

(** One character does to the ring what the line editor does to the queue of
    finished bytes and the line: Control-U drops the line, backspace its last
    byte, a newline (or carriage return), Control-D or a full buffer finishes
    it, any other byte is added while there is room and dropped when there is
    none. The echo and the waking of readers are the editor's. The line being
    edited never contains a newline. *)
Theorem consoleintr_refines c i :
  input_ok i -> 10 ∉ edit_l i -> 0 <= c < 256 ->
  exists i' echo wk, intr_char c i = (i', echo, wk) /\
    edit_char c (done_q i) (edit_l i) = (done_q i', edit_l i', echo, wk) /\ input_ok i' /\ 10 ∉ edit_l i'.
Proof.
  intros Hok Hnl Hc. destruct (done_lengths i Hok) as (Lq & Ll & Lc). pose proof (ndone_le i Hok) as Lnd.
  unfold intr_char, edit_char. destruct (c =? 16); [by eauto 10|]. destruct (c =? 21).
  { destruct (kill_line_ok (Z.to_nat INPUT_BUF) i Hok Hnl ltac:(lia)) as (i' & -> & Hok' & Hd & He).
    do 3 eexists. split; [done|]. rewrite Hd, He. split; [done|]. split; [done|]. set_solver. }
  destruct ((c =? 8) || (c =? 127)).
  { destruct (Z.eqb_spec (ie i) (iw i)) as [E|Hne]; cbn [negb].
    - apply edit_nil in E; [|done]. do 3 eexists. split; [done|]. rewrite E. split; [done|]. split; [done|]. set_solver.
    - destruct (back_edit i Hok Hne) as (Hok1 & Hd & He). do 3 eexists. split; [done|]. rewrite Hd.
      split; [|split; [done|rewrite He in Hnl; set_solver]]. destruct (decide (edit_l i = [])) as [E|_].
      + rewrite E in He. by destruct (edit_l _) in He.
      + rewrite He at 1 2. rewrite length_app, take_app_length'; [done|cbn; lia]. }
  assert (Ecap : (u32 (ie i - ir i) <? INPUT_BUF) = (Z.of_nat (length (done_q i) + length (edit_l i)) <? INPUT_BUF)).
  { rewrite Lq, Ll. unfold icount in *. pose proof (u32_range (ie i - ir i)). f_equal. lia. }
  rewrite Ecap. destruct (negb (c =? 0) && _) eqn:Eg; [|by eauto 10].
  apply andb_prop in Eg as [_ Hroom%Z.ltb_lt]. rewrite Lq, Ll in Hroom. cbv zeta.
  set (d := if c =? 13 then 10 else c). assert (Hd : 0 <= d < 256) by (unfold d; destruct (c =? 13); lia).
  destruct (push_ok i d Hok ltac:(lia) Hd) as (Hok1 & Ha & Hc1 & Hn1). set (i1 := {| ibuf := _ |}) in *.
  assert (Efull : (ie i1 =? u32 (ir i1 + INPUT_BUF)) = (Z.of_nat (length (done_q i) + length (edit_l i)) =? INPUT_BUF - 1)).
  { rewrite Lq, Ll. replace (ndone i + (icount i - ndone i))%nat with (icount i) by lia.
    unfold icount. rewrite Z2Nat.id by apply u32_range. cbn [i1 ir ie].
    apply eq_true_iff_eq. rewrite !Z.eqb_eq. apply full_iff; apply Hok. }
  rewrite Efull. destruct ((d =? 10) || (d =? 4) || _) eqn:Ef.
  - destruct (finish_ok i1 Hok1) as (Hok2 & Hq2 & Hl2). do 3 eexists. split; [done|]. rewrite Hq2, Hl2, Ha, <- (done_edit i).
    split; [by rewrite <- app_assoc|]. split; [done|]. set_solver.
  - do 3 eexists. split; [done|].
    assert (Eq : done_q i1 = done_q i /\ edit_l i1 = edit_l i ++ [d]).
    { unfold done_q, edit_l. rewrite Hn1, Ha, take_app_le, drop_app_le by (rewrite length_iall; lia). done. }
    destruct Eq as [-> ->]. split; [done|]. split; [done|]. apply orb_false_elim in Ef as [[Ef%Z.eqb_neq _]%orb_false_elim _].
    set_solver.
Qed.

(** ** Readers *)

Lemma done_pop i : input_ok i -> ir i <> iw i ->
  let i1 := set_ir (u32 (ir i + 1)) i in
  input_ok i1 /\ done_q i = get8 (ibuf i) (ir i mod INPUT_BUF) :: done_q i1 /\ edit_l i1 = edit_l i.
Proof.
  intros Hok Hne i1. destruct (pop_ok i Hok Hne) as (Hok1 & Ha & Hn). fold i1 in Hok1, Ha, Hn.
  split; [done|]. unfold done_q, edit_l. by rewrite Ha, Hn.
Qed.

(** A section of [consoleread] takes bytes from the queue as [take_line] does. *)
Lemma consoleread_sec_ok killed n : forall dst i, input_ok i ->
  exists dst' q' fin i', take_line n dst (done_q i) = (dst', q', fin) /\
    input_ok i' /\ done_q i' = q' /\ edit_l i' = edit_l i /\ (fin = false -> q' = []) /\
    exists n', consoleread_sec killed n dst i =
      if fin then CRet (Z.of_nat (length dst')) dst' i'
      else if killed then CRet (-1) dst' i' else CSleep n' dst' i'.
Proof.
  induction n as [|n IH]; intros dst i Hok; cbn [take_line consoleread_sec].
  - exists dst, (done_q i), true, i. split_and!; [done..|by exists O].
  - destruct (Z.eqb_spec (ir i) (iw i)) as [E|Hne].
    + apply r_w_done in E; [|done]. rewrite E. exists dst, [], false, i. split_and!; [done..|by exists (S n)].
    + destruct (done_pop i Hok Hne) as (Hok1 & Hq & He). rewrite Hq. set (c := get8 _ _).
      destruct (c =? 4).
      { destruct (decide (dst = [])) as [->|Hd].
        - cbn. eexists _, _, true, _. split; [done|]. split; [exact Hok1|]. split_and!; [done..|by exists O].
        - destruct (Z.ltb_spec 0 (Z.of_nat (length dst))) as [_|]; [|destruct dst; [done|cbn in *; lia]].
          rewrite unpop by done. eexists _, _, true, i. split; [done|]. rewrite Hq. split_and!; [done..|by exists O]. }
      destruct (c =? 10).
      { eexists _, _, true, _. split; [done|]. split; [exact Hok1|]. split_and!; [done..|by exists O]. }
      destruct (IH (dst ++ [c]) _ Hok1) as (dst' & q' & fin & i' & E & Hok' & Hq' & He' & Hf & n' & Es).
      exists dst', q', fin, i'. rewrite He' , He. eauto 10.
Qed.

Lemma take_line_split n : forall dst q dst' q' fin, take_line n dst q = (dst', q', fin) ->
  exists t, q = t ++ q' /\ dst' = dst ++ filter (fun c => c <> 4) t.
Proof.
  induction n as [|n IH]; intros dst q dst' q' fin H; cbn [take_line] in H.
  - simplify_eq. exists []. split; [done|symmetry; apply app_nil_r].
  - destruct q as [|c q]; [simplify_eq; exists []; split; [done|symmetry; apply app_nil_r]|].
    destruct (Z.eqb_spec c 4) as [->|Hc4].
    + simplify_eq. destruct (decide (dst' = [])) as [->|]; [exists [4]; done|exists []; split; [done|symmetry; apply app_nil_r]].
    + destruct (Z.eqb_spec c 10) as [->|Hc10].
      * simplify_eq. by exists [10].
      * destruct (IH _ _ _ _ _ H) as (t & -> & ->). exists (c :: t). split; [done|].
        rewrite filter_cons_True by done. by rewrite <- app_assoc.
Qed.

(** A process outside, inside, or asleep in [consoleread]. *)
Inductive rst := RIdle | RReading (n : nat) (dst : list Z) | RAsleep (n : nat) (dst : list Z).

(** [wakeup(&input.r)] *)
Definition rwake (x : rst) : rst := match x with RAsleep n dst => RReading n dst | _ => x end.

Record csys := {
  cinp : input;
  crd : list rst;
  ckilled : list bool;
  fed : list Z;     (** the bytes of all finished lines *)
  taken : list Z;   (** the bytes readers have taken from the ring *)
  stored : list Z;  (** the bytes readers have stored into their buffers *)
}.

Definition csys0 (buf : list Z) (p : Z) (n : nat) : csys :=
  {| cinp := {| ibuf := buf; ir := p; iw := p; ie := p |}; crd := replicate n RIdle; ckilled := replicate n false;
     fed := []; taken := []; stored := [] |}.

(** How far a section of a reader that had [dst] moved the ring from [i] to [i']. *)
Definition ctake (s : csys) (k : nat) (x : rst) (dst dst' : list Z) (i' : input) : csys :=
  {| cinp := i'; crd := <[k := x]> (crd s); ckilled := ckilled s; fed := fed s;
     taken := taken s ++ take (length (done_q (cinp s)) - length (done_q i')) (done_q (cinp s));
     stored := stored s ++ drop (length dst) dst' |}.

Inductive cstep : csys -> csys -> Prop :=
  | cs_key s c i' echo wk :
      0 <= c < 256 -> intr_char c (cinp s) = (i', echo, wk) ->
      cstep s {| cinp := i'; crd := if wk : bool then rwake <$> crd s else crd s; ckilled := ckilled s;
                 fed := fed s ++ drop (length (done_q (cinp s))) (done_q i'); taken := taken s; stored := stored s |}
  | cs_call s k n :
      crd s !! k = Some RIdle ->
      cstep s {| cinp := cinp s; crd := <[k := RReading n []]> (crd s); ckilled := ckilled s;
                 fed := fed s; taken := taken s; stored := stored s |}
  | cs_ret s k n dst killed r dst' i' :
      crd s !! k = Some (RReading n dst) -> ckilled s !! k = Some killed ->
      consoleread_sec killed n dst (cinp s) = CRet r dst' i' ->
      cstep s (ctake s k RIdle dst dst' i')
  | cs_sleep s k n dst killed n' dst' i' :
      crd s !! k = Some (RReading n dst) -> ckilled s !! k = Some killed ->
      consoleread_sec killed n dst (cinp s) = CSleep n' dst' i' ->
      cstep s (ctake s k (RAsleep n' dst') dst dst' i')
  | cs_kill s k x :
      crd s !! k = Some x ->
      cstep s {| cinp := cinp s; crd := <[k := rwake x]> (crd s); ckilled := <[k := true]> (ckilled s);
                 fed := fed s; taken := taken s; stored := stored s |}.

Inductive creach (s0 : csys) : csys -> Prop :=
  | cr_refl : creach s0 s0
  | cr_step s s' : creach s0 s -> cstep s s' -> creach s0 s'.

Record csys_ok (s : csys) : Prop := {
  co_inp : input_ok (cinp s);
  co_nl : 10 ∉ edit_l (cinp s);
  co_fed : fed s = taken s ++ done_q (cinp s);
  co_stored : stored s = filter (fun c => c <> 4) (taken s);
  co_asleep : forall k n dst, crd s !! k = Some (RAsleep n dst) -> done_q (cinp s) = [] /\ ckilled s !! k <> Some true
}.

Lemma no_asleep (xs : list rst) (k n : nat) dst : (rwake <$> xs) !! k <> Some (RAsleep n dst).
Proof. intros H. apply list_lookup_fmap_Some in H as (x & E & _). by destruct x. Qed.

(** A section leaves the queue accounted for. *)
Lemma ctake_ok s k n dst killed x dst' i' :
  csys_ok s -> crd s !! k = Some (RReading n dst) ->
  (exists n' r, consoleread_sec killed n dst (cinp s) = CRet r dst' i' /\ x = RIdle \/
                consoleread_sec killed n dst (cinp s) = CSleep n' dst' i' /\ x = RAsleep n' dst' /\ ckilled s !! k <> Some true) ->
  csys_ok (ctake s k x dst dst' i').
Proof.
  intros [Hok Hnl Hfed Hst Hsl] Hk Hsec.
  destruct (consoleread_sec_ok killed n dst _ Hok) as (d & q' & fin & i & Et & Hok' & Hq & He & Hfin & n1 & Es).
  destruct (take_line_split _ _ _ _ _ _ Et) as (t & Eq & Ed).
  assert (Hi : i' = i /\ dst' = d /\ (x = RIdle \/ (exists n', x = RAsleep n' dst' /\ ckilled s !! k <> Some true) /\ q' = [])).
  { destruct Hsec as (n' & r & [[E ->]|(E & -> & Hkl)]); rewrite Es in E; destruct fin; [..|destruct killed|];
      try (destruct killed); simplify_eq; eauto 10. }
  destruct Hi as (-> & -> & Hx). unfold ctake. split; cbn [cinp crd ckilled fed taken stored].
  - done.
  - by rewrite He.
  - rewrite Hfed, Hq, Eq, length_app. replace (length t + length q' - length q')%nat with (length t) by lia.
    by rewrite take_app_length, app_assoc.
  - rewrite Hst, Hq, Eq, Ed, length_app. replace (length t + length q' - length q')%nat with (length t) by lia.
    rewrite take_app_length, drop_app_length, filter_app. done.
  - intros k' m y Hk'. destruct (decide (k' = k)) as [->|Hne].
    + rewrite list_lookup_insert_eq in Hk' by by eapply lookup_lt_Some. destruct Hx as [->|((n' & -> & Hkl) & ->)]; [done|].
      by rewrite Hq.
    + rewrite list_lookup_insert_ne in Hk' by done. destruct (Hsl _ _ _ Hk') as [E ?]. split; [|done].
      rewrite Hq. rewrite Eq in E. by apply app_eq_nil in E as [_ ->].
Qed.

Lemma edit_char_done c q l q' l' echo wk :
  edit_char c q l = (q', l', echo, wk) -> exists t, q' = q ++ t /\ (wk = false -> t = []).
Proof.
  unfold edit_char. intros H. repeat (case_match; simplify_eq); try (exists []; by rewrite app_nil_r).
  all: eexists; split; [done|done].
Qed.

Lemma csys_ok_step s s' : csys_ok s -> cstep s s' -> csys_ok s'.
Proof.
  intros Hs Hstep. destruct Hstep as [s c i' echo wk Hc E|s k n Hk|s k n dst killed r dst' i' Hk Hkl E
    |s k n dst killed n' dst' i' Hk Hkl E|s k x Hk].
  - destruct Hs as [Hok Hnl Hfed Hst Hsl].
    destruct (consoleintr_refines c (cinp s) Hok Hnl Hc) as (i & ec & w & E' & Ed & Hok' & Hnl').
    rewrite E in E'. simplify_eq. destruct (edit_char_done _ _ _ _ _ _ _ Ed) as (t & Eq & Ht).
    split; cbn [cinp crd ckilled fed taken stored]; try done.
    + rewrite Eq, drop_app_length, Hfed. by rewrite app_assoc.
    + intros k n dst Hk. destruct w; [by apply no_asleep in Hk|]. destruct (Hsl _ _ _ Hk) as [E0 ?].
      split; [|done]. by rewrite Eq, E0, Ht.
  - destruct Hs as [Hok Hnl Hfed Hst Hsl]. split; cbn; try done. intros k' m y Hk'.
    destruct (decide (k' = k)) as [->|]; [by rewrite list_lookup_insert_eq in Hk' by by eapply lookup_lt_Some|].
    rewrite list_lookup_insert_ne in Hk' by done. eauto.
  - eapply ctake_ok; [done..|]. exists O, r. by left.
  - assert (killed = false) as ->.
    { destruct Hs as [Hok _ _ _ _]. destruct (consoleread_sec_ok killed n dst _ Hok) as (d & q' & fin & i & _ & _ & _ & _ & _ & n1 & Es).
      rewrite E in Es. destruct fin, killed; done. }
    eapply ctake_ok; [done..|]. exists n', 0. right. split; [done|]. split; [done|]. by rewrite Hkl.
  - destruct Hs as [Hok Hnl Hfed Hst Hsl]. split; cbn; try done. intros k' m y Hk'.
    destruct (decide (k' = k)) as [->|Hne].
    + rewrite list_lookup_insert_eq in Hk' by by eapply lookup_lt_Some. by destruct x.
    + rewrite list_lookup_insert_ne in Hk' by done. rewrite list_lookup_insert_ne by done. eauto.
Qed.

Lemma csys0_ok buf p n : length buf = Z.to_nat INPUT_BUF -> Forall (fun b => 0 <= b < 256) buf ->
  0 <= p < 4294967296 -> csys_ok (csys0 buf p n).
Proof.
  intros Hl Hb Hp. assert (E : u32 (p - p) = 0) by (rewrite Z.sub_diag; done).
  assert (Ea : iall (cinp (csys0 buf p n)) = []) by (unfold iall; cbn; by rewrite E).
  split; cbn [fed taken stored crd ckilled csys0]; try done.
  - split; cbn; try done; rewrite E; lia.
  - unfold edit_l. rewrite Ea, drop_nil. set_solver.
  - unfold done_q. by rewrite Ea, take_nil.
  - intros k m dst Hk. by apply lookup_replicate in Hk as [? _].
Qed.

(** C17. Whatever is typed and however reads, kills and interrupts interleave,
    also across the wrap-around of the counters: the readers take the bytes of
    the finished lines each once and in order, they store exactly these without
    the end-of-file marks, and a process sleeps in [consoleread] only while no
    finished byte is waiting and it has not been killed. *)
Theorem console_delivers buf p n s :
  length buf = Z.to_nat INPUT_BUF -> Forall (fun b => 0 <= b < 256) buf -> 0 <= p < 4294967296 ->
  creach (csys0 buf p n) s ->
  fed s = taken s ++ done_q (cinp s) /\ stored s = filter (fun c => c <> 4) (taken s) /\
  forall k m dst, crd s !! k = Some (RAsleep m dst) -> done_q (cinp s) = [] /\ ckilled s !! k <> Some true.
Proof.
  intros Hl Hb Hp Hr. assert (Hok : csys_ok s).
  { induction Hr as [|s s' _ IH Hstep]; [by apply csys0_ok|by eapply csys_ok_step]. }
  destruct Hok. done.
Qed.

(** ** A run: a reader waits, a line is typed with a correction, and is read *)

Definition crun_buf : list Z := replicate 128 0.
Definition ckey (c : Z) (s : csys) : csys :=
  let '(i', echo, wk) := intr_char c (cinp s) in
  {| cinp := i'; crd := if wk : bool then rwake <$> crd s else crd s; ckilled := ckilled s;
     fed := fed s ++ drop (length (done_q (cinp s))) (done_q i'); taken := taken s; stored := stored s |}.

Lemma ckey_step c s : 0 <= c < 256 -> cstep s (ckey c s).
Proof.
  intros Hc. unfold ckey. destruct (intr_char c (cinp s)) as [[i' echo] wk] eqn:E. by eapply (cs_key s c i' echo wk).
Qed.

Definition cread0 (s : csys) : csys :=
  match crd s !! O with
  | Some RIdle => {| cinp := cinp s; crd := <[O := RReading 10 []]> (crd s); ckilled := ckilled s;
                     fed := fed s; taken := taken s; stored := stored s |}
  | Some (RReading n dst) =>
      match consoleread_sec false n dst (cinp s) with
      | CRet r dst' i' => ctake s 0 RIdle dst dst' i'
      | CSleep n' dst' i' => ctake s 0 (RAsleep n' dst') dst dst' i'
      end
  | _ => s
  end.

Lemma cread0_reach s0 s : ckilled s !! O = Some false -> creach s0 s -> creach s0 (cread0 s).
Proof.
  intros Hk Hr. unfold cread0. destruct (crd s !! O) as [[|n dst|n dst]|] eqn:E; try done.
  - eapply cr_step; [done|]. by apply cs_call.
  - destruct (consoleread_sec false n dst (cinp s)) as [r dst' i'|n' dst' i'] eqn:Es; (eapply cr_step; [done|]).
    + by eapply cs_ret.
    + by eapply cs_sleep.
Qed.

Definition crun : csys :=
  cread0 (ckey 13 (ckey 98 (ckey 127 (ckey 97 (cread0 (cread0 (csys0 crun_buf 4294967295 1))))))).

Lemma crun_reach : creach (csys0 crun_buf 4294967295 1) crun.
Proof.
  unfold crun. apply cread0_reach; [vm_compute; reflexivity|].
  do 4 (eapply cr_step; [|apply ckey_step; lia]).
  do 2 (apply cread0_reach; [vm_compute; reflexivity|]). apply cr_refl.
Qed.

Lemma console_delivers_witness : stored crun = [98; 10] /\ fed crun = taken crun ++ done_q (cinp crun).
Proof.
  split; [vm_compute; reflexivity|].
  assert (Hb : Forall (fun b => 0 <= b < 256) crun_buf) by by apply Forall_replicate.
  exact (proj1 (console_delivers crun_buf 4294967295 1 crun eq_refl Hb ltac:(lia) crun_reach)).
Defined.

Lemma consoleintr_refines_witness : exists i' echo wk,
  intr_char 13 (cinp (csys0 crun_buf 0 0)) = (i', echo, wk) /\ done_q i' = [10] /\ wk = true.
Proof.
  destruct (consoleintr_refines 13 (cinp (csys0 crun_buf 0 0))) as (i' & echo & wk & E & Ed & _).
  - apply csys0_ok; [reflexivity|by apply Forall_replicate|lia].
  - vm_compute. set_solver.
  - lia.
  - exists i', echo, wk. split; [done|].
    assert (E0 : edit_char 13 (done_q (cinp (csys0 crun_buf 0 0))) (edit_l (cinp (csys0 crun_buf 0 0))) = ([10], [], [10], true))
      by (vm_compute; reflexivity).
    rewrite E0 in Ed. injection Ed as <- _ _ <-. done.
Defined.
