(* ===== verification/Kbd.v ===== *)
(** The keyboard: kbd.c with the tables of kbd.h.

    [kbdgetc] turns the scan codes of the controller into characters; its state
    is the word [shift] of modifier keys that are down, locks that are on, and
    whether the last code was the escape 0xE0. What it returns goes to
    [intr_char] (Console.v).

    Theorems: no table is read outside its 256 entries and every character is a
    byte ([kbdgetc_bytes]); letters come out in the case that Shift and Caps
    Lock say, and as control characters under Ctrl ([kbd_letters]). *)

From Stdlib Require Import ZArith Lia.
From stdpp Require Import base strings gmap numbers list.
From S2P Require Import Prelude.

Open Scope Z_scope.

(** ** Tables *)

Abbreviation K_SHIFT := 1 (only parsing).
Abbreviation K_CTL := 2 (only parsing).
Abbreviation K_ALT := 4 (only parsing).
Abbreviation CAPSLOCK := 8 (only parsing).
Abbreviation NUMLOCK := 16 (only parsing).
Abbreviation SCROLLLOCK := 32 (only parsing).
Abbreviation E0ESC := 64 (only parsing).

(** A table of 256 bytes from its first entries and designated ones; the rest
    is 0. *)
Fixpoint designate (l : list (nat * Z)) (t : list Z) : list Z :=
  match l with [] => t | (i, v) :: l' => designate l' (<[i := v]> t) end.
Definition table (first : list Z) (l : list (nat * Z)) : list Z :=
  designate l (first ++ replicate (256 - length first) 0).

Definition shiftcode : list Z :=
  table [] [(29%nat, K_CTL); (42%nat, K_SHIFT); (54%nat, K_SHIFT); (56%nat, K_ALT); (157%nat, K_CTL); (184%nat, K_ALT)].
Definition togglecode : list Z :=
  table [] [(58%nat, CAPSLOCK); (69%nat, NUMLOCK); (70%nat, SCROLLLOCK)].

(** KEY_UP, KEY_DN, KEY_PGUP, KEY_PGDN, KEY_LF, KEY_RT, KEY_HOME, KEY_END,
    KEY_INS and KEY_DEL, at their escaped codes. *)
Definition special_keys : list (nat * Z) :=
  [(200%nat, 226); (208%nat, 227); (201%nat, 230); (209%nat, 231); (203%nat, 228); (205%nat, 229);
   (151%nat, 224); (207%nat, 225); (210%nat, 232); (211%nat, 233)].

(** The characters of the keys: escape, digits, ["qwertyuiop[]"] and so on. *)
Definition normalmap : list Z :=
  table [0; 27; 49; 50; 51; 52; 53; 54; 55; 56; 57; 48; 45; 61; 8; 9;
         113; 119; 101; 114; 116; 121; 117; 105; 111; 112; 91; 93; 10; 0; 97; 115;
         100; 102; 103; 104; 106; 107; 108; 59; 39; 96; 0; 92; 122; 120; 99; 118;
         98; 110; 109; 44; 46; 47; 0; 42; 0; 32; 0; 0; 0; 0; 0; 0;
         0; 0; 0; 0; 0; 0; 0; 55; 56; 57; 45; 52; 53; 54; 43; 49;
         50; 51; 48; 46; 0; 0; 0; 0]
        ([(156%nat, 10); (181%nat, 47)] ++ special_keys).
Definition shiftmap : list Z :=
  table [0; 27; 33; 64; 35; 36; 37; 94; 38; 42; 40; 41; 95; 43; 8; 9;
         81; 87; 69; 82; 84; 89; 85; 73; 79; 80; 123; 125; 10; 0; 65; 83;
         68; 70; 71; 72; 74; 75; 76; 58; 34; 126; 0; 124; 90; 88; 67; 86;
         66; 78; 77; 60; 62; 63; 0; 42; 0; 32; 0; 0; 0; 0; 0; 0;
         0; 0; 0; 0; 0; 0; 0; 55; 56; 57; 45; 52; 53; 54; 43; 49;
         50; 51; 48; 46; 0; 0; 0; 0]
        ([(156%nat, 10); (181%nat, 47)] ++ special_keys).

(** [C(x)]: the control character of a letter; a [uchar] entry. *)
Definition ctl (x : Z) : Z := u8 (x - 64).
Definition ctlmap : list Z :=
  table [0; 0; 0; 0; 0; 0; 0; 0; 0; 0; 0; 0; 0; 0; 0; 0;
         ctl 81; ctl 87; ctl 69; ctl 82; ctl 84; ctl 89; ctl 85; ctl 73; ctl 79; ctl 80; 0; 0; 13; 0; ctl 65; ctl 83;
         ctl 68; ctl 70; ctl 71; ctl 72; ctl 74; ctl 75; ctl 76; 0; 0; 0; 0; ctl 92; ctl 90; ctl 88; ctl 67; ctl 86;
         ctl 66; ctl 78; ctl 77; 0; 0; ctl 47; 0; 0]
        ([(156%nat, 13); (181%nat, ctl 47)] ++ special_keys).

Definition charcode : list (list Z) := [normalmap; shiftmap; ctlmap; ctlmap].

(** ** The decoder *)

(** [data] is the scan code, or none when the controller has no data. The
    result is the character and the new [shift]; [None] is a table access out
    of bounds. *)
Definition kbdgetc (data : option Z) (shift : Z) : option (Z * Z) :=
  match data with
  | None => Some (-1, shift)
  | Some data =>
      if data =? 224 then Some (0, Z.lor shift E0ESC)
      else if negb (Z.land data 128 =? 0) then
        let data := if negb (Z.land shift E0ESC =? 0) then data else Z.land data 127 in
        match shiftcode !! Z.to_nat data with
        | Some c => Some (0, Z.land shift (Z.lnot (Z.lor c E0ESC)))
        | None => None
        end
      else
        let '(data, shift) :=
          if negb (Z.land shift E0ESC =? 0) then (Z.lor data 128, Z.land shift (Z.lnot E0ESC)) else (data, shift) in
        match shiftcode !! Z.to_nat data, togglecode !! Z.to_nat data with
        | Some c, Some t =>
            let shift := Z.lor shift c in
            let shift := Z.lxor shift t in
            match charcode !! Z.to_nat (Z.land shift (Z.lor K_CTL K_SHIFT)) with
            | Some map =>
                match map !! Z.to_nat data with
                | Some c =>
                    let c := if negb (Z.land shift CAPSLOCK =? 0) then
                               if (97 <=? c) && (c <=? 122) then c + (65 - 97)
                               else if (65 <=? c) && (c <=? 90) then c + (97 - 65) else c
                             else c in
                    Some (c, shift)
                | None => None
                end
            | None => None
            end
        | _, _ => None
        end
  end.

(** ** Properties *)

(** All scan codes in all states. *)
Definition all_codes : list Z := seqZ 0 256.
Definition all_shifts : list Z := seqZ 0 128.

Lemma seqZ_all n x : 0 <= x < n -> x ∈ seqZ 0 n.
Proof. intros. apply elem_of_seqZ. lia. Qed.

Definition for_all (f : Z -> Z -> bool) : bool :=
  forallb (fun data => forallb (fun shift => f data shift) all_shifts) all_codes.

Lemma for_all_spec f : for_all f = true -> forall data shift, 0 <= data < 256 -> 0 <= shift < 128 -> f data shift = true.
Proof.
  unfold for_all. rewrite forallb_forall. intros H data shift Hd Hs.
  specialize (H data (proj1 (list_elem_of_In _ _) (seqZ_all 256 data Hd))). rewrite forallb_forall in H.
  by specialize (H shift (proj1 (list_elem_of_In _ _) (seqZ_all 128 shift Hs))).
Qed.

Definition bytes_check (data shift : Z) : bool :=
  match kbdgetc (Some data) shift with
  | Some (c, shift') => (0 <=? c) && (c <? 256) && (0 <=? shift') && (shift' <? 128) &&
                        ((data <? 128) || (c =? 0))
  | None => false
  end.

(** In every state, every scan code is decoded without reading a table
    outside its 256 entries; the character is a byte (so Console.v's editor
    takes it), a released key or an escape gives no character, and the state
    stays one of the 128 sets of modifiers. *)
Theorem kbdgetc_bytes data shift :
  0 <= data < 256 -> 0 <= shift < 128 ->
  exists c shift', kbdgetc (Some data) shift = Some (c, shift') /\ 0 <= c < 256 /\ 0 <= shift' < 128 /\
    (128 <= data -> c = 0).
Proof.
  intros Hd Hs. assert (H : for_all bytes_check = true) by (vm_compute; reflexivity).
  specialize (for_all_spec _ H data shift Hd Hs) as Hc. unfold bytes_check in Hc.
  destruct (kbdgetc (Some data) shift) as [[c shift']|]; [|done].
  rewrite !andb_true_iff, orb_true_iff, !Z.leb_le, !Z.ltb_lt, Z.eqb_eq in Hc.
  exists c, shift'. split; [done|]. lia.
Qed.

(** The letter on a key. *)
Definition key_letter (data : Z) : option Z :=
  match normalmap !! Z.to_nat data with
  | Some c => if (97 <=? c) && (c <=? 122) then Some c else None
  | None => None
  end.

Definition letters_check (data shift : Z) : bool :=
  match key_letter data with
  | Some a =>
      negb (data <? 128) || Z.testbit shift 6 ||
      match kbdgetc (Some data) shift with
      | Some (c, shift') =>
          (shift' =? shift) &&
          (c =? if Z.testbit shift 1 then a - 96
                else if xorb (Z.testbit shift 0) (Z.testbit shift 3) then a - 32 else a)
      | None => false
      end
  | None => true
  end.

(** A letter key gives the letter: in lower case, or in upper case when
    exactly one of Shift and Caps Lock holds, or its control character when Ctrl
    is down; it does not change the modifiers. *)
Theorem kbd_letters data shift a :
  0 <= data < 128 -> 0 <= shift < 64 -> key_letter data = Some a ->
  kbdgetc (Some data) shift =
    Some (if Z.testbit shift 1 then a - 96
          else if xorb (Z.testbit shift 0) (Z.testbit shift 3) then a - 32 else a, shift).
Proof.
  intros Hd Hs Ha. assert (H : for_all letters_check = true) by (vm_compute; reflexivity).
  specialize (for_all_spec _ H data shift ltac:(lia) ltac:(lia)) as Hc. unfold letters_check in Hc. rewrite Ha in Hc.
  destruct (Z.ltb_spec data 128); [|lia]. cbn [negb orb] in Hc.
  assert (E6 : Z.testbit shift 6 = false).
  { replace shift with (shift mod 2 ^ 6) by (apply Z.mod_small; lia). apply Z.mod_pow2_bits_high. lia. }
  rewrite E6 in Hc. cbn [orb] in Hc. destruct (kbdgetc (Some data) shift) as [[c shift']|]; [|done].
  apply andb_prop in Hc as [->%Z.eqb_eq ->%Z.eqb_eq]. done.
Qed.

Lemma kbdgetc_bytes_witness : exists c shift', kbdgetc (Some 30) 9 = Some (c, shift') /\ 0 <= c < 256.
Proof.
  destruct (kbdgetc_bytes 30 9 ltac:(lia) ltac:(lia)) as (c & shift' & E & Hc & _). eauto.
Defined.

Lemma kbd_letters_witness : kbdgetc (Some 30) 1 = Some (65, 1).
Proof. exact (kbd_letters 30 1 97 ltac:(lia) ltac:(lia) eq_refl). Defined.

(** Pressing and releasing a key that is not a lock restores the modifiers, less
    the key's own: after both Shift keys were pressed, releasing one of them
    turns Shift off while the other is still down. *)
Lemma shift_release_both :
  kbdgetc (Some 42) 0 = Some (0, 1) /\ kbdgetc (Some 54) 1 = Some (0, 1) /\ kbdgetc (Some (42 + 128)) 1 = Some (0, 0).
Proof. vm_compute. done. Qed.
