(* ===== verification/Mkfs.v ===== *)
(** The image builder (mkfs.c): definitions.

    mkfs is a program of the host: [exit(1)] and a failing [assert] are the
    outcome [Panic]; the files it copies are a parameter. The image file is a
    map from sectors to blocks, with its length in sectors, since a read behind
    the end fails. The host is little-endian, as the machine is. *)

From Stdlib Require Import ZArith Lia.
From stdpp Require Import base strings gmap numbers list.
From S2P Require Import Prelude KString BlockLayer Bio Log Fs.

Open Scope Z_scope.

Abbreviation NINODES := 200 (only parsing).
Abbreviation FSSIZE := 262144 (only parsing).
Abbreviation MKLOGSIZE := 30 (only parsing).

Definition nbitmap : Z := FSSIZE / (BSIZE * 8) + 1.
Definition ninodeblocks : Z := NINODES / IPB + 1.
Definition nlog : Z := MKLOGSIZE.
Definition nmeta : Z := 2 + nlog + ninodeblocks + nbitmap.
Definition nblocks : Z := FSSIZE - nmeta.

(** ** State *)

(** The image, [sb], [freeinode] and [freeblock]. *)
Record mkst := { img : Z -> block; nsect : Z; msb : superblock; freeinode : Z; freeblock : Z }.

Definition set_img (f : Z -> block) (n : Z) (s : mkst) : mkst :=
  {| img := f; nsect := n; msb := msb s; freeinode := freeinode s; freeblock := freeblock s |}.
Definition set_msb (x : superblock) (s : mkst) : mkst :=
  {| img := img s; nsect := nsect s; msb := x; freeinode := freeinode s; freeblock := freeblock s |}.
Definition set_freeinode (x : Z) (s : mkst) : mkst :=
  {| img := img s; nsect := nsect s; msb := msb s; freeinode := x; freeblock := freeblock s |}.
Definition set_freeblock (x : Z) (s : mkst) : mkst :=
  {| img := img s; nsect := nsect s; msb := msb s; freeinode := freeinode s; freeblock := x |}.

(** [struct dinode]. *)
Record dinode := {
  di_type : Z; di_major : Z; di_minor : Z; di_nlink : Z; di_size : Z; di_addrs : list Z }.

Definition set_di_size (v : Z) (x : dinode) : dinode :=
  {| di_type := di_type x; di_major := di_major x; di_minor := di_minor x; di_nlink := di_nlink x;
     di_size := v; di_addrs := di_addrs x |}.
Definition set_di_addr0 (v : Z) (x : dinode) : dinode :=
  {| di_type := di_type x; di_major := di_major x; di_minor := di_minor x; di_nlink := di_nlink x;
     di_size := di_size x; di_addrs := <[O := v]> (di_addrs x) |}.
Definition di_addr0 (x : dinode) : Z := default 0 (di_addrs x !! O).

(** The structure at offset [o] of a buffer. *)
Definition din_get (d : block) (o : Z) : dinode :=
  {| di_type := i16 (get16 d o); di_major := i16 (get16 d (o + 2)); di_minor := i16 (get16 d (o + 4));
     di_nlink := i16 (get16 d (o + 6)); di_size := get32 d (o + 8); di_addrs := get_addrs 13 d (o + 12) |}.
Definition din_put (x : dinode) (d : block) (o : Z) : block :=
  let d := put16 d o (di_type x) in
  let d := put16 d (o + 2) (di_major x) in
  let d := put16 d (o + 4) (di_minor x) in
  let d := put16 d (o + 6) (di_nlink x) in
  let d := put32 d (o + 8) (di_size x) in
  put_addrs (di_addrs x) d (o + 12).

(** ** Conversions: the bytes of [y], read as a number of the host *)

Definition xshort (x : Z) : Z := byte_of x 0 + 256 * byte_of x 1.
Definition xint (x : Z) : Z := le4 (byte_of x 0) (byte_of x 1) (byte_of x 2) (byte_of x 3).

(** ** Sectors *)

Definition sector (sec : Z) : Z := u32 (sec * BSIZE) / BSIZE.

Definition wsect (sec : Z) (buf : block) : M mkst unit :=
  modify (fun s => let k := sector sec in
    set_img (fun n => if n =? k then buf else img s n) (Z.max (nsect s) (k + 1)) s).

Definition rsect (sec : Z) : M mkst block :=
  let* s := get in
  if nsect s <=? sector sec then panic "read" else ret (img s (sector sec)).

Definition winode (inum : Z) (ip : dinode) : M mkst unit :=
  let* s := get in
  let bn := IBLOCK inum (msb s) in
  let* buf := rsect bn in
  wsect bn (din_put ip buf (doff inum)).

Definition rinode (inum : Z) : M mkst dinode :=
  let* s := get in
  let* buf := rsect (IBLOCK inum (msb s)) in
  ret (din_get buf (doff inum)).

Definition ialloc (type : Z) : M mkst Z :=
  let* s := get in
  let inum := freeinode s in
  modify (set_freeinode (u32 (inum + 1))) ;;;
  winode inum {| di_type := i16 (xshort type); di_major := 0; di_minor := 0; di_nlink := i16 (xshort 1);
                 di_size := xint 0; di_addrs := replicate 13 0 |} ;;;
  ret inum.

(** [buf[i / 8] = buf[i / 8] | (0x1 << (i % 8))] for the first [n] blocks. *)
Fixpoint balloc_fill (n : nat) (buf : block) : block :=
  match n with
  | O => buf
  | S n' =>
      let buf := balloc_fill n' buf in
      let i := Z.of_nat n' in
      put8 buf (i / 8) (Z.lor (get8 buf (i / 8)) (Z.shiftl 1 (i mod 8)))
  end.

Definition balloc (used : Z) : M mkst unit :=
  if negb (used <? BSIZE * 8) then panic "assert"
  else
    let* s := get in
    wsect (sb_bmapstart (msb s)) (balloc_fill (Z.to_nat used) zero_block).

(** [freeblock++]. *)
Definition take_block : M mkst Z :=
  let* s := get in
  modify (set_freeblock (u32 (freeblock s + 1))) ;;; ret (freeblock s).

(** ** Appending to an inode *)

(** The walk over the indirect blocks: the last one's number and its copy in
    [indirect]. *)
Fixpoint walk_indirect (n : nat) (last_bno : Z) (indirect : block) (is_new : bool) : M mkst (Z * block) :=
  match n with
  | O => ret (last_bno, indirect)
  | S n' =>
      let* r :=
        (if get32 indirect (4 * (NINDIRECT - 1)) =? 0 then
           let* b := take_block in
           let indirect := put32 indirect (4 * (NINDIRECT - 1)) (xint b) in
           wsect last_bno indirect ;;;
           ret (indirect, true)
         else ret (indirect, is_new)) in
      let last_bno := xint (get32 r.1 (4 * (NINDIRECT - 1))) in
      let* indirect := rsect last_bno in
      let indirect := if r.2 : bool then put32 indirect (4 * (NINDIRECT - 1)) 0 else indirect in
      walk_indirect n' last_bno indirect false
  end.

(** [x], the block for offset [off], and [din]. *)
Definition iappend_block (din : dinode) (off : Z) : M mkst (Z * dinode) :=
  let (fbn, indirect_bno) := bmap_split (Z.to_nat (off / BSIZE)) (off / BSIZE) 0 in
  let* r :=
    (if (indirect_bno =? 0) && (xint (di_addr0 din) =? 0) then
       let* b := take_block in ret (set_di_addr0 (xint b) din, true)
     else ret (din, false)) in
  let din := r.1 in
  let last_bno := xint (di_addr0 din) in
  let* indirect := rsect last_bno in
  let* w := walk_indirect (Z.to_nat indirect_bno) last_bno indirect r.2 in
  let last_bno := w.1 in
  let* indirect :=
    (if get32 w.2 (4 * fbn) =? 0 then
       let* b := take_block in
       let indirect := put32 w.2 (4 * fbn) (xint b) in
       wsect last_bno indirect ;;;
       ret indirect
     else ret w.2) in
  ret (xint (get32 indirect (4 * fbn)), din).

(** The loop of [iappend] over the bytes [p] that are left. *)
Fixpoint iappend_loop (fuel : nat) (din : dinode) (off : Z) (p : list Z) : M mkst (dinode * Z) :=
  match p with
  | [] => ret (din, off)
  | _ =>
      match fuel with
      | O => out_of_fuel
      | S fuel' =>
          let* r := iappend_block din off in
          let fbn := off / BSIZE in
          let n1 := Z.min (Z.of_nat (length p)) ((fbn + 1) * BSIZE - off) in
          let* buf := rsect r.1 in
          wsect r.1 (put_bytes buf (off - fbn * BSIZE) (take (Z.to_nat n1) p)) ;;;
          iappend_loop fuel' r.2 (u32 (off + n1)) (drop (Z.to_nat n1) p)
      end
  end.

Definition iappend (inum : Z) (p : list Z) : M mkst unit :=
  let* din := rinode inum in
  let* r := iappend_loop (length p) din (xint (di_size din)) p in
  winode inum (set_di_size (xint r.2) r.1).

(** ** main *)

Section Main.

(** What [open] and the following [read]s of BSIZE bytes give for a file of the
    host: the pieces read up to the end of the file. *)
Variable host : list Z -> option (list (list Z)).

Fixpoint wzeroes (n : nat) : M mkst unit :=
  match n with
  | O => ret tt
  | S n' => wzeroes n' ;;; wsect (Z.of_nat n') zero_block
  end.

Definition mk_sb : superblock :=
  {| sb_size := xint FSSIZE; sb_nblocks := xint nblocks; sb_ninodes := xint NINODES; sb_nlog := xint nlog;
     sb_logstart := xint 2; sb_inodestart := xint (2 + nlog); sb_bmapstart := xint (2 + nlog + ninodeblocks) |}.

(** [memset(buf, 0, ..); memmove(buf, &sb, sizeof(sb))]. *)
Definition sb_bytes (x : superblock) : block :=
  let d := put32 zero_block 0 (sb_size x) in
  let d := put32 d 4 (sb_nblocks x) in
  let d := put32 d 8 (sb_ninodes x) in
  let d := put32 d 12 (sb_nlog x) in
  let d := put32 d 16 (sb_logstart x) in
  let d := put32 d 20 (sb_inodestart x) in
  put32 d 24 (sb_bmapstart x).

Fixpoint iappends (inum : Z) (l : list (list Z)) : M mkst unit :=
  match l with
  | [] => ret tt
  | buf :: l' => iappend inum buf ;;; iappends inum l'
  end.

(** Without the leading [_] of the binaries. *)
Definition skip_underscore (name : list Z) : list Z :=
  match name with 95 :: l => l | _ => name end.

(** One argument. *)
Definition add_file (rootino : Z) (arg : list Z) : M mkst unit :=
  if bool_decide (slash ∈ arg) then panic "assert"
  else
    match host arg with
    | None => panic "open"
    | Some l =>
        let name := skip_underscore arg in
        let* inum := ialloc T_FILE in
        iappend rootino (mk_dirent name (xshort inum)) ;;;
        iappends inum l
    end.

Fixpoint add_files (rootino : Z) (args : list (list Z)) : M mkst unit :=
  match args with
  | [] => ret tt
  | arg :: args' => add_file rootino arg ;;; add_files rootino args'
  end.

(** [main] with the arguments that follow the name of the image. *)
Definition main (args : list (list Z)) : M mkst unit :=
  modify (set_msb mk_sb) ;;;
  modify (set_freeblock nmeta) ;;;
  wzeroes (Z.to_nat FSSIZE) ;;;
  wsect 1 (sb_bytes mk_sb) ;;;
  let* rootino := ialloc T_DIR in
  if negb (rootino =? ROOTINO) then panic "assert"
  else
    iappend rootino (mk_dirent [46] (xshort rootino)) ;;;
    iappend rootino (mk_dirent [46; 46] (xshort rootino)) ;;;
    add_files rootino args ;;;
    let* din := rinode rootino in
    let off := xint (di_size din) in
    let off := u32 ((off / BSIZE + 1) * BSIZE) in
    winode rootino (set_di_size (xint off) din) ;;;
    let* s := get in
    balloc (freeblock s).

(** The new file and the initial values of the variables. *)
Definition mkst0 : mkst :=
  {| img := fun _ => zero_block; nsect := 0;
     msb := {| sb_size := 0; sb_nblocks := 0; sb_ninodes := 0; sb_nlog := 0; sb_logstart := 0;
               sb_inodestart := 0; sb_bmapstart := 0 |};
     freeinode := 1; freeblock := 0 |}.

End Main.
