(* ===== verification/MkfsSpec.v ===== *)
(** The image builder (mkfs.c): theorems.

    mkfs keeps no bit map while it runs: a block is in use if it lies below
    [freeblock]. [vw] relates its state to a state of the kernel's file system
    (Fs.v) whose bit map says just that. Under this relation the block allocator
    of mkfs is the kernel's, [iappend] is the kernel's [writei] at the end of the
    file, and the theorems on block maps and contents (FsFile.v) describe what
    mkfs builds. *)

From Stdlib Require Import ZArith Lia.
From stdpp Require Import base strings gmap numbers list.
From S2P Require Import Prelude KString BlockLayer Bio Log Fs FsAlloc FsInode FsFile FsDir Mkfs.

Open Scope Z_scope.

(** ** Constants *)

Lemma mk_sb_eq : mk_sb =
  {| sb_size := 262144; sb_nblocks := 262021; sb_ninodes := 200; sb_nlog := 30;
     sb_logstart := 2; sb_inodestart := 32; sb_bmapstart := 58 |}.
Proof. vm_compute. reflexivity. Qed.

Lemma nmeta_eq : nmeta = 123.
Proof. reflexivity. Qed.

Lemma is_bmap_mk x : is_bmap mk_sb x <-> 58 <= x <= 121.
Proof. unfold is_bmap. rewrite mk_sb_eq. cbn [sb_bmapstart sb_size]. change ((262144 - 1) / BPB) with 63. lia. Qed.

Lemma xint_small x : 0 <= x < 4294967296 -> xint x = x.
Proof. intros H. unfold xint. rewrite le4_byte_of. by apply u32_small. Qed.

Lemma xshort_small x : 0 <= x < 65536 -> xshort x = x.
Proof. intros H. unfold xshort, byte_of. change (256 ^ 0) with 1. change (256 ^ 1) with 256. dlia. Qed.

Lemma get32_xint d i : block_ok d -> xint (get32 d i) = get32 d i.
Proof. intros H. apply xint_small. by apply get32_range. Qed.

(** ** Sectors *)

Lemma sector_small n : 0 <= n < FSSIZE -> sector n = n.
Proof. intros H. unfold sector. rewrite u32_small by lia. dlia. Qed.

Definition put_img (n : Z) (d : block) (ms : mkst) : mkst :=
  set_img (fun x => if x =? n then d else img ms x) (nsect ms) ms.

Lemma rsect_run ms n : 0 <= n < FSSIZE -> nsect ms = FSSIZE -> rsect n ms = Ret (img ms n) ms.
Proof.
  intros Hn Hs. unfold rsect, bind, get. rewrite sector_small by done.
  destruct (Z.leb_spec (nsect ms) n); [lia|done].
Qed.

Lemma wsect_run ms n d : 0 <= n < FSSIZE -> nsect ms = FSSIZE -> wsect n d ms = Ret tt (put_img n d ms).
Proof.
  intros Hn Hs. unfold wsect, modify. rewrite sector_small by done. unfold put_img, set_img.
  by rewrite Z.max_l by lia.
Qed.

(** ** The kernel's view of the image *)

Record vw (ms : mkst) (s : fs) : Prop := {
  vw_ok : fs_ok s;
  vw_fsb : fsb s = mk_sb;
  vw_msb : msb ms = mk_sb;
  vw_nblk : nblk s = FSSIZE;
  vw_nsect : nsect ms = FSSIZE;
  vw_blk : forall n, ~ is_bmap mk_sb n -> blk s n = img ms n;
  vw_used : forall x, 0 <= x < FSSIZE -> used mk_sb (blk s) x = (x <? freeblock ms);
  vw_fresh : forall n, freeblock ms <= n < FSSIZE -> img ms n = zero_block;
  vw_fb : nmeta <= freeblock ms <= FSSIZE;
  vw_bmap : forall n, is_bmap mk_sb n -> img ms n = zero_block;
}.

Lemma vw_data ms s x : vw ms s ->
  data_blk s x <-> 2 <= x < freeblock ms /\ ~ is_bmap mk_sb x.
Proof.
  intros V. unfold data_blk. rewrite (vw_fsb _ _ V). pose proof (vw_fb _ _ V).
  rewrite mk_sb_eq at 1. cbn [sb_size]. split.
  - intros (Hx & Hb & H1 & H0 & Hu). rewrite (vw_used _ _ V) in Hu by lia. split; [lia|done].
  - intros [Hx Hb]. split_and!; try done; try lia. rewrite (vw_used _ _ V) by lia. lia.
Qed.

Lemma vw_lhn ms s : vw ms s -> (lhn s <= 28)%nat.
Proof. intros V. apply fs_ok_lhn, (vw_ok _ _ V). Qed.

Lemma vw_inodes ms s s' :
  blk s' = blk s -> nblk s' = nblk s -> fsb s' = fsb s -> (lhn s' <= 28)%nat -> vw ms s -> vw ms s'.
Proof.
  intros E1 E2 E3 E4 [V1 V2 V3 V4 V5 V6 V7 V8 V9 V10]. split; rewrite ?E1, ?E2, ?E3; try done.
  by apply (fs_ok_inodes s).
Qed.

Lemma vw_free ms s : vw ms s -> free_count s = Z.to_nat (FSSIZE - freeblock ms).
Proof.
  intros V. pose proof (vw_fb _ _ V) as Hfb. rewrite nmeta_eq in Hfb. unfold free_count.
  assert (free_blocks s ≡ₚ seqZ (freeblock ms) (FSSIZE - freeblock ms)) as ->.
  { apply NoDup_Permutation; [apply NoDup_free|apply NoDup_seqZ|]. intros x.
    rewrite elem_of_free, elem_of_seqZ, (vw_fsb _ _ V). rewrite mk_sb_eq at 2. cbn [sb_size].
    split.
    - intros [Hu Hx]. rewrite (vw_used _ _ V) in Hu by lia. lia.
    - intros Hx. rewrite (vw_used _ _ V) by lia. split; [|lia]. apply Z.ltb_ge. lia. }
  apply length_seqZ.
Qed.

(** The same store on both sides. *)
Lemma vw_store ms s n d :
  vw ms s -> data_blk s n -> block_ok d -> vw (put_img n d ms) (upd_blk n d s).
Proof.
  intros V Hn Hd. destruct (upd_data s n d (vw_ok _ _ V) Hn Hd) as [Hok Hu].
  apply (vw_data _ _ _ V) in Hn as [Hr Hb]. destruct V as [V1 V2 V3 V4 V5 V6 V7 V8 V9 V10].
  split; try done.
  - intros x Hx. cbn [upd_blk set_blk blk put_img set_img img]. destruct (x =? n); [done|by apply V6].
  - intros x Hx. rewrite V2 in Hu. rewrite Hu; [by apply V7|]. rewrite mk_sb_eq. cbn [sb_size]. lia.
  - intros x Hx. cbn [put_img set_img img freeblock] in *. destruct (Z.eqb_spec x n); [lia|by apply V8].
  - intros x Hx. cbn [put_img set_img img]. destruct (Z.eqb_spec x n); [by subst|by apply V10].
Qed.

Lemma vw_log ms s n d :
  vw ms s -> room 1 s -> data_blk s n -> block_ok d -> vw (put_img n d ms) (log_blk n d s).
Proof.
  intros V Hr Hn Hd. apply (vw_inodes _ (upd_blk n d s)); try done.
  - eapply logs_lhn; [apply (log_blk_logs n d)|done].
  - by apply vw_store.
Qed.

(** A store of zeroes to a fresh block is nothing mkfs has to do. *)
Lemma vw_rezero ms s n :
  vw ms s -> data_blk s n -> img ms n = zero_block -> vw ms (upd_blk n zero_block s).
Proof.
  intros V Hn Hz. pose proof (vw_store ms s n zero_block V Hn block_ok_zero) as [V1 V2 V3 V4 V5 V6 V7 V8 V9 V10].
  split; try done.
  - intros x Hx. rewrite V6 by done. cbn [put_img set_img img]. by destruct (Z.eqb_spec x n); [subst|].
  - intros x Hx. rewrite <- (V8 x Hx). cbn [put_img set_img img]. by destruct (Z.eqb_spec x n); [subst|].
  - apply (vw_bmap _ _ V).
Qed.

Definition bump (ms : mkst) : mkst := set_freeblock (freeblock ms + 1) ms.

Lemma take_block_run ms : 0 <= freeblock ms < FSSIZE -> take_block ms = Ret (freeblock ms) (bump ms).
Proof. intros H. unfold take_block, bind, get, modify, ret. by rewrite u32_small by lia. Qed.

(** [freeblock++] is [balloc]. *)
Lemma balloc_sim held ms s :
  vw ms s -> held_ok held s -> room 2 s -> freeblock ms < FSSIZE ->
  exists s', Fs.balloc held ROOTDEV s = Ret (freeblock ms) s' /\ vw (bump ms) s' /\ logs 2 s s' /\
    data_blk s' (freeblock ms) /\ inodes s' = inodes s /\ img ms (freeblock ms) = zero_block /\
    (forall x, data_blk s x -> blk s' x = blk s x /\ data_blk s' x /\ x <> freeblock ms).
Proof.
  intros V Hh Hroom Hlt. pose proof (vw_fb _ _ V) as Hfb. rewrite nmeta_eq in Hfb.
  pose proof (vw_ok _ _ V) as Hok. pose proof (fo_wf _ Hok) as Hwf.
  assert (sb_size (fsb s) = FSSIZE) as Esz by (rewrite (vw_fsb _ _ V), mk_sb_eq; done).
  assert (used (fsb s) (blk s) (freeblock ms) = false) as Hf
    by (rewrite (vw_fsb _ _ V), (vw_used _ _ V) by lia; lia).
  assert (Fs.balloc held ROOTDEV s = Ret (freeblock ms) (balloc_state (freeblock ms) s)) as R.
  { apply balloc_found; [done|done|done|lia|done|]. intros x Hx. rewrite (vw_fsb _ _ V), (vw_used _ _ V) by lia. lia. }
  destruct (balloc_data held s Hok Hh Hroom) as (b & s' & R' & Hok' & G & F1 & F2 & F3 & F4 & F5 & _ & Hd & Hz & Hc & Hold).
  { rewrite (vw_free _ _ V). lia. }
  rewrite R in R'. injection R' as <- <-.
  set (s' := balloc_state (freeblock ms) s) in *.
  assert (forall n, ~ is_bmap mk_sb n -> blk s' n = img ms n) as Hblk.
  { intros n Hn. unfold s'. rewrite balloc_state_blk by (first [by rewrite (vw_fsb _ _ V)|done|rewrite Esz; lia]).
    destruct (Z.eqb_spec n (freeblock ms)) as [->|]; [|by apply (vw_blk _ _ V)].
    symmetry. apply (vw_fresh _ _ V). lia. }
  exists s'. split_and!; try done.
  - split; try done.
    + by rewrite F1, (vw_fsb _ _ V).
    + apply (vw_msb _ _ V).
    + by rewrite F2, (vw_nblk _ _ V).
    + apply (vw_nsect _ _ V).
    + intros x Hx. rewrite <- (vw_fsb _ _ V). unfold s'. rewrite balloc_state_used by (done || lia).
      rewrite (vw_fsb _ _ V), (vw_used _ _ V) by lia. cbn [bump set_freeblock freeblock].
      destruct (Z.eqb_spec x (freeblock ms)), (Z.ltb_spec x (freeblock ms)), (Z.ltb_spec x (freeblock ms + 1)); lia || done.
    + intros n Hn. apply (vw_fresh _ _ V). cbn [bump set_freeblock freeblock] in Hn. lia.
    + cbn [bump set_freeblock freeblock]. rewrite nmeta_eq. lia.
    + apply (vw_bmap _ _ V).
  - apply (vw_fresh _ _ V). lia.
Qed.

(** ** The walk over the indirect blocks *)

Lemma bmap_chain_S n dev c s :
  bmap_chain (S n) dev c s = (let* c1 := bmap_chain 1 dev c in bmap_chain n dev c1) s.
Proof.
  cbn [bmap_chain]. rewrite bind_assoc. unfold bind at 1. symmetry. unfold bind at 1.
  destruct (fbread [] dev c s) as [a s1| | |]; try done.
  destruct (get32 a (4 * (NINDIRECT - 1)) =? 0); [|done]. unfold bind.
  destruct (Fs.balloc [c] dev s1) as [b s2| | |]; try done. unfold get.
  destruct (lstore c _ s2) as [[] s3| | |]; try done. by destruct (fbread [] dev b s3).
Qed.

Lemma walk_S n c d nw ms :
  walk_indirect (S n) c d nw ms =
  (let* w := walk_indirect 1 c d nw in walk_indirect n w.1 w.2 false) ms.
Proof.
  cbn [walk_indirect]. unfold bind.
  destruct (get32 d (4 * (NINDIRECT - 1)) =? 0).
  - destruct (take_block ms) as [b ms1| | |]; try done. destruct (wsect _ _ ms1) as [[] ms2| | |]; try done.
    unfold ret. cbn [fst snd]. by destruct (rsect _ ms2).
  - unfold ret. cbn [fst snd]. by destruct (rsect _ ms).
Qed.

Lemma data_sector ms s x : vw ms s -> data_blk s x -> 0 <= x < FSSIZE.
Proof. intros V H%(vw_data _ _ _ V). pose proof (vw_fb _ _ V). lia. Qed.

Lemma data_img ms s x : vw ms s -> data_blk s x -> img ms x = blk s x.
Proof. intros V [_ H]%(vw_data _ _ _ V). symmetry. by apply (vw_blk _ _ V). Qed.

(** One link. *)
Lemma link_sim ms s c :
  vw ms s -> data_blk s c -> freeblock ms < FSSIZE ->
  (ent s c 127 = 0 \/ data_blk s (ent s c 127)) -> (ent s c 127 = 0 -> room 3 s) ->
  exists c1 s1 ms1, bmap_chain 1 ROOTDEV c s = Ret c1 s1 /\
    walk_indirect 1 c (img ms c) false ms = Ret (c1, img ms1 c1) ms1 /\ vw ms1 s1 /\
    freeblock ms <= freeblock ms1.
Proof.
  intros V Hc Hlt He Hroom. pose proof (vw_ok _ _ V) as Hok. pose proof (vw_fb _ _ V) as Hfb. rewrite nmeta_eq in Hfb.
  pose proof (data_sector _ _ _ V Hc) as Hcs.
  cbn [bmap_chain walk_indirect]. rewrite fbread_bind by (by apply data_blk_lt || by eapply vw_lhn).
  rewrite (data_img _ _ _ V Hc). fold (ent s c 127). change (get32 (blk s c) (4 * (NINDIRECT - 1))) with (ent s c 127).
  destruct (Z.eqb_spec (ent s c 127) 0) as [E0|E0].
  - specialize (Hroom E0).
    destruct (balloc_sim [c] ms s V (held_data s c Hc) ltac:(roomy) Hlt) as (s1 & R & V1 & G1 & Hb & Hi & Hz & Hold).
    assert (room 1 s1) as Hroom1 by roomy.
    set (b := freeblock ms) in *. destruct (Hold c Hc) as (Ec & Hdc & Hne).
    pose proof (data_sector _ _ _ V1 Hb) as Hbs.
    set (d := put32 (blk s c) (4 * (NINDIRECT - 1)) b).
    assert (block_ok d) as Hd by (apply block_ok_put32; by apply fs_ok_blk).
    pose proof (vw_log _ _ c d V1 Hroom1 Hdc Hd) as V2.
    destruct (log_data s1 c d (vw_ok _ _ V1) Hroom1 Hdc Hd) as (_ & _ & Hm2).
    set (s2 := log_blk c d s1) in *. set (ms2 := put_img c d (bump ms)) in *.
    assert (blk s2 b = zero_block) as Hz2.
    { rewrite <- (data_img ms2 s2 b V2) by (by apply Hm2).
      unfold ms2. cbn [put_img set_img img bump set_freeblock]. by destruct (Z.eqb_spec b c). }
    assert (data_blk s2 b) as Hb2 by (by apply Hm2).
    assert (img ms2 b = zero_block) as Hi2 by (by rewrite (data_img ms2 s2)).
    exists b, (upd_blk b zero_block s2), ms2. split_and!.
    + mstep R. unfold bind at 1, get. rewrite lstore_bind, Ec by done. fold d. fold s2.
      rewrite fbread_bind; [|by eapply vw_lhn|apply data_blk_lt; [apply (vw_ok _ _ V2)|done]].
      by rewrite fstore_bind, Hz2, zero_block_put.
    + unfold bind at 1. mstep (take_block_run ms ltac:(lia)). fold b. rewrite xint_small by lia. fold d.
      mstep (wsect_run (bump ms) c d Hcs (vw_nsect _ _ V)). unfold ret at 1. cbn [fst snd].
      assert (get32 d (4 * (NINDIRECT - 1)) = b) as Eb.
      { unfold d. rewrite get32_put32_eq; [apply u32_small; lia|lia|].
        destruct (fs_ok_blk s c Hok) as [-> _]. done. }
      rewrite Eb, xint_small by lia.
      mstep (rsect_run ms2 b Hbs (vw_nsect _ _ V2)). by rewrite Hi2, zero_block_put.
    + by apply vw_rezero.
    + unfold ms2. cbn [put_img set_img bump set_freeblock freeblock]. lia.
  - destruct He as [|He]; [done|]. pose proof (data_sector _ _ _ V He) as Hes.
    exists (ent s c 127), s, ms. split_and!; try done.
    unfold bind at 1, ret at 1. cbn [fst snd].
    change (get32 (blk s c) (4 * (NINDIRECT - 1))) with (ent s c 127). rewrite xint_small by lia.
    by mstep (rsect_run ms (ent s c 127) Hes (vw_nsect _ _ V)).
Qed.

Lemma walk_sim n : forall ms s a cs k c,
  vw ms s -> file_wf s a cs -> cs !! k = Some c -> (n <= free_count s)%nat ->
  room (3 * (k + n + 1 - length cs)) s ->
  exists c' s' ms', bmap_chain n ROOTDEV c s = Ret c' s' /\
    walk_indirect n c (img ms c) false ms = Ret (c', img ms' c') ms' /\ vw ms' s' /\
    freeblock ms <= freeblock ms'.
Proof.
  induction n as [|n IH]; intros ms s a cs k c V Hf Hk Hn Hroom; [exists c, s, ms; split_and!; done || lia|].
  assert (c ∈ cs) as Hin by (by eapply list_elem_of_lookup_2).
  pose proof (fw_ind _ _ _ Hf c Hin) as Hc. rewrite (vw_free _ _ V) in Hn.
  destruct (link_sim ms s c V Hc ltac:(lia)) as (c1 & s1 & ms1 & R1 & W1 & V1 & M1).
  { rewrite (fw_link _ _ _ Hf k c Hk). destruct (cs !! S k) as [c2|] eqn:E; [right|by left].
    apply (fw_ind _ _ _ Hf). by eapply list_elem_of_lookup_2. }
  { rewrite (fw_link _ _ _ Hf k c Hk). destruct (cs !! S k) as [c2|] eqn:E; simpl.
    - intros E0. assert (c2 ∈ cs) as Hin2 by (by eapply list_elem_of_lookup_2).
      by destruct (fw_ind _ _ _ Hf c2 Hin2) as (_ & _ & _ & ? & _).
    - intros _. apply lookup_ge_None in E. pose proof (lookup_lt_Some _ _ _ Hk). roomy. }
  destruct (bmap_chain_ok 1 s a cs k c (vw_ok _ _ V) Hf Hk) as (s1' & cs1 & c1' & R1' & _ & Hf1 & Hk1 & X & _ & _ & Hl & Hc1 & G1).
  { rewrite (vw_free _ _ V). lia. }
  { roomy. }
  rewrite R1 in R1'. injection R1' as <- <-.
  destruct (IH ms1 s1 a cs1 (k + 1)%nat c1 V1 Hf1 Hk1) as (c' & s' & ms' & R & W & V' & M').
  { rewrite (vw_free _ _ V) in Hc1. pose proof (lookup_lt_Some _ _ _ Hk). lia. }
  { pose proof (lookup_lt_Some _ _ _ Hk). roomy. }
  exists c', s', ms'. rewrite bmap_chain_S, walk_S. split_and!; [by mstep R1|by mstep W1|done|lia].
Qed.

(** ** One block of [iappend] *)

(** The kernel's copy of an inode, as [ilock] loads it. *)
Definition mk_ino (inum : Z) (din : dinode) : inode :=
  {| i_dev := 1; i_inum := inum; i_ref := 1; i_lock := initsleeplock; i_valid := true;
     i_type := di_type din; i_major := di_major din; i_minor := di_minor din; i_nlink := di_nlink din;
     i_size := di_size din; i_addrs := di_addrs din |}.

Lemma mk_ino_addr0 inum v din : set_i_addr 0 v (mk_ino inum din) = mk_ino inum (set_di_addr0 v din).
Proof. reflexivity. Qed.

Lemma addr0_set v din : length (di_addrs din) = 13%nat -> di_addr0 (set_di_addr0 v din) = v.
Proof. intros H. unfold di_addr0, set_di_addr0. simpl. by rewrite list_lookup_insert_eq by lia. Qed.

Lemma set_di_same din : length (di_addrs din) = 13%nat -> set_di_addr0 (di_addr0 din) din = din.
Proof.
  intros H. destruct din as [t ma mi nl sz ad]. unfold set_di_addr0, di_addr0. simpl in *. f_equal. by destruct ad.
Qed.

(** The first indirect block. *)
Definition iappend_root (indirect_bno : Z) (din : dinode) : M mkst (dinode * bool) :=
  if (indirect_bno =? 0) && (xint (di_addr0 din) =? 0) then
    let* b := take_block in ret (set_di_addr0 (xint b) din, true)
  else ret (din, false).

Lemma root_sim ms s ip inum din cs bno :
  vw ms s -> (ip < length (inodes s))%nat -> ino s ip = mk_ino inum din -> length (di_addrs din) = 13%nat ->
  file_wf s (di_addr0 din) cs -> (cs = [] -> bno = 0) -> freeblock ms < FSSIZE ->
  room (3 * (1 - length cs)) s ->
  exists a nw s1 ms1 din1, bmap_root ip s s = Ret a s1 /\ iappend_root bno din ms = Ret (din1, nw) ms1 /\
    vw ms1 s1 /\ di_addr0 din1 = a /\ ino s1 ip = mk_ino inum din1 /\ data_blk s1 a /\
    (nw = true -> cs = [] /\ bno = 0) /\ (exists v, din1 = set_di_addr0 v din) /\ freeblock ms <= freeblock ms1.
Proof.
  intros V Hip Hino Hlen Hf Hbno Hlt Hroom. pose proof (vw_fb _ _ V) as Hfb. rewrite nmeta_eq in Hfb.
  unfold bmap_root, iappend_root. rewrite Hino. change (i_addr (mk_ino inum din) 0) with (di_addr0 din).
  change (i_dev (mk_ino inum din)) with 1. pose proof (fw_root _ _ _ Hf) as Hroot.
  destruct cs as [|c0 cs].
  - simpl in Hroot. rewrite Hroot, (Hbno eq_refl). change (xint 0) with 0. cbn [Z.eqb andb].
    simpl in Hroom.
    destruct (balloc_sim [] ms s V (held_nil s) ltac:(roomy) Hlt) as (s1 & R & V1 & G1 & Hb & Hi & Hz & _).
    set (b := freeblock ms) in *.
    set (s2 := upd_ino ip (set_i_addr 0 b) s1).
    assert (vw (bump ms) s2) as V2 by (apply (vw_inodes _ s1); try done; by eapply (vw_lhn (bump ms) s1)).
    assert (data_blk s2 b) as Hb2 by (by apply (data_blk_inodes s1)).
    assert (blk s2 b = zero_block) as Hz2 by (by rewrite <- (data_img (bump ms) s2)).
    exists b, true, (upd_blk b zero_block s2), (bump ms), (set_di_addr0 b din). split_and!.
    + mstep R. unfold bind at 1, modify. fold s2.
      rewrite fbread_bind; [|by eapply vw_lhn|apply data_blk_lt; [apply (vw_ok _ _ V2)|done]].
      by rewrite fstore_bind, Hz2, zero_block_put.
    + mstep (take_block_run ms ltac:(lia)). fold b. by rewrite xint_small by lia.
    + by apply vw_rezero.
    + by apply addr0_set.
    + change (ino s2 ip = mk_ino inum (set_di_addr0 b din)). unfold s2. rewrite ino_upd by (by rewrite Hi).
      rewrite decide_True by done. unfold ino. rewrite Hi. fold (ino s ip). by rewrite Hino.
    + apply data_blk_upd; [apply (vw_ok _ _ V2)|done|apply block_ok_zero|done].
    + done.
    + by exists b.
    + cbn [bump set_freeblock freeblock]. lia.
  - simpl in Hroot. assert (data_blk s c0) as Hc0 by (apply (fw_ind _ _ _ Hf); constructor).
    pose proof Hc0 as (_ & _ & _ & Hne & _). rewrite Hroot. pose proof (data_sector _ _ _ V Hc0).
    rewrite xint_small by lia. destruct (Z.eqb_spec c0 0); [done|]. rewrite andb_false_r.
    exists c0, false, s, ms, din. split_and!; try done.
    exists (di_addr0 din). symmetry. by apply set_di_same.
Qed.

Lemma block_sim ms s ip inum din cs off :
  vw ms s -> (ip < length (inodes s))%nat -> ino s ip = mk_ino inum din -> length (di_addrs din) = 13%nat ->
  file_wf s (di_addr0 din) cs -> 0 <= off -> (cs = [] -> off / BSIZE / 127 = 0) ->
  (Z.to_nat (off / BSIZE / 127) + 2 <= free_count s)%nat -> room (bmap_cost s cs (off / BSIZE)) s ->
  exists x s' ms' din', bmap ip (off / BSIZE) s = Ret x s' /\
    iappend_block din off ms = Ret (x, din') ms' /\ vw ms' s' /\ ino s' ip = mk_ino inum din' /\
    data_blk s' x /\ (exists v, din' = set_di_addr0 v din) /\ freeblock ms <= freeblock ms'.
Proof.
  intros V Hip Hino Hlen Hf Hoff Hcs Hfree Hroom. assert (0 <= off / BSIZE) as Hbn by dlia.
  remember (off / BSIZE) as bn eqn:Eoff. unfold bmap_cost in Hroom. rewrite (vw_free _ _ V) in Hfree.
  assert (i_dev (ino s ip) = 1) as Hdev by (by rewrite Hino).
  destruct (root_sim ms s ip inum din cs (bn / 127) V Hip Hino Hlen Hf Hcs ltac:(lia) ltac:(roomy))
    as (a & nw & s1 & ms1 & din1 & R1 & W1 & V1 & E1 & I1 & Ha & Hnw & Hv & Mr).
  destruct (bmap_root_ok ip s cs (vw_ok _ _ V) Hip Hdev) as
    (a' & s1' & cs1 & R1' & _ & Hf1 & _ & Hk1 & X1 & A1 & M1 & Hl1 & Hc1 & G1);
    [by rewrite Hino|by rewrite Hino|rewrite (vw_free _ _ V); lia|roomy|].
  rewrite R1 in R1'. injection R1' as <- <-. rewrite (vw_free _ _ V) in Hc1.
  destruct (walk_sim (Z.to_nat (bn / 127)) ms1 s1 a cs1 0 a V1 Hf1 Hk1) as (c & s2 & ms2 & R2 & W2 & V2 & Mw); [lia|roomy|].
  destruct (bmap_chain_ok (Z.to_nat (bn / 127)) s1 a cs1 0 a (vw_ok _ _ V1) Hf1 Hk1)
    as (s2' & cs2 & c' & R2' & _ & Hf2 & Hk2 & _ & I2 & M2 & Hl2 & Hc2 & G2); [lia|roomy|].
  rewrite R2 in R2'. injection R2' as <- <-.
  assert (room (if (addr_of s cs bn =? 0)%Z then 3 else 0) s2) as Hroom2.
  { eapply (room_logs (3 * (length cs2 - length cs))); [exact Hroom| |lia].
    eapply logs_trans; [exact G1|exact G2|lia]. }
  assert (addr_of s cs bn = ent s2 c (bn mod 127)) as Ebn.
  { rewrite <- M1, <- M2 by done. unfold addr_of. by rewrite (Hk2 : cs2 !! Z.to_nat (bn / 127) = Some c). }
  rewrite Ebn in Hroom2. rewrite (vw_free _ _ V2) in Hc2.
  assert (c ∈ cs2) as Hin by (by eapply list_elem_of_lookup_2).
  pose proof (fw_ind _ _ _ Hf2 c Hin) as Hc. pose proof (data_sector _ _ _ V2 Hc) as Hcsec.
  pose proof (data_sector _ _ _ V1 Ha) as Hasec. pose proof (vw_fb _ _ V2) as Hfb. rewrite nmeta_eq in Hfb.
  assert (forall f, iappend_block din off ms = f ->
    (let* r := iappend_root (bn / 127) din in
     let* indirect := rsect (xint (di_addr0 r.1)) in
     let* w := walk_indirect (Z.to_nat (bn / 127)) (xint (di_addr0 r.1)) indirect r.2 in
     let* indirect :=
       (if get32 w.2 (4 * (bn mod 127)) =? 0 then
          let* b := take_block in
          let indirect := put32 w.2 (4 * (bn mod 127)) (xint b) in
          wsect w.1 indirect ;;; ret indirect
        else ret w.2) in
     ret (xint (get32 indirect (4 * (bn mod 127))), r.1)) ms = f) as Hunf.
  { intros f <-. unfold iappend_block. rewrite <- Eoff. rewrite bmap_split_spec by lia. reflexivity. }
  assert (walk_indirect (Z.to_nat (bn / 127)) a (img ms1 a) nw ms1 = Ret (c, img ms2 c) ms2) as W2'.
  { destruct nw; [|done]. destruct (Hnw eq_refl) as [_ Hz]. rewrite Hz in *. exact W2. }
  specialize (Hunf _ eq_refl). rewrite <- Hunf. clear Hunf.
  mstep W1. cbn [fst snd]. rewrite E1, xint_small by lia.
  mstep (rsect_run ms1 a Hasec (vw_nsect _ _ V1)). mstep W2'. cbn [fst snd].
  rewrite bmap_unfold by done. mstep R1. rewrite Hdev. mstep R2.
  assert (0 <= bn mod 127 < 127) as Hm by dlia.
  unfold bmap_entry. rewrite fbread_bind; [|by eapply vw_lhn|apply data_blk_lt; [apply (vw_ok _ _ V2)|done]].
  rewrite (data_img _ _ _ V2 Hc). fold (ent s2 c (bn mod 127)).
  assert (ino s2 ip = mk_ino inum din1) as I2' by (unfold ino; by rewrite I2).
  destruct (Z.eqb_spec (ent s2 c (bn mod 127)) 0) as [E0|E0].
  - destruct (balloc_sim [c] ms2 s2 V2 (held_data s2 c Hc) ltac:(roomy) ltac:(lia))
      as (s3 & R3 & V3 & G3 & Hb & I3 & Hz & Hold).
    assert (room 1 s3) as Hroom3 by roomy.
    set (b := freeblock ms2) in *. destruct (Hold c Hc) as (Ec & Hdc & Hne).
    set (d := put32 (blk s2 c) (4 * (bn mod 127)) b).
    assert (block_ok d) as Hd by (apply block_ok_put32, fs_ok_blk, (vw_ok _ _ V2)).
    exists b, (log_blk c d s3), (put_img c d (bump ms2)), din1. split_and!.
    + mstep R3. unfold bind at 1, get. by rewrite lstore_bind, Ec by done.
    + unfold bind at 1. mstep (take_block_run ms2 ltac:(lia)). fold b. rewrite xint_small by lia. fold d.
      mstep (wsect_run (bump ms2) c d Hcsec (vw_nsect _ _ V2)). unfold ret. cbn [fst snd].
      assert (get32 d (4 * (bn mod 127)) = b) as ->.
      { unfold d. rewrite get32_put32_eq; [apply u32_small; lia|lia|].
        destruct (fs_ok_blk s2 c (vw_ok _ _ V2)) as [-> _]. lia. }
      by rewrite xint_small by lia.
    + by apply vw_log.
    + change (ino s3 ip = mk_ino inum din1). unfold ino. by rewrite I3.
    + by apply (log_data s3 c d (vw_ok _ _ V3)).
    + exact Hv.
    + cbn [put_img set_img bump set_freeblock freeblock]. lia.
  - exists (ent s2 c (bn mod 127)), s2, ms2, din1. split_and!; try done; [| |lia].
    2: by destruct (fw_data _ _ _ Hf2 c (bn mod 127) Hin Hm) as [?|[? _]].
    unfold bind, ret. f_equal. f_equal. fold (ent s2 c (bn mod 127)).
    apply get32_xint, fs_ok_blk, (vw_ok _ _ V2).
Qed.

(** ** Appending *)

(** Blocks of a file of [n] bytes, and with them its indirect blocks. *)
Definition nblk_of (n : Z) : Z := (n + 511) / 512.
Definition blocks_for (n : Z) : Z := nblk_of n + (nblk_of n + 126) / 127.

(** A file without holes and without blocks behind its end. *)
Record packed (s : fs) (cs : list Z) (n : Z) : Prop := {
  pk_map : forall k, 0 <= k -> addr_of s cs k <> 0 <-> k < nblk_of n;
  pk_len : Z.of_nat (length cs) = (nblk_of n + 126) / 127;
}.

Lemma wrote_packed ip s cs off l s' cs' addr :
  packed s cs off -> 0 <= off -> 0 < Z.of_nat (length l) <= BSIZE - off mod BSIZE ->
  wrote ip s cs l off s' cs' ->
  (forall n, 0 <= n -> addr_of s' cs' n = if n =? off / BSIZE then addr else addr_of s cs n) ->
  length cs' = Nat.max (length cs) (Z.to_nat (off / BSIZE / 127) + 1) ->
  packed s' cs' (off + Z.of_nat (length l)).
Proof.
  intros [P1 P2] Hoff Hl W Hm Hlen. split.
  - intros k Hk. rewrite Hm by done. destruct (Z.eqb_spec k (off / BSIZE)) as [->|Hne].
    + split; [intros _; unfold nblk_of; dlia|]. intros _.
      pose proof (wr_new _ _ _ _ _ _ _ W off ltac:(lia)) as H. by rewrite Hm, Z.eqb_refl in H by dlia.
    + rewrite P1 by done. unfold nblk_of. dlia.
  - rewrite Hlen. unfold nblk_of in *. dlia.
Qed.

Lemma packed_root s cs off : packed s cs off -> 0 <= off -> cs = [] -> off / BSIZE / 127 = 0.
Proof. intros [_ H] Hoff ->. unfold nblk_of in H. simpl in H. dlia. Qed.

Lemma blocks_for_mono n m : n <= m -> blocks_for n <= blocks_for m.
Proof. intros. unfold blocks_for, nblk_of. dlia. Qed.

(** The blocks that one round takes. *)
Lemma chunk_blocks off m :
  0 <= off -> 0 < m <= BSIZE - off mod BSIZE ->
  blocks_for (off + m) - blocks_for off =
  (nblk_of (off + m) + 126) / 127 - (nblk_of off + 126) / 127 + (if off / BSIZE <? nblk_of off then 0 else 1).
Proof. intros Hoff Hm. unfold blocks_for. destruct (Z.ltb_spec (off / BSIZE) (nblk_of off)); unfold nblk_of in *; dlia. Qed.

(** What the loop of [iappend] does to the view [s]. *)
Definition appended (ip : nat) (inum : Z) (fuel : nat) (ms : mkst) (s : fs) (cs : list Z)
    (din : dinode) (off : Z) (p : list Z) : Prop :=
  exists ms' s' cs' din', iappend_loop fuel din off p ms = Ret (din', off + Z.of_nat (length p)) ms' /\
    vw ms' s' /\ wrote ip s cs p off s' cs' /\ ino s' ip = mk_ino inum din' /\
    (exists v, din' = set_di_addr0 v din) /\
    packed s' cs' (off + Z.of_nat (length p)) /\
    freeblock ms <= freeblock ms' <= freeblock ms + blocks_for (off + Z.of_nat (length p)) - blocks_for off.

(** mkfs has no log: the kernel's view can start each round with an empty one. *)
Definition clean (s : fs) : fs := set_flog {| tx_blocks := []; tx_size := 30; tx_open := 1 |} s.

Lemma clean_room k s : (k <= 28)%nat -> room k (clean s).
Proof. intros Hk. unfold room, lhn, clean, set_flog. cbn [flog tx_open tx_size tx_blocks length]. lia. Qed.

Lemma vw_clean ms s : vw ms s -> vw ms (clean s).
Proof. intros V. apply (vw_inodes ms s); try done. unfold lhn. simpl. lia. Qed.

Lemma packed_clean s cs n : packed s cs n -> packed (clean s) cs n.
Proof. intros [H1 H2]. by split. Qed.

Lemma appended_clean ip inum fuel ms s cs din off p :
  appended ip inum fuel ms (clean s) cs din off p -> appended ip inum fuel ms s cs din off p.
Proof.
  intros (ms' & s' & cs' & din' & R & V & [] & H). exists ms', s', cs', din'. split; [done|].
  split; [done|]. split; [by split|done].
Qed.

Lemma iappend_loop_nil ip inum fuel ms s cs din off :
  vw ms s -> ino s ip = mk_ino inum din -> length (di_addrs din) = 13%nat ->
  file_wf s (di_addr0 din) cs -> packed s cs off ->
  appended ip inum fuel ms s cs din off [].
Proof.
  intros V Hino Hlen Hf Hp. exists ms, s, cs, din. simpl length. rewrite Z.add_0_r. split_and!; try done.
  - by destruct fuel.
  - apply wrote_nil; rewrite ?Hino; done || apply (vw_ok _ _ V).
  - exists (di_addr0 din). symmetry. by apply set_di_same.
  - lia.
Qed.

(** The loop of [iappend] writes what the kernel's [writei] writes. *)
Lemma iappend_loop_ok ip inum fuel : forall p ms s cs din off,
  vw ms s -> (ip < length (inodes s))%nat -> ino s ip = mk_ino inum din -> length (di_addrs din) = 13%nat ->
  file_wf s (di_addr0 din) cs -> packed s cs off -> Forall (fun b => 0 <= b < 256) p ->
  0 <= off -> off + Z.of_nat (length p) <= 2097152 -> (length p <= fuel)%nat ->
  freeblock ms + blocks_for (off + Z.of_nat (length p)) - blocks_for off <= 4096 ->
  appended ip inum fuel ms s cs din off p.
Proof.
  induction fuel as [|fuel IH]; intros p ms s cs din off V Hip Hino Hlen Hf Hp Hb Hoff Hmax Hfuel Hfree.
  { destruct p; [|simpl in Hfuel; lia]. apply iappend_loop_nil; done. }
  destruct p as [|x p]; [by apply iappend_loop_nil|].
  apply appended_clean. apply vw_clean in V. apply packed_clean in Hp.
  assert (file_wf (clean s) (di_addr0 din) cs) as Hfc by (by apply (file_wf_inodes s)).
  change (ino (clean s) ip = mk_ino inum din) in Hino.
  change (ip < length (inodes (clean s)))%nat in Hip. clear Hf. rename Hfc into Hf.
  pose proof (fun k => clean_room k s) as Hroom. set (s0 := clean s) in *. clearbody s0. clear s.
  rename s0 into s. unfold appended. cbn [iappend_loop]. set (q := x :: p) in *.
  set (m := Z.min (Z.of_nat (length q)) ((off / BSIZE + 1) * BSIZE - off)).
  assert (0 < m <= BSIZE - off mod BSIZE /\ m <= Z.of_nat (length q)) as [Hm Hm2].
  { unfold m. assert (0 < Z.of_nat (length q)) by (unfold q; simpl; lia). dlia. }
  set (l := take (Z.to_nat m) q).
  assert (Z.of_nat (length l) = m) as Hl by (unfold l; rewrite length_take; lia).
  assert (Z.of_nat (length (drop (Z.to_nat m) q)) = Z.of_nat (length q) - m) as Hd by (rewrite length_drop; lia).
  pose proof (blocks_for_mono off (off + m) ltac:(lia)) as M1.
  pose proof (blocks_for_mono (off + m) (off + Z.of_nat (length q)) ltac:(lia)) as M2.
  assert (Z.to_nat (off / BSIZE / 127) + 2 <= free_count s)%nat as Hfc by (rewrite (vw_free _ _ V); dlia).
  assert (bmap_cost s cs (off / BSIZE) <= 6)%nat as Hcost.
  { pose proof (bmap_cost_le s cs (off / BSIZE)). pose proof (pk_len _ _ _ Hp) as Hpl. unfold nblk_of in Hpl.
    dlia. }
  destruct (write_chunk ip s cs off l (vw_ok _ _ V) Hip) as (a & s1 & cs1 & R & D1 & _ & _ & Hr1 & Hl1 & Hc1 & _ & W & Hc2 & Hmap);
    [by rewrite Hino|by rewrite Hino|by rewrite Hino|done|lia|by apply Forall_take|done
    |apply Hroom; lia|].
  destruct (block_sim ms s ip inum din cs off V Hip Hino Hlen Hf Hoff (packed_root _ _ _ Hp Hoff) Hfc (Hroom (bmap_cost s cs (off / BSIZE)) ltac:(lia)))
    as (a' & s1' & ms1 & din1 & R' & B & V1 & I1 & Ha & (v & Hv) & Mb).
  rewrite R in R'. injection R' as <- <-.
  pose proof (data_sector _ _ _ V1 Ha) as Has.
  mstep B. cbn [fst snd]. mstep (rsect_run ms1 a Has (vw_nsect _ _ V1)). fold m.
  rewrite (data_img _ _ _ V1 Ha). replace (off - off / BSIZE * BSIZE) with (off mod BSIZE) by dlia. fold l.
  set (d := put_bytes (blk s1 a) (off mod BSIZE) l) in *.
  mstep (wsect_run ms1 a d Has (vw_nsect _ _ V1)). rewrite u32_small by lia.
  assert (block_ok d) as Hdok by (apply block_ok_put_bytes, fs_ok_blk, (vw_ok _ _ V1)).
  pose proof (vw_log _ _ a d V1 Hr1 Ha Hdok) as V2. set (s2 := log_blk a d s1) in *.
  pose proof (wrote_packed ip s cs off l s2 cs1 a Hp Hoff ltac:(lia) W Hmap Hl1) as Hp2. rewrite Hl in Hp2.
  assert (freeblock ms1 <= freeblock ms + blocks_for (off + m) - blocks_for off) as Hfb.
  { pose proof (chunk_blocks off m Hoff Hm) as Hcb. rewrite (vw_free _ _ V), (vw_free _ _ V1) in Hc1.
    pose proof (pk_len _ _ _ Hp). pose proof (pk_len _ _ _ Hp2). pose proof (vw_fb _ _ V). pose proof (vw_fb _ _ V1).
    destruct (pk_map _ _ _ Hp (off / BSIZE) ltac:(dlia)) as [_ Hmapped].
    destruct (Z.ltb_spec (off / BSIZE) (nblk_of off)) as [Hlt|Hge];
      destruct (Z.eqb_spec (addr_of s cs (off / BSIZE)) 0) as [E|E]; lia. }
  destruct (wr_frame _ _ _ _ _ _ _ W) as (L2 & O2 & _).
  destruct (IH (drop (Z.to_nat m) q) (put_img a d ms1) s2 cs1 din1 (off + m))
    as (ms' & s' & cs' & din' & RL & V' & W' & I' & (v' & Hv') & Hp' & Hfb');
    [exact V2|by rewrite L2|exact I1|rewrite Hv; simpl; by rewrite length_insert| |done|by apply Forall_drop
    |lia|rewrite Hd; lia|rewrite length_drop; lia|rewrite Hd; cbn [put_img set_img freeblock];
     replace (off + m + (Z.of_nat (length q) - m)) with (off + Z.of_nat (length q)) by lia; lia|].
  { pose proof (wr_map _ _ _ _ _ _ _ W) as H. change (ino s2 ip) with (ino s1 ip) in H. by rewrite I1 in H. }
  rewrite Hd in RL, Hp', Hfb'. cbn [put_img set_img freeblock] in Hfb'.
  replace (off + m + (Z.of_nat (length q) - m)) with (off + Z.of_nat (length q)) in * by lia.
  exists ms', s', cs', din'. split_and!; try done; [| |lia|lia].
  - rewrite <- (take_drop (Z.to_nat m) q). eapply wrote_app; [done|exact W|]. fold l. by rewrite Hl.
  - exists v'. rewrite Hv', Hv. unfold set_di_addr0. simpl. f_equal. apply list_insert_insert_eq.
Qed.

(** ** Inodes on the image *)

Lemma IBLOCK_mk inum : 0 <= inum < 208 -> IBLOCK inum mk_sb = inum / 8 + 32 /\ 32 <= inum / 8 + 32 <= 57.
Proof. intros H. unfold IBLOCK. rewrite mk_sb_eq. cbn [sb_inodestart]. rewrite u32_small by dlia. dlia. Qed.

Definition din_of (f : Z -> block) (inum : Z) : dinode := din_get (f (IBLOCK inum mk_sb)) (doff inum).

Lemma ib_data ms s inum : vw ms s -> 0 <= inum < 208 -> data_blk s (IBLOCK inum mk_sb).
Proof.
  intros V H. destruct (IBLOCK_mk inum H) as [-> Hr]. pose proof (vw_fb _ _ V) as Hfb. rewrite nmeta_eq in Hfb.
  apply (vw_data _ _ _ V). rewrite is_bmap_mk. lia.
Qed.

(** A structure that fits its fields. *)
Definition din_ok (x : dinode) : Prop := inode_ok (mk_ino 0 x).

Lemma din_ok_ino inum x : 0 <= inum < 4294967296 -> din_ok x -> inode_ok (mk_ino inum x).
Proof. intros Hi [X1 X2 X3 X4 X5 X6 X7 X8]. by split. Qed.

Lemma mk_ino_inj inum x y : mk_ino inum x = mk_ino inum y -> x = y.
Proof. destruct x, y. unfold mk_ino. simpl. congruence. Qed.

Lemma din_get_put inum x d :
  0 <= inum < 4294967296 -> din_ok x -> length d = Z.to_nat BSIZE ->
  din_get (din_put x d (doff inum)) (doff inum) = x.
Proof.
  intros Hi Hx Hd. apply (mk_ino_inj inum).
  exact (dinode_get_put (mk_ino inum x) d (din_ok_ino inum x Hi Hx) Hd).
Qed.

Lemma din_get_other i j x d :
  0 <= i < 4294967296 -> din_ok x -> length d = Z.to_nat BSIZE -> i mod IPB <> j mod IPB ->
  din_get (din_put x d (doff i)) (doff j) = din_get d (doff j).
Proof.
  intros Hi Hx Hd Hne. apply (mk_ino_inj j).
  exact (dinode_get_other (mk_ino i x) (mk_ino j x) d (din_ok_ino i x Hi Hx) Hd Hne).
Qed.

Lemma get_addrs_word n : forall d o, block_ok d -> Forall (fun a => 0 <= a < 4294967296) (get_addrs n d o).
Proof. induction n as [|n IH]; intros d o Hd; simpl; constructor; [by apply get32_range|by apply IH]. Qed.

Lemma length_get_addrs n : forall d o, length (get_addrs n d o) = n.
Proof. induction n as [|n IH]; intros d o; simpl; [done|]. by rewrite IH. Qed.

Lemma i16_range x : -32768 <= i16 x < 32768.
Proof. unfold i16. destruct (Z.ltb_spec (x mod 65536) 32768); dlia. Qed.

Lemma din_get_ok d o : block_ok d -> din_ok (din_get d o).
Proof.
  intros Hd. split; cbn [mk_ino din_get i_inum i_type i_major i_minor i_nlink i_size i_addrs]; try apply i16_range; try lia.
  - by apply get32_range.
  - apply length_get_addrs.
  - by apply get_addrs_word.
Qed.

Lemma din_ok_set x v sz : din_ok x -> 0 <= v < 4294967296 -> 0 <= sz < 4294967296 ->
  din_ok (set_di_size sz (set_di_addr0 v x)).
Proof.
  intros [X1 X2 X3 X4 X5 X6 X7 X8] Hv Hs. split; try done.
  - cbn. rewrite length_insert. exact X7.
  - cbn. by apply Forall_insert.
Qed.

(** The structure of inode [inum] replaced. *)
Lemma winode_sim ms s inum x :
  vw ms s -> 0 <= inum < 208 -> din_ok x ->
  let ib := IBLOCK inum mk_sb in
  let d := din_put x (blk s ib) (doff inum) in
  winode inum x ms = Ret tt (put_img ib d ms) /\ vw (put_img ib d ms) (upd_blk ib d s) /\
  block_ok d /\
  din_of (blk (upd_blk ib d s)) inum = x /\
  forall j, 0 <= j < 208 -> j <> inum -> din_of (blk (upd_blk ib d s)) j = din_of (blk s) j.
Proof.
  intros V Hi Hx ib d. pose proof (ib_data _ _ _ V Hi) as Hib. fold ib in Hib.
  pose proof (data_sector _ _ _ V Hib) as Hs. pose proof (fs_ok_blk s ib (vw_ok _ _ V)) as Hbk.
  assert (block_ok d) as Hd by (apply (block_ok_dinode (mk_ino inum x)); done).
  split_and!; [|by apply vw_store|done| |].
  - unfold winode, bind at 1, get. rewrite (vw_msb _ _ V). fold ib.
    mstep (rsect_run ms ib Hs (vw_nsect _ _ V)). rewrite (data_img _ _ _ V Hib). fold d.
    by apply wsect_run, (vw_nsect _ _ V).
  - unfold din_of. fold ib. cbn [upd_blk set_blk blk]. rewrite Z.eqb_refl.
    apply din_get_put; [lia|done|]. by destruct Hbk.
  - intros j Hj Hne. unfold din_of. cbn [upd_blk set_blk blk].
    destruct (Z.eqb_spec (IBLOCK j mk_sb) ib) as [E|]; [|done]. rewrite E.
    apply din_get_other; [lia|done|by destruct Hbk|]. unfold ib in E.
    destruct (IBLOCK_mk j Hj) as [Ej _], (IBLOCK_mk inum Hi) as [Ei _]. rewrite Ej, Ei in E. intros Hm. dlia.
Qed.

(** ** Files on the image *)

(** The blocks of a file. *)
Definition own (s : fs) (cs : list Z) (x : Z) : Prop :=
  x ∈ cs \/ (x <> 0 /\ exists n, 0 <= n /\ addr_of s cs n = x).

Lemma own_data s a cs x : file_wf s a cs -> own s cs x -> data_blk s x.
Proof.
  intros Hf [H|(Hx & n & Hn & <-)]; [by apply (fw_ind _ _ _ Hf)|]. by apply (addr_of_data s a cs n Hf Hn).
Qed.

Lemma outside_own s cs x : x <> 0 -> data_blk s x -> (outside s cs x <-> ~ own s cs x).
Proof.
  intros H0 Hd. unfold outside, own. split.
  - intros (_ & H1 & H2) [?|(_ & n & Hn & E)]; [done|]. by apply (H2 n Hn).
  - intros H. split_and!; [done|tauto|]. intros n Hn E. apply H. right. split; [done|]. by exists n.
Qed.

(** Inode [inum] is a file of type [ty] with contents [c]. *)
Record has_file (s : fs) (inum ty : Z) (c cs : list Z) : Prop := {
  hf_type : di_type (din_of (blk s) inum) = ty;
  hf_nodev : di_major (din_of (blk s) inum) = 0 /\ di_minor (din_of (blk s) inum) = 0;
  hf_nlink : di_nlink (din_of (blk s) inum) = 1;
  hf_size : di_size (din_of (blk s) inum) = Z.of_nat (length c);
  hf_map : file_wf s (di_addr0 (din_of (blk s) inum)) cs;
  hf_pack : packed s cs (Z.of_nat (length c));
  hf_bytes : forall x, 0 <= x -> fbyte s cs x = get8 c x;
  hf_own : forall x, own s cs x -> nmeta <= x;
  hf_byte : Forall (fun b => 0 <= b < 256) c;
}.

(** A file whose blocks have not changed. *)
Lemma file_frame s s' a cs :
  file_wf s a cs -> (forall x, own s cs x -> blk s' x = blk s x) -> (forall x, data_blk s x -> data_blk s' x) ->
  file_wf s' a cs /\ (forall n, 0 <= n -> addr_of s' cs n = addr_of s cs n).
Proof.
  intros Hf Hb Hd.
  assert (forall c i, c ∈ cs -> ent s' c i = ent s c i) as He by (intros c i Hc; unfold ent; by rewrite Hb by (by left)).
  split.
  - destruct Hf as [W1 W2 W3 W4 W5 W6]. split; [done| |done| | |].
    + intros k c Hk. rewrite He by (by eapply list_elem_of_lookup_2). by apply W2.
    + intros c Hc. by apply Hd, W4.
    + intros c i Hc Hi. rewrite He by done. destruct (W5 c i Hc Hi) as [?|[? ?]]; [by left|right]. split; [by apply Hd|done].
    + intros c c' i i' Hc Hc'. rewrite !He by done. by apply W6.
  - intros n _. unfold addr_of. destruct (cs !! Z.to_nat (n / 127)) as [c|] eqn:E; [|done].
    apply He. by eapply list_elem_of_lookup_2.
Qed.

Lemma own_frame s s' cs x : (forall n, 0 <= n -> addr_of s' cs n = addr_of s cs n) -> own s' cs x <-> own s cs x.
Proof.
  intros H. unfold own. split; (intros [?|(Hx & n & Hn & E)]; [by left|right]; split; [done|exists n; split; [done|]]);
    [by rewrite <- H|by rewrite H].
Qed.

Lemma has_file_frame s s' inum ty c cs :
  has_file s inum ty c cs -> (forall x, own s cs x -> blk s' x = blk s x) ->
  (forall x, data_blk s x -> data_blk s' x) -> din_of (blk s') inum = din_of (blk s) inum ->
  has_file s' inum ty c cs /\ (forall x, own s' cs x <-> own s cs x).
Proof.
  intros [H1 H2 H3 H4 H5 H6 H7 H8 H9] Hb Hd E. destruct (file_frame s s' _ cs H5 Hb Hd) as [Hf Ha].
  assert (forall x, own s' cs x <-> own s cs x) as Ho by (intros x; by apply own_frame).
  split; [|done]. split; rewrite ?E; try done.
  - destruct H6 as [P1 P2]. split; [|done]. intros k Hk. rewrite Ha by done. by apply P1.
  - intros x Hx. rewrite <- H7 by done. unfold fbyte. assert (0 <= x / BSIZE) by dlia. rewrite Ha by done.
    destruct (Z.eqb_spec (addr_of s cs (x / BSIZE)) 0); [done|]. f_equal. apply Hb. right. split; [done|].
    by exists (x / BSIZE).
  - intros x Hx%Ho. by apply H8.
Qed.

Lemma rinode_run ms s inum : vw ms s -> 0 <= inum < 208 -> rinode inum ms = Ret (din_of (blk s) inum) ms.
Proof.
  intros V Hi. pose proof (ib_data _ _ _ V Hi) as Hib. unfold rinode, bind at 1, get. rewrite (vw_msb _ _ V).
  mstep (rsect_run ms _ (data_sector _ _ _ V Hib) (vw_nsect _ _ V)). by rewrite (data_img _ _ _ V Hib).
Qed.

Lemma din_of_ok s inum : fs_ok s -> din_ok (din_of (blk s) inum).
Proof. intros H. apply din_get_ok. by apply fs_ok_blk. Qed.

Lemma root_word s a cs : fs_ok s -> file_wf s a cs -> 0 <= a < 4294967296.
Proof.
  intros Hok Hf. rewrite (fw_root _ _ _ Hf). destruct cs as [|c cs]; [done|]. simpl.
  apply (data_blk_word s c Hok). apply (fw_ind _ _ _ Hf). constructor.
Qed.

(** The part of [iappend] after the loop. *)
Lemma iappend_finish ms s inum ip din cs ty c :
  vw ms s -> 0 <= inum < 208 -> ino s ip = mk_ino inum din -> din_ok din ->
  file_wf s (di_addr0 din) cs -> packed s cs (Z.of_nat (length c)) -> Z.of_nat (length c) <= 2097152 ->
  (forall x, 0 <= x -> fbyte s cs x = get8 c x) -> Forall (fun b => 0 <= b < 256) c ->
  (forall x, own s cs x -> nmeta <= x) ->
  di_type din = ty -> di_major din = 0 -> di_minor din = 0 -> di_nlink din = 1 ->
  exists ms' s', winode inum (set_di_size (xint (Z.of_nat (length c))) din) ms = Ret tt ms' /\ vw ms' s' /\
    has_file s' inum ty c cs /\ freeblock ms' = freeblock ms /\
    (forall j, 0 <= j < 208 -> j <> inum -> din_of (blk s') j = din_of (blk s) j) /\
    (forall x, outside s cs x -> outside s' cs x) /\ (forall x, x < 32 \/ 57 < x -> blk s' x = blk s x).
Proof.
  intros V Hi Hino Hdin Hf Hp Hmax Hbytes Hb Hown E1 E2 E3 E4. pose proof (vw_ok _ _ V) as Hok.
  set (x' := set_di_size (xint (Z.of_nat (length c))) din).
  assert (din_ok x') as Hx'.
  { pose proof (ok_addrs _ Hdin) as Hlen. unfold x'. rewrite <- (set_di_same din) by exact Hlen.
    apply din_ok_set; [done|by eapply root_word|]. rewrite xint_small by lia. lia. }
  destruct (winode_sim ms s inum x' V Hi Hx') as (R & V2 & Hd & Hget & Hoth).
  destruct (IBLOCK_mk inum Hi) as [_ Hibr]. rewrite <- (proj1 (IBLOCK_mk inum Hi)) in Hibr.
  pose proof (ib_data _ _ _ V Hi) as Hib. set (ib := IBLOCK inum mk_sb) in *.
  set (d := din_put x' (blk s ib) (doff inum)) in *.
  assert (ib ∉ cs) as Hnin. { intros H. pose proof (Hown ib ltac:(by left)) as Ho. rewrite nmeta_eq in Ho. lia. }
  destruct (upd_content s _ cs ib d Hok Hf Hib Hnin Hd) as [Hf2 Ha2].
  assert (forall y, own (upd_blk ib d s) cs y <-> own s cs y) as Ho by (intros y; apply own_frame; auto).
  exists (put_img ib d ms), (upd_blk ib d s). split_and!; try done.
  - split; rewrite ?Hget; try done.
    + unfold x'. simpl. by rewrite xint_small by lia.
    + destruct Hp as [P1 P2]. split; [|done]. intros k Hk. rewrite Ha2. by apply P1.
    + intros y Hy. rewrite <- Hbytes by done. unfold fbyte. rewrite Ha2.
      destruct (Z.eqb_spec (addr_of s cs (y / BSIZE)) 0) as [|Hne]; [done|]. f_equal. cbn [upd_blk set_blk blk].
      destruct (Z.eqb_spec (addr_of s cs (y / BSIZE)) ib) as [Eb|]; [|done].
      assert (own s cs ib) as Hoi. { right. split; [congruence|]. exists (y / BSIZE). split; [dlia|done]. }
      pose proof (Hown ib Hoi) as Hge. rewrite nmeta_eq in Hge. lia.
    + intros y Hy%Ho. by apply Hown.
  - intros y Hy. pose proof Hy as [Hyd _]. assert (y <> 0) as Hy0 by apply Hyd.
    apply outside_own; [done|by apply data_blk_upd|]. rewrite Ho. by apply (outside_own s).
  - intros y Hy. cbn [upd_blk set_blk blk]. destruct (Z.eqb_spec y ib); [lia|done].
Qed.

(** [iappend] extends the file by the bytes, and changes nothing else. *)
Lemma iappend_ok ms s inum ty c cs p :
  vw ms s -> 0 <= inum < 208 -> has_file s inum ty c cs -> Forall (fun b => 0 <= b < 256) p ->
  Z.of_nat (length (c ++ p)) <= 2097152 ->
  freeblock ms + blocks_for (Z.of_nat (length (c ++ p))) - blocks_for (Z.of_nat (length c)) <= 4096 ->
  exists ms' s' cs', iappend inum p ms = Ret tt ms' /\ vw ms' s' /\ has_file s' inum ty (c ++ p) cs' /\
    freeblock ms <= freeblock ms' <=
      freeblock ms + blocks_for (Z.of_nat (length (c ++ p))) - blocks_for (Z.of_nat (length c)) /\
    (forall j, 0 <= j < 208 -> j <> inum -> din_of (blk s') j = din_of (blk s) j) /\
    (forall x, outside s cs x -> outside s' cs' x /\ (x < 32 \/ 57 < x -> blk s' x = blk s x)).
Proof.
  intros V Hi [H1 [H2 H2'] H3 H4 H5 H6 H7 H8 H9] Hp. rewrite length_app, Nat2Z.inj_add. intros Hmax Hfree.
  set (din := din_of (blk s) inum) in *. pose proof (vw_ok _ _ V) as Hok.
  pose proof (din_of_ok s inum Hok) as Hdin. fold din in Hdin.
  set (s0 := set_inodes [mk_ino inum din] s).
  assert (vw ms s0) as V0 by (apply (vw_inodes _ s); try done; apply (vw_lhn _ _ V)).
  assert (file_wf s0 (di_addr0 din) cs) as Hf0 by (by apply (file_wf_inodes s)).
  destruct (iappend_loop_ok 0 inum (length p) p ms s0 cs din (Z.of_nat (length c)))
    as (ms1 & s1 & cs1 & din1 & R1 & V1 & W & I1 & (v & Hv) & Hp1 & Hfb);
    [done|simpl; lia|done|exact (ok_addrs _ Hdin)|done|by destruct H6|done|lia|lia|lia|lia|].
  assert (file_wf s1 (di_addr0 din1) cs1) as Hf1.
  { pose proof (wr_map _ _ _ _ _ _ _ W) as H. by rewrite I1 in H. }
  assert (forall x, data_blk s x -> x < nmeta -> outside s0 cs x) as Hmeta.
  { intros x Hx Hlt. assert (x <> 0) as Hx0 by apply Hx.
    apply outside_own; [done|by apply (data_blk_inodes s)|]. intros Ho%H8. lia. }
  pose proof (vw_fb _ _ V) as Hfbs. rewrite nmeta_eq in *.
  assert (forall x, own s1 cs1 x -> 123 <= x) as Hown1.
  { intros x Hx. pose proof (own_data _ _ _ _ Hf1 Hx) as Hd1. assert (x <> 0) as Hx0 by apply Hd1.
    destruct (Z.lt_ge_cases x 123) as [Hlt|]; [|done]. exfalso.
    assert (data_blk s x) as Hd0.
    { apply (vw_data _ _ _ V1) in Hd1 as [Hr Hb]. apply (vw_data _ _ _ V). split; [lia|done]. }
    destruct (wr_outside _ _ _ _ _ _ _ W x (Hmeta x Hd0 Hlt)) as [Ho _]. by apply (outside_own s1 cs1 x) in Ho. }
  assert (di_size din1 = Z.of_nat (length c)) as Hsz1 by (by rewrite Hv).
  destruct (iappend_finish ms1 s1 inum 0 din1 cs1 ty (c ++ p) V1 Hi I1) as (ms2 & s2 & R2 & V2 & F2 & B2 & D2 & O2 & K2);
    rewrite ?length_app, ?Nat2Z.inj_add; try done; try (by rewrite Hv).
  { rewrite Hv. pose proof (ok_addrs _ Hdin) as Hlen.
    pose proof (root_word _ _ _ (vw_ok _ _ V1) Hf1) as Hw. rewrite Hv in Hw.
    pose proof (din_ok_set din v (di_size din) Hdin) as G. rewrite addr0_set in Hw by exact Hlen.
    replace (set_di_addr0 v din) with (set_di_size (di_size din) (set_di_addr0 v din)) by done.
    apply G; [done|]. apply (ok_size _ Hdin). }
  { intros x Hx. rewrite (wr_bytes _ _ _ _ _ _ _ W) by lia.
    destruct (Z.leb_spec (Z.of_nat (length c)) x), (Z.ltb_spec x (Z.of_nat (length c) + Z.of_nat (length p))); cbn [andb]; try lia.
    - unfold get8. rewrite lookup_app_r by lia. do 2 f_equal. lia.
    - transitivity (fbyte s cs x); [done|]. rewrite H7 by lia. unfold get8. rewrite !lookup_ge_None_2; [done|rewrite length_app; lia|lia].
    - transitivity (fbyte s cs x); [done|]. rewrite H7 by lia. unfold get8. by rewrite lookup_app_l by lia. }
  { by apply Forall_app. }
  exists ms2, s2, cs1. split_and!; try done.
  - unfold iappend. mstep (rinode_run ms s inum V Hi). fold din. rewrite H4, xint_small by lia.
    mstep R1. cbn [fst snd]. rewrite length_app, Nat2Z.inj_add in R2. exact R2.
  - lia.
  - lia.
  - intros j Hj Hne. rewrite D2 by done. unfold din_of. f_equal. destruct (IBLOCK_mk j Hj) as [Ej Hr].
    pose proof (ib_data _ _ _ V Hj) as Hjd.
    destruct (wr_outside _ _ _ _ _ _ _ W (IBLOCK j mk_sb)) as [_ ->]; [|done]. apply Hmeta; [done|lia].
  - intros x Hx. destruct (wr_outside _ _ _ _ _ _ _ W x) as [Ho Hb].
    { destruct Hx as (A & B & C). split_and!; [by apply (data_blk_inodes s)|done|done]. }
    split; [by apply O2|]. intros Hlt. rewrite K2 by done. by rewrite Hb.
Qed.

(** [freeinode] changes in [ialloc] only. *)
Definition keeps_fi {A} (m : M mkst A) : Prop := forall s a s', m s = Ret a s' -> freeinode s' = freeinode s.

Lemma keeps_fi_bind {A B} (m : M mkst A) (k : A -> M mkst B) :
  keeps_fi m -> (forall a, keeps_fi (k a)) -> keeps_fi (bind m k).
Proof.
  intros Hm Hk s b s' E. unfold bind in E. destruct (m s) as [a s1| | |] eqn:Em; try done.
  rewrite (Hk a s1 b s' E). by eapply Hm.
Qed.
Lemma keeps_fi_ret {A} (a : A) : keeps_fi (ret a).
Proof. intros s x s' E. unfold ret in E. by simplify_eq. Qed.
Lemma keeps_fi_get : keeps_fi get.
Proof. intros s x s' E. unfold get in E. by simplify_eq. Qed.
Lemma keeps_fi_wsect n d : keeps_fi (wsect n d).
Proof. intros s x s' E. unfold wsect, modify in E. by simplify_eq. Qed.
Lemma keeps_fi_rsect n : keeps_fi (rsect n).
Proof. intros s x s' E. unfold rsect, bind, get in E. destruct (_ <=? _); [done|]. unfold ret in E. by simplify_eq. Qed.
Lemma keeps_fi_take : keeps_fi take_block.
Proof. intros s x s' E. unfold take_block, bind, get, modify, ret in E. by simplify_eq. Qed.
Lemma keeps_fi_fuel {A} : keeps_fi (out_of_fuel : M mkst A).
Proof. done. Qed.

Ltac keeps_fi :=
  repeat first [apply keeps_fi_ret|apply keeps_fi_get|apply keeps_fi_wsect
    |apply keeps_fi_rsect|apply keeps_fi_take|apply keeps_fi_fuel|apply keeps_fi_bind; [|intros ?]
    |match goal with |- keeps_fi (if ?b then _ else _) => destruct b end].

Lemma keeps_fi_walk n : forall c d b, keeps_fi (walk_indirect n c d b).
Proof. induction n as [|n IH]; intros c d b; cbn [walk_indirect]; keeps_fi. apply IH. Qed.

Lemma keeps_fi_block din off : keeps_fi (iappend_block din off).
Proof. unfold iappend_block. destruct (bmap_split _ _ _). keeps_fi; apply keeps_fi_walk. Qed.

Lemma keeps_fi_loop fuel : forall din off p, keeps_fi (iappend_loop fuel din off p).
Proof.
  induction fuel as [|fuel IH]; intros din off p; destruct p; cbn [iappend_loop]; keeps_fi;
    first [apply keeps_fi_block|apply IH].
Qed.

Lemma keeps_fi_iappend inum p : keeps_fi (iappend inum p).
Proof. unfold iappend, rinode, winode. keeps_fi. apply keeps_fi_loop. Qed.

(** ** All files *)

Record mfile := { mf_type : Z; mf_data : list Z; mf_chain : list Z }.

Definition mf_blocks (F : mfile) : Z := blocks_for (Z.of_nat (length (mf_data F))).
Definition total (l : list mfile) : Z := foldr (fun F n => mf_blocks F + n) 0 l.

(** Inode [k + 1] is the [k]-th file; no two share a block. *)
Record built (ms : mkst) (s : fs) (fl : list mfile) : Prop := {
  bu_vw : vw ms s;
  bu_free : freeinode ms = Z.of_nat (length fl) + 1;
  bu_len : Z.of_nat (length fl) <= 199;
  bu_file : forall k F, fl !! k = Some F ->
    has_file s (Z.of_nat k + 1) (mf_type F) (mf_data F) (mf_chain F);
  bu_apart : forall j k F G, j <> k -> fl !! j = Some F -> fl !! k = Some G ->
    forall x, own s (mf_chain F) x -> outside s (mf_chain G) x;
  bu_blocks : freeblock ms <= nmeta + total fl;
  bu_log : blk s 2 = zero_block;
}.

Lemma total_app l l' : total (l ++ l') = total l + total l'.
Proof. induction l as [|F l IH]; simpl; [done|]. unfold total in *. simpl. lia. Qed.

Lemma mf_blocks_nonneg F : 0 <= mf_blocks F.
Proof. unfold mf_blocks, blocks_for, nblk_of. dlia. Qed.

Lemma total_nonneg l : 0 <= total l.
Proof. induction l as [|F l IH]; unfold total in *; simpl; [lia|]. pose proof (mf_blocks_nonneg F). lia. Qed.

Lemma total_insert l : forall k F G, l !! k = Some F -> total (<[k := G]> l) = total l - mf_blocks F + mf_blocks G.
Proof.
  induction l as [|H l IH]; intros k F G E; [done|]. destruct k; simpl in *; unfold total in *; simpl.
  - simplify_eq. lia.
  - rewrite (IH k F G E). lia.
Qed.

Lemma total_elem l k F : l !! k = Some F -> mf_blocks F <= total l.
Proof.
  intros E. rewrite <- (take_drop_middle l k F E), total_app. unfold total at 2. simpl. fold (total (drop (S k) l)).
  pose proof (total_nonneg (take k l)). pose proof (total_nonneg (drop (S k) l)). lia.
Qed.

(** A step that changes inode [k + 1], its blocks and free blocks only. *)
Lemma built_step ms s fl ms' s' k F :
  built ms s fl -> vw ms' s' -> freeinode ms' = Z.of_nat (length (<[k := F]> fl)) + 1 ->
  is_Some (fl !! k) ->
  has_file s' (Z.of_nat k + 1) (mf_type F) (mf_data F) (mf_chain F) ->
  (forall j G, j <> k -> fl !! j = Some G ->
     din_of (blk s') (Z.of_nat j + 1) = din_of (blk s) (Z.of_nat j + 1) /\
     forall x, own s (mf_chain G) x -> outside s' (mf_chain F) x /\ blk s' x = blk s x) ->
  (forall x, data_blk s x -> data_blk s' x) ->
  freeblock ms' <= nmeta + total (<[k := F]> fl) -> blk s' 2 = zero_block ->
  built ms' s' (<[k := F]> fl).
Proof.
  intros [B1 B2 B3 B4 B5 B6 B7] V Hfi [F0 Hk] HF Hoth Hd Hfb Hlog.
  assert (forall j G, j <> k -> fl !! j = Some G ->
    has_file s' (Z.of_nat j + 1) (mf_type G) (mf_data G) (mf_chain G) /\
    (forall x, own s' (mf_chain G) x <-> own s (mf_chain G) x)) as Hkeep.
  { intros j G Hj HG. destruct (Hoth j G Hj HG) as [Ed Hx].
    apply (has_file_frame s); [by apply B4|intros x Ho; by apply Hx|done|done]. }
  pose proof (lookup_lt_Some _ _ _ Hk) as Hlt. split; try done.
  - by rewrite length_insert.
  - intros j G E. destruct (decide (j = k)) as [->|Hne].
    + rewrite list_lookup_insert_eq in E by done. by simplify_eq.
    + rewrite list_lookup_insert_ne in E by done. by apply Hkeep.
  - intros i j G H Hij HG HH x Hx.
    destruct (decide (i = k)) as [->|Hi], (decide (j = k)) as [->|Hj]; [done|..].
    + rewrite list_lookup_insert_eq in HG by done. rewrite list_lookup_insert_ne in HH by done. simplify_eq.
      destruct (Hkeep j H Hj HH) as [Hf Ho]. destruct (Hoth j H Hj HH) as [_ Hout].
      pose proof (own_data _ _ _ _ (hf_map _ _ _ _ _ HF) Hx) as Hxd. assert (x <> 0) as Hx0 by apply Hxd.
      apply outside_own; [done|done|]. intros Hx'%Ho. destruct (Hout x Hx') as [Hno _].
      by apply (outside_own s' (mf_chain G) x) in Hno.
    + rewrite list_lookup_insert_ne in HG by done. rewrite list_lookup_insert_eq in HH by done. simplify_eq.
      apply (Hkeep i G Hi HG) in Hx. by apply (Hoth i G Hi HG).
    + rewrite list_lookup_insert_ne in HG, HH by done.
      destruct (Hkeep i G Hi HG) as [_ Ho1]. destruct (Hkeep j H Hj HH) as [_ Ho2]. apply Ho1 in Hx.
      pose proof (B5 i j G H Hij HG HH x Hx) as Hout. pose proof (proj1 Hout) as Hxd. assert (x <> 0) as Hx0 by apply Hxd.
      apply outside_own; [done|by apply Hd|]. rewrite Ho2. by apply (outside_own s).
Qed.

Lemma append_built ms s fl k F p :
  built ms s fl -> fl !! k = Some F -> Forall (fun b => 0 <= b < 256) p ->
  (forall cs, nmeta + total (<[k := {| mf_type := mf_type F; mf_data := mf_data F ++ p; mf_chain := cs |}]> fl) <= 4096) ->
  exists ms' s' cs', iappend (Z.of_nat k + 1) p ms = Ret tt ms' /\
    built ms' s' (<[k := {| mf_type := mf_type F; mf_data := mf_data F ++ p; mf_chain := cs' |}]> fl).
Proof.
  intros B Hk Hp Htot. pose proof (lookup_lt_Some _ _ _ Hk) as Hlt.
  pose proof (bu_len _ _ _ B) as Hlen. pose proof (bu_vw _ _ _ B) as V. pose proof (bu_blocks _ _ _ B) as Hfb.
  assert (forall cs, total (<[k := {| mf_type := mf_type F; mf_data := mf_data F ++ p; mf_chain := cs |}]> fl) =
    total fl - mf_blocks F + blocks_for (Z.of_nat (length (mf_data F ++ p)))) as Et
    by (intros cs; by rewrite (total_insert fl k F)).
  specialize (Htot []). rewrite Et in Htot. pose proof (total_elem fl k F Hk) as Hel.
  assert (Z.of_nat (length (mf_data F ++ p)) <= 2097152) as Hmax.
  { rewrite nmeta_eq in Htot. unfold blocks_for, nblk_of in Htot. dlia. }
  destruct (iappend_ok ms s (Z.of_nat k + 1) (mf_type F) (mf_data F) (mf_chain F) p V) as
    (ms' & s' & cs' & R & V' & HF & Hfb' & Hdin & Hout); [lia|by apply (bu_file _ _ _ B)|done|done|unfold mf_blocks in *; lia|].
  exists ms', s', cs'. split; [done|]. apply (built_step ms s fl); try done.
  - rewrite length_insert, (keeps_fi_iappend _ _ _ _ _ R). apply (bu_free _ _ _ B).
  - intros j G Hj HG. pose proof (lookup_lt_Some _ _ _ HG) as Hltj. split; [apply Hdin; lia|].
    intros x Hx. pose proof (bu_apart _ _ _ B j k G F Hj HG Hk x Hx) as Ho. destruct (Hout x Ho) as [Ho' Hb]. split; [done|].
    apply Hb. pose proof (hf_own _ _ _ _ _ (bu_file _ _ _ B j G HG) x Hx) as Hge. rewrite nmeta_eq in Hge. lia.
  - intros x Hx%(vw_data _ _ _ V). apply (vw_data _ _ _ V'). split; [|tauto].
    lia.
  - rewrite Et. unfold mf_blocks in *. lia.
  - pose proof (vw_fb _ _ V) as Hfbr. rewrite nmeta_eq in Hfbr.
    destruct (Hout 2) as [_ E2]; [|rewrite E2 by (left; lia); apply (bu_log _ _ _ B)].
    apply outside_own; [done|apply (vw_data _ _ _ V); rewrite is_bmap_mk; lia|].
    intros Ho. pose proof (hf_own _ _ _ _ _ (bu_file _ _ _ B k F Hk) 2 Ho) as Hge. rewrite nmeta_eq in Hge. lia.
Qed.

Lemma own_nil s x : ~ own s [] x.
Proof. intros [H|(Hx & n & _ & E)]; [by apply elem_of_nil in H|by symmetry in E]. Qed.

Lemma empty_file s inum ty :
  (let d := din_of (blk s) inum in di_type d = ty /\ di_major d = 0 /\ di_minor d = 0 /\ di_nlink d = 1 /\
     di_size d = 0 /\ di_addr0 d = 0) ->
  has_file s inum ty [] [].
Proof.
  intros (E1 & E2 & E3 & E4 & E5 & E6). split; try done.
  - rewrite E6. split; try done; try (intros ? ? H; by apply elem_of_nil in H).
    + apply NoDup_nil_2.
    + intros c Hc. by apply elem_of_nil in Hc.
    + intros c c' i i' Hc. by apply elem_of_nil in Hc.
  - split; [|done]. intros k Hk. unfold addr_of. cbn [lookup list_lookup].
    change (nblk_of (Z.of_nat (length []))) with 0. split; [done|lia].
  - intros x Hx. by apply own_nil in Hx.
Qed.

Lemma ialloc_built ms s fl ty :
  built ms s fl -> Z.of_nat (length fl) < 199 -> ty = T_DIR \/ ty = T_FILE ->
  exists ms' s', ialloc ty ms = Ret (Z.of_nat (length fl) + 1) ms' /\
    built ms' s' (fl ++ [{| mf_type := ty; mf_data := []; mf_chain := [] |}]).
Proof.
  intros B Hlen Hty. pose proof (bu_vw _ _ _ B) as V. set (inum := Z.of_nat (length fl) + 1).
  set (x := {| di_type := i16 (xshort ty); di_major := 0; di_minor := 0; di_nlink := i16 (xshort 1);
               di_size := xint 0; di_addrs := replicate 13 0 |}).
  assert (din_ok x) as Hx.
  { split; cbn [mk_ino x i_inum i_type i_major i_minor i_nlink i_size i_addrs]; try apply i16_range; try done.
    by repeat constructor. }
  assert (vw (set_freeinode (inum + 1) ms) s) as V0 by (destruct V; by split).
  destruct (winode_sim _ s inum x V0 ltac:(lia) Hx) as (R & V' & Hd & Hget & Hoth).
  set (ib := IBLOCK inum mk_sb) in *. set (d := din_put x (blk s ib) (doff inum)) in *.
  destruct (IBLOCK_mk inum ltac:(lia)) as [Eib Hib]. rewrite <- Eib in Hib. fold ib in Hib, Eib.
  pose proof (ib_data ms s inum V ltac:(lia)) as Hibd. fold ib in Hibd.
  exists (put_img ib d (set_freeinode (inum + 1) ms)), (upd_blk ib d s).
  assert (i16 (xshort ty) = ty) as Ety by (by destruct Hty as [->| ->]).
  assert (forall j G, fl !! j = Some G ->
    has_file (upd_blk ib d s) (Z.of_nat j + 1) (mf_type G) (mf_data G) (mf_chain G) /\
    (forall y, own (upd_blk ib d s) (mf_chain G) y <-> own s (mf_chain G) y)) as Hkeep.
  { intros j G HG. pose proof (lookup_lt_Some _ _ _ HG). apply (has_file_frame s).
    - by apply (bu_file _ _ _ B).
    - intros y Hy. pose proof (hf_own _ _ _ _ _ (bu_file _ _ _ B j G HG) y Hy) as Hge. rewrite nmeta_eq in Hge.
      cbn [upd_blk set_blk blk]. destruct (Z.eqb_spec y ib); [lia|done].
    - intros y Hy. apply data_blk_upd; [apply (vw_ok _ _ V)|done|done|done].
    - apply Hoth; lia. }
  split.
  - unfold ialloc, bind at 1, get. rewrite (bu_free _ _ _ B). fold inum. rewrite u32_small by lia.
    unfold bind at 1, modify. fold x. by mstep R.
  - split; try done.
    + rewrite length_app. cbn. lia.
    + rewrite length_app. simpl. lia.
    + intros k F E. apply lookup_app_Some in E as [E|[Hge E]]; [by apply Hkeep|].
      assert (k = length fl) as -> by (apply list_lookup_singleton_Some in E; lia).
      rewrite Nat.sub_diag in E. simpl in E. simplify_eq. simpl. apply empty_file. fold inum. by rewrite Hget.
    + intros j k F G Hjk HF HG y Hy. apply lookup_app_Some in HF as [HF|[Hge HF]].
      * apply lookup_app_Some in HG as [HG|[Hge HG]].
        -- destruct (Hkeep j F HF) as [_ Ho1]. destruct (Hkeep k G HG) as [_ Ho2]. apply Ho1 in Hy.
           pose proof (bu_apart _ _ _ B j k F G Hjk HF HG y Hy) as Hout. pose proof (proj1 Hout) as Hyd.
           assert (y <> 0) as Hy0 by apply Hyd.
           apply outside_own; [done|apply data_blk_upd; [apply (vw_ok _ _ V)|done|done|done]|]. rewrite Ho2. by apply (outside_own s).
        -- apply list_lookup_singleton_Some in HG as [_ <-]. simpl. destruct (Hkeep j F HF) as [Hf _].
           pose proof (own_data _ _ _ _ (hf_map _ _ _ _ _ Hf) Hy) as Hyd. assert (y <> 0) as Hy0 by apply Hyd.
           apply outside_own; [done|done|apply own_nil].
      * apply list_lookup_singleton_Some in HF as [_ <-]. by apply own_nil in Hy.
    + rewrite total_app. change (total [_]) with 0. pose proof (bu_blocks _ _ _ B). cbn [put_img set_img set_freeinode freeblock]. lia.
    + cbn [upd_blk set_blk blk]. destruct (Z.eqb_spec 2 ib); [lia|]. apply (bu_log _ _ _ B).
Qed.

(** ** The sequence of files *)

(** Types and contents, without the chains of blocks. *)
Definition shape (fl : list mfile) : list (Z * list Z) := (fun F => (mf_type F, mf_data F)) <$> fl.
Definition sblocks (sh : list (Z * list Z)) : Z := foldr (fun F n => blocks_for (Z.of_nat (length F.2)) + n) 0 sh.

Lemma total_shape fl : total fl = sblocks (shape fl).
Proof. induction fl as [|F fl IH]; [done|]. unfold total in *. simpl. by rewrite IH. Qed.

Lemma length_shape fl : length (shape fl) = length fl.
Proof. apply length_fmap. Qed.

Lemma sblocks_insert sh : forall k F G, sh !! k = Some F ->
  sblocks (<[k := G]> sh) = sblocks sh - blocks_for (Z.of_nat (length F.2)) + blocks_for (Z.of_nat (length G.2)).
Proof.
  induction sh as [|H sh IH]; intros k F G E; [done|]. destruct k; simpl in *.
  - simplify_eq. lia.
  - rewrite (IH k F G E). lia.
Qed.

(** Some list of files of this shape is on the image. *)
Definition image (ms : mkst) (sh : list (Z * list Z)) : Prop := exists s fl, built ms s fl /\ shape fl = sh.

Lemma append_image ms sh k ty c p :
  image ms sh -> sh !! k = Some (ty, c) -> Forall (fun b => 0 <= b < 256) p ->
  nmeta + sblocks (<[k := (ty, c ++ p)]> sh) <= 4096 ->
  exists ms', iappend (Z.of_nat k + 1) p ms = Ret tt ms' /\ image ms' (<[k := (ty, c ++ p)]> sh).
Proof.
  intros (s & fl & B & <-) Hk Hp Htot. unfold shape in Hk. rewrite list_lookup_fmap_Some in Hk.
  destruct Hk as (F & E & HF). injection E as -> ->.
  destruct (append_built ms s fl k F p B HF Hp) as (ms' & s' & cs' & R & B').
  - intros cs. rewrite total_shape. unfold shape. by rewrite list_fmap_insert.
  - exists ms'. split; [done|]. eexists s', _. split; [exact B'|]. unfold shape. by rewrite list_fmap_insert.
Qed.

Lemma iappends_image l : forall ms sh k ty c,
  image ms sh -> sh !! k = Some (ty, c) -> Forall (fun b => 0 <= b < 256) (concat l) ->
  nmeta + sblocks (<[k := (ty, c ++ concat l)]> sh) <= 4096 ->
  exists ms', iappends (Z.of_nat k + 1) l ms = Ret tt ms' /\ image ms' (<[k := (ty, c ++ concat l)]> sh).
Proof.
  induction l as [|p l IH]; intros ms sh k ty c Him Hk Hb Htot; cbn [iappends concat].
  - exists ms. split; [done|]. simpl. rewrite app_nil_r. by rewrite list_insert_id.
  - simpl in Hb, Htot. apply Forall_app in Hb as [Hp Hb].
    pose proof (lookup_lt_Some _ _ _ Hk) as Hlt.
    destruct (append_image ms sh k ty c p Him Hk Hp) as (ms1 & R1 & Him1).
    { rewrite (sblocks_insert sh k (ty, c)) in Htot |- * by done. simpl in *.
      pose proof (blocks_for_mono (Z.of_nat (length (c ++ p))) (Z.of_nat (length (c ++ p ++ concat l)))) as M.
      rewrite !length_app in *. lia. }
    destruct (IH ms1 _ k ty (c ++ p) Him1) as (ms2 & R2 & Him2).
    { by rewrite list_lookup_insert_eq. } { done. }
    { rewrite list_insert_insert_eq, <- (assoc_L (++)). exact Htot. }
    exists ms2. rewrite list_insert_insert_eq, <- (assoc_L (++)) in Him2. split; [|done]. by mstep R1.
Qed.

Lemma ialloc_image ms sh ty :
  image ms sh -> Z.of_nat (length sh) < 199 -> ty = T_DIR \/ ty = T_FILE ->
  exists ms', ialloc ty ms = Ret (Z.of_nat (length sh) + 1) ms' /\ image ms' (sh ++ [(ty, [])]).
Proof.
  intros (s & fl & B & <-) Hlen Hty. rewrite length_shape in *.
  destruct (ialloc_built ms s fl ty B Hlen Hty) as (ms' & s' & R & B').
  exists ms'. split; [done|]. eexists s', _. split; [exact B'|]. unfold shape. by rewrite fmap_app.
Qed.

Lemma dirent_bytes name inum : Forall (fun b => 0 <= b < 256) name -> Forall (fun b => 0 <= b < 256) (mk_dirent name inum).
Proof.
  intros H. unfold mk_dirent. simpl. repeat constructor; try apply byte_of_range.
  unfold name_field. apply Forall_app. split; [|by apply Forall_replicate].
  apply Forall_forall. intros x Hx.
  assert (forall l n, Forall (fun b => 0 <= b < 256) l -> Forall (fun b => 0 <= b < 256) (cstr (at_list l) n)) as G.
  { clear. induction l as [|y l IH]; intros n Hl; [rewrite cstr_nil; constructor|].
    destruct n; [constructor|]. rewrite cstr_cons. apply Forall_cons in Hl as [Hy Hl].
    destruct (y =? 0); constructor; [done|by apply IH]. }
  exact (proj1 (Forall_forall _ _) (G name (Z.to_nat DIRSIZ) H) x Hx).
Qed.

Section Files.
Variable host : list Z -> option (list (list Z)).

Definition host_data (arg : list Z) : list Z := concat (default [] (host arg)).

(** An argument that [main] accepts. *)
Definition arg_ok (arg : list Z) : Prop :=
  slash ∉ arg /\ Forall (fun b => 0 <= b < 256) arg /\ is_Some (host arg) /\
  Forall (fun b => 0 <= b < 256) (host_data arg).

(** The entries of the root directory from inode [n] on, and the files. *)
Fixpoint entries (args : list (list Z)) (n : Z) : list Z :=
  match args with
  | [] => []
  | arg :: args' => mk_dirent (skip_underscore arg) n ++ entries args' (n + 1)
  end.
Definition files_of (args : list (list Z)) : list (Z * list Z) := (fun a => (T_FILE, host_data a)) <$> args.

Lemma skip_bytes arg : Forall (fun b => 0 <= b < 256) arg -> Forall (fun b => 0 <= b < 256) (skip_underscore arg).
Proof.
  intros H. unfold skip_underscore. destruct arg as [|x l]; [done|]. apply Forall_cons in H as [Hx Hl].
  repeat first [by constructor|done|match goal with |- context [match ?z with _ => _ end] => destruct z end].
Qed.

Lemma add_file_image ms root fls arg :
  image ms ((T_DIR, root) :: fls) -> arg_ok arg -> Z.of_nat (length fls) + 1 < 199 ->
  let n := Z.of_nat (length fls) + 2 in
  let root' := root ++ mk_dirent (skip_underscore arg) n in
  nmeta + sblocks ((T_DIR, root') :: fls ++ [(T_FILE, host_data arg)]) <= 4096 ->
  exists ms', add_file host 1 arg ms = Ret tt ms' /\
    image ms' ((T_DIR, root') :: fls ++ [(T_FILE, host_data arg)]).
Proof.
  intros Him (Hs & Hb & (l & Hl) & Hd) Hlen n root' Htot. unfold add_file. rewrite bool_decide_false, Hl by done.
  destruct (ialloc_image ms _ T_FILE Him) as (ms1 & R1 & I1); [simpl; lia|by right|].
  mstep R1. replace (Z.of_nat (length ((T_DIR, root) :: fls)) + 1) with n by (simpl; lia).
  rewrite xshort_small by lia.
  assert (host_data arg = concat l) as El by (unfold host_data; by rewrite Hl). rewrite El in *.
  cbn [app] in I1.
  assert (sblocks (fls ++ [(T_FILE, [])]) <= sblocks (fls ++ [(T_FILE, concat l)])) as M.
  { clear. induction fls as [|F fls IH]; simpl; [|lia]. pose proof (blocks_for_mono (Z.of_nat 0) (Z.of_nat (length (concat l)))). lia. }
  destruct (append_image ms1 _ 0 T_DIR root (mk_dirent (skip_underscore arg) n) I1) as (ms2 & R2 & I2).
  { done. } { by apply dirent_bytes, skip_bytes. } { simpl in Htot |- *. fold root'. lia. }
  cbn [insert list_insert] in I2. fold root' in I2. mstep R2.
  destruct (iappends_image l ms2 _ (S (length fls)) T_FILE [] I2) as (ms3 & R3 & I3).
  { simpl. by rewrite lookup_app_r, Nat.sub_diag by done. } { done. }
  { simpl. rewrite insert_app_r_alt, Nat.sub_diag by done. simpl in Htot |- *. lia. }
  replace (Z.of_nat (S (length fls)) + 1) with n in R3 by lia.
  exists ms3. split; [exact R3|]. simpl in I3. by rewrite insert_app_r_alt, Nat.sub_diag in I3 by done.
Qed.

Lemma sblocks_app l l' : sblocks (l ++ l') = sblocks l + sblocks l'.
Proof. induction l as [|F l IH]; simpl; [done|]. lia. Qed.

Lemma sblocks_nonneg l : 0 <= sblocks l.
Proof.
  induction l as [|F l IH]; simpl; [lia|]. pose proof (blocks_for_mono 0 (Z.of_nat (length F.2))).
  change (blocks_for 0) with 0 in *. lia.
Qed.

Lemma add_files_image args : forall ms root fls,
  image ms ((T_DIR, root) :: fls) -> Forall arg_ok args ->
  Z.of_nat (length fls) + Z.of_nat (length args) < 199 ->
  let sh := (T_DIR, root ++ entries args (Z.of_nat (length fls) + 2)) :: fls ++ files_of args in
  nmeta + sblocks sh <= 4096 ->
  exists ms', add_files host 1 args ms = Ret tt ms' /\ image ms' sh.
Proof.
  induction args as [|arg args IH]; intros ms root fls Him Hok Hlen sh Htot.
  - exists ms. split; [done|]. unfold sh. simpl. by rewrite !app_nil_r.
  - apply Forall_cons in Hok as [Ha Hok]. simpl in Hlen. set (n := Z.of_nat (length fls) + 2) in *.
    assert (sh = (T_DIR, (root ++ mk_dirent (skip_underscore arg) n) ++ entries args (n + 1)) ::
                 (fls ++ [(T_FILE, host_data arg)]) ++ files_of args) as Esh.
    { unfold sh. simpl. by rewrite <- !(assoc_L (++)). }
    destruct (add_file_image ms root fls arg Him Ha) as (ms1 & R1 & I1); [lia| |].
    { rewrite Esh in Htot. simpl in Htot |- *. fold n. rewrite sblocks_app in Htot.
      pose proof (sblocks_nonneg (files_of args)).
      pose proof (blocks_for_mono (Z.of_nat (length (root ++ mk_dirent (skip_underscore arg) n)))
        (Z.of_nat (length ((root ++ mk_dirent (skip_underscore arg) n) ++ entries args (n + 1))))) as M.
      rewrite (length_app (root ++ _)) in M at 1. lia. }
    fold n in I1. destruct (IH ms1 _ _ I1 Hok) as (ms2 & R2 & I2).
    { rewrite length_app. simpl. lia. }
    { rewrite length_app. simpl length. replace (Z.of_nat (length fls + 1) + 2) with (n + 1) by lia. by rewrite <- Esh. }
    exists ms2. split; [cbn [add_files]; by mstep R1|]. rewrite length_app in I2. simpl length in I2.
    replace (Z.of_nat (length fls + 1) + 2) with (n + 1) in I2 by lia. by rewrite Esh.
Qed.

(** ** The bit map *)

Lemma dbit_fill n : forall i, (n <= 4096)%nat -> 0 <= i < BPB -> dbit (balloc_fill n zero_block) i = (i <? Z.of_nat n).
Proof.
  assert (forall m, length (balloc_fill m zero_block) = Z.to_nat BSIZE) as Hl.
  { induction m as [|m IH]; [done|]. cbn [balloc_fill]. by rewrite length_put8. }
  induction n as [|n IH]; intros i Hn Hi.
  - destruct (Z.ltb_spec i (Z.of_nat 0)); [lia|]. change (balloc_fill 0 zero_block) with zero_block.
    unfold dbit, get8, zero_block. rewrite lookup_replicate_2 by dlia. apply Z.bits_0.
  - cbn [balloc_fill]. fold (set_bit (balloc_fill n zero_block) (Z.of_nat n)).
    rewrite dbit_set by (done || lia). rewrite IH by lia. range_cases; done.
Qed.

Lemma block_ok_fill n : block_ok (balloc_fill n zero_block).
Proof. induction n as [|n IH]; [apply block_ok_zero|]. cbn [balloc_fill]. by apply block_ok_put8. Qed.

(** A bit map whose first block has the bits below [n]. *)
Lemma used_fill f n x :
  f 58 = balloc_fill (Z.to_nat n) zero_block -> (forall k, 59 <= k <= 121 -> f k = zero_block) ->
  0 <= n < 4096 -> 0 <= x < FSSIZE -> used mk_sb f x = (x <? n).
Proof.
  intros H0 H1 Hn Hx. unfold used, BBLOCK. rewrite mk_sb_eq. cbn [sb_bmapstart]. rewrite u32_small by dlia.
  destruct (decide (x / BPB = 0)) as [E|E].
  - rewrite E. change (0 + 58) with 58. rewrite H0, dbit_fill by dlia. replace (x mod BPB) with x by dlia. by rewrite Z2Nat.id by lia.
  - rewrite H1 by dlia. unfold dbit, get8, zero_block. rewrite lookup_replicate_2 by dlia. rewrite Z.bits_0. symmetry. apply Z.ltb_ge. dlia.
Qed.

(** The kernel's view of an image, the bit map included. *)
Definition kernel_fs (f : Z -> block) : fs :=
  {| blk := f; nblk := FSSIZE; fsb := sb_decode (f 1); inodes := []; fpid := 0; cwd := 0%nat;
     flog := {| tx_blocks := []; tx_size := sb_nlog (sb_decode (f 1)); tx_open := 0 |} |}.

Lemma sb_bytes_decode : sb_decode (sb_bytes mk_sb) = mk_sb.
Proof. vm_compute. reflexivity. Qed.

Lemma block_ok_sb : block_ok (sb_bytes mk_sb).
Proof. unfold sb_bytes. repeat apply block_ok_put32. apply block_ok_zero. Qed.

(** An image with this bit map is related to the state of mkfs. *)
Lemma vw_intro ms f :
  sb_decode (f 1) = mk_sb -> (forall n, block_ok (f n)) ->
  f 58 = balloc_fill (Z.to_nat (freeblock ms)) zero_block -> (forall k, 59 <= k <= 121 -> f k = zero_block) ->
  (forall n, ~ is_bmap mk_sb n -> f n = img ms n) ->
  nmeta <= freeblock ms < 4096 -> msb ms = mk_sb -> nsect ms = FSSIZE ->
  (forall n, freeblock ms <= n < FSSIZE -> img ms n = zero_block) ->
  (forall n, is_bmap mk_sb n -> img ms n = zero_block) ->
  vw ms (kernel_fs f).
Proof.
  intros H1 Hok Hb0 Hb Hf Hfb Hsb Hns Hfr Hbz. rewrite nmeta_eq in Hfb.
  assert (forall x, 0 <= x < FSSIZE -> used mk_sb f x = (x <? freeblock ms)) as Hu by (intros x Hx; apply used_fill; done || lia).
  assert (fsb (kernel_fs f) = mk_sb) as Esb by exact H1.
  split; try done; [|rewrite nmeta_eq; lia]. split; [split|]; rewrite ?Esb; try done.
  - unfold lhn. simpl. lia.
  - intros x Hx. pose proof (proj1 (is_bmap_mk x) Hx). cbn [kernel_fs blk]. rewrite Hu by lia. apply Z.ltb_lt. lia.
  - cbn [kernel_fs blk]. rewrite Hu by lia. apply Z.ltb_lt. lia.
  - cbn [kernel_fs blk]. rewrite Hu by lia. apply Z.ltb_lt. lia.
Qed.

(** ** The start *)

Lemma wzeroes_ok n : forall ms, Z.of_nat n <= FSSIZE -> 0 <= nsect ms -> (forall x, img ms x = zero_block) ->
  exists ms', wzeroes n ms = Ret tt ms' /\ (forall x, img ms' x = zero_block) /\
    nsect ms' = Z.max (nsect ms) (Z.of_nat n) /\ msb ms' = msb ms /\ freeinode ms' = freeinode ms /\ freeblock ms' = freeblock ms.
Proof.
  induction n as [|n IH]; intros ms Hn Hs Hz; cbn [wzeroes].
  - exists ms. split_and!; try done. simpl. lia.
  - destruct (IH ms) as (ms1 & R & Z1 & N1 & E1 & E2 & E3); [lia|done|done|]. mstep R.
    eexists. split; [unfold wsect, modify; reflexivity|]. cbn [set_img img nsect msb freeinode freeblock].
    rewrite sector_small by lia. split_and!; try done; [|lia].
    intros x. destruct (x =? Z.of_nat n); [done|apply Z1].
Qed.

Lemma start_image :
  let ms0 := set_freeblock nmeta (set_msb mk_sb mkst0) in
  exists ms1, wzeroes (Z.to_nat FSSIZE) ms0 = Ret tt ms1 /\
    exists ms2, wsect 1 (sb_bytes mk_sb) ms1 = Ret tt ms2 /\ image ms2 [].
Proof.
  intros ms0. destruct (wzeroes_ok (Z.to_nat FSSIZE) ms0) as (ms1 & R & Z1 & N1 & E1 & E2 & E3);
    [rewrite Z2Nat.id; lia|simpl; lia|done|].
  rewrite Z2Nat.id in N1 by lia. exists ms1. split; [exact R|]. clear R.
  exists (put_img 1 (sb_bytes mk_sb) ms1). split; [apply wsect_run; [lia|done]|].
  set (f := fun n => if n =? 58 then balloc_fill (Z.to_nat nmeta) zero_block
                     else img (put_img 1 (sb_bytes mk_sb) ms1) n).
  exists (kernel_fs f), []. split; [|done]. split; try done.
  - apply vw_intro; try done.
    + intros n. unfold f. destruct (n =? 58); [apply block_ok_fill|]. cbn [put_img set_img img].
      destruct (n =? 1); [apply block_ok_sb|rewrite Z1; apply block_ok_zero].
    + unfold f. rewrite Z.eqb_refl. cbn [put_img set_img freeblock]. rewrite E3. unfold ms0. cbn [set_freeblock freeblock].
      reflexivity.
    + intros k Hk. unfold f. cbn [put_img set_img img]. destruct (Z.eqb_spec k 58); [lia|].
      destruct (Z.eqb_spec k 1); [lia|apply Z1].
    + intros n Hn. unfold f. destruct (Z.eqb_spec n 58) as [->|]; [|done]. destruct Hn. apply is_bmap_mk. lia.
    + cbn [put_img set_img freeblock]. rewrite E3, nmeta_eq. change (freeblock ms0) with 123. lia.
    + intros n Hn. cbn [put_img set_img img freeblock] in *. rewrite E3 in Hn. change (freeblock ms0) with 123 in Hn.
      destruct (Z.eqb_spec n 1); [lia|apply Z1].
    + intros n Hn%(proj1 (is_bmap_mk n)). cbn [put_img set_img img]. destruct (Z.eqb_spec n 1); [lia|apply Z1].
  - cbn [put_img set_img freeblock]. rewrite E3. change (total []) with 0. change (freeblock ms0) with nmeta. lia.
  - cbn [kernel_fs blk]. unfold f. cbn [Z.eqb put_img set_img img]. apply Z1.
Qed.

(** ** What the kernel finds on the image *)

(** Entry [ip] of the inode cache holds inode [inum] as [ilock] reads it. *)
Definition cached (s : fs) (ip : nat) (inum : Z) : Prop :=
  (ip < length (inodes s))%nat /\ i_dev (ino s ip) = 1 /\ i_inum (ino s ip) = inum /\
  dinode_get (blk s (IBLOCK inum (fsb s))) (ino s ip) = ino s ip.

(** The kernel with this disk, at a moment when the log keeps at most 28 buffers. *)
Definition same_disk (s s0 : fs) : Prop :=
  blk s0 = blk s /\ nblk s0 = nblk s /\ fsb s0 = fsb s /\ (lhn s0 <= 28)%nat.

Lemma has_file_cached s inum ty c cs s0 ip :
  fs_ok s -> fsb s = mk_sb -> has_file s inum ty c cs -> ty = T_DIR \/ ty = T_FILE ->
  Z.of_nat (length c) <= 2097152 -> same_disk s s0 -> cached s0 ip inum ->
  file_ok s0 ip cs /\ content s0 ip cs = c /\ i_type (ino s0 ip) = ty /\ i_nlink (ino s0 ip) = 1 /\
  i_size (ino s0 ip) = Z.of_nat (length c).
Proof.
  intros Hok Hsb [H1 [H2 H2'] H3 H4 H5 H6 H7 H8 H9] Hty Hlen (D1 & D2 & D3 & D4) (C1 & C2 & C3 & C4).
  rewrite D1, D3, Hsb in C4. set (x := ino s0 ip) in *.
  assert (i_type x = di_type (din_of (blk s) inum) /\ i_nlink x = di_nlink (din_of (blk s) inum) /\
    i_size x = di_size (din_of (blk s) inum) /\ i_addrs x = di_addrs (din_of (blk s) inum)) as (T1 & T2 & T3 & T4).
  { rewrite <- C4. unfold dinode_get. rewrite C3. done. }
  rewrite H1 in T1. rewrite H3 in T2. rewrite H4 in T3.
  assert (forall n, addr_of s0 cs n = addr_of s cs n) as Ea by (intros n; unfold addr_of, ent; by rewrite D1).
  assert (file_ok s0 ip cs) as Hfo.
  { split; fold x.
    - by apply (fs_ok_inodes s).
    - done.
    - done.
    - rewrite T1. by destruct Hty as [->| ->].
    - rewrite T4. apply length_get_addrs.
    - unfold i_addr. rewrite T4. by apply (file_wf_inodes s).
    - lia.
    - rewrite T3. intros y Hy. rewrite Ea. apply (pk_map _ _ _ H6); [dlia|]. unfold nblk_of. dlia. }
  split_and!; try done. unfold content. fold x. rewrite T3. apply list_eq. intros i. rewrite list_lookup_fmap.
  destruct (decide (i < length c)%nat) as [Hi|Hi].
  - rewrite lookup_seqZ_lt by lia. change (Some (fbyte s0 cs (0 + Z.of_nat i)) = c !! i).
    replace (fbyte s0 cs (0 + Z.of_nat i)) with (fbyte s cs (0 + Z.of_nat i)) by (unfold fbyte; by rewrite Ea, D1).
    rewrite H7 by lia. unfold get8. replace (Z.to_nat (0 + Z.of_nat i)) with i by lia.
    by destruct (lookup_lt_is_Some_2 c i Hi) as [y Ey]; rewrite Ey.
  - rewrite lookup_seqZ_ge by lia. symmetry. apply lookup_ge_None_2. lia.
Qed.

(** The size of the root directory, rounded. *)
Definition pad (c : list Z) : list Z :=
  c ++ replicate (Z.to_nat ((Z.of_nat (length c) / BSIZE + 1) * BSIZE - Z.of_nat (length c))) 0.

Lemma length_pad c : Z.of_nat (length (pad c)) = (Z.of_nat (length c) / BSIZE + 1) * BSIZE.
Proof. unfold pad. rewrite length_app, length_replicate. dlia. Qed.


Lemma get8_pad c x : 0 <= x -> get8 (pad c) x = get8 c x.
Proof.
  intros Hx. unfold get8, pad. destruct (decide (Z.to_nat x < length c)%nat).
  - by rewrite lookup_app_l by lia.
  - rewrite lookup_app_r by lia. rewrite (lookup_ge_None_2 c) by lia.
    destruct (replicate _ 0 !! _) eqn:E; [|done]. by apply lookup_replicate in E as [-> _].
Qed.

Lemma has_file_pad s s' inum ty c cs ib d :
  fs_ok s -> has_file s inum ty c cs -> Z.of_nat (length c) mod BSIZE <> 0 ->
  s' = upd_blk ib d s -> data_blk s ib -> block_ok d -> ib < nmeta ->
  din_of (blk s') inum = set_di_size (Z.of_nat (length (pad c))) (din_of (blk s) inum) ->
  has_file s' inum ty (pad c) cs.
Proof.
  intros Hok [H1 H2 H3 H4 H5 H6 H7 H8 H9] Hm -> Hib Hd Hlt E.
  destruct (file_frame s (upd_blk ib d s) _ cs H5) as [Hf Ha].
  { intros x Hx%H8. cbn [upd_blk set_blk blk]. destruct (Z.eqb_spec x ib); [lia|done]. }
  { intros x Hx. by apply data_blk_upd. }
  split; rewrite ?E; try done.
  - destruct H6 as [P1 P2].
    assert (nblk_of (Z.of_nat (length (pad c))) = nblk_of (Z.of_nat (length c))) as En
      by (rewrite length_pad; unfold nblk_of; dlia).
    split; rewrite En; [|done]. intros k Hk. rewrite Ha by done. by apply P1.
  - intros x Hx. rewrite get8_pad, <- H7 by done. unfold fbyte. assert (0 <= x / BSIZE) by dlia. rewrite Ha by done.
    destruct (Z.eqb_spec (addr_of s cs (x / BSIZE)) 0) as [|Hne]; [done|]. f_equal. cbn [upd_blk set_blk blk].
    destruct (Z.eqb_spec (addr_of s cs (x / BSIZE)) ib) as [Ei|]; [|done].
    assert (own s cs ib) as Ho%H8 by (right; split; [congruence|by exists (x / BSIZE)]). lia.
  - intros x Hx%(own_frame s _ cs x Ha). by apply H8.
  - unfold pad. apply Forall_app. split; [done|by apply Forall_replicate].
Qed.

(** The rest of [main] after the files. *)
Definition finish : M mkst unit :=
  let* din := rinode 1 in
  let off := xint (di_size din) in
  let off := u32 ((off / BSIZE + 1) * BSIZE) in
  winode 1 (set_di_size (xint off) din) ;;;
  let* s := get in
  balloc (freeblock s).

Lemma main_finish_ok ms s fl F :
  built ms s fl -> fl !! O = Some F -> Z.of_nat (length (mf_data F)) mod BSIZE <> 0 ->
  Z.of_nat (length (mf_data F)) <= 2097152 -> freeblock ms < 4096 ->
  exists ms', finish ms = Ret tt ms' /\ let s' := kernel_fs (img ms') in
    fs_ok s' /\ fsb s' = mk_sb /\ freeblock ms' < 4096 /\ blk s' 2 = zero_block /\
    (forall x, 0 <= x < FSSIZE -> used mk_sb (blk s') x = (x <? freeblock ms')) /\
    has_file s' 1 (mf_type F) (pad (mf_data F)) (mf_chain F) /\
    (forall k G, fl !! S k = Some G -> has_file s' (Z.of_nat k + 2) (mf_type G) (mf_data G) (mf_chain G)).
Proof.
  intros B HF Hm Hlen Hfb. pose proof (bu_vw _ _ _ B) as V. pose proof (vw_ok _ _ V) as Hok.
  pose proof (bu_file _ _ _ B 0 F HF) as H1. change (Z.of_nat 0 + 1) with 1 in H1.
  set (c := mf_data F) in *. set (din := din_of (blk s) 1).
  pose proof (hf_size _ _ _ _ _ H1) as Hsz. fold din in Hsz.
  pose proof (length_pad c) as Hpad.
  set (x := set_di_size (Z.of_nat (length (pad c))) din).
  pose proof (din_of_ok s 1 Hok) as Hdin. fold din in Hdin.
  assert (din_ok x) as Hx.
  { destruct Hdin as [X1 X2 X3 X4 X5 X6 X7 X8]. split; try done. cbn. rewrite Hpad. dlia. }
  destruct (winode_sim ms s 1 x V ltac:(lia) Hx) as (R & V2 & Hd & Hget & Hoth).
  set (ib := IBLOCK 1 mk_sb) in *. set (d := din_put x (blk s ib) (doff 1)) in *.
  assert (ib = 32) as Eib by reflexivity.
  pose proof (ib_data ms s 1 V ltac:(lia)) as Hib. fold ib in Hib.
  set (ms2 := put_img ib d ms) in *. set (s2 := upd_blk ib d s) in *.
  pose proof (vw_fb _ _ V) as Hfr. rewrite nmeta_eq in Hfr.
  set (ms3 := put_img 58 (balloc_fill (Z.to_nat (freeblock ms)) zero_block) ms2).
  assert (vw ms2 (kernel_fs (img ms3))) as V3.
  { assert (forall n, ~ is_bmap mk_sb n -> img ms3 n = blk s2 n) as Hi.
    { intros n Hn. rewrite (vw_blk _ _ V2 n Hn). cbn [ms3 put_img set_img img].
      destruct (Z.eqb_spec n 58) as [->|]; [|done]. destruct Hn. apply is_bmap_mk. lia. }
    apply vw_intro.
    - rewrite Hi by (rewrite is_bmap_mk; lia). rewrite <- (vw_fsb _ _ V2).
      apply (wf_sb _ (fo_wf _ (vw_ok _ _ V2))).
    - intros n. cbn [ms3 put_img set_img img]. destruct (n =? 58); [apply block_ok_fill|].
      destruct (decide (is_bmap mk_sb n)) as [Hn|Hn].
      + rewrite (vw_bmap _ _ V2 n Hn). apply block_ok_zero.
      + rewrite <- (vw_blk _ _ V2 n Hn). apply fs_ok_blk, (vw_ok _ _ V2).
    - reflexivity.
    - intros k Hk. cbn [ms3 put_img set_img img]. destruct (Z.eqb_spec k 58); [lia|].
      apply (vw_bmap _ _ V2), is_bmap_mk. lia.
    - intros n Hn. rewrite (Hi n Hn). by apply (vw_blk _ _ V2).
    - rewrite nmeta_eq. cbn. lia.
    - apply (vw_msb _ _ V2).
    - apply (vw_nsect _ _ V2).
    - apply (vw_fresh _ _ V2).
    - apply (vw_bmap _ _ V2). }
  assert (forall y, ~ is_bmap mk_sb y -> blk (kernel_fs (img ms3)) y = blk s2 y) as Hsame.
  { intros y Hy. rewrite (vw_blk _ _ V3 y Hy). symmetry. by apply (vw_blk _ _ V2). }
  assert (forall y, data_blk s2 y -> data_blk (kernel_fs (img ms3)) y) as Hmono.
  { intros y Hy. apply (vw_data _ _ _ V3). by apply (vw_data _ _ _ V2). }
  assert (forall i, 0 <= i < 208 -> din_of (blk (kernel_fs (img ms3))) i = din_of (blk s2) i) as Hdi.
  { intros i Hi. unfold din_of. rewrite Hsame; [done|]. destruct (IBLOCK_mk i Hi) as [-> Hr]. rewrite is_bmap_mk. lia. }
  assert (forall inum ty b cs, 0 <= inum < 208 -> has_file s2 inum ty b cs -> has_file (kernel_fs (img ms3)) inum ty b cs) as Hfin.
  { intros inum ty b cs Hi Hf. apply (has_file_frame s2); [done| |done|by apply Hdi].
    intros y Hy. apply Hsame. pose proof (own_data _ _ _ _ (hf_map _ _ _ _ _ Hf) Hy) as Hyd.
    by apply (vw_data _ _ _ V2) in Hyd as [_ ?]. }
  exists ms3. cbv zeta. split_and!.
  - unfold finish. mstep (rinode_run ms s 1 V ltac:(lia)). fold din. rewrite Hsz, (xint_small (Z.of_nat (length c))) by lia.
    rewrite (u32_small ((Z.of_nat (length c) / BSIZE + 1) * BSIZE)) by dlia. rewrite <- Hpad.
    rewrite xint_small by (rewrite Hpad; dlia). fold x. mstep R. unfold bind, get. unfold balloc, bind, get.
    rewrite (proj2 (Z.ltb_lt (freeblock ms2) (BSIZE * 8))) by (change (freeblock ms2) with (freeblock ms); lia). cbn [negb].
    rewrite (vw_msb _ _ V2). rewrite mk_sb_eq at 1. cbn [sb_bmapstart]. by rewrite wsect_run by (apply (vw_nsect _ _ V2) || lia).
  - apply (vw_ok _ _ V3).
  - apply (vw_fsb _ _ V3).
  - exact Hfb.
  - rewrite Hsame by (rewrite is_bmap_mk; lia). cbn [s2 upd_blk set_blk blk]. rewrite Eib. apply (bu_log _ _ _ B).
  - apply (vw_used _ _ V3).
  - apply Hfin; [lia|]. apply (has_file_pad s s2 1 (mf_type F) c (mf_chain F) ib d); try done.
  - intros k G HG. pose proof (lookup_lt_Some _ _ _ HG). pose proof (bu_len _ _ _ B).
    pose proof (bu_file _ _ _ B (S k) G HG) as HfG. replace (Z.of_nat (S k) + 1) with (Z.of_nat k + 2) in HfG by lia.
    apply Hfin; [lia|]. apply (has_file_frame s); [done| | |apply Hoth; lia].
    + intros y Hy. pose proof (hf_own _ _ _ _ _ HfG y Hy) as Hge. rewrite nmeta_eq in Hge.
      cbn [s2 upd_blk set_blk blk]. destruct (Z.eqb_spec y ib); [lia|done].
    + intros y Hy. by apply data_blk_upd.
Qed.

(** ** The whole program *)

(** The root directory: its entries, and zeroes up to the next block. *)
Definition root_data (args : list (list Z)) : list Z :=
  mk_dirent [46] 1 ++ mk_dirent [46; 46] 1 ++ entries args 2.

Lemma length_entries args : forall n, length (entries args n) = (16 * length args)%nat.
Proof. induction args as [|a args IH]; intros n; [done|]. cbn [entries]. rewrite length_app, length_mk_dirent, IH. simpl. lia. Qed.

Lemma length_root_data args : Z.of_nat (length (root_data args)) = 16 * (Z.of_nat (length args) + 2).
Proof. unfold root_data. rewrite !length_app, !length_mk_dirent, length_entries. lia. Qed.

(** The arguments fit: inodes, blocks (the bit map mkfs writes has one block),
    and the root directory does not fill its last block exactly. *)
Definition fits (args : list (list Z)) : Prop :=
  Z.of_nat (length args) < 199 /\ (Z.of_nat (length args) + 2) mod 32 <> 0 /\
  nmeta + blocks_for (16 * (Z.of_nat (length args) + 2)) + sblocks (files_of args) < 4096.

Lemma main_files args :
  Forall arg_ok args -> fits args ->
  exists ms1, main host args mkst0 = finish ms1 /\ image ms1 ((T_DIR, root_data args) :: files_of args).
Proof.
  intros Hok (Hlen & _ & Hfit). rewrite <- length_root_data in Hfit.
  destruct start_image as (ms1 & R1 & ms2 & R2 & I2).
  destruct (ialloc_image ms2 [] T_DIR I2) as (ms3 & R3 & I3); [done|by left|].
  cbn [app length] in *. change (Z.of_nat 0 + 1) with 1 in R3.
  assert (forall l, (exists l', root_data args = l ++ l') ->
    nmeta + sblocks [(T_DIR, l)] <= 4096) as Hroot.
  { intros l (l' & E). rewrite E, length_app in Hfit. simpl.
    pose proof (blocks_for_mono (Z.of_nat (length l)) (Z.of_nat (length l + length l'))).
    pose proof (sblocks_nonneg (files_of args)). lia. }
  destruct (append_image ms3 _ 0 T_DIR [] (mk_dirent [46] 1) I3) as (ms4 & R4 & I4).
  { done. } { by apply dirent_bytes; repeat constructor. } { apply Hroot. by eexists. }
  destruct (append_image ms4 _ 0 T_DIR (mk_dirent [46] 1) (mk_dirent [46; 46] 1) I4) as (ms5 & R5 & I5).
  { done. } { by apply dirent_bytes; repeat constructor. }
  { apply Hroot. unfold root_data. eexists. by rewrite <- (assoc_L (++)). }
  cbn [insert list_insert app] in R4, R5, I5.
  change (Z.of_nat 0 + 1) with 1 in *.
  destruct (add_files_image args ms5 _ [] I5 Hok) as (ms6 & R6 & I6).
  { simpl. lia. }
  { change (Z.of_nat (length []) + 2) with 2. rewrite <- (assoc_L (++)). fold (root_data args).
    change ([] ++ files_of args) with (files_of args). cbn [sblocks foldr snd]. fold (sblocks (files_of args)). lia. }
  change (Z.of_nat (length []) + 2) with 2 in I6. rewrite <- (assoc_L (++)) in I6.
  exists ms6. split; [|exact I6].
  unfold main. unfold bind at 1, modify at 1. unfold bind at 1, modify at 1.
  mstep R1. mstep R2. mstep R3. change (negb (1 =? ROOTINO)) with false. cbv iota.
  rewrite xshort_small by lia. mstep R4. mstep R5. mstep R6. reflexivity.
Qed.

Lemma shape_file fl k ty c : shape fl !! k = Some (ty, c) -> exists F, fl !! k = Some F /\ mf_type F = ty /\ mf_data F = c.
Proof. unfold shape. rewrite list_lookup_fmap_Some. intros (F & E & HF). injection E as -> ->. by exists F. Qed.

(** What mkfs leaves, with the chains of blocks. *)
Lemma main_built args :
  Forall arg_ok args -> fits args ->
  exists ms, main host args mkst0 = Ret tt ms /\ let s := kernel_fs (img ms) in
    fs_ok s /\ fsb s = mk_sb /\ freeblock ms < 4096 /\ blk s 2 = zero_block /\
    (forall x, 0 <= x < FSSIZE -> used mk_sb (blk s) x = (x <? freeblock ms)) /\
    (exists cs, has_file s 1 T_DIR (pad (root_data args)) cs) /\
    (forall k arg, args !! k = Some arg -> exists cs, has_file s (Z.of_nat k + 2) T_FILE (host_data arg) cs).
Proof.
  intros Hok Hf. destruct (main_files args Hok Hf) as (ms1 & R1 & s1 & fl & B & Esh).
  destruct Hf as (Hlen & Hmod & Hfit). rewrite <- length_root_data in Hfit.
  rewrite R1. clear R1.
  destruct (shape_file fl 0 T_DIR (root_data args)) as (F & HF & Ety & Edat); [by rewrite Esh|].
  pose proof (length_root_data args) as El.
  destruct (main_finish_ok ms1 s1 fl F B HF) as (ms & R & K1 & K2 & K3 & K4 & K5 & K6 & K7).
  - rewrite Edat, El. clear -Hmod. dlia.
  - rewrite Edat, El. lia.
  - pose proof (bu_blocks _ _ _ B) as Hb. rewrite total_shape, Esh in Hb. cbn [sblocks foldr snd] in Hb.
    fold (sblocks (files_of args)) in Hb. lia.
  - exists ms. cbv zeta. rewrite Ety, Edat in K6. split_and!; try done; [by eexists|].
    intros k arg Hk. destruct (shape_file fl (S k) T_FILE (host_data arg)) as (G & HG & Ety' & Edat').
    { rewrite Esh. change (files_of args !! k = Some (T_FILE, host_data arg)). unfold files_of. by rewrite list_lookup_fmap, Hk. }
    exists (mf_chain G). pose proof (K7 k G HG) as H. by rewrite Ety', Edat' in H.
Qed.

Lemma data_bound args k arg : fits args -> args !! k = Some arg -> Z.of_nat (length (host_data arg)) <= 2097152.
Proof.
  intros (_ & _ & Hfit) Hk. rewrite nmeta_eq in Hfit.
  assert (blocks_for (Z.of_nat (length (host_data arg))) <= sblocks (files_of args)) as Hle.
  { unfold files_of. rewrite <- (take_drop_middle args k arg Hk), fmap_app, sblocks_app. cbn [fmap list_fmap sblocks foldr snd].
    match goal with |- _ <= sblocks ?a + (_ + foldr _ _ ?b) => pose proof (sblocks_nonneg a); pose proof (sblocks_nonneg b) end.
    unfold sblocks in *. lia. }
  pose proof (blocks_for_mono 0 (16 * (Z.of_nat (length args) + 2)) ltac:(lia)) as H0. change (blocks_for 0) with 0 in H0.
  unfold blocks_for at 1, nblk_of in Hle. clear -Hle Hfit H0. revert Hle Hfit.
  generalize (sblocks (files_of args)), (Z.of_nat (length (host_data arg))). intros a b. dlia.
Qed.

Lemma root_bound args : fits args -> Z.of_nat (length (pad (root_data args))) <= 2097152.
Proof. intros (Hlen & _). rewrite length_pad, length_root_data. dlia. Qed.

(** ** Names *)

Lemma slice_next (d l : list Z) k : length d = 16%nat -> 0 <= k -> slice (d ++ l) (16 * (k + 1)) 16 = slice l (16 * k) 16.
Proof. intros Hd Hk. unfold slice. rewrite drop_app_ge by lia. rewrite Hd. do 2 f_equal. lia. Qed.

Lemma slice_first (d l : list Z) : length d = 16%nat -> slice (d ++ l) 0 16 = d.
Proof. intros Hd. unfold slice. change (Z.to_nat 0) with 0%nat. rewrite drop_0. apply take_app_length'. by rewrite Hd. Qed.

Lemma slice_entries args : forall n k arg l, args !! k = Some arg ->
  slice (entries args n ++ l) (16 * Z.of_nat k) 16 = mk_dirent (skip_underscore arg) (n + Z.of_nat k).
Proof.
  induction args as [|a args IH]; intros n k arg l Hk; [done|]. cbn [entries]. rewrite <- (assoc_L (++)).
  destruct k as [|k]; simpl in Hk.
  - simplify_eq. change (16 * Z.of_nat 0) with 0. rewrite slice_first by apply length_mk_dirent. by rewrite Z.add_0_r.
  - replace (16 * Z.of_nat (S k)) with (16 * (Z.of_nat k + 1)) by lia.
    rewrite slice_next by (apply length_mk_dirent || lia). rewrite IH with (arg := arg) by done. f_equal. lia.
Qed.

(** The name and inode number of entry [j] of the root directory. *)
Definition root_entry (args : list (list Z)) (j : nat) : option (list Z * Z) :=
  match j with
  | O => Some ([46], 1)
  | S O => Some ([46; 46], 1)
  | S (S k) => (fun a => (skip_underscore a, Z.of_nat k + 2)) <$> args !! k
  end.

Lemma slice_root args j name inum : root_entry args j = Some (name, inum) ->
  slice (pad (root_data args)) (16 * Z.of_nat j) 16 = mk_dirent name inum.
Proof.
  intros E. unfold pad, root_data. rewrite <- !(assoc_L (++)). destruct j as [|[|k]]; simpl in E.
  - simplify_eq. by rewrite slice_first.
  - simplify_eq. change (16 * Z.of_nat 1) with (16 * (0 + 1)). rewrite slice_next by done. by rewrite slice_first.
  - destruct (args !! k) as [a|] eqn:Hk; simplify_eq E. intros <- <-.
    replace (16 * Z.of_nat (S (S k))) with (16 * ((Z.of_nat k + 1) + 1)) by lia.
    rewrite !slice_next by (done || lia). rewrite slice_entries with (arg := a) by done. f_equal. lia.
Qed.

Lemma root_entry_lookup args c j name inum : root_entry args j = Some (name, inum) -> 1 <= inum < 65536 ->
  c = pad (root_data args) -> forall nm, entry_is c nm (Z.of_nat j) <-> dname nm = dname name.
Proof.
  intros E Hi -> nm. unfold entry_is. rewrite (slice_root args j name inum E), de_name_mk, dname_field, de_inum_mk by lia.
  split; [tauto|]. split; [lia|done].
Qed.

Lemma root_entry_inum args j name inum : fits args -> root_entry args j = Some (name, inum) -> 1 <= inum < 65536.
Proof.
  intros (Hlen & _) E. destruct j as [|[|k]]; simpl in E; [simplify_eq; lia|simplify_eq; lia|].
  destruct (args !! k) as [a|] eqn:Hk; simplify_eq E. intros _ <-. apply lookup_lt_Some in Hk. lia.
Qed.

Lemma slice_zero m o : slice (replicate m 0) o 16 = replicate (Nat.min 16 (m - Z.to_nat o)) 0.
Proof. unfold slice. rewrite drop_replicate, take_replicate. done. Qed.

(** Behind the entries there are only free ones. *)
Lemma root_entry_none args j nm : root_entry args j = None -> ~ entry_is (pad (root_data args)) nm (Z.of_nat j).
Proof.
  intros E [Hi _]. apply Hi. destruct j as [|[|k]]; simpl in E; try done.
  assert (length args <= k)%nat as Hk by (apply lookup_ge_None; by destruct (args !! k)).
  unfold pad. pose proof (length_root_data args) as El. unfold slice. rewrite drop_app_ge by lia.
  fold (slice (replicate (Z.to_nat ((Z.of_nat (length (root_data args)) / BSIZE + 1) * BSIZE - Z.of_nat (length (root_data args)))) 0)
          (Z.of_nat (Z.to_nat (16 * Z.of_nat (S (S k))) - length (root_data args))) 16).
  unfold slice. rewrite drop_replicate, take_replicate. unfold de_inum, get16, get8.
  assert (forall m i, default 0 (replicate m 0 !! i) = 0) as Hr.
  { intros m i. destruct (replicate m 0 !! i) eqn:El'; [|done]. by apply lookup_replicate in El' as [-> _]. }
  by rewrite !Hr.
Qed.

(** C12. mkfs and the kernel agree on the format. For arguments that fit, [main]
    returns, and on the image it leaves the kernel finds: a well-formed file
    system with exactly the blocks below [freeblock] in use, an empty log, and
    for each file of the host an inode of type T_FILE with one link whose
    contents, read with [readi], are the bytes of the file. *)
Theorem mkfs_image devr args :
  Forall arg_ok args -> fits args ->
  exists ms, main host args mkst0 = Ret tt ms /\ let s := kernel_fs (img ms) in
    fs_ok s /\ disk_ok 2 30 FSSIZE (img ms) /\ hdr_list 2 (img ms) = [] /\
    (forall x, 0 <= x < FSSIZE -> used (fsb s) (blk s) x = (x <? freeblock ms)) /\
    forall k arg s0 ip, args !! k = Some arg -> same_disk s s0 -> cached s0 ip (Z.of_nat k + 2) ->
      let n := Z.of_nat (length (host_data arg)) in
      i_type (ino s0 ip) = T_FILE /\ i_nlink (ino s0 ip) = 1 /\ i_size (ino s0 ip) = n /\
      readi devr ip 0 n s0 = Ret (n, host_data arg) s0.
Proof.
  intros Hok Hf. destruct (main_built args Hok Hf) as (ms & R & K1 & K2 & K3 & K4 & K5 & _ & K7).
  exists ms. split; [exact R|]. clear R. cbv zeta.
  assert (hdr_list 2 (img ms) = []) as Hh by (apply hdr_list_zero; change (img ms 2) with (blk (kernel_fs (img ms)) 2); by rewrite K4).
  split; [done|]. split; [|split; [done|split; [by rewrite K2|]]].
  - assert (sb_decode (img ms 1) = mk_sb) as Esb by exact K2. split; rewrite ?Hh, ?Esb; try done.
    + intros n. apply (fs_ok_blk _ n K1).
    + apply Forall_nil_2.
    + by intros ?%elem_of_nil.
  - intros k arg s0 ip Hk Hs Hc. destruct (K7 k arg Hk) as [cs HF]. pose proof (data_bound args k arg Hf Hk) as Hb.
    destruct (has_file_cached _ _ _ _ _ s0 ip K1 K2 HF) as (F1 & F2 & F3 & F4 & F5); [by right|done|done|done|].
    split_and!; try done. rewrite (readi_ok devr s0 ip cs) by (done || lia). rewrite F5, F2.
    destruct (Z.ltb_spec (Z.of_nat (length (host_data arg))) 0); [lia|].
    rewrite Z.min_l by lia. f_equal. f_equal. unfold slice. rewrite drop_0, Nat2Z.id. by apply firstn_all.
Qed.

(** Path lookup works on the image: in the root directory that mkfs leaves,
    [dirlookup] finds each name (cut to DIRSIZ bytes and without the [_] of the
    binaries) at its first entry with the inode of its file, [.] and [..] with
    the root's own, and no other name. *)
Theorem mkfs_lookup devr args :
  Forall arg_ok args -> fits args ->
  exists ms, main host args mkst0 = Ret tt ms /\
    forall s0 dp, same_disk (kernel_fs (img ms)) s0 -> cached s0 dp ROOTINO -> forall nm,
      (forall j name inum, root_entry args j = Some (name, inum) -> dname nm = dname name ->
         (forall i name' inum', (i < j)%nat -> root_entry args i = Some (name', inum') -> dname nm <> dname name') ->
         dirlookup devr dp nm s0 = (let* ip := iget ROOTDEV inum in ret (Some (ip, 16 * Z.of_nat j))) s0) /\
      ((forall j name inum, root_entry args j = Some (name, inum) -> dname nm <> dname name) ->
         dirlookup devr dp nm s0 = Ret None s0).
Proof.
  intros Hok Hf. destruct (main_built args Hok Hf) as (ms & R & K1 & K2 & _ & _ & _ & (cs & HF) & _).
  exists ms. split; [exact R|]. clear R. intros s0 dp Hs Hc nm.
  destruct (has_file_cached _ _ _ _ _ s0 dp K1 K2 HF) as (F1 & F2 & F3 & _ & F5);
    [by left|by apply root_bound|done|done|].
  set (n := Z.to_nat ((Z.of_nat (length (root_data args)) / BSIZE + 1) * 32)).
  assert (dir_ok s0 dp cs n) as Hd.
  { split_and!; [done|done|]. rewrite F5, length_pad. unfold n. rewrite length_root_data. dlia. }
  pose proof (root_entry_none args) as Hnone. pose proof (root_entry_inum args) as Hin.
  assert (forall j name inum, root_entry args j = Some (name, inum) -> Z.of_nat j < Z.of_nat n) as Hj.
  { intros j name inum E. unfold n. rewrite length_root_data. destruct j as [|[|k]]; [dlia|dlia|]. simpl in E.
    destruct (args !! k) eqn:Hk; [|done]. apply lookup_lt_Some in Hk. dlia. }
  rewrite !(dirlookup_ok devr s0 dp cs n nm Hd), F2. split.
  - intros j name inum E En Hfirst. pose proof (Hin j name inum Hf E) as Hi.
    rewrite (dir_find_first n _ nm (Z.of_nat j)).
    + by rewrite (slice_root args j name inum E), de_inum_mk by lia.
    + split; [lia|by eapply Hj].
    + by apply (root_entry_lookup args _ j name inum E Hi eq_refl).
    + intros i Hij He. replace i with (Z.of_nat (Z.to_nat i)) in He by lia.
      destruct (root_entry args (Z.to_nat i)) as [[name' inum']|] eqn:E'; [|by apply Hnone in He].
      apply (root_entry_lookup args _ _ name' inum' E' (Hin _ _ _ Hf E') eq_refl) in He.
      apply (Hfirst (Z.to_nat i) name' inum'); [lia|done|done].
  - intros Hno. rewrite dir_find_none; [done|]. intros i Hi He. replace i with (Z.of_nat (Z.to_nat i)) in He by lia.
    destruct (root_entry args (Z.to_nat i)) as [[name' inum']|] eqn:E'; [|by apply Hnone in He].
    apply (root_entry_lookup args _ _ name' inum' E' (Hin _ _ _ Hf E') eq_refl) in He. by apply (Hno _ _ _ E').
Qed.

End Files.

(** ** An example: two files, one of them empty *)

Definition mk_host (path : list Z) : option (list (list Z)) :=
  if bool_decide (path = [95; 102]) then Some [replicate 512 7; [1; 2; 3]]
  else if bool_decide (path = [103]) then Some [] else None.
Definition mk_args : list (list Z) := [[95; 102]; [103]].

Lemma mk_args_ok : Forall (arg_ok mk_host) mk_args.
Proof.
  repeat apply Forall_cons_2; [..|apply Forall_nil_2]; (split; [|split; [|split]]).
  - set_solver.
  - repeat apply Forall_cons_2; (lia || apply Forall_nil_2).
  - by eexists.
  - assert (host_data mk_host [95; 102] = replicate 512 7 ++ [1; 2; 3]) as -> by reflexivity.
    apply Forall_app. split; [by apply Forall_replicate|]. repeat apply Forall_cons_2; (lia || apply Forall_nil_2).
  - set_solver.
  - repeat apply Forall_cons_2; (lia || apply Forall_nil_2).
  - by eexists.
  - apply Forall_nil_2.
Qed.

Lemma mk_args_fit : fits mk_host mk_args.
Proof. unfold fits. split_and!; vm_compute; congruence. Qed.

Lemma mkfs_image_witness : exists ms, main mk_host mk_args mkst0 = Ret tt ms /\
  fs_ok (kernel_fs (img ms)) /\ hdr_list 2 (img ms) = [].
Proof.
  destruct (mkfs_image mk_host (fun _ => None) mk_args mk_args_ok mk_args_fit) as (ms & R & K & _ & H & _).
  exists ms. split; [exact R|]. split; [exact K|exact H].
Defined.

Lemma mkfs_lookup_witness : exists ms, main mk_host mk_args mkst0 = Ret tt ms /\
  forall s0 dp, same_disk (kernel_fs (img ms)) s0 -> cached s0 dp ROOTINO ->
    dirlookup (fun _ => None) dp [102; 0] s0 = (let* ip := iget ROOTDEV 2 in ret (Some (ip, 32))) s0 /\
    dirlookup (fun _ => None) dp [120] s0 = Ret None s0.
Proof.
  destruct (mkfs_lookup mk_host (fun _ => None) mk_args mk_args_ok mk_args_fit) as (ms & R & H).
  exists ms. split; [exact R|]. clear R. intros s0 dp Hs Hc. split.
  - destruct (H s0 dp Hs Hc [102; 0]) as [H1 _]. apply (H1 2%nat [102] 2); [reflexivity|reflexivity|].
    intros i name' inum' Hi E. destruct i as [|[|i]]; [| |lia]; simpl in E; simplify_eq; discriminate.
  - destruct (H s0 dp Hs Hc [120]) as [_ H2]. apply H2. intros j name inum E.
    destruct j as [|[|[|[|j]]]]; simpl in E; simplify_eq; discriminate.
Defined.
