(* ===== verification/Ide.v ===== *)
(** The disk driver (ide.c): definitions.

    The controller is hardware, outside the sources: the class [Ata] has the
    port instructions that the driver applies to it, and [AtaOk] states what
    the ATA standard promises of a controller used in PIO mode; [AtaPrompt] is
    what the driver needs beyond it, a controller that takes the data of a write
    at once. Code that runs
    under [idelock] is atomic, so the lock does not appear; [sleep] is the
    outcome [Sleep]. The buffers are those of the cache (Bio.v), with [qnext]
    beside them. *)

From Stdlib Require Import ZArith Lia.
From stdpp Require Import base strings gmap numbers list.
From S2P Require Import Prelude BlockLayer Bio.

Open Scope Z_scope.

Abbreviation SECTOR_SIZE := 512 (only parsing).
Abbreviation IDE_BSY := 128 (only parsing).
Abbreviation IDE_DRDY := 64 (only parsing).
Abbreviation IDE_DF := 32 (only parsing).
Abbreviation IDE_ERR := 1 (only parsing).
Abbreviation IDE_CMD_READ := 32 (only parsing).
Abbreviation IDE_CMD_WRITE := 48 (only parsing).
Abbreviation IDE_CMD_RDMUL := 196 (only parsing).
Abbreviation IDE_CMD_WRMUL := 197 (only parsing).
Abbreviation IDE_FSSIZE := 262144 (only parsing).

(** ** The controller *)

(** The port instructions on a controller; [insl] and [outsl] move the given
    number of words. [ready_in] bounds the number of times the status is read
    before the controller shows that it is ready. *)
Class Ata (D : Type) := {
  inb : Z -> D -> Z * D;
  outb : Z -> Z -> D -> D;
  insl : Z -> Z -> D -> block * D;
  outsl : Z -> block -> Z -> D -> D;
  ready_in : D -> nat;
}.

(** What the controller does: nothing, a command in progress, one that waits
    for the transfer of its data, or nothing after a command that failed. A
    write command first is busy until the controller shows DRQ, the request for
    its data. *)
Inductive ata_cmd :=
  | NoCmd
  | ReadBusy (drive lba : Z)
  | ReadReady (drive lba : Z)
  | WriteWait (drive lba : Z)
  | WriteData (drive lba : Z)
  | WriteBusy (drive lba : Z) (d : block)
  | Failed.

Definition ata_accepts (c : ata_cmd) : Prop := c = NoCmd \/ c = Failed.
Definition ata_busy (c : ata_cmd) : Prop :=
  match c with ReadBusy _ _ | WriteWait _ _ | WriteBusy _ _ _ => True | _ => False end.

(** The drive and the sector in the registers 0x1f3 to 0x1f6. *)
Definition reg_drive (r : Z -> Z) : Z := Z.land (Z.shiftr (r 502) 4) 1.
Definition reg_lba (r : Z -> Z) : Z :=
  r 499 + 256 * r 500 + 65536 * r 501 + 16777216 * Z.land (r 502) 15.

(** The standard's promises, for the registers and commands the driver uses:
    the registers keep what is written while no command is in progress; 0x20
    and 0x30 to the command register (0x1f7) start the transfer of the sectors
    that the registers name; the data of a write are taken once DRQ (bit 3 of the
    status) shows, which is not promised to be at once; a command ends with an
    interrupt, [ata_irq], after which the data can be read and the status shows
    whether it failed; who polls the status sees the end of a command as well. *)
Class AtaOk (D : Type) `{Ata D} := {
  regs : D -> Z -> Z;
  cmd_of : D -> ata_cmd;
  platter : D -> Z -> Z -> block;
  ata_irq : D -> D -> Prop;

  platter_ok d v n : block_ok (platter d v n);
  inb_view d :
    ~ ata_busy (cmd_of d) -> let d' := (inb 503 d).2 in
    cmd_of d' = cmd_of d /\ (forall p, regs d' p = regs d p) /\ (forall v n, platter d' v n = platter d v n);
  inb_ready d :
    ~ ata_busy (cmd_of d) ->
    Z.land (inb 503 d).1 (Z.lor IDE_BSY IDE_DRDY) = IDE_DRDY \/ (ready_in (inb 503 d).2 < ready_in d)%nat;
  inb_poll d v n :
    cmd_of d = ReadBusy v n -> let r := inb 503 d in
    (forall w m, platter r.2 w m = platter d w m) /\
    (if Z.land r.1 (Z.lor IDE_BSY IDE_DRDY) =? IDE_DRDY then cmd_of r.2 = ReadReady v n \/ cmd_of r.2 = Failed
     else (ready_in r.2 < ready_in d)%nat /\
          (cmd_of r.2 = ReadBusy v n \/ cmd_of r.2 = ReadReady v n \/ cmd_of r.2 = Failed));
  inb_error d :
    ~ ata_busy (cmd_of d) -> Z.land (inb 503 d).1 (Z.lor IDE_BSY IDE_DRDY) = IDE_DRDY ->
    Z.land (inb 503 d).1 (Z.lor IDE_DF IDE_ERR) <> 0 <-> cmd_of d = Failed;
  outb_reg p v d :
    498 <= p <= 502 \/ p = 1014 -> 0 <= v < 256 -> ata_accepts (cmd_of d) ->
    let d' := outb p v d in
    ata_accepts (cmd_of d') /\ (forall q, regs d' q = if q =? p then v else regs d q) /\
    (forall w n, platter d' w n = platter d w n);
  outb_read d :
    ata_accepts (cmd_of d) -> regs d 498 = 1 -> Z.land (regs d 502) 224 = 224 ->
    let d' := outb 503 IDE_CMD_READ d in
    cmd_of d' = ReadBusy (reg_drive (regs d)) (reg_lba (regs d)) /\
    (forall w n, platter d' w n = platter d w n);
  outb_write d :
    ata_accepts (cmd_of d) -> regs d 498 = 1 -> Z.land (regs d 502) 224 = 224 ->
    let d' := outb 503 IDE_CMD_WRITE d in
    (cmd_of d' = WriteWait (reg_drive (regs d)) (reg_lba (regs d)) \/
     cmd_of d' = WriteData (reg_drive (regs d)) (reg_lba (regs d))) /\
    (forall w n, platter d' w n = platter d w n);
  inb_drq d v n :
    cmd_of d = WriteWait v n -> let r := inb 503 d in
    (forall w m, platter r.2 w m = platter d w m) /\
    (cmd_of r.2 = WriteData v n /\ Z.land r.1 8 <> 0 \/
     cmd_of r.2 = WriteWait v n /\ Z.land r.1 8 = 0 /\ (ready_in r.2 < ready_in d)%nat);
  outsl_data v n x d :
    cmd_of d = WriteData v n -> block_ok x ->
    let d' := outsl 496 x (SECTOR_SIZE / 4) d in
    cmd_of d' = WriteBusy v n x /\ (forall w m, platter d' w m = platter d w m);
  insl_data v n d :
    cmd_of d = ReadReady v n ->
    let r := insl 496 (SECTOR_SIZE / 4) d in
    r.1 = platter d v n /\ cmd_of r.2 = NoCmd /\ (forall w m, platter r.2 w m = platter d w m);
  irq_busy d d' : ata_irq d d' -> ata_busy (cmd_of d);
  irq_read d d' v n :
    ata_irq d d' -> cmd_of d = ReadBusy v n ->
    (cmd_of d' = ReadReady v n \/ cmd_of d' = Failed) /\ (forall w m, platter d' w m = platter d w m);
  irq_write d d' v n x :
    ata_irq d d' -> cmd_of d = WriteBusy v n x ->
    (cmd_of d' = NoCmd /\ forall w m, platter d' w m = if (w =? v) && (m =? n) then x else platter d w m) \/
    (cmd_of d' = Failed /\ forall w m, platter d' w m = platter d w m);
}.

(** A controller that shows DRQ as soon as it gets a write command, as the
    emulated one does on which the Makefile runs the kernel (QEMU): [idestart]
    sends the data without looking at the status. *)
Class AtaPrompt (D : Type) `{AtaOk D} := {
  drq_at_once d v n : cmd_of (outb 503 IDE_CMD_WRITE d) <> WriteWait v n;
}.

(** How the controller ended its last command. *)
Definition succeeded {D : Type} `{AtaOk D} (d : D) : bool :=
  match cmd_of d with Failed => false | _ => true end.

Section Driver.
Context {D : Type} `{Ata D}.

(** ** State *)

Record ide := {
  ibufs : list buf;
  qnext : nat -> option nat;
  idequeue : option nat;
  havedisk1 : bool;
  ctl : D;
}.

Definition ib (s : ide) (b : nat) : buf := ibufs s !!! b.

Definition set_ibufs (l : list buf) (s : ide) : ide :=
  {| ibufs := l; qnext := qnext s; idequeue := idequeue s; havedisk1 := havedisk1 s; ctl := ctl s |}.
Definition set_qnext (b : nat) (v : option nat) (s : ide) : ide :=
  {| ibufs := ibufs s; qnext := fun c => if decide (c = b) then v else qnext s c;
     idequeue := idequeue s; havedisk1 := havedisk1 s; ctl := ctl s |}.
Definition set_idequeue (v : option nat) (s : ide) : ide :=
  {| ibufs := ibufs s; qnext := qnext s; idequeue := v; havedisk1 := havedisk1 s; ctl := ctl s |}.
Definition set_havedisk1 (v : bool) (s : ide) : ide :=
  {| ibufs := ibufs s; qnext := qnext s; idequeue := idequeue s; havedisk1 := v; ctl := ctl s |}.
Definition set_ctl (d : D) (s : ide) : ide :=
  {| ibufs := ibufs s; qnext := qnext s; idequeue := idequeue s; havedisk1 := havedisk1 s; ctl := d |}.
Definition iupd (b : nat) (f : buf -> buf) (s : ide) : ide := set_ibufs (<[b := f (ib s b)]> (ibufs s)) s.

(** ** Port instructions of the driver *)

Definition port_inb (p : Z) : M ide Z :=
  fun s => let r := inb p (ctl s) in Ret r.1 (set_ctl r.2 s).
(** [outb] takes a byte. *)
Definition port_outb (p v : Z) : M ide unit := modify (fun s => set_ctl (outb p (u8 v) (ctl s)) s).
Definition port_insl (p n : Z) : M ide block :=
  fun s => let r := insl p n (ctl s) in Ret r.1 (set_ctl r.2 s).
Definition port_outsl (p : Z) (x : block) (n : Z) : M ide unit :=
  modify (fun s => set_ctl (outsl p x n (ctl s)) s).

(** ** Operations *)

Fixpoint idewait_loop (fuel : nat) : M ide Z :=
  let* r := port_inb 503 in
  if Z.land r (Z.lor IDE_BSY IDE_DRDY) =? IDE_DRDY then ret r
  else match fuel with
       | O => out_of_fuel
       | S f => idewait_loop f
       end.

Definition idewait (checkerr : bool) : M ide Z :=
  let* s := get in
  let* r := idewait_loop (ready_in (ctl s)) in
  if checkerr && negb (Z.land r (Z.lor IDE_DF IDE_ERR) =? 0) then ret (-1) else ret 0.

(** [for(i=0; i<1000; i++)] of [ideinit]. *)
Fixpoint find_disk1 (n : nat) : M ide unit :=
  match n with
  | O => ret tt
  | S n' =>
      let* r := port_inb 503 in
      if negb (r =? 0) then modify (set_havedisk1 true) else find_disk1 n'
  end.

(** Without the calls that set the lock and the interrupt up. *)
Definition ideinit : M ide unit :=
  idewait false ;;;
  port_outb 502 (Z.lor 224 (Z.shiftl 1 4)) ;;;
  find_disk1 1000 ;;;
  port_outb 502 (Z.lor 224 (Z.shiftl 0 4)).

Definition idestart (b : option nat) : M ide unit :=
  match b with
  | None => panic "idestart"
  | Some b =>
      let* s := get in
      let x := ib s b in
      if IDE_FSSIZE <=? blockno x then panic "incorrect blockno"
      else
        let sector_per_block := BSIZE / SECTOR_SIZE in
        let sector := i32 (blockno x * sector_per_block) in
        let read_cmd := if sector_per_block =? 1 then IDE_CMD_READ else IDE_CMD_RDMUL in
        let write_cmd := if sector_per_block =? 1 then IDE_CMD_WRITE else IDE_CMD_WRMUL in
        if 7 <? sector_per_block then panic "idestart"
        else
          idewait false ;;;
          port_outb 1014 0 ;;;
          port_outb 498 sector_per_block ;;;
          port_outb 499 (Z.land sector 255) ;;;
          port_outb 500 (Z.land (Z.shiftr sector 8) 255) ;;;
          port_outb 501 (Z.land (Z.shiftr sector 16) 255) ;;;
          port_outb 502 (Z.lor (Z.lor 224 (Z.shiftl (Z.land (dev x) 1) 4)) (Z.land (Z.shiftr sector 24) 15)) ;;;
          if negb (Z.land (flags x) B_DIRTY =? 0) then
            port_outb 503 write_cmd ;;;
            port_outsl 496 (data x) (BSIZE / 4)
          else port_outb 503 read_cmd
  end.

(** The interrupt handler; the result are the buffers whose waiters it wakes. *)
Definition ideintr : M ide (list nat) :=
  let* s := get in
  match idequeue s with
  | None => ret []
  | Some b =>
      modify (set_idequeue (qnext s b)) ;;;
      (if Z.land (flags (ib s b)) B_DIRTY =? 0 then
         let* r := idewait true in
         when (0 <=? r) (let* d := port_insl 496 (BSIZE / 4) in modify (iupd b (set_data d)))
       else ret tt) ;;;
      modify (iupd b (fun x => set_flags (Z.lor (flags x) B_VALID) x)) ;;;
      modify (iupd b (fun x => set_flags (Z.land (flags x) (Z.lnot B_DIRTY)) x)) ;;;
      let* s := get in
      (match idequeue s with Some _ => idestart (idequeue s) | None => ret tt end) ;;;
      ret [b]
  end.

(** [pp]: the address of [idequeue] or of a [qnext]. *)
Inductive link := Lqueue | Lqnext (b : nat).

Definition rd_link (l : link) (s : ide) : option nat :=
  match l with Lqueue => idequeue s | Lqnext b => qnext s b end.
Definition wr_link (l : link) (v : option nat) (s : ide) : ide :=
  match l with Lqueue => set_idequeue v s | Lqnext b => set_qnext b v s end.

(** [for(pp=&idequeue; *pp; pp=&( *pp)->qnext)]. *)
Fixpoint find_end (fuel : nat) (pp : link) : M ide link :=
  let* s := get in
  match rd_link pp s with
  | None => ret pp
  | Some b => match fuel with O => out_of_fuel | S f => find_end f (Lqnext b) end
  end.

Definition buf_chan (b : nat) : chan := ("buf"%string, Z.of_nat b).

(** The wait loop, from its entry or from a return of [sleep]. *)
Definition iderw_wait (b : nat) : M ide unit :=
  let* s := get in
  if negb (Z.land (flags (ib s b)) (Z.lor B_VALID B_DIRTY) =? B_VALID) then sleep_on (buf_chan b)
  else ret tt.

(** [iderw] of process [pid], to the end or to its first [sleep]. *)
Definition ide_iderw (pid : Z) (b : nat) : M ide unit :=
  let* s := get in
  let x := ib s b in
  if negb (holdingsleep pid (lock x)) then panic "iderw: buf not locked"
  else if Z.land (flags x) (Z.lor B_VALID B_DIRTY) =? B_VALID then panic "iderw: nothing to do"
  else if negb (dev x =? 0) && negb (havedisk1 s) then panic "iderw: ide disk 1 not present"
  else
    modify (set_qnext b None) ;;;
    let* pp := find_end (length (ibufs s)) Lqueue in
    modify (wr_link pp (Some b)) ;;;
    let* s := get in
    when (bool_decide (idequeue s = Some b)) (idestart (Some b)) ;;;
    iderw_wait b.

End Driver.
Arguments ide D : clear implicits.
