(* ===== verification/IdeSpec.v ===== *)
(** The disk driver (ide.c): theorems.

    [istep] interleaves the calls of [iderw] by any number of processes with
    the interrupts of the controller; a call is one critical section up to its
    [sleep] and one for every return of [sleep]. The queue through [qnext] is
    the first-in first-out list of the requests under way and the controller
    works on its head ([ide_ok]). From this: no call and no interrupt panics or
    runs out of fuel ([ide_no_panic]), requests are served in order and no
    process stays asleep ([ide_fifo]), the driver and the controller together
    are a server that performs one request at a time on the disk
    ([ide_refines]), and a request on an idle disk has the effect of memide.c's
    [iderw] ([ide_as_memide]). All this is for a controller that shows DRQ at
    once ([AtaPrompt]); on one that does not, a write can wait for ever
    ([write_before_drq_hangs]). *)

From Stdlib Require Import ZArith Lia.
From stdpp Require Import base strings gmap numbers list.
From S2P Require Import Prelude BlockLayer Bio Ide.

Open Scope Z_scope.

(** ** Bits of the flags *)

Abbreviation FLAGS := (Z.lor B_VALID B_DIRTY) (only parsing).

Lemma testbit_pow2 k n : 0 <= k -> 0 <= n -> Z.testbit (2 ^ k) n = (n =? k).
Proof. intros Hk Hn. rewrite Z.pow2_bits_eqb by done. by rewrite Z.eqb_sym. Qed.

Lemma testbit_flags n : 0 <= n -> Z.testbit 6 n = (n =? 1) || (n =? 2).
Proof.
  intros Hn. change 6 with (Z.lor (2 ^ 1) (2 ^ 2)). rewrite Z.lor_spec, !testbit_pow2 by lia. done.
Qed.

Lemma flags_valid x : Z.land (Z.land (Z.lor x B_VALID) (Z.lnot B_DIRTY)) FLAGS = B_VALID.
Proof.
  change FLAGS with 6. apply Z.bits_inj'. intros n Hn.
  change B_VALID with (2 ^ 1). change B_DIRTY with (2 ^ 2).
  rewrite !Z.land_spec, Z.lor_spec, Z.lnot_spec, testbit_flags, !testbit_pow2 by lia.
  destruct (Z.eqb_spec n 1), (Z.eqb_spec n 2); subst; simpl; rewrite ?orb_true_r, ?andb_false_r; done || lia.
Qed.

Lemma flags_swap x : Z.lor (Z.land x (Z.lnot B_DIRTY)) B_VALID = Z.land (Z.lor x B_VALID) (Z.lnot B_DIRTY).
Proof.
  apply Z.bits_inj'. intros n Hn. change B_VALID with (2 ^ 1). change B_DIRTY with (2 ^ 2).
  rewrite Z.lor_spec, !Z.land_spec, Z.lor_spec, Z.lnot_spec, !testbit_pow2 by lia.
  destruct (Z.eqb_spec n 1), (Z.eqb_spec n 2); subst; simpl; rewrite ?orb_true_r, ?andb_true_r, ?andb_false_r, ?orb_false_r; done || lia.
Qed.


Lemma flags_clean x : Z.land x B_DIRTY = 0 -> Z.land (Z.lor x B_VALID) (Z.lnot B_DIRTY) = Z.lor x B_VALID.
Proof.
  intros Hx. assert (Z.testbit x 2 = false) as H2.
  { assert (Z.testbit (Z.land x (2 ^ 2)) 2 = false) as E by by rewrite (Hx : Z.land x (2 ^ 2) = 0).
    by rewrite Z.land_spec, testbit_pow2, andb_true_r in E by lia. }
  apply Z.bits_inj'. intros n Hn. change B_VALID with (2 ^ 1). change B_DIRTY with (2 ^ 2).
  rewrite Z.land_spec, !Z.lor_spec, Z.lnot_spec, !testbit_pow2 by lia.
  destruct (Z.eqb_spec n 2) as [->|]; rewrite ?H2, ?andb_true_r; done.
Qed.

(** ** The queue *)

(** The pointers from [p] along [nx] are the list [l]. *)
Fixpoint chain (nx : nat -> option nat) (p : option nat) (l : list nat) : Prop :=
  match l with
  | [] => p = None
  | b :: l' => p = Some b /\ chain nx (nx b) l'
  end.

Lemma chain_ext nx nx' p l : (forall b, b ∈ l -> nx' b = nx b) -> chain nx p l -> chain nx' p l.
Proof.
  revert p. induction l as [|b l IH]; intros p He; simpl; [done|]. intros [-> Hc].
  split; [done|]. rewrite He by left. apply IH; [|done]. intros c Hi. apply He. by right.
Qed.

Lemma chain_app nx p l c l' : chain nx p (l ++ c :: l') ->
  chain (fun b => if decide (b = c) then None else nx b) p (l ++ [c]) \/ c ∈ l.
Proof.
  revert p. induction l as [|b l IH]; intros p; simpl.
  - intros [-> _]. left. split; [done|]. by rewrite decide_True.
  - intros [-> Hc]. destruct (decide (b = c)) as [->|]; [right; left|].
    destruct (IH _ Hc) as [?|?]; [left|right; by right]. done.
Qed.

Section Driver.
Context {D : Type} {HA : Ata D} {HO : AtaOk D} {HP : AtaPrompt D}.
Implicit Types s : ide D.

(** The contents of the controller's memory and its command are those of [d]. *)
Definition same_view (d d' : D) : Prop :=
  cmd_of d' = cmd_of d /\ (forall p, regs d' p = regs d p) /\ (forall v n, platter d' v n = platter d v n).

Lemma same_view_trans d1 d2 d3 : same_view d1 d2 -> same_view d2 d3 -> same_view d1 d3.
Proof. intros (A & B & C) (A' & B' & C'). split_and!; intros; by rewrite ?A', ?B', ?C'. Qed.

Lemma idewait_loop_ok fuel s :
  ~ ata_busy (cmd_of (ctl s)) -> (ready_in (ctl s) <= fuel)%nat ->
  exists r d', idewait_loop fuel s = Ret r (set_ctl d' s) /\ same_view (ctl s) d' /\
    (Z.land r (Z.lor IDE_DF IDE_ERR) <> 0 <-> cmd_of (ctl s) = Failed).
Proof.
  revert s. induction fuel as [|fuel IH]; intros s Hb Hf;
    pose proof (inb_view (ctl s) Hb) as Hv; pose proof (inb_error (ctl s) Hb) as He;
    (destruct (inb_ready (ctl s) Hb) as [Hr|Hr];
     [exists (inb 503 (ctl s)).1, (inb 503 (ctl s)).2; split_and!; [|exact Hv|by apply He];
      simpl; unfold bind, port_inb; by rewrite (proj2 (Z.eqb_eq _ _) Hr)|]).
  - lia.
  - simpl. unfold bind at 1, port_inb. destruct (Z.eqb_spec (Z.land (inb 503 (ctl s)).1 (Z.lor IDE_BSY IDE_DRDY)) IDE_DRDY) as [Hr'|_].
    { eexists _, _. split_and!; [reflexivity|exact Hv|by apply He]. }
    destruct (IH (set_ctl (inb 503 (ctl s)).2 s)) as (r & d' & E & V & F).
    + simpl. by rewrite (proj1 Hv).
    + simpl. lia.
    + exists r, d'. split_and!; [by rewrite E|by eapply same_view_trans|]. simpl in F. by rewrite (proj1 Hv) in F.
Qed.

Lemma idewait_ok c s :
  ~ ata_busy (cmd_of (ctl s)) ->
  exists d', same_view (ctl s) d' /\
    ((idewait c s = Ret 0 (set_ctl d' s) /\ (c = true -> cmd_of (ctl s) <> Failed)) \/
     (idewait c s = Ret (-1) (set_ctl d' s) /\ c = true /\ cmd_of (ctl s) = Failed)).
Proof.
  intros Hb. destruct (idewait_loop_ok (ready_in (ctl s)) s Hb) as (r & d' & E & V & F); [lia|].
  exists d'. split; [done|]. unfold idewait. unfold bind at 1, get. unfold bind. rewrite E.
  destruct c; simpl; [|left; done].
  destruct (Z.eqb_spec (Z.land r (Z.lor IDE_DF IDE_ERR)) 0) as [Hz|Hz]; simpl.
  - left. split; [done|]. intros _ Hc. by apply F in Hc.
  - right. split_and!; [done|done|by apply F].
Qed.

Lemma accepts_idle d : ata_accepts (cmd_of d) -> ~ ata_busy (cmd_of d).
Proof. intros [->| ->]; simpl; tauto. Qed.

(** The command for a buffer. *)
Definition drive_of (x : buf) : Z := Z.land (dev x) 1.
Definition request (x : buf) : ata_cmd :=
  if Z.land (flags x) B_DIRTY =? 0 then ReadBusy (drive_of x) (blockno x)
  else WriteBusy (drive_of x) (blockno x) (data x).

Definition ibuf_ok (x : buf) : Prop := 0 <= blockno x < IDE_FSSIZE /\ block_ok (data x).

Lemma drive_cases x : drive_of x = 0 \/ drive_of x = 1.
Proof. unfold drive_of. change 1 with (Z.ones 1) at 1 2. rewrite Z.land_ones by lia. change (2 ^ 1) with 2. dlia. Qed.

Lemma land_255 x : Z.land x 255 = x mod 256.
Proof. change 255 with (Z.ones 8). by rewrite Z.land_ones. Qed.

(** The registers that [idestart] loads name the block. *)
Lemma lba_bytes n : 0 <= n < IDE_FSSIZE ->
  let sector := i32 (n * (BSIZE / SECTOR_SIZE)) in
  u8 (Z.land sector 255) + 256 * u8 (Z.land (Z.shiftr sector 8) 255) +
    65536 * u8 (Z.land (Z.shiftr sector 16) 255) = n /\ Z.land (Z.shiftr sector 24) 15 = 0.
Proof.
  intros Hn. change (BSIZE / SECTOR_SIZE) with 1. rewrite Z.mul_1_r. cbv zeta. rewrite i32_small by lia.
  rewrite !land_255, !Z.shiftr_div_pow2 by lia. unfold u8.
  change (2 ^ 8) with 256. change (2 ^ 16) with 65536. change (2 ^ 24) with 16777216.
  rewrite (Z.div_small n 16777216) by lia. split; [dlia|done].
Qed.

Definition dh_of (x : buf) : Z := Z.lor (Z.lor 224 (Z.shiftl (Z.land (dev x) 1) 4)) 0.

Lemma dh_ok x : 0 <= dh_of x < 256 /\ Z.land (dh_of x) 224 = 224 /\ Z.land (Z.shiftr (dh_of x) 4) 1 = drive_of x /\
  Z.land (dh_of x) 15 = 0.
Proof. unfold dh_of. pose proof (drive_cases x) as Hd. unfold drive_of in *. destruct Hd as [-> | ->]; vm_compute; split_and!; (congruence || done). Qed.

Lemma port_outb_run p v s : port_outb p v s = Ret tt (set_ctl (outb p (u8 v) (ctl s)) s).
Proof. done. Qed.

(** The registers that name the sectors, after they have been loaded. *)
Lemma load_lba n a b c e d :
  ata_accepts (cmd_of d) ->
  let d' := outb 502 (u8 e) (outb 501 (u8 c) (outb 500 (u8 b) (outb 499 (u8 a) (outb 498 (u8 n) d)))) in
  ata_accepts (cmd_of d') /\ regs d' 498 = u8 n /\ regs d' 499 = u8 a /\ regs d' 500 = u8 b /\
  regs d' 501 = u8 c /\ regs d' 502 = u8 e /\ (forall v m, platter d' v m = platter d v m).
Proof.
  intros H1. cbv zeta.
  destruct (outb_reg 498 (u8 n) _ ltac:(lia) (u8_range _) H1) as (H2 & B2 & C2).
  destruct (outb_reg 499 (u8 a) _ ltac:(lia) (u8_range _) H2) as (H3 & B3 & C3).
  destruct (outb_reg 500 (u8 b) _ ltac:(lia) (u8_range _) H3) as (H4 & B4 & C4).
  destruct (outb_reg 501 (u8 c) _ ltac:(lia) (u8_range _) H4) as (H5 & B5 & C5).
  destruct (outb_reg 502 (u8 e) _ ltac:(lia) (u8_range _) H5) as (H6 & B6 & C6).
  cbv zeta in *. split_and!; [done|..]; intros; by rewrite ?B6, ?C6, ?B5, ?C5, ?B4, ?C4, ?B3, ?C3, ?B2, ?C2.
Qed.

(** The same after the control register, as [idestart] does it. *)
Lemma load_regs n a b c e d :
  ata_accepts (cmd_of d) ->
  let d' := outb 502 (u8 e) (outb 501 (u8 c) (outb 500 (u8 b) (outb 499 (u8 a) (outb 498 (u8 n) (outb 1014 (u8 0) d))))) in
  ata_accepts (cmd_of d') /\ regs d' 498 = u8 n /\ regs d' 499 = u8 a /\ regs d' 500 = u8 b /\
  regs d' 501 = u8 c /\ regs d' 502 = u8 e /\ (forall v m, platter d' v m = platter d v m).
Proof.
  intros H0. destruct (outb_reg 1014 (u8 0) d ltac:(lia) (u8_range _) H0) as (H1 & _ & C1).
  destruct (load_lba n a b c e _ H1) as (A & R1 & R2 & R3 & R4 & R5 & P). split_and!; try done.
  intros. by rewrite P, C1.
Qed.

Lemma idestart_ok b s :
  ata_accepts (cmd_of (ctl s)) -> ibuf_ok (ib s b) ->
  exists d', idestart (Some b) s = Ret tt (set_ctl d' s) /\ cmd_of d' = request (ib s b) /\
    (forall v n, platter d' v n = platter (ctl s) v n).
Proof.
  intros Ha [Hn Hd]. destruct (idewait_ok false s) as (d0 & V & E); [by apply accepts_idle|].
  assert (idewait false s = Ret 0 (set_ctl d0 s)) as E' by (destruct E as [[E _]|(_ & ? & _)]; [done|discriminate]).
  clear E. destruct V as (V1 & V2 & V3).
  unfold idestart, bind at 1, get. cbv zeta. destruct (Z.leb_spec IDE_FSSIZE (blockno (ib s b))); [lia|].
  change (7 <? BSIZE / SECTOR_SIZE) with false. change (BSIZE / SECTOR_SIZE =? 1) with true. cbv iota.
  destruct (lba_bytes _ Hn) as [HL H4]. cbv zeta in HL, H4. rewrite H4. fold (dh_of (ib s b)).
  destruct (dh_ok (ib s b)) as (Hdh & Hdh1 & Hdh2 & Hdh3).
  unfold bind at 1. rewrite E'. do 6 (unfold bind at 1; rewrite port_outb_run). cbn [ctl set_ctl].
  set (sector := i32 (blockno (ib s b) * (BSIZE / SECTOR_SIZE))) in *.
  assert (ata_accepts (cmd_of d0)) as Ha0 by by rewrite V1.
  destruct (load_regs (BSIZE / SECTOR_SIZE) (Z.land sector 255) (Z.land (Z.shiftr sector 8) 255)
    (Z.land (Z.shiftr sector 16) 255) (dh_of (ib s b)) d0 Ha0) as (A6 & R2 & R3 & R4 & R5 & R6 & P6).
  set (d6 := outb 502 _ _) in *. rewrite (u8_small (dh_of _) Hdh) in R6.
  assert (reg_drive (regs d6) = drive_of (ib s b)) as RD by (unfold reg_drive; by rewrite R6).
  assert (reg_lba (regs d6) = blockno (ib s b)) as RL by (unfold reg_lba; rewrite R3, R4, R5, R6, Hdh3; lia).
  unfold request. destruct (Z.eqb_spec (Z.land (flags (ib s b)) B_DIRTY) 0) as [Hz|Hz]; simpl.
  - destruct (outb_read d6) as [K1 K2]; [done|done|by rewrite R6|].
    exists (outb 503 IDE_CMD_READ d6). split; [reflexivity|].
    rewrite K1, RD, RL. split; [done|]. intros. by rewrite K2, P6, V3.
  - destruct (outb_write d6) as [K1 K2]; [done|done|by rewrite R6|].
    rewrite RD, RL in K1. destruct K1 as [K1|K1]; [by apply drq_at_once in K1|]. destruct (outsl_data _ _ (data (ib s b)) _ K1 Hd) as [K3 K4].
    exists (outsl 496 (data (ib s b)) (SECTOR_SIZE / 4) (outb 503 IDE_CMD_WRITE d6)).
    split; [reflexivity|]. split; [exact K3|].
    intros. etrans; [apply K4|]. by rewrite K2, P6, V3.
Qed.

(** ** The driver's part of the invariant *)

Definition needs (x : buf) : Prop := Z.land (flags x) FLAGS <> B_VALID.

(** The requests under way, in order, are the buffers [l]; the controller works
    on the first. *)
Record drv_ok (s : ide D) (l : list nat) : Prop := {
  dk_chain : chain (qnext s) (idequeue s) l;
  dk_nodup : NoDup l;
  dk_bufs : forall b, b ∈ l -> (b < length (ibufs s))%nat /\ ibuf_ok (ib s b) /\ needs (ib s b);
  dk_ctl : match l with
           | [] => ata_accepts (cmd_of (ctl s))
           | b :: _ => cmd_of (ctl s) = request (ib s b)
           end;
}.

Lemma nodup_bound (l : list nat) n : NoDup l -> (forall b, b ∈ l -> (b < n)%nat) -> (length l <= n)%nat.
Proof.
  intros Hn Hb. transitivity (length (seq 0 n)); [|by rewrite length_seq]. apply submseteq_length, NoDup_submseteq; [done|].
  intros x Hx. apply elem_of_seq. pose proof (Hb x Hx). lia.
Qed.

(** The walk to the end of the queue, and the store of [b] there. *)
Lemma find_end_ok fuel l b s pp :
  chain (qnext s) (rd_link pp s) l -> (length l <= fuel)%nat -> NoDup l -> b ∉ l ->
  (forall c, pp = Lqnext c -> c <> b /\ c ∉ l) -> qnext s b = None ->
  exists pp', find_end fuel pp s = Ret pp' s /\
    let s' := wr_link pp' (Some b) s in
    ibufs s' = ibufs s /\ havedisk1 s' = havedisk1 s /\ ctl s' = ctl s /\ qnext s' b = None /\
    chain (qnext s') (rd_link pp s') (l ++ [b]) /\
    (l <> [] \/ pp <> Lqueue -> idequeue s' = idequeue s) /\ (forall c, c ∉ l -> Lqnext c <> pp -> qnext s' c = qnext s c).
Proof.
  revert fuel pp. induction l as [|c l IH]; intros fuel pp Hc Hf Hn Hb Hp Hq; simpl in Hc.
  - exists pp. split; [destruct fuel; simpl; unfold bind, get; by rewrite Hc|].
    destruct pp as [|c]; simpl.
    + rewrite Hq. split_and!; try done. naive_solver.
    + destruct (Hp c eq_refl) as [Hcb _]. split_and!; try done.
      * by rewrite decide_False.
      * by rewrite decide_True.
      * by rewrite decide_False.
      * intros e _ He. rewrite decide_False; [done|congruence].
  - destruct Hc as [Hc1 Hc2]. apply NoDup_cons in Hn as [Hcl Hn]. apply not_elem_of_cons in Hb as [Hbc Hb].
    destruct fuel as [|fuel]; simpl in Hf; [lia|].
    destruct (IH fuel (Lqnext c)) as (pp' & E & F1 & F2 & F3 & F4 & F5 & F6 & F7); try done; [lia|..].
    + intros c' [= ->]. done.
    + exists pp'. split; [simpl; unfold bind at 1, get; by rewrite Hc1|]. cbv zeta in *. split_and!; try done.
      * assert (rd_link pp (wr_link pp' (Some b) s) = Some c) as ->; [|by split].
        rewrite <- Hc1. destruct pp as [|e]; simpl; [apply F6; by right|].
        destruct (Hp e eq_refl) as [_ [? ?]%not_elem_of_cons]. apply F7; [done|congruence].
      * intros _. apply F6. by right.
      * intros e [He1 He2]%not_elem_of_cons _. apply F7; [done|congruence].
Qed.

Lemma chain_head nx p l : chain nx p l -> p = head l.
Proof. destruct l; simpl; [done|by intros [-> _]]. Qed.

Lemma iderw_call pid b s l :
  drv_ok s l -> b ∉ l -> (b < length (ibufs s))%nat -> ibuf_ok (ib s b) -> needs (ib s b) ->
  holdingsleep pid (lock (ib s b)) = true -> dev (ib s b) = 0 \/ havedisk1 s = true ->
  exists s', ide_iderw pid b s = Sleep (buf_chan b) s' /\ drv_ok s' (l ++ [b]) /\
    ibufs s' = ibufs s /\ havedisk1 s' = havedisk1 s /\
    (forall v n, platter (ctl s') v n = platter (ctl s) v n).
Proof.
  intros [Hc Hn Hb Hk] Hbl Hlt Hok Hne Hh Hd.
  unfold ide_iderw, bind at 1, get. cbv zeta. rewrite Hh. change (negb true) with false. cbv iota.
  rewrite (proj2 (Z.eqb_neq _ _) Hne).
  replace (negb (dev (ib s b) =? 0) && negb (havedisk1 s)) with false
    by (destruct Hd as [-> | ->]; by rewrite ?andb_false_r).
  set (s0 := set_qnext b None s).
  destruct (find_end_ok (length (ibufs s)) l b s0 Lqueue) as (pp & E & F1 & F2 & F3 & F4 & F5 & F6 & F7); try done.
  { simpl. eapply chain_ext; [|exact Hc]. intros c Hi. rewrite decide_False; [done|]. by intros ->. }
  { by apply nodup_bound; [|intros c Hi; apply Hb]. }
  { simpl. by rewrite decide_True. }
  set (s1 := wr_link pp (Some b) s0) in *. cbv zeta in *.
  unfold bind at 1, modify. fold s0. mstep E. unfold bind at 1. fold s1. unfold bind at 1.
  assert (forall e, ib s1 e = ib s e) as Hib by (intros; unfold ib; by rewrite F1).
  assert (forall e, e ∈ l ++ [b] -> (e < length (ibufs s1))%nat /\ ibuf_ok (ib s1 e) /\ needs (ib s1 e)) as Hall.
  { intros e He. rewrite Hib, F1. apply elem_of_app in He as [He|He%list_elem_of_singleton]; [by apply Hb|by subst]. }
  assert (NoDup (l ++ [b])) as Hnd by (apply NoDup_app; split_and!; [done|set_solver|apply NoDup_singleton]).
  assert (forall s2, ibufs s2 = ibufs s -> iderw_wait b s2 = Sleep (buf_chan b) s2) as Hw.
  { intros s2 E2. unfold iderw_wait, bind, get, ib. rewrite E2. fold (ib s b). by rewrite (proj2 (Z.eqb_neq _ _) Hne). }
  pose proof (chain_head _ _ _ F5) as Hq. change (rd_link Lqueue s1) with (idequeue s1) in *.
  unfold when. destruct l as [|c l]; simpl in Hq; rewrite Hq.
  - rewrite bool_decide_true by done. destruct (idestart_ok b s1) as (d' & E1 & G1 & G2).
    { by rewrite F3. } { by rewrite Hib. }
    exists (set_ctl d' s1). split; [by mstep E1; apply Hw|]. split_and!; try done.
    intros. simpl. by rewrite G2, F3.
  - rewrite bool_decide_false by (intros [= ->]; apply Hbl; left).
    exists s1. split; [unfold bind at 1, ret; by apply Hw|]. split_and!; try done.
    + split; try done. simpl. by rewrite F3, Hib.
    + intros. by rewrite F3.
Qed.

(** What a request does to its buffer and to the disk: [ok] tells whether the
    command succeeded, which the driver takes no notice of. *)
Definition is_dirty (x : buf) : bool := negb (Z.land (flags x) B_DIRTY =? 0).
Definition serve_buf (ok : bool) (dk : Z -> Z -> block) (x : buf) : buf :=
  set_flags (Z.land (Z.lor (flags x) B_VALID) (Z.lnot B_DIRTY))
    (if ok && negb (is_dirty x) then set_data (dk (drive_of x) (blockno x)) x else x).
Definition serve_disk (ok : bool) (dk : Z -> Z -> block) (x : buf) : Z -> Z -> block :=
  fun v n => if ok && is_dirty x && (v =? drive_of x) && (n =? blockno x) then data x else dk v n.

Lemma serve_buf_ext ok dk dk' x : (forall v n, dk v n = dk' v n) -> serve_buf ok dk x = serve_buf ok dk' x.
Proof. intros He. unfold serve_buf. by rewrite He. Qed.

Lemma serve_not_needs ok dk x : ~ needs (serve_buf ok dk x).
Proof. unfold needs, serve_buf. destruct (ok && _); cbn [flags set_flags set_data]; rewrite flags_valid; tauto. Qed.

Lemma ib_iupd f b s c : (b < length (ibufs s))%nat ->
  ib (iupd b f s) c = if decide (c = b) then f (ib s b) else ib s c.
Proof.
  intros Hb. unfold ib, iupd, set_ibufs. cbn [ibufs]. destruct (decide (c = b)) as [->|].
  - by rewrite list_lookup_total_insert_eq.
  - by rewrite list_lookup_total_insert_ne.
Qed.

Ltac upd_done :=
  f_equal; unfold iupd, ib, set_ibufs; cbn; rewrite !list_insert_insert_eq;
  rewrite !list_lookup_total_insert_eq by (rewrite ?length_insert; done); done.

(** The part of the handler before the next request is started. *)
Lemma intr_serve b s d' :
  cmd_of (ctl s) = request (ib s b) -> ata_irq (ctl s) d' -> (b < length (ibufs s))%nat ->
  exists ok d2 s2,
    ((if Z.land (flags (ib s b)) B_DIRTY =? 0 then
        let* r := idewait true in
        when (0 <=? r) (let* d := port_insl 496 (BSIZE / 4) in modify (iupd b (set_data d)))
      else ret tt) ;;;
     modify (iupd b (fun x => set_flags (Z.lor (flags x) B_VALID) x)) ;;;
     modify (iupd b (fun x => set_flags (Z.land (flags x) (Z.lnot B_DIRTY)) x))) (set_ctl d' s) = Ret tt s2 /\
    s2 = set_ctl d2 (set_ibufs (<[b := serve_buf ok (platter (ctl s)) (ib s b)]> (ibufs s)) s) /\
    ata_accepts (cmd_of d2) /\ ok = succeeded d' /\
    (forall v n, platter d2 v n = serve_disk ok (platter (ctl s)) (ib s b) v n).
Proof.
  intros Hk Hi Hb. unfold request in Hk. unfold succeeded, serve_buf, serve_disk, is_dirty.
  destruct (Z.eqb_spec (Z.land (flags (ib s b)) B_DIRTY) 0) as [Hz|Hz]; simpl negb.
  - destruct (irq_read _ _ _ _ Hi Hk) as [Hc Hp].
    destruct (idewait_ok true (set_ctl d' s)) as (d1 & (V1 & _ & V3) & E); [destruct Hc as [Hc|Hc]; simpl; rewrite Hc; simpl; tauto|].
    cbn [ctl set_ctl] in *. destruct E as [[E Hnf]|(E & _ & Hf)].
    + destruct Hc as [Hc|Hc]; [|by destruct Hnf]. destruct (insl_data (drive_of (ib s b)) (blockno (ib s b)) d1) as (I1 & I2 & I3); [by rewrite V1|].
      exists true. eexists (insl 496 (SECTOR_SIZE / 4) d1).2, _. split; [|split; [reflexivity|split; [by left|split; [by rewrite Hc|]]]].
      * unfold bind at 1. unfold bind at 1. rewrite E. change (0 <=? 0) with true. unfold when.
        unfold bind, port_insl, modify. cbn [ctl set_ctl]. change (512 / 4) with (SECTOR_SIZE / 4). rewrite I1, V3, Hp.
        upd_done.
      * intros v n. rewrite andb_false_r. simpl. by rewrite I3, V3, Hp.
    + exists false. eexists d1, _. split; [|split; [reflexivity|split; [right; by rewrite V1|split; [by rewrite Hf|]]]].
      * unfold bind at 1. unfold bind at 1. rewrite E. change (0 <=? -1) with false. unfold when, ret.
        unfold bind, modify. upd_done.
      * intros v n. simpl. by rewrite V3, Hp.
  - destruct (irq_write _ _ _ _ _ Hi Hk) as [[Hc Hp]|[Hc Hp]].
    + exists true. eexists d', _. split; [|split; [reflexivity|split; [by left|split; [by rewrite Hc|]]]].
      * unfold bind, modify, ret. upd_done.
      * intros v n. by rewrite Hp.
    + exists false. eexists d', _. split; [|split; [reflexivity|split; [by right|split; [by rewrite Hc|]]]].
      * unfold bind, modify, ret. upd_done.
      * intros v n. by rewrite Hp.
Qed.

Lemma ideintr_ok b s l d' :
  drv_ok s (b :: l) -> ata_irq (ctl s) d' ->
  exists ok s', ideintr (set_ctl d' s) = Ret [b] s' /\ drv_ok s' l /\
    ok = succeeded d' /\
    ibufs s' = <[b := serve_buf ok (platter (ctl s)) (ib s b)]> (ibufs s) /\ havedisk1 s' = havedisk1 s /\
    (forall v n, platter (ctl s') v n = serve_disk ok (platter (ctl s)) (ib s b) v n).
Proof.
  intros [Hc Hn Hb Hk] Hi. destruct Hc as [Hq Hc]. apply NoDup_cons in Hn as [Hbl Hn].
  destruct (Hb b) as (Hlt & _ & _); [left|].
  destruct (intr_serve b (set_idequeue (qnext s b) s) d' Hk Hi Hlt) as (ok & d2 & s2 & E & -> & Ha & Hok & Hp).
  set (s2 := set_ctl d2 _) in *.
  assert (forall c, c ∈ l -> ib s2 c = ib s c) as Hib.
  { intros c Hcl. unfold ib, s2. simpl. apply list_lookup_total_insert_ne. by intros ->. }
  assert (forall c, c ∈ l -> (c < length (ibufs s2))%nat /\ ibuf_ok (ib s2 c) /\ needs (ib s2 c)) as Hall.
  { intros c Hcl. rewrite Hib by done. unfold s2. simpl. rewrite length_insert. apply Hb. by right. }
  assert (ideintr (set_ctl d' s) =
    (let* s := get in (match idequeue s with Some _ => idestart (idequeue s) | None => ret tt end) ;;; ret [b]) s2) as E'.
  { unfold ideintr, bind at 1, get. change (idequeue (set_ctl d' s)) with (idequeue s). rewrite Hq. cbv iota. unfold bind at 1, modify.
    change (set_idequeue (qnext (set_ctl d' s) b) (set_ctl d' s)) with (set_ctl d' (set_idequeue (qnext s b) s)).
    change (ib (set_ctl d' s) b) with (ib (set_idequeue (qnext s b) s) b).
    minv E as (u & s3 & E1 & E2). mstep E1. minv E2 as (u' & s4 & E3 & E4). mstep E3. by mstep E4. }
  rewrite E'. clear E E'. unfold bind at 1, get. unfold s2 at 1 2. cbn [idequeue set_ctl set_ibufs set_idequeue].
  exists ok. pose proof (chain_head _ _ _ Hc) as Hq'. destruct l as [|c l]; simpl in Hq'; rewrite Hq'.
  - by exists s2.
  - destruct (idestart_ok c s2) as (d3 & E3 & G1 & G2); [done|apply Hall; left|].
    exists (set_ctl d3 s2). split; [by mstep E3|]. split_and!; try done.
    intros v n. etrans; [apply G2|]. apply Hp.
Qed.

(** ** Processes and the controller *)

(** A process outside [iderw], asleep in it, or woken and about to test the
    flags of its buffer again. *)
Inductive ipst := IIdle | ISleep (b : nat) | IWoken (b : nat).

Record isys := { drv : ide D; iprocs : list ipst }.

Definition ipid (k : nat) : Z := Z.of_nat k + 1.

(** [wakeup] of the buffers [wk], on one process. *)
Definition iwake (wk : list nat) (x : ipst) : ipst :=
  match x with ISleep b => if decide (b ∈ wk) then IWoken b else x | _ => x end.

(** What the buffer cache does to a buffer between requests: its lock is taken
    and released; the holder recycles it, changes its contents or marks it. *)
Inductive local_step (pid : Z) (l : list buf) : list buf -> Prop :=
  | ls_lock b lk :
      (b < length l)%nat -> acquiresleep pid (lock (l !!! b)) = Some lk ->
      local_step pid l (<[b := set_lock lk (l !!! b)]> l)
  | ls_unlock b :
      (b < length l)%nat -> holdingsleep pid (lock (l !!! b)) = true ->
      local_step pid l (<[b := set_lock (releasesleep (lock (l !!! b))) (l !!! b)]> l)
  | ls_store b x :
      (b < length l)%nat -> holdingsleep pid (lock (l !!! b)) = true ->
      lock x = lock (l !!! b) -> ibuf_ok x -> local_step pid l (<[b := x]> l).

Inductive iev :=
  | ELocal (k : nat)
  | ECall (k b : nat)
  | EIrq (ok : bool) (wk : list nat)
  | ESpurious (wk : list nat)
  | EResume (k : nat) (returned : bool)
  | EKill (k : nat).

Inductive istep : isys -> iev -> isys -> Prop :=
  | is_local (s : isys) k l :
      iprocs s !! k = Some IIdle -> local_step (ipid k) (ibufs (drv s)) l ->
      istep s (ELocal k) {| drv := set_ibufs l (drv s); iprocs := iprocs s |}
  | is_call (s : isys) k b d :
      iprocs s !! k = Some IIdle -> ide_iderw (ipid k) b (drv s) = Sleep (buf_chan b) d ->
      istep s (ECall k b) {| drv := d; iprocs := <[k := ISleep b]> (iprocs s) |}
  | is_call_ret (s : isys) k b d :
      iprocs s !! k = Some IIdle -> ide_iderw (ipid k) b (drv s) = Ret tt d ->
      istep s (ECall k b) {| drv := d; iprocs := iprocs s |}
  | is_irq (s : isys) c wk d :
      ata_irq (ctl (drv s)) c -> ideintr (set_ctl c (drv s)) = Ret wk d ->
      istep s (EIrq (succeeded c) wk) {| drv := d; iprocs := iwake wk <$> iprocs s |}
  | is_spurious (s : isys) wk d :
      ata_accepts (cmd_of (ctl (drv s))) -> ideintr (drv s) = Ret wk d ->
      istep s (ESpurious wk) {| drv := d; iprocs := iwake wk <$> iprocs s |}
  | is_return (s : isys) k b d :
      iprocs s !! k = Some (IWoken b) -> iderw_wait b (drv s) = Ret tt d ->
      istep s (EResume k true) {| drv := d; iprocs := <[k := IIdle]> (iprocs s) |}
  | is_resleep (s : isys) k b d :
      iprocs s !! k = Some (IWoken b) -> iderw_wait b (drv s) = Sleep (buf_chan b) d ->
      istep s (EResume k false) {| drv := d; iprocs := <[k := ISleep b]> (iprocs s) |}
  | is_kill (s : isys) k b :
      iprocs s !! k = Some (ISleep b) ->
      istep s (EKill k) {| drv := drv s; iprocs := <[k := IWoken b]> (iprocs s) |}.

(** A run and its events. *)
Inductive isteps (s0 : isys) : list iev -> isys -> Prop :=
  | isteps_nil : isteps s0 [] s0
  | isteps_snoc es (s : isys) e (s' : isys) : isteps s0 es s -> istep s e s' -> isteps s0 (es ++ [e]) s'.

Definition isys_init (bufs : list buf) (c : D) (disk1 : bool) (n : nat) : isys :=
  {| drv := {| ibufs := bufs; qnext := fun _ => None; idequeue := None; havedisk1 := disk1; ctl := c |};
     iprocs := replicate n IIdle |}.

Definition init_ok (bufs : list buf) (c : D) : Prop := Forall ibuf_ok bufs /\ ata_accepts (cmd_of c).

(** ** The invariant *)

Definition holds (k b : nat) (s : ide D) : Prop := holdingsleep (ipid k) (lock (ib s b)) = true.

Definition ipst_ok (s : ide D) (l : list nat) (k : nat) (x : ipst) : Prop :=
  match x with
  | IIdle => True
  | ISleep b => holds k b s /\ b ∈ l
  | IWoken b => holds k b s /\ (b ∈ l \/ ~ needs (ib s b))
  end.

Record ide_ok (s : isys) (l : list nat) : Prop := {
  io_drv : drv_ok (drv s) l;
  io_bufs : Forall ibuf_ok (ibufs (drv s));
  io_procs : forall k x, iprocs s !! k = Some x -> ipst_ok (drv s) l k x;
  io_wait : forall b, b ∈ l -> exists k, iprocs s !! k = Some (ISleep b) \/ iprocs s !! k = Some (IWoken b);
}.

Lemma holds_lt k b s : holds k b s -> (b < length (ibufs s))%nat.
Proof.
  unfold holds, ib. intros Hh. destruct (decide (b < length (ibufs s))%nat); [done|].
  rewrite list_lookup_total_alt, lookup_ge_None_2 in Hh by lia. done.
Qed.

Lemma holds_fun k k' b s : holds k b s -> holds k' b s -> k = k'.
Proof. unfold holds, holdingsleep, ipid. rewrite !andb_true_iff, !Z.eqb_eq. lia. Qed.

Lemma ide_init_ok bufs c disk1 n : init_ok bufs c -> ide_ok (isys_init bufs c disk1 n) [].
Proof.
  intros [Hb Hc]. split; simpl.
  - split; [done|apply NoDup_nil_2|by intros ? ?%elem_of_nil|done].
  - done.
  - intros k x [-> _]%lookup_replicate. done.
  - by intros ? ?%elem_of_nil.
Qed.

(** An idle process that holds a buffer: the buffer is not in the queue. *)
Lemma idle_not_queued (s : isys) l k b : ide_ok s l -> iprocs s !! k = Some IIdle -> holds k b (drv s) -> b ∉ l.
Proof.
  intros Hs Hk Hh Hb. destruct (io_wait _ _ Hs b Hb) as [k' Hk'].
  assert (holds k' b (drv s)) as Hh' by (destruct Hk' as [Hk'|Hk']; by apply (io_procs _ _ Hs) in Hk' as [? _]).
  rewrite (holds_fun _ _ _ _ Hh Hh') in Hk. destruct Hk'; congruence.
Qed.

Lemma ib_bufs s s' b : ibufs s' = ibufs s -> ib s' b = ib s b.
Proof. intros E. unfold ib. by rewrite E. Qed.

(** A call that does not panic had what it needs. *)
Lemma iderw_not_panic pid b s :
  (forall msg, ide_iderw pid b s <> Panic msg) ->
  holdingsleep pid (lock (ib s b)) = true /\ needs (ib s b) /\ (dev (ib s b) = 0 \/ havedisk1 s = true).
Proof.
  unfold ide_iderw, bind at 1, get, needs. cbv zeta. intros Hp.
  destruct (holdingsleep _ _); [|by destruct (Hp "iderw: buf not locked"%string)]. simpl negb in Hp. cbv iota in Hp.
  destruct (Z.eqb_spec (Z.land (flags (ib s b)) FLAGS) B_VALID); [by destruct (Hp "iderw: nothing to do"%string)|].
  split; [done|]. split; [done|].
  destruct (Z.eqb_spec (dev (ib s b)) 0); [by left|]. destruct (havedisk1 s); [by right|].
  by destruct (Hp "iderw: ide disk 1 not present"%string).
Qed.

(** ** The driver as a server

    The server has a list of requests, performs the first on the disk and wakes
    its process. *)

Record aide := {
  a_bufs : list buf; a_disk : Z -> Z -> block; a_queue : list nat; a_procs : list ipst; a_disk1 : bool }.

Definition a_upd (l : list buf) (q : list nat) (p : list ipst) (a : aide) : aide :=
  {| a_bufs := l; a_disk := a_disk a; a_queue := q; a_procs := p; a_disk1 := a_disk1 a |}.

Inductive astep (a : aide) : iev -> aide -> Prop :=
  | as_local k l :
      a_procs a !! k = Some IIdle -> local_step (ipid k) (a_bufs a) l ->
      astep a (ELocal k) (a_upd l (a_queue a) (a_procs a) a)
  | as_call k b :
      a_procs a !! k = Some IIdle -> let x := a_bufs a !!! b in
      holdingsleep (ipid k) (lock x) = true -> needs x -> dev x = 0 \/ a_disk1 a = true ->
      astep a (ECall k b) (a_upd (a_bufs a) (a_queue a ++ [b]) (<[k := ISleep b]> (a_procs a)) a)
  | as_done ok b q :
      a_queue a = b :: q -> let x := a_bufs a !!! b in
      astep a (EIrq ok [b])
        {| a_bufs := <[b := serve_buf ok (a_disk a) x]> (a_bufs a); a_disk := serve_disk ok (a_disk a) x;
           a_queue := q; a_procs := iwake [b] <$> a_procs a; a_disk1 := a_disk1 a |}
  | as_nothing : a_queue a = [] -> astep a (ESpurious []) a
  | as_return k b :
      a_procs a !! k = Some (IWoken b) -> ~ needs (a_bufs a !!! b) ->
      astep a (EResume k true) (a_upd (a_bufs a) (a_queue a) (<[k := IIdle]> (a_procs a)) a)
  | as_resleep k b :
      a_procs a !! k = Some (IWoken b) -> b ∈ a_queue a ->
      astep a (EResume k false) (a_upd (a_bufs a) (a_queue a) (<[k := ISleep b]> (a_procs a)) a)
  | as_kill k b :
      a_procs a !! k = Some (ISleep b) ->
      astep a (EKill k) (a_upd (a_bufs a) (a_queue a) (<[k := IWoken b]> (a_procs a)) a).

Inductive asteps (a0 : aide) : list iev -> aide -> Prop :=
  | asteps_nil : asteps a0 [] a0
  | asteps_snoc es a e a' : asteps a0 es a -> astep a e a' -> asteps a0 (es ++ [e]) a'.

Definition aide_init (bufs : list buf) (c : D) (disk1 : bool) (n : nat) : aide :=
  {| a_bufs := bufs; a_disk := platter c; a_queue := []; a_procs := replicate n IIdle; a_disk1 := disk1 |}.

Record abs (s : isys) (a : aide) : Prop := {
  ab_bufs : a_bufs a = ibufs (drv s);
  ab_procs : a_procs a = iprocs s;
  ab_disk1 : a_disk1 a = havedisk1 (drv s);
  ab_disk : forall v n, a_disk a v n = platter (ctl (drv s)) v n;
  ab_ok : ide_ok s (a_queue a);
}.

(** What the holder of a buffer does is not seen by who waits for another. *)
Lemma local_frame k k' l l' c :
  local_step (ipid k) l l' -> k <> k' -> holdingsleep (ipid k') (lock (l !!! c)) = true -> l' !!! c = l !!! c.
Proof.
  intros Hl Hk Hh.
  assert (forall b, holdingsleep (ipid k) (lock (l !!! b)) = true -> c <> b) as Hc.
  { intros b Hb ->. apply Hk. unfold holdingsleep, ipid in *. rewrite andb_true_iff, Z.eqb_eq in *. lia. }
  destruct Hl as [b lk _ Ha|b _ Hb|b x _ Hb _ _]; rewrite list_lookup_total_insert_ne; try done; try (by apply not_eq_sym, Hc).
  intros ->. unfold acquiresleep in Ha. unfold holdingsleep in Hh. by destruct (sl_locked _).
Qed.

Lemma local_bufs k l l' : local_step (ipid k) l l' -> Forall ibuf_ok l -> Forall ibuf_ok l' /\ length l' = length l.
Proof.
  intros Hl Hf. assert (forall b, (b < length l)%nat -> ibuf_ok (l !!! b)) as Hb
    by (intros b Hb; by apply (Forall_lookup_total_1 _ _ _ Hf)).
  destruct Hl as [b lk Hlt _|b Hlt _|b x Hlt _ _ Hx]; (split; [apply Forall_insert; [done|]|apply length_insert]);
    [apply (Hb b Hlt)|apply (Hb b Hlt)|done].
Qed.

Lemma serve_ok ok (c : D) x : ibuf_ok x -> ibuf_ok (serve_buf ok (platter c) x).
Proof.
  intros [H1 H2]. unfold serve_buf. destruct (ok && _); (split; [exact H1|]); cbn [data set_flags set_data]; [apply platter_ok|done].
Qed.

Lemma serve_lock ok dk x : lock (serve_buf ok dk x) = lock x.
Proof. unfold serve_buf. by destruct (ok && _). Qed.

(** Only one process changes: the others keep what they had. *)
Lemma procs_insert (P : nat -> ipst -> Prop) (l : list ipst) k y x :
  l !! k = Some y -> (forall k' x', l !! k' = Some x' -> k' <> k -> P k' x') -> P k x ->
  forall k' x', <[k := x]> l !! k' = Some x' -> P k' x'.
Proof.
  intros Hk Ho Hx k' x' Hl. destruct (decide (k' = k)) as [->|Hne].
  - rewrite list_lookup_insert_eq in Hl by by eapply lookup_lt_Some. by simplify_eq.
  - rewrite list_lookup_insert_ne in Hl by done. by apply Ho.
Qed.

Lemma waits_insert (l : list ipst) k y x b :
  l !! k = Some y -> (y = ISleep b \/ y = IWoken b -> x = ISleep b \/ x = IWoken b) ->
  (exists k', l !! k' = Some (ISleep b) \/ l !! k' = Some (IWoken b)) ->
  exists k', <[k := x]> l !! k' = Some (ISleep b) \/ <[k := x]> l !! k' = Some (IWoken b).
Proof.
  intros Hk Hy [k' Hk']. exists k'. destruct (decide (k' = k)) as [->|Hne].
  - rewrite list_lookup_insert_eq by by eapply lookup_lt_Some.
    destruct Hy as [->| ->]; [destruct Hk'; [left|right]; congruence|tauto|tauto].
  - by rewrite list_lookup_insert_ne.
Qed.

Lemma sim_local (s : isys) a k l :
  abs s a -> iprocs s !! k = Some IIdle -> local_step (ipid k) (ibufs (drv s)) l ->
  exists a', astep a (ELocal k) a' /\ abs {| drv := set_ibufs l (drv s); iprocs := iprocs s |} a'.
Proof.
  intros [A1 A2 A3 A4 [[Hc Hn Hb Hk] Hf Hp Hw]] Hi Hl.
  exists (a_upd l (a_queue a) (a_procs a) a). split; [by constructor; rewrite ?A1, ?A2|].
  destruct (local_bufs _ _ _ Hl Hf) as [Hf' Hlen].
  assert (forall k' c, iprocs s !! k' <> Some IIdle -> holds k' c (drv s) -> ib (set_ibufs l (drv s)) c = ib (drv s) c) as Hsame.
  { intros k' c Hk' Hh. apply (local_frame k k' _ _ c Hl); [|exact Hh]. intros <-. done. }
  assert (forall b, b ∈ a_queue a -> ib (set_ibufs l (drv s)) b = ib (drv s) b) as Hsq.
  { intros b Hbq. destruct (Hw b Hbq) as [k' Hk']. apply (Hsame k').
    - destruct Hk'; congruence.
    - by destruct Hk' as [Hk'|Hk']; apply Hp in Hk' as [? _]. }
  split; try done. split; try done.
  - split; try done; simpl.
    + intros b Hbq. rewrite Hsq, Hlen by done. by apply Hb.
    + destruct (a_queue a) as [|b q]; [done|]. rewrite Hsq by left. done.
  - intros k' x Hk'. pose proof (Hp k' x Hk') as Hx. destruct x as [|b|b]; simpl in *; [done|..];
      destruct Hx as [Hh Hq]; unfold holds; rewrite (Hsame k') by (congruence || done); by split.
Qed.

Lemma sim_call (s : isys) a k b r :
  abs s a -> iprocs s !! k = Some IIdle -> ide_iderw (ipid k) b (drv s) = r -> (forall msg, r <> Panic msg) ->
  exists d a', r = Sleep (buf_chan b) d /\ astep a (ECall k b) a' /\ abs {| drv := d; iprocs := <[k := ISleep b]> (iprocs s) |} a'.
Proof.
  intros [A1 A2 A3 A4 Hok] Hi <- Hr. pose proof (iderw_not_panic _ _ _ Hr) as (H1 & H2 & H3).
  pose proof (idle_not_queued _ _ _ _ Hok Hi H1) as Hbq. pose proof (holds_lt _ _ _ H1) as Hlt.
  destruct Hok as [Hd Hf Hp Hw].
  destruct (iderw_call (ipid k) b (drv s) (a_queue a)) as (d & E & Hd' & E1 & E2 & E3); try done.
  { unfold ib. by apply (Forall_lookup_total_1 _ _ _ Hf). }
  exists d, (a_upd (a_bufs a) (a_queue a ++ [b]) (<[k := ISleep b]> (a_procs a)) a). split; [done|]. split.
  { apply as_call; rewrite ?A1, ?A2, ?A3; done. }
  split; simpl; rewrite ?A2, ?E1, ?E2; try done; [by intros; rewrite E3|].
  split; simpl; rewrite ?E1; try done.
  - apply (procs_insert _ _ _ _ _ Hi).
    + intros k' x Hk' Hne. pose proof (Hp k' x Hk') as Hx. destruct x as [|c|c]; simpl in *; [done|..];
        unfold holds in *; rewrite (ib_bufs (drv s) d) by done; set_solver.
    + simpl. unfold holds. rewrite (ib_bufs (drv s) d) by done. set_solver.
  - intros c Hc. apply elem_of_app in Hc as [Hc|Hc%list_elem_of_singleton].
    + eapply waits_insert; [done| |by apply Hw]. intros [?|?]; discriminate.
    + subst. exists k. left. apply list_lookup_insert_eq. by eapply lookup_lt_Some.
Qed.

Lemma iwake_holds wk k s s' x l l' :
  ipst_ok s l k x -> (forall c, lock (ib s' c) = lock (ib s c)) ->
  (forall c, c ∈ l -> c ∈ wk /\ ~ needs (ib s' c) \/ c ∉ wk /\ c ∈ l') ->
  (forall c, ~ needs (ib s c) -> ~ needs (ib s' c)) ->
  ipst_ok s' l' k (iwake wk x).
Proof.
  intros Hx Hl Hc Hn. destruct x as [|b|b]; simpl in *; [done|..]; destruct Hx as [Hh Hb].
  - destruct (decide (b ∈ wk)) as [Hbw|Hbw]; simpl; (split; [unfold holds; by rewrite Hl|]).
    + right. by destruct (Hc b Hb) as [[_ ?]|[? _]].
    + by destruct (Hc b Hb) as [[? _]|[_ ?]].
  - split; [unfold holds; by rewrite Hl|]. destruct Hb as [Hb|Hb]; [|right; by apply Hn].
    destruct (Hc b Hb) as [[_ ?]|[_ ?]]; tauto.
Qed.

Lemma sim_irq (s : isys) a c :
  abs s a -> ata_irq (ctl (drv s)) c ->
  exists b wk d a', a_queue a = b :: wk /\ ideintr (set_ctl c (drv s)) = Ret [b] d /\
    astep a (EIrq (succeeded c) [b]) a' /\
    abs {| drv := d; iprocs := iwake [b] <$> iprocs s |} a'.
Proof.
  intros [A1 A2 A3 A4 [Hd Hf Hp Hw]] Hi.
  destruct (a_queue a) as [|b q] eqn:Eq.
  { pose proof (irq_busy _ _ Hi) as Hb. pose proof (dk_ctl _ _ Hd) as Hc. by apply accepts_idle in Hc. }
  destruct (ideintr_ok b (drv s) q c Hd Hi) as (ok & d & E & Hd' & Hoks & E1 & E2 & E3).
  pose proof (dk_nodup _ _ Hd) as [Hbq Hnd]%NoDup_cons. destruct (dk_bufs _ _ Hd b) as (Hlt & Hbok & _); [left|].
  exists b, q, d. eexists. split; [done|]. split; [done|]. split; [rewrite <- Hoks; by apply (as_done a ok b q)|].
  assert (forall x, ib d x = if decide (x = b) then serve_buf ok (platter (ctl (drv s))) (ib (drv s) b) else ib (drv s) x) as Hib.
  { intros x. unfold ib. rewrite E1. destruct (decide (x = b)) as [->|].
    - by rewrite list_lookup_total_insert_eq.
    - by rewrite list_lookup_total_insert_ne. }
  split; simpl; rewrite ?A1, ?A2, ?E1, ?E2; try done.
  - f_equal. by apply serve_buf_ext.
  - intros v n. rewrite E3. unfold serve_disk, ib. by rewrite A4.
  - split; simpl; rewrite ?E1; try done.
    + apply Forall_insert; [done|]. by apply serve_ok.
    + intros k x Hx. apply list_lookup_fmap_Some in Hx as (y & -> & Hy).
      apply (iwake_holds _ _ (drv s) _ _ (b :: q) _ (Hp k y Hy)).
      * intros x. rewrite Hib. destruct (decide (x = b)) as [->|]; [apply serve_lock|done].
      * intros x Hx. rewrite Hib. destruct (decide (x = b)) as [->|Hne].
        -- left. split; [left|apply serve_not_needs].
        -- right. split; [set_solver|]. apply elem_of_cons in Hx. tauto.
      * intros x Hx. rewrite Hib. destruct (decide (x = b)) as [->|]; [apply serve_not_needs|done].
    + intros x Hx. destruct (Hw x) as [k Hk]; [by right|]. exists k. rewrite !list_lookup_fmap.
      assert (x <> b) as Hne by (intros ->; done).
      destruct Hk as [-> | ->]; [left|right]; simpl; [|done]. rewrite decide_False; [done|set_solver].
Qed.

(** A change of one waiting process only. *)
Lemma sim_proc (s : isys) a e k y x :
  abs s a -> iprocs s !! k = Some y -> astep a e (a_upd (a_bufs a) (a_queue a) (<[k := x]> (a_procs a)) a) ->
  ipst_ok (drv s) (a_queue a) k x ->
  (forall b, b ∈ a_queue a -> y = ISleep b \/ y = IWoken b -> x = ISleep b \/ x = IWoken b) ->
  exists a', astep a e a' /\ abs {| drv := drv s; iprocs := <[k := x]> (iprocs s) |} a'.
Proof.
  intros [A1 A2 A3 A4 [Hd Hf Hp Hw]] Hk Ha Hx Hy. eexists. split; [exact Ha|].
  split; simpl; rewrite ?A2; try done. split; try done; simpl.
  - apply (procs_insert _ _ _ _ _ Hk); [|done]. intros k' x' Hk' _. by apply Hp.
  - intros b Hb. eapply waits_insert; [done|by apply Hy|by apply Hw].
Qed.

Lemma iderw_wait_ret b s d : iderw_wait b s = Ret tt d -> d = s /\ ~ needs (ib s b).
Proof.
  unfold iderw_wait, bind, get, needs, ret, sleep_on.
  destruct (Z.eqb_spec (Z.land (flags (ib s b)) FLAGS) B_VALID); simpl; intros; simplify_eq; tauto.
Qed.

Lemma iderw_wait_sleep b s c d : iderw_wait b s = Sleep c d -> d = s /\ c = buf_chan b /\ needs (ib s b).
Proof.
  unfold iderw_wait, bind, get, needs, ret, sleep_on.
  destruct (Z.eqb_spec (Z.land (flags (ib s b)) FLAGS) B_VALID); simpl; intros; simplify_eq; tauto.
Qed.

Lemma spurious_ok (s : isys) a wk d :
  abs s a -> ata_accepts (cmd_of (ctl (drv s))) -> ideintr (drv s) = Ret wk d -> wk = [] /\ d = drv s /\ a_queue a = [].
Proof.
  intros [_ _ _ _ [[Hc _ _ Hk] _ _ _]] Ha. unfold ideintr, bind at 1, get.
  destruct (a_queue a) as [|b q]; simpl in Hc.
  - rewrite Hc. unfold ret; intros; by simplify_eq.
  - rewrite Hk in Ha. exfalso. unfold request in Ha.
    destruct Ha as [Ha|Ha]; by destruct (Z.land _ _ =? 0).
Qed.

Lemma iwake_nil (l : list ipst) : iwake [] <$> l = l.
Proof.
  rewrite <- (list_fmap_id l) at 2. apply list_fmap_ext. intros _ [|b|b] _; simpl; try done.
Qed.

Lemma step_sim (s s' : isys) e a : abs s a -> istep s e s' -> exists a', astep a e a' /\ abs s' a'.
Proof.
  intros Ha Hs. destruct Hs as [s k l Hk Hl|s k b d Hk E|s k b d Hk E|s c wk d Hi E|s wk d Hi E|s k b d Hk E|s k b d Hk E|s k b Hk].
  - by apply (sim_local _ _ k l).
  - destruct (sim_call s a k b _ Ha Hk E) as (d' & a' & Ed & ? & ?); [done|]. simplify_eq. by exists a'.
  - destruct (sim_call s a k b _ Ha Hk E) as (d' & a' & Ed & ? & ?); [done|]. discriminate.
  - destruct (sim_irq s a c Ha Hi) as (b & q & d' & a' & _ & E' & ? & ?). rewrite E in E'. simplify_eq. by exists a'.
  - destruct (spurious_ok _ _ _ _ Ha Hi E) as (-> & -> & Hq). exists a. split; [by apply as_nothing|].
    rewrite iwake_nil. by destruct s.
  - apply iderw_wait_ret in E as [-> Hn]. pose proof Ha as [A1 A2 _ _ Hok]. eapply sim_proc; try done.
    + apply (as_return a k b); [by rewrite A2|by rewrite A1].
    + intros c Hc [?|?]; simplify_eq. destruct Hn. by apply (dk_bufs _ _ (io_drv _ _ Hok)).
  - apply iderw_wait_sleep in E as (-> & _ & Hn). pose proof Ha as [A1 A2 _ _ Hok].
    destruct (io_procs _ _ Hok k _ Hk) as [Hh [Hq|?]]; [|tauto]. eapply sim_proc; try done.
    + apply (as_resleep a k b); [by rewrite A2|done].
    + intros c Hc [?|?]; simplify_eq. by left.
  - pose proof Ha as [A1 A2 _ _ Hok]. destruct (io_procs _ _ Hok k _ Hk) as [Hh Hq]. eapply sim_proc; try done.
    + apply (as_kill a k b). by rewrite A2.
    + split; [done|by left].
    + intros c Hc [?|?]; simplify_eq. by right.
Qed.

Lemma abs_init bufs c disk1 n : init_ok bufs c -> abs (isys_init bufs c disk1 n) (aide_init bufs c disk1 n).
Proof. intros Hi. split; try done. by apply ide_init_ok. Qed.

Lemma run_sim bufs c disk1 n es (s : isys) :
  init_ok bufs c -> isteps (isys_init bufs c disk1 n) es s ->
  exists a, asteps (aide_init bufs c disk1 n) es a /\ abs s a.
Proof.
  intros Hi Hr. induction Hr as [|es s e s' _ (a & Ra & Ha) Hs].
  - eexists. split; [apply asteps_nil|by apply abs_init].
  - destruct (step_sim _ _ _ _ Ha Hs) as (a' & Hs' & Ha'). exists a'. split; [by eapply asteps_snoc|done].
Qed.

(** ** Theorems *)

(** C13. The driver with the controller is the server: every run of the calls,
    interrupts, wake-ups and kills, with the uses of the buffers in between, is
    a run with the same events of a server that performs the requests one at a
    time and in order: a request of a dirty buffer writes the buffer to its
    block and one of a clean buffer reads the block into it, exactly when the
    controller ended the command without error (the event of an interrupt carries
    [succeeded], the controller's own state, and the server must act by it); either
    way the buffer is then valid and not dirty, and its process is woken. The
    controller is one that takes the data of a write at once ([AtaPrompt]). *)
Theorem ide_refines bufs c disk1 n es (s : isys) :
  init_ok bufs c -> isteps (isys_init bufs c disk1 n) es s ->
  exists a, asteps (aide_init bufs c disk1 n) es a /\
    a_bufs a = ibufs (drv s) /\ a_procs a = iprocs s /\
    chain (qnext (drv s)) (idequeue (drv s)) (a_queue a) /\
    forall v b, a_disk a v b = platter (ctl (drv s)) v b.
Proof.
  intros Hi Hr. destruct (run_sim _ _ _ _ _ _ Hi Hr) as (a & Ra & [A1 A2 A3 A4 Hok]).
  exists a. split_and!; try done. apply (io_drv _ _ Hok).
Qed.

(** The buffers of the calls and of the completed requests, in order. *)
Definition called (es : list iev) : list nat := omap (fun e => match e with ECall _ b => Some b | _ => None end) es.
Definition completed (es : list iev) : list nat := mjoin ((fun e => match e with EIrq _ wk | ESpurious wk => wk | _ => [] end) <$> es).

Lemma fifo_run a0 es a : a_queue a0 = [] -> asteps a0 es a -> completed es ++ a_queue a = called es.
Proof.
  intros H0 Hr. induction Hr as [|es a e a' _ IH Hs]; [done|]. unfold completed, called in *.
  rewrite omap_app, fmap_app, join_app, <- IH.
  destruct Hs as [k l|k b|ok b q Hq|Hq|k b|k b|k b]; simpl; rewrite ?app_nil_r; try done.
  - by rewrite app_assoc.
  - by rewrite Hq, <- app_assoc.
Qed.

(** Requests are served first come, first served, and no wake-up is lost:
    the completed requests and then the queue are the calls in their order; a
    process sleeps in [iderw] only while its buffer is in the queue; and while
    the queue is not empty the controller works on its first buffer, whose
    process the interrupt that ends the command wakes. *)
Theorem ide_fifo bufs c disk1 n es (s : isys) :
  init_ok bufs c -> isteps (isys_init bufs c disk1 n) es s ->
  exists l, chain (qnext (drv s)) (idequeue (drv s)) l /\ completed es ++ l = called es /\
    (forall k b, iprocs s !! k = Some (ISleep b) -> b ∈ l) /\
    match l with
    | [] => ata_accepts (cmd_of (ctl (drv s)))
    | b :: l' => cmd_of (ctl (drv s)) = request (ib (drv s) b) /\
        forall d, ata_irq (ctl (drv s)) d -> exists (s' : isys), istep s (EIrq (succeeded d) [b]) s' /\
          chain (qnext (drv s')) (idequeue (drv s')) l' /\
          forall k, iprocs s !! k = Some (ISleep b) -> iprocs s' !! k = Some (IWoken b)
    end.
Proof.
  intros Hi Hr. destruct (run_sim _ _ _ _ _ _ Hi Hr) as (a & Ra & Ha). pose proof Ha as [_ _ _ _ [Hd _ Hp _]].
  exists (a_queue a). split_and!.
  - apply Hd.
  - by apply (fifo_run (aide_init bufs c disk1 n)).
  - intros k b Hk. by apply Hp in Hk as [_ ?].
  - pose proof (dk_ctl _ _ Hd) as Hc. destruct (a_queue a) as [|b q] eqn:Eq; [done|]. split; [done|]. intros d Hirq.
    destruct (sim_irq s a d Ha Hirq) as (b' & q' & d' & a' & Eq' & E & _ & _). simplify_eq. rewrite Eq in Eq'. simplify_eq.
    destruct (ideintr_ok _ _ _ _ Hd Hirq) as (ok & d2 & E2 & Hd2 & _). rewrite E in E2. simplify_eq.
    eexists. split; [by eapply is_irq|]. split; [apply Hd2|].
    intros k Hk. simpl. rewrite list_lookup_fmap, Hk. simpl. by rewrite decide_True by by left.
Qed.

(** No panic and no endless wait: in every reachable state a process that
    holds its buffer's lock, has something to do and asks for a disk that is
    there gets its request into the queue and sleeps, and every interrupt,
    spurious ones included, is handled. *)
Theorem ide_no_panic bufs c disk1 n es (s : isys) :
  init_ok bufs c -> isteps (isys_init bufs c disk1 n) es s ->
  (forall k b, iprocs s !! k = Some IIdle -> holdingsleep (ipid k) (lock (ib (drv s) b)) = true ->
     needs (ib (drv s) b) -> dev (ib (drv s) b) = 0 \/ havedisk1 (drv s) = true ->
     exists d, ide_iderw (ipid k) b (drv s) = Sleep (buf_chan b) d) /\
  (forall d, ata_irq (ctl (drv s)) d -> exists b d', ideintr (set_ctl d (drv s)) = Ret [b] d') /\
  (ata_accepts (cmd_of (ctl (drv s))) -> ideintr (drv s) = Ret [] (drv s)).
Proof.
  intros Hi Hr. destruct (run_sim _ _ _ _ _ _ Hi Hr) as (a & Ra & Ha). pose proof Ha as [_ _ _ _ Hok]. split_and!.
  - intros k b Hk Hh Hn Hd. destruct (iderw_call (ipid k) b (drv s) (a_queue a)) as (d & E & _); try done.
    + apply Hok.
    + by eapply idle_not_queued.
    + by apply (holds_lt k).
    + unfold ib. apply (Forall_lookup_total_1 _ _ _ (io_bufs _ _ Hok)). by apply (holds_lt k).
    + by exists d.
  - intros d Hirq. destruct (sim_irq s a d Ha Hirq) as (b & _ & d' & _ & _ & E & _). by exists b, d'.
  - intros Hacc. destruct (io_drv _ _ Hok) as [Hc _ _ Hk]. unfold ideintr, bind at 1, get.
    destruct (a_queue a) as [|b q]; simpl in Hc; [by rewrite Hc|]. exfalso. rewrite Hk in Hacc.
    unfold request in Hacc. destruct Hacc as [Hc'|Hc']; by destruct (Z.land _ _ =? 0).
Qed.

(** memide.c's [iderw], where it does not panic. *)
Lemma memide_ok b (m m' : bio) :
  iderw b m = Ret tt m' -> let x := bf m b in
  (b < length (bufs m))%nat /\ holdingsleep (curpid m) (lock x) = true /\ needs x /\ dev x = 1 /\ blockno x < disksize m /\
  bufs m' = <[b := serve_buf true (fun _ => memdisk m) x]> (bufs m) /\
  (forall n, memdisk m' n = serve_disk true (fun _ => memdisk m) x (drive_of x) n).
Proof.
  intros E x. unfold iderw, bind at 1, get in E. cbv zeta in E. fold x in E.
  destruct (holdingsleep _ _) eqn:Hh; [|done]. simpl negb in E. cbv iota in E.
  destruct (Z.eqb_spec (Z.land (flags x) FLAGS) B_VALID) as [|Hn]; [done|].
  destruct (Z.eqb_spec (dev x) 1) as [Hd|]; [|done]. change (negb true) with false in E. cbv iota in E.
  destruct (Z.leb_spec (disksize m) (blockno x)) as [|Hlt]; [done|].
  assert (b < length (bufs m))%nat as Hb.
  { unfold x, bf in Hh. destruct (decide (b < length (bufs m))%nat); [done|].
    by rewrite list_lookup_total_alt, lookup_ge_None_2 in Hh by lia. }
  unfold serve_buf, serve_disk, is_dirty. rewrite Z.eqb_refl.
  destruct (Z.eqb_spec (Z.land (flags x) B_DIRTY) 0) as [Hz|Hz];
    simpl in E; unfold bind, modify in E; simplify_eq; split_and!; try done.
  - simpl. unfold bf. simpl. rewrite list_insert_insert_eq, list_lookup_total_insert_eq by done.
    fold (bf m b). fold x. unfold set_flags, set_data. cbn. f_equal. f_equal. symmetry. by apply flags_clean.
  - simpl. unfold bf. simpl. rewrite list_insert_insert_eq, list_lookup_total_insert_eq by done.
    fold (bf m b). fold x. unfold set_flags. cbn. f_equal. f_equal. apply flags_swap.
  - intros n. simpl. unfold bf. simpl. rewrite list_lookup_total_insert_eq by done. by fold (bf m b); fold x.
Qed.

(** Both drivers give the cache the same disk: where memide.c's [iderw]
    succeeds, [iderw] of ide.c on an idle controller sleeps, and after the
    interrupt of a command without error it returns with the same buffers and
    the same disk. *)
Theorem ide_as_memide (m m' : bio) s b :
  drv_ok s [] -> ibuf_ok (ib s b) -> havedisk1 s = true ->
  bufs m = ibufs s -> (forall n, memdisk m n = platter (ctl s) 1 n) ->
  iderw b m = Ret tt m' ->
  exists s1, ide_iderw (curpid m) b s = Sleep (buf_chan b) s1 /\
    forall d, ata_irq (ctl s1) d -> cmd_of d <> Failed ->
      exists s2, ideintr (set_ctl d s1) = Ret [b] s2 /\ iderw_wait b s2 = Ret tt s2 /\
        bufs m' = ibufs s2 /\ (forall n, memdisk m' n = platter (ctl s2) 1 n).
Proof.
  intros Hs Hb H1 Eb Em E. destruct (memide_ok _ _ _ E) as (Hlt & Hh & Hn & Hd & _ & Ebufs & Edisk). cbv zeta in *.
  assert (bf m b = ib s b) as Ebf by (unfold bf, ib; by rewrite Eb). rewrite Ebf, Eb in *.
  destruct (iderw_call (curpid m) b s []) as (s1 & E1 & Hs1 & F1 & F2 & F3); try done; [set_solver|by right|].
  exists s1. split; [done|]. intros d Hirq Hnf.
  destruct (ideintr_ok _ _ _ _ Hs1 Hirq) as (ok & s2 & E2 & _ & Hok & G1 & _ & G3).
  exists s2. split; [done|]. assert (ok = true) as -> by (rewrite Hok; unfold succeeded; by destruct (cmd_of d)).
  rewrite (ib_bufs s s1) in G1, G3 by done. rewrite F1 in G1.
  assert (drive_of (ib s b) = 1) as Hv by (unfold drive_of; by rewrite Hd).
  assert (ib s2 b = serve_buf true (platter (ctl s1)) (ib s b)) as Eb2
    by (unfold ib at 1; by rewrite G1, list_lookup_total_insert_eq).
  split_and!.
  - unfold iderw_wait, bind, get. rewrite Eb2. pose proof (serve_not_needs true (platter (ctl s1)) (ib s b)) as Hsn.
    unfold needs in Hsn. apply dec_stable in Hsn. by rewrite Hsn.
  - rewrite Ebufs, G1. f_equal. unfold serve_buf. by rewrite Hv, Em, F3.
  - intros n. rewrite Edisk, G3. unfold serve_disk. by rewrite Hv, Em, F3.
Qed.

End Driver.

(** ** A controller that keeps the promises

    Its status is always ready; the registers, the command and the memory are
    kept as they are written. Contents that are no block read as zeroes. *)

#[export] Instance block_ok_dec l : Decision (block_ok l).
Proof. unfold block_ok. apply _. Defined.

Definition as_block (l : list Z) : block := if decide (block_ok l) then l else zero_block.

Lemma as_block_ok l : block_ok (as_block l).
Proof. unfold as_block. case_decide; [done|apply block_ok_zero]. Qed.

Lemma as_block_id l : block_ok l -> as_block l = l.
Proof. intros Hl. unfold as_block. by rewrite decide_True. Qed.

Record pdisk {prompt : bool} := { pd_regs : Z -> Z; pd_cmd : ata_cmd; pd_data : Z -> Z -> list Z }.
Arguments pdisk : clear implicits.

Lemma pd_write_cmd (prompt : bool) v n :
  (if prompt then WriteData else WriteWait) v n = WriteWait v n \/
  (if prompt then WriteData else WriteWait) v n = WriteData v n.
Proof. destruct prompt; [by right|by left]. Qed.

Section Pdisk.
Context {prompt : bool}.
Implicit Types d : pdisk prompt.

Definition pd_command (d : pdisk prompt) : ata_cmd :=
  match pd_cmd d with WriteBusy v n x => WriteBusy v n (as_block x) | c => c end.
Definition pd_platter (d : pdisk prompt) (v n : Z) : block := as_block (pd_data d v n).

Definition pd_inb (p : Z) (d : pdisk prompt) : Z * pdisk prompt :=
  match pd_cmd d with
  | Failed => (65, d)
  | ReadBusy v n => (64, {| pd_regs := pd_regs d; pd_cmd := ReadReady v n; pd_data := pd_data d |})
  | WriteWait v n => (72, {| pd_regs := pd_regs d; pd_cmd := WriteData v n; pd_data := pd_data d |})
  | _ => (64, d)
  end.
Definition pd_outb (p v : Z) (d : pdisk prompt) : pdisk prompt :=
  if p =? 503 then
    {| pd_regs := pd_regs d;
       pd_cmd := (if v =? IDE_CMD_READ then ReadBusy else if prompt then WriteData else WriteWait) (reg_drive (pd_regs d)) (reg_lba (pd_regs d));
       pd_data := pd_data d |}
  else {| pd_regs := fun q => if q =? p then v else pd_regs d q; pd_cmd := pd_cmd d; pd_data := pd_data d |}.
Definition pd_insl (p n : Z) (d : pdisk prompt) : block * pdisk prompt :=
  match pd_cmd d with
  | ReadReady v n => (pd_platter d v n, {| pd_regs := pd_regs d; pd_cmd := NoCmd; pd_data := pd_data d |})
  | _ => (zero_block, d)
  end.
Definition pd_outsl (p : Z) (x : block) (n : Z) (d : pdisk prompt) : pdisk prompt :=
  match pd_cmd d with
  | WriteData v n => {| pd_regs := pd_regs d; pd_cmd := WriteBusy v n x; pd_data := pd_data d |}
  | _ => d
  end.

(** The end of a command, with or without an error. *)
Definition pd_done (ok : bool) (d : pdisk prompt) : pdisk prompt :=
  match pd_cmd d with
  | ReadBusy v n =>
      {| pd_regs := pd_regs d; pd_cmd := if ok then ReadReady v n else Failed; pd_data := pd_data d |}
  | WriteBusy v n x =>
      {| pd_regs := pd_regs d; pd_cmd := if ok then NoCmd else Failed;
         pd_data := fun w m => if ok && (w =? v) && (m =? n) then x else pd_data d w m |}
  | _ => d
  end.

#[export] Instance pd_ata : Ata (pdisk prompt) :=
  {| inb := pd_inb; outb := pd_outb; insl := pd_insl; outsl := pd_outsl; ready_in := fun _ => O |}.

#[export, refine] Instance pd_ata_ok : AtaOk (pdisk prompt) :=
  {| regs := pd_regs; cmd_of := pd_command; platter := pd_platter;
     ata_irq := fun d d' => ata_busy (pd_command d) /\ (forall v n, pd_command d <> WriteWait v n) /\
                            exists ok, d' = pd_done ok d |}.
Proof.
  - intros. apply as_block_ok.
  - intros d Hb. simpl. unfold pd_inb, pd_command in *. destruct (pd_cmd d) eqn:E; simpl; rewrite ?E; done.
  - intros d _. left. simpl. unfold pd_inb. by destruct (pd_cmd d).
  - intros d v n Hc. simpl. unfold pd_inb, pd_command in *. destruct (pd_cmd d); simplify_eq. simpl. auto.
  - intros d Hb _. unfold pd_command in *. simpl. unfold pd_inb. destruct (pd_cmd d); simpl; split; (done || congruence).
  - intros p v d Hp Hv Ha. simpl. unfold pd_outb. destruct (Z.eqb_spec p 503); [lia|]. done.
  - intros d Ha H1 H2. done.
  - intros d Ha H1 H2. simpl. split; [|done]. unfold pd_command. simpl.
    destruct (pd_write_cmd prompt (reg_drive (pd_regs d)) (reg_lba (pd_regs d))) as [-> | ->]; [by left|by right].
  - intros d v n Hc. simpl. unfold pd_inb, pd_command in *. destruct (pd_cmd d); simplify_eq. simpl.
    split; [done|]. by left.
  - intros v n x d Hc Hx. simpl. unfold pd_outsl, pd_command in *. destruct (pd_cmd d) eqn:E; simplify_eq. simpl.
    rewrite as_block_id by done. done.
  - intros v n d Hc. simpl. unfold pd_insl, pd_command in *. destruct (pd_cmd d) eqn:E; by simplify_eq.
  - by intros d d' [Hb _].
  - intros d d' v n [_ [_ [ok ->]]] Hc. unfold pd_done, pd_command in *. destruct (pd_cmd d) eqn:E; simplify_eq.
    simpl. destruct ok; auto.
  - intros d d' v n x [_ [_ [ok ->]]] Hc. unfold pd_done, pd_command in *. destruct (pd_cmd d) eqn:E; simplify_eq.
    simpl. destruct ok; [left|right]; (split; [done|]); intros w m; unfold pd_platter; simpl; [|done].
    by destruct (_ && _).
Defined.

End Pdisk.

#[export, refine] Instance pd_prompt : AtaPrompt (pdisk true) := {| drq_at_once := _ |}.
Proof. intros d v n. simpl. unfold pd_command. simpl. done. Defined.

(** ** Witnesses: two buffers, one to be read and one to be written *)

Definition w_data (v : Z) : block := replicate (Z.to_nat BSIZE) v.
Definition w_buf (fl n v : Z) (k : nat) : buf :=
  {| flags := fl; dev := 1; blockno := n; lock := {| sl_locked := true; sl_pid := ipid k |}; refcnt := 1;
     prev := O; next := O; data := w_data v |}.
Definition w_bufs : list buf := [w_buf 0 7 1 0; w_buf (Z.lor B_VALID B_DIRTY) 300 2 1].
Definition w_disk : pdisk true := {| pd_regs := fun _ => 0; pd_cmd := NoCmd; pd_data := fun _ _ => w_data 9 |}.

Lemma w_data_ok v : 0 <= v < 256 -> block_ok (w_data v).
Proof. intros Hv. split; [apply length_replicate|]. by apply Forall_replicate. Qed.

Lemma w_init_ok : init_ok w_bufs w_disk.
Proof.
  split; [|by left]. repeat apply Forall_cons_2; [| |apply Forall_nil_2];
    (split; [vm_compute; split; congruence|by apply w_data_ok]).
Qed.

Definition w_init : isys := isys_init w_bufs w_disk true 2.
Definition w_es : list iev := [ECall 0 0; ECall 1 1; EIrq true [O]; EResume 0 true].

(** The state after a run in which nothing panics. *)
Definition out_state {A} (s : ide (pdisk true)) (r : outcome (ide (pdisk true)) A) : ide (pdisk true) :=
  match r with Ret _ d | Sleep _ d => d | _ => s end.
Definition w_d1 : ide (pdisk true) := out_state (drv w_init) (ide_iderw (ipid 0) 0 (drv w_init)).
Definition w_d2 : ide (pdisk true) := out_state w_d1 (ide_iderw (ipid 1) 1 w_d1).
Definition w_d3 : ide (pdisk true) := out_state w_d2 (ideintr (set_ctl (pd_done true (ctl w_d2)) w_d2)).
Definition w_s1 : isys := {| drv := w_d1; iprocs := <[O := ISleep 0]> (iprocs w_init) |}.
Definition w_s2 : isys := {| drv := w_d2; iprocs := <[1%nat := ISleep 1]> (iprocs w_s1) |}.
Definition w_s3 : isys := {| drv := w_d3; iprocs := iwake [O] <$> iprocs w_s2 |}.
Definition w_end : isys := {| drv := w_d3; iprocs := <[O := IIdle]> (iprocs w_s3) |}.

Lemma w_run : isteps w_init w_es w_end.
Proof.
  change w_es with (((([] ++ [ECall 0 0]) ++ [ECall 1 1]) ++ [EIrq true [O]]) ++ [EResume 0 true]).
  apply (isteps_snoc _ _ w_s3); [apply (isteps_snoc _ _ w_s2); [apply (isteps_snoc _ _ w_s1); [apply (isteps_snoc _ _ w_init); [apply isteps_nil|]|]|]|].
  - apply (is_call w_init 0 0 w_d1); [reflexivity|vm_compute; reflexivity].
  - apply (is_call w_s1 1 1 w_d2); [reflexivity|vm_compute; reflexivity].
  - assert (succeeded (pd_done true (ctl w_d2)) = true) as E by (vm_compute; reflexivity).
    pose proof (is_irq w_s2 (pd_done true (ctl w_d2)) [O] w_d3) as Hs. rewrite E in Hs. apply Hs; [split_and!; [vm_compute; exact I|vm_compute; discriminate|by exists true]|vm_compute; reflexivity].
  - apply (is_return w_s3 0 0 w_d3); [reflexivity|vm_compute; reflexivity].
Qed.

Lemma ide_refines_witness : init_ok w_bufs w_disk /\ isteps w_init w_es w_end /\
  exists a, asteps (aide_init w_bufs w_disk true 2) w_es a /\ a_bufs a = ibufs (drv w_end) /\
    data (ib (drv w_end) 0) = w_data 9.
Proof.
  split; [exact w_init_ok|]. split; [exact w_run|].
  destruct (ide_refines w_bufs w_disk true 2 w_es w_end w_init_ok w_run) as (a & Ha & Hb & _).
  exists a. split; [exact Ha|]. split; [exact Hb|vm_compute; reflexivity].
Defined.

(** Why the driver needs [AtaPrompt]: on a controller that keeps every promise of
    [AtaOk] but takes one look at the status to show DRQ, the data of a write are
    lost, no interrupt ever comes, and the process sleeps for ever. *)
Definition slow_drv : ide (pdisk false) :=
  {| ibufs := w_bufs; qnext := fun _ => None; idequeue := None; havedisk1 := true;
     ctl := {| pd_regs := fun _ => 0; pd_cmd := NoCmd; pd_data := fun _ _ => w_data 9 |} |}.

Theorem write_before_drq_hangs :
  exists s, ide_iderw (ipid 1) 1 slow_drv = Sleep (buf_chan 1) s /\
    cmd_of (ctl s) = WriteWait 1 300 /\ forall d, ~ ata_irq (ctl s) d.
Proof.
  destruct (ide_iderw (ipid 1) 1 slow_drv) as [?|?|c s|] eqn:E; [vm_compute in E; discriminate..| |vm_compute in E; discriminate].
  assert (pd_cmd (ctl s) = WriteWait 1 300 /\ c = buf_chan 1) as [Ec ->].
  { vm_compute in E. injection E as <- <-. done. }
  exists s. split; [done|]. assert (cmd_of (ctl s) = WriteWait 1 300) as Hc.
  { simpl. unfold pd_command. by rewrite Ec. }
  split; [exact Hc|]. intros d (_ & Hn & _). by apply (Hn 1 300).
Qed.

Lemma ide_fifo_witness : init_ok w_bufs w_disk /\ isteps w_init w_es w_end /\
  exists l, completed w_es ++ l = [0%nat; 1%nat] /\ (1%nat ∈ l).
Proof.
  split; [exact w_init_ok|]. split; [exact w_run|].
  destruct (ide_fifo w_bufs w_disk true 2 w_es w_end w_init_ok w_run) as (l & _ & Hl & Hs & _).
  exists l. split; [exact Hl|]. apply (Hs 1%nat 1%nat). reflexivity.
Defined.

Lemma ide_no_panic_witness : init_ok w_bufs w_disk /\ isteps w_init [] w_init /\
  exists d, ide_iderw (ipid 1) 1 (drv w_init) = Sleep (buf_chan 1) d.
Proof.
  split; [exact w_init_ok|]. split; [apply isteps_nil|].
  destruct (ide_no_panic w_bufs w_disk true 2 [] w_init w_init_ok (isteps_nil _)) as [H _].
  apply (H 1%nat 1%nat); [reflexivity|reflexivity|vm_compute; congruence|right; reflexivity].
Defined.

Definition w_mem : bio :=
  {| bufs := w_bufs; memdisk := fun _ => w_data 9; disksize := IDE_FSSIZE; trace := []; curpid := ipid 1 |}.
Definition w_mem' : bio := match iderw 1 w_mem with Ret _ m => m | _ => w_mem end.

Lemma w_platter n : memdisk w_mem n = platter (ctl (drv w_init)) 1 n.
Proof.
  change (w_data 9 = as_block (w_data 9)). rewrite as_block_id; [done|]. by apply w_data_ok.
Qed.

Lemma w_drv_ok : drv_ok (drv w_init) [].
Proof. apply (io_drv _ _ (ide_init_ok w_bufs w_disk true 2 w_init_ok)). Qed.

Lemma ide_as_memide_witness : iderw 1 w_mem = Ret tt w_mem' /\
  exists s1, ide_iderw (ipid 1) 1 (drv w_init) = Sleep (buf_chan 1) s1 /\
    forall d, ata_irq (ctl s1) d -> cmd_of d <> Failed -> exists s2, ideintr (set_ctl d s1) = Ret [1%nat] s2 /\
      forall n, memdisk w_mem' n = platter (ctl s2) 1 n.
Proof.
  assert (iderw 1 w_mem = Ret tt w_mem') as E by (vm_compute; reflexivity). split; [exact E|].
  destruct (ide_as_memide w_mem w_mem' (drv w_init) 1 w_drv_ok) as (s1 & E1 & H1);
    [exact (Forall_lookup_1 _ _ _ _ (proj1 w_init_ok) (eq_refl : w_bufs !! 1%nat = Some _))|
     reflexivity|reflexivity|exact w_platter|exact E|].
  exists s1. split; [exact E1|]. intros d Hi Hf. destruct (H1 d Hi Hf) as (s2 & E2 & _ & _ & E3).
  exists s2. split; [exact E2|exact E3].
Defined.
