(* ===== verification/UserProgs.v ===== *)
(** User programs: grep.c, wc.c, cat.c, echo.c and fmtname of ls.c.

    A string is the list of its bytes before the NUL. What the [read]s of a file
    return is a list of pieces, since pipes and the console return what there
    is: a [read] takes as much of the next piece as there is room for, and after
    the last piece it returns 0.

    The matcher of grep decides the language of its patterns ([match_spec]),
    and grep prints exactly the matching lines of a file whose lines fit its
    buffer ([grep_file]); wc counts the same however the input is cut
    ([wc_counts]). *)

From Stdlib Require Import ZArith Lia.
From stdpp Require Import base strings gmap numbers list.
From S2P Require Import Prelude.

Open Scope Z_scope.

(** ** Reading and searching *)

(** One [read] with room for [room] bytes: the bytes, and what later reads get. *)
Definition read_piece (room : nat) (pieces : list (list Z)) : list Z * list (list Z) :=
  match pieces with
  | [] => ([], [])
  | x :: rest => (take room x, match drop room x with [] => rest | y => y :: rest end)
  end.

(** [strchr] of ulib.c, as an offset, in the string at the start of [s]; a NUL
    follows the bytes [s]. *)
Fixpoint str_find (s : list Z) (c : Z) : option nat :=
  match s with
  | [] => None
  | x :: s' => if x =? 0 then None else if x =? c then Some O else S <$> str_find s' c
  end.

(** ** grep *)

(** [matchstar], given [matchhere] of the rest of the pattern. *)
Fixpoint matchstar_with (mh : list Z -> bool) (c : Z) (text : list Z) : bool :=
  mh text ||
  match text with
  | [] => false
  | t :: text' => ((t =? c) || (c =? 46)) && matchstar_with mh c text'
  end.

Fixpoint matchhere (re : list Z) (text : list Z) : bool :=
  match re with
  | [] => true
  | c :: re1 =>
      match re1 with
      | 42 :: re2 => matchstar_with (matchhere re2) c text
      | _ =>
          if (c =? 36) && bool_decide (re1 = []) then bool_decide (text = [])
          else match text with
               | t :: text' => if (c =? 46) || (c =? t) then matchhere re1 text' else false
               | [] => false
               end
      end
  end.

Definition matchstar (c : Z) (re text : list Z) : bool := matchstar_with (matchhere re) c text.

(** The loop of [match]. *)
Fixpoint match_loop (re text : list Z) : bool :=
  matchhere re text || match text with [] => false | _ :: text' => match_loop re text' end.

Definition match_re (re text : list Z) : bool :=
  match re with
  | 94 :: re1 => matchhere re1 text
  | _ => match_loop re text
  end.

(** The lines in [p], the bytes of the buffer from [p] on: what is left after
    the last newline, and what is written. *)
Fixpoint grep_lines (fuel : nat) (pattern p : list Z) : option (list Z * list Z) :=
  match str_find p 10 with
  | None => Some (p, [])
  | Some q =>
      match fuel with
      | O => None
      | S fuel' =>
          let out := if match_re pattern (take q p) then take (S q) p else [] in
          '(p', out') ← grep_lines fuel' pattern (drop (S q) p);
          Some (p', out ++ out')
      end
  end.

(** [buf] holds the [m] bytes [cur]. *)
Fixpoint grep_loop (fuel : nat) (pattern cur : list Z) (pieces : list (list Z)) : option (list Z) :=
  let '(x, pieces') := read_piece (1024 - length cur - 1) pieces in
  match x with
  | [] => Some []
  | _ =>
      match fuel with
      | O => None
      | S fuel' =>
          let buf := cur ++ x in
          '(p, out) ← grep_lines (length buf) pattern buf;
          let cur' := if bool_decide (length p = length buf) then [] else p in
          out' ← grep_loop fuel' pattern cur' pieces';
          Some (out ++ out')
      end
  end.

Definition grep (pattern : list Z) (pieces : list (list Z)) : option (list Z) :=
  grep_loop (length (mjoin pieces)) pattern [] pieces.

(** ** wc *)

(** [l], [w], [c] and [inword]. *)
Record wcount := { wc_l : Z; wc_w : Z; wc_c : Z; wc_in : bool }.

Definition wc_byte (s : wcount) (b : Z) : wcount :=
  let l := if b =? 10 then i32 (wc_l s + 1) else wc_l s in
  let c := i32 (wc_c s + 1) in
  match str_find [32; 13; 9; 10; 11] b with
  | Some _ => {| wc_l := l; wc_w := wc_w s; wc_c := c; wc_in := false |}
  | None =>
      if wc_in s then {| wc_l := l; wc_w := wc_w s; wc_c := c; wc_in := true |}
      else {| wc_l := l; wc_w := i32 (wc_w s + 1); wc_c := c; wc_in := true |}
  end.

Fixpoint wc_loop (fuel : nat) (s : wcount) (pieces : list (list Z)) : option wcount :=
  let '(x, pieces') := read_piece 512 pieces in
  match x with
  | [] => Some s
  | _ => match fuel with O => None | S fuel' => wc_loop fuel' (foldl wc_byte s x) pieces' end
  end.

(** The numbers that [wc] prints when the last [read] returns 0. *)
Definition wc (pieces : list (list Z)) : option (Z * Z * Z) :=
  s ← wc_loop (length (mjoin pieces)) {| wc_l := 0; wc_w := 0; wc_c := 0; wc_in := false |} pieces;
  Some (wc_l s, wc_w s, wc_c s).

(** ** cat *)

(** [wr i] is what the [i]th [write] returns; the bytes written, and whether
    the program got to the end of the input. *)
Fixpoint cat_loop (fuel : nat) (wr : nat -> Z) (i : nat) (pieces : list (list Z)) : option (list Z * bool) :=
  let '(x, pieces') := read_piece 512 pieces in
  match x with
  | [] => Some ([], true)
  | _ =>
      match fuel with
      | O => None
      | S fuel' =>
          if negb (wr i =? Z.of_nat (length x)) then Some (take (Z.to_nat (wr i)) x, false)
          else '(out, b) ← cat_loop fuel' wr (S i) pieces'; Some (x ++ out, b)
      end
  end.
Definition cat (wr : nat -> Z) (pieces : list (list Z)) : option (list Z * bool) :=
  cat_loop (length (mjoin pieces)) wr O pieces.

(** ** echo and ls *)

Fixpoint echo (args : list (list Z)) : list Z :=
  match args with
  | [] => []
  | a :: args' => a ++ match args' with [] => [10] | _ => [32] end ++ echo args'
  end.

(** The loop of [fmtname]: [p + 1] where it ends, as an offset; [i] bytes of
    the path are before [p], whose byte (or the NUL) is looked at first. *)
Fixpoint after_slash (path : list Z) (i : nat) : nat :=
  if bool_decide (path !! i = Some 47) then S i
  else match i with O => O | S i' => after_slash path i' end.

Abbreviation DIRSIZ := 14%nat (only parsing).

(** The string it returns. *)
Definition fmtname (path : list Z) : list Z :=
  let p := drop (after_slash path (length path)) path in
  if bool_decide (DIRSIZ <= length p)%nat then p
  else p ++ replicate (DIRSIZ - length p) 32.

(** ** The language of a pattern *)

Inductive item := One (c : Z) | Many (c : Z) | AtEnd.

Fixpoint items (re : list Z) : list item :=
  match re with
  | [] => []
  | c :: re1 =>
      match re1 with
      | 42 :: re2 => Many c :: items re2
      | _ => if (c =? 36) && bool_decide (re1 = []) then [AtEnd] else One c :: items re1
      end
  end.

(** [c] stands for itself, and the point for every byte. *)
Definition stands_for (c t : Z) : Prop := c = 46 \/ c = t.

(** [lang its s rest]: the items match [s] where [rest] follows it. *)
Inductive lang : list item -> list Z -> list Z -> Prop :=
  | lang_nil rest : lang [] [] rest
  | lang_end : lang [AtEnd] [] []
  | lang_one c its t s rest : stands_for c t -> lang its s rest -> lang (One c :: its) (t :: s) rest
  | lang_many c its s1 s rest :
      Forall (stands_for c) s1 -> lang its s rest -> lang (Many c :: its) (s1 ++ s) rest.

Lemma stands_for_spec c t : (c =? 46) || (c =? t) = true <-> stands_for c t.
Proof. unfold stands_for. rewrite orb_true_iff, !Z.eqb_eq. tauto. Qed.


Lemma matchhere_one c re text :
  (forall re', re <> 42 :: re') -> (c <> 36 \/ re <> []) ->
  matchhere (c :: re) text =
    (match text with t :: text' => if (c =? 46) || (c =? t) then matchhere re text' else false | [] => false end) /\
  items (c :: re) = One c :: items re.
Proof.
  intros Hs He. assert ((c =? 36) && bool_decide (re = []) = false) as Hb.
  { destruct (Z.eqb_spec c 36); [|done]. rewrite bool_decide_false; [done|tauto]. }
  cbn [matchhere items]. destruct re as [|d re].
  - by rewrite Hb.
  - destruct (decide (d = 42)) as [->|Hd]; [by destruct (Hs re)|]. rewrite Hb.
    destruct d as [|p|p]; [done| |done]. do 6 (destruct p as [p|p|]; try done).
Qed.

Lemma matchstar_spec mh c text :
  matchstar_with mh c text = true <->
  exists s rest, text = s ++ rest /\ Forall (stands_for c) s /\ mh rest = true.
Proof.
  induction text as [|t text IH]; simpl.
  - rewrite orb_false_r. split.
    + intros Hm. by exists [], [].
    + intros (s & rest & E & _ & Hm). symmetry in E. apply app_eq_nil in E as [-> ->]. done.
  - rewrite orb_true_iff, andb_true_iff, IH, (Z.eqb_sym t), orb_comm, stands_for_spec. split.
    + intros [Hm|(Hc & s & rest & -> & Hs & Hm)]; [by exists [], (t :: text)|].
      exists (t :: s), rest. split; [done|]. split; [by constructor|done].
    + intros (s & rest & E & Hs & Hm). destruct s as [|t' s]; simpl in E; simplify_eq; [by left|].
      apply Forall_cons in Hs as [Hc Hs]. right. split; [done|]. by exists s, rest.
Qed.

Lemma matchhere_spec re text :
  matchhere re text = true <-> exists s rest, text = s ++ rest /\ lang (items re) s rest.
Proof.
  revert text. induction re as [re IH] using (induction_ltof1 _ (@length Z)); unfold ltof in IH. intros text.
  destruct re as [|c re].
  { split; [|done]. intros _. exists [], text. split; [done|constructor]. }
  destruct (decide (c = 36 /\ re = [])) as [[-> ->]|He].
  { cbn. rewrite bool_decide_eq_true. split.
    - intros ->. exists [], []. split; [done|constructor].
    - intros (s & rest & -> & Hl). inversion Hl. by subst. }
  destruct (decide (head re = Some 42)) as [Hh|Hh].
  { destruct re as [|d re]; [done|]. simpl in Hh. injection Hh as ->.
    cbn [matchhere items]. rewrite matchstar_spec. split.
    - intros (s1 & rest & -> & Hs & Hm). apply IH in Hm as (s & rest' & -> & Hl); [|simpl; lia].
      exists (s1 ++ s), rest'. split; [by rewrite app_assoc|by constructor].
    - intros (s & rest & -> & Hl). inversion Hl as [| | |c' its s1 s' rest' Hs Hl']; subst.
      exists s1, (s' ++ rest). split; [by rewrite app_assoc|]. split; [done|].
      apply IH; [simpl; lia|]. by exists s', rest. }
  destruct (matchhere_one c re text) as [-> ->]; [by intros re' ->|destruct (decide (c = 36)); [right|left]; naive_solver|].
  split.
  - destruct text as [|t text]; [done|]. destruct ((c =? 46) || (c =? t)) eqn:Hc; [|done]. intros Hm.
    apply stands_for_spec in Hc. apply IH in Hm as (s & rest & -> & Hl); [|simpl; lia].
    exists (t :: s), rest. split; [done|by constructor].
  - intros (s & rest & -> & Hl). inversion Hl as [| |c' its t s' rest' Hc Hl'|]; subst. simpl.
    rewrite (proj2 (stands_for_spec _ _) Hc). apply IH; [simpl; lia|]. by exists s', rest.
Qed.

Lemma match_loop_spec re text :
  match_loop re text = true <-> exists pre s rest, text = pre ++ s ++ rest /\ lang (items re) s rest.
Proof.
  induction text as [|t text IH]; cbn [match_loop]; rewrite orb_true_iff, matchhere_spec.
  - split.
    + intros [(s & rest & E & Hl)|?]; [|done]. by exists [], s, rest.
    + intros (pre & s & rest & E & Hl). left. exists s, rest. split; [|done].
      symmetry in E. apply app_eq_nil in E as [_ ->]. done.
  - rewrite IH. split.
    + intros [(s & rest & E & Hl)|(pre & s & rest & -> & Hl)]; [by exists [], s, rest|by exists (t :: pre), s, rest].
    + intros (pre & s & rest & E & Hl). destruct pre as [|t' pre]; simpl in E; simplify_eq.
      * left. by exists s, rest.
      * right. by exists pre, s, rest.
Qed.

(** A pattern is looked for anywhere in the text, or at its start after [^]. *)
Definition matches (re text : list Z) : Prop :=
  match re with
  | 94 :: re1 => exists s rest, text = s ++ rest /\ lang (items re1) s rest
  | _ => exists pre s rest, text = pre ++ s ++ rest /\ lang (items re) s rest
  end.

(** C26. The matcher of grep decides the language of the pattern: [match] says
    yes exactly when some part of the text, at its start for a pattern with
    [^], is a word of the pattern's items: bytes, the point for every byte, a
    star for any number of what is before it, and [$] for the end. *)
Theorem match_spec re text : match_re re text = true <-> matches re text.
Proof.
  unfold match_re, matches. destruct re as [|c re]; [apply match_loop_spec|].
  destruct (decide (c = 94)) as [->|Hc]; [apply matchhere_spec|].
  destruct c as [|p|p]; [apply match_loop_spec| |apply match_loop_spec].
  do 7 (destruct p as [p|p|]; try apply match_loop_spec). done.
Qed.

(** ** The lines of a file *)

Definition unlines (ls : list (list Z)) : list Z := mjoin ((fun l => l ++ [10]) <$> ls).

(** The selected lines. *)
Definition selected (pattern : list Z) (ls : list (list Z)) : list (list Z) :=
  filter (fun l => match_re pattern l = true) ls.

(** A line without NUL that fits the buffer, whose last byte is for the NUL. *)
Definition line_ok (l : list Z) : Prop := 10 ∉ l /\ 0 ∉ l /\ (length l + 1 < 1024)%nat.

Lemma unlines_cons l ls : unlines (l :: ls) = l ++ 10 :: unlines ls.
Proof. unfold unlines. simpl. by rewrite <- app_assoc. Qed.

Lemma unlines_app l1 l2 : unlines (l1 ++ l2) = unlines l1 ++ unlines l2.
Proof. unfold unlines. by rewrite fmap_app, join_app. Qed.

Lemma str_find_line l s : 10 ∉ l -> 0 ∉ l -> str_find (l ++ 10 :: s) 10 = Some (length l).
Proof.
  induction l as [|x l IH]; intros H1 H2; [done|]. apply not_elem_of_cons in H1 as [H1 H1'], H2 as [H2 H2'].
  simpl. destruct (Z.eqb_spec x 0); [congruence|]. destruct (Z.eqb_spec x 10); [congruence|]. by rewrite IH.
Qed.

Lemma str_find_none s : 10 ∉ s -> str_find s 10 = None.
Proof.
  induction s as [|x s IH]; intros Hs; [done|]. apply not_elem_of_cons in Hs as [H1 Hs]. simpl.
  destruct (x =? 0); [done|]. destruct (Z.eqb_spec x 10); [congruence|]. by rewrite IH.
Qed.

(** The complete lines in a part of the file that starts with a line. *)
Lemma grep_lines_ok fuel pattern ls last buf y :
  Forall line_ok ls -> 10 ∉ last -> buf ++ y = unlines ls ++ last -> (length buf <= fuel)%nat ->
  exists ls1 ls2 p, ls = ls1 ++ ls2 /\ buf = unlines ls1 ++ p /\ p ++ y = unlines ls2 ++ last /\ 10 ∉ p /\
    (forall l ls', ls2 = l :: ls' -> (length p <= length l)%nat) /\
    grep_lines fuel pattern buf = Some (p, unlines (selected pattern ls1)).
Proof.
  revert ls buf. induction fuel as [|fuel IH]; intros ls buf Hls Hlast E Hf.
  { destruct buf; simpl in Hf; [|lia]. exists [], ls, []. split_and!; try done; [set_solver|intros; simpl; lia]. }
  assert (forall l ls', ls = l :: ls' -> (length buf <= length l)%nat -> 10 ∉ buf) as Hshort.
  { intros l ls' -> Hl. apply Forall_cons in Hls as [(H10 & _) _]. rewrite unlines_cons, <- app_assoc in E.
    apply (f_equal (take (length buf))) in E. rewrite take_app_length, take_app_le in E by done. rewrite E.
    intros Hi. apply H10. eapply elem_of_take in Hi as (i & Hi & _). by eapply list_elem_of_lookup_2. }
  destruct ls as [|l ls].
  { exists [], [], buf. assert (10 ∉ buf) as Hn by (intros Hi; apply Hlast; rewrite <- (app_nil_l last); change [] with (unlines []) at 1; rewrite <- E; set_solver).
    split_and!; try done. cbn. by rewrite str_find_none. }
  destruct (decide (length buf <= length l)%nat) as [Hl|Hl].
  { exists [], (l :: ls), buf. split_and!; try done.
    - by eapply Hshort.
    - by intros ? ? [= <- <-].
    - cbn. by rewrite str_find_none by by eapply Hshort. }
  apply Forall_cons in Hls as [(H10 & H0 & Hlen) Hls]. rewrite unlines_cons, <- app_assoc in E. simpl in E.
  assert (exists buf', buf = l ++ 10 :: buf') as [buf' ->].
  { assert (take (S (length l)) buf = l ++ [10]) as Ht.
    { apply (f_equal (take (S (length l)))) in E. rewrite take_app_le in E by lia. rewrite E.
      rewrite take_app_ge by lia. replace (S (length l) - length l)%nat with 1%nat by lia. done. }
    exists (drop (S (length l)) buf). rewrite <- (take_drop (S (length l)) buf) at 1. by rewrite Ht, <- app_assoc. }
  rewrite <- app_assoc in E. simpl in E. apply app_inv_head in E. injection E as E.
  rewrite length_app in Hf. simpl in Hf.
  destruct (IH ls buf' Hls Hlast E) as (ls1 & ls2 & p & -> & -> & Ep & Hp & Hp2 & Eg); [lia|].
  exists (l :: ls1), ls2, p. split_and!; try done.
  - rewrite unlines_cons, <- app_assoc. done.
  - cbn [grep_lines]. rewrite str_find_line by done.
    rewrite take_app_length. replace (S (length l)) with (length l + 1)%nat by lia.
    rewrite drop_app_add. cbn [drop]. rewrite drop_0, Eg. cbn [mbind option_bind]. unfold selected. rewrite filter_cons.
    destruct (decide (match_re pattern l = true)) as [Hm|Hm].
    + rewrite Hm, unlines_cons, take_app_add. simpl. by rewrite take_0, <- app_assoc.
    + apply not_true_is_false in Hm. by rewrite Hm.
Qed.

(** What is left of a file: nothing, or one piece. *)
Definition file_rest (rest : list Z) : list (list Z) := match rest with [] => [] | _ => [rest] end.

Lemma read_file room rest :
  read_piece room (file_rest rest) = (take room rest, file_rest (drop room rest)).
Proof. destruct rest; simpl; [by rewrite take_nil, drop_nil|]. by destruct (drop room _). Qed.

Lemma grep_loop_ok pattern fuel : forall cur rest ls last,
  Forall line_ok ls -> 10 ∉ last -> 10 ∉ cur -> (length cur < 1023)%nat ->
  cur ++ rest = unlines ls ++ last -> (length rest <= fuel)%nat ->
  grep_loop fuel pattern cur (file_rest rest) = Some (unlines (selected pattern ls)).
Proof.
  induction fuel as [|fuel IH]; intros cur rest ls last Hls Hlast Hcur Hlen E Hf.
  - destruct rest; simpl in Hf; [|lia]. rewrite app_nil_r in E. destruct ls as [|l ls]; [done|].
    exfalso. apply Hcur. rewrite E, unlines_cons. set_solver.
  - cbn [grep_loop]. rewrite read_file. set (room := (1024 - length cur - 1)%nat).
    destruct (take room rest) as [|x0 x] eqn:Ex.
    { destruct rest as [|r rest]; [|unfold room in Ex; destruct (1024 - length cur - 1)%nat eqn:Er; [lia|done]].
      rewrite app_nil_r in E. destruct ls as [|l ls]; [done|].
      exfalso. apply Hcur. rewrite E, unlines_cons. set_solver. }
    rewrite <- Ex. set (y := drop room rest).
    assert ((cur ++ take room rest) ++ y = unlines ls ++ last) as E' by (unfold y; by rewrite <- app_assoc, take_drop).
    assert (length y <= fuel)%nat as Hy.
    { unfold y. rewrite length_drop. apply (f_equal length) in Ex. rewrite length_take in Ex. simpl in Ex. lia. }
    destruct (grep_lines_ok (length (cur ++ take room rest)) pattern ls last _ y Hls Hlast E')
      as (ls1 & ls2 & p & -> & Eb & Ep & Hp & Hp2 & Eg); [done|].
    rewrite Eg. cbn [mbind option_bind]. apply Forall_app in Hls as [_ Hls2].
    destruct ls1 as [|l1 ls1].
    + (* no complete line: nothing but the last line is left *)
      simpl in Eb. rewrite <- Eb, bool_decide_true by done.
      assert (ls2 = []) as ->.
      { destruct ls2 as [|l ls2]; [done|]. exfalso. pose proof (Hp2 l ls2 eq_refl) as Hpl. rewrite <- Eb, length_app, length_take in Hpl.
        pose proof (proj1 (Forall_cons _ _ _) Hls2) as [(_ & _ & Hl) _].
        apply (f_equal length) in E. cbn [app] in E. rewrite unlines_cons, !length_app in E. cbn [length] in E. unfold room in *. lia. }
      rewrite (IH [] y [] y); [done|done| |set_solver|simpl; lia|done|done].
      simpl in Ep. rewrite <- Ep in Hlast. set_solver.
    + rewrite bool_decide_false by (rewrite Eb, unlines_cons, !length_app; cbn [length]; rewrite ?length_app; lia).
      rewrite (IH p y ls2 last); try done.
      * cbn [mbind option_bind]. unfold selected. by rewrite filter_app, unlines_app.
      * apply (f_equal length) in Eb. rewrite unlines_cons, !length_app, length_take in Eb. cbn [length] in Eb. unfold room in Eb. rewrite ?length_app in Eb. lia.
Qed.

(** grep on a file whose complete lines fit its buffer and hold no NUL
    writes exactly the lines that match, in their order; a last line without a
    newline is not looked at. *)
Theorem grep_file pattern ls last :
  Forall line_ok ls -> 10 ∉ last ->
  grep pattern (file_rest (unlines ls ++ last)) = Some (unlines (filter (fun l => match_re pattern l = true) ls)).
Proof.
  intros Hls Hlast. unfold grep. apply (grep_loop_ok pattern _ [] _ ls last); try done; [set_solver|simpl; lia|].
  destruct (unlines ls ++ last); [simpl; lia|]. simpl. rewrite length_app. simpl. lia.
Qed.

(** A pipe delivers the line [hi] in two reads: grep finds no newline in the
    first and forgets it. *)
Lemma grep_drops_short_read : grep [104; 105] [[104]; [105; 10]] = Some [] /\ grep [104; 105] [[104; 105; 10]] = Some [104; 105; 10].
Proof. split; vm_compute; reflexivity. Qed.

(** ** Words *)

Definition is_sep (b : Z) : bool := bool_decide (b ∈ [32; 13; 9; 10; 11]).

(** The pieces between separators; the words are those that are not empty. *)
Fixpoint fields (data : list Z) : list (list Z) :=
  match data with
  | [] => [[]]
  | b :: data' =>
      if is_sep b then [] :: fields data'
      else match fields data' with f :: fs => (b :: f) :: fs | [] => [[b]] end
  end.
Definition word_fields (data : list Z) : list (list Z) := filter (fun f => f <> []) (fields data).

Lemma str_find_sep b :
  match str_find [32; 13; 9; 10; 11] b with Some _ => true | None => false end = is_sep b.
Proof.
  unfold is_sep. cbn [str_find]. change (32 =? 0) with false. change (13 =? 0) with false. change (9 =? 0) with false.
  change (10 =? 0) with false. change (11 =? 0) with false. cbv iota.
  repeat match goal with |- context [?k =? b] => destruct (Z.eqb_spec k b); [subst b; reflexivity|] end.
  rewrite bool_decide_false; [done|]. set_solver.
Qed.

Lemma fields_cons data : exists f fs, fields data = f :: fs.
Proof. induction data as [|b data (f & fs & E)]; simpl; [by eexists _, _|]. destruct (is_sep b); [by eexists _, _|]. rewrite E. by eexists _, _. Qed.

(** The word under way when the bytes start is counted already. *)
Lemma wc_bytes data : forall s,
  0 <= wc_l s -> 0 <= wc_w s -> 0 <= wc_c s ->
  wc_l s + Z.of_nat (length data) < 2147483648 -> wc_w s + Z.of_nat (length data) < 2147483648 ->
  wc_c s + Z.of_nat (length data) < 2147483648 ->
  let s' := foldl wc_byte s data in
  wc_l s' = wc_l s + Z.of_nat (length (filter (fun b => b = 10) data)) /\
  wc_w s' = wc_w s + Z.of_nat (length (word_fields data)) -
    (if wc_in s && negb (bool_decide (head (fields data) = Some [])) then 1 else 0) /\
  wc_c s' = wc_c s + Z.of_nat (length data).
Proof.
  induction data as [|b data IH]; intros s Hl Hw Hc Bl Bw Bc.
  { change (word_fields []) with (@nil (list Z)). rewrite bool_decide_true by done. rewrite andb_false_r. cbn. lia. }
  cbn [foldl length] in *. pose proof (str_find_sep b) as Hsep. destruct (fields_cons data) as (f & fs & Ef).
  set (s1 := wc_byte s b).
  assert (wc_l s1 = wc_l s + (if decide (b = 10) then 1 else 0) /\ wc_c s1 = wc_c s + 1 /\ wc_in s1 = negb (is_sep b) /\
    wc_w s1 = wc_w s + (if is_sep b || wc_in s then 0 else 1)) as (E1 & E2 & E3 & E4).
  { unfold s1, wc_byte. rewrite (i32_small (wc_l s + 1)), (i32_small (wc_c s + 1)), (i32_small (wc_w s + 1)) by lia.
    destruct (str_find _ b), (is_sep b); try done; destruct (Z.eqb_spec b 10), (decide (b = 10)); try done;
      destruct (wc_in s); simpl; lia. }
  destruct (IH s1) as (I1 & I2 & I3); try (destruct (decide (b = 10)), (is_sep b || wc_in s); lia).
  split_and!.
  - rewrite I1, E1, filter_cons. destruct (decide (b = 10)); simpl; lia.
  - rewrite I2, E3, E4. unfold word_fields. cbn [fields]. rewrite Ef. destruct (is_sep b) eqn:Hb; cbn [negb andb orb head].
    + rewrite (filter_cons_False _ []) by tauto. rewrite bool_decide_true by done. rewrite andb_false_r. lia.
    + rewrite (filter_cons_True _ (b :: f)) by done. rewrite (bool_decide_false (Some (b :: f) = Some [])) by done.
      rewrite filter_cons. cbn [length]. destruct (decide (f <> [])) as [Hf|Hf].
      * rewrite bool_decide_false by congruence. destruct (wc_in s); simpl; lia.
      * apply dec_stable in Hf. subst. rewrite bool_decide_true by done. destruct (wc_in s); simpl; lia.
  - lia.
Qed.

(** wc prints the number of newlines, of words and of bytes, however the
    input is cut into [read]s. *)
Theorem wc_counts pieces :
  Forall (fun x => x <> []) pieces -> Z.of_nat (length (mjoin pieces)) < 2147483648 ->
  wc pieces = Some (Z.of_nat (length (filter (fun b => b = 10) (mjoin pieces))),
                    Z.of_nat (length (word_fields (mjoin pieces))), Z.of_nat (length (mjoin pieces))).
Proof.
  intros Hne Hlen. set (s0 := {| wc_l := 0; wc_w := 0; wc_c := 0; wc_in := false |}).
  assert (forall fuel s ps, Forall (fun x => x <> []) ps -> (length (mjoin ps) <= fuel)%nat ->
    wc_loop fuel s ps = Some (foldl wc_byte s (mjoin ps))) as Hloop.
  { clear. induction fuel as [|fuel IH]; intros s ps Hne Hf.
    - destruct ps as [|x ps]; [done|]. apply Forall_cons in Hne as [Hx _]. destruct x; [done|simpl in Hf; lia].
    - cbn [wc_loop]. destruct ps as [|x ps]; [done|]. pose proof (proj1 (Forall_cons _ _ _) Hne) as [Hx Hne'].
      cbn [read_piece]. destruct (take 512 x) as [|t0 t] eqn:Et; [by destruct x|]. rewrite <- Et.
      assert (mjoin (x :: ps) = take 512 x ++ mjoin (match drop 512 x with [] => ps | y => y :: ps end)) as Ej.
      { rewrite <- (take_drop 512 x) at 1. simpl. rewrite <- app_assoc. f_equal. by destruct (drop 512 x). }
      rewrite Ej, foldl_app. apply IH.
      + destruct (drop 512 x) eqn:Ed; [done|]. by constructor.
      + rewrite Ej, length_app, Et in Hf. simpl in Hf. lia. }
  unfold wc. rewrite Hloop by done. cbn [mbind option_bind].
  destruct (wc_bytes (mjoin pieces) s0) as (E1 & E2 & E3); try (simpl; lia).
  cbv zeta in *. fold s0. rewrite E1, E2, E3. simpl. do 2 f_equal. by rewrite Z.sub_0_r.
Qed.

Lemma wc_counts_witness : wc [[32; 97]; [98; 10]; [99]] = Some (1, 2, 5).
Proof. apply (wc_counts [[32; 97]; [98; 10]; [99]]); [repeat constructor; discriminate|reflexivity]. Defined.

Lemma grep_file_witness : line_ok [97; 98] /\ line_ok [98] /\
  grep [94; 97; 46; 42; 36] (file_rest (unlines [[97; 98]; [98]] ++ [97])) = Some [97; 98; 10].
Proof.
  assert (line_ok [97; 98]) as H1 by (split; [|split]; [set_solver|set_solver|simpl; lia]).
  assert (line_ok [98]) as H2 by (split; [|split]; [set_solver|set_solver|simpl; lia]).
  split; [exact H1|]. split; [exact H2|].
  refine (eq_trans (grep_file [94; 97; 46; 42; 36] [[97; 98]; [98]] [97] _ _) _).
  - repeat apply Forall_cons_2; [exact H1|exact H2|apply Forall_nil_2].
  - set_solver.
  - vm_compute. reflexivity.
Defined.

(** ** cat and ls *)

Lemma after_slash_ok dir name i :
  47 ∉ name -> (i <= length name)%nat ->
  after_slash (dir ++ 47 :: name) (length dir + 1 + i) = (length dir + 1)%nat.
Proof.
  intros Hn. induction i as [|i IH]; intros Hi.
  - assert (exists k, (length dir + 1 + 0)%nat = S k /\ k = length dir) as (k & Ek & ->) by (exists (length dir); lia).
    rewrite Ek. cbn [after_slash].
    rewrite (bool_decide_false (_ !! S (length dir) = _)).
    2: { rewrite lookup_app_r by lia. replace (S (length dir) - length dir)%nat with 1%nat by lia. simpl.
         intros Hl. apply Hn. by eapply list_elem_of_lookup_2. }
    destruct (length dir) as [|k] eqn:El; cbn [after_slash]; rewrite bool_decide_true; try lia;
      rewrite <- El, lookup_app_r, Nat.sub_diag; done || lia.
  - replace (length dir + 1 + S i)%nat with (S (length dir + 1 + i)) by lia. cbn [after_slash].
    rewrite bool_decide_false; [apply IH; lia|]. rewrite lookup_app_r by lia.
    replace (S (length dir + 1 + i) - length dir)%nat with (S (S i)) by lia. simpl.
    intros Hl. apply Hn. by eapply list_elem_of_lookup_2.
Qed.

(** The last component, padded with blanks to DIRSIZ. *)
Lemma fmtname_last dir name :
  47 ∉ name -> fmtname (dir ++ 47 :: name) = name ++ replicate (DIRSIZ - length name) 32.
Proof.
  intros Hn. unfold fmtname. rewrite length_app. simpl length.
  replace (length dir + S (length name))%nat with (length dir + 1 + length name)%nat by lia.
  rewrite after_slash_ok by done. rewrite drop_app_add. cbn [drop]. rewrite drop_0.
  destruct (decide (14 <= length name)%nat) as [Hd|Hd].
  - rewrite bool_decide_true by done. replace (14 - length name)%nat with O by lia. by rewrite app_nil_r.
  - by rewrite bool_decide_false.
Qed.
