(* ===== verification/Boot.v ===== *)
(** The boot loader (bootmain.c).

    It runs alone, in physical memory, and polls the disk controller, whose
    promises are those of the driver's ([AtaOk] of Ide.v). It may read past the
    end of what it is asked for; addresses are 32 bits wide.

    Theorem: for a kernel file whose headers are in its first page and whose
    segments do not get in each other's way, [bootmain] leaves every segment's
    bytes, followed by its zeroes, at its physical address and jumps to the
    entry point ([bootmain_loads]). *)

From Stdlib Require Import ZArith Lia.
From stdpp Require Import base strings gmap numbers list.
From S2P Require Import Prelude KString BlockLayer Bio Exec Ide IdeSpec.

Open Scope Z_scope.

Abbreviation SECTSIZE := 512 (only parsing).
Abbreviation SCRATCH := 65536 (only parsing).

Section Boot.
Context {D : Type} `{HO : AtaOk D}.

(** ** Definitions *)

Record bootst := { bmem : mem; bdev : D }.

Definition set_bmem (m : mem) (s : bootst) : bootst := {| bmem := m; bdev := bdev s |}.
Definition set_bdev (d : D) (s : bootst) : bootst := {| bmem := bmem s; bdev := d |}.

Definition bin (p : Z) : M bootst Z := fun s => let r := inb p (bdev s) in Ret r.1 (set_bdev r.2 s).
Definition bout (p v : Z) : M bootst unit := modify (fun s => set_bdev (outb p (u8 v) (bdev s)) s).
(** [insl] stores what it gets at [dst]. *)
Definition bins (p dst n : Z) : M bootst unit :=
  modify (fun s => let r := insl p n (bdev s) in set_bmem (mput (bmem s) dst r.1) (set_bdev r.2 s)).

Fixpoint waitdisk_loop (fuel : nat) : M bootst unit :=
  let* r := bin 503 in
  if Z.land r 192 =? 64 then ret tt
  else match fuel with O => out_of_fuel | S f => waitdisk_loop f end.
Definition waitdisk : M bootst unit := let* s := get in waitdisk_loop (ready_in (bdev s)).

Definition readsect (dst offset : Z) : M bootst unit :=
  waitdisk ;;;
  bout 498 1 ;;;
  bout 499 offset ;;;
  bout 500 (Z.shiftr offset 8) ;;;
  bout 501 (Z.shiftr offset 16) ;;;
  bout 502 (Z.lor (Z.shiftr offset 24) 224) ;;;
  bout 503 32 ;;;
  waitdisk ;;;
  bins 496 dst (SECTSIZE / 4).

Fixpoint readseg_loop (fuel : nat) (pa epa offset : Z) : M bootst unit :=
  if pa <? epa then
    match fuel with
    | O => out_of_fuel
    | S f => readsect pa offset ;;; readseg_loop f (u32 (pa + SECTSIZE)) epa (u32 (offset + 1))
    end
  else ret tt.

Definition readseg (pa count offset : Z) : M bootst unit :=
  let epa := u32 (pa + count) in
  let pa := u32 (pa - offset mod SECTSIZE) in
  let offset := u32 (offset / SECTSIZE + 1) in
  readseg_loop (Z.to_nat (epa / SECTSIZE + 1)) pa epa offset.

(** The [n] bytes at [a]. *)
Definition mread (m : mem) (a : Z) (n : nat) : list Z := (fun i => rd8 m (a + Z.of_nat i)) <$> seq 0 n.

(** One segment, whose header is at [ph]. *)
Definition load_ph (ph : Z) : M bootst unit :=
  let* s := get in
  let h := ph_parse (mread (bmem s) ph 32) in
  let pa := ph_paddr h in
  readseg pa (ph_filesz h) (ph_off h) ;;;
  let* s := get in
  let h := ph_parse (mread (bmem s) ph 32) in
  when (ph_filesz h <? ph_memsz h)
    (modify (fun s => set_bmem
       (stosb (bmem s) (u32 (pa + ph_filesz h)) 0 (Z.to_nat (ph_memsz h - ph_filesz h))) s)).

(** The loop over the program headers from [ph] to [eph]. *)
Fixpoint load_phs (fuel : nat) (ph eph : Z) : M bootst unit :=
  if ph <? eph then
    match fuel with
    | O => out_of_fuel
    | S f => load_ph ph ;;; load_phs f (u32 (ph + 32)) eph
    end
  else ret tt.

(** The entry point it jumps to, or [None] when it returns. *)
Definition bootmain : M bootst (option Z) :=
  readseg SCRATCH 4096 0 ;;;
  let* s := get in
  let elf := elf_parse (mread (bmem s) SCRATCH 52) in
  if negb (eh_magic elf =? ELF_MAGIC) then ret None
  else
    let ph := u32 (SCRATCH + eh_phoff elf) in
    let eph := u32 (ph + 32 * eh_phnum elf) in
    load_phs (Z.to_nat (eh_phnum elf)) ph eph ;;;
    let* s := get in
    ret (Some (eh_entry (elf_parse (mread (bmem s) SCRATCH 52)))).

(** ** Sectors *)

(** The medium can be read: a command to read does not end with an error. *)
Hypothesis readable : forall d v n, cmd_of d = ReadBusy v n -> cmd_of (inb 503 d).2 <> Failed.

Implicit Types s : bootst.

Lemma waitdisk_idle fuel s :
  ~ ata_busy (cmd_of (bdev s)) -> (ready_in (bdev s) <= fuel)%nat ->
  exists d', waitdisk_loop fuel s = Ret tt (set_bdev d' s) /\ same_view (bdev s) d'.
Proof.
  revert s. induction fuel as [|fuel IH]; intros s Hb Hf;
    pose proof (inb_view (bdev s) Hb) as Hv; simpl; unfold bind at 1, bin;
    change 192 with (Z.lor IDE_BSY IDE_DRDY);
    destruct (Z.eqb_spec (Z.land (inb 503 (bdev s)).1 (Z.lor IDE_BSY IDE_DRDY)) 64) as [Hr|Hr];
    try (by eexists; split; [reflexivity|exact Hv]);
    destruct (inb_ready (bdev s) Hb) as [?|Hlt]; try done; [lia|].
  destruct (IH (set_bdev (inb 503 (bdev s)).2 s)) as (d' & E & V).
  - simpl. by rewrite (proj1 Hv).
  - simpl. lia.
  - exists d'. split; [by rewrite E|by eapply same_view_trans].
Qed.

Lemma waitdisk_read fuel s v n :
  cmd_of (bdev s) = ReadBusy v n \/ cmd_of (bdev s) = ReadReady v n -> (ready_in (bdev s) <= fuel)%nat ->
  exists d', waitdisk_loop fuel s = Ret tt (set_bdev d' s) /\ cmd_of d' = ReadReady v n /\
    forall w m, platter d' w m = platter (bdev s) w m.
Proof.
  revert s. induction fuel as [|fuel IH]; intros s Hc Hf.
  all: destruct Hc as [Hc|Hc];
    [|edestruct (fun H => waitdisk_idle _ s H Hf) as (d' & E & V1 & _ & V3); [by rewrite Hc; simpl; tauto|];
      exists d'; split_and!; [exact E|by rewrite V1|exact V3]].
  all: destruct (inb_poll _ _ _ Hc) as [Hp Hr]; pose proof (readable _ _ _ Hc) as Hnf;
    simpl; unfold bind at 1, bin; change 192 with (Z.lor IDE_BSY IDE_DRDY);
    destruct (Z.land (inb 503 (bdev s)).1 (Z.lor IDE_BSY IDE_DRDY) =? IDE_DRDY);
    [exists (inb 503 (bdev s)).2; split_and!; [done|by destruct Hr|done]|destruct Hr as [Hlt Hc']].
  - lia.
  - destruct (IH (set_bdev (inb 503 (bdev s)).2 s)) as (d' & E & V1 & V2); [simpl; tauto|simpl; lia|].
    exists d'. split_and!; [by rewrite E|done|]. intros. by rewrite V2, Hp.
Qed.

Lemma bout_run p v s : bout p v s = Ret tt (set_bdev (outb p (u8 v) (bdev s)) s).
Proof. done. Qed.

(** The registers name drive 0 and the sector. *)
Lemma sector_regs n : 0 <= n < 268435456 ->
  u8 n + 256 * u8 (Z.shiftr n 8) + 65536 * u8 (Z.shiftr n 16) + 16777216 * Z.land (u8 (Z.lor (Z.shiftr n 24) 224)) 15 = n /\
  Z.land (u8 (Z.lor (Z.shiftr n 24) 224)) 224 = 224 /\ Z.land (Z.shiftr (u8 (Z.lor (Z.shiftr n 24) 224)) 4) 1 = 0.
Proof.
  intros Hn. set (h := Z.shiftr n 24). assert (0 <= h < 16) as Hh by (unfold h; rewrite Z.shiftr_div_pow2 by lia; change (2 ^ 24) with 16777216; dlia).
  assert (Z.land (u8 (Z.lor h 224)) 15 = h /\ Z.land (u8 (Z.lor h 224)) 224 = 224 /\ Z.land (Z.shiftr (u8 (Z.lor h 224)) 4) 1 = 0) as (E1 & E2 & E3).
  { assert (exists k, (k < 16)%nat /\ h = Z.of_nat k) as (k & Hk & ->) by (exists (Z.to_nat h); lia).
    do 16 (destruct k as [|k]; [vm_compute; done|]). lia. }
  split; [|done]. rewrite E1. unfold h, u8. rewrite !Z.shiftr_div_pow2 by lia.
  change (2 ^ 8) with 256. change (2 ^ 16) with 65536. change (2 ^ 24) with 16777216. dlia.
Qed.

Lemma readsect_ok dst n s :
  ata_accepts (cmd_of (bdev s)) -> 0 <= n < 268435456 ->
  exists d', readsect dst n s = Ret tt {| bmem := mput (bmem s) dst (platter (bdev s) 0 n); bdev := d' |} /\
    ata_accepts (cmd_of d') /\ forall w m, platter d' w m = platter (bdev s) w m.
Proof.
  intros Ha Hn. destruct (waitdisk_idle _ s (accepts_idle _ Ha) (le_n _)) as (d0 & E & V1 & _ & V3).
  unfold readsect. unfold bind at 1, waitdisk. unfold bind at 1, get. rewrite E.
  do 6 (unfold bind at 1; rewrite bout_run). cbn [bdev set_bdev].
  assert (ata_accepts (cmd_of d0)) as Ha0 by by rewrite V1.
  destruct (load_lba 1 n (Z.shiftr n 8) (Z.shiftr n 16) (Z.lor (Z.shiftr n 24) 224) d0 Ha0)
    as (A6 & R2 & R3 & R4 & R5 & R6 & P6). set (d6 := outb 502 _ _) in *.
  destruct (sector_regs n Hn) as (S1 & S2 & S3).
  destruct (outb_read d6) as [K1 K2]; [done|done|by rewrite R6|].
  simpl in K1. unfold reg_drive, reg_lba in K1. rewrite R3, R4, R5, R6, S1, S3 in K1.
  set (d7 := outb 503 (u8 32) d6). change (outb 503 32 d6) with d7 in K1, K2.
  match goal with |- context [bind _ _ ?st] => destruct (waitdisk_read (ready_in d7) st 0 n) as (d8 & E8 & V8 & P8) end;
    [by left|done|]. cbn [bdev set_bdev] in *.
  unfold bind at 1, waitdisk, bind, get. cbn [bdev set_bdev]. fold d7. rewrite E8.
  destruct (insl_data _ _ _ V8) as (I1 & I2 & I3). unfold bins, modify.
  eexists. split; [|split; [left; exact I2|intros; by rewrite I3, P8, K2, P6, V3]].
  cbn [bdev bmem set_bdev set_bmem]. change (512 / 4) with (SECTOR_SIZE / 4). by rewrite I1, P8, K2, P6, V3.
Qed.

(** ** Segments *)

(** Byte [x] of the disk. *)
Definition disk_byte (d : D) (x : Z) : Z := default 0 (platter d 0 (x / SECTSIZE) !! Z.to_nat (x mod SECTSIZE)).
(** Byte [x] of the kernel file, which starts at sector 1. *)
Definition file_byte (d : D) (x : Z) : Z := disk_byte d (SECTSIZE + x).

Lemma disk_byte_range d x : 0 <= disk_byte d x < 256.
Proof.
  unfold disk_byte. destruct (platter d 0 (x / SECTSIZE) !! Z.to_nat (x mod SECTSIZE)) as [b|] eqn:Hl; simpl; [|lia].
  destruct (platter_ok d 0 (x / SECTSIZE)) as [_ Hb]. by apply (Forall_lookup_1 _ _ _ _ Hb Hl).
Qed.

Lemma readseg_loop_ok k : forall fuel pa epa n s,
  ata_accepts (cmd_of (bdev s)) -> 0 <= pa -> 0 <= n -> (k <= fuel)%nat ->
  epa <= pa + SECTSIZE * Z.of_nat k -> (k = O \/ pa + SECTSIZE * (Z.of_nat k - 1) < epa) ->
  pa + SECTSIZE * Z.of_nat k < 4294967296 -> n + Z.of_nat k < 268435456 ->
  exists s', readseg_loop fuel pa epa n s = Ret tt s' /\ ata_accepts (cmd_of (bdev s')) /\
    (forall w m, platter (bdev s') w m = platter (bdev s) w m) /\
    forall a, rd8 (bmem s') a =
      if (pa <=? a) && (a <? pa + SECTSIZE * Z.of_nat k) then disk_byte (bdev s) (SECTSIZE * n + (a - pa))
      else rd8 (bmem s) a.
Proof.
  induction k as [|k IH]; intros fuel pa epa n s Ha Hpa Hn Hf He1 He2 Hw Hs.
  - exists s. assert ((pa <? epa) = false) as Hlt by lia.
    split; [destruct fuel; simpl; by rewrite Hlt|]. split_and!; try done. intros a. range_cases; done || lia.
  - destruct fuel as [|fuel]; [lia|]. cbn [readseg_loop].
    assert ((pa <? epa) = true) as -> by lia.
    destruct (readsect_ok pa n s Ha) as (d' & E & Ha' & Hp); [lia|]. mstep E.
    rewrite (u32_small (pa + SECTSIZE)), (u32_small (n + 1)) by lia.
    set (s1 := {| bmem := mput (bmem s) pa (platter (bdev s) 0 n); bdev := d' |}).
    destruct (IH fuel (pa + SECTSIZE) epa (n + 1) s1) as (s' & E' & Ha2 & Hp2 & Hm); try done; try lia.
    exists s'. split; [done|]. split; [done|]. split; [intros; by rewrite Hp2, Hp|]. intros a. rewrite Hm.
    destruct (platter_ok (bdev s) 0 n) as [Hlen Hb]. unfold s1. cbn [bmem bdev]. rewrite mput_spec, Hlen.
    change (Z.of_nat (Z.to_nat 512)) with 512.
    range_cases; try lia.
    + replace (512 * (n + 1) + (a - (pa + 512))) with (512 * n + (a - pa)) by lia. unfold disk_byte. by rewrite Hp.
    + unfold disk_byte.
      replace ((512 * n + (a - pa)) / 512) with n by dlia. replace ((512 * n + (a - pa)) mod 512) with (a - pa) by dlia.
      destruct (platter (bdev s) 0 n !! Z.to_nat (a - pa)) as [b|] eqn:Hl; simpl; [|done].
      apply u8_small. by apply (Forall_lookup_1 _ _ _ _ Hb Hl).
Qed.

Definition seg_lo (pa off : Z) : Z := pa - off mod SECTSIZE.
Definition seg_hi (pa count off : Z) : Z := seg_lo pa off + SECTSIZE * ((count + off mod SECTSIZE + 511) / SECTSIZE).

Lemma readseg_ok pa count off s :
  ata_accepts (cmd_of (bdev s)) -> 0 <= count < 4294967296 -> 0 <= off < 4294967296 ->
  0 <= seg_lo pa off -> seg_hi pa count off < 4294967296 ->
  exists s', readseg pa count off s = Ret tt s' /\ ata_accepts (cmd_of (bdev s')) /\
    (forall w m, platter (bdev s') w m = platter (bdev s) w m) /\
    forall a, rd8 (bmem s') a =
      if (seg_lo pa off <=? a) && (a <? seg_hi pa count off) then file_byte (bdev s) (off + (a - pa))
      else rd8 (bmem s) a.
Proof.
  intros Ha Hc Ho Hlo Hhi. unfold seg_hi, seg_lo in *.
  assert (0 <= off mod 512 < 512) as Hr by dlia.
  set (k := (count + off mod 512 + 511) / 512) in *.
  assert (0 <= k /\ count + off mod 512 <= 512 * k < count + off mod 512 + 512) as [Hk0 Hk] by (unfold k; dlia).
  unfold readseg. cbv zeta. rewrite (u32_small (pa + count)), (u32_small (pa - off mod 512)) by lia.
  rewrite (u32_small (off / 512 + 1)) by dlia.
  destruct (readseg_loop_ok (Z.to_nat k) (Z.to_nat ((pa + count) / 512 + 1)) (pa - off mod 512) (pa + count) (off / 512 + 1) s)
    as (s' & E & Ha' & Hp & Hm); try done; try lia.
  - dlia.
  - apply Z2Nat.inj_le; [lia|dlia|]. unfold k. apply Z.lt_succ_r. unfold Z.succ.
    assert ((count + off mod 512 + 511) / 512 <= (pa + count + 511) / 512) by (apply Z.div_le_mono; lia). dlia.
  - assert (k < 16777220) by lia. dlia.
  - exists s'. split; [done|]. split; [done|]. split; [done|]. intros a. rewrite Hm, Z2Nat.id by lia.
    unfold file_byte. replace (512 * (off / 512 + 1) + (a - (pa - off mod 512))) with (512 + (off + (a - pa))) by dlia. done.
Qed.

(** ** The kernel *)

(** The [n] bytes at [o] of the kernel file, and the headers they make. *)
Definition fslice (d : D) (o : Z) (n : nat) : list Z := (fun i => file_byte d (o + Z.of_nat i)) <$> seq 0 n.
Definition k_elf (d : D) : elfhdr := elf_parse (fslice d 0 52).
Definition k_ph (d : D) (i : Z) : proghdr := ph_parse (fslice d (eh_phoff (k_elf d) + 32 * i) 32).

Lemma mread_slice m d a o n :
  (forall x, a <= x < a + Z.of_nat n -> rd8 m x = file_byte d (o + (x - a))) -> mread m a n = fslice d o n.
Proof.
  intros Hm. unfold mread, fslice. apply list_fmap_ext. intros i j Hj%lookup_seq. rewrite Hm by lia. f_equal. lia.
Qed.

Lemma fslice_get8 d o n i : 0 <= get8 (fslice d o n) i < 256.
Proof.
  unfold get8, fslice. rewrite list_lookup_fmap. destruct (seq 0 n !! Z.to_nat i); simpl; [apply disk_byte_range|lia].
Qed.

Lemma fslice_get32 d o n i : 0 <= get32 (fslice d o n) i < 4294967296.
Proof. unfold get32. apply le4_range; apply fslice_get8. Qed.

(** What a segment needs, the bytes that loading it may change, and that it is
    loaded. *)
Definition seg_top (h : proghdr) : Z := ph_paddr h + Z.max (ph_filesz h) (ph_memsz h).
Definition touches (h : proghdr) (a : Z) : Prop :=
  seg_lo (ph_paddr h) (ph_off h) <= a < Z.max (seg_hi (ph_paddr h) (ph_filesz h) (ph_off h)) (seg_top h).
Definition seg_ok (h : proghdr) : Prop :=
  0 <= seg_lo (ph_paddr h) (ph_off h) /\ seg_hi (ph_paddr h) (ph_filesz h) (ph_off h) < 4294967296 /\
  seg_top h < 4294967296 /\ forall a, touches h a -> ~ (SCRATCH <= a < SCRATCH + 4096).
Definition loaded (d : D) (m : mem) (h : proghdr) : Prop :=
  (forall a, ph_paddr h <= a < ph_paddr h + ph_filesz h -> rd8 m a = file_byte d (ph_off h + (a - ph_paddr h))) /\
  (forall a, ph_paddr h + ph_filesz h <= a < ph_paddr h + ph_memsz h -> rd8 m a = 0).

(** The first page of the file is in the scratch space. *)
Definition headers_in (d : D) (m : mem) : Prop :=
  forall a, SCRATCH <= a < SCRATCH + 4096 -> rd8 m a = file_byte d (a - SCRATCH).

Lemma headers_ph d m i :
  headers_in d m -> 0 <= eh_phoff (k_elf d) -> 0 <= i -> eh_phoff (k_elf d) + 32 * (i + 1) <= 4096 ->
  ph_parse (mread m (SCRATCH + eh_phoff (k_elf d) + 32 * i) 32) = k_ph d i.
Proof.
  intros Hm Hp Hi Hb. unfold k_ph. f_equal. apply mread_slice. intros x Hx. rewrite Hm by lia. f_equal. lia.
Qed.

Lemma seg_hi_bound pa count off : pa + count <= seg_hi pa count off.
Proof. unfold seg_hi, seg_lo. dlia. Qed.

(** The bytes of a file do not depend on what the controller does. *)
Lemma file_byte_ext d d' x : (forall w m, platter d' w m = platter d w m) -> file_byte d' x = file_byte d x.
Proof. intros Hp. unfold file_byte, disk_byte. by rewrite Hp. Qed.

Lemma loaded_frame d m m' h :
  0 <= ph_filesz h -> loaded d m h -> (forall a, ph_paddr h <= a < seg_top h -> rd8 m' a = rd8 m a) -> loaded d m' h.
Proof.
  unfold seg_top. intros Hs [H1 H2] Hf. split; intros a Ha; rewrite Hf by lia; [by apply H1|by apply H2].
Qed.

Lemma k_ph_range d i : let h := k_ph d i in
  0 <= ph_off h < 4294967296 /\ 0 <= ph_paddr h < 4294967296 /\ 0 <= ph_filesz h < 4294967296 /\ 0 <= ph_memsz h < 4294967296.
Proof. split_and!; apply fslice_get32. Qed.

(** One round of the loop. *)
Lemma load_one d0 i s :
  let ph := SCRATCH + eh_phoff (k_elf d0) + 32 * i in let h := k_ph d0 i in
  ata_accepts (cmd_of (bdev s)) -> (forall w m, platter (bdev s) w m = platter d0 w m) -> headers_in d0 (bmem s) ->
  0 <= eh_phoff (k_elf d0) -> 0 <= i -> eh_phoff (k_elf d0) + 32 * (i + 1) <= 4096 -> seg_ok h ->
  exists s', load_ph ph s = Ret tt s' /\
    ata_accepts (cmd_of (bdev s')) /\ (forall w m, platter (bdev s') w m = platter d0 w m) /\
    loaded d0 (bmem s') h /\ (forall a, ~ touches h a -> rd8 (bmem s') a = rd8 (bmem s) a).
Proof.
  intros ph h Ha Hp Hh Hoff Hi Hb (S1 & S2 & S3 & S4).
  destruct (k_ph_range d0 i) as (B1 & B2 & B3 & B4). fold h in B1, B2, B3, B4.
  pose proof (seg_hi_bound (ph_paddr h) (ph_filesz h) (ph_off h)) as Hhi.
  assert (0 <= ph_off h mod 512) as Hmod by dlia.
  unfold load_ph. unfold bind at 1, get. cbv zeta. unfold ph. rewrite !(headers_ph d0 (bmem s) i) by done. fold h.
  destruct (readseg_ok (ph_paddr h) (ph_filesz h) (ph_off h) s Ha) as (s1 & E1 & A1 & P1 & M1); try done.
  mstep E1. unfold bind at 1.
  assert (forall a, ~ touches h a -> rd8 (bmem s1) a = rd8 (bmem s) a) as Hf1.
  { intros a Hna. rewrite M1. unfold touches, seg_top in Hna. range_cases; done || lia. }
  assert (headers_in d0 (bmem s1)) as Hh1.
  { intros a Ha'. rewrite Hf1; [by apply Hh|]. intros Ht. by apply (S4 a Ht). }
  rewrite !(headers_ph d0 (bmem s1) i) by done. fold h.
  assert (forall a, ph_paddr h <= a < ph_paddr h + ph_filesz h -> rd8 (bmem s1) a = file_byte d0 (ph_off h + (a - ph_paddr h))) as Hl1.
  { intros a Ha'. rewrite M1. unfold seg_lo in *. range_cases; try lia. by apply file_byte_ext. }
  unfold when. destruct (Z.ltb_spec (ph_filesz h) (ph_memsz h)) as [Hlt|Hge].
  - eexists. split; [reflexivity|]. cbn [bmem bdev set_bmem]. unfold seg_top in S3. rewrite (u32_small (ph_paddr h + ph_filesz h)) by lia.
    split; [done|]. split; [intros; by rewrite P1|]. split; [split; intros a Ha'|intros a Hna]; rewrite stosb_spec, Z2Nat.id by lia.
    + range_cases; try lia; by apply Hl1.
    + range_cases; try lia; done.
    + unfold touches, seg_top, seg_lo in Hna. range_cases; try lia; by apply Hf1.
  - exists s1. split; [done|]. split; [done|]. split; [intros; by rewrite P1|]. split; [|done]. split; [done|]. intros a Ha'. lia.
Qed.

Lemma load_phs_ok d0 num k : forall i s,
  ata_accepts (cmd_of (bdev s)) -> (forall w m, platter (bdev s) w m = platter d0 w m) -> headers_in d0 (bmem s) ->
  0 <= eh_phoff (k_elf d0) -> 0 <= i -> num = i + Z.of_nat k -> eh_phoff (k_elf d0) + 32 * num <= 4096 ->
  (forall j, i <= j < num -> seg_ok (k_ph d0 j)) ->
  (forall j j' a, 0 <= j < j' -> i <= j' < num -> touches (k_ph d0 j') a -> ~ (ph_paddr (k_ph d0 j) <= a < seg_top (k_ph d0 j))) ->
  (forall j, 0 <= j < i -> loaded d0 (bmem s) (k_ph d0 j)) ->
  let ph0 := SCRATCH + eh_phoff (k_elf d0) in
  exists s', load_phs k (ph0 + 32 * i) (ph0 + 32 * num) s = Ret tt s' /\
    (forall w m, platter (bdev s') w m = platter d0 w m) /\ headers_in d0 (bmem s') /\
    (forall j, 0 <= j < num -> loaded d0 (bmem s') (k_ph d0 j)).
Proof.
  induction k as [|k IH]; intros i s Ha Hp Hh Hoff Hi Hnum Hb Hok Hdis Hl ph0.
  - exists s. split; [|split; [done|split; [done|]]].
    + simpl. assert ((ph0 + 32 * i <? ph0 + 32 * num) = false) as -> by lia. done.
    + intros j Hj. apply Hl. lia.
  - cbn [load_phs]. assert ((ph0 + 32 * i <? ph0 + 32 * num) = true) as -> by lia.
    assert (u32 (ph0 + 32 * i + 32) = ph0 + 32 * (i + 1)) as Eu by (rewrite u32_small; unfold ph0; lia).
    destruct (load_one d0 i s) as (s1 & E1 & A1 & P1 & L1 & F1); try done; [lia|apply Hok; lia|].
    assert (headers_in d0 (bmem s1)) as Hh1.
    { intros a Ha'. rewrite F1; [by apply Hh|]. intros Ht. destruct (Hok i) as (_ & _ & _ & S4); [lia|]. by apply (S4 a Ht). }
    destruct (IH (i + 1) s1) as (s' & E' & P' & H' & L'); try done; try lia.
    + intros j Hj. apply Hok. lia.
    + intros j j' a Hj Hj'. apply Hdis; lia.
    + intros j Hj. destruct (decide (j = i)) as [->|Hne]; [done|]. apply (loaded_frame d0 (bmem s)); [by destruct (k_ph_range d0 j) as (_ & _ & [? _] & _)|apply Hl; lia|].
      intros a Ha'. apply F1. intros Ht. by apply (Hdis j i a); try lia.
    + exists s'. split; [|done]. cbv zeta in E'. fold ph0 in E'. mstep E1. by rewrite Eu.
Qed.

(** C25. The boot loader loads the kernel. Take a disk whose sectors from 1 on
    hold an ELF file with its headers in the first page, whose segments neither
    wrap around nor touch the scratch page nor a segment before them, and a
    controller that reads without errors. Then [bootmain] jumps to the file's
    entry point, and every segment's bytes are at its physical address, followed
    by zeroes up to its size in memory. A file without the ELF magic is refused. *)
Theorem bootmain_loads s :
  ata_accepts (cmd_of (bdev s)) -> let d := bdev s in let num := eh_phnum (k_elf d) in
  (eh_magic (k_elf d) <> ELF_MAGIC -> exists s', bootmain s = Ret None s') /\
  (eh_magic (k_elf d) = ELF_MAGIC -> eh_phoff (k_elf d) + 32 * num <= 4096 ->
   (forall j, 0 <= j < num -> seg_ok (k_ph d j)) ->
   (forall j j' a, 0 <= j < j' -> j' < num -> touches (k_ph d j') a -> ~ (ph_paddr (k_ph d j) <= a < seg_top (k_ph d j))) ->
   exists s', bootmain s = Ret (Some (eh_entry (k_elf d))) s' /\
     forall j, 0 <= j < num -> loaded d (bmem s') (k_ph d j)).
Proof.
  intros Ha d num.
  destruct (readseg_ok SCRATCH 4096 0 s Ha) as (s1 & E1 & A1 & P1 & M1); [lia|lia|vm_compute; congruence|vm_compute; done|].
  assert (headers_in d (bmem s1)) as Hh1.
  { intros a Ha'. rewrite M1. change (seg_lo SCRATCH 0) with SCRATCH. change (seg_hi SCRATCH 4096 0) with (SCRATCH + 4096).
    range_cases; try lia. f_equal. }
  assert (forall m, headers_in d m -> elf_parse (mread m SCRATCH 52) = k_elf d) as Helf.
  { intros m Hm. unfold k_elf. f_equal. apply mread_slice. intros x Hx. apply Hm. lia. }
  pose proof (fslice_get32 d 0 52 28) as Hoff. change (get32 (fslice d 0 52) 28) with (eh_phoff (k_elf d)) in Hoff.
  assert (0 <= num < 65536) as Hnum.
  { change num with (get8 (fslice d 0 52) 44 + 256 * get8 (fslice d 0 52) (44 + 1)).
    pose proof (fslice_get8 d 0 52 44). pose proof (fslice_get8 d 0 52 (44 + 1)). lia. }
  split; unfold bootmain; mstep E1; unfold bind at 1, get; cbv zeta; rewrite (Helf _ Hh1).
  - intros Hm. destruct (Z.eqb_spec (eh_magic (k_elf d)) ELF_MAGIC); [done|]. by exists s1.
  - intros -> Hfit Hok Hdis. rewrite Z.eqb_refl. fold num. change (negb true) with false. cbv iota.
    destruct (load_phs_ok d num (Z.to_nat num) 0 s1) as (s' & E' & P' & H' & L'); try done; try lia.
    { intros j j' a Hj Hj'. apply Hdis; lia. }
    rewrite (u32_small (SCRATCH + _)) by lia. rewrite u32_small by lia.
    cbv zeta in E'. rewrite Z.mul_0_r, Z.add_0_r in E'. mstep E'. unfold bind, get. rewrite (Helf _ H').
    by exists s'.
Qed.

End Boot.

(** ** Witness: a kernel of two segments *)

Lemma pd_readable (d : pdisk true) v n : cmd_of d = ReadBusy v n -> cmd_of (inb 503 d).2 <> Failed.
Proof. simpl. unfold pd_inb, pd_command. intros Hc. destruct (pd_cmd d); simplify_eq. done. Qed.

(** The header, two program headers at 52, and the bytes 256 to 265. *)
Definition bw_sector : block :=
  let l := put32 zero_block 0 ELF_MAGIC in
  let l := put32 l 24 1048832 in
  let l := put32 l 28 52 in
  let l := put32 l 44 2 in
  let l := put32 (put32 (put32 (put32 l 56 256) 64 1048832) 68 4) 72 8 in
  let l := put32 (put32 (put32 (put32 l 88 264) 96 1049864) 100 2) 104 2 in
  let l := put32 l 256 67305985 in
  put32 l 264 1541.

Definition bw_disk : pdisk true :=
  {| pd_regs := fun _ => 0; pd_cmd := NoCmd; pd_data := fun _ n => if n =? 1 then bw_sector else zero_block |}.
Definition bw_boot : bootst := {| bmem := ∅; bdev := bw_disk |}.
Definition bw_ph0 : proghdr :=
  {| ph_type := 0; ph_off := 256; ph_vaddr := 0; ph_paddr := 1048832; ph_filesz := 4; ph_memsz := 8; ph_flags := 0; ph_align := 0 |}.
Definition bw_ph1 : proghdr :=
  {| ph_type := 0; ph_off := 264; ph_vaddr := 0; ph_paddr := 1049864; ph_filesz := 2; ph_memsz := 2; ph_flags := 0; ph_align := 0 |}.

Lemma bw_phs : eh_phnum (k_elf bw_disk) = 2 /\ k_ph bw_disk 0 = bw_ph0 /\ k_ph bw_disk 1 = bw_ph1.
Proof. split_and!; vm_compute; reflexivity. Qed.

Lemma bw_ph j : 0 <= j < 2 -> k_ph bw_disk j = bw_ph0 /\ j = 0 \/ k_ph bw_disk j = bw_ph1 /\ j = 1.
Proof.
  intros Hj. assert (j = 0 \/ j = 1) as [-> | ->] by lia; [left|right]; (split; [apply bw_phs|reflexivity]).
Qed.

Lemma bw_seg_ok h : h = bw_ph0 \/ h = bw_ph1 -> seg_ok h.
Proof.
  intros Hh. assert (ph_off h mod 512 = ph_off h /\ 1048576 <= ph_paddr h - ph_off h < 2000000 /\ 0 <= ph_off h < 512 /\
    0 <= ph_filesz h <= 8 /\ ph_memsz h <= 8) as (E & B1 & B2 & B3 & B4).
  { destruct Hh as [-> | ->]; vm_compute; intuition congruence. }
  assert ((ph_filesz h + ph_off h + 511) / 512 <= 3) by dlia.
  unfold seg_ok, touches, seg_top, seg_hi, seg_lo. rewrite E.
  split; [lia|]. split; [lia|]. split; [lia|]. intros a Ha Hs. lia.
Qed.

Lemma bootmain_loads_witness :
  exists s', bootmain bw_boot = Ret (Some 1048832) s' /\
    (forall a, 1048832 <= a < 1048836 -> rd8 (bmem s') a = a - 1048831) /\ rd8 (bmem s') 1048839 = 0.
Proof.
  destruct bw_phs as (En & E0 & E1).
  destruct (bootmain_loads pd_readable bw_boot) as [_ H]; [left; reflexivity|].
  cbv zeta in H. change (bdev bw_boot) with bw_disk in H. rewrite En in H.
  destruct H as (s' & E & L).
  - vm_compute. reflexivity.
  - vm_compute. congruence.
  - intros j Hj. apply bw_seg_ok. destruct (bw_ph j Hj) as [[-> _]|[-> _]]; [left|right]; reflexivity.
  - intros j j' a Hj Hj' Ht. destruct (bw_ph j') as [[_ ->]|[E' ->]]; [lia|lia|].
    rewrite E' in Ht. assert (j = 0) as -> by lia. rewrite E0.
    unfold touches, seg_top, seg_hi, seg_lo in *. cbn -[Z.modulo Z.div Z.add Z.sub Z.mul Z.max] in *.
    change (264 mod 512) with 264 in Ht. lia.
  - exists s'. split; [exact E|]. destruct (L 0) as [L1 L2]; [lia|]. rewrite E0 in L1, L2.
    cbn [ph_paddr ph_filesz ph_memsz ph_off bw_ph0] in L1, L2. split.
    + intros a Ha. rewrite L1 by lia.
      assert (a = 1048832 \/ a = 1048833 \/ a = 1048834 \/ a = 1048835) as [->|[->|[->| ->]]] by lia; vm_compute; reflexivity.
    + apply L2. lia.
Defined.
