(* ===== verification/Mp.v ===== *)
(** Finding the processors (mp.c).

    The tables of the BIOS lie in memory, as the kernel maps it; the pointers to
    them are kernel addresses and wrap at 32 bits. [mpinit] collects the
    processors' ids.

    Theorems: [mpsearch1] finds the first structure with the right signature and
    checksum ([mpsearch1_first]); for a table with known entries [mpinit] ends
    with the first NCPU processors in the table's order ([mpinit_table]); for
    one with an unknown entry it never ends ([mpinit_unknown]). *)

From Stdlib Require Import ZArith Lia.
From stdpp Require Import base strings gmap numbers list.
From S2P Require Import Prelude KString.

Open Scope Z_scope.

Abbreviation NCPU := 8 (only parsing).
Abbreviation MPPROC := 0 (only parsing).
Abbreviation MPBUS := 1 (only parsing).
Abbreviation MPIOAPIC := 2 (only parsing).
Abbreviation MPIOINTR := 3 (only parsing).
Abbreviation MPLINTR := 4 (only parsing).
(** [sizeof] of struct mp, mpconf, mpproc and mpioapic. *)
Abbreviation SZ_MP := 16 (only parsing).
Abbreviation SZ_CONF := 44 (only parsing).
Abbreviation SZ_PROC := 20 (only parsing).
Abbreviation SZ_IOAPIC := 8 (only parsing).

(** ** Definitions *)

(** The loop of [sum], and [sum]. *)
Fixpoint sum_loop (m : mem) (addr : Z) (n : nat) (acc : Z) : Z :=
  match n with
  | O => acc
  | S n' => sum_loop m (addr + 1) n' (i32 (acc + rd8 m addr))
  end.
Definition sum (m : mem) (addr len : Z) : Z := u8 (sum_loop m addr (Z.to_nat len) 0).

(** The signature at [p] is the string [s]. *)
Definition sig_at (m : mem) (p : Z) (s : list Z) : bool :=
  memcmp (at_mem m p) (at_list s) 4 =? 0.
Definition mp_sig : list Z := [95; 77; 80; 95].
Definition pcmp_sig : list Z := [80; 67; 77; 80].

Fixpoint mpsearch1_loop (fuel : nat) (m : mem) (p e : Z) : option (option Z) :=
  if p <? e then
    if sig_at m p mp_sig && (sum m p SZ_MP =? 0) then Some (Some p)
    else match fuel with O => None | S f => mpsearch1_loop f m (u32 (p + SZ_MP)) e end
  else Some None.

(** The outer [None] is a search that does not end. *)
Definition mpsearch1 (m : mem) (a len : Z) : option (option Z) :=
  let addr := P2V a in
  let e := u32 (addr + len) in
  mpsearch1_loop (Z.to_nat (len / SZ_MP + 1)) m addr e.

Definition mpsearch (m : mem) : option (option Z) :=
  let bda := P2V 1024 in
  let p := Z.shiftl (Z.lor (Z.shiftl (rd8 m (bda + 15)) 8) (rd8 m (bda + 14))) 4 in
  r ← (if negb (p =? 0) then mpsearch1 m p 1024
       else let p := Z.lor (Z.shiftl (rd8 m (bda + 20)) 8) (rd8 m (bda + 19)) * 1024 in
            mpsearch1 m (u32 (p - 1024)) 1024);
  match r with
  | Some mp => Some (Some mp)
  | None => mpsearch1 m 983040 65536
  end.

Definition mp_physaddr (m : mem) (mp : Z) : Z := rd32 m (mp + 4).
Definition mp_imcrp (m : mem) (mp : Z) : Z := rd8 m (mp + 12).
Definition conf_length (m : mem) (conf : Z) : Z := rd8 m (conf + 4) + 256 * rd8 m (conf + 5).
Definition conf_version (m : mem) (conf : Z) : Z := rd8 m (conf + 6).
Definition conf_lapicaddr (m : mem) (conf : Z) : Z := rd32 m (conf + 36).

(** The structure and the table. *)
Definition mpconfig (m : mem) : option (option (Z * Z)) :=
  r ← mpsearch m;
  match r with
  | None => Some None
  | Some mp =>
      if mp_physaddr m mp =? 0 then Some None
      else
        let conf := P2V (mp_physaddr m mp) in
        if negb (sig_at m conf pcmp_sig) then Some None
        else if negb (conf_version m conf =? 1) && negb (conf_version m conf =? 4) then Some None
        else if negb (sum m conf (conf_length m conf) =? 0) then Some None
        else Some (Some (mp, conf))
  end.

(** [cpus[i].apicid] as a list of the entries in use, [ioapicid] and [lapic]. *)
Record mpst := { apicids : list Z; ioapicid : Z; lapic : Z }.

(** The loop over the entries from [p] to [e]; [None] when it does not end with
    this fuel. *)
Fixpoint mp_loop (fuel : nat) (m : mem) (p e : Z) (s : mpst) (ismp : bool) : option (mpst * bool) :=
  if p <? e then
    match fuel with
    | O => None
    | S f =>
        let ty := rd8 m p in
        if ty =? MPPROC then
          let s := if Z.of_nat (length (apicids s)) <? NCPU then
                     {| apicids := apicids s ++ [rd8 m (p + 1)]; ioapicid := ioapicid s; lapic := lapic s |}
                   else s in
          mp_loop f m (u32 (p + SZ_PROC)) e s ismp
        else if ty =? MPIOAPIC then
          mp_loop f m (u32 (p + SZ_IOAPIC)) e
            {| apicids := apicids s; ioapicid := rd8 m (p + 1); lapic := lapic s |} ismp
        else if (ty =? MPBUS) || (ty =? MPIOINTR) || (ty =? MPLINTR) then mp_loop f m (u32 (p + 8)) e s ismp
        else mp_loop f m p e s false
    end
  else Some (s, ismp).

(** The port accesses at the end: [imcr] is what port 0x23 reads. *)
Definition imcr_writes (m : mem) (mp imcr : Z) : list (Z * Z) :=
  if negb (mp_imcrp m mp =? 0) then [(34, 112); (35, Z.lor imcr 1)] else [].

Definition mpinit (fuel : nat) (m : mem) (imcr : Z) : outcome (mpst * list (Z * Z)) unit :=
  match mpconfig m with
  | None => OutOfFuel
  | Some None => Panic "Expect to run on an SMP"
  | Some (Some (mp, conf)) =>
      let s := {| apicids := []; ioapicid := 0; lapic := conf_lapicaddr m conf |} in
      match mp_loop fuel m (u32 (conf + SZ_CONF)) (u32 (conf + conf_length m conf)) s true with
      | None => OutOfFuel
      | Some (s, ismp) =>
          if negb ismp then Panic "Didn't find a suitable machine"
          else Ret tt (s, imcr_writes m mp imcr)
      end
  end.

(** ** The search *)

(** The bytes of [len] addresses from [addr]. *)
Definition bytes_at (m : mem) (addr : Z) (len : nat) : list Z := (fun i => rd8 m (addr + Z.of_nat i)) <$> seq 0 len.
Definition total (l : list Z) : Z := foldr Z.add 0 l.

Lemma bytes_at_S m a n : bytes_at m a (S n) = rd8 m a :: bytes_at m (a + 1) n.
Proof.
  unfold bytes_at. cbn [seq fmap list_fmap]. f_equal; [f_equal; lia|]. rewrite <- seq_shift, <- list_fmap_compose.
  apply list_fmap_ext. intros i x _. simpl. f_equal. lia.
Qed.

Lemma sum_loop_ok m n : forall a acc,
  0 <= acc -> acc + 255 * Z.of_nat n < 2147483648 -> sum_loop m a n acc = acc + total (bytes_at m a n).
Proof.
  induction n as [|n IH]; intros a acc Ha Hb; [simpl; lia|].
  cbn [sum_loop]. pose proof (rd8_range m a). rewrite i32_small, IH, bytes_at_S by lia. simpl. lia.
Qed.

(** The signature is there and all bytes add up to 0. *)
Definition mp_valid (m : mem) (p : Z) : Prop :=
  bytes_at m p 4 = mp_sig /\ total (bytes_at m p 16) mod 256 = 0.

#[export] Instance mp_valid_dec m p : Decision (mp_valid m p).
Proof. unfold mp_valid. apply _. Defined.

Lemma sig_at_spec m p a b c d : sig_at m p [a; b; c; d] = true <-> bytes_at m p 4 = [a; b; c; d].
Proof.
  unfold sig_at. rewrite Z.eqb_eq. cbn [memcmp]. unfold rshift, at_mem, at_list, bytes_at. cbn [seq fmap list_fmap].
  change (default 0 ([a; b; c; d] !! 0%nat)) with a. change (default 0 ([a; b; c; d] !! 1%nat)) with b.
  change (default 0 ([a; b; c; d] !! 2%nat)) with c. change (default 0 ([a; b; c; d] !! 3%nat)) with d.
  repeat match goal with |- context [if (?x =? ?y) then _ else _] => destruct (Z.eqb_spec x y) end;
    (split; intros HH; [first [lia|congruence]|first [injection HH; intros; lia|lia]]).
Qed.

Lemma mp_test_spec m p :
  sig_at m p mp_sig && (sum m p SZ_MP =? 0) = bool_decide (mp_valid m p).
Proof.
  apply eq_true_iff_eq. rewrite bool_decide_eq_true, andb_true_iff. unfold mp_valid, mp_sig. rewrite sig_at_spec, Z.eqb_eq.
  unfold sum. rewrite sum_loop_ok by lia. unfold u8. change (Z.to_nat 16) with 16%nat. done.
Qed.

Lemma mpsearch1_loop_ok m k : forall fuel p e,
  (k <= fuel)%nat -> e <= p + SZ_MP * Z.of_nat k -> (k = O \/ p + SZ_MP * (Z.of_nat k - 1) < e) ->
  0 <= p -> p + SZ_MP * Z.of_nat k < 4294967296 ->
  mpsearch1_loop fuel m p e = Some (head (filter (mp_valid m) ((fun i => p + SZ_MP * Z.of_nat i) <$> seq 0 k))).
Proof.
  induction k as [|k IH]; intros fuel p e Hf He Hk Hp Hw.
  - assert ((p <? e) = false) as Hlt by lia. destruct fuel; cbn [mpsearch1_loop]; by rewrite Hlt.
  - assert ((p <? e) = true) as Hlt by lia. cbn [seq fmap list_fmap].
    replace (p + SZ_MP * Z.of_nat 0) with p by lia.
    assert (((fun i => p + SZ_MP * Z.of_nat i) <$> seq 1 k) = ((fun i => p + SZ_MP + SZ_MP * Z.of_nat i) <$> seq 0 k)) as ->.
    { rewrite <- seq_shift, <- list_fmap_compose. apply list_fmap_ext. intros i x _. simpl. lia. }
    destruct fuel as [|fuel]; [lia|]. cbn [mpsearch1_loop]. rewrite Hlt, mp_test_spec, filter_cons.
    destruct (decide (mp_valid m p)) as [Hv|Hv].
    + by rewrite bool_decide_true.
    + rewrite bool_decide_false by done. rewrite u32_small by lia. apply IH; try lia.
Qed.

(** [mpsearch1] looks at the addresses in steps of the structure's size and
    returns the first at which the signature stands and the bytes add up to 0
    modulo 256, or none; it ends. *)
Theorem mpsearch1_first m a len :
  0 <= len -> P2V a + len + SZ_MP < 4294967296 ->
  mpsearch1 m a len =
    Some (head (filter (mp_valid m) ((fun i => P2V a + SZ_MP * Z.of_nat i) <$> seq 0 (Z.to_nat ((len + 15) / SZ_MP))))).
Proof.
  intros Hl Hw. pose proof (u32_range (a + KERNBASE)) as Hr. unfold P2V in *. unfold mpsearch1. cbv zeta. unfold P2V.
  rewrite (u32_small (u32 (a + KERNBASE) + len)) by lia.
  set (k := (len + 15) / 16). assert (0 <= k /\ len <= 16 * k < len + 16) as [Hk0 Hk] by (unfold k; dlia).
  apply mpsearch1_loop_ok; try lia.
  - apply Z2Nat.inj_le; [lia|dlia|]. unfold k. dlia.
Qed.

(** ** The table *)

Inductive mpentry := EProc (apicid : Z) | EIoapic (id : Z) | EOther.

(** From [p] the entries [es] lead to [q]; all start before [e]. *)
Inductive entries (m : mem) (e : Z) : Z -> list mpentry -> Z -> Prop :=
  | en_nil p : entries m e p [] p
  | en_proc p es q : p < e -> rd8 m p = MPPROC -> entries m e (p + SZ_PROC) es q -> entries m e p (EProc (rd8 m (p + 1)) :: es) q
  | en_ioapic p es q : p < e -> rd8 m p = MPIOAPIC -> entries m e (p + SZ_IOAPIC) es q -> entries m e p (EIoapic (rd8 m (p + 1)) :: es) q
  | en_other p es q : p < e -> rd8 m p = MPBUS \/ rd8 m p = MPIOINTR \/ rd8 m p = MPLINTR ->
      entries m e (p + 8) es q -> entries m e p (EOther :: es) q.

Definition procs (es : list mpentry) : list Z := omap (fun x => match x with EProc a => Some a | _ => None end) es.
Definition ioapics (es : list mpentry) : list Z := omap (fun x => match x with EIoapic a => Some a | _ => None end) es.

Definition collect (s : mpst) (es : list mpentry) : mpst :=
  {| apicids := take 8 (apicids s ++ procs es); ioapicid := default (ioapicid s) (last (ioapics es)); lapic := lapic s |}.

Lemma last_cons_default {A} (x d : A) l : default d (last (x :: l)) = default x (last l).
Proof. revert x d. induction l as [|y l IH]; intros x d; [done|]. change (last (x :: y :: l)) with (last (y :: l)). by rewrite !IH. Qed.

Lemma mp_loop_entries m e p es q b f : forall s,
  entries m e p es q -> 0 <= p -> e + 20 < 4294967296 -> (length (apicids s) <= 8)%nat ->
  mp_loop (length es + f) m p e s b = mp_loop f m q e (collect s es) b.
Proof.
  intros s He. revert s. induction He as [p|p es q Hp Ht He IH|p es q Hp Ht He IH|p es q Hp Ht He IH]; intros s H0 Hw Hs.
  - unfold collect. simpl. rewrite app_nil_r, firstn_all2 by done. by destruct s.
  - cbn [length Nat.add mp_loop]. assert ((p <? e) = true) as -> by lia. rewrite Ht. cbn [Z.eqb].
    rewrite u32_small by lia. unfold collect. destruct (Z.ltb_spec (Z.of_nat (length (apicids s))) 8) as [Hl|Hl].
    + rewrite IH; [|lia|lia|cbn [apicids]; rewrite length_app; simpl; lia].
      unfold collect. cbn [apicids ioapicid lapic]. by rewrite <- app_assoc.
    + rewrite IH by (done || lia). unfold collect. assert (length (apicids s) = 8%nat) as E8 by lia.
      by rewrite !take_app_le by lia.
  - cbn [length Nat.add mp_loop]. assert ((p <? e) = true) as -> by lia. rewrite Ht. cbn [Z.eqb].
    rewrite u32_small by lia. rewrite IH by (done || lia). unfold collect. cbn [apicids ioapicid lapic procs ioapics omap list_omap].
    by rewrite last_cons_default.
  - cbn [length Nat.add mp_loop]. assert ((p <? e) = true) as -> by lia. rewrite (u32_small (p + 8)) by lia.
    destruct Ht as [Ht|[Ht|Ht]]; rewrite Ht; cbn [Z.eqb Pos.eqb orb]; rewrite IH by (done || lia); done.
Qed.

(** Any table has a first part of known entries. *)
Lemma entries_total m e : forall k p, e - p <= Z.of_nat k ->
  exists es q, entries m e p es q /\ (length es <= k)%nat /\ (e <= q \/ q < e /\ 4 < rd8 m q).
Proof.
  induction k as [|k IH]; intros p Hk.
  - exists [], p. split_and!; [constructor|simpl; lia|left; lia].
  - destruct (decide (e <= p)); [exists [], p; split_and!; [constructor|simpl; lia|by left]|].
    pose proof (rd8_range m p) as Hr. destruct (decide (4 < rd8 m p)).
    { exists [], p. split_and!; [constructor|simpl; lia|right; lia]. }
    destruct (decide (rd8 m p = 0)) as [E|E]; [|destruct (decide (rd8 m p = 2)) as [E2|E2]].
    + destruct (IH (p + SZ_PROC)) as (es & q & He & Hl & Hq); [lia|]. exists (EProc (rd8 m (p + 1)) :: es), q.
      split_and!; [by apply en_proc; [lia|..]|simpl; lia|done].
    + destruct (IH (p + SZ_IOAPIC)) as (es & q & He & Hl & Hq); [lia|]. exists (EIoapic (rd8 m (p + 1)) :: es), q.
      split_and!; [by apply en_ioapic; [lia|..]|simpl; lia|done].
    + destruct (IH (p + 8)) as (es & q & He & Hl & Hq); [lia|]. exists (EOther :: es), q.
      split_and!; [apply en_other; [lia|lia|done]|simpl; lia|done].
Qed.

Lemma mp_loop_end f m q e s b : e <= q -> mp_loop f m q e s b = Some (s, b).
Proof. intros Hq. assert ((q <? e) = false) as Hlt by lia. destruct f; cbn [mp_loop]; by rewrite Hlt. Qed.

Lemma mp_loop_unknown f m q e : forall s b, q < e -> 4 < rd8 m q -> mp_loop f m q e s b = None.
Proof.
  induction f as [|f IH]; intros s b Hq Ht; cbn [mp_loop]; assert ((q <? e) = true) as -> by lia; [done|].
  destruct (Z.eqb_spec (rd8 m q) 0), (Z.eqb_spec (rd8 m q) 2), (Z.eqb_spec (rd8 m q) 1), (Z.eqb_spec (rd8 m q) 3), (Z.eqb_spec (rd8 m q) 4);
    try lia. by apply IH.
Qed.

Lemma mp_loop_mono f1 f2 m p e : forall s b r, (f1 <= f2)%nat -> mp_loop f1 m p e s b = Some r -> mp_loop f2 m p e s b = Some r.
Proof.
  revert f2 p. induction f1 as [|f1 IH]; intros f2 p s b r Hf; cbn [mp_loop].
  - destruct (p <? e) eqn:Hp; [done|]. intros [= <-]. by apply mp_loop_end, Z.ltb_ge.
  - destruct f2 as [|f2]; [lia|]. cbn [mp_loop]. destruct (p <? e); [|done]. cbv zeta.
    repeat case_match; intros E; (apply IH; [lia|done]).
Qed.

(** [mpinit] reads the table the BIOS left. When every entry up to the end
    of the table is of a known kind, it ends, with the ids of the first NCPU
    processors in the table's order, the id of the last I/O APIC and the address
    of the local APIC. *)
Theorem mpinit_table fuel m imcr mp conf es q :
  mpconfig m = Some (Some (mp, conf)) -> 0 <= conf -> conf + SZ_CONF + conf_length m conf + 20 < 4294967296 ->
  let e := conf + conf_length m conf in
  entries m e (conf + SZ_CONF) es q -> e <= q -> (length es <= fuel)%nat ->
  mpinit fuel m imcr =
    Ret tt ({| apicids := take 8 (procs es); ioapicid := default 0 (last (ioapics es)); lapic := conf_lapicaddr m conf |},
            imcr_writes m mp imcr).
Proof.
  intros Hc H0 Hw e He Hq Hf. assert (0 <= conf_length m conf) as Hl.
  { unfold conf_length. pose proof (rd8_range m (conf + 4)). pose proof (rd8_range m (conf + 5)). lia. }
  unfold mpinit. rewrite Hc. rewrite !u32_small by lia. fold e.
  set (s0 := {| apicids := []; ioapicid := 0; lapic := conf_lapicaddr m conf |}).
  replace fuel with (length es + (fuel - length es))%nat by lia.
  rewrite (mp_loop_entries m e (conf + SZ_CONF) es q true _ s0 He) by (done || lia || (simpl; lia)).
  by rewrite mp_loop_end.
Qed.

(** A table with an entry of an unknown kind makes [mpinit] loop for ever:
    its case leaves the switch, not the loop, and [p] stays. *)
Theorem mpinit_unknown m imcr mp conf es q :
  mpconfig m = Some (Some (mp, conf)) -> 0 <= conf -> conf + SZ_CONF + conf_length m conf + 20 < 4294967296 ->
  let e := conf + conf_length m conf in
  entries m e (conf + SZ_CONF) es q -> q < e -> 4 < rd8 m q ->
  forall fuel, mpinit fuel m imcr = OutOfFuel.
Proof.
  intros Hc H0 Hw e He Hq Ht fuel. assert (0 <= conf_length m conf) as Hl.
  { unfold conf_length. pose proof (rd8_range m (conf + 4)). pose proof (rd8_range m (conf + 5)). lia. }
  unfold mpinit. rewrite Hc. rewrite !u32_small by lia. fold e.
  set (s0 := {| apicids := []; ioapicid := 0; lapic := conf_lapicaddr m conf |}).
  assert (mp_loop (length es + fuel) m (conf + SZ_CONF) e s0 true = None) as E.
  { rewrite (mp_loop_entries m e (conf + SZ_CONF) es q true _ s0 He) by (done || lia || (simpl; lia)).
    by apply mp_loop_unknown. }
  destruct (mp_loop fuel m (conf + SZ_CONF) e s0 true) as [r|] eqn:Er; [|done].
  rewrite (mp_loop_mono fuel (length es + fuel) _ _ _ _ _ _ ltac:(lia) Er) in E. done.
Qed.

(** The searches end. *)
Lemma mpsearch1_total m a len : 0 <= len -> P2V a + len + SZ_MP < 4294967296 -> exists r, mpsearch1 m a len = Some r.
Proof.
  intros Hl Hw. pose proof (u32_range (a + KERNBASE)) as Hr. unfold mpsearch1. cbv zeta. unfold P2V in *.
  rewrite (u32_small (u32 (a + KERNBASE) + len)) by lia.
  set (k := (len + 15) / 16). assert (0 <= k /\ len <= 16 * k < len + 16) as [Hk0 Hk] by (unfold k; dlia).
  eexists. apply (mpsearch1_loop_ok m (Z.to_nat k)); try lia.
  apply Z2Nat.inj_le; [lia|dlia|]. unfold k. dlia.
Qed.

Lemma mpsearch_total m : exists r, mpsearch m = Some r.
Proof.
  unfold mpsearch. cbv zeta.
  assert (forall a b, Z.lor (Z.shiftl (rd8 m a) 8) (rd8 m b) = rd8 m a * 256 + rd8 m b /\ 0 <= rd8 m a * 256 + rd8 m b < 65536) as E.
  { intros a b. pose proof (rd8_range m a). pose proof (rd8_range m b).
    rewrite lor_shiftl by (change (2 ^ 8) with 256; lia). rewrite Z.shiftl_mul_pow2 by lia. change (2 ^ 8) with 256. lia. }
  destruct (E (P2V 1024 + 15) (P2V 1024 + 14)) as [-> B1]. destruct (E (P2V 1024 + 20) (P2V 1024 + 19)) as [-> B2].
  set (x := rd8 m (P2V 1024 + 15) * 256 + _) in *. set (y := rd8 m (P2V 1024 + 20) * 256 + _) in *.
  rewrite Z.shiftl_mul_pow2 by lia. change (2 ^ 4) with 16.
  assert (exists r, (if negb (x * 16 =? 0) then mpsearch1 m (x * 16) 1024 else mpsearch1 m (u32 (y * 1024 - 1024)) 1024) = Some r) as [r ->].
  { destruct (Z.eqb_spec (x * 16) 0); simpl; apply mpsearch1_total; try lia; unfold P2V.
    - rewrite u32_add_l. unfold u32. dlia.
    - unfold u32. dlia. }
  simpl. destruct r; [by eexists|]. apply mpsearch1_total; [lia|vm_compute; reflexivity].
Qed.

(** ** Witnesses *)

Definition wr_list (m : mem) (a : Z) (l : list Z) : mem :=
  foldr (fun i m => wr8 m (a + Z.of_nat i) (default 0 (l !! i))) m (seq 0 (length l)).

(** A floating structure in the BIOS ROM and a table with a processor, an I/O
    APIC and an entry of kind [ty]; [chk] is the table's checksum. *)
Definition mw_mem (ty chk : Z) : mem :=
  let m := wr_list ∅ (P2V 983040) (mp_sig ++ [0; 1; 0; 0; 1; 4; 159]) in
  wr_list m (P2V 256)
    (pcmp_sig ++ [80; 0; 4; chk] ++ replicate 28 0 ++ [0; 0; 224; 254] ++ replicate 4 0 ++
     [0; 3] ++ replicate 18 0 ++ [2; 7] ++ replicate 6 0 ++ [ty] ++ replicate 7 0).

Definition mw_conf : Z := P2V 256.
Definition mw_mp : Z := P2V 983040.

Lemma mw_config : mpconfig (mw_mem 1 145) = Some (Some (mw_mp, mw_conf)) /\ mpconfig (mw_mem 9 137) = Some (Some (mw_mp, mw_conf)).
Proof. split; vm_compute; reflexivity. Qed.

Lemma mpinit_table_witness : mpconfig (mw_mem 1 145) = Some (Some (mw_mp, mw_conf)) /\
  mpinit 3 (mw_mem 1 145) 0 = Ret tt ({| apicids := [3]; ioapicid := 7; lapic := 4276092928 |}, []).
Proof.
  split; [apply mw_config|].
  refine (eq_trans (mpinit_table 3 (mw_mem 1 145) 0 mw_mp mw_conf [EProc 3; EIoapic 7; EOther] (mw_conf + 80) (proj1 mw_config) _ _ _ _ _) _).
  - vm_compute. congruence.
  - vm_compute. reflexivity.
  - apply (en_proc (mw_mem 1 145)); [vm_compute; reflexivity|vm_compute; reflexivity|].
    apply (en_ioapic (mw_mem 1 145)); [vm_compute; reflexivity|vm_compute; reflexivity|].
    apply en_other; [vm_compute; reflexivity|left; vm_compute; reflexivity|]. apply en_nil.
  - vm_compute. congruence.
  - simpl. lia.
  - vm_compute. reflexivity.
Defined.

Lemma mpinit_unknown_witness : forall fuel, mpinit fuel (mw_mem 9 137) 0 = OutOfFuel.
Proof.
  apply (mpinit_unknown (mw_mem 9 137) 0 mw_mp mw_conf [EProc 3; EIoapic 7] (mw_conf + 72) (proj2 mw_config)).
  - vm_compute. congruence.
  - vm_compute. reflexivity.
  - apply (en_proc (mw_mem 9 137)); [vm_compute; reflexivity|vm_compute; reflexivity|].
    apply (en_ioapic (mw_mem 9 137)); [vm_compute; reflexivity|vm_compute; reflexivity|]. apply en_nil.
  - vm_compute. reflexivity.
  - vm_compute. reflexivity.
Defined.

Lemma mpsearch1_first_witness : mpsearch1 (mw_mem 1 145) 982976 1024 = Some (Some mw_mp).
Proof.
  refine (eq_trans (mpsearch1_first (mw_mem 1 145) 982976 1024 _ _) _); [lia|vm_compute; reflexivity|vm_compute; reflexivity].
Defined.
