(* ===== verification/Gates.v ===== *)
(** Descriptors: segments and gates (mmu.h), [seginit] and the task segment of
    [switchuvm] (vm.c), [tvinit] (trap.c), [lgdt] and [lidt] (x86.h).

    A descriptor is a structure of bit fields, which the compiler lays out from
    the lowest bit up in two words; the processor reads base, limit and rights
    back out of the 64 bits. [segment_decodes] and [gate_decodes] show that it
    reads what the macros were given; with them, [tvinit_gates] says which
    vectors a user program may call, and [seginit_flat] that the segments are
    flat and only the user's are open to the user. *)

From Stdlib Require Import ZArith Lia.
From stdpp Require Import base strings gmap numbers list.
From S2P Require Import Prelude.

Open Scope Z_scope.

Abbreviation SEG_KCODE := 1 (only parsing).
Abbreviation SEG_KDATA := 2 (only parsing).
Abbreviation SEG_UCODE := 3 (only parsing).
Abbreviation SEG_UDATA := 4 (only parsing).
Abbreviation SEG_TSS := 5 (only parsing).
Abbreviation NSEGS := 6 (only parsing).
Abbreviation DPL_USER := 3 (only parsing).
Abbreviation STA_X := 8 (only parsing).
Abbreviation STA_W := 2 (only parsing).
Abbreviation STA_R := 2 (only parsing).
Abbreviation STS_T32A := 9 (only parsing).
Abbreviation STS_IG32 := 14 (only parsing).
Abbreviation STS_TG32 := 15 (only parsing).
Abbreviation T_SYSCALL := 64 (only parsing).

(** ** Bit fields *)

(** Fields [(width, value)] from the lowest bit up; a store keeps the field's
    width. *)
Fixpoint pack (fields : list (Z * Z)) : Z :=
  match fields with
  | [] => 0
  | (w, v) :: fields' => v mod 2 ^ w + 2 ^ w * pack fields'
  end.

(** The [w] bits of [x] from bit [o] on. *)
Definition bits (x o w : Z) : Z := (x / 2 ^ o) mod 2 ^ w.

(** ** Segments *)

Record segdesc := {
  lim_15_0 : Z; base_15_0 : Z; base_23_16 : Z; sd_type : Z; sd_s : Z; sd_dpl : Z; sd_p : Z;
  lim_19_16 : Z; avl : Z; sd_rsv1 : Z; db : Z; sd_g : Z; base_31_24 : Z }.

Definition segdesc_bits (d : segdesc) : Z :=
  pack [(16, lim_15_0 d); (16, base_15_0 d); (8, base_23_16 d); (4, sd_type d); (1, sd_s d); (2, sd_dpl d);
        (1, sd_p d); (4, lim_19_16 d); (1, avl d); (1, sd_rsv1 d); (1, db d); (1, sd_g d); (8, base_31_24 d)].

Definition SEG (type base lim dpl : Z) : segdesc :=
  {| lim_15_0 := Z.land (Z.shiftr lim 12) 65535; base_15_0 := Z.land (u32 base) 65535;
     base_23_16 := Z.land (Z.shiftr (u32 base) 16) 255; sd_type := type; sd_s := 1; sd_dpl := dpl; sd_p := 1;
     lim_19_16 := Z.shiftr (u32 lim) 28; avl := 0; sd_rsv1 := 0; db := 1; sd_g := 1;
     base_31_24 := Z.shiftr (u32 base) 24 |}.
Definition SEG16 (type base lim dpl : Z) : segdesc :=
  {| lim_15_0 := Z.land lim 65535; base_15_0 := Z.land (u32 base) 65535;
     base_23_16 := Z.land (Z.shiftr (u32 base) 16) 255; sd_type := type; sd_s := 1; sd_dpl := dpl; sd_p := 1;
     lim_19_16 := Z.shiftr (u32 lim) 16; avl := 0; sd_rsv1 := 0; db := 1; sd_g := 0;
     base_31_24 := Z.shiftr (u32 base) 24 |}.

Definition set_s (v : Z) (d : segdesc) : segdesc :=
  {| lim_15_0 := lim_15_0 d; base_15_0 := base_15_0 d; base_23_16 := base_23_16 d; sd_type := sd_type d; sd_s := v;
     sd_dpl := sd_dpl d; sd_p := sd_p d; lim_19_16 := lim_19_16 d; avl := avl d; sd_rsv1 := sd_rsv1 d; db := db d;
     sd_g := sd_g d; base_31_24 := base_31_24 d |}.

(** [c->gdt]. *)
Definition seginit (gdt : list segdesc) : list segdesc :=
  let gdt := <[Z.to_nat SEG_KCODE := SEG (Z.lor STA_X STA_R) 0 4294967295 0]> gdt in
  let gdt := <[Z.to_nat SEG_KDATA := SEG STA_W 0 4294967295 0]> gdt in
  let gdt := <[Z.to_nat SEG_UCODE := SEG (Z.lor STA_X STA_R) 0 4294967295 DPL_USER]> gdt in
  <[Z.to_nat SEG_UDATA := SEG STA_W 0 4294967295 DPL_USER]> gdt.

(** The task segment that [switchuvm] installs; [ts] is the address of
    [mycpu()->ts], a structure of 104 bytes. *)
Definition tss_seg (ts : Z) : segdesc := set_s 0 (SEG16 STS_T32A ts (104 - 1) 0).

(** The pseudo-descriptor that [lgdt] and [lidt] build. *)
Definition load_pd (p size : Z) : list Z := [Z.land (size - 1) 65535; Z.land p 65535; Z.land (Z.shiftr p 16) 65535].

(** ** Gates *)

Record gatedesc := {
  off_15_0 : Z; gd_cs : Z; gd_args : Z; gd_rsv1 : Z; gd_type : Z; gd_s : Z; gd_dpl : Z; gd_p : Z; off_31_16 : Z }.

Definition gatedesc_bits (g : gatedesc) : Z :=
  pack [(16, off_15_0 g); (16, gd_cs g); (5, gd_args g); (3, gd_rsv1 g); (4, gd_type g); (1, gd_s g);
        (2, gd_dpl g); (1, gd_p g); (16, off_31_16 g)].

Definition SETGATE (istrap : bool) (sel off d : Z) : gatedesc :=
  {| off_15_0 := Z.land (u32 off) 65535; gd_cs := sel; gd_args := 0; gd_rsv1 := 0;
     gd_type := if istrap then STS_TG32 else STS_IG32; gd_s := 0; gd_dpl := d; gd_p := 1;
     off_31_16 := Z.shiftr (u32 off) 16 |}.

(** The loop of [tvinit] over the first [n] vectors. *)
Fixpoint tvinit_loop (n : nat) (vectors : nat -> Z) (idt : list gatedesc) : list gatedesc :=
  match n with
  | O => idt
  | S n' => <[n' := SETGATE false (Z.shiftl SEG_KCODE 3) (vectors n') 0]> (tvinit_loop n' vectors idt)
  end.
Definition tvinit (vectors : nat -> Z) (idt : list gatedesc) : list gatedesc :=
  <[Z.to_nat T_SYSCALL := SETGATE true (Z.shiftl SEG_KCODE 3) (vectors (Z.to_nat T_SYSCALL)) DPL_USER]>
    (tvinit_loop 256 vectors idt).

(** ** What the processor reads *)

Definition seg_base (x : Z) : Z := bits x 16 24 + 2 ^ 24 * bits x 56 8.
Definition seg_limit (x : Z) : Z :=
  let l := bits x 0 16 + 2 ^ 16 * bits x 48 4 in
  if bits x 55 1 =? 1 then 4096 * l + 4095 else l.
Definition desc_type (x : Z) : Z := bits x 40 4.
Definition desc_app (x : Z) : bool := bits x 44 1 =? 1.
Definition desc_dpl (x : Z) : Z := bits x 45 2.
Definition desc_present (x : Z) : bool := bits x 47 1 =? 1.
Definition gate_offset (x : Z) : Z := bits x 0 16 + 2 ^ 16 * bits x 48 16.
Definition gate_selector (x : Z) : Z := bits x 16 16.

(** [int n] from privilege level [cpl] may go through the gate. *)
Definition int_allowed (cpl : Z) (x : Z) : Prop := cpl <= desc_dpl x.

Lemma bits_pack_here w v f : 0 <= w -> bits (pack ((w, v) :: f)) 0 w = v mod 2 ^ w.
Proof.
  intros Hw. unfold bits. cbn [pack]. rewrite Z.pow_0_r, Z.div_1_r.
  rewrite (Z.mul_comm (2 ^ w)), Z.mod_add, Z.mod_mod; try done; by apply Z.pow_nonzero.
Qed.

Lemma bits_pack_next w' v f o1 o w : 0 <= w' -> 0 <= o -> o1 = w' + o ->
  bits (pack ((w', v) :: f)) o1 w = bits (pack f) o w.
Proof.
  intros Hw Ho ->. unfold bits. cbn [pack]. f_equal. rewrite Z.pow_add_r, <- Z.div_div by (try lia; by apply Z.pow_nonzero || (apply Z.pow_pos_nonneg; lia)).
  f_equal. rewrite (Z.mul_comm (2 ^ w')), Z.div_add by by apply Z.pow_nonzero.
  rewrite Z.div_small; [done|]. apply Z.mod_pos_bound. by apply Z.pow_pos_nonneg.
Qed.

Lemma bits_pack_two w1 v1 w2 v2 f w : 0 <= w1 -> 0 <= w2 -> w = w1 + w2 ->
  bits (pack ((w1, v1) :: (w2, v2) :: f)) 0 w = v1 mod 2 ^ w1 + 2 ^ w1 * (v2 mod 2 ^ w2).
Proof.
  intros H1 H2 ->. pose proof (Z.pow_pos_nonneg 2 w1) as P1. pose proof (Z.pow_pos_nonneg 2 w2) as P2.
  unfold bits. cbn [pack]. rewrite Z.pow_0_r, Z.div_1_r, Z.pow_add_r by done.
  rewrite Z.rem_mul_r by lia.
  rewrite (Z.mul_comm (2 ^ w1) (_ + _)), Z.mod_add, Z.mod_mod by lia. f_equal. f_equal.
  rewrite Z.div_add by lia. rewrite (Z.div_small (v1 mod _)) by (apply Z.mod_pos_bound; lia). rewrite Z.add_0_l.
  rewrite (Z.mul_comm (2 ^ w2)), Z.mod_add, Z.mod_mod by lia. done.
Qed.

(** Skips the fields before the offset and takes the one or two that are read. *)
Ltac read_field :=
  repeat lazymatch goal with
  | |- context [bits (pack ((?w', ?v) :: ?f)) ?o ?w] =>
      lazymatch eval vm_compute in (negb (o =? 0)) with
      | true =>
          let o' := eval vm_compute in (o - w') in
          rewrite (bits_pack_next w' v f o o' w) by (lia || reflexivity)
      | false =>
          lazymatch eval vm_compute in (w =? w') with
          | true => rewrite (bits_pack_here w v f) by lia
          | false =>
              lazymatch f with
              | (?w2, ?v2) :: ?f2 => rewrite (bits_pack_two w' v w2 v2 f2 w) by (lia || reflexivity)
              end
          end
      end
  end.

Lemma land_mask x k : 0 <= k -> Z.land x (2 ^ k - 1) = x mod 2 ^ k.
Proof. intros Hk. rewrite <- Z.land_ones by done. f_equal. by rewrite Z.ones_equiv. Qed.

Ltac unmask :=
  change 65535 with (2 ^ 16 - 1); change 255 with (2 ^ 8 - 1); rewrite ?land_mask, ?Z.shiftr_div_pow2 by lia.

Lemma segment_bits d : 
  let x := segdesc_bits d in
  seg_base x = base_15_0 d mod 2 ^ 16 + 2 ^ 16 * (base_23_16 d mod 2 ^ 8) + 2 ^ 24 * (base_31_24 d mod 2 ^ 8) /\
  seg_limit x = (let l := lim_15_0 d mod 2 ^ 16 + 2 ^ 16 * (lim_19_16 d mod 2 ^ 4) in
                 if sd_g d mod 2 ^ 1 =? 1 then 4096 * l + 4095 else l) /\
  desc_type x = sd_type d mod 2 ^ 4 /\ desc_app x = (sd_s d mod 2 ^ 1 =? 1) /\
  desc_dpl x = sd_dpl d mod 2 ^ 2 /\ desc_present x = (sd_p d mod 2 ^ 1 =? 1).
Proof.
  unfold segdesc_bits, seg_base, seg_limit, desc_type, desc_app, desc_dpl, desc_present. cbv zeta. read_field.
  split_and!; reflexivity.
Qed.

Lemma base_split base : 0 <= base < 4294967296 ->
  base mod 2 ^ 16 mod 2 ^ 16 + 2 ^ 16 * ((base / 2 ^ 16) mod 2 ^ 8 mod 2 ^ 8) + 2 ^ 24 * ((base / 2 ^ 24) mod 2 ^ 8) = base.
Proof.
  intros Hb. change (2 ^ 16) with 65536. change (2 ^ 8) with 256. change (2 ^ 24) with 16777216. dlia.
Qed.

(** The processor reads from the 64 bits of a segment descriptor what [SEG]
    and [SEG16] were given: the base, the type and the privilege level; for
    [SEG] the limit up to the end of its page, for [SEG16] the limit itself. *)
Theorem segment_decodes type base lim dpl :
  0 <= type < 16 -> 0 <= base < 4294967296 -> 0 <= dpl < 4 ->
  (0 <= lim < 4294967296 ->
   let x := segdesc_bits (SEG type base lim dpl) in
   seg_base x = base /\ seg_limit x = lim - lim mod 4096 + 4095 /\ desc_type x = type /\ desc_app x = true /\
   desc_dpl x = dpl /\ desc_present x = true) /\
  (0 <= lim < 1048576 ->
   let x := segdesc_bits (SEG16 type base lim dpl) in
   seg_base x = base /\ seg_limit x = lim /\ desc_type x = type /\ desc_app x = true /\
   desc_dpl x = dpl /\ desc_present x = true).
Proof.
  intros Ht Hb Hd. split; intros Hl; cbv zeta.
  - destruct (segment_bits (SEG type base lim dpl)) as (E1 & E2 & E3 & E4 & E5 & E6).
    cbv zeta in *. rewrite E1, E2, E3, E4, E5, E6. unfold SEG. cbn [base_15_0 base_23_16 base_31_24 lim_15_0 lim_19_16 sd_type sd_s sd_dpl sd_p sd_g].
    rewrite !u32_small by lia. unmask. rewrite base_split by done.
    change (2 ^ 12) with 4096. change (2 ^ 28) with 268435456. change (2 ^ 16) with 65536. change (2 ^ 4) with 16.
    change (2 ^ 2) with 4. change (2 ^ 1) with 2. change (1 mod 2 =? 1) with true. cbv iota. split_and!; try done; dlia.
  - destruct (segment_bits (SEG16 type base lim dpl)) as (E1 & E2 & E3 & E4 & E5 & E6).
    cbv zeta in *. rewrite E1, E2, E3, E4, E5, E6. unfold SEG16. cbn [base_15_0 base_23_16 base_31_24 lim_15_0 lim_19_16 sd_type sd_s sd_dpl sd_p sd_g].
    rewrite !u32_small by lia. unmask. rewrite base_split by done.
    change (2 ^ 16) with 65536. change (2 ^ 4) with 16.
    change (2 ^ 2) with 4. change (2 ^ 1) with 2. change (1 mod 2 =? 1) with true. change (0 mod 2 =? 1) with false. cbv iota.
    split_and!; try done; dlia.
Qed.

Lemma gate_decodes istrap sel off d :
  0 <= sel < 65536 -> 0 <= off < 4294967296 -> 0 <= d < 4 ->
  let x := gatedesc_bits (SETGATE istrap sel off d) in
  gate_offset x = off /\ gate_selector x = sel /\ desc_type x = (if istrap then STS_TG32 else STS_IG32) /\
  desc_app x = false /\ desc_dpl x = d /\ desc_present x = true.
Proof.
  intros Hs Ho Hd. unfold gatedesc_bits, gate_offset, gate_selector, desc_type, desc_app, desc_dpl, desc_present.
  cbv zeta. read_field. unfold SETGATE. cbn [off_15_0 gd_cs gd_args gd_rsv1 gd_type gd_s gd_dpl gd_p off_31_16].
  rewrite !u32_small by lia. unmask. change (2 ^ 16) with 65536. change (2 ^ 2) with 4.
  split_and!; try done; try dlia. by destruct istrap.
Qed.

Lemma tvinit_loop_lookup n vectors idt i :
  (n <= length idt)%nat -> length (tvinit_loop n vectors idt) = length idt /\
  ((i < n)%nat -> tvinit_loop n vectors idt !! i = Some (SETGATE false (Z.shiftl SEG_KCODE 3) (vectors i) 0)).
Proof.
  induction n as [|n IH]; intros Hn; [split; [done|lia]|]. destruct IH as [IL IH]; [lia|]. cbn [tvinit_loop].
  split; [by rewrite length_insert|]. intros Hi. destruct (decide (i = n)) as [->|Hne].
  - by rewrite list_lookup_insert_eq by lia.
  - rewrite list_lookup_insert_ne by done. apply IH. lia.
Qed.

(** C39. After [tvinit] every vector leads to its handler in the kernel's code
    segment; all but the system call's are interrupt gates, which clear the
    interrupt flag; and only the system call's may be called from user mode. *)
Theorem tvinit_gates vectors idt i :
  length idt = 256%nat -> (i < 256)%nat -> 0 <= vectors i < 4294967296 ->
  exists g, tvinit vectors idt !! i = Some g /\ let x := gatedesc_bits g in
    gate_offset x = vectors i /\ gate_selector x = 8 * SEG_KCODE /\ desc_present x = true /\
    desc_type x = (if decide (i = 64%nat) then STS_TG32 else STS_IG32) /\
    (int_allowed 3 x <-> i = 64%nat).
Proof.
  intros Hl Hi Hv. destruct (tvinit_loop_lookup 256 vectors idt i) as [IL IH]; [lia|]. specialize (IH Hi).
  unfold tvinit, int_allowed. change (Z.to_nat T_SYSCALL) with 64%nat. destruct (decide (i = 64%nat)) as [->|Hne].
  - rewrite list_lookup_insert_eq by lia. eexists. split; [reflexivity|].
    destruct (gate_decodes true (Z.shiftl SEG_KCODE 3) (vectors 64%nat) DPL_USER) as (E1 & E2 & E3 & _ & E5 & E6); [done|done|done|].
    cbv zeta in *. rewrite E1, E2, E3, E5, E6. done.
  - rewrite list_lookup_insert_ne by done. eexists. split; [exact IH|].
    destruct (gate_decodes false (Z.shiftl SEG_KCODE 3) (vectors i) 0) as (E1 & E2 & E3 & _ & E5 & E6); [done|done|done|].
    cbv zeta in *. rewrite E1, E2, E3, E5, E6. split_and!; done.
Qed.

(** The segments are flat, and the user's are the two that level 3 may load. *)
Lemma seginit_flat gdt i d :
  length gdt = Z.to_nat NSEGS -> seginit gdt !! i = Some d -> (1 <= i <= 4)%nat ->
  let x := segdesc_bits d in
  seg_base x = 0 /\ seg_limit x = 4294967295 /\ desc_present x = true /\ desc_dpl x = (if decide (i < 3)%nat then 0 else 3).
Proof.
  intros Hl Hd Hi. do 6 (destruct gdt as [|? gdt]; [done|]). destruct gdt; [|done]. unfold seginit in Hd.
  do 5 (destruct i as [|i]; [try lia; simpl in Hd; simplify_eq; vm_compute; done|]). lia.
Qed.

Lemma segment_decodes_witness :
  seg_limit (segdesc_bits (SEG 10 0 4294967295 3)) = 4294967295 /\ seg_base (segdesc_bits (SEG16 9 2148532224 103 0)) = 2148532224.
Proof.
  split.
  - destruct (segment_decodes 10 0 4294967295 3) as [H _]; [lia|lia|lia|]. destruct H as (_ & H & _); [lia|exact H].
  - destruct (segment_decodes 9 2148532224 103 0) as [_ H]; [lia|lia|lia|]. destruct H as (H & _); [lia|exact H].
Defined.

Definition gw_vectors (i : nat) : Z := 2148532224 + Z.of_nat i.
Definition gw_idt : list gatedesc := replicate 256 (SETGATE false 0 0 0).

Lemma tvinit_gates_witness : exists g, tvinit gw_vectors gw_idt !! 64%nat = Some g /\ int_allowed 3 (gatedesc_bits g).
Proof.
  destruct (tvinit_gates gw_vectors gw_idt 64) as (g & E & H); [reflexivity|lia|vm_compute; split; congruence|].
  exists g. split; [exact E|]. destruct H as (_ & _ & _ & _ & H). apply H. reflexivity.
Defined.
