(* ===== verification/ShMain.v ===== *)
(** The command loops of the two shells: [main] and [getcmd] of xv6-public/sh.c
    and of cs238p_hw1/sh.c.

    A session is a function from the bytes of the standard input to what the
    shell does with them, in order: it changes its directory or has a child
    process run a line. Whether a [fork] fails is a parameter.

    Theorem: a session on whole lines does what each line says, in order
    ([sh_session]); a last [cd] without its newline loses a byte
    ([sh_cd_unfinished]). *)

From Stdlib Require Import ZArith Lia.
From stdpp Require Import base strings gmap numbers list.
From S2P Require Import Prelude Print UserProgs Shell.

Open Scope Z_scope.

(** ** Definitions *)

(** [while((fd = open("console", O_RDWR)) >= 0)]: [fds] tells which descriptors
    are open, [open] takes the lowest free one, and fails if there is none. *)
Fixpoint lowest (fds : list bool) : option nat :=
  match fds with
  | [] => None
  | b :: fds' => if b then S <$> lowest fds' else Some O
  end.
Fixpoint open_console (fuel : nat) (fds : list bool) : option (list bool) :=
  match lowest fds with
  | None => Some fds
  | Some fd =>
      let fds := <[fd := true]> fds in
      if (3 <=? fd)%nat then Some (<[fd := false]> fds)
      else match fuel with O => None | S f => open_console f fds end
  end.

(** The string in the buffer, which is zeroed before the line is read; [None]
    for the end of the file. *)
Definition getcmd (nbuf : Z) (input : list Z) : option (list Z) * list Z :=
  let '(l, rest) := ugets nbuf input in
  (if default 0 (l !! O) =? 0 then None else Some (cstr l), rest).

(** [fgets] of the C library: up to [room] bytes, to the newline. *)
Fixpoint fgets_loop (room : nat) (input : list Z) : list Z * list Z :=
  match room with
  | O => ([], input)
  | S room' =>
      match input with
      | [] => ([], [])
      | c :: input' => if c =? 10 then ([c], input') else let '(l, r) := fgets_loop room' input' in (c :: l, r)
      end
  end.
Definition getcmd1 (nbuf : Z) (input : list Z) : option (list Z) * list Z :=
  let '(l, rest) := fgets_loop (Z.to_nat (nbuf - 1)) input in
  (if default 0 (l !! O) =? 0 then None else Some (cstr l), rest).

(** What the shell does with a line. *)
Inductive action := AChdir (path : list Z) | ARun (line : list Z) | AForkFails.

(** [buf[0] == 'c' && buf[1] == 'd' && buf[2] == ' '] *)
Definition is_cd (buf : list Z) : bool :=
  (default 0 (buf !! 0%nat) =? 99) && (default 0 (buf !! 1%nat) =? 100) && (default 0 (buf !! 2%nat) =? 32).
(** [buf[strlen(buf)-1] = 0; chdir(buf+3)] *)
Definition cd_path (buf : list Z) : list Z := drop 3 (take (length buf - 1) buf).

Section Loop.
(** [getcmd] of the shell; whether its failing [fork] ends it; the results of
    [fork]. *)
Variable get_line : Z -> list Z -> option (list Z) * list Z.
Variable fork_panics : bool.
Variable fork_ok : nat -> bool.

Fixpoint sh_loop (fuel i : nat) (input : list Z) : option (list action) :=
  let '(l, rest) := get_line 100 input in
  match l with
  | None => Some []
  | Some buf =>
      match fuel with
      | O => None
      | S fuel' =>
          if is_cd buf then as_ ← sh_loop fuel' i rest; Some (AChdir (cd_path buf) :: as_)
          else if fork_ok i then as_ ← sh_loop fuel' (S i) rest; Some (ARun buf :: as_)
          else if fork_panics then Some [AForkFails]
          else as_ ← sh_loop fuel' (S i) rest; Some (AForkFails :: as_)
      end
  end.
End Loop.

(** [main] of the two shells. *)
Definition sh_main (fork_ok : nat -> bool) (input : list Z) : option (list action) :=
  sh_loop getcmd true fork_ok (length input) 0 input.
Definition sh_main1 (fork_ok : nat -> bool) (input : list Z) : option (list action) :=
  sh_loop getcmd1 false fork_ok (length input) 0 input.

(** ** Sessions *)

(** A line as it is typed: no line ends, no NUL, and room for its newline. *)
Definition cmd_line (l : list Z) : Prop := 10 ∉ l /\ 13 ∉ l /\ 0 ∉ l /\ (length l <= 98)%nat.

Lemma cstr_app l r : 0 ∉ l -> cstr (l ++ 0 :: r) = l.
Proof.
  induction l as [|x l IH]; intros Hl; [done|]. apply not_elem_of_cons in Hl as [Hx Hl]. simpl.
  destruct (Z.eqb_spec x 0); [congruence|]. by rewrite IH.
Qed.

Lemma gets_line room l rest :
  10 ∉ l -> 13 ∉ l -> (length l < room)%nat -> gets_loop room (l ++ 10 :: rest) = (l ++ [10], rest).
Proof.
  revert room. induction l as [|c l IH]; intros room H1 H2 Hr; (destruct room as [|room]; [simpl in Hr; lia|]); [done|].
  apply not_elem_of_cons in H1 as [H1 H1'], H2 as [H2 H2']. cbn [app gets_loop].
  destruct (Z.eqb_spec c 10); [congruence|]. destruct (Z.eqb_spec c 13); [congruence|]. simpl in Hr. by rewrite IH by (done || lia).
Qed.

Lemma fgets_line room l rest :
  10 ∉ l -> (length l < room)%nat -> fgets_loop room (l ++ 10 :: rest) = (l ++ [10], rest).
Proof.
  revert room. induction l as [|c l IH]; intros room H1 Hr; (destruct room as [|room]; [simpl in Hr; lia|]); [done|].
  apply not_elem_of_cons in H1 as [H1 H1']. cbn [app fgets_loop].
  destruct (Z.eqb_spec c 10); [congruence|]. simpl in Hr. by rewrite IH by (done || lia).
Qed.

Lemma first_byte l : 0 ∉ l -> (default 0 ((l ++ [10]) !! O) =? 0) = false /\ (default 0 (((l ++ [10]) ++ [0]) !! O) =? 0) = false.
Proof.
  destruct l as [|x l]; [done|]. intros [Hx _]%not_elem_of_cons. simpl. by destruct (Z.eqb_spec x 0); [congruence|].
Qed.

Lemma getcmd_line l rest : cmd_line l -> getcmd 100 (l ++ 10 :: rest) = (Some (l ++ [10]), rest).
Proof.
  intros (H10 & H13 & H0 & Hl). unfold getcmd, ugets. change (Z.to_nat (100 - 1)) with 99%nat.
  rewrite gets_line by (done || lia). rewrite (proj2 (first_byte l H0)).
  rewrite cstr_app; [done|]. set_solver.
Qed.

Lemma cstr_id l : 0 ∉ l -> cstr l = l.
Proof.
  induction l as [|x l IH]; intros Hl; [done|]. apply not_elem_of_cons in Hl as [Hx Hl]. simpl.
  destruct (Z.eqb_spec x 0); [congruence|]. by rewrite IH.
Qed.

Lemma getcmd1_line l rest : cmd_line l -> getcmd1 100 (l ++ 10 :: rest) = (Some (l ++ [10]), rest).
Proof.
  intros (H10 & _ & H0 & Hl). unfold getcmd1. change (Z.to_nat (100 - 1)) with 99%nat.
  rewrite fgets_line by (done || lia). rewrite (proj1 (first_byte l H0)).
  rewrite cstr_id; [done|]. set_solver.
Qed.

(** What a line asks for. *)
Definition meaning (l : list Z) : action := if is_cd l then AChdir (drop 3 l) else ARun (l ++ [10]).

Lemma is_cd_newline l : is_cd (l ++ [10]) = is_cd l.
Proof. unfold is_cd. destruct l as [|a [|b [|c l]]]; simpl; rewrite ?andb_false_r; done. Qed.

Lemma sh_loop_lines get_line fp ls : forall fuel i,
  (forall l rest, cmd_line l -> get_line 100 (l ++ 10 :: rest) = (Some (l ++ [10]), rest)) ->
  (get_line 100 []).1 = None -> Forall cmd_line ls -> (length (unlines ls) <= fuel)%nat ->
  sh_loop get_line fp (fun _ => true) fuel i (unlines ls) = Some (meaning <$> ls).
Proof.
  induction ls as [|l ls IH]; intros fuel i Hg He Hls Hf.
  - destruct fuel; cbn [sh_loop]; change (unlines []) with (@nil Z); destruct (get_line 100 []) as [o r]; simpl in He; by subst.
  - apply Forall_cons in Hls as [Hl Hls]. rewrite unlines_cons in *. rewrite length_app in Hf. simpl in Hf.
    destruct fuel as [|fuel]; [lia|]. cbn [sh_loop]. rewrite (Hg l (unlines ls) Hl). rewrite is_cd_newline.
    cbn [fmap list_fmap]. unfold meaning at 1. rewrite !(IH fuel) by (done || lia). cbn [mbind option_bind].
    destruct (is_cd l); [|done]. do 3 f_equal. unfold cd_path. rewrite length_app. simpl length.
    replace (length l + 1 - 1)%nat with (length l) by lia. by rewrite take_app_length.
Qed.

(** Both shells do what the lines of their input say, in order, and end with
    the input: a line that starts with [cd ] changes the directory of the shell
    itself to the rest of the line, and any other line is run, with its newline,
    by a child. *)
Theorem sh_session ls :
  Forall cmd_line ls ->
  sh_main (fun _ => true) (unlines ls) = Some (meaning <$> ls) /\
  sh_main1 (fun _ => true) (unlines ls) = Some (meaning <$> ls).
Proof.
  intros Hls. split; (apply sh_loop_lines; [|done|done|done]).
  - apply getcmd_line.
  - apply getcmd1_line.
Qed.

(** Without its newline the last byte of a [cd] is taken for it. *)
Lemma sh_cd_unfinished : sh_main (fun _ => true) [99; 100; 32; 97; 98] = Some [AChdir [97]].
Proof. vm_compute. reflexivity. Qed.

(** The loop at the start of [main] leaves the three standard descriptors open
    and the others as they were, when there is room for a fourth. *)
Lemma open_console_ok fds :
  (4 <= length fds)%nat -> drop 3 fds = replicate (length fds - 3) false ->
  open_console 4 fds = Some (replicate 3 true ++ replicate (length fds - 3) false).
Proof.
  intros Hl Hd. destruct fds as [|a [|b [|c [|d fds]]]]; try (simpl in Hl; lia). simpl in Hd.
  injection Hd as -> Hd. rewrite Hd. simpl length. rewrite length_replicate. simpl.
  by destruct a, b, c.
Qed.

Lemma sh_session_witness : cmd_line [99; 100; 32; 97] /\ cmd_line [108; 115] /\
  sh_main (fun _ => true) [99; 100; 32; 97; 10; 108; 115; 10] = Some [AChdir [97]; ARun [108; 115; 10]].
Proof.
  assert (cmd_line [99; 100; 32; 97] /\ cmd_line [108; 115]) as [H1 H2]
    by (split; (split; [|split; [|split]]); (set_solver || (simpl; lia))).
  split; [exact H1|]. split; [exact H2|].
  exact (proj1 (sh_session [[99; 100; 32; 97]; [108; 115]] (Forall_cons_2 _ _ _ H1 (Forall_cons_2 _ _ _ H2 (Forall_nil_2 _))))).
Defined.
