(* ===== verification/Apic.v ===== *)
(** Interrupt controllers and the real-time clock: lapic.c and ioapic.c.

    The devices are outside the sources: what their registers read is a
    parameter, and what is written to them is recorded in order. The clock goes
    on while [cmostime] reads it, one register at a time.

    Theorems: [cmostime] returns a time the clock has shown, as long as the clock
    does not change twice while it is read ([cmostime_snapshot]), and returns
    once the clock rests ([cmostime_returns]); [ioapicinit] leaves every
    interrupt masked and [ioapicenable] lets one of them through
    ([ioapic_enables]); [lapicstartap] names the entry point ([startap_entry]). *)

From Stdlib Require Import ZArith Lia.
From stdpp Require Import base strings gmap numbers list.
From S2P Require Import Prelude.

Open Scope Z_scope.

(** ** The clock *)

Abbreviation CMOS_STATA := 10 (only parsing).
Abbreviation CMOS_STATB := 11 (only parsing).
Abbreviation CMOS_UIP := 128 (only parsing).
Abbreviation CMOS_PORT := 112 (only parsing).
Abbreviation SECS := 0 (only parsing).
Abbreviation MINS := 2 (only parsing).
Abbreviation HOURS := 4 (only parsing).
Abbreviation DAY := 7 (only parsing).
Abbreviation MONTH := 8 (only parsing).
Abbreviation YEAR := 9 (only parsing).

Record rtcdate := { second : Z; minute : Z; hour : Z; day : Z; month : Z; year : Z }.

#[export] Instance rtcdate_eq_dec : EqDecision rtcdate.
Proof. solve_decision. Defined.

Section Cmos.
(** What register [reg] reads at the [n]th access. *)
Variable rtc : nat -> Z -> Z.

(** The state is the number of accesses so far. *)
Definition cmos_read (reg : Z) : M nat Z := fun n => Ret (rtc n reg) (S n).

Definition fill_rtcdate : M nat rtcdate :=
  let* s := cmos_read SECS in
  let* mi := cmos_read MINS in
  let* h := cmos_read HOURS in
  let* d := cmos_read DAY in
  let* mo := cmos_read MONTH in
  let* y := cmos_read YEAR in
  ret {| second := s; minute := mi; hour := h; day := d; month := mo; year := y |}.

(** The loop of [cmostime]. *)
Fixpoint cmos_loop (fuel : nat) : M nat rtcdate :=
  match fuel with
  | O => out_of_fuel
  | S f =>
      let* t1 := fill_rtcdate in
      let* a := cmos_read CMOS_STATA in
      if negb (Z.land a CMOS_UIP =? 0) then cmos_loop f
      else
        let* t2 := fill_rtcdate in
        if bool_decide (t1 = t2) then ret t1 else cmos_loop f
  end.

(** [CONV]: a byte of two decimal digits. *)
Definition conv (x : Z) : Z := Z.shiftr x 4 * 10 + Z.land x 15.
Definition conv_date (t : rtcdate) : rtcdate :=
  {| second := conv (second t); minute := conv (minute t); hour := conv (hour t); day := conv (day t);
     month := conv (month t); year := conv (year t) |}.
Definition add_century (t : rtcdate) : rtcdate :=
  {| second := second t; minute := minute t; hour := hour t; day := day t; month := month t; year := year t + 2000 |}.

Definition cmostime (fuel : nat) : M nat rtcdate :=
  let* sb := cmos_read CMOS_STATB in
  let bcd := Z.land sb (Z.shiftl 1 2) =? 0 in
  let* t1 := cmos_loop fuel in
  ret (add_century (if bcd then conv_date t1 else t1)).

(** *** Theorems *)

(** The time the registers hold at the [n]th access. *)
Definition time_at (n : nat) : rtcdate :=
  {| second := rtc n SECS; minute := rtc n MINS; hour := rtc n HOURS; day := rtc n DAY; month := rtc n MONTH;
     year := rtc n YEAR |}.

(** The clock changes at most once in thirteen accesses: a round of the loop is
    that long. *)
Definition slow : Prop := forall n, exists k,
  (forall i, (n <= i < k)%nat -> (i < n + 13)%nat -> time_at i = time_at n) /\
  (forall i, (k <= i < n + 13)%nat -> time_at i = time_at (n + 12)).

Definition mixed (n : nat) : rtcdate :=
  {| second := second (time_at n); minute := minute (time_at (n + 1)); hour := hour (time_at (n + 2));
     day := day (time_at (n + 3)); month := month (time_at (n + 4)); year := year (time_at (n + 5)) |}.

Lemma fill_run n : fill_rtcdate n = Ret (mixed n) (n + 6)%nat.
Proof.
  unfold fill_rtcdate, bind, cmos_read, ret, mixed. cbn.
  replace (n + 1)%nat with (S n) by lia. replace (n + 2)%nat with (S (S n)) by lia.
  replace (n + 3)%nat with (S (S (S n))) by lia. replace (n + 4)%nat with (S (S (S (S n)))) by lia.
  replace (n + 5)%nat with (S (S (S (S (S n))))) by lia. replace (n + 6)%nat with (S (S (S (S (S (S n)))))) by lia. done.
Qed.

Lemma mixed_const n t : (forall i, (n <= i < n + 6)%nat -> time_at i = t) -> mixed n = t.
Proof.
  intros H. unfold mixed. rewrite !H by lia. by destruct t.
Qed.

(** One round: the registers, the status, and the registers again. *)
Lemma round_run f n :
  cmos_loop (S f) n =
    if negb (Z.land (rtc (n + 6) CMOS_STATA) CMOS_UIP =? 0) then cmos_loop f (n + 7)%nat
    else if bool_decide (mixed n = mixed (n + 7)) then Ret (mixed n) (n + 13)%nat else cmos_loop f (n + 13)%nat.
Proof.
  cbn [cmos_loop]. unfold bind at 1. rewrite fill_run. unfold bind at 1, cmos_read.
  replace (S (n + 6)) with (n + 7)%nat by lia. destruct (negb _); [done|].
  unfold bind. rewrite fill_run. replace (n + 7 + 6)%nat with (n + 13)%nat by lia. by destruct (bool_decide _).
Qed.

Lemma round_snapshot n : slow -> mixed n = mixed (n + 7) -> exists i, (n <= i < n + 13)%nat /\ mixed n = time_at i.
Proof.
  intros Hs He. destruct (Hs n) as (k & H1 & H2). destruct (decide (k <= n + 6)%nat) as [Hk|Hk].
  - exists (n + 12)%nat. split; [lia|]. rewrite He. apply mixed_const. intros i Hi. apply H2. lia.
  - exists n. split; [lia|]. apply mixed_const. intros i Hi. apply H1; lia.
Qed.

Lemma loop_snapshot fuel : forall n t n', slow -> cmos_loop fuel n = Ret t n' ->
  exists i, (n <= i < n')%nat /\ t = time_at i.
Proof.
  induction fuel as [|f IH]; intros n t n' Hs; [done|]. rewrite round_run. destruct (negb _).
  - intros E. destruct (IH _ _ _ Hs E) as (i & Hi & ->). exists i. split; [lia|done].
  - case_bool_decide as He.
    + intros [= <- <-]. destruct (round_snapshot n Hs He) as (i & Hi & ->). by exists i.
    + intros E. destruct (IH _ _ _ Hs E) as (i & Hi & ->). exists i. split; [lia|done].
Qed.

(** Two decimal digits. *)
Lemma conv_digits a b : 0 <= a -> 0 <= b < 16 -> conv (16 * a + b) = 10 * a + b.
Proof.
  intros Ha Hb. unfold conv. change 15 with (Z.ones 4). rewrite Z.land_ones, Z.shiftr_div_pow2 by lia.
  change (2 ^ 4) with 16. dlia.
Qed.

(** [cmostime] does not tear: when the clock changes at most once during a
    round of reading, the date returned is one that the clock showed at a single
    moment of the call, decoded from the clock's digits if it uses them. *)
Theorem cmostime_snapshot fuel n r n' :
  slow -> cmostime fuel n = Ret r n' ->
  exists i, (n <= i < n')%nat /\
    r = add_century (if Z.land (rtc n CMOS_STATB) 4 =? 0 then conv_date (time_at i) else time_at i).
Proof.
  intros Hs. unfold cmostime, bind at 1, cmos_read. change (Z.shiftl 1 2) with 4. cbv zeta. intros E.
  minv E as (t & n1 & E1 & E2). unfold ret in E2. injection E2 as <- <-.
  destruct (loop_snapshot _ _ _ _ Hs E1) as (i & Hi & ->). exists i. split; [lia|done].
Qed.

Lemma loop_returns N : (forall i, (N <= i)%nat -> time_at i = time_at N /\ Z.land (rtc i CMOS_STATA) CMOS_UIP = 0) ->
  forall fuel n, (N < n + fuel)%nat -> (0 < fuel)%nat -> exists t n', cmos_loop fuel n = Ret t n'.
Proof.
  intros Hq. induction fuel as [|f IH]; intros n Hf H0; [lia|]. rewrite round_run.
  destruct (decide (N <= n)%nat) as [Hn|Hn].
  - rewrite (proj2 (Hq (n + 6)%nat ltac:(lia))). simpl negb. cbv iota.
    rewrite bool_decide_true; [by do 2 eexists|].
    rewrite (mixed_const n (time_at N)), (mixed_const (n + 7) (time_at N)); [done|intros; apply Hq; lia..].
  - destruct (negb _); [apply IH; lia|]. case_bool_decide; [by do 2 eexists|]. apply IH; lia.
Qed.

(** [cmostime] ends once the clock rests: if from some access on the time
    stands and no update is in progress, it returns. *)
Theorem cmostime_returns N n :
  (forall i, (N <= i)%nat -> time_at i = time_at N /\ Z.land (rtc i CMOS_STATA) CMOS_UIP = 0) ->
  exists r n', cmostime (S N) n = Ret r n'.
Proof.
  intros Hq. unfold cmostime, bind at 1, cmos_read. cbv zeta.
  destruct (loop_returns N Hq (S N) (S n)) as (t & n' & E); [lia|lia|]. unfold bind. rewrite E. by do 2 eexists.
Qed.

End Cmos.

(** A clock that turns from 23:59:59 to the next day at access 4. *)
Definition aw_rtc (n : nat) (reg : Z) : Z :=
  let before := (n <? 4)%nat in
  if reg =? SECS then if before then 89 else 0
  else if reg =? MINS then if before then 89 else 0
  else if reg =? HOURS then if before then 35 else 0
  else if reg =? DAY then if before then 48 else 49
  else if reg =? MONTH then 18
  else if reg =? YEAR then 36
  else 0.

Lemma aw_slow : slow aw_rtc.
Proof.
  intros n. exists (Nat.max n 4). split; intros i Hi; unfold time_at, aw_rtc.
  - intros _. by destruct (Nat.ltb_spec i 4), (Nat.ltb_spec n 4); try lia.
  - by destruct (Nat.ltb_spec i 4), (Nat.ltb_spec (n + 12) 4); try lia.
Qed.

Lemma cmostime_snapshot_witness :
  cmostime aw_rtc 5 0%nat = Ret {| second := 0; minute := 0; hour := 0; day := 31; month := 12; year := 2024 |} 27%nat /\
  exists i, add_century (conv_date (time_at aw_rtc i)) = {| second := 0; minute := 0; hour := 0; day := 31; month := 12; year := 2024 |}.
Proof.
  assert (cmostime aw_rtc 5 0%nat = Ret {| second := 0; minute := 0; hour := 0; day := 31; month := 12; year := 2024 |} 27%nat) as E
    by (vm_compute; reflexivity).
  split; [exact E|]. destruct (cmostime_snapshot aw_rtc 5 0 _ _ aw_slow E) as (i & _ & H). exists i. symmetry. exact H.
Defined.

Lemma cmostime_returns_witness : exists r n', cmostime aw_rtc 5 0%nat = Ret r n'.
Proof.
  apply (cmostime_returns aw_rtc 4 0). intros i Hi. unfold time_at, aw_rtc.
  split; [|reflexivity]. destruct (Nat.ltb_spec i 4); [lia|reflexivity].
Defined.

(** ** The I/O APIC *)

Abbreviation REG_ID := 0 (only parsing).
Abbreviation REG_VER := 1 (only parsing).
Abbreviation REG_TABLE := 16 (only parsing).
Abbreviation INT_DISABLED := 65536 (only parsing).
Abbreviation T_IRQ0 := 32 (only parsing).

Section Ioapic.
(** What register [reg] reads after the given writes. *)
Variable ioread : list (Z * Z) -> Z -> Z.

(** The state is the list of writes, [(reg, data)]: a store to [ioapic->reg] and
    one to [ioapic->data]. *)
Definition ioapicread (reg : Z) : M (list (Z * Z)) Z := fun l => Ret (ioread l reg) l.
Definition ioapicwrite (reg data : Z) : M (list (Z * Z)) unit := modify (fun l => l ++ [(reg, u32 data)]).

(** The loop of [ioapicinit] over [n] entries from [i] on. *)
Fixpoint ioapic_mask (n : nat) (i : Z) : M (list (Z * Z)) unit :=
  match n with
  | O => ret tt
  | S n' =>
      ioapicwrite (REG_TABLE + 2 * i) (Z.lor INT_DISABLED (T_IRQ0 + i)) ;;;
      ioapicwrite (REG_TABLE + 2 * i + 1) 0 ;;;
      ioapic_mask n' (i + 1)
  end.

(** Whether it complains about the id. *)
Definition ioapicinit (ioapicid : Z) : M (list (Z * Z)) bool :=
  let* v := ioapicread REG_VER in
  let maxintr := Z.land (Z.shiftr v 16) 255 in
  let* id := ioapicread REG_ID in
  ioapic_mask (Z.to_nat (maxintr + 1)) 0 ;;;
  ret (negb (Z.shiftr id 24 =? ioapicid)).

Definition ioapicenable (irq cpunum : Z) : M (list (Z * Z)) unit :=
  ioapicwrite (REG_TABLE + 2 * irq) (T_IRQ0 + irq) ;;;
  ioapicwrite (REG_TABLE + 2 * irq + 1) (Z.shiftl cpunum 24).

(** The last value written to a register. *)
Fixpoint written (l : list (Z * Z)) (r : Z) : option Z :=
  match l with
  | [] => None
  | (r', v) :: l' => match written l' r with Some w => Some w | None => if r' =? r then Some v else None end
  end.

Lemma written_app l l' r : written (l ++ l') r = match written l' r with Some v => Some v | None => written l r end.
Proof.
  induction l as [|[r' v] l IH]; simpl; [by destruct (written l' r)|]. rewrite IH. by destruct (written l' r).
Qed.

Lemma lor_disabled x : 0 <= x < 65536 -> Z.lor INT_DISABLED x = 65536 + x.
Proof. intros Hx. change 65536 with (Z.shiftl 1 16). by apply lor_shiftl. Qed.

(** Entry [i] of the redirection table. *)
Definition entry_low (l : list (Z * Z)) (i : Z) : option Z := written l (REG_TABLE + 2 * i).
Definition entry_high (l : list (Z * Z)) (i : Z) : option Z := written l (REG_TABLE + 2 * i + 1).

Lemma ioapic_mask_ok n : forall i l, 0 <= i -> i + Z.of_nat n <= 256 ->
  exists l', ioapic_mask n i l = Ret tt l' /\ forall j,
    (i <= j < i + Z.of_nat n -> entry_low l' j = Some (65536 + (T_IRQ0 + j)) /\ entry_high l' j = Some 0) /\
    (~ i <= j < i + Z.of_nat n -> entry_low l' j = entry_low l j /\ entry_high l' j = entry_high l j).
Proof.
  induction n as [|n IH]; intros i l Hi Hn; [exists l; split; [done|]; intros j; split; [lia|done]|].
  cbn [ioapic_mask]. unfold bind at 1, ioapicwrite, modify. unfold bind at 1.
  rewrite lor_disabled, u32_small by lia.
  set (l1 := (l ++ [(REG_TABLE + 2 * i, 65536 + (T_IRQ0 + i))]) ++ [(REG_TABLE + 2 * i + 1, u32 0)]).
  destruct (IH (i + 1) l1) as (l' & E & H); [lia|lia|]. exists l'. split; [exact E|]. intros j. destruct (H j) as [H1 H2].
  assert (entry_low l1 j = (if i =? j then Some (65536 + (T_IRQ0 + i)) else entry_low l j) /\
          entry_high l1 j = (if i =? j then Some 0 else entry_high l j)) as [L1 L2].
  { unfold entry_low, entry_high, l1. rewrite !written_app. simpl.
    split; repeat match goal with |- context [?a =? ?b] => destruct (Z.eqb_spec a b) end; try lia; done. }
  split; intros Hj.
  - destruct (decide (i = j)) as [<-|Hne]; [|apply H1; lia].
    destruct H2 as [-> ->]; [lia|]. rewrite L1, L2, Z.eqb_refl. done.
  - destruct H2 as [-> ->]; [lia|]. rewrite L1, L2. destruct (Z.eqb_spec i j); [lia|done].
Qed.

(** [ioapicinit] masks every interrupt the controller has, and
    [ioapicenable] then lets just one of them through, to one processor, at its
    vector; all others stay masked. *)
Theorem ioapic_enables ioapicid irq cpu :
  let n := Z.land (Z.shiftr (ioread [] REG_VER) 16) 255 + 1 in
  0 <= irq < n -> 0 <= cpu < 256 ->
  exists b l l', ioapicinit ioapicid [] = Ret b l /\ ioapicenable irq cpu l = Ret tt l' /\
    forall i, 0 <= i < n ->
      entry_low l i = Some (INT_DISABLED + (T_IRQ0 + i)) /\
      entry_low l' i = Some (if i =? irq then T_IRQ0 + i else INT_DISABLED + (T_IRQ0 + i)) /\
      entry_high l' i = Some (if i =? irq then cpu * 16777216 else 0).
Proof.
  intros n Hirq Hcpu.
  assert (n <= 256) as Hn by (unfold n; change 255 with (Z.ones 8); rewrite Z.land_ones by lia; change (2 ^ 8) with 256; dlia).
  destruct (ioapic_mask_ok (Z.to_nat n) 0 []) as (l & E & Hl); [lia|lia|].
  do 3 eexists. split; [unfold ioapicinit, bind at 1, ioapicread; cbv zeta; unfold bind at 1; fold n; unfold bind; rewrite E; reflexivity|].
  split; [reflexivity|]. intros i Hi. destruct (Hl i) as [[L1 L2] _]; [lia|]. split; [exact L1|].
  rewrite !(u32_small (T_IRQ0 + irq)) by lia. rewrite Z.shiftl_mul_pow2, (u32_small (cpu * 2 ^ 24)) by lia.
  unfold entry_low, entry_high in *. rewrite !written_app. simpl.
  split; repeat match goal with |- context [?a =? ?b] => destruct (Z.eqb_spec a b) end; subst; try lia; done.
Qed.

End Ioapic.

Lemma ioapic_enables_witness :
  let ioread := fun (_ : list (Z * Z)) r => if r =? REG_VER then 23 * 65536 else 0 in
  exists b l l', ioapicinit ioread 0 [] = Ret b l /\ ioapicenable 1 0 l = Ret tt l' /\
    entry_low l' 1 = Some 33 /\ entry_low l' 4 = Some 65572.
Proof.
  intros ioread. destruct (ioapic_enables ioread 0 1 0) as (b & l & l' & E1 & E2 & H).
  - vm_compute. split; congruence.
  - lia.
  - exists b, l, l'. split; [exact E1|]. split; [exact E2|]. split.
    + destruct (H 1) as (_ & H1 & _); [vm_compute; split; congruence|exact H1].
    + destruct (H 4) as (_ & H4 & _); [vm_compute; split; congruence|exact H4].
Defined.

(** ** The local APIC *)

(** Register numbers, and the values of lapic.c. *)
Abbreviation LID := 8 (only parsing).
Abbreviation LVER := 12 (only parsing).
Abbreviation LTPR := 32 (only parsing).
Abbreviation LEOI := 44 (only parsing).
Abbreviation LSVR := 60 (only parsing).
Abbreviation LESR := 160 (only parsing).
Abbreviation ICRLO := 192 (only parsing).
Abbreviation ICRHI := 196 (only parsing).
Abbreviation LTIMER := 200 (only parsing).
Abbreviation LPCINT := 208 (only parsing).
Abbreviation LINT0 := 212 (only parsing).
Abbreviation LINT1 := 216 (only parsing).
Abbreviation LERROR := 220 (only parsing).
Abbreviation LTICR := 224 (only parsing).
Abbreviation LTDCR := 248 (only parsing).
Abbreviation LENABLE := 256 (only parsing).
Abbreviation LX1 := 11 (only parsing).
Abbreviation LPERIODIC := 131072 (only parsing).
Abbreviation LMASKED := 65536 (only parsing).
Abbreviation LINIT := 1280 (only parsing).
Abbreviation LSTARTUP := 1536 (only parsing).
Abbreviation LDELIVS := 4096 (only parsing).
Abbreviation LASSERT := 16384 (only parsing).
Abbreviation LLEVEL := 32768 (only parsing).
Abbreviation LBCAST := 524288 (only parsing).

Section Lapic.
(** What a register reads after the given accesses. *)
Variable lread : list (option Z * Z) -> Z -> Z.
(** [lapic], the address of the registers. *)
Variable lapic : Z.

(** The accesses in order ([(Some v, r)] writes [v] to [r], [(None, r)] reads it),
    the bytes written to I/O ports, and the memory. *)
Record lap := { lacc : list (option Z * Z); lports : list (Z * Z); lmem : mem }.

Definition lw (index value : Z) : M lap unit :=
  modify (fun s => {| lacc := lacc s ++ [(Some (u32 value), index)]; lports := lports s; lmem := lmem s |}).
Definition lr (index : Z) : M lap Z :=
  fun s => Ret (lread (lacc s) index) {| lacc := lacc s ++ [(None, index)]; lports := lports s; lmem := lmem s |}.
Definition loutb (p v : Z) : M lap unit :=
  modify (fun s => {| lacc := lacc s; lports := lports s ++ [(p, u8 v)]; lmem := lmem s |}).
(** A store to a [ushort]. *)
Definition wr16 (a v : Z) : M lap unit :=
  modify (fun s => {| lacc := lacc s; lports := lports s; lmem := wr8 (wr8 (lmem s) a (byte_of v 0)) (a + 1) (byte_of v 1) |}).

Definition lapicw (index value : Z) : M lap unit :=
  lw index value ;;;
  let* v := lr LID in
  ret tt.

(** [while(lapic[ICRLO] & DELIVS)]. *)
Fixpoint wait_delivery (fuel : nat) : M lap unit :=
  let* v := lr ICRLO in
  if negb (Z.land v LDELIVS =? 0) then match fuel with O => out_of_fuel | S f => wait_delivery f end else ret tt.

Definition lapicinit (fuel : nat) : M lap unit :=
  if lapic =? 0 then ret tt
  else
    lapicw LSVR (Z.lor LENABLE (T_IRQ0 + 31)) ;;;
    lapicw LTDCR LX1 ;;;
    lapicw LTIMER (Z.lor LPERIODIC (T_IRQ0 + 0)) ;;;
    lapicw LTICR 10000000 ;;;
    lapicw LINT0 LMASKED ;;;
    lapicw LINT1 LMASKED ;;;
    (let* v := lr LVER in
     when (4 <=? Z.land (Z.shiftr v 16) 255) (lapicw LPCINT LMASKED)) ;;;
    lapicw LERROR (T_IRQ0 + 19) ;;;
    lapicw LESR 0 ;;;
    lapicw LESR 0 ;;;
    lapicw LEOI 0 ;;;
    lapicw ICRHI 0 ;;;
    lapicw ICRLO (Z.lor (Z.lor LBCAST LINIT) LLEVEL) ;;;
    wait_delivery fuel ;;;
    lapicw LTPR 0.

Definition lapicid : M lap Z :=
  if lapic =? 0 then ret 0 else let* v := lr LID in ret (Z.shiftr v 24).

Definition lapiceoi : M lap unit :=
  if lapic =? 0 then ret tt else lapicw LEOI 0.

(** The loop that sends the start-up message twice. *)
Fixpoint send_startup (n : nat) (apicid addr : Z) : M lap unit :=
  match n with
  | O => ret tt
  | S n' =>
      lapicw ICRHI (Z.shiftl apicid 24) ;;;
      lapicw ICRLO (Z.lor LSTARTUP (Z.shiftr addr 12)) ;;;
      send_startup n' apicid addr
  end.

Definition lapicstartap (apicid addr : Z) : M lap unit :=
  loutb CMOS_PORT 15 ;;;
  loutb (CMOS_PORT + 1) 10 ;;;
  let wrv := P2V (Z.lor (Z.shiftl 64 4) 103) in
  wr16 wrv 0 ;;;
  wr16 (wrv + 2) (Z.shiftr addr 4) ;;;
  lapicw ICRHI (Z.shiftl apicid 24) ;;;
  lapicw ICRLO (Z.lor (Z.lor LINIT LLEVEL) LASSERT) ;;;
  lapicw ICRLO (Z.lor LINIT LLEVEL) ;;;
  send_startup 2 apicid addr.

(** The writes of a list of accesses. *)
Definition lwrites (l : list (option Z * Z)) : list (Z * Z) :=
  omap (fun x => match x.1 with Some v => Some (x.2, v) | None => None end) l.

(** The interrupt commands in a list of accesses: each write to ICRLO sends one
    to the processor in the upper byte of ICRHI. *)
Fixpoint commands (dest : Z) (l : list (Z * Z)) : list (Z * Z) :=
  match l with
  | [] => []
  | (r, v) :: l' =>
      if r =? ICRHI then commands (v / 16777216) l'
      else if r =? ICRLO then (dest, v) :: commands dest l'
      else commands dest l'
  end.

Lemma loutb_run p v s : loutb p v s = Ret tt {| lacc := lacc s; lports := lports s ++ [(p, u8 v)]; lmem := lmem s |}.
Proof. done. Qed.
Lemma wr16_run a v s :
  wr16 a v s = Ret tt {| lacc := lacc s; lports := lports s; lmem := wr8 (wr8 (lmem s) a (byte_of v 0)) (a + 1) (byte_of v 1) |}.
Proof. done. Qed.
Lemma lapicw_run i v s :
  lapicw i v s = Ret tt {| lacc := (lacc s ++ [(Some (u32 v), i)]) ++ [(None, LID)]; lports := lports s; lmem := lmem s |}.
Proof. done. Qed.

(** A write to ICRHI names the processor for all that follows. *)
Lemma commands_at d l x l' : commands d (l ++ (ICRHI, x) :: l') = commands d l ++ commands (x / 16777216) l'.
Proof.
  revert d. induction l as [|[r v] l IH]; intros d; cbn; [done|].
  destruct (r =? ICRHI); [apply IH|]. destruct (r =? ICRLO); cbn; by rewrite IH.
Qed.

(** The two stores of [lapicstartap] to memory: the warm reset vector. *)
Definition warm_reset (addr : Z) (m : mem) : mem :=
  let w := P2V 1127 in
  wr8 (wr8 (wr8 (wr8 m w (byte_of 0 0)) (w + 1) (byte_of 0 1)) (w + 2) (byte_of (Z.shiftr addr 4) 0)) (w + 2 + 1) (byte_of (Z.shiftr addr 4) 1).

(** The commands by which the standard starts processor [apicid] on page [v]. *)
Definition start_commands (apicid v : Z) : list (Z * Z) :=
  [(apicid, LINIT + LLEVEL + LASSERT); (apicid, LINIT + LLEVEL); (apicid, LSTARTUP + v); (apicid, LSTARTUP + v)].

Lemma startap_run apicid addr l0 p0 m :
  0 <= apicid < 256 -> 0 <= addr < 1048576 ->
  exists s, lapicstartap apicid addr {| lacc := l0; lports := p0; lmem := m |} = Ret tt s /\
    commands 0 (lwrites (lacc s)) = commands 0 (lwrites l0) ++ start_commands apicid (addr / 4096) /\
    lports s = p0 ++ [(112, 15); (113, 10)] /\ lmem s = warm_reset addr m.
Proof.
  intros Ha Hd. eexists. split.
  { unfold lapicstartap. cbn [send_startup]. cbv zeta.
    repeat (first [rewrite (bind_ret _ _ _ _ _ (loutb_run _ _ _)) | rewrite (bind_ret _ _ _ _ _ (wr16_run _ _ _))
                  |rewrite (bind_ret _ _ _ _ _ (lapicw_run _ _ _))]; cbn [lacc lports lmem]).
    reflexivity. }
  cbn [lacc lports lmem]. split; [|split; [by rewrite <- app_assoc|reflexivity]].
  rewrite <- !app_assoc. unfold lwrites. rewrite omap_app. cbn -[Z.lor Z.shiftl Z.shiftr Z.div Z.mul u32 commands].
  rewrite commands_at. f_equal. cbn -[Z.lor Z.shiftl Z.shiftr Z.div Z.mul u32].
  rewrite !Z.shiftl_mul_pow2 by lia. change (2 ^ 24) with 16777216. rewrite !(u32_small (apicid * 16777216)) by lia.
  rewrite !Z.div_mul by lia. rewrite !Z.shiftr_div_pow2 by lia. change (2 ^ 12) with 4096.
  assert (Z.lor LSTARTUP (addr / 4096) = 1536 + addr / 4096) as E.
  { change 1536 with (Z.shiftl 6 8). apply lor_shiftl; [lia|]. change (2 ^ 8) with 256. dlia. }
  rewrite !E, !(u32_small (1536 + addr / 4096)) by dlia. reflexivity.
Qed.

(** [lapicstartap] sends the processor INIT, asserted and de-asserted, and
    twice the start-up message whose vector names the page of [addr]; the warm
    reset vector, as a real-mode address, is [addr] too. *)
Theorem startap_entry apicid addr l0 m :
  0 <= apicid < 256 -> 0 <= addr < 1048576 -> addr mod 4096 = 0 ->
  exists s, lapicstartap apicid addr {| lacc := l0; lports := []; lmem := m |} = Ret tt s /\
    commands 0 (lwrites (lacc s)) = commands 0 (lwrites l0) ++ start_commands apicid (addr / 4096) /\
    lports s = [(112, 15); (113, 10)] /\
    let wrv := P2V 1127 in let m' := lmem s in
    rd8 m' wrv + 256 * rd8 m' (wrv + 1) + 16 * (rd8 m' (wrv + 2) + 256 * rd8 m' (wrv + 3)) = addr.
Proof.
  intros Ha Hd Hp. destruct (startap_run apicid addr l0 [] m Ha Hd) as (s & E & Hc & Hports & Hm).
  exists s. split; [exact E|]. split; [exact Hc|]. split; [exact Hports|].
  cbv zeta. rewrite Hm. unfold warm_reset.
  set (wrv := P2V 1127). rewrite Z.shiftr_div_pow2 by lia. change (2 ^ 4) with 16.
  rewrite !rd8_wr8. range_cases; try lia. rewrite !(u8_small (byte_of _ _)) by apply byte_of_range.
  unfold byte_of. change (256 ^ 0) with 1. change (256 ^ 1) with 256. dlia.
Qed.

End Lapic.

Lemma startap_entry_witness : exists s, lapicstartap (fun _ _ => 0) 3 28672 {| lacc := []; lports := []; lmem := ∅ |} = Ret tt s /\
  commands 0 (lwrites (lacc s)) = [(3, 50432); (3, 34048); (3, 1543); (3, 1543)].
Proof.
  destruct (startap_entry (fun _ _ => 0) 3 28672 [] ∅) as (l & E & H & _); [lia|lia|reflexivity|].
  exists l. split; [exact E|exact H].
Defined.
