(* ===== verification/Threads.v ===== *)
(** Programs with threads: the shared counter of xv6-public/thread.c, and what
    the semaphores of Sem.v promise to their clients.

    A thread's next step is a function of the shared state; a step is one
    access to memory the threads share, and a program is the step relation in
    which any thread moves. Invariants count threads: [sumf f ts] adds up what
    each thread contributes.

    Theorems: an operation on a semaphore is one step of a counter that a wait
    never takes below zero ([sem_refines]); the increments of [do_work] under
    its two locks are all counted, and without deadlock ([counter_exact]). *)

From Stdlib Require Import ZArith Lia.
From stdpp Require Import base strings gmap numbers list relations.
From S2P Require Import Prelude Sem.

Open Scope Z_scope.

(** ** Sums over the threads *)

Fixpoint sumf {A} (f : A -> Z) (l : list A) : Z :=
  match l with [] => 0 | x :: l' => f x + sumf f l' end.

(** ** The contract of a semaphore *)

Inductive sem_op := OpWait | OpPost.

(** The counter a client sees. *)
Definition sem_spec (op : sem_op) (n : Z) : option Z :=
  match op with
  | OpWait => if 0 <? n then Some (n - 1) else None
  | OpPost => Some (n + 1)
  end.

(** ** thread.c *)

Inductive cpc :=
  | CLoop          (** [for (i = 0; i < b->amount; i++)]: the test *)
  | CSpin          (** [thread_spin_lock(&lock)] *)
  | CMutex         (** [thread_mutex_lock(&ml)] *)
  | CLoad          (** [old = total_balance] *)
  | CStore (old : Z)   (** [total_balance = old + 1] *)
  | CMUnlock       (** [thread_mutex_unlock(&ml)] *)
  | CSUnlock       (** [thread_spin_unlock(&lock)] *)
  | CDone.         (** [thread_exit()] *)

Record worker := { w_amount : Z; w_i : Z; w_pc : cpc }.

Record bank := {
  b_spin : Z;          (** the word of [lock] *)
  b_mutex : Z;         (** the word of [ml] *)
  total_balance : Z;
  b_threads : list worker;
}.

Definition wgo (i : Z) (p : cpc) (w : worker) : worker := {| w_amount := w_amount w; w_i := i; w_pc := p |}.

(** What thread [t], being [w], does next, with the shared words it leaves:
    the spin lock, the mutex, the balance. [None]: it has finished, or its
    [xchg] finds the lock taken, which changes nothing. *)
Definition work_next (w : worker) (s : bank) : option (Z * Z * Z * worker) :=
  let go := wgo (w_i w) in
  match w_pc w with
  | CLoop => Some (b_spin s, b_mutex s, total_balance s, go (if w_i w <? w_amount w then CSpin else CDone) w)
  | CSpin => if b_spin s =? 0 then Some (1, b_mutex s, total_balance s, go CMutex w) else None
  | CMutex => if b_mutex s =? 0 then Some (b_spin s, 1, total_balance s, go CLoad w) else None
  | CLoad => Some (b_spin s, b_mutex s, total_balance s, go (CStore (total_balance s)) w)
  | CStore old => Some (b_spin s, b_mutex s, i32 (old + 1), go CMUnlock w)
  | CMUnlock => Some (b_spin s, 0, total_balance s, go CSUnlock w)
  | CSUnlock => Some (0, b_mutex s, total_balance s, wgo (i32 (w_i w + 1)) CLoop w)
  | CDone => None
  end.

Definition do_work_next (t : nat) (s : bank) : option bank :=
  match b_threads s !! t with
  | None => None
  | Some w =>
      match work_next w s with
      | None => None
      | Some (sp, mu, tot, w') =>
          Some {| b_spin := sp; b_mutex := mu; total_balance := tot; b_threads := <[t := w']> (b_threads s) |}
      end
  end.

Definition bank_step (s s' : bank) : Prop := exists t, do_work_next t s = Some s'.

(** [main] has created the threads. *)
Definition bank_init (amounts : list Z) : bank :=
  {| b_spin := 0; b_mutex := 0; total_balance := 0;
     b_threads := (fun a => {| w_amount := a; w_i := 0; w_pc := CLoop |}) <$> amounts |}.

(** ** Lemmas on sums *)

Section Sums.
Context {A : Type} (f : A -> Z).

Lemma sumf_insert l i x y : l !! i = Some x -> sumf f (<[i := y]> l) = sumf f l - f x + f y.
Proof.
  revert i. induction l as [|z l IH]; intros [|i] H; simplify_eq/=; [lia|].
  rewrite (IH _ H). lia.
Qed.

Lemma sumf_pos l : (forall i x, l !! i = Some x -> 0 <= f x) -> 0 <= sumf f l.
Proof.
  induction l as [|x l IH]; intros H; cbn; [lia|]. pose proof (H O x eq_refl).
  assert (0 <= sumf f l); [|lia]. apply IH. intros i y Hi. by apply (H (S i)).
Qed.

Lemma sumf_ge l i x : (forall i x, l !! i = Some x -> 0 <= f x) -> l !! i = Some x -> f x <= sumf f l.
Proof.
  revert i. induction l as [|z l IH]; intros [|i] H Hi; simplify_eq/=.
  - pose proof (sumf_pos l (fun j => H (S j))). lia.
  - pose proof (IH i (fun j => H (S j)) Hi). pose proof (H O z eq_refl). lia.
Qed.

Lemma sumf_two l i j x y :
  (forall i x, l !! i = Some x -> 0 <= f x) ->
  l !! i = Some x -> l !! j = Some y -> i <> j -> f x + f y <= sumf f l.
Proof.
  revert i j. induction l as [|z l IH]; intros [|i] [|j] H Hi Hj Hne; simplify_eq/=.
  - pose proof (sumf_ge l j y (fun k => H (S k)) Hj). lia.
  - pose proof (sumf_ge l i x (fun k => H (S k)) Hi). lia.
  - pose proof (IH i j (fun k => H (S k)) Hi Hj ltac:(congruence)). pose proof (H O z eq_refl). lia.
Qed.

Lemma sumf_in l : sumf f l <> 0 -> exists i x, l !! i = Some x /\ f x <> 0.
Proof.
  induction l as [|z l IH]; [done|]. intros H. destruct (decide (f z = 0)) as [E|E].
  - destruct IH as (i & x & Hi & Hx); [cbn in H; lia|]. by exists (S i), x.
  - by exists O, z.
Qed.
End Sums.

Lemma sumf_const {A} (f : A -> Z) c l : (forall i x, l !! i = Some x -> f x = c) -> sumf f l = c * Z.of_nat (length l).
Proof.
  induction l as [|x l IH]; intros H; cbn; [lia|]. rewrite IH, (H O x); [lia|done|].
  intros i y Hi. by apply (H (S i)).
Qed.

Lemma sumf_le {A} (f g : A -> Z) l : (forall i x, l !! i = Some x -> f x <= g x) -> sumf f l <= sumf g l.
Proof.
  induction l as [|x l IH]; intros H; cbn; [lia|]. pose proof (H O x eq_refl).
  assert (sumf f l <= sumf g l); [|lia]. apply IH. intros i y Hi. by apply (H (S i)).
Qed.

Lemma sumf_sub {A} (f g : A -> Z) l : sumf (fun x => f x - g x) l = sumf f l - sumf g l.
Proof. induction l as [|x l IH]; cbn; lia. Qed.

Lemma sumf_mul {A} (f : A -> Z) c l : sumf (fun x => f x * c) l = sumf f l * c.
Proof. induction l as [|x l IH]; cbn; lia. Qed.

Lemma insert_Some_inv {A} (l : list A) i y j z :
  <[i := y]> l !! j = Some z -> (j = i /\ z = y) \/ (j <> i /\ l !! j = Some z).
Proof.
  intros H. destruct (decide (i = j)) as [<-|Hne].
  - left. split; [done|]. rewrite list_lookup_insert_eq in H by
      (apply lookup_lt_Some in H; by rewrite length_insert in H). congruence.
  - right. by rewrite list_lookup_insert_ne in H by done.
Qed.

(** A step relation under which a measure goes down has runs no longer than
    the measure. *)
Lemma nsteps_bound {A} (R : A -> A -> Prop) (Inv : A -> Prop) (m : A -> Z) n s s' :
  (forall s s', Inv s -> R s s' -> Inv s' /\ m s' < m s /\ 0 <= m s') ->
  Inv s -> 0 <= m s -> nsteps R n s s' -> Inv s' /\ Z.of_nat n <= m s.
Proof.
  intros Hst Hi H0 Hn. revert Hi H0. induction Hn as [s|n s t s' HR _ IH]; intros Hi H0; [split; [done|lia]|].
  destruct (Hst _ _ Hi HR) as (Hi' & Hlt & Hge). destruct (IH Hi' Hge). split; [done|lia].
Qed.

(** ** The contract holds *)

(** A client may take [sem_wait] and [sem_post] for atomic operations on
    a counter: of the steps inside them, whatever the interleaving, each
    either leaves the count alone, or is the one decrement of a wait, which
    the specification allows (the count was positive), or the one increment
    of a post. *)
Theorem sem_refines c0 n s s' :
  0 <= c0 -> sem_reach c0 n s -> sem_step s s' -> c0 + posts s' < 2147483648 ->
  (count s' = count s /\ waits s' = waits s /\ posts s' = posts s) \/
  (sem_spec OpWait (count s) = Some (count s') /\ waits s' = waits s + 1 /\ posts s' = posts s) \/
  (sem_spec OpPost (count s) = Some (count s') /\ waits s' = waits s /\ posts s' = posts s + 1).
Proof.
  intros H0 Hr Hst Hb. pose proof (posts_mono _ _ Hst).
  destruct (sem_reach_ok c0 n s H0 Hr ltac:(lia)) as [_ _ _ (Hc & ? & ? & ?) Hk _].
  assert (Hx : forall i q s, count (mutex_xchg i q s) = count s /\ waits (mutex_xchg i q s) = waits s /\
                             posts (mutex_xchg i q s) = posts s).
  { intros i q t. unfold mutex_xchg. by destruct (_ =? _). }
  assert (Ha : forall i q s s', ptable_acquire i q s = Some s' -> count s' = count s /\ waits s' = waits s /\ posts s' = posts s).
  { intros i q t t' E. unfold ptable_acquire in E. destruct (ptlock t); by simplify_eq. }
  destruct Hst as [s i Hi|s i Hi|s i pc s' Hi E|s i pc s' Hi E|s i pc s' Hi E|s i Hi Hpt]; try (by left);
    pose proof (Hk i pc Hi) as Hkn; destruct pc; cbn in E; simplify_eq; cbn in Hkn;
    try (left; by apply Hx); try (left; by eapply Ha); try (by left).
  - right; left. destruct Hkn as [-> Hpos]. cbn. rewrite i32_dec by lia.
    destruct (Z.ltb_spec 0 (count s)); [|lia]. split_and!; [done|lia|lia].
  - right; right. subst v. cbn in Hb |- *. rewrite i32_inc by lia. split_and!; [done|lia|lia].
Qed.

(** ** The counter *)

Definition spin_held (w : worker) : Z :=
  match w_pc w with CMutex | CLoad | CStore _ | CMUnlock | CSUnlock => 1 | _ => 0 end.
Definition mutex_held (w : worker) : Z :=
  match w_pc w with CLoad | CStore _ | CMUnlock => 1 | _ => 0 end.
(** The increments [w] has stored. *)
Definition incs (w : worker) : Z := w_i w + match w_pc w with CMUnlock | CSUnlock => 1 | _ => 0 end.
Definition work_left (w : worker) : Z :=
  8 * (w_amount w - w_i w) +
  match w_pc w with
  | CLoop => 7 | CSpin => 6 | CMutex => 5 | CLoad => 4 | CStore _ => 3 | CMUnlock => 2 | CSUnlock => 1 | CDone => 0
  end.

Definition worker_ok (tot : Z) (w : worker) : Prop :=
  0 <= w_i w <= w_amount w /\
  match w_pc w with
  | CLoop => True
  | CDone => w_i w = w_amount w
  | CStore old => w_i w < w_amount w /\ old = tot
  | _ => w_i w < w_amount w
  end.

Record bank_ok (A : Z) (n : nat) (s : bank) : Prop := {
  bk_len : length (b_threads s) = n;
  bk_amounts : sumf w_amount (b_threads s) = A;
  bk_spin : b_spin s = sumf spin_held (b_threads s) /\ (b_spin s = 0 \/ b_spin s = 1);
  bk_mutex : b_mutex s = sumf mutex_held (b_threads s);
  bk_total : total_balance s = sumf incs (b_threads s);
  bk_workers : forall t w, b_threads s !! t = Some w -> worker_ok (total_balance s) w;
}.

Lemma spin_held_pos w : 0 <= spin_held w.
Proof. unfold spin_held. destruct (w_pc w); lia. Qed.
Lemma mutex_held_spin w : 0 <= mutex_held w <= spin_held w.
Proof. unfold mutex_held, spin_held. destruct (w_pc w); lia. Qed.

(** A worker outside the locks does not care about the balance. *)
Lemma worker_ok_other tot tot' w : mutex_held w = 0 -> worker_ok tot w -> worker_ok tot' w.
Proof. destruct w as [a i []]; cbn; unfold worker_ok; cbn; try done. Qed.

Lemma incs_le tot w : worker_ok tot w -> 0 <= incs w <= w_amount w.
Proof. destruct w as [a i []]; unfold worker_ok, incs; cbn; lia. Qed.

(** A single worker's move keeps the invariant if it keeps the accounts. *)
Lemma bank_ok_move A n s t w w' sp mu tot :
  bank_ok A n s -> b_threads s !! t = Some w ->
  w_amount w' = w_amount w ->
  sp = b_spin s - spin_held w + spin_held w' -> (sp = 0 \/ sp = 1) ->
  mu = b_mutex s - mutex_held w + mutex_held w' ->
  tot = total_balance s - incs w + incs w' ->
  (tot = total_balance s \/ mutex_held w = 1) -> worker_ok tot w' ->
  bank_ok A n {| b_spin := sp; b_mutex := mu; total_balance := tot; b_threads := <[t := w']> (b_threads s) |}.
Proof.
  intros [Hl Ha [Hs Hs1] Hm Ht Hw] Ht0 Ea Es Es1 Em Et Hk Hw'.
  split; cbn; rewrite ?length_insert, ?(sumf_insert _ _ _ _ _ Ht0); try lia.
  intros t2 w2 H2. destruct (insert_Some_inv _ _ _ _ _ H2) as [[-> ->]|[Hne H2']]; [done|].
  destruct Hk as [->|Hk]; [by eapply Hw|]. eapply worker_ok_other; [|by eapply Hw].
  pose proof (sumf_two mutex_held _ _ _ _ _ (fun _ w _ => proj1 (mutex_held_spin w)) H2' Ht0 Hne).
  pose proof (mutex_held_spin w2). assert (sumf mutex_held (b_threads s) <= sumf spin_held (b_threads s));
    [apply sumf_le; intros; apply mutex_held_spin|]. lia.
Qed.

Lemma bank_ok_step A n s s' :
  A < 2147483648 -> bank_ok A n s -> bank_step s s' ->
  bank_ok A n s' /\ sumf work_left (b_threads s') < sumf work_left (b_threads s).
Proof.
  intros HA Hok [t E]. unfold do_work_next in E. destruct (b_threads s !! t) as [w|] eqn:Ht; [|done].
  destruct (work_next w s) as [[[[sp mu] tot] w']|] eqn:En; simplify_eq.
  pose proof Hok as [_ Ha [Hs Hs1] Hm Htot Hw]. pose proof (Hw _ _ Ht) as Hwt.
  assert (HwA : w_amount w <= A).
  { rewrite <- Ha. apply (sumf_ge w_amount _ _ _) in Ht; [done|]. intros i x Hi. destruct (Hw _ _ Hi). lia. }
  assert (Hinc : 0 <= sumf incs (b_threads s) /\ sumf incs (b_threads s) + (w_amount w - incs w) <= A).
  { rewrite <- Ha. pose proof (sumf_insert incs _ _ _ (wgo (w_amount w) CLoop w) Ht) as E1.
    assert (incs (wgo (w_amount w) CLoop w) = w_amount w) as E2 by (unfold incs; cbn; lia).
    assert (sumf incs (<[t:=wgo (w_amount w) CLoop w]> (b_threads s)) <= sumf w_amount (<[t:=wgo (w_amount w) CLoop w]> (b_threads s))).
    { apply sumf_le. intros i x Hi. destruct (insert_Some_inv _ _ _ _ _ Hi) as [[-> ->]|[_ Hi']]; [unfold incs; cbn; lia|].
      eapply incs_le, Hw, Hi'. }
    rewrite (sumf_insert w_amount _ _ _ _ Ht) in H. cbn in H. split; [|lia].
    apply sumf_pos. intros i x Hi. eapply incs_le, Hw, Hi. }
  pose proof (sumf_ge _ _ _ _ (fun _ w _ => spin_held_pos w) Ht) as Hsg.
  pose proof (sumf_ge _ _ _ _ (fun _ w _ => proj1 (mutex_held_spin w)) Ht) as Hmg.
  assert (Hms : sumf mutex_held (b_threads s) <= sumf spin_held (b_threads s)) by (apply sumf_le; intros; apply mutex_held_spin).
  rewrite <- Hs in Hsg, Hms. rewrite <- Hm in Hmg, Hms.
  unfold work_next in En. destruct w as [a i []]; cbn in En; unfold worker_ok, spin_held, mutex_held in *; cbn in Hwt, HwA, Hinc, Hsg, Hmg;
    repeat case_match; simplify_eq; unfold wgo, incs in *; cbn in *;
    (split; [eapply bank_ok_move; [exact Hok|exact Ht|..]; unfold worker_ok, spin_held, mutex_held, incs in *; cbn;
              rewrite ?(i32_small (i + 1)) by lia; try match goal with |- context [i32 (?o + 1)] => rewrite (i32_small (o + 1)) by lia end; lia
            |rewrite (sumf_insert _ _ _ _ _ Ht); unfold work_left; cbn; rewrite ?(i32_small (i + 1)) by lia; lia]).
Qed.

Lemma bank_ok_init amounts :
  Forall (Z.le 0) amounts -> bank_ok (sumf id amounts) (length amounts) (bank_init amounts).
Proof.
  intros Hp.
  assert (Hl : forall t w, b_threads (bank_init amounts) !! t = Some w ->
            exists a, w = {| w_amount := a; w_i := 0; w_pc := CLoop |} /\ 0 <= a).
  { intros t w Ht. apply list_lookup_fmap_Some in Ht as (a & -> & Ha). exists a. split; [done|]. by eapply Forall_lookup_1. }
  assert (H0 : forall f, (forall a, f {| w_amount := a; w_i := 0; w_pc := CLoop |} = 0) ->
                 sumf f (b_threads (bank_init amounts)) = 0).
  { intros f Hf. rewrite (sumf_const f 0); [lia|]. intros t w Ht. by destruct (Hl _ _ Ht) as (a & -> & _). }
  split; rewrite ?H0 by done; cbn; try done; [apply length_fmap| |split; [done|by left]|].
  - clear. induction amounts as [|a l IH]; cbn; [done|]. cbn in IH. by rewrite IH.
  - intros t w Ht. destruct (Hl _ _ Ht) as (a & -> & Ha). split; cbn; [lia|done].
Qed.

(** A bank in which no thread can move is done. *)
Lemma bank_stuck A n s :
  bank_ok A n s -> (forall s', ~ bank_step s s') ->
  forall t w, b_threads s !! t = Some w -> w_pc w = CDone.
Proof.
  intros [_ _ [Hs Hs1] Hm _ Hw] Hst.
  assert (Hn : forall t w, b_threads s !! t = Some w -> work_next w s = None).
  { intros t w Ht. destruct (work_next w s) as [[[[sp mu] tot] w']|] eqn:En; [|done].
    destruct (Hst {| b_spin := sp; b_mutex := mu; total_balance := tot; b_threads := <[t := w']> (b_threads s) |}).
    exists t. unfold do_work_next. by rewrite Ht, En. }
  assert (Hm0 : b_mutex s = 0).
  { rewrite Hm. rewrite (sumf_const mutex_held 0); [lia|]. intros t w Ht. pose proof (Hn t w Ht) as E.
    unfold mutex_held, work_next in *. by destruct (w_pc w). }
  assert (Hs0 : b_spin s = 0).
  { rewrite Hs. rewrite (sumf_const spin_held 0); [lia|]. intros t w Ht. pose proof (Hn t w Ht) as E.
    unfold spin_held, work_next in *. rewrite Hm0 in E. by destruct (w_pc w). }
  intros t w Ht. pose proof (Hn t w Ht) as E. unfold work_next in E. rewrite Hm0, Hs0 in E. by destruct (w_pc w).
Qed.

(** Whatever the interleaving of the threads of thread.c, the program
    comes to an end, never in a deadlock on its two locks, and then
    [total_balance] is the sum of the threads' amounts: no increment is lost
    although each is a load and a store. *)
Theorem counter_exact amounts n s :
  Forall (Z.le 0) amounts -> sumf id amounts < 2147483648 ->
  nsteps bank_step n (bank_init amounts) s ->
  Z.of_nat n <= 8 * sumf id amounts + 7 * Z.of_nat (length amounts) /\
  ((forall s', ~ bank_step s s') ->
   (forall t w, b_threads s !! t = Some w -> w_pc w = CDone) /\ total_balance s = sumf id amounts).
Proof.
  intros Hp HA Hn.
  assert (Hleft : forall s, bank_ok (sumf id amounts) (length amounts) s -> 0 <= sumf work_left (b_threads s)).
  { intros s0 [_ _ _ _ _ Hw]. apply sumf_pos. intros t w Ht. destruct (Hw _ _ Ht). unfold work_left. destruct (w_pc w); lia. }
  pose proof (bank_ok_init _ Hp) as Hi.
  destruct (nsteps_bound bank_step (bank_ok (sumf id amounts) (length amounts)) (fun s => sumf work_left (b_threads s)) n (bank_init amounts) s) as [Hok Hle]; auto.
  { intros s1 s2 H1 H2. destruct (bank_ok_step _ _ _ _ HA H1 H2). auto. }
  split.
  - etransitivity; [exact Hle|]. clear. induction amounts as [|a l IH]; cbn in *; [lia|]. unfold work_left at 1. cbn. lia.
  - intros Hst. pose proof (bank_stuck _ _ _ Hok Hst) as Hd. split; [exact Hd|].
    destruct Hok as [_ <- _ _ -> Hw].
    apply Z.le_antisymm; apply sumf_le; intros t w Ht; pose proof (Hd _ _ Ht) as E;
      destruct (Hw _ _ Ht) as [? Hw']; rewrite E in Hw'; unfold incs; rewrite E; lia.
Qed.

Lemma sem_refines_witness :
  sem_spec OpPost 2 = Some 3 /\
  let s := sem_init 2 1 in let s' := goto 0 PLock s in
  sem_step s s' /\ count s' = count s.
Proof.
  split; [done|]. cbn zeta.
  assert (H : sem_step (sem_init 2 1) (goto 0 PLock (sem_init 2 1))) by (by apply step_post).
  split; [exact H|].
  destruct (sem_refines 2 1 (sem_init 2 1) _ ltac:(lia) (sem_reach_init 2 1) H ltac:(cbn; lia)) as [(E & _)|[(_ & E & _)|(_ & _ & E)]];
    [exact E|cbn in E; lia|cbn in E; lia].
Defined.

(** The first thread alone, for one increment. *)
Fixpoint bank_run (t : nat) (n : nat) (s : bank) : bank :=
  match n with O => s | S n' => match do_work_next t s with Some s' => bank_run t n' s' | None => s end end.

Lemma counter_exact_witness : exists s, nsteps bank_step 9 (bank_init [1; 0]) s /\ total_balance s = 1.
Proof.
  set (s := bank_run 1 1 (bank_run 0 8 (bank_init [1; 0]))).
  assert (H : nsteps bank_step 9 (bank_init [1; 0]) s).
  { do 8 (eapply nsteps_l; [exists 0%nat; reflexivity|]). eapply nsteps_l; [exists 1%nat; reflexivity|apply nsteps_O]. }
  exists s. split; [exact H|].
  destruct (counter_exact [1; 0] 9 s ltac:(repeat constructor; lia) ltac:(cbn; lia) H) as [_ Hf].
  apply Hf. intros s' [t E]. destruct t as [|[|t]]; cbn in E; discriminate E.
Defined.
