(* ===== verification/ProdCons.v ===== *)
(** The producers and consumers of xv6-public/extracredit_semaphore.c, over the
    counter that a semaphore is to its clients (Threads.v).

    Any number of threads run [prod_work] or [cons_work]; the program starts
    one of each. A step is one access to shared memory, one operation on a
    semaphore, or one line printed, which happens with [mLock] held.

    Theorems: the lines printed are those of a stack, so nothing is lost,
    duplicated or invented and the buffer neither overflows nor underflows
    ([prodcons_stack]); with as many producers as consumers the program never
    deadlocks and ends with every value consumed ([prodcons_completes]). *)

From Stdlib Require Import ZArith Lia.
From stdpp Require Import base strings gmap numbers list relations.
From S2P Require Import Prelude Sem Threads.

Open Scope Z_scope.

(** ** Definitions *)

Inductive role := Producer | Consumer.

#[export] Instance role_eq_dec : EqDecision role.
Proof. solve_decision. Defined.

(** Where a thread is in its loop body; the names are shared by the two roles. *)
Inductive ppc :=
  | PLoop          (** [while (i++ < N)] *)
  | PWait          (** [sem_wait(&consumer)], [sem_wait(&producer)] *)
  | PMutex         (** [thread_mutex_lock(&mLock)] *)
  | PTest          (** [buffer_index < N], [buffer_index > 0] *)
  | PIndex         (** the load of [buffer_index] in [buffer_index++], [--buffer_index] *)
  | PMove (k : Z)  (** its store *)
  | PCell (k : Z)  (** the access to [buffer[k]] *)
  | PFail          (** [printf(1, "Buffer overflow\n")], [... underflow ...] *)
  | PPrint (v : Z) (** the line of [prod_work] or [cons_work] *)
  | PMUnlock       (** [thread_mutex_unlock(&mLock)] *)
  | PPost          (** [sem_post(&producer)], [sem_post(&consumer)] *)
  | PExit.         (** [thread_exit()] *)

Record pthread := { p_role : role; p_i : Z; p_pc : ppc }.

(** A line printed, and the thread that prints it. *)
Inductive event :=
  | Added (t : nat) (v : Z)
  | Dequeued (t : nat) (v : Z)
  | BufferOverflow (t : nat)
  | BufferUnderflow (t : nat).

Record shared := {
  consumer : Z;        (** the semaphore of the free cells *)
  producer : Z;        (** the semaphore of the filled ones *)
  mLock : Z;
  buffer_index : Z;
  buffer : list Z;
  output : list event;
}.

Definition set_consumer (v : Z) (s : shared) : shared :=
  {| consumer := v; producer := producer s; mLock := mLock s; buffer_index := buffer_index s; buffer := buffer s; output := output s |}.
Definition set_producer (v : Z) (s : shared) : shared :=
  {| consumer := consumer s; producer := v; mLock := mLock s; buffer_index := buffer_index s; buffer := buffer s; output := output s |}.
Definition set_mLock (v : Z) (s : shared) : shared :=
  {| consumer := consumer s; producer := producer s; mLock := v; buffer_index := buffer_index s; buffer := buffer s; output := output s |}.
Definition set_index (v : Z) (s : shared) : shared :=
  {| consumer := consumer s; producer := producer s; mLock := mLock s; buffer_index := v; buffer := buffer s; output := output s |}.
Definition set_buffer (l : list Z) (s : shared) : shared :=
  {| consumer := consumer s; producer := producer s; mLock := mLock s; buffer_index := buffer_index s; buffer := l; output := output s |}.
Definition prints (e : event) (s : shared) : shared :=
  {| consumer := consumer s; producer := producer s; mLock := mLock s; buffer_index := buffer_index s; buffer := buffer s;
     output := output s ++ [e] |}.

Definition pgo (p : ppc) (th : pthread) : pthread := {| p_role := p_role th; p_i := p_i th; p_pc := p |}.

Section Program.
(** [#define N 5]: the cells of the buffer, and the rounds of a thread. *)
Variable N : Z.

(** [insertbuffer(i)] from its test to its return. *)
Definition insertbuffer (t : nat) (th : pthread) (s : shared) : option (shared * pthread) :=
  match p_pc th with
  | PTest => Some (s, pgo (if buffer_index s <? N then PIndex else PFail) th)
  | PIndex => Some (s, pgo (PMove (buffer_index s)) th)
  | PMove k => Some (set_index (i32 (k + 1)) s, pgo (PCell k) th)
  | PCell k => Some (set_buffer (<[Z.to_nat k := p_i th]> (buffer s)) s, pgo (PPrint (p_i th)) th)
  | PFail => Some (prints (BufferOverflow t) s, pgo (PPrint (p_i th)) th)
  | _ => None
  end.

(** [dequeuebuffer()]. *)
Definition dequeuebuffer (t : nat) (th : pthread) (s : shared) : option (shared * pthread) :=
  match p_pc th with
  | PTest => Some (s, pgo (if 0 <? buffer_index s then PIndex else PFail) th)
  | PIndex => Some (s, pgo (PMove (buffer_index s)) th)
  | PMove k => Some (set_index (i32 (k - 1)) s, pgo (PCell (i32 (k - 1))) th)
  | PCell k => Some (s, pgo (PPrint (default 0 (buffer s !! Z.to_nat k))) th)
  | PFail => Some (prints (BufferUnderflow t) s, pgo (PPrint 0) th)
  | _ => None
  end.

(** [i++ < N] *)
Definition next_round (th : pthread) : pthread :=
  {| p_role := p_role th; p_i := i32 (p_i th + 1); p_pc := if p_i th <? N then PWait else PExit |}.

(** [while(xchg(&m->locked, 1) != 0)]: a try that fails changes nothing. *)
Definition lock_next (th : pthread) (s : shared) : option (shared * pthread) :=
  if mLock s =? 0 then Some (set_mLock 1 s, pgo PTest th) else None.

Definition prod_work (t : nat) (th : pthread) (s : shared) : option (shared * pthread) :=
  match p_pc th with
  | PLoop => Some (s, next_round th)
  | PWait => match sem_spec OpWait (consumer s) with Some n => Some (set_consumer n s, pgo PMutex th) | None => None end
  | PMutex => lock_next th s
  | PPrint v => Some (prints (Added t v) s, pgo PMUnlock th)
  | PMUnlock => Some (set_mLock 0 s, pgo PPost th)
  | PPost => match sem_spec OpPost (producer s) with Some n => Some (set_producer n s, pgo PLoop th) | None => None end
  | PExit => None
  | _ => insertbuffer t th s
  end.

Definition cons_work (t : nat) (th : pthread) (s : shared) : option (shared * pthread) :=
  match p_pc th with
  | PLoop => Some (s, next_round th)
  | PWait => match sem_spec OpWait (producer s) with Some n => Some (set_producer n s, pgo PMutex th) | None => None end
  | PMutex => lock_next th s
  | PPrint v => Some (prints (Dequeued t v) s, pgo PMUnlock th)
  | PMUnlock => Some (set_mLock 0 s, pgo PPost th)
  | PPost => match sem_spec OpPost (consumer s) with Some n => Some (set_consumer n s, pgo PLoop th) | None => None end
  | PExit => None
  | _ => dequeuebuffer t th s
  end.

Definition thread_next (t : nat) (th : pthread) (s : shared) : option (shared * pthread) :=
  match p_role th with Producer => prod_work t th s | Consumer => cons_work t th s end.

Definition pstate : Type := shared * list pthread.

Inductive prog_step : pstate -> pstate -> Prop :=
  | prog_move s ths t th s' th' :
      ths !! t = Some th -> thread_next t th s = Some (s', th') -> prog_step (s, ths) (s', <[t := th']> ths).

(** [main], after it has created the threads. *)
Definition prog_init (roles : list role) : pstate :=
  ({| consumer := N; producer := 0; mLock := 0; buffer_index := 0; buffer := replicate (Z.to_nat N) 0; output := [] |},
   (fun r => {| p_role := r; p_i := 0; p_pc := PLoop |}) <$> roles).

End Program.

(** ** Specification: a stack *)

(** The stack after the lines of [l], the top first; [None] if they are not
    those of a stack. *)
Definition stack_event (st : option (list Z)) (e : event) : option (list Z) :=
  l ← st;
  match e with
  | Added _ v => Some (v :: l)
  | Dequeued _ v => match l with w :: l' => if w =? v then Some l' else None | [] => None end
  | _ => None
  end.
Definition stack_of (l : list event) : option (list Z) := foldl stack_event (Some []) l.
Arguments stack_of : simpl never.

(** The values thread [t] has added, in order. *)
Definition added_by (t : nat) (l : list event) : list Z :=
  omap (fun e => match e with Added u v => if (u =? t)%nat then Some v else None | _ => None end) l.
Arguments added_by : simpl never.
Definition added (l : list event) : list Z := omap (fun e => match e with Added _ v => Some v | _ => None end) l.
Definition dequeued (l : list event) : list Z := omap (fun e => match e with Dequeued _ v => Some v | _ => None end) l.

(** ** Invariant *)

(** Before the move of [buffer_index], and after it. *)
Definition early (th : pthread) : Z :=
  match p_pc th with PMutex | PTest | PIndex | PMove _ => 1 | _ => 0 end.
Definition late (th : pthread) : Z :=
  match p_pc th with PCell _ | PPrint _ | PMUnlock | PPost => 1 | _ => 0 end.
Definition is_role (r : role) (th : pthread) : Z :=
  match r, p_role th with Producer, Producer | Consumer, Consumer => 1 | _, _ => 0 end.
(** The thread has [mLock]. *)
Definition holds (th : pthread) : Z :=
  match p_pc th with PTest | PIndex | PMove _ | PCell _ | PFail | PPrint _ | PMUnlock => 1 | _ => 0 end.
Definition sgn (th : pthread) : Z := match p_role th with Producer => 1 | Consumer => -1 end.
(** The moves of [buffer_index] the thread has made. *)
Definition ops (N : Z) (th : pthread) : Z :=
  match p_pc th with
  | PWait | PMutex | PTest | PIndex | PMove _ | PFail => p_i th - 1
  | PExit => N
  | _ => p_i th
  end.
(** The moves that are not printed yet. *)
Definition unprinted (th : pthread) : Z :=
  match p_pc th with PCell _ | PPrint _ => 1 | _ => 0 end.
Definition printed (N : Z) (th : pthread) : Z := ops N th - unprinted th.

Definition pleft (N : Z) (th : pthread) : Z :=
  12 * (N + 1 - p_i th) +
  match p_pc th with
  | PLoop | PExit => 0 | PWait => 11 | PMutex => 10 | PTest => 9 | PIndex => 8 | PMove _ => 7 | PFail => 6
  | PCell _ => 6 | PPrint _ => 5 | PMUnlock => 4 | PPost => 3
  end.

(** What a thread knows of the buffer. *)
Definition pknows (s : shared) (th : pthread) : Prop :=
  match p_role th, p_pc th with
  | _, PMove k => k = buffer_index s
  | Producer, PCell k => k + 1 = buffer_index s
  | Consumer, PCell k => k = buffer_index s
  | Producer, PPrint v => v = p_i th /\ buffer s !! Z.to_nat (buffer_index s - 1) = Some v
  | Consumer, PPrint v => buffer s !! Z.to_nat (buffer_index s) = Some v
  | _, PFail => False
  | _, _ => True
  end.

Definition round_ok (N : Z) (th : pthread) : Prop :=
  match p_pc th with
  | PLoop => 0 <= p_i th <= N
  | PExit => p_i th = N + 1
  | _ => 1 <= p_i th <= N
  end.

(** What a producer has printed is an initial piece of 1, 2, 3, ... *)
Definition prod_lines (N : Z) (t : nat) (th : pthread) (l : list event) : Prop :=
  added_by t l = match p_role th with Producer => seqZ 1 (printed N th) | Consumer => [] end.

Record prog_ok (N B : Z) (n : list role) (st : pstate) : Prop := {
  po_roles : p_role <$> st.2 = n;
  po_bal : sumf sgn st.2 = B;
  po_round : forall t th, st.2 !! t = Some th -> round_ok N th;
  po_knows : forall t th, st.2 !! t = Some th -> pknows st.1 th;
  po_lock : mLock st.1 = sumf holds st.2 /\ (mLock st.1 = 0 \/ mLock st.1 = 1);
  po_sems : 0 <= consumer st.1 /\ 0 <= producer st.1;
  po_free : consumer st.1 + sumf (fun th => is_role Producer th * early th) st.2 + buffer_index st.1
            + sumf (fun th => is_role Consumer th * late th) st.2 = N;
  po_item : buffer_index st.1 = producer st.1 + sumf (fun th => is_role Producer th * late th) st.2
            + sumf (fun th => is_role Consumer th * early th) st.2;
  po_ops : buffer_index st.1 = sumf (fun th => sgn th * ops N th) st.2;
  po_buf : length (buffer st.1) = Z.to_nat N;
  po_stack : stack_of (output st.1) =
             Some (rev (take (Z.to_nat (buffer_index st.1 - sumf (fun th => sgn th * unprinted th) st.2)) (buffer st.1)));
  po_lines : forall t th, st.2 !! t = Some th -> prod_lines N t th (output st.1);
}.

Lemma stack_of_snoc l e : stack_of (l ++ [e]) = stack_event (stack_of l) e.
Proof. unfold stack_of. by rewrite foldl_snoc. Qed.

Lemma added_by_snoc t l e :
  added_by t (l ++ [e]) = added_by t l ++ match e with Added u v => if (u =? t)%nat then [v] else [] | _ => [] end.
Proof. unfold added_by. rewrite omap_app. by destruct e; cbn; [destruct (_ =? _)%nat|..]. Qed.

(** What is added and not dequeued is on the stack. *)
Lemma stack_perm l st : stack_of l = Some st -> added l ≡ₚ dequeued l ++ st.
Proof.
  revert st. induction l as [|e l IH] using rev_ind; intros st H; [injection H as <-; done|].
  rewrite stack_of_snoc in H. unfold added, dequeued in *. rewrite !omap_app.
  destruct (stack_of l) as [st0|]; [|done]. specialize (IH _ eq_refl). rewrite IH.
  destruct e as [t v|t v| |]; cbn in H |- *; try done.
  - simplify_eq. rewrite app_nil_r. solve_Permutation.
  - destruct st0 as [|w st0]; [done|]. destruct (Z.eqb_spec w v) as [->|]; [|done]. simplify_eq.
    rewrite app_nil_r, <- app_assoc. done.
Qed.

Lemma holds_range th : 0 <= holds th <= 1.
Proof. unfold holds. destruct (p_pc th); lia. Qed.

(** A thread without the lock knows nothing of the buffer. *)
Lemma pknows_other s s' th : holds th = 0 -> pknows s th -> pknows s' th.
Proof. by destruct th as [[] i []]. Qed.

Lemma unprinted_holds th : 0 <= unprinted th <= holds th.
Proof. unfold unprinted, holds. destruct (p_pc th); lia. Qed.

(** Only the thread with the lock has moves that are not printed. *)
Lemma unprinted_holder ths t th :
  sumf holds ths <= 1 -> ths !! t = Some th -> holds th = 1 ->
  sumf (fun th => sgn th * unprinted th) ths = sgn th * unprinted th.
Proof.
  intros Hs Ht Hh.
  assert (H0 : forall u tu, ths !! u = Some tu -> u <> t -> unprinted tu = 0).
  { intros u tu Hu Hne. pose proof (unprinted_holds tu).
    pose proof (sumf_two holds _ _ _ _ _ (fun _ x _ => proj1 (holds_range x)) Hu Ht Hne). lia. }
  pose proof (sumf_insert (fun th => sgn th * unprinted th) ths t th (pgo PLoop th) Ht) as E.
  rewrite (sumf_const _ 0 (<[t:=_]> ths)) in E; [cbn in E; lia|].
  intros u tu Hu. destruct (insert_Some_inv _ _ _ _ _ Hu) as [[-> ->]|[Hne Hu']]; [cbn; lia|].
  rewrite (H0 u tu Hu' Hne). lia.
Qed.

Lemma unprinted_none ths : sumf holds ths = 0 -> sumf (fun th => sgn th * unprinted th) ths = 0.
Proof.
  intros Hs. rewrite (sumf_const _ 0); [lia|]. intros t th Ht.
  pose proof (sumf_ge holds _ _ _ (fun _ x _ => proj1 (holds_range x)) Ht). pose proof (unprinted_holds th).
  pose proof (holds_range th). replace (unprinted th) with 0 by lia. lia.
Qed.

Lemma prog_ok_init N roles :
  0 < N -> prog_ok N (sumf sgn (prog_init N roles).2) roles (prog_init N roles).
Proof.
  intros HN.
  assert (Hl : forall t th, (prog_init N roles).2 !! t = Some th -> exists r, th = {| p_role := r; p_i := 0; p_pc := PLoop |}).
  { intros t th Ht. apply list_lookup_fmap_Some in Ht as (r & -> & _). by exists r. }
  assert (H0 : forall f, (forall r, f {| p_role := r; p_i := 0; p_pc := PLoop |} = 0) -> sumf f (prog_init N roles).2 = 0).
  { intros f Hf. rewrite (sumf_const f 0); [lia|]. intros t th Ht. by destruct (Hl _ _ Ht) as [r ->]. }
  split; rewrite ?H0 by (intros []; cbn; lia); cbn [prog_init fst snd consumer producer mLock buffer_index buffer output];
    rewrite ?length_replicate; try done; try lia.
  - rewrite <- list_fmap_compose. clear. induction roles as [|r l IH]; cbn; congruence.
  - intros t th Ht. destruct (Hl _ _ Ht) as [r ->]. cbn. lia.
  - intros t th Ht. by destruct (Hl _ _ Ht) as [[] ->].
  - intros t th Ht. by destruct (Hl _ _ Ht) as [[] ->].
Qed.

(** ** Steps *)

(** What one thread's move changes, apart from the stack. *)
Record pmove (N : Z) (t : nat) (s s' : shared) (th th' : pthread) : Prop := {
  pm_role : p_role th' = p_role th;
  pm_round : round_ok N th';
  pm_knows : pknows s' th';
  pm_same : (buffer_index s' = buffer_index s /\ buffer s' = buffer s) \/ holds th = 1;
  pm_lock : mLock s' = mLock s - holds th + holds th' /\ (mLock s' = 0 \/ mLock s' = 1);
  pm_sems : 0 <= consumer s' /\ 0 <= producer s';
  pm_free : consumer s' - consumer s + is_role Producer th * (early th' - early th) + (buffer_index s' - buffer_index s)
            + is_role Consumer th * (late th' - late th) = 0;
  pm_item : buffer_index s' - buffer_index s = producer s' - producer s
            + is_role Producer th * (late th' - late th) + is_role Consumer th * (early th' - early th);
  pm_ops : buffer_index s' - buffer_index s = sgn th * (ops N th' - ops N th);
  pm_buf : length (buffer s') = length (buffer s);
  pm_lines : forall u, u <> t -> added_by u (output s') = added_by u (output s);
  pm_line : prod_lines N t th' (output s');
}.

Lemma sgn_role th th' : p_role th' = p_role th -> sgn th' = sgn th /\ forall r, is_role r th' = is_role r th.
Proof. intros E. unfold sgn, is_role. by rewrite E. Qed.

Lemma sumf_holds N B n s ths : prog_ok N B n (s, ths) -> sumf holds ths <= 1.
Proof. intros [_ _ _ _ [E H] _ _ _ _ _ _ _]. cbn in *. lia. Qed.

Lemma prog_ok_move N B n s s' ths t th th' :
  prog_ok N B n (s, ths) -> ths !! t = Some th -> pmove N t s s' th th' ->
  stack_of (output s') =
    Some (rev (take (Z.to_nat (buffer_index s' - sumf (fun th => sgn th * unprinted th) (<[t := th']> ths))) (buffer s'))) ->
  prog_ok N B n (s', <[t := th']> ths).
Proof.
  intros Hok Ht [Mr Mo Mk Ms Ml Mse Mf Mi Mp Mb Mls Mli] Hst.
  pose proof (sumf_holds _ _ _ _ _ Hok) as Hh1.
  destruct Hok as [Hl Hb Ho Hk [Hm _] Hse Hf Hi Hp Hbu _ Hli]. cbn [fst snd] in *.
  destruct (sgn_role _ _ Mr) as [Es Er].
  split; cbn [fst snd]; rewrite ?length_insert, ?(sumf_insert _ _ _ _ _ Ht); cbn beta; rewrite ?Es, ?Er; try lia; try done.
  - rewrite list_fmap_insert, Mr, list_insert_id; [done|]. by rewrite list_lookup_fmap, Ht.
  - intros u x Hu. destruct (insert_Some_inv _ _ _ _ _ Hu) as [[-> ->]|[_ Hu']]; [done|by eapply Ho].
  - intros u x Hu. destruct (insert_Some_inv _ _ _ _ _ Hu) as [[-> ->]|[Hne Hu']]; [done|].
    destruct Ms as [[E1 E2]|Hh].
    + specialize (Hk _ _ Hu'). unfold pknows in *. by rewrite E1, E2.
    + eapply pknows_other; [|by eapply Hk]. pose proof (holds_range x).
      pose proof (sumf_two holds _ _ _ _ _ (fun _ x _ => proj1 (holds_range x)) Hu' Ht Hne). lia.
  - rewrite Hst, (sumf_insert _ _ _ _ _ Ht). cbn beta. by rewrite Es.
  - intros u x Hu. destruct (insert_Some_inv _ _ _ _ _ Hu) as [[-> ->]|[Hne Hu']]; [done|].
    unfold prod_lines. rewrite Mls by done. by apply Hli.
Qed.

(** A move that prints nothing and writes no cell: the stack stays if moves of
    the index are accounted for. *)
Lemma prog_ok_quiet N B n s s' ths t th th' :
  prog_ok N B n (s, ths) -> ths !! t = Some th -> pmove N t s s' th th' ->
  output s' = output s -> buffer s' = buffer s ->
  buffer_index s' - buffer_index s = sgn th * (unprinted th' - unprinted th) ->
  prog_ok N B n (s', <[t := th']> ths).
Proof.
  intros Hok Ht Hm Eo Eb Ei. eapply prog_ok_move; [done|done|done|].
  rewrite Eo, Eb, (sumf_insert _ _ _ _ _ Ht). cbn beta. rewrite (proj1 (sgn_role _ _ (pm_role _ _ _ _ _ _ Hm))).
  destruct Hok as [_ _ _ _ _ _ _ _ _ _ Hst _]. cbn [fst snd] in Hst. rewrite Hst.
  do 4 f_equal. lia.
Qed.

(** Where the index is for a thread that is between the semaphores. *)
Lemma index_bounds N B n s ths t th :
  prog_ok N B n (s, ths) -> ths !! t = Some th ->
  0 <= buffer_index s <= N /\
  (p_role th = Producer -> early th = 1 -> buffer_index s < N) /\
  (p_role th = Producer -> late th = 1 -> 0 < buffer_index s) /\
  (p_role th = Consumer -> early th = 1 -> 0 < buffer_index s) /\
  (p_role th = Consumer -> late th = 1 -> buffer_index s < N).
Proof.
  intros [_ _ _ _ _ [H1 H2] Hf Hi _ _ _ _] Ht. cbn [fst snd] in *.
  assert (Hr : forall r x, 0 <= is_role r x <= 1) by (intros r x; unfold is_role; destruct r, (p_role x); lia).
  assert (He : forall x, 0 <= early x <= 1) by (intros x; unfold early; destruct (p_pc x); lia).
  assert (Hl : forall x, 0 <= late x <= 1) by (intros x; unfold late; destruct (p_pc x); lia).
  pose proof (fun r => sumf_ge (fun th => is_role r th * early th) _ _ _
    (fun _ x _ => ltac:(pose proof (Hr r x); pose proof (He x); cbn; nia)) Ht) as Ge.
  pose proof (fun r => sumf_ge (fun th => is_role r th * late th) _ _ _
    (fun _ x _ => ltac:(pose proof (Hr r x); pose proof (Hl x); cbn; nia)) Ht) as Gl.
  pose proof (Ge Producer) as G1. pose proof (Ge Consumer) as G2. pose proof (Gl Producer) as G3. pose proof (Gl Consumer) as G4.
  cbn beta in *. clear Ge Gl. pose proof (Hr Producer th). pose proof (Hr Consumer th). pose proof (He th). pose proof (Hl th).
  split; [nia|].
  assert (Hpc : forall r, p_role th = r -> is_role r th = 1) by (intros r <-; unfold is_role; by destruct (p_role th)).
  split_and!; intros Er Ec; rewrite (Hpc _ Er), Ec in *; nia.
Qed.

Lemma prod_lines_same N t th th' l :
  prod_lines N t th l -> p_role th' = p_role th -> printed N th' = printed N th -> prod_lines N t th' l.
Proof. unfold prod_lines. by intros H -> ->. Qed.

(** Unfolds what a thread contributes; both threads are constructors. *)
Ltac acct :=
  unfold holds, early, late, sgn, ops, unprinted, printed, is_role, round_ok, pknows, pgo, next_round in *; cbn in *.

(** A quiet move from what it changes. *)
Ltac quiet Hok Ht Hli Hm0 :=
  eapply prog_ok_quiet; [exact Hok|exact Ht| |reflexivity|reflexivity|acct; lia];
  split; try done; try (left; done); try (right; done);
  try (eapply prod_lines_same; [exact Hli|reflexivity|acct; lia]); acct; try lia.

(** The write of a cell, above what the printed lines account for. *)
Lemma prog_ok_cell N B n s ths t i k :
  prog_ok N B n (s, ths) -> ths !! t = Some {| p_role := Producer; p_i := i; p_pc := PCell k |} ->
  prog_ok N B n (set_buffer (<[Z.to_nat k := i]> (buffer s)) s,
                 <[t := {| p_role := Producer; p_i := i; p_pc := PPrint i |}]> ths).
Proof.
  intros Hok Ht. pose proof (sumf_holds _ _ _ _ _ Hok) as Hh. pose proof (index_bounds _ _ _ _ _ _ _ Hok Ht) as (Hib & _ & Hb & _).
  pose proof Hok as [_ _ Ho Hk [Hm Hm1] Hse _ _ _ Hbu Hstk Hli]. cbn [fst snd] in *.
  pose proof (Ho _ _ Ht) as Hr. pose proof (Hk _ _ Ht) as Hkn. specialize (Hli _ _ Ht). cbn in Hr, Hkn.
  specialize (Hb eq_refl eq_refl).
  eapply prog_ok_move; [exact Hok|exact Ht| |].
  - split; try done; try (by right); try (eapply prod_lines_same; [exact Hli|reflexivity|acct; lia]);
      cbn; rewrite ?length_insert; try lia; try (unfold is_role; cbn; lia).
    split; [done|]. replace (buffer_index s - 1) with k by lia. apply list_lookup_insert_eq. lia.
  - rewrite (sumf_insert _ _ _ _ _ Ht), (unprinted_holder _ _ _ Hh Ht eq_refl).
    rewrite (unprinted_holder _ _ _ Hh Ht eq_refl) in Hstk. cbn in Hstk |- *.
    rewrite Hstk. do 2 f_equal. rewrite take_insert_ge by lia. f_equal; lia.
Qed.

(** The line of a thread, with the lock held: it pushes what the buffer has
    above the printed lines, or pops what it has below. *)
Lemma prog_ok_print N B n s ths t r i v :
  prog_ok N B n (s, ths) -> ths !! t = Some {| p_role := r; p_i := i; p_pc := PPrint v |} ->
  prog_ok N B n (prints (match r with Producer => Added t v | Consumer => Dequeued t v end) s,
                 <[t := {| p_role := r; p_i := i; p_pc := PMUnlock |}]> ths).
Proof.
  intros Hok Ht. pose proof (sumf_holds _ _ _ _ _ Hok) as Hh.
  pose proof (index_bounds _ _ _ _ _ _ _ Hok Ht) as (Hib & _ & Hb1 & _ & Hb2).
  pose proof Hok as [_ _ Ho Hk [Hm Hm1] Hse _ _ _ Hbu Hstk Hli]. cbn [fst snd] in *.
  pose proof (Ho _ _ Ht) as Hr. pose proof (Hk _ _ Ht) as Hkn. specialize (Hli _ _ Ht).
  eapply prog_ok_move; [exact Hok|exact Ht| |].
  - split; try done; try (by right); cbn; try (by unfold is_role; cbn; lia); try (destruct r; cbn; lia).
    + intros u Hu. rewrite added_by_snoc. destruct r; [|by rewrite app_nil_r].
      destruct (Nat.eqb_spec t u); [done|by rewrite app_nil_r].
    + unfold prod_lines in *. cbn [prints output]. rewrite added_by_snoc, Hli. cbn in Hr. destruct r; [|done]. cbn in Hkn |- *.
      destruct Hkn as [-> _]. rewrite Nat.eqb_refl. unfold printed, ops, unprinted. cbn.
      rewrite Z.sub_0_r. replace (seqZ 1 i) with (seqZ 1 (i - 1 + 1)) by (f_equal; lia).
      rewrite seqZ_app by lia. f_equal. by replace (1 + (i - 1)) with i by lia.
  - rewrite (sumf_insert _ _ _ _ _ Ht), (unprinted_holder _ _ _ Hh Ht eq_refl).
    rewrite (unprinted_holder _ _ _ Hh Ht eq_refl) in Hstk. cbn in Hkn, Hstk |- *.
    rewrite stack_of_snoc, Hstk. destruct r; cbn in *.
    + destruct Hkn as [_ Hkn]. cbn. specialize (Hb1 eq_refl eq_refl).
      replace (Z.to_nat (buffer_index s - (1 * 1 - 1 * 1 + 1 * 0))) with (S (Z.to_nat (buffer_index s - 1))) by lia.
      by rewrite (take_S_r _ _ _ Hkn), rev_app_distr.
    + replace (Z.to_nat (buffer_index s - -1 * 1)) with (S (Z.to_nat (buffer_index s))) by lia.
      rewrite (take_S_r _ _ _ Hkn), rev_app_distr. cbn. rewrite Z.eqb_refl. do 4 f_equal. lia.
Qed.

Lemma prog_ok_step N B n st st' :
  0 < N < 2147483647 -> prog_ok N B n st -> prog_step N st st' -> prog_ok N B n st'.
Proof.
  intros HN Hok Hst. destruct Hst as [s ths t th s' th' Ht E].
  pose proof Hok as [_ _ Ho Hk [Hm Hm1] [Hc Hp] _ _ _ Hbu _ Hli]. cbn [fst snd] in *.
  pose proof (Ho _ _ Ht) as Hr. pose proof (Hk _ _ Ht) as Hkn. specialize (Hli _ _ Ht).
  pose proof (index_bounds _ _ _ _ _ _ _ Hok Ht) as (Hib & Hb1 & _ & Hb3 & Hb4).
  pose proof (sumf_ge holds _ _ _ (fun _ x _ => proj1 (holds_range x)) Ht) as Hge. rewrite <- Hm in Hge. clear Hm Ho Hk.
  destruct th as [r i pc]. cbn [p_role] in *.
  destruct pc as [| | | | |k|k| |v| | |]; try by destruct r.
  8: { destruct r; cbn in E; simplify_eq; exact (prog_ok_print _ _ _ _ _ _ _ _ _ Hok Ht). }
  7: { destruct r; cbn in E; simplify_eq; [exact (prog_ok_cell _ _ _ _ _ _ _ _ Hok Ht)|].
       cbn in Hkn. destruct (lookup_lt_is_Some_2 (buffer s') (Z.to_nat k)) as [v Hv]; [specialize (Hb4 eq_refl eq_refl); lia|].
       rewrite Hv. cbn. quiet Hok Ht Hli Hm1. by subst k. }
  all: destruct r; cbn [thread_next prod_work cons_work insertbuffer dequeuebuffer lock_next sem_spec p_role p_pc] in E;
    unfold thread_next, prod_work, cons_work, lock_next, sem_spec in E; cbn [p_role p_pc] in E;
    repeat case_match; simplify_eq; rewrite ?Z.ltb_lt, ?Z.ltb_ge, ?Z.eqb_eq in *.
  all: cbn in Hr, Hkn; try specialize (Hb1 eq_refl eq_refl); try specialize (Hb3 eq_refl eq_refl); try lia.
  1, 2: unfold next_round; cbn [p_role p_i]; rewrite i32_small by lia; destruct (Z.ltb_spec i N); quiet Hok Ht Hli Hm1.
  9: rewrite (i32_small (k + 1)) by lia.
  10: rewrite (i32_small (k - 1)) by lia.
  all: quiet Hok Ht Hli Hm1.
Qed.

(** Every step is work done. *)
Lemma prog_step_left N B n st st' :
  0 < N < 2147483647 -> prog_ok N B n st -> prog_step N st st' ->
  sumf (pleft N) st'.2 < sumf (pleft N) st.2.
Proof.
  intros HN Hok Hst. destruct Hst as [s ths t th s' th' Ht E]. cbn [snd]. rewrite (sumf_insert _ _ _ _ _ Ht).
  pose proof (po_round _ _ _ _ Hok _ _ Ht) as Hr. clear Hok.
  enough (pleft N th' < pleft N th) by lia.
  destruct th as [r i pc].
  destruct r; unfold thread_next, prod_work, cons_work, insertbuffer, dequeuebuffer, lock_next, sem_spec, next_round in E;
    destruct pc; cbn [p_role p_pc p_i] in E; cbn in Hr; repeat case_match; simplify_eq; unfold pleft; cbn;
    rewrite ?(i32_small (i + 1)) by lia; rewrite ?Z.ltb_lt, ?Z.ltb_ge in *; lia.
Qed.

Lemma pleft_pos N B n st : prog_ok N B n st -> 0 <= sumf (pleft N) st.2.
Proof.
  intros Hok. apply sumf_pos. intros t th Ht. pose proof (po_round _ _ _ _ Hok _ _ Ht) as Hr.
  unfold round_ok, pleft in *. destruct (p_pc th); lia.
Qed.

Lemma prog_run_ok N roles n st :
  0 < N < 2147483647 -> nsteps (prog_step N) n (prog_init N roles) st ->
  prog_ok N (sumf sgn (prog_init N roles).2) roles st /\
  Z.of_nat n <= sumf (pleft N) (prog_init N roles).2.
Proof.
  intros HN Hn. pose proof (prog_ok_init N roles ltac:(lia)) as Hi.
  apply (nsteps_bound (prog_step N) (prog_ok N (sumf sgn (prog_init N roles).2) roles) (fun st => sumf (pleft N) st.2));
    [|done|by eapply pleft_pos|done].
  intros s s' Hs Hst. pose proof (prog_ok_step _ _ _ _ _ HN Hs Hst) as Hs'.
  split_and!; [done|by eapply prog_step_left|by eapply pleft_pos].
Qed.

(** A state in which no thread can move: each has ended or waits for its
    semaphore. *)
Lemma prog_stuck N B n s ths :
  prog_ok N B n (s, ths) -> (forall st', ~ prog_step N (s, ths) st') ->
  forall t th, ths !! t = Some th ->
    p_pc th = PExit \/
    (p_pc th = PWait /\ match p_role th with Producer => consumer s = 0 | Consumer => producer s = 0 end).
Proof.
  intros Hok Hst. pose proof Hok as [_ _ _ Hk [Hm _] [Hc Hp] _ _ _ _ _ _]. cbn [fst snd] in *.
  assert (Hn : forall t th, ths !! t = Some th -> thread_next N t th s = None).
  { intros t th Ht. destruct (thread_next N t th s) as [[s' th']|] eqn:E; [|done].
    destruct (Hst (s', <[t := th']> ths)). by econstructor. }
  assert (Hm0 : mLock s = 0).
  { rewrite Hm, (sumf_const holds 0); [lia|]. intros t th Ht. pose proof (Hn t th Ht) as E.
    destruct th as [[] i []]; cbn in E |- *; try done. }
  intros t th Ht. pose proof (Hn t th Ht) as E. specialize (Hk _ _ Ht).
  destruct th as [[] i []]; unfold thread_next, prod_work, cons_work, lock_next, sem_spec in E; cbn in E, Hk |- *;
    rewrite ?Hm0 in E; try done; try (by left); right; (split; [done|]);
    destruct (Z.ltb_spec 0 (consumer s)), (Z.ltb_spec 0 (producer s)); (done || lia).
Qed.

(** ** Properties *)

(** Whatever the interleaving of any number of producers and consumers,
    the lines printed so far are the history of a stack: each value consumed
    is the one added last and not consumed yet, the buffer never overflows or
    underflows, and each producer's lines count 1, 2, 3, ... *)
Theorem prodcons_stack N roles n st :
  0 < N < 2147483647 -> nsteps (prog_step N) n (prog_init N roles) st ->
  (exists l, stack_of (output st.1) = Some l /\ added (output st.1) ≡ₚ dequeued (output st.1) ++ l) /\
  forall t, roles !! t = Some Producer -> exists m, added_by t (output st.1) = seqZ 1 m.
Proof.
  intros HN Hn. destruct (prog_run_ok _ _ _ _ HN Hn) as [Hok _]. split.
  - eexists. split; [exact (po_stack _ _ _ _ Hok)|]. apply stack_perm, (po_stack _ _ _ _ Hok).
  - intros t Ht.
    rewrite <- (po_roles _ _ _ _ Hok), list_lookup_fmap in Ht. destruct (st.2 !! t) as [th|] eqn:Hth; [|done]. injection Ht as Ht.
    pose proof (po_lines _ _ _ _ Hok _ _ Hth) as Hli. unfold prod_lines in Hli. rewrite Ht in Hli. by eexists.
Qed.

Lemma ops_range N th : 0 < N -> round_ok N th -> 0 <= ops N th <= N /\ (p_pc th = PWait -> ops N th < N).
Proof. unfold round_ok, ops. intros HN Hr. split; [|intros E; rewrite E in *]; destruct (p_pc th); try lia; done. Qed.

(** With as many producers as consumers no thread waits for ever. *)
Lemma prog_stuck_done N n s ths :
  0 < N -> prog_ok N 0 n (s, ths) -> (forall st', ~ prog_step N (s, ths) st') ->
  forall t th, ths !! t = Some th -> p_pc th = PExit.
Proof.
  intros HN Hok Hst t th Ht. pose proof (prog_stuck _ _ _ _ _ Hok Hst) as Hs.
  destruct Hok as [_ HB Hr _ _ _ Hf Hi Ho _ _ _]. cbn [fst snd] in *.
  assert (Hz : forall r, sumf (fun th => is_role r th * early th) ths = 0 /\ sumf (fun th => is_role r th * late th) ths = 0).
  { intros r. split; (rewrite (sumf_const _ 0); [lia|]); intros u x Hu; destruct (Hs u x Hu) as [E|[E _]];
      unfold early, late; rewrite E; lia. }
  rewrite (proj1 (Hz Producer)), (proj2 (Hz Consumer)) in Hf. rewrite (proj2 (Hz Producer)), (proj1 (Hz Consumer)) in Hi.
  destruct (Hs t th Ht) as [E|[E Hw]]; [done|exfalso].
  pose proof (ops_range N th HN (Hr _ _ Ht)) as [_ Hlt]. specialize (Hlt E).
  pose proof (sumf_sub (fun x => sgn x * N) (fun x => sgn x * ops N x) ths) as Hd.
  pose proof (sumf_sub (fun x => sgn x * ops N x) (fun x => sgn x * N) ths) as He.
  rewrite sumf_mul, HB, <- Ho in Hd, He.
  destruct (p_role th) eqn:Er.
  - assert (0 <= sumf (fun x => sgn x * N - sgn x * ops N x) ths); [|lia].
    apply sumf_pos. intros u x Hu. pose proof (ops_range N x HN (Hr _ _ Hu)) as [? _]. unfold sgn.
    destruct (p_role x) eqn:Ex; [lia|]. destruct (Hs u x Hu) as [E'|[_ E']]; [|rewrite Ex in E'; lia]. unfold ops. rewrite E'. lia.
  - assert (sgn th * ops N th - sgn th * N <= sumf (fun x => sgn x * ops N x - sgn x * N) ths);
      [|unfold sgn at 1 2 in H; rewrite Er in H; lia].
    apply (sumf_ge (fun x => sgn x * ops N x - sgn x * N) ths t th); [|done]. intros u x Hu.
    pose proof (ops_range N x HN (Hr _ _ Hu)) as [? _]. unfold sgn.
    destruct (p_role x) eqn:Ex; [|lia]. destruct (Hs u x Hu) as [E'|[_ E']]; [|rewrite Ex in E'; lia]. unfold ops. rewrite E'. lia.
Qed.

Lemma balance_roles N roles :
  length (filter (.= Producer) roles) = length (filter (.= Consumer) roles) -> sumf sgn (prog_init N roles).2 = 0.
Proof.
  intros H. enough (sumf sgn (prog_init N roles).2 =
    Z.of_nat (length (filter (.= Producer) roles)) - Z.of_nat (length (filter (.= Consumer) roles))) by lia.
  clear H. cbn. induction roles as [|[] l IH]; [done| |]; rewrite !filter_cons; cbn [fmap list_fmap sumf]; rewrite IH;
    repeat case_decide; try done; unfold sgn; cbn [p_role length]; lia.
Qed.

(** C22. With as many producers as consumers, no interleaving deadlocks or runs
    for ever: after a bounded number of steps every thread has ended, every
    producer has added 1 to N in order, and every value added has been
    consumed. *)
Theorem prodcons_completes N roles n st :
  0 < N < 2147483647 -> length (filter (.= Producer) roles) = length (filter (.= Consumer) roles) ->
  nsteps (prog_step N) n (prog_init N roles) st ->
  Z.of_nat n <= 12 * (N + 1) * Z.of_nat (length roles) /\
  ((forall st', ~ prog_step N st st') ->
   (forall t th, st.2 !! t = Some th -> p_pc th = PExit) /\
   added (output st.1) ≡ₚ dequeued (output st.1) /\
   forall t, roles !! t = Some Producer -> added_by t (output st.1) = seqZ 1 N).
Proof.
  intros HN Hbal Hn. destruct (prog_run_ok _ _ _ _ HN Hn) as [Hok Hle]. rewrite (balance_roles _ _ Hbal) in Hok. split.
  - etransitivity; [exact Hle|]. rewrite (sumf_const (pleft N) (12 * (N + 1))); [cbn; by rewrite length_fmap|].
    intros t th Ht. apply list_lookup_fmap_Some in Ht as (r & -> & _). unfold pleft. cbn. lia.
  - destruct st as [s ths]. cbn [fst snd] in *. intros Hst. pose proof (prog_stuck_done N roles s ths ltac:(lia) Hok Hst) as Hd.
    split_and!; [exact Hd| |].
    + pose proof (stack_perm _ _ (po_stack _ _ _ _ Hok)) as Hp. cbn [fst snd] in Hp. rewrite Hp.
      replace (buffer_index s - _) with 0; [by rewrite app_nil_r|].
      pose proof (po_ops _ _ _ _ Hok) as Ho. pose proof (po_bal _ _ _ _ Hok) as HB. cbn [fst snd] in Ho, HB. rewrite Ho.
      rewrite (sumf_const (fun x => sgn x * unprinted x) 0) by (intros t th Ht; unfold unprinted; rewrite (Hd t th Ht); lia).
      pose proof (sumf_mul sgn N ths) as HM. rewrite HB in HM.
      assert (sumf (fun x => sgn x * ops N x) ths = sumf (fun x => sgn x * N) ths) as ->; [|lia].
      apply Z.le_antisymm; apply sumf_le; intros t th Ht; unfold ops; rewrite (Hd t th Ht); lia.
    + intros t Ht. rewrite <- (po_roles _ _ _ _ Hok), list_lookup_fmap in Ht. cbn [snd] in Ht.
      destruct (ths !! t) as [th|] eqn:Hth; [|done]. injection Ht as Ht.
      pose proof (po_lines _ _ _ _ Hok _ _ Hth) as Hli. unfold prod_lines in Hli. cbn [fst] in Hli. rewrite Ht in Hli.
      rewrite Hli. unfold printed, ops, unprinted. rewrite (Hd _ _ Hth). f_equal. lia.
Qed.

(** Thread [t] for up to [n] steps. *)
Fixpoint prog_run (N : Z) (t n : nat) (st : pstate) : pstate :=
  match n with
  | O => st
  | S n' =>
      match st.2 !! t with
      | None => st
      | Some th =>
          match thread_next N t th st.1 with
          | Some (s', th') => prog_run N t n' (s', <[t := th']> st.2)
          | None => st
          end
      end
  end.

Lemma prog_run_steps N t k n st st' :
  nsteps (prog_step N) k (prog_run N t n st) st' -> exists m, nsteps (prog_step N) m st st'.
Proof.
  revert st. induction n as [|n IH]; intros st H; [by exists k|]. cbn in H.
  destruct (st.2 !! t) as [th|] eqn:Ht; [|by exists k]. destruct (thread_next N t th st.1) as [[s' th']|] eqn:E; [|by exists k].
  destruct (IH _ H) as [m Hm]. exists (S m). eapply nsteps_l; [|exact Hm]. destruct st as [s ths]. by econstructor.
Qed.

(** A producer and a consumer of two values each: the producer runs till it
    waits, then the consumer. *)
Lemma prodcons_stack_witness :
  let st := prog_run 2 1 40 (prog_run 2 0 40 (prog_init 2 [Producer; Consumer])) in
  output st.1 = [Added 0 1; Added 0 2; Dequeued 1 2; Dequeued 1 1] /\ exists l, stack_of (output st.1) = Some l.
Proof.
  cbn zeta. split; [vm_compute; reflexivity|].
  destruct (prog_run_steps 2 1 0 40 (prog_run 2 0 40 (prog_init 2 [Producer; Consumer])) _ ltac:(constructor)) as [m Hm].
  destruct (prog_run_steps 2 0 m 40 _ _ Hm) as [k Hk].
  destruct (prodcons_stack 2 [Producer; Consumer] k _ ltac:(lia) Hk) as [(l & Hl & _) _]. exists l. exact Hl.
Defined.

Lemma prodcons_completes_witness :
  let st := prog_run 2 1 40 (prog_run 2 0 40 (prog_init 2 [Producer; Consumer])) in
  added_by 0 (output st.1) = [1; 2] /\ added (output st.1) ≡ₚ dequeued (output st.1).
Proof.
  cbn zeta.
  destruct (prog_run_steps 2 1 0 40 (prog_run 2 0 40 (prog_init 2 [Producer; Consumer])) _ ltac:(constructor)) as [m Hm].
  destruct (prog_run_steps 2 0 m 40 _ _ Hm) as [k Hk].
  destruct (prodcons_completes 2 [Producer; Consumer] k _ ltac:(lia) eq_refl Hk) as [_ Hf].
  destruct Hf as (_ & Hp & Ha).
  - intros st' Hst. remember (prog_run 2 1 40 _) as st eqn:Est. vm_compute in Est. subst st.
    inversion Hst as [s ths t th s' th' Ht E]. subst. destruct t as [|[|t]]; cbn in Ht; [..|done]; injection Ht as <-; discriminate E.
  - split; [exact (Ha 0%nat eq_refl)|exact Hp].
Defined.
