(* ===== verification/MsgQueue.v ===== *)
(** The message queue of xv6-public/extracredit_cond_var.c: [send] and [recv]
    on a slot for one message, guarded by a mutex and a condition variable of
    thread_lock_impl.h, with the kernel's [thread_sleep] and wake-up.

    Any number of threads send and receive. As in Sem.v a step is one access to
    shared memory or one action under [ptable.lock], and a sleeping thread may
    be woken for other reasons.

    Theorems: messages are received once each and in the order sent, and no
    receiver sleeps on a full slot unless its wake-up is on the way
    ([msgq_fifo]); but a [send] that finds the slot full spins with the mutex
    held, so that nothing moves any more ([send_full_livelock]). *)

From Stdlib Require Import ZArith Lia.
From stdpp Require Import base strings gmap numbers list.
From S2P Require Import Prelude Threads.

Open Scope Z_scope.

(** ** Definitions *)

Inductive mpc :=
  | MIdle
  | GLock (p : Z)    (** [send]: [thread_mutex_lock(&q->m)] *)
  | GSpin (p : Z)    (** [while (q->ptr != 0) ;] *)
  | GStore (p : Z)   (** [q->ptr = p] *)
  | GSignal (p : Z)  (** [thread_cond_signal]: [acquire(&ptable.lock)] *)
  | GWake (p : Z)    (** [wakeup1] and [release] *)
  | GUnlock (p : Z)  (** [thread_mutex_unlock(&q->m)] *)
  | RLock            (** [recv]: [thread_mutex_lock(&q->m)] *)
  | RTest            (** [(p = q->ptr) == 0] *)
  | RPt              (** [thread_sleep]: [acquire(&ptable.lock)] *)
  | RUnl             (** [mutex_unlock(lk)] *)
  | RSet             (** [p->state = SLEEPING] and [sched], which gives up [ptable.lock] *)
  | RAsleep
  | RResume          (** runnable: the scheduler takes [ptable.lock] for it *)
  | RTidy            (** [release(&ptable.lock)] *)
  | RRelock          (** [mutex_lock(lk)] *)
  | RClear (p : Z)   (** [q->ptr = 0] *)
  | RUnlock (p : Z). (** [thread_mutex_unlock(&q->m)] *)

Record msgq := {
  q_m : Z;                (** the mutex word *)
  q_ptr : Z;              (** the message, 0 for none *)
  q_pt : Z;               (** 1 when [ptable.lock] is held for one of the threads *)
  q_threads : list mpc;
  q_sent : list Z;        (** what has been stored, not read by the code *)
  q_received : list Z;    (** what [recv] has taken, not read by the code *)
}.

(** What a thread's next step makes of the mutex, the slot and [ptable.lock];
    where the thread is then, and what it has stored or taken. *)
Record mres := { r_m : Z; r_ptr : Z; r_pt : Z; r_pc : mpc; r_sent : list Z; r_received : list Z }.

Definition mstay (s : msgq) (p : mpc) : mres :=
  {| r_m := q_m s; r_ptr := q_ptr s; r_pt := q_pt s; r_pc := p; r_sent := []; r_received := [] |}.
(** [while(xchg(&m->locked, 1) != 0) ...;] *)
Definition mlock (s : msgq) (here p : mpc) : mres :=
  {| r_m := 1; r_ptr := q_ptr s; r_pt := q_pt s; r_pc := if q_m s =? 0 then p else here; r_sent := []; r_received := [] |}.
Definition munlock (s : msgq) (p : mpc) : mres :=
  {| r_m := 0; r_ptr := q_ptr s; r_pt := q_pt s; r_pc := p; r_sent := []; r_received := [] |}.
(** [acquire(&ptable.lock)] waits; [release]. *)
Definition ptlock (s : msgq) (p : mpc) : option mres :=
  if q_pt s =? 0 then
    Some {| r_m := q_m s; r_ptr := q_ptr s; r_pt := 1; r_pc := p; r_sent := []; r_received := [] |}
  else None.
Definition ptunlock (s : msgq) (p : mpc) : mres :=
  {| r_m := q_m s; r_ptr := q_ptr s; r_pt := 0; r_pc := p; r_sent := []; r_received := [] |}.

Definition send_next (pc : mpc) (s : msgq) : option mres :=
  match pc with
  | GLock p => Some (mlock s pc (GSpin p))
  | GSpin p => Some (mstay s (if q_ptr s =? 0 then GStore p else pc))
  | GStore p =>
      Some {| r_m := q_m s; r_ptr := p; r_pt := q_pt s; r_pc := GSignal p; r_sent := [p]; r_received := [] |}
  | GSignal p => ptlock s (GWake p)
  | GWake p => Some (ptunlock s (GUnlock p))
  | GUnlock p => Some (munlock s MIdle)
  | _ => None
  end.

Definition recv_next (pc : mpc) (s : msgq) : option mres :=
  match pc with
  | RLock => Some (mlock s pc RTest)
  | RTest => Some (mstay s (if q_ptr s =? 0 then RPt else RClear (q_ptr s)))
  | RPt => ptlock s RUnl
  | RUnl => Some (munlock s RSet)
  | RSet => Some (ptunlock s RAsleep)
  | RResume => ptlock s RTidy
  | RTidy => Some (ptunlock s RRelock)
  | RRelock => Some (mlock s pc RTest)
  | RClear p =>
      Some {| r_m := q_m s; r_ptr := 0; r_pt := q_pt s; r_pc := RUnlock p; r_sent := []; r_received := [p] |}
  | RUnlock p => Some (munlock s MIdle)
  | _ => None
  end.

(** [wakeup1] makes all sleepers runnable. *)
Definition woken (p : mpc) : mpc := match p with RAsleep => RResume | _ => p end.

Definition mstep (i : nat) (pc : mpc) (r : mres) (s : msgq) : msgq :=
  {| q_m := r_m r; q_ptr := r_ptr r; q_pt := r_pt r;
     q_threads := <[i := r_pc r]> (match pc with GWake _ => woken <$> q_threads s | _ => q_threads s end);
     q_sent := q_sent s ++ r_sent r; q_received := q_received s ++ r_received r |}.

Definition mgoto (i : nat) (p : mpc) (s : msgq) : msgq := mstep i MIdle (mstay s p) s.

Inductive msg_step : msgq -> msgq -> Prop :=
  | msg_send s i p : q_threads s !! i = Some MIdle -> p <> 0 -> msg_step s (mgoto i (GLock p) s)
  | msg_recv s i : q_threads s !! i = Some MIdle -> msg_step s (mgoto i RLock s)
  | msg_in_send s i pc r : q_threads s !! i = Some pc -> send_next pc s = Some r -> msg_step s (mstep i pc r s)
  | msg_in_recv s i pc r : q_threads s !! i = Some pc -> recv_next pc s = Some r -> msg_step s (mstep i pc r s)
  | msg_spurious s i : q_threads s !! i = Some RAsleep -> q_pt s = 0 -> msg_step s (mgoto i RResume s).

(** [thread_cond_init(&msgQ)], with [n] threads. *)
Definition msg_init (n : nat) : msgq :=
  {| q_m := 0; q_ptr := 0; q_pt := 0; q_threads := replicate n MIdle; q_sent := []; q_received := [] |}.

(** ** Invariant *)

Definition m_holds (p : mpc) : Z :=
  match p with
  | GSpin _ | GStore _ | GSignal _ | GWake _ | GUnlock _ | RTest | RPt | RUnl | RClear _ | RUnlock _ => 1
  | _ => 0
  end.
Definition m_pt (p : mpc) : Z := match p with GWake _ | RUnl | RSet | RTidy => 1 | _ => 0 end.
Definition m_sleepy (p : mpc) : bool := match p with RSet | RAsleep => true | _ => false end.
Definition m_waking (p : mpc) : bool := match p with GSignal _ | GWake _ => true | _ => false end.

Definition m_knows (ptr : Z) (p : mpc) : Prop :=
  match p with
  | GLock p | GSpin p => p <> 0
  | GStore p => p <> 0 /\ ptr = 0
  | RPt | RUnl => ptr = 0
  | RClear p => p = ptr /\ p <> 0
  | _ => True
  end.

(** The slot as a list. *)
Definition slot (ptr : Z) : list Z := if ptr =? 0 then [] else [ptr].

Record msg_ok (s : msgq) : Prop := {
  mq_m : q_m s = sumf m_holds (q_threads s) /\ (q_m s = 0 \/ q_m s = 1);
  mq_pt : q_pt s = sumf m_pt (q_threads s) /\ (q_pt s = 0 \/ q_pt s = 1);
  mq_knows : forall i p, q_threads s !! i = Some p -> m_knows (q_ptr s) p;
  mq_order : q_sent s = q_received s ++ slot (q_ptr s);
  mq_wake : forall i p, q_threads s !! i = Some p -> m_sleepy p = true -> q_ptr s <> 0 ->
    exists j q, q_threads s !! j = Some q /\ m_waking q = true;
}.

Lemma m_holds_range p : 0 <= m_holds p <= 1.
Proof. destruct p; cbn; lia. Qed.
Lemma m_pt_range p : 0 <= m_pt p <= 1.
Proof. destruct p; cbn; lia. Qed.

Lemma m_knows_other ptr ptr' p : m_holds p = 0 -> m_knows ptr p -> m_knows ptr' p.
Proof. by destruct p. Qed.

(** A move of thread [i] from [p], other than a wake-up, given by its result. *)
Record mmove (s : msgq) (p : mpc) (r : mres) : Prop := {
  mm_m : r_m r = q_m s - m_holds p + m_holds (r_pc r) /\ (r_m r = 0 \/ r_m r = 1);
  mm_pt : r_pt r = q_pt s - m_pt p + m_pt (r_pc r) /\ (r_pt r = 0 \/ r_pt r = 1);
  mm_ptr : r_ptr r = q_ptr s \/ m_holds p = 1;
  mm_knows : m_knows (r_ptr r) (r_pc r);
  mm_order : slot (q_ptr s) ++ r_sent r = r_received r ++ slot (r_ptr r);
  mm_wake : m_waking (r_pc r) = true \/ r_ptr r = 0 \/
            (r_ptr r = q_ptr s /\ m_waking p = false /\ (m_sleepy (r_pc r) = true -> m_sleepy p = true));
}.

Lemma msg_ok_move s i p r :
  msg_ok s -> q_threads s !! i = Some p -> (forall v, p <> GWake v) -> mmove s p r -> msg_ok (mstep i p r s).
Proof.
  intros [[Hm Hm1] [Hp Hp1] Hk Ho Hw] Hi Hng [[Mm Mm1] [Mp Mp1] Mptr Mk Mo Mw].
  assert (Eth : q_threads (mstep i p r s) = <[i := r_pc r]> (q_threads s)) by (destruct p; try done; by destruct (Hng p)).
  split; rewrite ?Eth, ?(sumf_insert _ _ _ _ _ Hi); cbn [mstep q_m q_ptr q_pt q_sent q_received]; try lia.
  - intros j q Hj. destruct (insert_Some_inv _ _ _ _ _ Hj) as [[-> ->]|[Hne Hj']]; [done|].
    destruct Mptr as [->|Hh]; [by eapply Hk|]. eapply m_knows_other; [|by eapply Hk].
    pose proof (sumf_two m_holds _ _ _ _ _ (fun _ x _ => proj1 (m_holds_range x)) Hj' Hi Hne). pose proof (m_holds_range q). lia.
  - rewrite Ho, <- !app_assoc. by f_equal.
  - intros j q Hj Hs Hne0.
    assert (Hii : <[i := r_pc r]> (q_threads s) !! i = Some (r_pc r)) by (apply list_lookup_insert_eq; by eapply lookup_lt_Some).
    destruct Mw as [Hq|[?|(Ep & Hpp & Hsl)]]; [by exists i, (r_pc r)|done|]. rewrite Ep in Hne0.
    assert (exists k x, q_threads s !! k = Some x /\ m_waking x = true) as (k & x & Hkx & Hx).
    { destruct (insert_Some_inv _ _ _ _ _ Hj) as [[-> ->]|[_ Hj']]; [eapply (Hw i p); auto|by eapply Hw]. }
    exists k, x. split; [|done]. rewrite list_lookup_insert_ne; [done|]. intros <-. congruence.
Qed.

Lemma sumf_fmap {A B} (f : B -> Z) (g : A -> B) l : sumf f (g <$> l) = sumf (fun x => f (g x)) l.
Proof. induction l as [|x l IH]; cbn; [done|]. by rewrite <- IH. Qed.

(** The wake-up: nobody is asleep afterwards. *)
Lemma msg_ok_wake s i v :
  msg_ok s -> q_threads s !! i = Some (GWake v) -> msg_ok (mstep i (GWake v) (ptunlock s (GUnlock v)) s).
Proof.
  intros [[Hm Hm1] [Hp Hp1] Hk Ho Hw] Hi.
  assert (Hi' : (woken <$> q_threads s) !! i = Some (GWake v)) by (by rewrite list_lookup_fmap, Hi).
  assert (E1 : sumf m_holds (woken <$> q_threads s) = sumf m_holds (q_threads s)).
  { rewrite sumf_fmap. apply Z.le_antisymm; apply sumf_le; intros j [] _; cbn; lia. }
  assert (E2 : sumf m_pt (woken <$> q_threads s) = sumf m_pt (q_threads s)).
  { rewrite sumf_fmap. apply Z.le_antisymm; apply sumf_le; intros j [] _; cbn; lia. }
  pose proof (sumf_ge m_pt _ _ _ (fun _ x _ => proj1 (m_pt_range x)) Hi) as Hge. cbn in Hge.
  split; cbn [mstep ptunlock q_m q_ptr q_pt q_threads q_sent q_received r_m r_ptr r_pt r_pc r_sent r_received];
    rewrite ?(sumf_insert _ _ _ _ _ Hi'), ?E1, ?E2, ?app_nil_r; cbn [m_holds m_pt]; try lia; try done.
  - intros j q Hj. destruct (insert_Some_inv _ _ _ _ _ Hj) as [[-> ->]|[Hne Hj']]; [done|].
    apply list_lookup_fmap_Some in Hj' as (x & -> & Hx). pose proof (Hk _ _ Hx). by destruct x.
  - intros j q Hj Hs Hne0. exfalso. destruct (insert_Some_inv _ _ _ _ _ Hj) as [[-> ->]|[Hne Hj']]; [done|].
    apply list_lookup_fmap_Some in Hj' as (x & -> & Hx). destruct x; try done.
    pose proof (sumf_two m_pt _ _ _ _ _ (fun _ x _ => proj1 (m_pt_range x)) Hx Hi Hne). cbn in *. lia.
Qed.

Lemma slot_full p : p <> 0 -> slot p = [p].
Proof. unfold slot. by destruct (Z.eqb_spec p 0). Qed.

Lemma send_move s i p r :
  msg_ok s -> q_threads s !! i = Some p -> send_next p s = Some r -> (forall v, p <> GWake v) -> mmove s p r.
Proof.
  intros [[Hm Hm1] [Hp Hp1] Hk _ _] Hi E Hng. specialize (Hk _ _ Hi).
  pose proof (sumf_ge m_holds _ _ _ (fun _ x _ => proj1 (m_holds_range x)) Hi) as Hge. rewrite <- Hm in Hge.
  destruct p; cbn in E; try done; try (by destruct (Hng p)); unfold mlock, mstay, munlock, ptlock in E; cbn in Hk, Hge;
    [destruct (Z.eqb_spec (q_m s) 0)|destruct (Z.eqb_spec (q_ptr s) 0)| |destruct (Z.eqb_spec (q_pt s) 0); [|done]|];
    simplify_eq; split; cbn; rewrite ?app_nil_r; try done; try lia; auto.
  - destruct Hk as [Hv ->]. by rewrite (slot_full p).
Qed.

Lemma recv_move s i p r :
  msg_ok s -> q_threads s !! i = Some p -> recv_next p s = Some r -> mmove s p r.
Proof.
  intros [[Hm Hm1] [Hp Hp1] Hk _ _] Hi E. specialize (Hk _ _ Hi).
  pose proof (sumf_ge m_holds _ _ _ (fun _ x _ => proj1 (m_holds_range x)) Hi) as Hge. rewrite <- Hm in Hge.
  pose proof (sumf_ge m_pt _ _ _ (fun _ x _ => proj1 (m_pt_range x)) Hi) as Hge2. rewrite <- Hp in Hge2.
  destruct p; cbn in E; try done; unfold mlock, mstay, munlock, ptlock, ptunlock in E; cbn in Hk, Hge, Hge2;
    try destruct (Z.eqb_spec (q_m s) 0); try destruct (Z.eqb_spec (q_ptr s) 0); try destruct (Z.eqb_spec (q_pt s) 0);
    simplify_eq; split; cbn; rewrite ?app_nil_r; try done; try lia; auto.
  all: try (by right; right; split_and!). all: try (by right; left).
  all: destruct Hk as [-> Hv]; by rewrite (slot_full (q_ptr s)).
Qed.

Lemma msg_ok_step s s' : msg_ok s -> msg_step s s' -> msg_ok s'.
Proof.
  intros Hok Hst. destruct Hst as [s i p Hi Hp|s i Hi|s i pc r Hi E|s i pc r Hi E|s i Hi Hpt];
    pose proof Hok as [[Hm Hm1] [Hp1 Hp2] _ _ _].
  - apply msg_ok_move; [done|done|done|]. split; cbn; rewrite ?app_nil_r; auto; lia.
  - apply msg_ok_move; [done|done|done|]. split; cbn; rewrite ?app_nil_r; auto; lia.
  - destruct pc; try (apply msg_ok_move; [done|done|done|by eapply send_move]).
    cbn in E. simplify_eq. by apply msg_ok_wake.
  - apply msg_ok_move; [done|done|by intros v ->|by eapply recv_move].
  - apply (msg_ok_move s i RAsleep (mstay s RResume)) in Hok; [|done|done|]; [exact Hok|].
    split; cbn; rewrite ?app_nil_r; auto; lia.
Qed.

Lemma msg_reach_ok n s : rtc msg_step (msg_init n) s -> msg_ok s.
Proof.
  intros Hr. assert (H0 : msg_ok (msg_init n)).
  { assert (Hl : forall i p, q_threads (msg_init n) !! i = Some p -> p = MIdle) by (intros i p Hi; by apply lookup_replicate in Hi as [? _]).
    split; cbn [msg_init q_m q_pt q_ptr q_sent q_received]; rewrite ?(sumf_const _ 0 (q_threads (msg_init n)));
      try (intros i p Hi; by rewrite (Hl i p Hi)); [split; [lia|by left]|split; [lia|by left]|done]. }
  revert H0. induction Hr as [|s s' s'' Hst _ IH]; [done|]. intros H0. by eapply IH, msg_ok_step.
Qed.

(** ** Properties *)

(** C29. Whatever the interleaving, what is received is what has been sent, in
    that order, except for the one message that is still in the slot; and a
    receiver that sleeps while there is a message has its wake-up on the way
    (a sender is between its store and [wakeup]). *)
Theorem msgq_fifo n s :
  rtc msg_step (msg_init n) s ->
  q_sent s = q_received s ++ slot (q_ptr s) /\
  (forall i, q_threads s !! i = Some RAsleep -> q_ptr s <> 0 ->
     exists j q, q_threads s !! j = Some q /\ m_waking q = true).
Proof.
  intros Hr. destruct (msg_reach_ok _ _ Hr) as [_ _ _ Ho Hw]. split; [exact Ho|].
  intros i Hi Hne. by eapply Hw.
Qed.

(** A sender that spins on a full slot stays there, whoever moves. *)
Lemma send_full_step s s' i p :
  msg_ok s -> q_threads s !! i = Some (GSpin p) -> q_ptr s <> 0 -> msg_step s s' ->
  q_threads s' !! i = Some (GSpin p) /\ q_ptr s' = q_ptr s /\ q_received s' = q_received s.
Proof.
  intros Hok Hi Hne Hst. pose proof Hok as [[Hm Hm1] _ _ _ _].
  assert (Hx : forall j q, q_threads s !! j = Some q -> m_holds q = 1 -> j = i).
  { intros j q Hj Hq. destruct (decide (j = i)) as [|Hji]; [done|].
    pose proof (sumf_two m_holds _ _ _ _ _ (fun _ x _ => proj1 (m_holds_range x)) Hj Hi Hji). cbn in *. lia. }
  assert (Hg : forall j q r, q_threads s !! j = Some q -> (forall v, q <> GWake v) ->
            r_ptr r = q_ptr s -> r_received r = [] -> (j = i -> r_pc r = GSpin p) ->
            let s' := mstep j q r s in
            q_threads s' !! i = Some (GSpin p) /\ q_ptr s' = q_ptr s /\ q_received s' = q_received s).
  { intros j q r Hj Hng Er Er2 Hpc. cbn. rewrite Er, Er2, app_nil_r. split_and!; [|done|done].
    assert (match q with GWake _ => woken <$> q_threads s | _ => q_threads s end = q_threads s) as -> by (destruct q; try done; by destruct (Hng p0)).
    destruct (decide (j = i)) as [->|Hji]; [|by rewrite list_lookup_insert_ne].
    rewrite Hpc by done. apply list_lookup_insert_eq. by eapply lookup_lt_Some. }
  destruct Hst as [s j v Hj Hv|s j Hj|s j pc r Hj E|s j pc r Hj E|s j Hj Hpt].
  - apply Hg; try done. intros ->. congruence.
  - apply Hg; try done. intros ->. congruence.
  - assert (m_holds pc = 1 -> pc = GSpin p) by (intros H1; rewrite (Hx j pc Hj H1) in Hj; congruence).
    destruct pc; cbn in E; try done; try (specialize (H eq_refl); simplify_eq).
    + unfold mlock in E. destruct (q_m s =? 0); simplify_eq; (apply Hg; try done; intros ->; congruence).
    + destruct (Z.eqb_spec (q_ptr s) 0); [done|]. by apply Hg.
  - assert (m_holds pc = 1 -> pc = GSpin p) by (intros H1; rewrite (Hx j pc Hj H1) in Hj; congruence).
    destruct pc; cbn in E; try done; try (specialize (H eq_refl); discriminate H);
      unfold mlock, ptlock, ptunlock in E; repeat case_match; simplify_eq;
      (apply Hg; try done; intros ->; congruence).
  - pose proof (Hg j RAsleep (mstay s RResume) Hj) as H. apply H; try done. intros ->. congruence.
Qed.

(** [send] waits for an empty slot with the mutex held: once it finds the
    slot full, then whatever the threads do, it spins for ever, the message
    stays in the slot and no [recv] returns. Two messages sent before the
    first is received are enough. *)
Theorem send_full_livelock n s s' i p :
  rtc msg_step (msg_init n) s -> q_threads s !! i = Some (GSpin p) -> q_ptr s <> 0 ->
  rtc msg_step s s' ->
  q_threads s' !! i = Some (GSpin p) /\ q_ptr s' = q_ptr s /\ q_received s' = q_received s.
Proof.
  intros Hr Hi Hne Hst. pose proof (msg_reach_ok _ _ Hr) as Hok. clear Hr.
  revert Hok Hi Hne. induction Hst as [|s s1 s' H1 _ IH]; [done|]. intros Hok Hi Hne.
  destruct (send_full_step _ _ _ _ Hok Hi Hne H1) as (Hi1 & Ep & Er).
  destruct (IH (msg_ok_step _ _ Hok H1) Hi1 ltac:(congruence)) as (? & ? & ?). split_and!; congruence.
Qed.

(** Thread [i] for up to [n] steps. *)
Fixpoint msg_run (i n : nat) (s : msgq) : msgq :=
  match n with
  | O => s
  | S n' =>
      match q_threads s !! i with
      | None => s
      | Some pc =>
          match send_next pc s with
          | Some r => msg_run i n' (mstep i pc r s)
          | None => match recv_next pc s with Some r => msg_run i n' (mstep i pc r s) | None => s end
          end
      end
  end.

Lemma msg_run_rtc i n s : rtc msg_step s (msg_run i n s).
Proof.
  revert s. induction n as [|n IH]; intros s; cbn; [done|].
  destruct (q_threads s !! i) as [pc|] eqn:Hi; [|done].
  destruct (send_next pc s) as [r|] eqn:E; [eapply rtc_l; [by eapply msg_in_send|apply IH]|].
  destruct (recv_next pc s) as [r|] eqn:E'; [|done]. eapply rtc_l; [by eapply msg_in_recv|apply IH].
Qed.

(** The receiver finds the slot empty and sleeps; the sender stores a message
    and wakes it; it takes the message. *)
Lemma msgq_fifo_witness :
  let s1 := msg_run 0 10 (mgoto 0 RLock (msg_init 2)) in
  let s2 := msg_run 1 10 (mgoto 1 (GLock 7) s1) in
  let s3 := msg_run 0 10 s2 in
  q_threads s1 !! 0%nat = Some RAsleep /\ q_received s3 = [7] /\ q_sent s3 = q_received s3 ++ slot (q_ptr s3).
Proof.
  cbn zeta. split; [vm_compute; reflexivity|]. split; [vm_compute; reflexivity|].
  refine (proj1 (msgq_fifo 2 _ _)).
  eapply rtc_l; [apply (msg_recv (msg_init 2) 0%nat); reflexivity|].
  eapply transitivity; [apply (msg_run_rtc 0 10)|].
  eapply rtc_l; [apply (msg_send _ 1%nat 7); [vm_compute; reflexivity|discriminate]|].
  eapply transitivity; [apply (msg_run_rtc 1 10)|]. apply (msg_run_rtc 0 10).
Defined.

(** Two sends, then a receiver that does not get the mutex. *)
Lemma send_full_livelock_witness :
  let s1 := msg_run 0 10 (mgoto 0 (GLock 7) (msg_init 3)) in
  let s2 := msg_run 1 1 (mgoto 1 (GLock 8) s1) in
  let s3 := msg_run 2 10 (mgoto 2 RLock s2) in
  q_ptr s2 = 7 /\ q_received s3 = q_received s2.
Proof.
  cbn zeta. split; [vm_compute; reflexivity|].
  refine (proj2 (proj2 (send_full_livelock 3 _ _ 1%nat 8 _ _ _ _))).
  - eapply rtc_l; [apply (msg_send (msg_init 3) 0%nat 7); [reflexivity|discriminate]|].
    eapply transitivity; [apply (msg_run_rtc 0 10)|].
    eapply rtc_l; [apply (msg_send _ 1%nat 8); [vm_compute; reflexivity|discriminate]|]. apply (msg_run_rtc 1 1).
  - vm_compute. reflexivity.
  - vm_compute. discriminate.
  - eapply rtc_l; [apply (msg_recv _ 2%nat); vm_compute; reflexivity|]. apply (msg_run_rtc 2 10).
Defined.
