(* ===== verification/UserMain.v ===== *)
(** User programs as sequences of system calls: kill.c, ln.c, rm.c, mkdir.c,
    zombie.c, ls.c, init.c, forktest.c and mtop.c of xv6-public/, the mains of
    cat.c, grep.c and wc.c over what their files give, and the
    programs main-cp238p.c, main-lsy238p.c and main-pipe238p.c of
    cs238p_hw1/.

    A program is a tree: it exits, or makes a call and goes on with the answer.
    A world is a function that answers calls; [run] plays a program against a
    world and records the calls. [fork] gives 0 in the child, so the child of a
    program is its continuation for the answer 0 ([forked] collects the children
    of a run). Two library functions are calls: [Print], the bytes that one
    [printf] or [fprintf] writes, and [Stat], which ulib.c builds of three calls
    ([stat_call]).

    Theorems: the copy program copies ([cp_copies]); ls prints a line for every
    used entry ([ls_lists]); init forks a shell, reaps every orphan while it lives
    and starts the next, and its child runs sh ([init_sessions]); forktest passes
    in a system that bounds its processes ([forktest_passes]); the three processes of main-pipe238p.c are
    connected as meant, and no process can keep itself waiting for the end of
    a pipe ([pipe238p_wiring]). *)

From Stdlib Require Import ZArith Lia Ascii.
From stdpp Require Import base strings gmap numbers list.
From S2P Require Import Prelude Print UserProgs.

Open Scope Z_scope.

(** ** Programs and worlds *)

(** The bytes of a literal. *)
Definition bytes (s : string) : list Z := (fun c => Z.of_N (N_of_ascii c)) <$> String.list_ascii_of_string s.
Definition line (s : string) : list Z := bytes s ++ [10].

Inductive oflag := O_RDONLY | O_WRONLY | O_RDWR | O_CREAT | O_TRUNC.

#[export] Instance oflag_eq_dec : EqDecision oflag.
Proof. solve_decision. Defined.

Inductive call :=
  | Open (path : list Z) (flags : list oflag)
  | Read (fd n : Z)
  | Write (fd : Z) (data : list Z)
  | Close (fd : Z)
  | Fstat (fd : Z)
  | Stat (path : list Z)
  | Mkdir (path : list Z)
  | Mknod (path : list Z) (major minor : Z)
  | Link (old new : list Z)
  | Unlink (path : list Z)
  | Dup (fd : Z)
  | Dup2 (fd to : Z)
  | Kill (pid : Z)
  | Fork
  | Wait
  | SleepFor (n : Z)
  | Exec (path : list Z) (argv : list (list Z))
  | Memtop
  | Getmeminfo (pid len : Z)
  | Print (fd : Z) (text : list Z).

Record ustat := { us_type : Z; us_ino : Z; us_size : Z }.

(** What a call returns, the bytes it delivers, what [fstat] fills in. *)
Record ans := { rv : Z; rdata : list Z; rstat : ustat }.
Definition stat0 : ustat := {| us_type := 0; us_ino := 0; us_size := 0 |}.
Definition an (v : Z) : ans := {| rv := v; rdata := []; rstat := stat0 |}.

Inductive prog :=
  | Exit (code : Z)
  | NoFuel
  | Call (c : call) (k : ans -> prog).

(** A call whose answer is not looked at. *)
Definition call_ (c : call) (p : prog) : prog := Call c (fun _ => p).

Section Run.
Context {St : Type} (world : call -> St -> ans * St).

(** The exit code ([None] without fuel), the world after it, the calls. *)
Fixpoint run (p : prog) (s : St) : option Z * St * list call :=
  match p with
  | Exit code => (Some code, s, [])
  | NoFuel => (None, s, [])
  | Call c k =>
      let '(a, s) := world c s in
      let '(code, s, log) := run (k a) s in
      (code, s, c :: log)
  end.

(** The children it forks, each with the world in which it begins. *)
Fixpoint forked (p : prog) (s : St) : list (prog * St) :=
  match p with
  | Exit _ | NoFuel => []
  | Call c k =>
      let '(a, s) := world c s in
      (match c with Fork => if 0 <? rv a then [(k (an 0), s)] else [] | _ => [] end) ++ forked (k a) s
  end.
End Run.

(** ** kill.c, ln.c, rm.c, mkdir.c, zombie.c *)

(** [argv] without the program's name. *)
Fixpoint kill_loop (args : list (list Z)) : prog :=
  match args with [] => Exit 0 | a :: args' => call_ (Kill (atoi a)) (kill_loop args') end.
Definition kill_main (args : list (list Z)) : prog :=
  match args with [] => call_ (Print 2 (line "usage: kill pid...")) (Exit 0) | _ => kill_loop args end.

Definition ln_main (args : list (list Z)) : prog :=
  match args with
  | [old; new] =>
      Call (Link old new) (fun a =>
        if rv a <? 0 then call_ (Print 2 (bytes "link " ++ old ++ bytes " " ++ new ++ line ": failed")) (Exit 0)
        else Exit 0)
  | _ => call_ (Print 2 (line "Usage: ln old new")) (Exit 0)
  end.

Fixpoint rm_loop (args : list (list Z)) : prog :=
  match args with
  | [] => Exit 0
  | a :: args' =>
      Call (Unlink a) (fun r =>
        if rv r <? 0 then call_ (Print 2 (bytes "rm: " ++ a ++ line " failed to delete")) (Exit 0)
        else rm_loop args')
  end.
Definition rm_main (args : list (list Z)) : prog :=
  match args with [] => call_ (Print 2 (line "Usage: rm files...")) (Exit 0) | _ => rm_loop args end.

Fixpoint mkdir_loop (args : list (list Z)) : prog :=
  match args with
  | [] => Exit 0
  | a :: args' =>
      Call (Mkdir a) (fun r =>
        if rv r <? 0 then call_ (Print 2 (bytes "mkdir: " ++ a ++ line " failed to create")) (Exit 0)
        else mkdir_loop args')
  end.
Definition mkdir_main (args : list (list Z)) : prog :=
  match args with [] => call_ (Print 2 (line "Usage: mkdir files...")) (Exit 0) | _ => mkdir_loop args end.

Definition zombie_main : prog :=
  Call Fork (fun r => if 0 <? rv r then call_ (SleepFor 5) (Exit 0) else Exit 0).

(** ** ls.c *)

Definition T_DIR : Z := 1.
Definition T_FILE : Z := 2.

(** ["%s %d %d %d\n"] *)
Definition ls_line (name : list Z) (st : ustat) : list Z :=
  name ++ [32] ++ uprintint (us_type st) 10 true ++ [32] ++ uprintint (us_ino st) 10 true ++ [32]
       ++ uprintint (us_size st) 10 true ++ [10].

(** [de.inum] and the string in [de.name]. *)
Definition dirent_inum (de : list Z) : Z := default 0 (de !! 0%nat) + 256 * default 0 (de !! 1%nat).
Definition dirent_name (de : list Z) : list Z := until_nul (take 14 (drop 2 de)).

(** The loop over the entries of a directory, then [close(fd)]. *)
Fixpoint ls_entries (fuel : nat) (fd : Z) (path : list Z) (k : prog) : prog :=
  Call (Read fd 16) (fun a =>
    if rv a =? 16 then
      match fuel with
      | O => NoFuel
      | S f =>
          if dirent_inum (rdata a) =? 0 then ls_entries f fd path k
          else
            let buf := path ++ 47 :: dirent_name (rdata a) in
            Call (Stat buf) (fun b =>
              if rv b <? 0 then call_ (Print 1 (bytes "ls: cannot stat " ++ buf ++ [10])) (ls_entries f fd path k)
              else call_ (Print 1 (ls_line (fmtname buf) (rstat b))) (ls_entries f fd path k))
      end
    else call_ (Close fd) k).

Definition ls (fuel : nat) (path : list Z) (k : prog) : prog :=
  Call (Open path [O_RDONLY]) (fun a =>
    let fd := rv a in
    if fd <? 0 then call_ (Print 2 (bytes "ls: cannot open " ++ path ++ [10])) k
    else
      Call (Fstat fd) (fun b =>
        if rv b <? 0 then call_ (Print 2 (bytes "ls: cannot stat " ++ path ++ [10])) (call_ (Close fd) k)
        else if us_type (rstat b) =? T_FILE then call_ (Print 1 (ls_line (fmtname path) (rstat b))) (call_ (Close fd) k)
        else if us_type (rstat b) =? T_DIR then
          if 512 <? Z.of_nat (length path) + 1 + 14 + 1 then call_ (Print 1 (line "ls: path too long")) (call_ (Close fd) k)
          else ls_entries fuel fd path k
        else call_ (Close fd) k)).

Fixpoint ls_args (fuel : nat) (args : list (list Z)) : prog :=
  match args with [] => Exit 0 | a :: args' => ls fuel a (ls_args fuel args') end.
Definition ls_main (fuel : nat) (args : list (list Z)) : prog :=
  match args with [] => ls fuel (bytes ".") (Exit 0) | _ => ls_args fuel args end.

(** ** init.c *)

(** [while((wpid=wait()) >= 0 && wpid != pid)] *)
Fixpoint init_wait (fuel : nat) (pid : Z) (k : prog) : prog :=
  Call Wait (fun a =>
    if (0 <=? rv a) && negb (rv a =? pid) then
      match fuel with O => NoFuel | S f => call_ (Print 1 (line "zombie!")) (init_wait f pid k) end
    else k).

(** The [for(;;)] loop; [waits] bounds the processes reaped in one round. *)
Fixpoint init_loop (fuel waits : nat) : prog :=
  match fuel with
  | O => NoFuel
  | S f =>
      call_ (Print 1 (line "init: starting sh"))
        (Call Fork (fun a =>
           if rv a <? 0 then call_ (Print 1 (line "init: fork failed")) (Exit 0)
           else if rv a =? 0 then
             call_ (Exec (bytes "sh") [bytes "sh"]) (call_ (Print 1 (line "init: exec sh failed")) (Exit 0))
           else init_wait waits (rv a) (init_loop f waits)))
  end.

Definition init_main (fuel waits : nat) : prog :=
  let start := call_ (Dup 0) (call_ (Dup 0) (init_loop fuel waits)) in
  Call (Open (bytes "console") [O_RDWR]) (fun a =>
    if rv a <? 0 then call_ (Mknod (bytes "console") 1 1) (call_ (Open (bytes "console") [O_RDWR]) start)
    else start).

(** ** forktest.c *)

(** [for(n=0; n<N; n++)]: [left] rounds are left; [k] goes on with [n]. *)
Fixpoint fork_loop (left n : nat) (k : nat -> prog) : prog :=
  match left with
  | O => k n
  | S left' =>
      Call Fork (fun a => if rv a <? 0 then k n else if rv a =? 0 then Exit 0 else fork_loop left' (S n) k)
  end.
(** [for(; n > 0; n--)] *)
Fixpoint wait_loop (n : nat) (k : prog) : prog :=
  match n with
  | O => k
  | S n' => Call Wait (fun a => if rv a <? 0 then call_ (Print 1 (line "wait stopped early")) (Exit 0) else wait_loop n' k)
  end.
(** What follows the first loop. [printf] of forktest.c writes its format as
    it is. *)
Definition forktest_check (N n : nat) : prog :=
  if (n =? N)%nat then call_ (Print 1 (line "fork claimed to work N times!")) (Exit 0)
  else wait_loop n
         (Call Wait (fun a =>
            if negb (rv a =? -1) then call_ (Print 1 (line "wait got too many")) (Exit 0)
            else call_ (Print 1 (line "fork test OK")) (Exit 0))).
Definition forktest (N : nat) : prog :=
  call_ (Print 1 (line "fork test")) (fork_loop N 0 (forktest_check N)).

(** ** mtop.c *)

(** [for (i = 1; i <= pid; i++)]; the name is the string in the answer. *)
Fixpoint mtop_loop (left : nat) (i : Z) (k : prog) : prog :=
  match left with
  | O => k
  | S left' =>
      Call (Getmeminfo i 16) (fun a =>
        if 0 <? rv a then
          call_ (Print 1 (bytes "pid: " ++ uprintint i 10 true ++ bytes ", name: " ++ until_nul (rdata a)
                          ++ bytes ", mem: " ++ uprintint (rv a) 10 true ++ line " "))
                (mtop_loop left' (i + 1) k)
        else mtop_loop left' (i + 1) k)
  end.
Definition mtop_main : prog :=
  Call Memtop (fun m =>
    call_ (Print 1 (bytes "available memory: " ++ uprintint (rv m) 10 true ++ line " "))
      (Call Fork (fun a =>
         if rv a =? 0 then Exit 0
         else call_ Wait (mtop_loop (Z.to_nat (rv a)) 1 (Exit 0))))).

(** ** main-cp238p.c *)

Definition FILE_SIZE : Z := 50.

(** The [while (1)] loop and what follows it. *)
Fixpoint cp_loop (fuel : nat) (src dst : Z) : prog :=
  Call (Read src FILE_SIZE) (fun a =>
    if rv a <? 1 then call_ (Close src) (call_ (Close dst) (Exit 0))
    else
      match fuel with
      | O => NoFuel
      | S f =>
          Call (Write dst (take (Z.to_nat (rv a)) (rdata a))) (fun b =>
            if rv b <? 0 then call_ (Print 2 (line "Error in writing copied file")) (Exit 1)
            else cp_loop f src dst)
      end).

Definition cp_main (fuel : nat) (args : list (list Z)) : prog :=
  match args with
  | [src; dest] =>
      Call (Open src [O_RDONLY]) (fun a =>
        if rv a =? -1 then call_ (Print 2 (line "Error while opening source file")) (Exit 1)
        else
          Call (Open dest [O_RDWR; O_CREAT; O_TRUNC]) (fun b =>
            if rv b =? -1 then call_ (Print 2 (line "Error while opening target file")) (Exit 1)
            else cp_loop fuel (rv a) (rv b)))
  | _ => Exit 1
  end.

(** ** main-lsy238p.c *)

Definition lsy_main : prog :=
  Call (Open (bytes "y") [O_CREAT; O_RDWR; O_TRUNC]) (fun a =>
    if rv a =? -1 then call_ (Print 2 (line "Error while opening file y")) (Exit 1)
    else call_ (Dup2 (rv a) 1) (call_ (Exec (bytes "/bin/ls") [bytes "ls"]) (Exit 0))).

(** ** main-pipe238p.c *)

(** What a descriptor refers to. *)
Inductive fdref := Old (n : nat) | PipeR (k : nat) | PipeW (k : nat).

#[export] Instance fdref_eq_dec : EqDecision fdref.
Proof. solve_decision. Defined.

(** A descriptor table; what is beyond the list is closed. *)
Definition fdtab : Type := list (option fdref).

Fixpoint fd_alloc (t : fdtab) (x : fdref) : nat * fdtab :=
  match t with
  | [] => (O, [Some x])
  | None :: t' => (O, Some x :: t')
  | Some y :: t' => let '(n, t'') := fd_alloc t' x in (S n, Some y :: t'')
  end.
Definition fd_close (n : nat) (t : fdtab) : fdtab := <[n := None]> t.
Definition fd_dup2 (from to : nat) (t : fdtab) : fdtab := <[to := t !! from ≫= id]> t.
(** [pipe(fds)], the [k]th pipe made: its two ends and the table. *)
Definition fd_pipe (k : nat) (t : fdtab) : nat * nat * fdtab :=
  let '(r, t) := fd_alloc t (PipeR k) in
  let '(w, t) := fd_alloc t (PipeW k) in
  (r, w, t).

(** A process at its [execv]. *)
Record launched := { l_path : string; l_argv : list string; l_fds : fdtab }.

(** The processes that [main] becomes. [fork1] and [fork2] tell whether the
    two forks succeed: a failed one leaves the branch of the parent alone. *)
Definition pipe238p (fork1 fork2 : bool) (t : fdtab) : list launched :=
  let '(r2, w2, t) := fd_pipe 2 t in
  let child :=
    let '(r1, w1, t) := fd_pipe 1 t in
    let ls := {| l_path := "/bin/ls"; l_argv := ["ls"]; l_fds := fd_close r1 (fd_dup2 w1 1 t) |} in
    let grep := {| l_path := "/bin/grep"; l_argv := ["grep"; "main"];
                   l_fds := fd_dup2 w2 1 (fd_close w1 (fd_dup2 r1 0 t)) |} in
    (if fork2 then [ls] else []) ++ [grep] in
  let wc := {| l_path := "/usr/bin/wc"; l_argv := ["wc"]; l_fds := fd_close w2 (fd_dup2 r2 0 t) |} in
  (if fork1 then child else []) ++ [wc].

(** ** Copying *)

(** A file being copied: the bytes not read yet, the bytes written. The [i]th
    read delivers up to [rd i] bytes and the [i]th write takes up to [wr i]. *)
Record copyst := { cp_rest : list Z; cp_out : list Z; cp_reads : nat; cp_writes : nat }.

Section CopyWorld.
Variables (rd wr : nat -> nat).

Definition copy_world (c : call) (s : copyst) : ans * copyst :=
  match c with
  | Open _ fl => (an (if bool_decide (O_TRUNC ∈ fl) then 4 else 3), s)
  | Read _ n =>
      let x := take (Nat.min (rd (cp_reads s)) (Z.to_nat n)) (cp_rest s) in
      ({| rv := Z.of_nat (length x); rdata := x; rstat := stat0 |},
       {| cp_rest := drop (length x) (cp_rest s); cp_out := cp_out s; cp_reads := S (cp_reads s); cp_writes := cp_writes s |})
  | Write _ d =>
      let x := take (wr (cp_writes s)) d in
      (an (Z.of_nat (length x)),
       {| cp_rest := cp_rest s; cp_out := cp_out s ++ x; cp_reads := cp_reads s; cp_writes := S (cp_writes s) |})
  | _ => (an 0, s)
  end.
End CopyWorld.

Definition copy_init (src : list Z) : copyst := {| cp_rest := src; cp_out := []; cp_reads := 0; cp_writes := 0 |}.

Lemma cp_loop_runs rd wr fuel s :
  (forall i, (0 < rd i)%nat) -> (length (cp_rest s) <= fuel)%nat ->
  exists s' log, run (copy_world rd wr) (cp_loop fuel 3 4) s = (Some 0, s', log) /\
    cp_rest s' = [] /\ ((forall i, (50 <= wr i)%nat) -> cp_out s' = cp_out s ++ cp_rest s).
Proof.
  intros Hrd. revert s. induction fuel as [|f IH]; intros [rest out nr nw] Hl; cbn in Hl |- *.
  - destruct rest; [|cbn in Hl; lia]. rewrite take_nil. cbn. do 2 eexists. split; [reflexivity|]. cbn.
    split; [done|]. by rewrite app_nil_r.
  - destruct rest as [|x rest].
    + rewrite take_nil. cbn. do 2 eexists. split; [reflexivity|]. cbn. split; [done|]. by rewrite app_nil_r.
    + set (n := Nat.min (rd nr) (Z.to_nat FILE_SIZE)).
      assert (0 < n <= 50)%nat by (pose proof (Hrd nr); unfold n, FILE_SIZE; lia).
      set (y := take n (x :: rest)). assert (Hy : (0 < length y <= 50)%nat) by (unfold y; rewrite length_take; cbn [length]; lia).
      destruct (Z.ltb_spec (Z.of_nat (length y)) 1); [lia|]. cbn -[line]. rewrite Nat2Z.id, (take_ge y (length y)) by lia.
      destruct (Z.ltb_spec (Z.of_nat (length (take (wr nw) y))) 0); [lia|].
      edestruct (IH {| cp_rest := drop (length y) (x :: rest); cp_out := out ++ take (wr nw) y; cp_reads := S nr; cp_writes := S nw |})
        as (s' & log & E & Hr & Ho); [cbn [cp_rest]; rewrite length_drop; cbn [length] in Hl |- *; lia|].
      rewrite E. do 2 eexists. split; [reflexivity|]. split; [done|]. intros Hwr. rewrite Ho by done. cbn [cp_out cp_rest].
      rewrite (take_ge y) by (pose proof (Hwr nw); lia).
      assert (y = take (length y) (x :: rest)) as Ey by (unfold y; rewrite length_take, <- take_take; by rewrite (take_ge (x :: rest) (length (x :: rest)))).
      rewrite <- app_assoc. f_equal. rewrite Ey at 1. by rewrite take_drop.
Qed.

(** main-cp238p.c: however the system cuts the reads, as long as each
    delivers a byte while there is one, the program ends with success after
    reading the whole file; and if the writes take all they are given, the
    target is the source. *)
Theorem cp_copies rd wr fuel a b src :
  (forall i, (0 < rd i)%nat) -> (length src <= fuel)%nat ->
  exists s' log, run (copy_world rd wr) (cp_main fuel [a; b]) (copy_init src) = (Some 0, s', log) /\
    cp_rest s' = [] /\ ((forall i, (50 <= wr i)%nat) -> cp_out s' = src).
Proof.
  intros Hrd Hl. destruct (cp_loop_runs rd wr fuel (copy_init src) Hrd Hl) as (s' & log & E & Hr & Ho).
  exists s'. eexists. split.
  - change (run (copy_world rd wr) (cp_main fuel [a; b]) (copy_init src)) with
      (let '(code, s, log) :=
         let '(code, s, log) := run (copy_world rd wr) (cp_loop fuel 3 4) (copy_init src) in
         (code, s, Open b [O_RDWR; O_CREAT; O_TRUNC] :: log) in
       (code, s, Open a [O_RDONLY] :: log)).
    rewrite E. reflexivity.
  - split; [exact Hr|exact Ho].
Qed.

(** A [write] that takes a byte less than it is given, as a full disk or a
    pipe may: the target misses a byte and the program reports success. *)
Lemma cp_short_write :
  let '(code, s, _) := run (copy_world (fun _ => 50%nat) (fun _ => 2%nat)) (cp_main 9 [[1]; [2]]) (copy_init [10; 20; 30]) in
  code = Some 0 /\ cp_out s = [10; 20].
Proof. vm_compute. done. Qed.

Lemma cp_copies_witness :
  exists s' log, run (copy_world (fun i => S i) (fun _ => 50%nat)) (cp_main 9 [[1]; [2]]) (copy_init [10; 20; 30]) = (Some 0, s', log) /\
    cp_out s' = [10; 20; 30].
Proof.
  destruct (cp_copies (fun i => S i) (fun _ => 50%nat) 9 [1] [2] [10; 20; 30]) as (s' & log & E & _ & H);
    [intros; lia|cbn; lia|]. exists s', log. split; [exact E|]. apply H. intros; lia.
Defined.

(** ** forktest *)

(** A system with room for [max] children. *)
Record kids := { k_live : nat; k_out : list Z }.

Definition kids_world (max : nat) (c : call) (s : kids) : ans * kids :=
  match c with
  | Fork =>
      if (k_live s <? max)%nat then (an (Z.of_nat (S (k_live s))), {| k_live := S (k_live s); k_out := k_out s |})
      else (an (-1), s)
  | Wait =>
      match k_live s with
      | O => (an (-1), s)
      | S n => (an (Z.of_nat (S n)), {| k_live := n; k_out := k_out s |})
      end
  | Print _ t => (an 0, {| k_live := k_live s; k_out := k_out s ++ t |})
  | _ => (an 0, s)
  end.

Lemma fork_loop_runs max left n out k :
  (n <= max)%nat ->
  let m := Nat.min max (n + left) in
  exists log, forall code s log',
    run (kids_world max) (k m) {| k_live := m; k_out := out |} = (code, s, log') ->
    run (kids_world max) (fork_loop left n k) {| k_live := n; k_out := out |} = (code, s, log ++ log').
Proof.
  revert n. induction left as [|left IH]; intros n Hn m.
  - exists []. intros code s log'. unfold m. replace (Nat.min max (n + 0)) with n by lia. done.
  - cbn [fork_loop run kids_world k_live]. destruct (Nat.ltb_spec n max) as [Hlt|Hge].
    + destruct (IH (S n) ltac:(lia)) as [log Hlog]. exists (Fork :: log). intros code s log' E.
      change (rv (an (Z.of_nat (S n)))) with (Z.of_nat (S n)).
      destruct (Z.ltb_spec (Z.of_nat (S n)) 0); [lia|]. destruct (Z.eqb_spec (Z.of_nat (S n)) 0); [lia|].
      cbn [k_out]. rewrite (Hlog code s log'); [done|]. unfold m in E. by rewrite Nat.add_succ_r in E.
    + exists [Fork]. intros code s log' E. change (rv (an (-1)) <? 0) with true. cbn iota.
      unfold m in E. replace (Nat.min max (n + S left)) with n in E by lia. by rewrite E.
Qed.

Lemma wait_loop_runs max n out k code s log' :
  run (kids_world max) k {| k_live := 0; k_out := out |} = (code, s, log') ->
  exists log, run (kids_world max) (wait_loop n k) {| k_live := n; k_out := out |} = (code, s, log).
Proof.
  intros E. induction n as [|n [log IH]]; [by exists log'|]. cbn [wait_loop run kids_world k_live k_out].
  change (rv (an (Z.of_nat (S n)))) with (Z.of_nat (S n)). destruct (Z.ltb_spec (Z.of_nat (S n)) 0); [lia|].
  rewrite IH. by eexists.
Qed.

(** forktest.c in a system with room for [max] more processes: with
    [max] below its 1000 rounds it forks until [fork] fails, waits for every
    child, finds no further one, and reports success with no child left;
    otherwise it reports the failure. *)
Theorem forktest_passes max N :
  exists s log, run (kids_world max) (forktest N) {| k_live := 0; k_out := [] |} = (Some 0, s, log) /\
    if (max <? N)%nat then k_out s = line "fork test" ++ line "fork test OK" /\ k_live s = O
    else k_out s = line "fork test" ++ line "fork claimed to work N times!".
Proof.
  unfold forktest. cbn [call_ run kids_world k_live k_out].
  destruct (fork_loop_runs max N 0 ([] ++ line "fork test") (forktest_check N) ltac:(lia)) as [log Hlog]. cbn [Nat.add] in Hlog.
  destruct (Nat.ltb_spec max N) as [Hlt|Hge].
  - rewrite (Nat.min_l max N) in Hlog by lia. unfold forktest_check in Hlog at 1. destruct (Nat.eqb_spec max N); [lia|].
    edestruct (wait_loop_runs max max ([] ++ line "fork test")) as [log2 H2];
      [|rewrite (Hlog _ _ _ H2); do 2 eexists; split; [reflexivity|]].
    { cbn [run kids_world k_live]. change (negb (rv (an (-1)) =? -1)) with false. cbn iota. reflexivity. }
    by cbn [k_out k_live].
  - rewrite (Nat.min_r max N) in Hlog by lia. unfold forktest_check in Hlog at 1. rewrite Nat.eqb_refl in Hlog.
    rewrite (Hlog _ _ _ eq_refl). do 2 eexists. split; [reflexivity|]. by cbn [k_out].
Qed.


(** ** init *)

(** Whether the console's device file is there, the open descriptors, and the
    results of the coming forks and waits; -1 after the last. *)
Record initst := { in_con : bool; in_fds : list (list Z); in_forks : list Z; in_waits : list Z }.

(** [open] and [dup] give the next descriptor; [exec] returns only when it fails. *)
Definition init_world (c : call) (s : initst) : ans * initst :=
  let fds l := {| in_con := in_con s; in_fds := l; in_forks := in_forks s; in_waits := in_waits s |} in
  match c with
  | Open path _ =>
      if in_con s then (an (Z.of_nat (length (in_fds s))), fds (in_fds s ++ [path])) else (an (-1), s)
  | Dup fd =>
      match in_fds s !! Z.to_nat fd with
      | Some f => (an (Z.of_nat (length (in_fds s))), fds (in_fds s ++ [f]))
      | None => (an (-1), s)
      end
  | Mknod _ _ _ => (an 0, {| in_con := true; in_fds := in_fds s; in_forks := in_forks s; in_waits := in_waits s |})
  | Fork => (an (default (-1) (head (in_forks s))),
             {| in_con := in_con s; in_fds := in_fds s; in_forks := tail (in_forks s); in_waits := in_waits s |})
  | Wait => (an (default (-1) (head (in_waits s))),
             {| in_con := in_con s; in_fds := in_fds s; in_forks := in_forks s; in_waits := tail (in_waits s) |})
  | Exec _ _ => (an (-1), s)
  | _ => (an 0, s)
  end.

(** A round: the shell's process and the orphans that end before it. *)
Definition session : Type := Z * list Z.
Definition session_ok (waits : nat) (x : session) : Prop :=
  0 < x.1 /\ Forall (fun z => 0 <= z /\ z <> x.1) x.2 /\ (length x.2 <= waits)%nat.
Definition session_log (x : session) : list call :=
  [Print 1 (line "init: starting sh"); Fork] ++ mjoin ((fun _ => [Wait; Print 1 (line "zombie!")]) <$> x.2) ++ [Wait].

(** The child of a round. *)
Definition shell_child : prog :=
  call_ (Exec (bytes "sh") [bytes "sh"]) (call_ (Print 1 (line "init: exec sh failed")) (Exit 0)).

Lemma mjoin_cons {A} (x : list A) l : mjoin (x :: l) = x ++ mjoin l.
Proof. done. Qed.

Definition in_round (fds : list (list Z)) (fs ws : list Z) : initst :=
  {| in_con := true; in_fds := fds; in_forks := fs; in_waits := ws |}.

Lemma init_wait_runs fds fuel pid zs k fs ws :
  Forall (fun z => 0 <= z /\ z <> pid) zs -> (length zs <= fuel)%nat ->
  run init_world (init_wait fuel pid k) (in_round fds fs (zs ++ pid :: ws)) =
    (let '(code, s, log) := run init_world k (in_round fds fs ws) in
     (code, s, mjoin ((fun _ => [Wait; Print 1 (line "zombie!")]) <$> zs) ++ Wait :: log)) /\
  forked init_world (init_wait fuel pid k) (in_round fds fs (zs ++ pid :: ws)) = forked init_world k (in_round fds fs ws).
Proof.
  unfold in_round. revert fuel. induction zs as [|z zs IH]; intros fuel Hz Hl.
  - destruct fuel; cbn [init_wait run forked init_world in_waits app head tail]; cbn [rv an default from_option id];
      rewrite Z.eqb_refl, andb_false_r; (split; [by destruct (run _ k _) as [[code s] log]|done]).
  - destruct fuel as [|fuel]; [cbn in Hl; lia|]. apply Forall_cons in Hz as [[H1 H2] Hz].
    cbn [init_wait run forked init_world in_con in_fds in_waits in_forks app head tail]. cbn [rv an default from_option id].
    destruct (Z.leb_spec 0 z); [|lia]. destruct (Z.eqb_spec z pid); [done|]. cbn [negb andb call_ run forked init_world].
    destruct (IH fuel Hz ltac:(cbn in Hl; lia)) as [-> ->]. split; [by destruct (run _ k _) as [[code s] log]|done].
Qed.

(** The loop, from a state in which the console is open as [fds] says. *)
Lemma init_loop_runs fds waits ss :
  Forall (session_ok waits) ss ->
  let s0 := in_round fds (fst <$> ss) (mjoin ((fun x => x.2 ++ [x.1]) <$> ss)) in
  (exists s, run init_world (init_loop (S (length ss)) waits) s0 =
     (Some 0, s, mjoin (session_log <$> ss) ++
        [Print 1 (line "init: starting sh"); Fork; Print 1 (line "init: fork failed")])) /\
  length (forked init_world (init_loop (S (length ss)) waits) s0) = length ss /\
  Forall (fun c => c.1 = shell_child /\ in_fds c.2 = fds) (forked init_world (init_loop (S (length ss)) waits) s0).
Proof.
  cbv zeta. induction 1 as [|[p zs] ss (Hp & Hz & Hl) _ [[s IH] [IH1 IH2]]]; [split; [by eexists|by split]|]. cbn [fst snd] in *.
  cbn [fmap list_fmap length]. rewrite !mjoin_cons. remember (S (length ss)) as n eqn:En. unfold in_round.
  cbn [init_loop call_ run forked init_world in_con in_fds in_forks in_waits head tail fst snd]. cbn [rv an default from_option id].
  destruct (Z.ltb_spec p 0); [lia|]. destruct (Z.eqb_spec p 0); [lia|]. destruct (Z.ltb_spec 0 p); [|lia].
  change (0 <? 0) with false. change (0 =? 0) with true. cbn iota.
  rewrite <- app_assoc. cbn [app].
  destruct (init_wait_runs fds waits p zs (init_loop n waits) (fst <$> ss) (mjoin ((fun x => x.2 ++ [x.1]) <$> ss)) Hz Hl) as [R1 R2].
  unfold in_round in *. rewrite R1, R2, IH. split; [|split].
  - exists s. unfold session_log. cbn [fst snd]. by rewrite <- !app_assoc.
  - cbn [length app]. by rewrite IH1.
  - cbn [app]. by constructor.
Qed.

(** What comes before the loop. *)
Lemma init_opens con fuel waits fs ws :
  let s0 := {| in_con := con; in_fds := []; in_forks := fs; in_waits := ws |} in
  let s1 := in_round (replicate 3 (bytes "console")) fs ws in
  run init_world (init_main fuel waits) s0 =
    (let '(code, s, log) := run init_world (init_loop fuel waits) s1 in
     (code, s, Open (bytes "console") [O_RDWR] ::
       (if con then [] else [Mknod (bytes "console") 1 1; Open (bytes "console") [O_RDWR]]) ++ [Dup 0; Dup 0] ++ log)) /\
  forked init_world (init_main fuel waits) s0 = forked init_world (init_loop fuel waits) s1.
Proof.
  unfold init_main, in_round. generalize (init_loop fuel waits). intros k. generalize (bytes "console"). intros path.
  destruct con; (split; [|reflexivity]); cbn; change (Z.of_nat 0 <? 0) with false; cbn;
    change (Z.to_nat 0) with O; cbn; by destruct (run _ k _) as [[code s] log].
Qed.

(** C37. init.c opens the console on descriptors 0, 1 and 2, creating it if it is
    not there; then it forks a shell, prints a line for every orphan that it
    reaps while the shell lives, and when the shell itself ends forks the next
    one; it ends only when [fork] fails. It forks one child a round, and each
    child, which has the console on its three descriptors, calls
    [exec] of sh first of all; if that fails, and so returns, in whatever
    world, the child says so and exits. *)
Theorem init_sessions con waits ss :
  Forall (session_ok waits) ss ->
  let p := init_main (S (length ss)) waits in
  let s0 := {| in_con := con; in_fds := []; in_forks := fst <$> ss; in_waits := mjoin ((fun x => x.2 ++ [x.1]) <$> ss) |} in
  (exists s, run init_world p s0 =
    (Some 0, s,
     Open (bytes "console") [O_RDWR] ::
     (if con then [] else [Mknod (bytes "console") 1 1; Open (bytes "console") [O_RDWR]]) ++
     [Dup 0; Dup 0] ++ mjoin (session_log <$> ss) ++
     [Print 1 (line "init: starting sh"); Fork; Print 1 (line "init: fork failed")])) /\
  length (forked init_world p s0) = length ss /\
  Forall (fun c => in_fds c.2 = replicate 3 (bytes "console") /\
    forall (W : Type) (world : call -> W -> ans * W) (w : W), exists w',
      run world c.1 w = (Some 0, w', [Exec (bytes "sh") [bytes "sh"]; Print 1 (line "init: exec sh failed")]))
    (forked init_world p s0).
Proof.
  intros Hs p s0. destruct (init_loop_runs (replicate 3 (bytes "console")) waits ss Hs) as ([s E] & Hn & Hc).
  destruct (init_opens con (S (length ss)) waits (fst <$> ss) (mjoin ((fun x => x.2 ++ [x.1]) <$> ss))) as [R1 R2].
  unfold p, s0. rewrite R1, R2, E. split; [by exists s|]. split; [exact Hn|].
  eapply Forall_impl; [exact Hc|]. intros [c sc] [H1 H2]. cbn [fst snd] in *.
  split; [exact H2|]. intros W world w. rewrite H1. cbn. destruct (world _ w) as [a1 w1]. destruct (world _ w1) as [a2 w2].
  by eexists.
Qed.

Lemma init_sessions_witness :
  exists s log, run init_world (init_main 3 5) {| in_con := true; in_fds := []; in_forks := [4; 9]; in_waits := [7; 4; 9] |} =
    (Some 0, s, log) /\ length log = 14%nat.
Proof.
  destruct (init_sessions true 5 [(4, [7]); (9, [])]) as ([s E] & _); [repeat constructor; cbn; lia|].
  exists s. eexists. split; [exact E|reflexivity].
Defined.

(** ** main-pipe238p.c *)

(** The process can write into pipe [k]. *)
Definition can_write (k : nat) (p : launched) : bool := bool_decide (Some (PipeW k) ∈ l_fds p).
Definition standard (p : launched) : option fdref * option fdref := (l_fds p !! 0%nat ≫= id, l_fds p !! 1%nat ≫= id).

(** Started with three descriptors open, main-pipe238p.c becomes
    ls | grep main | wc: each pipe goes from the output of one process to the
    input of the next; a reader holds no write end of its own pipe or of a
    later one, so the ends of the writers reach it; and when a fork fails the
    processes that are left still see the end of their input. *)
Theorem pipe238p_wiring f1 f2 :
  let ps := pipe238p f1 f2 [Some (Old 0); Some (Old 1); Some (Old 2)] in
  (f1 = true -> f2 = true ->
   (fun p => (l_path p, standard p)) <$> ps =
     [("/bin/ls"%string, (Some (Old 0), Some (PipeW 1)));
      ("/bin/grep"%string, (Some (PipeR 1), Some (PipeW 2)));
      ("/usr/bin/wc"%string, (Some (PipeR 2), Some (Old 1)))]) /\
  Forall (fun p => forall k, standard p = (Some (PipeR k), (standard p).2) -> can_write k p = false) ps /\
  (forall k p, p ∈ ps -> can_write k p = true -> l_path p = "/bin/ls"%string \/ (k = 2%nat /\ l_path p = "/bin/grep"%string)).
Proof.
  split_and!.
  - by intros -> ->.
  - destruct f1, f2; cbn [pipe238p app]; repeat (apply Forall_cons; split); try apply Forall_nil_2; intros k E; apply (f_equal fst) in E; vm_compute in E;
      first [discriminate E|injection E as <-; reflexivity].
  - intros k p Hp Hw. apply bool_decide_eq_true in Hw.
    destruct f1, f2; cbn in Hp; repeat (apply elem_of_cons in Hp as [->|Hp]); try (by apply elem_of_nil in Hp); cbn in Hw |- *;
      repeat (apply elem_of_cons in Hw as [Hw|Hw]; [try discriminate Hw; injection Hw as <-; auto|]); by apply elem_of_nil in Hw.
Qed.

(** ** ls *)

(** The entries of the directory that is open, and what has been printed on
    descriptor 1. *)
Record lsst := { ls_rest : list (list Z); ls_out : list Z }.

Section LsWorld.
(** [stat] of a path: [None] if it fails. *)
Variable stats : list Z -> option ustat.

Definition ls_world (c : call) (s : lsst) : ans * lsst :=
  match c with
  | Open _ _ => (an 3, s)
  | Fstat _ => ({| rv := 0; rdata := []; rstat := {| us_type := T_DIR; us_ino := 1; us_size := 0 |} |}, s)
  | Stat p => (match stats p with Some st => {| rv := 0; rdata := []; rstat := st |} | None => an (-1) end, s)
  | Read _ n =>
      match ls_rest s with
      | [] => (an 0, s)
      | de :: rest => ({| rv := Z.of_nat (length de); rdata := de; rstat := stat0 |}, {| ls_rest := rest; ls_out := ls_out s |})
      end
  | Print fd t => (an 0, {| ls_rest := ls_rest s; ls_out := if fd =? 1 then ls_out s ++ t else ls_out s |})
  | _ => (an 0, s)
  end.

(** What a used entry should give: its name, padded, and its [stat]. *)
Definition entry_line (path de : list Z) : list Z :=
  let name := dirent_name de in
  match stats (path ++ 47 :: name) with
  | Some st => ls_line (name ++ replicate (14 - length name) 32) st
  | None => bytes "ls: cannot stat " ++ (path ++ 47 :: name) ++ [10]
  end.

Definition de_used (de : list Z) : Prop := dirent_inum de <> 0.
#[local] Instance de_used_dec de : Decision (de_used de).
Proof. unfold de_used. apply _. Defined.

Lemma ls_entries_runs fuel path des out k :
  Forall (fun de => length de = 16%nat /\ 47 ∉ dirent_name de) des -> (length des <= fuel)%nat ->
  exists log, last log = Some (Close 3) /\ forall code s log',
    run ls_world k {| ls_rest := []; ls_out := out ++ mjoin (entry_line path <$> filter de_used des) |} = (code, s, log') ->
    run ls_world (ls_entries fuel 3 path k) {| ls_rest := des; ls_out := out |} = (code, s, log ++ log').
Proof.
  intros Hd. revert fuel out. induction Hd as [|de des [Hl Hn] Hd IH]; intros fuel out Hf.
  - exists [Read 3 16; Close 3]. split; [done|]. intros code s log'. rewrite filter_nil. cbn [fmap list_fmap]. change (mjoin []) with (@nil Z).
    rewrite app_nil_r. intros E. destruct fuel; cbn [ls_entries run ls_world ls_rest];
      change (rv (an 0) =? 16) with false; cbn iota; cbn [call_ run ls_world]; by rewrite E.
  - destruct fuel as [|fuel]; [cbn in Hf; lia|]. cbn [ls_entries run ls_world ls_rest ls_out rv rdata].
    rewrite Hl. change (Z.of_nat 16 =? 16) with true. cbn iota. cbn in Hf.
    rewrite filter_cons. case_decide as Hu; unfold de_used in Hu; destruct (Z.eqb_spec (dirent_inum de) 0) as [E0|E0]; try done.
    + destruct (IH fuel (out ++ entry_line path de) ltac:(lia)) as (log & Hlast & Hlog).
      exists (Read 3 16 :: Stat (path ++ 47 :: dirent_name de) :: Print 1 (entry_line path de) :: log).
      split; [by rewrite !last_cons, Hlast|]. intros code s log' E.
      cbn [fmap list_fmap] in E. rewrite mjoin_cons, app_assoc in E. apply Hlog in E. unfold entry_line in *.
      cbn [run ls_world]. destruct (stats (path ++ 47 :: dirent_name de)) as [st|] eqn:Es.
      * change (rv {| rv := 0; rdata := []; rstat := st |} <? 0) with false. cbn iota. cbn [call_ run ls_world rstat ls_rest ls_out].
        change (1 =? 1) with true. cbn iota. rewrite fmtname_last by done. by rewrite E.
      * change (rv (an (-1)) <? 0) with true. cbn iota. cbn [call_ run ls_world ls_rest ls_out].
        change (1 =? 1) with true. cbn iota. by rewrite E.
    + destruct (IH fuel out ltac:(lia)) as (log & Hlast & Hlog). exists (Read 3 16 :: log).
      split; [by rewrite last_cons, Hlast|]. intros code s log' E. by rewrite (Hlog _ _ _ E).
Qed.

(** ls on a directory prints, for every entry in use and in their order,
    the entry's name padded to 14 bytes with the type, the inode number and
    the size that [stat] gives for it (or a message if [stat] fails), nothing
    for entries that are free, and closes the directory. *)
Theorem ls_lists fuel path des :
  Forall (fun de => length de = 16%nat /\ 47 ∉ dirent_name de) des -> (length des <= fuel)%nat ->
  (length path <= 496)%nat ->
  exists s log, run ls_world (ls_main fuel [path]) {| ls_rest := des; ls_out := [] |} = (Some 0, s, log) /\
    ls_out s = mjoin (entry_line path <$> filter de_used des) /\ last log = Some (Close 3).
Proof.
  intros Hd Hf Hp. destruct (ls_entries_runs fuel path des [] (Exit 0) Hd Hf) as (log & Hlast & Hlog).
  specialize (Hlog _ _ _ eq_refl). rewrite app_nil_r in Hlog.
  exists {| ls_rest := []; ls_out := mjoin (entry_line path <$> filter de_used des) |}, (Open path [O_RDONLY] :: Fstat 3 :: log). split; [|split; [reflexivity|by rewrite !last_cons, Hlast]].
  cbn [ls_main ls_args]. unfold ls. cbn [run ls_world].
  change (rv (an 3)) with 3. change (3 <? 0) with false. cbn iota. cbn [run ls_world].
  change (T_DIR =? T_FILE) with false. change (T_DIR =? T_DIR) with true. cbn [rv rstat us_type].
  change (0 <? 0) with false. change (T_DIR =? T_FILE) with false. change (T_DIR =? T_DIR) with true. cbn iota.
  destruct (Z.ltb_spec 512 (Z.of_nat (length path) + 1 + 14 + 1)); [lia|]. rewrite Hlog. reflexivity.
Qed.
End LsWorld.

Lemma ls_lists_witness :
  let stats := fun p : list Z => Some {| us_type := 2; us_ino := 3; us_size := 7 |} in
  let des := [[3; 0; 97; 0; 0; 0; 0; 0; 0; 0; 0; 0; 0; 0; 0; 0]; replicate 16 0] in
  exists s log, run (ls_world stats) (ls_main 2 [bytes "."]) {| ls_rest := des; ls_out := [] |} = (Some 0, s, log) /\
    ls_out s = line "a              2 3 7".
Proof.
  cbn zeta.
  destruct (ls_lists (fun p => Some {| us_type := 2; us_ino := 3; us_size := 7 |}) 2 (bytes ".")
              [[3; 0; 97; 0; 0; 0; 0; 0; 0; 0; 0; 0; 0; 0; 0; 0]; replicate 16 0]) as (s & log & E & Ho & _).
  - repeat constructor; vm_compute; intros H; by repeat (apply elem_of_cons in H as [?|H]; [discriminate|]); apply elem_of_nil in H.
  - cbn. lia.
  - cbn. lia.
  - exists s, log. split; [exact E|]. rewrite Ho. vm_compute. reflexivity.
Defined.

(** ** Programs over files: cat.c, grep.c, wc.c *)

(** An argument: the name, and what the reads of the file give ([None] if
    [open] fails). *)
Definition argfile : Type := list Z * option (list (list Z)).

(** The bytes on descriptor 1, and whether [main] gets to its end. [wr k i] is
    what the [i]th [write] of file [k] returns. *)
Fixpoint cat_files (wr : nat -> nat -> Z) (k : nat) (args : list argfile) : option (list Z * bool) :=
  match args with
  | [] => Some ([], true)
  | (name, None) :: _ => Some (bytes "cat: cannot open " ++ name ++ [10], false)
  | (_, Some pieces) :: args' =>
      '(out, ok) ← cat (wr k) pieces;
      if ok : bool then '(out', ok') ← cat_files wr (S k) args'; Some (out ++ out', ok')
      else Some (out ++ line "cat: write error", false)
  end.
Definition cat_main (wr : nat -> nat -> Z) (stdin : list (list Z)) (args : list argfile) : option (list Z * bool) :=
  cat_files wr 0 (match args with [] => [([], Some stdin)] | _ => args end).

Fixpoint grep_files (pattern : list Z) (args : list argfile) : option (list Z) :=
  match args with
  | [] => Some []
  | (name, None) :: _ => Some (bytes "grep: cannot open " ++ name ++ [10])
  | (_, Some pieces) :: args' => out ← grep pattern pieces; out' ← grep_files pattern args'; Some (out ++ out')
  end.
(** [argv] without the program's name; the usage message goes to descriptor 2. *)
Definition grep_main (stdin : list (list Z)) (pattern : option (list Z)) (args : list argfile) : option (list Z) :=
  match pattern with
  | None => Some []
  | Some p => grep_files p (match args with [] => [([], Some stdin)] | _ => args end)
  end.

(** ["%d %d %d %s\n"] *)
Definition wc_line (x : Z * Z * Z) (name : list Z) : list Z :=
  let '(l, w, c) := x in
  uprintint l 10 true ++ [32] ++ uprintint w 10 true ++ [32] ++ uprintint c 10 true ++ [32] ++ name ++ [10].
Fixpoint wc_files (args : list argfile) : option (list Z) :=
  match args with
  | [] => Some []
  | (name, None) :: _ => Some (bytes "wc: cannot open " ++ name ++ [10])
  | (name, Some pieces) :: args' => x ← wc pieces; out ← wc_files args'; Some (wc_line x name ++ out)
  end.
Definition wc_main (stdin : list (list Z)) (args : list argfile) : option (list Z) :=
  wc_files (match args with [] => [([], Some stdin)] | _ => args end).

(** [stat] of ulib.c. *)
Definition stat_call (path : list Z) (k : ans -> prog) : prog :=
  Call (Open path [O_RDONLY]) (fun a =>
    if rv a <? 0 then k (an (-1)) else Call (Fstat (rv a)) (fun r => call_ (Close (rv a)) (k r))).

Lemma cat_loop_total fuel wr : forall i ps,
  Forall (fun x => x <> []) ps -> (length (mjoin ps) <= fuel)%nat ->
  exists out ok, cat_loop fuel wr i ps = Some (out, ok) /\ if ok : bool then out = mjoin ps else True.
Proof.
  induction fuel as [|fuel IH]; intros i ps Hne Hl.
  - destruct ps as [|x ps]; [by exists [], true|]. apply Forall_cons in Hne as [Hx _].
    rewrite mjoin_cons, length_app in Hl. destruct x; [done|cbn in Hl; lia].
  - destruct ps as [|x ps]; [by exists [], true|]. apply Forall_cons in Hne as [Hx Hne].
    cbn [cat_loop read_piece]. destruct (take 512 x) as [|t0 t] eqn:Et; [by destruct x|]. rewrite <- Et.
    destruct (negb _); [by do 2 eexists|].
    set (ps' := match drop 512 x with [] => ps | y => y :: ps end).
    assert (Ej : mjoin (x :: ps) = take 512 x ++ mjoin ps').
    { unfold ps'. rewrite mjoin_cons. rewrite <- (take_drop 512 x) at 1. rewrite <- app_assoc. f_equal.
      by destruct (drop 512 x). }
    destruct (IH (S i) ps') as (out & ok & E & Ho).
    + unfold ps'. destruct (drop 512 x); [done|by constructor].
    + rewrite Ej, length_app, Et in Hl. cbn in Hl. lia.
    + rewrite E. cbn [mbind option_bind]. do 2 eexists. split; [reflexivity|]. destruct ok; [|done]. by rewrite Ej, Ho.
Qed.

(** cat ends; if no file is missing and every [write] is complete it has
    written the files one after the other. *)
Lemma cat_main_concat wr args :
  Forall (fun f : argfile => exists ps, f.2 = Some ps /\ Forall (fun x => x <> []) ps) args -> args <> [] ->
  exists out ok, cat_main wr [] args = Some (out, ok) /\
    if ok : bool then out = mjoin ((fun f : argfile => mjoin (default [] f.2)) <$> args) else True.
Proof.
  intros Ha Hne. assert (H : forall k, exists out ok, cat_files wr k args = Some (out, ok) /\
    if ok : bool then out = mjoin ((fun f : argfile => mjoin (default [] f.2)) <$> args) else True).
  { clear Hne. induction Ha as [|[name o] args (ps & Eo & Hps) _ IH]; intros k; [by exists [], true|]. cbn in Eo. subst o.
    destruct (cat_loop_total _ (wr k) 0 ps Hps (le_n _)) as (out & ok & E & Ho).
    cbn [cat_files]. unfold cat. rewrite E. cbn. destruct ok; [|by do 2 eexists].
    destruct (IH (S k)) as (out' & ok' & -> & Ho'). cbn. do 2 eexists. split; [reflexivity|].
    destruct ok'; [|done]. by rewrite Ho, Ho'. }
  unfold cat_main. destruct args; [done|]. apply H.
Qed.
