(* ===== verification/Start.v ===== *)
(** Processors: who runs ([mycpu], [cpuid], [myproc] of proc.c), how the other
    processors are started ([startothers] of main.c with entryother.S), what a
    new process does first ([forkret]), the dump of the process table
    ([procdump]), and the small devices set up on the way (uart.c, picirq.c).

    Theorems: [myproc] gives the process of the processor it runs on and leaves
    the interrupt state as it was ([myproc_finds]); the commands sent to the
    APIC start every other processor, once and on a stack page of its own
    ([startothers_stacks]; the start-up protocol is the class [Processors]); a
    character goes out on the serial line as soon as the port is ready, and
    the handler passes on all that has arrived ([uart_sends],
    [uartintr_drains]). *)

From Stdlib Require Import ZArith Lia.
From stdpp Require Import base strings gmap numbers list.
From S2P Require Import Prelude KString Kalloc Spin Proc Print Apic.

Open Scope Z_scope.

(** ** The current processor *)

(** The search of [mycpu]; [i] is the index of the first of [ids]. *)
Fixpoint find_cpu (ids : list Z) (apicid : Z) (i : nat) : option nat :=
  match ids with
  | [] => None
  | x :: ids' => if x =? apicid then Some i else find_cpu ids' apicid (S i)
  end.

(** [ids] are the [apicid]s of [cpus[0..ncpu)]; [fl] is FL_IF, [apicid] what
    [lapicid()] returns. *)
Definition mycpu (ids : list Z) (fl : bool) (apicid : Z) : string + nat :=
  if fl then inl "mycpu called with interrupts enabled"%string
  else match find_cpu ids apicid 0 with Some i => inr i | None => inl "unknown apicid"%string end.

Definition cpuid (ids : list Z) (fl : bool) (apicid : Z) : string + Z :=
  match mycpu ids fl apicid with inl m => inl m | inr i => inr (Z.of_nat i) end.

(** [procs i] is [cpus[i].proc]; [c] is the state of the processor that runs. *)
Definition myproc (ids : list Z) (procs : nat -> option nat) (apicid : Z) (c : cpu) : string + (option nat * cpu) :=
  let c := pushcli c in
  match mycpu ids (iflag c) apicid with
  | inl m => inl m
  | inr i =>
      match popcli c with
      | inl m => inl m
      | inr c => inr (procs i, c)
      end
  end.

(** ** Starting the other processors *)

Definition KSTACKSIZE : Z := 4096.

(** The start-up protocol of the processors (MultiProcessor Specification,
    appendix B), for the interrupt commands that the boot processor's APIC sends.
    [ap_up] lists the processors that have started, with the address each starts
    at, after a list of commands [(apicid, command)]. *)
Class Processors := {
  ap_up : list (Z * Z) -> list (Z * Z);
  ap_up_start cs apicid v :
    apicid ∉ (ap_up cs).*1 -> 0 <= v < 256 ->
    ap_up (cs ++ start_commands apicid v) = ap_up cs ++ [(apicid, 4096 * v)];
}.

(** A processor that has started: its APIC identifier, the address it starts
    at, and what it finds in the words below the entry code, from which
    entryother.S loads %esp, %cr3 and the address it calls. *)
Record ap := { ap_id : Z; ap_entry : Z; ap_esp : Z; ap_cr3 : Z; ap_call : Z }.

Record smp := { sm_kmem : kmem; sm_lap : lap; sm_started : list ap }.

Section Startothers.
Context `{HP : Processors}.
(** The local APIC; the image of entryother.S; [mpenter] and [entrypgdir]. *)
Variables (lread : list (option Z * Z) -> Z -> Z) (lapic : Z).
Variables (entry_start entry_size mpenter entrypgdir : Z).

Definition code : Z := P2V 28672.

Definition smp_kmem {A} (m : M kmem A) : M smp A := fun s =>
  match m (sm_kmem s) with
  | Ret a k => Ret a {| sm_kmem := k; sm_lap := sm_lap s; sm_started := sm_started s |}
  | Panic p => Panic p
  | Sleep c k => Sleep c {| sm_kmem := k; sm_lap := sm_lap s; sm_started := sm_started s |}
  | OutOfFuel => OutOfFuel
  end.
Definition smp_mem (f : mem -> mem) : M smp unit := smp_kmem (modify (fun k => set_kbytes (f (kbytes k)) k)).

(** [lapicstartap] writes to the same memory. *)
Definition smp_startap (apicid addr : Z) : M smp unit := fun s =>
  match lapicstartap lread apicid addr {| lacc := lacc (sm_lap s); lports := lports (sm_lap s); lmem := kbytes (sm_kmem s) |} with
  | Ret _ l => Ret tt {| sm_kmem := set_kbytes (lmem l) (sm_kmem s); sm_lap := l; sm_started := sm_started s |}
  | Panic p => Panic p
  | Sleep c l => Sleep c s
  | OutOfFuel => OutOfFuel
  end.

(** The processors the commands sent so far have started. *)
Definition sm_up (s : smp) : list (Z * Z) := ap_up (commands 0 (lwrites (lacc (sm_lap s)))).

(** Processor [(apicid, entry)] reads the words below the entry code. *)
Definition ap_enter (m : mem) (x : Z * Z) : ap :=
  {| ap_id := x.1; ap_entry := x.2; ap_esp := rd32 m (code - 4); ap_cr3 := rd32 m (code - 12); ap_call := rd32 m (code - 8) |}.

(** Whether [a] has set [started] for [apicid]: it is that processor, it began in
    the entry code, and that has called [mpenter] ([mpmain] sets the flag of the
    processor it runs on). *)
Definition has_started (apicid : Z) (a : ap) : bool :=
  (ap_id a =? apicid) && (ap_entry a =? V2P code) && (ap_call a =? mpenter).

(** [while(c->started == 0)]: the processors that the commands have started since
    run entryother.S, [mpenter] and [mpmain]. If [apicid] is not among them the
    loop does not end. *)
Definition await_start (apicid : Z) : M smp unit := fun s =>
  let l := sm_started s ++ (ap_enter (kbytes (sm_kmem s)) <$> drop (length (sm_started s)) (sm_up s)) in
  if existsb (has_started apicid) l
  then Ret tt {| sm_kmem := sm_kmem s; sm_lap := sm_lap s; sm_started := l |}
  else OutOfFuel.

(** The loop over [cpus]; [i] is the index of the first of [ids], [me] the
    processor that runs. *)
Fixpoint startothers_loop (ids : list Z) (i me : nat) : M smp unit :=
  match ids with
  | [] => ret tt
  | apicid :: ids' =>
      (if (i =? me)%nat then ret tt
       else
         let* stack := smp_kmem kalloc in
         smp_mem (fun m => wr32 m (code - 4) (u32 (stack + KSTACKSIZE))) ;;;
         smp_mem (fun m => wr32 m (code - 8) mpenter) ;;;
         smp_mem (fun m => wr32 m (code - 12) (V2P entrypgdir)) ;;;
         smp_startap apicid (V2P code) ;;;
         await_start apicid) ;;;
      startothers_loop ids' (S i) me
  end.

Definition startothers (ids : list Z) (me : nat) : M smp unit :=
  smp_mem (fun m => memmove m code entry_start entry_size) ;;;
  startothers_loop ids 0 me.

End Startothers.

(** ** Ports: uart.c and picirq.c *)

Definition COM1 : Z := 1016.

(** [outb]s, oldest first. *)
Definition picinit : list (Z * Z) := [(32 + 1, 255); (160 + 1, 255)].

(** [outb]s of [uartinit]; [present] tells that the status is not 0xFF. The
    flag is [uart]; the interrupt line is enabled and the announcement sent
    when it is set. *)
Definition uart_setup : list (Z * Z) :=
  [(COM1 + 2, 0); (COM1 + 3, 128); (COM1 + 0, 115200 / 9600); (COM1 + 1, 0); (COM1 + 3, 3); (COM1 + 4, 0); (COM1 + 1, 1)].

Section Uart.
(** What the line status register reads at the [n]th access. *)
Variable lsr : nat -> Z.

(** [for(i = 0; i < 128 && !(inb(COM1+5) & 0x20); i++) microdelay(10);]: the
    number of the access after the loop. *)
Fixpoint uart_wait (left n : nat) : nat :=
  match left with
  | O => n
  | S left' => if negb (Z.land (lsr n) 32 =? 0) then S n else uart_wait left' (S n)
  end.

(** The next access and the [outb]s. *)
Definition uartputc (uart : bool) (c : Z) (n : nat) : nat * list (Z * Z) :=
  if uart then (uart_wait 128 n, [(COM1 + 0, u8 c)]) else (n, []).

Fixpoint uartputs (uart : bool) (l : list Z) (n : nat) : nat * list (Z * Z) :=
  match l with
  | [] => (n, [])
  | c :: l' => let '(n, o) := uartputc uart c n in let '(n, o') := uartputs uart l' n in (n, o ++ o')
  end.

Definition uart_announce : list Z := [120; 118; 54; 46; 46; 46; 10].

(** [uart] afterwards, whether [ioapicenable(IRQ_COM1, 0)] is called, the
    [outb]s. *)
Definition uartinit (n : nat) : bool * bool * list (Z * Z) :=
  if lsr n =? 255 then (false, false, uart_setup)
  else (true, true, uart_setup ++ (uartputs true uart_announce (S n)).2).
End Uart.

(** [uartgetc] with the bytes that have arrived in [fifo]: bit 0 of the status
    says whether there is one. *)
Definition uartgetc (uart : bool) (fifo : list Z) : Z * list Z :=
  if negb uart then (-1, fifo)
  else match fifo with [] => (-1, []) | c :: fifo' => (c, fifo') end.

(** The characters that [consoleintr] gets from [uartgetc], till it is
    negative. *)
Fixpoint uart_chars (fuel : nat) (uart : bool) (fifo : list Z) : option (list Z) :=
  let '(c, fifo') := uartgetc uart fifo in
  if c <? 0 then Some []
  else match fuel with O => None | S f => cons c <$> uart_chars f uart fifo' end.

(** ** New processes *)

(** What [forkret] does: it gives up [ptable.lock], and for the first process
    sets up the inodes and the log, which sleep. *)
Inductive boot_action := ReleasePtable | Iinit (dev : Z) | Initlog (dev : Z).
Definition ROOTDEV : Z := 1.
Definition forkret (first : bool) : bool * list boot_action :=
  (false, ReleasePtable :: if first then [Iinit ROOTDEV; Initlog ROOTDEV] else []).

(** ** procdump *)

Definition state_name (s : procstate) : list Z :=
  match s with
  | UNUSED => [117; 110; 117; 115; 101; 100]
  | EMBRYO => [101; 109; 98; 114; 121; 111]
  | SLEEPING => [115; 108; 101; 101; 112; 32]
  | RUNNABLE => [114; 117; 110; 98; 108; 101]
  | RUNNING => [114; 117; 110; 32; 32; 32]
  | ZOMBIE => [122; 111; 109; 98; 105; 101]
  end.

(** [for(i=0; i<10 && pc[i] != 0; i++) cprintf(" %p", pc[i])] *)
Fixpoint print_pcs (pcs : list Z) : list Z :=
  match pcs with [] => [] | pc :: pcs' => if pc =? 0 then [] else 32 :: kprintint (i32 pc) 16 false ++ print_pcs pcs' end.

(** The line of one process; [rd] reads the kernel's memory, in which
    [context->ebp] is 12 bytes into the saved context. *)
Definition procdump_line (rd : Z -> Z) (p : proc) : list Z :=
  if bool_decide (p_state p = UNUSED) then []
  else kprintint (i32 (p_pid p)) 10 true ++ [32] ++ state_name (p_state p) ++ [32] ++ until_nul (p_name p) ++
       (if bool_decide (p_state p = SLEEPING) then print_pcs (getcallerpcs rd (u32 (rd (u32 (p_context p + 12)) + 8))) else []) ++ [10].
Definition procdump (rd : Z -> Z) (ps : list proc) : list Z := mjoin (procdump_line rd <$> ps).

(** ** Theorems *)

Lemma find_cpu_Some ids apicid i k :
  find_cpu ids apicid i = Some k <->
  exists j, k = (i + j)%nat /\ ids !! j = Some apicid /\ forall l, (l < j)%nat -> ids !! l <> Some apicid.
Proof.
  revert i. induction ids as [|x ids IH]; intros i; cbn.
  - split; [done|]. by intros (j & _ & H & _).
  - destruct (Z.eqb_spec x apicid) as [->|Hne].
    + split.
      * intros [= <-]. exists O. split_and!; [lia|done|intros; lia].
      * intros (j & -> & _ & H). destruct j; [f_equal; lia|]. by destruct (H O ltac:(lia)).
    + rewrite IH. split.
      * intros (j & -> & Hj & Hl). exists (S j). split_and!; [lia|done|]. intros [|l] ?; cbn; [congruence|apply Hl; lia].
      * intros (j & -> & Hj & Hl). destruct j as [|j]; [cbn in Hj; congruence|].
        exists j. split_and!; [lia|done|]. intros l ?. apply (Hl (S l)). lia.
Qed.

(** On a processor whose APIC identifier is in the table (once), [myproc]
    returns the process recorded for this very processor, without a panic,
    and leaves the interrupt flag, the nesting depth and, inside a nest, the
    saved flag as they were. *)
Theorem myproc_finds ids procs apicid i c :
  NoDup ids -> ids !! i = Some apicid -> 0 <= ncli c -> (0 < ncli c -> iflag c = false) ->
  exists c', myproc ids procs apicid c = inr (procs i, c') /\
    iflag c' = iflag c /\ ncli c' = ncli c /\ (0 < ncli c -> intena c' = intena c) /\ held c' = held c /\ pc c' = pc c.
Proof.
  intros Hnd Hi Hn Hif. unfold myproc, mycpu. cbn [iflag pushcli].
  assert (find_cpu ids apicid 0 = Some i) as ->.
  { apply find_cpu_Some. exists i. split_and!; [done|done|]. intros l Hl E. pose proof (NoDup_lookup ids l i apicid Hnd E Hi). lia. }
  unfold popcli. cbn [iflag pushcli ncli intena held pc].
  destruct (Z.ltb_spec (ncli c + 1 - 1) 0); [lia|]. eexists. split; [reflexivity|]. cbn.
  replace (ncli c + 1 - 1) with (ncli c) by lia. split_and!; try done.
  - destruct (Z.eqb_spec (ncli c) 0) as [E|E]; [done|]. cbn. symmetry. apply Hif. lia.
  - intros Hp. destruct (Z.eqb_spec (ncli c) 0); [lia|done].
Qed.

Lemma myproc_finds_witness :
  exists c', myproc [4; 9] (fun i => Some (10 + i)%nat) 9 {| pc := Run; ncli := 0; intena := false; iflag := true; held := [] |} =
    inr (Some 11%nat, c') /\ iflag c' = true.
Proof.
  destruct (myproc_finds [4; 9] (fun i => Some (10 + i)%nat) 9 1 {| pc := Run; ncli := 0; intena := false; iflag := true; held := [] |})
    as (c' & E & Hf & _).
  - repeat constructor; intros H; by repeat (apply elem_of_cons in H as [?|H]; [discriminate|]); apply elem_of_nil in H.
  - reflexivity.
  - cbn. lia.
  - cbn. lia.
  - exists c'. split; [exact E|exact Hf].
Defined.

Lemma warm_reset_out addr m a : (a < P2V 1127 \/ P2V 1131 <= a) -> rd8 (warm_reset addr m) a = rd8 m a.
Proof.
  intros H. change (P2V 1127) with 2147484775 in *. change (P2V 1131) with 2147484779 in *.
  unfold warm_reset. change (P2V 1127) with 2147484775. rewrite !rd8_wr8. range_cases; try lia; done.
Qed.

Section Stacks.
Context `{HP : Processors}.
Variables (lread : list (option Z * Z) -> Z -> Z) (entry_start entry_size mpenter entrypgdir kend : Z).
(** The kernel's pages are above the page the entry code is copied to. *)
Hypothesis kend_ok : P2V 32768 <= kend.
Hypothesis size_ok : 0 <= entry_size <= 4096.
Hypothesis mpenter_ok : 0 <= mpenter < 4294967296.

(** How processor [apicid] should start with stack page [p]. *)
Definition ap_on (apicid p : Z) : ap :=
  {| ap_id := apicid; ap_entry := V2P code; ap_esp := p + KSTACKSIZE; ap_cr3 := V2P entrypgdir; ap_call := mpenter |}.

Lemma code_eq : code = 2147512320.
Proof. reflexivity. Qed.

(** Memory below [kend] does not matter to the free list. *)
Lemma fl_rep_low s m free :
  fl_rep kend s free -> (forall a, kend <= a -> rd8 m a = rd8 (kbytes s) a) -> fl_rep kend (set_kbytes m s) free.
Proof.
  intros (Hc & Hnd & Hok & Hl) Hm. split_and!; try done. cbn. eapply chain_frame; [|exact Hc].
  rewrite Forall_forall in Hok |- *. intros p Hp. destruct (Hok p Hp) as (_ & Hk & _).
  apply rd32_ext. intros b Hb. apply Hm. lia.
Qed.

Lemma set_kbytes_twice m m' s : set_kbytes m (set_kbytes m' s) = set_kbytes m s.
Proof. by destruct s. Qed.

Lemma rd8_wr32_other m a v b : b < a \/ a + 4 <= b -> rd8 (wr32 m a v) b = rd8 m b.
Proof. intros H. rewrite rd8_wr32. range_cases; try lia; done. Qed.

(** The memory after the stores for one processor. *)
Definition ap_mem (stack : Z) (m : mem) : mem :=
  warm_reset (V2P code)
    (wr32 (wr32 (wr32 m (code - 4) (u32 (stack + KSTACKSIZE))) (code - 8) mpenter) (code - 12) (V2P entrypgdir)).

Lemma ap_mem_words stack m :
  rd32 (ap_mem stack m) (code - 4) = u32 (stack + KSTACKSIZE) /\
  rd32 (ap_mem stack m) (code - 8) = mpenter /\ rd32 (ap_mem stack m) (code - 12) = V2P entrypgdir.
Proof.
  assert (Hw : forall a, code - 12 <= a -> a + 4 <= code -> rd32 (ap_mem stack m) a =
    rd32 (wr32 (wr32 (wr32 m (code - 4) (u32 (stack + KSTACKSIZE))) (code - 8) mpenter) (code - 12) (V2P entrypgdir)) a).
  { intros a H1 H2. apply rd32_ext. intros b Hb. apply warm_reset_out. change (P2V 1131) with 2147484779. rewrite code_eq in *. lia. }
  rewrite !Hw by (rewrite code_eq; lia). rewrite code_eq. split_and!.
  - rewrite !rd32_wr32_ne, rd32_wr32_eq by lia. apply u32_u32.
  - rewrite rd32_wr32_ne, rd32_wr32_eq by lia. by apply u32_small.
  - rewrite rd32_wr32_eq. apply u32_u32.
Qed.

Lemma ap_mem_high stack m a : code <= a -> rd8 (ap_mem stack m) a = rd8 m a.
Proof.
  rewrite code_eq. intros Ha. unfold ap_mem.
  rewrite warm_reset_out by (change (P2V 1131) with 2147484779; lia). rewrite code_eq. rewrite !rd8_wr32_other by lia. done.
Qed.

(** The processors recorded are those that the APIC has started. *)
Definition in_step (s : smp) : Prop := sm_up s = (fun a => (ap_id a, ap_entry a)) <$> sm_started s.

(** What the loop waits for happens when the processor has just been started. *)
Lemma await_run apicid p s :
  0 <= p -> p + KSTACKSIZE < 4294967296 ->
  sm_up s = ((fun a => (ap_id a, ap_entry a)) <$> sm_started s) ++ [(apicid, V2P code)] ->
  (exists m, kbytes (sm_kmem s) = ap_mem p m) ->
  await_start mpenter apicid s =
    Ret tt {| sm_kmem := sm_kmem s; sm_lap := sm_lap s; sm_started := sm_started s ++ [ap_on apicid p] |}.
Proof.
  intros Hp Hp2 Hup (m & Hm). pose proof (ap_mem_words p m) as (W1 & W2 & W3).
  assert (He : ap_enter (kbytes (sm_kmem s)) <$> drop (length (sm_started s)) (sm_up s) = [ap_on apicid p]).
  { rewrite Hup, drop_app_length' by by rewrite length_fmap. cbn. unfold ap_enter, ap_on. cbn [fst snd].
    rewrite Hm, W1, W2, W3, u32_small by (unfold KSTACKSIZE in *; lia). done. }
  unfold await_start. rewrite He, existsb_app. unfold has_started at 2. cbn [existsb ap_id ap_entry ap_call ap_on].
  by rewrite !Z.eqb_refl, orb_true_r.
Qed.

(** One round. *)
Lemma start_one apicid ids i me s p free :
  i <> me -> 0 <= apicid < 256 -> apicid ∉ ap_id <$> sm_started s -> in_step s ->
  fl_rep kend (sm_kmem s) (p :: free) ->
  exists s', startothers_loop lread mpenter entrypgdir (apicid :: ids) i me s =
             startothers_loop lread mpenter entrypgdir ids (S i) me s' /\
    fl_rep kend (sm_kmem s') free /\ sm_started s' = sm_started s ++ [ap_on apicid p] /\ in_step s' /\
    forall a, code <= a -> rd8 (kbytes (sm_kmem s')) a = rd8 (kbytes (sm_kmem s)) a.
Proof.
  intros Hi Hid Hnew Hst Hf. destruct (kalloc_run kend (sm_kmem s) (p :: free) Hf) as (k1 & E & Hf1 & Em & _). cbn [hd tl] in *.
  destruct (startap_run lread apicid (V2P code) (lacc (sm_lap s)) (lports (sm_lap s))
    (wr32 (wr32 (wr32 (kbytes k1) (code - 4) (u32 (p + KSTACKSIZE))) (code - 8) mpenter) (code - 12) (V2P entrypgdir)))
    as (l & El & Hc & _ & Ml); [lia|vm_compute; split; congruence|]. fold (ap_mem p (kbytes k1)) in Ml.
  set (s1 := {| sm_kmem := set_kbytes (ap_mem p (kbytes k1)) k1; sm_lap := l; sm_started := sm_started s |}).
  assert (Hup : sm_up s1 = ((fun a => (ap_id a, ap_entry a)) <$> sm_started s1) ++ [(apicid, V2P code)]).
  { unfold sm_up, s1. cbn [sm_lap sm_started]. rewrite Hc. change (V2P code / 4096) with 7. change (V2P code) with (4096 * 7).
    fold (sm_up s). rewrite ap_up_start; [by rewrite <- Hst| |lia]. fold (sm_up s). rewrite Hst. by rewrite <- list_fmap_compose. }
  assert (0 <= p /\ p + KSTACKSIZE < 4294967296) as [Hp1 Hp2].
  { destruct Hf as (_ & _ & Hok & _). apply Forall_cons in Hok as [(Hp & Hk & Hv & Hr) _].
    unfold V2P, KSTACKSIZE in *. change (P2V 32768) with 2147516416 in kend_ok. rewrite u32_small in Hv; lia. }
  exists {| sm_kmem := set_kbytes (ap_mem p (kbytes k1)) k1; sm_lap := l; sm_started := sm_started s ++ [ap_on apicid p] |}.
  split_and!.
  - cbn [startothers_loop]. destruct (Nat.eqb_spec i me) as [|_]; [done|].
    unfold bind at 1. unfold bind at 1. unfold smp_kmem at 1. rewrite E.
    unfold smp_mem, smp_kmem, smp_startap, bind, modify. cbn [sm_kmem sm_lap sm_started kbytes set_kbytes].
    rewrite El, Ml. rewrite !set_kbytes_twice. fold s1.
    rewrite (await_run apicid p s1); [done|lia|lia|exact Hup|]. by exists (kbytes k1).
  - apply fl_rep_low; [exact Hf1|]. intros a Ha. apply ap_mem_high.
    change (P2V 32768) with 2147516416 in kend_ok. rewrite code_eq. lia.
  - done.
  - unfold in_step. cbn [sm_started]. rewrite fmap_app. exact Hup.
  - intros a Ha. cbn. rewrite ap_mem_high by done. by rewrite Em.
Qed.

Lemma start_all ids : forall i me s free,
  let others := if bool_decide (i <= me)%nat then take (me - i) ids ++ drop (S (me - i)) ids else ids in
  Forall (fun a => 0 <= a < 256) ids -> NoDup ((ap_id <$> sm_started s) ++ ids) -> in_step s ->
  fl_rep kend (sm_kmem s) free -> (length others <= length free)%nat ->
  exists s', startothers_loop lread mpenter entrypgdir ids i me s = Ret tt s' /\
    fl_rep kend (sm_kmem s') (drop (length others) free) /\
    sm_started s' = sm_started s ++ zip_with ap_on others free /\ in_step s' /\
    forall a, code <= a -> rd8 (kbytes (sm_kmem s')) a = rd8 (kbytes (sm_kmem s)) a.
Proof.
  induction ids as [|a ids IH]; intros i me s free others Hr Hnd Hst Hf Hl.
  - exists s. assert (others = []) as -> by (unfold others; case_bool_decide; by rewrite ?take_nil, ?drop_nil).
    cbn. rewrite app_nil_r. done.
  - destruct (decide (i = me)) as [->|Hne].
    + assert (others = ids) as Eo by (unfold others; rewrite bool_decide_true, Nat.sub_diag by lia; done).
      destruct (IH (S me) me s free) as (s' & E & H1 & H2).
      * by inversion Hr.
      * eapply sublist_NoDup; [exact Hnd|]. apply sublist_app; [done|]. by apply sublist_cons.
      * exact Hst.
      * exact Hf.
      * rewrite bool_decide_false by lia. congruence.
      * rewrite bool_decide_false in H1, H2 by lia. rewrite Eo. exists s'. split; [|done].
        cbn [startothers_loop]. rewrite Nat.eqb_refl. exact E.
    + set (rest := if bool_decide (S i <= me)%nat then take (me - S i) ids ++ drop (S (me - S i)) ids else ids).
      assert (others = a :: rest) as Eo.
      { unfold others, rest. destruct (decide (i < me)%nat).
        - rewrite !bool_decide_true by lia. by replace (me - i)%nat with (S (me - S i)) by lia.
        - by rewrite !bool_decide_false by lia. }
      rewrite Eo in Hl |- *. destruct free as [|p free]; [cbn in Hl; lia|]. cbn in Hl.
      apply Forall_cons in Hr as [Ha Hr].
      destruct (start_one a ids i me s p free Hne Ha) as (s1 & E1 & Hf1 & Es1 & Hst1 & Hm1); [|done|done|].
      { intros Hin. apply NoDup_app in Hnd as (_ & Hd & _). by apply (Hd a Hin), elem_of_cons; left. }
      destruct (IH (S i) me s1 free) as (s' & E & H1 & H2 & H4 & H3); [done| |done|done|fold rest; lia|].
      { rewrite Es1, fmap_app, <- app_assoc. exact Hnd. }
      fold rest in H1, H2.
      exists s'. split_and!; [by rewrite E1|done| |done|].
      * rewrite H2, Es1, <- app_assoc. done.
      * intros a' Ha'. by rewrite H3, Hm1.
Qed.

(** C30. [startothers] returns, and so starts every processor but the one that
    runs: from a state in which none has started, the APIC commands it sends
    start each of them, once and in the table's order, and it waits for each.
    Each begins in the entry code, on a page of its own taken from the
    allocator, which keeps the rest, with the kernel's first page directory
    and at [mpenter]; and the entry code is in place for all of them. *)
Theorem startothers_stacks ids me l k free :
  (me < length ids)%nat -> Forall (fun a => 0 <= a < 256) ids -> NoDup ids ->
  ap_up (commands 0 (lwrites (lacc l))) = [] ->
  fl_rep kend k free -> (length ids <= S (length free))%nat ->
  exists s', startothers lread entry_start entry_size mpenter entrypgdir ids me
               {| sm_kmem := k; sm_lap := l; sm_started := [] |} = Ret tt s' /\
    sm_started s' = zip_with ap_on (take me ids ++ drop (S me) ids) free /\
    ap_up (commands 0 (lwrites (lacc (sm_lap s')))) = (fun a => (a, V2P code)) <$> take me ids ++ drop (S me) ids /\
    NoDup (ap_esp <$> sm_started s') /\
    fl_rep kend (sm_kmem s') (drop (length ids - 1) free) /\
    forall j, 0 <= j < entry_size -> rd8 (kbytes (sm_kmem s')) (code + j) = rd8 (kbytes k) (entry_start + j).
Proof.
  intros Hme Hr Hnd Hnone Hf Hlen.
  set (k1 := set_kbytes (memmove (kbytes k) code entry_start entry_size) k).
  assert (Hf1 : fl_rep kend k1 free).
  { apply fl_rep_low; [exact Hf|]. intros a Ha. rewrite memmove_bytes by lia.
    change (P2V 32768) with 2147516416 in kend_ok. rewrite code_eq. range_cases; try lia; done. }
  set (s1 := {| sm_kmem := k1; sm_lap := l; sm_started := [] |}).
  assert (Hlo : length (take me ids ++ drop (S me) ids) = (length ids - 1)%nat) by (rewrite length_app, length_take, length_drop; lia).
  destruct (start_all ids 0 me s1 free) as (s' & E & H1 & H2 & H4 & H3); rewrite ?bool_decide_true, ?Nat.sub_0_r in * by lia.
  - exact Hr.
  - exact Hnd.
  - exact Hnone.
  - exact Hf1.
  - lia.
  - exists s'. split; [exact E|]. split; [exact H2|]. split_and!.
    + fold (sm_up s'). rewrite H4, H2. cbn [sm_started s1 app].
      assert (length (take me ids ++ drop (S me) ids) <= length free)%nat as Hle by lia. revert Hle. clear.
      generalize (take me ids ++ drop (S me) ids). intros o. revert free.
      induction o as [|a o IH]; intros [|p free]; cbn; try done; [lia|]. intros Hl. f_equal. apply IH. lia.
    + rewrite H2. destruct Hf as (_ & Hndf & _). cbn [sm_started s1 app].
      assert (ap_esp <$> zip_with ap_on (take me ids ++ drop (S me) ids) free =
              (fun p => p + KSTACKSIZE) <$> take (length (take me ids ++ drop (S me) ids)) free) as ->.
      { clear. generalize (take me ids ++ drop (S me) ids). intros o. revert free.
        induction o as [|a o IH]; intros [|p free]; cbn; [done|done|done|]. by rewrite IH. }
      apply NoDup_fmap_2; [intros ? ? ?; lia|]. eapply sublist_NoDup; [exact Hndf|]. apply sublist_take.
    + by rewrite <- Hlo.
    + intros j Hj. rewrite H3 by lia. cbn [s1 sm_kmem k1 set_kbytes kbytes]. rewrite memmove_bytes by lia.
      range_cases; try lia. f_equal. lia.
Qed.
End Stacks.

Definition w_pages : kmem := kfree_state page0 (kfree_state (page0 + 4096) kmem0).

Lemma w_pages_rep : fl_rep kend0 w_pages [page0; page0 + 4096].
Proof.
  assert (H1 : page_ok kend0 (page0 + 4096)).
  { destruct page0_ok as (? & ? & ? & ?). unfold page_ok, page0, kend0 in *. vm_compute. split_and!; done. }
  apply kfree_state_rep; [apply kfree_state_rep; [apply kmem0_rep|exact H1|apply not_elem_of_nil]|apply page0_ok|].
  intros H. apply elem_of_cons in H as [H|H]; [vm_compute in H; discriminate H|by apply elem_of_nil in H].
Qed.

(** The protocol as a machine: INIT, asserted, resets a processor, which then
    waits for the start-up message and starts at the page that it names. *)
Definition sipi_step (s : list Z * list (Z * Z)) (c : Z * Z) : list Z * list (Z * Z) :=
  let mode := Z.land c.2 1792 in
  if (mode =? LINIT) && negb (Z.land c.2 LASSERT =? 0) then (c.1 :: s.1, s.2)
  else if (mode =? LSTARTUP) && bool_decide (c.1 ∈ s.1)
       then (filter (fun x => x <> c.1) s.1, s.2 ++ [(c.1, 4096 * Z.land c.2 255)])
       else s.
Definition sipi (cs : list (Z * Z)) : list Z * list (Z * Z) := foldl sipi_step ([], []) cs.

#[export] Program Instance sipi_processors : Processors := {| ap_up cs := (sipi cs).2 |}.
Next Obligation.
  intros cs apicid v _ Hv. unfold sipi. rewrite foldl_app. set (s := foldl _ _ cs).
  assert (Hb : forall n, (n < 256)%nat -> (Z.land (1536 + Z.of_nat n) 1792 =? 1280) = false /\
    Z.land (1536 + Z.of_nat n) 1792 = 1536 /\ Z.land (1536 + Z.of_nat n) 255 = Z.of_nat n).
  { intros n Hn. assert (forallb (fun n => negb (Z.land (1536 + Z.of_nat n) 1792 =? 1280) &&
      (Z.land (1536 + Z.of_nat n) 1792 =? 1536) && (Z.land (1536 + Z.of_nat n) 255 =? Z.of_nat n)) (seq 0 256) = true) as Hall by reflexivity.
    rewrite forallb_forall in Hall. specialize (Hall n ltac:(apply in_seq; lia)).
    apply andb_prop in Hall as [[H1 H2]%andb_prop H3]. by rewrite <- negb_true_iff, <- !Z.eqb_eq. }
  destruct (Hb (Z.to_nat v) ltac:(lia)) as (B1 & B2 & B3). rewrite Z2Nat.id in B1, B2, B3 by lia.
  unfold start_commands. cbn [foldl]. unfold sipi_step. cbn [fst snd].
  change (Z.land (1280 + 32768 + 16384) 1792 =? 1280) with true. change (Z.land (1280 + 32768 + 16384) 16384 =? 0) with false.
  change (Z.land (1280 + 32768) 1792 =? 1280) with true. change (Z.land (1280 + 32768) 16384 =? 0) with true.
  change (Z.land (1280 + 32768) 1792 =? 1536) with false.
  cbn [andb negb fst snd]. rewrite B1, B2, B3. cbn [andb negb fst snd Z.eqb Pos.eqb].
  rewrite (bool_decide_true (apicid ∈ apicid :: s.1)) by (apply elem_of_cons; by left). cbn [fst snd].
  rewrite bool_decide_false; [done|]. intros Hin%list_elem_of_filter. by destruct Hin.
Qed.

Lemma startothers_stacks_witness :
  exists s', startothers (fun _ _ => 0) 2148000000 200 2148532224 2148536320 [5; 7; 9] 1
               {| sm_kmem := w_pages; sm_lap := {| lacc := []; lports := []; lmem := ∅ |}; sm_started := [] |} = Ret tt s' /\
    (ap_id <$> sm_started s') = [5; 9] /\ (ap_esp <$> sm_started s') = [page0 + 4096; page0 + 8192].
Proof.
  destruct (startothers_stacks (fun _ _ => 0) 2148000000 200 2148532224 2148536320 kend0 ltac:(vm_compute; discriminate) ltac:(lia) ltac:(lia)
    [5; 7; 9] 1 {| lacc := []; lports := []; lmem := ∅ |} w_pages [page0; page0 + 4096] ltac:(cbn; lia)
    ltac:(repeat constructor; lia) ltac:(apply (bool_decide_unpack _); vm_compute; exact I) eq_refl w_pages_rep ltac:(cbn; lia))
    as (s' & E & Hs & _).
  exists s'. split; [exact E|]. rewrite Hs. split; reflexivity.
Defined.

(** *** Serial line *)

Lemma uart_wait_spec lsr left n :
  exists k, uart_wait lsr left n = (n + k)%nat /\ (k <= left)%nat /\
    (forall j, (S j < k)%nat -> Z.land (lsr (n + j)%nat) 32 = 0) /\
    (k = left \/ Z.land (lsr (n + k - 1)%nat) 32 <> 0).
Proof.
  revert n. induction left as [|left IH]; intros n; cbn.
  - exists O. split_and!; [lia|lia|intros; lia|by left].
  - destruct (Z.eqb_spec (Z.land (lsr n) 32) 0) as [E|E]; cbn.
    + destruct (IH (S n)) as (k & -> & Hk & Hb & He). exists (S k). split_and!; [lia|lia| |].
      * intros [|j] Hj; [by rewrite Nat.add_0_r|]. replace (n + S j)%nat with (S n + j)%nat by lia. apply Hb. lia.
      * destruct He as [->|He]; [by left|]. destruct (decide (k = left)) as [->|]; [by left|right].
        destruct k as [|k]; [|by replace (n + S (S k) - 1)%nat with (S n + S k - 1)%nat by lia].
        replace (n + 1 - 1)%nat with (S n + 0 - 1)%nat by lia. done.
    + exists 1%nat. split_and!; [lia|lia|intros; lia|]. right. by replace (n + 1 - 1)%nat with n by lia.
Qed.

(** A character goes out once, at the first access that finds the port ready
    or after 128 of them; without a port nothing happens. *)
Lemma uart_sends lsr c n :
  uartputc lsr false c n = (n, []) /\
  exists k, uartputc lsr true c n = ((n + k)%nat, [(COM1, u8 c)]) /\ (k <= 128)%nat /\
    (k = 128%nat \/ Z.land (lsr (n + k - 1)%nat) 32 <> 0).
Proof.
  split; [done|]. destruct (uart_wait_spec lsr 128 n) as (k & E & Hk & _ & He). exists k.
  split; [|done]. unfold uartputc. by rewrite E.
Qed.

(** The handler hands over all the bytes that have arrived. *)
Lemma uartintr_drains fifo : Forall (Z.le 0) fifo -> uart_chars (length fifo) true fifo = Some fifo.
Proof.
  induction 1 as [|c fifo Hc _ IH]; [done|]. cbn. destruct (Z.ltb_spec c 0); [lia|]. by rewrite IH.
Qed.

(** The log is recovered by the first process, once [ptable.lock] is free. *)
Lemma forkret_once : forkret true = (false, [ReleasePtable; Iinit 1; Initlog 1]) /\ forkret false = (false, [ReleasePtable]).
Proof. done. Qed.

(** ** The console's set-up and [panic] *)

Definition CONSOLE : Z := 1.
Definition IRQ_KBD : Z := 1.

(** [devsw] with the console's two functions, and the interrupt line that is
    enabled, for processor 0. *)
Definition consoleinit {R W : Type} (consoleread : R) (consolewrite : W) (devsw : Z -> option (R * W)) :
    (Z -> option (R * W)) * (Z * Z) :=
  (fun major => if major =? CONSOLE then Some (consoleread, consolewrite) else devsw major, (IRQ_KBD, 0)).

(** What [panic(s)] prints: [s] is taken as a format, [args] are the words
    that follow it on the stack, [pcs] the callers. *)
Definition panic_text (m : mem) (args : nat -> Z) (fuel : nat) (apicid : Z) (s : list Z) (pcs : list Z) : option (list Z) :=
  t ← cprintf m args fuel s;
  Some ([108; 97; 112; 105; 99; 105; 100; 32] ++ kprintint (i32 apicid) 10 true ++ [58; 32; 112; 97; 110; 105; 99; 58; 32]
        ++ t ++ [10] ++ mjoin ((fun pc => 32 :: kprintint (i32 pc) 16 false) <$> pcs)).

(** The messages of the kernel have no per cent sign and are printed as they
    are. *)
Lemma panic_text_plain m args fuel apicid s pcs :
  37 ∉ s ->
  panic_text m args fuel apicid s pcs =
    Some ([108; 97; 112; 105; 99; 105; 100; 32] ++ kprintint (i32 apicid) 10 true ++ [58; 32; 112; 97; 110; 105; 99; 58; 32]
          ++ s ++ [10] ++ mjoin ((fun pc => 32 :: kprintint (i32 pc) 16 false) <$> pcs)).
Proof.
  intros Hs. unfold panic_text. enough (cprintf m args fuel s = Some s) as -> by done.
  unfold cprintf. generalize 0%nat. induction s as [|c s IH]; intros ap; [done|]. apply not_elem_of_cons in Hs as [Hc Hs].
  cbn [cprintf_loop]. destruct (Z.eqb_spec c 37); [congruence|]. cbn [negb]. by rewrite IH.
Qed.
