(* ===== verification/VmCount.v ===== *)
(** The page counters of vm.c: [countpages], [countkvm], [countuvm], and
    [kvmalloc].

    [FLAG_SET] is used by vm.c and defined by no file; it is a parameter of the
    counters. Theorem: [countuvm] adds up one for every page below the size
    whose entry passes the test, and takes one off for a page without a table
    ([countuvm_counts]). *)

From Stdlib Require Import ZArith Lia.
From stdpp Require Import base strings gmap numbers list.
From S2P Require Import Prelude KString Kalloc Vm VmSpec Threads.

Open Scope Z_scope.

Section Count.
Variable FLAG_SET : Z -> Z -> bool.

(** The loop of [countpages]. *)
Fixpoint countpages_loop (fuel : nat) (pgdir a last perm no_perm pages : Z) : M kmem Z :=
  match fuel with
  | O => out_of_fuel
  | S f =>
      let* pte := walkpgdir pgdir a false in
      if pte =? 0 then ret (-1)
      else
        let* e := load pte in
        let pages := if FLAG_SET e PTE_P && FLAG_SET e perm && negb (FLAG_SET e no_perm) then i32 (pages + 1) else pages in
        if a =? last then ret pages
        else countpages_loop f pgdir (u32 (a + PGSIZE)) last perm no_perm pages
  end.

(** The loop visits the pages from [a] to [last]. *)
Definition countpages (pgdir va size perm no_perm : Z) : M kmem Z :=
  let a := PGROUNDDOWN va in
  let last := PGROUNDDOWN (u32 (va + size - 1)) in
  countpages_loop (S (Z.to_nat (u32 (last - a) / PGSIZE))) pgdir a last perm no_perm 0.

Fixpoint countkvm_loop (pgdir pages : Z) (ks : list (Z * Z * Z * Z)) : M kmem Z :=
  match ks with
  | [] => ret pages
  | (virt, pstart, pend, _) :: ks' =>
      let* n := countpages pgdir virt (u32 (pend - pstart)) PTE_P PTE_U in
      countkvm_loop pgdir (i32 (pages + n)) ks'
  end.
Definition countkvm (kdata pgdir : Z) : M kmem Z := countkvm_loop pgdir 0 (kmap kdata).

(** The loop of [countuvm]: [i < sz] compares as [uint]. *)
Fixpoint countuvm_loop (fuel : nat) (pgdir i sz pages : Z) : M kmem Z :=
  if u32 i <? sz then
    match fuel with
    | O => out_of_fuel
    | S f =>
        let* n := countpages pgdir (u32 i) PGSIZE PTE_U 0 in
        countuvm_loop f pgdir (i32 (i + PGSIZE)) sz (i32 (pages + n))
    end
  else ret pages.
Definition countuvm (pgdir sz : Z) : M kmem Z :=
  countuvm_loop (Z.to_nat ((sz + PGSIZE - 1) / PGSIZE)) pgdir 0 sz 0.

(** ** Theorems *)

(** What page [k] counts for. *)
Definition page_count (m : mem) (pgdir : Z) (k : nat) : Z :=
  let va := Z.of_nat k * PGSIZE in
  if slot m pgdir va =? 0 then -1
  else
    let e := rd32 m (slot m pgdir va) in
    if FLAG_SET e PTE_P && FLAG_SET e PTE_U && negb (FLAG_SET e 0) then 1 else 0.

Lemma countpages_page s pgdir k :
  Z.of_nat k * PGSIZE + PGSIZE <= 4294967296 ->
  countpages pgdir (Z.of_nat k * PGSIZE) PGSIZE PTE_U 0 s = Ret (page_count (kbytes s) pgdir k) s.
Proof.
  intros Hk. unfold countpages. rewrite (u32_small (Z.of_nat k * PGSIZE + PGSIZE - 1)) by lia.
  pose proof (PGROUNDDOWN_spec (Z.of_nat k * PGSIZE) ltac:(lia)).
  pose proof (PGROUNDDOWN_spec (Z.of_nat k * PGSIZE + PGSIZE - 1) ltac:(lia)).
  assert (PGROUNDDOWN (Z.of_nat k * PGSIZE) = Z.of_nat k * PGSIZE) as -> by dlia.
  assert (PGROUNDDOWN (Z.of_nat k * PGSIZE + PGSIZE - 1) = Z.of_nat k * PGSIZE) as -> by dlia.
  cbn [countpages_loop]. rewrite (bind_ret _ _ _ _ _ (walk_noalloc pgdir (Z.of_nat k * PGSIZE) s)).
  unfold page_count. destruct (_ =? 0); [done|]. unfold load, bind, gets. rewrite Z.eqb_refl.
  by destruct (FLAG_SET _ PTE_P && _ && _).
Qed.

Lemma countuvm_loop_run s pgdir sz n : forall k pages,
  0 <= sz <= 2147483648 -> (Z.of_nat k + Z.of_nat n) * PGSIZE - PGSIZE < sz <= (Z.of_nat k + Z.of_nat n) * PGSIZE ->
  countuvm_loop n pgdir (i32 (Z.of_nat k * PGSIZE)) sz (i32 pages) s =
    Ret (i32 (pages + sumf (page_count (kbytes s) pgdir) (seq k n))) s.
Proof.
  induction n as [|n IH]; intros k pages Hs Hn; cbn [countuvm_loop seq sumf]; rewrite u32_i32, u32_small by lia.
  - destruct (Z.ltb_spec (Z.of_nat k * PGSIZE) sz); [lia|]. by rewrite Z.add_0_r.
  - destruct (Z.ltb_spec (Z.of_nat k * PGSIZE) sz); [|lia].
    rewrite (bind_ret _ _ _ _ _ (countpages_page s pgdir k ltac:(lia))), !i32_add_l.
    replace (Z.of_nat k * PGSIZE + PGSIZE) with (Z.of_nat (S k) * PGSIZE) by lia.
    rewrite IH by lia. do 2 f_equal. lia.
Qed.

(** [countuvm] for a size up to KERNBASE: the sum over the pages below the
    size, one for an entry that is present, of the user and passes the rest of
    the test, nothing for another entry, minus one for a page whose table is
    missing; memory is only read. *)
Theorem countuvm_counts pgdir sz s :
  0 <= sz <= 2147483648 ->
  countuvm pgdir sz s =
    Ret (sumf (page_count (kbytes s) pgdir) (seq 0 (Z.to_nat ((sz + PGSIZE - 1) / PGSIZE)))) s.
Proof.
  intros Hs. unfold countuvm.
  set (n := Z.to_nat ((sz + PGSIZE - 1) / PGSIZE)). assert (Hn : (Z.of_nat n) * PGSIZE - PGSIZE < sz <= (Z.of_nat n) * PGSIZE /\ Z.of_nat n <= 524288).
  { unfold n. rewrite Z2Nat.id by dlia. dlia. }
  change (countuvm_loop n pgdir 0 sz 0 s) with (countuvm_loop n pgdir (i32 (Z.of_nat 0 * PGSIZE)) sz (i32 0) s).
  rewrite countuvm_loop_run by lia. f_equal. cbn [Z.add].
  assert (forall l, - Z.of_nat (length l) <= sumf (page_count (kbytes s) pgdir) l <= Z.of_nat (length l)) as Hb.
  { intros l. induction l as [|x l IH]; cbn [sumf length]; [lia|]. unfold page_count at 1 3. repeat case_match; lia. }
  specialize (Hb (seq 0 n)). rewrite length_seq in Hb. set (v := sumf _ _) in *. clearbody v.
  clearbody n. rewrite Z.add_0_l. unfold i32, u32. destruct (Z.ltb_spec (v mod 4294967296) 2147483648); dlia.
Qed.
End Count.

Lemma countuvm_counts_witness :
  countuvm has (P2V 0) 8192 kmem0 = Ret (-2) kmem0.
Proof. rewrite (countuvm_counts has (P2V 0) 8192 kmem0 ltac:(lia)). vm_compute. reflexivity. Defined.

(** [kvmalloc]: the kernel's directory is made and the processor uses it. *)
Definition kvmalloc (kend kdata : Z) (h : mmu) : M kmem mmu :=
  let* p := setupkvm kend kdata in
  ret (switchkvm {| cr3 := cr3 h; esp0 := esp0 h; kpgdir := p |}).
